(* ===== verification/_CoqProject ===== *)
-Q . S2P
Prelude.v
CString.v
Ulib.v
Riscv.v
Kalloc.v
Vm.v
PageTable.v
VmWalk.v
VmMap.v
VmUnmap.v
VmAlloc.v
VmUser.v
VmKernel.v
VmCopy.v
VmFree.v
MemTheorems.v
Spinlock.v
Sleeplock.v
Layout.v
Bio.v
BioSpec.v
Virtio.v
VirtioSpec.v
VirtioInit.v
Log.v
LogSpec.v
LogAtomic.v
LogReserve.v
Tx.v
LogTheorems.v
Pipe.v
Kernel.v
Sched.v
Fs.v
FsBlock.v
FsFile.v
FsData.v
FsWrite.v
FsUser.v
FsTrunc.v
FsDir.v
Mkfs.v
MkfsSpec.v
MkfsTheorems.v
Printf.v
KPrintf.v
Proc.v
Console.v
File.v
FsTheorems.v
ConsoleSpec.v
ProcSpec.v
Process.v
ForkSpec.v
Syscall.v
Asm.v
Trap.v
Usys.v
Boot.v
BootSpec.v
Umalloc.v
UmallocSpec.v
Grep.v
Tools.v
Sh.v
ShSpec.v
ShPrint.v
User.v
UserSem.v
TestLib.v
UsertestsFs.v
UsertestsProc.v
UsertestsMem.v
Usertests.v
TestPrograms.v
ShRun.v
Find.v
FindSpec.v
Machine.v
