(* ===== verification/Prelude.v ===== *)
(** * Verification of the xv6 kernel, its file-system builder and its user programs

    The program is xv6 for RISC-V (src/kernel), the tool that makes its disk
    image (src/mkfs) and its user programs (src/user), built for the lab "util".
    This development is a shallow embedding: every C function is a Rocq function
    over an explicit state, with the same branches, early returns and panics,
    and the theorems are about those functions.

    ** The parts and how they interact

    User programs enter the kernel through the system call stubs (Usys.v), the
    trampoline (Asm.v) and usertrap (Trap.v), which runs the system call
    (Syscall.v).  System calls work on
    processes (Proc.v, Process.v), on open files and pipes (File.v, Pipe.v,
    Console.v) and through them on the file system (Fs.v), which keeps its blocks
    in transactions of the log (Log.v) over the buffer cache (Bio.v) over the disk
    driver (Virtio.v).  Memory comes from the page allocator (Kalloc.v) and is
    reached through page tables (Vm.v).  Everything is protected by the locks of
    Spinlock.v and Sleeplock.v and scheduled by Sched.v.  Boot.v starts it all,
    and the disk it finds was made by mkfs (Mkfs.v).  Machine.v puts the parts
    together and runs the tests of user/usertests.c on them.

    ** The model

    - Machine integers are [Z] with the wrap-around written out ([u8] to [u64],
      [i16] to [i64], this file).  A [char] is a [byte].
    - Physical memory is a function from addresses to bytes (this file), so
      structures that live in memory (the free list of pages, page tables, the
      trapframes) are read and written as the code does.
    - Kernel code is a term of [M S A] (this file): a resumption over the state
      [S] that returns, panics, or gives up the CPU at a named channel, with locks
      taken and released by name.  [wp] is total correctness of code that does
      not sleep; [safe] and [rg] are correctness under interference, where what
      other threads do while a thread sleeps is quantified over, restricted by an
      invariant or by a rely condition.
    - Kernel data above memory is the record of Kernel.v.  A pointer into a table
      is an index, a null pointer that is tested is [None] or 0 as in the source.
    - The lock code, the scheduler and the printing of messages and panics are
      machines of their own (Spinlock.v, Sched.v, KPrintf.v) with one atomic
      access per step and any number of CPUs.
    - User programs are interaction trees over the system calls (User.v); the test
      programs also pass raw addresses to the kernel and touch memory (TestLib.v).

    ** Files

    - Prelude.v, Layout.v: integers, bytes, memory, the kernel monad with its
      rules and tactics, and the fields of structures stored in blocks.
    - CString.v: kernel/string.c.  Riscv.v: the constants and macros of
      kernel/param.h, memlayout.h and riscv.h.
    - Kalloc.v: kernel/kalloc.c.  Vm.v: kernel/vm.c; PageTable.v has the
      ownership invariant of page tables, VmWalk.v, VmMap.v, VmUnmap.v,
      VmAlloc.v, VmUser.v, VmKernel.v, VmCopy.v and VmFree.v one group of functions each,
      MemTheorems.v the theorems.
    - Spinlock.v, Sleeplock.v: kernel/spinlock.c and kernel/sleeplock.c.
      Sched.v: scheduler, sched, sleep, wakeup, yield and the scans of the process
      table in kernel/proc.c on several CPUs.
    - Bio.v: kernel/bio.c, with the class [BlockCache] that states what the cache
      promises to its clients; BioSpec.v proves that the cache implements it.
      Virtio.v, VirtioSpec.v, VirtioInit.v: kernel/virtio_disk.c.
    - Log.v: kernel/log.c; LogSpec.v, LogAtomic.v, LogReserve.v, LogTheorems.v its
      theorems over any [BlockCache]; Tx.v the view of a transaction that the file
      system works with.
    - Pipe.v: the ring buffer of kernel/pipe.c.  Kernel.v: the tables of the
      kernel.  File.v: kernel/file.c and the rest of kernel/pipe.c.
      Console.v: kernel/console.c and kernel/uart.c; ConsoleSpec.v the line editor
      that they implement.  Printf.v: the formatting of kernel/printf.c and
      user/printf.c; KPrintf.v: printf, panic and uartputc_sync on several CPUs.
    - Fs.v: kernel/fs.c; FsBlock.v (the free map), FsFile.v (the block map of
      a file), FsData.v (readi), FsWrite.v (iupdate, writei), FsUser.v (copying to
      and from user memory), FsTrunc.v (itrunc), FsDir.v (directories) and
      FsTheorems.v.
    - Mkfs.v: mkfs/mkfs.c; MkfsSpec.v and MkfsTheorems.v prove that its image
      satisfies the invariants of the Fs files.
    - Proc.v, Process.v: the process table, fork, exit, wait of kernel/proc.c and
      kernel/exec.c; ProcSpec.v and ForkSpec.v prove what allocproc, fork and wait
      do to the process table and to memory.  Syscall.v: kernel/syscall.c, sysfile.c and sysproc.c.
    - Asm.v: trampoline.S, kernelvec.S, swtch.S and entry.S instruction by
      instruction.  Trap.v: kernel/trap.c and plic.c.  Usys.v: user/usys.pl and
      kernel/syscall.h.  Boot.v, BootSpec.v:
      start.c, main.c and the kernel's page table.
    - Umalloc.v, UmallocSpec.v: user/umalloc.c.  Sh.v, ShSpec.v, ShPrint.v,
      ShRun.v: user/sh.c.  Grep.v: user/grep.c.  Ulib.v: the string and memory routines of
      user/ulib.c.  Tools.v: its other pure routines and those of wc, sixfive,
      memdump, ls, echo.  User.v: the other commands and the main functions;
      UserSem.v runs them.  Find.v, FindSpec.v: user/find.c.
    - TestLib.v: what the test programs share.  UsertestsFs.v, UsertestsProc.v and
      UsertestsMem.v: the tests of user/usertests.c on files, on processes and on
      memory; Usertests.v: its tables and its driver.  TestPrograms.v:
      user/forktest.c, stressfs.c, logstress.c and grind.c.  Machine.v: the kernel
      on a disk of mkfs, user processes with their system calls and memory accesses,
      a scheduler for them, and the tests that pass.

    ** What the theorems show

    - Crash safety and the log: a crash at any disk write of a commit recovers
      to all or none of the transaction; the reservation of begin_op keeps the
      log from overflowing; a write of the size filewrite uses stays within it.
    - Files: writei and readi are the operations of a sequence of bytes, itrunc
      frees exactly the blocks of a file, dirlink and dirlookup are insertion and
      lookup in a finite map.  The image of mkfs satisfies the invariants that
      these theorems start from.
    - The disk driver refines an atomic block transfer under every interleaving of
      device, interrupts and other processes.
    - Concurrency: mutual exclusion and refinement of atomic locks, no lost
      wakeup, no process on two CPUs, pipes deliver bytes in order.
    - Memory: the allocator and the page tables conserve pages; mapping, growing,
      copying and freeing address spaces and copying to and from user memory
      have their functional specification, page faults included.
    - Processes: fork copies memory, registers, files and directory and shares
      nothing else, or leaves everything as it was; wait gives back every page of a
      zombie.
    - The console is a line editor whose lines arrive complete and in order at
      its readers; without a panic messages of the kernel come out whole, and a
      panic is printed whoever holds the lock, after which the output is frozen.
    - Traps and boot: a call of a system call stub runs the kernel's function of that
      number and returns with the registers of the user restored, an interrupt in the kernel is transparent, a
      context switch resumes, and the kernel's address space is as documented.
    - The whole system: the model of the kernel runs twelve tests of
      user/usertests.c, system call by system call, to the status 0.
    - User space: the allocator partitions its heap, the parser of the shell
      terminates and inverts printing, runcmd connects descriptors as the command
      says, grep decides its language, find prints the matching paths.
    - Error cases that the code does not mean to have are theorems too: a copy
      from an address above MAXVA panics the kernel, a huge request makes malloc
      return memory outside the heap, mkfs gives a full root directory a block it
      does not have.

    ** Bounds and fuel

    Loops that count are recursions on the count.  Other loops take fuel computed
    from their arguments, chosen so that running out is impossible: the number
    of pages or blocks of a range, the length of a path or a line, the number of
    blocks of the heap.  Where a theorem says that a function returns, running out
    of fuel would make it false ([fuel_out] satisfies no postcondition).  A loop
    that waits for other threads has as fuel the patience of its thread
    ([t_patience]); the theorems hold for every patience.  In Machine.v each
    program has a fixed number of steps and each wait a patience of 100; a test that
    used them up would not count as passed.  Its machine has the memory and the
    disk that the tests need, and one process runs at a time, until it sleeps.

    ** Assumptions

    - The device completes requests as the virtio specification says, and its
      steps are atomic with respect to the interrupt handler.
    - Hardware does not write the accessed and dirty bits of page-table entries.
    - The theorems about one file-system call speak about the buffers its own
      transaction has locked; other calls run before or after it.
    - A write from user memory is specified when the copy succeeds.
    - sbrk answers as an oracle that keeps the heap of a program below 4 GB;
      malloc succeeds in the shell.
    - mkfs reads its files and writes its image without errors of the host.

    ** Not modelled

    - user/user.ld, Makefile and the grading scripts: a linker script, the build
      and host-side test drivers.  user/findtest.sh: a list of commands.
    - In riscv.h and memlayout.h, the registers and addresses no modelled function
      uses; the accessors of the control registers are one read and one write with
      the register as an argument (Trap.v).
    - Machine.v has no timer interrupt, no malloc, no program to exec and 26 free
      pages: the tests of usertests.c that need more are modelled but not run.
    - The timing of devices, and instruction fetch and fences. *)

(** ** Integers, bytes, physical memory and the kernel monad *)

From stdpp Require Export functions.
From stdpp Require Export base gmap list numbers strings.
From coqutil Require Export Byte.
From coqutil Require Import Word.LittleEndianList.
From Stdlib Require Export Lia.

#[global] Open Scope Z_scope.

(** Linear arithmetic with division and remainder. *)
Ltac divlia := Z.to_euclidean_division_equations; lia.

(** ** Machine integers

    The kernel's types.h integers are kept as [Z] with their wrap-around
    written out. *)

Definition u8 (x : Z) : Z := x mod 2 ^ 8.
Definition u16 (x : Z) : Z := x mod 2 ^ 16.
Definition u32 (x : Z) : Z := x mod 2 ^ 32.
Definition u64 (x : Z) : Z := x mod 2 ^ 64.

(** Conversion to the signed types [short] and [int]. *)
Definition i16 (x : Z) : Z := (x + 2 ^ 15) mod 2 ^ 16 - 2 ^ 15.
Definition i32 (x : Z) : Z := (x + 2 ^ 31) mod 2 ^ 32 - 2 ^ 31.
Definition i64 (x : Z) : Z := (x + 2 ^ 63) mod 2 ^ 64 - 2 ^ 63.

(** A C condition: an integer is true when it is not zero. *)
Definition nz (x : Z) : bool := negb (x =? 0).

(** ** Bytes

    [char] is unsigned in the RISC-V ABI; [cv] is the value of a [char] or
    [uchar] after integer promotion. *)

Abbreviation cv := byte.unsigned.
Abbreviation chr := byte.of_Z.

#[global] Instance byte_eq_decision : EqDecision byte := Byte.byte_eq_dec.

Lemma cv_inj p q : cv p = cv q -> p = q.
Proof. intros E. by rewrite <-(byte.of_Z_unsigned p), E, byte.of_Z_unsigned. Qed.
#[global] Instance byte_inhabited : Inhabited byte := populate (chr 0).

(** The bytes of an ASCII string literal. *)
Definition bytes_of (s : string) : list byte := String.list_byte_of_string s.

(** ** Physical memory: a finite map from addresses to bytes.  An address
    that was never written holds 0. *)

Abbreviation mem := (gmap Z byte).

Definition mget (m : mem) (a : Z) : byte := default (chr 0) (m !! a).

Fixpoint mread (m : mem) (a : Z) (n : nat) : list byte :=
  match n with
  | O => []
  | S n => mget m a :: mread m (a + 1) n
  end.

Fixpoint mwrite (m : mem) (a : Z) (l : list byte) : mem :=
  match l with
  | [] => m
  | b :: l => mwrite (<[a := b]> m) (a + 1) l
  end.

(** Little-endian loads and stores of an [n]-byte integer. *)
Definition load (n : nat) (m : mem) (a : Z) : Z := le_combine (mread m a n).
Definition store (n : nat) (m : mem) (a v : Z) : mem := mwrite m a (le_split n v).

Abbreviation load64 := (load 8).
Abbreviation store64 := (store 8).

(** ** Kernel threads

    A spinlock is named by the string given to [initlock] and the index of
    the object it belongs to; a wait channel by the object whose address is
    the channel. *)

Abbreviation lockid := (string * Z)%type.
Abbreviation chan := (string * Z)%type.

(** What a kernel thread does to the rest of the kernel besides changing
    the component's state. *)
Inductive event :=
| EWake (c : chan)
| EPrint (s : string).

(** The context of the running kernel thread: the spinlocks its CPU holds
    (so [noff] of struct cpu is the length of the list), the index and the pid of the
    process it runs for, the number of times a [while(cond) sleep()] loop is
    followed before the thread is reported as starved, and its events, the
    latest first. *)
Record tctx := {
  t_held : list lockid;
  t_proc : Z;
  t_pid : Z;
  t_patience : nat;
  t_trace : list event
}.

Inductive outcome (S A : Type) : Type :=
| Done (a : A) (t : tctx) (s : S)
| Panic (msg : string) (t : tctx) (s : S)
| Asleep (c : chan) (t : tctx) (s : S) (k : tctx -> S -> outcome S A)
| Starved (c : chan) (t : tctx) (s : S)
| OutOfFuel.

Arguments Done {S A}.
Arguments Panic {S A}.
Arguments Asleep {S A}.
Arguments Starved {S A}.
Arguments OutOfFuel {S A}.

(** A kernel function with result [A] over the state [S] of its component. *)
Definition M (S A : Type) : Type := tctx -> S -> outcome S A.

Fixpoint obind {S A B} (o : outcome S A) (f : A -> M S B) : outcome S B :=
  match o with
  | Done a t s => f a t s
  | Panic msg t s => Panic msg t s
  | Asleep c t s k => Asleep c t s (fun t' s' => obind (k t' s') f)
  | Starved c t s => Starved c t s
  | OutOfFuel => OutOfFuel
  end.

#[global] Instance M_ret S : MRet (M S) := fun A a t s => Done a t s.
#[global] Instance M_bind S : MBind (M S) := fun A B f m t s => obind (m t s) f.

Section operations.
Context {S : Type}.

Definition panic {A} (msg : string) : M S A := fun t s => Panic msg t s.
Definition fuel_out {A} : M S A := fun _ _ => OutOfFuel.
Definition starved {A} (c : chan) : M S A := fun t s => Starved c t s.
Definition get : M S S := fun t s => Done s t s.
Definition gets {A} (f : S -> A) : M S A := fun t s => Done (f s) t s.
Definition modify (f : S -> S) : M S unit := fun t s => Done tt t (f s).
Definition self : M S tctx := fun t s => Done t t s.

Definition hold (l : lockid) (t : tctx) : tctx :=
  {| t_held := l :: t_held t; t_proc := t_proc t; t_pid := t_pid t;
     t_patience := t_patience t; t_trace := t_trace t |}.

Fixpoint lock_del (l : lockid) (ls : list lockid) : list lockid :=
  match ls with
  | [] => []
  | l' :: ls => if decide (l' = l) then ls else l' :: lock_del l ls
  end.

Definition unhold (l : lockid) (t : tctx) : tctx :=
  {| t_held := lock_del l (t_held t); t_proc := t_proc t; t_pid := t_pid t;
     t_patience := t_patience t; t_trace := t_trace t |}.

Definition emit_event (e : event) (t : tctx) : tctx :=
  {| t_held := t_held t; t_proc := t_proc t; t_pid := t_pid t;
     t_patience := t_patience t; t_trace := e :: t_trace t |}.

(** What the rest of the kernel relies on from spinlock.c; Spinlock.v
    models the lock words and the CPUs and shows that they implement it. *)
Definition acquire (l : lockid) : M S unit := fun t s =>
  if decide (l ∈ t_held t) then Panic "acquire" t s else Done tt (hold l t) s.

Definition release (l : lockid) : M S unit := fun t s =>
  if decide (l ∈ t_held t) then Done tt (unhold l t) s else Panic "release" t s.

(** The spinlock of a process's struct proc. *)
Definition proc_lock (p : Z) : lockid := ("proc", p).

(** sched(): the process must hold its own lock and nothing else. *)
Definition switch (c : chan) : M S unit := fun t s =>
  if decide (t_held t = [proc_lock (t_proc t)])
  then Asleep c t s (fun t' s' => Done tt t' s')
  else Panic "sched locks" t s.

(** sleep() of proc.c as its callers see it. *)
Definition sleep (c : chan) (lk : lockid) : M S unit :=
  t ← self;
  acquire (proc_lock (t_proc t));;
  release lk;;
  switch c;;
  release (proc_lock (t_proc t));;
  acquire lk.

(** wakeup() of proc.c as its callers see it: it takes the lock of every
    process but the running one. *)
Definition wakeup (c : chan) : M S unit := fun t s =>
  if decide (Forall (fun l => l.1 = "proc" -> l = proc_lock (t_proc t)) (t_held t))
  then Done tt (emit_event (EWake c) t) s
  else Panic "acquire" t s.

Definition printf (msg : string) : M S unit := fun t s =>
  Done tt (emit_event (EPrint msg) t) s.

(** [while(cond) sleep(c, lk);] with the thread's patience as the bound
    on the number of wakeups followed. *)
Fixpoint wait_loop (n : nat) (cond : S -> bool) (c : chan) (lk : lockid) : M S unit :=
  fun t s =>
    if cond s then
      match n with
      | O => Starved c t s
      | Datatypes.S n => (sleep c lk;; wait_loop n cond c lk) t s
      end
    else Done tt t s.

Definition wait_while (cond : S -> bool) (c : chan) (lk : lockid) : M S unit :=
  fun t s => wait_loop (t_patience t) cond c lk t s.
End operations.

(** Run a function of a component on the part of a larger state that
    belongs to the component. *)
Fixpoint ozoom {S T A} (put : S -> T -> T) (get : T -> S) (w : T) (o : outcome S A) : outcome T A :=
  match o with
  | Done a t s => Done a t (put s w)
  | Panic msg t s => Panic msg t (put s w)
  | Asleep c t s k => Asleep c t (put s w) (fun t' w' => ozoom put get w' (k t' (get w')))
  | Starved c t s => Starved c t (put s w)
  | OutOfFuel => OutOfFuel
  end.

Definition zoom {S T A} (get : T -> S) (put : S -> T -> T) (m : M S A) : M T A :=
  fun t w => ozoom put get w (m t (get w)).

(** ** Total correctness of a function that does not sleep: it returns, it
    does not panic, and the result and the final state satisfy [Q]. *)

Definition wp {S A} (m : M S A) (Q : A -> tctx -> S -> Prop) (t : tctx) (s : S) : Prop :=
  match m t s with
  | Done a t' s' => Q a t' s'
  | _ => False
  end.

(** Correctness under interference: whenever the thread sleeps, [I] holds
    of the state it leaves and it may resume in any state satisfying [I]. *)

Fixpoint osafe {S A} (I : S -> Prop) (o : outcome S A) (Q : A -> tctx -> S -> Prop) : Prop :=
  match o with
  | Done a t s => Q a t s
  | Panic _ _ _ => False
  | Asleep _ t s k => I s /\ forall s', I s' -> osafe I (k t s') Q
  | Starved _ _ s => I s
  | OutOfFuel => False
  end.

Definition safe {S A} (I : S -> Prop) (m : M S A) (Q : A -> tctx -> S -> Prop)
  (t : tctx) (s : S) : Prop := osafe I (m t s) Q.

(** Rely and guarantee: every stretch of the thread up to a point at which
    it sleeps satisfies [G], provided the stretches of the others in between
    satisfy [R].  [Q] is told where the last stretch began. *)
Fixpoint rg {S A} (R G : S -> S -> Prop) (s0 : S) (o : outcome S A) (Q : S -> A -> tctx -> S -> Prop) : Prop :=
  match o with
  | Done a t s => Q s0 a t s
  | Panic _ _ _ => False
  | Asleep _ t s k => G s0 s /\ forall s', R s s' -> rg R G s' (k t s') Q
  | Starved _ _ s => G s0 s
  | OutOfFuel => False
  end.

(** The same thread with perhaps more events. *)
Definition quiet (t t' : tctx) : Prop :=
  t_held t' = t_held t /\ t_proc t' = t_proc t /\ t_pid t' = t_pid t /\ t_patience t' = t_patience t.

#[global] Instance quiet_preorder : PreOrder quiet.
Proof. split; [by intros t|]. intros t1 t2 t3 (?&?&?&?) (?&?&?&?). unfold quiet. naive_solver congruence. Qed.

Lemma quiet_emit e t : quiet t (emit_event e t).
Proof. done. Qed.

(** ** Laws of the monad *)

Section laws.
Context {S : Type}.
Implicit Types (t : tctx) (s : S).

Lemma bind_done {A B} (m : M S A) (f : A -> M S B) t s a t' s' :
  m t s = Done a t' s' -> (m ≫= f) t s = f a t' s'.
Proof. unfold mbind, M_bind. by intros ->. Qed.

Lemma bind_panic {A B} (m : M S A) (f : A -> M S B) t s msg t' s' :
  m t s = Panic msg t' s' -> (m ≫= f) t s = Panic msg t' s'.
Proof. unfold mbind, M_bind. by intros ->. Qed.

Lemma bind_inv {A B} (m : M S A) (f : A -> M S B) t s b t' s' :
  (m ≫= f) t s = Done b t' s' ->
  exists a t1 s1, m t s = Done a t1 s1 /\ f a t1 s1 = Done b t' s'.
Proof. unfold mbind, M_bind. destruct (m t s); simpl; naive_solver. Qed.

Lemma wp_ret {A} (a : A) (Q : A -> tctx -> S -> Prop) t s :
  Q a t s -> wp (mret a) Q t s.
Proof. done. Qed.

Lemma wp_bind {A B} (m : M S A) (f : A -> M S B) Q t s :
  wp m (fun a t' s' => wp (f a) Q t' s') t s -> wp (m ≫= f) Q t s.
Proof. unfold wp, mbind, M_bind. by destruct (m t s). Qed.

Lemma wp_mono {A} (m : M S A) (P Q : A -> tctx -> S -> Prop) t s :
  wp m P t s -> (forall a t' s', P a t' s' -> Q a t' s') -> wp m Q t s.
Proof. unfold wp. destruct (m t s); naive_solver. Qed.

Lemma wp_done {A} (m : M S A) (Q : A -> tctx -> S -> Prop) t s a t' s' :
  m t s = Done a t' s' -> Q a t' s' -> wp m Q t s.
Proof. unfold wp. by intros ->. Qed.

Lemma wp_inv {A} (m : M S A) (Q : A -> tctx -> S -> Prop) t s :
  wp m Q t s -> exists a t' s', m t s = Done a t' s' /\ Q a t' s'.
Proof. unfold wp. destruct (m t s); naive_solver. Qed.

Lemma osafe_mono {A} (I : S -> Prop) (o : outcome S A) (P Q : A -> tctx -> S -> Prop) :
  osafe I o P -> (forall a t s, P a t s -> Q a t s) -> osafe I o Q.
Proof. induction o as [| |c t s k IH| |]; simpl; naive_solver. Qed.

Lemma safe_bind {A B} (I : S -> Prop) (m : M S A) (f : A -> M S B) Q t s :
  safe I m (fun a t' s' => safe I (f a) Q t' s') t s -> safe I (m ≫= f) Q t s.
Proof.
  unfold safe, mbind, M_bind. generalize (m t s) as o.
  induction o as [| |c t' s' k IH| |]; simpl; naive_solver.
Qed.

Lemma rg_bind {A B} (R G : S -> S -> Prop) (m : M S A) (f : A -> M S B) Q t s0 s :
  rg R G s0 (m t s) (fun s1 a t' s' => rg R G s1 (f a t' s') Q) -> rg R G s0 ((m ≫= f) t s) Q.
Proof.
  unfold mbind, M_bind. generalize (m t s) as o. intros o. clear t s m. revert s0.
  induction o as [a t' s'| |c t' s' k IH| |]; simpl; intros s1 Ho; try done.
  destruct Ho as [? Hk]. split; [done|]. intros s2 Hs. apply IH. by apply Hk.
Qed.

Lemma rg_mono {A} (R G : S -> S -> Prop) (o : outcome S A) (P Q : S -> A -> tctx -> S -> Prop) s0 :
  rg R G s0 o P -> (forall s1 a t s, P s1 a t s -> Q s1 a t s) -> rg R G s0 o Q.
Proof. intros Ho HPQ. revert s0 Ho. induction o as [| |c t s k IH| |]; simpl; naive_solver. Qed.

Lemma wp_rg {A} (R G : S -> S -> Prop) (m : M S A) Q t s0 s :
  wp m (fun a t' s' => Q s0 a t' s') t s -> rg R G s0 (m t s) Q.
Proof. unfold wp. by destruct (m t s). Qed.

Lemma wp_safe {A} (I : S -> Prop) (m : M S A) Q t s : wp m Q t s -> safe I m Q t s.
Proof. unfold wp, safe. by destruct (m t s). Qed.

Lemma unhold_hold l t : unhold l (hold l t) = t.
Proof. destruct t. unfold unhold, hold; simpl. by rewrite decide_True. Qed.

Lemma acquire_done l t s : l ∉ t_held t -> acquire l t s = Done tt (hold l t) s.
Proof. intros H. unfold acquire. by rewrite decide_False. Qed.

Lemma release_done l t s : release l (hold l t) s = Done tt t s.
Proof.
  unfold release. rewrite decide_True by (simpl; set_solver). by rewrite unhold_hold.
Qed.

Lemma wp_acquire l (Q : unit -> tctx -> S -> Prop) t s :
  l ∉ t_held t -> Q tt (hold l t) s -> wp (acquire l) Q t s.
Proof. intros. eapply wp_done; [by apply acquire_done|done]. Qed.

Lemma wp_release l (Q : unit -> tctx -> S -> Prop) t s :
  Q tt t s -> wp (release l) Q (hold l t) s.
Proof. intros. eapply wp_done; [apply release_done|done]. Qed.

Lemma wp_get (Q : S -> tctx -> S -> Prop) t s : Q s t s -> wp get Q t s.
Proof. done. Qed.

Lemma wp_gets {A} (f : S -> A) (Q : A -> tctx -> S -> Prop) t s :
  Q (f s) t s -> wp (gets f) Q t s.
Proof. done. Qed.

Lemma wp_modify (f : S -> S) (Q : unit -> tctx -> S -> Prop) t s :
  Q tt t (f s) -> wp (modify f) Q t s.
Proof. done. Qed.

Lemma wp_self (Q : tctx -> tctx -> S -> Prop) t s : Q t t s -> wp self Q t s.
Proof. done. Qed.

Lemma wp_printf msg (Q : unit -> tctx -> S -> Prop) t s :
  Q tt (emit_event (EPrint msg) t) s -> wp (printf msg) Q t s.
Proof. done. Qed.
End laws.

(** ** Memory lemmas *)

Section memory.
Implicit Types (m : mem) (a x : Z) (l : list byte).

Lemma mget_insert m a b x : mget (<[a := b]> m) x = if decide (a = x) then b else mget m x.
Proof. unfold mget. rewrite lookup_insert. by case_decide. Qed.

Lemma length_mread m a n : length (mread m a n) = n.
Proof. revert a. induction n as [|n IH]; intros a; simpl; auto. Qed.

Lemma lookup_mread m a n i :
  (i < n)%nat -> mread m a n !! i = Some (mget m (a + Z.of_nat i)).
Proof.
  revert a i. induction n as [|n IH]; intros a i Hi; [lia|].
  destruct i as [|i]; simpl; [by rewrite Z.add_0_r|].
  rewrite IH by lia. do 2 f_equal. lia.
Qed.

Lemma mread_ext m m' a n :
  (forall x, a <= x < a + Z.of_nat n -> mget m x = mget m' x) -> mread m a n = mread m' a n.
Proof.
  revert a. induction n as [|n IH]; intros a H; simpl; [done|].
  f_equal; [apply H; lia|]. apply IH. intros x Hx. apply H. lia.
Qed.

Lemma mget_mwrite_out m a l x :
  x < a \/ a + Z.of_nat (length l) <= x -> mget (mwrite m a l) x = mget m x.
Proof.
  revert m a. induction l as [|b l IH]; intros m a H; simpl in *; [done|].
  rewrite IH by lia. rewrite mget_insert, decide_False; [done|lia].
Qed.

Lemma mget_mwrite_in m a l i b :
  l !! i = Some b -> mget (mwrite m a l) (a + Z.of_nat i) = b.
Proof.
  revert m a i. induction l as [|b' l IH]; intros m a i H; simpl in *; [done|].
  destruct i as [|i]; simplify_eq/=.
  - rewrite mget_mwrite_out by lia. rewrite mget_insert, decide_True; [done|lia].
  - replace (a + Z.of_nat (S i)) with (a + 1 + Z.of_nat i) by lia. eauto.
Qed.

Lemma mread_mwrite m a l : mread (mwrite m a l) a (length l) = l.
Proof.
  apply list_eq. intros i. destruct (decide (i < length l)%nat) as [Hi|Hi].
  - rewrite lookup_mread by done. destruct (lookup_lt_is_Some_2 l i Hi) as [b Hb].
    rewrite Hb. f_equal. by apply mget_mwrite_in.
  - rewrite !lookup_ge_None_2; rewrite ?length_mread; lia || done.
Qed.

Lemma mread_mwrite_disjoint m a l x n :
  x + Z.of_nat n <= a \/ a + Z.of_nat (length l) <= x ->
  mread (mwrite m a l) x n = mread m x n.
Proof. intros H. apply mread_ext. intros y Hy. apply mget_mwrite_out. lia. Qed.

Lemma load_range n m a : 0 <= load n m a < 2 ^ (8 * Z.of_nat n).
Proof.
  unfold load. pose proof (le_combine_bound (mread m a n)) as H.
  by rewrite length_mread in H.
Qed.

Lemma load_ext n m m' a :
  (forall x, a <= x < a + Z.of_nat n -> mget m x = mget m' x) -> load n m a = load n m' a.
Proof. intros H. unfold load. f_equal. by apply mread_ext. Qed.

Lemma load_store n m a v : load n (store n m a v) a = v mod 2 ^ (Z.of_nat n * 8).
Proof.
  unfold load, store. pose proof (mread_mwrite m a (le_split n v)) as H.
  rewrite length_le_split in H. by rewrite H, le_combine_split.
Qed.

Lemma mget_store_out n m a v x :
  x < a \/ a + Z.of_nat n <= x -> mget (store n m a v) x = mget m x.
Proof. intros H. apply mget_mwrite_out. by rewrite length_le_split. Qed.

Lemma load_store_disjoint n k m a v x :
  x + Z.of_nat k <= a \/ a + Z.of_nat n <= x ->
  load k (store n m a v) x = load k m x.
Proof. intros H. apply load_ext. intros y Hy. apply mget_store_out. lia. Qed.

Lemma load64_store64 m a v : 0 <= v < 2 ^ 64 -> load64 (store64 m a v) a = v.
Proof. intros H. rewrite load_store. by apply Z.mod_small. Qed.

Lemma mread_app m a n k : mread m a (n + k) = mread m a n ++ mread m (a + Z.of_nat n) k.
Proof.
  revert a. induction n as [|n IH]; intros a; simpl.
  - by rewrite Z.add_0_r.
  - rewrite IH. do 3 f_equal. lia.
Qed.
End memory.

(** A state given as a function of an index, updated at one index. *)
Lemma upd_eq {T} (f : Z -> T) c v c' : (<[c := v]> f) c' = if decide (c = c') then v else f c'.
Proof. done. Qed.

Lemma upd_same {T} (f : Z -> T) c v : (<[c := v]> f) c = v.
Proof. rewrite upd_eq. by case_decide. Qed.

Lemma upd_other {T} (f : Z -> T) c v c' : c <> c' -> (<[c := v]> f) c' = f c'.
Proof. intros. rewrite upd_eq. by case_decide. Qed.

(** Running a component's function on its part of a larger state. *)
Lemma wp_zoom {S T A} (get : T -> S) (put : S -> T -> T) (m : M S A) Q t w :
  wp m (fun a t' s' => Q a t' (put s' w)) t (get w) -> wp (zoom get put m) Q t w.
Proof. unfold wp, zoom. by destruct (m t (get w)). Qed.

(** ** Proof automation *)

(** Step through the code of a [wp] goal. *)
Ltac wp_step :=
  lazymatch goal with
  | |- wp (mbind _ _) _ _ _ => apply wp_bind
  | |- wp (mret _) _ _ _ => apply wp_ret
  | |- wp get _ _ _ => apply wp_get
  | |- wp (gets _) _ _ _ => apply wp_gets
  | |- wp (modify _) _ _ _ => apply wp_modify
  | |- wp self _ _ _ => apply wp_self
  | |- wp (printf _) _ _ _ => apply wp_printf
  | |- wp (release ?l) _ (hold ?l _) _ => apply wp_release
  | |- wp (acquire _) _ _ _ => apply wp_acquire; [try done|]
  end; cbv beta.

Ltac wp_steps := repeat (wp_step; cbv zeta).

(** Invert a successful run of a sequence of binds. *)
Ltac inv_bind H :=
  let a := fresh "a" in let t1 := fresh "t" in let s1 := fresh "s" in let E := fresh "E" in
  apply bind_inv in H as (a & t1 & s1 & E & H).

Create HintDb xv6.
Create Rewrite HintDb xv6.
#[export] Hint Resolve load_range : xv6.
#[export] Hint Rewrite @unhold_hold : xv6.
