(* ===== verification/CString.v ===== *)
(** * CString: the memory and string routines of kernel/string.c

    Each routine is a function on physical memory.  A loop that counts down
    its length argument recurses on that length; [strlen], whose loop has no
    bound in the source, recurses on explicit fuel. *)

From S2P Require Import Prelude.

Fixpoint memset_loop (m : mem) (cdst c : Z) (i : Z) (k : nat) : mem :=
  match k with
  | O => m
  | S k => memset_loop (<[cdst + i := chr c]> m) cdst c (i + 1) k
  end.

Definition memset (m : mem) (dst c n : Z) : mem := memset_loop m dst c 0 (Z.to_nat n).

Fixpoint memcmp_loop (m : mem) (s1 s2 : Z) (n : nat) : Z :=
  match n with
  | O => 0
  | S n =>
      if negb (cv (mget m s1) =? cv (mget m s2)) then cv (mget m s1) - cv (mget m s2)
      else memcmp_loop m (s1 + 1) (s2 + 1) n
  end.

Definition memcmp (m : mem) (v1 v2 n : Z) : Z := memcmp_loop m v1 v2 (Z.to_nat n).

(** [while(n-- > 0) *--d = *--s;] *)
Fixpoint copy_down (m : mem) (d s : Z) (n : nat) : mem :=
  match n with
  | O => m
  | S n => copy_down (<[d - 1 := mget m (s - 1)]> m) (d - 1) (s - 1) n
  end.

(** [while(n-- > 0) *d++ = *s++;] *)
Fixpoint copy_up (m : mem) (d s : Z) (n : nat) : mem :=
  match n with
  | O => m
  | S n => copy_up (<[d := mget m s]> m) (d + 1) (s + 1) n
  end.

Definition memmove (m : mem) (dst src n : Z) : mem :=
  if n =? 0 then m
  else
    let s := src in
    let d := dst in
    if (s <? d) && (d <? s + n) then copy_down m (d + n) (s + n) (Z.to_nat n)
    else copy_up m d s (Z.to_nat n).

Definition memcpy (m : mem) (dst src n : Z) : mem := memmove m dst src n.

Fixpoint strncmp_loop (m : mem) (p q : Z) (n : nat) : Z :=
  match n with
  | O => 0
  | S n =>
      if nz (cv (mget m p)) && (cv (mget m p) =? cv (mget m q))
      then strncmp_loop m (p + 1) (q + 1) n
      else cv (mget m p) - cv (mget m q)
  end.

Definition strncmp (m : mem) (p q n : Z) : Z := strncmp_loop m p q (Z.to_nat n).

(** [while(n-- > 0 && ( *s++ = *t++) != 0);] with the final [s] and the count left. *)
Fixpoint strncpy_copy (m : mem) (s t : Z) (n : nat) : mem * Z * nat :=
  match n with
  | O => (m, s, O)
  | S n =>
      let m' := <[s := mget m t]> m in
      if nz (cv (mget m t)) then strncpy_copy m' (s + 1) (t + 1) n else (m', s + 1, n)
  end.

Fixpoint strncpy_pad (m : mem) (s : Z) (n : nat) : mem :=
  match n with
  | O => m
  | S n => strncpy_pad (<[s := chr 0]> m) (s + 1) n
  end.

Definition strncpy (m : mem) (s t n : Z) : mem :=
  let '(m, s, k) := strncpy_copy m s t (Z.to_nat n) in
  strncpy_pad m s k.

(** [while(--n > 0 && ( *s++ = *t++) != 0);] called with the value of [n - 1]. *)
Definition safestrcpy (m : mem) (s t n : Z) : mem :=
  if n <=? 0 then m
  else
    let '(m, s, _) := strncpy_copy m s t (Z.to_nat (n - 1)) in
    <[s := chr 0]> m.

Fixpoint strlen_loop (m : mem) (s : Z) (n : Z) (fuel : nat) : option Z :=
  match fuel with
  | O => None
  | S fuel => if nz (cv (mget m (s + n))) then strlen_loop m s (n + 1) fuel else Some n
  end.

Definition strlen (m : mem) (s : Z) (fuel : nat) : option Z := strlen_loop m s 0 fuel.

(** ** Reference definitions *)

(** The characters of a C string up to its NUL, at most [n] of them. *)
Fixpoint cstr (m : mem) (p : Z) (n : nat) : list byte :=
  match n with
  | O => []
  | S n => if nz (cv (mget m p)) then mget m p :: cstr m (p + 1) n else []
  end.

(** The bytes [src .. src+n) of [m] placed at [dst]. *)
Definition copied (m : mem) (dst src n : Z) (x : Z) : byte :=
  if decide (dst <= x < dst + n) then mget m (src + (x - dst)) else mget m x.

(** ** Lemmas *)

Lemma mget_memset_loop m dst c i k x :
  mget (memset_loop m dst c i k) x =
  if decide (dst + i <= x < dst + i + Z.of_nat k) then chr c else mget m x.
Proof.
  revert m i. induction k as [|k IH]; intros m i; simpl.
  - by rewrite decide_False by lia.
  - rewrite IH, mget_insert. repeat case_decide; lia || done.
Qed.

Lemma mget_memset m dst c n x :
  0 <= n -> mget (memset m dst c n) x = if decide (dst <= x < dst + n) then chr c else mget m x.
Proof.
  intros Hn. unfold memset. rewrite mget_memset_loop, Z.add_0_r, Z2Nat.id by done. done.
Qed.

Lemma mget_memset_out m dst c n x :
  0 <= n -> x < dst \/ dst + n <= x -> mget (memset m dst c n) x = mget m x.
Proof. intros. rewrite mget_memset by done. by rewrite decide_False by lia. Qed.

Lemma mget_copy_down m d s n x :
  s <= d ->
  mget (copy_down m d s n) x =
  if decide (d - Z.of_nat n <= x < d) then mget m (s - (d - x)) else mget m x.
Proof.
  revert m d s. induction n as [|n IH]; intros m d s Hsd; simpl.
  - by rewrite decide_False by lia.
  - rewrite IH, !mget_insert by lia. repeat case_decide; try lia; try done.
    all: f_equal; lia.
Qed.

Lemma mget_copy_up m d s n x :
  d <= s \/ s + Z.of_nat n <= d ->
  mget (copy_up m d s n) x =
  if decide (d <= x < d + Z.of_nat n) then mget m (s + (x - d)) else mget m x.
Proof.
  revert m d s. induction n as [|n IH]; intros m d s Hsd; simpl.
  - by rewrite decide_False by lia.
  - rewrite IH, !mget_insert by lia. repeat case_decide; try lia; try done.
    all: f_equal; lia.
Qed.

Lemma mget_memmove m dst src n x :
  0 <= n -> mget (memmove m dst src n) x = copied m dst src n x.
Proof.
  intros Hn. unfold memmove, copied. destruct (Z.eqb_spec n 0) as [->|Hn0].
  { by rewrite decide_False by lia. }
  destruct ((src <? dst) && (dst <? src + n)) eqn:E.
  - rewrite mget_copy_down by lia. rewrite Z2Nat.id by lia.
    repeat case_decide; lia || done || (f_equal; lia).
  - rewrite mget_copy_up by lia. rewrite Z2Nat.id by lia. done.
Qed.

Lemma mread_memmove m dst src n :
  0 <= n -> mread (memmove m dst src n) dst (Z.to_nat n) = mread m src (Z.to_nat n).
Proof.
  intros Hn. apply list_eq. intros i. destruct (decide (i < Z.to_nat n)%nat) as [Hi|Hi].
  - rewrite !lookup_mread by done. f_equal. rewrite mget_memmove by done.
    unfold copied. rewrite decide_True by lia. f_equal. lia.
  - rewrite !lookup_ge_None_2; rewrite ?length_mread; lia || done.
Qed.

Lemma nz_true x : nz x = true <-> x <> 0.
Proof. unfold nz. destruct (Z.eqb_spec x 0); naive_solver. Qed.

Lemma nz_false x : nz x = false <-> x = 0.
Proof. unfold nz. destruct (Z.eqb_spec x 0); naive_solver. Qed.

Lemma length_cstr m p n : (length (cstr m p n) <= n)%nat.
Proof.
  revert p. induction n as [|n IH]; intros p; simpl; [done|].
  destruct (nz _); simpl; [|lia]. specialize (IH (p + 1)). lia.
Qed.

Lemma strncmp_loop_zero m p q n :
  strncmp_loop m p q n = 0 <-> cstr m p n = cstr m q n.
Proof.
  revert p q. induction n as [|n IH]; intros p q; simpl; [done|].
  destruct (nz (cv (mget m p))) eqn:Ep; simpl.
  - destruct (Z.eqb_spec (cv (mget m p)) (cv (mget m q))) as [E|E].
    + apply byte.unsigned_inj in E. rewrite IH, <-E, Ep. split; [by intros ->|by intros [=]].
    + split; [lia|]. destruct (nz (cv (mget m q))); [|done]. intros [=]. congruence.
  - apply nz_false in Ep. rewrite Ep. destruct (nz (cv (mget m q))) eqn:Eq.
    + apply nz_true in Eq. split; [lia|done].
    + apply nz_false in Eq. rewrite Eq. done.
Qed.

Lemma cstr_ext m m' p n :
  (forall x, p <= x < p + Z.of_nat n -> mget m x = mget m' x) -> cstr m p n = cstr m' p n.
Proof.
  revert p. induction n as [|n IH]; intros p H; simpl; [done|].
  rewrite (H p) by lia. case_match; [|done]. f_equal. apply IH. intros x Hx. apply H. lia.
Qed.

Lemma lookup_cstr m p n i :
  (i < length (cstr m p n))%nat -> cstr m p n !! i = Some (mget m (p + Z.of_nat i)).
Proof.
  revert p i. induction n as [|n IH]; intros p i; simpl; [lia|].
  destruct (nz _); simpl; [|lia]. destruct i as [|i]; intros Hi; simpl.
  - by rewrite Z.add_0_r.
  - rewrite IH by lia. do 2 f_equal. lia.
Qed.

Lemma cstr_nul m p n :
  (length (cstr m p n) < n)%nat -> mget m (p + Z.of_nat (length (cstr m p n))) = chr 0.
Proof.
  revert p. induction n as [|n IH]; intros p; simpl; [lia|].
  destruct (nz (cv (mget m p))) eqn:E; simpl; intros H.
  - rewrite <-(IH (p + 1)) by lia. f_equal. lia.
  - rewrite Z.add_0_r. apply byte.unsigned_inj. apply nz_false in E. by rewrite E.
Qed.

(** The copying loop shared by [strncpy] and [safestrcpy]. *)
Lemma strncpy_copy_spec m s t n :
  t + Z.of_nat n <= s \/ s + Z.of_nat n <= t ->
  exists m' k, let w := Nat.min n (S (length (cstr m t n))) in
    strncpy_copy m s t n = (m', s + Z.of_nat w, k) /\ k = (n - w)%nat /\
    (forall x, mget m' x = copied m s t (Z.of_nat w) x).
Proof.
  revert m s t. induction n as [|n IH]; intros m s t Hd; cbn [strncpy_copy cstr].
  { exists m, O. simpl. rewrite Z.add_0_r. split_and!; try done. intros x.
    unfold copied. by rewrite decide_False by lia. }
  destruct (nz (cv (mget m t))) eqn:E.
  - destruct (IH (<[s:=mget m t]> m) (s + 1) (t + 1) ltac:(lia)) as (m' & k & Heq & Hk & Hm).
    rewrite (cstr_ext (<[s:=mget m t]> m) m) in Heq, Hk, Hm
      by (intros x Hx; rewrite mget_insert, decide_False by lia; done).
    cbn [length Nat.min] in *. exists m', k. split_and!.
    + rewrite Heq. do 2 f_equal. lia.
    + lia.
    + intros x. rewrite Hm. unfold copied. rewrite !mget_insert.
      repeat case_decide; try lia; f_equal; lia.
  - exists (<[s:=mget m t]> m), n. simpl. split_and!.
    + by rewrite Nat.min_0_r.
    + lia.
    + intros x. unfold copied. rewrite mget_insert, Nat.min_0_r.
      repeat case_decide; try lia; [|done]. f_equal. lia.
Qed.

Lemma mget_strncpy_pad m s n x :
  mget (strncpy_pad m s n) x = if decide (s <= x < s + Z.of_nat n) then chr 0 else mget m x.
Proof.
  revert m s. induction n as [|n IH]; intros m s; simpl.
  - by rewrite decide_False by lia.
  - rewrite IH, mget_insert. repeat case_decide; lia || done.
Qed.

Lemma mget_strncpy m s t n x :
  let k := Z.to_nat n in
  t + Z.of_nat k <= s \/ s + Z.of_nat k <= t ->
  mget (strncpy m s t n) x =
  if decide (s <= x < s + Z.of_nat k)
  then default (chr 0) (cstr m t k !! Z.to_nat (x - s)) else mget m x.
Proof.
  intros k Hd. unfold strncpy. fold k.
  destruct (strncpy_copy_spec m s t k Hd) as (m' & r & -> & Hr & Hm).
  rewrite mget_strncpy_pad, Hm. unfold copied.
  pose proof (length_cstr m t k). repeat case_decide; try lia; try done.
  - rewrite lookup_ge_None_2 by lia. done.
  - destruct (decide (Z.to_nat (x - s) < length (cstr m t k))%nat) as [Hi|Hi].
    + rewrite lookup_cstr by lia. simpl. f_equal. lia.
    + rewrite lookup_ge_None_2 by lia. simpl. rewrite <-(cstr_nul m t k) by lia. f_equal. lia.
Qed.

Lemma cstr_nonzero m p n i b : cstr m p n !! i = Some b -> cv b <> 0.
Proof.
  revert p i. induction n as [|n IH]; intros p i; simpl; [done|].
  destruct (nz (cv (mget m p))) eqn:E; [|done].
  destruct i as [|i]; simpl; [|apply IH]. intros [= <-]. by apply nz_true.
Qed.

(** A string is found where its characters are followed by a NUL. *)
Lemma cstr_intro m p n l :
  (forall i b, l !! i = Some b -> mget m (p + Z.of_nat i) = b /\ cv b <> 0) ->
  (length l < n)%nat -> mget m (p + Z.of_nat (length l)) = chr 0 ->
  cstr m p n = l.
Proof.
  revert p n. induction l as [|b l IH]; intros p n H Hn H0; simpl in *.
  - destruct n as [|n]; [lia|]. simpl. rewrite Z.add_0_r in H0. by rewrite H0.
  - destruct n as [|n]; [lia|]. simpl. destruct (H O b eq_refl) as [Hb Hnz].
    rewrite Z.add_0_r in Hb. rewrite Hb, (proj2 (nz_true _) Hnz). f_equal.
    apply IH; [|lia|rewrite <-H0; f_equal; lia].
    intros i b' Hi. destruct (H (S i) b' Hi) as [<- ?]. split; [|done]. f_equal. lia.
Qed.

Lemma safestrcpy_spec m s t n :
  let k := Z.to_nat (n - 1) in
  0 < n -> t + n <= s \/ s + n <= t ->
  let m' := safestrcpy m s t n in
  cstr m' s (Z.to_nat n) = cstr m t k /\
  mget m' (s + Z.of_nat (length (cstr m t k))) = chr 0 /\
  forall x, x < s \/ s + n <= x -> mget m' x = mget m x.
Proof.
  intros k Hn Hd. unfold safestrcpy. rewrite (proj2 (Z.leb_gt n 0)) by lia. fold k.
  destruct (strncpy_copy_spec m s t k ltac:(lia)) as (m1 & r & -> & Hr & Hm).
  pose proof (length_cstr m t k) as Hlen.
  set (w := Nat.min k (S (length (cstr m t k)))) in *.
  assert (Hin : forall i, (i < length (cstr m t k))%nat ->
    mget (<[s + Z.of_nat w:=chr 0]> m1) (s + Z.of_nat i) = mget m (t + Z.of_nat i)).
  { intros i Hi. rewrite mget_insert, decide_False by lia. rewrite Hm. unfold copied.
    rewrite decide_True by lia. f_equal. lia. }
  assert (Hend : mget (<[s + Z.of_nat w:=chr 0]> m1) (s + Z.of_nat (length (cstr m t k))) = chr 0).
  { rewrite mget_insert. case_decide; [done|]. rewrite Hm. unfold copied.
    rewrite decide_True by lia. rewrite <-(cstr_nul m t k) by lia. f_equal. lia. }
  split_and!; [|done|].
  - apply cstr_intro; [|lia|done]. intros i b Hi. split.
    + rewrite Hin by (by eapply lookup_lt_Some). rewrite lookup_cstr in Hi
        by (by eapply lookup_lt_Some). congruence.
    + by eapply cstr_nonzero.
  - intros x Hx. rewrite mget_insert, decide_False by lia. rewrite Hm. unfold copied.
    by rewrite decide_False by lia.
Qed.

Lemma strlen_loop_spec m s n fuel k :
  (forall i, 0 <= i < k -> cv (mget m (s + n + i)) <> 0) -> mget m (s + n + k) = chr 0 ->
  0 <= k -> (Z.to_nat k < fuel)%nat -> strlen_loop m s n fuel = Some (n + k).
Proof.
  revert n k. induction fuel as [|fuel IH]; intros n k Hnz H0 Hk Hf; simpl; [lia|].
  destruct (decide (k = 0)) as [->|Hk0].
  - replace (s + n + 0) with (s + n) in H0 by lia. rewrite H0. simpl. f_equal. lia.
  - assert (H := Hnz 0 ltac:(lia)). rewrite Z.add_0_r in H. apply nz_true in H. rewrite H.
    rewrite (IH (n + 1) (k - 1)); [f_equal; lia| | |lia|lia].
    + intros i Hi. replace (s + (n + 1) + i) with (s + n + (i + 1)) by lia. apply Hnz. lia.
    + rewrite <-H0. f_equal. lia.
Qed.

Lemma load_memset_zero m p a n :
  0 <= n -> p <= a -> a + 8 <= p + n -> load64 (memset m p 0 n) a = 0.
Proof.
  intros Hn Hlo Hhi. unfold load. replace (mread _ _ _) with (replicate 8 (chr 0)); [done|].
  symmetry. apply list_eq. intros k. destruct (decide (k < 8)%nat).
  - rewrite lookup_mread, lookup_replicate_2 by done. f_equal. rewrite mget_memset by done.
    by rewrite decide_True by lia.
  - rewrite !lookup_ge_None_2; rewrite ?length_mread, ?length_replicate; lia || done.
Qed.

(** ** Theorems *)

(** [memmove] leaves at the destination the bytes the source had before
    the call, also when the two ranges overlap in either direction, and changes
    nothing else. *)
Theorem memmove_moves m dst src n :
  0 <= n -> mread (memmove m dst src n) dst (Z.to_nat n) = mread m src (Z.to_nat n) /\
  forall x, x < dst \/ dst + n <= x -> mget (memmove m dst src n) x = mget m x.
Proof.
  intros Hn. split; [by apply mread_memmove|]. intros x Hx.
  rewrite mget_memmove by done. unfold copied. by rewrite decide_False by lia.
Qed.

Lemma memmove_moves_witness :
  let m := mwrite ∅ 100 (bytes_of "abcdef") in
  mread (memmove m 102 100 4) 102 4 = bytes_of "abcd".
Proof.
  etrans; [apply (memmove_moves (mwrite ∅ 100 (bytes_of "abcdef")) 102 100 4); lia|by vm_compute].
Defined.

(** [strncmp] returns 0 exactly when the two strings, cut at [n]
    characters, are equal. *)
Theorem strncmp_equality m p q n :
  strncmp m p q n = 0 <-> cstr m p (Z.to_nat n) = cstr m q (Z.to_nat n).
Proof. apply strncmp_loop_zero. Qed.

(** [safestrcpy] into a buffer of [n] bytes leaves a NUL-terminated
    string there, the source cut to [n - 1] characters, and writes nothing
    outside the buffer. *)
Theorem safestrcpy_terminates_string m s t n :
  0 < n -> t + n <= s \/ s + n <= t ->
  let m' := safestrcpy m s t n in
  let l := cstr m t (Z.to_nat (n - 1)) in
  cstr m' s (Z.to_nat n) = l /\ mget m' (s + Z.of_nat (length l)) = chr 0 /\
  forall x, x < s \/ s + n <= x -> mget m' x = mget m x.
Proof. apply safestrcpy_spec. Qed.

Lemma safestrcpy_terminates_string_witness :
  let m := mwrite ∅ 100 (bytes_of "initcode") in
  cstr (safestrcpy m 200 100 5) 200 5 = bytes_of "init".
Proof.
  etrans; [apply (safestrcpy_terminates_string (mwrite ∅ 100 (bytes_of "initcode")) 200 100 5); lia|].
  by vm_compute.
Defined.

#[global] Opaque load store mread mwrite memset memmove strncpy.
