(* ===== verification/Ulib.v ===== *)
(** * Ulib: the memory routines of user/ulib.c

    Functions on the memory of the program, next to those of kernel/string.c
    in CString.v, with which they agree; [strcpy] and [strlen] have no bound in
    the source and recurse on fuel.  The routines of user/ulib.c on strings as
    lists are in Tools.v, those that make system calls in User.v and TestLib.v. *)

From S2P Require Import Prelude CString.

(** [while(( *s++ = *t++) != 0) ;] *)
Fixpoint ustrcpy (fuel : nat) (m : mem) (s t : Z) : option mem :=
  match fuel with
  | O => None
  | S fuel =>
      let m' := <[s := mget m t]> m in
      if nz (cv (mget m t)) then ustrcpy fuel m' (s + 1) (t + 1) else Some m'
  end.

Fixpoint ustrlen_loop (fuel : nat) (m : mem) (s n : Z) : option Z :=
  match fuel with
  | O => None
  | S fuel => if nz (cv (mget m (s + n))) then ustrlen_loop fuel m s (n + 1) else Some n
  end.
Definition ustrlen (fuel : nat) (m : mem) (s : Z) : option Z := ustrlen_loop fuel m s 0.

(** [for(i = 0; i < n; i++) cdst[i] = c;] *)
Fixpoint umemset_loop (m : mem) (cdst c i : Z) (k : nat) : mem :=
  match k with
  | O => m
  | S k => umemset_loop (<[cdst + i := chr c]> m) cdst c (i + 1) k
  end.
Definition umemset (m : mem) (dst c n : Z) : mem := umemset_loop m dst c 0 (Z.to_nat n).

(** The length is an [int]: a negative one copies nothing. *)
Definition umemmove (m : mem) (vdst vsrc n : Z) : mem :=
  if vdst <? vsrc then copy_up m vdst vsrc (Z.to_nat n)
  else copy_down m (vdst + n) (vsrc + n) (Z.to_nat n).

Fixpoint umemcmp_loop (m : mem) (p1 p2 : Z) (n : nat) : Z :=
  match n with
  | O => 0
  | S n =>
      if negb (cv (mget m p1) =? cv (mget m p2)) then cv (mget m p1) - cv (mget m p2)
      else umemcmp_loop m (p1 + 1) (p2 + 1) n
  end.
Definition umemcmp (m : mem) (s1 s2 n : Z) : Z := umemcmp_loop m s1 s2 (Z.to_nat n).

(** Its length is a [uint], that of [memmove] is not. *)
Definition umemcpy (m : mem) (dst src n : Z) : mem := umemmove m dst src (i32 n).

(** for every overlap of source and destination, the user's [memmove]
    leaves exactly the source's old bytes at the destination and nothing else
    changed, as the kernel's does, although the two choose the direction of
    the copy by different tests. *)
Theorem umemmove_agrees m dst src n x : 0 <= n ->
  mget (umemmove m dst src n) x = mget (memmove m dst src n) x /\ mget (umemmove m dst src n) x = copied m dst src n x.
Proof.
  intros Hn. rewrite mget_memmove by done. unfold umemmove, copied. destruct (Z.ltb_spec dst src).
  - rewrite mget_copy_up by lia. by rewrite Z2Nat.id by done.
  - rewrite mget_copy_down, Z2Nat.id by lia. repeat case_decide; (split; [..|]); lia || done || (f_equal; lia).
Qed.

Lemma umemmove_agrees_witness :
  let m := mwrite ∅ 100 (bytes_of "abcdef") in
  mread (umemmove m 102 100 4) 100 6 = bytes_of "ababcd" /\ mget (umemmove m 102 100 4) 103 = mget (memmove m 102 100 4) 103.
Proof. cbv zeta. split; [by vm_compute|]. apply (umemmove_agrees _ 102 100 4 103). lia. Defined.

Lemma ustrcpy_below fuel : forall m s t m' x, ustrcpy fuel m s t = Some m' -> x < s -> mget m' x = mget m x.
Proof.
  induction fuel as [|fuel IH]; intros m s t m' x E Hx; [done|]. cbn [ustrcpy] in E.
  assert (Hi : mget (<[s := mget m t]> m) x = mget m x) by (by rewrite mget_insert, decide_False by lia).
  destruct (nz (cv (mget m t))); [|by injection E as <-]. rewrite <-Hi. apply (IH _ _ _ _ _ E). lia.
Qed.

(** A string copied and measured. *)
Theorem ustrcpy_copies s : forall m d t, Forall (fun c => nz (cv c) = true) s -> mread m t (length s) = s -> mget m (t + Z.of_nat (length s)) = chr 0 ->
  d + Z.of_nat (length s) < t \/ t + Z.of_nat (length s) < d ->
  exists m', ustrcpy (S (length s)) m d t = Some m' /\ mread m' d (length s) = s /\ mget m' (d + Z.of_nat (length s)) = chr 0.
Proof.
  induction s as [|c s IH]; intros m d t Hs Hr Hz Hd.
  - exists (<[d := mget m t]> m). cbn [length] in Hz. rewrite Z.add_0_r in Hz. cbn [ustrcpy length mread]. rewrite Hz. split_and!; [done|done|].
    by rewrite Z.add_0_r, mget_insert, decide_True by done.
  - apply Forall_cons in Hs as [Hc Hs]. cbn [length mread] in Hr. injection Hr as Hm Hr. rewrite <-Hm in Hc. cbn [length] in *.
    set (m1 := <[d := mget m t]> m). destruct (IH m1 (d + 1) (t + 1)) as (m' & E & R' & Z').
    + done.
    + rewrite <-Hr at 2. apply mread_ext. intros x Hx. unfold m1. by rewrite mget_insert, decide_False by lia.
    + unfold m1. rewrite mget_insert, decide_False by lia. rewrite <-Hz. f_equal. lia.
    + lia.
    + exists m'. change (ustrcpy (S (S (length s))) m d t) with (if nz (cv (mget m t)) then ustrcpy (S (length s)) m1 (d + 1) (t + 1) else Some m1).
      rewrite Hc. split; [exact E|]. split; [|rewrite <-Z'; f_equal; lia]. cbn [mread]. rewrite R'. f_equal.
      rewrite (ustrcpy_below _ _ _ _ _ d E) by lia. unfold m1. by rewrite mget_insert, decide_True.
Qed.

Theorem ustrlen_counts s m t : Forall (fun c => nz (cv c) = true) s -> mread m t (length s) = s -> mget m (t + Z.of_nat (length s)) = chr 0 ->
  ustrlen (S (length s)) m t = Some (Z.of_nat (length s)).
Proof.
  intros Hs Hr Hz. unfold ustrlen. assert (Hl : forall k, (k <= length s)%nat -> ustrlen_loop (S (length s - k)) m t (Z.of_nat k) = Some (Z.of_nat (length s))); [|rewrite <-(Nat.sub_0_r (length s)) at 1; apply (Hl 0%nat); lia].
  intros k Hk. remember (length s - k)%nat as r eqn:Er. revert k Hk Er. induction r as [|r IH]; intros k Hk Er.
  - replace k with (length s) by lia. cbn [ustrlen_loop]. by rewrite Hz.
  - destruct (lookup_lt_is_Some_2 s k ltac:(lia)) as [c Hc]. rewrite Forall_lookup in Hs. pose proof (Hs k c Hc) as Hn.
    rewrite <-Hr, lookup_mread in Hc by lia. injection Hc as <-. change (ustrlen_loop (S (S r)) m t (Z.of_nat k)) with
      (if nz (cv (mget m (t + Z.of_nat k))) then ustrlen_loop (S r) m t (Z.of_nat k + 1) else Some (Z.of_nat k)).
    rewrite Hn. replace (Z.of_nat k + 1) with (Z.of_nat (S k)) by lia. apply IH; lia.
Qed.
