(* ===== verification/Riscv.v ===== *)
(** * Riscv: the constants and macros of kernel/param.h, memlayout.h and riscv.h

    Physical and virtual addresses are [Z]; the macros compute on 64-bit
    values, with the wrap-around of [+] and [<<] written out. *)

From S2P Require Import Prelude.

(** ** param.h (the repository builds with LAB=util) *)

Definition NPROC : Z := 64.
Definition NCPU : Z := 8.
Definition NOFILE : Z := 16.
Definition NFILE : Z := 100.
Definition NINODE : Z := 50.
Definition NDEV : Z := 10.
Definition ROOTDEV : Z := 1.
Definition MAXARG : Z := 32.
Definition MAXOPBLOCKS : Z := 10.
Definition LOGBLOCKS : Z := MAXOPBLOCKS * 3.
Definition NBUF : Z := MAXOPBLOCKS * 3.
Definition FSSIZE : Z := 2000.
Definition MAXPATH : Z := 128.
Definition USERSTACK : Z := 2.

(** ** riscv.h: paging *)

Definition PGSIZE : Z := 4096.
Definition PGSHIFT : Z := 12.

Definition PGROUNDUP (sz : Z) : Z := Z.land (u64 (sz + PGSIZE - 1)) (Z.lnot (PGSIZE - 1)).
Definition PGROUNDDOWN (a : Z) : Z := Z.land a (Z.lnot (PGSIZE - 1)).

Definition PTE_V : Z := Z.shiftl 1 0.
Definition PTE_R : Z := Z.shiftl 1 1.
Definition PTE_W : Z := Z.shiftl 1 2.
Definition PTE_X : Z := Z.shiftl 1 3.
Definition PTE_U : Z := Z.shiftl 1 4.

Definition PA2PTE (pa : Z) : Z := u64 (Z.shiftl (Z.shiftr pa 12) 10).
Definition PTE2PA (pte : Z) : Z := u64 (Z.shiftl (Z.shiftr pte 10) 12).
Definition PTE_FLAGS (pte : Z) : Z := Z.land pte 0x3FF.

Definition PXMASK : Z := 0x1FF.
Definition PXSHIFT (level : Z) : Z := PGSHIFT + 9 * level.
Definition PX (level va : Z) : Z := Z.land (Z.shiftr va (PXSHIFT level)) PXMASK.

Definition MAXVA : Z := Z.shiftl 1 (9 + 9 + 9 + 12 - 1).

Definition SATP_SV39 : Z := Z.shiftl 8 60.
Definition MAKE_SATP (pagetable : Z) : Z := Z.lor SATP_SV39 (Z.shiftr pagetable 12).

(** ** memlayout.h *)

Definition UART0 : Z := 0x10000000.
Definition UART0_IRQ : Z := 10.
Definition VIRTIO0 : Z := 0x10001000.
Definition VIRTIO0_IRQ : Z := 1.
Definition PLIC : Z := 0x0c000000.
Definition PLIC_SENABLE (hart : Z) : Z := PLIC + 0x2080 + hart * 0x100.
Definition PLIC_SPRIORITY (hart : Z) : Z := PLIC + 0x201000 + hart * 0x2000.
Definition PLIC_SCLAIM (hart : Z) : Z := PLIC + 0x201004 + hart * 0x2000.
Definition KERNBASE : Z := 0x80000000.
Definition PHYSTOP : Z := KERNBASE + 128 * 1024 * 1024.
Definition TRAMPOLINE : Z := MAXVA - PGSIZE.
Definition KSTACK (p : Z) : Z := TRAMPOLINE - (p + 1) * 2 * PGSIZE.
Definition TRAPFRAME : Z := TRAMPOLINE - PGSIZE.

(** ** kernel.ld

    The addresses the linker script defines: the end of the kernel's text,
    the trampoline page inside it, and the end of the kernel image.  Their
    values depend on the compiler; the kernel relies on their order and
    alignment, which the script's ALIGN and ASSERT lines give. *)

Class KernelLayout := {
  kend : Z;
  etext : Z;
  trampoline : Z;
  trampoline_range : KERNBASE <= trampoline /\ trampoline + PGSIZE <= etext;
  trampoline_aligned : trampoline mod PGSIZE = 0;
  etext_aligned : etext mod PGSIZE = 0;
  kend_range : etext <= kend <= PHYSTOP
}.

(** ** Lemmas *)

Lemma land_lnot_4095 x : Z.land x (Z.lnot 4095) = x - x mod 4096.
Proof.
  rewrite <-Z.ldiff_land. change 4095 with (Z.ones 12). rewrite Z.ldiff_ones_r by lia.
  rewrite Z.shiftl_mul_pow2, Z.shiftr_div_pow2 by lia. change (2 ^ 12) with 4096.
  rewrite (Z.div_mod x 4096) at 2 by lia. lia.
Qed.

Lemma PGROUNDDOWN_eq a : PGROUNDDOWN a = a - a mod 4096.
Proof. apply land_lnot_4095. Qed.

Lemma PGROUNDUP_eq sz :
  0 <= sz <= 2 ^ 64 - 4096 -> PGROUNDUP sz = (sz + 4095) / 4096 * 4096.
Proof.
  intros H. unfold PGROUNDUP, u64, PGSIZE.
  change (4096 - 1) with 4095. rewrite land_lnot_4095.
  rewrite (Z.mod_small (sz + 4096 - 1)) by lia.
  rewrite (Z.div_mod (sz + 4096 - 1) 4096) at 1 by lia.
  replace (sz + 4096 - 1) with (sz + 4095) by lia. lia.
Qed.

Lemma PGROUNDUP_bounds sz :
  0 <= sz <= 2 ^ 64 - 4096 ->
  PGROUNDUP sz mod 4096 = 0 /\ sz <= PGROUNDUP sz < sz + 4096.
Proof.
  intros H. rewrite PGROUNDUP_eq by done. split.
  - apply Z.mod_mul. lia.
  - pose proof (Z.div_mod (sz + 4095) 4096). pose proof (Z.mod_pos_bound (sz + 4095) 4096). lia.
Qed.

Lemma PGROUNDUP_aligned sz : 0 <= sz <= 2 ^ 64 - 4096 -> sz mod 4096 = 0 -> PGROUNDUP sz = sz.
Proof.
  intros H Hal. destruct (PGROUNDUP_bounds sz H) as [Ha Hb].
  pose proof (Z.div_mod sz 4096). pose proof (Z.div_mod (PGROUNDUP sz) 4096). lia.
Qed.

Lemma PX_eq level va : 0 <= level -> PX level va = (va / 2 ^ (12 + 9 * level)) mod 512.
Proof.
  intros H. unfold PX, PXSHIFT, PGSHIFT, PXMASK. change 0x1FF with (Z.ones 9).
  rewrite Z.land_ones, Z.shiftr_div_pow2 by lia. done.
Qed.

Lemma PX_bound level va : 0 <= level -> 0 <= PX level va < 512.
Proof. intros. rewrite PX_eq by done. apply Z.mod_pos_bound. lia. Qed.

Lemma PA2PTE_eq pa : 0 <= pa < 2 ^ 56 -> PA2PTE pa = pa / 4096 * 1024.
Proof.
  intros H. unfold PA2PTE, u64. rewrite Z.shiftl_mul_pow2, Z.shiftr_div_pow2 by lia.
  change (2 ^ 12) with 4096. change (2 ^ 10) with 1024.
  apply Z.mod_small. pose proof (Z.div_pos pa 4096). split; [lia|].
  assert (pa / 4096 < 2 ^ 44); [|lia]. apply Z.div_lt_upper_bound; lia.
Qed.

Lemma PTE2PA_eq pte : 0 <= pte < 2 ^ 54 -> PTE2PA pte = pte / 1024 * 4096.
Proof.
  intros H. unfold PTE2PA, u64. rewrite Z.shiftl_mul_pow2, Z.shiftr_div_pow2 by lia.
  change (2 ^ 12) with 4096. change (2 ^ 10) with 1024.
  apply Z.mod_small. pose proof (Z.div_pos pte 1024). split; [lia|].
  assert (pte / 1024 < 2 ^ 44); [|lia]. apply Z.div_lt_upper_bound; lia.
Qed.

(** Bits at or above position [n] of a number below [2^n] are clear. *)
Lemma testbit_high f n i : 0 <= f < 2 ^ n -> n <= i -> Z.testbit f i = false.
Proof.
  intros Hf Hi. destruct (decide (n < 0)) as [Hn|Hn].
  { rewrite Z.pow_neg_r in Hf by lia. lia. }
  rewrite <-(Z.mod_small f (2 ^ n)) by lia. apply Z.mod_pow2_bits_high. lia.
Qed.

(** Or-ing 10 flag bits into a shifted page number adds them. *)
Lemma lor_flags k f : 0 <= f < 1024 -> Z.lor (k * 1024) f = k * 1024 + f.
Proof.
  intros Hf. change 1024 with (2 ^ 10) in *.
  assert (Hl : Z.land (k * 2 ^ 10) f = 0).
  { apply Z.bits_inj'. intros i Hi. rewrite <-Z.shiftl_mul_pow2 by lia.
    rewrite Z.land_spec, Z.shiftl_spec, Z.bits_0 by lia.
    destruct (decide (i < 10)); [by rewrite Z.testbit_neg_r by lia|].
    rewrite (testbit_high f 10) by lia. by rewrite andb_false_r. }
  rewrite Z.add_nocarry_lxor by done. by rewrite Z.lxor_lor.
Qed.

Lemma lor_bound n a b : 0 <= a < 2 ^ n -> 0 <= b < 2 ^ n -> 0 <= Z.lor a b < 2 ^ n.
Proof.
  intros Ha Hb. assert (0 <= n).
  { destruct (decide (n < 0)); [|lia]. rewrite Z.pow_neg_r in Ha by lia. lia. }
  split; [apply Z.lor_nonneg; lia|].
  apply Z.lt_nge. intros Hc.
  assert (Z.lor a b mod 2 ^ n = Z.lor a b).
  { apply Z.bits_inj'. intros i Hi. destruct (decide (i < n)).
    - by rewrite Z.mod_pow2_bits_low by lia.
    - rewrite Z.mod_pow2_bits_high by lia.
      rewrite Z.lor_spec, (testbit_high a n), (testbit_high b n) by lia. done. }
  pose proof (Z.mod_pos_bound (Z.lor a b) (2 ^ n)). lia.
Qed.

Lemma land_lor_V x : Z.land (Z.lor x PTE_V) PTE_V = PTE_V.
Proof.
  rewrite Z.land_lor_distr_l, Z.land_diag. change PTE_V with 1.
  assert (E : Z.land x 1 = x mod 2) by (change 1 with (Z.ones 1); by rewrite Z.land_ones by lia).
  rewrite E, Zmod_odd. by destruct (Z.odd x).
Qed.

(** The page-table entry of an aligned page with the given flag bits. *)
Section pte.
Context (pa f : Z) (Hpa : 0 <= pa < 2 ^ 56) (Hal : pa mod PGSIZE = 0) (Hf : 0 <= f < 1024).

Lemma mkpte_eq : Z.lor (PA2PTE pa) f = pa / 4096 * 1024 + f.
Proof using Hpa Hf. rewrite PA2PTE_eq by done. by apply lor_flags. Qed.

Lemma mkpte_bound : 0 <= Z.lor (PA2PTE pa) f < 2 ^ 54.
Proof using Hpa Hf.
  rewrite mkpte_eq. pose proof (Z.div_pos pa 4096).
  assert (pa / 4096 < 2 ^ 44) by (apply Z.div_lt_upper_bound; lia). lia.
Qed.

Lemma PTE2PA_mkpte : PTE2PA (Z.lor (PA2PTE pa) f) = pa.
Proof using All.
  rewrite PTE2PA_eq by apply mkpte_bound. rewrite mkpte_eq.
  rewrite Z.div_add_l by lia. rewrite (Z.div_small f) by lia. unfold PGSIZE in Hal.
  rewrite (Z.div_mod pa 4096) at 2 by lia. lia.
Qed.

Lemma PTE_FLAGS_mkpte : PTE_FLAGS (Z.lor (PA2PTE pa) f) = f.
Proof using Hpa Hf.
  unfold PTE_FLAGS. change 0x3FF with (Z.ones 10). rewrite Z.land_ones by lia.
  rewrite mkpte_eq. change (2 ^ 10) with 1024.
  rewrite Z.add_comm, Z.mod_add by lia. apply Z.mod_small. lia.
Qed.
End pte.
