(* ===== verification/Kalloc.v ===== *)
(** * Kalloc: the physical page allocator of kernel/kalloc.c

    The state is physical memory and [kmem.freelist].  The free list is
    threaded through the free pages themselves (struct run is the first
    word of a free page), so [kalloc] and [kfree] read and write memory as
    the code does; [chain] relates the list in memory to a Rocq list. *)

From S2P Require Import Prelude Riscv CString.

Record kmem := { k_mem : mem; k_freelist : Z }.

Definition set_mem (m : mem) (s : kmem) : kmem := {| k_mem := m; k_freelist := k_freelist s |}.
Definition set_freelist (p : Z) (s : kmem) : kmem := {| k_mem := k_mem s; k_freelist := p |}.

Definition kmem_lock : lockid := ("kmem", 0).

(** Accesses of the kernel to physical memory. *)
Definition ld64 (a : Z) : M kmem Z := gets (fun s => load64 (k_mem s) a).
Definition st64 (a v : Z) : M kmem unit := modify (fun s => set_mem (store64 (k_mem s) a v) s).
Definition do_memset (dst c n : Z) : M kmem unit :=
  modify (fun s => set_mem (memset (k_mem s) dst c n) s).
Definition do_memmove (dst src n : Z) : M kmem unit :=
  modify (fun s => set_mem (memmove (k_mem s) dst src n) s).

Section kalloc.
Context `{KernelLayout}.

Definition kfree (pa : Z) : M kmem unit :=
  if negb (pa mod PGSIZE =? 0) || (pa <? kend) || (PHYSTOP <=? pa) then panic "kfree"
  else
    do_memset pa 1 PGSIZE;;
    let r := pa in
    acquire kmem_lock;;
    s ← get;
    st64 r (k_freelist s);;
    modify (set_freelist r);;
    release kmem_lock.

Definition kalloc : M kmem Z :=
  acquire kmem_lock;;
  s ← get;
  let r := k_freelist s in
  (if nz r then (next ← ld64 r; modify (set_freelist next)) else mret tt);;
  release kmem_lock;;
  (if nz r then do_memset r 5 PGSIZE else mret tt);;
  mret r.

(** [for(; p + PGSIZE <= pa_end; p += PGSIZE) kfree(p);] *)
Fixpoint freerange_loop (fuel : nat) (p pa_end : Z) : M kmem unit :=
  match fuel with
  | O => fuel_out
  | S fuel =>
      if p + PGSIZE <=? pa_end then kfree p;; freerange_loop fuel (p + PGSIZE) pa_end
      else mret tt
  end.

Definition freerange (pa_start pa_end : Z) : M kmem unit :=
  let p := PGROUNDUP pa_start in
  freerange_loop (S (Z.to_nat ((pa_end - p) / PGSIZE))) p pa_end.

Definition kinit : M kmem unit := freerange kend PHYSTOP.

(** ** Specification *)

(** A client that asks for pages and gives back pages it holds. *)
Inductive kop := OpAlloc | OpFree (i : nat).

Fixpoint client (ops : list kop) (used : list Z) : M kmem (list Z) :=
  match ops with
  | [] => mret used
  | OpAlloc :: ops => p ← kalloc; client ops (if nz p then p :: used else used)
  | OpFree i :: ops =>
      match used !! i with
      | Some p => kfree p;; client ops (delete i used)
      | None => client ops used
      end
  end.

(** A page the allocator may hand out. *)
Definition page_ok (p : Z) : Prop := p mod PGSIZE = 0 /\ kend <= p /\ p < PHYSTOP.

(** The list of pages threaded from [p]. *)
Inductive chain (m : mem) : Z -> list Z -> Prop :=
| chain_nil : chain m 0 []
| chain_cons p l : page_ok p -> chain m (load64 m p) l -> chain m p (p :: l).

Record kmem_inv (s : kmem) (fl : list Z) : Prop := {
  ki_chain : chain (k_mem s) (k_freelist s) fl;
  ki_nodup : NoDup fl
}.

(** Memory outside the page at [p] is the same. *)
Definition same_but (p : Z) (m m' : mem) : Prop :=
  forall x, x < p \/ p + PGSIZE <= x -> mget m' x = mget m x.

(** The pages of the range [p, p + n * PGSIZE), the last one first. *)
Fixpoint pages (p : Z) (n : nat) : list Z :=
  match n with
  | O => []
  | S n => (p + Z.of_nat n * PGSIZE) :: pages p n
  end.

(** ** Lemmas *)

Lemma page_ok_range p : page_ok p -> 0 < p < 2 ^ 56 /\ p + PGSIZE <= PHYSTOP.
Proof.
  intros (Hal & Hlo & Hhi). pose proof kend_range. pose proof trampoline_range.
  unfold PHYSTOP, KERNBASE, PGSIZE in *. split; [lia|].
  pose proof (Z.div_mod p 4096). lia.
Qed.

Lemma page_disjoint p q : page_ok p -> page_ok q -> p <> q -> p + PGSIZE <= q \/ q + PGSIZE <= p.
Proof.
  intros (Hp & _) (Hq & _) Hne. unfold PGSIZE in *.
  pose proof (Z.div_mod p 4096). pose proof (Z.div_mod q 4096). lia.
Qed.

Lemma chain_head_ok m p l : chain m p l -> l <> [] -> exists l', l = p :: l' /\ page_ok p.
Proof. inversion 1; naive_solver. Qed.

Lemma chain_null m p l : chain m p l -> p = 0 <-> l = [].
Proof.
  inversion 1 as [|q l' Hok Hc]; subst; [done|].
  pose proof (page_ok_range _ Hok). split; [lia|done].
Qed.

Lemma chain_pages_ok m p l : chain m p l -> Forall page_ok l.
Proof. induction 1; auto. Qed.

(** The list only depends on the first word of its pages. *)
Lemma chain_frame m m' p l :
  chain m p l ->
  (forall q, q ∈ l -> load64 m' q = load64 m q) -> chain m' p l.
Proof.
  induction 1 as [|p l Hok Hc IH]; intros Hq; [constructor|].
  constructor; [done|]. rewrite Hq by set_solver. apply IH. intros q Hin. apply Hq. set_solver.
Qed.

(** Memory changed only inside pages that are not free. *)
Lemma chain_same_but m m' p l q :
  chain m p l -> page_ok q -> q ∉ l -> same_but q m m' -> chain m' p l.
Proof.
  intros Hc Hq Hnin Hs. eapply chain_frame; [done|]. intros r Hr.
  pose proof (chain_pages_ok _ _ _ Hc) as Hall. rewrite Forall_forall in Hall.
  assert (Hrok := Hall r Hr). pose proof (page_disjoint q r Hq Hrok ltac:(set_solver)).
  apply load_ext. intros x Hx. apply Hs. unfold PGSIZE in *. simpl in Hx. lia.
Qed.

Lemma same_but_memset p m c : same_but p m (memset m p c PGSIZE).
Proof. intros x Hx. apply mget_memset_out; [done|lia]. Qed.

Lemma same_but_store64 p a m v :
  p <= a -> a + 8 <= p + PGSIZE -> same_but p m (store64 m a v).
Proof. intros H1 H2 x Hx. apply mget_store_out. simpl. lia. Qed.

Lemma same_but_trans p m1 m2 m3 : same_but p m1 m2 -> same_but p m2 m3 -> same_but p m1 m3.
Proof. intros H1 H2 x Hx. by rewrite H2, H1. Qed.

Lemma kalloc_wp t s fl :
  kmem_inv s fl -> kmem_lock ∉ t_held t ->
  wp kalloc (fun p t' s' => t' = t /\
    match fl with
    | [] => p = 0 /\ s' = s
    | q :: fl' => p = q /\ kmem_inv s' fl' /\ k_mem s' = memset (k_mem s) q 5 PGSIZE
    end) t s.
Proof.
  intros [Hc Hnd] Hl. unfold kalloc.
  wp_steps. destruct fl as [|q fl'].
  - apply chain_null in Hc as Hz. rewrite (proj2 Hz eq_refl). simpl. by wp_steps.
  - inversion Hc as [|? ? Hok Hc']; subst. pose proof (page_ok_range _ Hok).
    rewrite (proj2 (nz_true _)) by lia. unfold ld64, do_memset. wp_steps.
    split_and!; try done. inversion Hnd; subst.
    split; [|done]. simpl. eapply chain_same_but; [done..|apply same_but_memset].
Qed.

Lemma kfree_wp t s fl pa :
  kmem_inv s fl -> kmem_lock ∉ t_held t -> page_ok pa -> pa ∉ fl ->
  wp (kfree pa) (fun _ t' s' => t' = t /\ kmem_inv s' (pa :: fl) /\
    same_but pa (k_mem s) (k_mem s')) t s.
Proof.
  intros [Hc Hnd] Hl Hok Hnin. unfold kfree. destruct Hok as (Hal & Hlo & Hhi) eqn:E.
  clear E. rewrite Hal. rewrite (proj2 (Z.ltb_ge pa kend)), (proj2 (Z.leb_gt PHYSTOP pa)) by lia.
  simpl. unfold do_memset, st64. wp_steps. split; [done|].
  set (m1 := memset (k_mem s) pa 1 PGSIZE). set (m2 := store64 m1 pa (k_freelist s)).
  assert (Hs : same_but pa (k_mem s) m2).
  { eapply same_but_trans; [apply same_but_memset|apply same_but_store64; unfold PGSIZE; lia]. }
  split; [|done]. split; simpl; [|by constructor].
  constructor; [done|]. fold m1 m2.
  assert (E : load64 m2 pa = k_freelist s).
  { apply load64_store64. destruct fl as [|q fl].
    - by rewrite (proj2 (chain_null _ _ _ Hc) eq_refl).
    - inversion Hc as [|? ? Hq]; subst. pose proof (page_ok_range _ Hq). lia. }
  rewrite E. by eapply chain_same_but.
Qed.

Lemma kfree_panic t s pa : ~ page_ok pa -> kfree pa t s = Panic "kfree" t s.
Proof.
  intros Hn. unfold kfree.
  destruct (negb (pa mod PGSIZE =? 0) || (pa <? kend) || (PHYSTOP <=? pa)) eqn:E; [done|].
  exfalso. apply Hn. unfold page_ok. lia.
Qed.

Lemma freerange_loop_wp t s fl p pa_end n fuel :
  kmem_inv s fl -> kmem_lock ∉ t_held t ->
  p mod PGSIZE = 0 -> kend <= p -> pa_end <= PHYSTOP ->
  p + Z.of_nat n * PGSIZE <= pa_end < p + (Z.of_nat n + 1) * PGSIZE ->
  (forall q, q ∈ fl -> q < p) -> (n < fuel)%nat ->
  wp (freerange_loop fuel p pa_end) (fun _ t' s' => t' = t /\ kmem_inv s' (pages p n ++ fl)) t s.
Proof.
  revert s fl p n. induction fuel as [|fuel IH]; intros s fl p n Hi Hl Hal Hlo Hhi Hn Hfl Hf; [lia|].
  simpl. unfold PGSIZE in *. destruct n as [|n].
  - rewrite (proj2 (Z.leb_gt _ _)) by lia. wp_steps. by split.
  - rewrite (proj2 (Z.leb_le _ _)) by lia. wp_step.
    eapply wp_mono; [apply (kfree_wp t s fl p)|]; try done.
    + unfold page_ok, PGSIZE. lia.
    + intros Hin. specialize (Hfl p Hin). lia.
    + intros [] t' s' (-> & Hi' & _). eapply wp_mono.
      * apply (IH s' (p :: fl) (p + 4096) n); try done; try lia.
        -- rewrite Z.add_mod, Hal by lia. done.
        -- intros q [->|Hq]%elem_of_cons; [lia|]. specialize (Hfl q Hq). lia.
      * intros [] t'' s'' (-> & Hi''). split; [done|].
        replace (pages p (S n) ++ fl) with (pages (p + 4096) n ++ p :: fl); [done|].
        clear. revert fl. change 4096 with PGSIZE. cut (pages p (S n) = pages (p + PGSIZE) n ++ [p]).
        { intros -> fl. by rewrite <-app_assoc. }
        induction n as [|n IH]; [simpl; f_equal; lia|].
        change (pages p (S (S n))) with ((p + Z.of_nat (S n) * PGSIZE) :: pages p (S n)).
        rewrite IH. simpl. f_equal. lia.
Qed.

Lemma kinit_wp t s :
  k_freelist s = 0 -> kmem_lock ∉ t_held t ->
  wp kinit (fun _ t' s' => t' = t /\
    kmem_inv s' (pages (PGROUNDUP kend) (Z.to_nat ((PHYSTOP - PGROUNDUP kend) / PGSIZE)))) t s.
Proof.
  intros H0 Hl. pose proof kend_range. pose proof trampoline_range.
  assert (Hk : 0 <= kend <= 2 ^ 64 - 4096) by (unfold PHYSTOP, KERNBASE, PGSIZE in *; lia).
  pose proof (PGROUNDUP_bounds kend Hk) as [Ha Hb].
  assert (Hge : 0 <= (PHYSTOP - PGROUNDUP kend) / PGSIZE).
  { apply Z.div_pos; [|done]. unfold PHYSTOP, KERNBASE in *.
    pose proof (Z.div_mod (PGROUNDUP kend) 4096). lia. }
  set (p := PGROUNDUP kend) in *. set (q := (PHYSTOP - p) / PGSIZE) in *.
  assert (Hq : PHYSTOP - p = PGSIZE * q + (PHYSTOP - p) mod PGSIZE) by (apply Z.div_mod; done).
  pose proof (Z.mod_pos_bound (PHYSTOP - p) PGSIZE ltac:(done)).
  unfold kinit, freerange. fold p q. eapply wp_mono.
  - apply (freerange_loop_wp t s [] p PHYSTOP (Z.to_nat q)); try done; try lia.
    + split; [|by constructor]. rewrite H0. constructor.
    + rewrite Z2Nat.id by lia. unfold PGSIZE in *. lia.
    + intros ? []%not_elem_of_nil.
  - intros [] t' s' [-> Hi]. by rewrite app_nil_r in Hi.
Qed.

Lemma client_wp t ops : forall s fl used,
  kmem_inv s fl -> kmem_lock ∉ t_held t -> NoDup (fl ++ used) -> Forall page_ok used ->
  wp (client ops used) (fun used' t' s' => t' = t /\ exists fl',
    kmem_inv s' fl' /\ fl' ++ used' ≡ₚ fl ++ used /\ NoDup (fl' ++ used')) t s.
Proof.
  induction ops as [|[|i] ops IH]; intros s fl used Hi Hl Hnd Hok; simpl.
  - wp_steps. eauto.
  - wp_steps. eapply wp_mono; [by apply (kalloc_wp t s fl)|].
    intros p t' s' [-> Hp]. destruct fl as [|q fl]; simpl in Hp.
    + destruct Hp as [-> ->]. simpl. by apply (IH s []).
    + destruct Hp as (-> & Hi' & _). inversion Hi as [Hc _]. inversion Hc as [|? ? Hq]; subst.
      pose proof (page_ok_range _ Hq). rewrite (proj2 (nz_true _)) by lia.
      assert (Hperm : fl ++ k_freelist s :: used ≡ₚ k_freelist s :: fl ++ used)
        by (symmetry; apply Permutation_middle).
      eapply wp_mono; [apply (IH s' fl (k_freelist s :: used)); try done|].
      * by rewrite Hperm.
      * by constructor.
      * intros u t' s'' (-> & fl' & Hi'' & Hp & Hn). split; [done|].
        exists fl'. split_and!; [done| |done]. rewrite Hp. done.
  - destruct (used !! i) as [p|] eqn:E; [|by apply IH].
    wp_steps. rewrite Forall_lookup in Hok.
    assert (Hperm : used ≡ₚ p :: delete i used) by (by apply delete_Permutation).
    assert (Hp2 : (p :: fl) ++ delete i used ≡ₚ fl ++ used)
      by (simpl; etrans; [apply Permutation_middle|]; by apply Permutation_app_head; symmetry).
    eapply wp_mono; [apply (kfree_wp t s fl p); try done; [by eapply Hok|]|].
    { intros Hin. rewrite <-Hp2 in Hnd. simpl in Hnd. inversion Hnd; set_solver. }
    intros [] t' s' (-> & Hi' & _). eapply wp_mono.
    + apply (IH s' (p :: fl) (delete i used)); try done; [by rewrite Hp2|].
      apply Forall_delete, Forall_lookup. eauto.
    + intros u t' s'' (-> & fl' & Hi'' & Hp & Hn). split; [done|].
      exists fl'. split_and!; [done| |done]. by rewrite Hp.
Qed.
End kalloc.
