(* ===== verification/Vm.v ===== *)
(** * Vm: page tables and user memory, kernel/vm.c

    Page-table pages live in physical memory as in the source: [walk] reads
    and writes 64-bit entries, allocating page-table pages with [kalloc].
    Pointers are addresses and 0 is the null pointer; an [int] result is the
    integer the function returns. *)

From S2P Require Import Prelude Riscv CString Kalloc.

(** The fields of struct proc that vm.c reads through myproc(). *)
Record uproc := { up_sz : Z; up_pagetable : Z }.

Section vm.
Context `{KernelLayout}.

(** The loop of [walk] over the levels above 0. *)
Fixpoint walk_loop (level : nat) (pagetable va : Z) (alloc : bool) : M kmem Z :=
  match level with
  | O => mret (pagetable + 8 * PX 0 va)
  | S level' =>
      let pte := pagetable + 8 * PX (Z.of_nat level) va in
      v ← ld64 pte;
      if nz (Z.land v PTE_V) then walk_loop level' (PTE2PA v) va alloc
      else if negb alloc then mret 0
      else
        pt ← kalloc;
        if pt =? 0 then mret 0
        else
          do_memset pt 0 PGSIZE;;
          st64 pte (Z.lor (PA2PTE pt) PTE_V);;
          walk_loop level' pt va alloc
  end.

Definition walk (pagetable va : Z) (alloc : bool) : M kmem Z :=
  if MAXVA <=? va then panic "walk" else walk_loop 2 pagetable va alloc.

Definition walkaddr (pagetable va : Z) : M kmem Z :=
  if MAXVA <=? va then mret 0
  else
    pte ← walk pagetable va false;
    if pte =? 0 then mret 0
    else
      v ← ld64 pte;
      if Z.land v PTE_V =? 0 then mret 0
      else if Z.land v PTE_U =? 0 then mret 0
      else mret (PTE2PA v).

Definition ismapped (pagetable va : Z) : M kmem bool :=
  pte ← walk pagetable va false;
  if pte =? 0 then mret false
  else
    v ← ld64 pte;
    mret (nz (Z.land v PTE_V)).

(** The [for(;;)] loop of [mappages]; it runs once per page. *)
Fixpoint mappages_loop (fuel : nat) (pagetable a last pa perm : Z) : M kmem Z :=
  match fuel with
  | O => fuel_out
  | S fuel =>
      pte ← walk pagetable a true;
      if pte =? 0 then mret (-1)
      else
        v ← ld64 pte;
        if nz (Z.land v PTE_V) then panic "mappages: remap"
        else
          st64 pte (Z.lor (Z.lor (PA2PTE pa) perm) PTE_V);;
          if a =? last then mret 0
          else mappages_loop fuel pagetable (u64 (a + PGSIZE)) last (u64 (pa + PGSIZE)) perm
  end.

Definition mappages (pagetable va size pa perm : Z) : M kmem Z :=
  if negb (va mod PGSIZE =? 0) then panic "mappages: va not aligned"
  else if negb (size mod PGSIZE =? 0) then panic "mappages: size not aligned"
  else if size =? 0 then panic "mappages: size"
  else
    mappages_loop (Z.to_nat (size / PGSIZE)) pagetable va (u64 (va + size - PGSIZE)) pa perm.

Definition kvmmap (kpgtbl va pa sz perm : Z) : M kmem unit :=
  r ← mappages kpgtbl va sz pa perm;
  if negb (r =? 0) then panic "kvmmap" else mret tt.

Definition uvmcreate : M kmem Z :=
  pagetable ← kalloc;
  if pagetable =? 0 then mret 0
  else
    do_memset pagetable 0 PGSIZE;;
    mret pagetable.

(** The body of the loop of [uvmunmap] for one page. *)
Definition unmap_page (pagetable a : Z) (do_free : bool) : M kmem unit :=
  pte ← walk pagetable a false;
  if pte =? 0 then mret tt
  else
    v ← ld64 pte;
    if Z.land v PTE_V =? 0 then mret tt
    else
      (if do_free then kfree (PTE2PA v) else mret tt);;
      st64 pte 0.

Fixpoint uvmunmap_loop (fuel : nat) (pagetable a lim : Z) (do_free : bool) : M kmem unit :=
  match fuel with
  | O => fuel_out
  | S fuel =>
      if a <? lim
      then unmap_page pagetable a do_free;; uvmunmap_loop fuel pagetable (u64 (a + PGSIZE)) lim do_free
      else mret tt
  end.

Definition uvmunmap (pagetable va npages : Z) (do_free : bool) : M kmem unit :=
  if negb (va mod PGSIZE =? 0) then panic "uvmunmap: not aligned"
  else
    uvmunmap_loop (S (Z.to_nat npages)) pagetable va (u64 (va + u64 (npages * PGSIZE))) do_free.

Definition uvmdealloc (pagetable oldsz newsz : Z) : M kmem Z :=
  if oldsz <=? newsz then mret oldsz
  else
    (if PGROUNDUP newsz <? PGROUNDUP oldsz then
       let npages := i32 ((PGROUNDUP oldsz - PGROUNDUP newsz) / PGSIZE) in
       uvmunmap pagetable (PGROUNDUP newsz) (u64 npages) true
     else mret tt);;
    mret newsz.

(** The loop of [uvmalloc]; [oldsz] is already rounded up. *)
Fixpoint uvmalloc_loop (fuel : nat) (pagetable a oldsz newsz xperm : Z) : M kmem Z :=
  match fuel with
  | O => fuel_out
  | S fuel =>
      if a <? newsz then
        m ← kalloc;
        if m =? 0 then uvmdealloc pagetable a oldsz;; mret 0
        else
          do_memset m 0 PGSIZE;;
          r ← mappages pagetable a PGSIZE m (Z.lor (Z.lor PTE_R PTE_U) xperm);
          if negb (r =? 0) then kfree m;; uvmdealloc pagetable a oldsz;; mret 0
          else uvmalloc_loop fuel pagetable (u64 (a + PGSIZE)) oldsz newsz xperm
      else mret newsz
  end.

Definition uvmalloc (pagetable oldsz newsz xperm : Z) : M kmem Z :=
  if newsz <? oldsz then mret oldsz
  else
    let oldsz := PGROUNDUP oldsz in
    uvmalloc_loop (S (Z.to_nat ((newsz - oldsz + PGSIZE - 1) / PGSIZE)))
      pagetable oldsz oldsz newsz xperm.

(** The loop of [freewalk] over the entries [i .. i+k); [sub] frees a lower level. *)
Fixpoint freewalk_loop (sub : Z -> M kmem unit) (pagetable i : Z) (k : nat) : M kmem unit :=
  match k with
  | O => mret tt
  | S k =>
      pte ← ld64 (pagetable + 8 * i);
      (if nz (Z.land pte PTE_V) && (Z.land pte (Z.lor (Z.lor PTE_R PTE_W) PTE_X) =? 0) then
         let child := PTE2PA pte in
         sub child;;
         st64 (pagetable + 8 * i) 0
       else if nz (Z.land pte PTE_V) then panic "freewalk: leaf"
       else mret tt);;
      freewalk_loop sub pagetable (i + 1) k
  end.

(** [freewalk] recurses through the levels of the table; a page table has
    three of them, so three levels of [depth] are enough. *)
Fixpoint freewalk (depth : nat) (pagetable : Z) : M kmem unit :=
  match depth with
  | O => fuel_out
  | S depth => freewalk_loop (freewalk depth) pagetable 0 512;; kfree pagetable
  end.

Definition uvmfree (pagetable sz : Z) : M kmem unit :=
  (if 0 <? sz then uvmunmap pagetable 0 (PGROUNDUP sz / PGSIZE) true else mret tt);;
  freewalk 3 pagetable.

(** The loop of [uvmcopy] with its [err] label. *)
Fixpoint uvmcopy_loop (fuel : nat) (old new i sz : Z) : M kmem Z :=
  match fuel with
  | O => fuel_out
  | S fuel =>
      if i <? sz then
        pte ← walk old i false;
        if pte =? 0 then uvmcopy_loop fuel old new (u64 (i + PGSIZE)) sz
        else
          v ← ld64 pte;
          if Z.land v PTE_V =? 0 then uvmcopy_loop fuel old new (u64 (i + PGSIZE)) sz
          else
            let pa := PTE2PA v in
            let flags := PTE_FLAGS v in
            m ← kalloc;
            if m =? 0 then uvmunmap new 0 (i / PGSIZE) true;; mret (-1)
            else
              do_memmove m pa PGSIZE;;
              r ← mappages new i PGSIZE m flags;
              if negb (r =? 0) then kfree m;; uvmunmap new 0 (i / PGSIZE) true;; mret (-1)
              else uvmcopy_loop fuel old new (u64 (i + PGSIZE)) sz
      else mret 0
  end.

Definition uvmcopy (old new sz : Z) : M kmem Z :=
  uvmcopy_loop (S (Z.to_nat ((sz + PGSIZE - 1) / PGSIZE))) old new 0 sz.

Definition uvmclear (pagetable va : Z) : M kmem unit :=
  pte ← walk pagetable va false;
  if pte =? 0 then panic "uvmclear"
  else
    v ← ld64 pte;
    st64 pte (Z.land v (Z.lnot PTE_U)).

Definition vmfault (p : uproc) (pagetable va : Z) : M kmem Z :=
  if up_sz p <=? va then mret 0
  else
    let va := PGROUNDDOWN va in
    b ← ismapped pagetable va;
    if (b : bool) then mret 0
    else
      m ← kalloc;
      if m =? 0 then mret 0
      else
        do_memset m 0 PGSIZE;;
        r ← mappages (up_pagetable p) va PGSIZE m (Z.lor (Z.lor PTE_W PTE_U) PTE_R);
        if negb (r =? 0) then kfree m;; mret 0
        else mret m.

(** The bytes of kernel memory a copy reads or writes are passed by value. *)
Definition put_bytes (a : Z) (l : list byte) : M kmem unit :=
  modify (fun s => set_mem (mwrite (k_mem s) a l) s).

Definition get_bytes (a n : Z) : M kmem (list byte) :=
  gets (fun s => mread (k_mem s) a (Z.to_nat n)).

(** [pa0 = walkaddr(..); if(pa0 == 0) pa0 = vmfault(..)] *)
Definition resolve (p : uproc) (pagetable va0 : Z) : M kmem Z :=
  pa0 ← walkaddr pagetable va0;
  if pa0 =? 0 then vmfault p pagetable va0 else mret pa0.

Fixpoint copyout_loop (fuel : nat) (p : uproc) (pagetable dstva : Z) (src : list byte) (len : Z)
  : M kmem Z :=
  match fuel with
  | O => fuel_out
  | S fuel =>
      if 0 <? len then
        let va0 := PGROUNDDOWN dstva in
        if MAXVA <=? va0 then mret (-1)
        else
          pa0 ← resolve p pagetable va0;
          if pa0 =? 0 then mret (-1)
          else
            pte ← walk pagetable va0 false;
            if pte =? 0 then panic "kerneltrap"
            else
              v ← ld64 pte;
              if Z.land v PTE_W =? 0 then mret (-1)
              else
                let n := Z.min (PGSIZE - (dstva - va0)) len in
                put_bytes (pa0 + (dstva - va0)) (take (Z.to_nat n) src);;
                copyout_loop fuel p pagetable (u64 (va0 + PGSIZE)) (drop (Z.to_nat n) src) (len - n)
      else mret 0
  end.

Definition copyout (p : uproc) (pagetable dstva : Z) (src : list byte) (len : Z) : M kmem Z :=
  copyout_loop (Z.to_nat (len / PGSIZE + 3)) p pagetable dstva src len.

(** [copyin] returns its result and the bytes it stored at [dst]. *)
Fixpoint copyin_loop (fuel : nat) (p : uproc) (pagetable : Z) (dst : list byte) (srcva len : Z)
  : M kmem (Z * list byte) :=
  match fuel with
  | O => fuel_out
  | S fuel =>
      if 0 <? len then
        let va0 := PGROUNDDOWN srcva in
        pa0 ← resolve p pagetable va0;
        if pa0 =? 0 then mret (-1, dst)
        else
          let n := Z.min (PGSIZE - (srcva - va0)) len in
          l ← get_bytes (pa0 + (srcva - va0)) n;
          copyin_loop fuel p pagetable (dst ++ l) (u64 (va0 + PGSIZE)) (len - n)
      else mret (0, dst)
  end.

Definition copyin (p : uproc) (pagetable srcva len : Z) : M kmem (Z * list byte) :=
  copyin_loop (Z.to_nat (len / PGSIZE + 3)) p pagetable [] srcva len.

(** The inner loop of [copyinstr]: up to [n] bytes from [p], with whether a NUL was found. *)
Fixpoint copyinstr_scan (l : list byte) (dst : list byte) : list byte * bool :=
  match l with
  | [] => (dst, false)
  | b :: l => if cv b =? 0 then (dst ++ [chr 0], true) else copyinstr_scan l (dst ++ [b])
  end.

Fixpoint copyinstr_loop (fuel : nat) (pagetable : Z) (dst : list byte) (srcva max : Z)
  : M kmem (Z * list byte) :=
  match fuel with
  | O => fuel_out
  | S fuel =>
      if 0 <? max then
        let va0 := PGROUNDDOWN srcva in
        pa0 ← walkaddr pagetable va0;
        if pa0 =? 0 then mret (-1, dst)
        else
          let n := Z.min (PGSIZE - (srcva - va0)) max in
          l ← get_bytes (pa0 + (srcva - va0)) n;
          let '(dst, got_null) := copyinstr_scan l dst in
          if (got_null : bool) then mret (0, dst)
          else copyinstr_loop fuel pagetable dst (u64 (va0 + PGSIZE)) (max - n)
      else mret (-1, dst)
  end.

Definition copyinstr (pagetable srcva max : Z) : M kmem (Z * list byte) :=
  copyinstr_loop (Z.to_nat (max / PGSIZE + 3)) pagetable [] srcva max.
End vm.
