(* ===== verification/PageTable.v ===== *)
(** * PageTable: the page-table invariant and the lookup function it gives

    The page tables of all processes are described by an ownership map from
    physical pages to their use: a page of a page table, with its root, its
    level and the virtual-address prefix it translates, or a page of user
    memory, with its root and virtual page number.  As a page has one use,
    the tables are trees that share nothing.  [lk] is the translation a
    page table gives, the abstract map that [mappages], [uvmunmap] and the
    copy routines are specified with. *)

From S2P Require Import Prelude Riscv CString Kalloc Vm.

Inductive usage :=
| PT (root : Z) (level : nat) (prefix : Z)
| Data (root vpn : Z).

(** The address of the entry for [va], as [walk] without allocation computes it. *)
Fixpoint wk (m : mem) (k : nat) (p va : Z) : Z :=
  match k with
  | O => p + 8 * PX 0 va
  | S k' =>
      let v := load64 m (p + 8 * PX (Z.of_nat k) va) in
      if nz (Z.land v PTE_V) then wk m k' (PTE2PA v) va else 0
  end.

(** The valid leaf entry for [va] below the page [p] of level [k]. *)
Fixpoint lk (m : mem) (k : nat) (p va : Z) : option Z :=
  let v := load64 m (p + 8 * PX (Z.of_nat k) va) in
  if nz (Z.land v PTE_V)
  then match k with O => Some v | S k' => lk m k' (PTE2PA v) va end
  else None.

(** The translation of a page table: the entry of each mapped page. *)
Definition pt_lookup (m : mem) (root va : Z) : option Z := lk m 2 root va.

Definition user_pages : Z := TRAPFRAME / PGSIZE.

(** The addresses with the prefix [pre] at level [k] are below MAXVA. *)
Definition below (k : nat) (pre : Z) : Prop := 0 <= pre /\ pre * 2 ^ (9 * (Z.of_nat k + 1)) < 2 ^ 26.

Section inv.
Context `{KernelLayout}.

Record vm_inv (users : gset Z) (own : gmap Z usage) (fl : list Z) (s : kmem) : Prop := {
  vi_kmem : kmem_inv s fl;
  vi_free : forall p, p ∈ fl -> own !! p = None;
  vi_ok : forall p u, own !! p = Some u -> page_ok p;
  vi_root : forall r, r ∈ users -> own !! r = Some (PT r 2 0);
  vi_node : forall p root k pre i,
    own !! p = Some (PT root (S k) pre) -> 0 <= i < 512 ->
    let v := load64 (k_mem s) (p + 8 * i) in
    nz (Z.land v PTE_V) = true ->
    own !! PTE2PA v = Some (PT root k (pre * 512 + i)) /\
    Z.land v (Z.lor (Z.lor PTE_R PTE_W) PTE_X) = 0;
  vi_leaf : forall p root pre i,
    own !! p = Some (PT root 0 pre) -> root ∈ users -> 0 <= i < 512 ->
    let v := load64 (k_mem s) (p + 8 * i) in
    nz (Z.land v PTE_V) = true -> pre * 512 + i < user_pages ->
    own !! PTE2PA v = Some (Data root (pre * 512 + i));
  vi_parent : forall p root k pre,
    own !! p = Some (PT root k pre) ->
    (k = 2%nat /\ p = root /\ pre = 0) \/
    ((k < 2)%nat /\ exists pp, own !! pp = Some (PT root (S k) (pre / 512)) /\
      let v := load64 (k_mem s) (pp + 8 * (pre mod 512)) in
      nz (Z.land v PTE_V) = true /\ PTE2PA v = p);
  vi_low : forall p root k pre, own !! p = Some (PT root k pre) -> below k pre
}.

(** A position of a table is occupied by one page. *)
Lemma vm_inv_inj users own fl s p q root k pre :
  vm_inv users own fl s ->
  own !! p = Some (PT root k pre) -> own !! q = Some (PT root k pre) -> p = q.
Proof.
  intros I. assert (Hind : forall n k p q pre, (2 - k <= n)%nat ->
    own !! p = Some (PT root k pre) -> own !! q = Some (PT root k pre) -> p = q).
  { clear p q k pre. induction n as [|n IH]; intros k p q pre Hn Hp Hq.
    all: destruct (vi_parent _ _ _ _ I _ _ _ _ Hp) as [(? & -> & _)|(Hk & pp & Hpp & Hv)];
      destruct (vi_parent _ _ _ _ I _ _ _ _ Hq) as [(? & -> & _)|(Hk' & qq & Hqq & Hv')];
      try lia; try done.
    assert (pp = qq) as -> by (eapply (IH (S k)); [lia|done|done]).
    destruct Hv as [_ <-], Hv' as [_ <-]. done. }
  eauto.
Qed.

(** The pages of a table lead up to its root. *)
Lemma vi_root_of users own fl s p root k pre :
  vm_inv users own fl s -> own !! p = Some (PT root k pre) -> own !! root = Some (PT root 2 0).
Proof.
  intros I. remember (2 - k)%nat as n eqn:En. revert k p pre En.
  induction n as [|n IH]; intros k p pre En Hp;
    destruct (vi_parent _ _ _ _ I _ _ _ _ Hp) as [(-> & -> & ->)|(Hk & pp & Hpp & _)]; try done; [lia|].
  eapply (IH (S k)); [lia|done].
Qed.

(** ** Arithmetic of virtual addresses *)

Definition prefix_of (k : nat) (va : Z) : Z := va / 2 ^ (12 + 9 * (Z.of_nat k + 1)).

Lemma prefix_child k va :
  va / 2 ^ (12 + 9 * Z.of_nat k) = prefix_of k va * 512 + PX (Z.of_nat k) va.
Proof.
  unfold prefix_of. rewrite PX_eq by lia. set (e := 12 + 9 * Z.of_nat k).
  replace (12 + 9 * (Z.of_nat k + 1)) with (e + 9) by lia.
  assert (0 < 2 ^ e) by (apply Z.pow_pos_nonneg; lia).
  rewrite (Z.pow_add_r 2 e 9) by lia. rewrite <-Z.div_div by lia. change (2 ^ 9) with 512.
  rewrite (Z.div_mod (va / 2 ^ e) 512) at 1 by lia. lia.
Qed.

Lemma prefix_step k va : prefix_of k va = prefix_of (S k) va * 512 + PX (Z.of_nat (S k)) va.
Proof.
  rewrite <-prefix_child. unfold prefix_of. do 2 f_equal. lia.
Qed.

Lemma vpn_split va : va / 4096 = prefix_of 0 va * 512 + PX 0 va.
Proof. rewrite <-(prefix_child 0). done. Qed.

Lemma prefix_root va : 0 <= va < MAXVA -> prefix_of 2 va = 0.
Proof.
  intros Hva. apply Z.div_small. change MAXVA with (2 ^ 38) in Hva.
  change (2 ^ (12 + 9 * (Z.of_nat 2 + 1))) with (2 ^ 39). lia.
Qed.

Lemma prefix_below k va : 0 <= va < MAXVA -> below k (prefix_of k va).
Proof.
  intros Hva. change MAXVA with (2 ^ 38) in Hva. unfold below, prefix_of. set (e := 9 * (Z.of_nat k + 1)).
  assert (0 < 2 ^ e) by (apply Z.pow_pos_nonneg; lia). rewrite (Z.pow_add_r 2 12 e) by lia. change (2 ^ 12) with 4096.
  assert (0 <= va / (4096 * 2 ^ e)) by (apply Z.div_pos; nia). split; [done|].
  pose proof (Z.mul_div_le va (4096 * 2 ^ e)). nia.
Qed.

(** ** Words of page-table pages *)

Lemma word_disjoint p q i j :
  page_ok p -> page_ok q -> 0 <= i < 512 -> 0 <= j < 512 -> p <> q \/ i <> j ->
  p + 8 * i + 8 <= q + 8 * j \/ q + 8 * j + 8 <= p + 8 * i.
Proof.
  intros Hp Hq Hi Hj Hne. destruct (decide (p = q)) as [->|Hpq]; [lia|].
  pose proof (page_disjoint p q Hp Hq Hpq). unfold PGSIZE in *. lia.
Qed.

Lemma load_other_word m p q i j v :
  page_ok p -> page_ok q -> 0 <= i < 512 -> 0 <= j < 512 -> p <> q \/ i <> j ->
  load64 (store64 m (q + 8 * j) v) (p + 8 * i) = load64 m (p + 8 * i).
Proof.
  intros Hp Hq Hi Hj Hne. apply load_store_disjoint. simpl.
  pose proof (word_disjoint p q i j Hp Hq Hi Hj Hne). lia.
Qed.

Lemma load_same_but m m' p q i :
  page_ok p -> page_ok q -> p <> q -> 0 <= i < 512 -> same_but q m m' ->
  load64 m' (p + 8 * i) = load64 m (p + 8 * i).
Proof.
  intros Hp Hq Hne Hi Hs. apply load_ext. intros x Hx. simpl in Hx. apply Hs.
  pose proof (page_disjoint p q Hp Hq Hne). unfold PGSIZE in *. lia.
Qed.

Lemma load_zero_page m p i :
  0 <= i < 512 -> load64 (memset m p 0 PGSIZE) (p + 8 * i) = 0.
Proof.
  intros Hi. apply load_memset_zero; unfold PGSIZE; lia.
Qed.

Lemma lk_of_wk m k p va :
  wk m k p va <> 0 ->
  lk m k p va =
  (if nz (Z.land (load64 m (wk m k p va)) PTE_V) then Some (load64 m (wk m k p va)) else None).
Proof.
  revert p. induction k as [|k IH]; intros p; cbn [wk lk]; [done|]. case_match; [apply IH|done].
Qed.

(** ** [wk] and [lk] under the invariant *)

Section lookup.
Context {users own fl s} (I : vm_inv users own fl s).
Let m := k_mem s.

Lemma wk_owned root k p va :
  own !! p = Some (PT root k (prefix_of k va)) ->
  wk m k p va = 0 \/
  exists q, own !! q = Some (PT root 0 (prefix_of 0 va)) /\ wk m k p va = q + 8 * PX 0 va.
Proof using I.
  revert p. induction k as [|k IH]; intros p Hp; cbn [wk]; [eauto|].
  case_match eqn:E; [|by left]. apply IH.
  destruct (vi_node _ _ _ _ I p root k _ (PX (Z.of_nat (S k)) va) Hp) as [Ho _]; [|done|].
  { apply PX_bound. lia. }
  by rewrite (prefix_step k va).
Qed.

Lemma lk_wk root k p va :
  own !! p = Some (PT root k (prefix_of k va)) ->
  lk m k p va =
  (if wk m k p va =? 0 then None
   else if nz (Z.land (load64 m (wk m k p va)) PTE_V)
        then Some (load64 m (wk m k p va)) else None).
Proof using I.
  revert p. induction k as [|k IH]; intros p Hp; cbn [wk lk].
  - pose proof (page_ok_range _ (vi_ok _ _ _ _ I _ _ Hp)).
    pose proof (PX_bound 0 va ltac:(lia)). by rewrite (proj2 (Z.eqb_neq _ _)) by lia.
  - case_match eqn:E; [|done]. apply IH.
    destruct (vi_node _ _ _ _ I p root k _ (PX (Z.of_nat (S k)) va) Hp) as [Ho _]; [|done|].
    { apply PX_bound. lia. }
    by rewrite (prefix_step k va).
Qed.

(** Writing a leaf entry changes the translation of its page only. *)
Lemma lk_store_other root q pre j v root' k p va :
  own !! q = Some (PT root 0 pre) -> 0 <= j < 512 ->
  own !! p = Some (PT root' k (prefix_of k va)) ->
  root' <> root \/ va / 4096 <> pre * 512 + j ->
  lk (store64 m (q + 8 * j) v) k p va = lk m k p va.
Proof using I.
  intros Hq Hj. revert p. induction k as [|k IH]; intros p Hp Hne; cbn [lk].
  - pose proof (PX_bound 0 va ltac:(lia)). rewrite load_other_word; try done.
    + by eapply vi_ok.
    + by eapply vi_ok.
    + destruct (decide (p = q)) as [->|]; [|by left]. right. intros <-.
      rewrite Hp in Hq. injection Hq as -> <-. rewrite vpn_split in Hne.
      destruct Hne; done.
  - pose proof (PX_bound (Z.of_nat (S k)) va ltac:(lia)).
    rewrite load_other_word; try done; try by eapply vi_ok.
    + case_match eqn:E; [|done]. apply IH; [|done].
      destruct (vi_node _ _ _ _ I p root' k _ (PX (Z.of_nat (S k)) va) Hp) as [Ho _]; [done|done|].
      by rewrite (prefix_step k va).
    + left. intros ->. congruence.
Qed.

Lemma wk_store_leaf root q pre j v root' k p va :
  own !! q = Some (PT root 0 pre) -> 0 <= j < 512 ->
  own !! p = Some (PT root' k (prefix_of k va)) ->
  wk (store64 m (q + 8 * j) v) k p va = wk m k p va.
Proof using I.
  intros Hq Hj. revert p. induction k as [|k IH]; intros p Hp; cbn [wk]; [done|].
  pose proof (PX_bound (Z.of_nat (S k)) va ltac:(lia)).
  rewrite load_other_word; try done; try by eapply vi_ok.
  - case_match eqn:E; [|done]. apply IH.
    destruct (vi_node _ _ _ _ I p root' k _ (PX (Z.of_nat (S k)) va) Hp) as [Ho _]; [done|done|].
    by rewrite (prefix_step k va).
  - left. intros ->. congruence.
Qed.

(** Changes outside the page-table pages are invisible to lookups. *)
Lemma lk_frame m' root k p va :
  (forall q r l pre i, own !! q = Some (PT r l pre) -> 0 <= i < 512 ->
    load64 m' (q + 8 * i) = load64 m (q + 8 * i)) ->
  own !! p = Some (PT root k (prefix_of k va)) ->
  lk m' k p va = lk m k p va.
Proof using I.
  intros Hf. revert p. induction k as [|k IH]; intros p Hp; cbn [lk].
  - by rewrite (Hf _ _ _ _ _ Hp) by (apply PX_bound; lia).
  - pose proof (PX_bound (Z.of_nat (S k)) va ltac:(lia)).
    rewrite (Hf _ _ _ _ _ Hp) by done. case_match eqn:E; [|done]. apply IH.
    destruct (vi_node _ _ _ _ I p root k _ (PX (Z.of_nat (S k)) va) Hp) as [Ho _]; [done|done|].
    by rewrite (prefix_step k va).
Qed.
End lookup.
End inv.
