(* ===== verification/VmWalk.v ===== *)
(** * VmWalk: [walk] and [mappages] refine an update of the translation

    [walk] with allocation extends the ownership map by the page-table
    pages it takes from the allocator and leaves every translation as it
    was; [mappages] adds the translation of its pages and nothing else. *)

From S2P Require Import Prelude Riscv CString Kalloc Vm PageTable.

Section walk.
Context `{KernelLayout}.

(** What allocating page-table pages for [root] may do: [fl] lost the
    pages [new], which now are pages of the table; memory outside the free
    pages and the page tables is untouched. *)
Record extends (root : Z) (users : gset Z) (own own' : gmap Z usage) (fl fl' : list Z) (s s' : kmem)
  : Prop := {
  ex_inv : vm_inv users own' fl' s';
  ex_own : own ⊆ own';
  ex_new : exists new, fl = new ++ fl' /\
    (forall p u, own' !! p = Some u -> own !! p = Some u \/ p ∈ new) /\
    (forall p, p ∈ new -> exists k pre, own' !! p = Some (PT root k pre));
  ex_mem : forall x,
    (forall p, p ∈ fl \/ (exists r k pre, own !! p = Some (PT r k pre)) -> x < p \/ p + PGSIZE <= x) ->
    mget (k_mem s') x = mget (k_mem s) x
}.

Lemma extends_trans root users own1 own2 own3 fl1 fl2 fl3 s1 s2 s3 :
  extends root users own1 own2 fl1 fl2 s1 s2 -> extends root users own2 own3 fl2 fl3 s2 s3 ->
  extends root users own1 own3 fl1 fl3 s1 s3.
Proof.
  intros [I2 O2 (n2 & E2 & A2 & B2) M2] [I3 O3 (n3 & E3 & A3 & B3) M3]. split.
  - done.
  - by etrans.
  - exists (n2 ++ n3). split_and!.
    + by rewrite E2, E3, app_assoc.
    + intros p u Hp. rewrite elem_of_app. destruct (A3 p u Hp) as [Hp'|Hp']; [|by right; right].
      destruct (A2 p u Hp'); [by left|by right; left].
    + intros p [Hp|Hp]%elem_of_app; [|by apply B3].
      destruct (B2 p Hp) as (k & pre & Hk). exists k, pre. by eapply lookup_weaken.
  - intros x Hx. rewrite M3, M2; [done|done|]. intros p [Hp|(r & k & pre & Hp)].
    + apply Hx. left. rewrite E2, elem_of_app. by right.
    + apply Hx. destruct (A2 _ _ Hp) as [|Hin]; [eauto|]. left. rewrite E2, elem_of_app. by left.
Qed.

Lemma extends_refl root users own fl s :
  vm_inv users own fl s -> extends root users own own fl fl s s.
Proof.
  intros I. split; try done. exists []. split_and!; [done|by left|]. by intros ? []%not_elem_of_nil.
Qed.

(** In addition the translations and the inner entries stay. *)
Record grows (root : Z) (users : gset Z) (own own' : gmap Z usage) (fl fl' : list Z) (s s' : kmem)
  : Prop := {
  gr_ext : extends root users own own' fl fl' s s';
  gr_lk : forall root' k p va, own !! p = Some (PT root' k (prefix_of k va)) ->
    lk (k_mem s') k p va = lk (k_mem s) k p va;
  gr_node : forall p root' k pre i, own !! p = Some (PT root' (S k) pre) -> 0 <= i < 512 ->
    nz (Z.land (load64 (k_mem s) (p + 8 * i)) PTE_V) = true ->
    load64 (k_mem s') (p + 8 * i) = load64 (k_mem s) (p + 8 * i)
}.

Lemma grows_refl root users own fl s : vm_inv users own fl s -> grows root users own own fl fl s s.
Proof. intros I. split; [by apply extends_refl|done..]. Qed.

Lemma grows_trans root users own1 own2 own3 fl1 fl2 fl3 s1 s2 s3 :
  grows root users own1 own2 fl1 fl2 s1 s2 -> grows root users own2 own3 fl2 fl3 s2 s3 ->
  grows root users own1 own3 fl1 fl3 s1 s3.
Proof.
  intros [E2 L2 W2] [E3 L3 W3]. assert (O2 := ex_own _ _ _ _ _ _ _ _ E2). split.
  - by eapply extends_trans.
  - intros root' k p va Hp. rewrite (L3 root'); [by apply (L2 root')|]. by eapply lookup_weaken.
  - intros p root' k pre i Hp Hi HV. assert (E := W2 _ _ _ _ _ Hp Hi HV).
    rewrite <-E. eapply (W3 p); [by eapply lookup_weaken|done|by rewrite E].
Qed.

Lemma walk_loop_false k p va t s : walk_loop k p va false t s = Done (wk (k_mem s) k p va) t s.
Proof.
  revert p. induction k as [|k IH]; intros p; [done|].
  cbn [walk_loop wk]. erewrite bind_done by done. cbv beta. case_match; [apply IH|done].
Qed.

Lemma walk_false root va t s :
  va < MAXVA -> walk root va false t s = Done (wk (k_mem s) 2 root va) t s.
Proof.
  intros Hva. unfold walk. rewrite (proj2 (Z.leb_gt _ _)) by lia. apply walk_loop_false.
Qed.

Lemma nodeptr_bits q : page_ok q ->
  let w := Z.lor (PA2PTE q) PTE_V in
  0 <= w < 2 ^ 64 /\ PTE2PA w = q /\ nz (Z.land w PTE_V) = true /\
  Z.land w (Z.lor (Z.lor PTE_R PTE_W) PTE_X) = 0.
Proof.
  intros Hq w. destruct Hq as (Hal & Hq') eqn:E. clear E.
  pose proof (page_ok_range q Hq) as [Hr _].
  assert (Hv : 0 <= PTE_V < 1024) by done.
  pose proof (mkpte_bound q PTE_V ltac:(lia) Hv). split_and!; try lia.
  - apply PTE2PA_mkpte; done || lia.
  - unfold w. by rewrite land_lor_V.
  - unfold w. rewrite mkpte_eq by (done || lia). change (Z.lor (Z.lor PTE_R PTE_W) PTE_X) with 14.
    change PTE_V with 1. replace (q / 4096 * 1024 + 1) with (1 + (q / 4096 * 64) * 2 ^ 4) by lia.
    apply Z.bits_inj'. intros i Hi. rewrite Z.land_spec, Z.bits_0.
    destruct (decide (i < 4)).
    + rewrite <-(Z.mod_pow2_bits_low _ 4) by lia. rewrite Z.mod_add by lia.
      assert (i = 0 \/ i = 1 \/ i = 2 \/ i = 3) as [->|[->|[->| ->]]] by lia; done.
    + rewrite (testbit_high 14 4) by lia. by rewrite andb_false_r.
Qed.

(** Linking a fresh zeroed page into the table at an empty entry. *)
Section link.
Context {users own q fl s root k pt pre i}
  (I : vm_inv users own (q :: fl) s)
  (Hpt : own !! pt = Some (PT root (S k) pre)) (Hi : 0 <= i < 512)
  (Hinv : nz (Z.land (load64 (k_mem s) (pt + 8 * i)) PTE_V) = false)
  (Hlow : below k (pre * 512 + i)).

#[local] Abbreviation w := (Z.lor (PA2PTE q) PTE_V).
Context (s' : kmem) (Hk' : kmem_inv s' fl)
  (Hs' : exists m1, same_but q (k_mem s) m1 /\
    k_mem s' = store64 (memset m1 q 0 PGSIZE) (pt + 8 * i) w).

#[local] Abbreviation own' := (<[q := PT root k (pre * 512 + i)]> own).

Lemma link_q_ok : page_ok q.
Proof using I.
  destruct (vi_kmem _ _ _ _ I) as [Hc _]. pose proof (chain_pages_ok _ _ _ Hc) as Ha.
  by inversion Ha.
Qed.

Lemma link_q_none : own !! q = None.
Proof using I. apply (vi_free _ _ _ _ I). apply elem_of_cons. by left. Qed.

Lemma link_word p u j :
  own !! p = Some u -> 0 <= j < 512 ->
  load64 (k_mem s') (p + 8 * j) =
  if decide (p = pt /\ j = i) then w else load64 (k_mem s) (p + 8 * j).
Proof using I Hpt Hi Hs'.
  intros Hp Hj. destruct Hs' as (m1 & Hs & ->).
  pose proof link_q_none. pose proof link_q_ok as Hq.
  assert (p <> q) by congruence. assert (pt <> q) by congruence.
  case_decide as E.
  - destruct E as [-> ->]. apply load64_store64. by apply nodeptr_bits.
  - rewrite load_other_word; try done; try by eapply vi_ok.
    2:{ destruct (decide (p = pt)) as [->|]; [right; intros ->; by apply E|by left]. }
    rewrite (load_same_but m1 (memset m1 q 0 PGSIZE) p q);
      [|by eapply vi_ok|done..|apply same_but_memset].
    apply (load_same_but (k_mem s) m1 p q); try done. by eapply vi_ok.
Qed.

Lemma link_zero j : 0 <= j < 512 -> load64 (k_mem s') (q + 8 * j) = 0.
Proof using I Hpt Hi Hs'.
  intros Hj. destruct Hs' as (m1 & Hs & ->).
  pose proof link_q_none. pose proof link_q_ok as Hq. assert (q <> pt) by congruence.
  rewrite load_other_word; try done; [|by eapply vi_ok|by left]. by apply load_zero_page.
Qed.

Lemma link_inv : vm_inv users own' fl s'.
Proof using All.
  pose proof link_q_none as Hqn. pose proof link_q_ok as Hq.
  destruct (nodeptr_bits q Hq) as (Hwr & Hwpa & HwV & Hwf). 
  pose proof (vi_kmem _ _ _ _ I) as [_ Hnd]. apply NoDup_cons in Hnd as [Hqfl _].
  split.
  - done.
  - intros p Hp. rewrite lookup_insert_ne by congruence.
    apply (vi_free _ _ _ _ I), elem_of_cons. by right.
  - intros p u. rewrite lookup_insert. case_decide as Ep; [intros _; by rewrite <-Ep|]. by apply (vi_ok _ _ _ _ I).
  - intros r Hr. pose proof (vi_root _ _ _ _ I r Hr). rewrite lookup_insert_ne; [done|congruence].
  - intros p root' k' pre' j. rewrite lookup_insert. case_decide as Eq.
    + intros _ Hj. rewrite <-Eq, link_zero by done. done.
    + intros Hp Hj. rewrite (link_word _ _ _ Hp Hj). case_decide as E.
      * destruct E as [E4 E5]. rewrite E4, Hpt in Hp. injection Hp as E1 E2 E3. cbv zeta. intros _.
        rewrite Hwpa, lookup_insert_eq, E1, E2, E3, E5. done.
      * cbv zeta. intros HV. destruct (vi_node _ _ _ _ I _ _ _ _ _ Hp Hj HV) as [Ho Hf].
        split; [|done]. rewrite lookup_insert_ne; [done|congruence].
  - intros p root' pre' j. rewrite lookup_insert. case_decide as Eq.
    + intros _ _ Hj. rewrite <-Eq, link_zero by done. done.
    + intros Hp Hu Hj. rewrite (link_word _ _ _ Hp Hj). case_decide as E.
      * destruct E as [E4 E5]. rewrite E4 in Hp. congruence.
      * cbv zeta. intros HV Hr. rewrite lookup_insert_ne; [by apply (vi_leaf _ _ _ _ I)|].
        pose proof (vi_leaf _ _ _ _ I _ _ _ _ Hp Hu Hj HV Hr). congruence.
  - intros p root' k' pre'. rewrite lookup_insert. case_decide as Eq.
    + intros [= E1 E2 E3]. right. split.
      * destruct (vi_parent _ _ _ _ I _ _ _ _ Hpt) as [(? & _)|(? & _)]; lia.
      * exists pt. rewrite lookup_insert_ne by congruence.
        rewrite <-E1, <-E2, <-E3, <-Eq. rewrite (Z.add_comm _ i).
        rewrite Z.div_add, Z.mod_add, Z.div_small, Z.mod_small by lia.
        split; [done|]. rewrite (link_word _ _ _ Hpt Hi).
        destruct (decide _) as [_|Hd]; [done|]. exfalso. exact (Hd (conj eq_refl eq_refl)).
    + intros Hp. destruct (vi_parent _ _ _ _ I _ _ _ _ Hp) as [?|(Hk2 & pp & Hpp & HV & Hc)];
        [by left|right]. split; [done|]. exists pp.
      rewrite lookup_insert_ne by congruence. split; [done|].
      assert (Hb := Z.mod_pos_bound pre' 512 ltac:(lia)).
      rewrite (link_word _ _ _ Hpp Hb). destruct (decide _) as [[E4 E5]|_]; [|done].
      rewrite E4, E5 in HV. congruence.
  - intros p root' k' pre'. rewrite lookup_insert. case_decide; [by intros [= <- <- <-]|]. apply (vi_low _ _ _ _ I).
Qed.

Lemma link_lk root' k' p va :
  own !! p = Some (PT root' k' (prefix_of k' va)) ->
  lk (k_mem s') k' p va = lk (k_mem s) k' p va.
Proof using All.
  destruct (nodeptr_bits q link_q_ok) as (_ & Hwpa & HwV & _).
  revert p. induction k' as [|k' IH]; intros p Hp; cbn [lk].
  - rewrite (link_word _ _ _ Hp) by (apply PX_bound; lia).
    rewrite decide_False; [done|]. intros [E4 _]. rewrite E4 in Hp. congruence.
  - assert (Hb := PX_bound (Z.of_nat (S k')) va ltac:(lia)).
    rewrite (link_word _ _ _ Hp) by done. case_decide as E.
    + destruct E as [E4 E5]. rewrite HwV, Hwpa, E4, E5, Hinv.
      destruct k'; cbn [lk]; by rewrite link_zero by (apply PX_bound; lia).
    + case_match eqn:EV; [|done]. apply IH.
      destruct (vi_node _ _ _ _ I _ _ _ _ _ Hp Hb EV) as [Ho _].
      by rewrite (prefix_step k' va).
Qed.

Lemma link_grows : grows root users own own' (q :: fl) fl s s'.
Proof using All.
  pose proof link_q_none as Hqn. split; [split| |].
  - apply link_inv.
  - by apply insert_subseteq.
  - exists [q]. split_and!; [done| |].
    + intros p u. rewrite lookup_insert. case_decide as Ep; [|by left].
      right. rewrite <-Ep. by apply elem_of_cons; left.
    + intros p ->%list_elem_of_singleton. rewrite lookup_insert_eq. eauto.
  - intros x Hx. destruct Hs' as (m1 & Hs & ->).
    pose proof (Hx q ltac:(left; apply elem_of_cons; by left)). pose proof (Hx pt ltac:(eauto)).
    rewrite mget_store_out by (simpl; unfold PGSIZE in *; lia).
    rewrite mget_memset_out by (done || lia). by apply Hs.
  - intros root' k' p va. apply link_lk.
  - intros p root' k' pre' j Hp Hj HV. rewrite (link_word _ _ _ Hp Hj).
    rewrite decide_False; [done|]. intros [E1 E2]. rewrite E1, E2 in HV. congruence.
Qed.
End link.

(** The result of a walk that may allocate: null when memory ran out, else
    the entry of [va] in a level-0 page of the table. *)
Definition walked (root va k p : Z) (a : Z) (own : gmap Z usage) (fl : list Z) (s : kmem) : Prop :=
  (a = 0 /\ fl = []) \/
  (a <> 0 /\ a = wk (k_mem s) (Z.to_nat k) p va /\
   exists q, own !! q = Some (PT root 0 (prefix_of 0 va)) /\ a = q + 8 * PX 0 va).

Lemma walk_loop_wp users root va t k : forall own fl s p,
  vm_inv users own fl s -> own !! p = Some (PT root k (prefix_of k va)) ->
  kmem_lock ∉ t_held t -> 0 <= va < MAXVA ->
  wp (walk_loop k p va true) (fun a t' s' => t' = t /\ exists own' fl',
    grows root users own own' fl fl' s s' /\ walked root va (Z.of_nat k) p a own' fl' s' /\
    (length fl <= length fl' + k)%nat) t s.
Proof.
  induction k as [|k IH]; intros own fl s p I Hp Hl Hva; cbn [walk_loop]; unfold ld64; wp_steps.
  - split; [done|]. exists own, fl. split_and!; [by apply grows_refl| |lia]. right.
    pose proof (page_ok_range _ (vi_ok _ _ _ _ I _ _ Hp)). pose proof (PX_bound 0 va ltac:(lia)).
    split_and!; [lia|done|eauto].
  - set (i := PX (Z.of_nat (S k)) va). assert (Hi : 0 <= i < 512) by (apply PX_bound; lia).
    assert (Hpre := prefix_step k va). fold i in Hpre.
    assert (Hwk : forall s', wk (k_mem s') (S k) p va =
      if nz (Z.land (load64 (k_mem s') (p + 8 * i)) PTE_V)
      then wk (k_mem s') k (PTE2PA (load64 (k_mem s') (p + 8 * i))) va else 0) by done.
    destruct (nz (Z.land (load64 (k_mem s) (p + 8 * i)) PTE_V)) eqn:EV.
    + destruct (vi_node _ _ _ _ I _ _ _ _ _ Hp Hi EV) as [Ho _]. rewrite <-Hpre in Ho.
      eapply wp_mono; [by apply (IH own fl s)|].
      intros a t' s' (-> & own' & fl' & G & W & L). split; [done|]. exists own', fl'.
      split_and!; [done| |lia]. destruct W as [W|(Ha & Hw & Hq)]; [by left|right].
      split_and!; [done| |done]. rewrite Nat2Z.id in *. rewrite Hwk.
      by rewrite (gr_node _ _ _ _ _ _ _ _ G _ _ _ _ _ Hp Hi EV), EV.
    + simpl. wp_steps. eapply wp_mono; [apply (kalloc_wp t s fl); [apply I|done]|].
      intros q t' s1 (-> & Hq). destruct fl as [|q' fl].
      * destruct Hq as [-> ->]. simpl. wp_steps. split; [done|]. exists own, [].
        split_and!; [by apply grows_refl|by left|simpl; lia].
      * destruct Hq as (-> & Hk1 & Hm1). pose proof (link_q_ok I) as Hqok.
        destruct (nodeptr_bits q' Hqok) as (_ & Hwpa & HwV & _).
        pose proof (page_ok_range _ Hqok). rewrite (proj2 (Z.eqb_neq q' 0)) by lia.
        unfold do_memset, st64. wp_steps. fold i.
        match goal with |- wp _ _ _ ?x => set (s3 := x) end.
        assert (Hfl : p ∉ fl).
        { intros Hin. assert (Hn := vi_free _ _ _ _ I p). rewrite Hp in Hn.
          by discriminate Hn; apply elem_of_cons; right. }
        assert (Hk3 : kmem_inv s3 fl).
        { destruct Hk1 as [Hc Hn]. split; [|done]. unfold s3. simpl.
          eapply chain_same_but; [|by eapply vi_ok|done|].
          2:{ apply same_but_store64; unfold PGSIZE; lia. }
          eapply chain_same_but; [done|done| |apply same_but_memset].
          pose proof (vi_kmem _ _ _ _ I) as [_ Hnd]. by apply NoDup_cons in Hnd as [? _]. }
        assert (Hs3 : exists m1, same_but q' (k_mem s) m1 /\
          k_mem s3 = store64 (memset m1 q' 0 PGSIZE) (p + 8 * i) (Z.lor (PA2PTE q') PTE_V)).
        { exists (k_mem s1). split; [rewrite Hm1; apply same_but_memset|done]. }
        assert (Hlow : below k (prefix_of (S k) va * 512 + i)) by (rewrite <-Hpre; by apply prefix_below).
        pose proof (link_grows I Hp Hi EV Hlow s3 Hk3 Hs3) as G3. rewrite <-Hpre in G3.
        eapply wp_mono; [apply (IH _ fl s3 q' (ex_inv _ _ _ _ _ _ _ _ (gr_ext _ _ _ _ _ _ _ _ G3))); [|done|done]|].
        { apply lookup_insert_eq. }
        intros a t' s' (-> & own' & fl' & G & W & L). split; [done|]. exists own', fl'.
        split_and!; [by eapply grows_trans| |simpl; lia]. destruct W as [W|(Ha & Hw & Hq)]; [by left|right].
        split_and!; [done| |done]. rewrite Nat2Z.id in *. rewrite Hwk.
        assert (E3 : load64 (k_mem s3) (p + 8 * i) = Z.lor (PA2PTE q') PTE_V).
        { rewrite (link_word I Hp Hi s3 Hs3 p _ i Hp Hi).
          destruct (decide _) as [_|Hd]; [reflexivity|]. exfalso. exact (Hd (conj eq_refl eq_refl)). }
        rewrite (gr_node _ _ _ _ _ _ _ _ G p root k (prefix_of (S k) va) i);
          [by rewrite E3, HwV, Hwpa| |done|by rewrite E3].
        rewrite lookup_insert_ne; [done|]. pose proof (link_q_none I). congruence.
Qed.
End walk.
