(* ===== verification/VmMap.v ===== *)
(** * VmMap: [mappages] refines an update of the translation

    Storing a leaf entry keeps the invariant and changes the translation of
    one page; [mappages] maps its pages in order and, when a page-table page
    cannot be allocated, stops after the pages it has mapped. *)

From S2P Require Import Prelude Riscv CString Kalloc Vm PageTable VmWalk.

Section map.
Context `{KernelLayout}.

(** ** The translation depends on the page of the address *)

Lemma PX_page k va va' : 0 <= k -> va / 4096 = va' / 4096 -> PX k va = PX k va'.
Proof.
  intros Hk Hv. rewrite !PX_eq by done. rewrite Z.pow_add_r by lia.
  assert (0 < 2 ^ (9 * k)) by (apply Z.pow_pos_nonneg; lia).
  rewrite <-!Z.div_div by lia. change (2 ^ 12) with 4096. by rewrite Hv.
Qed.

Lemma lk_page m k p va va' : va / 4096 = va' / 4096 -> lk m k p va = lk m k p va'.
Proof.
  intros Hv. revert p. induction k as [|k IH]; intros p; cbn [lk];
    rewrite (PX_page _ va va') by (done || lia); [done|]. by case_match.
Qed.

Lemma pt_lookup_page m root va va' :
  va / 4096 = va' / 4096 -> pt_lookup m root va = pt_lookup m root va'.
Proof. apply lk_page. Qed.

(** ** Storing a leaf entry *)

Lemma vm_inv_store_leaf users own fl s root q pre j v :
  vm_inv users own fl s -> own !! q = Some (PT root 0 pre) -> 0 <= j < 512 -> 0 <= v < 2 ^ 64 ->
  (nz (Z.land v PTE_V) = true -> root ∈ users -> pre * 512 + j < user_pages ->
   own !! PTE2PA v = Some (Data root (pre * 512 + j))) ->
  vm_inv users own fl (set_mem (store64 (k_mem s) (q + 8 * j) v) s).
Proof.
  intros I Hq Hj Hv Hd. assert (Hqok := vi_ok _ _ _ _ I _ _ Hq). split; try apply I.
  - destruct (vi_kmem _ _ _ _ I) as [Hc Hn]. split; [|done]. simpl.
    eapply chain_same_but; [done|done| |apply same_but_store64; unfold PGSIZE; lia].
    intros Hin. rewrite (vi_free _ _ _ _ I q Hin) in Hq. done.
  - intros p root' k pre' i Hp Hi. simpl.
    rewrite load_other_word; try done; [by apply (vi_node _ _ _ _ I)|by eapply vi_ok|].
    left. congruence.
  - intros p root' pre' i Hp Hu Hi. simpl.
    destruct (decide (p = q /\ i = j)) as [[-> ->]|Hne].
    + rewrite load64_store64 by done. rewrite Hq in Hp. injection Hp as <- <-. auto.
    + rewrite load_other_word; try done; [by apply (vi_leaf _ _ _ _ I)|by eapply vi_ok|].
      destruct (decide (p = q)) as [->|]; [right; intros ->; by apply Hne|by left].
  - intros p root' k pre' Hp.
    destruct (vi_parent _ _ _ _ I _ _ _ _ Hp) as [?|(Hk & pp & Hpp & Hc)]; [by left|right].
    split; [done|]. exists pp. split; [done|]. simpl.
    rewrite load_other_word; try done; [by eapply vi_ok|apply Z.mod_pos_bound; lia|].
    left. congruence.
Qed.

(** A page outside the tables, user memory and the free list becomes user memory. *)
Lemma vm_inv_add_data users own fl s pa r vpn :
  vm_inv users own fl s -> own !! pa = None -> page_ok pa -> pa ∉ fl ->
  vm_inv users (<[pa := Data r vpn]> own) fl s.
Proof.
  intros I Hn Hok Hfl. split; try apply I.
  - intros p Hp. rewrite lookup_insert_ne by congruence. by apply (vi_free _ _ _ _ I).
  - intros p u. rewrite lookup_insert. case_decide as E; [intros _; by rewrite <-E|].
    by apply (vi_ok _ _ _ _ I).
  - intros r' Hr. pose proof (vi_root _ _ _ _ I r' Hr). rewrite lookup_insert_ne; congruence.
  - intros p root k pre i. rewrite lookup_insert. case_decide; [done|]. intros Hp Hi v HV.
    destruct (vi_node _ _ _ _ I _ _ _ _ _ Hp Hi HV) as [Ho Hf]. fold v in Ho.
    split; [|done]. rewrite lookup_insert_ne; congruence.
  - intros p root pre i. rewrite lookup_insert. case_decide; [done|]. intros Hp Hu Hi v HV Hr.
    pose proof (vi_leaf _ _ _ _ I _ _ _ _ Hp Hu Hi HV Hr) as Ho. fold v in Ho.
    rewrite lookup_insert_ne; congruence.
  - intros p root k pre. rewrite lookup_insert. case_decide; [done|]. intros Hp.
    destruct (vi_parent _ _ _ _ I _ _ _ _ Hp) as [?|(Hk & pp & Hpp & Hc)]; [by left|right].
    split; [done|]. exists pp. rewrite lookup_insert_ne by congruence. done.
  - intros p root k pre. rewrite lookup_insert. case_decide; [done|]. apply (vi_low _ _ _ _ I).
Qed.

Lemma leafpte_bits pa perm : 0 <= pa < 2 ^ 56 -> pa mod PGSIZE = 0 -> 0 <= perm < 1024 ->
  let v := Z.lor (Z.lor (PA2PTE pa) perm) PTE_V in
  0 <= v < 2 ^ 64 /\ PTE2PA v = pa /\ nz (Z.land v PTE_V) = true /\
  PTE_FLAGS v = Z.lor perm PTE_V.
Proof.
  intros Hpa Hal Hperm v. unfold v. rewrite land_lor_V, <-Z.lor_assoc.
  assert (Hf : 0 <= Z.lor perm PTE_V < 1024) by (apply (lor_bound 10); done || lia).
  pose proof (mkpte_bound pa _ Hpa Hf).
  split_and!; try done; try lia; [by apply PTE2PA_mkpte|by apply PTE_FLAGS_mkpte].
Qed.

(** ** Mapping pages *)

(** The translation of [root] gains the entries of the [d] pages from [va]
    to the physical pages from [pa]; every other translation is the same. *)
Definition remapped (own : gmap Z usage) (root va pa perm d : Z) (m m' : mem) : Prop :=
  forall root' va', own !! root' = Some (PT root' 2 0) -> 0 <= va' < MAXVA ->
    pt_lookup m' root' va' =
    if decide (root' = root /\ va <= va' < va + d * PGSIZE)
    then Some (Z.lor (Z.lor (PA2PTE (pa + PGROUNDDOWN (va' - va))) perm) PTE_V)
    else pt_lookup m root' va'.

Lemma remapped_none own root va pa perm m m' :
  (forall root' va', own !! root' = Some (PT root' 2 0) -> 0 <= va' < MAXVA ->
    pt_lookup m' root' va' = pt_lookup m root' va') ->
  remapped own root va pa perm 0 m m'.
Proof. intros Hs root' va' Hr Hva. rewrite decide_False by lia. by apply Hs. Qed.

Lemma remapped_cons own own1 root a pa perm d m m1 m2 :
  own ⊆ own1 -> 0 <= d -> a mod 4096 = 0 ->
  remapped own root a pa perm 1 m m1 ->
  remapped own1 root (a + PGSIZE) (pa + PGSIZE) perm d m1 m2 ->
  remapped own root a pa perm (d + 1) m m2.
Proof.
  intros Ho Hd Ha H1 H2 root' va' Hr Hva. unfold PGSIZE in *.
  assert (Hr1 : own1 !! root' = Some (PT root' 2 0)) by (by eapply lookup_weaken).
  rewrite (H2 root' va' Hr1 Hva), (H1 root' va' Hr Hva). unfold PGSIZE.
  assert (E : va' - (a + 4096) = va' - a + -1 * 4096) by lia.
  repeat case_decide; try lia; try done.
  rewrite !PGROUNDDOWN_eq, E, Z.mod_add by lia. do 4 f_equal. lia.
Qed.

Lemma walk_wp users root va t own fl s :
  vm_inv users own fl s -> own !! root = Some (PT root 2 0) -> 0 <= va < MAXVA ->
  kmem_lock ∉ t_held t ->
  wp (walk root va true) (fun a t' s' => t' = t /\ exists own' fl',
    grows root users own own' fl fl' s s' /\ walked root va 2 root a own' fl' s' /\ (length fl <= length fl' + 2)%nat) t s.
Proof.
  intros I Hr Hva Hl. unfold walk. rewrite (proj2 (Z.leb_gt _ _)) by lia.
  apply (walk_loop_wp users root va t 2); try done. by rewrite prefix_root.
Qed.

(** A successful walk followed by the store of a leaf entry. *)
Lemma store_leaf_remaps users own fl s root va a v :
  vm_inv users own fl s -> own !! root = Some (PT root 2 0) -> 0 <= va < MAXVA ->
  a <> 0 -> a = wk (k_mem s) 2 root va ->
  own !! (a - 8 * PX 0 va) = Some (PT root 0 (prefix_of 0 va)) ->
  0 <= v < 2 ^ 64 ->
  forall root' va', own !! root' = Some (PT root' 2 0) -> 0 <= va' < MAXVA ->
    pt_lookup (store64 (k_mem s) a v) root' va' =
    if decide (root' = root /\ va' / 4096 = va / 4096)
    then (if nz (Z.land v PTE_V) then Some v else None)
    else pt_lookup (k_mem s) root' va'.
Proof.
  intros I Hr Hva Ha Hwk Hq Hv root' va' Hr' Hva'.
  set (q := a - 8 * PX 0 va) in *. assert (E : a = q + 8 * PX 0 va) by lia.
  assert (Hj := PX_bound 0 va ltac:(lia)).
  assert (Hp : own !! root = Some (PT root 2 (prefix_of 2 va))) by (by rewrite prefix_root).
  assert (Hp' : own !! root' = Some (PT root' 2 (prefix_of 2 va'))) by (by rewrite prefix_root).
  case_decide as Hc.
  - destruct Hc as [-> Hc]. rewrite (pt_lookup_page _ _ va' va) by done.
    assert (Hw : wk (store64 (k_mem s) a v) 2 root va = a).
    { rewrite E at 1. rewrite (wk_store_leaf I root q (prefix_of 0 va) (PX 0 va) v root); done. }
    unfold pt_lookup. rewrite lk_of_wk by (by rewrite Hw). rewrite Hw.
    by rewrite load64_store64.
  - rewrite E. apply (lk_store_other I root q (prefix_of 0 va) _ _ root'); try done.
    rewrite <-vpn_split. destruct (decide (root' = root)); [right|by left].
    intros Hv'. by apply Hc.
Qed.

(** The pages that may be mapped at [a]: user memory must already own them. *)
Definition mappable (users : gset Z) (own : gmap Z usage) (root a pa n : Z) : Prop :=
  root ∈ users -> forall i, 0 <= i < n -> a / 4096 + i < user_pages ->
  own !! (pa + i * PGSIZE) = Some (Data root (a / 4096 + i)).

Definition unmapped (m : mem) (root a n : Z) : Prop :=
  forall i, 0 <= i < n -> pt_lookup m root (a + i * PGSIZE) = None.

(** One iteration: the entry of [a] is found or created, and set. *)
Lemma map_one_wp users own fl s root a pa perm t :
  vm_inv users own fl s -> own !! root = Some (PT root 2 0) -> kmem_lock ∉ t_held t ->
  0 <= a < MAXVA -> a mod 4096 = 0 -> 0 <= pa < 2 ^ 56 -> pa mod PGSIZE = 0 ->
  0 <= perm < 1024 -> unmapped (k_mem s) root a 1 -> mappable users own root a pa 1 ->
  wp (walk root a true) (fun pte t1 s1 => t1 = t /\ exists own' fl',
    if pte =? 0 then fl' = [] /\ extends root users own own' fl fl' s s1 /\
      remapped own root a pa perm 0 (k_mem s) (k_mem s1)
    else nz (Z.land (load64 (k_mem s1) pte) PTE_V) = false /\
      let s2 := set_mem (store64 (k_mem s1) pte (Z.lor (Z.lor (PA2PTE pa) perm) PTE_V)) s1 in
      extends root users own own' fl fl' s s2 /\
      remapped own root a pa perm 1 (k_mem s) (k_mem s2)) t s.
Proof.
  intros I Hr Hl Ha Hal Hpa Hpal Hperm Hun Hmap.
  destruct (leafpte_bits pa perm Hpa Hpal Hperm) as (Hv & Hvpa & HvV & _).
  set (v := Z.lor (Z.lor (PA2PTE pa) perm) PTE_V) in *.
  eapply wp_mono; [by apply (walk_wp users root a t own fl s)|].
  intros pte t1 s1 (-> & own1 & fl1 & G & W & _). split; [done|]. exists own1, fl1.
  pose proof (gr_ext _ _ _ _ _ _ _ _ G) as X. pose proof (ex_inv _ _ _ _ _ _ _ _ X) as I1.
  assert (Hsub := ex_own _ _ _ _ _ _ _ _ X).
  assert (Hlk : forall root' va', own !! root' = Some (PT root' 2 0) -> 0 <= va' < MAXVA ->
    pt_lookup (k_mem s1) root' va' = pt_lookup (k_mem s) root' va').
  { intros root' va' Hr' Hva'. apply (gr_lk _ _ _ _ _ _ _ _ G root'). by rewrite prefix_root. }
  destruct W as [[-> ->]|(Hne & Hwk & q & Hq & E)].
  { simpl. split_and!; [done..|]. by apply remapped_none. }
  rewrite (proj2 (Z.eqb_neq pte 0) Hne). change (Z.to_nat 2) with 2%nat in Hwk.
  assert (Hr1 : own1 !! root = Some (PT root 2 0)) by (by eapply lookup_weaken).
  assert (HV : nz (Z.land (load64 (k_mem s1) pte) PTE_V) = false).
  { assert (Hn : pt_lookup (k_mem s1) root a = None).
    { rewrite Hlk by done. rewrite <-(Hun 0) by lia. f_equal. lia. }
    unfold pt_lookup in Hn. rewrite lk_of_wk, <-Hwk in Hn by congruence. by case_match. }
  split; [done|]. cbv zeta. set (s2 := set_mem _ s1).
  assert (Hj := PX_bound 0 a ltac:(lia)).
  assert (I2 : vm_inv users own1 fl1 s2).
  { unfold s2. rewrite E. apply (vm_inv_store_leaf _ _ _ _ root q (prefix_of 0 a)); try done.
    intros _ Hu Hlt. rewrite Hvpa. rewrite <-vpn_split in *.
    specialize (Hmap Hu 0 ltac:(lia)). rewrite Z.mul_0_l, !Z.add_0_r in Hmap.
    eapply lookup_weaken; [by apply Hmap|done]. }
  split; [split|].
  - done.
  - done.
  - apply X.
  - intros x Hx. unfold s2. simpl. rewrite mget_store_out; [by apply X|]. simpl.
    destruct (ex_new _ _ _ _ _ _ _ _ X) as (new & En & An & _).
    assert (Hqx : x < q \/ q + PGSIZE <= x).
    { apply Hx. destruct (An _ _ Hq); [eauto|]. left. rewrite En, elem_of_app. by left. }
    unfold PGSIZE in *. lia.
  - intros root' va' Hr' Hva'. unfold s2. simpl.
    assert (Hq' : own1 !! (pte - 8 * PX 0 a) = Some (PT root 0 (prefix_of 0 a))).
    { rewrite <-Hq. f_equal. lia. }
    rewrite (store_leaf_remaps users own1 fl1 s1 root a pte v); try done;
      [|by eapply lookup_weaken].
    rewrite HvV. unfold PGSIZE. assert (Hd : va' / 4096 = a / 4096 <-> a <= va' < a + 1 * 4096).
    { pose proof (Z.div_mod va' 4096). pose proof (Z.mod_pos_bound va' 4096).
      pose proof (Z.div_mod a 4096). lia. }
    repeat case_decide; try tauto; [|by apply Hlk].
    rewrite PGROUNDDOWN_eq, Z.mod_small by lia. unfold v. do 4 f_equal. lia.
Qed.

Lemma mappages_loop_wp users root perm t n : forall own fl s a pa,
  vm_inv users own fl s -> own !! root = Some (PT root 2 0) -> kmem_lock ∉ t_held t ->
  0 <= a -> a + (Z.of_nat n + 1) * PGSIZE <= MAXVA -> a mod 4096 = 0 ->
  0 <= pa -> pa + (Z.of_nat n + 1) * PGSIZE <= 2 ^ 56 -> pa mod PGSIZE = 0 ->
  0 <= perm < 1024 -> unmapped (k_mem s) root a (Z.of_nat n + 1) ->
  mappable users own root a pa (Z.of_nat n + 1) ->
  wp (mappages_loop (S n) root a (a + Z.of_nat n * PGSIZE) pa perm) (fun r t' s' => t' = t /\
    exists own' fl' d, extends root users own own' fl fl' s s' /\ 0 <= d /\
      remapped own root a pa perm d (k_mem s) (k_mem s') /\
      (r = 0 /\ d = Z.of_nat n + 1 \/ r = -1 /\ d <= Z.of_nat n /\ fl' = [])) t s.
Proof.
  induction n as [|n IH]; intros own fl s a pa I Hr Hl Ha Hhi Hal Hpa Hpahi Hpal Hperm Hun Hmap.
  all: cbn [mappages_loop]; wp_step; unfold PGSIZE in Hhi, Hpahi.
  all: assert (Hun1 : unmapped (k_mem s) root a 1) by (intros i Hi; apply Hun; lia).
  all: assert (Hmap1 : mappable users own root a pa 1)
    by (intros Hu i Hi; apply Hmap; [done|lia]).
  all: eapply wp_mono; [apply (map_one_wp users own fl s root a pa perm t); done || lia|].
  all: intros pte t1 s1 (-> & own1 & fl1 & W); destruct (pte =? 0) eqn:E0.
  1,3: destruct W as (-> & X & R); wp_steps; split; [done|];
    exists own1, [], 0; split_and!; try done; right; split_and!; done || lia.
  all: destruct W as (HV & X & R); unfold ld64, st64; wp_steps; rewrite HV; wp_steps.
  - rewrite (proj2 (Z.eqb_eq _ _)) by lia. wp_steps. split; [done|].
    exists own1, fl1, 1. split_and!; try done. left. by split.
  - unfold PGSIZE at 1. rewrite (proj2 (Z.eqb_neq _ _)) by (unfold PGSIZE; lia).
    change MAXVA with (2 ^ 38) in Hhi. unfold u64.
    rewrite (Z.mod_small (a + PGSIZE)), (Z.mod_small (pa + PGSIZE)) by (unfold PGSIZE; lia).
    replace (a + Z.of_nat (S n) * PGSIZE) with ((a + PGSIZE) + Z.of_nat n * PGSIZE)
      by (unfold PGSIZE; lia).
    set (s2 := set_mem _ s1) in *.
    assert (I2 := ex_inv _ _ _ _ _ _ _ _ X). assert (O2 := ex_own _ _ _ _ _ _ _ _ X).
    eapply wp_mono; [apply (IH own1 fl1 s2 (a + PGSIZE) (pa + PGSIZE)); try done|];
      try (unfold PGSIZE; change MAXVA with (2 ^ 38); lia).
    + by eapply lookup_weaken.
    + unfold PGSIZE. rewrite Z.add_mod, Hal by lia. done.
    + unfold PGSIZE in *. rewrite Z.add_mod, Hpal by lia. done.
    + intros i Hi. rewrite (R root) by (try done; unfold PGSIZE; change MAXVA with (2 ^ 38); lia).
      rewrite decide_False by (unfold PGSIZE; lia). rewrite <-(Hun (i + 1)) by lia.
      f_equal. unfold PGSIZE. lia.
    + intros Hu i Hi Hlt. unfold PGSIZE in *.
      assert (E : (a + 4096) / 4096 = a / 4096 + 1) by (rewrite <-(Z.div_add a 1 4096) by lia; f_equal; lia).
      rewrite E in *. eapply lookup_weaken; [|done].
      replace (pa + 4096 + i * 4096) with (pa + (i + 1) * 4096) by lia.
      replace (a / 4096 + 1 + i) with (a / 4096 + (i + 1)) by lia. apply Hmap; done || lia.
    + intros r t' s' (-> & own' & fl' & d & X' & Hd & R' & Hres). split; [done|].
      exists own', fl', (d + 1). split_and!; [by eapply extends_trans|lia| |].
      * by eapply remapped_cons.
      * destruct Hres as [[-> ->]|(-> & ? & ->)]; [left|right]; split_and!; done || lia.
Qed.
End map.
