(* ===== verification/VmUnmap.v ===== *)
(** * VmUnmap: [uvmunmap] and [uvmdealloc] remove translations and free pages *)

From S2P Require Import Prelude Riscv CString Kalloc Vm PageTable VmWalk VmMap.

Section unmap.
Context `{KernelLayout}.

(** The translations of the [d] pages from [va] are gone; the others are the same. *)
Definition cleared (own : gmap Z usage) (root va d : Z) (m m' : mem) : Prop :=
  forall root' va', own !! root' = Some (PT root' 2 0) -> 0 <= va' < MAXVA ->
    pt_lookup m' root' va' =
    if decide (root' = root /\ va <= va' < va + d * PGSIZE) then None
    else pt_lookup m root' va'.

(** [uvmunmap] of [d] pages from [va] with [do_free]: the pages [freed],
    user memory the table mapped there, went back to the free list; memory
    outside the free pages and the page tables is untouched. *)
Record unmaps (root va d : Z) (users : gset Z) (own own' : gmap Z usage) (fl fl' : list Z) (s s' : kmem)
  : Prop := {
  un_inv : vm_inv users own' fl' s';
  un_own : own' ⊆ own;
  un_freed : exists freed, fl' = freed ++ fl /\
    (forall p, p ∈ freed -> exists vpn va' v, own !! p = Some (Data root vpn) /\
      va <= va' < va + d * PGSIZE /\ pt_lookup (k_mem s) root va' = Some v /\ PTE2PA v = p) /\
    (forall p u, own !! p = Some u -> own' !! p = Some u \/ p ∈ freed);
  un_gone : forall va' v, va <= va' < va + d * PGSIZE ->
    pt_lookup (k_mem s) root va' = Some v -> own' !! PTE2PA v = None;
  un_lk : cleared own root va d (k_mem s) (k_mem s');
  un_mem : forall x,
    (forall p, p ∈ fl' \/ (exists r k pre, own !! p = Some (PT r k pre)) -> x < p \/ p + PGSIZE <= x) ->
    mget (k_mem s') x = mget (k_mem s) x
}.

Lemma unmaps_refl root va d users own fl s :
  vm_inv users own fl s -> own !! root = Some (PT root 2 0) ->
  0 <= va -> va + d * PGSIZE <= MAXVA ->
  cleared own root va d (k_mem s) (k_mem s) -> unmaps root va d users own own fl fl s s.
Proof.
  intros I Hr Hva Hhi C. split; try done.
  - exists []. split_and!; [done| |by left]. by intros ? []%not_elem_of_nil.
  - intros va' v Hv E. rewrite (C root va'), decide_True in E; done || lia.
Qed.

(** Table pages are never released this way. *)
Lemma unmaps_pt root va d users own own' fl fl' s s' p r k pre :
  unmaps root va d users own own' fl fl' s s' ->
  own !! p = Some (PT r k pre) -> own' !! p = Some (PT r k pre).
Proof.
  intros [_ _ (freed & _ & Hf & Hk) _ _ _] Hp. destruct (Hk _ _ Hp) as [|Hin]; [done|].
  destruct (Hf _ Hin) as (vpn & ? & ? & ? & ?). congruence.
Qed.

Lemma unmaps_cons root va d users own1 own2 own3 fl1 fl2 fl3 s1 s2 s3 :
  own1 !! root = Some (PT root 2 0) -> 0 <= va -> va + (d + 1) * PGSIZE <= MAXVA -> 0 <= d ->
  unmaps root va 1 users own1 own2 fl1 fl2 s1 s2 ->
  unmaps root (va + PGSIZE) d users own2 own3 fl2 fl3 s2 s3 ->
  unmaps root va (d + 1) users own1 own3 fl1 fl3 s1 s3.
Proof.
  intros Hr Hva Hhi Hd R1 R2. pose proof R1 as [I2 O2 (f2 & E2 & F2 & K2) G2 C2 M2].
  pose proof R2 as [I3 O3 (f3 & E3 & F3 & K3) G3 C3 M3]. split; unfold PGSIZE in *.
  - done.
  - by etrans.
  - exists (f3 ++ f2). split_and!.
    + by rewrite E3, E2, app_assoc.
    + intros p [Hp|Hp]%elem_of_app.
      * destruct (F3 p Hp) as (vpn & va' & v & Ho & Hv & Hlk & Hpa). exists vpn, va', v.
        change MAXVA with (2 ^ 38) in *. split_and!; [by eapply lookup_weaken|lia|lia| |done].
        rewrite (C2 root va') in Hlk; [|done|change MAXVA with (2 ^ 38); lia].
        by rewrite decide_False in Hlk by (unfold PGSIZE; lia).
      * destruct (F2 p Hp) as (vpn & va' & v & Ho & Hv & Hlk & Hpa). exists vpn, va', v.
        split_and!; done || lia.
    + intros p u Hp. rewrite elem_of_app. destruct (K2 p u Hp) as [Hp'|]; [|by right; right].
      destruct (K3 p u Hp'); [by left|by right; left].
  - intros va' v Hv E. change MAXVA with (2 ^ 38) in *.
    destruct (decide (va' < va + 4096)).
    + destruct (own3 !! PTE2PA v) as [u|] eqn:E'; [|done].
      pose proof (lookup_weaken _ _ _ _ E' O3) as E''. rewrite (G2 va') in E''; done || lia.
    + apply (G3 va'); [lia|]. rewrite (C2 root va'); [|done|change MAXVA with (2 ^ 38); lia].
      by rewrite decide_False by (unfold PGSIZE; lia).
  - intros root' va' Hr' Hva'.
    rewrite (C3 root' va'), (C2 root' va'); try done; [|by eapply unmaps_pt].
    unfold PGSIZE. repeat case_decide; lia || done.
  - intros x Hx. rewrite M3, M2; [done| |].
    + intros p [Hp|(r & k & pre & Hp)]; apply Hx; [left; rewrite E3; apply elem_of_app; by right|].
      right. eauto.
    + intros p [Hp|(r & k & pre & Hp)]; apply Hx; [by left|]. right.
      exists r, k, pre. by eapply lookup_weaken.
Qed.

Lemma not_mapped_cleared own root va m :
  0 <= va < MAXVA -> va mod 4096 = 0 -> pt_lookup m root va = None -> cleared own root va 1 m m.
Proof.
  intros Hva Hal Hn root' va' Hr Hva'. case_decide as Hc; [|done].
  destruct Hc as [-> Hc]. unfold PGSIZE in Hc. rewrite <-Hn. apply pt_lookup_page.
  pose proof (Z.div_mod va' 4096). pose proof (Z.mod_pos_bound va' 4096).
  pose proof (Z.div_mod va 4096). lia.
Qed.

(** The words of the tables after a user page is junked and its entry cleared. *)
Lemma free_leaf_word users own fl s m1 root q pre j pa d :
  vm_inv users own fl s -> own !! q = Some (PT root 0 pre) -> 0 <= j < 512 ->
  own !! pa = Some (Data root d) -> same_but pa (k_mem s) m1 ->
  forall p r k pre' i, own !! p = Some (PT r k pre') -> 0 <= i < 512 ->
    load64 (store64 m1 (q + 8 * j) 0) (p + 8 * i) =
    if decide (p = q /\ i = j) then 0 else load64 (k_mem s) (p + 8 * i).
Proof.
  intros I Hq Hj Hpa Hs p r k pre' i Hp Hi.
  assert (Hpaok := vi_ok _ _ _ _ I _ _ Hpa). case_decide as E.
  - destruct E as [-> ->]. by apply load64_store64.
  - rewrite load_other_word; try done; try by eapply vi_ok.
    + apply (load_same_but _ _ p pa); try done; [by eapply vi_ok|congruence].
    + destruct (decide (p = q)) as [->|]; [right; intros ->; by apply E|by left].
Qed.

(** Freeing a user page and clearing its entry. *)
Lemma free_leaf_inv users own fl s s1 root q pre j pa :
  vm_inv users own fl s -> own !! q = Some (PT root 0 pre) -> 0 <= j < 512 ->
  own !! pa = Some (Data root (pre * 512 + j)) -> kmem_inv s1 (pa :: fl) ->
  same_but pa (k_mem s) (k_mem s1) ->
  vm_inv users (delete pa own) (pa :: fl) (set_mem (store64 (k_mem s1) (q + 8 * j) 0) s1).
Proof.
  intros I Hq Hj Hpa [Hc Hnd] Hs.
  assert (Hqok := vi_ok _ _ _ _ I _ _ Hq). assert (Hpaok := vi_ok _ _ _ _ I _ _ Hpa).
  assert (Hqpa : q <> pa) by congruence.
  assert (Hw := free_leaf_word _ _ _ _ _ root _ _ _ _ _ I Hq Hj Hpa Hs).
  assert (Hpt : forall p r k pre', own !! p = Some (PT r k pre') ->
    delete pa own !! p = Some (PT r k pre')).
  { intros p r k pre' Hp. rewrite lookup_delete_ne; congruence. }
  split; simpl.
  - split; [|done]. simpl. apply (chain_same_but (k_mem s1) _ _ _ q); [done|done| |].
    2: apply same_but_store64; unfold PGSIZE; lia.
    intros [->|Hin]%elem_of_cons; [done|]. rewrite (vi_free _ _ _ _ I q Hin) in Hq. done.
  - intros p [->|Hin]%elem_of_cons; [apply lookup_delete_eq|].
    rewrite lookup_delete_ne; [by apply (vi_free _ _ _ _ I)|].
    intros ->. apply NoDup_cons in Hnd as [? _]. done.
  - intros p u [_ Hp]%lookup_delete_Some. by eapply vi_ok.
  - intros r Hr. by apply Hpt, (vi_root _ _ _ _ I).
  - intros p r k pre' i [_ Hp]%lookup_delete_Some Hi. rewrite (Hw _ _ _ _ _ Hp Hi).
    rewrite decide_False by (intros [-> _]; congruence). cbv zeta. intros HV.
    destruct (vi_node _ _ _ _ I _ _ _ _ _ Hp Hi HV) as [Ho Hf]. split; [by apply Hpt|done].
  - intros p r pre' i [_ Hp]%lookup_delete_Some Hu Hi. rewrite (Hw _ _ _ _ _ Hp Hi).
    case_decide as E; [done|]. cbv zeta. intros HV Hlt.
    pose proof (vi_leaf _ _ _ _ I _ _ _ _ Hp Hu Hi HV Hlt) as Ho.
    rewrite lookup_delete_ne; [done|]. intros E2. rewrite <-E2, Hpa in Ho.
    injection Ho as <- Hv. assert (pre' = pre /\ i = j) as [-> ->] by lia.
    apply E. split; [|done]. by eapply vm_inv_inj.
  - intros p r k pre' [_ Hp]%lookup_delete_Some.
    destruct (vi_parent _ _ _ _ I _ _ _ _ Hp) as [?|(Hk & pp & Hpp & HV)]; [by left|right].
    split; [done|]. exists pp. split; [by apply Hpt|].
    rewrite (Hw _ _ _ _ _ Hpp) by (apply Z.mod_pos_bound; lia).
    rewrite decide_False by (intros [-> _]; congruence). done.
  - intros p r k pre' [_ Hp]%lookup_delete_Some. by eapply vi_low.
Qed.

Lemma unmap_free_wp users root t own fl s a :
  vm_inv users own fl s -> root ∈ users -> kmem_lock ∉ t_held t ->
  0 <= a -> a mod 4096 = 0 -> a / 4096 < user_pages ->
  wp (unmap_page root a true) (fun _ t' s' => t' = t /\ exists own' fl',
    unmaps root a 1 users own own' fl fl' s s') t s.
Proof.
  intros I Hu Hl Ha Hal Hlt. assert (Hr := vi_root _ _ _ _ I root Hu).
  assert (Hva : 0 <= a < MAXVA).
  { change user_pages with (2 ^ 26 - 2) in Hlt. change MAXVA with (2 ^ 38).
    pose proof (Z.div_mod a 4096). lia. }
  assert (a + 1 * PGSIZE <= MAXVA) as Hhi.
  { change MAXVA with (2 ^ 38) in *. unfold PGSIZE. pose proof (Z.div_mod a 4096). lia. }
  unfold unmap_page. wp_step. eapply wp_done; [apply walk_false; lia|].
  assert (Hp : own !! root = Some (PT root 2 (prefix_of 2 a))) by (by rewrite prefix_root).
  pose proof (lk_wk I root 2 root a Hp) as Hlk. fold (pt_lookup (k_mem s) root a) in Hlk.
  destruct (wk_owned I root 2 root a Hp) as [E|(q & Hq & E)].
  { rewrite E in *. simpl. wp_steps. split; [done|]. exists own, fl.
    apply unmaps_refl; try done. by apply not_mapped_cleared. }
  set (pte := wk (k_mem s) 2 root a) in *. assert (Hj := PX_bound 0 a ltac:(lia)).
  pose proof (page_ok_range _ (vi_ok _ _ _ _ I _ _ Hq)).
  rewrite (proj2 (Z.eqb_neq pte 0)) in * by lia. unfold ld64. wp_steps.
  destruct (Z.land (load64 (k_mem s) pte) PTE_V =? 0) eqn:EV.
  { wp_steps. split; [done|]. exists own, fl. apply unmaps_refl; try done.
    apply not_mapped_cleared; try done. rewrite Hlk. unfold nz. by rewrite EV. }
  wp_step. assert (HV : nz (Z.land (load64 (k_mem s) pte) PTE_V) = true) by (unfold nz; by rewrite EV).
  set (pa := PTE2PA (load64 (k_mem s) pte)).
  assert (Hpa : own !! pa = Some (Data root (prefix_of 0 a * 512 + PX 0 a))).
  { unfold pa. rewrite E. apply (vi_leaf _ _ _ _ I q root _ _ Hq Hu Hj); [by rewrite <-E|].
    by rewrite <-vpn_split. }
  assert (Hnfl : pa ∉ fl) by (intros Hin; rewrite (vi_free _ _ _ _ I _ Hin) in Hpa; done).
  eapply wp_mono; [apply (kfree_wp t s fl pa); [apply I|done|by eapply vi_ok|done]|].
  intros [] t1 s1 (-> & Hk1 & Hs1). unfold st64. wp_steps. split; [done|].
  pose proof (free_leaf_inv users own fl s s1 root q _ _ pa I Hq Hj Hpa Hk1 Hs1) as I2.
  rewrite <-E in I2. exists (delete pa own), (pa :: fl). split.
  - done.
  - apply delete_subseteq.
  - exists [pa]. split_and!; [done| |].
    + intros p ->%list_elem_of_singleton. exists (prefix_of 0 a * 512 + PX 0 a), a.
      eexists. rewrite Hlk, HV. unfold PGSIZE. split_and!; done || lia.
    + intros p u Hp'. destruct (decide (p = pa)) as [->|]; [right; by apply elem_of_cons; left|left].
      by rewrite lookup_delete_ne.
  - intros va' v Hv. rewrite (pt_lookup_page _ _ va' a), Hlk, HV.
    + intros [= <-]. apply lookup_delete_eq.
    + unfold PGSIZE in Hv. pose proof (Z.div_mod a 4096). pose proof (Z.div_mod va' 4096).
      pose proof (Z.mod_pos_bound va' 4096). lia.
  - intros root' va' Hr' Hva'. simpl.
    set (s' := set_mem (store64 (k_mem s) pte 0) s).
    assert (I' : vm_inv users own fl s').
    { unfold s'. rewrite E. by apply (vm_inv_store_leaf _ _ _ _ root q (prefix_of 0 a)). }
    transitivity (pt_lookup (k_mem s') root' va').
    + apply (lk_frame I' (store64 (k_mem s1) pte 0) root'); [|by rewrite prefix_root].
      intros p r k pre i Hp' Hi. rewrite E. simpl. rewrite E.
      rewrite (free_leaf_word _ _ _ _ _ root _ _ _ _ _ I Hq Hj Hpa Hs1 _ _ _ _ _ Hp' Hi).
      by rewrite (free_leaf_word _ _ _ _ (k_mem s) root _ _ _ _ _ I Hq Hj Hpa ltac:(done) _ _ _ _ _ Hp' Hi).
    + unfold s'. simpl. rewrite (store_leaf_remaps users own fl s root a pte 0); try done; [|lia|].
      2:{ rewrite <-Hq. f_equal. lia. }
      assert (Hd : va' / 4096 = a / 4096 <-> a <= va' < a + 1 * PGSIZE).
      { unfold PGSIZE. pose proof (Z.div_mod va' 4096). pose proof (Z.mod_pos_bound va' 4096).
        pose proof (Z.div_mod a 4096). lia. }
      repeat case_decide; tauto || done.
  - intros x Hx. simpl. pose proof (Hx q ltac:(eauto)). pose proof (Hx pa ltac:(left; apply elem_of_cons; by left)).
    rewrite mget_store_out by (simpl; unfold PGSIZE in *; lia). by apply Hs1.
Qed.

Lemma uvmunmap_loop_wp users root t n : forall own fl s a,
  vm_inv users own fl s -> root ∈ users -> kmem_lock ∉ t_held t ->
  0 <= a -> a mod 4096 = 0 -> a / 4096 + Z.of_nat n <= user_pages ->
  wp (uvmunmap_loop (S n) root a (a + Z.of_nat n * PGSIZE) true) (fun _ t' s' => t' = t /\
    exists own' fl', unmaps root a (Z.of_nat n) users own own' fl fl' s s') t s.
Proof.
  induction n as [|n IH]; intros own fl s a I Hu Hl Ha Hal Hlt; cbn [uvmunmap_loop].
  - rewrite (proj2 (Z.ltb_ge _ _)) by lia. wp_steps. split; [done|]. exists own, fl.
    apply unmaps_refl; try done; [by apply (vi_root _ _ _ _ I)| |].
    { change user_pages with (2 ^ 26 - 2) in Hlt. change MAXVA with (2 ^ 38).
      pose proof (Z.div_mod a 4096). lia. }
    intros root' va' _ _. by rewrite decide_False by lia.
  - assert (Hhi : a + (Z.of_nat n + 1) * PGSIZE <= MAXVA).
    { change user_pages with (2 ^ 26 - 2) in Hlt. change MAXVA with (2 ^ 38).
      unfold PGSIZE. pose proof (Z.div_mod a 4096). lia. }
    change MAXVA with (2 ^ 38) in Hhi. unfold PGSIZE in Hhi.
    rewrite (proj2 (Z.ltb_lt _ _)) by (unfold PGSIZE; lia). wp_step.
    eapply wp_mono; [apply (unmap_free_wp users root t own fl s a); try done; lia|].
    intros [] t1 s1 (-> & own1 & fl1 & U1). unfold u64.
    rewrite (Z.mod_small (a + PGSIZE)) by (unfold PGSIZE; lia).
    replace (a + Z.of_nat (S n) * PGSIZE) with ((a + PGSIZE) + Z.of_nat n * PGSIZE)
      by (unfold PGSIZE; lia).
    assert (E : (a + PGSIZE) / 4096 = a / 4096 + 1).
    { unfold PGSIZE. rewrite <-(Z.div_add a 1 4096) by lia. f_equal. }
    eapply wp_mono; [apply (IH own1 fl1 s1 (a + PGSIZE)); try done|].
    + apply U1.
    + unfold PGSIZE; lia.
    + unfold PGSIZE. rewrite Z.add_mod, Hal by lia. done.
    + lia.
    + intros [] t2 s2 (-> & own2 & fl2 & U2). split; [done|]. exists own2, fl2.
      rewrite Nat2Z.inj_succ. eapply unmaps_cons; try done; try lia.
      * by apply (vi_root _ _ _ _ I).
Qed.

Lemma uvmunmap_wp users root t own fl s a n :
  vm_inv users own fl s -> root ∈ users -> kmem_lock ∉ t_held t ->
  0 <= a -> a mod 4096 = 0 -> 0 <= n -> a / 4096 + n <= user_pages ->
  wp (uvmunmap root a n true) (fun _ t' s' => t' = t /\
    exists own' fl', unmaps root a n users own own' fl fl' s s') t s.
Proof.
  intros I Hu Hl Ha Hal Hn Hlt. unfold uvmunmap. unfold PGSIZE at 1. rewrite Hal. simpl.
  change user_pages with (2 ^ 26 - 2) in *. pose proof (Z.div_mod a 4096).
  unfold u64. rewrite (Z.mod_small (n * PGSIZE)) by (unfold PGSIZE; lia).
  rewrite (Z.mod_small (a + n * PGSIZE)) by (unfold PGSIZE; lia).
  pose proof (uvmunmap_loop_wp users root t (Z.to_nat n) own fl s a) as W.
  rewrite Z2Nat.id in W by done. by apply W.
Qed.

(** The number of pages [uvmdealloc] removes. *)
Definition dealloc_pages (oldsz newsz : Z) : Z :=
  Z.max 0 ((PGROUNDUP oldsz - PGROUNDUP newsz) / PGSIZE).

Lemma uvmdealloc_wp users root t own fl s oldsz newsz :
  vm_inv users own fl s -> root ∈ users -> kmem_lock ∉ t_held t ->
  0 <= oldsz <= TRAPFRAME -> 0 <= newsz <= TRAPFRAME ->
  wp (uvmdealloc root oldsz newsz) (fun r t' s' => t' = t /\ r = Z.min oldsz newsz /\
    exists own' fl',
      unmaps root (PGROUNDUP newsz) (dealloc_pages oldsz newsz) users own own' fl fl' s s') t s.
Proof.
  intros I Hu Hl Ho Hn. assert (Hr := vi_root _ _ _ _ I root Hu). change TRAPFRAME with (2 ^ 38 - 8192) in *.
  pose proof (PGROUNDUP_bounds oldsz ltac:(lia)) as [Ao Bo].
  pose proof (PGROUNDUP_bounds newsz ltac:(lia)) as [An Bn].
  unfold uvmdealloc, dealloc_pages. set (o := PGROUNDUP oldsz) in *. set (n := PGROUNDUP newsz) in *.
  pose proof (Z.div_mod o 4096 ltac:(lia)). pose proof (Z.div_mod n 4096 ltac:(lia)).
  assert (E : (o - n) / PGSIZE = o / 4096 - n / 4096).
  { unfold PGSIZE. rewrite <-(Z.div_mul (o / 4096 - n / 4096) 4096) by lia. f_equal. lia. }
  assert (Hsame : o <= n -> exists own' fl',
    unmaps root n (Z.max 0 ((o - n) / PGSIZE)) users own own' fl fl' s s).
  { intros Hle. exists own, fl. rewrite E, Z.max_l by lia. apply unmaps_refl; try done; try lia.
    - change MAXVA with (2 ^ 38). lia.
    - intros root' va' _ _. by rewrite decide_False by lia. }
  destruct (Z.leb_spec oldsz newsz).
  { wp_steps. split_and!; [done|lia|]. apply Hsame. unfold o, n. rewrite !PGROUNDUP_eq by lia.
    apply Z.mul_le_mono_nonneg_r; [lia|]. apply Z.div_le_mono; lia. }
  destruct (Z.ltb_spec n o); wp_steps.
  - rewrite E. unfold i32, u64. rewrite (Z.mod_small (_ + _)) by lia. rewrite Z.max_r by lia.
    replace (o / 4096 - n / 4096 + 2 ^ 31 - 2 ^ 31) with (o / 4096 - n / 4096) by lia.
    rewrite Z.mod_small by lia.
    eapply wp_mono; [apply (uvmunmap_wp users root t own fl s); try done; try lia|].
    + change user_pages with (2 ^ 26 - 2). lia.
    + intros [] t1 s1 (-> & own' & fl' & U). wp_steps. split_and!; [done|lia|]. eauto.
  - split_and!; [done|lia|]. apply Hsame. lia.
Qed.
End unmap.
