(* ===== verification/VmAlloc.v ===== *)
(** * VmAlloc: [uvmalloc], [vmfault] and [uvmcopy] grant zeroed or copied pages

    The three functions have the same shape: take a page from the allocator,
    fill it, map it, and on failure give back what was taken.  [granted]
    describes the result by the pages that were wanted, a partial function
    from virtual page numbers to permissions and contents; a failed call
    grants nothing and leaves every translation as it was. *)

From S2P Require Import Prelude Riscv CString Kalloc Vm PageTable VmWalk VmMap VmUnmap.

Section alloc.
Context `{KernelLayout}.

(** The virtual pages that were granted, with permissions and contents. *)
Abbreviation wanted := (Z -> option (Z * (Z -> byte))).

Record granted (root : Z) (w : wanted) (users : gset Z) (own own' : gmap Z usage)
  (fl fl' : list Z) (s s' : kmem) : Prop := {
  gt_inv : vm_inv users own' fl' s';
  gt_own : own ⊆ own';
  gt_fl : forall p, p ∈ fl' -> p ∈ fl;
  gt_keep : forall p, p ∈ fl -> p ∈ fl' \/ is_Some (own' !! p);
  gt_new : forall p u, own' !! p = Some u -> own !! p = Some u \/ p ∈ fl;
  gt_data : forall p r vpn, own' !! p = Some (Data r vpn) ->
    own !! p = Some (Data r vpn) \/
    r = root /\ is_Some (w vpn) /\ 0 <= vpn < user_pages /\
    exists v, pt_lookup (k_mem s') root (vpn * PGSIZE) = Some v /\ PTE2PA v = p;
  gt_lk : forall root' va, own !! root' = Some (PT root' 2 0) -> 0 <= va < MAXVA ->
    match (if decide (root' = root) then w (va / 4096) else None) with
    | None => pt_lookup (k_mem s') root' va = pt_lookup (k_mem s) root' va
    | Some (perm, c) => exists v, pt_lookup (k_mem s') root va = Some v /\
        PTE_FLAGS v = Z.lor perm PTE_V /\ PTE2PA v ∈ fl /\
        own' !! PTE2PA v = Some (Data root (va / 4096)) /\
        forall o, 0 <= o < PGSIZE -> mget (k_mem s') (PTE2PA v + o) = c o
    end;
  gt_mem : forall x,
    (forall p, p ∈ fl \/ (exists r k pre, own !! p = Some (PT r k pre)) -> x < p \/ p + PGSIZE <= x) ->
    mget (k_mem s') x = mget (k_mem s) x;
  gt_pt : forall p r k pre, own' !! p = Some (PT r k pre) -> own !! p = Some (PT r k pre) \/ r = root
}.

Definition nothing : wanted := fun _ => None.
Definition one_page (vpn perm : Z) (c : Z -> byte) : wanted :=
  fun v => if decide (v = vpn) then Some (perm, c) else None.

(** ** Frames *)

(** A change that spares the table pages, with another free list. *)
Lemma vm_inv_frame users own fl fl' s s' :
  vm_inv users own fl s -> kmem_inv s' fl' -> (forall p, p ∈ fl' -> own !! p = None) ->
  (forall q r l pre i, own !! q = Some (PT r l pre) -> 0 <= i < 512 ->
    load64 (k_mem s') (q + 8 * i) = load64 (k_mem s) (q + 8 * i)) ->
  vm_inv users own fl' s'.
Proof.
  intros I K Hsub Hf. split; try apply I.
  - done.
  - done.
  - intros p root k pre i Hp Hi. cbv zeta. rewrite (Hf _ _ _ _ _ Hp Hi).
    by apply (vi_node _ _ _ _ I).
  - intros p root pre i Hp Hu Hi. cbv zeta. rewrite (Hf _ _ _ _ _ Hp Hi).
    by apply (vi_leaf _ _ _ _ I).
  - intros p root k pre Hp.
    destruct (vi_parent _ _ _ _ I _ _ _ _ Hp) as [?|(Hk & pp & Hpp & Hv)]; [by left|right].
    split; [done|]. exists pp. split; [done|]. cbv zeta.
    by rewrite (Hf _ _ _ _ _ Hpp) by (apply Z.mod_pos_bound; lia).
Qed.

Lemma pt_frame users own fl s p q i m' r l pre :
  vm_inv users own fl s -> page_ok p -> (forall r l pre, own !! p <> Some (PT r l pre)) ->
  same_but p (k_mem s) m' -> own !! q = Some (PT r l pre) -> 0 <= i < 512 ->
  load64 m' (q + 8 * i) = load64 (k_mem s) (q + 8 * i).
Proof.
  intros I Hp Hn Hs Hq Hi. eapply load_same_but; [by eapply vi_ok| |..]; try done.
  intros ->. by eapply Hn.
Qed.

(** ** Composition *)

Lemma granted_refl root users own fl s :
  vm_inv users own fl s -> granted root nothing users own own fl fl s s.
Proof.
  intros I. split; try done; try by left. intros root' va Hr Hva. by case_decide.
Qed.

Lemma data_bytes users own fl s p r vpn x q :
  vm_inv users own fl s -> own !! p = Some (Data r vpn) -> p <= x < p + PGSIZE ->
  q ∈ fl \/ (exists r k pre, own !! q = Some (PT r k pre)) -> x < q \/ q + PGSIZE <= x.
Proof.
  intros I Hp Hx Hq. assert (Hpok := vi_ok _ _ _ _ I _ _ Hp).
  assert (page_ok q /\ p <> q) as [Hqok Hne].
  { destruct Hq as [Hq|(r' & k & pre & Hq)].
    - split.
      + destruct (vi_kmem _ _ _ _ I) as [Hc _]. pose proof (chain_pages_ok _ _ _ Hc) as Hall.
        rewrite Forall_forall in Hall. by apply Hall.
      + intros ->. by rewrite (vi_free _ _ _ _ I _ Hq) in Hp.
    - split; [by eapply vi_ok|congruence]. }
  pose proof (page_disjoint p q Hpok Hqok Hne). lia.
Qed.

Lemma granted_trans root w1 w2 w3 users own1 own2 own3 fl1 fl2 fl3 s1 s2 s3 :
  own1 !! root = Some (PT root 2 0) ->
  granted root w1 users own1 own2 fl1 fl2 s1 s2 ->
  granted root w2 users own2 own3 fl2 fl3 s2 s3 ->
  (forall v, is_Some (w1 v) -> w2 v = None) ->
  (forall v, w3 v = match w2 v with Some x => Some x | None => w1 v end) ->
  granted root w3 users own1 own3 fl1 fl3 s1 s3.
Proof.
  intros Hr G1 G2 Hd Hw. pose proof G1 as [I2 O2 F2 K2 N2 D2 L2 M2 P2].
  pose proof G2 as [I3 O3 F3 K3 N3 D3 L3 M3 P3].
  assert (Hup : forall r, own1 !! r = Some (PT r 2 0) -> own2 !! r = Some (PT r 2 0))
    by (intros; by eapply lookup_weaken).
  split.
  - done.
  - by etrans.
  - auto.
  - intros p Hp. destruct (K2 p Hp) as [Hp'|[u Hu]]; [by apply K3|right].
    exists u. by eapply lookup_weaken.
  - intros p u Hp. destruct (N3 p u Hp) as [Hp'|Hp']; [by apply N2|right]. auto.
  - intros p r vpn Hp. rewrite Hw. destruct (D3 _ _ _ Hp) as [Hp'|(-> & [x Hx] & Hv & v & Hlk & Hpa)].
    + destruct (D2 _ _ _ Hp') as [?|(-> & Hx & Hv & v & Hlk & Hpa)]; [by left|right].
      specialize (Hd _ Hx). rewrite Hd. split_and!; try done || lia. exists v. split; [|done].
      change user_pages with (2 ^ 26 - 2) in Hv.
      pose proof (L3 root (vpn * PGSIZE) (Hup _ Hr)) as HL. rewrite decide_True in HL by done.
      unfold PGSIZE in *. rewrite Z.div_mul, Hd in HL by lia. rewrite HL; [done|].
      change MAXVA with (2 ^ 38). lia.
    + right. rewrite Hx. split_and!; try done; lia || eauto.
  - intros root' va Hr' Hva. specialize (L2 root' va Hr' Hva). specialize (L3 root' va (Hup _ Hr') Hva).
    case_decide as E; [subst root'; rewrite Hw|by rewrite L3].
    destruct (w2 (va / 4096)) as [[perm c]|] eqn:E2.
    + destruct L3 as (v & Hlk & Hf & Hin & Ho & Hb). exists v. split_and!; auto.
    + destruct (w1 (va / 4096)) as [[perm c]|] eqn:E1; [|by rewrite L3].
      destruct L2 as (v & Hlk & Hf & Hin & Ho & Hb). exists v.
      split_and!; try done; [by rewrite L3|by eapply lookup_weaken|].
      intros o Hoff. rewrite <-Hb by done. apply M3. intros q Hq.
      eapply data_bytes; [exact I2|exact Ho| |done]. unfold PGSIZE in *. lia.
  - intros x Hx. rewrite M3, M2; [done|done|]. intros p [Hp|(r & k & pre & Hp)]; [auto|].
    destruct (N2 _ _ Hp); apply Hx; eauto.
  - intros p r k pre Hp. destruct (P3 _ _ _ _ Hp) as [Hp'|]; [by apply P2|by right].
Qed.

(** Unmapping what was granted leaves only page-table pages behind. *)
Lemma granted_unmap root w users own1 own2 own3 fl1 fl2 fl3 s1 s2 s3 va d :
  vm_inv users own1 fl1 s1 -> own1 !! root = Some (PT root 2 0) ->
  granted root w users own1 own2 fl1 fl2 s1 s2 ->
  unmaps root va d users own2 own3 fl2 fl3 s2 s3 ->
  0 <= va -> va mod 4096 = 0 -> va / 4096 + d <= user_pages ->
  (forall v, is_Some (w v) -> va / 4096 <= v < va / 4096 + d) ->
  unmapped (k_mem s1) root va d ->
  granted root nothing users own1 own3 fl1 fl3 s1 s3.
Proof.
  intros I1 Hr [I2 O2 F2 K2 N2 D2 L2 M2 P2] [I3 O3 (freed & Ef & Ff & Kf) G3 C3 M3] Hva Hal Hhi Hw Hun.
  pose proof (Z.div_mod va 4096 ltac:(lia)) as Edm. change user_pages with (2 ^ 26 - 2) in Hhi.
  assert (Hr2 : forall r, own1 !! r = Some (PT r 2 0) -> own2 !! r = Some (PT r 2 0))
    by (intros; by eapply lookup_weaken).
  assert (Hun' : forall va', va <= va' < va + d * PGSIZE -> pt_lookup (k_mem s1) root va' = None).
  { intros va' Hv. unfold PGSIZE in Hv. rewrite <-(Hun ((va' - va) / 4096)).
    - apply pt_lookup_page. unfold PGSIZE. rewrite Z.div_add by lia.
      enough ((va' - va) / 4096 = va' / 4096 - va / 4096) by lia. symmetry.
      pose proof (Z.div_mod va' 4096). pose proof (Z.mod_pos_bound va' 4096).
      apply (Z.div_unique _ _ _ (va' mod 4096)); lia.
    - split; [apply Z.div_pos; lia|]. apply Z.div_lt_upper_bound; lia. }
  assert (Hfr : forall p, p ∈ freed -> p ∈ fl1).
  { intros p Hp. destruct (Ff p Hp) as (vpn & va' & v & Ho & Hv & Hlk & Hpa). unfold PGSIZE in Hv.
    assert (Hm : 0 <= va' < MAXVA) by (change MAXVA with (2 ^ 38); lia).
    specialize (L2 root va' Hr Hm). rewrite decide_True in L2 by done.
    destruct (w (va' / 4096)) as [[perm c]|].
    - destruct L2 as (v' & Hlk' & _ & Hin & _). congruence.
    - rewrite L2, Hun' in Hlk by (unfold PGSIZE; lia). done. }
  assert (Hnf : forall p u, own1 !! p = Some u -> p ∉ freed).
  { intros p u Hp Hin. by rewrite (vi_free _ _ _ _ I1 p (Hfr _ Hin)) in Hp. }
  split.
  - done.
  - apply map_subseteq_spec. intros p u Hp.
    destruct (Kf p u) as [|Hin]; [by eapply lookup_weaken|done|]. by destruct (Hnf _ _ Hp).
  - intros p. rewrite Ef. intros [|]%elem_of_app; auto.
  - intros p Hp. rewrite Ef, elem_of_app. destruct (K2 p Hp) as [|[u Hu]]; [auto|].
    destruct (Kf p u Hu); [right; eauto|auto].
  - intros p u Hp. apply N2. by eapply lookup_weaken.
  - intros p r vpn Hp. assert (Hp2 : own2 !! p = Some (Data r vpn)) by (by eapply lookup_weaken).
    destruct (D2 _ _ _ Hp2) as [?|(-> & Hx & Hv & v & Hlk & Hpa)]; [by left|exfalso].
    specialize (Hw _ Hx). rewrite <-Hpa, (G3 (vpn * PGSIZE)) in Hp; [done| |done].
    unfold PGSIZE. lia.
  - intros root' va' Hr' Hva'. specialize (L2 root' va' Hr' Hva'). unfold nothing.
    assert (E : pt_lookup (k_mem s3) root' va' = pt_lookup (k_mem s1) root' va'); [|by case_decide].
    rewrite (C3 root' va' (Hr2 _ Hr') Hva').
    destruct (decide (root' = root /\ va <= va' < va + d * PGSIZE)) as [Hc|Hc].
    + destruct Hc as [-> Hc]. symmetry. apply Hun'. lia.
    + case_decide as Heq; [subst root'|done]. destruct (w (va' / 4096)) as [x|] eqn:E; [|done].
      exfalso. destruct (Hw _ (ex_intro _ x E)) as [Hlo Hup']. apply Hc. split; [done|].
      unfold PGSIZE. pose proof (Z.div_mod va' 4096). pose proof (Z.mod_pos_bound va' 4096). lia.
  - intros x Hx. rewrite M3, M2; [done|done|]. intros p [Hp|(r & k & pre & Hp)].
    + apply Hx. left. rewrite Ef in Hp. apply elem_of_app in Hp as [|]; auto.
    + destruct (N2 _ _ Hp); apply Hx; eauto.
  - intros p r k pre Hp. apply P2. by eapply lookup_weaken.
Qed.

(** ** One page *)

Lemma extends_data root users own own' fl fl' s s' p r vpn :
  extends root users own own' fl fl' s s' -> own' !! p = Some (Data r vpn) ->
  own !! p = Some (Data r vpn).
Proof.
  intros X Hp. destruct (ex_new _ _ _ _ _ _ _ _ X) as (new & _ & A & B).
  destruct (A _ _ Hp) as [|Hin]; [done|]. destruct (B _ Hin) as (k & pre & ?). congruence.
Qed.

(** The page [m] just taken from the free list and filled by the caller. *)
Section one_page.
Context (users : gset Z) (own : gmap Z usage) (fl : list Z) (s s1 : kmem) (root m : Z).
Hypothesis I : vm_inv users own (m :: fl) s.
Hypothesis Hu : root ∈ users.
Hypothesis K1 : kmem_inv s1 fl.
Hypothesis S1 : same_but m (k_mem s) (k_mem s1).

Lemma taken_page : page_ok m /\ m ∉ fl /\ own !! m = None.
Proof using I.
  destruct (vi_kmem _ _ _ _ I) as [Hc Hnd]. apply chain_pages_ok in Hc.
  inversion Hc; inversion Hnd; subst. split_and!; try done.
  apply (vi_free _ _ _ _ I), elem_of_cons. by left.
Qed.

Lemma taken_words q r l pre i : own !! q = Some (PT r l pre) -> 0 <= i < 512 ->
  load64 (k_mem s1) (q + 8 * i) = load64 (k_mem s) (q + 8 * i).
Proof using I S1.
  destruct taken_page as (Hok & _ & Hn). intros Hq Hi.
  eapply pt_frame; try done. intros ? ? ?. by rewrite Hn.
Qed.

Lemma taken_inv : vm_inv users own fl s1.
Proof using I K1 S1.
  eapply vm_inv_frame; [exact I|done| |apply taken_words].
  intros p Hp. apply (vi_free _ _ _ _ I), elem_of_cons. by right.
Qed.

Lemma taken_lookup r va : own !! r = Some (PT r 2 0) -> 0 <= va < MAXVA ->
  pt_lookup (k_mem s1) r va = pt_lookup (k_mem s) r va.
Proof using I S1.
  intros Hr Hva. apply (lk_frame I (k_mem s1) r); [apply taken_words|by rewrite prefix_root].
Qed.

(** The walk that failed: [m] goes back to the free list. *)
Lemma untake own' t s2 :
  grows root users own own' fl [] s1 s2 -> kmem_lock ∉ t_held t ->
  wp (kfree m) (fun _ t' s' => t' = t /\ exists own' fl',
    granted root nothing users own own' (m :: fl) fl' s s') t s2.
Proof using I K1 S1.
  intros G Hl. destruct taken_page as (Hok & Hnin & Hn).
  pose proof (gr_ext _ _ _ _ _ _ _ _ G) as X. pose proof X as [I2 O2 (new & En & A & B) M2].
  rewrite app_nil_r in En. subst new.
  assert (Hn' : own' !! m = None).
  { destruct (own' !! m) as [u|] eqn:E; [|done]. destruct (A _ _ E); congruence. }
  eapply wp_mono; [apply (kfree_wp t s2 [] m); [apply I2|done|done|by intros ?%not_elem_of_nil]|].
  intros [] t' s' (-> & K' & S'). split; [done|]. exists own', [m].
  assert (Hw : forall q r l pre i, own' !! q = Some (PT r l pre) -> 0 <= i < 512 ->
    load64 (k_mem s') (q + 8 * i) = load64 (k_mem s2) (q + 8 * i)).
  { intros q r l pre i. apply (pt_frame users own' [] s2 m); try done. by rewrite Hn'. }
  split.
  - eapply vm_inv_frame; [exact I2|done| |done]. by intros p ->%list_elem_of_singleton.
  - done.
  - intros p ->%list_elem_of_singleton. apply elem_of_cons. by left.
  - intros p [->|Hp]%elem_of_cons; [left; by apply elem_of_cons; left|right].
    destruct (B _ Hp) as (k & pre & Hk). by exists (PT root k pre).
  - intros p u Hp. rewrite elem_of_cons. destruct (A _ _ Hp); auto.
  - intros p r vpn Hp. left. by eapply extends_data.
  - intros root' va Hr Hva. unfold nothing.
    assert (E : pt_lookup (k_mem s') root' va = pt_lookup (k_mem s) root' va); [|by case_decide].
    transitivity (pt_lookup (k_mem s1) root' va); [|by apply taken_lookup].
    transitivity (pt_lookup (k_mem s2) root' va);
      [|apply (gr_lk _ _ _ _ _ _ _ _ G root'); by rewrite prefix_root].
    apply (lk_frame I2 (k_mem s') root'); [done|]. rewrite prefix_root by done.
    by eapply lookup_weaken.
  - intros x Hx. assert (Hxm : x < m \/ m + PGSIZE <= x) by (apply Hx; left; by apply elem_of_cons; left).
    rewrite S', M2, S1 by done || (intros p [Hp|Hp]; apply Hx; [left; by apply elem_of_cons; right|by right]).
    done.
  - intros p r k pre Hp. destruct (A _ _ Hp) as [|Hin]; [by left|]. destruct (B _ Hin) as (k' & pre' & Hk). right. congruence.
Qed.

(** The walk that found the entry [pte], in the table page [q]: the page is mapped. *)
Section take.
Context (own' : gmap Z usage) (fl' : list Z) (s2 : kmem) (a pte perm q : Z).
Hypothesis G : grows root users own own' fl fl' s1 s2.
Hypothesis Hne : pte <> 0.
Hypothesis Hwk : pte = wk (k_mem s2) 2 root a.
Hypothesis Hq : own' !! q = Some (PT root 0 (prefix_of 0 a)).
Hypothesis Eq : pte = q + 8 * PX 0 a.
Hypothesis Ha : 0 <= a < MAXVA.
Hypothesis Hperm : 0 <= perm < 1024.

Abbreviation vpn := (a / 4096).
Abbreviation v := (Z.lor (Z.lor (PA2PTE m) perm) PTE_V).
Abbreviation own2 := (<[m := Data root vpn]> own').
Abbreviation s3 := (set_mem (store64 (k_mem s2) pte v) s2).

Lemma take_none : own' !! m = None /\ m ∉ fl' /\ own' ⊆ own2.
Proof using I G.
  destruct taken_page as (Hok & Hnin & Hn).
  destruct (ex_new _ _ _ _ _ _ _ _ (gr_ext _ _ _ _ _ _ _ _ G)) as (new & En & A & _).
  assert (Hn' : own' !! m = None).
  { destruct (own' !! m) as [u|] eqn:Eu; [|done].
    destruct (A _ _ Eu); [congruence|]. destruct Hnin. rewrite En, elem_of_app. by left. }
  split_and!; [done| |by apply insert_subseteq].
  intros Hin. destruct Hnin. rewrite En, elem_of_app. by right.
Qed.

Lemma take_up r u : own !! r = Some u -> own2 !! r = Some u.
Proof using I G.
  intros Hr. eapply lookup_weaken; [|apply take_none].
  eapply lookup_weaken; [done|]. apply (gr_ext _ _ _ _ _ _ _ _ G).
Qed.

Lemma take_bits : 0 <= v < 2 ^ 64 /\ PTE2PA v = m /\ nz (Z.land v PTE_V) = true /\
  PTE_FLAGS v = Z.lor perm PTE_V.
Proof using I Hperm.
  destruct taken_page as (Hok & _). pose proof (page_ok_range m Hok).
  apply leafpte_bits; [lia|apply Hok|done].
Qed.

Lemma take_q : own2 !! q = Some (PT root 0 (prefix_of 0 a)).
Proof using I G Hq. eapply lookup_weaken; [exact Hq|apply take_none]. Qed.

Lemma take_inv : vm_inv users own2 fl' s2 /\ vm_inv users own2 fl' s3.
Proof using I G Hq Eq Hperm.
  destruct taken_page as (Hok & _). destruct take_none as (Hn & Hnin & _).
  destruct take_bits as (Hv & Hpa & _).
  assert (I2 : vm_inv users own2 fl' s2).
  { apply vm_inv_add_data; try done. apply (gr_ext _ _ _ _ _ _ _ _ G). }
  split; [done|]. rewrite Eq. apply (vm_inv_store_leaf _ _ _ _ root q (prefix_of 0 a)); try done.
  - apply take_q.
  - apply PX_bound. lia.
  - intros _ _ _. rewrite Hpa, <-vpn_split. apply lookup_insert_eq.
Qed.

Lemma take_lookup r va : own !! r = Some (PT r 2 0) -> 0 <= va < MAXVA ->
  pt_lookup (k_mem s3) r va =
  if decide (r = root /\ va / 4096 = vpn) then Some v else pt_lookup (k_mem s) r va.
Proof using I S1 Hu G Hne Hwk Hq Eq Ha Hperm.
  intros Hr Hva. destruct take_bits as (Hv & _ & HvV & _). simpl.
  rewrite (store_leaf_remaps users own2 fl' s2 root a pte v); try done.
  - rewrite HvV. case_decide; [done|].
    transitivity (pt_lookup (k_mem s1) r va); [|by apply taken_lookup].
    apply (gr_lk _ _ _ _ _ _ _ _ G r). by rewrite prefix_root.
  - apply take_inv.
  - by apply take_up, (vi_root _ _ _ _ I).
  - rewrite <-take_q. f_equal. lia.
  - by apply take_up.
Qed.

(** The contents of the page are those the caller put there. *)
Lemma take_content o : 0 <= o < PGSIZE -> mget (k_mem s3) (m + o) = mget (k_mem s1) (m + o).
Proof using I K1 S1 G Hq Eq.
  intros Ho. destruct taken_page as (Hok & Hnin & Hn). destruct take_none as (Hn' & _).
  pose proof (gr_ext _ _ _ _ _ _ _ _ G) as X.
  assert (Hqok : page_ok q) by (eapply vi_ok; [apply X|exact Hq]).
  pose proof (page_disjoint q m Hqok Hok ltac:(congruence)).
  pose proof (PX_bound 0 a ltac:(lia)). simpl.
  rewrite mget_store_out by (simpl; unfold PGSIZE in *; lia).
  apply (ex_mem _ _ _ _ _ _ _ _ X). intros p Hp.
  apply (data_bytes users (<[m := Data root vpn]> own) fl s1 m root vpn).
  - apply vm_inv_add_data; try done. apply taken_inv.
  - apply lookup_insert_eq.
  - lia.
  - destruct Hp as [Hp|(r & k & pre & Hp)]; [by left|right]. exists r, k, pre.
    rewrite lookup_insert_ne; congruence.
Qed.

Lemma take_data p r vpn' : vpn < user_pages -> own2 !! p = Some (Data r vpn') ->
  own !! p = Some (Data r vpn') \/ p = m /\ r = root /\ vpn' = vpn.
Proof using I G.
  intros Hlt. rewrite lookup_insert. case_decide as Ep.
  - intros [= <- <-]. by right.
  - intros Hp. left. eapply extends_data; [apply G|done].
Qed.

Lemma take_granted c : vpn < user_pages ->
  (forall o, 0 <= o < PGSIZE -> mget (k_mem s1) (m + o) = c o) ->
  granted root (one_page vpn perm c) users own own2 (m :: fl) fl' s s3.
Proof using I K1 S1 Hu G Hne Hwk Hq Eq Ha Hperm.
  intros Hlt Hc. destruct take_bits as (_ & Hpa & _ & Hf).
  pose proof (gr_ext _ _ _ _ _ _ _ _ G) as X. pose proof X as [I2 O2 (new & En & A & B) M2].
  split; unfold one_page.
  - apply take_inv.
  - etrans; [exact O2|apply take_none].
  - intros p Hp. apply elem_of_cons. right. rewrite En, elem_of_app. by right.
  - intros p [->|Hp]%elem_of_cons.
    + right. exists (Data root vpn). apply lookup_insert_eq.
    + rewrite En, elem_of_app in Hp. destruct Hp as [Hp|]; [right|by left].
      destruct (B _ Hp) as (k & pre & Hk). exists (PT root k pre).
      eapply lookup_weaken; [exact Hk|apply take_none].
  - intros p u. rewrite lookup_insert, elem_of_cons. case_decide as Ep; [right; left; done|].
    intros Hp. destruct (A _ _ Hp); [by left|]. right. right. rewrite En, elem_of_app. by left.
  - intros p r vpn' Hp. destruct (take_data p r vpn' Hlt Hp) as [?|(-> & -> & ->)]; [by left|right].
    rewrite decide_True by done. split_and!; [done|done|apply Z.div_pos; lia|done|].
    exists v. split; [|done]. rewrite take_lookup.
    + rewrite decide_True; [done|]. split; [done|]. by apply Z.div_mul.
    + by apply (vi_root _ _ _ _ I).
    + change MAXVA with (2 ^ 38) in *. unfold PGSIZE. pose proof (Z.div_mod a 4096). pose proof (Z.mod_pos_bound a 4096). lia.
  - intros root' va Hr' Hva.
    destruct (decide (root' = root)) as [->|Hd];
      [|by rewrite take_lookup, decide_False by tauto].
    rewrite (take_lookup root va Hr' Hva).
    destruct (decide (va / 4096 = vpn)) as [Ev|Ev]; [|by rewrite decide_False by tauto].
    rewrite decide_True by done. exists v. rewrite Hpa. split_and!; try done.
    + apply elem_of_cons. by left.
    + rewrite Ev. apply lookup_insert_eq.
    + intros o Ho. by rewrite take_content, Hc.
  - intros x Hx. simpl. pose proof (PX_bound 0 a ltac:(lia)).
    assert (Hx' : forall p, p ∈ fl \/ (exists r k pre, own !! p = Some (PT r k pre)) ->
      x < p \/ p + PGSIZE <= x)
      by (intros p [Hp|Hp]; apply Hx; [left; by apply elem_of_cons; right|by right]).
    assert (Hxq : x < q \/ q + PGSIZE <= x).
    { apply Hx'. destruct (A _ _ Hq); [eauto|]. left. rewrite En, elem_of_app. by left. }
    rewrite mget_store_out by (simpl; unfold PGSIZE in *; lia). rewrite M2, S1; try done.
    apply Hx. left. apply elem_of_cons. by left.
  - intros p r k pre. rewrite lookup_insert. case_decide; [done|]. intros Hp.
    destruct (A _ _ Hp) as [|Hin]; [by left|]. destruct (B _ Hin) as (k' & pre' & Hk). right. congruence.
Qed.
End take.
End one_page.
End alloc.
