(* ===== verification/VmUser.v ===== *)
(** * VmUser: the specifications of [uvmalloc], [vmfault] and [uvmcopy] *)

From S2P Require Import Prelude Riscv CString Kalloc Vm PageTable VmWalk VmMap VmUnmap VmAlloc.

Section user.
Context `{KernelLayout}.

Lemma user_page_range a : 0 <= a -> a / 4096 < user_pages -> 0 <= a < MAXVA /\ a < TRAPFRAME.
Proof.
  change user_pages with (2 ^ 26 - 2). change MAXVA with (2 ^ 38).
  change TRAPFRAME with (2 ^ 38 - 8192). pose proof (Z.div_mod a 4096).
  pose proof (Z.mod_pos_bound a 4096). lia.
Qed.

(** [mappages] of the one page [m] the caller took from the allocator and filled. *)
Lemma map_page_wp users own fl s s1 root m a perm c t :
  vm_inv users own (m :: fl) s -> root ∈ users -> kmem_inv s1 fl ->
  same_but m (k_mem s) (k_mem s1) -> kmem_lock ∉ t_held t ->
  0 <= a -> a mod 4096 = 0 -> a / 4096 < user_pages -> 0 <= perm < 1024 ->
  pt_lookup (k_mem s) root a = None ->
  (forall o, 0 <= o < PGSIZE -> mget (k_mem s1) (m + o) = c o) ->
  wp (mappages root a PGSIZE m perm) (fun r t' s' => t' = t /\
    ((r = 0 /\ (exists v, pt_lookup (k_mem s') root a = Some v /\ PTE2PA v = m) /\ exists own' fl',
       granted root (one_page (a / 4096) perm c) users own own' (m :: fl) fl' s s') \/
     (r = -1 /\ wp (kfree m) (fun _ t'' s'' => t'' = t /\ exists own' fl',
       granted root nothing users own own' (m :: fl) fl' s s'') t s'))) t s1.
Proof.
  intros I Hu K1 S1 Hl Ha Hal Hlt Hperm Hun Hc.
  destruct (user_page_range a Ha Hlt) as [Hmax _].
  assert (Hr := vi_root _ _ _ _ I root Hu).
  assert (I1 : vm_inv users own fl s1) by (by eapply taken_inv).
  unfold mappages. unfold PGSIZE at 1. rewrite Hal.
  rewrite (proj2 (Z.eqb_eq (PGSIZE mod PGSIZE) 0)) by done. cbn [negb Z.eqb].
  change (PGSIZE =? 0) with false. cbv iota. change (Z.to_nat (PGSIZE / PGSIZE)) with 1%nat.
  replace (u64 (a + PGSIZE - PGSIZE)) with a
    by (unfold u64; rewrite Z.add_simpl_r, Z.mod_small by (change MAXVA with (2 ^ 38) in *; lia); done).
  cbn [mappages_loop]. wp_step. eapply wp_mono; [by apply (walk_wp users root a t own fl s1)|].
  intros pte t1 s2 (-> & own' & fl' & G & W & _). destruct W as [[-> ->]|(Hne & Hwk & q & Hq & E)].
  { simpl. wp_steps. split; [done|]. right. split; [done|]. by eapply untake. }
  rewrite (proj2 (Z.eqb_neq pte 0) Hne). unfold ld64, st64. wp_steps.
  assert (HV : nz (Z.land (load64 (k_mem s2) pte) PTE_V) = false).
  { assert (Hn : pt_lookup (k_mem s2) root a = None).
    { rewrite <-Hun. transitivity (pt_lookup (k_mem s1) root a); [|by eapply taken_lookup].
      apply (gr_lk _ _ _ _ _ _ _ _ G root). by rewrite prefix_root. }
    change (Z.to_nat 2) with 2%nat in Hwk. unfold pt_lookup in Hn.
    rewrite lk_of_wk, <-Hwk in Hn by congruence. by case_match. }
  rewrite HV. wp_steps. rewrite Z.eqb_refl. wp_steps. split; [done|]. left. split; [done|].
  split.
  { eexists. split; [etrans; [by eapply take_lookup|by rewrite decide_True]|by eapply take_bits]. }
  exists (<[m := Data root (a / 4096)]> own'), fl'. by eapply take_granted.
Qed.

(** The caller's write into the page it just took. *)
Lemma fill_kmem s fl m m' :
  kmem_inv s fl -> page_ok m -> m ∉ fl -> same_but m (k_mem s) m' -> kmem_inv (set_mem m' s) fl.
Proof.
  intros [Hc Hnd] Hok Hnin Hs. split; [|done]. simpl. by eapply chain_same_but.
Qed.

(** [kalloc] under the invariant. *)
Lemma take_page_wp users own fl s t :
  vm_inv users own fl s -> kmem_lock ∉ t_held t ->
  wp kalloc (fun m t' s1 => t' = t /\
    ((m = 0 /\ fl = [] /\ s1 = s) \/
     (m <> 0 /\ page_ok m /\ exists fl', fl = m :: fl' /\ m ∉ fl' /\ kmem_inv s1 fl' /\
       same_but m (k_mem s) (k_mem s1)))) t s.
Proof.
  intros I Hl. eapply wp_mono; [apply (kalloc_wp t s fl); [apply I|done]|].
  intros m t' s1 [-> Hm]. split; [done|]. destruct fl as [|q fl].
  - left. by destruct Hm as [-> ->].
  - right. destruct Hm as (-> & K & E). destruct (taken_page _ _ _ _ _ I) as (Hok & Hnin & _).
    pose proof (page_ok_range _ Hok). split_and!; [lia|done|]. exists fl.
    repeat split; [exact Hnin|apply K|apply K|]. rewrite E. apply same_but_memset.
Qed.

Definition zero_page : Z -> byte := fun _ => chr 0.

Lemma zeroed_page s m :
  same_but m (k_mem s) (memset (k_mem s) m 0 PGSIZE) /\
  forall o, 0 <= o < PGSIZE -> mget (memset (k_mem s) m 0 PGSIZE) (m + o) = zero_page o.
Proof.
  split; [apply same_but_memset|]. intros o Ho. rewrite mget_memset by done.
  by rewrite decide_True by lia.
Qed.

(** ** uvmalloc *)

Definition zero_pages (lo d perm : Z) (v : Z) : option (Z * (Z -> byte)) :=
  if decide (lo <= v < lo + d) then Some (perm, zero_page) else None.

Definition uvm_perm (xperm : Z) : Z := Z.lor (Z.lor PTE_R PTE_U) xperm.

Lemma granted_zero_snoc root users own1 own2 own3 fl1 fl2 fl3 s1 s2 s3 lo d perm :
  own1 !! root = Some (PT root 2 0) -> 0 <= d ->
  granted root (zero_pages lo d perm) users own1 own2 fl1 fl2 s1 s2 ->
  granted root (one_page (lo + d) perm zero_page) users own2 own3 fl2 fl3 s2 s3 ->
  granted root (zero_pages lo (d + 1) perm) users own1 own3 fl1 fl3 s1 s3.
Proof.
  intros Hr Hd G1 G2. eapply granted_trans; [done|exact G1|exact G2|..]; unfold zero_pages, one_page.
  - intros v. case_decide; [|by intros [? ?]]. intros _. by rewrite decide_False by lia.
  - intros v. repeat case_decide; lia || done.
Qed.

Lemma granted_nothing_snoc root w users own1 own2 own3 fl1 fl2 fl3 s1 s2 s3 :
  own1 !! root = Some (PT root 2 0) ->
  granted root w users own1 own2 fl1 fl2 s1 s2 ->
  granted root nothing users own2 own3 fl2 fl3 s2 s3 ->
  granted root w users own1 own3 fl1 fl3 s1 s3.
Proof. intros Hr G1 G2. by eapply granted_trans. Qed.

(** Giving up after [i] pages: [uvmdealloc] back to the old size. *)
Lemma uvmalloc_undo users own0 fl0 s0 own fl s root o i perm t :
  vm_inv users own0 fl0 s0 -> root ∈ users -> kmem_lock ∉ t_held t ->
  0 <= o -> o mod 4096 = 0 -> 0 <= i -> o / 4096 + i <= user_pages ->
  unmapped (k_mem s0) root o i ->
  granted root (zero_pages (o / 4096) i perm) users own0 own fl0 fl s0 s ->
  wp (uvmdealloc root (o + i * PGSIZE) o) (fun _ t' s' => t' = t /\ exists own' fl',
    granted root nothing users own0 own' fl0 fl' s0 s') t s.
Proof.
  intros I Hu Hl Ho Hal Hi Hhi Hun G. change user_pages with (2 ^ 26 - 2) in Hhi.
  pose proof (Z.div_mod o 4096 ltac:(lia)) as Edm.
  eapply wp_mono; [apply (uvmdealloc_wp users root t own fl s); try done; [apply G|..];
    change TRAPFRAME with (2 ^ 38 - 8192); unfold PGSIZE; lia|].
  intros r t' s' (-> & _ & own' & fl' & U). split; [done|]. exists own', fl'.
  assert (E1 : PGROUNDUP o = o) by (apply PGROUNDUP_aligned; lia).
  assert (E2 : dealloc_pages (o + i * PGSIZE) o = i).
  { unfold dealloc_pages. rewrite E1, PGROUNDUP_aligned; unfold PGSIZE; [|lia|].
    - replace (o + i * 4096 - o) with (i * 4096) by lia. rewrite Z.div_mul; lia.
    - by rewrite Z.mod_add. }
  rewrite E1, E2 in U. eapply granted_unmap; [exact I|by apply (vi_root _ _ _ _ I)|exact G|exact U|done|done|done| |done].
  intros v. unfold zero_pages. case_decide; [lia|by intros [? ?]].
Qed.

Lemma page_succ a : (a + PGSIZE) / 4096 = a / 4096 + 1 /\ (a mod 4096 = 0 -> (a + PGSIZE) mod 4096 = 0).
Proof.
  unfold PGSIZE. split.
  - rewrite <-(Z.div_add a 1 4096) by lia. f_equal.
  - intros E. by rewrite Z.add_mod, E by lia.
Qed.

Lemma uvmalloc_loop_wp users own0 fl0 s0 root o newsz xperm t n : forall own fl s i,
  vm_inv users own0 fl0 s0 -> root ∈ users -> kmem_lock ∉ t_held t -> 0 <= xperm < 1024 ->
  0 <= o -> o mod 4096 = 0 -> 0 <= i -> o / 4096 + i + Z.of_nat n <= user_pages ->
  o + (i + Z.of_nat n) * PGSIZE < newsz + PGSIZE ->
  newsz <= o + (i + Z.of_nat n) * PGSIZE ->
  unmapped (k_mem s0) root o (i + Z.of_nat n) ->
  granted root (zero_pages (o / 4096) i (uvm_perm xperm)) users own0 own fl0 fl s0 s ->
  wp (uvmalloc_loop (S n) root (o + i * PGSIZE) o newsz xperm) (fun r t' s' => t' = t /\
    exists own' fl',
      (r = newsz /\ granted root (zero_pages (o / 4096) (i + Z.of_nat n) (uvm_perm xperm))
         users own0 own' fl0 fl' s0 s') \/
      (r = 0 /\ granted root nothing users own0 own' fl0 fl' s0 s')) t s.
Proof.
  induction n as [|n IH]; intros own fl s i I Hu Hl Hx Ho Hal Hi Hhi Hn1 Hn2 Hun G; cbn [uvmalloc_loop].
  { rewrite (proj2 (Z.ltb_ge _ _)) by lia. wp_steps. split; [done|].
    exists own, fl. left. by rewrite Z.add_0_r. }
  assert (Hr := vi_root _ _ _ _ I root Hu). pose proof (Z.div_mod o 4096 ltac:(lia)) as Edm.
  rewrite (proj2 (Z.ltb_lt _ _)) by (unfold PGSIZE in *; lia).
  set (a := o + i * PGSIZE). assert (Ea : a / 4096 = o / 4096 + i)
    by (unfold a, PGSIZE; by rewrite Z.div_add).
  assert (Eal : a mod 4096 = 0) by (unfold a, PGSIZE; by rewrite Z.mod_add).
  assert (Hundo : forall own fl s,
    granted root (zero_pages (o / 4096) i (uvm_perm xperm)) users own0 own fl0 fl s0 s ->
    wp (uvmdealloc root a o;; mret 0) (fun r t' s' => t' = t /\ exists own' fl',
      (r = newsz /\ granted root (zero_pages (o / 4096) (i + Z.of_nat (S n)) (uvm_perm xperm))
         users own0 own' fl0 fl' s0 s') \/
      (r = 0 /\ granted root nothing users own0 own' fl0 fl' s0 s')) t s).
  { clear own fl s G. intros own fl s G. wp_step. eapply wp_mono.
    - apply (uvmalloc_undo users own0 fl0 s0 own fl s root o i (uvm_perm xperm)); try done; [lia|].
      intros j Hj. apply Hun. lia.
    - intros r t' s' (-> & own' & fl' & U). wp_steps. split; [done|]. exists own', fl'. by right. }
  assert (Ha : 0 <= a) by (unfold a, PGSIZE; lia).
  destruct (user_page_range a Ha ltac:(lia)) as [Hmax _].
  wp_step. eapply wp_mono; [apply (take_page_wp users own fl s t); [apply G|done]|].
  intros m t1 s1 [-> [(-> & -> & ->)|(Hm & Hok & fl' & -> & Hnin & K1 & S1)]]; [by apply (Hundo own [])|].
  rewrite (proj2 (Z.eqb_neq m 0) Hm). unfold do_memset. wp_steps.
  destruct (zeroed_page s1 m) as [S2 C2]. set (s2 := set_mem _ s1).
  assert (Hun1 : pt_lookup (k_mem s) root a = None).
  { pose proof (gt_lk _ _ _ _ _ _ _ _ _ G root a Hr Hmax) as L. rewrite decide_True in L by done.
    unfold zero_pages in L. rewrite Ea, decide_False in L by lia. rewrite L. apply Hun. lia. }
  eapply wp_mono; [apply (map_page_wp users own fl' s s2 root m a (uvm_perm xperm) zero_page t); try done|].
  - apply G.
  - by apply (fill_kmem s1 fl' m).
  - by eapply same_but_trans.
  - lia.
  - apply (lor_bound 10); done || lia.
  - intros r t1 s3 [-> [(-> & _ & own' & fl'' & G')|[-> W]]]; simpl.
    + replace (u64 (a + PGSIZE)) with (o + (i + 1) * PGSIZE).
      2:{ unfold u64. rewrite Z.mod_small; unfold a; [lia|].
          change MAXVA with (2 ^ 38) in Hmax. unfold a, PGSIZE in *. lia. }
      replace (i + Z.of_nat (S n)) with (i + 1 + Z.of_nat n) in * by lia.
      apply (IH own' fl'' s3 (i + 1)); try done; try lia.
      rewrite Ea in G'. by eapply granted_zero_snoc.
    + wp_step. eapply wp_mono; [exact W|]. intros [] t1 s4 (-> & own' & fl'' & G').
      apply (Hundo own' fl''). by eapply granted_nothing_snoc.
Qed.

(** The number of pages [uvmalloc] adds. *)
Definition alloc_pages (oldsz newsz : Z) : Z :=
  Z.max 0 ((newsz - PGROUNDUP oldsz + PGSIZE - 1) / PGSIZE).

Lemma uvmalloc_wp users own fl s root oldsz newsz xperm t :
  vm_inv users own fl s -> root ∈ users -> kmem_lock ∉ t_held t -> 0 <= xperm < 1024 ->
  0 <= oldsz <= newsz -> newsz <= TRAPFRAME ->
  unmapped (k_mem s) root (PGROUNDUP oldsz) (alloc_pages oldsz newsz) ->
  wp (uvmalloc root oldsz newsz xperm) (fun r t' s' => t' = t /\ exists own' fl',
      (r = newsz /\ granted root
         (zero_pages (PGROUNDUP oldsz / 4096) (alloc_pages oldsz newsz) (uvm_perm xperm))
         users own own' fl fl' s s') \/
      (r = 0 /\ granted root nothing users own own' fl fl' s s')) t s.
Proof.
  intros I Hu Hl Hx Ho Hn Hun. change TRAPFRAME with (2 ^ 38 - 8192) in Hn.
  unfold uvmalloc. rewrite (proj2 (Z.ltb_ge _ _)) by lia.
  pose proof (PGROUNDUP_bounds oldsz ltac:(lia)) as [Ha Hb]. unfold alloc_pages in *. cbv zeta.
  set (o := PGROUNDUP oldsz) in *. set (q := (newsz - o + PGSIZE - 1) / PGSIZE) in *.
  pose proof (Z.div_mod o 4096 ltac:(lia)).
  assert (Hq : newsz - o <= q * 4096 < newsz - o + 4096).
  { unfold q, PGSIZE. pose proof (Z.div_mod (newsz - o + 4096 - 1) 4096).
    pose proof (Z.mod_pos_bound (newsz - o + 4096 - 1) 4096). lia. }
  replace (Z.max 0 q) with (0 + Z.of_nat (Z.to_nat q)) in * by lia.
  pose proof (uvmalloc_loop_wp users own fl s root o newsz xperm t (Z.to_nat q) own fl s 0) as W.
  rewrite Z.mul_0_l, (Z.add_0_r o) in W. apply W; clear W; unfold PGSIZE; try done; try lia.
  - change user_pages with (2 ^ 26 - 2). lia.
  - pose proof (granted_refl root users own fl s I) as [? ? ? ? ? D L ? ?]. split; try done.
    + intros p r vpn Hp. destruct (D p r vpn Hp) as [|(_ & [? ?] & _)]; [by left|done].
    + intros root' va Hr Hva. specialize (L root' va Hr Hva). unfold zero_pages.
      by repeat case_decide; try lia.
Qed.

(** ** vmfault *)

Definition mapped (m : mem) (root va : Z) : bool :=
  match pt_lookup m root va with Some _ => true | None => false end.

Lemma ismapped_done users own fl s root va t :
  vm_inv users own fl s -> own !! root = Some (PT root 2 0) -> 0 <= va < MAXVA ->
  ismapped root va t s = Done (mapped (k_mem s) root va) t s.
Proof.
  intros I Hr Hva. unfold ismapped.
  rewrite (bind_done _ _ _ _ _ _ _ (walk_false root va t s ltac:(lia))).
  assert (Hp : own !! root = Some (PT root 2 (prefix_of 2 va))) by (by rewrite prefix_root).
  pose proof (lk_wk I root 2 root va Hp) as Hlk. fold (pt_lookup (k_mem s) root va) in Hlk.
  unfold mapped. rewrite Hlk. destruct (wk (k_mem s) 2 root va =? 0); [done|].
  unfold ld64, gets, mbind, M_bind, mret, M_ret. cbn [obind]. by destruct (nz _).
Qed.

Definition fault_perm : Z := Z.lor (Z.lor PTE_W PTE_U) PTE_R.

Lemma PGROUNDDOWN_page va : PGROUNDDOWN va / 4096 = va / 4096 /\ PGROUNDDOWN va mod 4096 = 0.
Proof.
  rewrite PGROUNDDOWN_eq. pose proof (Z.div_mod va 4096 ltac:(lia)) as E.
  replace (va - va mod 4096) with (va / 4096 * 4096) by lia.
  rewrite Z.div_mul, Z.mod_mul by lia. done.
Qed.

Lemma vmfault_wp users own fl s p va t :
  vm_inv users own fl s -> up_pagetable p ∈ users -> kmem_lock ∉ t_held t ->
  0 <= va -> up_sz p <= TRAPFRAME ->
  wp (vmfault p (up_pagetable p) va) (fun r t' s' => t' = t /\ exists own' fl',
    let root := up_pagetable p in
    (r = 0 /\ granted root nothing users own own' fl fl' s s') \/
    (r <> 0 /\ va < up_sz p /\ mapped (k_mem s) root va = false /\
     granted root (one_page (va / 4096) fault_perm zero_page) users own own' fl fl' s s' /\
     exists v, pt_lookup (k_mem s') root va = Some v /\ PTE2PA v = r)) t s.
Proof.
  intros I Hu Hl Hva Hsz. cbv zeta. set (root := up_pagetable p) in *.
  assert (Hr := vi_root _ _ _ _ I root Hu).
  assert (Hsame : exists own' fl', granted root nothing users own own' fl fl' s s)
    by (exists own, fl; by apply granted_refl).
  unfold vmfault. destruct (Z.leb_spec (up_sz p) va) as [|Hlt].
  { wp_steps. split; [done|]. destruct Hsame as (own' & fl' & G). exists own', fl'. by left. }
  destruct (PGROUNDDOWN_page va) as [Ep Eal]. set (a := PGROUNDDOWN va) in *.
  assert (Hpg : va / 4096 < user_pages).
  { change user_pages with (2 ^ 26 - 2). change TRAPFRAME with (2 ^ 38 - 8192) in Hsz.
    apply Z.div_lt_upper_bound; lia. }
  assert (Ha : 0 <= a) by (unfold a; rewrite PGROUNDDOWN_eq; pose proof (Z.mod_le va 4096); lia).
  destruct (user_page_range a Ha ltac:(lia)) as [Hmax _].
  cbv zeta. wp_step. eapply wp_done; [by eapply ismapped_done|]. unfold mapped.
  rewrite <-(pt_lookup_page _ _ a va Ep). destruct (pt_lookup (k_mem s) root a) as [v|] eqn:Hlk.
  { wp_steps. split; [done|]. destruct Hsame as (own' & fl' & G). exists own', fl'. by left. }
  wp_step. eapply wp_mono; [by apply (take_page_wp users own fl s t)|].
  intros m t1 s1 [-> [(-> & -> & ->)|(Hm & Hok & fl' & -> & Hnin & K1 & S1)]].
  { simpl. wp_steps. split; [done|]. destruct Hsame as (own' & fl' & G). exists own', fl'. by left. }
  rewrite (proj2 (Z.eqb_neq m 0) Hm). unfold do_memset. wp_steps.
  destruct (zeroed_page s1 m) as [S2 C2]. set (s2 := set_mem _ s1). fold root.
  eapply wp_mono; [apply (map_page_wp users own fl' s s2 root m a fault_perm zero_page t); try done; [| |lia]|].
  - by apply (fill_kmem s1 fl' m).
  - by eapply same_but_trans.
  - intros r t1 s3 [-> [(-> & (v & Hv & Hpa) & own' & fl'' & G')|[-> W]]]; simpl.
    + wp_steps. split; [done|]. exists own', fl''. right. rewrite <-Ep. split_and!; try done.
      exists v. by rewrite (pt_lookup_page _ _ va a).
    + wp_step. eapply wp_mono; [exact W|]. intros [] t1 s4 (-> & own' & fl'' & G').
      wp_steps. split; [done|]. exists own', fl''. by left.
Qed.

(** ** uvmcopy *)

(** The pages a fork copies: those mapped below the [d]-th page of [old]. *)
Definition copied_pages (m : mem) (old d v : Z) : option (Z * (Z -> byte)) :=
  if decide (0 <= v < d) then
    match pt_lookup m old (v * PGSIZE) with
    | Some x => Some (PTE_FLAGS x, fun o => mget m (PTE2PA x + o))
    | None => None
    end
  else None.

Lemma mapped_owned users own fl s root a v :
  vm_inv users own fl s -> root ∈ users -> 0 <= a -> a / 4096 < user_pages ->
  pt_lookup (k_mem s) root a = Some v -> own !! PTE2PA v = Some (Data root (a / 4096)).
Proof.
  intros I Hu Ha Hlt Hlk. destruct (user_page_range a Ha Hlt) as [Hmax _].
  assert (Hp : own !! root = Some (PT root 2 (prefix_of 2 a)))
    by (rewrite prefix_root by done; by apply (vi_root _ _ _ _ I)).
  pose proof (lk_wk I root 2 root a Hp) as E. fold (pt_lookup (k_mem s) root a) in E.
  rewrite Hlk in E. destruct (wk_owned I root 2 root a Hp) as [E0|(q & Hq & Eq)]; [by rewrite E0 in E|].
  destruct (wk (k_mem s) 2 root a =? 0); [done|]. case_match eqn:HV; [|done]. apply (inj Some) in E as ->.
  rewrite Eq in HV |- *. rewrite vpn_split in Hlt |- *.
  apply (vi_leaf _ _ _ _ I q root _ _ Hq Hu); [apply PX_bound; lia|exact HV|exact Hlt].
Qed.

(** The contents of a user page survive a grant to another table. *)
Lemma granted_page root w users own own' fl fl' s s' p r vpn o :
  vm_inv users own fl s -> granted root w users own own' fl fl' s s' ->
  own !! p = Some (Data r vpn) -> 0 <= o < PGSIZE ->
  mget (k_mem s') (p + o) = mget (k_mem s) (p + o).
Proof.
  intros I G Hp Ho. apply (gt_mem _ _ _ _ _ _ _ _ _ G). intros q Hq.
  eapply data_bytes; [exact I|exact Hp|lia|done].
Qed.

(** Copying the page [pa] into the page [m] just taken. *)
Lemma copied_page s s1 m pa :
  page_ok m -> page_ok pa -> m <> pa -> same_but m (k_mem s) (k_mem s1) ->
  same_but m (k_mem s1) (memmove (k_mem s1) m pa PGSIZE) /\
  forall o, 0 <= o < PGSIZE ->
    mget (memmove (k_mem s1) m pa PGSIZE) (m + o) = mget (k_mem s) (pa + o).
Proof.
  intros Hm Hp Hne S1. pose proof (page_disjoint m pa Hm Hp Hne) as Hd. split.
  - intros x Hx. rewrite mget_memmove by done. unfold copied. by rewrite decide_False by lia.
  - intros o Ho. rewrite mget_memmove by done. unfold copied. rewrite decide_True by lia.
    replace (pa + (m + o - m)) with (pa + o) by lia. apply S1. lia.
Qed.

Lemma granted_copy_snoc root old users own1 own2 own3 fl1 fl2 fl3 s1 s2 s3 d w :
  own1 !! root = Some (PT root 2 0) -> 0 <= d ->
  granted root (copied_pages (k_mem s1) old d) users own1 own2 fl1 fl2 s1 s2 ->
  granted root w users own2 own3 fl2 fl3 s2 s3 ->
  (forall v, w v = if decide (v = d) then copied_pages (k_mem s1) old (d + 1) d else None) ->
  granted root (copied_pages (k_mem s1) old (d + 1)) users own1 own3 fl1 fl3 s1 s3.
Proof.
  intros Hr Hd G1 G2 Hw. eapply granted_trans; [done|exact G1|exact G2|..]; intros v; rewrite Hw.
  - unfold copied_pages. case_decide; [|by intros [? ?]]. intros _. by rewrite decide_False by lia.
  - unfold copied_pages at 1 3. destruct (decide (v = d)) as [->|].
    + unfold copied_pages. rewrite !decide_True, decide_False by lia. by case_match.
    + repeat case_decide; lia || done.
Qed.

Lemma PTE_FLAGS_bound x : 0 <= PTE_FLAGS x < 1024.
Proof.
  unfold PTE_FLAGS. change 0x3FF with (Z.ones 10). rewrite Z.land_ones by lia.
  by apply Z.mod_pos_bound.
Qed.

(** Giving up after [d] pages: [err] of [uvmcopy]. *)
Lemma uvmcopy_undo users own0 fl0 s0 own fl s old new d t :
  vm_inv users own0 fl0 s0 -> new ∈ users -> kmem_lock ∉ t_held t ->
  0 <= d <= user_pages -> unmapped (k_mem s0) new 0 d ->
  granted new (copied_pages (k_mem s0) old d) users own0 own fl0 fl s0 s ->
  wp (uvmunmap new 0 d true) (fun _ t' s' => t' = t /\ exists own' fl',
    granted new nothing users own0 own' fl0 fl' s0 s') t s.
Proof.
  intros I Hu Hl Hd Hun G.
  eapply wp_mono; [apply (uvmunmap_wp users new t own fl s 0 d); try done; [apply G|lia|change (0 / 4096) with 0; lia]|].
  intros [] t' s' (-> & own' & fl' & U). split; [done|]. exists own', fl'.
  eapply granted_unmap; [exact I|by apply (vi_root _ _ _ _ I)|exact G|exact U|done|done|change (0 / 4096) with 0; lia| |done].
  intros v. unfold copied_pages. case_decide; [change (0 / 4096) with 0; intros _; lia|by intros [? ?]].
Qed.

Section uvmcopy.
Context (users : gset Z) (own0 : gmap Z usage) (fl0 : list Z) (s0 : kmem) (old new : Z) (t : tctx).
Hypothesis I0 : vm_inv users own0 fl0 s0.
Hypothesis Hold : old ∈ users.
Hypothesis Hnew : new ∈ users.
Hypothesis Hne : old <> new.
Hypothesis Hl : kmem_lock ∉ t_held t.

Abbreviation copy_post n := (fun (r : Z) t' s' => t' = t /\ exists own' fl',
  (r = 0 /\ granted new (copied_pages (k_mem s0) old n) users own0 own' fl0 fl' s0 s') \/
  (r = -1 /\ granted new nothing users own0 own' fl0 fl' s0 s')).

Section page.
Context (own : gmap Z usage) (fl : list Z) (s : kmem) (d : Z).
Hypothesis Hd : 0 <= d < user_pages.
Hypothesis Hun : unmapped (k_mem s0) new 0 (d + 1).
Hypothesis G : granted new (copied_pages (k_mem s0) old d) users own0 own fl0 fl s0 s.

Lemma copy_old_lookup :
  pt_lookup (k_mem s) old (d * PGSIZE) = pt_lookup (k_mem s0) old (d * PGSIZE).
Proof using I0 Hold Hne Hd G.
  pose proof (gt_lk _ _ _ _ _ _ _ _ _ G old (d * PGSIZE) (vi_root _ _ _ _ I0 _ Hold)) as L.
  rewrite decide_False in L by done. apply L.
  change user_pages with (2 ^ 26 - 2) in Hd. change MAXVA with (2 ^ 38). unfold PGSIZE. lia.
Qed.

Lemma copy_new_lookup : pt_lookup (k_mem s) new (d * PGSIZE) = None.
Proof using I0 Hnew Hd Hun G.
  pose proof (gt_lk _ _ _ _ _ _ _ _ _ G new (d * PGSIZE) (vi_root _ _ _ _ I0 _ Hnew)) as L.
  rewrite decide_True in L by done. unfold copied_pages in L.
  unfold PGSIZE in L |- *. rewrite Z.div_mul, decide_False in L by lia.
  rewrite L; [apply (Hun d); lia|].
  change user_pages with (2 ^ 26 - 2) in Hd. change MAXVA with (2 ^ 38). lia.
Qed.

Lemma copy_undo t' : t' = t -> forall own fl s,
  granted new (copied_pages (k_mem s0) old d) users own0 own fl0 fl s0 s -> forall n,
  wp (uvmunmap new 0 (d * PGSIZE / PGSIZE) true;; mret (-1)) (copy_post n) t' s.
Proof using I0 Hnew Hl Hd Hun.
  intros -> own' fl' s' G' n. rewrite Z.div_mul by done. wp_step. eapply wp_mono.
  - apply (uvmcopy_undo users own0 fl0 s0 own' fl' s' old new d); try done; [lia|].
    intros i Hi. apply Hun. lia.
  - intros [] t1 s1 (-> & own1 & fl1 & U). wp_steps. split; [done|]. exists own1, fl1. by right.
Qed.

Lemma copy_skip : pt_lookup (k_mem s0) old (d * PGSIZE) = None ->
  granted new (copied_pages (k_mem s0) old (d + 1)) users own0 own fl0 fl s0 s.
Proof using I0 Hnew Hd G.
  intros E. eapply granted_copy_snoc; [by apply (vi_root _ _ _ _ I0)|lia|exact G| |].
  - apply (granted_refl new users own fl s), G.
  - intros v. unfold copied_pages, nothing. case_decide; [|done].
    rewrite decide_True by lia. by rewrite E.
Qed.

(** The mapped page [x] of the parent is copied; what follows runs as [k]. *)
Lemma copy_page_wp x k n : pt_lookup (k_mem s0) old (d * PGSIZE) = Some x ->
  (forall own' fl' s', granted new (copied_pages (k_mem s0) old (d + 1)) users own0 own' fl0 fl' s0 s' ->
     wp k (copy_post n) t s') ->
  wp (m ← kalloc;
      if m =? 0 then uvmunmap new 0 (d * PGSIZE / PGSIZE) true;; mret (-1)
      else
        do_memmove m (PTE2PA x) PGSIZE;;
        r ← mappages new (d * PGSIZE) PGSIZE m (PTE_FLAGS x);
        if negb (r =? 0) then kfree m;; uvmunmap new 0 (d * PGSIZE / PGSIZE) true;; mret (-1)
        else k) (copy_post n) t s.
Proof using I0 Hold Hnew Hne Hl Hd Hun G.
  intros E Hk. assert (Hr := vi_root _ _ _ _ I0 _ Hnew). pose proof copy_new_lookup as Hnl.
  assert (Epg : d * PGSIZE / 4096 = d) by (by apply Z.div_mul).
  assert (Ha : 0 <= d * PGSIZE) by (unfold PGSIZE; lia).
  pose proof (mapped_owned users own0 fl0 s0 old (d * PGSIZE) x I0 Hold Ha ltac:(lia) E) as Hpa.
  assert (Hpa' : own !! PTE2PA x = Some (Data old (d * PGSIZE / 4096))).
  { eapply lookup_weaken; [exact Hpa|apply G]. }
  assert (I := gt_inv _ _ _ _ _ _ _ _ _ G).
  wp_step. eapply wp_mono; [by apply (take_page_wp users own fl s t)|].
  intros m t1 s1 [-> [(-> & -> & ->)|(Hm & Hok & fl' & -> & Hnin & K1 & S1)]].
  { by eapply (copy_undo t eq_refl own []). }
  rewrite (proj2 (Z.eqb_neq m 0) Hm). unfold do_memmove. wp_steps.
  assert (Hmpa : m <> PTE2PA x).
  { intros ->. rewrite (vi_free _ _ _ _ I) in Hpa'; [done|]. apply elem_of_cons. by left. }
  destruct (copied_page s s1 m (PTE2PA x) Hok (vi_ok _ _ _ _ I _ _ Hpa') Hmpa S1) as [S2 C2].
  set (s2 := set_mem _ s1).
  eapply wp_mono; [apply (map_page_wp users own fl' s s2 new m (d * PGSIZE) (PTE_FLAGS x)
    (fun o => mget (k_mem s0) (PTE2PA x + o)) t); try done|].
  - by apply (fill_kmem s1 fl' m).
  - by eapply same_but_trans.
  - by apply Z.mod_mul.
  - lia.
  - apply PTE_FLAGS_bound.
  - intros o Ho. rewrite <-(granted_page _ _ _ _ _ _ _ _ _ _ _ _ o I0 G Hpa Ho). by apply C2.
  - intros r t1 s3 [-> [(-> & _ & own' & fl'' & G')|[-> W]]]; simpl.
    + apply (Hk own' fl''). eapply granted_copy_snoc; [done|lia|exact G|exact G'|].
      intros v. unfold one_page, copied_pages. rewrite Epg. case_decide; [|done].
      rewrite decide_True by lia. by rewrite E.
    + wp_step. eapply wp_mono; [exact W|]. intros [] t1 s4 (-> & own' & fl'' & G').
      eapply (copy_undo t eq_refl own' fl''). by eapply granted_nothing_snoc.
Qed.
End page.

Lemma uvmcopy_loop_wp sz n : forall own fl s d,
  0 <= d -> d + Z.of_nat n <= user_pages -> unmapped (k_mem s0) new 0 (d + Z.of_nat n) ->
  (d + Z.of_nat n) * PGSIZE < sz + PGSIZE -> sz <= (d + Z.of_nat n) * PGSIZE ->
  granted new (copied_pages (k_mem s0) old d) users own0 own fl0 fl s0 s ->
  wp (uvmcopy_loop (S n) old new (d * PGSIZE) sz) (copy_post (d + Z.of_nat n)) t s.
Proof using I0 Hold Hnew Hne Hl.
  induction n as [|n IH]; intros own fl s d Hd Hhi Hun Hn1 Hn2 G; cbn [uvmcopy_loop].
  { rewrite (proj2 (Z.ltb_ge _ _)) by lia. wp_steps. split; [done|].
    exists own, fl. left. by rewrite Z.add_0_r. }
  rewrite (proj2 (Z.ltb_lt _ _)) by (unfold PGSIZE in *; lia).
  assert (Hd' : 0 <= d < user_pages) by lia.
  assert (Hun' : unmapped (k_mem s0) new 0 (d + 1)) by (intros i Hi; apply Hun; lia).
  replace (d + Z.of_nat (S n)) with (d + 1 + Z.of_nat n) in * by lia.
  assert (Hnext : forall own fl s,
    granted new (copied_pages (k_mem s0) old (d + 1)) users own0 own fl0 fl s0 s ->
    wp (uvmcopy_loop (S n) old new (u64 (d * PGSIZE + PGSIZE)) sz) (copy_post (d + 1 + Z.of_nat n)) t s).
  { intros own' fl' s' G'. replace (u64 (d * PGSIZE + PGSIZE)) with ((d + 1) * PGSIZE).
    - apply (IH own' fl' s'); done || lia.
    - change user_pages with (2 ^ 26 - 2) in Hd'. unfold u64, PGSIZE. rewrite Z.mod_small; lia. }
  assert (Hmax : 0 <= d * PGSIZE < MAXVA).
  { change user_pages with (2 ^ 26 - 2) in Hd'. change MAXVA with (2 ^ 38). unfold PGSIZE. lia. }
  assert (Hp : own !! old = Some (PT old 2 (prefix_of 2 (d * PGSIZE)))).
  { rewrite prefix_root by done. apply (vi_root users own fl s); [apply G|done]. }
  pose proof (lk_wk (gt_inv _ _ _ _ _ _ _ _ _ G) old 2 old (d * PGSIZE) Hp) as L.
  fold (pt_lookup (k_mem s) old (d * PGSIZE)) in L. rewrite (copy_old_lookup own fl s d Hd' G) in L.
  wp_step. eapply wp_done; [apply walk_false; lia|].
  destruct (wk (k_mem s) 2 old (d * PGSIZE) =? 0).
  { eapply Hnext, copy_skip; [exact Hd'|exact G|exact L]. }
  unfold ld64. wp_steps. unfold nz in L.
  destruct (Z.land (load64 (k_mem s) (wk (k_mem s) 2 old (d * PGSIZE))) PTE_V =? 0).
  { eapply Hnext, copy_skip; [exact Hd'|exact G|exact L]. }
  eapply copy_page_wp; [exact Hd'|exact Hun'|exact G|exact L|exact Hnext].
Qed.

Lemma uvmcopy_wp sz : 0 <= sz <= TRAPFRAME ->
  let n := (sz + PGSIZE - 1) / PGSIZE in
  unmapped (k_mem s0) new 0 n -> wp (uvmcopy old new sz) (copy_post n) t s0.
Proof using I0 Hold Hnew Hne Hl.
  cbv zeta. set (n := (sz + PGSIZE - 1) / PGSIZE). intros Hsz Hun.
  change TRAPFRAME with (2 ^ 38 - 8192) in Hsz.
  assert (Hn : sz <= n * 4096 < sz + 4096).
  { unfold n, PGSIZE. pose proof (Z.div_mod (sz + 4096 - 1) 4096).
    pose proof (Z.mod_pos_bound (sz + 4096 - 1) 4096). lia. }
  unfold uvmcopy. fold n.
  pose proof (uvmcopy_loop_wp sz (Z.to_nat n) own0 fl0 s0 0) as W.
  rewrite Z.mul_0_l, Z.add_0_l, Z2Nat.id in W by lia. apply W; clear W; unfold PGSIZE; try done; try lia.
  - change user_pages with (2 ^ 26 - 2). lia.
  - eapply (granted_trans new nothing nothing); try (by apply granted_refl); try done.
    + by apply (vi_root _ _ _ _ I0).
    + intros v. unfold copied_pages. by rewrite decide_False by lia.
Qed.
End uvmcopy.
End user.
