(* ===== verification/VmKernel.v ===== *)
(** * VmKernel: how much memory a mapping costs

    [mappages] takes page-table pages only for the 2-megabyte regions it is
    first to touch, so that [kvmmap] succeeds, and does not panic, when the
    free list is longer than that. *)

From S2P Require Import Prelude Riscv CString Kalloc Vm PageTable VmWalk VmMap.

Section kernel.
Context `{KernelLayout}.

(** The page tables above level 0 exist for [va]. *)
Definition present (m : mem) (root va : Z) : bool :=
  let v := load64 m (root + 8 * PX 2 va) in
  nz (Z.land v PTE_V) && nz (Z.land (load64 m (PTE2PA v + 8 * PX 1 va)) PTE_V).

Lemma walk_present root va t s :
  0 <= va < MAXVA -> present (k_mem s) root va = true -> walk root va true t s = Done (wk (k_mem s) 2 root va) t s.
Proof.
  intros Hva Hp. unfold walk. rewrite (proj2 (Z.leb_gt _ _)) by lia. unfold present in Hp. apply andb_true_iff in Hp as [H2 H1].
  cbn [walk_loop wk]. change (Z.of_nat 2) with 2. change (Z.of_nat 1) with 1.
  unfold mbind, M_bind, ld64, gets. simpl. rewrite H2. simpl. rewrite H1. done.
Qed.

Lemma wk_present m root va : wk m 2 root va <> 0 -> present m root va = true.
Proof.
  unfold present. cbn [wk]. change (Z.of_nat 2) with 2. change (Z.of_nat 1) with 1.
  destruct (nz (Z.land (load64 m (root + 8 * PX 2 va)) PTE_V)); [|done]. simpl.
  by destruct (nz (Z.land (load64 m _) PTE_V)).
Qed.

Lemma PX_region k va va' : 1 <= k -> va / 2 ^ 21 = va' / 2 ^ 21 -> PX k va = PX k va'.
Proof.
  intros Hk E. rewrite !PX_eq by lia. f_equal. replace (12 + 9 * k) with (21 + (9 * k - 9)) by lia.
  rewrite Z.pow_add_r, <-!Z.div_div by lia. by rewrite E.
Qed.

Lemma present_region m root va va' : va / 2 ^ 21 = va' / 2 ^ 21 -> present m root va = present m root va'.
Proof. intros E. unfold present. by rewrite !(PX_region _ va va') by (done || lia). Qed.

(** Writing a leaf entry leaves the upper levels. *)
Lemma present_store users own fl s root q pre j v va :
  vm_inv users own fl s -> own !! root = Some (PT root 2 0) -> own !! q = Some (PT root 0 pre) -> 0 <= j < 512 ->
  present (k_mem s) root va = true -> present (store64 (k_mem s) (q + 8 * j) v) root va = true.
Proof.
  intros I Hr Hq Hj Hp. unfold present in *. apply andb_true_iff in Hp as [H2 H1].
  pose proof (PX_bound 2 va ltac:(lia)) as B2. pose proof (PX_bound 1 va ltac:(lia)) as B1.
  assert (Hd : forall p k pre' i, own !! p = Some (PT root (S k) pre') -> 0 <= i < 512 ->
    load64 (store64 (k_mem s) (q + 8 * j) v) (p + 8 * i) = load64 (k_mem s) (p + 8 * i)).
  { intros p k pre' i Hp Hi. assert (p <> q) by congruence.
    pose proof (page_disjoint p q (vi_ok _ _ _ _ I _ _ Hp) (vi_ok _ _ _ _ I _ _ Hq) ltac:(done)).
    apply load_store_disjoint. unfold PGSIZE in *. simpl. lia. }
  rewrite (Hd root 1%nat 0) by done. rewrite H2. simpl.
  destruct (vi_node _ _ _ _ I _ _ _ _ _ Hr B2 H2) as [Ho _]. by rewrite (Hd _ 0%nat _ _ Ho B1).
Qed.

(** The free list of a state is unique. *)
Lemma chain_unique m p l l' : chain m p l -> chain m p l' -> l = l'.
Proof.
  intros Hc. revert l'. induction Hc as [|p l Hok Hc IH]; intros l' Hc'; inversion Hc' as [|? l2 Hok' Hc2]; subst; try done.
  - pose proof (page_ok_range _ Hok'). lia.
  - pose proof (page_ok_range _ Hok). lia.
  - f_equal. by apply IH.
Qed.

Lemma wp_and {A} (m : M kmem A) P Q t s : wp m P t s -> wp m Q t s -> wp m (fun a t' s' => P a t' s' /\ Q a t' s') t s.
Proof. unfold wp. by destruct (m t s). Qed.

(** The state after the entry at [pte] is set. *)
Definition set_entry (pte pa perm : Z) (s : kmem) : kmem :=
  set_mem (store64 (k_mem s) pte (Z.lor (Z.lor (PA2PTE pa) perm) PTE_V)) s.

Lemma set_entry_inv users own fl s root q pre j pa perm :
  vm_inv users own fl s -> own !! q = Some (PT root 0 pre) -> 0 <= j < 512 -> kmem_inv (set_entry (q + 8 * j) pa perm s) fl.
Proof.
  intros I Hq Hj. destruct (vi_kmem _ _ _ _ I) as [Hc Hnd]. split; [|done]. simpl.
  eapply chain_same_but; [exact Hc|by eapply vi_ok| |apply same_but_store64; unfold PGSIZE; lia].
  intros Hin. pose proof (vi_free _ _ _ _ I q Hin). congruence.
Qed.

(** One page: the pages taken, and the table that is there afterwards. *)
Lemma map_one_cost users own fl s root a pa perm t :
  vm_inv users own fl s -> own !! root = Some (PT root 2 0) -> kmem_lock ∉ t_held t -> 0 <= a < MAXVA ->
  wp (walk root a true) (fun pte t1 s1 => exists fl',
    (length fl <= length fl' + if present (k_mem s) root a then 0 else 2)%nat /\
    if pte =? 0 then kmem_inv s1 fl'
    else kmem_inv (set_entry pte pa perm s1) fl' /\ present (k_mem (set_entry pte pa perm s1)) root a = true) t s.
Proof.
  intros I Hr Hl Ha. assert (Hp : own !! root = Some (PT root 2 (prefix_of 2 a))) by (by rewrite prefix_root).
  pose proof (PX_bound 0 a ltac:(lia)). destruct (present (k_mem s) root a) eqn:E.
  - eapply wp_done; [by apply walk_present|]. exists fl. split; [lia|]. destruct (wk_owned I root 2 root a Hp) as [Hw|(q & Hq & ->)].
    + rewrite Hw. simpl. apply I.
    + case_match; [apply I|]. split; [by eapply set_entry_inv|by eapply present_store].
  - eapply wp_mono; [by apply (walk_wp users root a t own fl s)|].
    intros pte t1 s1 (-> & own1 & fl1 & G & W & L). exists fl1. pose proof (gr_ext _ _ _ _ _ _ _ _ G) as X.
    pose proof (ex_inv _ _ _ _ _ _ _ _ X) as I1. split; [done|].
    destruct W as [[-> _]|(Hne & Hwk & q & Hq & ->)]; [simpl; apply I1|]. rewrite (proj2 (Z.eqb_neq _ _) Hne).
    change (Z.to_nat 2) with 2%nat in Hwk. split; [by eapply set_entry_inv|].
    eapply present_store; [exact I1| |exact Hq|done|].
    + eapply lookup_weaken; [exact Hr|apply X].
    + apply wk_present. by rewrite <-Hwk.
Qed.

(** The regions that [n + 1] pages from [a] touch, beyond the first if it is there. *)
Definition cost (m : mem) (root a n : Z) : Z :=
  2 * ((a + n * PGSIZE) / 2 ^ 21 - a / 2 ^ 21 + if present m root a then 0 else 1).

Lemma kmem_inv_unique s fl fl' : kmem_inv s fl -> kmem_inv s fl' -> fl = fl'.
Proof. intros [Hc _] [Hc' _]. by eapply chain_unique. Qed.

(** The cost of a range from the cost of its first page. *)
Lemma cost_step m m' root a n :
  0 <= a -> 0 <= n -> present m' root a = true ->
  2 * (if present m root a then 0 else 1) + cost m' root (a + PGSIZE) n <= cost m root a (n + 1).
Proof.
  intros Ha Hn Hp. unfold cost. replace (a + PGSIZE + n * PGSIZE) with (a + (n + 1) * PGSIZE) by lia.
  destruct (decide ((a + PGSIZE) / 2 ^ 21 = a / 2 ^ 21)) as [E|E].
  - rewrite E, (present_region m' root (a + PGSIZE) a), Hp by done. lia.
  - assert (a / 2 ^ 21 + 1 <= (a + PGSIZE) / 2 ^ 21).
    { unfold PGSIZE in *. Z.to_euclidean_division_equations. lia. }
    destruct (present m root a), (present m' root (a + PGSIZE)); lia.
Qed.

Lemma cost_ge m root a n : 0 <= n -> 2 * (if present m root a then 0 else 1) <= cost m root a n.
Proof.
  intros Hn. unfold cost. assert (a / 2 ^ 21 <= (a + n * PGSIZE) / 2 ^ 21).
  { unfold PGSIZE. Z.to_euclidean_division_equations. lia. }
  destruct (present m root a); lia.
Qed.

Lemma mappages_loop_cost users root perm t n : forall own fl s a pa,
  vm_inv users own fl s -> own !! root = Some (PT root 2 0) -> kmem_lock ∉ t_held t ->
  0 <= a -> a + (Z.of_nat n + 1) * PGSIZE <= MAXVA -> a mod 4096 = 0 ->
  0 <= pa -> pa + (Z.of_nat n + 1) * PGSIZE <= 2 ^ 56 -> pa mod PGSIZE = 0 ->
  0 <= perm < 1024 -> unmapped (k_mem s) root a (Z.of_nat n + 1) -> root ∉ users ->
  wp (mappages_loop (S n) root a (a + Z.of_nat n * PGSIZE) pa perm) (fun r t' s' => exists fl', kmem_inv s' fl' /\
    Z.of_nat (length fl) <= Z.of_nat (length fl') + cost (k_mem s) root a (Z.of_nat n)) t s.
Proof.
  induction n as [|n IH]; intros own fl s a pa I Hr Hl Ha Hhi Hal Hpa Hpahi Hpal Hperm Hun Hnu.
  all: cbn [mappages_loop]; wp_step; unfold PGSIZE in Hhi, Hpahi.
  all: assert (Hun1 : unmapped (k_mem s) root a 1) by (intros i Hi; apply Hun; lia).
  all: assert (Hmap1 : mappable users own root a pa 1) by (intros Hu; done).
  all: eapply wp_mono; [apply wp_and; [apply (map_one_wp users own fl s root a pa perm t); done || lia|
    apply (map_one_cost users own fl s root a pa perm t); done || lia]|].
  all: intros pte t1 s1 [(-> & own1 & fl1 & W) (fl2 & L & Wc)]; destruct (pte =? 0) eqn:E0.
  1,3: wp_steps; exists fl2; split; [done|];
    match goal with |- context [cost ?m ?r ?a ?k] => pose proof (cost_ge m r a k ltac:(lia)) end; destruct (present _ _ _); lia.
  all: destruct W as (HV & X & R), Wc as [K2 P2]; unfold ld64, st64; wp_steps; rewrite HV; wp_steps.
  all: fold (set_entry pte pa perm s1) in *; set (s2 := set_entry pte pa perm s1) in *.
  all: assert (fl2 = fl1) as -> by (eapply kmem_inv_unique; [exact K2|apply (ex_inv _ _ _ _ _ _ _ _ X)]).
  - rewrite (proj2 (Z.eqb_eq _ _)) by lia. wp_steps. exists fl1. split; [done|]. pose proof (cost_ge (k_mem s) root a (Z.of_nat 0) ltac:(lia)).
    destruct (present (k_mem s) root a); lia.
  - unfold PGSIZE at 1. rewrite (proj2 (Z.eqb_neq _ _)) by (unfold PGSIZE; lia).
    change MAXVA with (2 ^ 38) in Hhi. unfold u64.
    rewrite (Z.mod_small (a + PGSIZE)), (Z.mod_small (pa + PGSIZE)) by (unfold PGSIZE; lia).
    replace (a + Z.of_nat (S n) * PGSIZE) with ((a + PGSIZE) + Z.of_nat n * PGSIZE) by (unfold PGSIZE; lia).
    assert (I2 := ex_inv _ _ _ _ _ _ _ _ X). assert (O2 := ex_own _ _ _ _ _ _ _ _ X).
    eapply wp_mono; [apply (IH own1 fl1 s2 (a + PGSIZE) (pa + PGSIZE)); try done|];
      try (unfold PGSIZE; change MAXVA with (2 ^ 38); lia).
    + by eapply lookup_weaken.
    + unfold PGSIZE. rewrite Z.add_mod, Hal by lia. done.
    + unfold PGSIZE in *. rewrite Z.add_mod, Hpal by lia. done.
    + intros i Hi. rewrite (R root) by (try done; unfold PGSIZE; change MAXVA with (2 ^ 38); lia).
      rewrite decide_False by (unfold PGSIZE; lia). rewrite <-(Hun (i + 1)) by lia.
      f_equal. unfold PGSIZE. lia.
    + intros r t' s' (fl' & K' & L'). exists fl'. split; [done|].
      pose proof (cost_step (k_mem s) (k_mem s2) root a (Z.of_nat n) Ha ltac:(lia) P2) as Hc.
      replace (Z.of_nat (S n)) with (Z.of_nat n + 1) by lia. destruct (present (k_mem s) root a); lia.
Qed.

(** The regions that [n] pages from [va] touch, two page-table pages each. *)
Definition most (va n : Z) : Z := 2 * ((va + (n - 1) * PGSIZE) / 2 ^ 21 - va / 2 ^ 21 + 1).

(** [kvmmap] with enough free pages maps its range and does not panic. *)
Lemma kvmmap_wp users own fl s root va pa n perm t :
  vm_inv users own fl s -> own !! root = Some (PT root 2 0) -> root ∉ users -> kmem_lock ∉ t_held t ->
  1 <= n -> 0 <= va -> va + n * PGSIZE <= MAXVA -> va mod 4096 = 0 ->
  0 <= pa -> pa + n * PGSIZE <= 2 ^ 56 -> pa mod PGSIZE = 0 -> 0 <= perm < 1024 ->
  unmapped (k_mem s) root va n -> most va n < Z.of_nat (length fl) ->
  wp (kvmmap root va pa (n * PGSIZE) perm) (fun _ t' s' => t' = t /\ exists own' fl',
    extends root users own own' fl fl' s s' /\ remapped own root va pa perm n (k_mem s) (k_mem s') /\
    Z.of_nat (length fl) <= Z.of_nat (length fl') + most va n) t s.
Proof.
  intros I Hr Hnu Hl Hn Hva Hhi Hal Hpa Hpahi Hpal Hperm Hun Hlen. change MAXVA with (2 ^ 38) in Hhi. unfold PGSIZE in Hhi, Hpahi.
  unfold kvmmap, mappages. wp_step. unfold PGSIZE at 1. rewrite Hal. simpl negb. cbv iota.
  rewrite Z.mod_mul by done. simpl negb. cbv iota. rewrite (proj2 (Z.eqb_neq (n * PGSIZE) 0)) by (unfold PGSIZE; lia).
  rewrite Z.div_mul by done. replace (Z.to_nat n) with (S (Z.to_nat (n - 1))) by lia.
  replace (u64 (va + n * PGSIZE - PGSIZE)) with (va + Z.of_nat (Z.to_nat (n - 1)) * PGSIZE)
    by (unfold u64, PGSIZE; rewrite Z.mod_small; lia).
  assert (En : Z.of_nat (Z.to_nat (n - 1)) + 1 = n) by lia.
  eapply wp_mono; [apply wp_and|].
  - apply (mappages_loop_wp users root perm t (Z.to_nat (n - 1)) own fl s va pa); try done;
      rewrite ?En; try (unfold PGSIZE; change MAXVA with (2 ^ 38); lia); [done|]. by intros Hu.
  - apply (mappages_loop_cost users root perm t (Z.to_nat (n - 1)) own fl s va pa); try done;
      rewrite ?En; try (unfold PGSIZE; change MAXVA with (2 ^ 38); lia); done.
  - intros r t' s' [(-> & own' & fl' & d & X & Hd & R & Hres) (fl2 & K2 & L)].
    assert (fl2 = fl') as -> by (eapply kmem_inv_unique; [exact K2|apply (ex_inv _ _ _ _ _ _ _ _ X)]).
    assert (Hc : cost (k_mem s) root va (Z.of_nat (Z.to_nat (n - 1))) <= most va n).
    { unfold cost, most. rewrite Z2Nat.id by lia. destruct (present _ _ _); lia. }
    destruct Hres as [[-> ->]|(-> & _ & ->)]; [|simpl in L; lia]. rewrite En in R.
    simpl. wp_steps. split; [done|]. exists own', fl'. split_and!; [done|done|lia].
Qed.
End kernel.
