(* ===== verification/VmCopy.v ===== *)
(** * VmCopy: [copyout], [copyin] and [copyinstr] against lazily zeroed memory

    [umem] is the user memory a page table gives, where a page that is not
    mapped yet reads as zero.  Page faults taken inside the kernel do not
    change it; [copyout] writes its bytes to it and [copyin] returns its
    bytes. *)

From S2P Require Import Prelude Riscv CString Kalloc Vm PageTable VmWalk VmMap VmUnmap VmAlloc VmUser.

Definition umem (m : mem) (root x : Z) : byte :=
  match pt_lookup m root x with
  | Some v => mget m (PTE2PA v + x mod PGSIZE)
  | None => chr 0
  end.

Section copy.
Context `{KernelLayout}.

(** The trapframe and trampoline pages are not accessible to the user. *)
Definition guarded (m : mem) (root : Z) : Prop :=
  forall va v, TRAPFRAME <= va < MAXVA -> pt_lookup m root va = Some v -> Z.land v PTE_U = 0.

(** The user memory of every table became [f]; mapped pages stay mapped. *)
Record uspec (users : gset Z) (own own' : gmap Z usage) (fl' : list Z) (s s' : kmem)
  (f : Z -> Z -> byte) : Prop := {
  us_inv : vm_inv users own' fl' s';
  us_own : own ⊆ own';
  us_lk : forall r va v, r ∈ users -> 0 <= va < MAXVA ->
    pt_lookup (k_mem s) r va = Some v -> pt_lookup (k_mem s') r va = Some v;
  us_high : forall r va, r ∈ users -> TRAPFRAME <= va < MAXVA ->
    pt_lookup (k_mem s') r va = pt_lookup (k_mem s) r va;
  us_mem : forall r va, r ∈ users -> 0 <= va < TRAPFRAME -> umem (k_mem s') r va = f r va
}.

Lemma uspec_refl users own fl s :
  vm_inv users own fl s -> uspec users own own fl s s (umem (k_mem s)).
Proof. intros I. by split. Qed.

Lemma uspec_trans users own1 own2 own3 fl2 fl3 s1 s2 s3 f g h :
  uspec users own1 own2 fl2 s1 s2 f -> uspec users own2 own3 fl3 s2 s3 g ->
  (forall r va, r ∈ users -> 0 <= va < TRAPFRAME ->
     (forall r va, r ∈ users -> 0 <= va < TRAPFRAME -> umem (k_mem s2) r va = f r va) ->
     g r va = h r va) ->
  uspec users own1 own3 fl3 s1 s3 h.
Proof.
  intros [I2 O2 L2 H2 M2] [I3 O3 L3 H3 M3] Hf. split.
  - done.
  - by etrans.
  - auto.
  - intros r va Hr Hva. by rewrite H3, H2.
  - intros r va Hr Hva. rewrite M3 by done. auto.
Qed.

Lemma uspec_guarded users own own' fl' s s' f root :
  uspec users own own' fl' s s' f -> root ∈ users ->
  guarded (k_mem s) root -> guarded (k_mem s') root.
Proof.
  intros U Hr Hg va v Hva. rewrite (us_high _ _ _ _ _ _ _ U) by done. by apply Hg.
Qed.

Lemma trapframe_page va : 0 <= va < TRAPFRAME -> va / 4096 < user_pages /\ 0 <= va < MAXVA.
Proof.
  change TRAPFRAME with (2 ^ 38 - 8192). change user_pages with (2 ^ 26 - 2).
  change MAXVA with (2 ^ 38). intros Hva. split; [apply Z.div_lt_upper_bound|]; lia.
Qed.

(** Granting zeroed pages where nothing was mapped does not show. *)
Lemma granted_uspec root w users own own' fl fl' s s' :
  vm_inv users own fl s -> root ∈ users ->
  granted root w users own own' fl fl' s s' ->
  (forall vpn perm c, w vpn = Some (perm, c) -> vpn < user_pages /\ c = zero_page) ->
  (forall va, 0 <= va < TRAPFRAME -> is_Some (w (va / 4096)) -> pt_lookup (k_mem s) root va = None) ->
  uspec users own own' fl' s s' (umem (k_mem s)).
Proof.
  intros I Hu G Hw Hun. assert (Hroot := vi_root _ _ _ _ I).
  assert (Hpg : forall va, 0 <= va < MAXVA -> is_Some (w (va / 4096)) -> 0 <= va < TRAPFRAME).
  { intros va Hva [[perm c] E]. destruct (Hw _ _ _ E) as [Hlt _].
    destruct (user_page_range va); [lia|done|lia]. }
  assert (L := gt_lk _ _ _ _ _ _ _ _ _ G). split; try apply G.
  - intros r va v Hr Hva E. specialize (L r va (Hroot _ Hr) Hva). case_decide as Er; [subst r|by rewrite L].
    destruct (w (va / 4096)) as [[perm c]|] eqn:Ew; [|by rewrite L].
    rewrite Hun in E; [done| |by exists (perm, c)]. apply Hpg; [done|by exists (perm, c)].
  - intros r va Hr Hva. change TRAPFRAME with (2 ^ 38 - 8192) in *.
    assert (Hva' : 0 <= va < MAXVA) by lia. specialize (L r va (Hroot _ Hr) Hva').
    case_decide as Er; [subst r|done]. destruct (w (va / 4096)) as [[perm c]|] eqn:Ew; [|done].
    assert (0 <= va < 2 ^ 38 - 8192) by (apply Hpg; [done|by exists (perm, c)]). lia.
  - intros r va Hr Hva. destruct (trapframe_page va Hva) as [Hlt Hva'].
    specialize (L r va (Hroot _ Hr) Hva'). unfold umem.
    assert (Hsame : pt_lookup (k_mem s') r va = pt_lookup (k_mem s) r va ->
      match pt_lookup (k_mem s') r va with
      | Some v => mget (k_mem s') (PTE2PA v + va mod PGSIZE) | None => chr 0 end =
      match pt_lookup (k_mem s) r va with
      | Some v => mget (k_mem s) (PTE2PA v + va mod PGSIZE) | None => chr 0 end).
    { intros ->. destruct (pt_lookup (k_mem s) r va) as [v|] eqn:E; [|done].
      eapply granted_page; [exact I|exact G| |by apply Z.mod_pos_bound].
      apply (mapped_owned users own fl s r va v); done || lia. }
    case_decide as Er; [subst r|auto]. destruct (w (va / 4096)) as [[perm c]|] eqn:Ew; [|auto].
    destruct L as (v & -> & _ & _ & _ & Hc). rewrite Hun; [|done|by exists (perm, c)].
    destruct (Hw _ _ _ Ew) as [_ ->]. apply Hc. by apply Z.mod_pos_bound.
Qed.

(** Writing inside one user page. *)
Lemma put_uspec users own fl s root v dst l :
  vm_inv users own fl s -> root ∈ users -> 0 <= dst < TRAPFRAME ->
  pt_lookup (k_mem s) root dst = Some v -> dst mod 4096 + Z.of_nat (length l) <= 4096 ->
  uspec users own own fl s (set_mem (mwrite (k_mem s) (PTE2PA v + dst mod 4096) l) s)
    (fun r x => if decide (r = root /\ dst <= x < dst + Z.of_nat (length l))
                then l !!! Z.to_nat (x - dst) else umem (k_mem s) r x).
Proof.
  intros I Hu Hdst Hlk Hlen. destruct (trapframe_page dst Hdst) as [Hlt Hmax].
  assert (Hpa := mapped_owned users own fl s root dst v I Hu ltac:(lia) Hlt Hlk).
  set (pa := PTE2PA v) in *. assert (Hok := vi_ok _ _ _ _ I _ _ Hpa).
  pose proof (Z.mod_pos_bound dst 4096 ltac:(lia)).
  set (m' := mwrite (k_mem s) (pa + dst mod 4096) l).
  assert (Hs : same_but pa (k_mem s) m').
  { intros x Hx. apply mget_mwrite_out. unfold PGSIZE in Hx. lia. }
  assert (Hw : forall q r k pre i, own !! q = Some (PT r k pre) -> 0 <= i < 512 ->
    load64 m' (q + 8 * i) = load64 (k_mem s) (q + 8 * i)).
  { intros q r k pre i. apply (pt_frame users own fl s pa); try done. by rewrite Hpa. }
  assert (L : forall r va, r ∈ users -> 0 <= va < MAXVA ->
    pt_lookup m' r va = pt_lookup (k_mem s) r va).
  { intros r va Hr Hva. apply (lk_frame I m' r); [done|]. rewrite prefix_root by done.
    by apply (vi_root _ _ _ _ I). }
  assert (Hnin : pa ∉ fl) by (intros Hin; by rewrite (vi_free _ _ _ _ I _ Hin) in Hpa).
  split; simpl.
  - eapply vm_inv_frame; [exact I| |apply I|done].
    apply (fill_kmem s fl pa); [apply I|done|done|done].
  - done.
  - intros r va v' Hr Hva. by rewrite L.
  - intros r va Hr Hva. change TRAPFRAME with (2 ^ 38 - 8192) in Hva. rewrite L; done || lia.
  - intros r va Hr Hva. destruct (trapframe_page va Hva) as [Hlt' Hmax']. unfold umem.
    rewrite L by done. fold m'.
    destruct (decide (r = root /\ va / 4096 = dst / 4096)) as [[-> Ep]|Hne].
    + rewrite (pt_lookup_page _ _ va dst Ep), Hlk. fold pa. unfold PGSIZE.
      pose proof (Z.div_mod va 4096). pose proof (Z.div_mod dst 4096).
      case_decide as Hc.
      * destruct (lookup_lt_is_Some_2 l (Z.to_nat (va - dst)) ltac:(lia)) as [b Hb].
        rewrite (list_lookup_total_correct _ _ _ Hb). unfold m'.
        replace (pa + va mod 4096) with (pa + dst mod 4096 + Z.of_nat (Z.to_nat (va - dst))) by lia.
        by apply mget_mwrite_in.
      * apply mget_mwrite_out. assert (va < dst \/ dst + Z.of_nat (length l) <= va) by tauto || lia. lia.
    + rewrite decide_False.
      2:{ intros [-> Hx]. apply Hne. split; [done|]. pose proof (Z.div_mod va 4096).
          pose proof (Z.div_mod dst 4096). pose proof (Z.mod_pos_bound va 4096). lia. }
      destruct (pt_lookup (k_mem s) r va) as [v'|] eqn:E; [|done]. apply Hs.
      assert (Hpa' := mapped_owned users own fl s r va v' I Hr ltac:(lia) Hlt' E).
      assert (Hd : PTE2PA v' <> pa) by (intros Ee; rewrite Ee in Hpa'; apply Hne; split; congruence).
      pose proof (page_disjoint _ _ (vi_ok _ _ _ _ I _ _ Hpa') Hok Hd).
      pose proof (Z.mod_pos_bound va 4096). unfold PGSIZE in *. lia.
Qed.

(** ** Address resolution *)

(** The physical page [walkaddr] finds, 0 when the user may not access it. *)
Definition user_pa (m : mem) (root va : Z) : Z :=
  match pt_lookup m root va with
  | Some v => if Z.land v PTE_U =? 0 then 0 else PTE2PA v
  | None => 0
  end.

Lemma walkaddr_done users own fl s root va t :
  vm_inv users own fl s -> root ∈ users -> 0 <= va ->
  walkaddr root va t s = Done (if MAXVA <=? va then 0 else user_pa (k_mem s) root va) t s.
Proof.
  intros I Hu Hva. unfold walkaddr. destruct (Z.leb_spec MAXVA va); [done|].
  rewrite (bind_done _ _ _ _ _ _ _ (walk_false root va t s ltac:(lia))).
  assert (Hp : own !! root = Some (PT root 2 (prefix_of 2 va)))
    by (rewrite prefix_root by lia; by apply (vi_root _ _ _ _ I)).
  pose proof (lk_wk I root 2 root va Hp) as Hlk. fold (pt_lookup (k_mem s) root va) in Hlk.
  unfold user_pa. rewrite Hlk. destruct (wk (k_mem s) 2 root va =? 0); [done|].
  unfold ld64, gets, mbind, M_bind, mret, M_ret, nz. cbn [obind].
  generalize (load64 (k_mem s) (wk (k_mem s) 2 root va)) as v. intros v.
  destruct (Z.land v PTE_V =? 0); cbn [negb]; [done|]. by destruct (Z.land v PTE_U =? 0).
Qed.

Lemma user_pa_range users own fl s root va :
  vm_inv users own fl s -> root ∈ users -> guarded (k_mem s) root -> 0 <= va < MAXVA ->
  user_pa (k_mem s) root va <> 0 <->
  va < TRAPFRAME /\ exists v, pt_lookup (k_mem s) root va = Some v /\ Z.land v PTE_U <> 0.
Proof.
  intros I Hu Hg Hva. unfold user_pa. destruct (pt_lookup (k_mem s) root va) as [v|] eqn:E; [|naive_solver].
  destruct (Z.eqb_spec (Z.land v PTE_U) 0) as [E0|E0]; [naive_solver|].
  assert (Hlt : va < TRAPFRAME).
  { apply Z.nle_gt. intros Hle. apply E0, (Hg va); [lia|done]. }
  split; [by eauto|]. intros _. destruct (trapframe_page va ltac:(lia)) as [Hpg _].
  pose proof (mapped_owned users own fl s root va v I Hu ltac:(lia) Hpg E) as Ho.
  pose proof (page_ok_range _ (vi_ok _ _ _ _ I _ _ Ho)). lia.
Qed.

Lemma resolve_wp users own fl s p va t :
  vm_inv users own fl s -> up_pagetable p ∈ users -> kmem_lock ∉ t_held t -> 0 <= va ->
  up_sz p <= TRAPFRAME -> guarded (k_mem s) (up_pagetable p) ->
  wp (resolve p (up_pagetable p) va) (fun r t' s' => t' = t /\ exists own' fl',
    uspec users own own' fl' s s' (umem (k_mem s)) /\
    (r = 0 /\ (va < MAXVA -> user_pa (k_mem s) (up_pagetable p) va = 0) \/
     r <> 0 /\ va < TRAPFRAME /\
     exists v, pt_lookup (k_mem s') (up_pagetable p) va = Some v /\ PTE2PA v = r)) t s.
Proof.
  intros I Hu Hl Hva Hsz Hg. set (root := up_pagetable p) in *. unfold resolve. wp_step.
  eapply wp_done; [by eapply walkaddr_done|].
  destruct (Z.eqb_spec (if MAXVA <=? va then 0 else user_pa (k_mem s) root va) 0) as [E0|E0].
  - eapply wp_mono; [by apply (vmfault_wp users own fl s p va t)|]. fold root.
    intros r t' s' (-> & own' & fl' & [[-> G]|(Hr & Hlt & Hm & G & Hv)]); (split; [done|]);
      exists own', fl'.
    + split; [|left; split; [done|]].
      * eapply granted_uspec; [exact I|exact Hu|exact G|done|]. by intros ? ? [? ?].
      * intros Hlt. by rewrite (proj2 (Z.leb_gt _ _)) in E0 by lia.
    + assert (Hlt' : va < TRAPFRAME) by lia. destruct (trapframe_page va ltac:(lia)) as [Hpg _].
      split; [|right; by split_and!]. eapply granted_uspec; [exact I|exact Hu|exact G|..].
      * intros vpn perm c. unfold one_page. case_decide; [|done]. intros [= <- <-]. by subst.
      * intros va' Hva'. unfold one_page. case_decide as E; [|by intros [? ?]]. intros _.
        rewrite (pt_lookup_page _ _ va' va E). unfold mapped in Hm. by case_match.
  - wp_steps. split; [done|]. exists own, fl. split; [by apply uspec_refl|right].
    destruct (Z.leb_spec MAXVA va); [done|].
    destruct (proj1 (user_pa_range users own fl s root va I Hu Hg ltac:(lia)) E0) as (Hlt & v & E & HU).
    split_and!; try done. exists v. split; [done|]. unfold user_pa. rewrite E.
    by rewrite (proj2 (Z.eqb_neq _ _) HU).
Qed.

(** ** copyout *)

(** The user may write the byte at [x]. *)
Definition writable (m : mem) (root x : Z) : Prop :=
  0 <= x < MAXVA /\ exists v, pt_lookup m root x = Some v /\ Z.land v PTE_U <> 0 /\ Z.land v PTE_W <> 0.

Lemma uspec_writable users own own' fl' s s' f root x :
  uspec users own own' fl' s s' f -> root ∈ users ->
  writable (k_mem s) root x -> writable (k_mem s') root x.
Proof.
  intros U Hr (Hx & v & E & HU & HW). split; [done|]. exists v. split; [|done].
  by apply (us_lk _ _ _ _ _ _ _ U).
Qed.

Lemma walk_mapped users own fl s root va v t :
  vm_inv users own fl s -> root ∈ users -> 0 <= va < MAXVA -> pt_lookup (k_mem s) root va = Some v ->
  exists pte, walk root va false t s = Done pte t s /\ (pte =? 0) = false /\ load64 (k_mem s) pte = v.
Proof.
  intros I Hu Hva E. exists (wk (k_mem s) 2 root va). split; [by apply walk_false; lia|].
  assert (Hp : own !! root = Some (PT root 2 (prefix_of 2 va)))
    by (rewrite prefix_root by lia; by apply (vi_root _ _ _ _ I)).
  pose proof (lk_wk I root 2 root va Hp) as Hlk. fold (pt_lookup (k_mem s) root va) in Hlk.
  rewrite E in Hlk. destruct (wk (k_mem s) 2 root va =? 0); [done|]. case_match; [|done].
  apply (inj Some) in Hlk. done.
Qed.

(** What a copy of [src] to [dst] that stopped after [d] bytes leaves. *)
Definition written (m : mem) (root dst : Z) (src : list byte) (d r x : Z) : byte :=
  if decide (r = root /\ dst <= x < dst + d) then src !!! Z.to_nat (x - dst) else umem m r x.

Lemma written_none m root dst src r x : written m root dst src 0 r x = umem m r x.
Proof. unfold written. by rewrite decide_False by lia. Qed.

(** A copy of [n] bytes followed by a copy of [d] more from [dst']. *)
Lemma written_app m m1 root dst dst' src n d r x :
  0 <= n <= Z.of_nat (length src) -> 0 <= d -> (dst' = dst + n \/ d = 0) ->
  umem m1 r x = (if decide (r = root /\ dst <= x < dst + Z.of_nat (length (take (Z.to_nat n) src)))
    then take (Z.to_nat n) src !!! Z.to_nat (x - dst) else umem m r x) ->
  written m1 root dst' (drop (Z.to_nat n) src) d r x = written m root dst src (n + d) r x.
Proof.
  intros Hn Hd Hdst E. unfold written. rewrite E, length_take.
  replace (Z.of_nat (Z.to_nat n `min` length src)) with n by lia.
  destruct (decide (r = root /\ dst' <= x < dst' + d)) as [[-> Hc]|Hc].
  - assert (dst' = dst + n) as -> by lia. rewrite decide_True by lia.
    rewrite lookup_total_drop. f_equal. lia.
  - destruct (decide (r = root /\ dst <= x < dst + n)) as [[-> Hc']|Hc'].
    + rewrite decide_True by lia. apply lookup_total_take_lt. lia.
    + rewrite decide_False; [done|]. lia.
Qed.

Section copyout.
Context (users : gset Z) (p : uproc) (t : tctx).
Abbreviation root := (up_pagetable p).
Hypothesis Hu : root ∈ users.
Hypothesis Hl : kmem_lock ∉ t_held t.
Hypothesis Hsz : up_sz p <= TRAPFRAME.

Abbreviation copyout_post own s dst src := (fun (r : Z) t' s' => t' = t /\ exists own' fl' d,
  uspec users own own' fl' s s' (written (k_mem s) root dst src d) /\
  (r = 0 /\ d = Z.of_nat (length src) \/
   r = -1 /\ 0 <= d < Z.of_nat (length src) /\
   exists x, dst <= x < dst + Z.of_nat (length src) /\ ~ writable (k_mem s) root x)).

Lemma copyout_stop own own' fl' s s' dst src :
  uspec users own own' fl' s s' (umem (k_mem s)) -> 0 < Z.of_nat (length src) ->
  ~ writable (k_mem s) root dst ->
  wp (mret (-1)) (copyout_post own s dst src) t s'.
Proof using.
  intros U Hlen Hw. wp_steps. split; [done|]. exists own', fl', 0. split.
  - eapply uspec_trans; [exact U|by apply uspec_refl, U|]. intros r va Hr Hva E.
    by rewrite written_none, E.
  - right. split_and!; try lia. exists dst. split; [lia|done].
Qed.

Lemma copyout_loop_wp fuel : forall own fl s dst src,
  vm_inv users own fl s -> guarded (k_mem s) root -> 0 <= dst ->
  dst mod 4096 + Z.of_nat (length src) + 4096 <= Z.of_nat fuel * 4096 ->
  wp (copyout_loop fuel p root dst src (Z.of_nat (length src))) (copyout_post own s dst src) t s.
Proof using Hu Hl Hsz.
  induction fuel as [|fuel IH]; intros own fl s dst src I Hg Hdst Hfuel;
    pose proof (Z.mod_pos_bound dst 4096 ltac:(lia)) as Hoff; [lia|]. cbn [copyout_loop].
  destruct (Z.ltb_spec 0 (Z.of_nat (length src))) as [Hlen|Hlen].
  2:{ wp_steps. split; [done|]. exists own, fl, 0. split; [|left; lia].
      eapply uspec_trans; [by apply uspec_refl|by apply uspec_refl|]. intros r va Hr Hva _.
      by rewrite written_none. }
  cbv zeta. rewrite PGROUNDDOWN_eq. set (va0 := dst - dst mod 4096).
  assert (Epg : va0 / 4096 = dst / 4096).
  { unfold va0. rewrite <-PGROUNDDOWN_eq. apply PGROUNDDOWN_page. }
  assert (Eva : 0 <= va0 /\ va0 mod 4096 = 0).
  { unfold va0. pose proof (Z.mod_le dst 4096). rewrite <-PGROUNDDOWN_eq at 2.
    split; [lia|apply PGROUNDDOWN_page]. }
  destruct (Z.leb_spec MAXVA va0) as [Hmx|Hmx].
  { apply (copyout_stop own own fl); [by apply uspec_refl|done|]. intros [Hx _]. lia. }
  assert (Hdm : dst < MAXVA).
  { change MAXVA with (2 ^ 38) in *. unfold va0 in Hmx, Eva.
    pose proof (Z.div_mod dst 4096). lia. }
  wp_step. eapply wp_mono; [apply (resolve_wp users own fl s p va0 t); done || lia|].
  intros pa0 t1 s1 (-> & own1 & fl1 & U & [[-> Hz]|(Hpa & Hlt & v & Hv & Ev)]).
  { apply (copyout_stop own own1 fl1); [done|done|]. intros (Hx & v & E & HU & _).
    rewrite (pt_lookup_page _ _ dst va0) in E by done.
    destruct (proj2 (user_pa_range users own fl s root va0 I Hu Hg ltac:(lia))); [|by apply Hz].
    split; [|by exists v]. apply Z.nle_gt. intros Hle. apply HU, (Hg va0); [lia|done]. }
  rewrite (proj2 (Z.eqb_neq pa0 0) Hpa). assert (I1 := us_inv _ _ _ _ _ _ _ U).
  destruct (walk_mapped users own1 fl1 s1 root va0 v t I1 Hu ltac:(lia) Hv) as (pte & Hw & Hne & Hld).
  wp_step. eapply wp_done; [exact Hw|]. rewrite Hne. unfold ld64. wp_steps. rewrite Hld.
  destruct (Z.eqb_spec (Z.land v PTE_W) 0) as [HW|HW].
  { apply (copyout_stop own own1 fl1); [done|done|]. intros (Hx & v' & E & HU & HW').
    rewrite (pt_lookup_page _ _ dst va0) in E by done.
    apply (us_lk _ _ _ _ _ _ _ U) in E; [congruence|done|lia]. }
  set (n := Z.min (PGSIZE - (dst - va0)) (Z.of_nat (length src))).
  replace (dst - va0) with (dst mod 4096) in * by lia.
  assert (Hn : 0 < n <= Z.of_nat (length src)) by (unfold n, PGSIZE; lia).
  assert (Htk : Z.of_nat (length (take (Z.to_nat n) src)) = n) by (rewrite length_take; lia).
  assert (Hdt : dst < TRAPFRAME).
  { change TRAPFRAME with (2 ^ 38 - 8192) in *. unfold va0 in Hlt, Eva.
    pose proof (Z.div_mod dst 4096). lia. }
  rewrite (pt_lookup_page _ _ va0 dst) in Hv by done. rewrite <-Ev.
  pose proof (put_uspec users own1 fl1 s1 root v dst (take (Z.to_nat n) src) I1 Hu ltac:(lia) Hv
    ltac:(unfold n, PGSIZE in *; lia)) as P.
  unfold put_bytes. wp_steps. set (s2 := set_mem _ s1) in *.
  assert (U2 : uspec users own own1 fl1 s s2 (fun r x =>
    if decide (r = root /\ dst <= x < dst + Z.of_nat (length (take (Z.to_nat n) src)))
    then take (Z.to_nat n) src !!! Z.to_nat (x - dst) else umem (k_mem s) r x)).
  { eapply uspec_trans; [exact U|exact P|]. intros r x Hr Hx E. cbv beta. by rewrite E. }
  assert (Hln : Z.of_nat (length src) - n = Z.of_nat (length (drop (Z.to_nat n) src)))
    by (rewrite length_drop; lia).
  rewrite Hln. change MAXVA with (2 ^ 38) in *. unfold u64. rewrite Z.mod_small by (unfold PGSIZE; lia).
  eapply wp_mono; [apply (IH own1 fl1 s2)|].
  - apply P.
  - by eapply uspec_guarded.
  - unfold PGSIZE; lia.
  - rewrite <-Hln. unfold PGSIZE. replace (va0 + 4096) with (va0 + 1 * 4096) by lia.
    rewrite Z.mod_add, (proj2 Eva) by lia. unfold n, PGSIZE. lia.
  - intros r t' s3 (-> & own3 & fl3 & d & U3 & Hr). rewrite <-Hln in Hr.
    split; [done|]. exists own3, fl3, (n + d). split.
    + eapply uspec_trans; [exact U2|exact U3|]. intros r' x Hr' Hx E.
      apply (written_app _ _ root dst); [lia|lia| |by apply E]. unfold n, PGSIZE in *. lia.
    + destruct Hr as [[-> ->]|(-> & Hd & x & Hx & Hw')]; [left; split; [done|lia]|right].
      split_and!; [done|lia|lia|]. exists x. split; [unfold n, PGSIZE in *; lia|].
      intros Hwr. apply Hw'. by eapply uspec_writable.
Qed.
End copyout.

(** ** copyin *)

(** The [n] bytes of user memory from [a]. *)
Definition ubytes (m : mem) (root a n : Z) : list byte := umem m root <$> seqZ a n.

Definition readable (m : mem) (root x : Z) : Prop :=
  0 <= x < MAXVA /\ exists v, pt_lookup m root x = Some v /\ Z.land v PTE_U <> 0.

Lemma uspec_readable users own own' fl' s s' f root x :
  uspec users own own' fl' s s' f -> root ∈ users ->
  readable (k_mem s) root x -> readable (k_mem s') root x.
Proof.
  intros U Hr (Hx & v & E & HU). split; [done|]. exists v. split; [|done].
  by apply (us_lk _ _ _ _ _ _ _ U).
Qed.

Lemma mread_user m root a v n :
  pt_lookup m root a = Some v -> 0 <= n -> a mod 4096 + n <= 4096 ->
  mread m (PTE2PA v + a mod 4096) (Z.to_nat n) = ubytes m root a n.
Proof.
  intros Hv Hn Hle. pose proof (Z.mod_pos_bound a 4096 ltac:(lia)). unfold ubytes.
  apply list_eq. intros i. rewrite list_lookup_fmap.
  destruct (decide (i < Z.to_nat n)%nat) as [Hi|Hi].
  - rewrite lookup_mread, lookup_seqZ_lt by lia. simpl. f_equal. unfold umem.
    pose proof (Z.div_mod a 4096 ltac:(lia)) as Ea.
    assert (Ei : (a + Z.of_nat i) / 4096 = a / 4096)
      by (symmetry; apply (Z.div_unique _ _ _ (a mod 4096 + Z.of_nat i)); lia).
    rewrite (pt_lookup_page _ _ _ a Ei), Hv. f_equal. unfold PGSIZE.
    pose proof (Z.div_mod (a + Z.of_nat i) 4096). lia.
  - rewrite lookup_ge_None_2, lookup_seqZ_ge by (rewrite ?length_mread; lia). done.
Qed.

Lemma ubytes_ext m m' root a n :
  (forall x, a <= x < a + n -> umem m' root x = umem m root x) -> ubytes m' root a n = ubytes m root a n.
Proof.
  intros E. apply list_fmap_ext. intros i x Hx%lookup_seqZ. apply E. lia.
Qed.

Lemma ubytes_app m root a n k : 0 <= n -> 0 <= k ->
  ubytes m root a (n + k) = ubytes m root a n ++ ubytes m root (a + n) k.
Proof. intros. unfold ubytes. by rewrite seqZ_app, fmap_app. Qed.

Lemma length_ubytes m root a n : length (ubytes m root a n) = Z.to_nat n.
Proof. unfold ubytes. by rewrite length_fmap, length_seqZ. Qed.

(** The start of the page of [a], as the copy loops compute it. *)
Lemma page_start a : 0 <= a -> let va0 := PGROUNDDOWN a in
  va0 = a - a mod 4096 /\ 0 <= va0 <= a /\ va0 / 4096 = a / 4096 /\ va0 mod 4096 = 0 /\
  (va0 + PGSIZE) mod 4096 = 0 /\ (va0 < MAXVA -> a < MAXVA) /\ (va0 < TRAPFRAME -> a < TRAPFRAME).
Proof.
  intros Ha va0. destruct (PGROUNDDOWN_page a) as [E1 E2]. fold va0 in E1, E2.
  assert (E : va0 = a - a mod 4096) by apply PGROUNDDOWN_eq.
  pose proof (Z.mod_pos_bound a 4096 ltac:(lia)). pose proof (Z.mod_le a 4096).
  change MAXVA with (2 ^ 38). change TRAPFRAME with (2 ^ 38 - 8192).
  pose proof (Z.div_mod a 4096). pose proof (Z.div_mod va0 4096).
  split_and!; try lia. by apply page_succ.
Qed.

Section copyin.
Context (users : gset Z) (p : uproc) (t : tctx).
Abbreviation root := (up_pagetable p).
Hypothesis Hu : root ∈ users.
Hypothesis Hl : kmem_lock ∉ t_held t.
Hypothesis Hsz : up_sz p <= TRAPFRAME.

Abbreviation copyin_post own s dst src len := (fun (r : Z * list byte) t' s' => t' = t /\
  exists own' fl' d, uspec users own own' fl' s s' (umem (k_mem s)) /\
    r.2 = dst ++ ubytes (k_mem s) root src d /\ (d = 0 \/ src + d <= TRAPFRAME) /\
    (r.1 = 0 /\ d = len \/
     r.1 = -1 /\ 0 <= d < len /\ exists x, src <= x < src + len /\ ~ readable (k_mem s) root x)).

Lemma copyin_loop_wp fuel : forall own fl s dst src len,
  vm_inv users own fl s -> guarded (k_mem s) root -> 0 <= src -> 0 <= len ->
  src mod 4096 + len + 4096 <= Z.of_nat fuel * 4096 ->
  wp (copyin_loop fuel p root dst src len) (copyin_post own s dst src len) t s.
Proof using Hu Hl Hsz.
  induction fuel as [|fuel IH]; intros own fl s dst src len I Hg Hsrc Hlen Hfuel;
    pose proof (Z.mod_pos_bound src 4096 ltac:(lia)) as Hoff; [lia|]. cbn [copyin_loop].
  destruct (Z.ltb_spec 0 len) as [Hpos|Hpos].
  2:{ wp_steps. split; [done|]. exists own, fl, 0. split; [by apply uspec_refl|].
      split_and!; [by rewrite app_nil_r|by left|left; simpl; lia]. }
  cbv zeta. destruct (page_start src Hsrc) as (Eva & Hva & Epg & Eal & Esucc & Hmx & Htf).
  set (va0 := PGROUNDDOWN src) in *.
  wp_step. eapply wp_mono; [apply (resolve_wp users own fl s p va0 t); done || lia|].
  intros pa0 t1 s1 (-> & own1 & fl1 & U & [[-> Hz]|(Hpa & Hlt & v & Hv & Ev)]).
  { wp_steps. split; [done|]. exists own1, fl1, 0. split; [done|].
    split_and!; [by rewrite app_nil_r|by left|right]. split_and!; try done; try lia. exists src. split; [lia|].
    intros (Hx & v & E & HU). rewrite (pt_lookup_page _ _ src va0) in E by done.
    destruct (proj2 (user_pa_range users own fl s root va0 I Hu Hg ltac:(lia))); [|apply Hz; lia].
    split; [|by exists v]. apply Z.nle_gt. intros Hle. apply HU, (Hg va0); [lia|done]. }
  rewrite (proj2 (Z.eqb_neq pa0 0) Hpa). assert (I1 := us_inv _ _ _ _ _ _ _ U).
  set (n := Z.min (PGSIZE - (src - va0)) len).
  replace (src - va0) with (src mod 4096) in * by lia.
  assert (Hn : 0 < n <= len) by (unfold n, PGSIZE; lia).
  rewrite (pt_lookup_page _ _ va0 src) in Hv by done.
  specialize (Htf Hlt). unfold get_bytes. wp_steps. rewrite <-Ev.
  rewrite (mread_user _ root src v n Hv) by (unfold n, PGSIZE in *; lia).
  assert (Eu : forall a d, 0 <= a -> a + d <= TRAPFRAME -> ubytes (k_mem s1) root a d = ubytes (k_mem s) root a d).
  { intros a d Ha Hd. apply ubytes_ext. intros x Hx. apply (us_mem _ _ _ _ _ _ _ U); [done|lia]. }
  assert (Hend : va0 + PGSIZE <= TRAPFRAME).
  { change TRAPFRAME with (2 ^ 38 - 8192) in *. unfold PGSIZE. pose proof (Z.div_mod va0 4096). lia. }
  rewrite Eu by (unfold n, PGSIZE in *; lia).
  change TRAPFRAME with (2 ^ 38 - 8192) in *. unfold u64. rewrite Z.mod_small by (unfold PGSIZE; lia).
  eapply wp_mono; [apply (IH own1 fl1 s1)|].
  - done.
  - by eapply uspec_guarded.
  - unfold PGSIZE; lia.
  - lia.
  - rewrite Esucc. unfold n, PGSIZE. lia.
  - intros [r l] t' s3 (-> & own3 & fl3 & d & U3 & El & Hd & Hr). simpl in *.
    change TRAPFRAME with (2 ^ 38 - 8192) in Hd.
    split; [done|]. exists own3, fl3, (n + d). split_and!.
    + eapply uspec_trans; [exact U|exact U3|]. intros r' x Hr' Hx E. by apply E.
    + rewrite El, <-app_assoc, ubytes_app by lia. do 2 f_equal. destruct Hd as [->|Hd]; [done|].
      destruct (decide (d = 0)) as [->|Hd0]; [done|].
      replace (src + n) with (va0 + PGSIZE) by (unfold n, PGSIZE in *; lia).
      apply Eu; unfold PGSIZE in *; lia.
    + right. unfold n, PGSIZE in *. lia.
    + destruct Hr as [[-> ->]|(-> & Hd' & x & Hx & Hw')]; [left; split; [done|lia]|right].
      split_and!; [done|lia|lia|]. exists x. split; [unfold n, PGSIZE in *; lia|].
      intros Hwr. apply Hw'. by eapply uspec_readable.
Qed.
End copyin.

(** ** copyinstr *)

(** No NUL among the first [d] bytes. *)
Definition no_nul (m : mem) (root src d : Z) : Prop :=
  forall x, src <= x < src + d -> umem m root x <> chr 0.

Lemma cv_zero b : cv b = 0 <-> b = chr 0.
Proof.
  split; [|by intros ->]. intros E. rewrite <-(byte.of_Z_unsigned b), E. done.
Qed.

Lemma copyinstr_scan_spec l : forall dst,
  (exists k, l !! k = Some (chr 0) /\ (forall i b, (i < k)%nat -> l !! i = Some b -> b <> chr 0) /\
     copyinstr_scan l dst = (dst ++ take (S k) l, true)) \/
  ((forall i b, l !! i = Some b -> b <> chr 0) /\ copyinstr_scan l dst = (dst ++ l, false)).
Proof.
  induction l as [|b l IH]; intros dst; simpl.
  { right. split; [done|by rewrite app_nil_r]. }
  destruct (Z.eqb_spec (cv b) 0) as [E|E].
  - left. exists 0%nat. apply cv_zero in E as ->. split_and!; [done|lia|done].
  - assert (Hb : b <> chr 0) by (by rewrite <-cv_zero).
    destruct (IH (dst ++ [b])) as [(k & Hk & Hlt & ->)|(Hall & ->)].
    + left. exists (S k). rewrite <-app_assoc. split_and!; [done| |done].
      intros [|i] b' Hi Hb'; simplify_eq/=; [done|]. eapply Hlt; [|done]. lia.
    + right. rewrite <-app_assoc. split; [|done]. intros [|i] b' Hb'; simplify_eq/=; eauto.
Qed.

Section copyinstr.
Context (users : gset Z) (own : gmap Z usage) (fl : list Z) (s : kmem) (root : Z) (t : tctx).
Hypothesis I : vm_inv users own fl s.
Hypothesis Hu : root ∈ users.
Hypothesis Hg : guarded (k_mem s) root.

(** The string up to and including its NUL, or the [d] bytes read before failing. *)
Definition copyinstr_post (dst : list byte) (src max : Z) (r : Z * list byte) : Prop :=
  exists d, 0 <= d <= max /\ no_nul (k_mem s) root src d /\
    (r.1 = 0 /\ d < max /\ umem (k_mem s) root (src + d) = chr 0 /\
       readable (k_mem s) root (src + d) /\ r.2 = dst ++ ubytes (k_mem s) root src (d + 1) \/
     r.1 = -1 /\ r.2 = dst ++ ubytes (k_mem s) root src d /\
       (d = max \/ ~ readable (k_mem s) root (src + d))).

Lemma copyinstr_loop_done fuel : forall dst src max,
  0 <= src -> 0 <= max -> src mod 4096 + max + 4096 <= Z.of_nat fuel * 4096 ->
  exists r, copyinstr_loop fuel root dst src max t s = Done r t s /\ copyinstr_post dst src max r.
Proof using I Hu Hg.
  induction fuel as [|fuel IH]; intros dst src max Hsrc Hmax Hfuel;
    pose proof (Z.mod_pos_bound src 4096 ltac:(lia)) as Hoff; [lia|]. cbn [copyinstr_loop].
  destruct (Z.ltb_spec 0 max) as [Hpos|Hpos].
  2:{ eexists. split; [done|]. exists 0. split_and!; [lia|lia|intros x; lia|right].
      simpl. rewrite app_nil_r. split_and!; [done|done|left; lia]. }
  cbv zeta. destruct (page_start src Hsrc) as (Eva & Hva & Epg & Eal & Esucc & Hmx & Htf).
  set (va0 := PGROUNDDOWN src) in *.
  erewrite bind_done by (eapply walkaddr_done; [exact I|done|lia]).
  set (pa0 := if MAXVA <=? va0 then 0 else user_pa (k_mem s) root va0).
  destruct (Z.eqb_spec pa0 0) as [E0|E0].
  { eexists. split; [done|]. exists 0. split_and!; [lia|lia|intros x; lia|right].
    simpl. rewrite app_nil_r. split_and!; [done|done|right]. rewrite Z.add_0_r.
    intros (Hx & v & E & HU). rewrite (pt_lookup_page _ _ src va0) in E by done.
    unfold pa0 in E0. rewrite (proj2 (Z.leb_gt _ _)) in E0 by lia.
    destruct (proj2 (user_pa_range users own fl s root va0 I Hu Hg ltac:(lia))); [|done].
    split; [|by exists v]. apply Z.nle_gt. intros Hle. apply HU, (Hg va0); [lia|done]. }
  assert (Hlt : va0 < MAXVA) by (unfold pa0 in E0; destruct (Z.leb_spec MAXVA va0); [done|lia]).
  assert (Epa : pa0 = user_pa (k_mem s) root va0)
    by (unfold pa0; by rewrite (proj2 (Z.leb_gt _ _)) by lia).
  rewrite Epa in E0.
  destruct (proj1 (user_pa_range users own fl s root va0 I Hu Hg ltac:(lia)) E0) as (Hlt' & v & E & HU).
  assert (Epv : pa0 = PTE2PA v).
  { rewrite Epa. unfold user_pa. rewrite E. by rewrite (proj2 (Z.eqb_neq _ _) HU). }
  rewrite (pt_lookup_page _ _ va0 src) in E by done.
  set (n := Z.min (PGSIZE - (src - va0)) max).
  replace (src - va0) with (src mod 4096) in * by lia.
  assert (Hn : 0 < n <= max) by (unfold n, PGSIZE; lia).
  unfold get_bytes. erewrite bind_done by done. cbv beta. rewrite Epv.
  rewrite (mread_user _ root src v n E) by (unfold n, PGSIZE in *; lia).
  assert (Hnth : forall i, 0 <= i < n -> ubytes (k_mem s) root src n !! Z.to_nat i = Some (umem (k_mem s) root (src + i))).
  { intros i Hi. unfold ubytes. rewrite list_lookup_fmap, lookup_seqZ_lt by lia. simpl. do 2 f_equal. lia. }
  assert (Hrd : forall i, 0 <= i < n -> readable (k_mem s) root (src + i)).
  { intros i Hi. split; [change TRAPFRAME with (2 ^ 38 - 8192) in *; change MAXVA with (2 ^ 38) in *;
      unfold n, PGSIZE in *; pose proof (Z.div_mod va0 4096); lia|].
    exists v. split; [|done]. rewrite <-E. apply pt_lookup_page.
    symmetry. apply (Z.div_unique _ _ _ (src mod 4096 + i));
      unfold n, PGSIZE in *; pose proof (Z.div_mod src 4096); lia. }
  destruct (copyinstr_scan_spec (ubytes (k_mem s) root src n) dst) as [(k & Hk & Hbefore & ->)|(Hall & ->)].
  - assert (Hkn : (k < Z.to_nat n)%nat).
    { apply lookup_lt_Some in Hk. by rewrite length_ubytes in Hk. }
    eexists. split; [done|]. exists (Z.of_nat k). split_and!; [lia|lia| |left].
    + intros x Hx. eapply (Hbefore (Z.to_nat (x - src))); [lia|]. rewrite Hnth by lia. do 2 f_equal. lia.
    + simpl. split_and!; [done|lia| |apply Hrd; lia|].
      * rewrite <-(Nat2Z.id k), Hnth in Hk by lia. by injection Hk.
      * f_equal. replace n with ((Z.of_nat k + 1) + (n - (Z.of_nat k + 1))) by lia.
        rewrite ubytes_app, take_app_length'; [done| |lia|lia]. rewrite length_ubytes. lia.
  - assert (Hnn : no_nul (k_mem s) root src n).
    { intros x Hx. apply (Hall (Z.to_nat (x - src))). rewrite Hnth by lia. do 2 f_equal. lia. }
    change MAXVA with (2 ^ 38) in Hlt. unfold u64. rewrite Z.mod_small by (unfold PGSIZE; lia).
    destruct (IH (dst ++ ubytes (k_mem s) root src n) (va0 + PGSIZE) (max - n)) as (r & Er & d & Hd & Hdn & Hr).
    + unfold PGSIZE; lia.
    + lia.
    + rewrite Esucc. unfold n, PGSIZE. lia.
    + exists r. split; [done|]. exists (n + d).
      assert (Hcase : d = 0 /\ n = max \/ va0 + PGSIZE = src + n) by (unfold n, PGSIZE in *; lia).
      destruct Hcase as [[-> Hnm]|En].
      { split_and!; [lia|lia|by rewrite Z.add_0_r|]. destruct Hr as [(_ & ? & _)|(E1 & E2 & _)]; [lia|right].
        rewrite Z.add_0_r. split_and!; [done| |by left]. rewrite E2. unfold ubytes at 2. by rewrite app_nil_r. }
      rewrite En, <-Z.add_assoc in Hr. split_and!; [lia|lia| |].
      * intros x Hx. destruct (decide (x < src + n)); [apply Hnn; lia|apply Hdn; lia].
      * rewrite <-Z.add_assoc, !ubytes_app, !app_assoc by lia.
        destruct Hr as [(E1 & E2 & E3 & E4 & E5)|(E1 & E2 & E3)]; [left|right].
        -- rewrite ubytes_app, app_assoc in E5 by lia. split_and!; try done. lia.
        -- split_and!; [done|done|]. destruct E3; [left; lia|by right].
Qed.
End copyinstr.

(** The whole of [copyout] and [copyin]. *)
Lemma copyout_wp users own fl s t p dst src :
  vm_inv users own fl s -> up_pagetable p ∈ users -> kmem_lock ∉ t_held t ->
  up_sz p <= TRAPFRAME -> guarded (k_mem s) (up_pagetable p) -> 0 <= dst ->
  let root := up_pagetable p in
  let len := Z.of_nat (length src) in
  wp (copyout p root dst src len) (fun r t' s' => t' = t /\ exists own' fl' d,
    uspec users own own' fl' s s' (written (k_mem s) root dst src d) /\
    (r = 0 /\ d = len \/
     r = -1 /\ 0 <= d < len /\
     exists x, dst <= x < dst + len /\ ~ writable (k_mem s) root x)) t s.
Proof.
  intros I Hu Hl Hsz Hg Hdst. cbv zeta. apply (copyout_loop_wp users p t Hu Hl Hsz _ own fl); try done.
  pose proof (Z.mod_pos_bound dst 4096 ltac:(lia)). unfold PGSIZE.
  pose proof (Z.div_mod (Z.of_nat (length src)) 4096).
  pose proof (Z.mod_pos_bound (Z.of_nat (length src)) 4096). lia.
Qed.

Lemma copyin_wp users own fl s t p src len :
  vm_inv users own fl s -> up_pagetable p ∈ users -> kmem_lock ∉ t_held t ->
  up_sz p <= TRAPFRAME -> guarded (k_mem s) (up_pagetable p) -> 0 <= src -> 0 <= len ->
  let root := up_pagetable p in
  wp (copyin p root src len) (fun r t' s' => t' = t /\ exists own' fl' d,
    uspec users own own' fl' s s' (umem (k_mem s)) /\ r.2 = ubytes (k_mem s) root src d /\
    (r.1 = 0 /\ d = len \/
     r.1 = -1 /\ 0 <= d < len /\ exists x, src <= x < src + len /\ ~ readable (k_mem s) root x)) t s.
Proof.
  intros I Hu Hl Hsz Hg Hsrc Hlen. cbv zeta. unfold copyin. eapply wp_mono.
  - apply (copyin_loop_wp users p t Hu Hl Hsz _ own fl); try done.
    pose proof (Z.mod_pos_bound src 4096 ltac:(lia)). unfold PGSIZE.
    pose proof (Z.div_mod len 4096). pose proof (Z.mod_pos_bound len 4096). lia.
  - intros r t' s' (-> & own' & fl' & d & U & El & _ & Hr). split; [done|]. by exists own', fl', d.
Qed.
End copy.
