(* ===== verification/VmFree.v ===== *)
(** * VmFree: making and freeing page tables

    [uvmcreate] makes an empty table.  [freewalk] gives the pages of a table
    that maps nothing any more back to the allocator, and [uvmfree] gives back
    the whole address space. *)

From S2P Require Import Prelude Riscv CString Kalloc Vm PageTable VmWalk VmMap VmUnmap VmAlloc VmUser.

(** ** Building a table *)

Section build.
Context `{KernelLayout}.

Lemma vm_inv_empty fl s : kmem_inv s fl -> vm_inv ∅ ∅ fl s.
Proof.
  intros K. split; try done; intros; by rewrite lookup_empty in *.
Qed.

(** A zeroed page becomes the root of an empty table. *)
Lemma vm_inv_add_root users own fl s r :
  vm_inv users own fl s -> page_ok r -> own !! r = None -> r ∉ fl ->
  (forall i, 0 <= i < 512 -> load64 (k_mem s) (r + 8 * i) = 0) ->
  vm_inv ({[r]} ∪ users) (<[r := PT r 2 0]> own) fl s.
Proof.
  intros I Hok Hn Hfl Hz. split; try apply I.
  - intros p Hp. rewrite lookup_insert_ne by congruence. by apply (vi_free _ _ _ _ I).
  - intros p u. rewrite lookup_insert. case_decide as E; [intros _; by rewrite <-E|].
    by apply (vi_ok _ _ _ _ I).
  - intros r' [->%elem_of_singleton|Hr]%elem_of_union; [apply lookup_insert_eq|].
    pose proof (vi_root _ _ _ _ I r' Hr). rewrite lookup_insert_ne; congruence.
  - intros p root k pre i. rewrite lookup_insert. case_decide as E.
    + intros _ Hi. rewrite <-E, Hz by done. done.
    + intros Hp Hi v HV. destruct (vi_node _ _ _ _ I _ _ _ _ _ Hp Hi HV) as [Ho Hf]. fold v in Ho.
      split; [|done]. rewrite lookup_insert_ne; congruence.
  - intros p root pre i. rewrite lookup_insert. case_decide as E; [done|].
    intros Hp Hu Hi v HV Hr. assert (Hu' : root ∈ users).
    { apply elem_of_union in Hu as [->%elem_of_singleton|]; [|done].
      pose proof (vi_root_of _ _ _ _ _ _ _ _ I Hp). congruence. }
    pose proof (vi_leaf _ _ _ _ I _ _ _ _ Hp Hu' Hi HV Hr) as Ho. fold v in Ho.
    rewrite lookup_insert_ne; congruence.
  - intros p root k pre. rewrite lookup_insert. case_decide as E.
    + intros [= <- <- <-]. by left.
    + intros Hp. destruct (vi_parent _ _ _ _ I _ _ _ _ Hp) as [?|(Hk & pp & Hpp & Hc)]; [by left|right].
      split; [done|]. exists pp. rewrite lookup_insert_ne by congruence. done.
  - intros p root k pre. rewrite lookup_insert. case_decide; [|apply (vi_low _ _ _ _ I)].
    intros [= <- <- <-]. by split.
Qed.
End build.

(** ** The pages of a table *)

Section tree.
Context `{KernelLayout}.

Definition entry (m : mem) (p i : Z) : Z := load64 m (p + 8 * i).
Definition valid (v : Z) : bool := nz (Z.land v PTE_V).

(** The pages below the page [p] of level [k], [p] included. *)
Fixpoint tree (m : mem) (k : nat) (p : Z) : list Z :=
  p :: match k with
       | O => []
       | S k => concat ((fun i => if valid (entry m p i) then tree m k (PTE2PA (entry m p i)) else []) <$> seqZ 0 512)
       end.

(** No leaf entry is valid. *)
Fixpoint dead (m : mem) (k : nat) (p : Z) : Prop :=
  forall i, 0 <= i < 512 -> valid (entry m p i) = true ->
    match k with
    | O => False
    | S k => Z.land (entry m p i) (Z.lor (Z.lor PTE_R PTE_W) PTE_X) = 0 /\ dead m k (PTE2PA (entry m p i))
    end.

Lemma entry_ext m m' p i : 0 <= i < 512 -> (forall x, p <= x < p + PGSIZE -> mget m' x = mget m x) -> entry m' p i = entry m p i.
Proof. intros Hi Hx. apply load_ext. intros x Hr. apply Hx. unfold PGSIZE. simpl in Hr. lia. Qed.

(** What hangs below the entries from [i] on. *)
Definition subtrees (m : mem) (k : nat) (p i : Z) (n : nat) : list Z :=
  concat ((fun i => if valid (entry m p i) then tree m k (PTE2PA (entry m p i)) else []) <$> seqZ i (Z.of_nat n)).

Lemma subtrees_S m k p i n : subtrees m k p i (S n) =
  (if valid (entry m p i) then tree m k (PTE2PA (entry m p i)) else []) ++ subtrees m k p (i + 1) n.
Proof. unfold subtrees. rewrite seqZ_cons by lia. cbn [fmap list_fmap concat]. replace (Z.pred (Z.of_nat (S n))) with (Z.of_nat n) by lia. done. Qed.

Lemma elem_subtrees m k p n : forall i q, q ∈ subtrees m k p i n <->
  exists j, i <= j < i + Z.of_nat n /\ valid (entry m p j) = true /\ q ∈ tree m k (PTE2PA (entry m p j)).
Proof.
  induction n as [|n IH]; intros i q.
  - split; [by intros []%not_elem_of_nil|]. intros (j & Hj & _). lia.
  - rewrite subtrees_S, elem_of_app, IH. split.
    + intros [Hq|(j & Hj & Hv & Hq)]; [|exists j; split_and!; [lia|lia|done|done]].
      destruct (valid (entry m p i)) eqn:Ev; [|by apply not_elem_of_nil in Hq]. exists i. split_and!; [lia|lia|done|done].
    + intros (j & Hj & Hv & Hq). destruct (decide (j = i)) as [->|Hne]; [left; by rewrite Hv|right]. exists j. split_and!; [lia|lia|done|done].
Qed.

Lemma subtrees_ext m m' k p n : forall i, 0 <= i -> i + Z.of_nat n <= 512 ->
  (forall j, i <= j < i + Z.of_nat n -> entry m' p j = entry m p j) ->
  (forall j, i <= j < i + Z.of_nat n -> valid (entry m p j) = true -> tree m' k (PTE2PA (entry m p j)) = tree m k (PTE2PA (entry m p j))) ->
  subtrees m' k p i n = subtrees m k p i n.
Proof.
  induction n as [|n IH]; intros i Hi Hn He Ht; [done|]. rewrite !subtrees_S. rewrite He by lia. f_equal.
  - case_match eqn:Ev; [|done]. apply Ht; [lia|done].
  - apply IH; [lia|lia|intros j Hj; apply He; lia|intros j Hj; apply Ht; lia].
Qed.

Lemma tree_ext m m' k : forall p, (forall q x, q ∈ tree m k p -> q <= x < q + PGSIZE -> mget m' x = mget m x) ->
  tree m' k p = tree m k p /\ (dead m k p -> dead m' k p).
Proof.
  induction k as [|k IH]; intros p Hx; (assert (He : forall i, 0 <= i < 512 -> entry m' p i = entry m p i);
    [intros i Hi; apply entry_ext; [done|]; intros x Hr; by eapply Hx; [apply elem_of_cons; left|]|]).
  - split; [done|]. cbn [dead]. intros Hd i Hi. rewrite He by done. by apply Hd.
  - assert (Hsub : forall j, 0 <= j < 512 -> valid (entry m p j) = true ->
      tree m' k (PTE2PA (entry m p j)) = tree m k (PTE2PA (entry m p j)) /\ (dead m k (PTE2PA (entry m p j)) -> dead m' k (PTE2PA (entry m p j)))).
    { intros j Hj Hv. apply IH. intros q x Hq. apply Hx. cbn [tree]. apply elem_of_cons. right.
      change (q ∈ subtrees m k p 0 512). apply elem_subtrees. exists j. done. }
    split.
    + cbn [tree]. f_equal. change (subtrees m' k p 0 512 = subtrees m k p 0 512). apply subtrees_ext; [lia|lia|intros; apply He; lia|].
      intros j Hj Hv. by apply Hsub.
    + cbn [dead]. intros Hd i Hi. rewrite He by done. intros Hv. destruct (Hd i Hi Hv) as [Hf Hc]. split; [done|]. by apply Hsub.
Qed.
(** The pages [ps] went back to the allocator and nothing else changed. *)
Definition released (ps fl : list Z) (s s' : kmem) : Prop := exists fl', kmem_inv s' fl' /\ fl' ≡ₚ ps ++ fl /\
  forall x, (forall q, q ∈ ps -> x < q \/ q + PGSIZE <= x) -> mget (k_mem s') x = mget (k_mem s) x.

(** Pages that can be released together: none is free and none occurs twice. *)
Definition releasable (ps fl : list Z) : Prop := NoDup (ps ++ fl) /\ Forall page_ok ps.

Lemma releasable_app ps qs fl : releasable (ps ++ qs) fl -> releasable ps fl /\ releasable qs fl /\
  (forall fl', fl' ≡ₚ ps ++ fl -> releasable qs fl') /\ forall p q, p ∈ ps -> q ∈ qs -> p + PGSIZE <= q \/ q + PGSIZE <= p.
Proof.
  intros [Hn Hf]. apply Forall_app in Hf as [Hp Hq]. rewrite <-app_assoc in Hn. apply NoDup_app in Hn as (H1 & H2 & H3). apply NoDup_app in H3 as (H4 & H5 & H6).
  split_and!.
  - split; [|done]. apply NoDup_app. split_and!; [done|set_solver|done].
  - split; [|done]. apply NoDup_app. split_and!; [done|set_solver|done].
  - intros fl' E. split; [|done]. rewrite E. apply NoDup_app. split_and!; [done| |].
    + intros x Hx Hx'. apply elem_of_app in Hx' as [Hx'|Hx']; [|by apply (H5 x)]. apply (H2 x Hx'). set_solver.
    + apply NoDup_app. split_and!; [done|set_solver|done].
  - intros p q Hpp Hqq. rewrite Forall_forall in Hp, Hq. apply page_disjoint; [by apply Hp|by apply Hq|]. intros ->. apply (H2 q Hpp). set_solver.
Qed.

End tree.

(** ** freewalk *)

Section freewalk.
Context `{KernelLayout} (t : tctx).
Hypothesis Hl : kmem_lock ∉ t_held t.

Section loop.
Context (k : nat) (p : Z).
Hypothesis Hsub : forall q fl s, kmem_inv s fl -> releasable (tree (k_mem s) k q) fl -> dead (k_mem s) k q ->
  wp (freewalk (S k) q) (fun _ t' s' => t' = t /\ released (tree (k_mem s) k q) fl s s') t s.

Lemma freewalk_loop_wp n : forall i fl s, 0 <= i -> i + Z.of_nat n = 512 -> kmem_inv s fl -> page_ok p -> p ∉ fl ->
  releasable (subtrees (k_mem s) k p i n) fl -> p ∉ subtrees (k_mem s) k p i n ->
  (forall j, i <= j < 512 -> valid (entry (k_mem s) p j) = true ->
    Z.land (entry (k_mem s) p j) (Z.lor (Z.lor PTE_R PTE_W) PTE_X) = 0 /\ dead (k_mem s) k (PTE2PA (entry (k_mem s) p j))) ->
  wp (freewalk_loop (freewalk (S k)) p i n) (fun _ t' s' => t' = t /\ exists fl', kmem_inv s' fl' /\ fl' ≡ₚ subtrees (k_mem s) k p i n ++ fl /\
    forall x, (forall q, q ∈ p :: subtrees (k_mem s) k p i n -> x < q \/ q + PGSIZE <= x) -> mget (k_mem s') x = mget (k_mem s) x) t s.
Proof using Hl Hsub.
  induction n as [|n IH]; intros i fl s Hi Hn K Hp Hpf Hrel Hpt Hd; cbn [freewalk_loop].
  { wp_steps. split; [done|]. exists fl. split_and!; done. }
  unfold ld64. wp_steps. fold (entry (k_mem s) p i). set (v := entry (k_mem s) p i) in *. fold (valid v). rewrite subtrees_S in *. fold v in Hrel, Hpt.
  destruct (valid v) eqn:Ev.
  2:{ cbn [andb]. wp_steps. cbn [app] in *. fold v. rewrite Ev. cbn [app]. apply IH; try done; try lia. intros j Hj. apply Hd. lia. }
  destruct (Hd i ltac:(lia) Ev) as [Hf Hdc]. fold v in Hf, Hdc. fold v. rewrite Ev, Hf. cbn [andb Z.eqb]. wp_steps.
  destruct (releasable_app _ _ _ Hrel) as (R1 & R2 & R3 & Hdis). eapply wp_mono; [by apply (Hsub (PTE2PA v) fl s K R1)|].
  intros [] t1 s1 (-> & fl1 & K1 & E1 & M1). unfold st64. wp_steps. set (s2 := set_mem _ s1).
  rewrite not_elem_of_app in Hpt. destruct Hpt as [Hpn Hpt].
  assert (Hpfl1 : p ∉ fl1) by (rewrite E1, not_elem_of_app; done).
  assert (Hpg : forall q, q ∈ tree (k_mem s) k (PTE2PA v) -> q + PGSIZE <= p \/ p + PGSIZE <= q).
  { intros q Hq. apply page_disjoint; [|done|congruence]. destruct R1 as [_ R1]. rewrite Forall_forall in R1. by apply R1. }
  assert (Hs2 : forall x, (forall q, q ∈ tree (k_mem s) k (PTE2PA v) -> x < q \/ q + PGSIZE <= x) -> x < p + 8 * i \/ p + 8 * i + 8 <= x -> mget (k_mem s2) x = mget (k_mem s) x).
  { intros x Hx Hw. unfold s2. cbn [set_mem k_mem]. rewrite mget_store_out by (simpl; lia). by apply M1. }
  assert (He : forall j, i + 1 <= j < 512 -> entry (k_mem s2) p j = entry (k_mem s) p j).
  { intros j Hj. apply load_ext. intros x Hx. simpl in Hx. apply Hs2; [|lia]. intros q Hq. destruct (Hpg q Hq); unfold PGSIZE in *; lia. }
  assert (Ht : forall j, i + 1 <= j < 512 -> valid (entry (k_mem s) p j) = true ->
    tree (k_mem s2) k (PTE2PA (entry (k_mem s) p j)) = tree (k_mem s) k (PTE2PA (entry (k_mem s) p j)) /\
    (dead (k_mem s) k (PTE2PA (entry (k_mem s) p j)) -> dead (k_mem s2) k (PTE2PA (entry (k_mem s) p j)))).
  { intros j Hj Hv. apply tree_ext. intros q x Hq Hx.
    assert (Hqs : q ∈ subtrees (k_mem s) k p (i + 1) n) by (apply elem_subtrees; exists j; split_and!; [lia|lia|done|done]).
    assert (Hqp : q + PGSIZE <= p \/ p + PGSIZE <= q).
    { apply page_disjoint; [|done|congruence]. destruct R2 as [_ R2]. rewrite Forall_forall in R2. by apply R2. }
    apply Hs2; [|unfold PGSIZE in *; lia]. intros q' Hq'. destruct (Hdis q' q Hq' Hqs); unfold PGSIZE in *; lia. }
  assert (Esub : subtrees (k_mem s2) k p (i + 1) n = subtrees (k_mem s) k p (i + 1) n).
  { apply subtrees_ext; [lia|lia|intros j Hj; apply He; lia|]. intros j Hj Hv. apply Ht; [lia|done]. }
  assert (K2 : kmem_inv s2 fl1).
  { destruct K1 as [Kc Kn]. split; [|done]. eapply chain_same_but; [exact Kc|exact Hp|done|]. apply same_but_store64; unfold PGSIZE; lia. }
  eapply wp_mono; [apply (IH (i + 1) fl1 s2); try done; try lia|].
  - rewrite Esub. by apply R3.
  - by rewrite Esub.
  - intros j Hj. rewrite He by lia. intros Hv. destruct (Hd j ltac:(lia) Hv) as [Hf' Hd']. split; [done|]. by apply Ht.
  - intros [] t2 s3 (-> & fl3 & K3 & E3 & M3). split; [done|]. exists fl3. rewrite Esub in *. split_and!; [done| |].
    + rewrite E3, E1. rewrite !app_assoc. f_equiv. apply Permutation_app_comm.
    + intros x Hx. rewrite M3 by (intros q Hq; apply Hx; apply elem_of_cons in Hq as [->|Hq]; apply elem_of_cons; [by left|right; apply elem_of_app; by right]).
      apply Hs2.
      * intros q Hq. apply Hx, elem_of_cons. right. apply elem_of_app. by left.
      * destruct (Hx p ltac:(apply elem_of_cons; by left)); unfold PGSIZE in *; lia.
Qed.
End loop.

(** A page of level 0 whose entries are all empty. *)
Lemma freewalk_empty sub p n : forall i s (Q : unit -> tctx -> kmem -> Prop), (forall j, i <= j < i + Z.of_nat n -> valid (entry (k_mem s) p j) = false) ->
  Q tt t s -> wp (freewalk_loop sub p i n) Q t s.
Proof using.
  induction n as [|n IH]; intros i s Q He HQ; cbn [freewalk_loop]; [done|]. unfold ld64. wp_steps. fold (entry (k_mem s) p i) (valid (entry (k_mem s) p i)).
  rewrite He by lia. cbn [andb]. wp_steps. apply IH; [|done]. intros j Hj. apply He. lia.
Qed.

Lemma free_top p ps fl s s1 (fl1 : list Z) : page_ok p -> p ∉ fl1 -> kmem_inv s1 fl1 -> fl1 ≡ₚ ps ++ fl ->
  (forall x, (forall q, q ∈ p :: ps -> x < q \/ q + PGSIZE <= x) -> mget (k_mem s1) x = mget (k_mem s) x) ->
  wp (kfree p) (fun _ t' s' => t' = t /\ released (p :: ps) fl s s') t s1.
Proof using Hl.
  intros Hp Hn K E M. eapply wp_mono; [by apply (kfree_wp t s1 fl1 p)|]. intros [] t' s' (-> & K' & Sb). split; [done|].
  exists (p :: fl1). split_and!; [done|by rewrite E|]. intros x Hx. rewrite Sb by (apply Hx, elem_of_cons; by left). by apply M.
Qed.

Lemma freewalk_wp k : forall p fl s, kmem_inv s fl -> releasable (tree (k_mem s) k p) fl -> dead (k_mem s) k p ->
  wp (freewalk (S k) p) (fun _ t' s' => t' = t /\ released (tree (k_mem s) k p) fl s s') t s.
Proof using Hl.
  induction k as [|k IH]; intros p fl s K [Hn Hf] Hd; cbn [tree] in Hn, Hf; apply Forall_cons in Hf as [Hp Hf]; apply NoDup_cons in Hn as [Hpn Hn].
  - cbn [freewalk]. wp_step. apply freewalk_empty.
    + intros j Hj. destruct (valid _) eqn:Ev; [|done]. exfalso. by apply (Hd j ltac:(lia)).
    + by apply (free_top p [] fl s s fl).
  - change (freewalk (S (S k)) p) with (freewalk_loop (freewalk (S k)) p 0 512;; kfree p). wp_step.
    change (concat _) with (subtrees (k_mem s) k p 0 512) in Hpn, Hn, Hf. rewrite not_elem_of_app in Hpn. destruct Hpn as [Hpt Hpf].
    eapply wp_mono; [apply (freewalk_loop_wp k p IH 512 0 fl s); try done|].
    intros [] t1 s1 (-> & fl1 & K1 & E1 & M1). change (tree (k_mem s) (S k) p) with (p :: subtrees (k_mem s) k p 0 512).
    eapply free_top; [done| |exact K1|exact E1|exact M1]. rewrite E1, not_elem_of_app. done.
Qed.
End freewalk.

(** ** The tree of a table under the invariant *)

Section owned.
Context `{KernelLayout} {users own fl s} (I : vm_inv users own fl s) (root : Z).
Let m := k_mem s.

(** [q] belongs to the part of the table with the prefix [pre] at level [k]. *)
Fixpoint part (k : nat) (pre q : Z) : Prop :=
  own !! q = Some (PT root k pre) \/
  match k with O => False | S k => exists j, 0 <= j < 512 /\ part k (pre * 512 + j) q end.

Lemma part_level k : forall pre q, part k pre q -> exists k' pre', (k' <= k)%nat /\ own !! q = Some (PT root k' pre').
Proof using.
  induction k as [|k IH]; intros pre q Hq; cbn [part] in Hq; destruct Hq as [Hq|Hq]; [by exists O, pre|done|by exists (S k), pre|].
  destruct Hq as (j & _ & Hq). destruct (IH _ _ Hq) as (k' & pre' & Hk & Ho). exists k', pre'. split; [lia|done].
Qed.

Lemma part_inj k : forall pre pre' q, part k pre q -> part k pre' q -> pre = pre'.
Proof using.
  induction k as [|k IH]; intros pre pre' q H1 H2; cbn [part] in H1, H2; destruct H1 as [H1|H1], H2 as [H2|H2]; try done; try congruence.
  - destruct H2 as (j & _ & H2). destruct (part_level _ _ _ H2) as (k' & x & Hk & Ho). rewrite H1 in Ho. injection Ho as Ek _. lia.
  - destruct H1 as (j & _ & H1). destruct (part_level _ _ _ H1) as (k' & x & Hk & Ho). rewrite H2 in Ho. injection Ho as Ek _. lia.
  - destruct H1 as (j1 & ? & H1), H2 as (j2 & ? & H2). pose proof (IH _ _ _ H1 H2). lia.
Qed.

Lemma parent_of k pre j q : 0 <= j < 512 -> own !! q = Some (PT root k (pre * 512 + j)) -> (k < 2)%nat ->
  exists p, own !! p = Some (PT root (S k) pre) /\ valid (entry m p j) = true /\ PTE2PA (entry m p j) = q.
Proof using I.
  intros Hj Hq Hk. destruct (vi_parent _ _ _ _ I _ _ _ _ Hq) as [(-> & _)|(_ & p & Hp & Hv & Hc)]; [lia|].
  rewrite (Z.add_comm _ j), Z.div_add, Z.mod_add, Z.div_small, Z.mod_small in * by lia. by exists p.
Qed.

Lemma part_top k : forall pre q, (k <= 2)%nat -> part k pre q -> exists p, own !! p = Some (PT root k pre).
Proof using I.
  induction k as [|k IH]; intros pre q Hk Hq; cbn [part] in Hq; destruct Hq as [Hq|Hq]; [by exists q|done|by exists q|].
  destruct Hq as (j & Hj & Hq). destruct (IH _ _ ltac:(lia) Hq) as (a & Ha). destruct (parent_of k pre j a Hj Ha ltac:(lia)) as (p & Hp & _). by exists p.
Qed.

Lemma tree_part k : forall p pre q, (k <= 2)%nat -> own !! p = Some (PT root k pre) -> (q ∈ tree m k p <-> part k pre q).
Proof using I.
  induction k as [|k IH]; intros p pre q Hk Hp.
  - cbn [tree part]. rewrite list_elem_of_singleton. split; [intros ->; by left|]. intros [Hq|[]]. by eapply vm_inv_inj.
  - change (tree m (S k) p) with (p :: subtrees m k p 0 512). rewrite elem_of_cons, elem_subtrees. cbn [part]. split.
    + intros [->|(j & Hj & Hv & Hq)]; [by left|right]. exists j. split; [lia|].
      destruct (vi_node _ _ _ _ I p root k pre j Hp ltac:(lia) Hv) as [Ho _]. eapply IH; [lia|exact Ho|exact Hq].
    + intros [Hq|(j & Hj & Hq)]; [left; by eapply vm_inv_inj|right]. destruct (part_top k _ _ ltac:(lia) Hq) as (a & Ha).
      destruct (parent_of k pre j a Hj Ha ltac:(lia)) as (p' & Hp' & Hv & Ea). assert (p' = p) as -> by (by eapply vm_inv_inj).
      exists j. split_and!; [lia|lia|done|]. rewrite Ea. by apply (IH a (pre * 512 + j)); [lia|..].
Qed.

Lemma part_root k pre q : own !! q = Some (PT root k pre) -> part 2 0 q.
Proof using I.
  intros Hq. assert (Hk : (k <= 2)%nat) by (destruct (vi_parent _ _ _ _ I _ _ _ _ Hq) as [(-> & _)|(? & _)]; lia).
  assert (Hup : forall k pre, (k < 2)%nat -> part k pre q -> part (S k) (pre / 512) q).
  { clear k pre Hq Hk. intros k pre Hk Hq. cbn [part]. right. exists (pre mod 512). split; [by apply Z.mod_pos_bound|].
    replace (pre / 512 * 512 + pre mod 512) with pre; [done|]. pose proof (Z.div_mod pre 512). lia. }
  assert (Ht : forall pre, part 2 pre q -> part 2 0 q).
  { intros pre' Hp. destruct (part_top 2 pre' q ltac:(lia) Hp) as (p & Hpp).
    destruct (vi_parent _ _ _ _ I _ _ _ _ Hpp) as [(_ & _ & ->)|(? & _)]; [done|lia]. }
  assert (H0 : part k pre q) by (destruct k; cbn [part]; by left).
  destruct k as [|[|[|k]]]; [|..|lia].
  - eapply Ht, Hup; [lia|]. apply Hup; [lia|done].
  - eapply Ht, Hup; [lia|done].
  - by eapply Ht.
Qed.

Lemma tree_root q : own !! root = Some (PT root 2 0) -> (q ∈ tree m 2 root <-> exists k pre, own !! q = Some (PT root k pre)).
Proof using I.
  intros Hr. rewrite (tree_part 2 root 0 q ltac:(lia) Hr). split.
  - intros Hq. destruct (part_level _ _ _ Hq) as (k & pre & _ & Ho). by exists k, pre.
  - intros (k & pre & Ho). by eapply part_root.
Qed.

Lemma tree_NoDup k : forall p pre, (k <= 2)%nat -> own !! p = Some (PT root k pre) -> NoDup (tree m k p).
Proof using I.
  induction k as [|k IH]; intros p pre Hk Hp; [cbn [tree]; apply NoDup_singleton|].
  change (tree m (S k) p) with (p :: subtrees m k p 0 512).
  assert (Hc : forall j, 0 <= j < 512 -> valid (entry m p j) = true -> own !! PTE2PA (entry m p j) = Some (PT root k (pre * 512 + j))).
  { intros j Hj Hv. apply (vi_node _ _ _ _ I p root k pre j Hp Hj Hv). }
  apply NoDup_cons. split.
  - rewrite elem_subtrees. intros (j & Hj & Hv & Hq). apply (tree_part k _ _ _ ltac:(lia) (Hc j ltac:(lia) Hv)) in Hq.
    destruct (part_level _ _ _ Hq) as (k' & pre' & Hk' & Ho). rewrite Hp in Ho. injection Ho as Ek _. lia.
  - assert (Hgen : forall n i, 0 <= i -> i + Z.of_nat n <= 512 -> NoDup (subtrees m k p i n)); [|by apply Hgen].
    induction n as [|n IHn]; intros i Hi Hn; [constructor|]. rewrite subtrees_S. destruct (valid (entry m p i)) eqn:Ev; [|apply IHn; lia].
    apply NoDup_app. split_and!; [apply (IH _ _ ltac:(lia) (Hc i ltac:(lia) Ev))| |apply IHn; lia].
    intros q Hq. rewrite elem_subtrees. intros (j & Hj & Hv & Hq').
    apply (tree_part k _ _ _ ltac:(lia) (Hc i ltac:(lia) Ev)) in Hq. apply (tree_part k _ _ _ ltac:(lia) (Hc j ltac:(lia) Hv)) in Hq'.
    pose proof (part_inj _ _ _ _ Hq Hq'). lia.
Qed.

(** The walk to an address goes through the page with its prefix. *)
Lemma wk_through k p va : (k <= 2)%nat -> own !! p = Some (PT root k (prefix_of k va)) -> wk m 2 root va = wk m k p va.
Proof using I.
  remember (2 - k)%nat as d eqn:Ed. revert k p Ed. induction d as [|d IH]; intros k p Ed Hk Hp.
  - assert (k = 2%nat) as -> by lia. destruct (vi_parent _ _ _ _ I _ _ _ _ Hp) as [(_ & -> & _)|(? & _)]; [done|lia].
  - rewrite (prefix_step k va) in Hp. pose proof (PX_bound (Z.of_nat (S k)) va ltac:(lia)) as Hj.
    destruct (parent_of k _ _ p Hj Hp ltac:(lia)) as (pp & Hpp & Hv & Ec).
    rewrite (IH (S k) pp ltac:(lia) ltac:(lia) Hpp). cbn [wk]. change (load64 m _) with (entry m pp (PX (Z.of_nat (S k)) va)).
    change (nz (Z.land ?x PTE_V)) with (valid x). by rewrite Hv, Ec.
Qed.

Lemma tree_dead k : forall p pre, (k <= 2)%nat -> own !! p = Some (PT root k pre) -> (forall va, 0 <= va < MAXVA -> pt_lookup m root va = None) -> dead m k p.
Proof using I.
  induction k as [|k IH]; intros p pre Hk Hp Hn; cbn [dead]; intros i Hi Hv.
  - destruct (vi_low _ _ _ _ I _ _ _ _ Hp) as [Hlo Hhi]. change (2 ^ (9 * (Z.of_nat 0 + 1))) with 512 in Hhi.
    set (va := (pre * 512 + i) * 4096). assert (Hva : 0 <= va < MAXVA) by (unfold va; change MAXVA with (2 ^ 38); lia).
    assert (Ev : va / 4096 = pre * 512 + i) by (unfold va; by rewrite Z.div_mul).
    pose proof (vpn_split va) as Es. pose proof (PX_bound 0 va ltac:(lia)).
    assert (Epre : prefix_of 0 va = pre /\ PX 0 va = i) by lia. destruct Epre as [E1 E2].
    rewrite <-E1 in Hp. pose proof (wk_through 0 p va ltac:(lia) Hp) as Ew. change (wk m 0 p va) with (p + 8 * PX 0 va) in Ew. rewrite E2 in Ew.
    specialize (Hn va Hva). unfold pt_lookup in Hn. pose proof (page_ok_range _ (vi_ok _ _ _ _ I _ _ Hp)).
    rewrite lk_of_wk in Hn by (rewrite Ew; lia). rewrite Ew in Hn. change (load64 m (p + 8 * i)) with (entry m p i) in Hn.
    change (nz (Z.land ?x PTE_V)) with (valid x) in Hn. by rewrite Hv in Hn.
  - destruct (vi_node _ _ _ _ I p root k pre i Hp Hi Hv) as [Ho Hf]. split; [exact Hf|]. by eapply IH; [lia|exact Ho|].
Qed.
End owned.

(** ** uvmfree *)

Section free.
Context `{KernelLayout}.

Definition usage_root (u : usage) : Z := match u with PT r _ _ => r | Data r _ => r end.

(** The owner map without the table [root] and its memory. *)
Definition without (root : Z) (own : gmap Z usage) : gmap Z usage := filter (fun pu => usage_root pu.2 <> root) own.

Lemma without_lookup root own p u : without root own !! p = Some u <-> own !! p = Some u /\ usage_root u <> root.
Proof. apply map_lookup_filter_Some. Qed.

(** The address space [root] is gone: its pages went to the allocator and the
    other address spaces are as they were. *)
Record space_freed (root : Z) (users : gset Z) (own : gmap Z usage) (fl fl' : list Z) (s s' : kmem) : Prop := {
  sf_inv : vm_inv (users ∖ {[root]}) (without root own) fl' s';
  sf_free : forall p, p ∈ fl' <-> p ∈ fl \/ exists u, own !! p = Some u /\ usage_root u = root;
  sf_lk : forall r va, r <> root -> own !! r = Some (PT r 2 0) -> 0 <= va < MAXVA -> pt_lookup (k_mem s') r va = pt_lookup (k_mem s) r va;
  sf_mem : forall x, (forall p, p ∈ fl' \/ (exists r k pre, own !! p = Some (PT r k pre)) -> x < p \/ p + PGSIZE <= x) -> mget (k_mem s') x = mget (k_mem s) x
}.

Section drop.
Context {users own fl s} (I : vm_inv users own fl s) (root : Z) (s' : kmem) (fl' : list Z).
Hypothesis Hr : own !! root = Some (PT root 2 0).
Hypothesis Hnd : forall p vpn, own !! p <> Some (Data root vpn).
Hypothesis K : kmem_inv s' fl'.
Hypothesis E : fl' ≡ₚ tree (k_mem s) 2 root ++ fl.
Hypothesis M : forall x, (forall q, q ∈ tree (k_mem s) 2 root -> x < q \/ q + PGSIZE <= x) -> mget (k_mem s') x = mget (k_mem s) x.

Lemma drop_word p r k pre i : own !! p = Some (PT r k pre) -> r <> root -> 0 <= i < 512 -> load64 (k_mem s') (p + 8 * i) = load64 (k_mem s) (p + 8 * i).
Proof using I Hr M.
  intros Hp Hne Hi. apply load_ext. intros x Hx. simpl in Hx. apply M. intros q Hq. apply (tree_root I root q Hr) in Hq as (k' & pre' & Hq).
  assert (p <> q) by congruence. pose proof (page_disjoint p q (vi_ok _ _ _ _ I _ _ Hp) (vi_ok _ _ _ _ I _ _ Hq) ltac:(done)). unfold PGSIZE in *. lia.
Qed.

Lemma drop_inv : vm_inv (users ∖ {[root]}) (without root own) fl' s'.
Proof using I Hr K E M.
  assert (Hw : forall p r k pre, without root own !! p = Some (PT r k pre) -> own !! p = Some (PT r k pre) /\ r <> root).
  { intros p r k pre Hp. by apply without_lookup in Hp. }
  assert (Hb : forall p u, own !! p = Some u -> usage_root u <> root -> without root own !! p = Some u) by (intros; by apply without_lookup).
  split.
  - exact K.
  - intros p Hp. destruct (without root own !! p) as [u|] eqn:Eu; [|done]. exfalso. apply without_lookup in Eu as [Eu Hu].
    rewrite E in Hp. apply elem_of_app in Hp as [Hp|Hp]; [|by rewrite (vi_free _ _ _ _ I p Hp) in Eu].
    apply (tree_root I root p Hr) in Hp as (k & pre & Hp). rewrite Hp in Eu. by injection Eu as <-.
  - intros p u Hp. apply without_lookup in Hp as [Hp _]. by eapply vi_ok.
  - intros r Hu. apply elem_of_difference in Hu as [Hu Hne]. apply Hb; [by apply (vi_root _ _ _ _ I)|]. cbn [usage_root]. intros ->. apply Hne. by apply elem_of_singleton.
  - intros p r k pre i Hp Hi. apply Hw in Hp as [Hp Hne]. cbv zeta. rewrite (drop_word _ _ _ _ _ Hp Hne Hi). intros Hv.
    destruct (vi_node _ _ _ _ I _ _ _ _ _ Hp Hi Hv) as [Ho Hf]. split; [by apply Hb|done].
  - intros p r pre i Hp Hu Hi. apply Hw in Hp as [Hp Hne]. apply elem_of_difference in Hu as [Hu _]. cbv zeta.
    rewrite (drop_word _ _ _ _ _ Hp Hne Hi). intros Hv Hlt. apply Hb; [|done]. by apply (vi_leaf _ _ _ _ I _ _ _ _ Hp Hu Hi Hv Hlt).
  - intros p r k pre Hp. apply Hw in Hp as [Hp Hne]. destruct (vi_parent _ _ _ _ I _ _ _ _ Hp) as [?|(Hk & pp & Hpp & Hv)]; [by left|right].
    split; [done|]. exists pp. split; [by apply Hb|]. cbv zeta. by rewrite (drop_word _ _ _ _ _ Hpp Hne) by (apply Z.mod_pos_bound; lia).
  - intros p r k pre Hp. apply Hw in Hp as [Hp _]. by apply (vi_low _ _ _ _ I _ _ _ _ Hp).
Qed.

Lemma drop_lk k : forall p r va, own !! p = Some (PT r k (prefix_of k va)) -> r <> root -> lk (k_mem s') k p va = lk (k_mem s) k p va.
Proof using I Hr M.
  induction k as [|k IH]; intros p r va Hp Hne; cbn [lk]; rewrite (drop_word _ _ _ _ _ Hp Hne) by (apply PX_bound; lia); [done|].
  case_match eqn:Ev; [|done]. apply (IH _ r); [|done].
  destruct (vi_node _ _ _ _ I _ _ _ _ (PX (Z.of_nat (S k)) va) Hp) as [Ho _]; [apply PX_bound; lia|done|]. by rewrite (prefix_step k va).
Qed.

Lemma drop_freed : space_freed root users own fl fl' s s'.
Proof using All.
  split.
  - exact drop_inv.
  - intros p. rewrite E, elem_of_app, (tree_root I root p Hr). split.
    + intros [(k & pre & Hp)|Hp]; [right; by eexists|by left].
    + intros [Hp|([r k pre|r vpn] & Hp & Hu)]; [by right| |]; cbn in Hu; subst r; [left; by exists k, pre|by destruct (Hnd p vpn)].
  - intros r va Hne Hrr Hva. apply (drop_lk 2 r r va); [by rewrite prefix_root|done].
  - intros x Hx. apply M. intros q Hq. apply Hx. left. rewrite E. apply elem_of_app. by left.
Qed.
End drop.
End free.

Section uvmfree.
Context `{KernelLayout} (t : tctx).
Hypothesis Hl : kmem_lock ∉ t_held t.

(** Every page of user memory is mapped where its owner says. *)
Definition in_place (own : gmap Z usage) (m : mem) (root : Z) : Prop := forall p vpn, own !! p = Some (Data root vpn) ->
  0 <= vpn < user_pages /\ exists v, pt_lookup m root (vpn * PGSIZE) = Some v /\ PTE2PA v = p.

(** A table that maps nothing. *)
Lemma freewalk_drops users own fl s root : vm_inv users own fl s -> own !! root = Some (PT root 2 0) ->
  (forall va, 0 <= va < MAXVA -> pt_lookup (k_mem s) root va = None) -> (forall p vpn, own !! p <> Some (Data root vpn)) ->
  wp (freewalk 3 root) (fun _ t' s' => t' = t /\ exists fl', space_freed root users own fl fl' s s') t s.
Proof using Hl.
  intros I Hr Hn Hd. eapply wp_mono; [apply (freewalk_wp t Hl 2 root fl s)|].
  - apply I.
  - split.
    + apply NoDup_app. split_and!; [by eapply tree_NoDup| |apply (ki_nodup _ _ (vi_kmem _ _ _ _ I))].
      intros p Hp Hf. apply (tree_root I root p Hr) in Hp as (k & pre & Hp). by rewrite (vi_free _ _ _ _ I p Hf) in Hp.
    + apply Forall_forall. intros p Hp. apply (tree_root I root p Hr) in Hp as (k & pre & Hp). by eapply vi_ok.
  - by eapply tree_dead.
  - intros [] t' s' (-> & fl' & K & E & M). split; [done|]. exists fl'. by apply drop_freed.
Qed.

(** Freeing the table after some of its memory. *)
Lemma unmaps_freed users own own1 fl fl1 fl2 s s1 s2 root va d : own !! root = Some (PT root 2 0) -> unmaps root va d users own own1 fl fl1 s s1 ->
  space_freed root users own1 fl1 fl2 s1 s2 -> space_freed root users own fl fl2 s s2.
Proof using.
  intros Hr U [I2 F2 L2 M2]. pose proof U as [I1 O1 (freed & Ef & Ff & Kf) G1 C1 M1].
  assert (Ew : without root own1 = without root own).
  { apply map_eq. intros p. apply option_eq. intros u. rewrite !without_lookup. split; intros [Hp Hne].
    - split; [by eapply lookup_weaken|done].
    - destruct (Kf p u Hp) as [Hp'|Hf]; [done|]. destruct (Ff p Hf) as (vpn & _ & _ & Ho & _). rewrite Hp in Ho. by injection Ho as ->. }
  split.
  - by rewrite <-Ew.
  - intros p. rewrite F2, Ef, elem_of_app. split.
    + intros [[Hp|Hp]|(u & Hp & Hu)]; [|by left|right; exists u; split; [by eapply lookup_weaken|done]].
      right. destruct (Ff p Hp) as (vpn & _ & _ & Ho & _). by eexists.
    + intros [Hp|(u & Hp & Hu)]; [left; by right|]. destruct (Kf p u Hp) as [Hp'|Hf]; [right; by exists u|left; by left].
  - intros r x Hne Hrr Hx. rewrite (L2 r x Hne (unmaps_pt _ _ _ _ _ _ _ _ _ _ _ _ _ _ U Hrr) Hx), (C1 r x Hrr Hx).
    by rewrite decide_False by (intros [? _]; done).
  - intros x Hx. rewrite M2, M1; [done|..].
    + intros p [Hp|Hp]; apply Hx; [left; apply F2; by left|by right].
    + intros p [Hp|(r & k & pre & Hp)]; apply Hx; [by left|right]. exists r, k, pre. by eapply lookup_weaken.
Qed.

(** The memory below the size is unmapped first. *)
Lemma uvmfree_wp users own fl s root sz : vm_inv users own fl s -> root ∈ users -> 0 <= sz <= TRAPFRAME -> in_place own (k_mem s) root ->
  (forall va v, 0 <= va < MAXVA -> pt_lookup (k_mem s) root va = Some v -> va < PGROUNDUP sz) ->
  wp (uvmfree root sz) (fun _ t' s' => t' = t /\ exists fl', space_freed root users own fl fl' s s') t s.
Proof using Hl.
  intros I Hu Hsz Hip Hlt. unfold uvmfree. assert (Hr := vi_root _ _ _ _ I root Hu). change TRAPFRAME with (2 ^ 38 - 8192) in Hsz.
  pose proof (PGROUNDUP_bounds sz ltac:(lia)) as [Ha Hb]. pose proof (Z.div_mod (PGROUNDUP sz) 4096 ltac:(lia)) as Edm.
  destruct (Z.ltb_spec 0 sz) as [Hpos|Hz].
  2:{ assert (sz = 0) as -> by lia. wp_steps. assert (E0 : PGROUNDUP 0 = 0) by reflexivity. rewrite E0 in Hlt.
      assert (Hnone : forall va, 0 <= va < MAXVA -> pt_lookup (k_mem s) root va = None).
      { intros va Hva. destruct (pt_lookup (k_mem s) root va) as [v|] eqn:Ev; [|done]. pose proof (Hlt va v Hva Ev). lia. }
      apply (freewalk_drops users own fl s root); [done|done|done|]. intros p vpn Hp. destruct (Hip p vpn Hp) as (Hv & v & Ev & _).
      rewrite Hnone in Ev; [done|]. change user_pages with (2 ^ 26 - 2) in Hv. change MAXVA with (2 ^ 38). unfold PGSIZE. lia. }
  wp_step. set (n := PGROUNDUP sz / PGSIZE). unfold PGSIZE in n.
  eapply wp_mono; [apply (uvmunmap_wp users root t own fl s 0 n); try done; unfold n; change user_pages with (2 ^ 26 - 2); divlia|].
  intros [] t1 s1 (-> & own1 & fl1 & U). pose proof U as [I1 O1 (freed & Ef & Ff & Kf) G1 C1 M1].
  assert (Hr1 : own1 !! root = Some (PT root 2 0)) by (by eapply unmaps_pt).
  assert (Hrange : 0 + n * PGSIZE = PGROUNDUP sz) by (unfold n, PGSIZE; lia). rewrite Hrange in *.
  assert (Hnone : forall va, 0 <= va < MAXVA -> pt_lookup (k_mem s1) root va = None).
  { intros va Hva. rewrite (C1 root va Hr Hva). case_decide as Ed; [done|]. destruct (pt_lookup (k_mem s) root va) as [v|] eqn:Ev; [|done].
    pose proof (Hlt va v Hva Ev). exfalso. apply Ed. split; [done|]. lia. }
  assert (Hnd : forall p vpn, own1 !! p <> Some (Data root vpn)).
  { intros p vpn Hp. pose proof (lookup_weaken _ _ _ _ Hp O1) as Hp0. destruct (Hip p vpn Hp0) as (Hv & v & Ev & Epa).
    assert (Hva : 0 <= vpn * PGSIZE < MAXVA) by (change user_pages with (2 ^ 26 - 2) in Hv; change MAXVA with (2 ^ 38); unfold PGSIZE; lia).
    pose proof (Hlt _ _ Hva Ev). rewrite <-Epa, (G1 (vpn * PGSIZE) v) in Hp; [done|lia|done]. }
  eapply wp_mono; [by apply (freewalk_drops users own1 fl1 s1 root)|].
  intros [] t2 s2 (-> & fl2 & F). split; [done|]. exists fl2. by eapply unmaps_freed.
Qed.
End uvmfree.

(** ** uvmcreate and the pages above user memory *)

Section made.
Context `{KernelLayout}.

(** A new table [r]: it has taken its pages from the allocator, and the other
    tables and the rest of memory are as they were. *)
Record made (r : Z) (users : gset Z) (own own' : gmap Z usage) (fl fl' : list Z) (s s' : kmem) : Prop := {
  md_fresh : own !! r = None;
  md_none : forall p u, own !! p = Some u -> usage_root u <> r;
  md_inv : vm_inv ({[r]} ∪ users) own' fl' s';
  md_own : own ⊆ own';
  md_new : forall p u, own' !! p = Some u -> own !! p = Some u \/ exists k pre, u = PT r k pre;
  md_pages : forall p, p ∈ fl <-> p ∈ fl' \/ exists k pre, own' !! p = Some (PT r k pre);
  md_lk : forall r' va, own !! r' = Some (PT r' 2 0) -> 0 <= va < MAXVA -> pt_lookup (k_mem s') r' va = pt_lookup (k_mem s) r' va;
  md_mem : forall x, (forall p, p ∈ fl \/ (exists r k pre, own !! p = Some (PT r k pre)) -> x < p \/ p + PGSIZE <= x) -> mget (k_mem s') x = mget (k_mem s) x
}.

(** Nothing has happened to the tables: the allocator has the same pages. *)
Record untouched (users : gset Z) (own : gmap Z usage) (fl fl' : list Z) (s s' : kmem) : Prop := {
  ut_inv : vm_inv users own fl' s';
  ut_pages : forall p, p ∈ fl' <-> p ∈ fl;
  ut_lk : forall r va, own !! r = Some (PT r 2 0) -> 0 <= va < MAXVA -> pt_lookup (k_mem s') r va = pt_lookup (k_mem s) r va;
  ut_mem : forall x, (forall p, p ∈ fl \/ (exists r k pre, own !! p = Some (PT r k pre)) -> x < p \/ p + PGSIZE <= x) -> mget (k_mem s') x = mget (k_mem s) x
}.

(** What the table [r] translates, by virtual page number. *)
Definition maps (m : mem) (r : Z) (f : Z -> option Z) : Prop := forall va, 0 <= va < MAXVA -> pt_lookup m r va = f (va / 4096).

(** User memory belongs to live tables. *)
Definition owned_by (users : gset Z) (own : gmap Z usage) : Prop := forall p r vpn, own !! p = Some (Data r vpn) -> r ∈ users.

Lemma uvmcreate_wp users own fl s t : vm_inv users own fl s -> owned_by users own -> kmem_lock ∉ t_held t ->
  wp uvmcreate (fun r t' s' => t' = t /\ ((r = 0 /\ fl = [] /\ s' = s) \/
    (r <> 0 /\ exists fl', made r users own (<[r := PT r 2 0]> own) fl fl' s s' /\ maps (k_mem s') r (fun _ => None)))) t s.
Proof.
  intros I Hd Hl. unfold uvmcreate. wp_step. eapply wp_mono; [by apply (take_page_wp users own fl s t)|].
  intros r t1 s1 [-> [(-> & -> & ->)|(Hr & Hok & fl' & -> & Hnin & K1 & S1)]]; [wp_steps; split; [done|by left]|].
  rewrite (proj2 (Z.eqb_neq r 0) Hr). unfold do_memset. wp_steps. split; [done|]. right. split; [done|]. exists fl'.
  destruct (zeroed_page s1 r) as [S2 _]. set (s2 := set_mem _ s1). pose proof (vi_free _ _ _ _ I r ltac:(apply elem_of_cons; by left)) as Hn.
  assert (Hsame : same_but r (k_mem s) (k_mem s2)) by (by eapply same_but_trans).
  assert (K2 : kmem_inv s2 fl') by (by apply (fill_kmem s1 fl' r)).
  assert (Hz : forall i, 0 <= i < 512 -> load64 (k_mem s2) (r + 8 * i) = 0) by (intros i Hi; by apply load_zero_page).
  assert (Hw : forall q x k pre i, own !! q = Some (PT x k pre) -> 0 <= i < 512 -> load64 (k_mem s2) (q + 8 * i) = load64 (k_mem s) (q + 8 * i)).
  { intros q x k pre i Hq Hi. apply (load_same_but _ _ q r); [by eapply vi_ok|done|congruence|done|done]. }
  assert (I2 : vm_inv users own fl' s2).
  { apply (vm_inv_frame users own (r :: fl') fl' s s2 I K2); [|exact Hw]. intros p Hp. apply (vi_free _ _ _ _ I), elem_of_cons. by right. }
  split; [split|].
  - exact Hn.
  - intros p [x k pre|x vpn] Hp; cbn; intros ->; [pose proof (vi_root_of _ _ _ _ _ _ _ _ I Hp)|pose proof (vi_root _ _ _ _ I r (Hd _ _ _ Hp))]; congruence.
  - by apply vm_inv_add_root.
  - by apply insert_subseteq.
  - intros p u. rewrite lookup_insert. case_decide; [|by left]. intros [= <-]. right. by eexists _, _.
  - intros p. rewrite elem_of_cons. split.
    + intros [->|Hp]; [right; exists 2%nat, 0; apply lookup_insert_eq|by left].
    + intros [Hp|(k & pre & Hp)]; [by right|]. left. rewrite lookup_insert in Hp. case_decide as E; [done|].
      pose proof (vi_root_of _ _ _ _ _ _ _ _ I Hp). congruence.
  - intros r' va Hr' Hva. apply (lk_frame I (k_mem s2) r'); [exact Hw|by rewrite prefix_root].
  - intros x Hx. apply Hsame. apply Hx. left. apply elem_of_cons. by left.
  - intros va Hva. unfold pt_lookup. cbn [lk]. change (load64 (k_mem s2) ?a) with (load64 (k_mem s2) a). rewrite Hz by (apply PX_bound; lia). done.
Qed.

Section grow.
Context {users : gset Z} {own own1 : gmap Z usage} {fl fl1 : list Z} {s s1 : kmem} {r : Z}.
Hypothesis D : made r users own own1 fl fl1 s s1.

Lemma made_root : own1 !! r = Some (PT r 2 0).
Proof using D. apply (vi_root _ _ _ _ (md_inv _ _ _ _ _ _ _ _ D)). set_solver. Qed.

Lemma made_mem_frame x : (forall p, p ∈ fl \/ (exists r k pre, own !! p = Some (PT r k pre)) -> x < p \/ p + PGSIZE <= x) ->
  forall p, p ∈ fl1 \/ (exists r k pre, own1 !! p = Some (PT r k pre)) -> x < p \/ p + PGSIZE <= x.
Proof using D.
  intros Hx p [Hp|(r' & k & pre & Hp)]; apply Hx.
  - left. apply (md_pages _ _ _ _ _ _ _ _ D). by left.
  - destruct (md_new _ _ _ _ _ _ _ _ D _ _ Hp) as [Ho|(k' & pre' & E)]; [right; by eexists _, _, _|].
    injection E as -> -> ->. left. apply (md_pages _ _ _ _ _ _ _ _ D). right. by eexists _, _.
Qed.

(** The table grows by pages of its own. *)
Lemma made_extends own2 fl2 s2 : extends r ({[r]} ∪ users) own1 own2 fl1 fl2 s1 s2 ->
  (forall r' va, r' <> r -> own1 !! r' = Some (PT r' 2 0) -> 0 <= va < MAXVA -> pt_lookup (k_mem s2) r' va = pt_lookup (k_mem s1) r' va) ->
  made r users own own2 fl fl2 s s2.
Proof using D.
  intros [I2 O2 (new & En & An & Bn) M2] Hlk. pose proof D as [Hf Hda I1 O1 N1 P1 L1 M1]. split.
  - done.
  - done.
  - done.
  - by etrans.
  - intros p u Hp. destruct (An p u Hp) as [Hp1|Hp1]; [by apply N1|]. right. destruct (Bn p Hp1) as (k & pre & Hk). rewrite Hp in Hk. injection Hk as ->. by exists k, pre.
  - intros p. rewrite P1, En, elem_of_app. split.
    + intros [[Hp|Hp]|(k & pre & Hp)]; [right; by apply Bn|by left|right; exists k, pre; by eapply lookup_weaken].
    + intros [Hp|(k & pre & Hp)]; [left; by right|]. destruct (An _ _ Hp) as [Hp1|Hp1]; [right; by exists k, pre|left; by left].
  - intros r' va Hr Hva. rewrite Hlk; [by apply L1|congruence|by eapply lookup_weaken|done].
  - intros x Hx. rewrite M2 by (by apply made_mem_frame). by apply M1.
Qed.

(** An empty table is given back. *)
Lemma made_undo t : maps (k_mem s1) r (fun _ => None) -> kmem_lock ∉ t_held t -> r ∉ users ->
  wp (uvmfree r 0) (fun _ t' s' => t' = t /\ exists fl', untouched users own fl fl' s s') t s1.
Proof using D.
  intros Hm Hl Hu. pose proof D as [Hf Hda I1 O1 N1 P1 L1 M1]. pose proof made_root as Hr.
  assert (Hnd : forall p vpn, own1 !! p <> Some (Data r vpn)).
  { intros p vpn Hp. destruct (N1 _ _ Hp) as [Ho|(? & ? & ?)]; [by apply (Hda p _ Ho)|done]. }
  assert (Ew : without r own1 = own).
  { apply map_eq. intros p. apply option_eq. intros u. rewrite without_lookup. split.
    - intros [Hp Hne]. destruct (N1 _ _ Hp) as [?|(k & pre & ->)]; [done|by destruct Hne].
    - intros Hp. split; [by eapply lookup_weaken|by eapply Hda]. }
  eapply wp_mono; [apply (uvmfree_wp t Hl ({[r]} ∪ users) own1 fl1 s1 r 0 I1); [set_solver|done|by intros p vpn Hp; destruct (Hnd p vpn)|]|].
  { intros va v Hva Ev. rewrite (Hm va Hva) in Ev. done. }
  intros [] t' s' (-> & fl' & [I2 F2 L2 M2]). split; [done|]. exists fl'. rewrite Ew in I2. split.
  - replace (({[r]} ∪ users) ∖ {[r]}) with users in I2 by set_solver. exact I2.
  - intros p. rewrite F2, P1. split; (intros [Hp|Hp]; [by left|right]).
    + destruct Hp as ([x k pre|x vpn] & Hp & Hx); cbn in Hx; subst x; [by exists k, pre|by destruct (Hnd p vpn)].
    + destruct Hp as (k & pre & Hp). by eexists.
  - intros r' va Hr' Hva. rewrite L2; [by apply L1| |by eapply lookup_weaken|done]. apply (Hda r' _ Hr').
  - intros x Hx. rewrite M2; [by apply M1|]. intros p Hp. destruct (decide (p ∈ fl)) as [Hin|Hnin]; [apply Hx; by left|].
    apply (made_mem_frame x Hx). destruct Hp as [Hp|Hp]; [|by right]. exfalso. apply Hnin, P1. apply F2 in Hp as [Hp|(u & Hp & Hur)]; [by left|].
    right. destruct u as [x' k pre|x' vpn]; cbn in Hur; subst x'; [by exists k, pre|by destruct (Hnd p vpn)].
Qed.
End grow.
End made.
