(* ===== verification/MemTheorems.v ===== *)
(** * MemTheorems: what kernel/kalloc.c and kernel/vm.c promise

    The theorems about the page allocator and the page tables, each with a
    run on a concrete machine: a kernel image that ends a few pages below
    PHYSTOP. *)

From S2P Require Import Prelude Riscv CString Kalloc Vm PageTable VmWalk VmMap VmUnmap VmAlloc VmUser VmCopy VmFree.

(** ** A concrete machine *)

Module Demo.
(** A kernel whose image leaves eight pages free. *)
Definition P (i : Z) : Z := PHYSTOP - (8 - i) * PGSIZE.

#[local] Instance layout : KernelLayout.
Proof.
  refine {| kend := P 0; etext := KERNBASE + 8 * PGSIZE; trampoline := KERNBASE + 7 * PGSIZE |};
    vm_compute; done.
Defined.

Definition free : list Z := [P 0; P 1; P 2; P 3; P 4; P 5].

Definition memory : mem :=
  store64 (store64 (store64 (store64 (store64 (store64 ∅ (P 0) (P 1)) (P 1) (P 2)) (P 2) (P 3))
    (P 3) (P 4)) (P 4) (P 5)) (P 5) 0.

Definition state : kmem := {| k_mem := memory; k_freelist := P 0 |}.

(** Two processes with empty page tables. *)
Definition parent : Z := P 6.
Definition child : Z := P 7.
Definition users : gset Z := {[child]} ∪ ({[parent]} ∪ ∅).
Definition own : gmap Z usage := <[child := PT child 2 0]> (<[parent := PT parent 2 0]> ∅).
Definition thread : tctx :=
  {| t_held := []; t_proc := 0; t_pid := 1; t_patience := 0; t_trace := [] |}.
Definition proc : uproc := {| up_sz := 3 * PGSIZE; up_pagetable := parent |}.

Lemma page_ok_P i : 0 <= i < 8 -> page_ok (P i).
Proof.
  intros Hi. unfold page_ok, P, kend, layout, P. unfold PGSIZE, PHYSTOP, KERNBASE.
  split; [|lia]. change (128 * 1024 * 1024) with (32768 * 4096). change 0x80000000 with (524288 * 4096).
  rewrite <-!Z.mul_add_distr_r, <-Z.mul_sub_distr_r. by apply Z.mod_mul.
Qed.

Lemma kmem_ok : kmem_inv state free.
Proof.
  split; [|by vm_compute; repeat constructor; set_solver].
  unfold state, free; simpl k_freelist; simpl k_mem.
  do 6 (constructor; [by apply page_ok_P|]). cbv beta.
  replace (load64 _ _) with 0 by (by vm_compute). constructor.
Qed.

Lemma zero_root r : r = parent \/ r = child ->
  forall i, 0 <= i < 512 -> load64 memory (r + 8 * i) = 0.
Proof.
  assert (E : forallb (fun i => (load64 memory (parent + 8 * i) =? 0) && (load64 memory (child + 8 * i) =? 0))
    (seqZ 0 512) = true) by (by vm_compute).
  intros Hr i Hi. apply forallb_forall with (x := i) in E; [destruct Hr as [-> | ->]; lia|].
  apply list_elem_of_In, elem_of_seqZ. lia.
Qed.

Lemma vm_ok : vm_inv users own free state.
Proof.
  pose proof (page_ok_P 6 ltac:(lia)). pose proof (page_ok_P 7 ltac:(lia)).
  apply vm_inv_add_root; [apply vm_inv_add_root; [apply vm_inv_empty, kmem_ok|..]|..]; try done.
  - by vm_compute; set_solver.
  - apply zero_root. by left.
  - by vm_compute; set_solver.
  - apply zero_root. by right.
Qed.

Lemma parent_user : parent ∈ users.
Proof. unfold users. set_solver. Qed.

Lemma child_user : child ∈ users.
Proof. unfold users. set_solver. Qed.

Lemma unlocked : kmem_lock ∉ t_held thread.
Proof. apply not_elem_of_nil. Qed.

(** The two tables translate nothing. *)
Lemma empty_table r va : r = parent \/ r = child -> pt_lookup (k_mem state) r va = None.
Proof.
  intros Hr. unfold pt_lookup, lk. pose proof (PX_bound (Z.of_nat 2) va ltac:(lia)).
  by rewrite zero_root.
Qed.

(** The trampoline page is not user memory. *)
Lemma mappable_ok r pa : mappable users own r TRAMPOLINE pa 1.
Proof.
  intros _ i Hi Hlt. exfalso. revert Hlt. change (TRAMPOLINE / 4096) with (2 ^ 26 - 1).
  change user_pages with (2 ^ 26 - 2). lia.
Qed.

Lemma guarded_ok : guarded (k_mem state) parent.
Proof. intros va v _ E. rewrite empty_table in E by (by left). done. Qed.
End Demo.

(** ** The page allocator *)

Section kalloc_theorems.
Context `{KernelLayout}.

(** C20: after [kinit], any sequence of allocations and frees of pages held
    runs without a panic, and the free pages together with the pages held are
    at every time exactly the pages between the end of the kernel and PHYSTOP,
    each once. *)
Theorem kalloc_conserves_pages ops t s :
  k_freelist s = 0 -> kmem_lock ∉ t_held t ->
  wp (kinit;; client ops []) (fun used t' s' => t' = t /\ exists fl, kmem_inv s' fl /\
    NoDup (fl ++ used) /\
    fl ++ used ≡ₚ pages (PGROUNDUP kend) (Z.to_nat ((PHYSTOP - PGROUNDUP kend) / PGSIZE))) t s.
Proof.
  intros H0 Hl. wp_step. eapply wp_mono; [by apply kinit_wp|]. intros [] t' s' [-> K].
  eapply wp_mono; [apply (client_wp t ops s' _ [] K Hl); [rewrite app_nil_r; apply K|done]|].
  intros used t' s'' (-> & fl & K' & Hp & Hn). rewrite app_nil_r in Hp. eauto.
Qed.

(** [kfree] refuses an address that is not a page the allocator manages. *)
Theorem kfree_rejects_bad_address pa t s : ~ page_ok pa -> kfree pa t s = Panic "kfree" t s.
Proof. apply kfree_panic. Qed.
End kalloc_theorems.

(** ** Page tables *)

Section vm_theorems.
Context `{KernelLayout}.
Context (users : gset Z) (own : gmap Z usage) (fl : list Z) (s : kmem) (t : tctx).

(** [mappages] of [n] unmapped pages either maps all of them, each to
    its own physical page with the given permissions, or runs out of memory
    and returns -1 with a prefix mapped; every other translation, in this
    and in all other tables, is the one before the call. *)
Theorem mappages_maps root va pa perm n :
  vm_inv users own fl s -> own !! root = Some (PT root 2 0) -> kmem_lock ∉ t_held t ->
  0 < n -> 0 <= va -> va + n * PGSIZE <= MAXVA -> va mod 4096 = 0 ->
  0 <= pa -> pa + n * PGSIZE <= 2 ^ 56 -> pa mod PGSIZE = 0 ->
  0 <= perm < 1024 -> unmapped (k_mem s) root va n -> mappable users own root va pa n ->
  wp (mappages root va (n * PGSIZE) pa perm) (fun r t' s' => t' = t /\
    exists own' fl' d, extends root users own own' fl fl' s s' /\
      remapped own root va pa perm d (k_mem s) (k_mem s') /\
      (r = 0 /\ d = n \/ r = -1 /\ 0 <= d < n /\ fl' = [])) t s.
Proof.
  intros I Hr Hl Hn Hva Hhi Hal Hpa Hpahi Hpal Hperm Hun Hmap.
  unfold mappages. unfold PGSIZE at 1. rewrite Hal, Z.mod_mul by done.
  rewrite (proj2 (Z.eqb_neq (n * PGSIZE) 0)) by (unfold PGSIZE; lia). simpl negb. cbv iota.
  change MAXVA with (2 ^ 38) in Hhi. rewrite Z.div_mul by done.
  replace (u64 (va + n * PGSIZE - PGSIZE)) with (va + Z.of_nat (Z.to_nat n - 1) * PGSIZE)
    by (unfold u64; rewrite Z.mod_small; unfold PGSIZE in *; lia).
  replace (Z.to_nat n) with (S (Z.to_nat n - 1)) at 1 by lia.
  eapply wp_mono; [apply (mappages_loop_wp users root perm t (Z.to_nat n - 1) own fl s va pa); try done|];
    replace (Z.of_nat (Z.to_nat n - 1) + 1) with n by lia; try done.
  intros r t' s' (-> & own' & fl' & d & X & Hd & R & Hres). split; [done|]. exists own', fl', d.
  split_and!; try done. destruct Hres as [[-> ->]|(-> & ? & ->)]; [by left|right; split_and!; done || lia].
Qed.
(** [uvmdealloc] from [oldsz] to [newsz] returns the smaller size; the
    pages above the new size lose their translation, the physical pages they
    had go back to the free list, and nothing else is unmapped or freed. *)
Theorem uvmdealloc_frees root oldsz newsz :
  vm_inv users own fl s -> root ∈ users -> kmem_lock ∉ t_held t ->
  0 <= oldsz <= TRAPFRAME -> 0 <= newsz <= TRAPFRAME ->
  wp (uvmdealloc root oldsz newsz) (fun r t' s' => t' = t /\ r = Z.min oldsz newsz /\
    exists own' fl',
      unmaps root (PGROUNDUP newsz) (dealloc_pages oldsz newsz) users own own' fl fl' s s') t s.
Proof. apply uvmdealloc_wp. Qed.

(** C19: [uvmalloc] from [oldsz] to [newsz] either returns [newsz] with every
    new page mapped readable for the user, with the extra permissions and all
    its bytes zero, or returns 0 with every translation as before and no
    page of user memory kept; user memory that was mapped is not touched. *)
Theorem uvmalloc_all_or_nothing root oldsz newsz xperm :
  vm_inv users own fl s -> root ∈ users -> kmem_lock ∉ t_held t -> 0 <= xperm < 1024 ->
  0 <= oldsz <= newsz -> newsz <= TRAPFRAME ->
  unmapped (k_mem s) root (PGROUNDUP oldsz) (alloc_pages oldsz newsz) ->
  wp (uvmalloc root oldsz newsz xperm) (fun r t' s' => t' = t /\ exists own' fl',
      (r = newsz /\ granted root
         (zero_pages (PGROUNDUP oldsz / 4096) (alloc_pages oldsz newsz) (uvm_perm xperm))
         users own own' fl fl' s s') \/
      (r = 0 /\ granted root nothing users own own' fl fl' s s')) t s.
Proof. apply uvmalloc_wp. Qed.

(** the fault handler maps a zeroed page exactly when the address is
    below the size of the process and not mapped; in every case the user
    memory of all processes reads as before. *)
Theorem vmfault_is_transparent p va :
  vm_inv users own fl s -> up_pagetable p ∈ users -> kmem_lock ∉ t_held t ->
  0 <= va -> up_sz p <= TRAPFRAME ->
  wp (vmfault p (up_pagetable p) va) (fun r t' s' => t' = t /\ exists own' fl',
    uspec users own own' fl' s s' (umem (k_mem s)) /\
    (r <> 0 -> va < up_sz p /\ mapped (k_mem s) (up_pagetable p) va = false /\
      exists v, pt_lookup (k_mem s') (up_pagetable p) va = Some v /\ PTE2PA v = r /\
        PTE_FLAGS v = Z.lor fault_perm PTE_V)) t s.
Proof.
  intros I Hu Hl Hva Hsz. eapply wp_mono; [by apply (vmfault_wp users own fl s p va t)|].
  intros r t' s' (-> & own' & fl' & [[-> G]|(Hr & Hlt & Hm & G & v & Hv & Hpa)]);
    (split; [done|]); exists own', fl'.
  - split; [|done]. eapply granted_uspec; [exact I|exact Hu|exact G|done|]. by intros ? ? [? ?].
  - assert (Htf : 0 <= va < TRAPFRAME) by lia. destruct (trapframe_page va Htf) as [Hpg Hmx]. split.
    + eapply granted_uspec; [exact I|exact Hu|exact G|..].
      * intros vpn perm c. unfold one_page. case_decide; [|done]. intros [= <- <-]. by subst.
      * intros va' Hva'. unfold one_page. case_decide as E; [|by intros [? ?]]. intros _.
        rewrite (pt_lookup_page _ _ va' va E). unfold mapped in Hm. by case_match.
    + intros _. split_and!; [done|done|]. exists v. split_and!; [done|done|].
      pose proof (gt_lk _ _ _ _ _ _ _ _ _ G (up_pagetable p) va (vi_root _ _ _ _ I _ Hu) Hmx) as L.
      unfold one_page in L. rewrite !decide_True in L by done.
      destruct L as (v' & Hv' & Hf & _). congruence.
Qed.

(** After a fork's copy: the memory of the child, and of the others. *)
Lemma copied_umem own' fl' s' old new sz x : vm_inv users own fl s -> new ∈ users -> 0 <= sz <= TRAPFRAME ->
  unmapped (k_mem s) new 0 ((sz + PGSIZE - 1) / PGSIZE) ->
  granted new (copied_pages (k_mem s) old ((sz + PGSIZE - 1) / PGSIZE)) users own own' fl fl' s s' ->
  0 <= x < sz -> umem (k_mem s') new x = umem (k_mem s) old x.
Proof using.
  intros I Hn Hsz Hun G Hx. destruct (trapframe_page x ltac:(lia)) as [Hpg Hmx].
  pose proof (gt_lk _ _ _ _ _ _ _ _ _ G new x (vi_root _ _ _ _ I _ Hn) Hmx) as L. rewrite decide_True in L by done.
  assert (Hxp : 0 <= x / 4096 < (sz + PGSIZE - 1) / PGSIZE).
  { split; [apply Z.div_pos; lia|]. unfold PGSIZE. apply (Z.lt_le_trans _ (x / 4096 + 1)); [lia|].
    rewrite <-(Z.div_add x 1 4096) by lia. apply Z.div_le_mono; lia. }
  assert (Hpage : forall r', pt_lookup (k_mem s) r' (x / 4096 * PGSIZE) = pt_lookup (k_mem s) r' x).
  { intros r'. apply pt_lookup_page. by apply Z.div_mul. }
  unfold copied_pages in L. rewrite decide_True, Hpage in L by done. unfold umem.
  destruct (pt_lookup (k_mem s) old x) as [v|].
  - destruct L as (v' & -> & _ & _ & _ & Hc). apply Hc. by apply Z.mod_pos_bound.
  - rewrite L, <-Hpage. rewrite <-(Z.add_0_l (_ * PGSIZE)). by rewrite (Hun (x / 4096)).
Qed.

Lemma granted_umem own' fl' s' new w root x : vm_inv users own fl s -> granted new w users own own' fl fl' s s' ->
  root ∈ users -> root <> new -> 0 <= x < TRAPFRAME -> umem (k_mem s') root x = umem (k_mem s) root x.
Proof using.
  intros I G Hr Hd Hx. destruct (trapframe_page x ltac:(lia)) as [Hpg Hmx].
  pose proof (gt_lk _ _ _ _ _ _ _ _ _ G root x (vi_root _ _ _ _ I _ Hr) Hmx) as L. rewrite decide_False in L by done.
  unfold umem. rewrite L. destruct (pt_lookup (k_mem s) root x) as [v|] eqn:E; [|done].
  eapply granted_page; [exact I|exact G| |by apply Z.mod_pos_bound].
  by apply (mapped_owned users own fl s root x v); try lia.
Qed.

(** fork's [uvmcopy] of the first [sz] bytes either gives the child the
    parent's memory there, byte for byte, with the parent's memory and every
    other process's memory unchanged, or returns -1 and leaves every
    translation of every table as before. *)
Theorem uvmcopy_copies_memory old new sz :
  vm_inv users own fl s -> old ∈ users -> new ∈ users -> old <> new -> kmem_lock ∉ t_held t ->
  0 <= sz <= TRAPFRAME -> unmapped (k_mem s) new 0 ((sz + PGSIZE - 1) / PGSIZE) ->
  wp (uvmcopy old new sz) (fun r t' s' => t' = t /\ exists own' fl', vm_inv users own' fl' s' /\
    ((r = 0 /\ (forall x, 0 <= x < sz -> umem (k_mem s') new x = umem (k_mem s) old x) /\
      (forall root x, root ∈ users -> root <> new -> 0 <= x < TRAPFRAME ->
         umem (k_mem s') root x = umem (k_mem s) root x)) \/
     (r = -1 /\ forall root va, root ∈ users -> 0 <= va < MAXVA ->
         pt_lookup (k_mem s') root va = pt_lookup (k_mem s) root va))) t s.
Proof.
  intros I Ho Hn Hne Hl Hsz Hun.
  eapply wp_mono; [apply (uvmcopy_wp users own fl s old new t I Ho Hn Hne Hl sz Hsz Hun)|].
  intros r t' s' (-> & own' & fl' & [[-> G]|[-> G]]); (split; [done|]); exists own', fl'; (split; [apply G|]).
  - left. split_and!; [done| |].
    + intros x Hx. by eapply copied_umem.
    + intros root x Hr Hd Hx. by eapply granted_umem.
  - right. split; [done|]. intros root va Hr Hva. pose proof (gt_lk _ _ _ _ _ _ _ _ _ G root va (vi_root _ _ _ _ I _ Hr) Hva) as L.
    by case_decide.
Qed.


(** [copyin] returns the bytes of user memory: on success all of them,
    on failure a prefix, and it fails only when some byte of the source was
    not readable for the user; user memory reads as before. *)
Theorem copyin_reads p src len :
  vm_inv users own fl s -> up_pagetable p ∈ users -> kmem_lock ∉ t_held t ->
  up_sz p <= TRAPFRAME -> guarded (k_mem s) (up_pagetable p) -> 0 <= src -> 0 <= len ->
  let root := up_pagetable p in
  wp (copyin p root src len) (fun r t' s' => t' = t /\ exists own' fl' d,
    uspec users own own' fl' s s' (umem (k_mem s)) /\ r.2 = ubytes (k_mem s) root src d /\
    (r.1 = 0 /\ d = len \/
     r.1 = -1 /\ 0 <= d < len /\ exists x, src <= x < src + len /\ ~ readable (k_mem s) root x)) t s.
Proof. apply copyin_wp. Qed.

(** [copyinstr] terminates without changing anything and returns 0 with
    the user's string up to and including its first NUL, or -1 when the first
    [max] bytes hold no NUL or a byte before the NUL is not readable. *)
Theorem copyinstr_reads_string root src max :
  vm_inv users own fl s -> root ∈ users -> guarded (k_mem s) root -> 0 <= src -> 0 <= max ->
  exists r, copyinstr root src max t s = Done r t s /\ copyinstr_post s root [] src max r.
Proof.
  intros I Hu Hg Hsrc Hmax. eapply copyinstr_loop_done; try done.
  pose proof (Z.mod_pos_bound src 4096 ltac:(lia)). unfold PGSIZE.
  pose proof (Z.div_mod max 4096). pose proof (Z.mod_pos_bound max 4096). lia.
Qed.

(** C39: a process whose size was grown past MAXVA, which sbrk's lazy growth
    does not prevent, makes the kernel panic when a system call copies from an
    address between MAXVA and that size. *)
Theorem copyin_beyond_maxva_panics p pagetable src len :
  MAXVA <= PGROUNDDOWN src < up_sz p -> 0 <= src -> 0 < len ->
  copyin p pagetable src len t s = Panic "walk" t s.
Proof.
  intros Hsrc Hs Hlen. destruct (page_start src Hs) as (E & Hva & _ & Eal & _).
  unfold copyin. replace (Z.to_nat (len / PGSIZE + 3)) with (S (Z.to_nat (len / PGSIZE + 2)))
    by (pose proof (Z.div_pos len PGSIZE ltac:(lia) ltac:(done)); lia). cbn [copyin_loop].
  rewrite (proj2 (Z.ltb_lt 0 len)) by lia. cbv zeta. set (va0 := PGROUNDDOWN src) in *.
  apply bind_panic. unfold resolve. erewrite bind_done
    by (unfold walkaddr; by rewrite (proj2 (Z.leb_le MAXVA va0)) by lia).
  cbn [Z.eqb]. unfold vmfault. rewrite (proj2 (Z.leb_gt (up_sz p) va0)) by lia. cbv zeta.
  assert (E0 : PGROUNDDOWN va0 = va0) by (rewrite PGROUNDDOWN_eq; lia). rewrite E0.
  apply bind_panic. unfold ismapped. apply bind_panic. unfold walk.
  by rewrite (proj2 (Z.leb_le MAXVA va0)) by lia.
Qed.
End vm_theorems.

(** ** The theorems on the concrete machine *)

#[local] Existing Instance Demo.layout.

Lemma kalloc_conserves_pages_witness :
  wp (kinit;; client [OpAlloc; OpAlloc; OpFree 1] []) (fun used _ s' => exists fl,
    kmem_inv s' fl /\ NoDup (fl ++ used)) Demo.thread {| k_mem := ∅; k_freelist := 0 |}.
Proof.
  eapply wp_mono; [apply kalloc_conserves_pages; [done|apply Demo.unlocked]|].
  intros used t' s' (_ & fl & K & Hn & _). exists fl. by split.
Defined.

Lemma kfree_rejects_bad_address_witness :
  kfree (Demo.P 0 + 8) Demo.thread Demo.state = Panic "kfree" Demo.thread Demo.state.
Proof. apply kfree_rejects_bad_address. by intros [E _]. Defined.

(** Discharge a hypothesis of a theorem on the concrete machine. *)
Ltac demo :=
  lazymatch goal with
  | |- vm_inv _ _ _ _ => apply Demo.vm_ok
  | |- guarded _ _ => apply Demo.guarded_ok
  | |- unmapped _ _ _ _ => intros i Hi; apply Demo.empty_table; by (left + right)
  | |- Demo.child ∈ _ => apply Demo.child_user
  | |- elem_of (A := Z) _ _ => apply Demo.parent_user
  | |- mappable _ _ _ _ _ _ => apply Demo.mappable_ok
  | |- kmem_lock ∉ _ => apply Demo.unlocked
  | |- _ => by vm_compute
  end.

Lemma mappages_maps_witness :
  wp (mappages Demo.parent TRAMPOLINE (1 * PGSIZE) KERNBASE (Z.lor PTE_R PTE_X)) (fun r _ _ => r = 0 \/ r = -1)
    Demo.thread Demo.state.
Proof.
  eapply wp_mono; [apply (mappages_maps Demo.users Demo.own Demo.free); try demo|].
  intros r t' s' (_ & own' & fl' & d & _ & _ & [[-> _]|[-> _]]); auto.
Defined.

Lemma uvmdealloc_frees_witness :
  wp (uvmdealloc Demo.parent 8192 100) (fun r _ _ => r = 100) Demo.thread Demo.state.
Proof.
  eapply wp_mono; [apply (uvmdealloc_frees Demo.users Demo.own Demo.free); try demo|].
  intros r t' s' (_ & -> & _). done.
Defined.

Lemma uvmalloc_all_or_nothing_witness :
  wp (uvmalloc Demo.parent 0 8192 PTE_W) (fun r _ _ => r = 8192 \/ r = 0) Demo.thread Demo.state.
Proof.
  eapply wp_mono; [apply (uvmalloc_all_or_nothing Demo.users Demo.own Demo.free); try demo|].
  intros r t' s' (_ & own' & fl' & [[-> _]|[-> _]]); auto.
Defined.

Lemma vmfault_is_transparent_witness :
  wp (vmfault Demo.proc Demo.parent 5000) (fun r _ s' => umem (k_mem s') Demo.parent 5000 = chr 0)
    Demo.thread Demo.state.
Proof.
  eapply wp_mono; [apply (vmfault_is_transparent Demo.users Demo.own Demo.free _ _ Demo.proc); try demo|].
  intros r t' s' (_ & own' & fl' & U & _). rewrite (us_mem _ _ _ _ _ _ _ U); [|demo|demo].
  unfold umem. by rewrite Demo.empty_table by (by left).
Defined.

Lemma uvmcopy_copies_memory_witness :
  wp (uvmcopy Demo.parent Demo.child 8192) (fun r _ _ => r = 0 \/ r = -1) Demo.thread Demo.state.
Proof.
  eapply wp_mono; [apply (uvmcopy_copies_memory Demo.users Demo.own Demo.free); try demo|].
  intros r t' s' (_ & own' & fl' & _ & [[-> _]|[-> _]]); auto.
Defined.


Lemma copyin_reads_witness :
  wp (copyin Demo.proc Demo.parent 4094 3) (fun r _ _ => r.1 = 0 \/ r.1 = -1) Demo.thread Demo.state.
Proof.
  eapply wp_mono; [apply (copyin_reads Demo.users Demo.own Demo.free _ _ Demo.proc 4094 3); try demo|].
  intros r t' s' (_ & own' & fl' & d & _ & _ & [[-> _]|[-> _]]); auto.
Defined.

Lemma copyinstr_reads_string_witness :
  exists r, copyinstr Demo.parent 100 16 Demo.thread Demo.state = Done r Demo.thread Demo.state /\
    copyinstr_post Demo.state Demo.parent [] 100 16 r.
Proof. apply (copyinstr_reads_string Demo.users Demo.own Demo.free); demo. Defined.

Lemma copyin_beyond_maxva_panics_witness :
  copyin {| up_sz := MAXVA + 2 * PGSIZE; up_pagetable := Demo.parent |} Demo.parent MAXVA 1
    Demo.thread Demo.state = Panic "walk" Demo.thread Demo.state.
Proof. apply copyin_beyond_maxva_panics; by vm_compute. Defined.
