(* ===== verification/Spinlock.v ===== *)
(** * Spinlock: kernel/spinlock.c on several CPUs

    The lock routines run one atomic access at a time, with the accesses of
    the CPUs interleaved by an arbitrary schedule.  The state has the lock
    words, the [noff] and [intena] fields of each struct cpu and the
    interrupt-enable bit of each hart; [m_held] records the locks each CPU
    is inside of, latest first, which is what the rest of the development
    calls the locks a thread holds. *)

From S2P Require Import Prelude.

(** struct spinlock; a lock is named by its address. *)
Record spinlock := { sl_locked : Z; sl_name : string; sl_cpu : option Z }.

(** The fields of struct cpu that spinlock.c uses, and the SIE bit of sstatus. *)
Record cpu := { noff : Z; intena : bool; sie : bool }.

Definition initlock (name : string) : spinlock := {| sl_locked := 0; sl_name := name; sl_cpu := None |}.

Definition push_off (c : cpu) : cpu :=
  let old := sie c in
  {| noff := noff c + 1; intena := if noff c =? 0 then old else intena c; sie := false |}.

Definition pop_off (c : cpu) : cpu + string :=
  if sie c then inr "pop_off - interruptible"
  else if noff c <? 1 then inr "pop_off"
  else
    let n := noff c - 1 in
    inl {| noff := n; intena := intena c; sie := if (n =? 0) && intena c then true else sie c |}.

(** Where a CPU is inside [acquire] or [release] of a lock. *)
Inductive pc :=
| Idle
| AcqHolding1 (l : Z)  (** [holding] reads lk->locked *)
| AcqHolding2 (l : Z)  (** [holding] reads lk->cpu *)
| AcqSwap (l : Z)      (** the atomic swap of the spin loop *)
| AcqCpu (l : Z)       (** lk->cpu = mycpu() *)
| RelHolding1 (l : Z)
| RelHolding2 (l : Z)
| RelCpu (l : Z)       (** lk->cpu = 0 *)
| RelSwap (l : Z)      (** __sync_lock_release *)
| RelPop (l : Z)       (** pop_off() *)
| Panicked (msg : string).

(** What the code running on a CPU outside the lock routines does next. *)
Inductive call := CAcquire (l : Z) | CRelease (l : Z) | CIntrOn | CIntrOff.

Record mach := {
  m_locks : Z -> spinlock;
  m_cpus : Z -> cpu;
  m_pc : Z -> pc;
  m_held : Z -> list Z
}.

Definition at_pc (c : Z) (p : pc) (s : mach) : mach :=
  {| m_locks := m_locks s; m_cpus := m_cpus s; m_pc := <[c := p]> (m_pc s); m_held := m_held s |}.
Definition with_lock (l : Z) (k : spinlock) (s : mach) : mach :=
  {| m_locks := <[l := k]> (m_locks s); m_cpus := m_cpus s; m_pc := m_pc s; m_held := m_held s |}.
Definition with_cpu (c : Z) (k : cpu) (s : mach) : mach :=
  {| m_locks := m_locks s; m_cpus := <[c := k]> (m_cpus s); m_pc := m_pc s; m_held := m_held s |}.
Definition with_held (c : Z) (h : list Z) (s : mach) : mach :=
  {| m_locks := m_locks s; m_cpus := m_cpus s; m_pc := m_pc s; m_held := <[c := h]> (m_held s) |}.

Definition set_locked (v : Z) (k : spinlock) : spinlock :=
  {| sl_locked := v; sl_name := sl_name k; sl_cpu := sl_cpu k |}.
Definition set_cpu (v : option Z) (k : spinlock) : spinlock :=
  {| sl_locked := sl_locked k; sl_name := sl_name k; sl_cpu := v |}.
Definition set_sie (b : bool) (k : cpu) : cpu := {| noff := noff k; intena := intena k; sie := b |}.

(** One step of CPU [c]; [cmd] is only looked at outside the lock routines.
    The code outside them changes the interrupt-enable bit only while it is
    not inside a [push_off]. *)
Definition step (c : Z) (cmd : call) (s : mach) : mach :=
  match m_pc s c with
  | Idle =>
      match cmd with
      | CAcquire l => at_pc c (AcqHolding1 l) (with_cpu c (push_off (m_cpus s c)) s)
      | CRelease l => at_pc c (RelHolding1 l) s
      | CIntrOn => if noff (m_cpus s c) =? 0 then with_cpu c (set_sie true (m_cpus s c)) s else s
      | CIntrOff => if noff (m_cpus s c) =? 0 then with_cpu c (set_sie false (m_cpus s c)) s else s
      end
  | AcqHolding1 l =>
      if nz (sl_locked (m_locks s l)) then at_pc c (AcqHolding2 l) s else at_pc c (AcqSwap l) s
  | AcqHolding2 l =>
      if decide (sl_cpu (m_locks s l) = Some c) then at_pc c (Panicked "acquire") s
      else at_pc c (AcqSwap l) s
  | AcqSwap l =>
      let old := sl_locked (m_locks s l) in
      let s := with_lock l (set_locked 1 (m_locks s l)) s in
      if nz old then s else at_pc c (AcqCpu l) s
  | AcqCpu l =>
      at_pc c Idle (with_held c (l :: m_held s c) (with_lock l (set_cpu (Some c) (m_locks s l)) s))
  | RelHolding1 l =>
      if nz (sl_locked (m_locks s l)) then at_pc c (RelHolding2 l) s else at_pc c (Panicked "release") s
  | RelHolding2 l =>
      if decide (sl_cpu (m_locks s l) = Some c) then at_pc c (RelCpu l) s
      else at_pc c (Panicked "release") s
  | RelCpu l =>
      at_pc c (RelSwap l)
        (with_held c (filter (.≠ l) (m_held s c)) (with_lock l (set_cpu None (m_locks s l)) s))
  | RelSwap l => at_pc c (RelPop l) (with_lock l (set_locked 0 (m_locks s l)) s)
  | RelPop l =>
      match pop_off (m_cpus s c) with
      | inl k => at_pc c Idle (with_cpu c k s)
      | inr msg => at_pc c (Panicked msg) s
      end
  | Panicked _ => s
  end.

(** An interleaving: which CPU runs next, and what it calls if it is idle. *)
Definition schedule := list (Z * call).

Fixpoint exec (sch : schedule) (s : mach) : mach :=
  match sch with
  | [] => s
  | (c, cmd) :: sch => exec sch (step c cmd s)
  end.

(** Boot: every lock was initialised, no CPU is inside a lock. *)
Definition boot (on : Z -> bool) : mach :=
  {| m_locks := fun _ => initlock "lock"; m_cpus := fun c => {| noff := 0; intena := false; sie := on c |};
     m_pc := fun _ => Idle; m_held := fun _ => [] |}.

(** ** Invariant *)

(** The CPU has won the lock's swap and not yet released it. *)
Definition owns (s : mach) (c l : Z) : Prop :=
  l ∈ m_held s c \/ m_pc s c = AcqCpu l \/ m_pc s c = RelSwap l.

(** The [push_off]s not matched by a held lock. *)
Definition pending (p : pc) : Z :=
  match p with
  | AcqHolding1 _ | AcqHolding2 _ | AcqSwap _ | AcqCpu _ | RelSwap _ | RelPop _ => 1
  | _ => 0
  end.

Record lock_inv (s : mach) : Prop := {
  li_excl : forall c c' l, owns s c l -> owns s c' l -> c = c';
  li_locked : forall l, sl_locked (m_locks s l) = 0 \/ sl_locked (m_locks s l) = 1;
  li_free : forall l, sl_locked (m_locks s l) = 0 <-> forall c, ~ owns s c l;
  li_cpu : forall c l, sl_cpu (m_locks s l) = Some c <-> l ∈ m_held s c;
  li_rel : forall c l, m_pc s c = RelCpu l -> l ∈ m_held s c;
  li_swap : forall c l, m_pc s c = AcqSwap l -> l ∉ m_held s c;
  li_nodup : forall c, NoDup (m_held s c);
  li_acq : forall c l, m_pc s c = AcqCpu l \/ m_pc s c = RelSwap l -> l ∉ m_held s c;
  li_noff : forall c, (forall msg, m_pc s c <> Panicked msg) ->
    noff (m_cpus s c) = Z.of_nat (length (m_held s c)) + pending (m_pc s c);
  li_sie : forall c, 0 < noff (m_cpus s c) -> sie (m_cpus s c) = false
}.

(** ** The invariant is kept *)

(** A step outside the swap and the owner field: nothing is won or released. *)
Definition neutral (p : pc) : Prop := forall l, p <> AcqCpu l /\ p <> RelSwap l.

Lemma owns_goto s c p c' l :
  neutral (m_pc s c) -> neutral p -> owns (at_pc c p s) c' l <-> owns s c' l.
Proof.
  intros Hn Hp. unfold owns; simpl. rewrite upd_eq. case_decide as E; [subst c'|done].
  specialize (Hn l). specialize (Hp l). tauto.
Qed.

Lemma inv_goto s c p :
  lock_inv s -> neutral (m_pc s c) -> neutral p ->
  (forall l, p = RelCpu l -> l ∈ m_held s c) -> (forall l, p = AcqSwap l -> l ∉ m_held s c) ->
  ((exists msg, p = Panicked msg) \/
   (forall msg, m_pc s c <> Panicked msg) /\ pending p = pending (m_pc s c)) ->
  lock_inv (at_pc c p s).
Proof.
  intros I Hn Hp Hr Hs Hpend. pose proof (owns_goto s c p) as O. split; simpl; try apply I.
  - intros c1 c2 l. rewrite !O by done. apply I.
  - intros l. rewrite (li_free s I l). split; intros H c'; specialize (H c'); by rewrite O in *.
  - intros c' l. rewrite upd_eq. case_decide as E; [subst c'; apply Hr|apply I].
  - intros c' l. rewrite upd_eq. case_decide as E; [subst c'; apply Hs|apply I].
  - intros c' l. rewrite upd_eq. case_decide as E; [subst c'|apply I]. specialize (Hp l). tauto.
  - intros c'. rewrite upd_eq. case_decide as E; [subst c'|apply I].
    intros Hnp. destruct Hpend as [[msg ->]|[Hold ->]]; [by destruct (Hnp msg)|by apply I].
Qed.

Lemma li_cpu_none s l : lock_inv s -> sl_locked (m_locks s l) = 0 -> sl_cpu (m_locks s l) = None.
Proof.
  intros I E. destruct (sl_cpu (m_locks s l)) as [c|] eqn:Ec; [|done].
  apply (li_cpu s I) in Ec. apply (li_free s I) with (c := c) in E. by destruct E; left.
Qed.

(** The swap found the lock free. *)
Lemma inv_win s c l :
  lock_inv s -> m_pc s c = AcqSwap l -> sl_locked (m_locks s l) = 0 ->
  lock_inv (at_pc c (AcqCpu l) (with_lock l (set_locked 1 (m_locks s l)) s)).
Proof.
  intros I Hpc E0. pose proof (proj1 (li_free s I l) E0) as Hfree.
  assert (O : forall c' l', owns (at_pc c (AcqCpu l) (with_lock l (set_locked 1 (m_locks s l)) s)) c' l' <->
    owns s c' l' \/ c' = c /\ l' = l).
  { intros c' l'. unfold owns; simpl. rewrite upd_eq. case_decide as E; [subst c'|naive_solver].
    rewrite Hpc. naive_solver. }
  split; simpl.
  - intros c1 c2 l'. rewrite !O. intros [H1|[-> ->]] [H2|[-> E2]]; try done.
    + by eapply I.
    + subst. by destruct (Hfree c1).
    + by destruct (Hfree c2).
  - intros l'. rewrite upd_eq. case_decide; [by right|apply I].
  - intros l'. rewrite upd_eq. case_decide as E; [subst l'|].
    + simpl. split; [done|]. intros H. destruct (H c). apply O. by right.
    + rewrite (li_free s I l'). split; intros H c'; specialize (H c'); rewrite O in *; naive_solver.
  - intros c' l'. rewrite <-(li_cpu s I). rewrite upd_eq. case_decide as E; [by subst l'|done].
  - intros c' l'. rewrite upd_eq. case_decide; [done|apply I].
  - intros c' l'. rewrite upd_eq. case_decide; [done|apply I].
  - apply I.
  - intros c' l'. rewrite upd_eq. case_decide as E; [subst c'|apply I].
    intros [[= <-]|?] Hin; [|done]. apply (Hfree c). by left.
  - intros c'. rewrite upd_eq. case_decide as E; [subst c'|apply I].
    intros _. rewrite (li_noff s I) by (by rewrite Hpc). by rewrite Hpc.
  - apply I.
Qed.

(** lk->cpu = mycpu(): the lock is held. *)
Lemma inv_own s c l :
  lock_inv s -> m_pc s c = AcqCpu l ->
  lock_inv (at_pc c Idle (with_held c (l :: m_held s c)
    (with_lock l (set_cpu (Some c) (m_locks s l)) s))).
Proof.
  intros I Hpc. assert (Hown : owns s c l) by (unfold owns; auto).
  assert (Hnin := li_acq s I c l (or_introl Hpc)).
  assert (Hothers : forall c', l ∈ m_held s c' -> False).
  { intros c' Hin. assert (c' = c) as -> by (eapply (li_excl s I); [left|]; done). done. }
  assert (O : forall c' l', owns (at_pc c Idle (with_held c (l :: m_held s c)
    (with_lock l (set_cpu (Some c) (m_locks s l)) s))) c' l' <-> owns s c' l').
  { intros c' l'. unfold owns; simpl. rewrite !upd_eq. case_decide as E; [subst c'|done].
    rewrite Hpc, elem_of_cons. naive_solver. }
  split; simpl.
  - intros c1 c2 l'. rewrite !O. apply I.
  - intros l'. rewrite upd_eq. case_decide as E; [subst l'|]; apply I.
  - intros l'. rewrite upd_eq. transitivity (sl_locked (m_locks s l') = 0).
    { case_decide as E; [by subst l'|done]. }
    rewrite (li_free s I l'). split; intros H c'; specialize (H c'); by rewrite O in *.
  - intros c' l'. rewrite !upd_eq. case_decide as E; [subst l'|]; simpl.
    + case_decide as E; [subst c'|].
      * rewrite elem_of_cons. naive_solver.
      * split; [congruence|]. intros Hin. by destruct (Hothers c').
    + rewrite (li_cpu s I). case_decide as E'; [subst c'|done]. rewrite elem_of_cons. naive_solver.
  - intros c' l'. rewrite !upd_eq. case_decide; [done|apply I].
  - intros c' l'. rewrite !upd_eq. case_decide; [done|apply I].
  - intros c'. rewrite upd_eq. case_decide; [subst; constructor; [done|apply I]|apply I].
  - intros c' l'. rewrite !upd_eq. case_decide; [by intros [?|?]|apply I].
  - intros c'. rewrite !upd_eq. case_decide as E; [subst c'|apply I].
    intros _. rewrite (li_noff s I) by (by rewrite Hpc). rewrite Hpc. simpl. lia.
  - apply I.
Qed.

Lemma filter_ne_id (l : Z) (h : list Z) : l ∉ h -> filter (.≠ l) h = h.
Proof.
  induction h as [|x h IH]; [done|]. rewrite not_elem_of_cons, filter_cons. intros [Hx Hin].
  rewrite decide_True by done. f_equal. auto.
Qed.

Lemma length_filter_ne (l : Z) (h : list Z) : NoDup h -> l ∈ h -> length h = S (length (filter (.≠ l) h)).
Proof.
  induction h as [|x h IH]; [by intros _ ?%not_elem_of_nil|].
  intros [Hx Hnd]%NoDup_cons [->|Hin]%elem_of_cons; rewrite filter_cons.
  - rewrite decide_False by naive_solver. simpl. by rewrite filter_ne_id.
  - rewrite decide_True by (intros ->; done). simpl. f_equal. by apply IH.
Qed.

(** lk->cpu = 0: the lock is no longer held. *)
Lemma inv_disown s c l :
  lock_inv s -> m_pc s c = RelCpu l ->
  lock_inv (at_pc c (RelSwap l) (with_held c (filter (.≠ l) (m_held s c))
    (with_lock l (set_cpu None (m_locks s l)) s))).
Proof.
  intros I Hpc. assert (Hin := li_rel s I c l Hpc).
  assert (O : forall c' l', owns (at_pc c (RelSwap l) (with_held c (filter (.≠ l) (m_held s c))
    (with_lock l (set_cpu None (m_locks s l)) s))) c' l' <-> owns s c' l').
  { intros c' l'. unfold owns; simpl. rewrite !upd_eq. case_decide as E; [subst c'|done].
    rewrite Hpc, list_elem_of_filter. destruct (decide (l' = l)); naive_solver. }
  split; simpl.
  - intros c1 c2 l'. rewrite !O. apply I.
  - intros l'. rewrite upd_eq. case_decide as E; [subst l'|]; apply I.
  - intros l'. rewrite upd_eq. transitivity (sl_locked (m_locks s l') = 0).
    { case_decide as E; [by subst l'|done]. }
    rewrite (li_free s I l'). split; intros H c'; specialize (H c'); by rewrite O in *.
  - intros c' l'. rewrite !upd_eq. case_decide as E; [subst l'|]; simpl.
    + split; [done|]. case_decide as E; [subst c'; by intros [? _]%list_elem_of_filter|].
      intros Hin'. destruct E. eapply (li_excl s I); left; done.
    + rewrite (li_cpu s I). case_decide as E'; [subst c'|done]. rewrite list_elem_of_filter. naive_solver.
  - intros c' l'. rewrite !upd_eq. case_decide; [done|apply I].
  - intros c' l'. rewrite !upd_eq. case_decide; [done|apply I].
  - intros c'. rewrite upd_eq. case_decide; [subst; by apply NoDup_filter, I|apply I].
  - intros c' l'. rewrite !upd_eq. case_decide; [|apply I].
    intros [?|[= <-]]; [done|]. by intros [? _]%list_elem_of_filter.
  - intros c'. rewrite !upd_eq. case_decide as E; [subst c'|apply I].
    intros _. rewrite (li_noff s I) by (by rewrite Hpc). rewrite Hpc. simpl.
    rewrite (length_filter_ne l (m_held s c)) by (done || apply I). lia.
  - apply I.
Qed.

(** __sync_lock_release: the lock is free. *)
Lemma inv_free s c l :
  lock_inv s -> m_pc s c = RelSwap l ->
  lock_inv (at_pc c (RelPop l) (with_lock l (set_locked 0 (m_locks s l)) s)).
Proof.
  intros I Hpc. assert (Hown : owns s c l) by (unfold owns; auto).
  assert (Hnin := li_acq s I c l (or_intror Hpc)).
  assert (O : forall c' l', owns (at_pc c (RelPop l) (with_lock l (set_locked 0 (m_locks s l)) s)) c' l' <->
    owns s c' l' /\ ~ (c' = c /\ l' = l)).
  { intros c' l'. unfold owns; simpl. rewrite upd_eq. case_decide as E; [subst c'|naive_solver].
    rewrite Hpc. destruct (decide (l' = l)); naive_solver. }
  split; simpl.
  - intros c1 c2 l'. rewrite !O. intros [? _] [? _]. by eapply I.
  - intros l'. rewrite upd_eq. case_decide; [by left|apply I].
  - intros l'. rewrite upd_eq. case_decide as E; [subst l'|].
    + simpl. split; [|done]. intros _ c' [Ho Hne]%O. apply Hne. split; [|done]. by eapply I.
    + rewrite (li_free s I l'). split; intros H c'; specialize (H c'); rewrite O in *; naive_solver.
  - intros c' l'. rewrite <-(li_cpu s I). rewrite upd_eq. case_decide as E; [by subst l'|done].
  - intros c' l'. rewrite upd_eq. case_decide; [done|apply I].
  - intros c' l'. rewrite upd_eq. case_decide; [done|apply I].
  - apply I.
  - intros c' l'. rewrite upd_eq. case_decide as E; [by intros [?|?]|apply I].
  - intros c'. rewrite upd_eq. case_decide as E; [subst c'|apply I].
    intros _. rewrite (li_noff s I) by (by rewrite Hpc). by rewrite Hpc.
  - apply I.
Qed.

(** A change of the CPU's own fields together with a neutral step. *)
Lemma inv_cpu s c k p :
  lock_inv s -> neutral (m_pc s c) -> neutral p -> (forall l, p <> RelCpu l) -> (forall l, p <> AcqSwap l) ->
  noff k = Z.of_nat (length (m_held s c)) + pending p -> (0 < noff k -> sie k = false) ->
  lock_inv (at_pc c p (with_cpu c k s)).
Proof.
  intros I Hn Hp Hr Hs Hnoff Hsie. pose proof (owns_goto (with_cpu c k s) c p) as O. split; simpl; try apply I.
  - intros c1 c2 l. rewrite !O by done. apply I.
  - intros l. rewrite (li_free s I l). split; intros H c'; specialize (H c'); by rewrite O in *.
  - intros c' l. rewrite upd_eq. case_decide as E; [intros ->; by destruct (Hr l)|apply I].
  - intros c' l. rewrite upd_eq. case_decide as E; [intros ->; by destruct (Hs l)|apply I].
  - intros c' l. rewrite upd_eq. case_decide as E; [subst c'; specialize (Hp l); tauto|apply I].
  - intros c'. rewrite !upd_eq. case_decide as E; [subst c'; done|apply I].
  - intros c'. rewrite !upd_eq. case_decide as E; [done|apply I].
Qed.

Lemma with_cpu_idle s c k : m_pc s c = Idle -> forall c', m_pc (at_pc c Idle (with_cpu c k s)) c' = m_pc s c'.
Proof. intros E c'. simpl. rewrite upd_eq. by case_decide; subst. Qed.

(** Invariants only look at the fields pointwise. *)
Lemma inv_ext s s' :
  lock_inv s -> (forall l, m_locks s' l = m_locks s l) -> m_held s' = m_held s -> m_cpus s' = m_cpus s ->
  (forall c, m_pc s' c = m_pc s c) -> lock_inv s'.
Proof.
  intros I El Eh Ec Ep.
  assert (O : forall c l, owns s' c l <-> owns s c l) by (intros c l; unfold owns; by rewrite Eh, Ep).
  split.
  - intros c c' l. rewrite !O. apply I.
  - intros l. rewrite El. apply I.
  - intros l. rewrite El, (li_free s I l). split; intros H c'; specialize (H c'); by rewrite O in *.
  - intros c l. rewrite El, Eh. apply I.
  - intros c l. rewrite Eh, Ep. apply I.
  - intros c l. rewrite Eh, Ep. apply I.
  - rewrite Eh. apply I.
  - intros c l. rewrite Eh, Ep. apply I.
  - intros c. rewrite Eh, Ep, Ec. apply I.
  - rewrite Ec. apply I.
Qed.

Ltac neutral_tac := let l := fresh in intros l; by split.

Lemma step_inv c cmd s : lock_inv s -> lock_inv (step c cmd s).
Proof.
  intros I. unfold step. destruct (m_pc s c) as [|l|l|l|l|l|l|l|l|l|msg] eqn:Hpc.
  - destruct cmd as [l|l| |].
    + apply inv_cpu; rewrite ?Hpc; try done; try neutral_tac.
      simpl. rewrite (li_noff s I) by (by rewrite Hpc). rewrite Hpc. simpl. lia.
    + apply inv_goto; rewrite ?Hpc; try done; try neutral_tac. right. by split.
    + destruct (Z.eqb_spec (noff (m_cpus s c)) 0) as [E|]; [|done].
      apply (inv_ext (at_pc c Idle (with_cpu c (set_sie true (m_cpus s c)) s))); try done.
      2:{ intros c'. by rewrite with_cpu_idle. }
      apply inv_cpu; rewrite ?Hpc; try done; try neutral_tac; simpl; [|lia].
      rewrite (li_noff s I) by (by rewrite Hpc). by rewrite Hpc.
    + destruct (Z.eqb_spec (noff (m_cpus s c)) 0) as [E|]; [|done].
      apply (inv_ext (at_pc c Idle (with_cpu c (set_sie false (m_cpus s c)) s))); try done.
      2:{ intros c'. by rewrite with_cpu_idle. }
      apply inv_cpu; rewrite ?Hpc; try done; try neutral_tac; simpl.
      rewrite (li_noff s I) by (by rewrite Hpc). by rewrite Hpc.
  - destruct (nz (sl_locked (m_locks s l))) eqn:E;
      apply inv_goto; rewrite ?Hpc; try done; try neutral_tac; try (right; by split).
    intros l' [= <-] Hin. unfold nz in E. apply negb_false_iff, Z.eqb_eq in E.
    apply (li_free s I l) with (c := c) in E. by destruct E; left.
  - case_decide as E; apply inv_goto; rewrite ?Hpc; try done; try neutral_tac.
    + left. by eexists.
    + intros l' [= <-] Hin. by apply E, (li_cpu s I).
    + right. by split.
  - cbv zeta. destruct (nz (sl_locked (m_locks s l))) eqn:E; unfold nz in E.
    + assert (E1 : sl_locked (m_locks s l) = 1).
      { destruct (li_locked s I l) as [E0|]; [by rewrite E0 in E|done]. }
      apply (inv_ext s); try done. intros l'. simpl. rewrite upd_eq. case_decide; [subst l'|done].
      destruct (m_locks s l); simpl in *. by subst.
    + apply inv_win; try done. by apply negb_false_iff, Z.eqb_eq in E.
  - by apply inv_own.
  - destruct (nz (sl_locked (m_locks s l))) eqn:E;
      apply inv_goto; rewrite ?Hpc; try done; try neutral_tac; [right; by split|left; by eexists].
  - case_decide as E; apply inv_goto; rewrite ?Hpc; try done; try neutral_tac.
    + intros l' [= <-]. by apply (li_cpu s I).
    + right. by split.
    + left. by eexists.
  - by apply inv_disown.
  - by apply inv_free.
  - pose proof (li_noff s I c) as Hn. rewrite Hpc in Hn. specialize (Hn ltac:(done)). simpl in Hn.
    unfold pop_off. rewrite (li_sie s I) by lia. rewrite (proj2 (Z.ltb_ge _ _)) by lia.
    apply inv_cpu; rewrite ?Hpc; try done; try neutral_tac; simpl; [lia|].
    destruct (Z.eqb_spec (noff (m_cpus s c) - 1) 0); [lia|done].
  - done.
Qed.

Lemma boot_inv on : lock_inv (boot on).
Proof.
  assert (O : forall c l, ~ owns (boot on) c l).
  { intros c l [?%not_elem_of_nil|[?|?]]; done. }
  split; simpl; try done.
  - intros c c' l H. by destruct (O c l).
  - by left.
  - intros c l. split; [done|by intros ?%not_elem_of_nil].
  - intros _. constructor.
  - by intros c l [?|?].
Qed.

Lemma exec_inv sch s : lock_inv s -> lock_inv (exec sch s).
Proof. revert s. induction sch as [|[c cmd] sch IH]; intros s I; simpl; [done|]. by apply IH, step_inv. Qed.

(** ** What the kernel relies on *)

(** The abstract locks: a CPU takes a lock that nobody holds and gives back
    one it holds. *)
Inductive abs_step (c : Z) (h : Z -> list Z) : (Z -> list Z) -> Prop :=
| abs_stutter : abs_step c h h
| abs_acquire l : (forall c', l ∉ h c') -> abs_step c h (<[c := l :: h c]> h)
| abs_release l : l ∈ h c -> abs_step c h (<[c := filter (.≠ l) (h c)]> h).

(** C14: under every interleaving of the CPUs, two CPUs are never inside the
    same lock, and [holding] answers whether the CPU is inside it. *)
Theorem spinlock_mutual_exclusion on sch c c' l :
  let s := exec sch (boot on) in
  (l ∈ m_held s c -> l ∈ m_held s c' -> c = c') /\
  (sl_locked (m_locks s l) <> 0 /\ sl_cpu (m_locks s l) = Some c <-> l ∈ m_held s c).
Proof.
  cbv zeta. pose proof (exec_inv sch _ (boot_inv on)) as I. split.
  - intros H1 H2. eapply (li_excl _ I); left; done.
  - rewrite (li_cpu _ I). split; [by intros [_ ?]|]. intros Hin. split; [|done].
    intros E. apply (li_free _ I) with (c := c) in E. by destruct E; left.
Qed.

(** C28: every step of the lock routines is a step of the abstract locks, a
    CPU panics in [acquire] only for a lock it already holds, in [release] only
    for a lock it does not hold, and [pop_off] never panics. *)
Theorem spinlock_refines_abstract_locks on sch c cmd :
  let s := exec sch (boot on) in
  let s' := step c cmd s in
  abs_step c (m_held s) (m_held s') /\
  match m_pc s c, m_pc s' c with
  | AcqHolding1 l, Panicked msg | AcqHolding2 l, Panicked msg => msg = "acquire" /\ l ∈ m_held s c
  | RelHolding1 l, Panicked msg | RelHolding2 l, Panicked msg => msg = "release" /\ l ∉ m_held s c
  | AcqSwap l, _ => l ∉ m_held s c /\ forall msg, m_pc s' c <> Panicked msg
  | Panicked _, _ => True
  | _, Panicked _ => False
  | _, _ => True
  end.
Proof.
  cbv zeta. pose proof (exec_inv sch _ (boot_inv on)) as I. set (s := exec sch (boot on)) in *.
  unfold step. destruct (m_pc s c) as [|l|l|l|l|l|l|l|l|l|msg] eqn:Hpc.
  - split; [destruct cmd; simpl; try case_match; constructor|].
    destruct cmd; simpl; [by rewrite upd_eq, decide_True..| |];
      destruct (noff (m_cpus s c) =? 0); simpl; by rewrite Hpc.
  - destruct (nz (sl_locked (m_locks s l))); simpl; (split; [constructor|]);
      by rewrite upd_eq, decide_True.
  - case_decide as E; simpl; (split; [constructor|]); rewrite upd_eq, decide_True by done; [|done].
    split; [done|]. by apply (li_cpu s I).
  - assert (Hs := li_swap s I c l Hpc).
    cbv zeta. destruct (nz (sl_locked (m_locks s l))); simpl; (split; [constructor|]); (split; [done|]).
    + by rewrite Hpc.
    + by rewrite upd_eq, decide_True.
  - simpl. split; [|by rewrite upd_eq, decide_True]. apply abs_acquire. intros c' Hin.
    assert (c' = c) as -> by (eapply (li_excl s I c' c l); [by left|right; by left]).
    by eapply (li_acq s I); [left|].
  - destruct (nz (sl_locked (m_locks s l))) eqn:E; simpl; (split; [constructor|]);
      rewrite upd_eq, decide_True by done; [done|]. split; [done|]. intros Hin.
    apply negb_false_iff, Z.eqb_eq in E. apply (li_free s I) with (c := c) in E. by destruct E; left.
  - case_decide as E; simpl; (split; [constructor|]); rewrite upd_eq, decide_True by done; [done|].
    split; [done|]. by rewrite <-(li_cpu s I).
  - simpl. split; [by apply abs_release, (li_rel s I)|]. by rewrite upd_eq, decide_True.
  - simpl. split; [constructor|]. by rewrite upd_eq, decide_True.
  - pose proof (li_noff s I c) as Hn. rewrite Hpc in Hn. specialize (Hn ltac:(done)). simpl in Hn.
    unfold pop_off. rewrite (li_sie s I) by lia. rewrite (proj2 (Z.ltb_ge _ _)) by lia. simpl.
    split; [constructor|]. by rewrite upd_eq, decide_True.
  - split; [constructor|]. done.
Qed.

(** interrupts are off on a CPU that is inside a lock or inside the lock
    routines past [push_off], and on an idle CPU [noff] counts its locks. *)
Theorem spinlock_interrupts_off on sch c :
  let s := exec sch (boot on) in
  (m_held s c <> [] -> (forall msg, m_pc s c <> Panicked msg) -> sie (m_cpus s c) = false) /\
  (m_pc s c = Idle -> noff (m_cpus s c) = Z.of_nat (length (m_held s c))).
Proof.
  cbv zeta. pose proof (exec_inv sch _ (boot_inv on)) as I. set (s := exec sch (boot on)) in *. split.
  - intros Hh Hp. apply (li_sie s I). rewrite (li_noff s I) by done.
    assert (0 <= pending (m_pc s c)) by (by destruct (m_pc s c)). destruct (m_held s c); simpl; [done|lia].
  - intros Hpc. rewrite (li_noff s I); rewrite Hpc; [simpl; lia|done].
Qed.

(** Two CPUs contend for lock 5; the second one enters after the first has left. *)
Example contention :
  let c1 := (1, CAcquire 5) in let c2 := (2, CAcquire 5) in let r1 := (1, CRelease 5) in
  let s1 := exec [c1; c2; c1; c2; c1; c2; c1; c2] (boot (fun _ => true)) in
  let s2 := exec ([r1; r1; r1; r1; r1; r1] ++ [c2; c2; c2]) s1 in
  m_held s1 1 = [5] /\ m_held s1 2 = [] /\ m_held s2 1 = [] /\ m_held s2 2 = [5] /\
  sie (m_cpus s2 1) = true /\ sie (m_cpus s2 2) = false.
Proof. by vm_compute. Qed.
