(* ===== verification/Sleeplock.v ===== *)
(** * Sleeplock: kernel/sleeplock.c

    A sleep lock is a field of a larger object, a buffer or an inode: the
    routines take where the lock is in the component's state, the spinlock
    that protects it and the channel its waiters sleep on. *)

From S2P Require Import Prelude.

(** struct sleeplock; its spinlock is the lock identifier [lk]. *)
Record sleeplock := { sk_locked : Z; sk_pid : Z }.

Definition initsleeplock : sleeplock := {| sk_locked := 0; sk_pid := 0 |}.

(** The lock of a sleep lock is not the lock of a process. *)
Definition plain (l : lockid) : Prop := l.1 <> "proc"%string.

(** What [sleep] does: the thread gives up the CPU holding its own lock, and
    comes back as it was. *)
Lemma sleep_asleep {S} (ch : chan) (lk : lockid) t (s : S) :
  plain lk -> t_held t = [lk] ->
  exists t1 k, sleep ch lk t s = Asleep ch t1 s k /\ forall s', k t1 s' = Done tt t s'.
Proof.
  intros Hp Ht. destruct t as [held p pid pat tr]; simpl in Ht; subst held.
  assert (Hne : proc_lock p <> lk) by (intros Ee; apply Hp; by rewrite <-Ee).
  exists {| t_held := [proc_lock p]; t_proc := p; t_pid := pid; t_patience := pat; t_trace := tr |}. eexists.
  unfold sleep, mbind, M_bind, self. simpl.
  rewrite acquire_done by (simpl; by rewrite not_elem_of_cons; split; [|apply not_elem_of_nil]). simpl.
  unfold release at 1. rewrite decide_True by (simpl; by rewrite !elem_of_cons; right; left). simpl.
  unfold switch, unhold; simpl. rewrite !(decide_False (P := proc_lock p = lk)) by done.
  rewrite !(decide_True (P := lk = lk)) by done. rewrite decide_True by done.
  simpl. split; [done|]. intros s'.
  unfold release. simpl. rewrite decide_True by (by rewrite elem_of_cons; left). simpl.
  unfold unhold; simpl. rewrite decide_True by done. by rewrite acquire_done by (simpl; apply not_elem_of_nil).
Qed.

(** Waiting under a rely [R], with a condition [J] that [R] keeps. *)
Lemma wait_rg {S} (R G : S -> S -> Prop) (J : S -> Prop) (cond : S -> bool) (ch : chan) (lk : lockid) n t s0 s
  (Q : S -> unit -> tctx -> S -> Prop) :
  plain lk -> t_held t = [lk] ->
  (forall s1, J s1 -> G s1 s1) -> (forall s1 s2, J s1 -> R s1 s2 -> J s2) ->
  G s0 s -> J s -> (cond s = false -> Q s0 tt t s) -> (forall s1, J s1 -> cond s1 = false -> Q s1 tt t s1) ->
  rg R G s0 (wait_loop n cond ch lk t s) Q.
Proof.
  intros Hp Ht HG HR. revert s0 s. induction n as [|n IH]; intros s0 s HGs HJ HQ0 HQ; cbn [wait_loop];
    destruct (cond s) eqn:E; try (by apply HQ0); [done|].
  apply (rg_bind R G (sleep ch lk)). destruct (sleep_asleep ch lk t s Hp Ht) as (t1 & k & Es & Hk).
  rewrite Es. simpl. split; [done|]. intros s' HRs. rewrite Hk. simpl.
  apply IH; eauto.
Qed.

Section sleeplock.
Context {S : Type} (rd : S -> sleeplock) (wr : sleeplock -> S -> S) (lk : lockid) (ch : chan).

Definition acquiresleep : M S unit :=
  acquire lk;;
  wait_while (fun s => nz (sk_locked (rd s))) ch lk;;
  t ← self;
  modify (wr {| sk_locked := 1; sk_pid := t_pid t |});;
  release lk.

Definition releasesleep : M S unit :=
  acquire lk;;
  modify (wr {| sk_locked := 0; sk_pid := 0 |});;
  wakeup ch;;
  release lk.

Definition holdingsleep : M S bool :=
  acquire lk;;
  s ← get;
  t ← self;
  let r := nz (sk_locked (rd s)) && (sk_pid (rd s) =? t_pid t) in
  release lk;;
  mret r.

(** ** Lemmas *)

Lemma acquiresleep_wp (Q : unit -> tctx -> S -> Prop) t s :
  lk ∉ t_held t -> sk_locked (rd s) = 0 ->
  Q tt t (wr {| sk_locked := 1; sk_pid := t_pid t |} s) -> wp acquiresleep Q t s.
Proof.
  intros Hl E HQ. unfold acquiresleep. wp_steps. eapply wp_done; [|].
  { unfold wait_while. destruct (t_patience (hold lk t)); simpl; by rewrite E. }
  wp_steps. by simpl.
Qed.

Lemma wakeup_done t s :
  Forall plain (t_held t) -> wakeup (S := S) ch t s = Done tt (emit_event (EWake ch) t) s.
Proof.
  intros Hp. unfold wakeup. rewrite decide_True; [done|].
  apply Forall_forall. intros l Hl%(proj1 (Forall_forall _ _) Hp) E. by destruct Hl.
Qed.

Lemma releasesleep_wp (Q : unit -> tctx -> S -> Prop) t s :
  lk ∉ t_held t -> plain lk -> Forall plain (t_held t) ->
  Q tt (emit_event (EWake ch) t) (wr {| sk_locked := 0; sk_pid := 0 |} s) -> wp releasesleep Q t s.
Proof.
  intros Hl Hp Ht HQ. unfold releasesleep. wp_steps.
  eapply wp_done; [apply wakeup_done; by constructor|].
  assert (E : emit_event (EWake ch) (hold lk t) = hold lk (emit_event (EWake ch) t)) by done.
  rewrite E. wp_steps. done.
Qed.

Lemma holdingsleep_wp (Q : bool -> tctx -> S -> Prop) t s :
  lk ∉ t_held t ->
  Q (nz (sk_locked (rd s)) && (sk_pid (rd s) =? t_pid t)) t s -> wp holdingsleep Q t s.
Proof. intros Hl HQ. unfold holdingsleep. by wp_steps. Qed.

(** ** Theorems *)

Section interference.
Context (I : S -> Prop).
Hypothesis Hproc : plain lk.

(** A thread that gives up the CPU in [sleep] comes back holding what it held. *)
Lemma sleep_safe t s (Q : unit -> tctx -> S -> Prop) :
  t_held t = [lk] -> I s -> (forall s', I s' -> Q tt t s') -> safe I (sleep ch lk) Q t s.
Proof using Hproc.
  intros Ht HI HQ. destruct (sleep_asleep ch lk t s Hproc Ht) as (t1 & k & E & Hk).
  unfold safe. rewrite E. split; [done|]. intros s' HI'. rewrite Hk. by apply HQ.
Qed.

Lemma wait_safe (cond : S -> bool) n t s :
  t_held t = [lk] -> I s ->
  safe I (wait_loop n cond ch lk) (fun _ t' s' => t' = t /\ I s' /\ cond s' = false) t s.
Proof using Hproc.
  intros Ht. revert s. induction n as [|n IH]; intros s HI; unfold safe; cbn [wait_loop];
    destruct (cond s) eqn:E; try done.
  apply (safe_bind I (sleep ch lk)). apply sleep_safe; auto.
Qed.

(** Whatever the other threads do while it waits, as long as they keep
    [I], a thread that returns from [acquiresleep] took the lock in a state where
    it was free, so the lock has one owner; a thread that waits has left the
    state satisfying [I], and the kernel does not panic. *)
Theorem acquiresleep_takes_free_lock t s :
  t_held t = [] -> I s ->
  safe I acquiresleep (fun _ t' s' => t' = t /\
    exists s0, I s0 /\ sk_locked (rd s0) = 0 /\
      s' = wr {| sk_locked := 1; sk_pid := t_pid t |} s0) t s.
Proof using Hproc.
  intros Ht HI. unfold acquiresleep. apply safe_bind, wp_safe.
  apply wp_acquire; [by rewrite Ht; apply not_elem_of_nil|]. apply safe_bind.
  eapply osafe_mono; [apply wait_safe; [simpl; by rewrite Ht|done]|].
  intros [] t' s' (-> & HI' & E). apply wp_safe. wp_steps. split; [done|]. exists s'.
  split_and!; try done. unfold nz in E. by apply negb_false_iff, Z.eqb_eq in E.
Qed.
End interference.
End sleeplock.

(** A lone sleep lock: the state is the lock. *)
Lemma acquiresleep_takes_free_lock_witness :
  let t := {| t_held := []; t_proc := 3; t_pid := 7; t_patience := 2; t_trace := [] |} in
  safe (fun _ => True) (acquiresleep (fun k => k) (fun k _ => k) ("sleep lock", 0) ("sleeplock", 0))
    (fun _ t' s' => t' = t /\ sk_pid s' = 7) t {| sk_locked := 1; sk_pid := 4 |}.
Proof.
  eapply osafe_mono; [by apply (acquiresleep_takes_free_lock (fun k => k) (fun k _ => k)
    ("sleep lock", 0) ("sleeplock", 0) (fun _ => True))|].
  by intros [] t s (-> & s0 & _ & _ & ->).
Defined.
