(* ===== verification/Layout.v ===== *)
(** * Layout: fields of on-disk structures

    The kernel overlays C structs on the bytes of a buffer.  [rdn] and [wrn]
    read and write an [n]-byte little-endian field at an offset. *)

From coqutil Require Import Word.LittleEndianList.
From S2P Require Import Prelude.

Definition rdn (n : nat) (l : list byte) (off : Z) : Z :=
  le_combine (take n (drop (Z.to_nat off) l)).

(** Replace the bytes at [off]. *)
Definition splice (l : list byte) (off : Z) (x : list byte) : list byte :=
  take (Z.to_nat off) l ++ x ++ drop (Z.to_nat off + length x) l.

Definition wrn (n : nat) (l : list byte) (off v : Z) : list byte := splice l off (le_split n v).

Abbreviation rd32 := (rdn 4).
Abbreviation wr32 := (wrn 4).
Abbreviation rd16 := (rdn 2).
Abbreviation wr16 := (wrn 2).

(** The bytes [off .. off+n). *)
Definition slice (l : list byte) (off n : Z) : list byte :=
  take (Z.to_nat n) (drop (Z.to_nat off) l).

(** ** Lemmas *)

Section splice.
Implicit Types (l x : list byte).

Lemma length_splice l off x :
  0 <= off -> off + Z.of_nat (length x) <= Z.of_nat (length l) -> length (splice l off x) = length l.
Proof. intros Ho Hle. unfold splice. rewrite !length_app, length_take, length_drop. lia. Qed.

Lemma lookup_splice l off x i :
  0 <= off -> off + Z.of_nat (length x) <= Z.of_nat (length l) ->
  splice l off x !! i =
  if decide (off <= Z.of_nat i < off + Z.of_nat (length x)) then x !! (i - Z.to_nat off)%nat else l !! i.
Proof.
  intros Ho Hle. unfold splice. case_decide as Hi.
  - rewrite lookup_app_r by (rewrite length_take; lia). rewrite length_take, Nat.min_l by lia.
    apply lookup_app_l. lia.
  - destruct (decide (Z.of_nat i < off)).
    + rewrite lookup_app_l by (rewrite length_take; lia). apply lookup_take_lt. lia.
    + rewrite lookup_app_r by (rewrite length_take; lia). rewrite length_take, Nat.min_l by lia.
      rewrite lookup_app_r by lia. rewrite lookup_drop. f_equal. lia.
Qed.

Lemma slice_splice_same l off x :
  0 <= off -> off + Z.of_nat (length x) <= Z.of_nat (length l) ->
  slice (splice l off x) off (Z.of_nat (length x)) = x.
Proof.
  intros Ho Hle. unfold slice, splice. rewrite drop_app_length' by (rewrite length_take; lia).
  by rewrite Nat2Z.id, take_app_length.
Qed.

Lemma slice_splice_other l off x a n :
  0 <= off -> off + Z.of_nat (length x) <= Z.of_nat (length l) -> 0 <= a -> 0 <= n ->
  a + n <= off \/ off + Z.of_nat (length x) <= a ->
  slice (splice l off x) a n = slice l a n.
Proof.
  intros Ho Hle Ha Hn Hd. unfold slice. apply list_eq. intros i.
  destruct (decide (i < Z.to_nat n)%nat).
  - rewrite !lookup_take_lt, !lookup_drop by done. rewrite lookup_splice by done.
    by rewrite decide_False by lia.
  - by rewrite !lookup_take_ge by lia.
Qed.

Lemma rdn_slice n l off : rdn n l off = le_combine (slice l off (Z.of_nat n)).
Proof. unfold rdn, slice. by rewrite Nat2Z.id. Qed.

Lemma rdn_wrn n l off v :
  0 <= off -> off + Z.of_nat n <= Z.of_nat (length l) ->
  rdn n (wrn n l off v) off = v mod 2 ^ (Z.of_nat n * 8).
Proof.
  intros Ho Hle. rewrite rdn_slice. unfold wrn.
  rewrite <-(length_le_split n v) at 2. rewrite slice_splice_same by (rewrite ?length_le_split; done).
  apply le_combine_split.
Qed.

Lemma slice_wrn_other n l off v a k :
  0 <= off -> off + Z.of_nat n <= Z.of_nat (length l) -> 0 <= a -> 0 <= k ->
  a + k <= off \/ off + Z.of_nat n <= a -> slice (wrn n l off v) a k = slice l a k.
Proof. intros. unfold wrn. apply slice_splice_other; rewrite ?length_le_split; lia. Qed.

Lemma rdn_wrn_other n k l off v a :
  0 <= off -> off + Z.of_nat n <= Z.of_nat (length l) -> 0 <= a ->
  a + Z.of_nat k <= off \/ off + Z.of_nat n <= a ->
  rdn k (wrn n l off v) a = rdn k l a.
Proof.
  intros Ho Hle Ha Hd. rewrite !rdn_slice. f_equal. apply slice_wrn_other; lia.
Qed.

Lemma length_wrn n l off v :
  0 <= off -> off + Z.of_nat n <= Z.of_nat (length l) -> length (wrn n l off v) = length l.
Proof. intros. unfold wrn. apply length_splice; rewrite ?length_le_split; done. Qed.

Lemma rdn_range n l off : 0 <= rdn n l off < 2 ^ (8 * Z.of_nat n).
Proof.
  unfold rdn. pose proof (le_combine_bound (take n (drop (Z.to_nat off) l))) as Hb.
  assert (Hlen : (length (take n (drop (Z.to_nat off) l)) <= n)%nat) by (rewrite length_take; lia).
  split; [lia|]. eapply Z.lt_le_trans; [apply Hb|]. apply Z.pow_le_mono_r; lia.
Qed.

Lemma length_slice l off n :
  0 <= off -> 0 <= n -> off + n <= Z.of_nat (length l) -> length (slice l off n) = Z.to_nat n.
Proof. intros. unfold slice. rewrite length_take, length_drop. lia. Qed.
End splice.

Lemma i32_small x : - 2 ^ 31 <= x < 2 ^ 31 -> i32 (x mod 2 ^ 32) = x.
Proof.
  intros Hx. unfold i32. rewrite Zplus_mod_idemp_l. rewrite Z.mod_small by lia. lia.
Qed.

Lemma i32_id x : 0 <= x < 2 ^ 31 -> i32 x = x.
Proof. intros Hx. unfold i32. rewrite Z.mod_small by lia. lia. Qed.

#[global] Opaque rdn wrn.
