(* ===== verification/Bio.v ===== *)
(** * Bio: the buffer cache of kernel/bio.c

    The array of buffers with its doubly linked list of links by index; the
    index [NBUF] stands for [bcache.head].  The disk below the cache is a
    map from block numbers to contents with the sequence of writes it has
    received, from which the states a crash can leave are read off. *)

From S2P Require Import Prelude Riscv Sleeplock.

Definition BSIZE : Z := 1024.

Abbreviation block := (list byte).

(** struct buf; [b_prev] and [b_next] are indices. *)
Record buf := {
  b_valid : Z;
  b_dev : Z;
  b_blockno : Z;
  b_lock : sleeplock;
  b_refcnt : Z;
  b_prev : Z;
  b_next : Z;
  b_data : block
}.

Record bcache := {
  bc_buf : Z -> buf;
  bc_disk : Z -> block;
  bc_writes : list (Z * block)
}.

Definition bhead : Z := NBUF.
Definition bcache_lock : lockid := ("bcache", 0).
Definition buf_lock (b : Z) : lockid := ("sleep lock", b).
Definition buf_chan (b : Z) : chan := ("buf", b).

Definition set_valid (v : Z) (b : buf) : buf :=
  {| b_valid := v; b_dev := b_dev b; b_blockno := b_blockno b; b_lock := b_lock b;
     b_refcnt := b_refcnt b; b_prev := b_prev b; b_next := b_next b; b_data := b_data b |}.
Definition set_lock (k : sleeplock) (b : buf) : buf :=
  {| b_valid := b_valid b; b_dev := b_dev b; b_blockno := b_blockno b; b_lock := k;
     b_refcnt := b_refcnt b; b_prev := b_prev b; b_next := b_next b; b_data := b_data b |}.
Definition set_refcnt (r : Z) (b : buf) : buf :=
  {| b_valid := b_valid b; b_dev := b_dev b; b_blockno := b_blockno b; b_lock := b_lock b;
     b_refcnt := r; b_prev := b_prev b; b_next := b_next b; b_data := b_data b |}.
Definition set_prev (p : Z) (b : buf) : buf :=
  {| b_valid := b_valid b; b_dev := b_dev b; b_blockno := b_blockno b; b_lock := b_lock b;
     b_refcnt := b_refcnt b; b_prev := p; b_next := b_next b; b_data := b_data b |}.
Definition set_next (n : Z) (b : buf) : buf :=
  {| b_valid := b_valid b; b_dev := b_dev b; b_blockno := b_blockno b; b_lock := b_lock b;
     b_refcnt := b_refcnt b; b_prev := b_prev b; b_next := n; b_data := b_data b |}.
Definition set_data (d : block) (b : buf) : buf :=
  {| b_valid := b_valid b; b_dev := b_dev b; b_blockno := b_blockno b; b_lock := b_lock b;
     b_refcnt := b_refcnt b; b_prev := b_prev b; b_next := b_next b; b_data := d |}.

(** A buffer recycled for another block. *)
Definition recycle (dev blockno : Z) (b : buf) : buf :=
  {| b_valid := 0; b_dev := dev; b_blockno := blockno; b_lock := b_lock b;
     b_refcnt := 1; b_prev := b_prev b; b_next := b_next b; b_data := b_data b |}.

(** Assign to a buffer. *)
Definition upd_buf (b : Z) (f : buf -> buf) (s : bcache) : bcache :=
  {| bc_buf := <[b := f (bc_buf s b)]> (bc_buf s); bc_disk := bc_disk s; bc_writes := bc_writes s |}.

Definition buf_acquiresleep (b : Z) : M bcache unit :=
  acquiresleep (fun s => b_lock (bc_buf s b)) (fun k => upd_buf b (set_lock k)) (buf_lock b) (buf_chan b).
Definition buf_releasesleep (b : Z) : M bcache unit :=
  releasesleep (fun k => upd_buf b (set_lock k)) (buf_lock b) (buf_chan b).
Definition buf_holdingsleep (b : Z) : M bcache bool :=
  holdingsleep (fun s => b_lock (bc_buf s b)) (buf_lock b).

(** The loop of [binit] over the buffers [b ..]. *)
Fixpoint binit_loop (n : nat) (b : Z) (s : bcache) : bcache :=
  match n with
  | O => s
  | S n =>
      let s := upd_buf b (set_next (b_next (bc_buf s bhead))) s in
      let s := upd_buf b (set_prev bhead) s in
      let s := upd_buf b (set_lock initsleeplock) s in
      let s := upd_buf (b_next (bc_buf s bhead)) (set_prev b) s in
      let s := upd_buf bhead (set_next b) s in
      binit_loop n (b + 1) s
  end.

Definition binit : M bcache unit :=
  modify (fun s =>
    let s := upd_buf bhead (set_prev bhead) s in
    let s := upd_buf bhead (set_next bhead) s in
    binit_loop (Z.to_nat NBUF) 0 s).

(** What virtio_disk_rw does for its caller once the device has finished:
    virtio_disk.c transfers the buffer's block to or from the disk. *)
Definition virtio_disk_rw (b : Z) (write : bool) : M bcache unit :=
  modify (fun s =>
    let bn := b_blockno (bc_buf s b) in
    if write then
      {| bc_buf := bc_buf s; bc_disk := <[bn := b_data (bc_buf s b)]> (bc_disk s);
         bc_writes := bc_writes s ++ [(bn, b_data (bc_buf s b))] |}
    else upd_buf b (set_data (bc_disk s bn)) s).

(** The first loop of [bget], from most to least recently used. *)
Fixpoint bget_cached (fuel : nat) (b dev blockno : Z) : M bcache (option Z) :=
  match fuel with
  | O => fuel_out
  | S fuel =>
      s ← get;
      if b =? bhead then mret None
      else if (b_dev (bc_buf s b) =? dev) && (b_blockno (bc_buf s b) =? blockno) then mret (Some b)
      else bget_cached fuel (b_next (bc_buf s b)) dev blockno
  end.

(** Its second loop, from least to most recently used. *)
Fixpoint bget_unused (fuel : nat) (b : Z) : M bcache (option Z) :=
  match fuel with
  | O => fuel_out
  | S fuel =>
      s ← get;
      if b =? bhead then mret None
      else if b_refcnt (bc_buf s b) =? 0 then mret (Some b)
      else bget_unused fuel (b_prev (bc_buf s b))
  end.

(** Both loops visit each buffer once and then [bcache.head]. *)
Definition bget_fuel : nat := S (Z.to_nat NBUF).

Definition bget (dev blockno : Z) : M bcache Z :=
  acquire bcache_lock;;
  s ← get;
  r ← bget_cached bget_fuel (b_next (bc_buf s bhead)) dev blockno;
  match r with
  | Some b =>
      modify (upd_buf b (fun k => set_refcnt (u32 (b_refcnt k + 1)) k));;
      release bcache_lock;;
      buf_acquiresleep b;;
      mret b
  | None =>
      s ← get;
      r ← bget_unused bget_fuel (b_prev (bc_buf s bhead));
      match r with
      | Some b =>
          modify (upd_buf b (recycle dev blockno));;
          release bcache_lock;;
          buf_acquiresleep b;;
          mret b
      | None => panic "bget: no buffers"
      end
  end.

Definition bread (dev blockno : Z) : M bcache Z :=
  b ← bget dev blockno;
  s ← get;
  if b_valid (bc_buf s b) =? 0
  then virtio_disk_rw b false;; modify (upd_buf b (set_valid 1));; mret b
  else mret b.

Definition bwrite (b : Z) : M bcache unit :=
  h ← buf_holdingsleep b;
  if negb h then panic "bwrite" else virtio_disk_rw b true.

(** Move a buffer to the front of the list. *)
Definition to_front (b : Z) (s : bcache) : bcache :=
  let s := upd_buf (b_next (bc_buf s b)) (set_prev (b_prev (bc_buf s b))) s in
  let s := upd_buf (b_prev (bc_buf s b)) (set_next (b_next (bc_buf s b))) s in
  let s := upd_buf b (set_next (b_next (bc_buf s bhead))) s in
  let s := upd_buf b (set_prev bhead) s in
  let s := upd_buf (b_next (bc_buf s bhead)) (set_prev b) s in
  upd_buf bhead (set_next b) s.

Definition brelse (b : Z) : M bcache unit :=
  h ← buf_holdingsleep b;
  if negb h then panic "brelse"
  else
    buf_releasesleep b;;
    acquire bcache_lock;;
    modify (upd_buf b (fun k => set_refcnt (u32 (b_refcnt k - 1)) k));;
    s ← get;
    (if b_refcnt (bc_buf s b) =? 0 then modify (to_front b) else mret tt);;
    release bcache_lock.

Definition bpin (b : Z) : M bcache unit :=
  acquire bcache_lock;;
  modify (upd_buf b (fun k => set_refcnt (u32 (b_refcnt k + 1)) k));;
  release bcache_lock.

Definition bunpin (b : Z) : M bcache unit :=
  acquire bcache_lock;;
  modify (upd_buf b (fun k => set_refcnt (u32 (b_refcnt k - 1)) k));;
  release bcache_lock.

(** The caller's reads of b->blockno and its reads and writes of b->data. *)
Definition bblockno (b : Z) : M bcache Z := gets (fun s => b_blockno (bc_buf s b)).
Definition bdata (b : Z) : M bcache block := gets (fun s => b_data (bc_buf s b)).
Definition set_bdata (b : Z) (d : block) : M bcache unit := modify (upd_buf b (set_data d)).

(** ** Specification *)

(** [next] leads from [x] through [l] to [y], and [prev] back. *)
Fixpoint linked (next prev : Z -> Z) (x : Z) (l : list Z) (y : Z) : Prop :=
  match l with
  | [] => next x = y /\ prev y = x
  | z :: l => next x = z /\ prev z = x /\ linked next prev z l y
  end.

(** The cache as its clients see it: the contents of each block, the disk
    below, the writes the disk received, the references that keep a block in
    the cache, and the buffers that are locked, with their block. *)
Record acache := {
  a_view : Z -> block;
  a_disk : Z -> block;
  a_writes : list (Z * block);
  a_pins : Z -> Z;
  a_locked : gmap Z Z
}.

Definition is_buf (b : Z) : Prop := 0 <= b < NBUF.

Record crep (dev pid : Z) (s : bcache) (a : acache) : Prop := {
  cr_list : exists lru, NoDup lru /\ (forall b, b ∈ lru <-> is_buf b) /\
    linked (fun i => b_next (bc_buf s i)) (fun i => b_prev (bc_buf s i)) bhead lru bhead;
  cr_dev : forall b, is_buf b -> b_dev (bc_buf s b) = 0 \/ b_dev (bc_buf s b) = dev;
  cr_uniq : forall b b', is_buf b -> is_buf b' -> b_dev (bc_buf s b) = dev -> b_dev (bc_buf s b') = dev ->
    b_blockno (bc_buf s b) = b_blockno (bc_buf s b') -> b = b';
  cr_refcnt : forall b, is_buf b -> b_refcnt (bc_buf s b) =
    if decide (b_dev (bc_buf s b) = dev)
    then a_pins a (b_blockno (bc_buf s b)) + (if decide (is_Some (a_locked a !! b)) then 1 else 0) else 0;
  cr_pins : forall bn, 0 <= a_pins a bn < 2 ^ 31 /\ (0 < a_pins a bn ->
    exists b, is_buf b /\ b_dev (bc_buf s b) = dev /\ b_blockno (bc_buf s b) = bn);
  cr_valid : forall b, is_buf b -> b_dev (bc_buf s b) = dev -> b_valid (bc_buf s b) <> 0;
  cr_locked : forall b bn, a_locked a !! b = Some bn ->
    is_buf b /\ b_dev (bc_buf s b) = dev /\ b_blockno (bc_buf s b) = bn;
  cr_lock : forall b, is_buf b -> b_lock (bc_buf s b) =
    if decide (is_Some (a_locked a !! b)) then {| sk_locked := 1; sk_pid := pid |} else initsleeplock;
  cr_view : forall b, is_buf b -> b_dev (bc_buf s b) = dev ->
    a_view a (b_blockno (bc_buf s b)) = b_data (bc_buf s b);
  cr_absent : forall bn, (forall b, is_buf b -> b_dev (bc_buf s b) = dev ->
      b_blockno (bc_buf s b) <> bn) -> a_view a bn = a_disk a bn;
  cr_clean : forall b, is_buf b -> b_dev (bc_buf s b) = dev ->
    b_refcnt (bc_buf s b) = 0 -> b_data (bc_buf s b) = a_disk a (b_blockno (bc_buf s b));
  cr_disk : bc_disk s = a_disk a /\ bc_writes s = a_writes a
}.
