(* ===== verification/BioSpec.v ===== *)
(** * BioSpec: the buffer cache implements a cached view of the disk *)

From S2P Require Import Prelude Riscv Sleeplock Bio.

(** ** The doubly linked list *)

Section links.
Implicit Types (next prev : Z -> Z) (l : list Z).

Lemma linked_ext next prev next' prev' x l y :
  linked next prev x l y ->
  (forall i, i = x \/ i ∈ l -> next' i = next i) -> (forall i, i ∈ l \/ i = y -> prev' i = prev i) ->
  linked next' prev' x l y.
Proof.
  revert x. induction l as [|z l IH]; intros x Hl Hn Hp; simpl in *.
  - by rewrite Hn, Hp by auto.
  - destruct Hl as (E1 & E2 & Hl). rewrite Hn by auto. rewrite Hp by (left; apply elem_of_cons; auto).
    split_and!; try done. apply IH; [done| |].
    + intros i Hi. apply Hn. right. apply elem_of_cons. naive_solver.
    + intros i Hi. apply Hp. rewrite elem_of_cons. naive_solver.
Qed.

Lemma linked_app next prev x l1 z l2 y :
  linked next prev x (l1 ++ z :: l2) y <-> linked next prev x l1 z /\ linked next prev z l2 y.
Proof.
  revert x. induction l1 as [|w l1 IH]; intros x; simpl; [tauto|]. rewrite IH. tauto.
Qed.

Lemma linked_rev next prev x l y : linked next prev x l y -> linked prev next y (reverse l) x.
Proof.
  revert x. induction l as [|z l IH]; intros x; simpl; [by intros [? ?]|].
  intros (E1 & E2 & Hl). rewrite reverse_cons. apply linked_app. split; [by apply IH|by split].
Qed.

(** The predecessor of the end of a chain. *)
Lemma linked_prev_end next prev x l y : linked next prev x l y -> prev y = x \/ prev y ∈ l.
Proof.
  revert x. induction l as [|z l IH]; intros x; simpl; [by intros [_ ?]; left|].
  intros (_ & _ & Hl). rewrite elem_of_cons. destruct (IH _ Hl); auto.
Qed.

Lemma linked_next_start next prev x l y : linked next prev x l y -> next x = y \/ next x ∈ l.
Proof.
  destruct l as [|z l]; simpl; [by intros [? _]; left|]. intros (-> & _). right. apply elem_of_cons. by left.
Qed.

(** Taking [b] out of the chain. *)
Lemma linked_unlink next prev x l1 b l2 y :
  linked next prev x (l1 ++ b :: l2) y -> NoDup (l1 ++ b :: l2) ->
  x ∉ l1 ++ b :: l2 -> y ∉ l1 ++ b :: l2 ->
  linked (<[prev b := next b]> next) (<[next b := prev b]> prev) x (l1 ++ l2) y.
Proof.
  revert x. induction l1 as [|z l1 IH]; intros x; simpl.
  - intros (E1 & E2 & Hl) [Hb Hnd]%NoDup_cons [Hxb Hx]%not_elem_of_cons [Hyb Hy]%not_elem_of_cons.
    destruct l2 as [|w l2]; simpl in *.
    + destruct Hl as [E3 E4]. rewrite E2, E3. by rewrite !upd_same.
    + destruct Hl as (E3 & E4 & Hl). rewrite E2, E3, !upd_same. split_and!; try done.
      apply NoDup_cons in Hnd as [Hw Hnd]. apply not_elem_of_cons in Hx as [Hxw Hx].
      apply not_elem_of_cons in Hy as [Hyw Hy].
      eapply linked_ext; [done| |]; intros i Hi; apply upd_other; intros <-; destruct Hi; congruence || done.
  - intros (E1 & E2 & Hl) [Hz Hnd]%NoDup_cons [Hxz Hx]%not_elem_of_cons [Hyz Hy]%not_elem_of_cons.
    assert (Hpb : prev b = z \/ prev b ∈ l1) by (apply linked_app in Hl as [Hl _]; by eapply linked_prev_end).
    assert (Hnb : next b = y \/ next b ∈ l2) by (apply linked_app in Hl as [_ Hl]; by eapply linked_next_start).
    assert (Hz' := Hz). rewrite not_elem_of_app, not_elem_of_cons in Hz', Hx.
    destruct Hz' as (Hz1 & Hzb & Hz2), Hx as (Hx1 & Hxb & Hx2). split_and!.
    + rewrite upd_other; [done|]. intros Ex. rewrite Ex in Hpb. destruct Hpb; [congruence|done].
    + rewrite upd_other; [done|]. intros Ex. rewrite Ex in Hnb. destruct Hnb; [congruence|done].
    + by apply IH.
Qed.

(** Putting [b] in front. *)
Lemma linked_push next prev x b l y :
  linked next prev x l y -> NoDup l -> b <> x -> b <> y -> b ∉ l -> x ∉ l -> y ∉ l ->
  linked (<[x := b]> (<[b := next x]> next)) (<[next x := b]> (<[b := x]> prev)) x (b :: l) y.
Proof.
  intros Hl Hnd Hbx Hby Hb Hx Hy. simpl.
  assert (Hnx : next x = y \/ next x ∈ l) by (by eapply linked_next_start).
  split_and!.
  - by rewrite upd_same.
  - rewrite upd_other by (intros Ex; rewrite Ex in Hnx; by destruct Hnx). by rewrite upd_same.
  - destruct l as [|z l]; simpl in *.
    + destruct Hl as [E1 E2]. rewrite E1. rewrite upd_other by done. by rewrite !upd_same.
    + destruct Hl as (E1 & E2 & Hl). rewrite E1. rewrite upd_other by done. rewrite !upd_same.
      apply NoDup_cons in Hnd as [Hz Hnd]. rewrite not_elem_of_cons in Hb, Hx, Hy.
      split_and!; try done. eapply linked_ext; [done| |].
      * intros i Hi. rewrite !upd_other; [done|..]; intros <-; destruct Hi; by intuition.
      * intros i Hi. rewrite !upd_other; [done|..]; intros <-; destruct Hi; by intuition.
Qed.
End links.

(** ** The search loops *)

Section search.
Context (t : tctx) (s : bcache).

Abbreviation nextf := (fun i => b_next (bc_buf s i)).
Abbreviation prevf := (fun i => b_prev (bc_buf s i)).

Lemma bget_cached_done dev bn l : forall x fuel,
  linked nextf prevf x l bhead -> bhead ∉ l -> (length l < fuel)%nat ->
  exists r, bget_cached fuel (b_next (bc_buf s x)) dev bn t s = Done r t s /\
    match r with
    | Some b => b ∈ l /\ b_dev (bc_buf s b) = dev /\ b_blockno (bc_buf s b) = bn
    | None => forall b, b ∈ l -> b_dev (bc_buf s b) = dev -> b_blockno (bc_buf s b) <> bn
    end.
Proof.
  induction l as [|z l IH]; intros x [|fuel] Hl Hh Hf; simpl in Hf; try lia; cbn [bget_cached].
  - cbn in Hl. destruct Hl as [-> _]. exists None. split; [done|]. by intros b ?%not_elem_of_nil.
  - cbn in Hl. destruct Hl as (-> & _ & Hl). apply not_elem_of_cons in Hh as [Hz Hh].
    unfold mbind, M_bind, get. cbn [obind]. rewrite (proj2 (Z.eqb_neq z bhead)) by done.
    destruct ((b_dev (bc_buf s z) =? dev) && (b_blockno (bc_buf s z) =? bn)) eqn:E.
    + exists (Some z). split; [done|]. split; [apply elem_of_cons; by left|lia].
    + destruct (IH z fuel Hl Hh ltac:(lia)) as (r & Hr & Hres). exists r. split; [done|].
      destruct r as [b|]; [|intros b [->|Hb]%elem_of_cons; [lia|auto]].
      destruct Hres. split; [apply elem_of_cons; by right|done].
Qed.

Lemma bget_unused_done l : forall x fuel,
  linked prevf nextf x l bhead -> bhead ∉ l -> (length l < fuel)%nat ->
  exists r, bget_unused fuel (b_prev (bc_buf s x)) t s = Done r t s /\
    match r with
    | Some b => b ∈ l /\ b_refcnt (bc_buf s b) = 0
    | None => forall b, b ∈ l -> b_refcnt (bc_buf s b) <> 0
    end.
Proof.
  induction l as [|z l IH]; intros x [|fuel] Hl Hh Hf; simpl in Hf; try lia; cbn [bget_unused].
  - cbn in Hl. destruct Hl as [-> _]. exists None. split; [done|]. by intros b ?%not_elem_of_nil.
  - cbn in Hl. destruct Hl as (-> & _ & Hl). apply not_elem_of_cons in Hh as [Hz Hh].
    unfold mbind, M_bind, get. cbn [obind]. rewrite (proj2 (Z.eqb_neq z bhead)) by done.
    destruct (Z.eqb_spec (b_refcnt (bc_buf s z)) 0) as [E|E].
    + exists (Some z). split; [done|]. split; [apply elem_of_cons; by left|lia].
    + destruct (IH z fuel Hl Hh ltac:(lia)) as (r & Hr & Hres). exists r. split; [done|].
      destruct r as [b|]; [|intros b [->|Hb]%elem_of_cons; [done|auto]].
      destruct Hres. split; [apply elem_of_cons; by right|done].
Qed.
End search.

(** ** The representation under changes of one buffer *)

(** [s'] is [s] with buffer [b] replaced by [nb]. *)
Definition one_buf (s s' : bcache) (b : Z) (nb : buf) : Prop :=
  forall c, bc_buf s' c = if decide (b = c) then nb else bc_buf s c.

Lemma one_buf_same s s' b nb : one_buf s s' b nb -> bc_buf s' b = nb.
Proof. intros E. rewrite E. by case_decide. Qed.

Lemma one_buf_other s s' b nb c : one_buf s s' b nb -> b <> c -> bc_buf s' c = bc_buf s c.
Proof. intros E Hc. rewrite E. by case_decide. Qed.

Lemma one_buf_upd b f s : one_buf s (upd_buf b f s) b (f (bc_buf s b)).
Proof. done. Qed.

Lemma one_buf_upd2 b f s s' nb : one_buf s s' b nb -> one_buf s (upd_buf b f s') b (f nb).
Proof.
  intros E c. simpl. rewrite upd_eq. case_decide as Ec; [|by eapply one_buf_other].
  by rewrite (one_buf_same _ _ _ _ E).
Qed.

Section rep.
Context (dev pid : Z).
Hypothesis Hdev : dev <> 0.

Definition lru_ok (s : bcache) : Prop := exists lru, NoDup lru /\ (forall b, b ∈ lru <-> is_buf b) /\
  linked (fun i => b_next (bc_buf s i)) (fun i => b_prev (bc_buf s i)) bhead lru bhead.

Lemma lru_ok_ext s s' :
  lru_ok s -> (forall c, b_next (bc_buf s' c) = b_next (bc_buf s c)) ->
  (forall c, b_prev (bc_buf s' c) = b_prev (bc_buf s c)) -> lru_ok s'.
Proof.
  intros (lru & Hnd & Hin & Hl) En Ep. exists lru. split_and!; try done.
  by eapply linked_ext; [exact Hl|..]; intros i _.
Qed.

(** The buffer [b] takes the role that [nb] and the abstract state [a'] say. *)
Record replaced (s : bcache) (a a' : acache) (b : Z) (nb : buf) : Prop := {
  ro_buf : is_buf b;
  ro_dev : b_dev nb = dev;
  ro_valid : b_valid nb <> 0;
  ro_uniq : forall b', is_buf b' -> b' <> b -> b_dev (bc_buf s b') = dev ->
    b_blockno (bc_buf s b') <> b_blockno nb;
  ro_old : b_dev (bc_buf s b) = dev -> b_blockno (bc_buf s b) <> b_blockno nb -> b_refcnt (bc_buf s b) = 0;
  ro_locked : forall b', b' <> b -> a_locked a' !! b' = a_locked a !! b';
  ro_locked_b : forall bn, a_locked a' !! b = Some bn -> bn = b_blockno nb;
  ro_lock : b_lock nb =
    if decide (is_Some (a_locked a' !! b)) then {| sk_locked := 1; sk_pid := pid |} else initsleeplock;
  ro_refcnt : b_refcnt nb =
    a_pins a' (b_blockno nb) + (if decide (is_Some (a_locked a' !! b)) then 1 else 0);
  ro_pins : forall bn, bn <> b_blockno nb -> a_pins a' bn = a_pins a bn;
  ro_pins_b : 0 <= a_pins a' (b_blockno nb) < 2 ^ 31;
  ro_view : forall bn, bn <> b_blockno nb -> a_view a' bn = a_view a bn;
  ro_view_b : a_view a' (b_blockno nb) = b_data nb;
  ro_disk : a_disk a' = a_disk a /\ a_writes a' = a_writes a;
  ro_clean : b_refcnt nb = 0 -> b_data nb = a_disk a (b_blockno nb)
}.

Lemma crep_replace s s' a a' b nb :
  crep dev pid s a -> replaced s a a' b nb -> one_buf s s' b nb -> lru_ok s' ->
  bc_disk s' = bc_disk s -> bc_writes s' = bc_writes s -> crep dev pid s' a'.
Proof using Hdev.
  intros R O E HL Ed Ew. destruct O as [Hb Hd Hv Hu Ho Hlk Hlkb Hlock Hrc Hpn Hpnb Hvw Hvwb [Edk Ewr] Hcl].
  assert (Hown : forall b', is_buf b' -> b' <> b -> b_dev (bc_buf s b') = dev ->
    b_blockno (bc_buf s b') <> b_blockno nb) by done.
  split.
  - done.
  - intros b' Hb'. rewrite E. destruct (decide (b = b')) as [Ec|Ec]; [by right|by apply (cr_dev _ _ _ _ R)].
  - intros b1 b2 H1 H2. rewrite !E.
    destruct (decide (b = b1)), (decide (b = b2)); subst; intros D1 D2 EB; try done.
    + by destruct (Hu b2 H2 ltac:(done) D2).
    + by destruct (Hu b1 H1 ltac:(done) D1).
    + by apply (cr_uniq _ _ _ _ R).
  - intros b' Hb'. rewrite E. destruct (decide (b = b')) as [Ec|Ec]; [subst b'|].
    + by rewrite decide_True.
    + rewrite Hlk by done. rewrite (cr_refcnt _ _ _ _ R b' Hb'). destruct (decide (b_dev (bc_buf s b') = dev)); [|done].
      rewrite Hpn; [done|]. by apply Hu.
  - intros bn. destruct (decide (bn = b_blockno nb)) as [->|Hne].
    + split; [done|]. intros _. exists b. rewrite (one_buf_same _ _ _ _ E). done.
    + rewrite Hpn by done. destruct (cr_pins _ _ _ _ R bn) as [Hr Hex]. split; [done|].
      intros Hpos. destruct (Hex Hpos) as (b' & Hb' & Hd' & Hbn). exists b'.
      destruct (decide (b' = b)) as [->|Hbb]; [|by rewrite (one_buf_other _ _ _ _ _ E)].
      exfalso. assert (Hz := Ho Hd' ltac:(congruence)). rewrite (cr_refcnt _ _ _ _ R b Hb) in Hz.
      rewrite decide_True, Hbn in Hz by done.
      destruct (decide (is_Some (a_locked a !! b))); lia.
  - intros b' Hb'. rewrite E. destruct (decide (b = b')); [done|by apply (cr_valid _ _ _ _ R)].
  - intros b' bn. destruct (decide (b' = b)) as [->|Hbb].
    + intros Hl. rewrite (one_buf_same _ _ _ _ E). by rewrite (Hlkb bn Hl).
    + rewrite Hlk, (one_buf_other _ _ _ _ _ E) by done. apply R.
  - intros b' Hb'. rewrite E. destruct (decide (b = b')) as [Ec|Ec]; [by subst b'|]. rewrite Hlk by done. by apply (cr_lock _ _ _ _ R).
  - intros b' Hb'. rewrite E. destruct (decide (b = b')) as [Ec|Ec]; [done|]. intros Hd'.
    rewrite Hvw by (by apply Hu). by apply (cr_view _ _ _ _ R).
  - intros bn Hno. rewrite Edk. assert (Hne : bn <> b_blockno nb).
    { intros ->. apply (Hno b Hb); by rewrite (one_buf_same _ _ _ _ E). }
    rewrite Hvw by done.
    destruct (decide (b_dev (bc_buf s b) = dev /\ b_blockno (bc_buf s b) = bn)) as [[Hd' Hbn]|Hnb].
    + rewrite <-Hbn, (cr_view _ _ _ _ R) by done. apply (cr_clean _ _ _ _ R); try done.
      apply Ho; congruence.
    + apply (cr_absent _ _ _ _ R). intros b' Hb' Hd' Hbn. destruct (decide (b' = b)) as [->|Hbb]; [tauto|].
      apply (Hno b' Hb'); by rewrite (one_buf_other _ _ _ _ _ E).
  - intros b' Hb'. rewrite E, Edk. destruct (decide (b = b')) as [Ec|Ec]; [done|by apply (cr_clean _ _ _ _ R)].
  - rewrite Ed, Ew, Edk, Ewr. apply R.
Qed.

(** ** A buffer to recycle *)

(** The blocks that are pinned or locked are among [P]. *)
Definition busy (a : acache) (P : gset Z) : Prop :=
  forall bn, (0 < a_pins a bn \/ exists b, a_locked a !! b = Some bn) -> bn ∈ P.

Lemma NoDup_subset_size (l : list Z) (P : gset Z) :
  NoDup l -> (forall x, x ∈ l -> x ∈ P) -> (length l <= size P)%nat.
Proof.
  intros Hnd Hin. rewrite <-(size_list_to_set (C := gset Z) l) by done.
  apply subseteq_size. intros x Hx%elem_of_list_to_set. auto.
Qed.

Lemma unused_buffer s a P :
  crep dev pid s a -> busy a P -> (size P < Z.to_nat NBUF)%nat ->
  (forall b, is_buf b -> b_refcnt (bc_buf s b) <> 0) -> False.
Proof.
  intros R HP Hsz Hall.
  assert (Hd : forall b, is_buf b -> b_dev (bc_buf s b) = dev /\ b_blockno (bc_buf s b) ∈ P).
  { intros b Hb. specialize (Hall b Hb). rewrite (cr_refcnt _ _ _ _ R b Hb) in Hall.
    destruct (decide (b_dev (bc_buf s b) = dev)) as [E|]; [|done]. split; [done|]. apply HP.
    destruct (decide (is_Some (a_locked a !! b))) as [[bn Hl]|]; [right|left].
    - exists b. rewrite Hl. f_equal. symmetry. by apply (cr_locked _ _ _ _ R).
    - pose proof (proj1 (cr_pins _ _ _ _ R (b_blockno (bc_buf s b)))). lia. }
  assert (Hbuf : forall x, x ∈ seqZ 0 NBUF -> is_buf x) by (intros x Hx%elem_of_seqZ; unfold is_buf; lia).
  pose proof (NoDup_subset_size ((fun b => b_blockno (bc_buf s b)) <$> seqZ 0 NBUF) P) as Hle.
  rewrite length_fmap, length_seqZ in Hle. enough (Z.to_nat NBUF <= size P)%nat by lia. apply Hle.
  - apply NoDup_fmap_2_strong; [|apply NoDup_seqZ]. intros x y Hx Hy Exy.
    apply (cr_uniq _ _ _ _ R); [by apply Hbuf..| | |done]; apply Hd; by apply Hbuf.
  - intros x (b & -> & Hb)%list_elem_of_fmap. apply Hd. by apply Hbuf.
Qed.

(** ** Operations *)

(** The locks the cache takes are not held by the thread. *)
Definition cache_unlocked (t : tctx) : Prop :=
  bcache_lock ∉ t_held t /\ (forall b, buf_lock b ∉ t_held t) /\ Forall plain (t_held t).

Definition with_locked (f : gmap Z Z -> gmap Z Z) (a : acache) : acache :=
  {| a_view := a_view a; a_disk := a_disk a; a_writes := a_writes a; a_pins := a_pins a;
     a_locked := f (a_locked a) |}.
Definition with_pins (f : (Z -> Z) -> Z -> Z) (a : acache) : acache :=
  {| a_view := a_view a; a_disk := a_disk a; a_writes := a_writes a; a_pins := f (a_pins a);
     a_locked := a_locked a |}.
Definition with_view (f : (Z -> block) -> Z -> block) (a : acache) : acache :=
  {| a_view := f (a_view a); a_disk := a_disk a; a_writes := a_writes a; a_pins := a_pins a;
     a_locked := a_locked a |}.
Definition with_write (bn : Z) (d : block) (a : acache) : acache :=
  {| a_view := a_view a; a_disk := <[bn := d]> (a_disk a); a_writes := a_writes a ++ [(bn, d)];
     a_pins := a_pins a; a_locked := a_locked a |}.

(** The block [bn] is not locked. *)
Definition unlocked (a : acache) (bn : Z) : Prop := forall b, a_locked a !! b <> Some bn.

Lemma lock_cached s s' a b :
  crep dev pid s a -> is_buf b -> b_dev (bc_buf s b) = dev -> a_locked a !! b = None ->
  one_buf s s' b (set_lock {| sk_locked := 1; sk_pid := pid |}
    (set_refcnt (u32 (b_refcnt (bc_buf s b) + 1)) (bc_buf s b))) ->
  bc_disk s' = bc_disk s -> bc_writes s' = bc_writes s ->
  crep dev pid s' (with_locked (<[b := b_blockno (bc_buf s b)]>) a).
Proof using Hdev.
  intros R Hb Hd Hl E Ed Ew. assert (Hrc := cr_refcnt _ _ _ _ R b Hb).
  rewrite decide_True, decide_False in Hrc by (done || (rewrite Hl; by intros [? ?])).
  pose proof (cr_pins _ _ _ _ R (b_blockno (bc_buf s b))) as [Hp _].
  eapply (crep_replace s); [exact R| |exact E| |done|done].
  - split; simpl; try done.
    + by apply (cr_valid _ _ _ _ R).
    + intros b' Hb' Hne Hd' Eb. apply Hne. by apply (cr_uniq _ _ _ _ R).
    + intros b' Hne. by rewrite lookup_insert_ne.
    + intros bn. rewrite lookup_insert_eq. by intros [= <-].
    + by rewrite lookup_insert_eq, decide_True.
    + rewrite lookup_insert_eq, decide_True by done. unfold u32. rewrite Z.mod_small by lia. lia.
    + by apply (cr_view _ _ _ _ R).
    + unfold u32. rewrite Z.mod_small by lia. lia.
  - eapply lru_ok_ext; [apply R|..]; intros c; rewrite E; by destruct (decide (b = c)) as [<-|].
Qed.

Lemma lock_recycled s s' a b bn :
  crep dev pid s a -> is_buf b -> b_refcnt (bc_buf s b) = 0 -> unlocked a bn ->
  (forall b', is_buf b' -> b_dev (bc_buf s b') = dev -> b_blockno (bc_buf s b') <> bn) ->
  one_buf s s' b (set_valid 1 (set_data (bc_disk s bn) (set_lock {| sk_locked := 1; sk_pid := pid |}
    (recycle dev bn (bc_buf s b))))) ->
  bc_disk s' = bc_disk s -> bc_writes s' = bc_writes s ->
  a_locked a !! b = None /\ crep dev pid s' (with_locked (<[b := bn]>) a).
Proof using Hdev.
  intros R Hb Hr0 Hun Hno E Ed Ew. assert (Hrc := cr_refcnt _ _ _ _ R b Hb).
  assert (Hl : a_locked a !! b = None).
  { destruct (a_locked a !! b) as [bn'|] eqn:El; [|done].
    destruct (cr_locked _ _ _ _ R _ _ El) as (_ & Hd & <-).
    rewrite Hr0, decide_True in Hrc by done. rewrite decide_True in Hrc by done.
    pose proof (proj1 (cr_pins _ _ _ _ R (b_blockno (bc_buf s b)))). lia. }
  split; [done|].
  assert (Hpin : a_pins a bn = 0).
  { destruct (cr_pins _ _ _ _ R bn) as [Hp Hex]. destruct (decide (0 < a_pins a bn)) as [Hpos|]; [|lia].
    destruct (Hex Hpos) as (b' & Hb' & Hd' & Ebn). by destruct (Hno b' Hb' Hd'). }
  eapply (crep_replace s); [exact R| |exact E| |done|done].
  - split; simpl; try done.
    + intros b' Hb' Hne Hd'. by apply Hno.
    + intros b' Hne. by rewrite lookup_insert_ne.
    + intros bn'. rewrite lookup_insert_eq. by intros [= <-].
    + by rewrite lookup_insert_eq, decide_True.
    + rewrite lookup_insert_eq, decide_True by done. lia.
    + lia.
    + rewrite (proj1 (cr_disk _ _ _ _ R)). by apply (cr_absent _ _ _ _ R).
  - eapply lru_ok_ext; [apply R|..]; intros c; rewrite E; by destruct (decide (b = c)) as [<-|].
Qed.

Lemma lru_lists s a : crep dev pid s a -> exists lru,
  (forall b, b ∈ lru <-> is_buf b) /\ bhead ∉ lru /\ (length lru < bget_fuel)%nat /\
  linked (fun i => b_next (bc_buf s i)) (fun i => b_prev (bc_buf s i)) bhead lru bhead.
Proof.
  intros R. destruct (cr_list _ _ _ _ R) as (lru & Hnd & Hin & Hl). exists lru. split_and!; try done.
  - rewrite Hin. unfold is_buf, bhead. lia.
  - pose proof (NoDup_subset_size lru (list_to_set (seqZ 0 NBUF)) Hnd) as Hle.
    rewrite size_list_to_set, length_seqZ in Hle by apply NoDup_seqZ. unfold bget_fuel.
    enough (length lru <= Z.to_nat NBUF)%nat by lia. apply Hle. intros x Hx%Hin.
    apply elem_of_list_to_set, elem_of_seqZ. unfold is_buf in Hx. lia.
Qed.

Lemma bread_wp t s a bn P :
  crep dev pid s a -> t_pid t = pid -> cache_unlocked t -> unlocked a bn ->
  0 < a_pins a bn \/ (busy a P /\ (size P < Z.to_nat NBUF)%nat) ->
  wp (bread dev bn) (fun b t' s' => t' = t /\ a_locked a !! b = None /\
    crep dev pid s' (with_locked (<[b := bn]>) a)) t s.
Proof using Hdev.
  intros R Hpid (Hc & Hbl & _) Hun HP. destruct (lru_lists s a R) as (lru & Hin & Hh & Hlen & Hl).
  unfold bread, bget. wp_steps.
  destruct (bget_cached_done (hold bcache_lock t) s dev bn lru bhead bget_fuel Hl Hh Hlen) as (r & Er & Hr).
  eapply wp_done; [exact Er|]. destruct r as [b|].
  - destruct Hr as (Hb%Hin & Hd & Ebn). wp_steps.
    assert (Hlk : a_locked a !! b = None).
    { destruct (a_locked a !! b) as [bn'|] eqn:El; [|done].
      destruct (cr_locked _ _ _ _ R _ _ El) as (_ & _ & E'). destruct (Hun b). congruence. }
    apply acquiresleep_wp; [apply Hbl| |].
    { simpl. rewrite upd_same. simpl. rewrite (cr_lock _ _ _ _ R b Hb).
      by rewrite decide_False by (rewrite Hlk; by intros [? ?]). }
    set (s' := upd_buf b (set_lock _) _).
    assert (E : one_buf s s' b (set_lock {| sk_locked := 1; sk_pid := pid |}
      (set_refcnt (u32 (b_refcnt (bc_buf s b) + 1)) (bc_buf s b)))).
    { rewrite <-Hpid. unfold s'. apply (one_buf_upd2 b).
      apply (one_buf_upd b (fun k => set_refcnt (u32 (b_refcnt k + 1)) k) s). }
    wp_steps. rewrite (one_buf_same _ _ _ _ E). simpl b_valid.
    rewrite (proj2 (Z.eqb_neq _ _)) by (by apply (cr_valid _ _ _ _ R)). wp_steps.
    split_and!; [done|done|]. rewrite <-Ebn. by eapply lock_cached.
  - wp_steps. pose proof (linked_rev _ _ _ _ _ Hl) as Hl'.
    destruct (bget_unused_done (hold bcache_lock t) s (reverse lru) bhead bget_fuel Hl') as (r & Er2 & Hr2).
    { by rewrite elem_of_reverse. } { by rewrite length_reverse. }
    eapply wp_done; [exact Er2|].
    assert (Hno : forall b', is_buf b' -> b_dev (bc_buf s b') = dev -> b_blockno (bc_buf s b') <> bn).
    { intros b' Hb'. apply Hr. by apply Hin. }
    destruct r as [b|].
    2:{ exfalso. destruct HP as [Hpin|[HP Hsz]].
        - destruct (proj2 (cr_pins _ _ _ _ R bn) Hpin) as (b & Hb & Hd & Ebn). by destruct (Hno b Hb Hd).
        - apply (unused_buffer s a P R HP Hsz). intros b Hb. apply Hr2. by rewrite elem_of_reverse, Hin. }
    destruct Hr2 as [Hb Hr0]. rewrite elem_of_reverse, Hin in Hb. wp_steps.
    apply acquiresleep_wp; [apply Hbl| |].
    { simpl. rewrite upd_same. simpl. rewrite (cr_lock _ _ _ _ R b Hb).
      case_decide as El; [|done]. exfalso. pose proof (cr_refcnt _ _ _ _ R b Hb) as Hrc.
      destruct El as [bn' El]. destruct (cr_locked _ _ _ _ R _ _ El) as (_ & Hd & _).
      rewrite decide_True in Hrc by done. rewrite decide_True in Hrc by (by exists bn').
      pose proof (proj1 (cr_pins _ _ _ _ R (b_blockno (bc_buf s b)))). lia. }
    set (s' := upd_buf b (set_lock _) _).
    assert (E : one_buf s s' b (set_lock {| sk_locked := 1; sk_pid := pid |} (recycle dev bn (bc_buf s b)))).
    { rewrite <-Hpid. unfold s'. apply (one_buf_upd2 b), (one_buf_upd b (recycle dev bn)). }
    wp_steps. rewrite (one_buf_same _ _ _ _ E). simpl b_valid. cbn [Z.eqb]. unfold virtio_disk_rw. wp_steps.
    rewrite (one_buf_same _ _ _ _ E). simpl b_blockno. cbv zeta.
    split; [done|]. eapply (lock_recycled s _ a b bn); [exact R|done|done|done|done| |done|done].
    apply (one_buf_upd2 b (set_valid 1)). apply (one_buf_upd2 b (set_data (bc_disk s bn))). exact E.
Qed.

(** The caller reads the contents of the block. *)
Lemma bdata_wp t s a b bn :
  crep dev pid s a -> a_locked a !! b = Some bn ->
  bdata b t s = Done (a_view a bn) t s.
Proof.
  intros R Hl. destruct (cr_locked _ _ _ _ R _ _ Hl) as (Hb & Hd & <-).
  unfold bdata, gets. by rewrite (cr_view _ _ _ _ R).
Qed.

Lemma bblockno_wp t s a b bn :
  crep dev pid s a -> a_locked a !! b = Some bn -> bblockno b t s = Done bn t s.
Proof.
  intros R Hl. destruct (cr_locked _ _ _ _ R _ _ Hl) as (Hb & Hd & <-). done.
Qed.

Lemma set_bdata_wp t s a b bn d :
  crep dev pid s a -> a_locked a !! b = Some bn ->
  wp (set_bdata b d) (fun _ t' s' => t' = t /\ crep dev pid s' (with_view (<[bn := d]>) a)) t s.
Proof using Hdev.
  intros R Hl. destruct (cr_locked _ _ _ _ R _ _ Hl) as (Hb & Hd & Ebn).
  assert (Hrc := cr_refcnt _ _ _ _ R b Hb).
  rewrite decide_True in Hrc by done. rewrite decide_True in Hrc by (by exists bn).
  pose proof (cr_pins _ _ _ _ R (b_blockno (bc_buf s b))) as [Hp _].
  unfold set_bdata. wp_steps. split; [done|].
  eapply (crep_replace s); [exact R| |apply one_buf_upd| |done|done].
  - split; simpl; try done.
    + by apply (cr_valid _ _ _ _ R).
    + intros b' Hb' Hne Hd' Eb. apply Hne. by apply (cr_uniq _ _ _ _ R).
    + intros bn' Hl'. congruence.
    + by apply (cr_lock _ _ _ _ R).
    + rewrite Hrc. by rewrite decide_True by (by exists bn).
    + intros bn' Hne. by rewrite upd_other by congruence.
    + by rewrite Ebn, upd_same.
    + lia.
  - eapply lru_ok_ext; [apply R|..]; intros c; simpl; rewrite upd_eq; by destruct (decide (b = c)) as [<-|].
Qed.

Lemma holding_locked t s a b bn :
  crep dev pid s a -> t_pid t = pid -> cache_unlocked t -> a_locked a !! b = Some bn ->
  buf_holdingsleep b t s = Done true t s.
Proof.
  intros R Hpid (_ & Hbl & _) Hl. destruct (cr_locked _ _ _ _ R _ _ Hl) as (Hb & _).
  assert (W : wp (buf_holdingsleep b) (fun r t' s' => r = true /\ t' = t /\ s' = s) t s).
  { apply holdingsleep_wp; [apply Hbl|]. split_and!; try done.
    rewrite (cr_lock _ _ _ _ R b Hb), decide_True by (by exists bn). simpl. by rewrite Hpid, Z.eqb_refl. }
  apply wp_inv in W as (r & t' & s' & -> & -> & -> & ->). done.
Qed.

Lemma bwrite_wp t s a b bn :
  crep dev pid s a -> t_pid t = pid -> cache_unlocked t -> a_locked a !! b = Some bn ->
  wp (bwrite b) (fun _ t' s' => t' = t /\ crep dev pid s' (with_write bn (a_view a bn) a)) t s.
Proof.
  intros R Hpid Ht Hl. destruct (cr_locked _ _ _ _ R _ _ Hl) as (Hb & Hd & Ebn).
  assert (Ev : b_data (bc_buf s b) = a_view a bn) by (rewrite <-Ebn; by rewrite (cr_view _ _ _ _ R)).
  unfold bwrite. wp_step. eapply wp_done; [by eapply holding_locked|]. simpl. unfold virtio_disk_rw.
  wp_steps. split; [done|]. cbv zeta. rewrite Ebn, Ev.
  destruct (cr_disk _ _ _ _ R) as [Ed Ew]. split; simpl; try apply R.
  - intros bn' Hno. rewrite upd_other; [by apply (cr_absent _ _ _ _ R)|]. intros <-. by apply (Hno b).
  - intros b' Hb' Hd' Hr0. rewrite upd_eq. case_decide as Ebb; [|by apply (cr_clean _ _ _ _ R)].
    assert (b' = b) as -> by (apply (cr_uniq _ _ _ _ R); congruence). done.
  - by rewrite Ed, Ew.
Qed.

(** ** Moving a buffer to the front *)

Lemma next_set_next x n s i :
  b_next (bc_buf (upd_buf x (set_next n) s) i) = (<[x := n]> (fun i => b_next (bc_buf s i))) i.
Proof. simpl. rewrite !upd_eq. by case_decide. Qed.
Lemma next_set_prev x p s i : b_next (bc_buf (upd_buf x (set_prev p) s) i) = b_next (bc_buf s i).
Proof. simpl. rewrite upd_eq. by case_decide; subst. Qed.
Lemma prev_set_prev x p s i :
  b_prev (bc_buf (upd_buf x (set_prev p) s) i) = (<[x := p]> (fun i => b_prev (bc_buf s i))) i.
Proof. simpl. rewrite !upd_eq. by case_decide. Qed.
Lemma prev_set_next x n s i : b_prev (bc_buf (upd_buf x (set_next n) s) i) = b_prev (bc_buf s i).
Proof. simpl. rewrite upd_eq. by case_decide; subst. Qed.

Lemma to_front_lru b s : lru_ok s -> is_buf b -> lru_ok (to_front b s).
Proof.
  intros (lru & Hnd & Hin & Hl) Hb. destruct (list_elem_of_split _ _ (proj2 (Hin b) Hb)) as (l1 & l2 & Elru).
  set (next := fun i => b_next (bc_buf s i)) in *. set (prev := fun i => b_prev (bc_buf s i)) in *.
  assert (Hh : bhead ∉ lru) by (rewrite Hin; unfold is_buf, bhead; lia).
  rewrite Elru in Hl, Hh, Hnd. assert (Hnd2 := Hnd). apply NoDup_app in Hnd2 as (Hn1 & Hd12 & Hn2).
  apply NoDup_cons in Hn2 as [Hb2 Hn2].
  assert (Hb1 : b ∉ l1) by (intros Hb1; apply (Hd12 b Hb1); apply elem_of_cons; by left).
  assert (Hbh : b <> bhead) by (intros ->; apply Hh; rewrite elem_of_app, elem_of_cons; auto).
  assert (Hnb : next b <> b).
  { apply linked_app in Hl as [_ Hl]. destruct (linked_next_start _ _ _ _ _ Hl) as [E|E]; congruence. }
  pose proof (linked_unlink _ _ _ _ _ _ _ Hl Hnd Hh Hh) as Hl1.
  assert (Hh' : bhead ∉ l1 ++ l2) by (revert Hh; rewrite !not_elem_of_app, not_elem_of_cons; tauto).
  assert (Hb' : b ∉ l1 ++ l2) by (by rewrite not_elem_of_app).
  assert (Hnd' : NoDup (l1 ++ l2)).
  { apply NoDup_app. split_and!; [done| |done]. intros x Hx Hx2. apply (Hd12 x Hx), elem_of_cons. by right. }
  pose proof (linked_push _ _ _ b _ _ Hl1 Hnd' Hbh Hbh Hb' Hh' Hh') as Hl2.
  exists (b :: l1 ++ l2). split_and!.
  - by constructor.
  - intros x. rewrite <-Hin, Elru, !elem_of_cons, !elem_of_app, elem_of_cons. tauto.
  - unfold to_front. set (s1 := upd_buf (b_next (bc_buf s b)) _ s).
    assert (E1 : b_prev (bc_buf s1 b) = prev b) by (unfold s1; rewrite prev_set_prev; by apply upd_other).
    assert (E2 : b_next (bc_buf s1 b) = next b) by (unfold s1; apply next_set_prev).
    rewrite E1, E2. set (s2 := upd_buf (prev b) _ s1).
    assert (N2 : forall i, b_next (bc_buf s2 i) = (<[prev b := next b]> next) i).
    { intros i. unfold s2. rewrite next_set_next, !upd_eq. case_decide; [done|]. apply next_set_prev. }
    assert (P2 : forall i, b_prev (bc_buf s2 i) = (<[next b := prev b]> prev) i).
    { intros i. unfold s2. rewrite prev_set_next. apply prev_set_prev. }
    set (s4 := upd_buf b (set_prev bhead) _).
    assert (N4 : forall i, b_next (bc_buf s4 i) = (<[b := (<[prev b := next b]> next) bhead]> (<[prev b := next b]> next)) i).
    { intros i. unfold s4. rewrite next_set_prev, next_set_next, N2, !upd_eq.
      case_decide; [done|]. by rewrite N2, upd_eq. }
    assert (P4 : forall i, b_prev (bc_buf s4 i) = (<[b := bhead]> (<[next b := prev b]> prev)) i).
    { intros i. unfold s4. rewrite prev_set_prev, !upd_eq. case_decide; [done|].
      by rewrite prev_set_next, P2, upd_eq. }
    assert (Eh : b_next (bc_buf s4 bhead) = (<[prev b := next b]> next) bhead).
    { rewrite N4. by apply upd_other. }
    rewrite Eh. eapply linked_ext; [exact Hl2| |]; intros i _.
    + rewrite next_set_next, (upd_eq _ bhead b i), (upd_eq _ bhead b i). case_decide; [done|].
      rewrite next_set_prev. apply N4.
    + rewrite prev_set_next, prev_set_prev. rewrite (upd_eq _ _ b i), (upd_eq _ _ b i). case_decide; [done|].
      apply P4.
Qed.

(** The links do not matter to the rest. *)
Definition same_but_links (k k' : buf) : Prop := k' = set_prev (b_prev k') (set_next (b_next k') k).

Lemma same_links_trans k1 k2 k3 : same_but_links k1 k2 -> same_but_links k2 k3 -> same_but_links k1 k3.
Proof. unfold same_but_links. destruct k1, k2, k3. unfold set_prev, set_next. simpl. congruence. Qed.

Lemma same_links_upd x f s c :
  (forall k, same_but_links k (f k)) -> same_but_links (bc_buf s c) (bc_buf (upd_buf x f s) c).
Proof.
  intros Hf. simpl. rewrite upd_eq. case_decide as E; [subst; apply Hf|]. by destruct (bc_buf s c).
Qed.

Lemma to_front_links b s c : same_but_links (bc_buf s c) (bc_buf (to_front b s) c).
Proof.
  unfold to_front. cbv zeta.
  repeat (eapply same_links_trans; [|apply same_links_upd; by intros []]). by destruct (bc_buf s c).
Qed.

Lemma crep_links s s' a :
  crep dev pid s a -> (forall c, same_but_links (bc_buf s c) (bc_buf s' c)) -> lru_ok s' ->
  bc_disk s' = bc_disk s -> bc_writes s' = bc_writes s -> crep dev pid s' a.
Proof.
  intros R Hs HL Ed Ew.
  assert (E1 : forall c, b_dev (bc_buf s' c) = b_dev (bc_buf s c)) by (intros c; by rewrite (Hs c)).
  assert (E2 : forall c, b_blockno (bc_buf s' c) = b_blockno (bc_buf s c)) by (intros c; by rewrite (Hs c)).
  assert (E3 : forall c, b_refcnt (bc_buf s' c) = b_refcnt (bc_buf s c)) by (intros c; by rewrite (Hs c)).
  assert (E4 : forall c, b_valid (bc_buf s' c) = b_valid (bc_buf s c)) by (intros c; by rewrite (Hs c)).
  assert (E5 : forall c, b_lock (bc_buf s' c) = b_lock (bc_buf s c)) by (intros c; by rewrite (Hs c)).
  assert (E6 : forall c, b_data (bc_buf s' c) = b_data (bc_buf s c)) by (intros c; by rewrite (Hs c)).
  split.
  - done.
  - intros b. rewrite E1. apply R.
  - intros b b'. rewrite !E1, !E2. apply R.
  - intros b. rewrite E1, E2, E3. apply R.
  - intros bn. destruct (cr_pins _ _ _ _ R bn) as [Hp Hex]. split; [done|]. intros Hpos.
    destruct (Hex Hpos) as (b & ?). exists b. by rewrite E1, E2.
  - intros b. rewrite E1, E4. apply R.
  - intros b bn. rewrite E1, E2. apply R.
  - intros b. rewrite E5. apply R.
  - intros b. rewrite E1, E2, E6. apply R.
  - intros bn Hno. apply (cr_absent _ _ _ _ R). intros b. rewrite <-E1, <-E2. apply Hno.
  - intros b. rewrite E1, E2, E3, E6. apply R.
  - rewrite Ed, Ew. apply R.
Qed.

Lemma brelse_wp t s a b bn :
  crep dev pid s a -> t_pid t = pid -> cache_unlocked t -> a_locked a !! b = Some bn ->
  (a_pins a bn = 0 -> a_view a bn = a_disk a bn) ->
  wp (brelse b) (fun _ t' s' => quiet t t' /\ crep dev pid s' (with_locked (delete b) a)) t s.
Proof using Hdev.
  intros R Hpid Ht Hl Hclean. destruct (cr_locked _ _ _ _ R _ _ Hl) as (Hb & Hd & Ebn).
  pose proof Ht as (Hc & Hbl & Hpl).
  assert (Hrc := cr_refcnt _ _ _ _ R b Hb).
  rewrite decide_True in Hrc by done. rewrite decide_True in Hrc by (by exists bn).
  pose proof (cr_pins _ _ _ _ R (b_blockno (bc_buf s b))) as [Hp _].
  assert (Hv : b_data (bc_buf s b) = a_view a bn) by (rewrite <-Ebn; by rewrite (cr_view _ _ _ _ R)).
  unfold brelse. wp_step. eapply wp_done; [by eapply holding_locked|]. simpl negb. cbv iota. wp_step.
  apply releasesleep_wp; [apply Hbl|done|done|]. wp_steps.
  set (s2 := upd_buf b _ (upd_buf b _ s)).
  assert (E : one_buf s s2 b (set_refcnt (u32 (b_refcnt (bc_buf s b) - 1)) (set_lock initsleeplock (bc_buf s b)))).
  { unfold s2. apply (one_buf_upd2 b (fun k => set_refcnt (u32 (b_refcnt k - 1)) k) s _
      (set_lock initsleeplock (bc_buf s b))). apply (one_buf_upd b (set_lock initsleeplock)). }
  assert (R2 : crep dev pid s2 (with_locked (delete b) a)).
  { assert (Eu : u32 (b_refcnt (bc_buf s b) - 1) = a_pins a bn)
      by (unfold u32; rewrite Z.mod_small by lia; rewrite <-Ebn; lia).
    eapply (crep_replace s); [exact R| |exact E| |done|done].
    - split; simpl; rewrite ?Eu; try done.
      + by apply (cr_valid _ _ _ _ R).
      + intros b' Hb' Hne Hd' Eb. apply Hne. by apply (cr_uniq _ _ _ _ R).
      + intros b' Hne. by rewrite lookup_delete_ne.
      + intros bn'. by rewrite lookup_delete_eq.
      + by rewrite lookup_delete_eq, decide_False by (by intros [? ?]).
      + rewrite lookup_delete_eq, decide_False by (by intros [? ?]). rewrite Ebn. lia.
      + by apply (cr_view _ _ _ _ R).
      + rewrite Hv, Ebn. auto.
    - eapply lru_ok_ext; [apply R|..]; intros c; rewrite E; by destruct (decide (b = c)) as [<-|]. }
  destruct (b_refcnt (bc_buf s2 b) =? 0); wp_steps; (split; [apply quiet_emit|]); [|done].
  eapply (crep_links s2); [done|apply to_front_links| |done|done].
  apply to_front_lru; [apply R2|done].
Qed.

Lemma bpin_wp t s a b bn :
  crep dev pid s a -> bcache_lock ∉ t_held t -> a_locked a !! b = Some bn -> a_pins a bn + 1 < 2 ^ 31 ->
  wp (bpin b) (fun _ t' s' => t' = t /\
    crep dev pid s' (with_pins (fun p => <[bn := p bn + 1]> p) a)) t s.
Proof using Hdev.
  intros R Hc Hl Hmax. destruct (cr_locked _ _ _ _ R _ _ Hl) as (Hb & Hd & Ebn).
  assert (Hrc := cr_refcnt _ _ _ _ R b Hb).
  rewrite decide_True in Hrc by done. rewrite decide_True in Hrc by (by exists bn).
  pose proof (cr_pins _ _ _ _ R (b_blockno (bc_buf s b))) as [Hp _]. rewrite Ebn in *.
  unfold bpin. wp_steps. split; [done|].
  assert (Eu : u32 (b_refcnt (bc_buf s b) + 1) = a_pins a bn + 2)
    by (unfold u32; rewrite Z.mod_small by lia; lia).
  eapply (crep_replace s); [exact R| |apply one_buf_upd| |done|done].
  - split; simpl; rewrite ?Eu, ?Ebn, ?upd_same; try done; try lia.
    + by apply (cr_valid _ _ _ _ R).
    + intros b' Hb' Hne Hd' Eb. apply Hne. apply (cr_uniq _ _ _ _ R); congruence.
    + intros bn' Hl'. congruence.
    + by apply (cr_lock _ _ _ _ R).
    + rewrite decide_True by (by exists bn). lia.
    + intros bn' Hne. by rewrite upd_other by congruence.
    + rewrite <-Ebn. by apply (cr_view _ _ _ _ R).
  - eapply lru_ok_ext; [apply R|..]; intros c; simpl; rewrite upd_eq; by destruct (decide (b = c)) as [<-|].
Qed.

Lemma bunpin_wp t s a b bn :
  crep dev pid s a -> bcache_lock ∉ t_held t -> a_locked a !! b = Some bn -> 0 < a_pins a bn ->
  wp (bunpin b) (fun _ t' s' => t' = t /\
    crep dev pid s' (with_pins (fun p => <[bn := p bn - 1]> p) a)) t s.
Proof using Hdev.
  intros R Hc Hl Hmax. destruct (cr_locked _ _ _ _ R _ _ Hl) as (Hb & Hd & Ebn).
  assert (Hrc := cr_refcnt _ _ _ _ R b Hb).
  rewrite decide_True in Hrc by done. rewrite decide_True in Hrc by (by exists bn).
  pose proof (cr_pins _ _ _ _ R (b_blockno (bc_buf s b))) as [Hp _]. rewrite Ebn in *.
  unfold bunpin. wp_steps. split; [done|].
  assert (Eu : u32 (b_refcnt (bc_buf s b) - 1) = a_pins a bn)
    by (unfold u32; rewrite Z.mod_small by lia; lia).
  eapply (crep_replace s); [exact R| |apply one_buf_upd| |done|done].
  - split; simpl; rewrite ?Eu, ?Ebn, ?upd_same; try done; try lia.
    + by apply (cr_valid _ _ _ _ R).
    + intros b' Hb' Hne Hd' Eb. apply Hne. apply (cr_uniq _ _ _ _ R); congruence.
    + intros bn' Hl'. congruence.
    + by apply (cr_lock _ _ _ _ R).
    + rewrite decide_True by (by exists bn). lia.
    + intros bn' Hne. by rewrite upd_other by congruence.
    + rewrite <-Ebn. by apply (cr_view _ _ _ _ R).
  - eapply lru_ok_ext; [apply R|..]; intros c; simpl; rewrite upd_eq; by destruct (decide (b = c)) as [<-|].
Qed.
End rep.

(** ** Initialisation *)

Definition fresh_buf (s : bcache) (b : Z) : Prop :=
  b_dev (bc_buf s b) = 0 /\ b_refcnt (bc_buf s b) = 0 /\ b_valid (bc_buf s b) = 0.

Abbreviation chained s l := (linked (fun i => b_next (bc_buf s i)) (fun i => b_prev (bc_buf s i)) bhead l bhead).

Lemma binit_loop_spec n : forall b l s,
  chained s l -> NoDup l -> 0 <= b -> (forall x, x ∈ l <-> 0 <= x < b) -> b + Z.of_nat n = NBUF ->
  (forall x, x ∈ l -> b_lock (bc_buf s x) = initsleeplock) ->
  let s' := binit_loop n b s in
  lru_ok s' /\ (forall x, is_buf x -> b_lock (bc_buf s' x) = initsleeplock) /\
  (forall x, is_buf x -> fresh_buf s x -> fresh_buf s' x) /\
  bc_disk s' = bc_disk s /\ bc_writes s' = bc_writes s.
Proof.
  induction n as [|n IH]; intros b l s Hl Hnd Hb0 Hin Hn Hlk; cbv zeta.
  { simpl. split_and!; try done.
    - exists l. split_and!; try done. intros x. rewrite Hin. unfold is_buf. lia.
    - intros x Hx. apply Hlk, Hin. unfold is_buf in Hx. lia. }
  cbn [binit_loop].
  set (s1 := upd_buf b (set_next (b_next (bc_buf s bhead))) s).
  set (s2 := upd_buf b (set_prev bhead) s1). set (s3 := upd_buf b (set_lock initsleeplock) s2).
  set (s4 := upd_buf (b_next (bc_buf s3 bhead)) (set_prev b) s3). set (s5 := upd_buf bhead (set_next b) s4).
  assert (Hbh : b <> bhead) by (unfold bhead; lia).
  assert (Hhl : bhead ∉ l) by (rewrite Hin; unfold bhead; lia).
  assert (Hbl : b ∉ l) by (rewrite Hin; lia).
  set (next := fun i => b_next (bc_buf s i)) in *. set (prev := fun i => b_prev (bc_buf s i)) in *.
  assert (N3 : forall i, b_next (bc_buf s3 i) = (<[b := next bhead]> next) i).
  { intros i. unfold s3, s2, s1. simpl. rewrite !upd_eq. by repeat case_decide; subst. }
  assert (P3 : forall i, b_prev (bc_buf s3 i) = (<[b := bhead]> prev) i).
  { intros i. unfold s3, s2, s1. simpl. rewrite !upd_eq. by repeat case_decide; subst. }
  assert (E3 : b_next (bc_buf s3 bhead) = next bhead) by (rewrite N3; by apply upd_other).
  assert (Hl5 : chained s5 (b :: l)).
  { eapply linked_ext; [apply (linked_push next prev bhead b l bhead); done|..]; intros i _.
    - unfold s5. rewrite next_set_next, !(upd_eq _ bhead b i). case_decide; [done|].
      unfold s4. rewrite next_set_prev. apply N3.
    - unfold s5, s4. rewrite prev_set_next, prev_set_prev, E3. rewrite !(upd_eq _ _ b i). case_decide; [done|].
      apply P3. }
  assert (Hlinks : forall c, c <> b -> same_but_links (bc_buf s c) (bc_buf s5 c)).
  { intros c Hc. unfold s5, s4. do 2 (eapply same_links_trans; [|apply same_links_upd; by intros []]).
    unfold s3, s2, s1. simpl. rewrite !upd_other by done. by destruct (bc_buf s c). }
  assert (Hb5 : b_lock (bc_buf s5 b) = initsleeplock /\ b_dev (bc_buf s5 b) = b_dev (bc_buf s b) /\
    b_refcnt (bc_buf s5 b) = b_refcnt (bc_buf s b) /\ b_valid (bc_buf s5 b) = b_valid (bc_buf s b)).
  { assert (S : same_but_links (bc_buf s3 b) (bc_buf s5 b)).
    { unfold s5, s4. eapply same_links_trans; [|apply same_links_upd; by intros []].
      apply same_links_upd. by intros []. }
    assert (F : forall (T : Type) (f : buf -> T), (forall k p, f (set_prev p k) = f k) ->
      (forall k p, f (set_next p k) = f k) -> f (bc_buf s5 b) = f (bc_buf s3 b)).
    { intros T f Hf1 Hf2. by rewrite S, Hf1, Hf2. }
    rewrite !F by done. unfold s3, s2, s1. simpl. by rewrite !upd_same. }
  destruct (IH (b + 1) (b :: l) s5) as (H1 & H2 & H3 & H4 & H5); try done; try lia.
  - by constructor.
  - intros x. rewrite elem_of_cons, Hin. lia.
  - intros x [->|Hx]%elem_of_cons; [apply Hb5|]. rewrite (Hlinks x) by (intros ->; done). by apply Hlk.
  - split_and!; try done. intros x Hx Hf. apply H3; [done|]. destruct (decide (x = b)) as [->|Hne].
    + destruct Hb5 as (_ & E1 & E2 & E4). unfold fresh_buf. by rewrite E1, E2, E4.
    + unfold fresh_buf. by rewrite (Hlinks x Hne).
Qed.

(** The abstract cache after boot: nothing cached. *)
Definition acache0 (d : Z -> block) (w : list (Z * block)) : acache :=
  {| a_view := d; a_disk := d; a_writes := w; a_pins := fun _ => 0; a_locked := ∅ |}.

Lemma binit_wp dev pid t s :
  dev <> 0 -> (forall b, is_buf b -> fresh_buf s b) ->
  wp binit (fun _ t' s' => t' = t /\ crep dev pid s' (acache0 (bc_disk s) (bc_writes s))) t s.
Proof.
  intros Hdev Hf. unfold binit. wp_steps. split; [done|].
  set (s0 := upd_buf bhead (set_next bhead) (upd_buf bhead (set_prev bhead) s)).
  assert (Hs0 : forall b, is_buf b -> bc_buf s0 b = bc_buf s b).
  { intros b Hb. unfold s0. simpl. rewrite !upd_other; [done|..]; unfold is_buf, bhead in *; lia. }
  assert (Hl0 : chained s0 []) by (by unfold s0; simpl).
  assert (Ed0 : bc_disk s0 = bc_disk s) by done. assert (Ew0 : bc_writes s0 = bc_writes s) by done.
  clearbody s0. remember (Z.to_nat NBUF) as n eqn:En.
  destruct (binit_loop_spec n 0 [] s0) as (HL & Hlk & Hfr & Ed & Ew); [done| |done| |by subst n| |].
  - constructor.
  - intros x. split; [by intros ?%not_elem_of_nil|lia].
  - by intros ? ?%not_elem_of_nil.
  - assert (Hfresh : forall b, is_buf b -> fresh_buf (binit_loop n 0 s0) b).
    { intros b Hb. apply Hfr; [done|]. unfold fresh_buf. rewrite Hs0 by done. by apply Hf. }
    set (s' := binit_loop n 0 s0) in *. clearbody s'.
    assert (Hd0 : forall b, is_buf b -> b_dev (bc_buf s' b) <> dev).
    { intros b Hb. destruct (Hfresh b Hb) as (-> & _). auto. }
    split; simpl; rewrite ?Ed, ?Ew; try done.
    + intros b Hb. left. by apply Hfresh.
    + intros b b' Hb Hb' E. by destruct (Hd0 b Hb).
    + intros b Hb. rewrite decide_False by (by apply Hd0). by apply Hfresh.
    + intros b Hb E. by destruct (Hd0 b Hb).
    + intros b Hb E. by destruct (Hd0 b Hb).
    + intros b Hb E. by destruct (Hd0 b Hb).
Qed.

(** A block that nobody keeps in the cache is up to date on disk. *)
Lemma crep_clean dev pid s a bn :
  crep dev pid s a -> a_pins a bn = 0 -> unlocked a bn -> a_view a bn = a_disk a bn.
Proof.
  intros R Hp Hun.
  destruct (decide (Exists (fun b => b_dev (bc_buf s b) = dev /\ b_blockno (bc_buf s b) = bn) (seqZ 0 NBUF)))
    as [(b & Hb & Hd & Ebn)%Exists_exists|Hno].
  - apply elem_of_seqZ in Hb. assert (Hb' : is_buf b) by (unfold is_buf; lia).
    rewrite <-Ebn, (cr_view _ _ _ _ R) by done. apply (cr_clean _ _ _ _ R); try done.
    rewrite (cr_refcnt _ _ _ _ R b Hb'), decide_True, Ebn, Hp by done.
    destruct (decide (is_Some (a_locked a !! b))) as [[bn' Hl]|]; [|done].
    destruct (Hun b). rewrite Hl. f_equal. destruct (cr_locked _ _ _ _ R _ _ Hl) as (_ & _ & E'). congruence.
  - apply (cr_absent _ _ _ _ R). intros b Hb Hd Ebn. apply Hno, Exists_exists. exists b.
    split; [apply elem_of_seqZ; unfold is_buf in Hb; lia|done].
Qed.

(** ** The interface the log is built on *)

(** What a block cache offers: buffers are named by numbers, and the state
    represents an abstract cache for one device and the running process. *)
Class BlockCache (S : Type) := {
  c_bread : Z -> Z -> M S Z;
  c_bwrite : Z -> M S unit;
  c_brelse : Z -> M S unit;
  c_bpin : Z -> M S unit;
  c_bunpin : Z -> M S unit;
  c_blockno : Z -> M S Z;
  c_data : Z -> M S block;
  c_set_data : Z -> block -> M S unit;
  c_rep : Z -> Z -> S -> acache -> Prop;
  c_pins_range dev pid s a bn : c_rep dev pid s a -> 0 <= a_pins a bn < 2 ^ 31;
  c_clean dev pid s a bn :
    c_rep dev pid s a -> a_pins a bn = 0 -> unlocked a bn -> a_view a bn = a_disk a bn;
  c_bread_spec dev pid t s a bn P : dev <> 0 ->
    c_rep dev pid s a -> t_pid t = pid -> cache_unlocked t -> unlocked a bn ->
    0 < a_pins a bn \/ (busy a P /\ (size P < Z.to_nat NBUF)%nat) ->
    wp (c_bread dev bn) (fun b t' s' => t' = t /\ a_locked a !! b = None /\
      c_rep dev pid s' (with_locked (<[b := bn]>) a)) t s;
  c_blockno_spec dev pid t s a b bn :
    c_rep dev pid s a -> a_locked a !! b = Some bn -> c_blockno b t s = Done bn t s;
  c_data_spec dev pid t s a b bn :
    c_rep dev pid s a -> a_locked a !! b = Some bn -> c_data b t s = Done (a_view a bn) t s;
  c_set_data_spec dev pid t s a b bn d : dev <> 0 ->
    c_rep dev pid s a -> a_locked a !! b = Some bn ->
    wp (c_set_data b d) (fun _ t' s' => t' = t /\ c_rep dev pid s' (with_view (<[bn := d]>) a)) t s;
  c_bwrite_spec dev pid t s a b bn :
    c_rep dev pid s a -> t_pid t = pid -> cache_unlocked t -> a_locked a !! b = Some bn ->
    wp (c_bwrite b) (fun _ t' s' => t' = t /\ c_rep dev pid s' (with_write bn (a_view a bn) a)) t s;
  c_brelse_spec dev pid t s a b bn : dev <> 0 ->
    c_rep dev pid s a -> t_pid t = pid -> cache_unlocked t -> a_locked a !! b = Some bn ->
    (a_pins a bn = 0 -> a_view a bn = a_disk a bn) ->
    wp (c_brelse b) (fun _ t' s' => quiet t t' /\ c_rep dev pid s' (with_locked (delete b) a)) t s;
  c_bpin_spec dev pid t s a b bn : dev <> 0 ->
    c_rep dev pid s a -> bcache_lock ∉ t_held t -> a_locked a !! b = Some bn -> a_pins a bn + 1 < 2 ^ 31 ->
    wp (c_bpin b) (fun _ t' s' => t' = t /\ c_rep dev pid s' (with_pins (fun p => <[bn := p bn + 1]> p) a)) t s;
  c_bunpin_spec dev pid t s a b bn : dev <> 0 ->
    c_rep dev pid s a -> bcache_lock ∉ t_held t -> a_locked a !! b = Some bn -> 0 < a_pins a bn ->
    wp (c_bunpin b) (fun _ t' s' => t' = t /\ c_rep dev pid s' (with_pins (fun p => <[bn := p bn - 1]> p) a)) t s
}.

(** bio.c is a block cache. *)
#[global] Instance bio_block_cache : BlockCache bcache := {|
  c_bread := bread; c_bwrite := bwrite; c_brelse := brelse; c_bpin := bpin; c_bunpin := bunpin;
  c_blockno := bblockno; c_data := bdata; c_set_data := set_bdata; c_rep := crep;
  c_pins_range dev pid s a bn R := proj1 (cr_pins dev pid s a R bn);
  c_clean := crep_clean;
  c_bread_spec dev pid t s a bn P H := bread_wp dev pid H t s a bn P;
  c_blockno_spec := bblockno_wp;
  c_data_spec := bdata_wp;
  c_set_data_spec dev pid t s a b bn d H := set_bdata_wp dev pid H t s a b bn d;
  c_bwrite_spec := bwrite_wp;
  c_brelse_spec dev pid t s a b bn H := brelse_wp dev pid H t s a b bn;
  c_bpin_spec dev pid t s a b bn H := bpin_wp dev pid H t s a b bn;
  c_bunpin_spec dev pid t s a b bn H := bunpin_wp dev pid H t s a b bn
|}.
