(* ===== verification/Virtio.v ===== *)
(** * Virtio: the disk driver, kernel/virtio_disk.c

    The descriptor table, the two rings and the driver's book-keeping, with
    the buffers of the cache and the medium behind the device.  The device
    itself is not part of the kernel: what it does between two steps of the
    driver is a parameter of the theorems. *)

From S2P Require Import Prelude Riscv Sleeplock Bio.

Definition NUM : Z := 8.
Definition VRING_DESC_F_NEXT : Z := 1.
Definition VRING_DESC_F_WRITE : Z := 2.
Definition VIRTIO_BLK_T_IN : Z := 0.
Definition VIRTIO_BLK_T_OUT : Z := 1.

(** The addresses the driver puts into descriptors: a command header, the
    data of a buffer, a status byte. *)
Inductive dma := DNull | DOps (i : Z) | DData (b : Z) | DStatus (i : Z).

#[global] Instance dma_eq_dec : EqDecision dma.
Proof. solve_decision. Defined.

(** struct virtq_desc *)
Record virtq_desc := { d_addr : dma; d_len : Z; d_flags : Z; d_next : Z }.

(** struct virtio_blk_req; the reserved word is always 0. *)
Record virtio_blk_req := { q_type : Z; q_sector : Z }.

(** struct disk with the fields of struct buf that it uses, the sectors of
    the medium, and the chains the device has fetched from the available
    ring and not finished. *)
Record vdisk := {
  v_desc : Z -> virtq_desc;
  v_avail_idx : Z;
  v_avail_ring : Z -> Z;
  v_used_idx : Z;
  v_used_ring : Z -> Z;
  v_free : Z -> bool;
  v_seen : Z;
  v_info_b : Z -> option Z;
  v_info_status : Z -> Z;
  v_ops : Z -> virtio_blk_req;
  v_busy : Z -> bool;
  v_data : Z -> block;
  v_blockno : Z -> Z;
  v_medium : Z -> block;
  v_fetched : list Z;
  v_fetch_idx : Z
}.

Definition vdisk_lock : lockid := ("virtio_disk", 0).
Definition free_chan : chan := ("disk.free", 0).
Definition vbuf_chan (b : Z) : chan := ("buf disk", b).

Definition set_v_desc (x : Z -> virtq_desc) (v : vdisk) : vdisk :=
  {| v_desc := x; v_avail_idx := v_avail_idx v; v_avail_ring := v_avail_ring v; v_used_idx := v_used_idx v;
     v_used_ring := v_used_ring v; v_free := v_free v; v_seen := v_seen v; v_info_b := v_info_b v;
     v_info_status := v_info_status v; v_ops := v_ops v; v_busy := v_busy v; v_data := v_data v;
     v_blockno := v_blockno v; v_medium := v_medium v; v_fetched := v_fetched v; v_fetch_idx := v_fetch_idx v |}.
Definition set_v_avail_idx (x : Z) (v : vdisk) : vdisk :=
  {| v_desc := v_desc v; v_avail_idx := x; v_avail_ring := v_avail_ring v; v_used_idx := v_used_idx v;
     v_used_ring := v_used_ring v; v_free := v_free v; v_seen := v_seen v; v_info_b := v_info_b v;
     v_info_status := v_info_status v; v_ops := v_ops v; v_busy := v_busy v; v_data := v_data v;
     v_blockno := v_blockno v; v_medium := v_medium v; v_fetched := v_fetched v; v_fetch_idx := v_fetch_idx v |}.
Definition set_v_avail_ring (x : Z -> Z) (v : vdisk) : vdisk :=
  {| v_desc := v_desc v; v_avail_idx := v_avail_idx v; v_avail_ring := x; v_used_idx := v_used_idx v;
     v_used_ring := v_used_ring v; v_free := v_free v; v_seen := v_seen v; v_info_b := v_info_b v;
     v_info_status := v_info_status v; v_ops := v_ops v; v_busy := v_busy v; v_data := v_data v;
     v_blockno := v_blockno v; v_medium := v_medium v; v_fetched := v_fetched v; v_fetch_idx := v_fetch_idx v |}.
Definition set_v_used_idx (x : Z) (v : vdisk) : vdisk :=
  {| v_desc := v_desc v; v_avail_idx := v_avail_idx v; v_avail_ring := v_avail_ring v; v_used_idx := x;
     v_used_ring := v_used_ring v; v_free := v_free v; v_seen := v_seen v; v_info_b := v_info_b v;
     v_info_status := v_info_status v; v_ops := v_ops v; v_busy := v_busy v; v_data := v_data v;
     v_blockno := v_blockno v; v_medium := v_medium v; v_fetched := v_fetched v; v_fetch_idx := v_fetch_idx v |}.
Definition set_v_used_ring (x : Z -> Z) (v : vdisk) : vdisk :=
  {| v_desc := v_desc v; v_avail_idx := v_avail_idx v; v_avail_ring := v_avail_ring v; v_used_idx := v_used_idx v;
     v_used_ring := x; v_free := v_free v; v_seen := v_seen v; v_info_b := v_info_b v;
     v_info_status := v_info_status v; v_ops := v_ops v; v_busy := v_busy v; v_data := v_data v;
     v_blockno := v_blockno v; v_medium := v_medium v; v_fetched := v_fetched v; v_fetch_idx := v_fetch_idx v |}.
Definition set_v_free (x : Z -> bool) (v : vdisk) : vdisk :=
  {| v_desc := v_desc v; v_avail_idx := v_avail_idx v; v_avail_ring := v_avail_ring v; v_used_idx := v_used_idx v;
     v_used_ring := v_used_ring v; v_free := x; v_seen := v_seen v; v_info_b := v_info_b v;
     v_info_status := v_info_status v; v_ops := v_ops v; v_busy := v_busy v; v_data := v_data v;
     v_blockno := v_blockno v; v_medium := v_medium v; v_fetched := v_fetched v; v_fetch_idx := v_fetch_idx v |}.
Definition set_v_seen (x : Z) (v : vdisk) : vdisk :=
  {| v_desc := v_desc v; v_avail_idx := v_avail_idx v; v_avail_ring := v_avail_ring v; v_used_idx := v_used_idx v;
     v_used_ring := v_used_ring v; v_free := v_free v; v_seen := x; v_info_b := v_info_b v;
     v_info_status := v_info_status v; v_ops := v_ops v; v_busy := v_busy v; v_data := v_data v;
     v_blockno := v_blockno v; v_medium := v_medium v; v_fetched := v_fetched v; v_fetch_idx := v_fetch_idx v |}.
Definition set_v_info_b (x : Z -> option Z) (v : vdisk) : vdisk :=
  {| v_desc := v_desc v; v_avail_idx := v_avail_idx v; v_avail_ring := v_avail_ring v; v_used_idx := v_used_idx v;
     v_used_ring := v_used_ring v; v_free := v_free v; v_seen := v_seen v; v_info_b := x;
     v_info_status := v_info_status v; v_ops := v_ops v; v_busy := v_busy v; v_data := v_data v;
     v_blockno := v_blockno v; v_medium := v_medium v; v_fetched := v_fetched v; v_fetch_idx := v_fetch_idx v |}.
Definition set_v_info_status (x : Z -> Z) (v : vdisk) : vdisk :=
  {| v_desc := v_desc v; v_avail_idx := v_avail_idx v; v_avail_ring := v_avail_ring v; v_used_idx := v_used_idx v;
     v_used_ring := v_used_ring v; v_free := v_free v; v_seen := v_seen v; v_info_b := v_info_b v;
     v_info_status := x; v_ops := v_ops v; v_busy := v_busy v; v_data := v_data v; v_blockno := v_blockno v;
     v_medium := v_medium v; v_fetched := v_fetched v; v_fetch_idx := v_fetch_idx v |}.
Definition set_v_ops (x : Z -> virtio_blk_req) (v : vdisk) : vdisk :=
  {| v_desc := v_desc v; v_avail_idx := v_avail_idx v; v_avail_ring := v_avail_ring v; v_used_idx := v_used_idx v;
     v_used_ring := v_used_ring v; v_free := v_free v; v_seen := v_seen v; v_info_b := v_info_b v;
     v_info_status := v_info_status v; v_ops := x; v_busy := v_busy v; v_data := v_data v;
     v_blockno := v_blockno v; v_medium := v_medium v; v_fetched := v_fetched v; v_fetch_idx := v_fetch_idx v |}.
Definition set_v_busy (x : Z -> bool) (v : vdisk) : vdisk :=
  {| v_desc := v_desc v; v_avail_idx := v_avail_idx v; v_avail_ring := v_avail_ring v; v_used_idx := v_used_idx v;
     v_used_ring := v_used_ring v; v_free := v_free v; v_seen := v_seen v; v_info_b := v_info_b v;
     v_info_status := v_info_status v; v_ops := v_ops v; v_busy := x; v_data := v_data v; v_blockno := v_blockno v;
     v_medium := v_medium v; v_fetched := v_fetched v; v_fetch_idx := v_fetch_idx v |}.
Definition set_v_data (x : Z -> block) (v : vdisk) : vdisk :=
  {| v_desc := v_desc v; v_avail_idx := v_avail_idx v; v_avail_ring := v_avail_ring v; v_used_idx := v_used_idx v;
     v_used_ring := v_used_ring v; v_free := v_free v; v_seen := v_seen v; v_info_b := v_info_b v;
     v_info_status := v_info_status v; v_ops := v_ops v; v_busy := v_busy v; v_data := x; v_blockno := v_blockno v;
     v_medium := v_medium v; v_fetched := v_fetched v; v_fetch_idx := v_fetch_idx v |}.
Definition set_v_medium (x : Z -> block) (v : vdisk) : vdisk :=
  {| v_desc := v_desc v; v_avail_idx := v_avail_idx v; v_avail_ring := v_avail_ring v; v_used_idx := v_used_idx v;
     v_used_ring := v_used_ring v; v_free := v_free v; v_seen := v_seen v; v_info_b := v_info_b v;
     v_info_status := v_info_status v; v_ops := v_ops v; v_busy := v_busy v; v_data := v_data v;
     v_blockno := v_blockno v; v_medium := x; v_fetched := v_fetched v; v_fetch_idx := v_fetch_idx v |}.
Definition set_v_fetched (x : list Z) (v : vdisk) : vdisk :=
  {| v_desc := v_desc v; v_avail_idx := v_avail_idx v; v_avail_ring := v_avail_ring v; v_used_idx := v_used_idx v;
     v_used_ring := v_used_ring v; v_free := v_free v; v_seen := v_seen v; v_info_b := v_info_b v;
     v_info_status := v_info_status v; v_ops := v_ops v; v_busy := v_busy v; v_data := v_data v;
     v_blockno := v_blockno v; v_medium := v_medium v; v_fetched := x; v_fetch_idx := v_fetch_idx v |}.
Definition set_v_fetch_idx (x : Z) (v : vdisk) : vdisk :=
  {| v_desc := v_desc v; v_avail_idx := v_avail_idx v; v_avail_ring := v_avail_ring v; v_used_idx := v_used_idx v;
     v_used_ring := v_used_ring v; v_free := v_free v; v_seen := v_seen v; v_info_b := v_info_b v;
     v_info_status := v_info_status v; v_ops := v_ops v; v_busy := v_busy v; v_data := v_data v;
     v_blockno := v_blockno v; v_medium := v_medium v; v_fetched := v_fetched v; v_fetch_idx := x |}.

(** ** Descriptors *)

(** The first free descriptor at [i] or after, or -1. *)
Fixpoint find_free (v : vdisk) (i : Z) (n : nat) : Z :=
  match n with
  | O => -1
  | S n => if v_free v i then i else find_free v (i + 1) n
  end.

Definition alloc_desc : M vdisk Z :=
  v ← get;
  let i := find_free v 0 (Z.to_nat NUM) in
  if i <? 0 then mret (-1)
  else modify (set_v_free (<[i := false]> (v_free v)));; mret i.

Definition free_desc (i : Z) : M vdisk unit :=
  v ← get;
  if NUM <=? i then panic "free_desc 1"
  else if v_free v i then panic "free_desc 2"
  else
    modify (set_v_desc (<[i := {| d_addr := DNull; d_len := 0; d_flags := 0; d_next := 0 |}]> (v_desc v)));;
    modify (set_v_free (<[i := true]> (v_free v)));;
    wakeup free_chan.

Fixpoint free_chain (fuel : nat) (i : Z) : M vdisk unit :=
  match fuel with
  | O => fuel_out
  | S fuel =>
      v ← get;
      let flag := d_flags (v_desc v i) in
      let nxt := d_next (v_desc v i) in
      free_desc i;;
      if nz (Z.land flag VRING_DESC_F_NEXT) then free_chain fuel nxt else mret tt
  end.

Fixpoint free_descs (l : list Z) : M vdisk unit :=
  match l with
  | [] => mret tt
  | i :: l => free_desc i;; free_descs l
  end.

(** The loop of [alloc3_desc]: [n] more descriptors, after those of [idx]. *)
Fixpoint alloc_descs (n : nat) (idx : list Z) : M vdisk (option (list Z)) :=
  match n with
  | O => mret (Some idx)
  | S n =>
      i ← alloc_desc;
      if i <? 0 then free_descs idx;; mret None
      else alloc_descs n (idx ++ [i])
  end.

Definition alloc3_desc : M vdisk (option (list Z)) := alloc_descs 3 [].

(** [while(1){ if(alloc3_desc(idx) == 0) break; sleep(...); }] *)
Fixpoint alloc3_loop (patience : nat) : M vdisk (list Z) :=
  r ← alloc3_desc;
  match r with
  | Some idx => mret idx
  | None =>
      match patience with
      | O => starved free_chan
      | S patience => sleep free_chan vdisk_lock;; alloc3_loop patience
      end
  end.

(** ** Transfers *)

Definition set_desc (i : Z) (a : dma) (len flags next : Z) (v : vdisk) : vdisk :=
  set_v_desc (<[i := {| d_addr := a; d_len := len; d_flags := flags; d_next := next |}]> (v_desc v)) v.

(** The three descriptors of a request for buffer [b], the driver's notes on
    it, and its entry in the available ring. *)
Definition submit (b i0 i1 i2 : Z) (write : bool) (v : vdisk) : vdisk :=
  let v := set_v_ops (<[i0 := {| q_type := if write then VIRTIO_BLK_T_OUT else VIRTIO_BLK_T_IN;
                                 q_sector := u32 (v_blockno v b * (BSIZE / 512)) |}]> (v_ops v)) v in
  let v := set_desc i0 (DOps i0) 16 VRING_DESC_F_NEXT i1 v in
  let v := set_desc i1 (DData b) BSIZE
             (Z.lor (if write then 0 else VRING_DESC_F_WRITE) VRING_DESC_F_NEXT) i2 v in
  let v := set_v_info_status (<[i0 := 0xff]> (v_info_status v)) v in
  let v := set_desc i2 (DStatus i0) 1 VRING_DESC_F_WRITE 0 v in
  let v := set_v_busy (<[b := true]> (v_busy v)) v in
  let v := set_v_info_b (<[i0 := Some b]> (v_info_b v)) v in
  let v := set_v_avail_ring (<[v_avail_idx v mod NUM := i0]> (v_avail_ring v)) v in
  set_v_avail_idx (u16 (v_avail_idx v + 1)) v.

Definition virtio_disk_rw (b : Z) (write : bool) : M vdisk unit :=
  t ← self;
  acquire vdisk_lock;;
  idx ← alloc3_loop (t_patience t);
  match idx with
  | [i0; i1; i2] =>
      modify (submit b i0 i1 i2 write);;
      wait_while (fun v => v_busy v b) (vbuf_chan b) vdisk_lock;;
      modify (fun v => set_v_info_b (<[i0 := None]> (v_info_b v)) v);;
      free_chain (Z.to_nat NUM) i0;;
      release vdisk_lock
  | _ => panic "alloc3_desc"
  end.

(** The loop of the interrupt handler; the ring has NUM entries. *)
Fixpoint intr_loop (fuel : nat) : M vdisk unit :=
  match fuel with
  | O => fuel_out
  | S fuel =>
      v ← get;
      if negb (v_seen v =? v_used_idx v) then
        let id := v_used_ring v (v_seen v mod NUM) in
        if nz (v_info_status v id) then panic "virtio_disk_intr status"
        else
          match v_info_b v id with
          | None => panic "kerneltrap"
          | Some b =>
              modify (fun v => set_v_busy (<[b := false]> (v_busy v)) v);;
              wakeup (vbuf_chan b);;
              modify (fun v => set_v_seen (u16 (v_seen v + 1)) v);;
              intr_loop fuel
          end
      else mret tt
  end.

Definition virtio_disk_intr : M vdisk unit :=
  acquire vdisk_lock;;
  intr_loop (S (Z.to_nat NUM));;
  release vdisk_lock.
