(* ===== verification/VirtioSpec.v ===== *)
(** * VirtioSpec: the driver transfers blocks

    The requests in flight as a map from the first descriptor of each chain,
    the invariant that ties it to the rings, what the device and the other
    threads may do to the disk while a thread sleeps, and the proof that
    [virtio_disk_rw] has the effect the buffer cache relies on. *)

From Stdlib Require Znumtheory.
From S2P Require Import Prelude Riscv Sleeplock Bio Virtio.

(** ** Requests *)

(** In the available ring, fetched by the device, in the used ring, seen by
    the interrupt handler. *)
Inductive phase := Submitted | Fetched | Completed | Finished.

#[global] Instance phase_eq_dec : EqDecision phase.
Proof. solve_decision. Defined.

Record req := { r_b : Z; r_write : bool; r_i1 : Z; r_i2 : Z; r_phase : phase }.

Definition set_phase (ph : phase) (r : req) : req :=
  {| r_b := r_b r; r_write := r_write r; r_i1 := r_i1 r; r_i2 := r_i2 r; r_phase := ph |}.

Definition descs (i : Z) (r : req) : list Z := [i; r_i1 r; r_i2 r].

(** The descriptors and the header of a request, as the device reads them. *)
Record chain (v : vdisk) (i : Z) (r : req) : Prop := {
  ch_ops : v_ops v i = {| q_type := if r_write r then VIRTIO_BLK_T_OUT else VIRTIO_BLK_T_IN;
                          q_sector := u32 (v_blockno v (r_b r) * (BSIZE / 512)) |};
  ch_head : v_desc v i = {| d_addr := DOps i; d_len := 16; d_flags := VRING_DESC_F_NEXT; d_next := r_i1 r |};
  ch_data : v_desc v (r_i1 r) = {| d_addr := DData (r_b r); d_len := BSIZE;
    d_flags := Z.lor (if r_write r then 0 else VRING_DESC_F_WRITE) VRING_DESC_F_NEXT; d_next := r_i2 r |};
  ch_status : v_desc v (r_i2 r) = {| d_addr := DStatus i; d_len := 1; d_flags := VRING_DESC_F_WRITE; d_next := 0 |}
}.

(** The entries of a ring from an index on. *)
Definition ring (f : Z -> Z) (from : Z) (l : list Z) : Prop :=
  forall k i, l !! k = Some i -> f ((from + Z.of_nat k) mod NUM) = i.

Definition in_phase (rs : gmap Z req) (ph : phase) (i : Z) : Prop := exists r, rs !! i = Some r /\ r_phase r = ph.

Definition queued (rs : gmap Z req) (ph : phase) (f : Z -> Z) (from upto : Z) (l : list Z) : Prop :=
  upto = u16 (from + Z.of_nat (length l)) /\ ring f from l /\ NoDup l /\ forall i, i ∈ l <-> in_phase rs ph i.

(** The part that does not depend on how far the requests are. *)
Record vstat (v : vdisk) (rs : gmap Z req) : Prop := {
  vr_info : forall i, v_info_b v i = r_b <$> rs !! i;
  vr_chain : forall i r, rs !! i = Some r -> chain v i r;
  vr_range : forall i r d, rs !! i = Some r -> d ∈ descs i r -> 0 <= d < NUM;
  vr_nodup : forall i r, rs !! i = Some r -> NoDup (descs i r);
  vr_disjoint : forall i r j r' d, rs !! i = Some r -> rs !! j = Some r' -> d ∈ descs i r -> d ∈ descs j r' -> i = j;
  vr_free : forall d, 0 <= d < NUM -> v_free v d = true <-> forall i r, rs !! i = Some r -> d ∉ descs i r;
  vr_block : forall i r j r', rs !! i = Some r -> rs !! j = Some r' ->
    v_blockno v (r_b r) = v_blockno v (r_b r') -> i = j;
  vr_small : forall i r, rs !! i = Some r -> 0 <= v_blockno v (r_b r) < 2 ^ 31
}.

Record vrep (v : vdisk) (rs : gmap Z req) : Prop := {
  vr_stat : vstat v rs;
  vr_busy : forall i r, rs !! i = Some r -> v_busy v (r_b r) = bool_decide (r_phase r <> Finished);
  vr_avail : exists l, queued rs Submitted (v_avail_ring v) (v_fetch_idx v) (v_avail_idx v) l;
  vr_fetched : NoDup (v_fetched v) /\ forall i, i ∈ v_fetched v <-> in_phase rs Fetched i;
  vr_used : exists l, queued rs Completed (v_used_ring v) (v_seen v) (v_used_idx v) l;
  vr_idx : 0 <= v_fetch_idx v < 2 ^ 16 /\ 0 <= v_seen v < 2 ^ 16;
  vr_status : forall i r, rs !! i = Some r -> r_phase r = Completed -> v_info_status v i = 0;
  vr_data : forall i r, rs !! i = Some r -> r_phase r = Completed \/ r_phase r = Finished ->
    v_medium v (v_blockno v (r_b r)) = v_data v (r_b r)
}.

(** ** The device and the other threads *)

(** The device takes the next entry of the available ring. *)
Definition device_fetches (v v' : vdisk) : Prop :=
  v_fetch_idx v <> v_avail_idx v /\
  v' = set_v_fetch_idx (u16 (v_fetch_idx v + 1))
         (set_v_fetched (v_fetched v ++ [v_avail_ring v (v_fetch_idx v mod NUM)]) v).

(** The device carries out the request whose chain starts at [i]: it moves
    the sectors between the medium and the buffer the second descriptor points
    to, writes the status byte and adds the chain to the used ring. *)
Definition device_completes (i : Z) (v v' : vdisk) : Prop :=
  exists o b s,
    let d1 := v_desc v (d_next (v_desc v i)) in
    d_addr (v_desc v i) = DOps o /\ d_addr d1 = DData b /\ d_addr (v_desc v (d_next d1)) = DStatus s /\
    let bn := q_sector (v_ops v o) / (BSIZE / 512) in
    let w := if decide (q_type (v_ops v o) = VIRTIO_BLK_T_OUT) then set_v_medium (<[bn := v_data v b]> (v_medium v)) v
             else set_v_data (<[b := v_medium v bn]> (v_data v)) v in
    v' = set_v_fetched (filter (.≠ i) (v_fetched v))
           (set_v_used_idx (u16 (v_used_idx v + 1))
             (set_v_used_ring (<[v_used_idx v mod NUM := i]> (v_used_ring v))
               (set_v_info_status (<[s := 0]> (v_info_status v)) w))).

(** What the virtio specification says of a block device with one queue. *)
Class VirtioDevice (device : vdisk -> vdisk -> Prop) := {
  device_documented : forall v v', device v v' ->
    device_fetches v v' \/ exists i, i ∈ v_fetched v /\ device_completes i v v'
}.

(** No request for the block of buffer [b] is in flight. *)
Definition unused (v : vdisk) (b : Z) : Prop :=
  forall i b', v_info_b v i = Some b' -> v_blockno v b' <> v_blockno v b.

(** What the rest of the system may do while a thread works on buffer [b]:
    move its request forward, and leave the buffer and its block alone. *)
Record rely_rep (b : Z) (v : vdisk) (rs : gmap Z req) (v' : vdisk) (rs' : gmap Z req) : Prop := {
  rl_rep : vrep v' rs';
  rl_blockno : v_blockno v' = v_blockno v;
  rl_mine : forall i r, rs !! i = Some r -> r_b r = b -> exists ph, rs' !! i = Some (set_phase ph r);
  rl_none : unused v b -> unused v' b;
  rl_data : (forall i r, rs !! i = Some r -> r_b r = b -> r_write r = true) -> v_data v' b = v_data v b;
  rl_medium : (forall i r, rs !! i = Some r -> v_blockno v (r_b r) = v_blockno v b -> r_write r = false) ->
    v_medium v' (v_blockno v b) = v_medium v (v_blockno v b)
}.

Definition rely (b : Z) (v v' : vdisk) : Prop := forall rs, vrep v rs -> exists rs', rely_rep b v rs v' rs'.

(** What a thread that works on buffer [b] does to the others. *)
Definition guarantee (b : Z) (v v' : vdisk) : Prop :=
  forall b', v_blockno v b' <> v_blockno v b -> rely b' v v'.

(** ** Requests move forward *)

Lemma set_phase_id r : set_phase (r_phase r) r = r.
Proof. by destruct r. Qed.

Lemma set_phase_lookup (rs : gmap Z req) i r ph j r' :
  rs !! i = Some r -> <[i := set_phase ph r]> rs !! j = Some r' ->
  exists r0 ph', rs !! j = Some r0 /\ r' = set_phase ph' r0 /\ (j <> i -> r' = r0) /\ (j = i -> ph' = ph).
Proof.
  intros Hi Hj. apply lookup_insert_Some in Hj as [[<- <-]|[Hne Hj]]; [by exists r, ph|].
  exists r', (r_phase r'). rewrite set_phase_id. by split_and!.
Qed.

Lemma vstat_ext v v' rs :
  vstat v rs -> v_info_b v' = v_info_b v -> v_desc v' = v_desc v -> v_ops v' = v_ops v -> v_free v' = v_free v ->
  v_blockno v' = v_blockno v -> vstat v' rs.
Proof.
  intros [H1 H2 H3 H4 H5 H6 H7 H8] E1 E2 E3 E4 E5. split; rewrite ?E1, ?E4, ?E5; try done.
  intros i r Hi. destruct (H2 i r Hi) as [C1 C2 C3 C4]. by split; rewrite ?E2, ?E3, ?E5.
Qed.

Lemma vstat_phase v rs i r ph : vstat v rs -> rs !! i = Some r -> vstat v (<[i := set_phase ph r]> rs).
Proof.
  intros [H1 H2 H3 H4 H5 H6 H7 H8] Hi. split.
  - intros j. rewrite H1. destruct (decide (j = i)) as [->|]; [|by rewrite lookup_insert_ne].
    by rewrite lookup_insert_eq, Hi.
  - intros j r' Hj. destruct (set_phase_lookup _ _ _ _ _ _ Hi Hj) as (r0 & ? & Hj0 & -> & _).
    destruct (H2 j r0 Hj0) as [C1 C2 C3 C4]. by split.
  - intros j r' d Hj. destruct (set_phase_lookup _ _ _ _ _ _ Hi Hj) as (r0 & ? & Hj0 & -> & _). apply (H3 j r0 d Hj0).
  - intros j r' Hj. destruct (set_phase_lookup _ _ _ _ _ _ Hi Hj) as (r0 & ? & Hj0 & -> & _). apply (H4 j r0 Hj0).
  - intros j r' k r'' d Hj Hk. destruct (set_phase_lookup _ _ _ _ _ _ Hi Hj) as (r0 & ? & Hj0 & -> & _).
    destruct (set_phase_lookup _ _ _ _ _ _ Hi Hk) as (r1 & ? & Hk0 & -> & _). apply (H5 j r0 k r1 d Hj0 Hk0).
  - intros d Hd. rewrite H6 by done. split; intros Hf j r' Hj.
    + destruct (set_phase_lookup _ _ _ _ _ _ Hi Hj) as (r0 & ? & Hj0 & -> & _). apply (Hf j r0 Hj0).
    + destruct (decide (j = i)) as [->|]; [|apply Hf; by rewrite lookup_insert_ne].
      simplify_eq. apply (Hf i (set_phase ph r)). by rewrite lookup_insert_eq.
  - intros j r' k r'' Hj Hk. destruct (set_phase_lookup _ _ _ _ _ _ Hi Hj) as (r0 & ? & Hj0 & -> & _).
    destruct (set_phase_lookup _ _ _ _ _ _ Hi Hk) as (r1 & ? & Hk0 & -> & _). apply (H7 j r0 k r1 Hj0 Hk0).
  - intros j r' Hj. destruct (set_phase_lookup _ _ _ _ _ _ Hi Hj) as (r0 & ? & Hj0 & -> & _). apply (H8 j r0 Hj0).
Qed.

Lemma in_phase_set (rs : gmap Z req) i r ph ph' j :
  rs !! i = Some r -> in_phase (<[i := set_phase ph r]> rs) ph' j <->
  (j = i /\ ph' = ph) \/ (j <> i /\ in_phase rs ph' j).
Proof.
  intros Hi. unfold in_phase. destruct (decide (j = i)) as [->|Hne].
  - rewrite lookup_insert_eq. naive_solver.
  - rewrite lookup_insert_ne by done. naive_solver.
Qed.

Lemma u16_mod_num x k : (u16 x + k) mod NUM = (x + k) mod NUM.
Proof.
  unfold u16. rewrite <-(Zplus_mod_idemp_l (x mod _)), <-(Zplus_mod_idemp_l x). f_equal. f_equal. symmetry.
  apply Znumtheory.Zmod_div_mod; [done|done|]. by exists (2 ^ 13).
Qed.

Lemma ring_tail f from x l : ring f from (x :: l) -> ring f (u16 (from + 1)) l.
Proof.
  intros Hr k i Hk. specialize (Hr (S k) i Hk). rewrite <-Hr. f_equal. rewrite u16_mod_num. f_equal. lia.
Qed.

(** A queue loses its first entry. *)
Lemma queued_pop rs ph f from upto x l i r ph' :
  rs !! i = Some r -> r_phase r = ph -> ph' <> ph -> x = i ->
  queued rs ph f from upto (x :: l) -> queued (<[i := set_phase ph' r]> rs) ph f (u16 (from + 1)) upto l.
Proof.
  intros Hi Hp Hne -> (E & Hr & Hnd & Hin). apply NoDup_cons in Hnd as [Hx Hnd]. split_and!.
  - rewrite E. simpl length. unfold u16. rewrite Zplus_mod_idemp_l. f_equal. lia.
  - by eapply ring_tail.
  - done.
  - intros j. rewrite (in_phase_set rs i r) by done. specialize (Hin j). rewrite elem_of_cons in Hin.
    destruct (decide (j = i)) as [->|]; naive_solver.
Qed.

Lemma queued_same rs rs' ph f from upto l :
  (forall i, in_phase rs' ph i <-> in_phase rs ph i) -> queued rs ph f from upto l -> queued rs' ph f from upto l.
Proof. intros Hs (E & Hr & Hnd & Hin). split_and!; try done. intros i. by rewrite Hin, Hs. Qed.

(** A queue gains an entry at its end. *)
Lemma queued_push rs rs' ph f from upto l i :
  (length l < Z.to_nat NUM)%nat -> ~ in_phase rs ph i ->
  (forall j, in_phase rs' ph j <-> j = i \/ in_phase rs ph j) ->
  queued rs ph f from upto l -> queued rs' ph (<[upto mod NUM := i]> f) from (u16 (upto + 1)) (l ++ [i]).
Proof.
  intros Hlen Hi Hs (E & Hr & Hnd & Hin). rewrite <-Hin in Hi. split_and!.
  - rewrite E, length_app. simpl length. unfold u16. rewrite Zplus_mod_idemp_l. f_equal. lia.
  - assert (Eu : upto mod NUM = (from + Z.of_nat (length l)) mod NUM).
    { rewrite E. rewrite <-(Z.add_0_r (u16 _)), u16_mod_num. f_equal. lia. }
    intros k j Hk. rewrite Eu. apply lookup_app_Some in Hk as [Hk|[Hge Hk]].
    + rewrite upd_other; [by apply Hr|]. apply lookup_lt_Some in Hk.
      change (Z.to_nat NUM) with 8%nat in Hlen. unfold NUM. Z.to_euclidean_division_equations. lia.
    + apply list_lookup_singleton_Some in Hk as [Hk ->]. replace k with (length l) by lia. apply upd_same.
  - apply NoDup_app. split_and!; [done| |apply NoDup_singleton]. intros x Hx ->%list_elem_of_singleton. done.
  - intros j. rewrite elem_of_app, Hin, list_elem_of_singleton, Hs. tauto.
Qed.

Lemma range_length (l : list Z) : NoDup l -> (forall i, i ∈ l -> 0 <= i < NUM) -> (length l <= Z.to_nat NUM)%nat.
Proof.
  intros Hnd Hr. assert (Hs : l ⊆+ seqZ 0 NUM).
  { apply NoDup_submseteq; [done|]. intros i Hi. apply elem_of_seqZ. specialize (Hr i Hi). lia. }
  apply submseteq_length in Hs. by rewrite length_seqZ in Hs.
Qed.

Lemma queued_length v rs ph f from upto l i :
  vstat v rs -> queued rs ph f from upto l -> 0 <= i < NUM -> i ∉ l -> (length l < Z.to_nat NUM)%nat.
Proof.
  intros S (_ & _ & Hnd & Hin) Hi Hn. assert (H : (length (i :: l) <= Z.to_nat NUM)%nat); [|simpl in H; lia].
  apply range_length; [by apply NoDup_cons|]. intros j [->|(r & Hj & _)%Hin]%elem_of_cons; [done|].
  apply (vr_range v rs S j r j Hj). unfold descs. apply elem_of_cons. by left.
Qed.

(** The device takes a step. *)
Definition fetched (v : vdisk) : vdisk :=
  set_v_fetch_idx (u16 (v_fetch_idx v + 1)) (set_v_fetched (v_fetched v ++ [v_avail_ring v (v_fetch_idx v mod NUM)]) v).

Lemma fetched_rely b v rs i la r :
  vrep v rs -> queued rs Submitted (v_avail_ring v) (v_fetch_idx v) (v_avail_idx v) (i :: la) -> rs !! i = Some r ->
  r_phase r = Submitted -> rely_rep b v rs (fetched v) (<[i := set_phase Fetched r]> rs).
Proof.
  intros R Ha Hi Hp. destruct R as [S Hb _ [Hfn Hf] [lu Hu] Hidx Hst Hd]. pose proof Ha as (E & Hr & Hnd & Hin).
  assert (Ei : v_avail_ring v (v_fetch_idx v mod NUM) = i).
  { rewrite <-(Hr 0%nat i eq_refl). f_equal. f_equal. lia. }
  unfold fetched. rewrite Ei.
  assert (Hlk : forall j r', <[i := set_phase Fetched r]> rs !! j = Some r' -> exists r0 ph, rs !! j = Some r0 /\
    r' = set_phase ph r0 /\ (ph = Fetched \/ r' = r0)).
  { intros j r' Hj. destruct (set_phase_lookup _ _ _ _ _ _ Hi Hj) as (r0 & ph & ? & ? & ? & ?).
    exists r0, ph. destruct (decide (j = i)); auto. }
  split; [split|..]; try done.
  - eapply vstat_ext; [by eapply vstat_phase|done..].
  - intros j r' Hj. destruct (set_phase_lookup _ _ _ _ _ _ Hi Hj) as (r0 & ph & Hj0 & -> & Hne' & He).
    simpl. rewrite (Hb j r0 Hj0). destruct (decide (j = i)) as [->|Hji].
    + rewrite He by done. simplify_eq. rewrite Hp. done.
    + specialize (Hne' Hji). apply (f_equal r_phase) in Hne'. simpl in Hne'. by subst.
  - exists la. exact (queued_pop _ Submitted _ _ _ i la i r Fetched Hi Hp ltac:(done) eq_refl Ha).
  - split.
    + apply NoDup_app. split_and!; [done| |apply NoDup_singleton]. intros x Hx ->%list_elem_of_singleton.
      apply Hf in Hx as (r' & ? & ?). simplify_eq. congruence.
    + intros j. simpl. rewrite elem_of_app, list_elem_of_singleton, Hf, (in_phase_set rs i r) by done.
      destruct (decide (j = i)) as [->|]; naive_solver.
  - exists lu. eapply queued_same; [|done]. intros j. rewrite (in_phase_set rs i r) by done.
    destruct (decide (j = i)) as [->|]; [|naive_solver]. split; [naive_solver|]. intros (r' & ? & ?). simplify_eq. congruence.
  - simpl. split; [unfold u16; apply Z.mod_pos_bound; lia|apply Hidx].
  - intros j r' Hj Hp'. destruct (Hlk j r' Hj) as (r0 & ph & Hj0 & -> & [->|E']); [done|].
    rewrite E' in Hp'. by apply (Hst j r0).
  - intros j r' Hj Hp'. destruct (Hlk j r' Hj) as (r0 & ph & Hj0 & -> & [->|E']); [by destruct Hp'|].
    rewrite E' in *. by apply (Hd j r0).
  - intros j r' Hj Hb'. destruct (decide (j = i)) as [->|].
    + simplify_eq. exists Fetched. by rewrite lookup_insert_eq.
    + exists (r_phase r'). rewrite lookup_insert_ne by done. by rewrite set_phase_id.
Qed.

Lemma fetches_rely b v v' : device_fetches v v' -> rely b v v'.
Proof.
  intros [Hne ->] rs R. destruct (vr_avail v rs R) as [[|i la] Ha].
  { exfalso. destruct Ha as (E & _). apply Hne. rewrite E. simpl length. destruct (vr_idx v rs R).
    unfold u16. rewrite Z.mod_small; lia. }
  destruct (proj1 (proj2 (proj2 (proj2 Ha)) i)) as (r & Hi & Hp); [apply elem_of_cons; by left|].
  eexists. by apply (fetched_rely b v rs i la r).
Qed.

Lemma set_phase_ne (rs : gmap Z req) i r ph j r' :
  rs !! i = Some r -> <[i := set_phase ph r]> rs !! j = Some r' -> (j = i /\ r' = set_phase ph r) \/ (j <> i /\ rs !! j = Some r').
Proof. intros Hi [[<- <-]|[? ?]]%lookup_insert_Some; [by left|by right]. Qed.

Lemma rl_mine_set (rs : gmap Z req) i r ph b : rs !! i = Some r ->
  forall j r', rs !! j = Some r' -> r_b r' = b -> exists ph', <[i := set_phase ph r]> rs !! j = Some (set_phase ph' r').
Proof.
  intros Hi j r' Hj _. destruct (decide (j = i)) as [->|].
  - simplify_eq. exists ph. by rewrite lookup_insert_eq.
  - exists (r_phase r'). rewrite lookup_insert_ne by done. by rewrite set_phase_id.
Qed.

(** What the device leaves when it has carried out request [r]. *)
Definition transferred (i : Z) (r : req) (v : vdisk) : vdisk :=
  let bn := v_blockno v (r_b r) in
  let w := if r_write r then set_v_medium (<[bn := v_data v (r_b r)]> (v_medium v)) v
           else set_v_data (<[r_b r := v_medium v bn]> (v_data v)) v in
  set_v_fetched (filter (.≠ i) (v_fetched v))
    (set_v_used_idx (u16 (v_used_idx v + 1))
      (set_v_used_ring (<[v_used_idx v mod NUM := i]> (v_used_ring v))
        (set_v_info_status (<[i := 0]> (v_info_status v)) w))).

Lemma completes_transferred i v v' rs r :
  vstat v rs -> rs !! i = Some r -> device_completes i v v' -> v' = transferred i r v.
Proof.
  intros S Hi (o & b & s & Ho & Hb & Hs & ->). destruct (vr_chain v rs S i r Hi) as [C1 C2 C3 C4].
  rewrite C2 in Ho, Hb, Hs. simpl in Ho, Hb, Hs. rewrite C3 in Hb, Hs. simpl in Hb, Hs. rewrite C4 in Hs. simpl in Hs.
  injection Ho as <-. injection Hb as <-. injection Hs as <-. rewrite C1. simpl q_type. simpl q_sector.
  pose proof (vr_small v rs S i r Hi). change (BSIZE / 512) with 2.
  replace (u32 (v_blockno v (r_b r) * 2) / 2) with (v_blockno v (r_b r)).
  2:{ unfold u32. rewrite Z.mod_small by lia. by rewrite Z.div_mul. }
  unfold transferred. by destruct (r_write r).
Qed.

(** The data of the requests that are carried out is on both sides. *)
Lemma transferred_data i r v rs :
  vrep v rs -> rs !! i = Some r -> forall j r', <[i := set_phase Completed r]> rs !! j = Some r' ->
  r_phase r' = Completed \/ r_phase r' = Finished ->
  v_medium (transferred i r v) (v_blockno v (r_b r')) = v_data (transferred i r v) (r_b r').
Proof.
  intros R Hi j r' Hj Hp. pose proof (vr_block v rs (vr_stat v rs R)) as Hblk.
  destruct (set_phase_ne _ _ _ _ _ _ Hi Hj) as [[-> ->]|[Hne Hj']].
  - unfold transferred. simpl. destruct (r_write r); simpl; by rewrite upd_same.
  - pose proof (vr_data v rs R j r' Hj' Hp) as Hd. pose proof (Hblk j r' i r Hj' Hi) as Hbi.
    unfold transferred. destruct (r_write r); simpl; (rewrite upd_other; [done|]); intros E; apply Hne, Hbi; congruence.
Qed.

Lemma transferred_rely b v rs i r :
  vrep v rs -> rs !! i = Some r -> r_phase r = Fetched ->
  rely_rep b v rs (transferred i r v) (<[i := set_phase Completed r]> rs).
Proof.
  intros R Hi Hp. pose proof (transferred_data i r v rs R Hi) as Htd.
  pose proof R as [S Hb [la Ha] [Hfn Hf] [lu Hu] Hidx Hst Hd].
  assert (Hi0 : 0 <= i < NUM) by (apply (vr_range v rs S i r i Hi); unfold descs; apply elem_of_cons; by left).
  assert (Hbn : v_blockno (transferred i r v) = v_blockno v) by (unfold transferred; by destruct (r_write r)).
  assert (Hnc : ~ in_phase rs Completed i) by (intros (r' & ? & ?); simplify_eq; congruence).
  split; [split|..]; try done.
  - eapply vstat_ext; [by eapply vstat_phase|..]; unfold transferred; by destruct (r_write r).
  - intros j r' Hj. replace (v_busy (transferred i r v)) with (v_busy v) by (unfold transferred; by destruct (r_write r)).
    destruct (set_phase_ne _ _ _ _ _ _ Hi Hj) as [[-> ->]|[Hne Hj']]; [|by apply (Hb j)].
    simpl. rewrite (Hb i r Hi), Hp. done.
  - exists la. unfold transferred.
    assert (Hq : queued (<[i := set_phase Completed r]> rs) Submitted (v_avail_ring v) (v_fetch_idx v) (v_avail_idx v) la).
    { eapply queued_same; [|exact Ha]. intros j. rewrite (in_phase_set rs i r) by done.
      destruct (decide (j = i)) as [->|]; [|naive_solver]. split; [naive_solver|]. intros (r' & ? & ?). simplify_eq. congruence. }
    by destruct (r_write r).
  - assert (Hq : NoDup (filter (.≠ i) (v_fetched v)) /\
      forall j, j ∈ filter (.≠ i) (v_fetched v) <-> in_phase (<[i := set_phase Completed r]> rs) Fetched j).
    { split; [by apply NoDup_filter|]. intros j. rewrite list_elem_of_filter, Hf, (in_phase_set rs i r) by done. naive_solver. }
    unfold transferred. by destruct (r_write r).
  - exists (lu ++ [i]).
    assert (Hq : queued (<[i := set_phase Completed r]> rs) Completed (<[v_used_idx v mod NUM := i]> (v_used_ring v))
      (v_seen v) (u16 (v_used_idx v + 1)) (lu ++ [i])).
    { eapply queued_push; [|exact Hnc| |exact Hu].
      - eapply queued_length; [done|done|done|]. destruct Hu as (_ & _ & _ & Hu). by rewrite Hu.
      - intros j. rewrite (in_phase_set rs i r) by done. destruct (decide (j = i)); naive_solver. }
    unfold transferred. by destruct (r_write r).
  - unfold transferred. by destruct (r_write r).
  - intros j r' Hj Hp'. replace (v_info_status (transferred i r v)) with (<[i := 0]> (v_info_status v))
      by (unfold transferred; by destruct (r_write r)).
    destruct (set_phase_ne _ _ _ _ _ _ Hi Hj) as [[-> ->]|[Hne Hj']]; [by rewrite upd_same|].
    rewrite upd_other by done. by apply (Hst j r').
  - intros j r' Hj Hp'. rewrite Hbn. by apply (Htd j r').
  - by eapply rl_mine_set.
  - unfold unused. rewrite Hbn. intros Hun j b' Hb'. apply (Hun j). revert Hb'. unfold transferred. by destruct (r_write r).
  - intros Hw. unfold transferred. destruct (r_write r) eqn:Ew; [done|]. simpl. rewrite upd_other; [done|].
    intros Eb. rewrite (Hw i r Hi Eb) in Ew. done.
  - intros Hw. unfold transferred. destruct (r_write r) eqn:Ew; [|done]. simpl. rewrite upd_other; [done|].
    intros Eb. rewrite (Hw i r Hi) in Ew; done.
Qed.

Lemma completes_rely i b v v' : i ∈ v_fetched v -> device_completes i v v' -> rely b v v'.
Proof.
  intros Hif Hdev rs R. destruct (proj1 (proj2 (vr_fetched v rs R) i) Hif) as (r & Hi & Hp). eexists.
  rewrite (completes_transferred _ _ _ _ _ (vr_stat v rs R) Hi Hdev). by apply transferred_rely.
Qed.

Lemma device_rely `{VirtioDevice device} b v v' : device v v' -> rely b v v'.
Proof.
  intros Hd. destruct (device_documented v v' Hd) as [?|(i & ? & ?)]; [by apply fetches_rely|by eapply completes_rely].
Qed.

(** ** The interrupt handler *)

(** Requests move forward and nothing else changes. *)
Record progress (v : vdisk) (rs : gmap Z req) (v' : vdisk) (rs' : gmap Z req) : Prop := {
  pg_rep : vrep v' rs';
  pg_mine : forall i r, rs !! i = Some r -> exists ph, rs' !! i = Some (set_phase ph r) /\
    (ph = r_phase r \/ (r_phase r = Completed /\ ph = Finished));
  pg_blockno : v_blockno v' = v_blockno v;
  pg_info : v_info_b v' = v_info_b v;
  pg_data : v_data v' = v_data v;
  pg_medium : v_medium v' = v_medium v
}.

Lemma progress_refl v rs : vrep v rs -> progress v rs v rs.
Proof. intros R. split; try done. intros i r Hi. exists (r_phase r). rewrite set_phase_id. auto. Qed.

Lemma progress_trans v1 rs1 v2 rs2 v3 rs3 : progress v1 rs1 v2 rs2 -> progress v2 rs2 v3 rs3 -> progress v1 rs1 v3 rs3.
Proof.
  intros P1 P2. destruct P1 as [_ M1 B1 I1 D1 E1], P2 as [R M2 B2 I2 D2 E2].
  split; rewrite ?B2, ?I2, ?D2, ?E2; try done.
  intros i r Hi. destruct (M1 i r Hi) as (ph & Hi2 & H2). destruct (M2 i _ Hi2) as (ph' & Hi3 & H3).
  exists ph'. split; [by rewrite Hi3|]. simpl in H3. naive_solver.
Qed.

Lemma progress_rely b v rs v' rs' : progress v rs v' rs' -> rely_rep b v rs v' rs'.
Proof.
  intros [R M B I D E]. split; try done; rewrite ?B, ?D, ?E; try done.
  - intros i r Hi _. destruct (M i r Hi) as (ph & ? & _). eauto.
  - unfold unused. by rewrite B, I.
Qed.

(** One entry of the used ring is handled. *)
Lemma finish_progress v rs i lu r :
  vrep v rs -> queued rs Completed (v_used_ring v) (v_seen v) (v_used_idx v) (i :: lu) -> rs !! i = Some r ->
  let v' := set_v_seen (u16 (v_seen v + 1)) (set_v_busy (<[r_b r := false]> (v_busy v)) v) in
  let rs' := <[i := set_phase Finished r]> rs in
  progress v rs v' rs' /\ queued rs' Completed (v_used_ring v') (v_seen v') (v_used_idx v') lu.
Proof.
  intros R Hu Hi v' rs'. pose proof R as [S Hb [la Ha] [Hfn Hf] _ Hidx Hst Hd].
  assert (Hp : r_phase r = Completed).
  { destruct Hu as (_ & _ & _ & Hin). destruct (proj1 (Hin i)) as (r' & ? & ?); [apply elem_of_cons; by left|]. by simplify_eq. }
  assert (Hq : queued rs' Completed (v_used_ring v') (v_seen v') (v_used_idx v') lu)
    by exact (queued_pop _ Completed _ _ _ i lu i r Finished Hi Hp ltac:(done) eq_refl Hu).
  assert (Ho : forall ph j, ph <> Completed -> ph <> Finished -> in_phase rs' ph j <-> in_phase rs ph j).
  { intros ph j H1 H2. unfold rs'. rewrite (in_phase_set rs i r) by done.
    destruct (decide (j = i)) as [->|]; [|naive_solver]. split; [naive_solver|]. intros (r' & ? & ?). simplify_eq. }
  split; [|done]. split; try done; [split|].
  - eapply vstat_ext; [by eapply vstat_phase|done..].
  - intros j r' Hj. simpl. destruct (set_phase_ne _ _ _ _ _ _ Hi Hj) as [[-> ->]|[Hne Hj']]; [by rewrite upd_same|].
    rewrite upd_other; [by apply (Hb j)|]. intros Eb. apply Hne, (vr_block v rs S j r' i r Hj' Hi). by rewrite Eb.
  - exists la. eapply queued_same; [|exact Ha]. intros j. by apply Ho.
  - split; [done|]. intros j. simpl. rewrite Hf. symmetry. by apply Ho.
  - by exists lu.
  - simpl. split; [apply Hidx|]. unfold u16. apply Z.mod_pos_bound. lia.
  - intros j r' Hj Hp'. destruct (set_phase_ne _ _ _ _ _ _ Hi Hj) as [[-> ->]|[Hne Hj']]; [done|]. by apply (Hst j r').
  - intros j r' Hj Hp'. simpl. destruct (set_phase_ne _ _ _ _ _ _ Hi Hj) as [[-> ->]|[Hne Hj']].
    + simpl. apply (Hd i r Hi). by left.
    + by apply (Hd j r').
  - intros j r' Hj. destruct (decide (j = i)) as [->|].
    + simplify_eq. exists Finished. unfold rs'. rewrite lookup_insert_eq. auto.
    + exists (r_phase r'). unfold rs'. rewrite lookup_insert_ne, set_phase_id by done. auto.
Qed.

Definition vlocked (t : tctx) : Prop := Forall plain (t_held t).

Lemma vdisk_plain : plain vdisk_lock.
Proof. done. Qed.

(** The used ring is read to its end, and the threads whose requests are in
    [lu] are woken up. *)
Definition handled (seen used : Z) (rs : gmap Z req) (lu : list Z) (t t' : tctx) : Prop :=
  seen = used /\ (forall e, e ∈ t_trace t -> e ∈ t_trace t') /\
  forall i r, i ∈ lu -> rs !! i = Some r -> EWake (vbuf_chan (r_b r)) ∈ t_trace t'.

Lemma intr_loop_wp fuel lu t v rs :
  vlocked t -> vrep v rs -> queued rs Completed (v_used_ring v) (v_seen v) (v_used_idx v) lu -> (length lu < fuel)%nat ->
  wp (intr_loop fuel) (fun _ t' v' => quiet t t' /\ handled (v_seen v') (v_used_idx v') rs lu t t' /\
    exists rs', progress v rs v' rs') t v.
Proof.
  revert lu t v rs. induction fuel as [|fuel IH]; intros lu t v rs Ht R Hu Hl; [lia|].
  pose proof Hu as (E & Hr & _ & Hin). destruct (vr_idx v rs R) as [_ Hseen]. cbn [intr_loop]. wp_steps.
  destruct lu as [|i lu].
  { simpl in E. assert (Es : v_seen v = v_used_idx v) by (rewrite E; unfold u16; rewrite Z.mod_small; lia).
    rewrite (proj2 (Z.eqb_eq _ _) Es). simpl. wp_steps. split_and!; [done| |exists rs; by apply progress_refl].
    split_and!; [done|done|]. by intros j r ?%elem_of_nil. }
  assert (Hlen : (length (i :: lu) <= Z.to_nat NUM)%nat).
  { apply range_length; [by destruct Hu as (_ & _ & ? & _)|]. intros j (r & Hj & _)%Hin.
    apply (vr_range v rs (vr_stat v rs R) j r j Hj). unfold descs. apply elem_of_cons. by left. }
  assert (En : (v_seen v =? v_used_idx v) = false).
  { apply Z.eqb_neq. rewrite E. unfold u16. change (Z.to_nat NUM) with 8%nat in Hlen. simpl length in *.
    Z.to_euclidean_division_equations. lia. }
  rewrite En. simpl negb. cbv iota. destruct (proj1 (Hin i)) as (r & Hi & Hp); [apply elem_of_cons; by left|].
  assert (Eid : v_used_ring v (v_seen v mod NUM) = i) by (rewrite <-(Hr 0%nat i eq_refl); do 2 f_equal; lia).
  rewrite Eid, (vr_status v rs R i r Hi Hp). simpl nz. cbv iota.
  rewrite (vr_info v rs (vr_stat v rs R) i), Hi. simpl. wp_steps.
  eapply wp_done; [by apply wakeup_done|]. wp_steps.
  destruct (finish_progress v rs i lu r R Hu Hi) as [P Hq].
  eapply wp_mono; [eapply IH; [|exact (pg_rep _ _ _ _ P)|exact Hq|simpl in Hl; lia]; done|].
  intros [] t' v' (Hqt & (Es & Etr & Ewk) & rs' & P'). split_and!; [done| |exists rs'; by eapply progress_trans].
  assert (Hemit : forall e, e ∈ EWake (vbuf_chan (r_b r)) :: t_trace t -> e ∈ t_trace t') by exact Etr.
  split_and!; [done|intros e He; apply Hemit, elem_of_cons; by right|].
  intros j r' [->|Hj]%elem_of_cons Hr'; [simplify_eq; apply Hemit, elem_of_cons; by left|].
  apply (Ewk j r' Hj). rewrite lookup_insert_ne; [done|]. intros <-.
  destruct Hu as (_ & _ & [Hni _]%NoDup_cons & _). done.
Qed.

(** Nothing is left in the used ring, so no request is only completed. *)
Lemma drained v rs : vrep v rs -> v_seen v = v_used_idx v -> forall i, ~ in_phase rs Completed i.
Proof.
  intros R Es i Hi. destruct (vr_used v rs R) as (l & E & _ & Hnd & Hin). pose proof (proj2 (Hin i) Hi) as Hl.
  assert (Hlen : (length l <= Z.to_nat NUM)%nat).
  { apply range_length; [done|]. intros j (r & Hj & _)%Hin.
    apply (vr_range v rs (vr_stat v rs R) j r j Hj). unfold descs. apply elem_of_cons. by left. }
  destruct l as [|x l]; [by apply elem_of_nil in Hl|]. destruct (vr_idx v rs R) as [_ Hs]. rewrite <-Es in E.
  change (Z.to_nat NUM) with 8%nat in Hlen. simpl length in *. unfold u16 in E. Z.to_euclidean_division_equations. lia.
Qed.

Lemma virtio_disk_intr_wp t v rs :
  vdisk_lock ∉ t_held t -> vlocked t -> vrep v rs ->
  wp virtio_disk_intr (fun _ t' v' => quiet t t' /\
    (forall i r, rs !! i = Some r -> r_phase r = Completed -> EWake (vbuf_chan (r_b r)) ∈ t_trace t') /\
    v_seen v' = v_used_idx v' /\ exists rs', progress v rs v' rs') t v.
Proof.
  intros Hl Ht R. destruct (vr_used v rs R) as [lu Hu]. unfold virtio_disk_intr. wp_steps.
  eapply wp_mono; [eapply (intr_loop_wp _ lu); [by constructor|done|done|]|].
  { assert (length lu <= Z.to_nat NUM)%nat; [|lia]. apply range_length; [by destruct Hu as (_ & _ & ? & _)|].
    intros j (r & Hj & _)%Hu. apply (vr_range v rs (vr_stat v rs R) j r j Hj). unfold descs. apply elem_of_cons. by left. }
  intros [] t' v' ((Hh & H2 & H3 & H4) & (Es & _ & Hwk) & HP). eapply wp_done.
  { unfold release. rewrite decide_True; [done|]. rewrite Hh. simpl. apply elem_of_cons. by left. }
  split_and!; [|..|done|done].
  - unfold quiet, unhold. rewrite Hh. by simpl.
  - intros i r Hi Hp. simpl. apply (Hwk i r); [|done]. apply Hu. by exists r.
Qed.

(** ** Descriptors *)

(** [w] is [v] with the descriptors of [idx] taken, and perhaps others that
    are free wiped. *)
Record half (v : vdisk) (idx : list Z) (w : vdisk) : Prop := {
  hf_same : exists f g, w = set_v_free f (set_v_desc g v);
  hf_nodup : NoDup idx;
  hf_idx : forall i, i ∈ idx -> 0 <= i < NUM /\ v_free v i = true;
  hf_free : forall d, 0 <= d < NUM -> v_free w d = v_free v d && negb (bool_decide (d ∈ idx));
  hf_desc : forall d, 0 <= d < NUM -> v_free v d = false -> v_desc w d = v_desc v d
}.

Lemma half_refl v : half v [] v.
Proof.
  split; [|constructor|by intros i ?%elem_of_nil| |done].
  - exists (v_free v), (v_desc v). by destruct v.
  - intros d _. rewrite bool_decide_false by apply not_elem_of_nil. by rewrite andb_true_r.
Qed.

Lemma find_free_spec v i n :
  find_free v i n = -1 \/
  (i <= find_free v i n < i + Z.of_nat n /\ v_free v (find_free v i n) = true).
Proof.
  revert i. induction n as [|n IH]; intros i; simpl; [by left|].
  destruct (v_free v i) eqn:E; [right; split; [lia|done]|]. destruct (IH (i + 1)) as [?|[? ?]]; [by left|right; split; [lia|done]].
Qed.

Lemma alloc_desc_wp t v w idx :
  half v idx w ->
  wp alloc_desc (fun i t' w' => t' = t /\ ((i = -1 /\ w' = w) \/ (0 <= i < NUM /\ half v (idx ++ [i]) w'))) t w.
Proof.
  intros [(f & g & Ew) Hnd Hi Hf Hd]. unfold alloc_desc. wp_steps.
  destruct (find_free_spec w 0 (Z.to_nat NUM)) as [E|[Hr Hfr]].
  - rewrite E. simpl. wp_steps. auto.
  - revert Hr Hfr. generalize (find_free w 0 (Z.to_nat NUM)) as i. intros i Hr Hfr. change (0 + Z.of_nat (Z.to_nat NUM)) with NUM in Hr.
    rewrite (proj2 (Z.ltb_ge i 0)) by lia. wp_steps. split; [done|]. right. split; [done|].
    rewrite (Hf i Hr) in Hfr. apply andb_true_iff in Hfr as [Hfr Hni]. apply negb_true_iff, bool_decide_eq_false in Hni.
    split.
    + exists (<[i := false]> (v_free w)), (v_desc w). subst w. done.
    + apply NoDup_app. split_and!; [done| |apply NoDup_singleton]. by intros x Hx ->%list_elem_of_singleton.
    + intros j [Hj| ->%list_elem_of_singleton]%elem_of_app; [by apply Hi|done].
    + intros d Hd'. simpl. rewrite upd_eq. case_decide as Hid.
      * subst d. rewrite bool_decide_true by (rewrite elem_of_app, list_elem_of_singleton; by right). by rewrite andb_false_r.
      * rewrite (Hf d Hd'). f_equal. f_equal. apply bool_decide_ext. rewrite elem_of_app, list_elem_of_singleton. naive_solver.
    + simpl. exact Hd.
Qed.

Lemma free_desc_wp i t v :
  vlocked t -> i < NUM -> v_free v i = false ->
  wp (free_desc i) (fun _ t' v' => quiet t t' /\
    v' = set_v_free (<[i := true]> (v_free v))
           (set_v_desc (<[i := {| d_addr := DNull; d_len := 0; d_flags := 0; d_next := 0 |}]> (v_desc v)) v)) t v.
Proof.
  intros Ht Hi Hf. unfold free_desc. wp_steps. rewrite (proj2 (Z.leb_gt NUM i)) by done. rewrite Hf. wp_steps.
  eapply wp_done; [by apply wakeup_done|]. split; [done|]. done.
Qed.

Lemma free_descs_wp idx t v w :
  vlocked t -> half v idx w -> wp (free_descs idx) (fun _ t' w' => quiet t t' /\ half v [] w') t w.
Proof.
  revert t w. induction idx as [|i idx IH]; intros t w Ht H; simpl; wp_steps; [done|].
  pose proof H as [(f & g & Ew) Hnd Hi Hf Hd]. destruct (Hi i) as [Hr Hfi]; [apply elem_of_cons; by left|].
  apply NoDup_cons in Hnd as [Hni Hnd].
  eapply wp_mono; [apply free_desc_wp; [done|lia|]|].
  { rewrite Hf by done. rewrite bool_decide_true by (apply elem_of_cons; by left). by rewrite andb_false_r. }
  intros [] t' w' [Hq ->]. eapply wp_mono; [apply IH|].
  - unfold vlocked. by rewrite (proj1 Hq).
  - split.
    + eexists _, _. subst w. reflexivity.
    + done.
    + intros j Hj. apply Hi. apply elem_of_cons. by right.
    + intros d Hd'. simpl. rewrite upd_eq. case_decide as Hid.
      * subst d. rewrite bool_decide_false by done. by rewrite Hfi.
      * rewrite (Hf d Hd'). f_equal. f_equal. apply bool_decide_ext. rewrite elem_of_cons. naive_solver.
    + intros d Hd' Hfd. simpl. rewrite upd_other; [by apply Hd|]. intros <-. congruence.
  - intros [] t2 w2 [Hq2 H2]. split; [by etrans|done].
Qed.

Lemma alloc_descs_wp n idx t v w :
  vlocked t -> half v idx w ->
  wp (alloc_descs n idx) (fun r t' w' => quiet t t' /\
    match r with Some l => length l = (length idx + n)%nat /\ half v l w' | None => half v [] w' end) t w.
Proof.
  revert idx t w. induction n as [|n IH]; intros idx t w Ht H; cbn [alloc_descs]; wp_steps.
  { split_and!; [done|lia|done]. }
  eapply wp_mono; [by apply alloc_desc_wp|]. intros i t' w' [-> [[-> ->]|[Hi H']]].
  - simpl. wp_steps. eapply wp_mono; [by apply (free_descs_wp _ _ v)|]. intros [] t2 w2 [Hq H2]. wp_steps. done.
  - rewrite (proj2 (Z.ltb_ge i 0)) by lia. eapply wp_mono; [by apply IH|]. intros [l|] t2 w2 [Hq H2]; [|done].
    split; [done|]. rewrite length_app in H2. simpl in H2. split; [lia|apply H2].
Qed.

(** Descriptors that belong to a request are not free. *)
Lemma used_not_free v rs i r d : vstat v rs -> rs !! i = Some r -> d ∈ descs i r -> v_free v d = false.
Proof.
  intros S Hi Hd. apply not_true_is_false. intros Hf.
  apply (vr_free v rs S d (vr_range v rs S i r d Hi Hd)) with (i := i) (r := r) in Hf; done.
Qed.

Lemma descs_head i r : i ∈ descs i r.
Proof. unfold descs. apply elem_of_cons. by left. Qed.
Lemma descs_i1 i r : r_i1 r ∈ descs i r.
Proof. unfold descs. rewrite !elem_of_cons. by right; left. Qed.
Lemma descs_i2 i r : r_i2 r ∈ descs i r.
Proof. unfold descs. rewrite !elem_of_cons. by right; right; left. Qed.
#[local] Hint Resolve descs_head descs_i1 descs_i2 : core.

(** A chain is read from its descriptors, its header and the block numbers. *)
Lemma chain_ext v w i r :
  (forall d, d ∈ descs i r -> v_desc w d = v_desc v d) -> v_ops w i = v_ops v i -> v_blockno w = v_blockno v ->
  chain v i r -> chain w i r.
Proof. intros Hd Ho Hb [C1 C2 C3 C4]. split; rewrite ?Ho, ?Hb, ?Hd; auto. Qed.

Lemma half_progress v w rs : half v [] w -> vrep v rs -> progress v rs w rs.
Proof.
  intros [(f & g & ->) _ _ Hf Hd] R. pose proof R as [S Hb Ha Hft Hu Hidx Hst Hdt]. simpl in Hf, Hd.
  split; try done.
  - split; try done. pose proof S as [H1 H2 H3 H4 H5 H6 H7 H8]. split; try done.
    + intros i r Hi. eapply (chain_ext v); [|done..|by apply H2]. intros d Hdi. simpl. apply Hd; [by eapply H3|].
      eapply (used_not_free v rs); done.
    + intros d Hdr. simpl. rewrite Hf, andb_true_r by done. by apply H6.
  - intros i r Hi. exists (r_phase r). rewrite set_phase_id. auto.
Qed.

(** The request for buffer [b] that [submit] makes. *)
Definition request (b i1 i2 : Z) (write : bool) : req :=
  {| r_b := b; r_write := write; r_i1 := i1; r_i2 := i2; r_phase := Submitted |}.

Section submit.
Context (v w : vdisk) (rs : gmap Z req) (b i0 i1 i2 : Z) (write : bool).
Hypothesis R : vrep v rs.
Hypothesis H : half v [i0; i1; i2] w.
Hypothesis Hun : unused v b.
Hypothesis Hsm : 0 <= v_blockno v b < 2 ^ 31.

Let rs' := <[i0 := request b i1 i2 write]> rs.
Let w' := submit b i0 i1 i2 write w.

Lemma submit_new i r : rs !! i = Some r -> forall d, d ∈ descs i r -> d ∉ [i0; i1; i2].
Proof using R H.
  intros Hi d Hd Hin. destruct (hf_idx v _ w H d Hin) as [_ Hf].
  rewrite (used_not_free v rs i r d (vr_stat v rs R) Hi Hd) in Hf. done.
Qed.

Lemma submit_i0 : rs !! i0 = None.
Proof using R H.
  destruct (rs !! i0) as [r|] eqn:E; [|done]. exfalso. apply (submit_new i0 r E i0); [auto|]. apply elem_of_cons. by left.
Qed.

Lemma submit_lookup i r : rs' !! i = Some r -> (i = i0 /\ r = request b i1 i2 write) \/ (i <> i0 /\ rs !! i = Some r).
Proof. intros [[<- <-]|[? ?]]%lookup_insert_Some; auto. Qed.

Lemma submit_block i r : rs !! i = Some r -> v_blockno v (r_b r) <> v_blockno v b.
Proof using R Hun. intros Hi. apply (Hun i). rewrite (vr_info v rs (vr_stat v rs R)), Hi. done. Qed.

Lemma submit_blockno : v_blockno w' = v_blockno v.
Proof using H. destruct (hf_same v _ w H) as (f & g & ->). done. Qed.

Lemma submit_chain i r : rs' !! i = Some r -> chain w' i r.
Proof using R H.
  destruct (hf_same v _ w H) as (f & g & Ew). pose proof (hf_nodup v _ w H) as Hnd.
  rewrite !NoDup_cons, !not_elem_of_cons in Hnd. destruct Hnd as ((N01 & N02 & _) & (N12 & _) & _).
  intros [[-> ->]|[Hne Hi]]%submit_lookup.
  - unfold w', submit, request, set_desc. split; simpl; repeat first [rewrite upd_same|rewrite upd_other by done]; done.
  - eapply (chain_ext v); [| |by apply submit_blockno|by apply (vr_chain v rs (vr_stat v rs R))].
    + intros d Hd. pose proof (submit_new i r Hi d Hd) as Hn. rewrite !not_elem_of_cons in Hn. destruct Hn as (? & ? & ? & _).
      unfold w', submit, set_desc. simpl. rewrite !upd_other by done. apply (hf_desc v _ w H).
      * by eapply (vr_range v rs (vr_stat v rs R)).
      * by eapply (used_not_free v rs i r d (vr_stat v rs R)).
    + unfold w', submit, set_desc. simpl. rewrite upd_other by done. by rewrite Ew.
Qed.

Lemma submit_descs : descs i0 (request b i1 i2 write) = [i0; i1; i2].
Proof. done. Qed.

Lemma submit_stat : vstat w' rs'.
Proof using R H Hun Hsm.
  pose proof submit_blockno as Hbn. destruct (hf_same v _ w H) as (f & g & Ew). pose proof (vr_stat v rs R) as S. split.
  - intros i. unfold w', submit, rs'. simpl. rewrite upd_eq, lookup_insert. case_decide; [done|].
    rewrite Ew. apply (vr_info v rs S).
  - apply submit_chain.
  - intros i r d [[-> ->]|[Hne Hi]]%submit_lookup Hd; [by apply (hf_idx v _ w H)|by apply (vr_range v rs S i r)].
  - intros i r [[-> ->]|[Hne Hi]]%submit_lookup; [by apply (hf_nodup v _ w H)|by apply (vr_nodup v rs S)].
  - intros i r j r' d [[-> ->]|[Hne Hi]]%submit_lookup [[-> ->]|[Hnj Hj]]%submit_lookup Hd Hd'; [done| | |].
    + by destruct (submit_new j r' Hj d Hd').
    + by destruct (submit_new i r Hi d Hd).
    + by apply (vr_disjoint v rs S i r j r' d).
  - intros d Hd. replace (v_free w' d) with (v_free w d) by done. rewrite (hf_free v _ w H d Hd), andb_true_iff, negb_true_iff.
    rewrite bool_decide_eq_false, (vr_free v rs S d Hd). split.
    + intros [Hf Hn] i r [[-> ->]|[Hne Hi]]%submit_lookup; [done|by apply Hf].
    + intros Hf. split.
      * intros i r Hi. apply (Hf i). unfold rs'. rewrite lookup_insert_ne; [done|]. intros <-. by rewrite submit_i0 in Hi.
      * rewrite <-submit_descs. apply Hf. unfold rs'. by rewrite lookup_insert_eq.
  - rewrite Hbn. intros i r j r' [[-> ->]|[Hne Hi]]%submit_lookup [[-> ->]|[Hnj Hj]]%submit_lookup Eb; [done| | |].
    + by destruct (submit_block j r' Hj).
    + by destruct (submit_block i r Hi).
    + by apply (vr_block v rs S i r j r').
  - rewrite Hbn. intros i r [[-> ->]|[Hne Hi]]%submit_lookup; [done|by apply (vr_small v rs S i)].
Qed.

Lemma submit_phase ph i : in_phase rs' ph i <-> (i = i0 /\ ph = Submitted) \/ in_phase rs ph i.
Proof using R H.
  clear Hsm Hun.
  unfold in_phase, rs'. destruct (decide (i = i0)) as [->|].
  - rewrite lookup_insert_eq, submit_i0. naive_solver.
  - rewrite lookup_insert_ne by done. naive_solver.
Qed.

Lemma submit_rep : vrep w' rs'.
Proof using R H Hun Hsm.
  pose proof submit_blockno as Hbn. pose proof R as [S Hb [la Ha] [Hfn Hf] [lu Hu] Hidx Hst Hd].
  destruct (hf_same v _ w H) as (f & g & Ew).
  assert (Hi0 : 0 <= i0 < NUM) by (apply (hf_idx v _ w H); apply elem_of_cons; by left).
  assert (Hnp : ~ in_phase rs Submitted i0) by (intros (r & Hr & _); by rewrite submit_i0 in Hr).
  split; [by apply submit_stat|..].
  - intros i r [[-> ->]|[Hne Hi]]%submit_lookup; unfold w', submit; simpl; [by rewrite upd_same|].
    rewrite upd_other; [rewrite Ew; by apply (Hb i)|]. intros Eb. apply (submit_block i r Hi). by rewrite Eb.
  - exists (la ++ [i0]). unfold w', submit. simpl. rewrite Ew. simpl. eapply queued_push; [|exact Hnp| |exact Ha].
    + eapply queued_length; [done|done|done|]. destruct Ha as (_ & _ & _ & Ha). by rewrite Ha.
    + intros j. rewrite submit_phase. naive_solver.
  - unfold w'. rewrite Ew. split; [done|]. intros i. simpl. rewrite Hf, submit_phase. naive_solver.
  - exists lu. unfold w'. rewrite Ew. eapply queued_same; [|exact Hu]. intros j. rewrite submit_phase. naive_solver.
  - unfold w'. by rewrite Ew.
  - intros i r [[-> ->]|[Hne Hi]]%submit_lookup Hp; [done|]. unfold w', submit. simpl. rewrite upd_other by done.
    rewrite Ew. by apply (Hst i r).
  - intros i r [[-> ->]|[Hne Hi]]%submit_lookup Hp; [by destruct Hp|]. rewrite Hbn. unfold w'. rewrite Ew. by apply (Hd i r).
Qed.

(** Nobody else notices. *)
Lemma submit_rely b' : v_blockno v b' <> v_blockno v b -> rely_rep b' v rs w' rs'.
Proof using R H Hun Hsm.
  intros Hne. pose proof submit_rep as R'. pose proof submit_blockno as Hbn. destruct (hf_same v _ w H) as (f & g & Ew).
  split; try done.
  - intros i r Hi _. exists (r_phase r). rewrite set_phase_id. unfold rs'. rewrite lookup_insert_ne; [done|].
    intros <-. by rewrite submit_i0 in Hi.
  - unfold unused. rewrite Hbn. intros Hu i b2. unfold w', submit. simpl. rewrite upd_eq. case_decide.
    + intros [= <-]. congruence.
    + rewrite Ew. simpl. apply Hu.
  - intros _. unfold w'. by rewrite Ew.
  - intros _. unfold w'. by rewrite Ew.
Qed.
End submit.

(** ** A request is taken down *)

Definition freed (l : list Z) (v v' : vdisk) : Prop :=
  exists f g, v' = set_v_free f (set_v_desc g v) /\
    forall d, (d ∈ l -> f d = true) /\ (d ∉ l -> f d = v_free v d /\ g d = v_desc v d).

Lemma freed_one i v :
  freed [i] v (set_v_free (<[i := true]> (v_free v))
    (set_v_desc (<[i := {| d_addr := DNull; d_len := 0; d_flags := 0; d_next := 0 |}]> (v_desc v)) v)).
Proof.
  eexists _, _. split; [done|]. intros d. split; [intros ->%list_elem_of_singleton; by rewrite upd_same|].
  intros Hn. assert (i <> d) by (intros ->; apply Hn, list_elem_of_singleton; done). by rewrite !upd_other.
Qed.

Lemma freed_app l l' v1 v2 v3 : freed l v1 v2 -> freed l' v2 v3 -> freed (l ++ l') v1 v3.
Proof.
  intros (f & g & -> & H1) (f' & g' & -> & H2). exists f', g'. split; [done|]. intros d.
  destruct (H1 d) as [A1 B1], (H2 d) as [A2 B2]. simpl in *. rewrite elem_of_app. split.
  - intros [Hd|Hd]; [|auto]. destruct (decide (d ∈ l')) as [|Hn]; [auto|]. destruct (B2 Hn) as [-> _]. auto.
  - intros Hn. destruct B2 as [-> ->]; [tauto|]. destruct B1; tauto.
Qed.

Lemma free_chain_step fuel i t v (Q : unit -> tctx -> vdisk -> Prop) :
  vlocked t -> i < NUM -> v_free v i = false ->
  (forall t' v', quiet t t' -> freed [i] v v' ->
     if nz (Z.land (d_flags (v_desc v i)) VRING_DESC_F_NEXT) then wp (free_chain fuel (d_next (v_desc v i))) Q t' v' else Q tt t' v') ->
  wp (free_chain (S fuel) i) Q t v.
Proof.
  intros Ht Hi Hf HQ. cbn [free_chain]. wp_steps. eapply wp_mono; [by apply free_desc_wp|].
  intros [] t' v' [Hq ->]. specialize (HQ t' _ Hq (freed_one i v)). by destruct (nz _).
Qed.

Lemma free_chain_wp i t v r :
  vlocked t -> chain v i r -> NoDup (descs i r) -> (forall d, d ∈ descs i r -> d < NUM /\ v_free v d = false) ->
  wp (free_chain (Z.to_nat NUM) i) (fun _ t' v' => quiet t t' /\ freed (descs i r) v v') t v.
Proof.
  intros Ht [C1 C2 C3 C4] Hnd Hd. unfold descs in Hnd. rewrite !NoDup_cons, !not_elem_of_cons in Hnd.
  destruct Hnd as ((N01 & N02 & _) & (N12 & _) & _). change (Z.to_nat NUM) with 8%nat.
  apply free_chain_step; [done|by apply Hd..|]. intros t1 v1 Q1 F1. rewrite C2. cbn [d_flags d_next].
  change (nz (Z.land VRING_DESC_F_NEXT VRING_DESC_F_NEXT)) with true. cbv iota. pose proof F1 as (f1 & g1 & E1 & H1).
  destruct (H1 (r_i1 r)) as [_ [Hf1 Hg1]]; [by rewrite list_elem_of_singleton; auto|].
  destruct (H1 (r_i2 r)) as [_ [Hf2 Hg2]]; [by rewrite list_elem_of_singleton; auto|].
  assert (Ht1 : vlocked t1) by (unfold vlocked; by rewrite (proj1 Q1)).
  apply free_chain_step; [done|by apply (Hd (r_i1 r))|rewrite E1; simpl; rewrite Hf1; by apply (Hd (r_i1 r))|].
  intros t2 v2 Q2 F2. replace (v_desc v1 (r_i1 r)) with (v_desc v (r_i1 r)) by (by rewrite E1; simpl; rewrite Hg1).
  rewrite C3. cbn [d_flags d_next].
  assert (En : nz (Z.land (Z.lor (if r_write r then 0 else VRING_DESC_F_WRITE) VRING_DESC_F_NEXT) VRING_DESC_F_NEXT) = true)
    by (by destruct (r_write r)). rewrite En.
  assert (Ht2 : vlocked t2) by (unfold vlocked; by rewrite (proj1 Q2)).
  pose proof F2 as (f2 & g2 & E2 & H2). destruct (H2 (r_i2 r)) as [_ [Hf3 Hg3]]; [by rewrite list_elem_of_singleton; auto|].
  apply free_chain_step; [done|by apply (Hd (r_i2 r))| |].
  { rewrite E2. simpl. rewrite Hf3, E1. simpl. rewrite Hf2. by apply (Hd (r_i2 r)). }
  intros t3 v3 Q3 F3. replace (v_desc v2 (r_i2 r)) with (v_desc v (r_i2 r)).
  2:{ rewrite E2. simpl. rewrite Hg3, E1. simpl. by rewrite Hg2. }
  rewrite C4. cbn [d_flags d_next]. change (nz (Z.land VRING_DESC_F_WRITE VRING_DESC_F_NEXT)) with false. cbv iota.
  split; [by do 2 (etrans; [done|])|].
  change (descs i r) with ([i] ++ [r_i1 r] ++ [r_i2 r]). eapply freed_app; [done|]. by eapply freed_app.
Qed.

Section finish.
Context (v v' : vdisk) (rs : gmap Z req) (i0 : Z) (r : req).
Hypothesis R : vrep v rs.
Hypothesis Hi0 : rs !! i0 = Some r.
Hypothesis Hfin : r_phase r = Finished.
Hypothesis Hfr : freed (descs i0 r) (set_v_info_b (<[i0 := None]> (v_info_b v)) v) v'.

Lemma finish_lookup i r' : delete i0 rs !! i = Some r' -> i <> i0 /\ rs !! i = Some r'.
Proof. rewrite lookup_delete_Some. intros [? ?]. split; [congruence|done]. Qed.

Lemma finish_phase ph i : ph <> Finished -> in_phase (delete i0 rs) ph i <-> in_phase rs ph i.
Proof using Hi0 Hfin.
  intros Hp. unfold in_phase. setoid_rewrite lookup_delete_Some. split; [naive_solver|].
  intros (r' & Hr & E). exists r'. split_and!; try done. intros <-. simplify_eq.
Qed.

Lemma finish_stat : vstat v' (delete i0 rs).
Proof using R Hi0 Hfr.
  destruct Hfr as (f & g & -> & H). pose proof (vr_stat v rs R) as S. simpl in H.
  assert (Ho : forall i r' d, i <> i0 -> rs !! i = Some r' -> d ∈ descs i r' -> d ∉ descs i0 r).
  { intros i r' d Hne Hi Hd Hd0. by apply Hne, (vr_disjoint v rs S i r' i0 r d). }
  split.
  - intros i. simpl. rewrite upd_eq, lookup_delete. case_decide; [done|]. apply (vr_info v rs S).
  - intros i r' [Hne Hi]%finish_lookup. eapply (chain_ext v); [|done..|by apply (vr_chain v rs S)].
    intros d Hd. by apply (H d), (Ho i r').
  - intros i r' d [Hne Hi]%finish_lookup. by apply (vr_range v rs S).
  - intros i r' [Hne Hi]%finish_lookup. by apply (vr_nodup v rs S).
  - intros i r1 j r2 d [_ Hi]%finish_lookup [_ Hj]%finish_lookup. by apply (vr_disjoint v rs S).
  - intros d Hd. simpl. destruct (H d) as [A B]. destruct (decide (d ∈ descs i0 r)) as [Hin|Hn].
    + rewrite A by done. split; [|done]. intros _ i r' [Hne Hi]%finish_lookup Hd'. by apply (Ho i r' d).
    + destruct (B Hn) as [-> _]. rewrite (vr_free v rs S d Hd). split.
      * intros Hf i r' [Hne Hi]%finish_lookup. by apply Hf.
      * intros Hf i r' Hi. destruct (decide (i = i0)) as [->|]; [by simplify_eq|]. apply Hf. by rewrite lookup_delete_ne.
  - intros i r1 j r2 [_ Hi]%finish_lookup [_ Hj]%finish_lookup. by apply (vr_block v rs S).
  - intros i r' [_ Hi]%finish_lookup. by apply (vr_small v rs S i).
Qed.

Lemma finish_rep : vrep v' (delete i0 rs).
Proof using R Hi0 Hfr Hfin.
  pose proof finish_stat as S'. destruct Hfr as (f & g & -> & _).
  pose proof R as [S Hb [la Ha] [Hfn Hf] [lu Hu] Hidx Hst Hd]. split; try done.
  - intros i r' [_ Hi]%finish_lookup. by apply (Hb i).
  - exists la. eapply queued_same; [|exact Ha]. intros j. by apply finish_phase.
  - split; [done|]. intros i. simpl. rewrite Hf, finish_phase; done.
  - exists lu. eapply queued_same; [|exact Hu]. intros j. by apply finish_phase.
  - intros i r' [_ Hi]%finish_lookup. by apply (Hst i).
  - intros i r' [_ Hi]%finish_lookup. by apply (Hd i).
Qed.

Lemma finish_rely b' : v_blockno v b' <> v_blockno v (r_b r) -> rely_rep b' v rs v' (delete i0 rs).
Proof using R Hi0 Hfr Hfin.
  intros Hne. pose proof finish_rep as R'. destruct Hfr as (f & g & -> & _). split; try done.
  - intros i r' Hi Eb. exists (r_phase r'). rewrite set_phase_id, lookup_delete_ne; [done|]. intros <-. simplify_eq.
  - unfold unused. simpl. intros Hu i b2. rewrite upd_eq. case_decide; [done|]. apply Hu.
Qed.

Lemma finish_unused : unused v' (r_b r).
Proof using R Hi0 Hfr Hfin.
  intros i b'. rewrite (vr_info _ _ finish_stat). destruct (delete i0 rs !! i) as [r'|] eqn:E; [|done].
  intros [= <-]. apply finish_lookup in E as [Hne Hi]. destruct Hfr as (f & g & -> & _). simpl. intros Eb.
  by apply Hne, (vr_block v rs (vr_stat v rs R) i r' i0 r).
Qed.
End finish.

(** ** A transfer *)

Section transfer.
Context (b : Z) (bnf : Z -> Z) (d0 m0 : block) (env : vdisk -> vdisk -> Prop).
Hypothesis Henv : forall v v', env v v' -> rely b v v'.

(** No request for the block, which has contents [m0], nor the buffer,
    which has contents [d0]. *)
Definition ready (v : vdisk) : Prop :=
  exists rs, vrep v rs /\ unused v b /\ v_blockno v = bnf /\ v_data v b = d0 /\ v_medium v (bnf b) = m0.

(** The request at descriptor [i0] is on its way. *)
Definition waiting (i0 : Z) (r : req) (v : vdisk) : Prop :=
  exists rs ph, vrep v rs /\ rs !! i0 = Some (set_phase ph r) /\ v_blockno v = bnf /\
    if r_write r then v_data v b = d0 else v_medium v (bnf b) = m0.

Lemma ready_rely v v' : ready v -> rely b v v' -> ready v'.
Proof.
  intros (rs & R & Hun & Hb & Hd & Hm) Hr. destruct (Hr rs R) as [rs' [R' B' _ U' D' M']]. exists rs'.
  assert (Hno : forall i r, rs !! i = Some r -> v_blockno v (r_b r) <> v_blockno v b).
  { intros i r Hi. apply (Hun i). by rewrite (vr_info v rs (vr_stat v rs R)), Hi. }
  split_and!; [done|by apply U'|congruence| |].
  - rewrite D'; [done|]. intros i r Hi Eb. destruct (Hno i r Hi). by rewrite Eb.
  - rewrite <-Hb, M'; [by rewrite Hb|]. intros i r Hi Eb. by destruct (Hno i r Hi).
Qed.

Lemma ready_env v v' : ready v -> rtc env v v' -> ready v'.
Proof using Henv. induction 2; [done|]. eauto using ready_rely. Qed.

Lemma ready_progress v v' rs rs' : ready v -> progress v rs v' rs' -> ready v'.
Proof.
  intros (rs1 & R & Hun & Hb & Hd & Hm) [R' _ B' I' D' M']. exists rs'. unfold unused. rewrite B', I', D', M'. done.
Qed.

Lemma waiting_rely i0 r v v' : r_b r = b -> waiting i0 r v -> rely b v v' -> waiting i0 r v'.
Proof.
  intros Hrb (rs & ph & R & Hi & Hb & Hd) Hr. destruct (Hr rs R) as [rs' [R' B' Mi _ D' M']].
  destruct (Mi i0 _ Hi Hrb) as [ph' Hi']. exists rs', ph'.
  assert (Hu : forall i r', rs !! i = Some r' -> v_blockno v (r_b r') = v_blockno v b -> r_write r' = r_write r).
  { intros i r' Hr' Eb. assert (i = i0) as ->; [|by simplify_eq].
    apply (vr_block v rs (vr_stat v rs R) i r' i0 _ Hr' Hi). simpl. by rewrite Hrb. }
  split_and!; [done|by rewrite Hi'|congruence|]. destruct (r_write r).
  - rewrite D'; [done|]. intros i r' Hr' Eb. apply (Hu i r' Hr'). by rewrite Eb.
  - rewrite <-Hb, M'; [by rewrite Hb|]. intros i r' Hr' Eb. by apply (Hu i r').
Qed.

Lemma waiting_env i0 r v v' : r_b r = b -> waiting i0 r v -> rtc env v v' -> waiting i0 r v'.
Proof using Henv. intros Hb. induction 2; [done|]. eauto using waiting_rely. Qed.

Lemma progress_guarantee v v' : (forall rs, vrep v rs -> progress v rs v' rs) -> guarantee b v v'.
Proof. intros H b' _ rs R. exists rs. apply progress_rely. by apply H. Qed.

Lemma quiet_held t t' l : quiet t t' -> t_held t = l -> t_held t' = l.
Proof. intros [-> _]. done. Qed.

Lemma alloc3_rg n t v :
  t_held t = [vdisk_lock] -> ready v ->
  rg (rtc env) (guarantee b) v (alloc3_loop n t v) (fun v1 idx t' v' =>
    quiet t t' /\ ready v1 /\ length idx = 3%nat /\ half v1 idx v').
Proof using Henv.
  revert t v. induction n as [|n IH]; intros t v Ht Hr; cbn [alloc3_loop];
    apply rg_bind, wp_rg; (eapply wp_mono;
      [apply (alloc_descs_wp 3 [] t v v); [unfold vlocked; rewrite Ht; by repeat constructor|by apply half_refl]|]);
    intros [idx|] t1 w [Hq H1]; try (by destruct H1).
  - apply progress_guarantee. intros rs. by apply half_progress.
  - assert (Hw : ready w).
    { pose proof Hr as (rs & R & _). eapply ready_progress; [done|]. by apply (half_progress v w rs). }
    apply (rg_bind _ _ (sleep free_chan vdisk_lock)).
    destruct (sleep_asleep free_chan vdisk_lock t1 w ltac:(done) (quiet_held _ _ _ Hq Ht)) as (t2 & k & Es & Hk).
    rewrite Es. simpl. split; [apply progress_guarantee; intros rs; by apply half_progress|]. intros v2 Hr2. rewrite Hk. simpl.
    eapply rg_mono; [apply IH; [by eapply quiet_held|by eapply ready_env]|].
    intros v3 idx t3 v4 (Hq' & ?). split; [by etrans|done].
Qed.

(** What the cache asks of a transfer: buffer and block agree, on the
    contents of the side the data came from. *)
Definition transfer_done (write : bool) (v : vdisk) : Prop :=
  exists rs, vrep v rs /\ unused v b /\ v_blockno v = bnf /\
    v_data v b = (if write then d0 else m0) /\ v_medium v (bnf b) = if write then d0 else m0.

(** The last stretch: the request is taken down. *)
Lemma take_down_wp i0 r t v :
  t_held t = [vdisk_lock] -> r_b r = b -> waiting i0 r v -> v_busy v b = false ->
  wp (modify (fun v => set_v_info_b (<[i0 := None]> (v_info_b v)) v);; free_chain (Z.to_nat NUM) i0;; release vdisk_lock)
    (fun _ t' v' => t_held t' = [] /\ guarantee b v v' /\ transfer_done (r_write r) v') t v.
Proof.
  intros Ht Hrb (rs & ph & R & Hi & Hb & Hd) Hbusy. pose proof (vr_stat v rs R) as S.
  assert (Hph : forall rs r', vrep v rs -> rs !! i0 = Some r' -> r_b r' = b -> r_phase r' = Finished).
  { intros rs2 r2 R2 Hi2 Eb. pose proof (vr_busy v rs2 R2 i0 _ Hi2) as Hbu. rewrite Eb, Hbusy in Hbu.
    symmetry in Hbu. apply bool_decide_eq_false in Hbu. by destruct (decide (r_phase r2 = Finished)). }
  wp_steps. eapply wp_mono; [apply (free_chain_wp i0 _ _ (set_phase ph r))|].
  - unfold vlocked. rewrite Ht. by repeat constructor.
  - eapply (chain_ext v); [done..|by apply (vr_chain v rs S)].
  - by apply (vr_nodup v rs S).
  - intros d Hdd. split; [by apply (vr_range v rs S i0 _ d Hi)|by apply (used_not_free v rs i0 _ d S Hi)].
  - intros [] t' v' [Hq Hfr]. eapply wp_done; [unfold release; rewrite decide_True; [done|]|].
    { rewrite (quiet_held _ _ _ Hq Ht). apply elem_of_cons. by left. }
    split_and!.
    + unfold unhold. rewrite (quiet_held _ _ _ Hq Ht). done.
    + intros b' Hne rs2 R2. pose proof (vr_info v rs2 (vr_stat v rs2 R2) i0) as Ei.
      rewrite (vr_info v rs S i0), Hi in Ei. destruct (rs2 !! i0) as [r2|] eqn:E2; [|done]. simpl in Ei. injection Ei as Eb.
      assert (Ed : descs i0 r2 = descs i0 (set_phase ph r)).
      { destruct (vr_chain v rs S i0 _ Hi) as [_ A1 A2 _], (vr_chain v rs2 (vr_stat v rs2 R2) i0 _ E2) as [_ B1 B2 _].
        rewrite A1 in B1. injection B1 as E1. simpl in *. rewrite <-E1, A2 in B2. injection B2 as _ _ E3.
        unfold descs. simpl. congruence. }
      exists (delete i0 rs2). apply (finish_rely v v' rs2 i0 r2 R2 E2).
      * apply (Hph rs2 r2 R2 E2). congruence.
      * by rewrite Ed.
      * by rewrite <-Eb; simpl; rewrite Hrb.
    + exists (delete i0 rs). pose proof (Hph rs _ R Hi Hrb) as Hfin.
      pose proof (vr_data v rs R i0 _ Hi (or_intror Hfin)) as Hdm. simpl in Hdm. rewrite Hrb, Hb in Hdm.
      pose proof (finish_rep v v' rs i0 _ R Hi Hfin Hfr) as R'. pose proof (finish_unused v v' rs i0 _ R Hi Hfin Hfr) as U'.
      simpl in U'. rewrite Hrb in U'. destruct Hfr as (f & g & -> & _). simpl in *.
      split_and!; try done; by destruct (r_write r); congruence.
Qed.

Lemma virtio_disk_rw_rg write t v :
  t_held t = [] -> 0 <= bnf b < 2 ^ 31 -> ready v ->
  rg (rtc env) (guarantee b) v (virtio_disk_rw b write t v) (fun v1 _ t' v' =>
    t_held t' = [] /\ guarantee b v1 v' /\ transfer_done write v').
Proof using Henv.
  intros Ht Hsm Hr. unfold virtio_disk_rw. apply (rg_bind _ _ self). simpl.
  apply (rg_bind _ _ (acquire vdisk_lock)). rewrite acquire_done by (rewrite Ht; apply not_elem_of_nil). simpl.
  apply rg_bind. eapply rg_mono; [apply alloc3_rg; [simpl; by rewrite Ht|done]|].
  intros v1 idx t1 w (Hq & Hr1 & Hl & Hh). destruct idx as [|i0 [|i1 [|i2 [|]]]]; try done.
  apply (rg_bind _ _ (modify _)). simpl. apply rg_bind. pose proof Hr1 as (rs & R & Hun & Hb & Hd & Hm).
  assert (Hsm1 : 0 <= v_blockno v1 b < 2 ^ 31) by (by rewrite Hb).
  assert (Ht1 : t_held t1 = [vdisk_lock]) by (rewrite (proj1 Hq); simpl; by rewrite Ht).
  assert (Hrb : r_b (request b i1 i2 write) = b) by done.
  eapply (wait_rg _ _ (waiting i0 (request b i1 i2 write))); try done.
  - intros v2 _ b' _ rs2 R2. exists rs2. by apply progress_rely, progress_refl.
  - intros v2 v3 Hw Hre. by eapply waiting_env.
  - intros b' Hne rs2 R2. exists (<[i0 := request b i1 i2 write]> rs2). by apply submit_rely.
  - exists (<[i0 := request b i1 i2 write]> rs), Submitted. split_and!; [by eapply submit_rep| | |].
    + rewrite lookup_insert_eq. done.
    + by rewrite (submit_blockno v1).
    + destruct (hf_same v1 _ w Hh) as (f & g & ->). by destruct write.
  - unfold submit. simpl. rewrite upd_same. done.
  - intros v2 Hw Hbusy. apply wp_rg. by apply (take_down_wp i0 (request b i1 i2 write)).
Qed.
End transfer.

(** ** Theorems *)

Lemma intr_rely b t v t' v' : vdisk_lock ∉ t_held t -> vlocked t -> virtio_disk_intr t v = Done tt t' v' -> rely b v v'.
Proof.
  intros Hl Ht E rs R. pose proof (virtio_disk_intr_wp t v rs Hl Ht R) as Hw. unfold wp in Hw. rewrite E in Hw.
  destruct Hw as (_ & _ & _ & rs' & P). exists rs'. by apply progress_rely.
Qed.

Section theorems.
Context (device : vdisk -> vdisk -> Prop) `{VirtioDevice device}.

(** What happens to the disk while a thread that works on buffer [b] is
    asleep: steps of the device, interrupts, and stretches of threads that
    work on buffers of other blocks. *)
Inductive environment (b : Z) (v v' : vdisk) : Prop :=
| env_device : device v v' -> environment b v v'
| env_interrupt t t' : vdisk_lock ∉ t_held t -> vlocked t -> virtio_disk_intr t v = Done tt t' v' -> environment b v v'
| env_thread b' : v_blockno v b <> v_blockno v b' -> guarantee b' v v' -> environment b v v'.

Lemma environment_rely b v v' : environment b v v' -> rely b v v'.
Proof.
  intros [Hd|t t' Hl Ht E|b' Hne Hg]; [by apply device_rely|by eapply intr_rely|by apply Hg].
Qed.

(** The buffer and its block, as the driver and as the cache have them. *)
Definition sees (b : Z) (v : vdisk) (s : bcache) : Prop :=
  let bn := b_blockno (bc_buf s b) in
  v_blockno v b = bn /\ v_data v b = b_data (bc_buf s b) /\ v_medium v bn = bc_disk s bn.

(** C4: the driver implements the transfer the buffer cache is written
    against.  A thread calls [virtio_disk_rw] for a buffer whose block is in no
    request; while it waits for descriptors and for the device, the device, the
    interrupt handler and the threads that transfer other blocks take any number of steps in
    any order.  When the call returns, buffer and block are what one
    uninterrupted [Bio.virtio_disk_rw] makes of them, the request is gone and
    the descriptors are free again; up to then every stretch of the thread leaves
    the other requests alone, and it never panics. *)
Theorem virtio_disk_rw_refines b write t v rs s :
  t_held t = [] -> vrep v rs -> unused v b -> sees b v s -> 0 <= b_blockno (bc_buf s b) < 2 ^ 31 ->
  rg (rtc (environment b)) (guarantee b) v (virtio_disk_rw b write t v) (fun v1 _ t' v' =>
    t_held t' = [] /\ guarantee b v1 v' /\ (exists rs', vrep v' rs') /\ unused v' b /\
    wp (Bio.virtio_disk_rw b write) (fun _ _ s' => sees b v' s') t s).
Proof using All.
  intros Ht R Hun (Sb & Sd & Sm) Hsm.
  eapply rg_mono; [apply (virtio_disk_rw_rg b (v_blockno v) (v_data v b) (v_medium v (v_blockno v b)) (environment b))|].
  - apply environment_rely.
  - done.
  - by rewrite Sb.
  - by exists rs.
  - intros v1 [] t' v' (Ht' & Hg & rs' & R' & Hu' & Eb & Ed & Em). split_and!; [done|done|by exists rs'|done|].
    unfold Bio.virtio_disk_rw. apply wp_modify. unfold sees. rewrite Eb, Ed. rewrite Sb in *. destruct write; simpl.
    + split_and!; [done|done|]. rewrite upd_same, Em. done.
    + rewrite upd_same. simpl. split_and!; [done|done|]. rewrite Em. done.
Qed.

End theorems.

(** the interrupt handler finishes what the device has completed.  It
    reads the used ring to its end within the fuel of the model, finds every status byte 0 and every
    buffer noted, and so does not panic; each request that was
    complete has its buffer marked done and its thread woken, each other request
    stays as it was, and no data moves. *)
Theorem virtio_disk_intr_completes t v rs :
  vdisk_lock ∉ t_held t -> Forall plain (t_held t) -> vrep v rs ->
  wp virtio_disk_intr (fun _ t' v' => t_held t' = t_held t /\ v_data v' = v_data v /\ v_medium v' = v_medium v /\
    (exists rs', vrep v' rs') /\ (forall b, rely b v v') /\
    forall i r, rs !! i = Some r ->
      (r_phase r = Completed -> v_busy v' (r_b r) = false /\ EWake (vbuf_chan (r_b r)) ∈ t_trace t') /\
      (r_phase r <> Completed -> v_busy v' (r_b r) = v_busy v (r_b r))) t v.
Proof.
  intros Hl Ht R. pose proof (virtio_disk_intr_wp t v rs Hl Ht R) as Hw.
  pose proof (fun b => intr_rely b t v) as Hrel.
  unfold wp in *. destruct (virtio_disk_intr t v) as [[] t' v'| | | |]; try done.
  destruct Hw as (Hq & Hwk & Es & rs' & P). split_and!; [apply Hq|apply P|apply P|exists rs'; apply P|by intros b; eapply Hrel|].
  pose proof (drained v' rs' (pg_rep _ _ _ _ P) Es) as Hdr. intros i r Hi.
  destruct (pg_mine _ _ _ _ P i r Hi) as (ph & Hi' & Hph). pose proof (vr_busy v' rs' (pg_rep _ _ _ _ P) i _ Hi') as Hb.
  simpl in Hb. rewrite Hb. split.
  - intros Hc. split; [|by apply (Hwk i)]. destruct Hph as [->|[_ ->]]; [|done]. destruct (Hdr i). by eexists.
  - intros Hc. rewrite (vr_busy v rs R i r Hi). destruct Hph as [->|[? _]]; [done|congruence].
Qed.

(** ** Witnesses *)

(** The disk after [virtio_disk_init], with buffer [b] for block [b + 40]. *)
Definition fresh_disk : vdisk :=
  let d := {| d_addr := DNull; d_len := 0; d_flags := 0; d_next := 0 |} in
  {| v_desc := fun _ => d; v_avail_idx := 0; v_avail_ring := fun _ => 0; v_used_idx := 0; v_used_ring := fun _ => 0;
     v_free := fun _ => true; v_seen := 0; v_info_b := fun _ => None; v_info_status := fun _ => 0;
     v_ops := fun _ => {| q_type := 0; q_sector := 0 |}; v_busy := fun _ => false;
     v_data := fun b => replicate 1024 (chr b); v_blockno := fun b => b + 40;
     v_medium := fun bn => replicate 1024 (chr (bn + 1)); v_fetched := []; v_fetch_idx := 0 |}.

Lemma fresh_disk_rep : vrep fresh_disk ∅.
Proof.
  assert (Hno : forall ph i, ~ in_phase ∅ ph i) by (intros ph i (r & Hr & _); by rewrite lookup_empty in Hr).
  assert (Hq : forall ph f, queued ∅ ph f 0 0 []).
  { intros ph f. split_and!; [done|by intros k i Hk|constructor|]. intros i. rewrite elem_of_nil. split; [done|]. intros Hi. exact (Hno _ _ Hi). }
  split; [split|..].
  - intros i. by rewrite lookup_empty.
  - intros i r Hi. by rewrite lookup_empty in Hi.
  - intros i r d Hi. by rewrite lookup_empty in Hi.
  - intros i r Hi. by rewrite lookup_empty in Hi.
  - intros i r j r' d Hi. by rewrite lookup_empty in Hi.
  - intros d _. split; [|done]. intros _ i r Hi. by rewrite lookup_empty in Hi.
  - intros i r j r' Hi. by rewrite lookup_empty in Hi.
  - intros i r Hi. by rewrite lookup_empty in Hi.
  - intros i r Hi. by rewrite lookup_empty in Hi.
  - exists []. apply Hq.
  - split; [constructor|]. intros i. rewrite elem_of_nil. split; [done|]. intros Hi. exact (Hno _ _ Hi).
  - exists []. apply Hq.
  - by simpl.
  - intros i r Hi. by rewrite lookup_empty in Hi.
  - intros i r Hi. by rewrite lookup_empty in Hi.
Qed.

(** A device that does whatever the specification allows. *)
Definition any_device (v v' : vdisk) : Prop :=
  device_fetches v v' \/ exists i, i ∈ v_fetched v /\ device_completes i v v'.

#[export] Instance any_device_documented : VirtioDevice any_device.
Proof. by split. Qed.

Lemma virtio_disk_rw_refines_witness :
  let t := {| t_held := []; t_proc := 0; t_pid := 1; t_patience := 3; t_trace := [] |} in
  let s := {| bc_buf := fun b => {| b_valid := 1; b_dev := 1; b_blockno := b + 40; b_lock := initsleeplock; b_refcnt := 1;
                b_prev := 0; b_next := 0; b_data := replicate 1024 (chr b) |};
              bc_disk := fun bn => replicate 1024 (chr (bn + 1)); bc_writes := [] |} in
  rg (rtc (environment any_device 7)) (guarantee 7) fresh_disk (virtio_disk_rw 7 false t fresh_disk)
    (fun v1 _ t' v' => v_data v' 7 = replicate 1024 (chr 48)).
Proof.
  intros t s. eapply rg_mono; [apply (virtio_disk_rw_refines any_device 7 false t fresh_disk ∅ s)|].
  - done.
  - apply fresh_disk_rep.
  - by intros i b'.
  - done.
  - simpl. lia.
  - intros v1 [] t' v' (_ & _ & _ & _ & _ & E & _). exact E.
Defined.

(** A read of block 47, carried out by the device. *)
Definition asked : vdisk := submit 7 0 1 2 false (set_v_free (fun d => negb (d <? 3)) fresh_disk).
Definition carried_out : vdisk := transferred 0 (request 7 1 2 false) (fetched asked).

Lemma asked_rep : vrep asked {[0 := request 7 1 2 false]}.
Proof.
  apply (submit_rep fresh_disk _ ∅); [apply fresh_disk_rep| |by intros i b'|simpl; lia].
  split; [by exists (fun d => negb (d <? 3)), (v_desc fresh_disk)|apply (bool_decide_unpack _); vm_compute; exact I| |..|done].
  - intros i Hi. split; [|done]. rewrite !elem_of_cons, elem_of_nil in Hi. unfold NUM. lia.
  - intros d Hd. assert (Hin : d ∈ [0; 1; 2] <-> d < 3) by (rewrite !elem_of_cons, elem_of_nil; lia).
    cbn [v_free set_v_free fresh_disk]. rewrite andb_true_l. f_equal.
    destruct (Z.ltb_spec d 3); symmetry; [by apply bool_decide_eq_true, Hin|]. apply bool_decide_eq_false. rewrite Hin. lia.
Qed.

Lemma carried_out_rep : vrep carried_out {[0 := set_phase Completed (request 7 1 2 false)]}.
Proof.
  assert (R : vrep (fetched asked) {[0 := set_phase Fetched (request 7 1 2 false)]}).
  { rewrite <-(insert_singleton_eq 0 _ (request 7 1 2 false)).
    eapply (rl_rep 7), (fetched_rely 7 asked _ 0 []); [apply asked_rep| |by rewrite lookup_singleton_eq|done].
    split_and!; [done|by intros [|] i Hi; [injection Hi as <-|]|apply NoDup_singleton|].
    intros i. rewrite list_elem_of_singleton. unfold in_phase. setoid_rewrite lookup_singleton_Some. naive_solver. }
  rewrite <-(insert_singleton_eq 0 _ (set_phase Fetched (request 7 1 2 false))).
  exact (rl_rep _ _ _ _ _ (transferred_rely 7 (fetched asked) _ 0 (set_phase Fetched (request 7 1 2 false)) R
    ltac:(by rewrite lookup_singleton_eq) eq_refl)).
Qed.

Lemma virtio_disk_intr_completes_witness :
  let t := {| t_held := []; t_proc := 0; t_pid := 1; t_patience := 3; t_trace := [] |} in
  wp virtio_disk_intr (fun _ t' v' => v_busy carried_out 7 = true /\ v_busy v' 7 = false /\
    EWake (vbuf_chan 7) ∈ t_trace t' /\ v_data v' 7 = replicate 1024 (chr 48)) t carried_out.
Proof.
  intros t. eapply wp_mono; [apply (virtio_disk_intr_completes t carried_out _
    ltac:(apply not_elem_of_nil) ltac:(constructor) carried_out_rep)|].
  intros [] t' v' (_ & Ed & _ & _ & _ & Hr).
  destruct (Hr 0 (set_phase Completed (request 7 1 2 false)) ltac:(by rewrite lookup_singleton_eq)) as [Hc _].
  destruct (Hc eq_refl) as [Hb Hw]. split_and!; [done|done|done|]. by rewrite Ed.
Defined.
