(* ===== verification/VirtioInit.v ===== *)
(** * VirtioInit: virtio_disk_init of kernel/virtio_disk.c

    The registers of the device as the driver sees them: what a read returns
    is a function of the writes so far, which is the device's to choose within
    the virtio specification.  The pages of the queue come from the page
    allocator. *)

From S2P Require Import Prelude Riscv CString Kalloc Virtio MemTheorems.

Definition VIRTIO_MMIO_MAGIC_VALUE : Z := 0x000.
Definition VIRTIO_MMIO_VERSION : Z := 0x004.
Definition VIRTIO_MMIO_DEVICE_ID : Z := 0x008.
Definition VIRTIO_MMIO_VENDOR_ID : Z := 0x00c.
Definition VIRTIO_MMIO_DEVICE_FEATURES : Z := 0x010.
Definition VIRTIO_MMIO_DRIVER_FEATURES : Z := 0x020.
Definition VIRTIO_MMIO_QUEUE_SEL : Z := 0x030.
Definition VIRTIO_MMIO_QUEUE_NUM_MAX : Z := 0x034.
Definition VIRTIO_MMIO_QUEUE_NUM : Z := 0x038.
Definition VIRTIO_MMIO_QUEUE_READY : Z := 0x044.
Definition VIRTIO_MMIO_STATUS : Z := 0x070.
Definition VIRTIO_MMIO_QUEUE_DESC_LOW : Z := 0x080.
Definition VIRTIO_MMIO_QUEUE_DESC_HIGH : Z := 0x084.
Definition VIRTIO_MMIO_DRIVER_DESC_LOW : Z := 0x090.
Definition VIRTIO_MMIO_DRIVER_DESC_HIGH : Z := 0x094.
Definition VIRTIO_MMIO_DEVICE_DESC_LOW : Z := 0x0a0.
Definition VIRTIO_MMIO_DEVICE_DESC_HIGH : Z := 0x0a4.

Definition VIRTIO_CONFIG_S_ACKNOWLEDGE : Z := 1.
Definition VIRTIO_CONFIG_S_DRIVER : Z := 2.
Definition VIRTIO_CONFIG_S_DRIVER_OK : Z := 4.
Definition VIRTIO_CONFIG_S_FEATURES_OK : Z := 8.

Definition VIRTIO_BLK_F_RO : Z := 5.
Definition VIRTIO_BLK_F_SCSI : Z := 7.
Definition VIRTIO_BLK_F_CONFIG_WCE : Z := 11.
Definition VIRTIO_BLK_F_MQ : Z := 12.
Definition VIRTIO_F_ANY_LAYOUT : Z := 27.
Definition VIRTIO_RING_F_INDIRECT_DESC : Z := 28.
Definition VIRTIO_RING_F_EVENT_IDX : Z := 29.

(** The register writes so far, the latest first, physical memory with the
    page allocator, and the fields of [disk] that are set up. *)
Record dinit := {
  n_regs : list (Z * Z);
  n_kmem : kmem;
  n_desc : Z;
  n_avail : Z;
  n_used : Z;
  n_free : Z -> bool
}.

Definition set_n_regs (x : list (Z * Z)) (s : dinit) : dinit :=
  {| n_regs := x; n_kmem := n_kmem s; n_desc := n_desc s; n_avail := n_avail s; n_used := n_used s; n_free := n_free s |}.
Definition set_n_kmem (x : kmem) (s : dinit) : dinit :=
  {| n_regs := n_regs s; n_kmem := x; n_desc := n_desc s; n_avail := n_avail s; n_used := n_used s; n_free := n_free s |}.
Definition set_n_desc (x : Z) (s : dinit) : dinit :=
  {| n_regs := n_regs s; n_kmem := n_kmem s; n_desc := x; n_avail := n_avail s; n_used := n_used s; n_free := n_free s |}.
Definition set_n_avail (x : Z) (s : dinit) : dinit :=
  {| n_regs := n_regs s; n_kmem := n_kmem s; n_desc := n_desc s; n_avail := x; n_used := n_used s; n_free := n_free s |}.
Definition set_n_used (x : Z) (s : dinit) : dinit :=
  {| n_regs := n_regs s; n_kmem := n_kmem s; n_desc := n_desc s; n_avail := n_avail s; n_used := x; n_free := n_free s |}.
Definition set_n_free (x : Z -> bool) (s : dinit) : dinit :=
  {| n_regs := n_regs s; n_kmem := n_kmem s; n_desc := n_desc s; n_avail := n_avail s; n_used := n_used s; n_free := x |}.

(** Run a function of the page allocator. *)
Definition nz_kmem {A} (m : M kmem A) : M dinit A := zoom n_kmem set_n_kmem m.

(** [*R(r) = x], through a volatile uint32 pointer. *)
Definition wr_reg (r x : Z) : M dinit unit := modify (fun s => set_n_regs ((r, u32 x) :: n_regs s) s).

(** [x &= ~(1 << bit)] *)
Definition clear_bit (bit x : Z) : Z := Z.land x (Z.lnot (Z.shiftl 1 bit)).

(** [for(int i = 0; i < NUM; i++) disk.free[i] = 1;] *)
Fixpoint free_all (i : Z) (n : nat) (f : Z -> bool) : Z -> bool :=
  match n with
  | O => f
  | S n => free_all (i + 1) n (<[i := true]> f)
  end.

Definition negotiate (features : Z) : Z :=
  let features := clear_bit VIRTIO_BLK_F_RO features in
  let features := clear_bit VIRTIO_BLK_F_SCSI features in
  let features := clear_bit VIRTIO_BLK_F_CONFIG_WCE features in
  let features := clear_bit VIRTIO_BLK_F_MQ features in
  let features := clear_bit VIRTIO_F_ANY_LAYOUT features in
  let features := clear_bit VIRTIO_RING_F_EVENT_IDX features in
  clear_bit VIRTIO_RING_F_INDIRECT_DESC features.

Section init.
Context `{KernelLayout} (reg : list (Z * Z) -> Z -> Z).

(** [*R(r)] *)
Definition rd_reg (r : Z) : M dinit Z := gets (fun s => reg (n_regs s) r).

(** The queue of the device: three zeroed pages, and their addresses. *)
Definition init_queue : M dinit unit :=
  max ← rd_reg VIRTIO_MMIO_QUEUE_NUM_MAX;
  if max =? 0 then panic "virtio disk has no queue 0"
  else if max <? NUM then panic "virtio disk max queue too short"
  else
    desc ← nz_kmem kalloc; modify (set_n_desc desc);;
    avail ← nz_kmem kalloc; modify (set_n_avail avail);;
    used ← nz_kmem kalloc; modify (set_n_used used);;
    if negb (nz desc) || negb (nz avail) || negb (nz used) then panic "virtio disk kalloc"
    else
      nz_kmem (do_memset desc 0 PGSIZE);;
      nz_kmem (do_memset avail 0 PGSIZE);;
      nz_kmem (do_memset used 0 PGSIZE);;
      wr_reg VIRTIO_MMIO_QUEUE_NUM NUM;;
      wr_reg VIRTIO_MMIO_QUEUE_DESC_LOW desc;;
      wr_reg VIRTIO_MMIO_QUEUE_DESC_HIGH (Z.shiftr desc 32);;
      wr_reg VIRTIO_MMIO_DRIVER_DESC_LOW avail;;
      wr_reg VIRTIO_MMIO_DRIVER_DESC_HIGH (Z.shiftr avail 32);;
      wr_reg VIRTIO_MMIO_DEVICE_DESC_LOW used;;
      wr_reg VIRTIO_MMIO_DEVICE_DESC_HIGH (Z.shiftr used 32);;
      wr_reg VIRTIO_MMIO_QUEUE_READY 1.

Definition virtio_disk_init : M dinit unit :=
  let status := 0 in
  magic ← rd_reg VIRTIO_MMIO_MAGIC_VALUE;
  version ← rd_reg VIRTIO_MMIO_VERSION;
  id ← rd_reg VIRTIO_MMIO_DEVICE_ID;
  vendor ← rd_reg VIRTIO_MMIO_VENDOR_ID;
  if negb (magic =? 0x74726976) || negb (version =? 2) || negb (id =? 2) || negb (vendor =? 0x554d4551)
  then panic "could not find virtio disk"
  else
    wr_reg VIRTIO_MMIO_STATUS status;;
    let status := Z.lor status VIRTIO_CONFIG_S_ACKNOWLEDGE in
    wr_reg VIRTIO_MMIO_STATUS status;;
    let status := Z.lor status VIRTIO_CONFIG_S_DRIVER in
    wr_reg VIRTIO_MMIO_STATUS status;;
    features ← rd_reg VIRTIO_MMIO_DEVICE_FEATURES;
    wr_reg VIRTIO_MMIO_DRIVER_FEATURES (negotiate features);;
    let status := Z.lor status VIRTIO_CONFIG_S_FEATURES_OK in
    wr_reg VIRTIO_MMIO_STATUS status;;
    status ← rd_reg VIRTIO_MMIO_STATUS;
    if negb (nz (Z.land status VIRTIO_CONFIG_S_FEATURES_OK)) then panic "virtio disk FEATURES_OK unset"
    else
      wr_reg VIRTIO_MMIO_QUEUE_SEL 0;;
      ready ← rd_reg VIRTIO_MMIO_QUEUE_READY;
      if nz ready then panic "virtio disk should not be ready"
      else
        init_queue;;
        modify (fun s => set_n_free (free_all 0 (Z.to_nat NUM) (n_free s)) s);;
        wr_reg VIRTIO_MMIO_STATUS (Z.lor status VIRTIO_CONFIG_S_DRIVER_OK).

(** What the virtio specification says of a block device of enough queue
    space that accepts a subset of the features it offers. *)
Class VirtioMmio := {
  mmio_magic h : reg h VIRTIO_MMIO_MAGIC_VALUE = 0x74726976;
  mmio_version h : reg h VIRTIO_MMIO_VERSION = 2;
  mmio_id h : reg h VIRTIO_MMIO_DEVICE_ID = 2;
  mmio_vendor h : reg h VIRTIO_MMIO_VENDOR_ID = 0x554d4551;
  mmio_features h : 0 <= reg h VIRTIO_MMIO_DEVICE_FEATURES < 2 ^ 32;
  mmio_status h x : reg ((VIRTIO_MMIO_STATUS, x) :: h) VIRTIO_MMIO_STATUS = x;
  mmio_ready h : (forall x, (VIRTIO_MMIO_QUEUE_READY, x) ∉ h) -> reg h VIRTIO_MMIO_QUEUE_READY = 0;
  mmio_max h : NUM <= reg h VIRTIO_MMIO_QUEUE_NUM_MAX
}.
Context `{VirtioMmio}.

Lemma init_queue_wp t s d a u fl :
  kmem_inv (n_kmem s) (d :: a :: u :: fl) -> kmem_lock ∉ t_held t ->
  wp init_queue (fun _ t' s' => t' = t /\ n_desc s' = d /\ n_avail s' = a /\ n_used s' = u /\ n_free s' = n_free s /\
    k_mem (n_kmem s') = memset (memset (memset (memset (memset (memset (k_mem (n_kmem s)) d 5 PGSIZE) a 5 PGSIZE) u 5 PGSIZE)
      d 0 PGSIZE) a 0 PGSIZE) u 0 PGSIZE /\
    n_regs s' = [(VIRTIO_MMIO_QUEUE_READY, 1);
      (VIRTIO_MMIO_DEVICE_DESC_HIGH, u32 (Z.shiftr u 32)); (VIRTIO_MMIO_DEVICE_DESC_LOW, u32 u);
      (VIRTIO_MMIO_DRIVER_DESC_HIGH, u32 (Z.shiftr a 32)); (VIRTIO_MMIO_DRIVER_DESC_LOW, u32 a);
      (VIRTIO_MMIO_QUEUE_DESC_HIGH, u32 (Z.shiftr d 32)); (VIRTIO_MMIO_QUEUE_DESC_LOW, u32 d);
      (VIRTIO_MMIO_QUEUE_NUM, NUM)] ++ n_regs s) t s.
Proof using All.
  intros Hk Hl. unfold init_queue, rd_reg, nz_kmem, wr_reg. wp_steps. pose proof (mmio_max (n_regs s)) as Hmax. unfold NUM in Hmax.
  rewrite (proj2 (Z.eqb_neq _ _)) by lia. rewrite (proj2 (Z.ltb_ge _ _)) by (unfold NUM; lia).
  pose proof (chain_pages_ok _ _ _ (ki_chain _ _ Hk)) as Hok. rewrite !Forall_cons in Hok. destruct Hok as (Hd & Ha & Hu & _).
  pose proof (page_ok_range _ Hd). pose proof (page_ok_range _ Ha). pose proof (page_ok_range _ Hu).
  wp_steps. apply wp_zoom. eapply wp_mono; [by apply (kalloc_wp t _ _ Hk)|]. intros p t1 s1 (-> & -> & Hk1 & E1).
  wp_steps. apply wp_zoom. eapply wp_mono; [by apply (kalloc_wp t _ _ Hk1)|]. intros p t1 s2 (-> & -> & Hk2 & E2).
  wp_steps. apply wp_zoom. eapply wp_mono; [by apply (kalloc_wp t _ _ Hk2)|]. intros p t1 s3 (-> & -> & Hk3 & E3).
  wp_steps. rewrite !(proj2 (nz_true _)) by lia. simpl. unfold do_memset.
  do 3 (wp_steps; apply wp_zoom). wp_steps.
  cbn [k_mem set_mem n_kmem set_n_kmem set_n_regs n_desc n_avail n_used n_free set_n_desc set_n_avail set_n_used n_regs].
  rewrite E3, E2, E1. split_and!; reflexivity.
Qed.

Lemma free_all_true i n f k : i <= k < i + Z.of_nat n -> free_all i n f k = true.
Proof.
  assert (Hlow : forall n i f, k < i -> free_all i n f k = f k).
  { intros m. induction m as [|m IH]; intros j g Hj; simpl; [done|]. rewrite IH, upd_other by lia. done. }
  revert i f. induction n as [|n IH]; intros i f Hk; simpl; [lia|]. destruct (decide (k = i)) as [->|].
  - rewrite Hlow by lia. by rewrite upd_same.
  - apply IH. lia.
Qed.

Definition refused : list Z :=
  [VIRTIO_BLK_F_RO; VIRTIO_BLK_F_SCSI; VIRTIO_BLK_F_CONFIG_WCE; VIRTIO_BLK_F_MQ; VIRTIO_F_ANY_LAYOUT;
   VIRTIO_RING_F_EVENT_IDX; VIRTIO_RING_F_INDIRECT_DESC].

Lemma clear_bit_spec bit x n : 0 <= bit -> 0 <= n -> Z.testbit (clear_bit bit x) n = Z.testbit x n && negb (n =? bit).
Proof.
  intros Hb Hn. unfold clear_bit. rewrite Z.land_spec, Z.lnot_spec, Z.shiftl_spec by done. f_equal. f_equal.
  destruct (Z.eqb_spec n bit) as [->|Hne]; [by rewrite Z.sub_diag|].
  destruct (decide (n < bit)); [by rewrite Z.testbit_neg_r by lia|]. apply (Z.bits_above_log2 1); simpl; lia.
Qed.

Lemma negotiate_bits f n : 0 <= n -> Z.testbit (negotiate f) n = Z.testbit f n && negb (bool_decide (n ∈ refused)).
Proof.
  intros Hn. unfold negotiate. rewrite !clear_bit_spec by done. rewrite <-!andb_assoc. f_equal.
  destruct (bool_decide (n ∈ refused)) eqn:E.
  - apply bool_decide_eq_true in E. unfold refused in E. rewrite !elem_of_cons, elem_of_nil in E.
    destruct E as [->|[->|[->|[->|[->|[->|[->|[]]]]]]]]; done.
  - apply bool_decide_eq_false in E. unfold refused in E. rewrite !not_elem_of_cons in E.
    destruct E as (E1 & E2 & E3 & E4 & E5 & E6 & E7 & _). apply Z.eqb_neq in E1, E2, E3, E4, E5, E6, E7.
    by rewrite E1, E2, E3, E4, E5, E6, E7.
Qed.

Lemma negotiate_range f : 0 <= f < 2 ^ 32 -> u32 (negotiate f) = negotiate f.
Proof.
  intros Hf. unfold u32. apply Z.bits_inj'. intros n Hn. destruct (decide (n < 32)).
  - by rewrite Z.mod_pow2_bits_low by lia.
  - rewrite Z.mod_pow2_bits_high, negotiate_bits by lia. replace (Z.testbit f n) with false; [done|]. symmetry.
    rewrite <-(Z.mod_small f (2 ^ 32)) by done. apply Z.mod_pow2_bits_high. lia.
Qed.

(** Byte [x] of memory is in the page at [p]. *)
Definition in_page (p x : Z) : Prop := p <= x < p + PGSIZE.

(** on a block device as the virtio specification describes it,
    [virtio_disk_init] does not panic and makes exactly the register writes of the
    specification's start-up sequence, in its order: reset, ACKNOWLEDGE, DRIVER, the accepted features
    (those offered, without the seven the driver refuses), FEATURES_OK,
    the queue with its size and the addresses of three pages, ready, DRIVER_OK.  The
    three pages are zero from end to end, and all descriptors are free. *)
Theorem virtio_disk_init_sequence t s d a u fl :
  kmem_inv (n_kmem s) (d :: a :: u :: fl) -> kmem_lock ∉ t_held t -> n_regs s = [] ->
  exists f, (forall n, 0 <= n -> Z.testbit f n =
      Z.testbit (reg [(VIRTIO_MMIO_STATUS, 3); (VIRTIO_MMIO_STATUS, 1); (VIRTIO_MMIO_STATUS, 0)] VIRTIO_MMIO_DEVICE_FEATURES) n
      && negb (bool_decide (n ∈ refused))) /\
  wp virtio_disk_init (fun _ t' s' => t' = t /\ n_desc s' = d /\ n_avail s' = a /\ n_used s' = u /\
    (forall i, 0 <= i < NUM -> n_free s' i = true) /\
    (forall x, in_page d x \/ in_page a x \/ in_page u x -> mget (k_mem (n_kmem s')) x = chr 0) /\
    reverse (n_regs s') =
      [(VIRTIO_MMIO_STATUS, 0); (VIRTIO_MMIO_STATUS, 1); (VIRTIO_MMIO_STATUS, 3); (VIRTIO_MMIO_DRIVER_FEATURES, f);
       (VIRTIO_MMIO_STATUS, 11); (VIRTIO_MMIO_QUEUE_SEL, 0); (VIRTIO_MMIO_QUEUE_NUM, NUM);
       (VIRTIO_MMIO_QUEUE_DESC_LOW, u32 d); (VIRTIO_MMIO_QUEUE_DESC_HIGH, u32 (Z.shiftr d 32));
       (VIRTIO_MMIO_DRIVER_DESC_LOW, u32 a); (VIRTIO_MMIO_DRIVER_DESC_HIGH, u32 (Z.shiftr a 32));
       (VIRTIO_MMIO_DEVICE_DESC_LOW, u32 u); (VIRTIO_MMIO_DEVICE_DESC_HIGH, u32 (Z.shiftr u 32));
       (VIRTIO_MMIO_QUEUE_READY, 1); (VIRTIO_MMIO_STATUS, 15)]) t s.
Proof using All.
  intros Hk Hl Hr. set (h := [(VIRTIO_MMIO_STATUS, 3); (VIRTIO_MMIO_STATUS, 1); (VIRTIO_MMIO_STATUS, 0)]).
  exists (negotiate (reg h VIRTIO_MMIO_DEVICE_FEATURES)). split; [intros n Hn; by apply negotiate_bits|].
  unfold virtio_disk_init, rd_reg, wr_reg. wp_steps.
  rewrite !mmio_magic, !mmio_version, !mmio_id, !mmio_vendor. simpl negb. simpl orb. cbv iota. wp_steps.
  cbn [n_regs set_n_regs]. rewrite Hr. rewrite negotiate_range by apply mmio_features.
  rewrite mmio_status. change (u32 (Z.lor (Z.lor (Z.lor 0 VIRTIO_CONFIG_S_ACKNOWLEDGE) VIRTIO_CONFIG_S_DRIVER) VIRTIO_CONFIG_S_FEATURES_OK)) with 11.
  change (negb (nz (Z.land 11 VIRTIO_CONFIG_S_FEATURES_OK))) with false. cbv iota. wp_steps.
  cbn [n_regs set_n_regs]. rewrite mmio_ready. 2:{ intros x Hx. rewrite !elem_of_cons, elem_of_nil in Hx. naive_solver. }
  change (nz 0) with false. cbv iota. wp_steps. eapply wp_mono; [by apply (init_queue_wp _ _ d a u fl)|].
  intros [] t' s' (-> & Hd & Ha & Hu & Hf & Em & Er). wp_steps. cbn [n_regs set_n_regs n_desc n_avail n_used n_free n_kmem set_n_free].
  split_and!; [reflexivity|exact Hd|exact Ha|exact Hu|..].
  - intros i Hi. apply free_all_true. exact Hi.
  - intros x Hx. rewrite Em. unfold in_page in Hx. rewrite (mget_memset _ u), (mget_memset _ a), (mget_memset _ d) by done.
    destruct (decide (u <= x < u + PGSIZE)); [reflexivity|]. destruct (decide (a <= x < a + PGSIZE)); [reflexivity|].
    destruct (decide (d <= x < d + PGSIZE)); [reflexivity|]. lia.
  - rewrite Er. reflexivity.
Qed.
End init.

(** A disk that offers every feature. *)
Definition demo_reg (h : list (Z * Z)) (r : Z) : Z :=
  if r =? VIRTIO_MMIO_MAGIC_VALUE then 0x74726976
  else if r =? VIRTIO_MMIO_VERSION then 2
  else if r =? VIRTIO_MMIO_DEVICE_ID then 2
  else if r =? VIRTIO_MMIO_VENDOR_ID then 0x554d4551
  else if r =? VIRTIO_MMIO_DEVICE_FEATURES then 2 ^ 32 - 1
  else if r =? VIRTIO_MMIO_QUEUE_NUM_MAX then 1024
  else match list_find (fun w => w.1 = r) h with Some (_, w) => w.2 | None => 0 end.

#[local] Instance demo_mmio : VirtioMmio demo_reg.
Proof.
  split; try done.
  - intros h Hh. unfold demo_reg. simpl. destruct (list_find _ h) as [[i [r x]]|] eqn:E; [|done].
    apply list_find_Some in E as (Hi & Hr & _). simpl in Hr. subst r. destruct (Hh x).
    by eapply list_elem_of_lookup_2.
Qed.

Lemma virtio_disk_init_sequence_witness :
  wp (virtio_disk_init demo_reg) (fun _ _ s' => n_desc s' = Demo.P 0 /\ n_free s' 7 = true /\
    mget (k_mem (n_kmem s')) (Demo.P 2 + 5) = chr 0) Demo.thread
    {| n_regs := []; n_kmem := Demo.state; n_desc := 0; n_avail := 0; n_used := 0; n_free := fun _ => false |}.
Proof.
  destruct (@virtio_disk_init_sequence Demo.layout demo_reg _ Demo.thread
    {| n_regs := []; n_kmem := Demo.state; n_desc := 0; n_avail := 0; n_used := 0; n_free := fun _ => false |}
    (Demo.P 0) (Demo.P 1) (Demo.P 2) [Demo.P 3; Demo.P 4; Demo.P 5]) as (f & _ & Hw).
  - exact Demo.kmem_ok.
  - apply not_elem_of_nil.
  - reflexivity.
  - eapply wp_mono; [exact Hw|]. intros [] t' s' (_ & Hd & _ & _ & Hf & Hm & _).
    split_and!; [exact Hd|apply Hf; unfold NUM; lia|apply Hm; unfold in_page, PGSIZE; lia].
Defined.
