(* ===== verification/Log.v ===== *)
(** * Log: the write-ahead log of kernel/log.c

    The log runs on any block cache.  Its state is the cache and the fields
    of struct log; the header block is read and written through the bytes
    of its buffer. *)

From S2P Require Import Prelude Riscv Layout Sleeplock Bio BioSpec.

(** struct log with struct logheader inside; [lg_block] is the array lh.block. *)
Record log (C : Type) := {
  lg_cache : C;
  lg_start : Z;
  lg_outstanding : Z;
  lg_committing : Z;
  lg_dev : Z;
  lg_n : Z;
  lg_block : Z -> Z
}.

Arguments lg_cache {C}.
Arguments lg_start {C}.
Arguments lg_outstanding {C}.
Arguments lg_committing {C}.
Arguments lg_dev {C}.
Arguments lg_n {C}.
Arguments lg_block {C}.

Definition log_lock : lockid := ("log", 0).
Definition log_chan : chan := ("log", 0).

(** The fields of struct logheader in the bytes of a block. *)
Definition hdr_n (d : block) : Z := i32 (rd32 d 0).
Definition hdr_block (d : block) (i : Z) : Z := i32 (rd32 d (4 + 4 * i)).
Definition set_hdr_n (d : block) (n : Z) : block := wr32 d 0 n.
Definition set_hdr_block (d : block) (i bn : Z) : block := wr32 d (4 + 4 * i) bn.
Definition sizeof_logheader : Z := 4 + 4 * LOGBLOCKS.

Section log.
Context {C : Type} `{BlockCache C}.

Definition set_cache (c : C) (s : log C) : log C :=
  {| lg_cache := c; lg_start := lg_start s; lg_outstanding := lg_outstanding s;
     lg_committing := lg_committing s; lg_dev := lg_dev s; lg_n := lg_n s; lg_block := lg_block s |}.
Definition set_outstanding (v : Z) (s : log C) : log C :=
  {| lg_cache := lg_cache s; lg_start := lg_start s; lg_outstanding := v;
     lg_committing := lg_committing s; lg_dev := lg_dev s; lg_n := lg_n s; lg_block := lg_block s |}.
Definition set_committing (v : Z) (s : log C) : log C :=
  {| lg_cache := lg_cache s; lg_start := lg_start s; lg_outstanding := lg_outstanding s;
     lg_committing := v; lg_dev := lg_dev s; lg_n := lg_n s; lg_block := lg_block s |}.
Definition set_n (v : Z) (s : log C) : log C :=
  {| lg_cache := lg_cache s; lg_start := lg_start s; lg_outstanding := lg_outstanding s;
     lg_committing := lg_committing s; lg_dev := lg_dev s; lg_n := v; lg_block := lg_block s |}.
Definition set_block (i v : Z) (s : log C) : log C :=
  {| lg_cache := lg_cache s; lg_start := lg_start s; lg_outstanding := lg_outstanding s;
     lg_committing := lg_committing s; lg_dev := lg_dev s; lg_n := lg_n s;
     lg_block := <[i := v]> (lg_block s) |}.
Definition set_start_dev (start dev : Z) (s : log C) : log C :=
  {| lg_cache := lg_cache s; lg_start := start; lg_outstanding := lg_outstanding s;
     lg_committing := lg_committing s; lg_dev := dev; lg_n := lg_n s; lg_block := lg_block s |}.

(** Operations of the cache, inside the log's state. *)
Definition cz {A} (m : M C A) : M (log C) A := zoom lg_cache set_cache m.

Definition bread := fun dev bn => cz (c_bread dev bn).
Definition bwrite := fun b => cz (c_bwrite b).
Definition brelse := fun b => cz (c_brelse b).
Definition bpin := fun b => cz (c_bpin b).
Definition bunpin := fun b => cz (c_bunpin b).
Definition blockno := fun b => cz (c_blockno b).
Definition data := fun b => cz (c_data b).
Definition set_data := fun b d => cz (c_set_data b d).

(** The body of [install_trans] for one block. *)
Definition install_block (recovering : bool) (tail : Z) : M (log C) unit :=
  s ← get;
  (if recovering then printf "recovering tail %d dst %d" else mret tt);;
  lbuf ← bread (lg_dev s) (lg_start s + tail + 1);
  dbuf ← bread (lg_dev s) (lg_block s tail);
  d ← data lbuf;
  set_data dbuf d;;
  bwrite dbuf;;
  (if recovering then mret tt else bunpin dbuf);;
  brelse lbuf;;
  brelse dbuf.

Fixpoint install_loop (recovering : bool) (tail : Z) (k : nat) : M (log C) unit :=
  match k with
  | O => mret tt
  | S k => install_block recovering tail;; install_loop recovering (tail + 1) k
  end.

Definition install_trans (recovering : bool) : M (log C) unit :=
  s ← get;
  install_loop recovering 0 (Z.to_nat (lg_n s)).

(** [for (i = 0; i < log.lh.n; i++) log.lh.block[i] = lh->block[i];] the
    array has LOGBLOCKS entries. *)
Fixpoint read_head_loop (d : block) (i : Z) (k : nat) : M (log C) unit :=
  match k with
  | O => mret tt
  | S k =>
      if LOGBLOCKS <=? i then panic "log.lh.block out of bounds"
      else modify (set_block i (hdr_block d i));; read_head_loop d (i + 1) k
  end.

Definition read_head : M (log C) unit :=
  s ← get;
  buf ← bread (lg_dev s) (lg_start s);
  d ← data buf;
  modify (set_n (hdr_n d));;
  read_head_loop d 0 (Z.to_nat (hdr_n d));;
  brelse buf.

(** The header block with the in-memory header written over it. *)
Fixpoint write_hdr_loop (f : Z -> Z) (i : Z) (k : nat) (d : block) : block :=
  match k with
  | O => d
  | S k => write_hdr_loop f (i + 1) k (set_hdr_block d i (f i))
  end.

Definition write_hdr (n : Z) (f : Z -> Z) (d : block) : block :=
  write_hdr_loop f 0 (Z.to_nat n) (set_hdr_n d n).

Definition write_head : M (log C) unit :=
  s ← get;
  buf ← bread (lg_dev s) (lg_start s);
  d ← data buf;
  set_data buf (write_hdr (lg_n s) (lg_block s) d);;
  bwrite buf;;
  brelse buf.

Definition recover_from_log : M (log C) unit :=
  read_head;;
  install_trans true;;
  modify (set_n 0);;
  write_head.

Definition initlog (dev logstart : Z) : M (log C) unit :=
  if BSIZE <=? sizeof_logheader then panic "initlog: too big logheader"
  else
    modify (set_start_dev logstart dev);;
    recover_from_log.

(** The condition of the loop of [begin_op]; both branches sleep. *)
Definition begin_must_wait (s : log C) : bool :=
  nz (lg_committing s) || (LOGBLOCKS <? lg_n s + (lg_outstanding s + 1) * MAXOPBLOCKS).

Definition begin_op : M (log C) unit :=
  acquire log_lock;;
  wait_while begin_must_wait log_chan log_lock;;
  modify (fun s => set_outstanding (lg_outstanding s + 1) s);;
  release log_lock.

(** The body of [write_log] for one block. *)
Definition write_log_block (tail : Z) : M (log C) unit :=
  s ← get;
  to ← bread (lg_dev s) (lg_start s + tail + 1);
  from ← bread (lg_dev s) (lg_block s tail);
  d ← data from;
  set_data to d;;
  bwrite to;;
  brelse from;;
  brelse to.

Fixpoint write_log_loop (tail : Z) (k : nat) : M (log C) unit :=
  match k with
  | O => mret tt
  | S k => write_log_block tail;; write_log_loop (tail + 1) k
  end.

Definition write_log : M (log C) unit :=
  s ← get;
  write_log_loop 0 (Z.to_nat (lg_n s)).

Definition commit : M (log C) unit :=
  s ← get;
  if 0 <? lg_n s then
    write_log;;
    write_head;;
    install_trans false;;
    modify (set_n 0);;
    write_head
  else mret tt.

Definition end_op : M (log C) unit :=
  acquire log_lock;;
  modify (fun s => set_outstanding (lg_outstanding s - 1) s);;
  s ← get;
  (if nz (lg_committing s) then panic "log.committing" else mret tt);;
  do_commit ← (if lg_outstanding s =? 0 then modify (set_committing 1);; mret true
               else wakeup log_chan;; mret false);
  release log_lock;;
  if (do_commit : bool) then
    commit;;
    acquire log_lock;;
    modify (set_committing 0);;
    wakeup log_chan;;
    release log_lock
  else mret tt.

(** The index of a block number already in the log, or [lg_n]. *)
Fixpoint find_logged (s : log C) (bn i : Z) (k : nat) : Z :=
  match k with
  | O => i
  | S k => if u32 (lg_block s i) =? bn then i else find_logged s bn (i + 1) k
  end.

Definition log_write (b : Z) : M (log C) unit :=
  acquire log_lock;;
  s ← get;
  if LOGBLOCKS <=? lg_n s then panic "too big a transaction"
  else if lg_outstanding s <? 1 then panic "log_write outside of trans"
  else
    bn ← blockno b;
    let i := find_logged s bn 0 (Z.to_nat (lg_n s)) in
    modify (set_block i (i32 bn));;
    (if i =? lg_n s then bpin b;; modify (set_n (lg_n s + 1)) else mret tt);;
    release log_lock.
End log.
