(* ===== verification/LogSpec.v ===== *)
(** * LogSpec: commit and recovery, and what a crash leaves

    The theorems are about any block cache.  A commit is a sequence of disk
    writes; a crash keeps a prefix of it, and recovery from what is left
    yields the contents before the transaction or those after it. *)

From S2P Require Import Prelude Riscv Layout Sleeplock Bio BioSpec Log.

(** The disk after a sequence of writes. *)
Definition apply_writes (w : list (Z * block)) (d : Z -> block) : Z -> block :=
  foldl (fun d w => <[w.1 := w.2]> d) d w.

(** Copying the blocks [bns] to the log, from its block [i] on. *)
Fixpoint wlog (v : Z -> block) (start i : Z) (bns : list Z) : list (Z * block) :=
  match bns with
  | [] => []
  | bn :: bns => (start + i + 1, v bn) :: wlog v start (i + 1) bns
  end.

(** Copying the blocks of the log, from its block [i] on, to their homes. *)
Fixpoint winst (v : Z -> block) (start i : Z) (bns : list Z) : list (Z * block) :=
  match bns with
  | [] => []
  | bn :: bns => (bn, v (start + i + 1)) :: winst v start (i + 1) bns
  end.

(** The block numbers in a header. *)
Definition hdr_blocks (d : block) : list Z := hdr_block d <$> seqZ 0 (hdr_n d).

(** The disk after recovery. *)
Definition recovered (start : Z) (d : Z -> block) : Z -> block :=
  apply_writes (winst d start 0 (hdr_blocks (d start))) d.

(** The blocks of the log: the header and LOGBLOCKS blocks after it. *)
Definition in_log (start bn : Z) : Prop := start <= bn <= start + LOGBLOCKS.

Definition with_writes (w : list (Z * block)) (a : acache) : acache :=
  {| a_view := apply_writes w (a_view a); a_disk := apply_writes w (a_disk a);
     a_writes := a_writes a ++ w; a_pins := a_pins a; a_locked := a_locked a |}.

Definition unpin_all (bns : list Z) (a : acache) : acache :=
  with_pins (fun p => foldl (fun p bn => <[bn := p bn - 1]> p) p bns) a.

Arguments apply_writes : simpl never.

(** ** Sequences of writes *)

Lemma apply_writes_app w1 w2 d : apply_writes (w1 ++ w2) d = apply_writes w2 (apply_writes w1 d).
Proof. apply foldl_app. Qed.

Lemma apply_writes_cons bn x w d : apply_writes ((bn, x) :: w) d = apply_writes w (<[bn := x]> d).
Proof. done. Qed.

Lemma apply_writes_one bn x d : apply_writes [(bn, x)] d = <[bn := x]> d.
Proof. done. Qed.

Lemma apply_writes_other w d bn :
  (forall x, x ∈ w -> x.1 <> bn) -> apply_writes w d bn = d bn.
Proof.
  unfold apply_writes. revert d. induction w as [|x w IH]; intros d Hw; simpl; [done|].
  rewrite IH by (intros y Hy; apply Hw, elem_of_cons; by right).
  apply upd_other, Hw, elem_of_cons. by left.
Qed.

Lemma wlog_dst v start i bns x : x ∈ wlog v start i bns -> start + i < x.1 <= start + i + Z.of_nat (length bns).
Proof.
  revert i. induction bns as [|bn bns IH]; intros i; simpl; [by intros ?%not_elem_of_nil|].
  intros [->|Hx]%elem_of_cons; simpl; [lia|]. specialize (IH _ Hx). lia.
Qed.

Lemma winst_dst v start i bns x : x ∈ winst v start i bns -> x.1 ∈ bns.
Proof.
  revert i. induction bns as [|bn bns IH]; intros i; simpl; [by intros ?%not_elem_of_nil|].
  intros [->|Hx]%elem_of_cons; simpl; apply elem_of_cons; [by left|right]. by eapply IH.
Qed.

Lemma wlog_ext v v' start i bns :
  (forall bn, bn ∈ bns -> v bn = v' bn) -> wlog v start i bns = wlog v' start i bns.
Proof.
  revert i. induction bns as [|bn bns IH]; intros i Hv; simpl; [done|].
  rewrite Hv by (apply elem_of_cons; by left). f_equal. apply IH. intros x Hx. apply Hv, elem_of_cons. by right.
Qed.

Lemma winst_ext v v' start i bns :
  (forall j, i <= j < i + Z.of_nat (length bns) -> v (start + j + 1) = v' (start + j + 1)) ->
  winst v start i bns = winst v' start i bns.
Proof.
  revert i. induction bns as [|bn bns IH]; intros i Hv; simpl in *; [done|].
  rewrite Hv by lia. f_equal. apply IH. intros j Hj. apply Hv. lia.
Qed.

(** What the log blocks hold after they were written. *)
Lemma wlog_read v start i bns d j bn :
  bns !! j = Some bn -> apply_writes (wlog v start i bns) d (start + i + Z.of_nat j + 1) = v bn.
Proof.
  revert i j d. induction bns as [|b bns IH]; intros i j d Hj; [done|].
  destruct j as [|j]; simplify_eq/=.
  - rewrite apply_writes_cons, apply_writes_other; [rewrite Z.add_0_r; apply upd_same|].
    intros x Hx%wlog_dst. lia.
  - rewrite apply_writes_cons.
    replace (start + i + Z.of_nat (S j) + 1) with (start + (i + 1) + Z.of_nat j + 1) by lia. by apply IH.
Qed.

(** What the homes hold after they were written, even if only a prefix was. *)
Lemma winst_read v start i bns d j bn :
  NoDup bns -> bns !! j = Some bn ->
  apply_writes (winst v start i bns) d bn = v (start + i + Z.of_nat j + 1).
Proof.
  revert i j d. induction bns as [|b bns IH]; intros i j d Hnd Hj; [done|].
  apply NoDup_cons in Hnd as [Hb Hnd].
  destruct j as [|j]; simplify_eq/=; rewrite apply_writes_cons.
  - rewrite apply_writes_other; [rewrite Z.add_0_r; apply upd_same|].
    intros x Hx%winst_dst E. by rewrite E in Hx.
  - rewrite (IH (i + 1) j); [f_equal; lia|done|done].
Qed.

(** ** The header block *)

Definition hdr_ok (n : Z) (d : block) : Prop := 0 <= n <= LOGBLOCKS /\ length d = Z.to_nat BSIZE.

Lemma hdr_offset i : 0 <= i < LOGBLOCKS -> 0 <= 4 + 4 * i /\ 4 + 4 * i + 4 <= BSIZE.
Proof. unfold LOGBLOCKS, MAXOPBLOCKS, BSIZE. lia. Qed.

Lemma write_hdr_loop_spec f k : forall i d,
  0 <= i -> i + Z.of_nat k <= LOGBLOCKS -> length d = Z.to_nat BSIZE ->
  length (write_hdr_loop f i k d) = Z.to_nat BSIZE /\
  hdr_n (write_hdr_loop f i k d) = hdr_n d /\
  (forall j, 0 <= j < LOGBLOCKS -> hdr_block (write_hdr_loop f i k d) j =
     if decide (i <= j < i + Z.of_nat k) then i32 (f j mod 2 ^ 32) else hdr_block d j).
Proof.
  induction k as [|k IH]; intros i d Hi Hk Hd; cbn [write_hdr_loop].
  { split_and!; try done. intros j Hj. by rewrite decide_False by lia. }
  pose proof (hdr_offset i ltac:(lia)).
  destruct (IH (i + 1) (set_hdr_block d i (f i))) as (L & N & B); [lia|lia| |].
  { unfold set_hdr_block. rewrite length_wrn; lia. }
  split_and!; [done| |].
  { rewrite N. unfold hdr_n, set_hdr_block. by rewrite rdn_wrn_other by lia. }
  intros j Hj. pose proof (hdr_offset j Hj). rewrite B by done. unfold set_hdr_block, hdr_block.
  destruct (decide (i + 1 <= j < i + 1 + Z.of_nat k)); [by rewrite decide_True by lia|].
  destruct (decide (i = j)) as [->|].
  - rewrite decide_True, rdn_wrn by lia. done.
  - by rewrite decide_False, rdn_wrn_other by lia.
Qed.

Lemma write_hdr_length n f d : hdr_ok n d -> length (write_hdr n f d) = Z.to_nat BSIZE.
Proof.
  intros [Hn Hd]. apply write_hdr_loop_spec; [lia|lia|].
  unfold set_hdr_n. rewrite length_wrn; unfold BSIZE in *; lia.
Qed.

Lemma write_hdr_n n f d : hdr_ok n d -> hdr_n (write_hdr n f d) = n.
Proof.
  intros [Hn Hd]. unfold write_hdr.
  destruct (write_hdr_loop_spec f (Z.to_nat n) 0 (set_hdr_n d n)) as (_ & -> & _); [lia|lia| |].
  { unfold set_hdr_n. rewrite length_wrn; unfold BSIZE in *; lia. }
  unfold hdr_n, set_hdr_n. rewrite rdn_wrn by (unfold BSIZE in *; lia).
  apply i32_small. unfold LOGBLOCKS, MAXOPBLOCKS in Hn. lia.
Qed.

Lemma write_hdr_block n f d i :
  hdr_ok n d -> 0 <= i < n -> 0 <= f i < 2 ^ 31 -> hdr_block (write_hdr n f d) i = f i.
Proof.
  intros [Hn Hd] Hi Hf. unfold write_hdr.
  destruct (write_hdr_loop_spec f (Z.to_nat n) 0 (set_hdr_n d n)) as (_ & _ & E); [lia|lia| |].
  { unfold set_hdr_n. rewrite length_wrn; unfold BSIZE in *; lia. }
  rewrite E, decide_True by lia. apply i32_small. lia.
Qed.

(** [bns] is the array lh.block up to lh.n. *)
Definition logged (f : Z -> Z) (bns : list Z) : Prop :=
  forall i bn, bns !! i = Some bn -> f (Z.of_nat i) = bn /\ 0 <= bn < 2 ^ 31.

Lemma write_hdr_blocks f bns d :
  logged f bns -> hdr_ok (Z.of_nat (length bns)) d ->
  hdr_blocks (write_hdr (Z.of_nat (length bns)) f d) = bns.
Proof.
  intros Hf Hd. unfold hdr_blocks. rewrite write_hdr_n by done. apply list_eq. intros i.
  rewrite list_lookup_fmap.
  destruct (bns !! i) as [bn|] eqn:Ei.
  - destruct (Hf _ _ Ei) as [Hfi Hbn]. apply lookup_lt_Some in Ei.
    rewrite lookup_seqZ_lt, Z.add_0_l by lia. simpl. f_equal. rewrite write_hdr_block; [by rewrite Hfi|done|lia|by rewrite Hfi].
  - apply lookup_ge_None in Ei. by rewrite lookup_seqZ_ge by lia.
Qed.

(** ** The steps of a commit on the abstract cache *)

Section steps.
Context {C : Type} `{BlockCache C} (dev pid : Z).
Hypothesis Hdev : dev <> 0.
Implicit Types (t : tctx) (s : log C) (a : acache).

(** The running process, with no lock of the cache held. *)
Definition runs (t : tctx) : Prop := t_pid t = pid /\ cache_unlocked t.

Lemma runs_quiet t t' : quiet t t' -> runs t -> runs t'.
Proof. intros (E1 & E2 & E3 & _) [Hp Hc]. unfold runs, cache_unlocked in *. by rewrite E1, E3. Qed.

(** A step that leaves the fields of the log alone. *)
Lemma wp_cache {A} (m : M C A) (P : A -> tctx -> C -> Prop) (Q : A -> tctx -> log C -> Prop) t s :
  wp m P t (lg_cache s) -> (forall x t' c, P x t' c -> Q x t' (set_cache c s)) -> wp (cz m) Q t s.
Proof. intros Hm HQ. apply wp_zoom. eapply wp_mono; [done|]. done. Qed.

(** The log's cache is in the abstract state [a], with no buffer locked and
    only the blocks of [P] pinned. *)
Record crest (P : gset Z) (s : log C) (a : acache) : Prop := {
  ce_rep : c_rep dev pid (lg_cache s) a;
  ce_dev : lg_dev s = dev;
  ce_locked : a_locked a = ∅;
  ce_pins : forall bn, 0 < a_pins a bn -> bn ∈ P
}.

Lemma crest_unlocked P s a bn : crest P s a -> unlocked a bn.
Proof. intros R b. by rewrite (ce_locked _ _ _ R), lookup_empty. Qed.

(** Only the cache of the log changed. *)
Definition cache_only (s s' : log C) : Prop := exists c, s' = set_cache c s.

#[local] Instance cache_only_preorder : PreOrder cache_only.
Proof. split; [intros s; exists (lg_cache s); by destruct s|]. intros s1 s2 s3 [c1 ->] [c2 ->]. by exists c2. Qed.

Lemma room_one P s a bn : crest P s a -> (size P < Z.to_nat NBUF)%nat ->
  0 < a_pins a bn \/ (busy a P /\ (size P < Z.to_nat NBUF)%nat).
Proof.
  intros R HP. right. split; [|done]. intros x [Hx|[b Hb]]; [by apply (ce_pins _ _ _ R)|].
  by rewrite (ce_locked _ _ _ R), lookup_empty in Hb.
Qed.

(** A second buffer, after [b] was locked for [lb]. *)
Lemma room_two P s a b lb bn : crest P s a ->
  0 < a_pins a bn \/ (size P + 1 < Z.to_nat NBUF)%nat ->
  0 < a_pins (with_locked (<[b := lb]>) a) bn \/
  (busy (with_locked (<[b := lb]>) a) ({[lb]} ∪ P) /\ (size ({[lb]} ∪ P) < Z.to_nat NBUF)%nat).
Proof.
  intros R [Hp|HP]; [by left|right]. split.
  - intros x [Hx|[c Hc]]; [apply elem_of_union_r; by apply (ce_pins _ _ _ R)|]. simpl in Hc.
    rewrite (ce_locked _ _ _ R), insert_empty in Hc. apply lookup_singleton_Some in Hc as [_ <-].
    by apply elem_of_union_l, elem_of_singleton.
  - pose proof (size_union_alt {[lb]} P). rewrite size_singleton in *.
    pose proof (subseteq_size (P ∖ {[lb]}) P ltac:(set_solver)). lia.
Qed.

Lemma unlock_two (m : gmap Z Z) b c x y :
  m = ∅ -> delete b (delete c (<[c := y]> (<[b := x]> m))) = ∅ /\
  delete c (delete b (<[c := y]> (<[b := x]> m))) = ∅.
Proof.
  intros ->. rewrite (delete_delete _ b c).
  enough (E : delete c (delete b (<[c := y]> (<[b := x]> (∅ : gmap Z Z)))) = ∅) by done.
  apply map_eq. intros i. rewrite lookup_empty.
  destruct (decide (i = c)) as [->|]; [by rewrite lookup_delete_eq|].
  rewrite lookup_delete_ne by done.
  destruct (decide (i = b)) as [->|]; [by rewrite lookup_delete_eq|].
  by rewrite lookup_delete_ne, !lookup_insert_ne, lookup_empty by done.
Qed.

Lemma wp_data t s a b bn (Q : block -> tctx -> log C -> Prop) :
  c_rep dev pid (lg_cache s) a -> a_locked a !! b = Some bn -> Q (a_view a bn) t s -> wp (data b) Q t s.
Proof.
  intros R Hb HQ. apply wp_zoom. eapply wp_done; [by eapply c_data_spec|]. by destruct s.
Qed.

Lemma locked_two (m : gmap Z Z) b c x y : b <> c -> (<[c := y]> (<[b := x]> m)) !! b = Some x.
Proof. intros. rewrite lookup_insert_ne by done. apply lookup_insert_eq. Qed.

Lemma write_log_block_wp P t s a tail :
  crest P s a -> runs t -> (size P < Z.to_nat NBUF)%nat ->
  0 < a_pins a (lg_block s tail) -> lg_start s + tail + 1 <> lg_block s tail ->
  wp (write_log_block tail) (fun _ t' s' => quiet t t' /\ cache_only s s' /\
    crest P s' (with_writes [(lg_start s + tail + 1, a_view a (lg_block s tail))] a)) t s.
Proof using Hdev.
  intros R [Ht Hc] HP Hpin Hne. pose proof (ce_rep _ _ _ R) as Rc. pose proof (ce_dev _ _ _ R) as Ed.
  unfold write_log_block. apply wp_bind, wp_get. rewrite Ed.
  remember (lg_start s + tail + 1) as lb. remember (lg_block s tail) as bn.
  apply wp_bind. eapply wp_cache.
  { eapply (c_bread_spec dev pid t _ a lb P); eauto using crest_unlocked, room_one. }
  intros to ? c1 (-> & _ & R1). apply wp_bind. eapply wp_cache.
  { eapply (c_bread_spec dev pid t c1 _ bn ({[lb]} ∪ P)); eauto using room_two.
    intros x Hx. simpl in Hx. rewrite (ce_locked _ _ _ R), insert_empty in Hx.
    apply lookup_singleton_Some in Hx as [_ Hx]. congruence. }
  intros from ? c2 (-> & Hfrom & R2). simpl in Hfrom. apply lookup_insert_None in Hfrom as [_ Hft].
  apply wp_bind. eapply wp_data; [exact R2|apply lookup_insert_eq|]. simpl.
  apply wp_bind. eapply wp_cache.
  { eapply (c_set_data_spec dev pid t c2 _ to lb); eauto. by apply locked_two. }
  intros _ ? c3 (-> & R3). apply wp_bind. eapply wp_cache.
  { eapply (c_bwrite_spec dev pid t c3 _ to lb); eauto. by apply locked_two. }
  simpl. rewrite upd_same. intros _ ? c4 (-> & R4). apply wp_bind. eapply wp_cache.
  { eapply (c_brelse_spec dev pid t c4 _ from bn); eauto; [apply lookup_insert_eq|]. simpl. lia. }
  intros _ t5 c5 (Q5 & R5).
  destruct (runs_quiet _ _ Q5 (conj Ht Hc)) as [Ht5 Hc5]. eapply wp_cache.
  { eapply (c_brelse_spec dev pid t5 c5 _ to lb); eauto.
    - simpl. rewrite lookup_delete_ne by done. by apply locked_two.
    - intros _. simpl. by rewrite !upd_same. }
  intros _ t6 c6 (Q6 & R6). split_and!; [by etrans|by eexists|].
  destruct (unlock_two (a_locked a) to from lb bn (ce_locked _ _ _ R)) as [El _].
  unfold with_locked in R6; cbn -[apply_writes] in R6; rewrite El in R6.
  split; simpl; [|done|exact (ce_locked _ _ _ R)|exact (ce_pins _ _ _ R)].
  unfold with_writes. by rewrite (ce_locked _ _ _ R).
Qed.

Lemma install_block_wp (recovering : bool) P t s a tail :
  crest P s a -> runs t -> (size P < Z.to_nat NBUF)%nat ->
  lg_start s + tail + 1 <> lg_block s tail -> a_pins a (lg_start s + tail + 1) = 0 ->
  (if recovering then a_pins a (lg_block s tail) = 0 /\ (size P + 1 < Z.to_nat NBUF)%nat
   else 0 < a_pins a (lg_block s tail)) ->
  wp (install_block recovering tail) (fun _ t' s' => quiet t t' /\ cache_only s s' /\
    crest P s' (with_writes [(lg_block s tail, a_view a (lg_start s + tail + 1))]
      (unpin_all (if recovering then [] else [lg_block s tail]) a))) t s.
Proof using Hdev.
  intros R Hrun HP Hne Hlb Hpin. pose proof (ce_rep _ _ _ R) as Rc. pose proof (ce_dev _ _ _ R) as Ed.
  unfold install_block. apply wp_bind, wp_get. rewrite Ed.
  remember (lg_start s + tail + 1) as lb. remember (lg_block s tail) as bn.
  apply wp_bind. apply (wp_mono _ (fun _ t' s' => quiet t t' /\ s' = s)).
  { destruct recovering; [apply wp_printf|apply wp_ret]; by split. }
  intros _ t1 s1 [Q1 ->]. destruct (runs_quiet _ _ Q1 Hrun) as [Ht Hc].
  apply wp_bind. eapply wp_cache.
  { eapply (c_bread_spec dev pid t1 _ a lb P); eauto using crest_unlocked, room_one. }
  intros lbuf ? c1 (-> & _ & R1). apply wp_bind. eapply wp_cache.
  { eapply (c_bread_spec dev pid t1 c1 _ bn ({[lb]} ∪ P)); eauto.
    - intros x Hx. simpl in Hx. rewrite (ce_locked _ _ _ R), insert_empty in Hx.
      apply lookup_singleton_Some in Hx as [_ Hx]. congruence.
    - eapply room_two; [done|]. destruct recovering; [right; by apply Hpin|by left]. }
  intros dbuf ? c2 (-> & Hd & R2). simpl in Hd. apply lookup_insert_None in Hd as [_ Hft].
  apply wp_bind. eapply wp_data; [exact R2|by apply locked_two|]. simpl.
  apply wp_bind. eapply wp_cache.
  { eapply (c_set_data_spec dev pid t1 c2 _ dbuf bn); eauto. apply lookup_insert_eq. }
  intros _ ? c3 (-> & R3). apply wp_bind. eapply wp_cache.
  { eapply (c_bwrite_spec dev pid t1 c3 _ dbuf bn); eauto. apply lookup_insert_eq. }
  simpl. rewrite upd_same. intros _ ? c4 (-> & R4). apply wp_bind.
  apply (wp_mono _ (fun _ t' s' => t' = t1 /\ exists c5, s' = set_cache c5 s /\
    c_rep dev pid c5 (unpin_all (if recovering then [] else [bn])
      (with_write bn (a_view a lb) (with_view (<[bn := a_view a lb]>)
        (with_locked (<[dbuf := bn]>) (with_locked (<[lbuf := lb]>) a))))))).
  { destruct recovering; [apply wp_ret; split; [done|by exists c4]|].
    eapply wp_cache; [eapply (c_bunpin_spec dev pid t1 c4 _ dbuf bn); eauto|].
    - apply Hc.
    - apply lookup_insert_eq.
    - intros _ t' c' [-> R']. split; [done|by exists c']. }
  intros _ ? ? (-> & c5 & -> & R5). apply wp_bind. eapply wp_cache.
  { eapply (c_brelse_spec dev pid t1 c5 _ lbuf lb); eauto; [by apply locked_two|].
    intros _. simpl. rewrite !upd_other by done. eapply c_clean; eauto using crest_unlocked. }
  intros _ t6 c6 (Q6 & R6).
  destruct (runs_quiet _ _ Q6 (conj Ht Hc)) as [Ht6 Hc6]. eapply wp_cache.
  { eapply (c_brelse_spec dev pid t6 c6 _ dbuf bn); eauto.
    - simpl. rewrite lookup_delete_ne by done. apply lookup_insert_eq.
    - intros _. simpl. by rewrite !upd_same. }
  intros _ t7 c7 (Q7 & R7). split_and!; [by do 2 etrans|by eexists|].
  destruct (unlock_two (a_locked a) lbuf dbuf lb bn (ce_locked _ _ _ R)) as [_ El].
  unfold with_locked in R7; cbn -[apply_writes] in R7; rewrite El in R7.
  split; simpl; [|done|exact (ce_locked _ _ _ R)|].
  - unfold with_writes. simpl. by rewrite (ce_locked _ _ _ R).
  - intros x Hx. apply (ce_pins _ _ _ R). destruct recovering; [done|]. simpl in Hx.
    rewrite upd_eq in Hx. destruct (decide _); subst; lia.
Qed.

Lemma write_head_wp P t s a :
  crest P s a -> runs t -> (size P < Z.to_nat NBUF)%nat ->
  wp write_head (fun _ t' s' => quiet t t' /\ cache_only s s' /\
    crest P s' (with_writes [(lg_start s, write_hdr (lg_n s) (lg_block s) (a_view a (lg_start s)))] a)) t s.
Proof using Hdev.
  intros R [Ht Hc] HP. pose proof (ce_rep _ _ _ R) as Rc. pose proof (ce_dev _ _ _ R) as Ed.
  unfold write_head. apply wp_bind, wp_get. rewrite Ed. remember (lg_start s) as lb.
  apply wp_bind. eapply wp_cache.
  { eapply (c_bread_spec dev pid t _ a lb P); eauto using crest_unlocked, room_one. }
  intros b ? c1 (-> & _ & R1).
  apply wp_bind. eapply wp_data; [exact R1|apply lookup_insert_eq|]. simpl.
  apply wp_bind. eapply wp_cache.
  { eapply (c_set_data_spec dev pid t c1 _ b lb); eauto. apply lookup_insert_eq. }
  intros _ ? c3 (-> & R3). apply wp_bind. eapply wp_cache.
  { eapply (c_bwrite_spec dev pid t c3 _ b lb); eauto. apply lookup_insert_eq. }
  simpl. rewrite upd_same. intros _ ? c4 (-> & R4). eapply wp_cache.
  { eapply (c_brelse_spec dev pid t c4 _ b lb); eauto; [apply lookup_insert_eq|].
    intros _. simpl. by rewrite !upd_same. }
  intros _ t5 c5 (Q5 & R5). split_and!; [done|by eexists|].
  unfold with_locked in R5; cbn -[apply_writes] in R5.
  rewrite (ce_locked _ _ _ R), delete_insert_id in R5 by apply lookup_empty.
  split; simpl; [|done|exact (ce_locked _ _ _ R)|exact (ce_pins _ _ _ R)].
  unfold with_writes. by rewrite (ce_locked _ _ _ R).
Qed.

Lemma with_writes_writes w1 w2 a : with_writes w2 (with_writes w1 a) = with_writes (w1 ++ w2) a.
Proof. unfold with_writes. simpl. by rewrite app_assoc, !apply_writes_app. Qed.

Lemma cache_only_fields s s' : cache_only s s' ->
  lg_start s' = lg_start s /\ lg_block s' = lg_block s /\ lg_n s' = lg_n s.
Proof. by intros [c ->]. Qed.

(** The entries of lh.block from [tail] on are [bns], none of them a block of the log. *)
Definition entries (s : log C) (tail : Z) (bns : list Z) : Prop :=
  0 <= tail /\ tail + Z.of_nat (length bns) <= LOGBLOCKS /\
  forall i bn, bns !! i = Some bn -> lg_block s (tail + Z.of_nat i) = bn /\ ~ in_log (lg_start s) bn.

Lemma entries_cons s s' tail bn bns :
  entries s tail (bn :: bns) -> cache_only s s' ->
  lg_block s tail = bn /\ entries s' (tail + 1) bns /\
  (forall x, x ∈ bn :: bns -> forall j, 0 <= j <= LOGBLOCKS -> lg_start s + j <> x).
Proof.
  intros (H0 & Hlen & Hb) (Es & Eb & _)%cache_only_fields. unfold entries. rewrite Es, Eb.
  cbn [length] in Hlen. split_and!; [|lia|lia| |].
  - destruct (Hb 0%nat bn eq_refl) as [E _]. by rewrite Z.add_0_r in E.
  - intros i x Hx. destruct (Hb (S i) x Hx). split; [|done]. rewrite <-H1. f_equal. lia.
  - intros x [i Hx]%list_elem_of_lookup j Hj. destruct (Hb _ _ Hx) as [_ Hn]. unfold in_log in Hn. lia.
Qed.

Lemma write_log_loop_wp P bns : forall t s a tail,
  crest P s a -> runs t -> (size P < Z.to_nat NBUF)%nat -> entries s tail bns ->
  (forall bn, bn ∈ bns -> 0 < a_pins a bn) ->
  wp (write_log_loop tail (length bns)) (fun _ t' s' => quiet t t' /\ cache_only s s' /\
    crest P s' (with_writes (wlog (a_view a) (lg_start s) tail bns) a)) t s.
Proof using Hdev.
  induction bns as [|bn bns IH]; intros t s a tail R Hrun HP He Hpin; cbn [length write_log_loop wlog].
  { apply wp_ret. split_and!; [done|done|]. destruct R as [Rc ? ? ?]. split; try done.
    unfold with_writes, apply_writes; simpl. rewrite app_nil_r. by destruct a. }
  destruct (entries_cons s s tail bn bns He) as (Ebn & _ & Hout); [reflexivity|].
  pose proof He as (H0 & Hlen & _). cbn [length] in Hlen.
  apply wp_bind. eapply wp_mono.
  { eapply write_log_block_wp; eauto; rewrite Ebn; [apply Hpin, elem_of_cons; by left|].
    rewrite <-Z.add_assoc. apply Hout; [apply elem_of_cons; by left|lia]. }
  intros _ t1 s1 (Q1 & Z1 & R1). destruct (entries_cons _ _ _ _ _ He Z1) as (_ & He1 & _).
  rewrite Ebn in R1. eapply wp_mono.
  { eapply IH; [exact R1|by eapply runs_quiet|done|done|]. intros x Hx. apply Hpin, elem_of_cons. by right. }
  intros _ t2 s2 (Q2 & Z2 & R2). split_and!; [by etrans|by etrans|].
  rewrite with_writes_writes in R2. simpl in R2. destruct (cache_only_fields _ _ Z1) as (Es & _ & _).
  rewrite Es in R2. erewrite (wlog_ext _ (a_view a)) in R2; [exact R2|].
  intros x Hx. apply apply_writes_other. intros y ->%list_elem_of_singleton. simpl.
  rewrite <-Z.add_assoc. apply Hout; [apply elem_of_cons; by right|lia].
Qed.

Lemma unpin_writes l1 l2 w1 w2 a :
  with_writes w2 (unpin_all l2 (with_writes w1 (unpin_all l1 a))) =
  with_writes (w1 ++ w2) (unpin_all (l1 ++ l2) a).
Proof. unfold with_writes, unpin_all, with_pins. simpl. by rewrite app_assoc, !apply_writes_app, foldl_app. Qed.

(** What [install_trans] needs of the pins. *)
Definition install_pins (recovering : bool) (P : gset Z) (start : Z) (a : acache) (bns : list Z) : Prop :=
  (forall bn, in_log start bn -> a_pins a bn = 0) /\
  if recovering then (forall bn, a_pins a bn = 0) /\ (size P + 1 < Z.to_nat NBUF)%nat
  else NoDup bns /\ forall bn, bn ∈ bns -> 0 < a_pins a bn.

Lemma install_pins_cons (recovering : bool) P start a bn bns w :
  install_pins recovering P start a (bn :: bns) -> ~ in_log start bn ->
  install_pins recovering P start (with_writes w (unpin_all (if recovering then [] else [bn]) a)) bns.
Proof.
  intros [Hl Hp] Hbn. split; simpl.
  - intros x Hx. destruct recovering; [by apply Hl|]. simpl. rewrite upd_other; [by apply Hl|]. by intros ->.
  - destruct recovering; [done|]. destruct Hp as [[Hnb Hnd]%NoDup_cons Hp]. split; [done|].
    intros x Hx. simpl. rewrite upd_other; [apply Hp, elem_of_cons; by right|]. by intros ->.
Qed.

Lemma install_loop_wp (recovering : bool) P bns : forall t s a tail,
  crest P s a -> runs t -> (size P < Z.to_nat NBUF)%nat -> entries s tail bns ->
  install_pins recovering P (lg_start s) a bns ->
  wp (install_loop recovering tail (length bns)) (fun _ t' s' => quiet t t' /\ cache_only s s' /\
    crest P s' (with_writes (winst (a_view a) (lg_start s) tail bns)
      (unpin_all (if recovering then [] else bns) a))) t s.
Proof using Hdev.
  induction bns as [|bn bns IH]; intros t s a tail R Hrun HP He Hpin; cbn [length install_loop winst].
  { apply wp_ret. split_and!; [done|done|]. destruct R as [Rc ? ? ?].
    assert (E : with_writes [] (unpin_all (if recovering then [] else []) a) = a); [|by rewrite E; split].
    unfold with_writes, apply_writes. simpl. rewrite app_nil_r. by destruct recovering, a. }
  destruct (entries_cons s s tail bn bns He) as (Ebn & _ & Hout); [reflexivity|].
  pose proof He as (H0 & Hlen & Hent). cbn [length] in Hlen.
  destruct (Hent 0%nat bn eq_refl) as [_ Hbn].
  assert (Hlog : in_log (lg_start s) (lg_start s + tail + 1)) by (unfold in_log; lia).
  apply wp_bind. eapply wp_mono.
  { eapply (install_block_wp recovering); eauto; rewrite ?Ebn.
    - rewrite <-Z.add_assoc. apply Hout; [apply elem_of_cons; by left|lia].
    - by apply Hpin.
    - destruct Hpin as [_ Hp]. destruct recovering; [split; apply Hp|]. apply Hp, elem_of_cons. by left. }
  intros _ t1 s1 (Q1 & Z1 & R1). destruct (entries_cons _ _ _ _ _ He Z1) as (_ & He1 & _).
  destruct (cache_only_fields _ _ Z1) as (Es & _ & _). rewrite Ebn in R1. eapply wp_mono.
  { eapply IH; [exact R1|by eapply runs_quiet|done|done|]. rewrite Es. by apply install_pins_cons. }
  intros _ t2 s2 (Q2 & Z2 & R2). split_and!; [by etrans|by etrans|].
  rewrite unpin_writes, Es in R2. simpl in R2. erewrite (winst_ext _ (a_view a)) in R2.
  { by destruct recovering. }
  intros j Hj. simpl. apply apply_writes_other. intros y ->%list_elem_of_singleton. simpl. intros E.
  apply (Hout bn ltac:(apply elem_of_cons; by left) (j + 1)); lia.
Qed.

Definition set_head (n : Z) (f : Z -> Z) (s : log C) : log C :=
  {| lg_cache := lg_cache s; lg_start := lg_start s; lg_outstanding := lg_outstanding s;
     lg_committing := lg_committing s; lg_dev := lg_dev s; lg_n := n; lg_block := f |}.

Lemma read_head_loop_done d k : forall i t s, 0 <= i -> i + Z.of_nat k <= LOGBLOCKS ->
  exists f, read_head_loop d i k t s = Done tt t (set_head (lg_n s) f s) /\
    forall j, f j = if decide (i <= j < i + Z.of_nat k) then hdr_block d j else lg_block s j.
Proof.
  induction k as [|k IH]; intros i t s Hi Hk; cbn [read_head_loop].
  { exists (lg_block s). split; [by destruct s|]. intros j. by rewrite decide_False by lia. }
  rewrite (proj2 (Z.leb_gt _ _)) by lia.
  destruct (IH (i + 1) t (set_block i (hdr_block d i) s)) as (f & E & Hf); [lia|lia|].
  exists f. split; [exact E|]. intros j. rewrite Hf. simpl. rewrite upd_eq.
  destruct (decide (i + 1 <= j < i + 1 + Z.of_nat k)); [by rewrite decide_True by lia|].
  destruct (decide (i = j)) as [->|]; [by rewrite decide_True by lia|]. by rewrite decide_False by lia.
Qed.

Lemma read_head_wp P t s a :
  crest P s a -> runs t -> (size P < Z.to_nat NBUF)%nat -> a_pins a (lg_start s) = 0 ->
  hdr_n (a_view a (lg_start s)) <= LOGBLOCKS ->
  wp read_head (fun _ t' s' => quiet t t' /\ lg_start s' = lg_start s /\ crest P s' a /\
    lg_n s' = hdr_n (a_view a (lg_start s)) /\
    forall j, 0 <= j < lg_n s' -> lg_block s' j = hdr_block (a_view a (lg_start s)) j) t s.
Proof using Hdev.
  intros R [Ht Hc] HP Hp Hn. pose proof (ce_rep _ _ _ R) as Rc. pose proof (ce_dev _ _ _ R) as Ed.
  unfold read_head. apply wp_bind, wp_get. rewrite Ed. remember (lg_start s) as lb.
  apply wp_bind. eapply wp_cache.
  { eapply (c_bread_spec dev pid t _ a lb P); eauto using crest_unlocked, room_one. }
  intros b ? c1 (-> & _ & R1).
  apply wp_bind. eapply wp_data; [exact R1|apply lookup_insert_eq|]. simpl.
  apply wp_bind, wp_modify, wp_bind. remember (a_view a lb) as d.
  destruct (read_head_loop_done d (Z.to_nat (hdr_n d)) 0 t (set_n (hdr_n d) (set_cache c1 s)))
    as (f & E & Hf); [lia|unfold LOGBLOCKS, MAXOPBLOCKS in *; lia|].
  eapply wp_done; [exact E|]. eapply wp_cache.
  { eapply (c_brelse_spec dev pid t c1 _ b lb); eauto; [apply lookup_insert_eq|].
    intros _. simpl. rewrite <-Heqd. subst d. eapply c_clean; eauto using crest_unlocked. }
  intros _ t5 c5 (Q5 & R5). split_and!; [done|done| |done|].
  - unfold with_locked in R5; simpl in R5. rewrite (ce_locked _ _ _ R) in R5.
    rewrite delete_insert_id in R5 by apply lookup_empty.
    split; simpl; [|done|exact (ce_locked _ _ _ R)|exact (ce_pins _ _ _ R)].
    rewrite <-(ce_locked _ _ _ R) in R5. by destruct a.
  - simpl. intros j Hj. rewrite Hf. by rewrite decide_True by lia.
Qed.

(** ** The log between operations *)

(** The blocks [bns] are in the log: the on-disk header is empty, and
    exactly these blocks are pinned in the cache. *)
Record lrep (s : log C) (a : acache) (bns : list Z) : Prop := {
  lr_rest : crest (list_to_set bns) s a;
  lr_nodup : NoDup bns;
  lr_n : lg_n s = Z.of_nat (length bns);
  lr_entries : entries s 0 bns;
  lr_logged : logged (lg_block s) bns;
  lr_pins : forall bn, a_pins a bn = if decide (bn ∈ bns) then 1 else 0;
  lr_size : forall bn, length (a_view a bn) = Z.to_nat BSIZE;
  lr_disk_size : forall bn, length (a_disk a bn) = Z.to_nat BSIZE;
  lr_empty : hdr_n (a_disk a (lg_start s)) = 0
}.

(** The disk writes of a commit. *)
Definition commit_writes (v : Z -> block) (start : Z) (f : Z -> Z) (bns : list Z) : list (Z * block) :=
  let h := write_hdr (Z.of_nat (length bns)) f (v start) in
  wlog v start 0 bns ++ [(start, h)] ++ ((fun bn => (bn, v bn)) <$> bns) ++ [(start, write_hdr 0 f h)].

Lemma unpin_all_pins bns : forall (p : Z -> Z) bn, NoDup bns ->
  foldl (fun p bn => <[bn := p bn - 1]> p) p bns bn = if decide (bn ∈ bns) then p bn - 1 else p bn.
Proof.
  induction bns as [|b bns IH]; intros p bn Hnd; cbn [foldl].
  { rewrite decide_False; [done|apply not_elem_of_nil]. }
  apply NoDup_cons in Hnd as [Hb Hnd]. rewrite IH by done. rewrite upd_eq.
  destruct (decide (b = bn)) as [->|Hne].
  - rewrite decide_False by done. rewrite decide_True; [done|]. apply elem_of_cons. by left.
  - destruct (decide (bn ∈ bns)); [rewrite decide_True|rewrite decide_False]; try done.
    + apply elem_of_cons. by right.
    + rewrite not_elem_of_cons. naive_solver.
Qed.

Lemma winst_homes v v' start bns : forall i,
  (forall j bn, bns !! j = Some bn -> v' (start + i + Z.of_nat j + 1) = v bn) ->
  winst v' start i bns = (fun bn => (bn, v bn)) <$> bns.
Proof.
  induction bns as [|b bns IH]; intros i Hv; cbn [winst fmap list_fmap]; [done|]. f_equal.
  - f_equal. rewrite <-(Hv 0%nat b eq_refl). f_equal. lia.
  - apply IH. intros j bn Hj. rewrite <-(Hv (S j) bn Hj). f_equal. lia.
Qed.

(** What the sequence of writes leaves in a block. *)
Lemma homes_read (v d : Z -> block) bns bn :
  NoDup bns -> apply_writes ((fun bn => (bn, v bn)) <$> bns) d bn = if decide (bn ∈ bns) then v bn else d bn.
Proof.
  intros Hnd. revert d. induction bns as [|b bns IH]; intros d; cbn [fmap list_fmap].
  { rewrite decide_False; [done|apply not_elem_of_nil]. }
  apply NoDup_cons in Hnd as [Hb Hnd]. rewrite apply_writes_cons, IH by done. rewrite upd_eq.
  destruct (decide (b = bn)) as [->|Hne].
  - rewrite decide_False by done. rewrite decide_True; [done|]. apply elem_of_cons. by left.
  - destruct (decide (bn ∈ bns)); [rewrite decide_True|rewrite decide_False]; try done.
    + apply elem_of_cons. by right.
    + rewrite not_elem_of_cons. naive_solver.
Qed.

(** The same when only some of the homes were written. *)
Lemma homes_other (v d : Z -> block) (w : list (Z * block)) bns bn k :
  (fun bn => (bn, v bn)) <$> bns = w ++ k -> bn ∉ bns -> apply_writes w d bn = d bn.
Proof.
  intros E Hbn. apply apply_writes_other. intros x Hx Ex. apply Hbn.
  assert (Hin : x ∈ (fun bn => (bn, v bn)) <$> bns) by (rewrite E; by apply elem_of_app; left).
  apply list_elem_of_fmap in Hin as (b & -> & Hb). simpl in Ex. by subst.
Qed.
End steps.

(** ** Crashes: any prefix of the writes of a commit *)

Section crash.
Variables (v d0 : Z -> block) (start : Z) (f : Z -> Z) (bns : list Z).
Hypotheses (Hnd : NoDup bns) (Hout : forall bn, bn ∈ bns -> ~ in_log start bn)
  (Hlen : Z.of_nat (length bns) <= LOGBLOCKS) (Hlogged : logged f bns)
  (Hsz : length (v start) = Z.to_nat BSIZE) (H0 : hdr_n (d0 start) = 0).

Let h := write_hdr (Z.of_nat (length bns)) f (v start).
Let homes : list (Z * block) := (fun bn => (bn, v bn)) <$> bns.

Lemma hdr_blocks_nil d : hdr_n d = 0 -> hdr_blocks d = [].
Proof. intros E. unfold hdr_blocks. by rewrite E. Qed.

Lemma home_not_log bn j : bn ∈ bns -> 0 <= j <= LOGBLOCKS -> bn <> start + j.
Proof using All. intros Hbn Hj ->. apply (Hout _ Hbn). unfold in_log. lia. Qed.

Lemma wlog_other d bn : ~ in_log start bn \/ bn = start -> apply_writes (wlog v start 0 bns) d bn = d bn.
Proof using All.
  intros Hbn. apply apply_writes_other. intros x Hx%wlog_dst E. unfold in_log in Hbn. lia.
Qed.

(** Before the header is written, recovery does nothing. *)
Lemma crash_early w k bn :
  wlog v start 0 bns = w ++ k -> ~ in_log start bn -> recovered start (apply_writes w d0) bn = d0 bn.
Proof using All.
  intros E Hbn.
  assert (Hw : forall x, x ∈ w -> start < x.1 <= start + LOGBLOCKS).
  { intros x Hx. pose proof (wlog_dst v start 0 bns x) as Hd. rewrite E in Hd.
    specialize (Hd ltac:(apply elem_of_app; by left)). lia. }
  unfold recovered. rewrite (apply_writes_other w d0 start) by (intros x Hx%Hw; lia).
  rewrite hdr_blocks_nil by done. change (apply_writes w d0 bn = d0 bn). apply apply_writes_other.
  intros x Hx%Hw E'. apply Hbn. unfold in_log. lia.
Qed.

(** Once it is written, recovery installs every block. *)
Lemma crash_late w k bn :
  homes = w ++ k -> ~ in_log start bn ->
  recovered start (apply_writes (wlog v start 0 bns ++ [(start, h)] ++ w) d0) bn =
  if decide (bn ∈ bns) then v bn else d0 bn.
Proof using All.
  intros E Hbn. set (d := apply_writes _ d0).
  assert (Hw : forall x, (forall b, b ∈ bns -> x <> b) -> apply_writes w
      (apply_writes [(start, h)] (apply_writes (wlog v start 0 bns) d0)) x =
      apply_writes [(start, h)] (apply_writes (wlog v start 0 bns) d0) x).
  { intros x Hx. eapply homes_other; [exact E|]. intros Hin. by apply (Hx _ Hin). }
  assert (Hd : forall x, d x = apply_writes w (apply_writes [(start, h)] (apply_writes (wlog v start 0 bns) d0)) x)
    by (intros x; unfold d; by rewrite !apply_writes_app).
  assert (Hh : d start = h).
  { rewrite Hd, Hw; [apply upd_same|]. intros b Hb Ex. apply (home_not_log b 0 Hb); [|lia].
    unfold LOGBLOCKS, MAXOPBLOCKS. lia. }
  assert (Hlog : forall j b, bns !! j = Some b -> d (start + 0 + Z.of_nat j + 1) = v b).
  { intros j b Hj. pose proof (lookup_lt_Some _ _ _ Hj). rewrite Hd, Hw.
    - rewrite apply_writes_other by (intros x ->%list_elem_of_singleton; simpl; lia). by apply wlog_read.
    - intros x Hx Ex. apply (home_not_log x (Z.of_nat j + 1) Hx); lia. }
  unfold recovered. rewrite Hh. unfold h. rewrite write_hdr_blocks by (try done; split; lia).
  rewrite (winst_homes v d start bns 0) by done. rewrite homes_read by done.
  destruct (decide (bn ∈ bns)) as [|Hni]; [done|]. rewrite Hd, Hw by (intros b Hb ->; done).
  rewrite apply_writes_other; [apply wlog_other; by left|].
  intros x ->%list_elem_of_singleton. simpl. intros ->. apply Hbn. unfold in_log, LOGBLOCKS, MAXOPBLOCKS. lia.
Qed.

(** After the header is erased the homes are up to date. *)
Lemma crash_done bn :
  ~ in_log start bn ->
  recovered start (apply_writes (commit_writes v start f bns) d0) bn = apply_writes (commit_writes v start f bns) d0 bn /\
  apply_writes (commit_writes v start f bns) d0 bn = if decide (bn ∈ bns) then v bn else d0 bn.
Proof using All.
  intros Hbn.
  assert (Hne : bn <> start) by (intros ->; apply Hbn; unfold in_log, LOGBLOCKS, MAXOPBLOCKS; lia).
  unfold commit_writes, recovered. fold h homes. rewrite !apply_writes_app. split.
  - rewrite (apply_writes_one start), upd_same, hdr_blocks_nil; [done|].
    apply write_hdr_n. split; [unfold LOGBLOCKS, MAXOPBLOCKS; lia|]. apply write_hdr_length. split; [lia|done].
  - rewrite !(apply_writes_one start). rewrite upd_other by done. unfold homes. rewrite homes_read by done.
    destruct (decide (bn ∈ bns)); [done|]. rewrite upd_other by done. apply wlog_other. by left.
Qed.

(** Where a prefix of the writes ends. *)
Lemma commit_prefix w k : commit_writes v start f bns = w ++ k ->
  (length w <= length bns /\ exists k', wlog v start 0 bns = w ++ k')%nat \/
  (length bns < length w)%nat /\
    ((exists w' k', w = wlog v start 0 bns ++ [(start, h)] ++ w' /\ homes = w' ++ k') \/
     w = commit_writes v start f bns).
Proof using All.
  assert (Hl : length (wlog v start 0 bns) = length bns).
  { clear. generalize 0. induction bns as [|b l IH]; intros i; simpl; [done|]. by rewrite IH. }
  unfold commit_writes. fold h homes. intros [(k1 & Ew & _)|(k1 & Ew & E1)]%app_eq_inv.
  { left. split; [|by exists k1]. rewrite <-Hl, Ew, length_app. lia. }
  destruct k1 as [|x k1]. { left. split; [rewrite Ew, length_app, Hl; simpl; lia|]. exists []. by rewrite Ew, !app_nil_r. }
  right. split; [rewrite Ew, length_app, Hl; simpl; lia|]. simpl in E1. injection E1 as <- E2.
  apply app_eq_inv in E2 as [(k2 & Ek & E2)|(k2 & Ek & E2)].
  { left. exists k1, k2. split; [by rewrite Ew|done]. }
  destruct k2 as [|y k2].
  - left. exists k1, []. rewrite Ek, !app_nil_r. split; [|done]. by rewrite Ew, Ek, app_nil_r.
  - right. rewrite Ew, Ek. simpl in E2. injection E2 as <- E2.
    symmetry in E2. by apply app_eq_nil in E2 as [-> _].
Qed.

(** The header a crash leaves is empty or complete. *)
Lemma crash_header w k : commit_writes v start f bns = w ++ k ->
  let d := apply_writes w d0 start in hdr_n d = 0 \/ hdr_n d = Z.of_nat (length bns) /\ hdr_blocks d = bns.
Proof using All.
  intros E d. assert (Hok : hdr_ok (Z.of_nat (length bns)) (v start)) by (split; [lia|done]).
  destruct (commit_prefix _ _ E) as [[_ [k' Ek]]|[_ [(w' & k' & Ew & Eh)|Ew]]].
  - left. unfold d. rewrite apply_writes_other; [done|]. intros x Hx.
    pose proof (wlog_dst v start 0 bns x) as Hd. rewrite Ek in Hd.
    specialize (Hd ltac:(apply elem_of_app; by left)). lia.
  - right. assert (Ed : d = h).
    { unfold d. rewrite Ew, !apply_writes_app. rewrite (homes_other v _ w' bns start k' Eh).
      - by rewrite apply_writes_one, upd_same.
      - intros Hs. apply (home_not_log start 0 Hs); [unfold LOGBLOCKS, MAXOPBLOCKS|]; lia. }
    rewrite Ed. unfold h. split; [by apply write_hdr_n|by apply write_hdr_blocks].
  - left. unfold d. rewrite Ew. unfold commit_writes. rewrite !apply_writes_app, apply_writes_one, upd_same.
    apply write_hdr_n. split; [unfold LOGBLOCKS, MAXOPBLOCKS; lia|by apply write_hdr_length].
Qed.
End crash.
