(* ===== verification/LogAtomic.v ===== *)
(** * LogAtomic: the theorems of the log

    [commit] as a sequence of disk writes, recovery from every prefix of
    them, and the reservation that keeps the log from overflowing. *)

From S2P Require Import Prelude Riscv Layout Sleeplock Bio BioSpec Log LogSpec.

Lemma apply_writes_size (w : list (Z * block)) d :
  (forall x, x ∈ w -> length x.2 = Z.to_nat BSIZE) -> (forall bn, length (d bn) = Z.to_nat BSIZE) ->
  forall bn, length (apply_writes w d bn) = Z.to_nat BSIZE.
Proof.
  revert d. induction w as [|[b x] w IH]; intros d Hw Hd bn; [done|]. rewrite apply_writes_cons. apply IH.
  - intros y Hy. apply Hw, elem_of_cons. by right.
  - intros y. rewrite upd_eq. destruct (decide (b = y)); [|done]. apply (Hw (b, x)), elem_of_cons. by left.
Qed.

Lemma commit_writes_size v start f bns :
  (forall bn, length (v bn) = Z.to_nat BSIZE) -> Z.of_nat (length bns) <= LOGBLOCKS ->
  forall x, x ∈ commit_writes v start f bns -> length x.2 = Z.to_nat BSIZE.
Proof.
  intros Hv Hlen x. unfold commit_writes. rewrite !elem_of_app, !list_elem_of_singleton.
  assert (Hh : length (write_hdr (Z.of_nat (length bns)) f (v start)) = Z.to_nat BSIZE)
    by (apply write_hdr_length; split; [lia|done]).
  intros [Hx|[->|[(b & -> & _)%list_elem_of_fmap| ->]]]; simpl; [|done|done|].
  - clear Hlen Hh. generalize dependent 0. intros i Hx. revert i Hx.
    induction bns as [|b bns IH]; intros i; simpl; [by intros ?%not_elem_of_nil|].
    intros [->|Hx]%elem_of_cons; [apply Hv|by eapply IH].
  - apply write_hdr_length. split; [unfold LOGBLOCKS, MAXOPBLOCKS; lia|done].
Qed.

Section commit.
Context {C : Type} `{BlockCache C} (dev pid : Z).
Hypothesis Hdev : dev <> 0.
Implicit Types (t : tctx) (s : log C) (a : acache).
Abbreviation lrep := (lrep dev pid).
Abbreviation crest := (crest dev pid).
Abbreviation runs := (runs pid).

Lemma lrep_out s a bns bn : lrep s a bns -> bn ∈ bns -> ~ in_log (lg_start s) bn.
Proof. intros R [i Hi]%list_elem_of_lookup. by apply (lr_entries _ _ _ _ _ R) in Hi as [_ ?]. Qed.

Lemma lrep_len s a bns : lrep s a bns -> Z.of_nat (length bns) <= LOGBLOCKS.
Proof. intros R. destruct (lr_entries _ _ _ _ _ R) as (_ & Hl & _). lia. Qed.

(** A block that is not in the log is the same in the cache and on disk. *)
Lemma lrep_clean s a bns bn : lrep s a bns -> bn ∉ bns -> a_view a bn = a_disk a bn.
Proof.
  intros R Hbn. eapply c_clean; [exact (ce_rep _ _ _ _ _ (lr_rest _ _ _ _ _ R))| |].
  - rewrite (lr_pins _ _ _ _ _ R). by rewrite decide_False.
  - eapply crest_unlocked, (lr_rest _ _ _ _ _ R).
Qed.

Lemma lrep_busy s a bns : lrep s a bns -> (length bns < Z.to_nat NBUF)%nat ->
  (size (list_to_set bns : gset Z) < Z.to_nat NBUF)%nat.
Proof. intros R Hl. by rewrite size_list_to_set by apply (lr_nodup _ _ _ _ _ R). Qed.

Lemma start_in_log start : in_log start start.
Proof. unfold in_log, LOGBLOCKS, MAXOPBLOCKS. lia. Qed.

(** The abstract cache after the writes of a commit. *)
Lemma commit_cache s a bns : lrep s a bns ->
  let v := a_view a in let start := lg_start s in let f := lg_block s in
  let a1 := with_writes (wlog v start 0 bns) a in
  let a2 := with_writes [(start, write_hdr (Z.of_nat (length bns)) f (a_view a1 start))] a1 in
  let a3 := with_writes (winst (a_view a2) start 0 bns) (unpin_all bns a2) in
  with_writes [(start, write_hdr 0 f (a_view a3 start))] a3 =
  with_writes (commit_writes v start f bns) (unpin_all bns a).
Proof.
  intros R v start f a1 a2 a3.
  assert (E1 : a_view a1 start = v start).
  { unfold a1. simpl. apply apply_writes_other. intros x Hx%wlog_dst. lia. }
  assert (Hn : forall bn, bn ∈ bns -> ~ in_log start bn) by (intros bn; by eapply lrep_out).
  assert (E3 : winst (a_view a2) start 0 bns = (fun bn => (bn, v bn)) <$> bns).
  { apply winst_homes. intros j bn Hj. unfold a2. simpl. rewrite apply_writes_one, upd_other by lia.
    by apply wlog_read. }
  assert (E4 : a_view a3 start = write_hdr (Z.of_nat (length bns)) f (v start)).
  { unfold a3. rewrite E3. simpl. rewrite apply_writes_other.
    - by rewrite apply_writes_one, upd_same, <-E1.
    - intros x (b & -> & Hb)%list_elem_of_fmap. simpl. intros ->. apply (Hn _ Hb), start_in_log. }
  rewrite E4. unfold a3. rewrite E3. unfold a2. rewrite E1. unfold a1, commit_writes.
  unfold with_writes, unpin_all, with_pins. cbn [a_view a_disk a_writes a_pins a_locked].
  by rewrite !apply_writes_app, <-!app_assoc.
Qed.
(** The state after a commit. *)
Lemma commit_lrep s s' a bns :
  lrep s a bns -> lg_start s' = lg_start s -> lg_n s' = 0 ->
  crest (list_to_set bns) s' (with_writes (commit_writes (a_view a) (lg_start s) (lg_block s) bns) (unpin_all bns a)) ->
  lrep s' (with_writes (commit_writes (a_view a) (lg_start s) (lg_block s) bns) (unpin_all bns a)) [].
Proof.
  intros R Es En [Rc Rd Rl Rp]. pose proof (lrep_len _ _ _ R) as Hlen.
  assert (Hpins : forall bn, a_pins (unpin_all bns a) bn = 0).
  { intros bn. simpl. rewrite unpin_all_pins by apply (lr_nodup _ _ _ _ _ R).
    rewrite (lr_pins _ _ _ _ _ R). by destruct (decide (bn ∈ bns)). }
  split.
  - split; try done. intros bn. cbn [a_pins with_writes]. rewrite Hpins. lia.
  - apply NoDup_nil_2.
  - done.
  - split_and!; [done|by unfold LOGBLOCKS, MAXOPBLOCKS|done].
  - done.
  - intros bn. rewrite decide_False by apply not_elem_of_nil. apply Hpins.
  - apply apply_writes_size; [apply commit_writes_size|]; try done; apply (lr_size _ _ _ _ _ R).
  - apply apply_writes_size; [apply commit_writes_size|]; try done;
      [apply (lr_size _ _ _ _ _ R)|apply (lr_disk_size _ _ _ _ _ R)].
  - rewrite Es. cbn [a_disk with_writes unpin_all with_pins]. unfold commit_writes. rewrite !apply_writes_app, apply_writes_one, upd_same.
    apply write_hdr_n. split; [unfold LOGBLOCKS, MAXOPBLOCKS; lia|].
    apply write_hdr_length. split; [lia|apply (lr_size _ _ _ _ _ R)].
Qed.

Lemma commit_wp t s a bns :
  lrep s a bns -> runs t -> (0 < length bns < Z.to_nat NBUF)%nat ->
  wp commit (fun _ t' s' => quiet t t' /\ lg_start s' = lg_start s /\
    lrep s' (with_writes (commit_writes (a_view a) (lg_start s) (lg_block s) bns) (unpin_all bns a)) []) t s.
Proof using Hdev.
  intros R Hrun Hlen. pose proof (lrep_busy _ _ _ R ltac:(lia)) as HP.
  pose proof (lr_n _ _ _ _ _ R) as En. pose proof (lr_rest _ _ _ _ _ R) as R0.
  pose proof (lr_entries _ _ _ _ _ R) as He.
  unfold commit. apply wp_bind, wp_get. rewrite En, (proj2 (Z.ltb_lt _ _)) by lia.
  apply wp_bind. unfold write_log. apply wp_bind, wp_get. rewrite En, Nat2Z.id. eapply wp_mono.
  { eapply (write_log_loop_wp dev pid Hdev); eauto. intros bn Hbn.
    rewrite (lr_pins _ _ _ _ _ R), decide_True by done. lia. }
  intros _ t1 s1 (Q1 & [c1 ->] & R1). pose proof (runs_quiet _ _ _ Q1 Hrun) as Hrun1.
  apply wp_bind. eapply wp_mono; [eapply (write_head_wp dev pid Hdev); eauto|].
  cbn [lg_start lg_n lg_block set_cache]. rewrite En.
  intros _ t2 s2 (Q2 & [c2 ->] & R2). pose proof (runs_quiet _ _ _ Q2 Hrun1) as Hrun2.
  apply wp_bind. unfold install_trans. apply wp_bind, wp_get. cbn [lg_n set_cache]. rewrite En, Nat2Z.id.
  eapply wp_mono.
  { eapply (install_loop_wp dev pid Hdev false); eauto. split.
    - intros bn Hbn. cbn [a_pins with_writes]. rewrite (lr_pins _ _ _ _ _ R).
      rewrite decide_False; [done|]. intros Hin. by eapply lrep_out.
    - split; [apply (lr_nodup _ _ _ _ _ R)|]. intros bn Hbn. cbn [a_pins with_writes].
      rewrite (lr_pins _ _ _ _ _ R), decide_True by done. lia. }
  intros _ t3 s3 (Q3 & [c3 ->] & R3). pose proof (runs_quiet _ _ _ Q3 Hrun2) as Hrun3.
  apply wp_bind, wp_modify. eapply wp_mono.
  { eapply (write_head_wp dev pid Hdev (list_to_set bns)); [|done|done]. destruct R3 as [? ? ? ?]. split; done. }
  cbn [lg_start lg_n lg_block set_cache set_n]. rewrite (commit_cache _ _ _ R).
  intros _ t4 s4 (Q4 & [c4 ->] & R4). split_and!; [by do 3 etrans|done|].
  by apply commit_lrep.
Qed.
(** ** Recovery *)

(** A disk whose log can be recovered. *)
Definition recoverable (start : Z) (d : Z -> block) : Prop :=
  (forall bn, length (d bn) = Z.to_nat BSIZE) /\ hdr_n (d start) <= LOGBLOCKS /\
  forall bn, bn ∈ hdr_blocks (d start) -> ~ in_log start bn.

Lemma hdr_entries s s' d start :
  recoverable start d -> lg_start s' = start -> lg_n s' = hdr_n (d start) ->
  (forall j, 0 <= j < lg_n s' -> lg_block s' j = hdr_block (d start) j) ->
  entries s' 0 (hdr_blocks (d start)) /\ Z.to_nat (lg_n s') = length (hdr_blocks (d start)).
Proof.
  intros (_ & Hn & Hout) Es En Hb. unfold entries. rewrite Es.
  assert (Hl : length (hdr_blocks (d start)) = Z.to_nat (lg_n s')).
  { unfold hdr_blocks. by rewrite length_fmap, length_seqZ, En. }
  split; [|done]. split_and!; [done|rewrite Hl; unfold LOGBLOCKS, MAXOPBLOCKS in *; lia|].
  intros i bn Hi. pose proof (lookup_lt_Some _ _ _ Hi) as Hlt. split.
  - unfold hdr_blocks in Hi. rewrite list_lookup_fmap, lookup_seqZ_lt in Hi by lia. simplify_eq/=.
    rewrite Hb by lia. done.
  - apply Hout. by eapply list_elem_of_lookup_2.
Qed.

Lemma winst_size v start bns : (forall bn, length (v bn) = Z.to_nat BSIZE) ->
  forall i (x : Z * block), x ∈ winst v start i bns -> length x.2 = Z.to_nat BSIZE.
Proof.
  intros Hv. induction bns as [|b bns IH]; intros i x; simpl; [by intros ?%not_elem_of_nil|].
  intros [->|Hx]%elem_of_cons; [apply Hv|by eapply IH].
Qed.

Lemma room_empty : (size (∅ : gset Z) + 1 < Z.to_nat NBUF)%nat.
Proof. rewrite size_empty. unfold NBUF, MAXOPBLOCKS. lia. Qed.

Lemma recover_from_log_wp t s a :
  crest ∅ s a -> runs t -> (forall bn, a_pins a bn = 0) -> recoverable (lg_start s) (a_view a) ->
  wp recover_from_log (fun _ t' s' => quiet t t' /\ lg_start s' = lg_start s /\ exists a',
    lrep s' a' [] /\ forall bn, ~ in_log (lg_start s) bn ->
      a_disk a' bn = recovered (lg_start s) (a_disk a) bn) t s.
Proof using Hdev.
  intros R Hrun Hp Hd. pose proof Hd as (Hsz & Hn & Hout).
  assert (Hclean : forall bn, a_view a bn = a_disk a bn).
  { intros bn. eapply c_clean; [apply (ce_rep _ _ _ _ _ R)|done|by eapply crest_unlocked]. }
  unfold recover_from_log. apply wp_bind. pose proof room_empty as Hroom. eapply wp_mono.
  { eapply (read_head_wp dev pid Hdev ∅); [done|done|lia|done|done]. }
  intros _ t1 s1 (Q1 & Es1 & R1 & En1 & Hb1). pose proof (runs_quiet _ _ _ Q1 Hrun) as Hrun1.
  destruct (hdr_entries s s1 (a_view a) (lg_start s) Hd Es1 En1 Hb1) as [He Hlen].
  apply wp_bind. unfold install_trans. apply wp_bind, wp_get. rewrite Hlen. eapply wp_mono.
  { eapply (install_loop_wp dev pid Hdev true ∅); eauto; [lia|].
    split; [done|]. by split. }
  rewrite Es1. intros _ t2 s2 (Q2 & [c2 ->] & R2). pose proof (runs_quiet _ _ _ Q2 Hrun1) as Hrun2.
  apply wp_bind, wp_modify. eapply wp_mono.
  { eapply (write_head_wp dev pid Hdev ∅); [|done|lia]. destruct R2. by split. }
  cbn [lg_start lg_n lg_block set_cache set_n]. rewrite Es1.
  intros _ t3 s3 (Q3 & [c3 ->] & R3). split_and!; [by do 2 etrans|done|].
  set (a2 := with_writes (winst _ _ _ _) _) in R3 |- *.
  assert (Hsz2 : forall bn, length (a_view a2 bn) = Z.to_nat BSIZE).
  { apply apply_writes_size; [by apply winst_size|done]. }
  assert (Hok : hdr_ok 0 (a_view a2 (lg_start s))) by (split; [by unfold LOGBLOCKS, MAXOPBLOCKS|done]).
  eexists. split.
  - split; [exact R3|apply NoDup_nil_2|done| |done| | | |].
    + split_and!; [done|by unfold LOGBLOCKS, MAXOPBLOCKS|done].
    + intros bn. rewrite decide_False by apply not_elem_of_nil. apply Hp.
    + apply apply_writes_size; [|done]. intros x ->%list_elem_of_singleton. by apply write_hdr_length.
    + apply apply_writes_size; [intros x ->%list_elem_of_singleton; by apply write_hdr_length|].
      apply apply_writes_size; [by apply winst_size|]. intros bn. cbn [a_disk unpin_all with_pins]. by rewrite <-Hclean.
    + cbn [a_disk with_writes lg_start set_cache set_n]. rewrite Es1, apply_writes_one, upd_same. by apply write_hdr_n.
  - intros bn Hbn. unfold a2. cbn [a_disk with_writes unpin_all with_pins].
    rewrite apply_writes_one, upd_other by (intros <-; apply Hbn, start_in_log).
    unfold recovered. by rewrite <-Hclean, (winst_ext (a_view a) (a_disk a)) by done.
Qed.
(** ** Crashes *)

Lemma apply_writes_ext w d d' : (forall bn, d bn = d' bn) -> forall bn, apply_writes w d bn = apply_writes w d' bn.
Proof.
  revert d d'. induction w as [|[b x] w IH]; intros d d' Hd bn; [apply Hd|]. rewrite !apply_writes_cons.
  apply IH. intros y. rewrite !upd_eq. by destruct (decide (b = y)).
Qed.

Lemma recovered_ext start d d' : (forall bn, d bn = d' bn) -> forall bn, recovered start d bn = recovered start d' bn.
Proof.
  intros Hd bn. unfold recovered. rewrite Hd, (winst_ext d d') by (intros; apply Hd). by apply apply_writes_ext.
Qed.

Lemma recoverable_ext start d d' : (forall bn, d bn = d' bn) -> recoverable start d -> recoverable start d'.
Proof.
  intros Hd (Hs & Hn & Hb). unfold recoverable. rewrite <-Hd. split_and!; try done. intros bn. by rewrite <-Hd.
Qed.

(** What a crash during a commit leaves can be recovered, to the disk before
    it or to the cache before it. *)
Lemma crash_recovered s a bns w k :
  lrep s a bns -> commit_writes (a_view a) (lg_start s) (lg_block s) bns = w ++ k ->
  forall bn, ~ in_log (lg_start s) bn ->
  recovered (lg_start s) (apply_writes w (a_disk a)) bn =
  if (length w <=? length bns)%nat then a_disk a bn else a_view a bn.
Proof.
  intros R Ew bn Hbn. pose proof (lrep_len _ _ _ R) as Hlen.
  assert (Hv : (if decide (bn ∈ bns) then a_view a bn else a_disk a bn) = a_view a bn).
  { destruct (decide (bn ∈ bns)); [done|]. symmetry. by eapply lrep_clean. }
  destruct R as [R Hnd En He Hl Hp Hsz Hds H0].
  assert (Hout : forall bn, bn ∈ bns -> ~ in_log (lg_start s) bn)
    by (intros x [i Hi]%list_elem_of_lookup; by apply He in Hi as [_ ?]).
  destruct (commit_prefix (a_view a) (a_disk a) (lg_start s) (lg_block s) bns Hnd Hout Hlen Hl (Hsz _) H0 _ _ Ew)
    as [[Hw [k' E]]|[Hw [(w' & k' & -> & E)| ->]]].
  - rewrite (proj2 (Nat.leb_le _ _)) by done. by eapply crash_early.
  - rewrite (proj2 (Nat.leb_gt _ _)), <-Hv by done. by eapply crash_late.
  - rewrite (proj2 (Nat.leb_gt _ _)), <-Hv by done. edestruct crash_done as [-> ->]; done.
Qed.

Lemma crash_recoverable s a bns w k :
  lrep s a bns -> commit_writes (a_view a) (lg_start s) (lg_block s) bns = w ++ k ->
  recoverable (lg_start s) (apply_writes w (a_disk a)).
Proof.
  intros R Ew. pose proof (lrep_len _ _ _ R) as Hlen.
  assert (Hout : forall bn, bn ∈ bns -> ~ in_log (lg_start s) bn) by (intros bn; by eapply lrep_out).
  destruct R as [R Hnd En He Hl Hp Hsz Hds H0]. split_and!.
  - apply apply_writes_size; [|done]. intros x Hx.
    eapply commit_writes_size; [exact Hsz|exact Hlen|]. erewrite Ew. apply elem_of_app. by left.
  - destruct (crash_header (a_view a) (a_disk a) (lg_start s) (lg_block s) bns Hnd Hout Hlen Hl (Hsz _) H0 _ _ Ew)
      as [->|[-> _]]; [by unfold LOGBLOCKS, MAXOPBLOCKS|done].
  - destruct (crash_header (a_view a) (a_disk a) (lg_start s) (lg_block s) bns Hnd Hout Hlen Hl (Hsz _) H0 _ _ Ew)
      as [E|[_ ->]]; [|done]. rewrite hdr_blocks_nil by done. by intros bn ?%not_elem_of_nil.
Qed.

(** A commit brings every home up to date. *)
Lemma commit_installs s a bns bn :
  lrep s a bns -> ~ in_log (lg_start s) bn ->
  apply_writes (commit_writes (a_view a) (lg_start s) (lg_block s) bns) (a_disk a) bn = a_view a bn.
Proof.
  intros R Hbn. pose proof (lrep_len _ _ _ R) as Hlen.
  assert (Hout : forall bn, bn ∈ bns -> ~ in_log (lg_start s) bn) by (intros x; by eapply lrep_out).
  assert (Hv : bn ∉ bns -> a_view a bn = a_disk a bn) by (intros; by eapply lrep_clean).
  destruct R as [R Hnd En He Hl Hp Hsz Hds H0].
  edestruct crash_done as [_ ->]; try done. destruct (decide (bn ∈ bns)); [done|]. symmetry. by apply Hv.
Qed.

(** A machine that boots with the disk [d]: a cache that holds nothing. *)
Definition booted (d : Z -> block) (start : Z) (t : tctx) (s : log C) : Prop :=
  runs t /\ lg_start s = start /\ exists a, crest ∅ s a /\
  (forall bn, a_pins a bn = 0) /\ forall bn, a_disk a bn = d bn.

Lemma recover_booted d start t s :
  booted d start t s -> recoverable start d ->
  wp recover_from_log (fun _ _ s' => exists a', lrep s' a' [] /\
    forall bn, ~ in_log start bn -> a_disk a' bn = recovered start d bn /\ a_view a' bn = recovered start d bn) t s.
Proof using Hdev.
  intros (Hrun & <- & a & R & Hp & Hd) Hrec.
  assert (Hclean : forall bn, d bn = a_view a bn).
  { intros bn. rewrite <-Hd. symmetry. eapply c_clean; [apply (ce_rep _ _ _ _ _ R)|done|by eapply crest_unlocked]. }
  eapply wp_mono; [apply recover_from_log_wp; eauto using recoverable_ext|].
  intros _ t' s' (_ & _ & a' & R' & Ha'). exists a'. split; [done|]. intros bn Hbn.
  rewrite (lrep_clean _ _ _ bn R') by apply not_elem_of_nil. rewrite (Ha' bn Hbn).
  by rewrite (recovered_ext _ _ d).
Qed.
End commit.

(** ** Inside a transaction *)

Section ops.
Context {C : Type} `{BlockCache C} (dev pid : Z).
Hypothesis Hdev : dev <> 0.
Implicit Types (t : tctx) (s : log C) (a : acache).

(** The log while operations run: as [lrep], but buffers may be locked and
    hold contents the disk does not have. *)
Record lops (s : log C) (a : acache) (bns : list Z) : Prop := {
  lo_rep : c_rep dev pid (lg_cache s) a;
  lo_nodup : NoDup bns;
  lo_n : lg_n s = Z.of_nat (length bns);
  lo_entries : entries s 0 bns;
  lo_logged : logged (lg_block s) bns;
  lo_pins : forall bn, a_pins a bn = if decide (bn ∈ bns) then 1 else 0
}.

Lemma find_logged_spec s bn bns : forall k i,
  (forall j x, bns !! j = Some x -> lg_block s (i + Z.of_nat j) = x /\ 0 <= x < 2 ^ 31) -> k = length bns ->
  (exists j, find_logged s bn i k = i + Z.of_nat j /\ bns !! j = Some bn) \/
  find_logged s bn i k = i + Z.of_nat (length bns) /\ bn ∉ bns.
Proof.
  induction bns as [|b bns IH]; intros k i Hb ->; cbn [length find_logged].
  { right. split; [lia|apply not_elem_of_nil]. }
  destruct (Hb 0%nat b eq_refl) as [E Hr]. rewrite Z.add_0_r in E. rewrite E. unfold u32. rewrite Z.mod_small by lia.
  destruct (b =? bn) eqn:Ebn.
  { apply Z.eqb_eq in Ebn as ->. left. exists 0%nat. split; [lia|done]. }
  apply Z.eqb_neq in Ebn. destruct (IH (length bns) (i + 1)) as [(j & -> & Hj)|[-> Hni]]; [|done| |].
  - intros j x Hj. destruct (Hb (S j) x Hj) as [<- ?]. split; [f_equal; lia|done].
  - left. exists (S j). split; [lia|done].
  - right. split; [lia|]. apply not_elem_of_cons. by split.
Qed.

(** What stays the same in the log during an operation. *)
Definition same_tx (s s' : log C) : Prop :=
  lg_start s' = lg_start s /\ lg_outstanding s' = lg_outstanding s /\ lg_dev s' = lg_dev s /\
  lg_committing s' = lg_committing s.

#[global] Instance same_tx_preorder : PreOrder same_tx.
Proof. split; [done|]. intros ??? (?&?&?&?) (?&?&?&?). unfold same_tx. split_and!; congruence. Qed.

(** The header with [bn] added, if it was not there. *)
Definition add_block (bn : Z) (bns : list Z) : list Z := if decide (bn ∈ bns) then bns else bns ++ [bn].

(** Logging a block again changes nothing. *)
Lemma lops_absorb s a bns j bn :
  lops s a bns -> bns !! j = Some bn -> lops (set_block (Z.of_nat j) bn s) a bns.
Proof.
  intros [Rc Hnd En He Hlg Hp] Hj. destruct (Hlg _ _ Hj) as [E _].
  assert (Eb : forall i, lg_block (set_block (Z.of_nat j) bn s) i = lg_block s i).
  { intros i. simpl. rewrite upd_eq. destruct (decide (Z.of_nat j = i)) as [<-|]; done. }
  split; try done.
  - destruct He as (? & ? & He). split; [done|split; [done|]]. intros i x Hi. rewrite Eb. by apply He.
  - intros i x Hi. rewrite Eb. by apply Hlg.
Qed.

(** A new block goes to the end. *)
Lemma lops_append s c a bns bn :
  lops s a bns -> bn ∉ bns -> ~ in_log (lg_start s) bn -> 0 <= bn < 2 ^ 31 ->
  Z.of_nat (length bns) < LOGBLOCKS -> c_rep dev pid c (with_pins (fun p => <[bn := p bn + 1]> p) a) ->
  lops (set_n (Z.of_nat (length bns) + 1) (set_cache c (set_block (Z.of_nat (length bns)) bn s)))
    (with_pins (fun p => <[bn := p bn + 1]> p) a) (bns ++ [bn]).
Proof.
  intros [Rc Hnd En He Hlg Hp] Hni Hout Hbn Hlen R1.
  assert (Eb : forall i x, (bns ++ [bn]) !! i = Some x ->
    (<[Z.of_nat (length bns) := bn]> (lg_block s)) (Z.of_nat i) = x /\ (bns !! i = Some x \/ x = bn)).
  { intros i x Hi. apply lookup_app_Some in Hi as [Hi|[Hge Hi]].
    - pose proof (lookup_lt_Some _ _ _ Hi). rewrite upd_other by lia. split; [by apply Hlg|by left].
    - apply list_lookup_singleton_Some in Hi as [Ei <-]. rewrite upd_eq, decide_True by lia. split; [done|by right]. }
  split.
  - exact R1.
  - apply NoDup_app. split_and!; [done| |apply NoDup_singleton]. intros x Hx ->%list_elem_of_singleton. done.
  - rewrite length_app. simpl. lia.
  - split; [done|split; [rewrite length_app; simpl; lia|]]. intros i x Hi. rewrite Z.add_0_l.
    cbn [lg_block set_n set_block set_cache lg_start].
    destruct (Eb i x Hi) as [E [Hi'| ->]]; (split; [exact E|]); [|done].
    destruct He as (_ & _ & He). by apply (He i).
  - intros i x Hi. cbn [lg_block set_n set_block set_cache].
    destruct (Eb i x Hi) as [E [Hi'| ->]]; (split; [exact E|]); [by apply (Hlg i)|done].
  - intros x. cbn [a_pins with_pins]. rewrite upd_eq, !Hp. destruct (decide (bn = x)) as [<-|Hne].
    + rewrite decide_False by done. rewrite decide_True; [done|]. apply elem_of_app. right. by apply list_elem_of_singleton.
    + destruct (decide (x ∈ bns)); [rewrite decide_True|rewrite decide_False]; try done; rewrite elem_of_app; [by left|].
      rewrite list_elem_of_singleton. naive_solver.
Qed.

Lemma log_write_wp t s a bns b bn :
  lops s a bns -> log_lock ∉ t_held t -> bcache_lock ∉ t_held t -> a_locked a !! b = Some bn ->
  ~ in_log (lg_start s) bn -> 0 <= bn < 2 ^ 31 ->
  Z.of_nat (length bns) < LOGBLOCKS -> 1 <= lg_outstanding s ->
  wp (log_write b) (fun _ t' s' => t' = t /\ same_tx s s' /\
    lops s' (if decide (bn ∈ bns) then a else with_pins (fun p => <[bn := p bn + 1]> p) a) (add_block bn bns)) t s.
Proof using Hdev.
  intros R Hl Hc Hb Hout Hbn Hlen Ho. pose proof R as [Rc Hnd En He Hlg Hp].
  unfold log_write. apply wp_bind, wp_acquire; [done|]. apply wp_bind, wp_get.
  rewrite (proj2 (Z.leb_gt _ _)), (proj2 (Z.ltb_ge _ _)) by lia.
  apply wp_bind. unfold blockno. apply wp_zoom. eapply wp_done; [by eapply c_blockno_spec|].
  rewrite En, Nat2Z.id. rewrite i32_id by lia. unfold add_block.
  replace (set_cache (lg_cache s) s) with s by by destruct s.
  destruct (find_logged_spec s bn bns (length bns) 0) as [(j & -> & Hj)|[-> Hni]]; [|done| |].
  { intros j x Hj. apply (Hlg _ _ Hj). }
  - assert (Hin : bn ∈ bns) by (by eapply list_elem_of_lookup_2). rewrite !(decide_True _ _ Hin).
    pose proof (lookup_lt_Some _ _ _ Hj). rewrite Z.add_0_l.
    apply wp_bind, wp_modify, wp_bind. rewrite (proj2 (Z.eqb_neq _ _)) by lia. apply wp_ret, wp_release.
    split_and!; try done. by apply lops_absorb.
  - rewrite !(decide_False _ _ Hni), Z.add_0_l. apply wp_bind, wp_modify, wp_bind. rewrite Z.eqb_refl.
    apply wp_bind. eapply wp_cache.
    { eapply (c_bpin_spec dev pid _ _ a b bn); eauto.
      - simpl. rewrite not_elem_of_cons. split; [done|]. exact Hc.
      - rewrite Hp, decide_False by done. lia. }
    intros _ ? c (-> & R1). apply wp_modify, wp_release. split_and!; try done. by apply lops_append.
Qed.
End ops.
