(* ===== verification/LogReserve.v ===== *)
(** * LogReserve: the reservation of [begin_op]

    Operations of several processes run at once, each allowed to log
    MAXOPBLOCKS blocks.  [begin_op] admits an operation only when the log has
    room for all of them, so [log_write] never finds it full. *)

From S2P Require Import Prelude Riscv Layout Sleeplock Bio BioSpec Log LogSpec LogAtomic.

Section reserve.
Context {C : Type} `{BlockCache C}.
Implicit Types (t : tctx) (s : log C).

(** A function that, when it returns, has changed only the cache. *)
Definition keeps {A} (m : M (log C) A) : Prop :=
  forall t s x t' s', m t s = Done x t' s' -> cache_only s s'.

Lemma keeps_ret {A} (x : A) : keeps (mret x).
Proof. intros t s y t' s' E. unfold mret, M_ret in E. simplify_eq. by exists (lg_cache s'); destruct s'. Qed.

Lemma keeps_bind {A B} (m : M (log C) A) (f : A -> M (log C) B) :
  keeps m -> (forall x, keeps (f x)) -> keeps (m ≫= f).
Proof.
  intros Hm Hf t s y t' s' (x & t1 & s1 & E1 & E2)%bind_inv.
  apply Hm in E1 as [c1 ->]. apply Hf in E2 as [c2 ->]. by exists c2.
Qed.

Lemma keeps_cz {A} (m : M C A) : keeps (cz m).
Proof.
  intros t s x t' s' E. unfold cz, zoom in E. destruct (m t (lg_cache s)); simplify_eq/=. by eexists.
Qed.

Lemma keeps_get : keeps get.
Proof. intros t s x t' s' E. unfold get in E. simplify_eq. by exists (lg_cache s'); destruct s'. Qed.

Lemma keeps_printf msg : keeps (printf msg).
Proof. intros t s x t' s' E. unfold printf in E. simplify_eq. by exists (lg_cache s'); destruct s'. Qed.

#[local] Create HintDb keeps.
#[local] Hint Resolve keeps_ret keeps_bind keeps_cz keeps_get keeps_printf : keeps.

Lemma keeps_write_log : keeps write_log.
Proof.
  unfold write_log. apply keeps_bind; [apply keeps_get|]. intros s. generalize 0.
  induction (Z.to_nat (lg_n s)) as [|k IH]; intros i; cbn [write_log_loop]; [auto with keeps|].
  apply keeps_bind; [|done]. unfold write_log_block, bread, bwrite, brelse, data, set_data. eauto 12 with keeps.
Qed.

Lemma keeps_install recovering : keeps (install_trans recovering).
Proof.
  unfold install_trans. apply keeps_bind; [apply keeps_get|]. intros s. generalize 0.
  induction (Z.to_nat (lg_n s)) as [|k IH]; intros i; cbn [install_loop]; [auto with keeps|].
  apply keeps_bind; [|done]. unfold install_block, bread, bwrite, brelse, bunpin, data, set_data.
  destruct recovering; eauto 14 with keeps.
Qed.

Lemma keeps_write_head : keeps write_head.
Proof. unfold write_head, bread, bwrite, brelse, data, set_data. eauto 12 with keeps. Qed.

(** A commit that returns leaves the log empty. *)
Lemma commit_empties t s t' s' :
  commit t s = Done tt t' s' -> 0 <= lg_n s -> lg_n s' = 0 /\ lg_outstanding s' = lg_outstanding s.
Proof.
  unfold commit. intros (? & ? & ? & E0 & E)%bind_inv Hn. unfold get in E0. simplify_eq.
  destruct (0 <? lg_n _) eqn:E0.
  - apply bind_inv in E as (? & ? & ? & E1 & E). apply keeps_write_log in E1 as [c1 ->].
    apply bind_inv in E as (? & ? & ? & E2 & E). apply keeps_write_head in E2 as [c2 ->].
    apply bind_inv in E as (? & ? & ? & E3 & E). apply keeps_install in E3 as [c3 ->].
    apply bind_inv in E as (? & ? & ? & E4 & E). unfold modify in E4. simplify_eq.
    apply keeps_write_head in E as [c4 ->]. done.
  - unfold mret, M_ret in E. simplify_eq. split; [lia|done].
Qed.

Lemma acquire_inv (l : lockid) t s x t' s' : acquire l t s = Done x t' s' -> s' = s.
Proof. unfold acquire. destruct (decide _); congruence. Qed.

Lemma release_inv (l : lockid) t s x t' s' : release l t s = Done x t' s' -> s' = s.
Proof. unfold release. destruct (decide _); congruence. Qed.

Lemma wakeup_inv c t s x t' s' : wakeup c t s = Done x t' s' -> s' = s.
Proof. unfold wakeup. destruct (decide _); congruence. Qed.

(** [log_write] adds at most one block. *)
Lemma log_write_count b t s x t' s' :
  log_write b t s = Done x t' s' -> lg_outstanding s' = lg_outstanding s /\ lg_n s <= lg_n s' <= lg_n s + 1.
Proof.
  unfold log_write. intros (? & ? & ? & E0%acquire_inv & E)%bind_inv.
  apply bind_inv in E as (? & ? & ? & E1 & E). unfold get in E1. simplify_eq.
  destruct (LOGBLOCKS <=? _); [done|]. destruct (_ <? 1); [done|].
  apply bind_inv in E as (bn & ? & ? & E1 & E). apply keeps_cz in E1 as [c1 ->].
  apply bind_inv in E as (? & ? & ? & E1 & E). unfold modify in E1. simplify_eq.
  apply bind_inv in E as (? & ? & ? & E1 & E). apply release_inv in E as ->.
  destruct (_ =? _) in E1.
  - apply bind_inv in E1 as (? & ? & ? & E2 & E1). apply keeps_cz in E2 as [c2 ->].
    unfold modify in E1. simplify_eq. simpl. lia.
  - unfold mret, M_ret in E1. simplify_eq. simpl. lia.
Qed.

Lemma begin_op_count t s x t' s' :
  begin_op t s = Done x t' s' ->
  lg_n s' = lg_n s /\ lg_outstanding s' = lg_outstanding s + 1 /\
  lg_n s + (lg_outstanding s + 1) * MAXOPBLOCKS <= LOGBLOCKS.
Proof.
  unfold begin_op. intros (? & t1 & ? & E0%acquire_inv & E)%bind_inv. subst.
  apply bind_inv in E as (? & t2 & s2 & E1 & E).
  apply bind_inv in E as (? & ? & ? & E2 & E). unfold modify in E2. simplify_eq. apply release_inv in E as ->.
  unfold wait_while in E1. destruct (begin_must_wait s) eqn:Ew.
  - exfalso. destruct (t_patience t1) as [|n]; cbn [wait_loop] in E1; rewrite Ew in E1; [done|].
    revert E1. unfold sleep, mbind, M_bind. simpl. unfold acquire at 1. destruct (decide _); [done|]. simpl.
    unfold release at 1. destruct (decide _); [|done]. simpl. unfold switch. by destruct (decide _).
  - assert (E2 : s2 = s) by (destruct (t_patience t1); cbn [wait_loop] in E1; rewrite Ew in E1; by simplify_eq).
    subst s2. simpl. unfold begin_must_wait in Ew. apply orb_false_iff in Ew as [_ Ew]. apply Z.ltb_ge in Ew. lia.
Qed.

Lemma end_op_count t s x t' s' :
  end_op t s = Done x t' s' -> 0 <= lg_n s ->
  lg_outstanding s' = lg_outstanding s - 1 /\ (lg_n s' = lg_n s \/ lg_n s' = 0).
Proof.
  unfold end_op. intros (? & ? & ? & E0%acquire_inv & E)%bind_inv Hn. subst.
  apply bind_inv in E as (? & ? & ? & E1 & E). unfold modify in E1. simplify_eq.
  apply bind_inv in E as (? & ? & ? & E1 & E). unfold get in E1. simplify_eq. simpl in E.
  apply bind_inv in E as (? & ? & ? & E1 & E). destruct (nz _); [done|]. unfold mret, M_ret in E1. simplify_eq.
  apply bind_inv in E as (dc & ? & s3 & E1 & E). apply bind_inv in E as (? & ? & ? & E2%release_inv & E). subst.
  destruct (_ =? 0).
  - apply bind_inv in E1 as (? & ? & ? & E2 & E1). unfold modify, mret, M_ret in *. simplify_eq.
    apply bind_inv in E as ([] & ? & ? & E1 & E). apply commit_empties in E1 as [E1 E2]; [|done].
    apply bind_inv in E as (? & ? & ? & E0%acquire_inv & E). subst.
    apply bind_inv in E as (? & ? & ? & E3 & E). unfold modify in E3. simplify_eq.
    apply bind_inv in E as (? & ? & ? & E3%wakeup_inv & E). subst.
    apply release_inv in E as ->. simpl. rewrite E1, E2. simpl. lia.
  - apply bind_inv in E1 as (? & ? & ? & E2%wakeup_inv & E1). unfold mret, M_ret in *. simplify_eq. simpl. lia.
Qed.

(** ** Interleavings

    The operations in progress, each with the number of blocks it may still
    log; an operation starts, logs a block, or ends. *)
Inductive runs_ops : log C -> list Z -> Prop :=
| ro_idle s : 0 <= lg_n s <= LOGBLOCKS -> lg_outstanding s = 0 -> runs_ops s []
| ro_begin s ops t t' s' :
    runs_ops s ops -> begin_op t s = Done tt t' s' -> runs_ops s' (MAXOPBLOCKS :: ops)
| ro_write s ops1 k ops2 b t t' s' :
    runs_ops s (ops1 ++ k :: ops2) -> 0 < k -> log_write b t s = Done tt t' s' ->
    runs_ops s' (ops1 ++ (k - 1) :: ops2)
| ro_end s ops1 k ops2 t t' s' :
    runs_ops s (ops1 ++ k :: ops2) -> end_op t s = Done tt t' s' -> runs_ops s' (ops1 ++ ops2).

Definition reserved (s : log C) (ops : list Z) : Prop :=
  Forall (fun k => 0 <= k <= MAXOPBLOCKS) ops /\ 0 <= lg_n s /\
  lg_outstanding s = Z.of_nat (length ops) /\ lg_n s + foldr Z.add 0 ops <= LOGBLOCKS.

Lemma sum_app l1 k l2 : foldr Z.add 0 (l1 ++ k :: l2) = k + foldr Z.add 0 (l1 ++ l2).
Proof. induction l1 as [|x l1 IH]; simpl; [done|]. rewrite IH. lia. Qed.

Lemma sum_bound l : Forall (fun k => 0 <= k <= MAXOPBLOCKS) l ->
  0 <= foldr Z.add 0 l <= Z.of_nat (length l) * MAXOPBLOCKS.
Proof. induction 1 as [|x l Hx _ IH]; cbn [foldr length]; lia. Qed.

Lemma runs_ops_reserved s ops : runs_ops s ops -> reserved s ops.
Proof.
  induction 1 as [s Hn Ho|s ops t t' s' _ (Hf & Hn & Ho & Hs) E|
    s ops1 k ops2 b t t' s' _ (Hf & Hn & Ho & Hs) Hk E|s ops1 k ops2 t t' s' _ (Hf & Hn & Ho & Hs) E].
  - split; [constructor|]. simpl. lia.
  - apply begin_op_count in E as (En & Eo & Hr). pose proof (sum_bound _ Hf).
    split_and!; [constructor; [|done]; unfold MAXOPBLOCKS; lia|lia|simpl; lia|simpl; lia].
  - apply log_write_count in E as (Eo & En). apply Forall_app in Hf as [Hf1 [Hfk Hf2]%Forall_cons].
    rewrite sum_app in Hs. rewrite length_app in Ho. simpl in Ho.
    split_and!; [apply Forall_app; split; [done|constructor; [lia|done]]|lia|rewrite length_app; simpl; lia|].
    rewrite sum_app. lia.
  - apply end_op_count in E as (Eo & En); [|done]. apply Forall_app in Hf as [Hf1 [Hfk Hf2]%Forall_cons].
    rewrite sum_app in Hs. rewrite length_app in Ho. simpl in Ho.
    assert (Hf : Forall (fun k => 0 <= k <= MAXOPBLOCKS) (ops1 ++ ops2)) by by apply Forall_app.
    pose proof (sum_bound _ Hf). split_and!; [done|lia|rewrite length_app; lia|lia].
Qed.

(** C15: The reservation of [begin_op] is sound.  However the operations of
    different processes are interleaved, as long as each logs at most
    MAXOPBLOCKS blocks, [log_write] does not find the log full or itself
    outside a transaction; it returns with the block in the header, pinned,
    and in the header once however often it is logged. *)
Theorem log_write_never_overflows (s : log C) (ops : list Z) (b : Z) (t : tctx) :
  runs_ops s ops -> Exists (fun k => 0 < k) ops ->
  (lg_n s < LOGBLOCKS /\ 1 <= lg_outstanding s) /\
  forall dev pid a bns bn, dev <> 0 -> lops dev pid s a bns -> a_locked a !! b = Some bn ->
    log_lock ∉ t_held t -> bcache_lock ∉ t_held t -> ~ in_log (lg_start s) bn -> 0 <= bn < 2 ^ 31 ->
    wp (log_write b) (fun _ t' s' => t' = t /\
      lops dev pid s' (if decide (bn ∈ bns) then a else with_pins (fun p => <[bn := p bn + 1]> p) a)
        (add_block bn bns)) t s.
Proof.
  intros (Hf & Hn & Ho & Hs)%runs_ops_reserved (k & Hk & Hpos)%Exists_exists.
  assert (Hr : lg_n s < LOGBLOCKS /\ 1 <= lg_outstanding s).
  { apply list_elem_of_split in Hk as (l1 & l2 & ->). rewrite sum_app in Hs.
    apply Forall_app in Hf as [Hf1 [_ Hf2]%Forall_cons].
    pose proof (sum_bound (l1 ++ l2) ltac:(by apply Forall_app)). rewrite length_app in Ho. simpl in Ho. lia. }
  split; [done|]. intros dev pid a bns bn Hdev R Hb Hl Hc Hout Hbn.
  pose proof (lo_n _ _ _ _ _ R) as En. eapply wp_mono.
  { eapply log_write_wp; eauto; lia. }
  intros _ t' s' (-> & _ & R'). done.
Qed.

(** Whatever the other processes do while it waits, an operation that
    [begin_op] admits was admitted when no commit was running and when the log
    had room for MAXOPBLOCKS blocks of every operation in progress, its own
    included; and waiting neither panics nor changes the log. *)
Theorem begin_op_waits_for_room (I : log C -> Prop) t s :
  t_held t = [] -> I s ->
  safe I begin_op (fun _ t' s' => t' = t /\ exists s0, I s0 /\
    s' = set_outstanding (lg_outstanding s0 + 1) s0 /\ lg_committing s' = 0 /\
    lg_n s' + lg_outstanding s' * MAXOPBLOCKS <= LOGBLOCKS) t s.
Proof.
  intros Ht HI. unfold begin_op. apply safe_bind, wp_safe.
  apply wp_acquire; [by rewrite Ht; apply not_elem_of_nil|]. apply safe_bind.
  eapply osafe_mono; [apply wait_safe; [done|simpl; by rewrite Ht|done]|].
  intros [] t' s' (-> & HI' & E). apply wp_safe, wp_bind, wp_modify, wp_release. split; [done|]. exists s'.
  unfold begin_must_wait in E. apply orb_false_iff in E as [E1 E2]. unfold nz in E1.
  apply negb_false_iff, Z.eqb_eq in E1. apply Z.ltb_ge in E2. simpl. split_and!; done.
Qed.
End reserve.

(** An empty log over the buffer cache of bio.c. *)
Definition idle_log : log bcache :=
  {| lg_cache := {| bc_buf := fun _ => {| b_valid := 0; b_dev := 0; b_blockno := 0;
       b_lock := {| sk_locked := 0; sk_pid := 0 |}; b_refcnt := 0; b_prev := 0; b_next := 0; b_data := [] |};
       bc_disk := fun _ => []; bc_writes := [] |};
     lg_start := 2; lg_outstanding := 0; lg_committing := 0; lg_dev := 1; lg_n := 21; lg_block := fun i => 100 + i |}.

Definition idle_thread : tctx := {| t_held := []; t_proc := 3; t_pid := 7; t_patience := 1; t_trace := [] |}.

(** Two operations start; the third would have to wait. *)
Lemma log_write_never_overflows_witness :
  let s := set_n 9 idle_log in
  let s2 := set_outstanding 2 s in
  lg_n s2 < LOGBLOCKS /\ begin_must_wait s2 = true /\ lg_n s2 + 2 * MAXOPBLOCKS <= LOGBLOCKS.
Proof.
  intros s s2. split; [|by vm_compute].
  apply (log_write_never_overflows s2 [MAXOPBLOCKS; MAXOPBLOCKS] 0 idle_thread).
  - apply (ro_begin (set_outstanding 1 s) [MAXOPBLOCKS] idle_thread idle_thread); [|reflexivity].
    apply (ro_begin s [] idle_thread idle_thread); [|reflexivity]. by apply ro_idle.
  - by left.
Defined.

Lemma begin_op_waits_for_room_witness :
  safe (fun s => lg_outstanding s = 0) begin_op (fun _ _ s' => lg_outstanding s' = 1) idle_thread idle_log.
Proof.
  eapply osafe_mono; [by apply (begin_op_waits_for_room (fun s => lg_outstanding s = 0))|].
  intros [] t s (_ & s0 & E & -> & _). simpl. lia.
Defined.
