(* ===== verification/Tx.v ===== *)
(** * Tx: blocks inside a file-system operation

    Between [begin_op] and [end_op] the file system reads blocks into locked
    buffers, changes them, logs them and releases them.  [tdisk] is what such
    code sees: the contents of every block, the buffers it has locked, and the
    blocks in the log. *)

From S2P Require Import Prelude Riscv Layout Sleeplock Bio BioSpec Log LogSpec LogAtomic.

Record tdisk := {
  td_view : Z -> block;
  td_disk : Z -> block;
  td_locked : gmap Z Z;
  td_logged : list Z
}.

Definition td_lock (f : gmap Z Z -> gmap Z Z) (d : tdisk) : tdisk :=
  {| td_view := td_view d; td_disk := td_disk d; td_locked := f (td_locked d); td_logged := td_logged d |}.
Definition td_set (bn : Z) (x : block) (d : tdisk) : tdisk :=
  {| td_view := <[bn := x]> (td_view d); td_disk := td_disk d; td_locked := td_locked d; td_logged := td_logged d |}.
Definition td_log (bn : Z) (d : tdisk) : tdisk :=
  {| td_view := td_view d; td_disk := td_disk d; td_locked := td_locked d;
     td_logged := add_block bn (td_logged d) |}.

Section tx.
Context {C : Type} `{BlockCache C} (dev pid : Z).
Hypothesis Hdev : dev <> 0.
Implicit Types (t : tctx) (s : log C) (d : tdisk).

Record trep (s : log C) (d : tdisk) (a : acache) : Prop := {
  tr_ops : lops dev pid s a (td_logged d);
  tr_dev : lg_dev s = dev;
  tr_view : a_view a = td_view d;
  tr_disk : a_disk a = td_disk d;
  tr_locked : a_locked a = td_locked d;
  tr_size : forall bn, length (td_view d bn) = Z.to_nat BSIZE;
  tr_disk_size : forall bn, length (td_disk d bn) = Z.to_nat BSIZE;
  tr_empty : hdr_n (td_disk d (lg_start s)) = 0
}.

(** The log and the cache are in the state [d]. *)
Definition tx (s : log C) (d : tdisk) : Prop := exists a, trep s d a.

Lemma cache_only_tx s s' : cache_only s s' -> same_tx s s'.
Proof. by intros [c ->]. Qed.

Lemma trep_cache s d a a' c :
  trep s d a -> c_rep dev pid c a' -> a_pins a' = a_pins a -> forall d',
  td_logged d' = td_logged d -> td_disk d' = td_disk d -> a_view a' = td_view d' -> a_disk a' = td_disk d' ->
  a_locked a' = td_locked d' -> (forall bn, length (td_view d' bn) = Z.to_nat BSIZE) ->
  trep (set_cache c s) d' a'.
Proof.
  intros [[Rc Hnd En He Hlg Hp] Ed Ev Edk El Hsz Hds H0] R' Ep d' E1 E2 E3 E4 E5 Hs'.
  split; try done.
  - rewrite E1. split; try done. intros bn. by rewrite Ep.
  - by rewrite E2.
  - by rewrite E2.
Qed.

(** Buffers are left for another block. *)
Definition room (d : tdisk) : Prop :=
  (length (td_logged d) + size (td_locked d) < Z.to_nat NBUF)%nat.

Definition td_unlocked (d : tdisk) (bn : Z) : Prop := forall b, td_locked d !! b <> Some bn.

Lemma size_values (m : gmap Z Z) : (size (map_img (SA := gset Z) m) <= size m)%nat.
Proof.
  induction m as [|i x m Hi IH] using map_ind; [done|].
  rewrite map_size_insert_None by done.
  assert (Hs : map_img (SA := gset Z) (<[i := x]> m) ⊆ {[x]} ∪ map_img m).
  { intros y (j & Hj)%elem_of_map_img. apply lookup_insert_Some in Hj as [[_ <-]|[_ Hj]]; [set_solver|].
    apply elem_of_union_r, elem_of_map_img. by exists j. }
  apply subseteq_size in Hs. pose proof (size_union_alt {[x]} (map_img (SA := gset Z) m)) as Hu.
  rewrite size_singleton in Hu.
  pose proof (subseteq_size (map_img m ∖ {[x]}) (map_img (SA := gset Z) m) ltac:(set_solver)). lia.
Qed.

Lemma tx_busy s d a : trep s d a -> room d ->
  exists P : gset Z, busy a P /\ (size P < Z.to_nat NBUF)%nat.
Proof.
  intros R Hr. exists (list_to_set (td_logged d) ∪ map_img (td_locked d)). split.
  - intros bn [Hp|[b Hb]].
    + rewrite (lo_pins _ _ _ _ _ (tr_ops _ _ _ R)) in Hp.
      destruct (decide (bn ∈ td_logged d)); [|lia]. by apply elem_of_union_l, elem_of_list_to_set.
    + rewrite (tr_locked _ _ _ R) in Hb. apply elem_of_union_r, elem_of_map_img. by exists b.
  - unfold room in Hr. rewrite size_union_alt.
    rewrite size_list_to_set by apply (lo_nodup _ _ _ _ _ (tr_ops _ _ _ R)).
    pose proof (size_values (td_locked d)).
    pose proof (subseteq_size (map_img (td_locked d) ∖ list_to_set (td_logged d)) (map_img (SA := gset Z) (td_locked d))
      ltac:(set_solver)). lia.
Qed.

Lemma tx_bread t s d bn :
  tx s d -> runs pid t -> td_unlocked d bn -> room d ->
  wp (bread dev bn) (fun b t' s' => t' = t /\ same_tx s s' /\ td_locked d !! b = None /\
    tx s' (td_lock (<[b := bn]>) d)) t s.
Proof using Hdev.
  intros [a R] [Ht Hc] Hu Hr. destruct (tx_busy _ _ _ R Hr) as (P & HP & Hsz). eapply wp_cache.
  { eapply (c_bread_spec dev pid t _ a bn P); eauto; [apply R|]. intros b. rewrite (tr_locked _ _ _ R). apply Hu. }
  intros b t' c (-> & Hb & R'). rewrite (tr_locked _ _ _ R) in Hb. split_and!; [done|done|done|].
  eexists. eapply trep_cache; [exact R|exact R'|..]; try done; try apply R. simpl. by rewrite (tr_locked _ _ _ R).
Qed.

Lemma tx_data t s d b bn (Q : block -> tctx -> log C -> Prop) :
  tx s d -> td_locked d !! b = Some bn -> Q (td_view d bn) t s -> wp (data b) Q t s.
Proof.
  intros [a R] Hb HQ. eapply wp_data; [apply R|by rewrite (tr_locked _ _ _ R)|]. by rewrite (tr_view _ _ _ R).
Qed.

Lemma tx_set_data t s d b bn x :
  tx s d -> td_locked d !! b = Some bn -> length x = Z.to_nat BSIZE ->
  wp (set_data b x) (fun _ t' s' => t' = t /\ same_tx s s' /\ tx s' (td_set bn x d)) t s.
Proof using Hdev.
  intros [a R] Hb Hx. eapply wp_cache.
  { eapply (c_set_data_spec dev pid t _ a b bn); eauto; [apply R|by rewrite (tr_locked _ _ _ R)]. }
  intros _ t' c (-> & R'). split_and!; [done|done|].
  eexists. eapply trep_cache; [exact R|exact R'|..]; try done; try apply R.
  - simpl. by rewrite (tr_view _ _ _ R).
  - intros y. simpl. rewrite upd_eq. destruct (decide (bn = y)); [done|apply R].
Qed.

Lemma tx_log_write t s d b bn :
  tx s d -> 1 <= lg_outstanding s -> td_locked d !! b = Some bn -> log_lock ∉ t_held t -> bcache_lock ∉ t_held t ->
  ~ in_log (lg_start s) bn -> 0 <= bn < 2 ^ 31 -> Z.of_nat (length (td_logged d)) < LOGBLOCKS ->
  wp (log_write b) (fun _ t' s' => t' = t /\ same_tx s s' /\ tx s' (td_log bn d)) t s.
Proof using Hdev.
  intros [a R] Hop Hb Hl Hc Hout Hbn Hlen. eapply wp_mono.
  { eapply (log_write_wp dev pid Hdev t s a); eauto; try apply R; try done. by rewrite (tr_locked _ _ _ R). }
  intros _ t' s' (-> & Hs & R'). split_and!; [done|done|].
  destruct Hs as (E1 & E2 & E3 & E4). destruct R as [Ro Ed Ev Edk El Hsz Hds H0].
  eexists. split; [exact R'|..]; simpl; rewrite ?E1, ?E2, ?E3; try done; by destruct (decide _).
Qed.

(** A buffer may be released when its block is in the log or is as on disk. *)
Lemma tx_brelse t s d b bn :
  tx s d -> runs pid t -> td_locked d !! b = Some bn ->
  (bn ∈ td_logged d \/ td_view d bn = td_disk d bn) ->
  wp (brelse b) (fun _ t' s' => quiet t t' /\ same_tx s s' /\ tx s' (td_lock (delete b) d)) t s.
Proof using Hdev.
  intros [a R] [Ht Hc] Hb Hlog. eapply wp_cache.
  { eapply (c_brelse_spec dev pid t _ a b bn); eauto; [apply R|by rewrite (tr_locked _ _ _ R)|].
    rewrite (lo_pins _ _ _ _ _ (tr_ops _ _ _ R)), (tr_view _ _ _ R), (tr_disk _ _ _ R).
    destruct (decide (bn ∈ td_logged d)); [lia|]. intros _. by destruct Hlog. }
  intros _ t' c (Hq & R'). split_and!; [done|done|].
  eexists. eapply trep_cache; [exact R|exact R'|..]; try done; try apply R. simpl. by rewrite (tr_locked _ _ _ R).
Qed.

(** An unlocked block that is not in the log is as on disk. *)
Lemma tx_clean s d bn : tx s d -> td_unlocked d bn -> bn ∉ td_logged d -> td_view d bn = td_disk d bn.
Proof.
  intros [a R] Hu Hn. rewrite <-(tr_view _ _ _ R), <-(tr_disk _ _ _ R). eapply c_clean; [apply R| |].
  - rewrite (lo_pins _ _ _ _ _ (tr_ops _ _ _ R)). by rewrite decide_False.
  - intros b. rewrite (tr_locked _ _ _ R). apply Hu.
Qed.

(** Between operations of the transaction nothing is locked. *)
Lemma tx_lrep s d : tx s d -> td_locked d = ∅ ->
  exists a, lrep dev pid s a (td_logged d) /\ a_view a = td_view d /\ a_disk a = td_disk d.
Proof.
  intros [a [[Rc Hnd En He Hlg Hp] Ed Ev Edk El Hsz Hds H0]] E. exists a. split; [|done].
  rewrite E in El. rewrite <-?Ev, <-?Edk in *. split; try done. split; try done.
  intros bn Hbn. rewrite Hp in Hbn. destruct (decide (bn ∈ td_logged d)); [|lia]. by apply elem_of_list_to_set.
Qed.

Lemma lrep_tx s a bns : lrep dev pid s a bns ->
  tx s {| td_view := a_view a; td_disk := a_disk a; td_locked := ∅; td_logged := bns |}.
Proof.
  intros [[Rc Hd Hl Hpp] Hnd En He Hlg Hp Hsz Hds H0]. exists a. split; try done.
Qed.
End tx.
