(* ===== verification/LogTheorems.v ===== *)
(** * LogTheorems: crash atomicity of the log, with an example run

    The example boots a cache on an empty disk, logs one block and commits. *)

From S2P Require Import Prelude Riscv Layout Sleeplock Bio BioSpec Log LogSpec LogAtomic LogReserve Tx.

Module LogDemo.
Definition thread : tctx := {| t_held := []; t_proc := 3; t_pid := 7; t_patience := 1; t_trace := [] |}.

Definition zero_block : block := replicate (Z.to_nat BSIZE) (chr 0).
Definition zero_disk : Z -> block := fun _ => zero_block.

Definition raw_cache (d : Z -> block) : bcache :=
  {| bc_buf := fun _ => {| b_valid := 0; b_dev := 0; b_blockno := 0;
       b_lock := {| sk_locked := 0; sk_pid := 0 |}; b_refcnt := 0; b_prev := 0; b_next := 0;
       b_data := zero_block |};
     bc_disk := d; bc_writes := [] |}.

(** A log whose header is block 2, in the middle of one operation. *)
Definition fresh_log (c : bcache) : log bcache :=
  {| lg_cache := c; lg_start := 2; lg_outstanding := 1; lg_committing := 0; lg_dev := 1; lg_n := 0;
     lg_block := fun _ => 0 |}.

Lemma runs_thread : runs 7 thread.
Proof. split; [done|]. split; [|split]; try done; simpl; intros; apply not_elem_of_nil. Qed.

Lemma boot (d : Z -> block) : exists c, crep 1 7 c (acache0 d []).
Proof.
  destruct (wp_inv _ _ _ _ (binit_wp 1 7 thread (raw_cache d) ltac:(done) ltac:(done))) as (_ & _ & c & _ & _ & R).
  by exists c.
Qed.

Definition fresh (d : Z -> block) : tdisk := {| td_view := d; td_disk := d; td_locked := ∅; td_logged := [] |}.

Lemma fresh_tx (d : Z -> block) : (forall bn, length (d bn) = Z.to_nat BSIZE) -> hdr_n (d 2) = 0 ->
  exists c, tx (C := bcache) 1 7 (fresh_log c) (fresh d).
Proof.
  intros Hl Hh. destruct (boot d) as [c R]. exists c, (acache0 d []). split; try done.
  split; try done; apply NoDup_nil_2.
Qed.

(** Block 50 gets new contents, is logged and released. *)
Definition change : M (log bcache) unit :=
  b ← bread 1 50;
  set_data b (replicate (Z.to_nat BSIZE) (chr 42));;
  log_write b;;
  brelse b.

Lemma logged_one : exists s a, lrep (C := bcache) 1 7 s a [50] /\ lg_start s = 2 /\
  a_view a 50 = replicate (Z.to_nat BSIZE) (chr 42).
Proof.
  destruct (fresh_tx zero_disk) as [c T]; [done|done|]. assert (Hout : ~ in_log 2 50) by (unfold in_log, LOGBLOCKS, MAXOPBLOCKS; lia).
  assert (W : wp change (fun _ _ s' => exists d, tx 1 7 s' d /\ td_locked d = ∅ /\ td_logged d = [50] /\
    lg_start s' = 2 /\ td_view d 50 = replicate (Z.to_nat BSIZE) (chr 42)) thread (fresh_log c)).
  { unfold change. apply wp_bind. eapply wp_mono.
    { eapply (tx_bread 1 7); [done|exact T|exact runs_thread|done|]. unfold room. vm_compute. lia. }
    intros b ? s1 (-> & (E1 & O1) & _ & T1). apply wp_bind. eapply wp_mono.
    { eapply (tx_set_data 1 7); [done|exact T1|apply lookup_insert_eq|apply length_replicate]. }
    intros _ ? s2 (-> & (E2 & O2) & T2). apply wp_bind. eapply wp_mono.
    { eapply (tx_log_write 1 7); [done|exact T2|by rewrite (proj1 O2), (proj1 O1)|apply lookup_insert_eq|apply not_elem_of_nil|apply not_elem_of_nil| |lia|by vm_compute].
      by rewrite E2, E1. }
    intros _ ? s3 (-> & (E3 & _) & T3). eapply wp_mono.
    { eapply (tx_brelse 1 7); [done|exact T3|exact runs_thread|apply lookup_insert_eq|left].
      simpl. by apply list_elem_of_singleton. }
    intros _ t4 s4 (_ & (E4 & _) & T4). eexists. split; [exact T4|]. simpl. split_and!.
    - apply delete_insert_id, lookup_empty.
    - done.
    - by rewrite E4, E3, E2, E1.
    - apply upd_same. }
  apply wp_inv in W as (_ & _ & s' & _ & d & Td & El & Eb & Es & Ev).
  destruct (tx_lrep _ _ _ _ Td El) as (a & R & Eva & _). rewrite Eb in R. exists s', a. by rewrite Eva.
Qed.
End LogDemo.

(** C1: A transaction is atomic with respect to crashes.  [commit] writes a
    sequence of blocks to the disk and ends with every logged block in its
    home.  If the machine stops after any prefix of that sequence, booting on
    what is left and running recovery gives, outside the log, the disk before
    the transaction when the header was not yet written, and otherwise every
    block as the transaction left it in the cache. *)
Theorem commit_crash_atomic {C} `{BlockCache C} (dev pid : Z) (t : tctx) (s : log C) (a : acache) (bns : list Z) :
  dev <> 0 -> lrep dev pid s a bns -> runs pid t -> (0 < length bns < Z.to_nat NBUF)%nat ->
  let w := commit_writes (a_view a) (lg_start s) (lg_block s) bns in
  wp commit (fun _ _ s' => exists a', lrep dev pid s' a' [] /\ a_writes a' = a_writes a ++ w /\
    forall bn, ~ in_log (lg_start s) bn -> a_disk a' bn = a_view a bn /\ a_view a' bn = a_view a bn) t s /\
  forall w1 w2 t2 s2, w = w1 ++ w2 ->
    booted dev pid (apply_writes w1 (a_disk a)) (lg_start s) t2 s2 ->
    wp recover_from_log (fun _ _ s' => exists a', lrep dev pid s' a' [] /\
      forall bn, ~ in_log (lg_start s) bn ->
      a_view a' bn = if (length w1 <=? length bns)%nat then a_disk a bn else a_view a bn) t2 s2.
Proof.
  intros Hdev R Hrun Hlen w. split.
  - eapply wp_mono; [by eapply commit_wp|]. intros _ t' s' (_ & Es & R'). eexists. split; [exact R'|].
    split; [done|]. intros bn Hbn. rewrite (lrep_clean _ _ _ _ _ bn R') by apply not_elem_of_nil.
    cbn [a_disk with_writes unpin_all with_pins]. by rewrite (commit_installs _ _ _ _ _ bn R Hbn).
  - intros w1 w2 t2 s2 Ew Hb. eapply wp_mono.
    { eapply recover_booted; [done|done|]. by eapply crash_recoverable. }
    intros _ t' s' (a' & R' & Ha'). exists a'. split; [done|]. intros bn Hbn.
    destruct (Ha' bn Hbn) as [_ ->]. by eapply crash_recovered.
Qed.

Lemma commit_crash_atomic_witness :
  exists (s : log bcache) a, lrep 1 7 s a [50] /\
  wp commit (fun _ _ s' => exists a', lrep 1 7 s' a' [] /\
    a_disk a' 50 = replicate (Z.to_nat BSIZE) (chr 42)) LogDemo.thread s.
Proof.
  destruct LogDemo.logged_one as (s & a & R & Es & Ev). exists s, a. split; [exact R|].
  destruct (commit_crash_atomic 1 7 LogDemo.thread s a [50] ltac:(done) R LogDemo.runs_thread ltac:(vm_compute; lia))
    as [W _].
  eapply wp_mono; [exact W|]. intros _ t' s' (a' & R' & _ & Hd). exists a'. split; [done|].
  rewrite <-Ev. apply Hd. rewrite Es. unfold in_log, LOGBLOCKS, MAXOPBLOCKS. lia.
Defined.
