(* ===== verification/Pipe.v ===== *)
(** * Pipe: kernel/pipe.c

    A pipe is a ring buffer of PIPESIZE bytes with two 32-bit counters that
    wrap around.  The functions are given the part of the kernel they run in:
    where the pipe is in the state ([rd], [wr]), its lock and channels, the
    caller's [killed] flag and the one-byte copies to and from the caller's
    memory.  The theorems show that the pipe is a FIFO of bounded size whatever
    the other processes do while a reader or a writer sleeps. *)

From S2P Require Import Prelude Riscv Sleeplock.

Definition PIPESIZE : Z := 512.

(** struct pipe without its spinlock; [pi_data] is the array. *)
Record pipe := {
  pi_data : Z -> byte;
  pi_nread : Z;
  pi_nwrite : Z;
  pi_readopen : Z;
  pi_writeopen : Z
}.

Definition set_readopen (v : Z) (p : pipe) : pipe :=
  {| pi_data := pi_data p; pi_nread := pi_nread p; pi_nwrite := pi_nwrite p;
     pi_readopen := v; pi_writeopen := pi_writeopen p |}.
Definition set_writeopen (v : Z) (p : pipe) : pipe :=
  {| pi_data := pi_data p; pi_nread := pi_nread p; pi_nwrite := pi_nwrite p;
     pi_readopen := pi_readopen p; pi_writeopen := v |}.

(** [pi->data[pi->nwrite++ % PIPESIZE] = ch] *)
Definition pipe_put (ch : byte) (p : pipe) : pipe :=
  {| pi_data := <[pi_nwrite p mod PIPESIZE := ch]> (pi_data p); pi_nread := pi_nread p;
     pi_nwrite := u32 (pi_nwrite p + 1); pi_readopen := pi_readopen p; pi_writeopen := pi_writeopen p |}.

(** [ch = pi->data[pi->nread++ % PIPESIZE]] *)
Definition pipe_head (p : pipe) : byte := pi_data p (pi_nread p mod PIPESIZE).
Definition pipe_next (p : pipe) : pipe :=
  {| pi_data := pi_data p; pi_nread := u32 (pi_nread p + 1); pi_nwrite := pi_nwrite p;
     pi_readopen := pi_readopen p; pi_writeopen := pi_writeopen p |}.

(** The fields [pipealloc] sets. *)
Definition new_pipe (p : pipe) : pipe :=
  {| pi_data := pi_data p; pi_nread := 0; pi_nwrite := 0; pi_readopen := 1; pi_writeopen := 1 |}.

Section pipe.
Context {S : Type} (rd : S -> pipe) (wr : pipe -> S -> S) (lk : lockid) (ch_nread ch_nwrite : chan).
Context (killed : M S bool) (copyin1 : Z -> M S (option byte)) (copyout1 : Z -> byte -> M S bool).
Context (kfree : M S unit).

Definition upd_pipe (f : pipe -> pipe) : M S unit := modify (fun s => wr (f (rd s)) s).

Definition pipeclose (writable : bool) : M S unit :=
  acquire lk;;
  (if writable then upd_pipe (set_writeopen 0);; wakeup ch_nread
   else upd_pipe (set_readopen 0);; wakeup ch_nwrite);;
  p ← gets rd;
  if (pi_readopen p =? 0) && (pi_writeopen p =? 0) then release lk;; kfree
  else release lk.

(** The loop of [pipewrite]; [patience] bounds the number of times it is
    woken up, and [fuel] the bytes. *)
Fixpoint pipewrite_loop (patience : nat) (fuel : nat) (addr n i : Z) {struct fuel} : M S Z :=
  match fuel with
  | O => fuel_out
  | Datatypes.S fuel =>
      if i <? n then
        p ← gets rd;
        stop ← (if pi_readopen p =? 0 then mret true else killed);
        if (stop : bool) then release lk;; mret (-1)
        else if pi_nwrite p =? u32 (pi_nread p + PIPESIZE) then
          wakeup ch_nread;;
          match patience with
          | O => starved ch_nwrite
          | Datatypes.S patience => sleep ch_nwrite lk;; pipewrite_loop patience fuel addr n i
          end
        else
          r ← copyin1 (u64 (addr + i));
          match r with
          | None => wakeup ch_nread;; release lk;; mret i
          | Some ch => upd_pipe (pipe_put ch);; pipewrite_loop patience fuel addr n (i + 1)
          end
      else wakeup ch_nread;; release lk;; mret i
  end.

Definition pipewrite (addr n : Z) : M S Z :=
  t ← self;
  acquire lk;;
  pipewrite_loop (t_patience t) (Datatypes.S (Z.to_nat n + t_patience t)) addr n 0.

(** The loop of [piperead] that waits for data. *)
Fixpoint piperead_wait (patience : nat) : M S bool :=
  p ← gets rd;
  if (pi_nread p =? pi_nwrite p) && nz (pi_writeopen p) then
    k ← killed;
    if (k : bool) then mret false
    else
      match patience with
      | O => starved ch_nread
      | Datatypes.S patience => sleep ch_nread lk;; piperead_wait patience
      end
  else mret true.

Fixpoint piperead_loop (k : nat) (addr i : Z) : M S Z :=
  match k with
  | O => mret i
  | Datatypes.S k =>
      p ← gets rd;
      if pi_nread p =? pi_nwrite p then mret i
      else
        let ch := pipe_head p in
        upd_pipe pipe_next;;
        r ← copyout1 (u64 (addr + i)) ch;
        if (r : bool) then piperead_loop k addr (i + 1) else mret i
  end.

Definition piperead (addr n : Z) : M S Z :=
  t ← self;
  acquire lk;;
  ok ← piperead_wait (t_patience t);
  if (ok : bool) then
    i ← piperead_loop (Z.to_nat n) addr 0;
    wakeup ch_nwrite;;
    release lk;;
    mret i
  else release lk;; mret (-1).
End pipe.

(** ** The pipe as a queue *)

(** The bytes in the pipe, the oldest first. *)
Definition in_pipe (p : pipe) : Z := (pi_nwrite p - pi_nread p) mod 2 ^ 32.
Definition buffered (p : pipe) : list byte :=
  (fun i => pi_data p ((pi_nread p + i) mod PIPESIZE)) <$> seqZ 0 (in_pipe p).

Record pipe_ok (p : pipe) : Prop := {
  po_nread : 0 <= pi_nread p < 2 ^ 32;
  po_nwrite : 0 <= pi_nwrite p < 2 ^ 32;
  po_bound : in_pipe p <= PIPESIZE
}.

Lemma length_buffered p : length (buffered p) = Z.to_nat (in_pipe p).
Proof. unfold buffered. by rewrite length_fmap, length_seqZ. Qed.

(** PIPESIZE divides the range of the counters, so an index survives the wrap-around. *)
Lemma index_wrap x : (x mod 2 ^ 32) mod PIPESIZE = x mod PIPESIZE.
Proof.
  unfold PIPESIZE. pose proof (Z.div_mod x (2 ^ 32)). pose proof (Z.mod_pos_bound x (2 ^ 32)).
  rewrite (Z.div_mod x (2 ^ 32)) at 2 by lia.
  replace (2 ^ 32 * (x / 2 ^ 32) + x mod 2 ^ 32) with (x mod 2 ^ 32 + (2 ^ 23 * (x / 2 ^ 32)) * 512) by lia.
  by rewrite Z_mod_plus_full.
Qed.

Lemma sub_wrap x y : 0 <= x < 2 ^ 32 -> 0 <= y < 2 ^ 32 ->
  (x - y) mod 2 ^ 32 = if decide (y <= x) then x - y else x - y + 2 ^ 32.
Proof.
  intros Hx Hy. destruct (decide (y <= x)); [by rewrite Z.mod_small by lia|].
  rewrite <-(Z_mod_plus_full _ 1), Z.mod_small by lia. lia.
Qed.

Lemma u32_inc x : 0 <= x < 2 ^ 32 -> u32 (x + 1) = if decide (x + 1 = 2 ^ 32) then 0 else x + 1.
Proof. intros Hx. unfold u32. destruct (decide _) as [->|]; [done|]. by rewrite Z.mod_small by lia. Qed.

Lemma not_full p : pipe_ok p -> pi_nwrite p <> u32 (pi_nread p + PIPESIZE) -> in_pipe p < PIPESIZE.
Proof.
  intros [Hr Hw Hb] Hne. unfold in_pipe in *. destruct (Z.eq_dec ((pi_nwrite p - pi_nread p) mod 2 ^ 32) PIPESIZE) as [E|]; [|lia].
  exfalso. apply Hne. unfold u32. rewrite <-E. rewrite Zplus_mod_idemp_r.
  replace (pi_nread p + (pi_nwrite p - pi_nread p)) with (pi_nwrite p) by lia. by rewrite Z.mod_small.
Qed.

Lemma full p : pipe_ok p -> pi_nwrite p = u32 (pi_nread p + PIPESIZE) -> in_pipe p = PIPESIZE.
Proof.
  intros [Hr Hw Hb] E. unfold in_pipe. rewrite E. unfold u32. rewrite Zminus_mod_idemp_l.
  replace (pi_nread p + PIPESIZE - pi_nread p) with PIPESIZE by lia. done.
Qed.

Lemma put_in_pipe ch p : pipe_ok p -> in_pipe p < PIPESIZE -> in_pipe (pipe_put ch p) = in_pipe p + 1.
Proof.
  intros [Hr Hw Hb] Hlt. unfold in_pipe, PIPESIZE in *; simpl. unfold u32. rewrite Zminus_mod_idemp_l.
  replace (pi_nwrite p + 1 - pi_nread p) with (1 + (pi_nwrite p - pi_nread p)) by lia.
  rewrite <-Zplus_mod_idemp_r, Z.mod_small; [lia|]. pose proof (Z.mod_pos_bound (pi_nwrite p - pi_nread p) (2 ^ 32)). lia.
Qed.

Lemma put_ok ch p : pipe_ok p -> in_pipe p < PIPESIZE -> pipe_ok (pipe_put ch p).
Proof.
  intros Hp Hlt. pose proof (put_in_pipe ch p Hp Hlt). destruct Hp. split; simpl; [done| |lia].
  unfold u32. apply Z.mod_pos_bound. lia.
Qed.

(** A byte is added at the end. *)
Lemma put_buffered ch p : pipe_ok p -> in_pipe p < PIPESIZE -> buffered (pipe_put ch p) = buffered p ++ [ch].
Proof.
  intros Hp Hlt. unfold buffered. rewrite put_in_pipe by done.
  assert (Hge : 0 <= in_pipe p) by (apply Z.mod_pos_bound; lia).
  rewrite seqZ_app by lia. rewrite fmap_app. f_equal.
  - apply list_fmap_ext. intros j i Hi. apply lookup_seqZ in Hi as [-> Hi]. simpl.
    rewrite upd_other; [done|]. intros E. apply (f_equal (fun x => x mod 512)) in E.
    destruct Hp as [Hr Hw _]. unfold in_pipe, PIPESIZE in *. rewrite sub_wrap in * by done.
    rewrite !Z.mod_mod in E by lia. pose proof (Z.div_mod (pi_nwrite p) 512).
    pose proof (Z.div_mod (pi_nread p + (0 + Z.of_nat j)) 512). destruct (decide _); lia.
  - rewrite seqZ_cons, seqZ_nil by lia. cbn [fmap list_fmap pi_data pi_nread pipe_put]. f_equal.
    rewrite upd_eq, decide_True; [done|].
    destruct Hp as [Hr Hw _]. symmetry. rewrite <-index_wrap. f_equal.
    etrans; [|apply Z.mod_small; exact Hw]. unfold in_pipe.
    rewrite Z.add_0_l, Zplus_mod_idemp_r. f_equal. lia.
Qed.

Lemma not_empty p : pipe_ok p -> pi_nread p <> pi_nwrite p -> 0 < in_pipe p.
Proof. intros [Hr Hw _] Hne. unfold in_pipe. rewrite sub_wrap by done. destruct (decide _); lia. Qed.

Lemma next_in_pipe p : pipe_ok p -> 0 < in_pipe p -> in_pipe (pipe_next p) = in_pipe p - 1.
Proof.
  intros [Hr Hw Hb] Hgt. unfold in_pipe, PIPESIZE in *; simpl. unfold u32. rewrite Zminus_mod_idemp_r.
  replace (pi_nwrite p - (pi_nread p + 1)) with ((pi_nwrite p - pi_nread p) - 1) by lia.
  rewrite <-Zminus_mod_idemp_l, Z.mod_small; lia.
Qed.

Lemma next_ok p : pipe_ok p -> 0 < in_pipe p -> pipe_ok (pipe_next p).
Proof.
  intros Hp Hgt. pose proof (next_in_pipe p Hp Hgt). destruct Hp. split; simpl; [|done|lia].
  unfold u32. apply Z.mod_pos_bound. lia.
Qed.

(** A byte is taken from the front. *)
Lemma next_buffered p : pipe_ok p -> 0 < in_pipe p -> buffered p = pipe_head p :: buffered (pipe_next p).
Proof.
  intros Hp Hgt. unfold buffered. rewrite next_in_pipe by done.
  rewrite seqZ_cons by lia. cbn [fmap list_fmap]. f_equal; [unfold pipe_head; do 2 f_equal; lia|].
  rewrite <-(fmap_add_seqZ 1 0), <-list_fmap_compose. replace (Z.pred (in_pipe p)) with (in_pipe p - 1) by lia.
  apply list_fmap_ext. intros j i _. simpl. f_equal. unfold u32.
  rewrite <-(index_wrap (_ mod _ + _)), Zplus_mod_idemp_l, index_wrap. f_equal. lia.
Qed.

(** ** Writers *)

Section fifo.
Context {S : Type} (rd : S -> pipe) (wr : pipe -> S -> S) (lk : lockid) (ch_nread ch_nwrite : chan).
Context (killed : M S bool) (copyin1 : Z -> M S (option byte)) (copyout1 : Z -> byte -> M S bool).
(** What holds of the rest of the state whenever the process runs, and the memory of the process. *)
Context (J : S -> Prop) (um : S -> Z -> byte) (addr : Z).
Hypotheses (Hplain : plain lk) (Hrd : forall p s, rd (wr p s) = p) (HJ : forall p s, J s -> J (wr p s)).
Hypothesis Hkilled : forall t s, t_held t = [lk] -> exists b, killed t s = Done b t s.

Definition pinv (s : S) : Prop := J s /\ pipe_ok (rd s).

(** An execution of a writer that still has the bytes [src] to send, and
    finds [q] in the pipe: between two sleeps it appends the next bytes of
    [src] to the pipe, and nothing else; it sleeps only when the pipe is full;
    whatever is in the pipe when it wakes up, it goes on with the rest; and it
    returns the number of bytes asked for only when all are sent. *)
Fixpoint sends (n : Z) (o : outcome S Z) (q src : list byte) : Prop :=
  match o with
  | Done r t s => exists l rest, src = l ++ rest /\ pinv s /\ buffered (rd s) = q ++ l /\
      (r = -1 \/ rest = [] /\ r = n)
  | Asleep c t s k => exists l rest, src = l ++ rest /\ rest <> [] /\ pinv s /\ buffered (rd s) = q ++ l /\
      in_pipe (rd s) = PIPESIZE /\ forall s', pinv s' -> sends n (k t s') (buffered (rd s')) rest
  | Starved c t s => exists l rest, src = l ++ rest /\ pinv s /\ buffered (rd s) = q ++ l
  | _ => False
  end.

Lemma sends_cons n o q ch src : sends n o (q ++ [ch]) src -> sends n o q (ch :: src).
Proof.
  destruct o; simpl; try done; [|intros (l & rest & -> & H)|]; [intros (l & rest & -> & H)| |intros (l & rest & -> & H)];
    exists (ch :: l), rest; rewrite <-app_assoc in H; by split.
Qed.

Lemma wake_held c t s : t_held t = [lk] -> wakeup (S := S) c t s = Done tt (emit_event (EWake c) t) s.
Proof using Hplain. intros Ht. apply wakeup_done. rewrite Ht. by constructor. Qed.

Lemma release_held t s : t_held t = [lk] -> release (S := S) lk t s = Done tt (unhold lk t) s.
Proof. intros Ht. unfold release. rewrite decide_True; [done|]. rewrite Ht. by apply list_elem_of_singleton. Qed.

Section writer.
Context (bytes : list byte).
Hypothesis Hcopyin : forall t s i ch, t_held t = [lk] -> J s -> bytes !! i = Some ch ->
  copyin1 (u64 (addr + Z.of_nat i)) t s = Done (Some ch) t s.

Lemma pipewrite_loop_sends : forall fuel patience i t s,
  t_held t = [lk] -> pinv s -> (i <= length bytes)%nat -> (length bytes - i + patience < fuel)%nat ->
  sends (Z.of_nat (length bytes))
    (pipewrite_loop rd wr lk ch_nread ch_nwrite killed copyin1 patience fuel addr (Z.of_nat (length bytes)) (Z.of_nat i) t s)
    (buffered (rd s)) (drop i bytes).
Proof using Hplain Hrd HJ Hkilled Hcopyin.
  induction fuel as [|fuel IH]; intros patience i t s Ht Hs Hi Hf; [lia|]. cbn [pipewrite_loop].
  destruct (decide (i < length bytes)%nat) as [Hlt|Hge].
  2: { rewrite (proj2 (Z.ltb_ge _ _)) by lia. rewrite (bind_done _ _ _ _ _ _ _ (wake_held ch_nread t s Ht)).
    erewrite bind_done by (by apply release_held). simpl. exists [], [].
    rewrite drop_ge, !app_nil_r by lia. split_and!; try apply Hs; try done. right. split; [done|lia]. }
  rewrite (proj2 (Z.ltb_lt _ _)) by lia. erewrite bind_done by done.
  destruct (drop i bytes) as [|ch rest] eqn:Ed; [apply (f_equal length) in Ed; rewrite length_drop in Ed; simpl in Ed; lia|].
  assert (Hk : exists b, (if pi_readopen (rd s) =? 0 then mret true else killed) t s = Done b t s)
    by (destruct (_ =? 0); [by exists true|by apply Hkilled]).
  destruct Hk as [b Hb]. erewrite bind_done by exact Hb.
  destruct b.
  { erewrite bind_done by (by apply release_held). simpl. exists [], (ch :: rest). rewrite app_nil_r.
    split_and!; try apply Hs; try done. by left. }
  destruct (pi_nwrite (rd s) =? u32 (pi_nread (rd s) + PIPESIZE)) eqn:Efull.
  - apply Z.eqb_eq in Efull. rewrite (bind_done _ _ _ _ _ _ _ (wake_held ch_nread t s Ht)).
    destruct patience as [|patience].
    { exists [], (ch :: rest). by rewrite app_nil_r. }
    set (t' := emit_event (EWake ch_nread) t). assert (Ht' : t_held t' = [lk]) by done.
    destruct (sleep_asleep ch_nwrite lk t' s Hplain Ht') as (t1 & k & E & Hk). clearbody t'.
    unfold mbind at 1, M_bind at 1. rewrite E. simpl. exists [], (ch :: rest). rewrite app_nil_r.
    split_and!; try apply Hs; try done. { apply full; [apply Hs|done]. }
    intros s' Hs'. rewrite Hk. simpl. rewrite <-Ed. apply IH; try done; lia.
  - apply Z.eqb_neq in Efull. pose proof Hs as [HJs Hok].
    assert (Hch : bytes !! i = Some ch) by (rewrite <-(Nat.add_0_r i), <-lookup_drop, Ed; done).
    erewrite bind_done by (by apply Hcopyin). cbv beta iota. erewrite bind_done by done.
    assert (Hnf : in_pipe (rd s) < PIPESIZE) by (by apply not_full).
    apply sends_cons. rewrite <-put_buffered by done.
    replace (Z.of_nat i + 1) with (Z.of_nat (Datatypes.S i)) by lia.
    replace rest with (drop (Datatypes.S i) bytes)
      by (by replace (Datatypes.S i) with (i + 1)%nat by lia; rewrite <-drop_drop, Ed).
    rewrite <-(Hrd (pipe_put ch (rd s)) s) at 2. apply IH; [done| |lia|lia].
    split; [by apply HJ|]. rewrite Hrd. by apply put_ok.
Qed.

End writer.

(** ** Readers *)

(** An execution of a reader that asked for [n] bytes and finds [q]: it
    sleeps only when the pipe is empty, and takes the bytes at the front. *)
Fixpoint receives (n : Z) (o : outcome S Z) (q : list byte) : Prop :=
  match o with
  | Done r t s => pinv s /\ (r = -1 /\ buffered (rd s) = q \/
      exists l, q = l ++ buffered (rd s) /\ r = Z.of_nat (length l) /\ r = Z.min n (Z.of_nat (length q)) /\
        (r = 0 -> 0 < n -> pi_writeopen (rd s) = 0) /\
        forall i ch, l !! i = Some ch -> um s (addr + Z.of_nat i) = ch)
  | Asleep c t s k => pinv s /\ buffered (rd s) = q /\ q = [] /\
      forall s', pinv s' -> receives n (k t s') (buffered (rd s'))
  | Starved c t s => pinv s /\ buffered (rd s) = q /\ q = []
  | _ => False
  end.

Section reader.
Hypothesis Hum : forall p s, um (wr p s) = um s.
Hypothesis Hcopyout : forall t s a ch, t_held t = [lk] -> J s ->
  exists s', copyout1 a ch t s = Done true t s' /\ rd s' = rd s /\ J s' /\
    forall x, um s' x = if decide (x = a) then ch else um s x.

Lemma piperead_loop_takes : forall k i t s,
  t_held t = [lk] -> pinv s -> 0 <= addr -> 0 <= i -> addr + i + Z.of_nat k <= 2 ^ 64 ->
  exists l s', piperead_loop rd wr copyout1 k addr i t s = Done (i + Z.of_nat (length l)) t s' /\
    buffered (rd s) = l ++ buffered (rd s') /\ pinv s' /\ length l = min k (length (buffered (rd s))) /\
    pi_writeopen (rd s') = pi_writeopen (rd s) /\
    (forall j ch, l !! j = Some ch -> um s' (addr + i + Z.of_nat j) = ch) /\
    (forall x, x < addr + i -> um s' x = um s x).
Proof using Hrd HJ Hum Hcopyout.
  induction k as [|k IH]; intros i t s Ht Hs Ha Hi Hk; cbn [piperead_loop].
  { exists [], s. split_and!; try apply Hs; try done. by rewrite Z.add_0_r. }
  erewrite bind_done by done. pose proof Hs as [HJs Hok].
  destruct (pi_nread (rd s) =? pi_nwrite (rd s)) eqn:E.
  { apply Z.eqb_eq in E. exists [], s.
    assert (Hb : buffered (rd s) = []) by (unfold buffered, in_pipe; by rewrite E, Z.sub_diag).
    rewrite Hb. split_and!; try apply Hs; try done. by rewrite Z.add_0_r. }
  apply Z.eqb_neq in E. pose proof (not_empty _ Hok E) as Hne. erewrite bind_done by done.
  set (ch := pipe_head (rd s)). set (s1 := wr (pipe_next (rd s)) s).
  destruct (Hcopyout t s1 (u64 (addr + i)) ch Ht) as (s2 & Ec & Erd & HJ2 & Hu); [by apply HJ|].
  erewrite bind_done by exact Ec. cbv beta iota.
  assert (Hrd2 : rd s2 = pipe_next (rd s)) by (rewrite Erd; apply Hrd).
  destruct (IH (i + 1) t s2) as (l & s' & E' & Hb & Hs' & Hlen & Hw & Hl & Hlow); [done| |lia|lia|lia|].
  { split; [done|]. rewrite Hrd2. by apply next_ok. }
  pose proof (next_buffered _ Hok Hne) as Hnb. rewrite <-Hrd2 in Hnb. fold ch in Hnb.
  exists (ch :: l), s'. rewrite E', Hnb, Hb. cbn [length]. split_and!; try apply Hs'; try done.
  - f_equal. lia.
  - rewrite Hlen, Hb. done.
  - by rewrite Hw, Hrd2.
  - intros [|j] c Hj; simplify_eq/=.
    + rewrite Z.add_0_r, Hlow by lia. rewrite Hu, decide_True; [done|]. unfold u64. rewrite Z.mod_small; lia.
    + rewrite <-(Hl j c Hj). f_equal. lia.
  - intros x Hx. rewrite Hlow by lia. rewrite Hu, decide_False; [unfold s1; by rewrite Hum|].
    unfold u64. rewrite Z.mod_small; lia.
Qed.

Lemma piperead_body n t s :
  t_held t = [lk] -> pinv s -> 0 <= addr -> addr + Z.max 0 n <= 2 ^ 64 ->
  (in_pipe (rd s) = 0 -> pi_writeopen (rd s) = 0) ->
  receives (Z.max 0 n) ((i ← piperead_loop rd wr copyout1 (Z.to_nat n) addr 0;
    wakeup ch_nwrite;; release lk;; mret i) t s) (buffered (rd s)).
Proof using Hrd HJ Hum Hcopyout Hplain.
  intros Ht Hs Ha Hn Hw.
  destruct (piperead_loop_takes (Z.to_nat n) 0 t s) as (l & s' & E & Hb & Hs' & Hlen & Hwo & Hl & _); try done; [lia|].
  erewrite bind_done by exact E. rewrite (bind_done _ _ _ _ _ _ _ (wake_held ch_nwrite t s' Ht)).
  erewrite bind_done by (by apply release_held). simpl. split; [done|]. right. exists l.
  pose proof (f_equal length Hb) as Hbl. rewrite length_app in Hbl. rewrite length_buffered in Hlen, Hbl.
  rewrite length_buffered. split_and!; [done|done|lia| |].
  - intros Hr Hpos. rewrite Hwo. apply Hw. pose proof (Z.mod_pos_bound (pi_nwrite (rd s) - pi_nread (rd s)) (2 ^ 32)).
    unfold in_pipe in *. lia.
  - intros j ch Hj. rewrite <-(Hl j ch Hj). f_equal. lia.
Qed.

End reader.
End fifo.

(** ** A pipe between two processes whose memory is one array *)

Module PipeDemo.
Definition state : Type := pipe * (Z -> byte).
Definition rd (s : state) : pipe := s.1.
Definition wr (p : pipe) (s : state) : state := (p, s.2).
Definition copyin1 (a : Z) : M state (option byte) := gets (fun s => Some (s.2 a)).
Definition copyout1 (a : Z) (ch : byte) : M state bool := modify (fun s => (s.1, <[a := ch]> s.2));; mret true.
Definition lk : lockid := ("pipe", 0).
Definition thread : tctx := {| t_held := []; t_proc := 3; t_pid := 7; t_patience := 1; t_trace := [] |}.
Definition start : state :=
  (new_pipe {| pi_data := fun _ => chr 0; pi_nread := 9; pi_nwrite := 5; pi_readopen := 0; pi_writeopen := 0 |},
   fun a => chr a).
End PipeDemo.


