(* ===== verification/Kernel.v ===== *)
(** * Kernel: the data of the kernel above memory and the disk

    The tables of fs.c, file.c, pipe.c, proc.c, console.c, uart.c and trap.c
    in one record, over the physical memory of Kalloc.v and the log of Log.v.
    A pointer into a table is the index of its entry, and a pointer that may
    be null an [option]; page tables, trapframes and pipes are pages, named
    by their address. *)

From S2P Require Import Prelude Riscv Kalloc Sleeplock Layout Bio BioSpec Log Pipe.

(** ** fs.h, file.h *)

Record superblock := {
  sb_magic : Z;
  sb_size : Z;
  sb_nblocks : Z;
  sb_ninodes : Z;
  sb_nlog : Z;
  sb_logstart : Z;
  sb_inodestart : Z;
  sb_bmapstart : Z
}.

(** struct inode, the in-memory copy. *)
Record inode := {
  i_dev : Z;
  i_inum : Z;
  i_ref : Z;
  i_lock : sleeplock;
  i_valid : Z;
  i_type : Z;
  i_major : Z;
  i_minor : Z;
  i_nlink : Z;
  i_size : Z;
  i_addrs : Z -> Z
}.

Inductive ftype := FD_NONE | FD_PIPE | FD_INODE | FD_DEVICE.

#[global] Instance ftype_eq_dec : EqDecision ftype.
Proof. solve_decision. Defined.

Record file := {
  f_type : ftype;
  f_ref : Z;
  f_readable : bool;
  f_writable : bool;
  f_pipe : Z;
  f_ip : Z;
  f_off : Z;
  f_major : Z
}.

(** ** proc.h *)

Inductive procstate := UNUSED | USED | SLEEPING | RUNNABLE | RUNNING | ZOMBIE.

#[global] Instance procstate_eq_dec : EqDecision procstate.
Proof. solve_decision. Defined.

(** The return address and the stack pointer of struct context; the
    callee-saved registers are only moved by swtch.S. *)
Record proc := {
  p_state : procstate;
  p_chan : option chan;
  p_killed : Z;
  p_xstate : Z;
  p_pid : Z;
  p_parent : option Z;
  p_kstack : Z;
  p_sz : Z;
  p_pagetable : Z;
  p_trapframe : Z;
  p_ra : Z;
  p_sp : Z;
  p_ofile : Z -> option Z;
  p_cwd : option Z;
  p_name : list byte
}.

(** ** console.c, uart.c *)

Record console := {
  c_buf : Z -> byte;
  c_r : Z;
  c_w : Z;
  c_e : Z
}.

(** [tx_busy], and the bytes written to the transmit register, the latest first. *)
Record uart := { u_tx_busy : Z; u_sent : list byte }.

(** ** The kernel *)

Record kernel (C : Type) := {
  ks_mem : kmem;
  ks_log : log C;
  ks_sb : superblock;
  ks_inode : Z -> inode;
  ks_file : Z -> file;
  ks_pipe : Z -> pipe;
  ks_proc : Z -> proc;
  ks_nextpid : Z;
  ks_initproc : option Z;
  ks_ticks : Z;
  ks_cons : console;
  ks_uart : uart
}.

Arguments ks_mem {C}.
Arguments ks_log {C}.
Arguments ks_sb {C}.
Arguments ks_inode {C}.
Arguments ks_file {C}.
Arguments ks_pipe {C}.
Arguments ks_proc {C}.
Arguments ks_nextpid {C}.
Arguments ks_initproc {C}.
Arguments ks_ticks {C}.
Arguments ks_cons {C}.
Arguments ks_uart {C}.

(** ** Field updates *)

Definition set_i_dev (v : Z) (r : inode) : inode :=
  {| i_dev := v; i_inum := i_inum r; i_ref := i_ref r; i_lock := i_lock r; i_valid := i_valid r;
     i_type := i_type r; i_major := i_major r; i_minor := i_minor r; i_nlink := i_nlink r;
     i_size := i_size r; i_addrs := i_addrs r |}.
Definition set_i_inum (v : Z) (r : inode) : inode :=
  {| i_dev := i_dev r; i_inum := v; i_ref := i_ref r; i_lock := i_lock r; i_valid := i_valid r;
     i_type := i_type r; i_major := i_major r; i_minor := i_minor r; i_nlink := i_nlink r;
     i_size := i_size r; i_addrs := i_addrs r |}.
Definition set_i_ref (v : Z) (r : inode) : inode :=
  {| i_dev := i_dev r; i_inum := i_inum r; i_ref := v; i_lock := i_lock r; i_valid := i_valid r;
     i_type := i_type r; i_major := i_major r; i_minor := i_minor r; i_nlink := i_nlink r;
     i_size := i_size r; i_addrs := i_addrs r |}.
Definition set_i_lock (v : sleeplock) (r : inode) : inode :=
  {| i_dev := i_dev r; i_inum := i_inum r; i_ref := i_ref r; i_lock := v; i_valid := i_valid r;
     i_type := i_type r; i_major := i_major r; i_minor := i_minor r; i_nlink := i_nlink r;
     i_size := i_size r; i_addrs := i_addrs r |}.
Definition set_i_valid (v : Z) (r : inode) : inode :=
  {| i_dev := i_dev r; i_inum := i_inum r; i_ref := i_ref r; i_lock := i_lock r; i_valid := v;
     i_type := i_type r; i_major := i_major r; i_minor := i_minor r; i_nlink := i_nlink r;
     i_size := i_size r; i_addrs := i_addrs r |}.
Definition set_i_type (v : Z) (r : inode) : inode :=
  {| i_dev := i_dev r; i_inum := i_inum r; i_ref := i_ref r; i_lock := i_lock r; i_valid := i_valid r;
     i_type := v; i_major := i_major r; i_minor := i_minor r; i_nlink := i_nlink r; i_size := i_size r;
     i_addrs := i_addrs r |}.
Definition set_i_major (v : Z) (r : inode) : inode :=
  {| i_dev := i_dev r; i_inum := i_inum r; i_ref := i_ref r; i_lock := i_lock r; i_valid := i_valid r;
     i_type := i_type r; i_major := v; i_minor := i_minor r; i_nlink := i_nlink r; i_size := i_size r;
     i_addrs := i_addrs r |}.
Definition set_i_minor (v : Z) (r : inode) : inode :=
  {| i_dev := i_dev r; i_inum := i_inum r; i_ref := i_ref r; i_lock := i_lock r; i_valid := i_valid r;
     i_type := i_type r; i_major := i_major r; i_minor := v; i_nlink := i_nlink r; i_size := i_size r;
     i_addrs := i_addrs r |}.
Definition set_i_nlink (v : Z) (r : inode) : inode :=
  {| i_dev := i_dev r; i_inum := i_inum r; i_ref := i_ref r; i_lock := i_lock r; i_valid := i_valid r;
     i_type := i_type r; i_major := i_major r; i_minor := i_minor r; i_nlink := v; i_size := i_size r;
     i_addrs := i_addrs r |}.
Definition set_i_size (v : Z) (r : inode) : inode :=
  {| i_dev := i_dev r; i_inum := i_inum r; i_ref := i_ref r; i_lock := i_lock r; i_valid := i_valid r;
     i_type := i_type r; i_major := i_major r; i_minor := i_minor r; i_nlink := i_nlink r; i_size := v;
     i_addrs := i_addrs r |}.
Definition set_i_addrs (v : Z -> Z) (r : inode) : inode :=
  {| i_dev := i_dev r; i_inum := i_inum r; i_ref := i_ref r; i_lock := i_lock r; i_valid := i_valid r;
     i_type := i_type r; i_major := i_major r; i_minor := i_minor r; i_nlink := i_nlink r;
     i_size := i_size r; i_addrs := v |}.

Definition set_f_type (v : ftype) (r : file) : file :=
  {| f_type := v; f_ref := f_ref r; f_readable := f_readable r; f_writable := f_writable r;
     f_pipe := f_pipe r; f_ip := f_ip r; f_off := f_off r; f_major := f_major r |}.
Definition set_f_ref (v : Z) (r : file) : file :=
  {| f_type := f_type r; f_ref := v; f_readable := f_readable r; f_writable := f_writable r;
     f_pipe := f_pipe r; f_ip := f_ip r; f_off := f_off r; f_major := f_major r |}.
Definition set_f_readable (v : bool) (r : file) : file :=
  {| f_type := f_type r; f_ref := f_ref r; f_readable := v; f_writable := f_writable r;
     f_pipe := f_pipe r; f_ip := f_ip r; f_off := f_off r; f_major := f_major r |}.
Definition set_f_writable (v : bool) (r : file) : file :=
  {| f_type := f_type r; f_ref := f_ref r; f_readable := f_readable r; f_writable := v;
     f_pipe := f_pipe r; f_ip := f_ip r; f_off := f_off r; f_major := f_major r |}.
Definition set_f_pipe (v : Z) (r : file) : file :=
  {| f_type := f_type r; f_ref := f_ref r; f_readable := f_readable r; f_writable := f_writable r;
     f_pipe := v; f_ip := f_ip r; f_off := f_off r; f_major := f_major r |}.
Definition set_f_ip (v : Z) (r : file) : file :=
  {| f_type := f_type r; f_ref := f_ref r; f_readable := f_readable r; f_writable := f_writable r;
     f_pipe := f_pipe r; f_ip := v; f_off := f_off r; f_major := f_major r |}.
Definition set_f_off (v : Z) (r : file) : file :=
  {| f_type := f_type r; f_ref := f_ref r; f_readable := f_readable r; f_writable := f_writable r;
     f_pipe := f_pipe r; f_ip := f_ip r; f_off := v; f_major := f_major r |}.
Definition set_f_major (v : Z) (r : file) : file :=
  {| f_type := f_type r; f_ref := f_ref r; f_readable := f_readable r; f_writable := f_writable r;
     f_pipe := f_pipe r; f_ip := f_ip r; f_off := f_off r; f_major := v |}.

Definition set_p_state (v : procstate) (r : proc) : proc :=
  {| p_state := v; p_chan := p_chan r; p_killed := p_killed r; p_xstate := p_xstate r; p_pid := p_pid r;
     p_parent := p_parent r; p_kstack := p_kstack r; p_sz := p_sz r; p_pagetable := p_pagetable r;
     p_trapframe := p_trapframe r; p_ra := p_ra r; p_sp := p_sp r; p_ofile := p_ofile r;
     p_cwd := p_cwd r; p_name := p_name r |}.
Definition set_p_chan (v : option chan) (r : proc) : proc :=
  {| p_state := p_state r; p_chan := v; p_killed := p_killed r; p_xstate := p_xstate r; p_pid := p_pid r;
     p_parent := p_parent r; p_kstack := p_kstack r; p_sz := p_sz r; p_pagetable := p_pagetable r;
     p_trapframe := p_trapframe r; p_ra := p_ra r; p_sp := p_sp r; p_ofile := p_ofile r;
     p_cwd := p_cwd r; p_name := p_name r |}.
Definition set_p_killed (v : Z) (r : proc) : proc :=
  {| p_state := p_state r; p_chan := p_chan r; p_killed := v; p_xstate := p_xstate r; p_pid := p_pid r;
     p_parent := p_parent r; p_kstack := p_kstack r; p_sz := p_sz r; p_pagetable := p_pagetable r;
     p_trapframe := p_trapframe r; p_ra := p_ra r; p_sp := p_sp r; p_ofile := p_ofile r;
     p_cwd := p_cwd r; p_name := p_name r |}.
Definition set_p_xstate (v : Z) (r : proc) : proc :=
  {| p_state := p_state r; p_chan := p_chan r; p_killed := p_killed r; p_xstate := v; p_pid := p_pid r;
     p_parent := p_parent r; p_kstack := p_kstack r; p_sz := p_sz r; p_pagetable := p_pagetable r;
     p_trapframe := p_trapframe r; p_ra := p_ra r; p_sp := p_sp r; p_ofile := p_ofile r;
     p_cwd := p_cwd r; p_name := p_name r |}.
Definition set_p_pid (v : Z) (r : proc) : proc :=
  {| p_state := p_state r; p_chan := p_chan r; p_killed := p_killed r; p_xstate := p_xstate r;
     p_pid := v; p_parent := p_parent r; p_kstack := p_kstack r; p_sz := p_sz r;
     p_pagetable := p_pagetable r; p_trapframe := p_trapframe r; p_ra := p_ra r; p_sp := p_sp r;
     p_ofile := p_ofile r; p_cwd := p_cwd r; p_name := p_name r |}.
Definition set_p_parent (v : option Z) (r : proc) : proc :=
  {| p_state := p_state r; p_chan := p_chan r; p_killed := p_killed r; p_xstate := p_xstate r;
     p_pid := p_pid r; p_parent := v; p_kstack := p_kstack r; p_sz := p_sz r;
     p_pagetable := p_pagetable r; p_trapframe := p_trapframe r; p_ra := p_ra r; p_sp := p_sp r;
     p_ofile := p_ofile r; p_cwd := p_cwd r; p_name := p_name r |}.
Definition set_p_kstack (v : Z) (r : proc) : proc :=
  {| p_state := p_state r; p_chan := p_chan r; p_killed := p_killed r; p_xstate := p_xstate r;
     p_pid := p_pid r; p_parent := p_parent r; p_kstack := v; p_sz := p_sz r;
     p_pagetable := p_pagetable r; p_trapframe := p_trapframe r; p_ra := p_ra r; p_sp := p_sp r;
     p_ofile := p_ofile r; p_cwd := p_cwd r; p_name := p_name r |}.
Definition set_p_sz (v : Z) (r : proc) : proc :=
  {| p_state := p_state r; p_chan := p_chan r; p_killed := p_killed r; p_xstate := p_xstate r;
     p_pid := p_pid r; p_parent := p_parent r; p_kstack := p_kstack r; p_sz := v;
     p_pagetable := p_pagetable r; p_trapframe := p_trapframe r; p_ra := p_ra r; p_sp := p_sp r;
     p_ofile := p_ofile r; p_cwd := p_cwd r; p_name := p_name r |}.
Definition set_p_pagetable (v : Z) (r : proc) : proc :=
  {| p_state := p_state r; p_chan := p_chan r; p_killed := p_killed r; p_xstate := p_xstate r;
     p_pid := p_pid r; p_parent := p_parent r; p_kstack := p_kstack r; p_sz := p_sz r; p_pagetable := v;
     p_trapframe := p_trapframe r; p_ra := p_ra r; p_sp := p_sp r; p_ofile := p_ofile r;
     p_cwd := p_cwd r; p_name := p_name r |}.
Definition set_p_trapframe (v : Z) (r : proc) : proc :=
  {| p_state := p_state r; p_chan := p_chan r; p_killed := p_killed r; p_xstate := p_xstate r;
     p_pid := p_pid r; p_parent := p_parent r; p_kstack := p_kstack r; p_sz := p_sz r;
     p_pagetable := p_pagetable r; p_trapframe := v; p_ra := p_ra r; p_sp := p_sp r;
     p_ofile := p_ofile r; p_cwd := p_cwd r; p_name := p_name r |}.
Definition set_p_ra (v : Z) (r : proc) : proc :=
  {| p_state := p_state r; p_chan := p_chan r; p_killed := p_killed r; p_xstate := p_xstate r;
     p_pid := p_pid r; p_parent := p_parent r; p_kstack := p_kstack r; p_sz := p_sz r;
     p_pagetable := p_pagetable r; p_trapframe := p_trapframe r; p_ra := v; p_sp := p_sp r;
     p_ofile := p_ofile r; p_cwd := p_cwd r; p_name := p_name r |}.
Definition set_p_sp (v : Z) (r : proc) : proc :=
  {| p_state := p_state r; p_chan := p_chan r; p_killed := p_killed r; p_xstate := p_xstate r;
     p_pid := p_pid r; p_parent := p_parent r; p_kstack := p_kstack r; p_sz := p_sz r;
     p_pagetable := p_pagetable r; p_trapframe := p_trapframe r; p_ra := p_ra r; p_sp := v;
     p_ofile := p_ofile r; p_cwd := p_cwd r; p_name := p_name r |}.
Definition set_p_ofile (v : Z -> option Z) (r : proc) : proc :=
  {| p_state := p_state r; p_chan := p_chan r; p_killed := p_killed r; p_xstate := p_xstate r;
     p_pid := p_pid r; p_parent := p_parent r; p_kstack := p_kstack r; p_sz := p_sz r;
     p_pagetable := p_pagetable r; p_trapframe := p_trapframe r; p_ra := p_ra r; p_sp := p_sp r;
     p_ofile := v; p_cwd := p_cwd r; p_name := p_name r |}.
Definition set_p_cwd (v : option Z) (r : proc) : proc :=
  {| p_state := p_state r; p_chan := p_chan r; p_killed := p_killed r; p_xstate := p_xstate r;
     p_pid := p_pid r; p_parent := p_parent r; p_kstack := p_kstack r; p_sz := p_sz r;
     p_pagetable := p_pagetable r; p_trapframe := p_trapframe r; p_ra := p_ra r; p_sp := p_sp r;
     p_ofile := p_ofile r; p_cwd := v; p_name := p_name r |}.
Definition set_p_name (v : list byte) (r : proc) : proc :=
  {| p_state := p_state r; p_chan := p_chan r; p_killed := p_killed r; p_xstate := p_xstate r;
     p_pid := p_pid r; p_parent := p_parent r; p_kstack := p_kstack r; p_sz := p_sz r;
     p_pagetable := p_pagetable r; p_trapframe := p_trapframe r; p_ra := p_ra r; p_sp := p_sp r;
     p_ofile := p_ofile r; p_cwd := p_cwd r; p_name := v |}.

Section kernel.
Context {C : Type}.

Definition set_ks_mem (v : kmem) (k : kernel C) : kernel C :=
  {| ks_mem := v; ks_log := ks_log k; ks_sb := ks_sb k; ks_inode := ks_inode k; ks_file := ks_file k;
     ks_pipe := ks_pipe k; ks_proc := ks_proc k; ks_nextpid := ks_nextpid k;
     ks_initproc := ks_initproc k; ks_ticks := ks_ticks k; ks_cons := ks_cons k; ks_uart := ks_uart k |}.
Definition set_ks_log (v : log C) (k : kernel C) : kernel C :=
  {| ks_mem := ks_mem k; ks_log := v; ks_sb := ks_sb k; ks_inode := ks_inode k; ks_file := ks_file k;
     ks_pipe := ks_pipe k; ks_proc := ks_proc k; ks_nextpid := ks_nextpid k;
     ks_initproc := ks_initproc k; ks_ticks := ks_ticks k; ks_cons := ks_cons k; ks_uart := ks_uart k |}.
Definition set_ks_sb (v : superblock) (k : kernel C) : kernel C :=
  {| ks_mem := ks_mem k; ks_log := ks_log k; ks_sb := v; ks_inode := ks_inode k; ks_file := ks_file k;
     ks_pipe := ks_pipe k; ks_proc := ks_proc k; ks_nextpid := ks_nextpid k;
     ks_initproc := ks_initproc k; ks_ticks := ks_ticks k; ks_cons := ks_cons k; ks_uart := ks_uart k |}.
Definition set_ks_inode (v : Z -> inode) (k : kernel C) : kernel C :=
  {| ks_mem := ks_mem k; ks_log := ks_log k; ks_sb := ks_sb k; ks_inode := v; ks_file := ks_file k;
     ks_pipe := ks_pipe k; ks_proc := ks_proc k; ks_nextpid := ks_nextpid k;
     ks_initproc := ks_initproc k; ks_ticks := ks_ticks k; ks_cons := ks_cons k; ks_uart := ks_uart k |}.
Definition set_ks_file (v : Z -> file) (k : kernel C) : kernel C :=
  {| ks_mem := ks_mem k; ks_log := ks_log k; ks_sb := ks_sb k; ks_inode := ks_inode k; ks_file := v;
     ks_pipe := ks_pipe k; ks_proc := ks_proc k; ks_nextpid := ks_nextpid k;
     ks_initproc := ks_initproc k; ks_ticks := ks_ticks k; ks_cons := ks_cons k; ks_uart := ks_uart k |}.
Definition set_ks_pipe (v : Z -> pipe) (k : kernel C) : kernel C :=
  {| ks_mem := ks_mem k; ks_log := ks_log k; ks_sb := ks_sb k; ks_inode := ks_inode k;
     ks_file := ks_file k; ks_pipe := v; ks_proc := ks_proc k; ks_nextpid := ks_nextpid k;
     ks_initproc := ks_initproc k; ks_ticks := ks_ticks k; ks_cons := ks_cons k; ks_uart := ks_uart k |}.
Definition set_ks_proc (v : Z -> proc) (k : kernel C) : kernel C :=
  {| ks_mem := ks_mem k; ks_log := ks_log k; ks_sb := ks_sb k; ks_inode := ks_inode k;
     ks_file := ks_file k; ks_pipe := ks_pipe k; ks_proc := v; ks_nextpid := ks_nextpid k;
     ks_initproc := ks_initproc k; ks_ticks := ks_ticks k; ks_cons := ks_cons k; ks_uart := ks_uart k |}.
Definition set_ks_nextpid (v : Z) (k : kernel C) : kernel C :=
  {| ks_mem := ks_mem k; ks_log := ks_log k; ks_sb := ks_sb k; ks_inode := ks_inode k;
     ks_file := ks_file k; ks_pipe := ks_pipe k; ks_proc := ks_proc k; ks_nextpid := v;
     ks_initproc := ks_initproc k; ks_ticks := ks_ticks k; ks_cons := ks_cons k; ks_uart := ks_uart k |}.
Definition set_ks_initproc (v : option Z) (k : kernel C) : kernel C :=
  {| ks_mem := ks_mem k; ks_log := ks_log k; ks_sb := ks_sb k; ks_inode := ks_inode k;
     ks_file := ks_file k; ks_pipe := ks_pipe k; ks_proc := ks_proc k; ks_nextpid := ks_nextpid k;
     ks_initproc := v; ks_ticks := ks_ticks k; ks_cons := ks_cons k; ks_uart := ks_uart k |}.
Definition set_ks_ticks (v : Z) (k : kernel C) : kernel C :=
  {| ks_mem := ks_mem k; ks_log := ks_log k; ks_sb := ks_sb k; ks_inode := ks_inode k;
     ks_file := ks_file k; ks_pipe := ks_pipe k; ks_proc := ks_proc k; ks_nextpid := ks_nextpid k;
     ks_initproc := ks_initproc k; ks_ticks := v; ks_cons := ks_cons k; ks_uart := ks_uart k |}.
Definition set_ks_cons (v : console) (k : kernel C) : kernel C :=
  {| ks_mem := ks_mem k; ks_log := ks_log k; ks_sb := ks_sb k; ks_inode := ks_inode k;
     ks_file := ks_file k; ks_pipe := ks_pipe k; ks_proc := ks_proc k; ks_nextpid := ks_nextpid k;
     ks_initproc := ks_initproc k; ks_ticks := ks_ticks k; ks_cons := v; ks_uart := ks_uart k |}.
Definition set_ks_uart (v : uart) (k : kernel C) : kernel C :=
  {| ks_mem := ks_mem k; ks_log := ks_log k; ks_sb := ks_sb k; ks_inode := ks_inode k;
     ks_file := ks_file k; ks_pipe := ks_pipe k; ks_proc := ks_proc k; ks_nextpid := ks_nextpid k;
     ks_initproc := ks_initproc k; ks_ticks := ks_ticks k; ks_cons := ks_cons k; ks_uart := v |}.

(** Update one entry of a table. *)
Definition upd_inode (ip : Z) (f : inode -> inode) (k : kernel C) : kernel C :=
  set_ks_inode (<[ip := f (ks_inode k ip)]> (ks_inode k)) k.
Definition upd_file (f : Z) (g : file -> file) (k : kernel C) : kernel C :=
  set_ks_file (<[f := g (ks_file k f)]> (ks_file k)) k.
Definition upd_kpipe (pi : Z) (g : pipe -> pipe) (k : kernel C) : kernel C :=
  set_ks_pipe (<[pi := g (ks_pipe k pi)]> (ks_pipe k)) k.
Definition upd_proc (p : Z) (g : proc -> proc) (k : kernel C) : kernel C :=
  set_ks_proc (<[p := g (ks_proc k p)]> (ks_proc k)) k.
End kernel.
