(* ===== verification/Sched.v ===== *)
(** * Sched: the scheduler, sleep and wakeup on several CPUs, kernel/proc.c

    Every CPU runs its scheduler thread or the kernel thread of a process.
    A step is what a CPU does between two points where another CPU can see
    the difference: taking or dropping a spinlock, the stores it makes to a
    struct proc while it holds its lock, a context switch.  The kernel code
    around these routines is any sequence of calls that follows the rules the
    comments of proc.c give to the callers; interrupts arrive whenever the CPU
    holds no lock and leave the interrupted code on a stack of frames.

    The other files use [sleep] and [wakeup] through the monad of Prelude.v. *)

From S2P Require Import Prelude Riscv Kalloc Sleeplock Layout Bio BioSpec Log Pipe Kernel.

(** ** State *)

(** The lock of a struct proc, or any other spinlock. *)
Inductive lock := PL (p : Z) | CL (l : Z).

#[global] Instance lock_eq_dec : EqDecision lock.
Proof. solve_decision. Defined.

(** The loops over the process table that take each lock in turn. *)
Inductive scan :=
| Wakeup (ch : Z)  (** wakeup(chan) *)
| Kkill (p : Z)    (** kkill, whose pid belongs to the entry [p] *)
| Kwait            (** kwait's search for an exited child, and freeproc *)
| Allocproc        (** allocproc's search for a free entry *)
| Fork (p : Z)     (** the end of kfork, which makes the child [p] runnable *)
| Failed (p : Z).  (** freeproc of the child [p] when kfork runs out of memory *)

Inductive pc :=
| Run                               (** code outside this file *)
| SleepAcquire (ch : Z)             (** sleep: acquire(&p->lock) *)
| SleepRelease (ch : Z)             (** release(lk) *)
| SleepSet (ch : Z)                 (** p->chan = chan; p->state = SLEEPING *)
| SleepWoke (ch : Z)                (** p->chan = 0 *)
| SleepUnlock (ch : Z)              (** release(&p->lock) *)
| SleepReacquire (ch : Z)           (** acquire(lk) *)
| YieldAcquire                      (** yield: acquire(&p->lock) *)
| YieldSet                          (** p->state = RUNNABLE *)
| YieldUnlock                       (** release(&p->lock) *)
| ExitAcquire (l : Z)               (** kexit: acquire(&p->lock), with wait_lock [l] *)
| ExitSet (l : Z)                   (** p->state = ZOMBIE *)
| ExitRelease (l : Z)               (** release(&wait_lock) *)
| ExitDead                          (** panic("zombie exit") *)
| Forkret                           (** forkret: release(&p->lock) *)
| Sched (k : pc)                    (** sched(), then [k] *)
| ScanAcquire (o : scan) (i : Z)    (** acquire(&proc[i].lock) *)
| ScanIn (o : scan) (i : Z)         (** the body of the loop *)
| ScanRelease (o : scan) (i : Z) (last : bool)
| SchedulerTop                      (** scheduler: intr_on(); intr_off() *)
| SchedulerAcquire (i : Z)
| SchedulerTest (i : Z)             (** is proc[i] RUNNABLE? *)
| SchedulerBack (i : Z)             (** swtch returned: c->proc = 0 *)
| SchedulerRelease (i : Z)
| Panicked (msg : string).

(** struct cpu: the process, the spinlocks held, whose number is [noff], the
    entry at which the scheduler thread called swtch, the frames of the running
    thread, and the channels whose condition it has made true without having
    called wakeup yet. *)
Record cpu := {
  c_proc : option Z;
  c_held : list lock;
  c_at : Z;
  c_frames : list pc;
  c_owed : gset Z
}.

(** struct proc, with the saved context as the frames it will resume. *)
Record pr := {
  r_state : procstate;
  r_chan : option Z;
  r_killed : bool;
  r_context : list pc
}.

Record sys := {
  s_cpu : Z -> cpu;
  s_pr : Z -> pr;
  s_lock : lock -> option Z;
  s_cond : Z -> bool
}.

Definition with_cpu (c : Z) (k : cpu) (s : sys) : sys :=
  {| s_cpu := <[c := k]> (s_cpu s); s_pr := s_pr s; s_lock := s_lock s; s_cond := s_cond s |}.
Definition with_pr (p : Z) (r : pr) (s : sys) : sys :=
  {| s_cpu := s_cpu s; s_pr := <[p := r]> (s_pr s); s_lock := s_lock s; s_cond := s_cond s |}.
Definition with_cond (ch : Z) (b : bool) (s : sys) : sys :=
  {| s_cpu := s_cpu s; s_pr := s_pr s; s_lock := s_lock s; s_cond := <[ch := b]> (s_cond s) |}.
Definition with_lock (l : lock) (o : option Z) (s : sys) : sys :=
  {| s_cpu := s_cpu s; s_pr := s_pr s; s_lock := <[l := o]> (s_lock s); s_cond := s_cond s |}.

Definition set_frames (f : list pc) (k : cpu) : cpu :=
  {| c_proc := c_proc k; c_held := c_held k; c_at := c_at k; c_frames := f; c_owed := c_owed k |}.
Definition set_held (h : list lock) (k : cpu) : cpu :=
  {| c_proc := c_proc k; c_held := h; c_at := c_at k; c_frames := c_frames k; c_owed := c_owed k |}.
Definition set_proc (p : option Z) (k : cpu) : cpu :=
  {| c_proc := p; c_held := c_held k; c_at := c_at k; c_frames := c_frames k; c_owed := c_owed k |}.
Definition set_at (i : Z) (k : cpu) : cpu :=
  {| c_proc := c_proc k; c_held := c_held k; c_at := i; c_frames := c_frames k; c_owed := c_owed k |}.
Definition set_owed (o : gset Z) (k : cpu) : cpu :=
  {| c_proc := c_proc k; c_held := c_held k; c_at := c_at k; c_frames := c_frames k; c_owed := o |}.

Definition set_state (st : procstate) (r : pr) : pr :=
  {| r_state := st; r_chan := r_chan r; r_killed := r_killed r; r_context := r_context r |}.
Definition set_chan (ch : option Z) (r : pr) : pr :=
  {| r_state := r_state r; r_chan := ch; r_killed := r_killed r; r_context := r_context r |}.
Definition set_killed (b : bool) (r : pr) : pr :=
  {| r_state := r_state r; r_chan := r_chan r; r_killed := b; r_context := r_context r |}.
Definition set_context (f : list pc) (r : pr) : pr :=
  {| r_state := r_state r; r_chan := r_chan r; r_killed := r_killed r; r_context := f |}.

(** ** Steps *)

Definition goto (c : Z) (f : list pc) (s : sys) : sys := with_cpu c (set_frames f (s_cpu s c)) s.

(** [acquire]: the CPU waits while another one has the lock. *)
Definition take_lock (c : Z) (l : lock) (f : list pc) (s : sys) : option sys :=
  match s_lock s l with
  | None => Some (with_lock l (Some c) (with_cpu c (set_frames f (set_held (l :: c_held (s_cpu s c)) (s_cpu s c))) s))
  | Some _ => None
  end.

Fixpoint unlock (l : lock) (h : list lock) : list lock :=
  match h with
  | [] => []
  | l' :: h => if decide (l' = l) then h else l' :: unlock l h
  end.

Definition drop_lock (c : Z) (l : lock) (f : list pc) (s : sys) : sys :=
  if decide (l ∈ c_held (s_cpu s c)) then
    with_lock l None (with_cpu c (set_frames f (set_held (unlock l (c_held (s_cpu s c))) (s_cpu s c))) s)
  else goto c [Panicked "release"] s.

(** The body of a loop over the process table at entry [i]: the entry, and
    whether the loop ends there. *)
Definition visit (o : scan) (i : Z) (r : pr) : pr * bool :=
  match o with
  | Wakeup ch =>
      (if decide (r_state r = SLEEPING /\ r_chan r = Some ch) then set_state RUNNABLE r else r, false)
  | Kkill p =>
      if decide (i = p) then
        let r := set_killed true r in
        (if decide (r_state r = SLEEPING) then set_state RUNNABLE r else r, true)
      else (r, false)
  | Kwait =>
      if decide (r_state r = ZOMBIE) then (set_state UNUSED (set_killed false (set_chan None r)), true)
      else (r, false)
  | Allocproc =>
      if decide (r_state r = UNUSED) then (set_state USED (set_context [Forkret] r), true) else (r, false)
  | Fork p =>
      if decide (i = p /\ r_state r = USED) then (set_state RUNNABLE r, true) else (r, false)
  | Failed p =>
      if decide (i = p /\ r_state r = USED) then (set_state UNUSED (set_killed false (set_chan None r)), true)
      else (r, false)
  end.

(** One step of the routines of this file on CPU [c]; nothing when the CPU
    spins on a lock or is outside them. *)
Definition internal (lock_of : Z -> Z) (c : Z) (s : sys) : option sys :=
  let k := s_cpu s c in
  match c_frames k with
  | [] => None
  | top :: rest =>
      match top, c_proc k with
      | SleepAcquire ch, Some p => take_lock c (PL p) (SleepRelease ch :: rest) s
      | SleepRelease ch, Some p => Some (drop_lock c (CL (lock_of ch)) (SleepSet ch :: rest) s)
      | SleepSet ch, Some p =>
          Some (goto c (Sched (SleepWoke ch) :: rest)
            (with_pr p (set_state SLEEPING (set_chan (Some ch) (s_pr s p))) s))
      | SleepWoke ch, Some p =>
          Some (goto c (SleepUnlock ch :: rest) (with_pr p (set_chan None (s_pr s p)) s))
      | SleepUnlock ch, Some p => Some (drop_lock c (PL p) (SleepReacquire ch :: rest) s)
      | SleepReacquire ch, Some p => take_lock c (CL (lock_of ch)) (Run :: rest) s
      | YieldAcquire, Some p => take_lock c (PL p) (YieldSet :: rest) s
      | YieldSet, Some p =>
          Some (goto c (Sched YieldUnlock :: rest) (with_pr p (set_state RUNNABLE (s_pr s p)) s))
      | YieldUnlock, Some p => Some (drop_lock c (PL p) (Run :: rest) s)
      | ExitAcquire l, Some p => take_lock c (PL p) (ExitSet l :: rest) s
      | ExitSet l, Some p =>
          Some (goto c (ExitRelease l :: rest) (with_pr p (set_state ZOMBIE (s_pr s p)) s))
      | ExitRelease l, Some p => Some (drop_lock c (CL l) (Sched ExitDead :: rest) s)
      | ExitDead, Some p => Some (goto c [Panicked "zombie exit"] s)
      | Forkret, Some p => Some (drop_lock c (PL p) (Run :: rest) s)
      | Sched after, Some p =>
          if decide (PL p ∉ c_held k) then Some (goto c [Panicked "sched p->lock"] s)
          else if decide (length (c_held k) <> 1%nat) then Some (goto c [Panicked "sched locks"] s)
          else if decide (r_state (s_pr s p) = RUNNING) then Some (goto c [Panicked "sched RUNNING"] s)
          else Some (goto c [SchedulerBack (c_at k)] (with_pr p (set_context (after :: rest) (s_pr s p)) s))
      | ScanAcquire o i, me =>
          if decide (i < NPROC) then
            match o with
            | Wakeup _ =>
                if decide (me = Some i) then Some (goto c (ScanAcquire o (i + 1) :: rest) s)
                else take_lock c (PL i) (ScanIn o i :: rest) s
            | _ => take_lock c (PL i) (ScanIn o i :: rest) s
            end
          else
            match o with
            | Wakeup ch => Some (with_cpu c (set_owed (c_owed k ∖ {[ch]}) (set_frames (Run :: rest) k)) s)
            | _ => Some (goto c (Run :: rest) s)
            end
      | ScanIn o i, _ =>
          let '(r, last) := visit o i (s_pr s i) in
          Some (goto c (ScanRelease o i last :: rest) (with_pr i r s))
      | ScanRelease o i last, _ =>
          Some (drop_lock c (PL i) ((if last then Run else ScanAcquire o (i + 1)) :: rest) s)
      | SchedulerTop, None => Some (goto c (SchedulerAcquire 0 :: rest) s)
      | SchedulerAcquire i, None =>
          if decide (i < NPROC) then take_lock c (PL i) (SchedulerTest i :: rest) s
          else Some (goto c (SchedulerTop :: rest) s)
      | SchedulerTest i, None =>
          if decide (r_state (s_pr s i) = RUNNABLE) then
            Some (with_cpu c (set_proc (Some i) (set_at i (set_frames (r_context (s_pr s i)) k)))
              (with_pr i (set_state RUNNING (s_pr s i)) s))
          else Some (goto c (SchedulerRelease i :: rest) s)
      | SchedulerBack i, Some p =>
          Some (with_cpu c (set_proc None (set_frames (SchedulerRelease i :: rest) k)) s)
      | SchedulerRelease i, None => Some (drop_lock c (PL i) (SchedulerAcquire (i + 1) :: rest) s)
      | _, _ => None
      end
  end.

(** Points of the code at which an interrupt may arrive. *)
Definition interruptible (f : pc) : bool :=
  match f with
  | Run | SleepReacquire _ | YieldAcquire | SchedulerTop => true
  | ScanAcquire o _ => match o with Wakeup _ => false | _ => true end
  | _ => false
  end.

(** No wakeup is owed for a channel that [l] protects. *)
Definition paid (lock_of : Z -> Z) (l : Z) (k : cpu) : Prop := forall ch, ch ∈ c_owed k -> lock_of ch <> l.

(** A step of the whole system.  [lock_of] is the lock that protects the
    condition a channel is slept on for. *)
Inductive step (lock_of : Z -> Z) (s : sys) : sys -> Prop :=
| step_internal c s' : internal lock_of c s = Some s' -> step lock_of s s'
| step_acquire c l rest s' :
    c_frames (s_cpu s c) = Run :: rest -> take_lock c (CL l) (Run :: rest) s = Some s' -> step lock_of s s'
| step_release c l rest :
    c_frames (s_cpu s c) = Run :: rest -> CL l ∈ c_held (s_cpu s c) -> paid lock_of l (s_cpu s c) ->
    step lock_of s (drop_lock c (CL l) (Run :: rest) s)
| step_condition c ch b rest :
    c_frames (s_cpu s c) = Run :: rest -> CL (lock_of ch) ∈ c_held (s_cpu s c) ->
    step lock_of s (with_cond ch b (with_cpu c
      (set_owed (if b then {[ch]} ∪ c_owed (s_cpu s c) else c_owed (s_cpu s c)) (s_cpu s c)) s))
| step_wakeup c ch rest :
    c_frames (s_cpu s c) = Run :: rest -> CL (lock_of ch) ∈ c_held (s_cpu s c) ->
    step lock_of s (goto c (ScanAcquire (Wakeup ch) 0 :: rest) s)
| step_scan c o rest :
    c_frames (s_cpu s c) = Run :: rest -> (forall ch, o <> Wakeup ch) ->
    step lock_of s (goto c (ScanAcquire o 0 :: rest) s)
| step_sleep c ch p rest :
    c_frames (s_cpu s c) = Run :: rest -> c_proc (s_cpu s c) = Some p -> c_held (s_cpu s c) = [CL (lock_of ch)] ->
    s_cond s ch = false -> paid lock_of (lock_of ch) (s_cpu s c) ->
    step lock_of s (goto c (SleepAcquire ch :: rest) s)
| step_yield c p rest :
    c_frames (s_cpu s c) = Run :: rest -> c_proc (s_cpu s c) = Some p -> c_held (s_cpu s c) = [] ->
    step lock_of s (goto c (YieldAcquire :: rest) s)
| step_exit c l p rest :
    c_frames (s_cpu s c) = Run :: rest -> c_proc (s_cpu s c) = Some p -> c_held (s_cpu s c) = [CL l] ->
    paid lock_of l (s_cpu s c) ->
    step lock_of s (goto c (ExitAcquire l :: rest) s)
| step_interrupt c f rest :
    c_frames (s_cpu s c) = f :: rest -> interruptible f = true -> c_held (s_cpu s c) = [] ->
    step lock_of s (goto c (Run :: f :: rest) s)
| step_return c f rest :
    c_frames (s_cpu s c) = Run :: f :: rest -> c_held (s_cpu s c) = [] ->
    step lock_of s (goto c (f :: rest) s).

(** Boot: every CPU enters its scheduler and userinit has made entry 0 runnable. *)
Definition boot : sys :=
  {| s_cpu := fun _ => {| c_proc := None; c_held := []; c_at := 0; c_frames := [SchedulerTop]; c_owed := ∅ |};
     s_pr := <[0 := {| r_state := RUNNABLE; r_chan := None; r_killed := false; r_context := [Forkret] |}]>
       (fun _ => {| r_state := UNUSED; r_chan := None; r_killed := false; r_context := [] |});
     s_lock := fun _ => None;
     s_cond := fun _ => false |}.

(** ** Invariant *)

Definition cls (h : list lock) : Prop := Forall (fun l => exists x, l = CL x) h.

(** A frame below the top one, of a process or of the scheduler thread. *)
Definition pframe (me : option Z) (f : pc) : Prop :=
  match f with
  | Run => True
  | SleepReacquire _ | YieldAcquire => is_Some me
  | ScanAcquire o i => 0 <= i /\ forall ch, o <> Wakeup ch
  | _ => False
  end.

Definition below (me : option Z) (top : pc) (rest : list pc) : Prop :=
  match top with
  | SchedulerTop | SchedulerAcquire _ | SchedulerTest _ | SchedulerBack _ | SchedulerRelease _ => rest = []
  | _ =>
      match me with
      | Some _ => Forall (pframe me) rest
      | None => exists l, rest = l ++ [SchedulerTop] /\ Forall (pframe me) l
      end
  end.

(** A process that is on no CPU. *)
Definition parked (p : Z) (r : pr) : Prop :=
  match r_state r with
  | UNUSED | ZOMBIE => True
  | USED => r_context r = [Forkret]
  | RUNNABLE => exists k rest, r_context r = k :: rest /\ Forall (pframe (Some p)) rest /\
      (k = Forkret \/ k = YieldUnlock \/ exists ch, k = SleepWoke ch)
  | SLEEPING => exists ch rest, r_context r = SleepWoke ch :: rest /\ Forall (pframe (Some p)) rest /\
      r_chan r = Some ch
  | RUNNING => False
  end.

(** The state a process is left in by [sched], by what it does next. *)
Definition leaves (after : pc) (r : pr) : Prop :=
  match after with
  | SleepWoke ch => r_state r = SLEEPING /\ r_chan r = Some ch
  | YieldUnlock => r_state r = RUNNABLE
  | ExitDead => r_state r = ZOMBIE
  | _ => False
  end.

(** Equal up to the killed flag. *)
Definition same (r r' : pr) : Prop := r_state r' = r_state r /\ r_chan r' = r_chan r /\ r_context r' = r_context r.

Lemma parked_same p r r' : same r r' -> parked p r -> parked p r'.
Proof. intros (E1 & E2 & E3). unfold parked. by rewrite E1, E2, E3. Qed.

Section invariant.
Context (lock_of : Z -> Z).

Definition scan_ok (o : scan) (i : Z) (h : list lock) : Prop :=
  cls h /\ 0 <= i /\ forall ch, o = Wakeup ch -> CL (lock_of ch) ∈ h.

Definition top_ok (cond : Z -> bool) (prs : Z -> pr) (k : cpu) (top : pc) : Prop :=
  let h := c_held k in
  match top, c_proc k with
  | Run, _ => cls h
  | SleepAcquire ch, Some p => h = [CL (lock_of ch)] /\ cond ch = false /\ paid lock_of (lock_of ch) k
  | SleepRelease ch, Some p => h = [PL p; CL (lock_of ch)] /\ cond ch = false /\ paid lock_of (lock_of ch) k
  | (SleepSet _ | SleepWoke _ | SleepUnlock _ | YieldSet | YieldUnlock | Forkret), Some p => h = [PL p]
  | (SleepReacquire _ | YieldAcquire), Some p => h = []
  | ExitAcquire l, Some p => h = [CL l] /\ paid lock_of l k
  | ExitSet l, Some p => h = [PL p; CL l] /\ paid lock_of l k
  | ExitRelease l, Some p => h = [PL p; CL l] /\ paid lock_of l k /\ r_state (prs p) = ZOMBIE
  | Sched after, Some p => h = [PL p] /\ leaves after (prs p)
  | ScanAcquire o i, _ => scan_ok o i h
  | ScanIn o i, me =>
      exists h', h = PL i :: h' /\ scan_ok o i h' /\ i < NPROC /\ forall ch, o = Wakeup ch -> me <> Some i
  | ScanRelease o i last, me =>
      exists h', h = PL i :: h' /\ scan_ok o i h' /\ i < NPROC /\ forall ch, o = Wakeup ch -> last = false
  | SchedulerTop, None => h = []
  | SchedulerAcquire i, None => h = [] /\ 0 <= i
  | (SchedulerTest i | SchedulerRelease i), None => h = [PL i] /\ 0 <= i < NPROC
  | SchedulerBack i, Some p => p = i /\ h = [PL i] /\ 0 <= i < NPROC /\ parked i (prs i)
  | _, _ => False
  end.

(** The process on the CPU is RUNNING except on its way out of sched. *)
Definition settled (top : pc) : bool :=
  match top with
  | Sched _ | ExitRelease _ | SchedulerBack _ => false
  | _ => true
  end.

Definition cpu_ok (cond : Z -> bool) (prs : Z -> pr) (k : cpu) : Prop :=
  match c_frames k with
  | [] => False
  | top :: rest => top_ok cond prs k top /\ below (c_proc k) top rest /\
      forall p, c_proc k = Some p -> 0 <= p < NPROC /\ c_at k = p /\ (settled top = true -> r_state (prs p) = RUNNING)
  end.

(** The CPU will still reach entry [p] with a wakeup of [ch]. *)
Definition reaching (k : cpu) (ch p : Z) : Prop :=
  ch ∈ c_owed k /\
  match c_frames k with
  | ScanAcquire (Wakeup ch') i :: _ | ScanIn (Wakeup ch') i :: _ => ch' = ch -> i <= p
  | ScanRelease (Wakeup ch') i _ :: _ => ch' = ch -> i < p
  | _ => True
  end.

(** The process sleeps on [ch], or has dropped the lock on its way to. *)
Definition asleep (r : pr) (ch : Z) : Prop := r_state r = SLEEPING /\ r_chan r = Some ch.
Definition falling (k : cpu) (p ch : Z) : Prop := c_proc k = Some p /\ head (c_frames k) = Some (SleepSet ch).

Record sched_inv (s : sys) : Prop := {
  si_lock : forall l c, l ∈ c_held (s_cpu s c) <-> s_lock s l = Some c;
  si_nodup : forall c, NoDup (c_held (s_cpu s c));
  si_cpu : forall c, cpu_ok (s_cond s) (s_pr s) (s_cpu s c);
  si_one : forall c c' p, c_proc (s_cpu s c) = Some p -> c_proc (s_cpu s c') = Some p -> c = c';
  si_parked : forall p, (forall c, c_proc (s_cpu s c) <> Some p) -> parked p (s_pr s p);
  si_range : forall p, r_state (s_pr s p) <> UNUSED -> 0 <= p < NPROC;
  si_owed : forall c ch, ch ∈ c_owed (s_cpu s c) -> CL (lock_of ch) ∈ c_held (s_cpu s c);
  si_wake : forall p ch, asleep (s_pr s p) ch \/ (exists c, falling (s_cpu s c) p ch) ->
    s_cond s ch = false \/ exists c, reaching (s_cpu s c) ch p
}.

(** ** The invariant is kept *)

Lemma cpu_ok_frame cond prs cond' prs' k :
  cpu_ok cond prs k -> (forall p, c_proc k = Some p -> same (prs p) (prs' p)) ->
  (forall ch, CL (lock_of ch) ∈ c_held k -> cond' ch = cond ch) -> cpu_ok cond' prs' k.
Proof.
  unfold cpu_ok. destruct (c_frames k) as [|top rest]; [done|]. intros (Ht & Hb & Hr) Hp Hc.
  split_and!; [|done|].
  - unfold top_ok in *. destruct top, (c_proc k) as [p|]; try done; destruct (Hp p eq_refl) as (E1 & E2 & E3).
    + destruct Ht as (Eh & Ec & Hpd). rewrite Eh in Hc. rewrite Hc by set_solver. done.
    + destruct Ht as (Eh & Ec & Hpd). rewrite Eh in Hc. rewrite Hc by set_solver. done.
    + by rewrite E1.
    + destruct Ht as (? & Hl). split; [done|]. match goal with |- leaves ?a _ => destruct a end; simpl in *; rewrite ?E1, ?E2; done.
    + destruct Ht as (-> & ? & ? & ?). split_and!; try done; try lia. by eapply parked_same; [apply Hp|].
  - intros p E. destruct (Hp p E) as (-> & _). by apply Hr.
Qed.

(** A CPU that does not hold the lock of its process has it RUNNING. *)
Lemma unlocked_running cond prs k p :
  cpu_ok cond prs k -> c_proc k = Some p -> PL p ∉ c_held k -> r_state (prs p) = RUNNING.
Proof.
  unfold cpu_ok. destruct (c_frames k) as [|top rest]; [done|]. intros (Ht & _ & Hr) Hp Hl.
  destruct (Hr p Hp) as (_ & _ & Hr'). apply Hr'. unfold top_ok in Ht. rewrite Hp in Ht.
  destruct top; try done; destruct Ht as (E & ?).
  - exfalso. apply Hl. rewrite E. set_solver.
  - exfalso. apply Hl. rewrite E. set_solver.
  - destruct H as (E' & ?). exfalso. apply Hl. rewrite E, E'. set_solver.
Qed.

(** What a step of CPU [c] must establish: the CPU's new record and the
    entries, locks and conditions it leaves behind. *)
Lemma inv_update s c k prs lk cond :
  sched_inv s ->
  cpu_ok cond prs k ->
  (forall p, same (s_pr s p) (prs p) \/
    PL p ∈ c_held (s_cpu s c) /\ (r_state (s_pr s p) <> RUNNING \/ c_proc (s_cpu s c) = Some p)) ->
  (forall ch, cond ch = s_cond s ch \/ CL (lock_of ch) ∈ c_held (s_cpu s c)) ->
  (forall l, l ∈ c_held k <-> lk l = Some c) ->
  (forall l c', c' <> c -> lk l = Some c' <-> s_lock s l = Some c') ->
  NoDup (c_held k) ->
  (forall c' p, c' <> c -> c_proc k = Some p -> c_proc (s_cpu s c') <> Some p) ->
  (forall p, c_proc k <> Some p -> (forall c', c' <> c -> c_proc (s_cpu s c') <> Some p) -> parked p (prs p)) ->
  (forall p, r_state (prs p) <> UNUSED -> 0 <= p < NPROC) ->
  (forall ch, ch ∈ c_owed k -> CL (lock_of ch) ∈ c_held k) ->
  (forall p ch, asleep (prs p) ch \/ falling k p ch \/ (exists c', c' <> c /\ falling (s_cpu s c') p ch) ->
    cond ch = false \/ reaching k ch p \/ exists c', c' <> c /\ reaching (s_cpu s c') ch p) ->
  sched_inv {| s_cpu := <[c := k]> (s_cpu s); s_pr := prs; s_lock := lk; s_cond := cond |}.
Proof.
  intros I Hk Hprs Hcond Hlk Hlk' Hnd Hone Hpk Hrg Ho Hw.
  assert (Hoth : forall c', c' <> c -> cpu_ok cond prs (s_cpu s c')).
  { intros c' Hc'. eapply cpu_ok_frame; [apply (si_cpu s I c')|..].
    - intros p Hp. destruct (Hprs p) as [?|[Hl Hst]]; [done|]. exfalso.
      assert (Hr : r_state (s_pr s p) = RUNNING).
      { eapply unlocked_running; [apply (si_cpu s I c')|done|]. intros Hl'.
        apply (si_lock s I) in Hl, Hl'. congruence. }
      destruct Hst as [Hst|Hst]; [done|]. apply Hc'. by eapply (si_one s I).
    - intros ch Hl. destruct (Hcond ch) as [->|Hl']; [done|]. exfalso.
      apply (si_lock s I) in Hl, Hl'. congruence. }
  split; cbn [s_cpu s_pr s_lock s_cond].
  - intros l c'. rewrite upd_eq. case_decide as E; [subst; apply Hlk|].
    rewrite Hlk' by done. apply (si_lock s I).
  - intros c'. rewrite upd_eq. case_decide; [done|]. apply (si_nodup s I).
  - intros c'. rewrite upd_eq. case_decide; [done|]. by apply Hoth.
  - intros c1 c2 p. rewrite !upd_eq. case_decide; case_decide; subst; try done; intros H1 H2.
    + exfalso. by eapply Hone.
    + exfalso. by eapply Hone.
    + by eapply (si_one s I).
  - intros p Hp. apply Hpk.
    + specialize (Hp c). by rewrite upd_same in Hp.
    + intros c' Hc'. specialize (Hp c'). by rewrite upd_other in Hp.
  - done.
  - intros c' ch. rewrite upd_eq. case_decide; [apply Ho|]. apply (si_owed s I).
  - intros p ch Hf. destruct (Hw p ch) as [?|[?|[c' [Hc' ?]]]].
    + destruct Hf as [?|[c' Hf]]; [by left|]. rewrite upd_eq in Hf. case_decide; [by right; left|].
      right; right. by exists c'.
    + by left.
    + right. exists c. by rewrite upd_same.
    + right. exists c'. by rewrite upd_other.
Qed.

(** A thread that a wakeup has to find, as CPU [c] sees it. *)
Definition waiting (s : sys) (c q ch : Z) : Prop :=
  asleep (s_pr s q) ch \/ exists c', c' <> c /\ falling (s_cpu s c') q ch.

Lemma waiting_wake s c q ch : sched_inv s -> waiting s c q ch ->
  s_cond s ch = false \/ reaching (s_cpu s c) ch q \/ exists c', c' <> c /\ reaching (s_cpu s c') ch q.
Proof.
  intros I Hw. destruct (si_wake s I q ch) as [?|[c' Hr]]; [destruct Hw as [?|[c' [_ ?]]]; eauto|by left|].
  destruct (decide (c' = c)) as [->|]; [by right; left|]. right; right. by exists c'.
Qed.

(** Only the code position changes. *)
Lemma sched_inv_goto s c k :
  sched_inv s ->
  c_held k = c_held (s_cpu s c) -> c_proc k = c_proc (s_cpu s c) ->
  (forall ch, ch ∈ c_owed k -> CL (lock_of ch) ∈ c_held k) ->
  cpu_ok (s_cond s) (s_pr s) k ->
  (forall ch, head (c_frames k) <> Some (SleepSet ch)) ->
  (forall q ch, waiting s c q ch -> reaching (s_cpu s c) ch q -> reaching k ch q) ->
  sched_inv (with_cpu c k s).
Proof.
  intros I Eh Ep Ho Hk Hns Hr. apply inv_update; try done; rewrite ?Eh, ?Ep.
  - intros; by left.
  - intros; by left.
  - intros l. apply (si_lock s I).
  - apply (si_nodup s I).
  - intros c' p Hc' Hp Hp'. apply Hc'. by eapply (si_one s I).
  - intros p Hp Hp'. apply (si_parked s I). intros c'. destruct (decide (c' = c)) as [->|]; auto.
  - apply (si_range s I).
  - intros q ch Hf. assert (Hw : waiting s c q ch).
    { destruct Hf as [?|[[_ Hf]|?]]; [by left| |by right]. by apply Hns in Hf. }
    destruct (waiting_wake s c q ch I Hw) as [?|[?|?]]; auto.
Qed.

(** The CPU also changes an entry whose lock it holds. *)
Lemma inv_local s c k p r :
  sched_inv s ->
  c_held k = c_held (s_cpu s c) -> c_proc k = c_proc (s_cpu s c) -> c_owed k = c_owed (s_cpu s c) ->
  PL p ∈ c_held (s_cpu s c) ->
  same (s_pr s p) r \/ r_state (s_pr s p) <> RUNNING \/ c_proc (s_cpu s c) = Some p ->
  0 <= p < NPROC ->
  cpu_ok (s_cond s) (<[p := r]> (s_pr s)) k ->
  ((forall c', c_proc (s_cpu s c') <> Some p) -> parked p r) ->
  (forall ch, head (c_frames k) <> Some (SleepSet ch)) ->
  (forall ch, asleep r ch -> asleep (s_pr s p) ch \/ falling (s_cpu s c) p ch) ->
  (forall q ch, waiting s c q ch -> q <> p \/ asleep r ch -> reaching (s_cpu s c) ch q -> reaching k ch q) ->
  (forall ch, falling (s_cpu s c) p ch -> forall q, reaching (s_cpu s c) ch q -> reaching k ch q) ->
  sched_inv (with_cpu c k (with_pr p r s)).
Proof.
  intros I Eh Ep Eo Hl Hst Hrg Hk Hpk Hns Hsl Hr Hr'.
  apply (inv_update s c k (<[p := r]> (s_pr s)) (s_lock s) (s_cond s)); try done; rewrite ?Eh, ?Ep, ?Eo.
  - intros q. rewrite upd_eq. case_decide; [subst|by left]. destruct Hst as [?|?]; [by left|by right].
  - intros; by left.
  - intros l. apply (si_lock s I).
  - apply (si_nodup s I).
  - intros c' q Hc' Hq Hq'. apply Hc'. by eapply (si_one s I).
  - intros q Hq Hq'. rewrite upd_eq. case_decide as E.
    + subst q. apply Hpk. intros c'. destruct (decide (c' = c)) as [->|]; auto.
    + apply (si_parked s I). intros c'. destruct (decide (c' = c)) as [->|]; auto.
  - intros q. rewrite upd_eq. case_decide; [by subst|]. apply (si_range s I).
  - apply (si_owed s I).
  - intros q ch Hf.
    assert (Hc : (exists c', c' <> c /\ falling (s_cpu s c') q ch) -> q <> p).
    { intros (c' & Hc' & Hq & Hh) ->. apply Hc'. pose proof (si_cpu s I c') as Hk'. unfold cpu_ok in Hk'.
      destruct (c_frames (s_cpu s c')) as [|top rest] eqn:Ef; [done|]. simplify_eq/=.
      destruct Hk' as (Ht & _). unfold top_ok in Ht. rewrite Hq in Ht.
      apply (si_lock s I) in Hl. assert (Hl' : PL p ∈ c_held (s_cpu s c')) by (rewrite Ht; set_solver).
      apply (si_lock s I) in Hl'. congruence. }
    rewrite upd_eq in Hf. destruct (decide (p = q)) as [<-|Hne].
    + destruct Hf as [Hf|[[_ Hf]|Hf]]; [|by apply Hns in Hf|by apply Hc in Hf].
      destruct (Hsl ch Hf) as [Hs|Hs].
      * destruct (waiting_wake s c p ch I) as [?|[?|?]]; [by left|auto| |auto].
        right; left. apply Hr; auto. by left.
      * destruct (si_wake s I p ch) as [?|[c' Hrc]]; [right; by exists c|by left|].
        destruct (decide (c' = c)) as [->|]; [right; left; eauto|right; right; by exists c'].
    + assert (Hw : waiting s c q ch).
      { destruct Hf as [?|[[_ Hf]|?]]; [by left| |by right]. by apply Hns in Hf. }
      destruct (waiting_wake s c q ch I Hw) as [?|[?|?]]; auto.
Qed.

Lemma elem_of_unlock l h x : NoDup h -> x ∈ unlock l h <-> x ∈ h /\ x <> l.
Proof.
  induction h as [|y h IH]; simpl; [set_solver|]. intros [Hy Hnd]%NoDup_cons. case_decide; set_solver.
Qed.

Lemma NoDup_unlock l h : NoDup h -> NoDup (unlock l h).
Proof.
  induction h as [|y h IH]; simpl; [done|]. intros [Hy Hnd]%NoDup_cons. case_decide; [done|].
  apply NoDup_cons. split; [|auto]. rewrite elem_of_unlock by done. tauto.
Qed.

Lemma inv_take s c l f s' :
  sched_inv s -> take_lock c l f s = Some s' ->
  cpu_ok (s_cond s) (s_pr s) (set_frames f (set_held (l :: c_held (s_cpu s c)) (s_cpu s c))) ->
  (forall ch, head f <> Some (SleepSet ch)) ->
  (forall q ch, waiting s c q ch -> reaching (s_cpu s c) ch q -> reaching (set_frames f (s_cpu s c)) ch q) ->
  sched_inv s'.
Proof.
  intros I Ht Hk Hns Hr. unfold take_lock in Ht. destruct (s_lock s l) eqn:El; [done|]. injection Ht as <-.
  apply inv_update; try done; cbn [c_held set_frames set_held c_proc c_owed].
  - intros; by left.
  - intros; by left.
  - intros x. rewrite elem_of_cons, (si_lock s I). unfold insert, fn_insert. case_decide; naive_solver.
  - intros x c' Hc'. unfold insert, fn_insert. case_decide; naive_solver.
  - apply NoDup_cons. split; [|apply (si_nodup s I)]. rewrite (si_lock s I). congruence.
  - intros c' p Hc' Hp Hp'. apply Hc'. by eapply (si_one s I).
  - intros p Hp Hp'. apply (si_parked s I). intros c'. destruct (decide (c' = c)) as [->|]; auto.
  - apply (si_range s I).
  - intros ch Hch. apply elem_of_cons. right. by apply (si_owed s I).
  - intros q ch Hf. assert (Hw : waiting s c q ch).
    { destruct Hf as [?|[[_ Hf]|?]]; [by left| |by right]. by apply Hns in Hf. }
    destruct (waiting_wake s c q ch I Hw) as [?|[?|?]]; auto. right; left. by apply Hr.
Qed.

Lemma inv_drop s c l f :
  sched_inv s -> l ∈ c_held (s_cpu s c) ->
  cpu_ok (s_cond s) (s_pr s) (set_frames f (set_held (unlock l (c_held (s_cpu s c))) (s_cpu s c))) ->
  (forall ch, ch ∈ c_owed (s_cpu s c) -> CL (lock_of ch) <> l) ->
  (forall ch, head f = Some (SleepSet ch) -> s_cond s ch = false) ->
  (forall q ch, waiting s c q ch -> reaching (s_cpu s c) ch q -> reaching (set_frames f (s_cpu s c)) ch q) ->
  sched_inv (drop_lock c l f s).
Proof.
  intros I Hl Hk Ho Hns Hr. unfold drop_lock. rewrite decide_True by done.
  pose proof (si_nodup s I c) as Hnd.
  apply inv_update; try done; cbn [c_held set_frames set_held c_proc c_owed].
  - intros; by left.
  - intros; by left.
  - intros x. rewrite elem_of_unlock by done. rewrite (si_lock s I). unfold insert, fn_insert. case_decide; naive_solver.
  - intros x c' Hc'. apply (si_lock s I) in Hl. unfold insert, fn_insert. case_decide; naive_solver.
  - by apply NoDup_unlock.
  - intros c' p Hc' Hp Hp'. apply Hc'. by eapply (si_one s I).
  - intros p Hp Hp'. apply (si_parked s I). intros c'. destruct (decide (c' = c)) as [->|]; auto.
  - apply (si_range s I).
  - intros ch Hch. rewrite elem_of_unlock by done. split; [by apply (si_owed s I)|auto].
  - intros q ch Hf. assert (Hw : waiting s c q ch \/ s_cond s ch = false).
    { destruct Hf as [?|[[_ Hf]|?]]; [by left; left|right; by apply Hns|by left; right]. }
    destruct Hw as [Hw|?]; [|by left].
    destruct (waiting_wake s c q ch I Hw) as [?|[?|?]]; auto. right; left. by apply Hr.
Qed.

Ltac fields := cbn [set_frames set_held set_proc set_at set_owed c_frames c_held c_proc c_at c_owed head
  set_state set_chan set_killed set_context r_state r_chan r_killed r_context].

(** Code of a process or of an interrupt handler, not the scheduler's. *)
Definition thread_pc (f : pc) : bool :=
  match f with
  | SchedulerTop | SchedulerAcquire _ | SchedulerTest _ | SchedulerBack _ | SchedulerRelease _ => false
  | _ => true
  end.

(** Neither inside wakeup nor between release(lk) and sched(). *)
Definition plain_pc (f : pc) : bool :=
  match f with
  | SleepSet _ | ScanAcquire (Wakeup _) _ | ScanIn (Wakeup _) _ | ScanRelease (Wakeup _) _ _ => false
  | _ => true
  end.

Lemma reaching_plain k f rest ch q : ch ∈ c_owed k -> plain_pc f = true -> reaching (set_frames (f :: rest) k) ch q.
Proof. intros Ho Hf. split; [done|]. fields. destruct f as [| | | | | | | | | | | | | | | |[]|[]|[]| | | | | |]; done. Qed.

Lemma plain_not_set f rest ch : plain_pc f = true -> head (f :: rest) <> Some (SleepSet ch).
Proof. intros Hf [=->]. done. Qed.

Lemma below_thread me f g rest : thread_pc f = true -> thread_pc g = true -> below me f rest -> below me g rest.
Proof. unfold below. by destruct f, g. Qed.

Section thread.
Context (s : sys) (I : sched_inv s) (c : Z) (top f : pc) (rest : list pc).
Context (Ef : c_frames (s_cpu s c) = top :: rest).
Context (Htop : thread_pc top = true) (Hf : thread_pc f = true) (Hpl : plain_pc f = true).
Context (Hst : c_proc (s_cpu s c) = None \/ settled top = true).

Lemma thread_cpu_ok k :
  top_ok (s_cond s) (s_pr s) k f -> c_frames k = f :: rest -> c_proc k = c_proc (s_cpu s c) -> c_at k = c_at (s_cpu s c) ->
  cpu_ok (s_cond s) (s_pr s) k.
Proof using All.
  intros Hok Ek Ep Ea. pose proof (si_cpu s I c) as Hk. unfold cpu_ok in Hk |- *. rewrite Ef in Hk.
  destruct Hk as (_ & Hb & Hr). rewrite Ek, Ep, Ea. split_and!; [done|by apply (below_thread _ top f)|].
  intros p Hp. destruct (Hr p Hp) as (? & ? & Hr'). split_and!; try done; try lia.
  intros _. apply Hr'. by destruct Hst; [congruence|].
Qed.

Lemma thread_take l s' :
  take_lock c l (f :: rest) s = Some s' ->
  top_ok (s_cond s) (s_pr s) (set_frames (f :: rest) (set_held (l :: c_held (s_cpu s c)) (s_cpu s c))) f ->
  sched_inv s'.
Proof using All.
  intros Htk Hok. eapply inv_take; [done|exact Htk|..].
  - by apply thread_cpu_ok.
  - intros ch. by apply plain_not_set.
  - intros q ch _ [Ho _]. by apply reaching_plain.
Qed.

Lemma thread_drop l :
  l ∈ c_held (s_cpu s c) ->
  (forall ch, ch ∈ c_owed (s_cpu s c) -> CL (lock_of ch) <> l) ->
  top_ok (s_cond s) (s_pr s)
    (set_frames (f :: rest) (set_held (unlock l (c_held (s_cpu s c))) (s_cpu s c))) f ->
  sched_inv (drop_lock c l (f :: rest) s).
Proof using All.
  intros Hl Ho Hok. apply inv_drop; try done.
  - by apply thread_cpu_ok.
  - intros ch E. by apply (plain_not_set f rest ch) in E.
  - intros q ch _ [Hch _]. by apply reaching_plain.
Qed.

Lemma thread_goto :
  top_ok (s_cond s) (s_pr s) (set_frames (f :: rest) (s_cpu s c)) f ->
  sched_inv (goto c (f :: rest) s).
Proof using All.
  intros Hok. apply sched_inv_goto; try done.
  - intros ch. apply (si_owed s I).
  - by apply thread_cpu_ok.
  - intros ch. by apply plain_not_set.
  - intros q ch _ [Ho _]. by apply reaching_plain.
Qed.

(** The process changes its own entry under its lock. *)
Lemma thread_own p r :
  c_proc (s_cpu s c) = Some p -> PL p ∈ c_held (s_cpu s c) ->
  top_ok (s_cond s) (<[p := r]> (s_pr s)) (set_frames (f :: rest) (s_cpu s c)) f ->
  (settled f = true -> r_state r = RUNNING) -> (forall ch, asleep r ch -> top = SleepSet ch) ->
  sched_inv (goto c (f :: rest) (with_pr p r s)).
Proof using All.
  intros Ep Hl Hok Hrun Hsl. pose proof (si_cpu s I c) as Hk. unfold cpu_ok in Hk. rewrite Ef in Hk.
  destruct Hk as (_ & Hb & Hr). destruct (Hr p Ep) as (Hrg & Hat & _). unfold goto. cbn [s_cpu with_pr].
  apply inv_local; try done.
  - by right; right.
  - unfold cpu_ok. fields. split_and!; [done|by apply (below_thread _ top f)|].
    intros q Hq. assert (q = p) as -> by congruence. rewrite upd_same. done.
  - intros Hoff. by apply Hoff in Ep.
  - intros ch. by apply plain_not_set.
  - intros ch Has. right. split; [done|]. rewrite Ef. simpl. f_equal. by apply Hsl.
  - intros q ch _ _ [Ho _]. by apply reaching_plain.
  - intros ch _ q [Ho _]. by apply reaching_plain.
Qed.
End thread.

Lemma top_of s c top rest : sched_inv s -> c_frames (s_cpu s c) = top :: rest ->
  top_ok (s_cond s) (s_pr s) (s_cpu s c) top /\ below (c_proc (s_cpu s c)) top rest /\
  forall p, c_proc (s_cpu s c) = Some p ->
    0 <= p < NPROC /\ c_at (s_cpu s c) = p /\ (settled top = true -> r_state (s_pr s p) = RUNNING).
Proof. intros I Ef. pose proof (si_cpu s I c) as Hk. unfold cpu_ok in Hk. by rewrite Ef in Hk. Qed.

Ltac simpl_unlock := cbn [unlock]; repeat (case_decide; try congruence).
Ltac by_top Ep Ht := unfold top_ok, paid; fields; rewrite Ep; destruct_and? Ht;
  repeat match goal with E : c_held _ = _ |- _ => rewrite E end; simpl_unlock; done.

Ltac taking Hi I Ef :=
  lazymatch type of Hi with take_lock ?c _ (?f :: ?rest) ?s = _ =>
    eapply (thread_take s I c _ f rest Ef); [done..|by right|exact Hi|] end.

Lemma internal_process s c p top rest s' :
  sched_inv s -> c_frames (s_cpu s c) = top :: rest -> c_proc (s_cpu s c) = Some p ->
  match top with
  | Sched _ | ScanAcquire _ _ | ScanIn _ _ | ScanRelease _ _ _ | SchedulerBack _ | SleepRelease _ => False
  | _ => True
  end ->
  internal lock_of c s = Some s' -> sched_inv s'.
Proof.
  intros I Ef Ep Hm Hi. unfold internal in Hi. rewrite Ef, Ep in Hi.
  destruct (top_of s c top rest I Ef) as (Ht & Hb & Hr). unfold top_ok in Ht. rewrite Ep in Ht.
  destruct (Hr p Ep) as (Hrg & Hat & Hrun).
  destruct top; try done.
  - taking Hi I Ef. by_top Ep Ht.
  - injection Hi as <-. eapply (thread_own s I c _ _ rest Ef); [done|done|done|by right|done|rewrite Ht; set_solver|..].
    + unfold top_ok. fields. rewrite Ep, upd_same. done.
    + done.
    + intros ch' [_ [=->]]. done.
  - injection Hi as <-. eapply (thread_own s I c _ _ rest Ef); [done|done|done|by right|done|rewrite Ht; set_solver|..].
    + by_top Ep Ht.
    + intros _. fields. auto.
    + intros ch' [E _]. simpl in E. rewrite Hrun in E by done. done.
  - injection Hi as <-. eapply (thread_drop s I c _ _ rest Ef); [done|done|done|by right|rewrite Ht; set_solver|done|]. by_top Ep Ht.
  - taking Hi I Ef.
    unfold top_ok; fields. rewrite Ht. repeat constructor. by eexists.
  - taking Hi I Ef. by_top Ep Ht.
  - injection Hi as <-. eapply (thread_own s I c _ _ rest Ef); [done|done|done|by right|done|rewrite Ht; set_solver|..].
    + unfold top_ok. fields. rewrite Ep, upd_same. done.
    + done.
    + by intros ch' [E _].
  - injection Hi as <-. eapply (thread_drop s I c _ _ rest Ef); [done|done|done|by right|rewrite Ht; set_solver|done|].
    unfold top_ok; fields. rewrite Ht. simpl_unlock. constructor.
  - taking Hi I Ef. by_top Ep Ht.
  - injection Hi as <-. destruct Ht as [Eh Hpd].
    eapply (thread_own s I c _ _ rest Ef); [done|done|done|by right|done|rewrite Eh; set_solver|..].
    + unfold top_ok. fields. rewrite Ep, upd_same. done.
    + done.
    + by intros ch' [E _].
  - injection Hi as <-. destruct Ht as (Eh & Hpd & Hz).
    apply inv_drop; try done; [rewrite Eh; set_solver|..].
    + unfold cpu_ok. fields. split_and!.
      * unfold top_ok. fields. rewrite Ep, Eh. simpl_unlock. by split.
      * by apply (below_thread _ (ExitRelease l)).
      * rewrite Ep. intros q [= <-]. done.
    + intros ch Hch [= E]. by apply (Hpd ch).
    + intros q ch _ [Ho _]. by apply reaching_plain.
  - injection Hi as <-. eapply (thread_drop s I c _ _ rest Ef); [done|done|done|by right|rewrite Ht; set_solver|done|].
    unfold top_ok; fields. rewrite Ht. simpl_unlock. constructor.
Qed.

(** sleep() drops the condition lock: from here on a wakeup must find it. *)
Lemma internal_sleep_release s c p ch rest s' :
  sched_inv s -> c_frames (s_cpu s c) = SleepRelease ch :: rest -> c_proc (s_cpu s c) = Some p ->
  internal lock_of c s = Some s' -> sched_inv s'.
Proof.
  intros I Ef Ep Hi. unfold internal in Hi. rewrite Ef, Ep in Hi. injection Hi as <-.
  destruct (top_of s c _ rest I Ef) as (Ht & Hb & Hr). unfold top_ok in Ht. rewrite Ep in Ht.
  destruct Ht as (Eh & Hc & Hpd). apply inv_drop; try done; [rewrite Eh; set_solver|..].
  - unfold cpu_ok. fields. split_and!.
    + unfold top_ok. fields. rewrite Ep, Eh. by simpl_unlock.
    + by apply (below_thread _ (SleepRelease ch)).
    + done.
  - intros ch' Hch' [= E]. by apply (Hpd ch').
  - by intros ch' [= <-].
  - intros q ch' Hw [Ho _]. split; [done|]. done.
Qed.

(** sched(): its checks hold and the process is parked. *)
Lemma internal_sched s c p after rest s' :
  sched_inv s -> c_frames (s_cpu s c) = Sched after :: rest -> c_proc (s_cpu s c) = Some p ->
  internal lock_of c s = Some s' -> sched_inv s'.
Proof.
  intros I Ef Ep Hi. unfold internal in Hi. rewrite Ef, Ep in Hi.
  destruct (top_of s c _ rest I Ef) as (Ht & Hb & Hr). unfold top_ok in Ht. rewrite Ep in Ht.
  destruct Ht as (Eh & Hl). destruct (Hr p Ep) as (Hrg & Hat & _). unfold below in Hb. rewrite Ep in Hb.
  assert (Hnr : r_state (s_pr s p) <> RUNNING) by (destruct after; simpl in Hl; destruct_and?; congruence).
  rewrite decide_False, decide_False, decide_False in Hi; try (rewrite Eh; set_solver); try done.
  rewrite Hat in Hi. injection Hi as <-.
  assert (Hpk : parked p (set_context (after :: rest) (s_pr s p))).
  { unfold parked. fields. destruct after; try done; simpl in Hl.
    - destruct Hl as (-> & ->). by exists ch, rest.
    - rewrite Hl. exists YieldUnlock, rest. auto.
    - by rewrite Hl. }
  unfold goto. cbn [s_cpu with_pr]. apply inv_local; try done.
  - rewrite Eh. set_solver.
  - by right; right.
  - unfold cpu_ok. fields. split_and!; [|done|].
    + unfold top_ok. fields. rewrite Ep, Eh, upd_same. done.
    + intros q Hq. assert (q = p) as -> by congruence. done.
  - intros ch Has. left. done.
  - intros q ch _ _ [Ho _]. by apply reaching_plain.
  - intros ch _ q [Ho _]. by apply reaching_plain.
Qed.

Lemma visit_spec o i r r' b : visit o i r = (r', b) ->
  (same r r' \/ r_state r <> RUNNING) /\ (parked i r -> parked i r') /\
  (forall ch, asleep r' ch -> asleep r ch /\ o <> Wakeup ch) /\ (forall ch, o = Wakeup ch -> b = false).
Proof.
  unfold visit, same, parked, asleep. intros E.
  destruct o; repeat case_decide; simplify_eq/=; destruct_and?; split_and!; try naive_solver;
    repeat match goal with H : r_state _ = _ |- _ => rewrite H in * end; naive_solver.
Qed.

Lemma internal_scan_in s c o i rest s' :
  sched_inv s -> c_frames (s_cpu s c) = ScanIn o i :: rest -> internal lock_of c s = Some s' -> sched_inv s'.
Proof.
  intros I Ef Hi. unfold internal in Hi. rewrite Ef in Hi. destruct (visit o i (s_pr s i)) as [r b] eqn:Ev.
  injection Hi as <-. destruct (top_of s c _ rest I Ef) as (Ht & Hb & Hr).
  destruct Ht as (h & Eh & Hsc & Hlt & Hme). destruct (visit_spec _ _ _ _ _ Ev) as (Hs & Hp & Ha & Hwb).
  unfold goto. cbn [s_cpu with_pr]. apply inv_local; try done.
  - rewrite Eh. set_solver.
  - destruct Hs; auto.
  - destruct Hsc as (_ & ? & _). lia.
  - unfold cpu_ok. fields. split_and!; [|by apply (below_thread _ (ScanIn o i))|].
    + unfold top_ok. fields. by exists h.
    + intros q Hq. destruct (Hr q Hq) as (? & ? & Hrun). split_and!; try done; try lia.
      intros _. rewrite upd_eq. case_decide; [subst|by apply Hrun].
      destruct Hs as [(-> & _)|Hs]; [by apply Hrun|]. by rewrite Hrun in Hs.
  - intros Hoff. apply Hp, (si_parked s I), Hoff.
  - intros ch Has. left. by apply Ha.
  - intros q ch _ Hq [Ho Hre]. split; [done|]. rewrite Ef in Hre. fields. destruct o; try done.
    intros ->. specialize (Hre eq_refl). destruct (decide (q = i)) as [->|]; [|lia].
    destruct Hq as [?|Has]; [done|]. by destruct (Ha _ Has).
  - intros ch [_ E]. rewrite Ef in E. done.
Qed.

Lemma internal_scan_release s c o i b rest s' :
  sched_inv s -> c_frames (s_cpu s c) = ScanRelease o i b :: rest -> internal lock_of c s = Some s' -> sched_inv s'.
Proof.
  intros I Ef Hi. unfold internal in Hi. rewrite Ef in Hi.
  set (f := if b then Run else ScanAcquire o (i + 1)) in Hi.
  injection Hi as <-. destruct (top_of s c _ rest I Ef) as (Ht & Hb & Hr).
  destruct Ht as (h & Eh & (Hcl & Hge & Hwk) & Hlt & Hme).
  assert (Eu : unlock (PL i) (PL i :: h) = h) by by simpl_unlock.
  apply inv_drop; try done.
  - rewrite Eh. set_solver.
  - unfold cpu_ok. fields. rewrite Eh, Eu. split_and!.
    + unfold f. destruct b; unfold top_ok; fields; [done|]. split_and!; try done; lia.
    + apply (below_thread _ (ScanRelease o i b)); try done. by destruct b.
    + intros q Hq. destruct (Hr q Hq) as (? & ? & Hrun). split_and!; try done; try lia. auto.
  - intros ch. unfold f. by destruct b.
  - intros q ch _ [Ho Hre]. split; [done|]. rewrite Ef in Hre. fields. unfold f. destruct b; [done|].
    destruct o; try done. intros ->. specialize (Hre eq_refl). lia.
Qed.

Lemma waiting_range s c q ch : sched_inv s -> waiting s c q ch -> 0 <= q < NPROC.
Proof.
  intros I [[E _]|(c' & _ & E & Hf)]; [apply (si_range s I); congruence|].
  destruct (c_frames (s_cpu s c')) as [|top rest] eqn:Ef; [done|].
  destruct (top_of s c' top rest I Ef) as (_ & _ & Hr). by destruct (Hr q E).
Qed.

Lemma waiting_not_me s c q ch : sched_inv s -> waiting s c q ch ->
  c_proc (s_cpu s c) = Some q -> r_state (s_pr s q) = RUNNING -> False.
Proof.
  intros I [[E _]|(c' & Hc' & E & _)] Hq Hr; [congruence|]. apply Hc'. by eapply (si_one s I).
Qed.

Lemma inv_scan_take s c o i rest s' :
  sched_inv s -> c_frames (s_cpu s c) = ScanAcquire o i :: rest -> i < NPROC ->
  (forall ch, o = Wakeup ch -> c_proc (s_cpu s c) <> Some i) ->
  take_lock c (PL i) (ScanIn o i :: rest) s = Some s' -> sched_inv s'.
Proof.
  intros I Ef Hlt Hme Hi. destruct (top_of s c _ rest I Ef) as (Ht & Hb & Hr).
  eapply inv_take; [done|exact Hi|..].
  - unfold cpu_ok. fields. split_and!; [|by apply (below_thread _ (ScanAcquire o i))|].
    + unfold top_ok. fields. by eexists.
    + intros q Hq. destruct (Hr q Hq) as (? & ? & Hrun). auto.
  - done.
  - intros q ch _ [Ho Hre]. split; [done|]. by rewrite Ef in Hre.
Qed.

Lemma internal_scan_acquire s c o i rest s' :
  sched_inv s -> c_frames (s_cpu s c) = ScanAcquire o i :: rest -> internal lock_of c s = Some s' -> sched_inv s'.
Proof.
  intros I Ef Hi. unfold internal in Hi. rewrite Ef in Hi.
  destruct (top_of s c _ rest I Ef) as (Ht & Hb & Hr). pose proof Ht as (Hcl & Hge & Hwk).
  destruct (decide (i < NPROC)) as [Hlt|Hge'].
  - assert (Hno : (forall ch, o <> Wakeup ch) \/ exists ch, o = Wakeup ch) by (destruct o; eauto; left; congruence).
    destruct Hno as [Hno|[ch ->]].
    + eapply inv_scan_take; [done|done|done|intros ch E; by apply Hno in E|].
      destruct o as [ch| | | | |]; try exact Hi. by destruct (Hno ch).
    + case_decide as Eme; [|eapply inv_scan_take; [done|done|done|by intros|exact Hi]]. injection Hi as <-.
      destruct (Hr i Eme) as (_ & _ & Hrun). apply sched_inv_goto; try done.
      * apply (si_owed s I).
      * unfold cpu_ok. fields. split_and!; [|by apply (below_thread _ (ScanAcquire (Wakeup ch) i))|].
        -- unfold top_ok. fields. split_and!; try done. lia.
        -- intros q Hq. destruct (Hr q Hq) as (? & ? & ?). auto.
      * intros q ch' Hw [Ho Hre]. split; [done|]. rewrite Ef in Hre. fields. intros E. specialize (Hre E).
        destruct (decide (q = i)) as [->|]; [|lia]. exfalso. by eapply waiting_not_me; [done|done|done|apply Hrun].
  - assert (Hrun : forall q, c_proc (s_cpu s c) = Some q ->
      0 <= q < NPROC /\ c_at (s_cpu s c) = q /\ (settled Run = true -> r_state (s_pr s q) = RUNNING)).
    { intros q Hq. destruct (Hr q Hq) as (? & ? & ?). auto. }
    destruct o as [ch| | | | |]; try (injection Hi as <-;
      apply (thread_goto s I c _ _ rest Ef); [done|done|done|by right|]; done).
    injection Hi as <-. apply sched_inv_goto; try done; fields.
    + intros ch' [? _]%elem_of_difference. by apply (si_owed s I).
    + intros q ch' Hw [Ho Hre]. split; [|done]. fields. apply elem_of_difference. split; [done|].
      intros ->%elem_of_singleton. rewrite Ef in Hre. specialize (Hre eq_refl).
      pose proof (waiting_range s c q ch I Hw). lia.
Qed.

(** The scheduler switches to a runnable process. *)
Lemma inv_switch_in s c i :
  sched_inv s -> c_frames (s_cpu s c) = [SchedulerTest i] -> c_proc (s_cpu s c) = None ->
  r_state (s_pr s i) = RUNNABLE ->
  sched_inv (with_cpu c (set_proc (Some i) (set_at i (set_frames (r_context (s_pr s i)) (s_cpu s c))))
    (with_pr i (set_state RUNNING (s_pr s i)) s)).
Proof.
  intros I Ef Ep Er. destruct (top_of s c _ [] I Ef) as (Ht & _ & _). unfold top_ok in Ht. rewrite Ep in Ht.
  destruct Ht as (Eh & Hrg).
  assert (Hoff : forall c', c_proc (s_cpu s c') <> Some i).
  { intros c' E. assert (r_state (s_pr s i) = RUNNING); [|congruence].
    eapply unlocked_running; [apply (si_cpu s I c')|done|]. intros Hl.
    assert (Hl' : PL i ∈ c_held (s_cpu s c)) by (rewrite Eh; set_solver).
    apply (si_lock s I) in Hl, Hl'. congruence. }
  pose proof (si_parked s I i Hoff) as Hpk. unfold parked in Hpk. rewrite Er in Hpk.
  destruct Hpk as (k & rest & Ec & Hrest & Hkind).
  assert (Hplain : plain_pc k = true /\ thread_pc k = true) by (by destruct Hkind as [->|[->|[ch ->]]]).
  destruct Hplain as [Hplain Hthread].
  apply (inv_update s c _ (<[i := set_state RUNNING (s_pr s i)]> (s_pr s)) (s_lock s) (s_cond s)); try done; fields.
  - unfold cpu_ok. fields. rewrite Ec. split_and!.
    + unfold top_ok. fields. by destruct Hkind as [->|[->|[ch ->]]].
    + unfold below. by destruct Hkind as [->|[->|[ch ->]]].
    + intros q [= <-]. by rewrite upd_same.
  - intros q. rewrite upd_eq. case_decide; [subst|by left]. right. split; [rewrite Eh; set_solver|left; congruence].
  - intros; by left.
  - intros l. apply (si_lock s I).
  - apply (si_nodup s I).
  - intros c' q Hc' [= <-]. apply Hoff.
  - intros q Hq Hq'. rewrite upd_other by congruence. apply (si_parked s I).
    intros c'. destruct (decide (c' = c)) as [->|]; [congruence|auto].
  - intros q. rewrite upd_eq. case_decide; [by subst|]. apply (si_range s I).
  - apply (si_owed s I).
  - intros q ch Hf. assert (Hw : waiting s c q ch).
    { destruct Hf as [Hf|[[_ Hf]|?]]; [| |by right].
      - rewrite upd_eq in Hf. case_decide; [by destruct Hf|by left].
      - fields. revert Hf. fields. rewrite Ec. intros [= ->]. done. }
    destruct (waiting_wake s c q ch I Hw) as [?|[[Ho _]|?]]; auto. right; left. split; [done|]. fields.
    rewrite Ec. by destruct Hkind as [->|[->|[ch' ->]]].
Qed.

(** swtch returned to the scheduler: the process is off the CPU. *)
Lemma inv_switch_out s c i p rest :
  sched_inv s -> c_frames (s_cpu s c) = SchedulerBack i :: rest -> c_proc (s_cpu s c) = Some p ->
  sched_inv (with_cpu c (set_proc None (set_frames (SchedulerRelease i :: rest) (s_cpu s c))) s).
Proof.
  intros I Ef Ep. destruct (top_of s c _ rest I Ef) as (Ht & Hb & _). unfold top_ok in Ht. rewrite Ep in Ht.
  destruct Ht as (-> & Eh & Hrg & Hpk). apply inv_update; try done; fields.
  - intros; by left.
  - intros; by left.
  - intros l. apply (si_lock s I).
  - apply (si_nodup s I).
  - intros q _ Hq. destruct (decide (q = i)) as [->|]; [done|]. apply (si_parked s I).
    intros c'. destruct (decide (c' = c)) as [->|]; [congruence|auto].
  - apply (si_range s I).
  - apply (si_owed s I).
  - intros q ch Hf. assert (Hw : waiting s c q ch).
    { destruct Hf as [?|[[? _]|?]]; [by left|done|by right]. }
    destruct (waiting_wake s c q ch I Hw) as [?|[[Ho _]|?]]; auto. right; left. by split.
Qed.

Lemma sched_goto s c top f :
  sched_inv s -> c_frames (s_cpu s c) = [top] -> c_proc (s_cpu s c) = None -> plain_pc f = true -> thread_pc f = false ->
  top_ok (s_cond s) (s_pr s) (set_frames [f] (s_cpu s c)) f -> sched_inv (goto c [f] s).
Proof.
  intros I Ef Ep Hpl Hth Hok. apply sched_inv_goto; try done.
  - apply (si_owed s I).
  - unfold cpu_ok. fields. split; [done|]. split; [by destruct f|]. rewrite Ep. by intros q [=].
  - intros ch. by apply plain_not_set.
  - intros q ch _ [Ho _]. by apply reaching_plain.
Qed.

Lemma internal_scheduler s c top rest s' :
  sched_inv s -> c_frames (s_cpu s c) = top :: rest -> thread_pc top = false ->
  internal lock_of c s = Some s' -> sched_inv s'.
Proof.
  intros I Ef Hth Hi. destruct (top_of s c _ rest I Ef) as (Ht & Hb & Hr).
  assert (rest = []) as -> by (by destruct top). unfold internal in Hi. rewrite Ef in Hi. unfold top_ok in Ht.
  destruct top; try done; destruct (c_proc (s_cpu s c)) as [p|] eqn:Ep; try done.
  - injection Hi as <-. eapply sched_goto; try done. unfold top_ok. fields. by rewrite Ep.
  - destruct Ht as [Eh Hge]. case_decide.
    + eapply inv_take; [done|exact Hi|..]; try done.
      * unfold cpu_ok. fields. rewrite Ep. split; [|by split]. unfold top_ok. fields. rewrite Ep, Eh. done.
      * intros q ch _ [Ho _]. by apply reaching_plain.
    + injection Hi as <-. eapply sched_goto; try done. unfold top_ok. fields. by rewrite Ep.
  - case_decide; injection Hi as <-; [by apply inv_switch_in|].
    eapply sched_goto; try done. unfold top_ok. fields. by rewrite Ep.
  - injection Hi as <-. by eapply inv_switch_out.
  - injection Hi as <-. destruct Ht as [Eh Hrg]. apply inv_drop; try done.
    + rewrite Eh. set_solver.
    + unfold cpu_ok. fields. rewrite Ep. split; [|by split]. unfold top_ok. fields. rewrite Ep, Eh. simpl_unlock.
      split; [done|lia].
    + intros q ch _ [Ho _]. by apply reaching_plain.
Qed.

Lemma internal_inv s c s' : sched_inv s -> internal lock_of c s = Some s' -> sched_inv s'.
Proof.
  intros I Hi. destruct (c_frames (s_cpu s c)) as [|top rest] eqn:Ef.
  { unfold internal in Hi. by rewrite Ef in Hi. }
  destruct (thread_pc top) eqn:Hth; [|by eapply internal_scheduler].
  destruct top as [| | | | | | | | | | | | | | |after|o i|o i|o i b| | | | | |]; try discriminate Hth;
    try exact (internal_scan_acquire s c _ _ rest s' I Ef Hi); try exact (internal_scan_in s c _ _ rest s' I Ef Hi);
    try exact (internal_scan_release s c _ _ _ rest s' I Ef Hi);
    (destruct (c_proc (s_cpu s c)) as [p|] eqn:Ep; [|unfold internal in Hi; rewrite Ef, ?Ep in Hi; done]);
    first [exact (internal_sched s c p _ rest s' I Ef Ep Hi) | exact (internal_sleep_release s c p _ rest s' I Ef Ep Hi)
      | exact (internal_process s c p _ rest s' I Ef Ep Logic.I Hi)].
Qed.

(** ** Callers *)

Lemma inv_condition s c ch b rest :
  sched_inv s -> c_frames (s_cpu s c) = Run :: rest -> CL (lock_of ch) ∈ c_held (s_cpu s c) ->
  sched_inv (with_cond ch b (with_cpu c
    (set_owed (if b then {[ch]} ∪ c_owed (s_cpu s c) else c_owed (s_cpu s c)) (s_cpu s c)) s)).
Proof.
  intros I Ef Hl. destruct (top_of s c _ rest I Ef) as (Ht & Hb & Hr).
  apply (inv_update s c _ (s_pr s) (s_lock s) (<[ch := b]> (s_cond s))); try done; fields.
  - unfold cpu_ok. fields. rewrite Ef. done.
  - intros; by left.
  - intros ch'. rewrite upd_eq. case_decide; [subst; by right|by left].
  - intros l. apply (si_lock s I).
  - apply (si_nodup s I).
  - intros c' p Hc' Hp Hp'. apply Hc'. by eapply (si_one s I).
  - intros p Hp Hp'. apply (si_parked s I). intros c'. destruct (decide (c' = c)) as [->|]; auto.
  - apply (si_range s I).
  - intros ch' Hch'. destruct b; [|by apply (si_owed s I)]. apply elem_of_union in Hch' as [->%elem_of_singleton|?];
      [done|by apply (si_owed s I)].
  - intros q ch' Hf. rewrite upd_eq. case_decide as E.
    + subst ch'. destruct b; [|by left]. right; left. split; fields; [set_solver|by rewrite Ef].
    + assert (Hw : waiting s c q ch').
      { destruct Hf as [?|[[? Hf]|?]]; [by left| |by right]. revert Hf. fields. by rewrite Ef. }
      destruct (waiting_wake s c q ch' I Hw) as [?|[[Ho _]|?]]; auto. right; left.
      split; fields; [destruct b; set_solver|by rewrite Ef].
Qed.

Lemma inv_wakeup s c ch rest :
  sched_inv s -> c_frames (s_cpu s c) = Run :: rest -> CL (lock_of ch) ∈ c_held (s_cpu s c) ->
  sched_inv (goto c (ScanAcquire (Wakeup ch) 0 :: rest) s).
Proof.
  intros I Ef Hl. destruct (top_of s c _ rest I Ef) as (Ht & Hb & Hr). apply sched_inv_goto; try done.
  - apply (si_owed s I).
  - unfold cpu_ok. fields. split; [|by split]. unfold top_ok. fields. split_and!; [done|done|]. by intros ? [= <-].
  - intros q ch' Hw [Ho _]. split; [done|]. fields. intros _. pose proof (waiting_range s c q ch' I Hw). lia.
Qed.

Lemma inv_interrupt s c f rest :
  sched_inv s -> c_frames (s_cpu s c) = f :: rest -> interruptible f = true -> c_held (s_cpu s c) = [] ->
  sched_inv (goto c (Run :: f :: rest) s).
Proof.
  intros I Ef Hi Eh. destruct (top_of s c _ rest I Ef) as (Ht & Hb & Hr). apply sched_inv_goto; try done.
  - apply (si_owed s I).
  - unfold cpu_ok. fields. split; [unfold top_ok; fields; rewrite Eh; constructor|]. split.
    + unfold below, top_ok in *. destruct (c_proc (s_cpu s c)) as [p|] eqn:Ep.
      * apply Forall_cons. destruct f; try done; try (split; [|done]; unfold pframe; eauto).
        destruct Ht as (_ & ? & _). split; [done|]. by intros ch ->.
      * destruct f; try done.
        -- destruct Hb as (l & -> & Hl). exists (Run :: l). by repeat constructor.
        -- destruct Hb as (l & -> & Hl). exists (ScanAcquire o i :: l). split; [done|]. constructor; [|done].
           destruct Ht as (_ & ? & _). split; [done|]. by intros ch ->.
        -- subst rest. by exists [].
    + intros q Hq. destruct (Hr q Hq) as (? & ? & Hrun). split_and!; try done; try lia. intros _. apply Hrun. by destruct f.
  - intros q ch _ [Ho _]. by apply reaching_plain.
Qed.

Lemma inv_return s c f rest :
  sched_inv s -> c_frames (s_cpu s c) = Run :: f :: rest -> c_held (s_cpu s c) = [] ->
  sched_inv (goto c (f :: rest) s).
Proof.
  intros I Ef Eh. destruct (top_of s c _ _ I Ef) as (_ & Hb & Hr).
  assert (Hcase : (pframe (c_proc (s_cpu s c)) f /\ below (c_proc (s_cpu s c)) Run rest) \/
    (c_proc (s_cpu s c) = None /\ f = SchedulerTop /\ rest = [])).
  { unfold below in *. destruct (c_proc (s_cpu s c)); [left; by apply Forall_cons in Hb|].
    destruct Hb as ([|g l] & E & Hl); simplify_eq/=; [by right|]. left. apply Forall_cons in Hl as [? ?]. eauto. }
  assert (Hpl : plain_pc f = true).
  { destruct Hcase as [[Hf _]|(_ & -> & _)]; [|done]. destruct f; try done. destruct Hf as [_ Hf].
    by destruct o; [destruct (Hf ch)|..]. }
  apply sched_inv_goto; try done.
  - apply (si_owed s I).
  - unfold cpu_ok. fields. destruct Hcase as [[Hf Hbr]|(Ep & -> & ->)].
    + split; [|split].
      * unfold top_ok. fields. rewrite Eh. destruct f; try done; try (by destruct Hf as [? ->]).
        -- constructor.
        -- destruct Hf as [? Hf]. split_and!; [constructor|done|]. intros ch ->. by destruct (Hf ch).
      * apply (below_thread _ Run); try done. by destruct f.
      * intros q Hq. destruct (Hr q Hq) as (? & ? & Hrun). auto.
    + unfold top_ok. fields. rewrite Ep. done.
  - intros ch. by apply plain_not_set.
  - intros q ch _ [Ho _]. by apply reaching_plain.
Qed.

Lemma sched_step_inv s s' : sched_inv s -> step lock_of s s' -> sched_inv s'.
Proof.
  intros I Hs. destruct Hs as [c s' Hi|c l rest s' Ef Hi|c l rest Ef Hl Hpd|c ch b rest Ef Hl|c ch rest Ef Hl|c o rest Ef Ho
    |c ch p rest Ef Ep Eh Hc Hpd|c p rest Ef Ep Eh|c l p rest Ef Ep Eh Hpd|c f rest Ef Hf Eh|c f rest Ef Eh].
  - by eapply internal_inv.
  - destruct (top_of s c _ rest I Ef) as (Ht & _). taking Hi I Ef. unfold top_ok. fields. constructor; [by eexists|done].
  - destruct (top_of s c _ rest I Ef) as (Ht & _).
    apply (thread_drop s I c _ _ rest Ef); [done|done|done|by right|done| |].
    + intros ch Hch [= E]. by apply (Hpd ch).
    + unfold top_ok in *. fields. revert Ht. unfold cls. rewrite !Forall_forall. intros Ht x Hx.
      apply elem_of_unlock in Hx as [? _]; [auto|apply (si_nodup s I)].
  - by eapply inv_condition.
  - by eapply inv_wakeup.
  - destruct (top_of s c _ rest I Ef) as (Ht & _).
    apply (thread_goto s I c _ _ rest Ef); [done|done| |by right|].
    + destruct o; try done. by destruct (Ho ch).
    + unfold top_ok in *. fields. split_and!; [done|done|]. intros ch ->. by destruct (Ho ch).
  - apply (thread_goto s I c _ _ rest Ef); [done|done|done|by right|]. unfold top_ok. fields. by rewrite Ep, Eh.
  - apply (thread_goto s I c _ _ rest Ef); [done|done|done|by right|]. unfold top_ok. fields. by rewrite Ep, Eh.
  - apply (thread_goto s I c _ _ rest Ef); [done|done|done|by right|]. unfold top_ok. fields. by rewrite Ep, Eh.
  - by apply inv_interrupt.
  - by apply inv_return.
Qed.

Lemma sched_boot_inv : sched_inv boot.
Proof.
  split; try done; cbn [boot s_cpu s_pr s_lock s_cond c_held c_proc c_owed].
  - intros l c. split; [by intros ?%elem_of_nil|done].
  - constructor.
  - intros p _. rewrite upd_eq. case_decide; [|done]. exists Forkret, []. auto.
  - intros p. rewrite upd_eq. case_decide; [subst; done|done].
  - intros p ch [[Hp _]|[c [Hp _]]]; [|done]. revert Hp. rewrite upd_eq. by case_decide.
Qed.

Lemma reachable_inv s : rtc (step lock_of) boot s -> sched_inv s.
Proof.
  intros Hr. eapply (rtc_ind_r sched_inv); [apply sched_boot_inv| |exact Hr]. intros x y _ Hs I. by eapply sched_step_inv.
Qed.
End invariant.

(** ** Theorems *)

(** C2: No wakeup is lost.  On any number of CPUs and in any interleaving of
    sleep, wakeup, yield, kill, fork, exit and wait, a process that sleeps on a
    channel has a condition that is still false, or the CPU that made it true
    still holds the condition's lock and its call of wakeup has yet to reach
    the process. *)
Theorem scheduler_no_lost_wakeup lock_of s :
  rtc (step lock_of) boot s ->
  forall p ch, r_state (s_pr s p) = SLEEPING -> r_chan (s_pr s p) = Some ch ->
  s_cond s ch = false \/
  exists c, s_lock s (CL (lock_of ch)) = Some c /\ reaching (s_cpu s c) ch p.
Proof.
  intros Hr p ch Hs Hc. pose proof (reachable_inv lock_of s Hr) as I.
  destruct (si_wake lock_of s I p ch) as [?|[c Hre]]; [by left|by left|].
  right. exists c. split; [|done]. apply (si_lock lock_of s I), (si_owed lock_of s I), Hre.
Qed.

(** C29: The scheduler runs a process on one CPU at a time.  In every reachable
    state no two CPUs run the same process, a process whose lock its CPU does not
    hold is RUNNING, one that waits to run has a saved context it can
    resume, an exited one is never resumed, and none of the checks of sched() or
    release() fails. *)
Theorem scheduler_exclusive lock_of s :
  rtc (step lock_of) boot s ->
  (forall c c' p, c_proc (s_cpu s c) = Some p -> c_proc (s_cpu s c') = Some p -> c = c') /\
  (forall c p, c_proc (s_cpu s c) = Some p -> PL p ∉ c_held (s_cpu s c) -> r_state (s_pr s p) = RUNNING) /\
  (forall p, (forall c, c_proc (s_cpu s c) <> Some p) -> r_state (s_pr s p) = RUNNABLE ->
    exists k, head (r_context (s_pr s p)) = Some k /\ (k = Forkret \/ k = YieldUnlock \/ exists ch, k = SleepWoke ch)) /\
  (forall c msg, head (c_frames (s_cpu s c)) <> Some (Panicked msg)).
Proof.
  intros Hr. pose proof (reachable_inv lock_of s Hr) as I. split_and!.
  - apply (si_one lock_of s I).
  - intros c p. apply (unlocked_running lock_of _ _ _ p (si_cpu lock_of s I c)).
  - intros p Hoff Hp. pose proof (si_parked lock_of s I p Hoff) as Hpk. unfold parked in Hpk. rewrite Hp in Hpk.
    destruct Hpk as (k & rest & -> & _ & Hk). by exists k.
  - intros c msg. pose proof (si_cpu lock_of s I c) as Hk. unfold cpu_ok in Hk.
    destruct (c_frames (s_cpu s c)) as [|top rest]; [done|]. intros [= ->]. by destruct Hk.
Qed.

(** ** A run *)

(** CPU [c] runs [n] steps of the routines. *)
Fixpoint drive (n : nat) (c : Z) (s : sys) : sys :=
  match n with
  | O => s
  | S n => match internal id c s with Some s' => drive n c s' | None => s end
  end.

Lemma drive_steps n c s : rtc (step id) s (drive n c s).
Proof.
  revert s. induction n as [|n IH]; intros s; simpl; [done|]. destruct (internal id c s) as [s'|] eqn:E; [|done].
  eapply rtc_l; [by eapply step_internal|]. apply IH.
Qed.

(** CPU 0 starts the first process, which takes lock 7 and sleeps on channel 7. *)
Definition run_up : sys := drive 4 0 boot.
Definition run_lock : sys := default boot (take_lock 0 (CL 7) [Run] run_up).
Definition run_asleep : sys := drive 5 0 (goto 0 [SleepAcquire 7] run_lock).

Lemma run_asleep_reachable : rtc (step id) boot run_asleep.
Proof.
  etrans; [apply (drive_steps 4 0)|]. eapply rtc_l.
  { eapply (step_acquire id run_up 0 7 []); reflexivity. }
  eapply rtc_l; [|apply (drive_steps 5 0)]. apply (step_sleep id run_lock 0 7 0 []); try reflexivity.
  intros ch Hch. exfalso. revert Hch. apply not_elem_of_empty.
Qed.

Lemma scheduler_no_lost_wakeup_witness :
  r_state (s_pr run_asleep 0) = SLEEPING /\
  (s_cond run_asleep 7 = false \/
   exists c, s_lock run_asleep (CL 7) = Some c /\ reaching (s_cpu run_asleep c) 7 0).
Proof.
  split; [reflexivity|].
  exact (scheduler_no_lost_wakeup id run_asleep run_asleep_reachable 0 7 eq_refl eq_refl).
Defined.

Lemma scheduler_exclusive_witness :
  c_proc (s_cpu run_up 0) = Some 0 /\ r_state (s_pr run_up 0) = RUNNING /\
  forall c, c_proc (s_cpu run_up c) = Some 0 -> c = 0.
Proof.
  split_and!; [reflexivity|reflexivity|]. intros c Hc.
  exact (proj1 (scheduler_exclusive id run_up (drive_steps 4 0 boot)) c 0 0 Hc eq_refl).
Defined.
