(* ===== verification/Fs.v ===== *)
(** * Fs: blocks, inodes, directories and path names, kernel/fs.c

    The functions work on the kernel state over any block cache.  A buffer
    locked by [bread] is a handle whose contents are read with [data] and
    replaced with [set_data]; on-disk structures are fields of those bytes.
    A file name is the bytes before its NUL. *)

From S2P Require Import Prelude Riscv CString Kalloc Vm Sleeplock Layout Bio BioSpec Log Pipe Kernel.

(** ** fs.h *)

Definition ROOTINO : Z := 1.
Definition FSMAGIC : Z := 0x10203040.
Definition NDIRECT : Z := 12.
Definition NINDIRECT : Z := BSIZE / 4.
Definition MAXFILE : Z := NDIRECT + NINDIRECT.
Definition sizeof_dinode : Z := 64.
Definition IPB : Z := BSIZE / sizeof_dinode.
Definition IBLOCK (i : Z) (sb : superblock) : Z := u32 (i / IPB + sb_inodestart sb).
Definition BPB : Z := BSIZE * 8.
Definition BBLOCK (b : Z) (sb : superblock) : Z := u32 (b / BPB + sb_bmapstart sb).
Definition DIRSIZ : Z := 14.
Definition sizeof_dirent : Z := 16.
Definition T_DIR : Z := 1.
Definition T_FILE : Z := 2.
Definition T_DEVICE : Z := 3.

(** The superblock in the bytes of block 1. *)
Definition get_sb (d : block) : superblock :=
  {| sb_magic := rd32 d 0; sb_size := rd32 d 4; sb_nblocks := rd32 d 8; sb_ninodes := rd32 d 12;
     sb_nlog := rd32 d 16; sb_logstart := rd32 d 20; sb_inodestart := rd32 d 24; sb_bmapstart := rd32 d 28 |}.

(** struct dinode at offset [o] of a block. *)
Definition di_type (d : block) (o : Z) : Z := i16 (rd16 d o).
Definition di_major (d : block) (o : Z) : Z := i16 (rd16 d (o + 2)).
Definition di_minor (d : block) (o : Z) : Z := i16 (rd16 d (o + 4)).
Definition di_nlink (d : block) (o : Z) : Z := i16 (rd16 d (o + 6)).
Definition di_size (d : block) (o : Z) : Z := rd32 d (o + 8).
Definition di_addr (d : block) (o i : Z) : Z := rd32 d (o + 12 + 4 * i).

(** [memmove(dip->addrs, ip->addrs, sizeof(ip->addrs))] from entry [i] on. *)
Fixpoint put_addrs (d : block) (o : Z) (f : Z -> Z) (i : Z) (k : nat) : block :=
  match k with
  | O => d
  | S k => put_addrs (wr32 d (o + 12 + 4 * i) (f i)) o f (i + 1) k
  end.

Definition put_dinode (d : block) (o : Z) (ip : inode) : block :=
  let d := wr16 d o (i_type ip) in
  let d := wr16 d (o + 2) (i_major ip) in
  let d := wr16 d (o + 4) (i_minor ip) in
  let d := wr16 d (o + 6) (i_nlink ip) in
  let d := wr32 d (o + 8) (i_size ip) in
  put_addrs d o (i_addrs ip) 0 (Z.to_nat (NDIRECT + 1)).

(** The array [addrs] read back; entries outside it are not used. *)
Definition get_addrs (d : block) (o : Z) : Z -> Z :=
  fun i => if decide (0 <= i <= NDIRECT) then di_addr d o i else 0.

Definition get_dinode (d : block) (o : Z) (ip : inode) : inode :=
  {| i_dev := i_dev ip; i_inum := i_inum ip; i_ref := i_ref ip; i_lock := i_lock ip; i_valid := i_valid ip;
     i_type := di_type d o; i_major := di_major d o; i_minor := di_minor d o; i_nlink := di_nlink d o;
     i_size := di_size d o; i_addrs := get_addrs d o |}.

(** struct dirent. *)
Definition de_inum (d : list byte) : Z := rd16 d 0.
Definition de_name (d : list byte) : list byte := slice d 2 DIRSIZ.
Definition mk_dirent (inum : Z) (name : list byte) : list byte := wr16 (replicate 2 (chr 0)) 0 inum ++ name.

(** A bit of the free map: [bp->data[bi/8] & (1 << (bi % 8))]. *)
Definition bit_byte (d : block) (bi : Z) : byte := nth (Z.to_nat (bi / 8)) d (chr 0).
Definition bit_used (d : block) (bi : Z) : bool := nz (Z.land (cv (bit_byte d bi)) (Z.shiftl 1 (bi mod 8))).
Definition set_bit (d : block) (bi : Z) : block :=
  <[Z.to_nat (bi / 8) := chr (Z.lor (cv (bit_byte d bi)) (Z.shiftl 1 (bi mod 8)))]> d.
Definition clear_bit (d : block) (bi : Z) : block :=
  <[Z.to_nat (bi / 8) := chr (Z.land (cv (bit_byte d bi)) (Z.lnot (Z.shiftl 1 (bi mod 8))))]> d.

(** The inner loop of [balloc] from [bi] on: the first free bit. *)
Fixpoint find_bit (d : block) (b size bi : Z) (k : nat) : option Z :=
  match k with
  | O => None
  | S k =>
      if b + bi <? size then if bit_used d bi then find_bit d b size (bi + 1) k else Some bi
      else None
  end.

(** ** Names *)

(** [strncmp] on byte strings; past its end a string reads as NUL. *)
Fixpoint lstrncmp (s t : list byte) (n : nat) : Z :=
  match n with
  | O => 0
  | S n =>
      let p := default (chr 0) (head s) in
      let q := default (chr 0) (head t) in
      if nz (cv p) && (cv p =? cv q) then lstrncmp (tail s) (tail t) n
      else cv p - cv q
  end.

Definition namecmp (s t : list byte) : Z := lstrncmp s t (Z.to_nat DIRSIZ).

(** [strncpy(de.name, name, DIRSIZ)] *)
Definition pad_name (name : list byte) : list byte :=
  take (Z.to_nat DIRSIZ) (name ++ replicate (Z.to_nat DIRSIZ) (chr 0)).

Definition slash : byte := chr 47.

Fixpoint skip_slashes (path : list byte) : list byte :=
  match path with
  | c :: path' => if decide (c = slash) then skip_slashes path' else path
  | [] => []
  end.

(** The bytes up to the next slash, and the rest. *)
Fixpoint span_elem (path : list byte) : list byte * list byte :=
  match path with
  | c :: path' => if decide (c = slash) then ([], path) else let '(e, r) := span_elem path' in (c :: e, r)
  | [] => ([], [])
  end.

(** The rest of the path and the element, cut to DIRSIZ bytes. *)
Definition skipelem (path : list byte) : option (list byte * list byte) :=
  match skip_slashes path with
  | [] => None
  | path => let '(s, rest) := span_elem path in Some (skip_slashes rest, take (Z.to_nat DIRSIZ) s)
  end.

(** ** Copies between the kernel and a process *)

(** Where [either_copyout] and [either_copyin] copy: an address of the
    running process, a physical address, or a local variable of the caller. *)
Inductive place := User (va : Z) | Phys (pa : Z) | Local (l : list byte).

Definition itable_lock : lockid := ("itable", 0).
Definition inode_lock (ip : Z) : lockid := ("inode sleep lock", ip).
Definition inode_chan (ip : Z) : chan := ("inode", ip).

Section fs.
Context `{KernelLayout} {C : Type} `{BlockCache C}.
Local Abbreviation K := (kernel C).

Definition lz {A} (m : M (log C) A) : M K A := zoom ks_log set_ks_log m.
Definition mz {A} (m : M kmem A) : M K A := zoom ks_mem set_ks_mem m.

Definition kbread (dev bn : Z) : M K Z := lz (bread dev bn).
Definition kbrelse (b : Z) : M K unit := lz (brelse b).
Definition kdata (b : Z) : M K block := lz (data b).
Definition kset_data (b : Z) (d : block) : M K unit := lz (set_data b d).
Definition klog_write (b : Z) : M K unit := lz (log_write b).
Definition kbegin_op : M K unit := lz begin_op.
Definition kend_op : M K unit := lz end_op.

Definition myproc : M K proc := t ← self; k ← get; mret (ks_proc k (t_proc t)).
Definition uproc_of (p : proc) : uproc := {| up_sz := p_sz p; up_pagetable := p_pagetable p |}.

Definition either_copyout (dst : place) (off : Z) (src : list byte) : M K Z :=
  p ← myproc;
  match dst with
  | User va => mz (copyout (uproc_of p) (p_pagetable p) (u64 (va + off)) src (Z.of_nat (length src)))
  | Phys pa => mz (put_bytes (pa + off) src);; mret 0
  | Local _ => mret 0
  end.

(** The result and the bytes that were copied before an error. *)
Definition either_copyin (src : place) (off len : Z) : M K (Z * list byte) :=
  p ← myproc;
  match src with
  | User va => mz (copyin (uproc_of p) (p_pagetable p) (u64 (va + off)) len)
  | Phys pa => l ← mz (get_bytes (pa + off) len); mret (0, l)
  | Local l => mret (0, slice l off len)
  end.

(** ** Blocks *)

Definition readsb (dev : Z) : M K unit :=
  bp ← kbread dev 1;
  d ← kdata bp;
  modify (set_ks_sb (get_sb d));;
  kbrelse bp.

Definition bzero (dev bno : Z) : M K unit :=
  bp ← kbread dev bno;
  kset_data bp (replicate (Z.to_nat BSIZE) (chr 0));;
  klog_write bp;;
  kbrelse bp.

Fixpoint balloc_loop (fuel : nat) (dev b : Z) : M K Z :=
  match fuel with
  | O => fuel_out
  | S fuel =>
      k ← get;
      let sb := ks_sb k in
      if b <? sb_size sb then
        bp ← kbread dev (BBLOCK b sb);
        d ← kdata bp;
        match find_bit d b (sb_size sb) 0 (Z.to_nat BPB) with
        | Some bi =>
            kset_data bp (set_bit d bi);;
            klog_write bp;;
            kbrelse bp;;
            bzero dev (b + bi);;
            mret (b + bi)
        | None =>
            kbrelse bp;;
            balloc_loop fuel dev (b + BPB)
        end
      else
        printf "balloc: out of blocks";;
        mret 0
  end.

Definition balloc (dev : Z) : M K Z :=
  k ← get;
  balloc_loop (S (Z.to_nat ((sb_size (ks_sb k) + BPB - 1) / BPB))) dev 0.

Definition bfree (dev b : Z) : M K unit :=
  k ← get;
  bp ← kbread dev (BBLOCK b (ks_sb k));
  d ← kdata bp;
  let bi := b mod BPB in
  if negb (bit_used d bi) then panic "freeing free block"
  else
    kset_data bp (clear_bit d bi);;
    klog_write bp;;
    kbrelse bp.

(** ** Inodes *)

Fixpoint iinit_loop (i : Z) (n : nat) (k : K) : K :=
  match n with
  | O => k
  | S n => iinit_loop (i + 1) n (upd_inode i (set_i_lock initsleeplock) k)
  end.

Definition iinit : M K unit := modify (iinit_loop 0 (Z.to_nat NINODE)).

(** The scan of [iget]: the entry with this inode, and the first free entry
    before it. *)
Fixpoint iget_scan (k : K) (dev inum : Z) (empty : option Z) (i : Z) (n : nat) : option Z * option Z :=
  match n with
  | O => (None, empty)
  | S n =>
      let ip := ks_inode k i in
      if (0 <? i_ref ip) && (i_dev ip =? dev) && (i_inum ip =? inum) then (Some i, empty)
      else
        iget_scan k dev inum
          (match empty with None => if i_ref ip =? 0 then Some i else None | Some _ => empty end) (i + 1) n
  end.

Definition iget (dev inum : Z) : M K Z :=
  acquire itable_lock;;
  k ← get;
  match iget_scan k dev inum None 0 (Z.to_nat NINODE) with
  | (Some ip, _) =>
      modify (fun k => upd_inode ip (set_i_ref (i_ref (ks_inode k ip) + 1)) k);;
      release itable_lock;;
      mret ip
  | (None, None) => panic "iget: no inodes"
  | (None, Some ip) =>
      modify (upd_inode ip (fun e => set_i_valid 0 (set_i_ref 1 (set_i_inum inum (set_i_dev dev e)))));;
      release itable_lock;;
      mret ip
  end.

Fixpoint ialloc_loop (n : nat) (dev type inum : Z) : M K (option Z) :=
  match n with
  | O => printf "ialloc: no inodes";; mret None
  | S n =>
      k ← get;
      bp ← kbread dev (IBLOCK inum (ks_sb k));
      d ← kdata bp;
      let o := sizeof_dinode * (inum mod IPB) in
      if di_type d o =? 0 then
        let d := splice d o (replicate (Z.to_nat sizeof_dinode) (chr 0)) in
        kset_data bp (wr16 d o type);;
        klog_write bp;;
        kbrelse bp;;
        ip ← iget dev inum;
        mret (Some ip)
      else
        kbrelse bp;;
        ialloc_loop n dev type (inum + 1)
  end.

(** [for(inum = 1; inum < sb.ninodes; inum++)] *)
Definition ialloc (dev type : Z) : M K (option Z) :=
  k ← get;
  ialloc_loop (Z.to_nat (sb_ninodes (ks_sb k) - 1)) dev type 1.

Definition iupdate (ip : Z) : M K unit :=
  k ← get;
  let i := ks_inode k ip in
  bp ← kbread (i_dev i) (IBLOCK (i_inum i) (ks_sb k));
  d ← kdata bp;
  k ← get;
  kset_data bp (put_dinode d (sizeof_dinode * (i_inum i mod IPB)) (ks_inode k ip));;
  klog_write bp;;
  kbrelse bp.

Definition idup (ip : Z) : M K Z :=
  acquire itable_lock;;
  modify (fun k => upd_inode ip (set_i_ref (i_ref (ks_inode k ip) + 1)) k);;
  release itable_lock;;
  mret ip.

Definition ilk_rd (ip : Z) (k : K) : sleeplock := i_lock (ks_inode k ip).
Definition ilk_wr (ip : Z) (l : sleeplock) (k : K) : K := upd_inode ip (set_i_lock l) k.
Definition iacquire (ip : Z) : M K unit := acquiresleep (ilk_rd ip) (ilk_wr ip) (inode_lock ip) (inode_chan ip).
Definition irelease (ip : Z) : M K unit := releasesleep (ilk_wr ip) (inode_lock ip) (inode_chan ip).

Definition ilock (ip : Z) : M K unit :=
  k ← get;
  if i_ref (ks_inode k ip) <? 1 then panic "ilock"
  else
    iacquire ip;;
    k ← get;
    let i := ks_inode k ip in
    if i_valid i =? 0 then
      bp ← kbread (i_dev i) (IBLOCK (i_inum i) (ks_sb k));
      d ← kdata bp;
      modify (upd_inode ip (get_dinode d (sizeof_dinode * (i_inum i mod IPB))));;
      kbrelse bp;;
      modify (upd_inode ip (set_i_valid 1));;
      k ← get;
      if i_type (ks_inode k ip) =? 0 then panic "ilock: no type" else mret tt
    else mret tt.

Definition iunlock (ip : Z) : M K unit :=
  h ← holdingsleep (ilk_rd ip) (inode_lock ip);
  k ← get;
  if negb h || (i_ref (ks_inode k ip) <? 1) then panic "iunlock"
  else irelease ip.

(** ** Contents *)

(** The rest of [bmap] once the indirect block [addr] is known. *)
Definition bmap_indirect (dev addr bn : Z) : M K Z :=
  bp ← kbread dev addr;
  d ← kdata bp;
  let addr := rd32 d (4 * bn) in
  r ← (if addr =? 0 then
         addr ← balloc dev;
         (if nz addr then
            kset_data bp (wr32 d (4 * bn) addr);;
            klog_write bp
          else mret tt);;
         mret addr
       else mret addr);
  kbrelse bp;;
  mret r.

Definition set_addr (i v : Z) (ip : inode) : inode := set_i_addrs (<[i := v]> (i_addrs ip)) ip.

Definition bmap (ip bn : Z) : M K Z :=
  k ← get;
  let i := ks_inode k ip in
  if bn <? NDIRECT then
    let addr := i_addrs i bn in
    if addr =? 0 then
      addr ← balloc (i_dev i);
      if addr =? 0 then mret 0
      else modify (upd_inode ip (set_addr bn addr));; mret addr
    else mret addr
  else
    let bn := bn - NDIRECT in
    if bn <? NINDIRECT then
      let addr := i_addrs i NDIRECT in
      if addr =? 0 then
        addr ← balloc (i_dev i);
        if addr =? 0 then mret 0
        else
          modify (upd_inode ip (set_addr NDIRECT addr));;
          bmap_indirect (i_dev i) addr bn
      else bmap_indirect (i_dev i) addr bn
    else panic "bmap: out of range".

Fixpoint itrunc_direct (ip i : Z) (n : nat) : M K unit :=
  match n with
  | O => mret tt
  | S n =>
      k ← get;
      let e := ks_inode k ip in
      (if nz (i_addrs e i) then
         bfree (i_dev e) (i_addrs e i);;
         modify (upd_inode ip (set_addr i 0))
       else mret tt);;
      itrunc_direct ip (i + 1) n
  end.

Fixpoint itrunc_indirect (dev : Z) (d : block) (j : Z) (n : nat) : M K unit :=
  match n with
  | O => mret tt
  | S n =>
      (if nz (rd32 d (4 * j)) then bfree dev (rd32 d (4 * j)) else mret tt);;
      itrunc_indirect dev d (j + 1) n
  end.

Definition itrunc (ip : Z) : M K unit :=
  itrunc_direct ip 0 (Z.to_nat NDIRECT);;
  k ← get;
  let e := ks_inode k ip in
  (if nz (i_addrs e NDIRECT) then
     bp ← kbread (i_dev e) (i_addrs e NDIRECT);
     d ← kdata bp;
     itrunc_indirect (i_dev e) d 0 (Z.to_nat NINDIRECT);;
     kbrelse bp;;
     bfree (i_dev e) (i_addrs e NDIRECT);;
     modify (upd_inode ip (set_addr NDIRECT 0))
   else mret tt);;
  modify (upd_inode ip (set_i_size 0));;
  iupdate ip.

Definition iput (ip : Z) : M K unit :=
  acquire itable_lock;;
  k ← get;
  let e := ks_inode k ip in
  (if (i_ref e =? 1) && nz (i_valid e) && (i_nlink e =? 0) then
     iacquire ip;;
     release itable_lock;;
     itrunc ip;;
     modify (upd_inode ip (set_i_type 0));;
     iupdate ip;;
     modify (upd_inode ip (set_i_valid 0));;
     irelease ip;;
     acquire itable_lock
   else mret tt);;
  modify (fun k => upd_inode ip (set_i_ref (i_ref (ks_inode k ip) - 1)) k);;
  release itable_lock.

Definition iunlockput (ip : Z) : M K unit := iunlock ip;; iput ip.

Fixpoint ireclaim_loop (n : nat) (dev inum : Z) : M K unit :=
  match n with
  | O => mret tt
  | S n =>
      k ← get;
      bp ← kbread dev (IBLOCK inum (ks_sb k));
      d ← kdata bp;
      let o := sizeof_dinode * (inum mod IPB) in
      ip ← (if negb (di_type d o =? 0) && (di_nlink d o =? 0) then
              printf "ireclaim: orphaned inode";;
              ip ← iget dev inum;
              mret (Some ip)
            else mret None);
      kbrelse bp;;
      match ip with
      | Some ip =>
          kbegin_op;;
          ilock ip;;
          iunlock ip;;
          iput ip;;
          kend_op
      | None => mret tt
      end;;
      ireclaim_loop n dev (inum + 1)
  end.

Definition ireclaim (dev : Z) : M K unit :=
  k ← get;
  ireclaim_loop (Z.to_nat (sb_ninodes (ks_sb k) - 1)) dev 1.

Definition fsinit (dev : Z) : M K unit :=
  readsb dev;;
  k ← get;
  if negb (sb_magic (ks_sb k) =? FSMAGIC) then panic "invalid file system"
  else
    lz (initlog dev (sb_logstart (ks_sb k)));;
    ireclaim dev.

(** The bytes of struct stat: dev, ino, type, nlink and, after padding, size. *)
Definition stati (ip : inode) : list byte :=
  let d := replicate 24 (chr 0) in
  let d := wr32 d 0 (i_dev ip) in
  let d := wr32 d 4 (i_inum ip) in
  let d := wr16 d 8 (i_type ip) in
  let d := wr16 d 10 (i_nlink ip) in
  wrn 8 d 16 (i_size ip).

(** The loop of [readi]: the bytes copied out so far are [acc], and their
    number is [tot]. *)
Fixpoint readi_loop (fuel : nat) (ip : Z) (dst : place) (off n tot : Z) (acc : list byte) : M K (Z * list byte) :=
  match fuel with
  | O => fuel_out
  | S fuel =>
      if tot <? n then
        addr ← bmap ip (off / BSIZE);
        if addr =? 0 then mret (tot, acc)
        else
          k ← get;
          bp ← kbread (i_dev (ks_inode k ip)) addr;
          let m := Z.min (n - tot) (BSIZE - off mod BSIZE) in
          d ← kdata bp;
          let l := slice d (off mod BSIZE) m in
          r ← either_copyout dst tot l;
          if r =? -1 then kbrelse bp;; mret (-1, acc)
          else
            kbrelse bp;;
            readi_loop fuel ip dst (u32 (off + m)) n (u32 (tot + m)) (acc ++ l)
      else mret (tot, acc)
  end.

Definition readi (ip : Z) (dst : place) (off n : Z) : M K (Z * list byte) :=
  k ← get;
  let size := i_size (ks_inode k ip) in
  if (size <? off) || (u32 (off + n) <? off) then mret (0, [])
  else
    let n := if size <? u32 (off + n) then size - off else n in
    readi_loop (S (S (Z.to_nat (n / BSIZE + 1)))) ip dst off n 0 [].

(** The loop of [writei]: the total and the final offset. *)
Fixpoint writei_loop (fuel : nat) (ip : Z) (src : place) (off n tot : Z) : M K (Z * Z) :=
  match fuel with
  | O => fuel_out
  | S fuel =>
      if tot <? n then
        addr ← bmap ip (off / BSIZE);
        if addr =? 0 then mret (tot, off)
        else
          k ← get;
          bp ← kbread (i_dev (ks_inode k ip)) addr;
          let m := Z.min (n - tot) (BSIZE - off mod BSIZE) in
          rl ← either_copyin src tot m;
          let '(r, l) := rl in
          d ← kdata bp;
          kset_data bp (splice d (off mod BSIZE) l);;
          if r =? -1 then kbrelse bp;; mret (tot, off)
          else
            klog_write bp;;
            kbrelse bp;;
            writei_loop fuel ip src (u32 (off + m)) n (u32 (tot + m))
      else mret (tot, off)
  end.

Definition writei (ip : Z) (src : place) (off n : Z) : M K Z :=
  k ← get;
  if (i_size (ks_inode k ip) <? off) || (u32 (off + n) <? off) then mret (-1)
  else if MAXFILE * BSIZE <? u32 (off + n) then mret (-1)
  else
    r ← writei_loop (S (S (Z.to_nat (n / BSIZE + 1)))) ip src off n 0;
    let '(tot, off) := r in
    modify (fun k => if i_size (ks_inode k ip) <? off then upd_inode ip (set_i_size off) k else k);;
    iupdate ip;;
    mret (i32 tot).

(** ** Directories *)

(** The entry, its offset, or nothing. *)
Fixpoint dirlookup_loop (n : nat) (dp : Z) (name : list byte) (off : Z) : M K (option (Z * Z)) :=
  match n with
  | O => mret None
  | S n =>
      rl ← readi dp (Local []) off sizeof_dirent;
      let '(r, de) := rl in
      if negb (r =? sizeof_dirent) then panic "dirlookup read"
      else if de_inum de =? 0 then dirlookup_loop n dp name (off + sizeof_dirent)
      else if namecmp name (de_name de) =? 0 then
        k ← get;
        ip ← iget (i_dev (ks_inode k dp)) (de_inum de);
        mret (Some (ip, off))
      else dirlookup_loop n dp name (off + sizeof_dirent)
  end.

(** [for(off = 0; off < dp->size; off += sizeof(de))]: the number of entries,
    the last one perhaps incomplete. *)
Definition dir_entries (size : Z) : nat := Z.to_nat ((size + sizeof_dirent - 1) / sizeof_dirent).

Definition dirlookup (dp : Z) (name : list byte) : M K (option (Z * Z)) :=
  k ← get;
  if negb (i_type (ks_inode k dp) =? T_DIR) then panic "dirlookup not DIR"
  else dirlookup_loop (dir_entries (i_size (ks_inode k dp))) dp name 0.

(** The offset of the first empty entry, or the end of the directory. *)
Fixpoint dirlink_scan (n : nat) (dp off : Z) : M K Z :=
  match n with
  | O => mret off
  | S n =>
      rl ← readi dp (Local []) off sizeof_dirent;
      let '(r, de) := rl in
      if negb (r =? sizeof_dirent) then panic "dirlink read"
      else if de_inum de =? 0 then mret off
      else dirlink_scan n dp (off + sizeof_dirent)
  end.

Definition dirlink (dp : Z) (name : list byte) (inum : Z) : M K Z :=
  found ← dirlookup dp name;
  match found with
  | Some (ip, _) => iput ip;; mret (-1)
  | None =>
      k ← get;
      off ← dirlink_scan (dir_entries (i_size (ks_inode k dp))) dp 0;
      r ← writei dp (Local (mk_dirent inum (pad_name name))) off sizeof_dirent;
      if negb (r =? sizeof_dirent) then mret (-1) else mret 0
  end.

(** ** Paths *)

(** The loop of [namex]; each turn consumes a byte of the path at least.
    The result is the inode and the last element copied to [name]. *)
Fixpoint namex_loop (fuel : nat) (ip : Z) (path : list byte) (nameiparent : bool) (name : list byte)
  : M K (option (Z * list byte)) :=
  match fuel with
  | O => fuel_out
  | S fuel =>
      match skipelem path with
      | None =>
          if nameiparent then iput ip;; mret None else mret (Some (ip, name))
      | Some (path, name) =>
          ilock ip;;
          k ← get;
          if negb (i_type (ks_inode k ip) =? T_DIR) then iunlockput ip;; mret None
          else if nameiparent && (match path with [] => true | _ => false end) then
            iunlock ip;; mret (Some (ip, name))
          else
            next ← dirlookup ip name;
            match next with
            | None => iunlockput ip;; mret None
            | Some (next, _) => iunlockput ip;; namex_loop fuel next path nameiparent name
            end
      end
  end.

Definition namex (path : list byte) (nameiparent : bool) : M K (option (Z * list byte)) :=
  ip ← (if decide (head path = Some slash) then iget ROOTDEV ROOTINO
        else p ← myproc; match p_cwd p with Some d => idup d | None => panic "kerneltrap" end);
  namex_loop (S (length path)) ip path nameiparent [].

Definition namei (path : list byte) : M K (option Z) :=
  r ← namex path false;
  mret (fst <$> r).

Definition nameiparent (path : list byte) : M K (option (Z * list byte)) := namex path true.
End fs.
