(* ===== verification/FsBlock.v ===== *)
(** * FsBlock: the free map of the file system

    [balloc] and [bfree] inside a transaction: what they do to the blocks the
    file system sees, and what they log. *)

From S2P Require Import Prelude Riscv Kalloc Sleeplock Layout Bio BioSpec Log LogSpec LogAtomic Tx Kernel Fs.

(** ** Bits of a free map block *)

Lemma nz_land_bit x k : 0 <= k -> nz (Z.land x (Z.shiftl 1 k)) = Z.testbit x k.
Proof.
  intros Hk. rewrite Z.shiftl_1_l. unfold nz. destruct (Z.testbit x k) eqn:E.
  - apply negb_true_iff, Z.eqb_neq. intros E0. apply (f_equal (fun z => Z.testbit z k)) in E0.
    by rewrite Z.land_spec, Z.pow2_bits_true, E, Z.testbit_0_l in E0.
  - apply negb_false_iff, Z.eqb_eq. apply Z.bits_inj_0. intros n. rewrite Z.land_spec.
    destruct (decide (n = k)) as [->|]; [by rewrite E|]. rewrite Z.pow2_bits_false by done. apply andb_false_r.
Qed.

Lemma bit_used_eq d bi : bit_used d bi = Z.testbit (cv (bit_byte d bi)) (bi mod 8).
Proof. apply nz_land_bit. divlia. Qed.

Lemma testbit_chr z k : 0 <= k < 8 -> Z.testbit (cv (chr z)) k = Z.testbit z k.
Proof. intros Hk. rewrite byte.unsigned_of_Z. unfold byte.wrap. apply (Z.mod_pow2_bits_low z 8). lia. Qed.

Lemma bit_byte_insert d bi bj x : 0 <= bi -> 0 <= bj -> bi / 8 < Z.of_nat (length d) ->
  bit_byte (<[Z.to_nat (bi / 8) := x]> d) bj = if decide (bi / 8 = bj / 8) then x else bit_byte d bj.
Proof.
  intros Hi Hj Hl. unfold bit_byte. rewrite !nth_lookup. case_decide as E.
  - rewrite <-E, list_lookup_insert_eq by divlia. done.
  - rewrite list_lookup_insert_ne by divlia. done.
Qed.

Lemma bit_used_set d bi bj : 0 <= bi -> 0 <= bj -> bi / 8 < Z.of_nat (length d) ->
  bit_used (set_bit d bi) bj = if decide (bi = bj) then true else bit_used d bj.
Proof.
  intros Hi Hj Hl. rewrite !bit_used_eq. unfold set_bit. rewrite bit_byte_insert by done.
  destruct (decide (bi / 8 = bj / 8)) as [E|E]; [|by rewrite decide_False by congruence].
  rewrite testbit_chr, Z.lor_spec, Z.shiftl_1_l, Z.pow2_bits_eqb by divlia.
  assert (Eb : bit_byte d bi = bit_byte d bj) by (unfold bit_byte; by rewrite E). rewrite Eb.
  case_decide as Hd; [subst; rewrite Z.eqb_refl; apply orb_true_r|].
  rewrite (proj2 (Z.eqb_neq _ _)); [apply orb_false_r|]. divlia.
Qed.

Lemma bit_used_clear d bi bj : 0 <= bi -> 0 <= bj -> bi / 8 < Z.of_nat (length d) ->
  bit_used (clear_bit d bi) bj = if decide (bi = bj) then false else bit_used d bj.
Proof.
  intros Hi Hj Hl. rewrite !bit_used_eq. unfold clear_bit. rewrite bit_byte_insert by done.
  destruct (decide (bi / 8 = bj / 8)) as [E|E]; [|by rewrite decide_False by congruence].
  rewrite testbit_chr, Z.land_spec, Z.lnot_spec, Z.shiftl_1_l, Z.pow2_bits_eqb by divlia.
  assert (Eb : bit_byte d bi = bit_byte d bj) by (unfold bit_byte; by rewrite E). rewrite Eb.
  case_decide as Hd; [subst; rewrite Z.eqb_refl; apply andb_false_r|].
  rewrite (proj2 (Z.eqb_neq _ _)); [apply andb_true_r|]. divlia.
Qed.

Lemma length_set_bit d bi : length (set_bit d bi) = length d.
Proof. apply length_insert. Qed.

Lemma length_clear_bit d bi : length (clear_bit d bi) = length d.
Proof. apply length_insert. Qed.

Lemma find_bit_spec d b size bi k :
  match find_bit d b size bi k with
  | Some x => bi <= x < bi + Z.of_nat k /\ b + x < size /\ bit_used d x = false
  | None => forall x, bi <= x < bi + Z.of_nat k -> b + x < size -> bit_used d x = true
  end.
Proof.
  revert bi. induction k as [|k IH]; intros bi; cbn [find_bit]; [intros; lia|].
  destruct (Z.ltb_spec (b + bi) size); [|intros; lia].
  destruct (bit_used d bi) eqn:E; [|split_and!; [lia|lia|lia|done]].
  specialize (IH (bi + 1)). destruct (find_bit d b size (bi + 1) k) as [x|].
  - destruct IH as (? & ? & ?). split_and!; [lia|lia|lia|done].
  - intros x Hx Hs. destruct (decide (x = bi)) as [->|]; [done|]. apply IH; lia.
Qed.

(** ** The layout of the disk *)

(** The first block after the free map. *)
Definition data_start (sb : superblock) : Z := sb_bmapstart sb + (sb_size sb - 1) / BPB + 1.

(** The superblock describes a disk: the log, the inodes, the free map and
    the data blocks follow each other, as mkfs.c lays them out. *)
Record geometry (sb : superblock) (start : Z) : Prop := {
  ge_log : 1 < start /\ start + LOGBLOCKS < sb_inodestart sb;
  ge_inodes : 0 < sb_ninodes sb /\ sb_inodestart sb + (sb_ninodes sb - 1) / IPB < sb_bmapstart sb;
  ge_data : data_start sb <= sb_size sb < 2 ^ 31
}.

(** The free map has block [b] in use. *)
Definition used (sb : superblock) (v : Z -> block) (b : Z) : bool := bit_used (v (BBLOCK b sb)) (b mod BPB).

Definition zero_block : block := replicate (Z.to_nat BSIZE) (chr 0).

(** The blocks after the allocation, or the release, of block [b]. *)
Definition allocated (sb : superblock) (b : Z) (v : Z -> block) : Z -> block :=
  <[b := zero_block]> (<[BBLOCK b sb := set_bit (v (BBLOCK b sb)) (b mod BPB)]> v).
Definition released (sb : superblock) (b : Z) (v : Z -> block) : Z -> block :=
  <[BBLOCK b sb := clear_bit (v (BBLOCK b sb)) (b mod BPB)]> v.

Section layout.
Context (sb : superblock) (start : Z).
Hypothesis G : geometry sb start.

Lemma BPB_pos : BPB = 8192.
Proof. done. Qed.

Lemma BBLOCK_eq b : 0 <= b < sb_size sb -> BBLOCK b sb = b / BPB + sb_bmapstart sb.
Proof using G.
  intros Hb. unfold BBLOCK, u32. apply Z.mod_small. destruct G as [[? ?] [? Hi] Hd]. unfold data_start in Hd.
  unfold LOGBLOCKS, MAXOPBLOCKS in *. pose proof BPB_pos. unfold IPB in Hi.
  assert (0 <= (sb_ninodes sb - 1) / (BSIZE / sizeof_dinode)) by (apply Z.div_pos; [lia|done]).
  assert (b / BPB <= (sb_size sb - 1) / BPB) by (apply Z.div_le_mono; lia).
  assert (0 <= b / BPB) by (apply Z.div_pos; lia). lia.
Qed.

Lemma BBLOCK_range b : 0 <= b < sb_size sb -> sb_bmapstart sb <= BBLOCK b sb < data_start sb.
Proof using G.
  intros Hb. rewrite BBLOCK_eq by done. unfold data_start. pose proof BPB_pos.
  assert (b / BPB <= (sb_size sb - 1) / BPB) by (apply Z.div_le_mono; lia).
  assert (0 <= b / BPB) by (apply Z.div_pos; lia). lia.
Qed.

Lemma inodes_before_map : sb_inodestart sb < sb_bmapstart sb.
Proof using G.
  destruct G as [_ [? Hi] _]. unfold IPB in Hi.
  assert (0 <= (sb_ninodes sb - 1) / (BSIZE / sizeof_dinode)) by (apply Z.div_pos; [lia|done]). lia.
Qed.

Lemma bmap_after_log : start + LOGBLOCKS < sb_bmapstart sb.
Proof using G.
  destruct G as [[? ?] [? Hi] Hd]. unfold IPB in Hi.
  assert (0 <= (sb_ninodes sb - 1) / (BSIZE / sizeof_dinode)) by (apply Z.div_pos; [lia|done]). lia.
Qed.

Lemma size_pos : sb_bmapstart sb < data_start sb /\ 0 < sb_bmapstart sb.
Proof using G.
  pose proof bmap_after_log. destruct G as [[? ?] _ [Hd _]]. unfold data_start in *. rewrite BPB_pos in *.
  unfold LOGBLOCKS, MAXOPBLOCKS in *. divlia.
Qed.

Lemma bit_index b (d : block) : length d = Z.to_nat BSIZE -> b mod BPB / 8 < Z.of_nat (length d).
Proof. intros ->. unfold BPB, BSIZE. divlia. Qed.

Lemma same_bit b b' : 0 <= b < sb_size sb -> 0 <= b' < sb_size sb ->
  BBLOCK b sb = BBLOCK b' sb -> b mod BPB = b' mod BPB -> b = b'.
Proof using G. intros Hb Hb' E Em. rewrite !BBLOCK_eq in E by done. rewrite BPB_pos in *. divlia. Qed.

Lemma used_upd v b x : 0 <= b < sb_size sb -> data_start sb <= x -> used sb (<[x := zero_block]> v) b = used sb v b.
Proof using G. intros Hb Hx. unfold used. rewrite upd_other; [done|]. pose proof (BBLOCK_range b Hb). lia. Qed.

Lemma used_bit v b b' x :
  0 <= b < sb_size sb -> 0 <= b' < sb_size sb ->
  (BBLOCK b sb = BBLOCK b' sb -> bit_used x (b' mod BPB) = if decide (b = b') then bit_used x (b mod BPB) else used sb v b') ->
  used sb (<[BBLOCK b sb := x]> v) b' = if decide (b = b') then bit_used x (b mod BPB) else used sb v b'.
Proof using G.
  intros Hb Hb' Hx. unfold used at 1. rewrite upd_eq. destruct (decide (BBLOCK b sb = BBLOCK b' sb)) as [E|E].
  - by apply Hx.
  - rewrite decide_False by congruence. done.
Qed.

Lemma mod_BPB b : 0 <= b mod BPB.
Proof. by apply Z.mod_pos_bound. Qed.

Ltac bit_range := first [apply mod_BPB | by apply bit_index].

Lemma used_allocated v b b' : length (v (BBLOCK b sb)) = Z.to_nat BSIZE ->
  data_start sb <= b < sb_size sb -> 0 <= b' < sb_size sb ->
  used sb (allocated sb b v) b' = if decide (b = b') then true else used sb v b'.
Proof using G.
  intros Hl Hb Hb'. assert (Hb0 : 0 <= b < sb_size sb) by (pose proof size_pos; lia).
  unfold allocated. rewrite used_upd by lia. pose proof BPB_pos. rewrite used_bit; [| done | done |].
  - rewrite bit_used_set, (decide_True _ _ (eq_refl (b mod BPB))) by (bit_range). done.
  - intros E. rewrite !bit_used_set by (bit_range).
    rewrite (decide_True _ _ (eq_refl (b mod BPB))). unfold used. rewrite <-E.
    destruct (decide (b mod BPB = b' mod BPB)) as [Em|Em].
    + by rewrite decide_True by by apply same_bit.
    + by rewrite decide_False by congruence.
Qed.

Lemma used_released v b b' : length (v (BBLOCK b sb)) = Z.to_nat BSIZE ->
  0 <= b < sb_size sb -> 0 <= b' < sb_size sb ->
  used sb (released sb b v) b' = if decide (b = b') then false else used sb v b'.
Proof using G.
  intros Hl Hb Hb'. unfold released. pose proof BPB_pos. rewrite used_bit; [| done | done |].
  - rewrite bit_used_clear, (decide_True _ _ (eq_refl (b mod BPB))) by (bit_range). done.
  - intros E. rewrite !bit_used_clear by (bit_range).
    rewrite (decide_True _ _ (eq_refl (b mod BPB))). unfold used. rewrite <-E.
    destruct (decide (b mod BPB = b' mod BPB)) as [Em|Em].
    + by rewrite decide_True by by apply same_bit.
    + by rewrite decide_False by congruence.
Qed.
End layout.

(** ** Blocks of the kernel inside a transaction *)

(** Block [bn] is changed to [x] and logged. *)
Definition td_put (bn : Z) (x : block) (d : tdisk) : tdisk := td_log bn (td_set bn x d).

Lemma td_lock_put b bn bn' x d : td_locked d !! b = None ->
  td_lock (delete b) (td_put bn x (td_lock (<[b := bn']>) d)) = td_put bn x d.
Proof. intros Hb. unfold td_put, td_log, td_set, td_lock. simpl. by rewrite delete_insert_id. Qed.

Lemma td_lock_delete b bn d : td_locked d !! b = None -> td_lock (delete b) (td_lock (<[b := bn]>) d) = d.
Proof. intros Hb. unfold td_lock. simpl. rewrite delete_insert_id by done. by destruct d. Qed.

(** Buffers and entries of the log are left for [n] more blocks. *)
Definition spare (n : nat) (d : tdisk) : Prop :=
  (length (td_logged d) + size (td_locked d) + n <= Z.to_nat NBUF)%nat.

Lemma length_add_block bn l : (length (add_block bn l) <= S (length l))%nat.
Proof. unfold add_block. case_decide; [lia|]. rewrite length_app. simpl. lia. Qed.

Lemma elem_of_add_block x bn l : x ∈ add_block bn l <-> x = bn \/ x ∈ l.
Proof. unfold add_block. case_decide; set_solver. Qed.

Lemma spare_le n n' d : spare n d -> (n' <= n)%nat -> spare n' d.
Proof. unfold spare. lia. Qed.

Lemma spare_put n bn x d : spare (S n) d -> spare n (td_put bn x d).
Proof. unfold spare. cbn [td_put td_log td_set td_logged td_locked]. pose proof (length_add_block bn (td_logged d)). lia. Qed.

Lemma spare_lock n b bn d : spare (S n) d -> spare n (td_lock (<[b := bn]>) d).
Proof.
  unfold spare. cbn [td_lock td_logged td_locked]. rewrite map_size_insert. destruct (td_locked d !! b); simpl; lia.
Qed.

(** The blocks of the free map that are not in the log yet; a transaction
    logs each of them at most once. *)
Definition map_blocks (sb : superblock) : list Z := seqZ (sb_bmapstart sb) (data_start sb - sb_bmapstart sb).
Definition map_cost (sb : superblock) (l : list Z) : nat := length (filter (fun bn => bn ∉ l) (map_blocks sb)).

(** Room for [n] more blocks once the free map is counted. *)
Definition slack (sb : superblock) (n : nat) (d : tdisk) : Prop := spare (map_cost sb (td_logged d) + n) d.

Section slack.
Context (sb : superblock).

Lemma elem_of_map_blocks bn : bn ∈ map_blocks sb <-> sb_bmapstart sb <= bn < data_start sb.
Proof. unfold map_blocks. rewrite elem_of_seqZ. lia. Qed.

Lemma filter_cost (P R : Z -> Prop) `{!forall x, Decision (P x), !forall x, Decision (R x)} l :
  (forall x, x ∈ l -> R x -> P x) -> (length (filter R l) <= length (filter P l))%nat.
Proof.
  induction l as [|x l IH]; intros HI; [done|]. rewrite !filter_cons.
  assert ((length (filter R l) <= length (filter P l))%nat) by (apply IH; intros; apply HI; [by right|done]).
  repeat case_decide; simpl; try lia. exfalso. eauto using list_elem_of_here.
Qed.

Lemma map_cost_mono l l' : l ⊆ l' -> (map_cost sb l' <= map_cost sb l)%nat.
Proof. intros Hl. apply filter_cost. set_solver. Qed.

Lemma map_cost_logged bn l : bn ∈ map_blocks sb -> bn ∉ l -> (S (map_cost sb (l ++ [bn])) <= map_cost sb l)%nat.
Proof.
  unfold map_cost. intros Hbn Hl. apply list_elem_of_split in Hbn as (l1 & l2 & ->).
  rewrite !filter_app, !filter_cons, !length_app. rewrite decide_False by set_solver. rewrite decide_True by done.
  simpl. pose proof (filter_cost (fun x => x ∉ l) (fun x => x ∉ l ++ [bn]) l1 ltac:(set_solver)).
  pose proof (filter_cost (fun x => x ∉ l) (fun x => x ∉ l ++ [bn]) l2 ltac:(set_solver)). lia.
Qed.

Lemma slack_spare n d : slack sb n d -> spare n d.
Proof. unfold slack, spare. lia. Qed.

Lemma slack_le n n' d : slack sb n d -> (n' <= n)%nat -> slack sb n' d.
Proof. unfold slack, spare. lia. Qed.

Lemma slack_put n bn x d : slack sb (S n) d -> slack sb n (td_put bn x d).
Proof.
  unfold slack, spare. cbn [td_put td_log td_set td_logged td_locked].
  pose proof (length_add_block bn (td_logged d)).
  assert (Hsub : td_logged d ⊆ add_block bn (td_logged d)) by (intros y; rewrite elem_of_add_block; by right).
  pose proof (map_cost_mono _ _ Hsub). lia.
Qed.

Lemma slack_put_logged n bn x d : bn ∈ td_logged d -> slack sb n d -> slack sb n (td_put bn x d).
Proof.
  intros Hbn. unfold slack, spare. cbn [td_put td_log td_set td_logged td_locked].
  unfold add_block. by rewrite decide_True.
Qed.

Lemma slack_put_map n bn x d : sb_bmapstart sb <= bn < data_start sb -> slack sb n d -> slack sb n (td_put bn x d).
Proof.
  intros Hbn%elem_of_map_blocks Hs. destruct (decide (bn ∈ td_logged d)) as [|Hn]; [by apply slack_put_logged|].
  revert Hs. unfold slack, spare. cbn [td_put td_log td_set td_logged td_locked]. unfold add_block.
  rewrite decide_False, length_app by done. pose proof (map_cost_logged bn (td_logged d) Hbn Hn). simpl. lia.
Qed.

Lemma slack_lock n b bn d : slack sb (S n) d -> slack sb n (td_lock (<[b := bn]>) d).
Proof.
  unfold slack, spare. cbn [td_lock td_logged td_locked]. rewrite map_size_insert.
  destruct (td_locked d !! b); simpl; lia.
Qed.
End slack.

Section blocks.
Context `{KernelLayout} {C : Type} `{BlockCache C} (dev pid : Z).
Hypothesis Hdev : dev <> 0.
Local Abbreviation K := (kernel C).
Implicit Types (t : tctx) (k : K) (d : tdisk).

Definition ktx (k : K) (d : tdisk) : Prop := tx dev pid (ks_log k) d.

(** Nothing but the log, and the cache under it, has changed. *)
Definition only_log (k k' : K) : Prop := exists s', k' = set_ks_log s' k /\ same_tx (ks_log k) s'.

#[global] Instance only_log_preorder : PreOrder only_log.
Proof.
  split; [intros k; exists (ks_log k); split; [by destruct k|done]|].
  intros k1 k2 k3 (s1 & -> & E1) (s2 & -> & E2). exists s2. split; [done|]. by etrans.
Qed.

(** Inside an operation, block [bn] may be logged. *)
Definition loggable (k : K) (bn : Z) : Prop :=
  1 <= lg_outstanding (ks_log k) /\ ~ in_log (lg_start (ks_log k)) bn /\ 0 <= bn < 2 ^ 31.

Lemma loggable_only_log k k' bn : only_log k k' -> loggable k bn -> loggable k' bn.
Proof. intros (s' & -> & (E1 & E2 & _)). unfold loggable. simpl. by rewrite E1, E2. Qed.

(** The thread may use the cache and the log. *)
Definition ready (t : tctx) : Prop := runs pid t /\ log_lock ∉ t_held t.

Lemma ready_quiet t t' : quiet t t' -> ready t -> ready t'.
Proof. intros Hq [Hr Hl]. split; [by eapply runs_quiet|]. destruct Hq as (-> & _). done. Qed.

Lemma ktx_length k d bn : ktx k d -> length (td_view d bn) = Z.to_nat BSIZE.
Proof. intros [a R]. apply R. Qed.

Lemma kbread_wp t k d bn (Q : Z -> tctx -> K -> Prop) :
  ktx k d -> ready t -> td_unlocked d bn -> spare 1 d ->
  (forall b k', only_log k k' -> td_locked d !! b = None -> ktx k' (td_lock (<[b := bn]>) d) -> Q b t k') ->
  wp (kbread dev bn) Q t k.
Proof using Hdev.
  intros T [Hr _] Hu Hs HQ. apply wp_zoom. eapply wp_mono.
  { eapply (tx_bread dev pid Hdev t (ks_log k) d bn); [exact T|done|done|]. unfold spare in Hs. unfold room. lia. }
  intros b t' s' (-> & Es & Hb & T'). apply HQ; [by exists s'|done|done].
Qed.

Lemma kdata_wp t k d b bn (Q : block -> tctx -> K -> Prop) :
  ktx k d -> td_locked d !! b = Some bn -> Q (td_view d bn) t k -> wp (kdata b) Q t k.
Proof using.
  intros T Hb HQ. apply wp_zoom. eapply (tx_data dev pid); [exact T|done|]. by destruct k.
Qed.

Lemma kbrelse_wp t k d b bn (Q : unit -> tctx -> K -> Prop) :
  ktx k d -> ready t -> td_locked d !! b = Some bn -> (bn ∈ td_logged d \/ td_view d bn = td_disk d bn) ->
  (forall t' k', quiet t t' -> only_log k k' -> ktx k' (td_lock (delete b) d) -> Q tt t' k') ->
  wp (kbrelse b) Q t k.
Proof using Hdev.
  intros T [Hr _] Hb Hc HQ. apply wp_zoom. eapply wp_mono; [by eapply (tx_brelse dev pid Hdev)|].
  intros [] t' s' (Hq & Es & T'). apply HQ; [done|by exists s'|done].
Qed.

(** A block that was only read is released. *)
Lemma kbrelse_clean_wp t k d0 d b bn (Q : unit -> tctx -> K -> Prop) k0 :
  ktx k0 d0 -> td_unlocked d0 bn -> td_locked d0 !! b = None -> d = td_lock (<[b := bn]>) d0 ->
  ktx k d -> ready t ->
  (forall t' k', quiet t t' -> only_log k k' -> ktx k' d0 -> Q tt t' k') ->
  wp (kbrelse b) Q t k.
Proof using Hdev.
  intros T0 Hu Hn -> T Hr HQ. eapply kbrelse_wp; [exact T|done|apply lookup_insert_eq| |].
  - destruct (decide (bn ∈ td_logged d0)) as [|Hl]; [by left|]. right. exact (tx_clean dev pid _ _ _ T0 Hu Hl).
  - intros t' k' Hq Hk. rewrite td_lock_delete by done. by apply HQ.
Qed.

Lemma kset_data_wp t k d b bn x (Q : unit -> tctx -> K -> Prop) :
  ktx k d -> td_locked d !! b = Some bn -> length x = Z.to_nat BSIZE ->
  (forall k', only_log k k' -> ktx k' (td_set bn x d) -> Q tt t k') -> wp (kset_data b x) Q t k.
Proof using Hdev.
  intros T Hb Hx HQ. apply wp_zoom. eapply wp_mono; [by eapply (tx_set_data dev pid Hdev)|].
  intros [] t' s' (-> & Es & T'). apply HQ; [by exists s'|done].
Qed.

Lemma klog_write_wp t k d b bn (Q : unit -> tctx -> K -> Prop) :
  ktx k d -> ready t -> td_locked d !! b = Some bn -> spare 0 d ->
  loggable k bn ->
  (forall k', only_log k k' -> ktx k' (td_log bn d) -> Q tt t k') -> wp (klog_write b) Q t k.
Proof using Hdev.
  intros T [[Hp Hc] Hl] Hb Hs (Hop & Hout & Hbn) HQ. apply wp_zoom. eapply wp_mono.
  { eapply (tx_log_write dev pid Hdev); [exact T|exact Hop|exact Hb|done|apply Hc|done|done|].
    unfold spare in Hs. assert (size (td_locked d) <> 0%nat).
    { intros E%map_size_empty_inv. rewrite E, lookup_empty in Hb. done. }
    unfold NBUF, LOGBLOCKS in *. lia. }
  intros [] t' s' (-> & Es & T'). apply HQ; [by exists s'|done].
Qed.

(** A locked block gets new contents, is logged and released. *)
Lemma kput_then {A} t k d b bn x (m : M K A) (Q : A -> tctx -> K -> Prop) :
  ktx k d -> ready t -> td_locked d !! b = Some bn -> length x = Z.to_nat BSIZE -> spare 0 d ->
  loggable k bn ->
  (forall t' k', quiet t t' -> only_log k k' -> ktx k' (td_lock (delete b) (td_put bn x d)) -> wp m Q t' k') ->
  wp (kset_data b x;; klog_write b;; kbrelse b;; m) Q t k.
Proof using Hdev.
  intros T Hr Hb Hx Hs Hlg HQ. apply wp_bind. eapply kset_data_wp; [exact T|done|done|]. intros k1 K1 T1.
  apply wp_bind. eapply klog_write_wp; [exact T1|done|done|done|by eapply loggable_only_log|].
  intros k2 K2 T2. apply wp_bind. eapply kbrelse_wp; [exact T2|done|done| |].
  { left. apply elem_of_add_block. by left. }
  intros t' k' Hq K3 T3. apply HQ; [done| |done]. by do 2 (etrans; [eassumption|]).
Qed.

Lemma kput_wp t k d b bn x (Q : unit -> tctx -> K -> Prop) :
  ktx k d -> ready t -> td_locked d !! b = Some bn -> length x = Z.to_nat BSIZE -> spare 0 d ->
  loggable k bn ->
  (forall t' k', quiet t t' -> only_log k k' -> ktx k' (td_lock (delete b) (td_put bn x d)) -> Q tt t' k') ->
  wp (kset_data b x;; klog_write b;; kbrelse b) Q t k.
Proof using Hdev.
  intros T Hr Hb Hx Hs Hlg HQ. apply wp_bind. eapply kset_data_wp; [exact T|done|done|]. intros k1 K1 T1.
  apply wp_bind. eapply klog_write_wp; [exact T1|done|done|done|by eapply loggable_only_log|].
  intros k2 K2 T2. eapply kbrelse_wp; [exact T2|done|done| |].
  { left. apply elem_of_add_block. by left. }
  intros t' k' Hq K3 T3. apply HQ; [done| |done]. by do 2 (etrans; [eassumption|]).
Qed.

(** *** balloc and bfree *)

Section free_map.
Context (sb : superblock) (start : Z).
Hypothesis G : geometry sb start.

(** Inside a transaction of the file system that [sb] describes. *)
Definition fstx (k : K) (d : tdisk) : Prop :=
  ktx k d /\ ks_sb k = sb /\ lg_start (ks_log k) = start /\ 1 <= lg_outstanding (ks_log k).

Lemma fstx_only_log k k' d d' : fstx k d -> only_log k k' -> ktx k' d' -> fstx k' d'.
Proof using.
  intros (_ & Es & El & Eo) (s' & -> & (E & E' & _)) T. split_and!; [done|done|..]; simpl; by rewrite ?E, ?E'.
Qed.

(** The blocks after the log may be logged. *)
Lemma fstx_loggable k k' d bn : fstx k d -> only_log k k' -> sb_inodestart sb <= bn < sb_size sb -> loggable k' bn.
Proof using G.
  intros (_ & _ & El & Eo) K1 Hbn. eapply loggable_only_log; [exact K1|]. destruct G as [[? Hl] _ ?].
  assert (0 < LOGBLOCKS) by done. split_and!; [done| |lia|lia]. rewrite El. unfold in_log. lia.
Qed.

Lemma data_loggable k k' d bn : fstx k d -> only_log k k' -> data_start sb <= bn < sb_size sb -> loggable k' bn.
Proof using G.
  intros T K1 Hbn. eapply fstx_loggable; [done|done|]. pose proof (size_pos sb start G).
  pose proof (inodes_before_map sb start G). lia.
Qed.

Lemma map_loggable k k' d b : fstx k d -> only_log k k' -> 0 <= b < sb_size sb -> loggable k' (BBLOCK b sb).
Proof using G.
  intros T K1 Hb. eapply fstx_loggable; [done|done|]. pose proof (BBLOCK_range sb start G b Hb).
  pose proof (inodes_before_map sb start G). pose proof (ge_data _ _ G). lia.
Qed.

(** The blocks before the data are in use, and the caller has locked
    neither the free map nor a free block. *)
Record free_ok (d : tdisk) : Prop := {
  fo_meta : forall b, 0 <= b < data_start sb -> used sb (td_view d) b = true;
  fo_bitmap : forall bn, sb_bmapstart sb <= bn < data_start sb -> td_unlocked d bn;
  fo_free : forall b, 0 <= b < sb_size sb -> used sb (td_view d) b = false -> td_unlocked d b
}.

Definition td_alloc (b : Z) (d : tdisk) : tdisk :=
  td_put b zero_block (td_put (BBLOCK b sb) (set_bit (td_view d (BBLOCK b sb)) (b mod BPB)) d).
Definition td_free (b : Z) (d : tdisk) : tdisk :=
  td_put (BBLOCK b sb) (clear_bit (td_view d (BBLOCK b sb)) (b mod BPB)) d.

(** What [balloc] may return: a free data block, which it marks and clears,
    or 0 when there is none. *)
Definition alloc_result (d : tdisk) (r : Z) (d' : tdisk) : Prop :=
  (r = 0 /\ d' = d /\ forall b, 0 <= b < sb_size sb -> used sb (td_view d) b = true) \/
  (data_start sb <= r < sb_size sb /\ used sb (td_view d) r = false /\ d' = td_alloc r d).

Lemma free_is_data d b : free_ok d -> 0 <= b < sb_size sb -> used sb (td_view d) b = false -> data_start sb <= b.
Proof using.
  intros F Hb Hu. destruct (decide (data_start sb <= b)); [done|]. by rewrite (fo_meta _ F) in Hu by lia.
Qed.

Lemma bzero_wp t k d b (Q : unit -> tctx -> K -> Prop) :
  fstx k d -> ready t -> data_start sb <= b < sb_size sb -> td_unlocked d b -> spare 1 d ->
  (forall t' k', quiet t t' -> only_log k k' -> fstx k' (td_put b zero_block d) -> Q tt t' k') ->
  wp (bzero dev b) Q t k.
Proof using Hdev G.
  intros T Hr Hb Hu Hs HQ. pose proof (size_pos sb start G). destruct G as [_ _ [_ ?]].
  unfold bzero. apply wp_bind. eapply kbread_wp; [apply T|done|done|done|].
  intros bp k1 K1 Hn T1. eapply kput_wp; [exact T1|done|apply lookup_insert_eq|apply length_replicate|by apply spare_lock|by eapply data_loggable|].
  intros t' k2 Hq K2 T2. rewrite td_lock_put in T2 by done. apply HQ; [done|by etrans|].
  eapply fstx_only_log; [exact T| |exact T2]. by etrans.
Qed.

(** The free map block that [balloc] looks at has a free bit. *)
Lemma balloc_found t k d b bi bp k0 (Q : Z -> tctx -> K -> Prop) :
  fstx k0 d -> only_log k0 k -> free_ok d -> ready t -> slack sb 1 d ->
  td_locked d !! bp = None -> ktx k (td_lock (<[bp := BBLOCK b sb]>) d) ->
  0 <= b -> b mod BPB = 0 -> 0 <= bi < BPB -> b + bi < sb_size sb ->
  bit_used (td_view d (BBLOCK b sb)) bi = false ->
  (forall t' k', quiet t t' -> only_log k0 k' -> fstx k' (td_alloc (b + bi) d) ->
    alloc_result d (b + bi) (td_alloc (b + bi) d) -> Q (b + bi) t' k') ->
  wp (kset_data bp (set_bit (td_view d (BBLOCK b sb)) bi);; klog_write bp;; kbrelse bp;;
      bzero dev (b + bi);; mret (b + bi)) Q t k.
Proof using Hdev G.
  intros T0 K1 F Hr Hs Hn T Hb Hm Hbi Hlt Hf HQ. remember (b + bi) as r eqn:Hrb.
  assert (Er : BBLOCK r sb = BBLOCK b sb).
  { rewrite !(BBLOCK_eq sb start G) by lia. rewrite BPB_pos in *. f_equal. divlia. }
  assert (Em : r mod BPB = bi) by (rewrite BPB_pos in *; divlia).
  assert (Hu : used sb (td_view d) r = false) by (unfold used; by rewrite Er, Em).
  pose proof (free_is_data d r F ltac:(lia) Hu) as Hd.
  pose proof (BBLOCK_range sb start G b ltac:(lia)) as Hr1. pose proof (size_pos sb start G).
  pose proof (ge_data _ _ G).
  eapply kput_then; [exact T|done|apply lookup_insert_eq| | |eapply map_loggable; [done|done|lia]|].
  { rewrite length_set_bit. by eapply ktx_length, T0. }
  { apply spare_lock. by eapply slack_spare. }
  intros t1 k1 Q1 K2 T1. rewrite td_lock_put in T1 by done. apply wp_bind.
  assert (T1' : fstx k1 (td_put (BBLOCK b sb) (set_bit (td_view d (BBLOCK b sb)) bi) d)).
  { eapply fstx_only_log; [exact T0|by etrans|done]. }
  eapply bzero_wp; [exact T1'|by eapply ready_quiet|lia|by apply (fo_free _ F); [lia|]|by eapply slack_spare, slack_put_map|].
  intros t2 k2 Q2 K3 T2. apply wp_ret, HQ; [by etrans|by do 2 (etrans; [eassumption|])| |].
  - unfold td_alloc. by rewrite Er, Em.
  - right. by split_and!; [lia|lia| |].
Qed.

Lemma balloc_loop_wp fuel t k d b (Q : Z -> tctx -> K -> Prop) :
  fstx k d -> ready t -> free_ok d -> slack sb 1 d ->
  0 <= b -> b mod BPB = 0 -> sb_size sb - b <= BPB * Z.of_nat fuel ->
  (forall x, 0 <= x < sb_size sb -> x < b -> used sb (td_view d) x = true) ->
  (forall r t' k' d', quiet t t' -> only_log k k' -> fstx k' d' -> alloc_result d r d' -> Q r t' k') ->
  wp (balloc_loop (S fuel) dev b) Q t k.
Proof using Hdev G.
  revert t k b. induction fuel as [|fuel IH]; intros t k b T Hr F Hs Hb Hm Hf Hu HQ;
    cbn [balloc_loop]; apply wp_bind, wp_get; pose proof T as (_ & -> & _); cbv zeta.
  { rewrite (proj2 (Z.ltb_ge _ _)) by lia. wp_steps. eapply HQ; [apply quiet_emit|reflexivity|exact T|].
    left. split_and!; [done|done|]. intros x Hx. apply Hu; lia. }
  destruct (Z.ltb_spec b (sb_size sb)) as [Hlt|Hge]; last first.
  { wp_steps. eapply HQ; [apply quiet_emit|reflexivity|exact T|].
    left. split_and!; [done|done|]. intros x Hx. apply Hu; lia. }
  pose proof (BBLOCK_range sb start G b ltac:(lia)) as Hbb. apply wp_bind.
  eapply kbread_wp; [apply T|done|by apply (fo_bitmap _ F)|by eapply slack_spare|].
  intros bp k1 K1 Hn T1. apply wp_bind. eapply kdata_wp; [exact T1|apply lookup_insert_eq|].
  cbn [td_view td_lock]. pose proof (find_bit_spec (td_view d (BBLOCK b sb)) b (sb_size sb) 0 (Z.to_nat BPB)) as Hfb.
  destruct (find_bit _ _ _ _ _) as [bi|].
  - destruct Hfb as (Hbi & Hsz & Hfree). rewrite Z2Nat.id, Z.add_0_l in Hbi by done.
    eapply balloc_found; [exact T|done|done|done|done|done|done|done|done|done|done|done|].
    intros t' k' Q1 K2 T2 A. by eapply HQ.
  - apply wp_bind. eapply kbrelse_clean_wp; [apply T|by apply (fo_bitmap _ F)|done|done|exact T1|done|].
    intros t1 k2 Q1 K2 T2. assert (K12 : only_log k k2) by by etrans.
    eapply IH; [by eapply fstx_only_log|by eapply ready_quiet|done|done|rewrite BPB_pos; lia| |lia| |].
    + rewrite BPB_pos in *. divlia.
    + intros x Hx Hlx. destruct (decide (x < b)); [by apply Hu|]. unfold used.
      assert (Ex : BBLOCK x sb = BBLOCK b sb).
      { rewrite !(BBLOCK_eq sb start G) by lia. rewrite BPB_pos in *. f_equal. divlia. }
      rewrite Ex. apply Hfb; rewrite BPB_pos in *; divlia.
    + intros r t' k' d' Q2 K3 T3 A. eapply HQ; [by etrans|by etrans|done|done].
Qed.

Lemma balloc_wp t k d (Q : Z -> tctx -> K -> Prop) :
  fstx k d -> ready t -> free_ok d -> slack sb 1 d ->
  (forall r t' k' d', quiet t t' -> only_log k k' -> fstx k' d' -> alloc_result d r d' -> Q r t' k') ->
  wp (balloc dev) Q t k.
Proof using Hdev G.
  intros T Hr F Hs HQ. unfold balloc. apply wp_bind, wp_get. pose proof T as (_ & -> & _).
  eapply balloc_loop_wp; [done|done|done|done|done|done| |intros; lia|done].
  pose proof (ge_data _ _ G). pose proof (size_pos sb start G). rewrite BPB_pos. divlia.
Qed.

Lemma bfree_wp t k d b (Q : unit -> tctx -> K -> Prop) :
  fstx k d -> ready t -> 0 <= b < sb_size sb -> used sb (td_view d) b = true ->
  td_unlocked d (BBLOCK b sb) -> spare 1 d ->
  (forall t' k', quiet t t' -> only_log k k' -> fstx k' (td_free b d) -> Q tt t' k') ->
  wp (bfree dev b) Q t k.
Proof using Hdev G.
  intros T Hr Hb Hu Hl Hs HQ. unfold bfree. apply wp_bind, wp_get. pose proof T as (_ & -> & _).
  pose proof (BBLOCK_range sb start G b Hb). pose proof (size_pos sb start G). pose proof (ge_data _ _ G).
  apply wp_bind. eapply kbread_wp; [apply T|done|done|done|]. intros bp k1 K1 Hn T1.
  apply wp_bind. eapply kdata_wp; [exact T1|apply lookup_insert_eq|]. cbn [td_view td_lock]. cbv zeta.
  change (bit_used _ _) with (used sb (td_view d) b). rewrite Hu. cbn [negb].
  eapply kput_wp; [exact T1|done|apply lookup_insert_eq| |by apply spare_lock|by eapply map_loggable|].
  { rewrite length_clear_bit. by eapply ktx_length, T. }
  intros t' k2 Q2 K2 T2. rewrite td_lock_put in T2 by done. apply HQ; [done|by etrans|].
  eapply fstx_only_log; [exact T|by etrans|done].
Qed.

Lemma used_td_alloc k d b b' : fstx k d -> data_start sb <= b < sb_size sb -> 0 <= b' < sb_size sb ->
  used sb (td_view (td_alloc b d)) b' = if decide (b = b') then true else used sb (td_view d) b'.
Proof using G. intros T Hb Hb'. apply (used_allocated sb start G); [eapply ktx_length, T|done|done]. Qed.

Lemma used_td_free k d b b' : fstx k d -> 0 <= b < sb_size sb -> 0 <= b' < sb_size sb ->
  used sb (td_view (td_free b d)) b' = if decide (b = b') then false else used sb (td_view d) b'.
Proof using G. intros T Hb Hb'. apply (used_released sb start G); [eapply ktx_length, T|done|done]. Qed.

Lemma slack_alloc n d b : data_start sb <= b < sb_size sb -> slack sb (S n) d -> slack sb n (td_alloc b d).
Proof using G.
  intros Hb Hs. apply slack_put, slack_put_map; [|done]. apply (BBLOCK_range sb start G).
  pose proof (size_pos sb start G). lia.
Qed.

Lemma free_ok_alloc k d b : fstx k d -> free_ok d -> data_start sb <= b < sb_size sb -> free_ok (td_alloc b d).
Proof using G.
  intros T [Hm Hb Hf] Hr. pose proof (ge_data _ _ G). split; [|done|].
  - intros x Hx. rewrite (used_td_alloc k) by (done || lia). case_decide; [done|]. by apply Hm.
  - intros x Hx. rewrite (used_td_alloc k) by done. case_decide; [done|]. by apply Hf.
Qed.
End free_map.
End blocks.
