(* ===== verification/FsFile.v ===== *)
(** * FsFile: the blocks of a file

    The block map of an inode, through its direct addresses and its indirect
    block, as [bmap] keeps it: no block belongs to the file twice, every block
    of the file is a data block in use, and growing the file takes free blocks
    and leaves the blocks of everything else alone. *)

From coqutil Require Import Word.LittleEndianList.
From S2P Require Import Prelude Riscv Kalloc Sleeplock Layout Bio BioSpec Log LogSpec LogAtomic Tx Kernel Fs FsBlock.

(** ** The block map *)

(** The address of block [bn] of the file, 0 when it has none. *)
Definition addr_of (v : Z -> block) (i : inode) (bn : Z) : Z :=
  if bn <? NDIRECT then i_addrs i bn
  else if i_addrs i NDIRECT =? 0 then 0 else rd32 (v (i_addrs i NDIRECT)) (4 * (bn - NDIRECT)).

Definition in_file (bn : Z) : Prop := 0 <= bn < MAXFILE.

(** Block [b] holds data of the file or its indirect block. *)
Definition belongs (v : Z -> block) (i : inode) (b : Z) : Prop :=
  b <> 0 /\ (b = i_addrs i NDIRECT \/ exists bn, in_file bn /\ addr_of v i bn = b).

Section file.
Context (sb : superblock) (start : Z).
Hypothesis G : geometry sb start.
Implicit Types (v : Z -> block) (i : inode).

Definition data_block (v : Z -> block) (b : Z) : Prop :=
  data_start sb <= b < sb_size sb /\ used sb v b = true.

Record file_ok (v : Z -> block) (i : inode) : Prop := {
  fi_data : forall b, belongs v i b -> data_block v b;
  fi_inj : forall bn bn', in_file bn -> in_file bn' -> addr_of v i bn <> 0 ->
    addr_of v i bn = addr_of v i bn' -> bn = bn';
  fi_indirect : forall bn, in_file bn -> addr_of v i bn <> 0 -> addr_of v i bn <> i_addrs i NDIRECT
}.

(** What is known of the file system after an operation on one inode. *)
Record evolves (v : Z -> block) (i : inode) (v' : Z -> block) (i' : inode) : Prop := {
  ev_used : forall b, 0 <= b < sb_size sb -> used sb v b = true -> used sb v' b = true;
  ev_addr : forall bn, in_file bn -> addr_of v i bn <> 0 -> addr_of v' i' bn = addr_of v i bn;
  ev_indirect : i_addrs i NDIRECT <> 0 -> i_addrs i' NDIRECT = i_addrs i NDIRECT;
  ev_fresh : forall b, 0 <= b < sb_size sb -> belongs v' i' b -> ~ belongs v i b -> used sb v b = false;
  ev_no_leak : forall b, 0 <= b < sb_size sb -> used sb v b = false -> used sb v' b = true -> belongs v' i' b;
  ev_keep : forall b, 0 <= b < sb_size sb -> used sb v b = true -> ~ sb_bmapstart sb <= b < data_start sb ->
    ~ belongs v i b -> v' b = v b
}.

Lemma belongs_evolves v i v' i' b : evolves v i v' i' -> belongs v i b -> belongs v' i' b.
Proof using.
  intros E [Hb [-> |(bn & Hbn & <-)]]; split; try done.
  - left. by rewrite (ev_indirect _ _ _ _ E).
  - right. exists bn. split; [done|]. by rewrite (ev_addr _ _ _ _ E).
Qed.

Lemma evolves_refl v i : evolves v i v i.
Proof using. split; try done. intros b _ E1 E2. congruence. Qed.

Lemma evolves_trans v1 i1 v2 i2 v3 i3 : evolves v1 i1 v2 i2 -> evolves v2 i2 v3 i3 -> evolves v1 i1 v3 i3.
Proof using.
  intros E1 E2. split.
  - intros b Hb Hu. by apply (ev_used _ _ _ _ E2), (ev_used _ _ _ _ E1).
  - intros bn Hbn Ha. pose proof (ev_addr _ _ _ _ E1 bn Hbn Ha) as Ea. rewrite <-Ea in Ha |- *.
    by apply (ev_addr _ _ _ _ E2).
  - intros Ha. pose proof (ev_indirect _ _ _ _ E1 Ha) as Ea. rewrite <-Ea in Ha |- *.
    by apply (ev_indirect _ _ _ _ E2).
  - intros b Hb H3 H1. destruct (used sb v1 b) eqn:Eu; [exfalso|done].
    assert (H2 : ~ belongs v2 i2 b) by (intros H2; pose proof (ev_fresh _ _ _ _ E1 b Hb H2 H1); congruence).
    pose proof (ev_fresh _ _ _ _ E2 b Hb H3 H2). pose proof (ev_used _ _ _ _ E1 b Hb Eu). congruence.
  - intros b Hb H1 H3. destruct (used sb v2 b) eqn:Eu.
    + eapply belongs_evolves; [exact E2|]. by apply (ev_no_leak _ _ _ _ E1).
    + by apply (ev_no_leak _ _ _ _ E2).
  - intros b Hb Hu Hm H1. rewrite <-(ev_keep _ _ _ _ E1 b Hb Hu Hm H1).
    apply (ev_keep _ _ _ _ E2); [done|by apply (ev_used _ _ _ _ E1)|done|].
    intros H2. pose proof (ev_fresh _ _ _ _ E1 b Hb H2 H1). congruence.
Qed.

(** ** Growing the block map by a free block [r] *)

Section grow.
Context (v : Z -> block) (i : inode) (r : Z).
Hypothesis F : file_ok v i.
Hypothesis Hr : data_start sb <= r < sb_size sb.
Hypothesis Hfree : used sb v r = false.

Lemma fresh_not_belongs : ~ belongs v i r.
Proof using F Hfree. intros [_ Hu]%(fi_data _ _ F). congruence. Qed.

Lemma fresh_not_addr bn : in_file bn -> addr_of v i bn <> r.
Proof using F G Hr Hfree.
  intros Hbn E. apply fresh_not_belongs. split; [pose proof (size_pos sb start G); lia|]. right. by exists bn.
Qed.

Lemma fresh_not_indirect : i_addrs i NDIRECT <> r.
Proof using F G Hr Hfree.
  intros E. apply fresh_not_belongs. split; [pose proof (size_pos sb start G); lia|]. by left.
Qed.

Context (v' : Z -> block) (i' : inode).
Hypothesis Hused : forall b, 0 <= b < sb_size sb -> used sb v' b = if decide (r = b) then true else used sb v b.
Hypothesis Hkeep : forall b, 0 <= b < sb_size sb -> b <> r -> ~ sb_bmapstart sb <= b < data_start sb ->
  ~ belongs v i b -> v' b = v b.

Lemma data_block_grow b : data_block v b -> data_block v' b.
Proof using G Hused.
  intros [Hb Hu]. pose proof (size_pos sb start G). split; [done|]. rewrite Hused by lia. by case_decide.
Qed.

Lemma data_block_new : data_block v' r.
Proof using G Hr Hused. pose proof (size_pos sb start G). split; [done|]. rewrite Hused by lia. by case_decide. Qed.

(** [r] becomes the block [bn] of the file. *)
Section entry.
Context (bn : Z).
Hypothesis Hbn : in_file bn.
Hypothesis Hnone : addr_of v i bn = 0.
Hypothesis Haddr : forall x, in_file x -> addr_of v' i' x = if decide (bn = x) then r else addr_of v i x.
Hypothesis Hind : i_addrs i' NDIRECT = i_addrs i NDIRECT.

Lemma belongs_entry b : belongs v' i' b <-> b = r \/ belongs v i b.
Proof using G Hr Hbn Hnone Haddr Hind.
  pose proof (size_pos sb start G). split.
  - intros [Hb [-> |(x & Hx & <-)]]; [right; split; [done|left; done]|]. revert Hb. rewrite Haddr by done.
    case_decide as E; [by left|]. right. split; [done|]. right. by exists x.
  - intros [-> |[Hb [-> |(x & Hx & <-)]]].
    + split; [lia|]. right. exists bn. split; [done|]. rewrite Haddr by done. by case_decide.
    + split; [done|]. by left.
    + split; [done|]. right. exists x. split; [done|]. rewrite Haddr by done. case_decide; [by subst|done].
Qed.

Lemma file_ok_entry : file_ok v' i'.
Proof using F G Hr Hfree Hused Hbn Hnone Haddr Hind.
  split.
  - intros b [-> |Hb]%belongs_entry; [apply data_block_new|]. by apply data_block_grow, F.
  - intros x y Hx Hy. rewrite !Haddr by done. repeat case_decide; subst; try done.
    + intros _ E. by destruct (fresh_not_addr y Hy).
    + intros _ E. by destruct (fresh_not_addr x Hx).
    + by apply (fi_inj _ _ F).
  - intros x Hx. rewrite Haddr, Hind by done. case_decide; [|by apply F]. intros _ E. by apply fresh_not_indirect.
Qed.

Lemma evolves_entry : evolves v i v' i'.
Proof using F G Hr Hfree Hused Hkeep Hbn Hnone Haddr Hind.
  split.
  - intros b Hb Hu. rewrite Hused by done. by case_decide.
  - intros x Hx Ha. rewrite Haddr by done. case_decide; [by subst|done].
  - done.
  - intros b _ [-> |Hb]%belongs_entry ?; done.
  - intros b Hb Hu Hu'. apply belongs_entry. rewrite Hused in Hu' by done. case_decide; [by left|congruence].
  - intros b Hb Hu Hm Hn. apply Hkeep; [done|congruence|done|done].
Qed.
End entry.

(** [r] becomes the indirect block. *)
Section indirect.
Hypothesis Hnone : i_addrs i NDIRECT = 0.
Hypothesis Haddr : forall x, in_file x -> addr_of v' i' x = addr_of v i x.
Hypothesis Hind : i_addrs i' NDIRECT = r.

Lemma belongs_indirect b : belongs v' i' b <-> b = r \/ belongs v i b.
Proof using G Hr Hnone Haddr Hind.
  pose proof (size_pos sb start G). split.
  - intros [Hb [-> |(x & Hx & <-)]]; [by left|]. rewrite Haddr in * by done. right. split; [done|]. right. by exists x.
  - intros [-> |[Hb [-> |(x & Hx & <-)]]]; [split; [lia|by left]|done|].
    split; [done|]. right. exists x. by rewrite Haddr.
Qed.

Lemma file_ok_indirect : file_ok v' i'.
Proof using F G Hr Hfree Hused Hnone Haddr Hind.
  split.
  - intros b [-> |Hb]%belongs_indirect; [apply data_block_new|]. by apply data_block_grow, F.
  - intros x y Hx Hy. rewrite !Haddr by done. by apply (fi_inj _ _ F).
  - intros x Hx. rewrite Haddr, Hind by done. intros _. by apply fresh_not_addr.
Qed.

Lemma evolves_indirect : evolves v i v' i'.
Proof using F G Hr Hfree Hused Hkeep Hnone Haddr Hind.
  split.
  - intros b Hb Hu. rewrite Hused by done. by case_decide.
  - intros x Hx Ha. by rewrite Haddr.
  - done.
  - intros b _ [-> |Hb]%belongs_indirect ?; done.
  - intros b Hb Hu Hu'. apply belongs_indirect. rewrite Hused in Hu' by done. case_decide; [by left|congruence].
  - intros b Hb Hu Hm Hn. apply Hkeep; [done|congruence|done|done].
Qed.
End indirect.
End grow.
End file.

(** ** bmap *)

Lemma le_combine_zeros n : le_combine (replicate n (chr 0)) = 0.
Proof.
  induction n as [|n IH]; [done|].
  change (Z.lor (cv (chr 0)) (Z.shiftl (le_combine (replicate n (chr 0))) 8) = 0). by rewrite IH.
Qed.

Lemma rdn_zero_block n off : rdn n zero_block off = 0.
Proof.
  rewrite rdn_slice. unfold slice, zero_block. rewrite drop_replicate, take_replicate. apply le_combine_zeros.
Qed.

(** The fields of an inode that the block map and the size are not part of. *)
Definition inode_shape (i : inode) : inode := set_i_size 0 (set_i_addrs (fun _ => 0) i).

(** The blocks that keeping the indirect block costs: one, unless it is in
    the log already. *)
Definition indirect_cost (i : inode) (l : list Z) : nat :=
  if decide (i_addrs i NDIRECT <> 0 /\ i_addrs i NDIRECT ∈ l) then 0%nat else 1%nat.

Lemma indirect_cost_le i l l' : l ⊆ l' -> (indirect_cost i l' <= indirect_cost i l)%nat.
Proof. intros Hl. unfold indirect_cost. repeat case_decide; set_solver by lia. Qed.

Section bmap.
Context `{KernelLayout} {C : Type} `{BlockCache C} (dev pid : Z).
Hypothesis Hdev : dev <> 0.
Context (sb : superblock) (start : Z).
Hypothesis G : geometry sb start.
Local Abbreviation K := (kernel C).
Implicit Types (t : tctx) (k : K) (d : tdisk).

(** Nothing but the log, the memory and the inode [ip] has changed. *)
Record file_frame (ip : Z) (k k' : K) : Prop := {
  ff_log : same_tx (ks_log k) (ks_log k');
  ff_sb : ks_sb k' = ks_sb k;
  ff_inode : forall j, j <> ip -> ks_inode k' j = ks_inode k j;
  ff_tables : ks_file k' = ks_file k /\ ks_pipe k' = ks_pipe k /\ ks_proc k' = ks_proc k;
  ff_scalars : ks_nextpid k' = ks_nextpid k /\ ks_initproc k' = ks_initproc k /\ ks_ticks k' = ks_ticks k;
  ff_devices : ks_cons k' = ks_cons k /\ ks_uart k' = ks_uart k
}.

#[global] Instance file_frame_preorder ip : PreOrder (file_frame ip).
Proof using.
  split; [by intros k|]. intros k1 k2 k3 [L1 S1 I1 (?&?&?) (?&?&?) [? ?]] [L2 S2 I2 (?&?&?) (?&?&?) [? ?]].
  split; [by etrans|congruence| |split_and!; congruence..].
  intros j Hj. rewrite I2, I1 by done. done.
Qed.

Lemma only_log_frame ip k k' : only_log k k' -> file_frame ip k k'.
Proof using. intros (s' & -> & Es). by split. Qed.

Lemma upd_inode_frame ip f k : file_frame ip k (upd_inode ip f k).
Proof using. split; try done. intros j Hj. simpl. by rewrite upd_other. Qed.

(** Inside a transaction of a file system whose blocks before the data are
    in use, with no buffer locked. *)
Definition fsx (k : K) (d : tdisk) : Prop :=
  fstx dev pid sb start k d /\ td_locked d = ∅ /\ forall b, 0 <= b < data_start sb -> used sb (td_view d) b = true.

Lemma fsx_unlocked k d b : fsx k d -> td_unlocked d b.
Proof using. intros (_ & El & _) x. by rewrite El, lookup_empty. Qed.

Lemma fsx_free_ok k d : fsx k d -> free_ok sb d.
Proof using. intros T. split; [by destruct T as (_ & _ & ?)|intros; by eapply fsx_unlocked..]. Qed.

Lemma fsx_upd k d ip f : fsx k d -> fsx (upd_inode ip f k) d.
Proof using. intros ((T & Es & El) & Hl & Hm). by split_and!. Qed.

(** The block map of inode [ip] has kept its blocks and perhaps got more. *)
Record grew (k : K) (d : tdisk) (ip : Z) (k' : K) (d' : tdisk) : Prop := {
  gw_frame : file_frame ip k k';
  gw_mem : ks_mem k' = ks_mem k;
  gw_fs : fsx k' d';
  gw_shape : inode_shape (ks_inode k' ip) = inode_shape (ks_inode k ip);
  gw_size : i_size (ks_inode k' ip) = i_size (ks_inode k ip);
  gw_ok : file_ok sb (td_view d') (ks_inode k' ip);
  gw_evolves : evolves sb (td_view d) (ks_inode k ip) (td_view d') (ks_inode k' ip);
  gw_data : forall x, in_file x -> addr_of (td_view d) (ks_inode k ip) x <> 0 ->
    td_view d' (addr_of (td_view d) (ks_inode k ip) x) = td_view d (addr_of (td_view d) (ks_inode k ip) x)
}.

Lemma grew_trans k1 d1 ip k2 d2 k3 d3 : grew k1 d1 ip k2 d2 -> grew k2 d2 ip k3 d3 -> grew k1 d1 ip k3 d3.
Proof using.
  intros G1 G2. split; [etrans; [apply G1|apply G2]|..].
  - rewrite (gw_mem _ _ _ _ _ G2). apply G1.
  - apply G2.
  - rewrite (gw_shape _ _ _ _ _ G2). apply G1.
  - rewrite (gw_size _ _ _ _ _ G2). apply G1.
  - apply G2.
  - eapply evolves_trans; [apply G1|apply G2].
  - intros x Hx Ha. rewrite <-(gw_data _ _ _ _ _ G1) by done.
    pose proof (ev_addr _ _ _ _ _ (gw_evolves _ _ _ _ _ G1) x Hx Ha) as E. rewrite <-E in Ha |- *.
    by apply (gw_data _ _ _ _ _ G2).
Qed.

(** What [bmap] has done when it returns [r] for block [bn] of inode [ip]. *)
Record mapped (k : K) (d : tdisk) (ip bn r : Z) (k' : K) (d' : tdisk) : Prop := {
  bm_grew : grew k d ip k' d';
  bm_addr : r = addr_of (td_view d') (ks_inode k' ip) bn;
  bm_other : forall x, in_file x -> x <> bn ->
    addr_of (td_view d') (ks_inode k' ip) x = addr_of (td_view d) (ks_inode k ip) x;
  bm_full : r = 0 -> forall b, 0 <= b < sb_size sb -> used sb (td_view d') b = true
}.

Lemma view_alloc d r b : b <> r -> b <> BBLOCK r sb -> td_view (td_alloc sb r d) b = td_view d b.
Proof using. intros H1 H2. cbn [td_alloc td_put td_log td_set td_view]. by rewrite !upd_other by done. Qed.

Lemma view_alloc_new d r : td_view (td_alloc sb r d) r = zero_block.
Proof using. cbn [td_alloc td_put td_log td_set td_view]. apply upd_same. Qed.

Lemma view_alloc_data d r b : data_start sb <= r < sb_size sb -> data_start sb <= b -> b <> r ->
  td_view (td_alloc sb r d) b = td_view d b.
Proof using G.
  intros Hr Hb Hn. apply view_alloc; [done|]. pose proof (size_pos sb start G).
  pose proof (BBLOCK_range sb start G r ltac:(lia)). lia.
Qed.

Lemma fsx_alloc k k' d r : fsx k d -> fstx dev pid sb start k' (td_alloc sb r d) ->
  data_start sb <= r < sb_size sb -> fsx k' (td_alloc sb r d).
Proof using G.
  intros T T' Hr. pose proof (fsx_free_ok _ _ T) as F. destruct T as (T & Hl & _). split_and!; [done|done|].
  apply (free_ok_alloc dev pid sb start G k d r T F Hr).
Qed.

Lemma grew_only_log k k' d ip : fsx k d -> file_ok sb (td_view d) (ks_inode k ip) ->
  only_log k k' -> fsx k' d -> grew k d ip k' d.
Proof using.
  intros T F K1 T'. pose proof (only_log_frame ip _ _ K1) as Fr. destruct K1 as (s' & -> & _).
  split; try done. apply evolves_refl.
Qed.

Section allocate.
Context (k k' : K) (d : tdisk) (ip r : Z).
Hypothesis T : fsx k d.
Hypothesis F : file_ok sb (td_view d) (ks_inode k ip).
Hypothesis K1 : only_log k k'.
Hypothesis Hr : data_start sb <= r < sb_size sb.
Hypothesis Hfree : used sb (td_view d) r = false.

Lemma alloc_used b : 0 <= b < sb_size sb ->
  used sb (td_view (td_alloc sb r d)) b = if decide (r = b) then true else used sb (td_view d) b.
Proof using G T Hr. intros Hb. apply (used_td_alloc dev pid sb start G k); [apply T|done|done]. Qed.

Lemma alloc_keep b : 0 <= b < sb_size sb -> b <> r -> ~ sb_bmapstart sb <= b < data_start sb ->
  td_view (td_alloc sb r d) b = td_view d b.
Proof using G Hr.
  intros Hb Hn Hm. apply view_alloc; [done|]. pose proof (size_pos sb start G).
  pose proof (BBLOCK_range sb start G r ltac:(lia)). intros ->. by apply Hm.
Qed.

Lemma alloc_belongs b : belongs (td_view d) (ks_inode k ip) b -> td_view (td_alloc sb r d) b = td_view d b.
Proof using G F Hr Hfree.
  intros Hb. destruct (fi_data _ _ _ F b Hb) as [Hd Hu]. apply view_alloc_data; [done|lia|congruence].
Qed.

Lemma alloc_data x : in_file x -> addr_of (td_view d) (ks_inode k ip) x <> 0 ->
  td_view (td_alloc sb r d) (addr_of (td_view d) (ks_inode k ip) x) =
  td_view d (addr_of (td_view d) (ks_inode k ip) x).
Proof using G F Hr Hfree. intros Hx Ha. apply alloc_belongs. split; [done|]. right. by exists x. Qed.

Lemma alloc_indirect : i_addrs (ks_inode k ip) NDIRECT <> 0 ->
  td_view (td_alloc sb r d) (i_addrs (ks_inode k ip) NDIRECT) = td_view d (i_addrs (ks_inode k ip) NDIRECT).
Proof using G F Hr Hfree. intros Ha. apply alloc_belongs. split; [done|]. by left. Qed.

Lemma same_inodes : ks_inode k' = ks_inode k.
Proof using K1. by destruct K1 as (s' & -> & _). Qed.

(** A direct block. *)
Lemma mapped_direct bn : 0 <= bn < NDIRECT -> i_addrs (ks_inode k ip) bn = 0 -> fsx k' (td_alloc sb r d) ->
  mapped k d ip bn r (upd_inode ip (set_addr bn r) k') (td_alloc sb r d).
Proof using G T F K1 Hr Hfree.
  intros Hbn Hn T'. set (k2 := upd_inode ip (set_addr bn r) k').
  assert (Hin : in_file bn) by (unfold in_file, MAXFILE; assert (0 < NINDIRECT) by done; lia).
  assert (Ei : ks_inode k2 ip = set_addr bn r (ks_inode k ip)) by (simpl; by rewrite upd_same, same_inodes).
  assert (Hind : i_addrs (ks_inode k2 ip) NDIRECT = i_addrs (ks_inode k ip) NDIRECT).
  { rewrite Ei. cbn [set_addr set_i_addrs i_addrs]. rewrite upd_other; [done|lia]. }
  assert (Haddr : forall x, in_file x -> addr_of (td_view (td_alloc sb r d)) (ks_inode k2 ip) x =
    if decide (bn = x) then r else addr_of (td_view d) (ks_inode k ip) x).
  { intros x Hx. unfold addr_of. rewrite Hind. destruct (Z.ltb_spec x NDIRECT).
    - rewrite Ei. cbn [set_addr set_i_addrs i_addrs]. apply upd_eq.
    - rewrite decide_False by lia. destruct (Z.eqb_spec (i_addrs (ks_inode k ip) NDIRECT) 0); [done|].
      by rewrite alloc_indirect. }
  assert (Hnone : addr_of (td_view d) (ks_inode k ip) bn = 0).
  { unfold addr_of. by rewrite (proj2 (Z.ltb_lt _ _)) by lia. }
  split; [split| | |].
  - etrans; [by apply only_log_frame|apply upd_inode_frame].
  - simpl. by destruct K1 as (s' & -> & _).
  - by apply fsx_upd.
  - by rewrite Ei.
  - by rewrite Ei.
  - by eapply (file_ok_entry sb start G); eauto using alloc_used.
  - eapply (evolves_entry sb start G); eauto using alloc_used. intros; by apply alloc_keep.
  - apply alloc_data.
  - rewrite Haddr by done. by rewrite decide_True.
  - intros x Hx Hne. rewrite Haddr by done. by rewrite decide_False.
  - intros E. pose proof (size_pos sb start G). lia.
Qed.

(** The indirect block. *)
Lemma grew_indirect : i_addrs (ks_inode k ip) NDIRECT = 0 -> fsx k' (td_alloc sb r d) ->
  let k2 := upd_inode ip (set_addr NDIRECT r) k' in
  grew k d ip k2 (td_alloc sb r d) /\
  forall x, in_file x -> addr_of (td_view (td_alloc sb r d)) (ks_inode k2 ip) x = addr_of (td_view d) (ks_inode k ip) x.
Proof using G T F K1 Hr Hfree.
  intros Hn T' k2. assert (Ei : ks_inode k2 ip = set_addr NDIRECT r (ks_inode k ip)) by (simpl; by rewrite upd_same, same_inodes).
  assert (Hind : i_addrs (ks_inode k2 ip) NDIRECT = r).
  { rewrite Ei. apply upd_same. }
  assert (Haddr : forall x, in_file x -> addr_of (td_view (td_alloc sb r d)) (ks_inode k2 ip) x =
    addr_of (td_view d) (ks_inode k ip) x).
  { intros x Hx. unfold addr_of. rewrite Hind, Hn. destruct (Z.ltb_spec x NDIRECT).
    - rewrite Ei. cbn [set_addr set_i_addrs i_addrs]. apply upd_other. lia.
    - rewrite view_alloc_new, rdn_zero_block. simpl. by destruct (r =? 0). }
  split; [split|done].
  - etrans; [by apply only_log_frame|apply upd_inode_frame].
  - simpl. by destruct K1 as (s' & -> & _).
  - by apply fsx_upd.
  - by rewrite Ei.
  - by rewrite Ei.
  - by eapply (file_ok_indirect sb start G); eauto using alloc_used.
  - eapply (evolves_indirect sb start G); eauto using alloc_used. intros; by apply alloc_keep.
  - apply alloc_data.
Qed.

(** A block behind the indirect block. *)
Definition with_entry (ind bn : Z) : tdisk :=
  td_put ind (wr32 (td_view d ind) (4 * (bn - NDIRECT)) r) (td_alloc sb r d).

Lemma mapped_entry bn : let ind := i_addrs (ks_inode k ip) NDIRECT in
  ind <> 0 -> NDIRECT <= bn < MAXFILE -> addr_of (td_view d) (ks_inode k ip) bn = 0 ->
  fsx k' (with_entry ind bn) -> mapped k d ip bn r k' (with_entry ind bn).
Proof using G T F K1 Hr Hfree.
  intros ind Hind Hbn Hnone T'. set (d' := with_entry ind bn). pose proof (ge_data _ _ G) as Hsz.
  assert (Hin : in_file bn) by (unfold in_file; assert (0 < NDIRECT) by done; lia).
  assert (Hb : belongs (td_view d) (ks_inode k ip) ind) by (split; [done|by left]).
  destruct (fi_data _ _ _ F ind Hb) as [Hd Hu].
  assert (Hlen : length (td_view d ind) = Z.to_nat BSIZE) by (eapply ktx_length, T).
  assert (Ev : forall b, b <> ind -> td_view d' b = td_view (td_alloc sb r d) b).
  { intros b Hne. cbn [d' with_entry td_put td_log td_set td_view]. by rewrite upd_other. }
  assert (Eind : td_view d' ind = wr32 (td_view d ind) (4 * (bn - NDIRECT)) r) by apply upd_same.
  assert (Hoff : forall x, NDIRECT <= x < MAXFILE -> 4 * (x - NDIRECT) + 4 <= Z.of_nat (length (td_view d ind))).
  { intros x Hx. rewrite Hlen. unfold MAXFILE in Hx. change NINDIRECT with 256 in Hx. change (Z.to_nat BSIZE) with 1024%nat. lia. }
  assert (Haddr : forall x, in_file x -> addr_of (td_view d') (ks_inode k' ip) x =
    if decide (bn = x) then r else addr_of (td_view d) (ks_inode k ip) x).
  { intros x Hx. unfold in_file in Hx. rewrite same_inodes. unfold addr_of. fold ind.
    destruct (Z.ltb_spec x NDIRECT); [by rewrite decide_False by lia|].
    rewrite (proj2 (Z.eqb_neq _ _)) by done. rewrite Eind. case_decide as E.
    - subst x. rewrite rdn_wrn by (try apply Hoff; lia). rewrite Z.mod_small; [done|]. pose proof (size_pos sb start G). lia.
    - apply rdn_wrn_other; [lia|by apply Hoff|lia|lia]. }
  assert (Hused : forall b, 0 <= b < sb_size sb -> used sb (td_view d') b =
    if decide (r = b) then true else used sb (td_view d) b).
  { intros b Hb'. rewrite <-alloc_used by done. unfold used. rewrite Ev; [done|].
    pose proof (BBLOCK_range sb start G b Hb'). lia. }
  assert (Hi : i_addrs (ks_inode k' ip) NDIRECT = i_addrs (ks_inode k ip) NDIRECT) by by rewrite same_inodes.
  split; [split| | |].
  - by apply only_log_frame.
  - by destruct K1 as (s' & -> & _).
  - done.
  - by rewrite same_inodes.
  - by rewrite same_inodes.
  - exact (file_ok_entry sb start G _ _ r F Hr Hfree _ _ Hused bn Hin Hnone Haddr Hi).
  - refine (evolves_entry sb start G _ _ r F Hr Hfree _ _ Hused _ bn Hin Hnone Haddr Hi). intros b Hb1 Hb2 Hb3 Hb4. rewrite Ev by (intros ->; by apply Hb4). by apply alloc_keep.
  - intros x Hx Ha. rewrite Ev by by apply (fi_indirect _ _ _ F). by apply alloc_data.
  - rewrite Haddr by done. by rewrite decide_True.
  - intros x Hx Hne. rewrite Haddr by done. by rewrite decide_False.
  - intros E. pose proof (size_pos sb start G). lia.
Qed.
End allocate.

(** The room that is left after [bmap]: as before, or less the block [r],
    which is then in the log. *)
Definition left_over (n : nat) (r : Z) (i : inode) (d : tdisk) : Prop :=
  slack sb (indirect_cost i (td_logged d) + S n) d \/
  (r ∈ td_logged d /\ slack sb (indirect_cost i (td_logged d) + n) d).

Lemma put_logged bn x d : td_logged d ⊆ td_logged (td_put bn x d).
Proof using. intros y Hy. apply elem_of_add_block. by right. Qed.

Lemma put_logs bn x d : bn ∈ td_logged (td_put bn x d).
Proof using. apply elem_of_add_block. by left. Qed.

Lemma alloc_logged r d : td_logged d ⊆ td_logged (td_alloc sb r d).
Proof using. etrans; apply put_logged. Qed.

Lemma left_over_alloc n r i d : data_start sb <= r < sb_size sb ->
  slack sb (indirect_cost i (td_logged d) + S n) d -> left_over n r i (td_alloc sb r d).
Proof using G.
  intros Hr Hs. right. split; [apply put_logs|].
  eapply slack_le; [apply (slack_alloc sb start G (indirect_cost i (td_logged d) + n)); [done|]|].
  - eapply slack_le; [exact Hs|lia].
  - pose proof (indirect_cost_le i _ _ (alloc_logged r d)). lia.
Qed.

Lemma left_over_entry n r i d bn : let ind := i_addrs i NDIRECT in
  ind <> 0 -> data_start sb <= r < sb_size sb ->
  slack sb (indirect_cost i (td_logged d) + S n) d -> left_over n r i (with_entry d r ind bn).
Proof using G.
  intros ind Hind Hr Hs. right. split; [apply put_logged, put_logs|].
  assert (Hc : indirect_cost i (td_logged (with_entry d r ind bn)) = 0%nat).
  { unfold indirect_cost. rewrite decide_True; [done|]. split; [done|apply put_logs]. }
  rewrite Hc. unfold indirect_cost in Hs. case_decide as Hl.
  - apply slack_put_logged; [apply alloc_logged, Hl|]. by apply (slack_alloc sb start G).
  - apply slack_put. apply (slack_alloc sb start G); [done|]. eapply slack_le; [exact Hs|lia].
Qed.

Lemma nz_pos r : r <> 0 -> nz r = true.
Proof using. intros Hr. unfold nz. by rewrite (proj2 (Z.eqb_neq _ _)). Qed.

Lemma fsx_only_log k k' d d' : fsx k d -> only_log k k' -> ktx dev pid k' d' -> td_locked d' = ∅ ->
  (forall b, 0 <= b < data_start sb -> used sb (td_view d') b = true) -> fsx k' d'.
Proof using. intros (T & _ & _) K1 T' Hl Hm. split_and!; [by eapply fstx_only_log|done|done]. Qed.

Lemma fsx_same k k' d : fsx k d -> only_log k k' -> ktx dev pid k' d -> fsx k' d.
Proof using. intros T K1 T'. destruct T as (? & ? & ?) eqn:E. by eapply fsx_only_log. Qed.

Lemma free_ok_lock k d bp ind : fsx k d -> data_start sb <= ind < sb_size sb -> used sb (td_view d) ind = true ->
  free_ok sb (td_lock (<[bp := ind]>) d).
Proof using.
  intros T Hd Hu. destruct T as (_ & El & Hm). split; [done|intros bn Hbn b|intros bn Hbn Hf b];
    cbn [td_locked td_lock]; rewrite El; intros [[_ <-]|[_ Hb]]%lookup_insert_Some.
  - lia.
  - by rewrite lookup_empty in Hb.
  - cbn [td_view td_lock] in Hf. congruence.
  - by rewrite lookup_empty in Hb.
Qed.

Lemma mapped_same k k' d ip bn r n :
  fsx k d -> file_ok sb (td_view d) (ks_inode k ip) -> only_log k k' -> ktx dev pid k' d ->
  r = addr_of (td_view d) (ks_inode k ip) bn ->
  (r = 0 -> forall b, 0 <= b < sb_size sb -> used sb (td_view d) b = true) ->
  slack sb (indirect_cost (ks_inode k ip) (td_logged d) + S n) d ->
  mapped k d ip bn r k' d /\ left_over n r (ks_inode k' ip) d.
Proof using.
  intros T F K1 T1 Ea Hfull Hs. assert (T' : fsx k' d) by by eapply fsx_same.
  pose proof (grew_only_log _ _ _ ip T F K1 T'). destruct K1 as (s' & -> & _). split; [by split|by left].
Qed.

Lemma fsx_entry k k' d r ind bn : fsx k d -> only_log k k' -> ktx dev pid k' (with_entry d r ind bn) ->
  data_start sb <= r < sb_size sb -> data_start sb <= ind < sb_size sb -> fsx k' (with_entry d r ind bn).
Proof using G.
  intros T K1 T1 Hr Hd. eapply fsx_only_log; [done|done|done|apply T|]. intros b Hb.
  pose proof (size_pos sb start G). pose proof (ge_data _ _ G). destruct T as (T & _ & Hm).
  assert (Hb' : 0 <= b < sb_size sb) by lia. pose proof (BBLOCK_range sb start G b Hb').
  unfold used, with_entry. cbn [td_put td_log td_set td_view]. rewrite upd_other by lia.
  change (used sb (td_view (td_alloc sb r d)) b = true). rewrite (used_td_alloc dev pid sb start G k) by done.
  case_decide; [done|]. by apply Hm.
Qed.

(** The address of the new block goes into the indirect block. *)
Lemma put_entry_wp t k d bp ind bn r (Q : unit -> tctx -> K -> Prop) :
  fstx dev pid sb start k (td_lock (<[bp := ind]>) (td_alloc sb r d)) -> ready pid t ->
  data_start sb <= ind < sb_size sb -> NDIRECT <= bn < MAXFILE -> length (td_view d ind) = Z.to_nat BSIZE ->
  spare 0 (td_lock (<[bp := ind]>) (td_alloc sb r d)) ->
  (forall k', only_log k k' -> ktx dev pid k' (td_lock (<[bp := ind]>) (with_entry d r ind bn)) -> Q tt t k') ->
  wp (kset_data bp (wr32 (td_view d ind) (4 * (bn - NDIRECT)) r);; klog_write bp) Q t k.
Proof using Hdev G.
  intros T Hrd Hd Hbn Hlen Hs HQ. apply wp_bind. pose proof (ge_data _ _ G). pose proof (size_pos sb start G).
  eapply (kset_data_wp dev pid Hdev); [apply T|apply lookup_insert_eq| |].
  { rewrite length_wrn; [done|lia|]. rewrite Hlen. unfold MAXFILE in Hbn. change NINDIRECT with 256 in Hbn.
    change (Z.to_nat BSIZE) with 1024%nat. lia. }
  intros k1 K1 T1. eapply (klog_write_wp dev pid Hdev); [exact T1|done|apply lookup_insert_eq|done|by eapply (data_loggable dev pid sb start G)|].
  intros k2 K2 T2. apply HQ; [by etrans|done].
Qed.

Lemma bmap_indirect_wp t k d ip bn n (Q : Z -> tctx -> K -> Prop) :
  let i := ks_inode k ip in
  fsx k d -> ready pid t -> file_ok sb (td_view d) i -> i_addrs i NDIRECT <> 0 -> NDIRECT <= bn < MAXFILE ->
  slack sb (indirect_cost i (td_logged d) + S (S n)) d ->
  (forall r t' k' d', quiet t t' -> mapped k d ip bn r k' d' ->
    left_over (S n) r (ks_inode k' ip) d' -> Q r t' k') ->
  wp (bmap_indirect dev (i_addrs i NDIRECT) (bn - NDIRECT)) Q t k.
Proof using Hdev G.
  intros i T Hrd F Hind Hbn Hs HQ. set (ind := i_addrs i NDIRECT) in *.
  assert (Hb : belongs (td_view d) i ind) by (split; [done|by left]).
  destruct (fi_data _ _ _ F ind Hb) as [Hd Hu].
  unfold bmap_indirect. apply wp_bind.
  eapply (kbread_wp dev pid Hdev); [apply T|done|by eapply fsx_unlocked|eapply slack_spare, slack_le; [exact Hs|lia]|].
  intros bp k1 K1 Hn T1. apply wp_bind. eapply (kdata_wp dev pid); [exact T1|apply lookup_insert_eq|].
  cbn [td_view td_lock]. cbv zeta. apply wp_bind.
  assert (Ea : rd32 (td_view d ind) (4 * (bn - NDIRECT)) = addr_of (td_view d) i bn).
  { unfold addr_of. rewrite (proj2 (Z.ltb_ge _ _)) by lia. fold ind. by rewrite (proj2 (Z.eqb_neq _ _)). }
  rewrite Ea. destruct (Z.eqb_spec (addr_of (td_view d) i bn) 0) as [E0|E0]; last first.
  { apply wp_ret, wp_bind.
    eapply (kbrelse_clean_wp dev pid Hdev); [apply T|by eapply fsx_unlocked|exact Hn|done|exact T1|done|].
    intros t' k2 Q2 K2 T2. apply wp_ret. assert (K12 : only_log k k2) by by etrans.
    destruct (mapped_same k k2 d ip bn _ (S n) T F K12 T2 eq_refl) as [? ?]; [done|done|]. by eapply HQ. }
  apply wp_bind. set (d1 := td_lock (<[bp := ind]>) d) in *.
  assert (T1' : fstx dev pid sb start k1 d1) by (eapply fstx_only_log; [apply T|done|done]).
  eapply (balloc_wp dev pid Hdev sb start G); [exact T1'|done|by eapply free_ok_lock| |].
  { apply slack_lock. eapply slack_le; [exact Hs|lia]. }
  intros r t2 k2 d2 Q2 K2 T2 A. apply wp_bind.
  destruct A as [(-> & -> & Hfull)|(Hr & Hfree & ->)].
  - apply wp_ret, wp_ret, wp_bind.
    eapply (kbrelse_clean_wp dev pid Hdev); [apply T|by eapply fsx_unlocked|exact Hn|reflexivity|apply T2|by eapply ready_quiet|].
    intros t3 k3 Q3 K3 T3. apply wp_ret. assert (K13 : only_log k k3) by by do 2 (etrans; [eassumption|]).
    destruct (mapped_same k k3 d ip bn 0 (S n) T F K13 T3 (eq_sym E0)) as [? ?]; [done|done|].
    eapply HQ; [by etrans|done|done].
  - rewrite nz_pos by (pose proof (size_pos sb start G); lia).
    change (td_alloc sb r d1) with (td_lock (<[bp := ind]>) (td_alloc sb r d)) in T2.
    eapply put_entry_wp; [exact T2|by eapply ready_quiet|done|done|eapply ktx_length, T| |].
    { apply spare_lock. eapply slack_spare. apply (slack_alloc sb start G); [done|]. eapply slack_le; [exact Hs|lia]. }
    intros k3 K3 T3. apply wp_ret, wp_bind.
    eapply (kbrelse_wp dev pid Hdev); [exact T3|by eapply ready_quiet|apply lookup_insert_eq|left; apply put_logs|].
    rewrite td_lock_delete by done. intros t4 k4 Q4 K4 T4. apply wp_ret.
    assert (K14 : only_log k k4) by by do 3 (etrans; [eassumption|]).
    assert (T4' : fsx k4 (with_entry d r ind bn)) by by eapply fsx_entry.
    eapply HQ; [by etrans|by apply mapped_entry|].
    destruct K14 as (s' & -> & _). apply left_over_entry; [done|done|exact Hs].
Qed.

Lemma only_log_inode k k' : only_log k k' -> ks_inode k' = ks_inode k.
Proof using. by intros (s' & -> & _). Qed.

Lemma indirect_cost_addrs i i' l : i_addrs i' NDIRECT = i_addrs i NDIRECT -> indirect_cost i' l = indirect_cost i l.
Proof using. intros E. unfold indirect_cost. by rewrite E. Qed.

(** The indirect block is there; the rest of [bmap] follows. *)
Lemma mapped_after k d ip k2 d2 bn r k' d' :
  grew k d ip k2 d2 ->
  (forall x, in_file x -> addr_of (td_view d2) (ks_inode k2 ip) x = addr_of (td_view d) (ks_inode k ip) x) ->
  mapped k2 d2 ip bn r k' d' -> mapped k d ip bn r k' d'.
Proof using.
  intros G1 Ha [G2 Ea Ho Hf]. split; [by eapply grew_trans|done| |done]. intros x Hx Hne. by rewrite Ho, Ha.
Qed.

Lemma bmap_wp t k d ip bn n (Q : Z -> tctx -> K -> Prop) :
  let i := ks_inode k ip in
  fsx k d -> ready pid t -> file_ok sb (td_view d) i -> i_dev i = dev -> in_file bn ->
  slack sb (indirect_cost i (td_logged d) + S (S n)) d ->
  (forall r t' k' d', quiet t t' -> mapped k d ip bn r k' d' ->
    left_over (S n) r (ks_inode k' ip) d' -> Q r t' k') ->
  wp (bmap ip bn) Q t k.
Proof using Hdev G.
  intros i T Hrd F Hdv Hbn Hs HQ. unfold bmap. apply wp_bind, wp_get. cbv zeta. fold i. rewrite Hdv.
  unfold in_file in Hbn. pose proof (fsx_free_ok _ _ T) as FO.
  assert (Hba : slack sb 1 d) by (eapply slack_le; [exact Hs|lia]).
  destruct (Z.ltb_spec bn NDIRECT) as [Hlt|Hge].
  - assert (Ea : addr_of (td_view d) i bn = i_addrs i bn) by (unfold addr_of; by rewrite (proj2 (Z.ltb_lt _ _))).
    destruct (Z.eqb_spec (i_addrs i bn) 0) as [E0|E0]; last first.
    { apply wp_ret. destruct (mapped_same k k d ip bn (i_addrs i bn) (S n) T F) as [? ?]; try done; [apply T|]. by eapply HQ. }
    apply wp_bind. eapply (balloc_wp dev pid Hdev sb start G); [apply T|done|done|done|].
    intros r t1 k1 d1 Q1 K1 T1 [(-> & -> & Hfull)|(Hr & Hfree & ->)].
    + apply wp_ret. destruct (mapped_same k k1 d ip bn 0 (S n) T F K1) as [? ?]; try done; [apply T1|fold i; congruence|]. by eapply HQ.
    + rewrite (proj2 (Z.eqb_neq _ _)) by (pose proof (size_pos sb start G); lia). wp_steps.
      pose proof (fsx_alloc _ _ _ _ T T1 Hr) as T1'. eapply HQ; [done|apply (mapped_direct k k1 d ip r T F K1 Hr Hfree bn); [lia|exact E0|exact T1']|].
      simpl. rewrite upd_same, (only_log_inode _ _ K1). fold i.
      pose proof (left_over_alloc (S n) r i d Hr Hs) as L. unfold left_over in *.
      erewrite (indirect_cost_addrs i); [exact L|]. cbn [set_addr set_i_addrs i_addrs]. rewrite upd_other; [done|lia].
  - rewrite (proj2 (Z.ltb_lt _ _)) by (unfold MAXFILE in Hbn; lia).
    destruct (Z.eqb_spec (i_addrs i NDIRECT) 0) as [E0|E0]; [|apply (bmap_indirect_wp t k d ip bn n Q T Hrd F E0 ltac:(lia) Hs HQ)].
    assert (Ea : addr_of (td_view d) i bn = 0) by (unfold addr_of; by rewrite (proj2 (Z.ltb_ge _ _)), E0 by lia).
    apply wp_bind. eapply (balloc_wp dev pid Hdev sb start G); [apply T|done|done|done|].
    intros r t1 k1 d1 Q1 K1 T1 [(-> & -> & Hfull)|(Hr & Hfree & ->)].
    + apply wp_ret. destruct (mapped_same k k1 d ip bn 0 (S n) T F K1) as [? ?]; try done; [apply T1|]. by eapply HQ.
    + rewrite (proj2 (Z.eqb_neq _ _)) by (pose proof (size_pos sb start G); lia). apply wp_bind, wp_modify.
      pose proof (fsx_alloc _ _ _ _ T T1 Hr) as T1'. pose proof (size_pos sb start G).
      destruct (grew_indirect k k1 d ip r T F K1 Hr Hfree E0 T1') as [G2 Ha2]. set (k2 := upd_inode _ _ k1) in *.
      assert (Er : i_addrs (ks_inode k2 ip) NDIRECT = r) by (simpl; rewrite upd_same; apply upd_same).
      rewrite <-Er at 1. eapply (bmap_indirect_wp t1 k2 (td_alloc sb r d) ip bn n); [apply G2|by eapply ready_quiet|apply G2|rewrite Er; lia|lia| |].
      * unfold indirect_cost at 1. rewrite Er, decide_True by (split; [lia|apply put_logs]).
        apply (slack_alloc sb start G); [done|]. unfold indirect_cost in Hs. rewrite decide_False in Hs by tauto. done.
      * intros r' t' k' d' Q' M' L'. eapply HQ; [by etrans|by eapply mapped_after|done].
Qed.
End bmap.
