(* ===== verification/FsData.v ===== *)
(** * FsData: the contents of a file

    [readi] and [writei] as operations on the bytes of a file: a file is a
    sequence of bytes, however they are spread over blocks. *)

From S2P Require Import Prelude Riscv Kalloc Sleeplock Layout Bio BioSpec Log LogSpec LogAtomic Tx Kernel Fs FsBlock FsFile.

(** ** Bytes of a file *)

Definition fbyte (v : Z -> block) (i : inode) (p : Z) : byte :=
  nth (Z.to_nat (p mod BSIZE)) (v (addr_of v i (p / BSIZE))) (chr 0).

Definition fbytes (v : Z -> block) (i : inode) (off n : Z) : list byte :=
  (fun j => fbyte v i (off + j)) <$> seqZ 0 n.

(** The file as a sequence of bytes. *)
Definition contents (v : Z -> block) (i : inode) : list byte := fbytes v i 0 (i_size i).

(** [l] written over [c] from [off] on, which is not after its end. *)
Definition write_at (c : list byte) (off : Z) (l : list byte) : list byte :=
  take (Z.to_nat off) c ++ l ++ drop (Z.to_nat off + length l) c.

Section bytes.
Implicit Types (v : Z -> block) (i : inode).

Lemma length_fbytes v i off n : length (fbytes v i off n) = Z.to_nat n.
Proof. unfold fbytes. by rewrite length_fmap, length_seqZ. Qed.

Lemma lookup_fbytes v i off n j : (j < Z.to_nat n)%nat -> fbytes v i off n !! j = Some (fbyte v i (off + Z.of_nat j)).
Proof. intros Hj. unfold fbytes. rewrite list_lookup_fmap, lookup_seqZ_lt by lia. simpl. by rewrite Z.add_0_l. Qed.

Lemma lookup_fbytes_ge v i off n j : (Z.to_nat n <= j)%nat -> fbytes v i off n !! j = None.
Proof. intros Hj. apply lookup_ge_None_2. by rewrite length_fbytes. Qed.

Lemma fbytes_app v i off n m : 0 <= n -> 0 <= m ->
  fbytes v i off (n + m) = fbytes v i off n ++ fbytes v i (off + n) m.
Proof.
  intros Hn Hm. apply list_eq. intros j. rewrite lookup_app. destruct (decide (j < Z.to_nat n)%nat).
  - by rewrite !lookup_fbytes by lia.
  - rewrite (lookup_fbytes_ge _ _ off n), length_fbytes by lia. destruct (decide (j < Z.to_nat (n + m))%nat).
    + rewrite !lookup_fbytes by lia. do 2 f_equal. lia.
    + by rewrite !lookup_fbytes_ge by lia.
Qed.

Lemma fbytes_slice v i off n size : 0 <= off -> 0 <= n -> off + n <= size ->
  slice (fbytes v i 0 size) off n = fbytes v i off n.
Proof.
  intros Ho Hn Hs. unfold slice. apply list_eq. intros j. destruct (decide (j < Z.to_nat n)%nat).
  - rewrite lookup_take_lt, lookup_drop, !lookup_fbytes by lia. do 2 f_equal. lia.
  - rewrite lookup_take_ge by lia. by rewrite lookup_fbytes_ge by lia.
Qed.

(** Bytes that are in one block. *)
Lemma fbytes_block v i off m : 0 <= off -> 0 <= m <= BSIZE - off mod BSIZE ->
  length (v (addr_of v i (off / BSIZE))) = Z.to_nat BSIZE ->
  fbytes v i off m = slice (v (addr_of v i (off / BSIZE))) (off mod BSIZE) m.
Proof.
  intros Ho Hm Hl. pose proof (Z.mod_pos_bound off BSIZE ltac:(done)). apply list_eq. intros j.
  destruct (decide (j < Z.to_nat m)%nat).
  - rewrite lookup_fbytes by lia. unfold slice. rewrite lookup_take_lt, lookup_drop by lia. unfold fbyte.
    assert (Ed : (off + Z.of_nat j) / BSIZE = off / BSIZE) by (unfold BSIZE in *; divlia).
    assert (Em : (off + Z.of_nat j) mod BSIZE = off mod BSIZE + Z.of_nat j) by (unfold BSIZE in *; divlia).
    rewrite Ed, Em, nth_lookup. replace (Z.to_nat (off mod BSIZE + Z.of_nat j)) with (Z.to_nat (off mod BSIZE) + j)%nat by lia.
    destruct (lookup_lt_is_Some_2 (v (addr_of v i (off / BSIZE))) (Z.to_nat (off mod BSIZE) + j)) as [x Hx];
      [lia|]. by rewrite Hx.
  - rewrite lookup_fbytes_ge by lia. symmetry. unfold slice. apply lookup_take_ge. lia.
Qed.

Lemma lookup_write_at c off l j : 0 <= off <= Z.of_nat (length c) ->
  write_at c off l !! j =
  if decide (off <= Z.of_nat j < off + Z.of_nat (length l)) then l !! (j - Z.to_nat off)%nat else c !! j.
Proof.
  intros Ho. unfold write_at. case_decide as Hj.
  - rewrite lookup_app_r by (rewrite length_take; lia). rewrite length_take, Nat.min_l by lia. apply lookup_app_l. lia.
  - destruct (decide (Z.of_nat j < off)).
    + rewrite lookup_app_l by (rewrite length_take; lia). apply lookup_take_lt. lia.
    + rewrite lookup_app_r by (rewrite length_take; lia). rewrite length_take, Nat.min_l by lia.
      rewrite lookup_app_r by lia. rewrite lookup_drop. f_equal. lia.
Qed.
End bytes.

(** ** The loops of readi and writei *)

(** The number of blocks that [n] bytes from [off] on are in. *)
Definition turns (off n : Z) : nat :=
  if decide (n <= 0) then 0%nat else Z.to_nat ((off mod BSIZE + n + BSIZE - 1) / BSIZE).

Lemma turns_step off n : 0 <= off -> 0 < n -> let m := Z.min n (BSIZE - off mod BSIZE) in
  0 < m <= n /\ turns off n = S (turns (off + m) (n - m)).
Proof.
  intros Ho Hn m. pose proof (Z.mod_pos_bound off BSIZE ltac:(done)) as Hb.
  assert (Hm : 0 < m <= n) by lia. split; [done|]. unfold turns. rewrite (decide_False (P := n <= 0)) by lia.
  case_decide as Hd.
  - assert (m = n) by lia. unfold BSIZE in *. assert ((off mod 1024 + n + 1024 - 1) / 1024 = 1) by divlia. lia.
  - assert (Em : (off + m) mod BSIZE = 0) by (unfold BSIZE in *; divlia). rewrite Em. unfold BSIZE in *. divlia.
Qed.

Lemma turns_fuel off n : 0 <= n -> (turns off n < S (S (Z.to_nat (n / BSIZE + 1))))%nat.
Proof.
  intros Hn. unfold turns. pose proof (Z.mod_pos_bound off BSIZE ltac:(done)). case_decide; [lia|].
  unfold BSIZE in *. divlia.
Qed.

(** ** readi *)

(** [dst] takes up to [cap] bytes: [J acc] says that it has taken [acc]. *)
Record sink `{KernelLayout} {C} `{BlockCache C} (dst : place) (cap : Z)
  (J : list byte -> tctx -> kmem -> (Z -> proc) -> Prop) : Prop := {
  si_quiet : forall acc t t' m p, quiet t t' -> J acc t m p -> J acc t' m p;
  si_copy : forall acc l t (k : kernel C), J acc t (ks_mem k) (ks_proc k) ->
    Z.of_nat (length acc) + Z.of_nat (length l) <= cap ->
    wp (either_copyout dst (Z.of_nat (length acc)) l) (fun r t' k' => r = 0 /\ quiet t t' /\
      exists m', k' = set_ks_mem m' k /\ J (acc ++ l) t' m' (ks_proc k)) t k
}.

Section readi.
Context `{KernelLayout} {C : Type} `{BlockCache C} (dev pid : Z).
Hypothesis Hdev : dev <> 0.
Local Abbreviation K := (kernel C).
Implicit Types (t : tctx) (k : K) (d : tdisk).

(** The blocks below the size of the file are there. *)
Definition no_holes (v : Z -> block) (i : inode) : Prop :=
  forall bn, 0 <= bn -> bn * BSIZE < i_size i -> addr_of v i bn <> 0.

Definition size_ok (i : inode) : Prop := 0 <= i_size i <= MAXFILE * BSIZE.

Definition at_rest (k : K) (d : tdisk) : Prop := ktx dev pid k d /\ td_locked d = ∅ /\ spare 1 d.

Lemma at_rest_unlocked k d bn : at_rest k d -> td_unlocked d bn.
Proof using. intros (_ & E & _) b. by rewrite E, lookup_empty. Qed.

(** Looking up a block that the file has changes nothing. *)
Lemma bmap_lookup_wp t k d ip bn (Q : Z -> tctx -> K -> Prop) :
  let a := addr_of (td_view d) (ks_inode k ip) bn in
  at_rest k d -> ready pid t -> i_dev (ks_inode k ip) = dev -> in_file bn -> a <> 0 ->
  (forall t' k', quiet t t' -> only_log k k' -> at_rest k' d -> Q a t' k') -> wp (bmap ip bn) Q t k.
Proof using Hdev.
  intros a T Hr Hdv Hbn Ha HQ. unfold bmap. apply wp_bind, wp_get. cbv zeta. rewrite Hdv.
  unfold in_file in Hbn. subst a. unfold addr_of in *. destruct (Z.ltb_spec bn NDIRECT).
  { rewrite (proj2 (Z.eqb_neq _ _)) by done. by apply wp_ret, HQ. }
  rewrite (proj2 (Z.ltb_lt _ _)) by (unfold MAXFILE in Hbn; lia).
  set (ind := i_addrs (ks_inode k ip) NDIRECT) in *. destruct (Z.eqb_spec ind 0); [done|].
  unfold bmap_indirect. apply wp_bind.
  eapply (kbread_wp dev pid Hdev); [apply T|done|by eapply at_rest_unlocked|apply T|].
  intros bp k1 K1 Hn T1. apply wp_bind. eapply (kdata_wp dev pid); [exact T1|apply lookup_insert_eq|].
  cbn [td_view td_lock]. cbv zeta. rewrite (proj2 (Z.eqb_neq _ _)) by done. apply wp_bind, wp_ret, wp_bind.
  eapply (kbrelse_clean_wp dev pid Hdev); [apply T|by eapply at_rest_unlocked|exact Hn|done|exact T1|done|].
  intros t' k' Q' K' T'. apply wp_ret, HQ; [done|by etrans|]. destruct T as (_ & ? & ?). done.
Qed.

(** Nothing but the log and the memory has changed. *)
Definition only_log_mem (k k' : K) : Prop :=
  exists s' m', k' = set_ks_mem m' (set_ks_log s' k) /\ same_tx (ks_log k) s'.

#[global] Instance only_log_mem_preorder : PreOrder only_log_mem.
Proof using.
  split; [intros k; exists (ks_log k), (ks_mem k); split; [by destruct k|done]|].
  intros k1 k2 k3 (s1 & m1 & -> & E1) (s2 & m2 & -> & E2). exists s2, m2. split; [done|]. by etrans.
Qed.

Lemma only_log_log_mem k k' : only_log k k' -> only_log_mem k k'.
Proof using. intros (s' & -> & E). exists s', (ks_mem k). by destruct k. Qed.

Lemma only_log_fields k k' : only_log k k' ->
  ks_inode k' = ks_inode k /\ ks_mem k' = ks_mem k /\ ks_proc k' = ks_proc k.
Proof using. by intros (s' & -> & _). Qed.

Section read.
Context (dst : place) (cap : Z) (J : list byte -> tctx -> kmem -> (Z -> proc) -> Prop).
Hypothesis HJ : sink (C := C) dst cap J.
Context (ip : Z) (d : tdisk) (i : inode).
Hypothesis Hdv : i_dev i = dev.
Hypothesis Hfull : no_holes (td_view d) i.
Hypothesis Hsize : size_ok i.

(** One block. *)
Lemma readi_turn_wp {A} t k off m acc (fail : M K A) (next : list byte -> M K A) (Q : A -> tctx -> K -> Prop) :
  let a := addr_of (td_view d) i (off / BSIZE) in
  at_rest k d -> ready pid t -> 0 <= off -> 0 < m <= BSIZE - off mod BSIZE -> off + m <= i_size i ->
  J acc t (ks_mem k) (ks_proc k) -> Z.of_nat (length acc) + m <= cap ->
  (forall t' k', quiet t t' -> only_log_mem k k' -> at_rest k' d ->
    J (acc ++ fbytes (td_view d) i off m) t' (ks_mem k') (ks_proc k') -> wp (next (fbytes (td_view d) i off m)) Q t' k') ->
  wp (bp ← kbread dev a; dat ← kdata bp;
      r ← either_copyout dst (Z.of_nat (length acc)) (slice dat (off mod BSIZE) m);
      if r =? -1 then kbrelse bp;; fail else kbrelse bp;; next (slice dat (off mod BSIZE) m)) Q t k.
Proof using Hdev HJ.
  intros a T Hr Ho Hm Hle HA Hcap HQ. subst a. apply wp_bind.
  eapply (kbread_wp dev pid Hdev); [apply T|done|by eapply at_rest_unlocked|apply T|].
  intros bp k1 K1 Hn T1. apply wp_bind. eapply (kdata_wp dev pid); [exact T1|apply lookup_insert_eq|].
  cbn [td_view td_lock]. rewrite <-fbytes_block by (lia || eapply ktx_length, T). apply wp_bind.
  destruct (only_log_fields _ _ K1) as (_ & Em & Ep). rewrite <-Em, <-Ep in HA.
  eapply wp_mono; [eapply (si_copy _ _ _ HJ); [exact HA|rewrite length_fbytes; lia]|]. intros r t2 k2 (-> & Q2 & m' & -> & HA2).
  cbn [Z.eqb]. apply wp_bind. set (k2 := set_ks_mem m' k1). assert (T2 : ktx dev pid k2 (td_lock (<[bp := addr_of (td_view d) i (off / BSIZE)]>) d)) by done.
  eapply (kbrelse_clean_wp dev pid Hdev); [apply T|by eapply at_rest_unlocked|exact Hn|done|exact T2|by eapply ready_quiet|].
  intros t3 k3 Q3 K3 T3. destruct (only_log_fields _ _ K3) as (_ & Em3 & Ep3). apply HQ.
  - by etrans.
  - etrans; [by apply only_log_log_mem|]. etrans; [|by apply only_log_log_mem].
    exists (ks_log k1), m'. by destruct k1.
  - destruct T as (_ & ? & ?). done.
  - rewrite Em3, Ep3. by eapply (si_quiet _ _ _ HJ).
Qed.

Lemma readi_loop_wp fuel t k off n acc (Q : Z * list byte -> tctx -> K -> Prop) :
  let tot := Z.of_nat (length acc) in
  ks_inode k ip = i -> at_rest k d -> ready pid t -> 0 <= off -> tot <= n -> n < 2 ^ 32 -> n <= cap ->
  off + (n - tot) <= i_size i -> J acc t (ks_mem k) (ks_proc k) -> (turns off (n - tot) < fuel)%nat ->
  (forall t' k', quiet t t' -> only_log_mem k k' -> at_rest k' d ->
    let l := acc ++ fbytes (td_view d) i off (n - tot) in
    J l t' (ks_mem k') (ks_proc k') -> Q (n, l) t' k') ->
  wp (readi_loop fuel ip dst off n tot acc) Q t k.
Proof using Hdev HJ Hdv Hfull Hsize.
  revert t k off acc. induction fuel as [|fuel IH]; intros t k off acc tot Ei T Hr Ho Ht Hn Hcap Hle HA Hf HQ; [lia|].
  cbn [readi_loop]. destruct (Z.ltb_spec tot n) as [Hlt|Hge]; last first.
  { assert (tot = n) as En by lia. apply wp_ret. rewrite En. specialize (HQ t k).
    replace (n - tot) with 0 in HQ by lia. rewrite app_nil_r in HQ. by apply HQ. }
  set (m := Z.min (n - tot) (BSIZE - off mod BSIZE)).
  destruct (turns_step off (n - tot) Ho ltac:(lia)) as [Hm Et]. fold m in Hm, Et.
  pose proof Hsize as [_ Hmax]. pose proof (Z.mod_pos_bound off BSIZE ltac:(done)) as Hmb.
  assert (Hbn : 0 <= off / BSIZE /\ off / BSIZE * BSIZE < i_size i) by (change BSIZE with 1024 in *; divlia).
  assert (Ha : addr_of (td_view d) i (off / BSIZE) <> 0) by (apply Hfull; apply Hbn).
  apply wp_bind. eapply (bmap_lookup_wp t k d ip); rewrite ?Ei; [done|done|done| |done|].
  { unfold in_file. change BSIZE with 1024 in *. divlia. }
  intros t1 k1 Q1 K1 T1. destruct (only_log_fields _ _ K1) as (Ei1 & Em1 & Ep1).
  rewrite (proj2 (Z.eqb_neq _ _)) by done. apply wp_bind, wp_get. rewrite Ei1, Ei, Hdv. cbv zeta. fold m.
  eapply (readi_turn_wp t1 k1 off m acc _ (fun l => readi_loop fuel ip dst (u32 (off + m)) n (u32 (tot + m)) (acc ++ l))); [done|by eapply ready_quiet|done|lia|lia| |lia|].
  { rewrite Em1, Ep1. by eapply (si_quiet _ _ _ HJ). }
  intros t2 k2 Q2 K2 T2 HA2. destruct K2 as (s2 & m2 & E2 & Es2).
  assert (El : tot + m = Z.of_nat (length (acc ++ fbytes (td_view d) i off m))).
  { rewrite length_app, length_fbytes. subst tot. lia. }
  assert (Eu : u32 (off + m) = off + m) by (unfold u32; apply Z.mod_small; change (MAXFILE * BSIZE) with 274432 in *; lia).
  assert (Eu' : u32 (tot + m) = tot + m) by (unfold u32; apply Z.mod_small; lia).
  set (l1 := fbytes (td_view d) i off m) in *. assert (En : n - Z.of_nat (length (acc ++ l1)) = n - tot - m) by lia.
  rewrite Eu, Eu', El. eapply IH; rewrite ?En; [by rewrite E2; simpl; rewrite Ei1| | |lia..|done|lia|].
  - done.
  - by do 2 (eapply ready_quiet; [eassumption|]).
  - intros t' k' Q' K' T' l HA'. assert (El' : l = acc ++ fbytes (td_view d) i off (n - tot)).
    { subst l l1. rewrite <-app_assoc. f_equal. rewrite <-fbytes_app by lia. f_equal. lia. }
    rewrite El' in *. apply HQ; [by do 2 (etrans; [eassumption|])| |done|done].
    etrans; [by apply only_log_log_mem|]. etrans; [|exact K']. by exists s2, m2.
Qed.

(** [readi] takes the part of the request that is in the file. *)
Lemma readi_wp t k off n (Q : Z * list byte -> tctx -> K -> Prop) :
  ks_inode k ip = i -> at_rest k d -> ready pid t -> 0 <= off < 2 ^ 32 -> 0 <= n < 2 ^ 32 -> n <= cap ->
  J [] t (ks_mem k) (ks_proc k) ->
  let m := if decide (off <= i_size i /\ off + n < 2 ^ 32) then Z.min n (i_size i - off) else 0 in
  let l := slice (contents (td_view d) i) off m in
  (forall t' k', quiet t t' -> only_log_mem k k' -> at_rest k' d -> J l t' (ks_mem k') (ks_proc k') -> Q (m, l) t' k') ->
  wp (readi ip dst off n) Q t k.
Proof using Hdev HJ Hdv Hfull Hsize.
  intros Ei T Hr Ho Hn Hcap HA m l HQ. pose proof Hsize as [Hz Hmax]. change (MAXFILE * BSIZE) with 274432 in Hmax.
  unfold readi. apply wp_bind, wp_get. rewrite Ei. cbv zeta. destruct (Z.ltb_spec (i_size i) off) as [Hlt|Hge]; cbn [orb].
  { subst l m. rewrite decide_False in HQ by lia. by apply wp_ret, HQ. }
  destruct (Z.ltb_spec (u32 (off + n)) off) as [Hov|Hov].
  { subst l m. rewrite decide_False in HQ; [by apply wp_ret, HQ|]. unfold u32 in Hov. intros [_ ?].
    rewrite Z.mod_small in Hov by lia. lia. }
  assert (Eu : u32 (off + n) = off + n).
  { unfold u32 in *. destruct (decide (off + n < 2 ^ 32)); [by apply Z.mod_small; lia|].
    exfalso. assert ((off + n) mod 2 ^ 32 = off + n - 2 ^ 32) by divlia. lia. }
  rewrite Eu. assert (Em : (if i_size i <? off + n then i_size i - off else n) = m).
  { subst m. unfold u32 in Eu. pose proof (Z.mod_pos_bound (off + n) (2 ^ 32) ltac:(done)). rewrite decide_True by lia.
    destruct (Z.ltb_spec (i_size i) (off + n)); lia. }
  rewrite Em. assert (Hm : 0 <= m <= n /\ off + m <= i_size i).
  { rewrite <-Em. destruct (Z.ltb_spec (i_size i) (off + n)); lia. }
  eapply (readi_loop_wp _ t k off m []); try done; simpl; try lia; rewrite ?Z.sub_0_r; try lia.
  { apply turns_fuel. lia. }
  intros t' k' Q' K' T' HA'. subst l. unfold contents in HQ. rewrite fbytes_slice in HQ by lia. by apply HQ.
Qed.
End read.
End readi.
