(* ===== verification/FsWrite.v ===== *)
(** * FsWrite: writing inodes and the contents of files

    [iupdate] keeps the copy of an inode on disk, and [writei] changes the
    bytes of one file: what is written is read back, every other file and every
    other inode stays as it was, and the blocks it logs are counted. *)

From S2P Require Import Prelude Riscv Kalloc Sleeplock Layout Bio BioSpec Log LogSpec LogAtomic Tx Kernel Fs FsBlock FsFile FsData.

(** ** Inodes on disk *)

(** The bytes outside [lo, hi) are the same. *)
Definition same_outside (lo hi : Z) (l l' : list byte) : Prop :=
  length l' = length l /\
  forall a n, 0 <= a -> 0 <= n -> a + n <= lo \/ hi <= a -> slice l' a n = slice l a n.

Section outside.
Implicit Types l : list byte.

Lemma same_outside_refl lo hi l : same_outside lo hi l l.
Proof. by split. Qed.

Lemma same_outside_trans lo hi l1 l2 l3 :
  same_outside lo hi l1 l2 -> same_outside lo hi l2 l3 -> same_outside lo hi l1 l3.
Proof.
  intros [E1 H1] [E2 H2]. split; [congruence|]. intros a n Ha Hn Hd. rewrite H2 by done. by apply H1.
Qed.

Lemma same_outside_wrn lo hi n l off v : 0 <= off -> lo <= off -> off + Z.of_nat n <= hi -> hi <= Z.of_nat (length l) ->
  same_outside lo hi l (wrn n l off v).
Proof.
  intros Ho Hlo Hhi Hl. split; [apply length_wrn; lia|]. intros a k Ha Hk Hd.
  apply slice_wrn_other; lia.
Qed.

Lemma same_outside_rdn lo hi n l l' a : same_outside lo hi l l' -> 0 <= a ->
  a + Z.of_nat n <= lo \/ hi <= a -> rdn n l' a = rdn n l a.
Proof. intros [_ E] Ha Hd. rewrite !rdn_slice. f_equal. apply E; lia. Qed.

Lemma same_outside_weaken lo hi lo' hi' l l' : same_outside lo hi l l' -> lo' <= lo -> hi <= hi' ->
  same_outside lo' hi' l l'.
Proof. intros [E H] Hlo Hhi. split; [done|]. intros a n Ha Hn Hd. apply H; lia. Qed.
End outside.

Lemma i16_small x : - 2 ^ 15 <= x < 2 ^ 15 -> i16 (x mod 2 ^ 16) = x.
Proof. intros Hx. unfold i16. rewrite Zplus_mod_idemp_l, Z.mod_small by lia. lia. Qed.

(** The fields fit their types. *)
Record inode_wf (i : inode) : Prop := {
  iw_type : - 2 ^ 15 <= i_type i < 2 ^ 15;
  iw_major : - 2 ^ 15 <= i_major i < 2 ^ 15;
  iw_minor : - 2 ^ 15 <= i_minor i < 2 ^ 15;
  iw_nlink : - 2 ^ 15 <= i_nlink i < 2 ^ 15;
  iw_size : 0 <= i_size i < 2 ^ 32;
  iw_addrs : forall j, 0 <= j <= NDIRECT -> 0 <= i_addrs i j < 2 ^ 32
}.

(** The struct dinode at [o] is that of [i]. *)
Record dinode_of (b : block) (o : Z) (i : inode) : Prop := {
  do_type : di_type b o = i_type i;
  do_major : di_major b o = i_major i;
  do_minor : di_minor b o = i_minor i;
  do_nlink : di_nlink b o = i_nlink i;
  do_size : di_size b o = i_size i;
  do_addrs : forall j, 0 <= j <= NDIRECT -> di_addr b o j = i_addrs i j
}.

Lemma put_addrs_spec k : forall b o f j, 0 <= o -> 0 <= j -> o + 12 + 4 * (j + Z.of_nat k) <= Z.of_nat (length b) ->
  same_outside (o + 12 + 4 * j) (o + 12 + 4 * (j + Z.of_nat k)) b (put_addrs b o f j k) /\
  forall x, j <= x < j + Z.of_nat k -> di_addr (put_addrs b o f j k) o x = f x mod 2 ^ 32.
Proof.
  induction k as [|k IH]; intros b o f j Ho Hj Hl; cbn [put_addrs]; [split; [apply same_outside_refl|lia]|].
  set (b' := wr32 b (o + 12 + 4 * j) (f j)).
  assert (S1 : same_outside (o + 12 + 4 * j) (o + 12 + 4 * j + 4) b b') by (apply same_outside_wrn; lia).
  destruct (IH b' o f (j + 1)) as [S2 H2]; [done|lia|destruct S1 as [-> _]; lia|]. split.
  - eapply same_outside_trans; (eapply same_outside_weaken; [eassumption|lia|lia]).
  - intros x Hx. destruct (decide (x = j)) as [->|]; [|apply H2; lia].
    unfold di_addr. rewrite (same_outside_rdn _ _ _ _ _ _ S2) by lia. apply rdn_wrn; lia.
Qed.

(** Read a field under writes elsewhere. *)
Ltac through :=
  repeat match goal with
  | S : same_outside _ _ _ ?l' |- context [rdn _ ?l' _] => rewrite (same_outside_rdn _ _ _ _ _ _ S) by lia
  end.

Lemma put_dinode_spec b o i : inode_wf i -> 0 <= o -> o + sizeof_dinode <= Z.of_nat (length b) ->
  same_outside o (o + sizeof_dinode) b (put_dinode b o i) /\ dinode_of (put_dinode b o i) o i.
Proof.
  intros W Ho Hl. unfold sizeof_dinode in *. unfold put_dinode. cbv zeta.
  set (b1 := wr16 b o (i_type i)). set (b2 := wr16 b1 (o + 2) (i_major i)).
  set (b3 := wr16 b2 (o + 4) (i_minor i)). set (b4 := wr16 b3 (o + 6) (i_nlink i)).
  set (b5 := wr32 b4 (o + 8) (i_size i)).
  assert (S1 : same_outside o (o + 2) b b1) by (apply same_outside_wrn; lia). destruct (S1) as [L1 _].
  assert (S2 : same_outside (o + 2) (o + 4) b1 b2) by (apply same_outside_wrn; lia). destruct (S2) as [L2 _].
  assert (S3 : same_outside (o + 4) (o + 6) b2 b3) by (apply same_outside_wrn; lia). destruct (S3) as [L3 _].
  assert (S4 : same_outside (o + 6) (o + 8) b3 b4) by (apply same_outside_wrn; lia). destruct (S4) as [L4 _].
  assert (S5 : same_outside (o + 8) (o + 12) b4 b5) by (apply same_outside_wrn; lia). destruct (S5) as [L5 _].
  destruct (put_addrs_spec (Z.to_nat (NDIRECT + 1)) b5 o (i_addrs i) 0) as [S6 H6]; [done|done| |].
  { change (Z.to_nat (NDIRECT + 1)) with 13%nat. lia. }
  set (b6 := put_addrs b5 o (i_addrs i) 0 (Z.to_nat (NDIRECT + 1))) in *.
  change (Z.of_nat (Z.to_nat (NDIRECT + 1))) with 13 in *.
  assert (R : forall n a, 0 <= a -> a + Z.of_nat n <= o + 12 -> rdn n b6 a = rdn n b5 a)
    by (intros n a ? ?; apply (same_outside_rdn _ _ _ _ _ _ S6); lia).
  split.
  - do 5 (eapply same_outside_trans; [eapply same_outside_weaken; [eassumption|lia|lia]|]).
    eapply same_outside_weaken; [exact S6|lia|lia].
  - split; unfold di_type, di_major, di_minor, di_nlink, di_size; rewrite ?R by lia.
    + through. unfold b1. rewrite rdn_wrn by lia. apply i16_small, W.
    + through. unfold b2. rewrite rdn_wrn by lia. apply i16_small, W.
    + through. unfold b3. rewrite rdn_wrn by lia. apply i16_small, W.
    + through. unfold b4. rewrite rdn_wrn by lia. apply i16_small, W.
    + unfold b5. rewrite rdn_wrn by lia. apply Z.mod_small, W.
    + intros j Hj. rewrite H6 by (unfold NDIRECT in *; lia). by apply Z.mod_small, W.
Qed.

(** [src] supplies the bytes [l]. *)
Record source `{KernelLayout} {C} `{BlockCache C} (src : place) (l : list byte)
  (J : tctx -> kmem -> (Z -> proc) -> Prop) : Prop := {
  so_quiet : forall t t' m p, quiet t t' -> J t m p -> J t' m p;
  so_copy : forall off n t (k : kernel C), J t (ks_mem k) (ks_proc k) ->
    0 <= off -> 0 <= n -> off + n <= Z.of_nat (length l) ->
    wp (either_copyin src off n) (fun rl t' k' => rl = (0, slice l off n) /\ quiet t t' /\
      exists m', k' = set_ks_mem m' k /\ J t' m' (ks_proc k)) t k
}.

Section write.
Context `{KernelLayout} {C : Type} `{BlockCache C} (dev pid : Z).
Hypothesis Hdev : dev <> 0.
Context (sb : superblock) (start : Z).
Hypothesis G : geometry sb start.
Local Abbreviation K := (kernel C).
Local Abbreviation fsx := (fsx dev pid sb start).
Implicit Types (t : tctx) (k : K) (d : tdisk).

Lemma IBLOCK_range inum : 0 <= inum < sb_ninodes sb -> sb_inodestart sb <= IBLOCK inum sb < sb_bmapstart sb.
Proof using G.
  intros Hi. destruct G as [[? ?] [? Hm] Hd]. pose proof (size_pos sb start G). assert (0 < LOGBLOCKS) by done.
  change IPB with 16 in *. unfold IBLOCK, u32. change IPB with 16. rewrite Z.mod_small; divlia.
Qed.

(** Writing a block that is not part of the free map. *)
Lemma used_put bn x v b : 0 <= b < sb_size sb -> ~ sb_bmapstart sb <= bn < data_start sb ->
  used sb (<[bn := x]> v) b = used sb v b.
Proof using G. intros Hb Hn. unfold used. rewrite upd_other; [done|]. pose proof (BBLOCK_range sb start G b Hb). lia. Qed.

Lemma fsx_put k k' d bn x : fsx k d -> only_log k k' -> ktx dev pid k' (td_put bn x d) ->
  ~ sb_bmapstart sb <= bn < data_start sb -> fsx k' (td_put bn x d).
Proof using G.
  intros T K1 T1 Hbn. eapply fsx_only_log; [done|done|done|apply T|]. intros b Hb. pose proof (ge_data _ _ G).
  cbn [td_put td_log td_set td_view]. rewrite used_put by (done || lia). by apply T.
Qed.

Definition inode_block (i : inode) : Z := IBLOCK (i_inum i) sb.
Definition inode_offset (i : inode) : Z := sizeof_dinode * (i_inum i mod IPB).

Definition td_iupdate (i : inode) (d : tdisk) : tdisk :=
  td_put (inode_block i) (put_dinode (td_view d (inode_block i)) (inode_offset i) i) d.

Lemma inode_offset_range i : 0 <= inode_offset i /\ inode_offset i + sizeof_dinode <= 1024.
Proof using. unfold inode_offset. change sizeof_dinode with 64. change IPB with 16. divlia. Qed.

Lemma iupdate_wp t k d ip (Q : unit -> tctx -> K -> Prop) :
  let i := ks_inode k ip in
  fsx k d -> ready pid t -> i_dev i = dev -> 0 <= i_inum i < sb_ninodes sb -> inode_wf i -> spare 1 d ->
  (forall t' k', quiet t t' -> only_log k k' -> fsx k' (td_iupdate i d) -> Q tt t' k') -> wp (iupdate ip) Q t k.
Proof using Hdev G.
  intros i T Hr Hdv Hi W Hs HQ. unfold iupdate. apply wp_bind, wp_get. cbv zeta. fold i. rewrite Hdv.
  pose proof T as ((_ & -> & _) & _). fold (inode_block i).
  pose proof (IBLOCK_range _ Hi) as Hb. fold (inode_block i) in Hb. pose proof (size_pos sb start G).
  pose proof (ge_data _ _ G). pose proof (inode_offset_range i).
  assert (Hlen : length (td_view d (inode_block i)) = Z.to_nat BSIZE) by (eapply ktx_length, T).
  apply wp_bind. eapply (kbread_wp dev pid Hdev); [apply T|done|by eapply fsx_unlocked|done|].
  intros bp k1 K1 Hn T1. apply wp_bind. eapply (kdata_wp dev pid); [exact T1|apply lookup_insert_eq|].
  apply wp_bind, wp_get. cbn [td_view td_lock]. rewrite (only_log_inode _ _ K1). fold i (inode_offset i).
  eapply (kput_wp dev pid Hdev); [exact T1|done|apply lookup_insert_eq| |by apply spare_lock| |].
  - destruct (put_dinode_spec (td_view d (inode_block i)) (inode_offset i) i W) as [[-> _] _]; [lia| |done].
    rewrite Hlen. change (Z.of_nat (Z.to_nat BSIZE)) with 1024. lia.
  - eapply (fstx_loggable dev pid sb start G); [apply T|done|lia].
  - intros t' k2 Q2 K2 T2. rewrite td_lock_put in T2 by done. assert (K12 : only_log k k2) by by etrans.
    apply HQ; [done|done|]. eapply fsx_put; [done|done|done|lia].
Qed.

(** ** Writing a block of a file *)

Section block.
Context (v : Z -> block) (i : inode) (bn : Z) (x : block).
Hypothesis F : file_ok sb v i.
Hypothesis Hbn : in_file bn.
Hypothesis Ha : addr_of v i bn <> 0.
Let r := addr_of v i bn.
Let v' := <[r := x]> v.

Lemma put_data_range : data_start sb <= r < sb_size sb.
Proof using F Hbn Ha. apply (fi_data _ _ _ F). split; [done|]. right. by exists bn. Qed.

Lemma put_addr_of y : addr_of v' i y = addr_of v i y.
Proof using F Hbn Ha.
  unfold addr_of, v'. rewrite upd_other; [done|]. by apply (fi_indirect _ _ _ F).
Qed.

Lemma put_used b : 0 <= b < sb_size sb -> used sb v' b = used sb v b.
Proof using F G Hbn Ha. intros Hb. pose proof put_data_range. apply used_put; [done|lia]. Qed.

Lemma put_belongs b : belongs v' i b <-> belongs v i b.
Proof using F Hbn Ha.
  unfold belongs. split; intros [Hb [?|(y & Hy & E)]]; (split; [done|]); [by left| |by left|];
    right; exists y; split; try done; by rewrite <-E, put_addr_of.
Qed.

Lemma file_ok_put : file_ok sb v' i.
Proof using F G Hbn Ha.
  pose proof (size_pos sb start G). split.
  - intros b Hb%put_belongs. destruct (fi_data _ _ _ F b Hb) as [Hd Hu]. split; [done|]. rewrite put_used; [done|lia].
  - intros y z Hy Hz. rewrite !put_addr_of. by apply (fi_inj _ _ _ F).
  - intros y Hy. rewrite put_addr_of. by apply (fi_indirect _ _ _ F).
Qed.

Lemma evolves_put v0 i0 : evolves sb v0 i0 v i -> evolves sb v0 i0 v' i.
Proof using F G Hbn Ha.
  intros E. split.
  - intros b Hb Hu. rewrite put_used by done. by apply (ev_used _ _ _ _ _ E).
  - intros y Hy. rewrite put_addr_of. by apply (ev_addr _ _ _ _ _ E).
  - apply (ev_indirect _ _ _ _ _ E).
  - intros b Hb Hv%put_belongs. by apply (ev_fresh _ _ _ _ _ E).
  - intros b Hb Hu. rewrite put_used by done. intros Hu'. by apply put_belongs, (ev_no_leak _ _ _ _ _ E).
  - intros b Hb Hu Hm Hn. unfold v'. rewrite upd_other; [by apply (ev_keep _ _ _ _ _ E)|]. intros <-.
    assert (Hr : belongs v i r) by (split; [done|right; by exists bn]).
    pose proof (ev_fresh _ _ _ _ _ E r Hb Hr Hn). congruence.
Qed.

(** A byte of another block, or of the same one. *)
Lemma fbyte_put_other p : 0 <= p / BSIZE < MAXFILE -> p / BSIZE <> bn -> addr_of v i (p / BSIZE) <> 0 ->
  fbyte v' i p = fbyte v i p.
Proof using F Hbn Ha.
  intros Hp Hne Hz. unfold fbyte. rewrite put_addr_of. unfold v'. rewrite upd_other; [done|]. intros E.
  apply Hne. symmetry. by apply (fi_inj _ _ _ F).
Qed.

Lemma fbyte_put_same p : p / BSIZE = bn -> fbyte v' i p = nth (Z.to_nat (p mod BSIZE)) x (chr 0).
Proof using F Hbn Ha. intros E. unfold fbyte. rewrite put_addr_of, E. unfold v'. fold r. by rewrite upd_same. Qed.
End block.

(** ** The loop of writei *)

Lemma in_file_div p : 0 <= p < MAXFILE * BSIZE -> in_file (p / BSIZE).
Proof using.
  intros Hp. unfold in_file. change (MAXFILE * BSIZE) with 274432 in Hp. change MAXFILE with 268.
  change BSIZE with 1024. divlia.
Qed.

Section loop.
Context (l : list byte) (ip off0 : Z) (k0 : K) (d0 : tdisk).
Hypothesis Hoff0 : 0 <= off0.
Hypothesis Hmax : off0 + Z.of_nat (length l) <= MAXFILE * BSIZE.

(** [tot] bytes have been written. *)
Record wrote (tot : Z) (k : K) (d : tdisk) : Prop := {
  wr_frame : file_frame ip k0 k;
  wr_fs : fsx k d;
  wr_shape : inode_shape (ks_inode k ip) = inode_shape (ks_inode k0 ip);
  wr_size : i_size (ks_inode k ip) = i_size (ks_inode k0 ip);
  wr_ok : file_ok sb (td_view d) (ks_inode k ip);
  wr_evolves : evolves sb (td_view d0) (ks_inode k0 ip) (td_view d) (ks_inode k ip);
  wr_new : forall p, off0 <= p < off0 + tot -> addr_of (td_view d) (ks_inode k ip) (p / BSIZE) <> 0 /\
    l !! Z.to_nat (p - off0) = Some (fbyte (td_view d) (ks_inode k ip) p);
  wr_old : forall p, 0 <= p < MAXFILE * BSIZE -> ~ off0 <= p < off0 + tot ->
    addr_of (td_view d0) (ks_inode k0 ip) (p / BSIZE) <> 0 ->
    fbyte (td_view d) (ks_inode k ip) p = fbyte (td_view d0) (ks_inode k0 ip) p
}.

Lemma wrote_bmap tot k d bn r k' d' : 0 <= tot <= Z.of_nat (length l) ->
  wrote tot k d -> mapped dev pid sb start k d ip bn r k' d' -> wrote tot k' d'.
Proof using Hoff0 Hmax.
  intros Ht W [Gw _ _ _].
  assert (Hb : forall p, 0 <= p < MAXFILE * BSIZE -> addr_of (td_view d) (ks_inode k ip) (p / BSIZE) <> 0 ->
    addr_of (td_view d') (ks_inode k' ip) (p / BSIZE) = addr_of (td_view d) (ks_inode k ip) (p / BSIZE) /\
    fbyte (td_view d') (ks_inode k' ip) p = fbyte (td_view d) (ks_inode k ip) p).
  { intros p Hp Ha. pose proof (in_file_div p Hp) as Hf.
    pose proof (ev_addr _ _ _ _ _ (gw_evolves _ _ _ _ _ _ _ _ _ Gw) _ Hf Ha) as Ea. split; [done|].
    unfold fbyte. by rewrite Ea, (gw_data _ _ _ _ _ _ _ _ _ Gw). }
  split.
  - etrans; [apply W|apply Gw].
  - apply Gw.
  - etrans; [apply Gw|apply W].
  - etrans; [apply Gw|apply W].
  - apply Gw.
  - eapply evolves_trans; [apply W|apply Gw].
  - intros p Hp. destruct (wr_new _ _ _ W p Hp) as [Ha El]. destruct (Hb p) as [Ea Ef]; [lia|done|].
    by rewrite Ea, Ef.
  - intros p Hp Hn Ha. rewrite <-(wr_old _ _ _ W) by done. apply Hb; [done|].
    by rewrite (ev_addr _ _ _ _ _ (wr_evolves _ _ _ W)) by (try apply in_file_div; done).
Qed.

(** The next [m] bytes go into their block. *)
Lemma wrote_put tot m k d k' (i := ks_inode k ip) (off := off0 + tot) (r := addr_of (td_view d) i (off / BSIZE))
  (x := splice (td_view d r) (off mod BSIZE) (slice l tot m)) :
  0 <= tot -> 0 < m <= BSIZE - off mod BSIZE -> tot + m <= Z.of_nat (length l) ->
  wrote tot k d -> r <> 0 -> file_frame ip k k' -> ks_inode k' ip = i -> fsx k' (td_put r x d) ->
  wrote (tot + m) k' (td_put r x d).
Proof using G Hoff0 Hmax.
  intros Ht Hm Htm W Hr Hfr Ei T'. pose proof (wr_ok _ _ _ W) as F. fold i in F.
  assert (Hbn : in_file (off / BSIZE)) by (apply in_file_div; lia).
  assert (Hlen : length (td_view d r) = Z.to_nat BSIZE) by (eapply ktx_length, (wr_fs _ _ _ W)).
  assert (Hls : length (slice l tot m) = Z.to_nat m) by (apply length_slice; lia).
  pose proof (Z.mod_pos_bound off BSIZE ltac:(done)) as Hmb.
  assert (Hx : forall p, p / BSIZE = off / BSIZE -> nth (Z.to_nat (p mod BSIZE)) x (chr 0) =
    if decide (off <= p < off + m) then default (chr 0) (l !! Z.to_nat (p - off0))
    else nth (Z.to_nat (p mod BSIZE)) (td_view d r) (chr 0)).
  { intros p Hp. pose proof (Z.mod_pos_bound p BSIZE ltac:(done)).
    assert (Hpm : p - off = p mod BSIZE - off mod BSIZE) by (change BSIZE with 1024 in *; divlia).
    rewrite !nth_lookup. unfold x. rewrite lookup_splice, Hls by (rewrite ?Hls, ?Hlen; change (Z.of_nat (Z.to_nat BSIZE)) with BSIZE; lia).
    rewrite !Z2Nat.id by lia. repeat case_decide; try lia; [|done]. unfold slice. rewrite lookup_take_lt, lookup_drop by lia.
    do 2 f_equal. lia. }
  set (v' := <[r := x]> (td_view d)).
  assert (Psame : forall p, p / BSIZE = off / BSIZE -> fbyte v' i p = nth (Z.to_nat (p mod BSIZE)) x (chr 0)) by (intros; by apply fbyte_put_same).
  assert (Pother : forall p, 0 <= p < MAXFILE * BSIZE -> p / BSIZE <> off / BSIZE ->
    addr_of (td_view d) i (p / BSIZE) <> 0 -> fbyte v' i p = fbyte (td_view d) i p).
  { intros p Hp E Hz. apply fbyte_put_other; try done. by apply in_file_div. }
  assert (Pkeep : forall p, 0 <= p < MAXFILE * BSIZE -> ~ off <= p < off + m ->
    addr_of (td_view d) i (p / BSIZE) <> 0 -> fbyte v' i p = fbyte (td_view d) i p).
  { intros p Hp Hn Hz. destruct (decide (p / BSIZE = off / BSIZE)) as [E|E]; [|by apply Pother].
    rewrite Psame, Hx, decide_False by done. unfold fbyte. by rewrite E. }
  split; change (td_view (td_put r x d)) with v'; rewrite ?Ei.
  - etrans; [apply W|done].
  - done.
  - apply W.
  - apply W.
  - by apply file_ok_put.
  - apply evolves_put; [done|done|done|apply W].
  - intros p Hp. assert (Pa : addr_of v' i (p / BSIZE) = addr_of (td_view d) i (p / BSIZE)) by by apply put_addr_of.
    rewrite Pa. destruct (decide (p < off)).
    + destruct (wr_new _ _ _ W p ltac:(lia)) as [Ha El]. fold i in Ha, El. split; [done|].
      by rewrite El, Pkeep by (done || lia).
    + assert (E : p / BSIZE = off / BSIZE) by (change BSIZE with 1024 in *; divlia). rewrite E. split; [done|].
      rewrite Psame, Hx, decide_True by (done || lia).
      destruct (lookup_lt_is_Some_2 l (Z.to_nat (p - off0))) as [y Hy]; [lia|]. by rewrite Hy.
  - intros p Hp Hn Ha. rewrite <-(wr_old _ _ _ W) by (done || lia). fold i. apply Pkeep; [done|lia|].
    unfold i. by rewrite (ev_addr _ _ _ _ _ (wr_evolves _ _ _ W)) by (try apply in_file_div; done).
Qed.
End loop.

Lemma shape_fields (i i' : inode) : inode_shape i = inode_shape i' ->
  i_dev i = i_dev i' /\ i_inum i = i_inum i' /\ i_type i = i_type i' /\ i_major i = i_major i' /\
  i_minor i = i_minor i' /\ i_nlink i = i_nlink i'.
Proof using.
  intros E. split_and!; [apply (f_equal i_dev) in E|apply (f_equal i_inum) in E|apply (f_equal i_type) in E|
    apply (f_equal i_major) in E|apply (f_equal i_minor) in E|apply (f_equal i_nlink) in E]; exact E.
Qed.

(** Room for what is left of the loop, with [z] to spare. *)
Lemma left_over_put n z r x i d : left_over sb (S n + z) r i d ->
  slack sb (indirect_cost i (td_logged (td_put r x d)) + (S n + z)) (td_put r x d).
Proof using.
  pose proof (indirect_cost_le i _ _ (put_logged r x d)).
  intros [Hs|[Hl Hs]]; [apply slack_put|apply slack_put_logged; [done|]];
    (eapply slack_le; [exact Hs|lia]).
Qed.

Section writei.
Context (src : place) (l : list byte) (J : tctx -> kmem -> (Z -> proc) -> Prop).
Hypothesis HJ : source (C := C) src l J.

(** One turn of the loop, once [bmap] has given the block [r]. *)
Lemma writei_turn_wp {A} t k d ip r off tot m (fail next : M K A) (Q : A -> tctx -> K -> Prop) :
  let x := splice (td_view d r) (off mod BSIZE) (slice l tot m) in
  fsx k d -> ready pid t -> data_start sb <= r < sb_size sb -> spare 1 d -> J t (ks_mem k) (ks_proc k) ->
  0 <= tot -> 0 < m <= BSIZE - off mod BSIZE -> tot + m <= Z.of_nat (length l) ->
  (forall t' k', quiet t t' -> file_frame ip k k' -> ks_inode k' = ks_inode k -> fsx k' (td_put r x d) ->
    J t' (ks_mem k') (ks_proc k') -> wp next Q t' k') ->
  wp (bp ← kbread dev r; rl ← either_copyin src tot m;
      let '(e, bs) := rl in
      dat ← kdata bp; kset_data bp (splice dat (off mod BSIZE) bs);;
      if e =? -1 then kbrelse bp;; fail else klog_write bp;; kbrelse bp;; next) Q t k.
Proof using Hdev G HJ.
  intros x T Hr Hd Hs HA Ht Hm Htm HQ. pose proof (Z.mod_pos_bound off BSIZE ltac:(done)).
  assert (Hlen : length (td_view d r) = Z.to_nat BSIZE) by (eapply ktx_length, T).
  apply wp_bind. eapply (kbread_wp dev pid Hdev); [apply T|done|by eapply fsx_unlocked|done|].
  intros bp k1 K1 Hn T1. apply wp_bind. destruct (only_log_fields _ _ K1) as (Ei & Em & Ep). rewrite <-Em, <-Ep in HA.
  eapply wp_mono; [eapply (so_copy _ _ _ HJ); [exact HA|lia|lia|lia]|]. intros rl t2 ? (-> & Q2 & m' & -> & HA2).
  set (k2 := set_ks_mem m' k1). assert (T2 : ktx dev pid k2 (td_lock (<[bp := r]>) d)) by done.
  apply wp_bind. eapply (kdata_wp dev pid); [exact T2|apply lookup_insert_eq|]. cbn [td_view td_lock]. fold x.
  apply wp_bind. eapply (kset_data_wp dev pid Hdev); [exact T2|apply lookup_insert_eq| |].
  { unfold x. rewrite length_splice; rewrite ?length_slice, ?Hlen by lia; change (Z.of_nat (Z.to_nat BSIZE)) with BSIZE; lia. }
  intros k3 K3 T3. cbn [Z.eqb]. apply wp_bind.
  eapply (klog_write_wp dev pid Hdev); [exact T3|by eapply ready_quiet|apply lookup_insert_eq|by apply spare_lock| |].
  { eapply (data_loggable dev pid sb start G k2); [|exact K3|done].
    destruct (fstx_only_log dev pid sb start k k1 d _ (proj1 T) K1 T1) as (? & ? & ? & ?). done. }
  intros k4 K4 T4. apply wp_bind.
  eapply (kbrelse_wp dev pid Hdev); [exact T4|by eapply ready_quiet|apply lookup_insert_eq|left; apply put_logs|].
  intros t5 k5 Q5 K5 T5. change (td_log r (td_set r x ?d)) with (td_put r x d) in T5. rewrite td_lock_put in T5 by done.
  assert (K25 : only_log k2 k5) by by do 2 (etrans; [eassumption|]).
  destruct (only_log_fields _ _ K25) as (Ei5 & Em5 & Ep5).
  assert (Fr : file_frame ip k k5).
  { etrans; [by apply only_log_frame|]. etrans; [|by apply only_log_frame]. by split. }
  apply HQ; [by etrans|done|by rewrite Ei5|..].
  - split_and!; [|apply T|].
    + destruct T as ((_ & E1 & E2 & E3) & _). destruct Fr as [(L1 & L2 & _) S1 _ _ _ _].
      split_and!; [done|congruence|congruence|by rewrite L2].
    + intros b Hb. pose proof (ge_data _ _ G). cbn [td_put td_log td_set td_view].
      rewrite used_put by lia. by apply T.
  - rewrite Em5, Ep5. by eapply (so_quiet _ _ _ HJ).
Qed.

Section loop_wp.
Context (ip off0 : Z) (k0 : K) (d0 : tdisk).
Hypothesis Hoff0 : 0 <= off0.
Hypothesis Hmax : off0 + Z.of_nat (length l) <= MAXFILE * BSIZE.
Hypothesis Hdv : i_dev (ks_inode k0 ip) = dev.

Definition disk_full (d : tdisk) : Prop := forall b, 0 <= b < sb_size sb -> used sb (td_view d) b = true.

(** A write that stops early does so at the start of a block, on a full disk. *)
Definition short_write (off tot n : Z) (d : tdisk) : Prop :=
  tot < n -> disk_full d /\ (tot = 0 \/ (off + tot) mod BSIZE = 0).

Lemma writei_loop_wp fuel t k d tot z (Q : Z * Z -> tctx -> K -> Prop) :
  let n := Z.of_nat (length l) in
  wrote l ip off0 k0 d0 tot k d -> ready pid t -> J t (ks_mem k) (ks_proc k) -> 0 <= tot <= n ->
  (tot < n -> tot = 0 \/ (off0 + tot) mod BSIZE = 0) ->
  slack sb (indirect_cost (ks_inode k ip) (td_logged d) + S (turns (off0 + tot) (n - tot) + z)) d ->
  (turns (off0 + tot) (n - tot) < fuel)%nat ->
  (forall tot' t' k' d', quiet t t' -> tot' <= n -> 0 <= tot' -> wrote l ip off0 k0 d0 tot' k' d' ->
    slack sb (S z) d' -> short_write off0 tot' n d' -> Q (tot', off0 + tot') t' k') ->
  wp (writei_loop fuel ip src (off0 + tot) n tot) Q t k.
Proof using Hdev G HJ Hoff0 Hmax Hdv.
  revert t k d tot. induction fuel as [|fuel IH]; intros t k d tot n W Hr HA Ht Hal Hs Hf HQ; [lia|].
  assert (Hn : n = Z.of_nat (length l)) by done.
  cbn [writei_loop]. destruct (Z.ltb_spec tot n) as [Hlt|Hge]; last first.
  { apply wp_ret. eapply HQ; [done|lia|lia|done| |intros ?; lia]. eapply slack_le; [exact Hs|lia]. }
  set (off := off0 + tot) in *. set (m := Z.min (n - tot) (BSIZE - off mod BSIZE)).
  destruct (turns_step off (n - tot) ltac:(lia) ltac:(lia)) as [Hm Et]. fold m in Hm, Et.
  destruct (shape_fields _ _ (wr_shape _ _ _ _ _ _ _ _ W)) as [Ed _].
  apply wp_bind. eapply (bmap_wp dev pid Hdev sb start G t k d ip (off / BSIZE) (turns (off + m) (n - tot - m) + z));
    [apply W|done|apply W|congruence|apply in_file_div; lia|by rewrite Et in Hs|].
  intros r t1 k1 d1 Q1 M1 L1. pose proof (wrote_bmap l ip off0 k0 d0 Hoff0 Hmax tot k d _ r k1 d1 Ht W M1) as W1.
  pose proof (bm_grew _ _ _ _ _ _ _ _ _ _ _ M1) as G1. destruct (ff_tables _ _ _ (gw_frame _ _ _ _ _ _ _ _ _ G1)) as (_ & _ & Ep).
  assert (HA1 : J t1 (ks_mem k1) (ks_proc k1)).
  { rewrite (gw_mem _ _ _ _ _ _ _ _ _ G1), Ep. by eapply (so_quiet _ _ _ HJ). }
  destruct (Z.eqb_spec r 0) as [->|Hr0].
  { apply wp_ret. eapply HQ; [done|lia|lia|done| |intros _; split; [exact (bm_full _ _ _ _ _ _ _ _ _ _ _ M1 eq_refl)|by apply Hal]].
    destruct L1 as [L|[_ L]]; (eapply slack_le; [exact L|lia]). }
  pose proof (bm_addr _ _ _ _ _ _ _ _ _ _ _ M1) as Er.
  assert (Hrd : data_start sb <= r < sb_size sb).
  { rewrite Er. apply put_data_range; [apply W1|apply in_file_div; lia|congruence]. }
  apply wp_bind, wp_get. destruct (shape_fields _ _ (wr_shape _ _ _ _ _ _ _ _ W1)) as [-> _]. rewrite Hdv. cbv zeta. fold m.
  eapply (writei_turn_wp t1 k1 d1 ip r off tot m);
    [apply W1|by eapply ready_quiet|done| |done|lia|lia|lia|].
  { destruct L1 as [L|[_ L]]; (eapply slack_spare, slack_le; [exact L|lia]). }
  intros t2 k2 Q2 Fr2 Ei2 T2 HA2. assert (Ei2' : ks_inode k2 ip = ks_inode k1 ip) by by rewrite Ei2.
  change (MAXFILE * BSIZE) with 274432 in *. fold n in Hmax.
  assert (Eu : u32 (off + m) = off0 + (tot + m)) by (unfold u32, off; rewrite Z.mod_small; lia).
  assert (Eu' : u32 (tot + m) = tot + m) by (unfold u32; apply Z.mod_small; lia).
  assert (W2 : wrote l ip off0 k0 d0 (tot + m) k2 (td_put r (splice (td_view d1 r) (off mod BSIZE) (slice l tot m)) d1)).
  { revert T2. rewrite Er. intros T2. assert (Hm' : 0 < m <= BSIZE - off mod BSIZE) by lia.
    apply (wrote_put l ip off0 k0 d0 Hoff0 Hmax tot m k1 d1 k2); [lia|exact Hm'|lia|exact W1| |exact Fr2|exact Ei2'|exact T2].
    change (addr_of (td_view d1) (ks_inode k1 ip) (off / BSIZE) <> 0). congruence. }
  rewrite Eu, Eu'. eapply (IH t2 k2 _ (tot + m)); [exact W2|by do 2 (eapply ready_quiet; [eassumption|])|done|lia| | | |].
  - fold n. intros Hmore. right. rewrite Z.add_assoc. fold off. subst m. change BSIZE with 1024 in *. divlia.
  - fold n. replace (off0 + (tot + m)) with (off + m) by lia. replace (n - (tot + m)) with (n - tot - m) by lia.
    rewrite Ei2'. by apply left_over_put.
  - fold n. replace (off0 + (tot + m)) with (off + m) by lia. replace (n - (tot + m)) with (n - tot - m) by lia. lia.
  - intros tot' t' k' d' Q' H1 H2 W' S' F'. eapply HQ; try done. by do 2 (etrans; [eassumption|]).
Qed.
End loop_wp.
End writei.

(** ** writei *)

(** Inode [ip] is a file: its blocks are its own, it has no holes, and its
    inode number is one of the disk. *)
Record is_file (d : tdisk) (i : inode) : Prop := {
  if_ok : file_ok sb (td_view d) i;
  if_full : no_holes (td_view d) i;
  if_size : size_ok i;
  if_wf : inode_wf i;
  if_inum : 0 <= i_inum i < sb_ninodes sb
}.

(** [r] bytes of [l] have been written to the file from [off] on. *)
Record file_written (k : K) (d : tdisk) (ip : Z) (l : list byte) (off r : Z) (k' : K) (d' : tdisk)
  (i := ks_inode k ip) (i' := ks_inode k' ip) : Prop := {
  fw_frame : file_frame ip k k';
  fw_fs : fsx k' d';
  fw_shape : inode_shape i' = inode_shape i;
  fw_file : is_file d' i';
  fw_contents : contents (td_view d') i' = write_at (contents (td_view d) i) off (take (Z.to_nat r) l);
  fw_stored : dinode_of (td_view d' (inode_block i')) (inode_offset i') i';
  fw_inodes : same_outside (inode_offset i) (inode_offset i + sizeof_dinode)
    (td_view d (inode_block i)) (td_view d' (inode_block i));
  fw_used : forall b, 0 <= b < sb_size sb -> used sb (td_view d') b = true <->
    used sb (td_view d) b = true \/ belongs (td_view d') i' b;
  fw_others : forall b, 0 <= b < sb_size sb -> used sb (td_view d) b = true ->
    ~ sb_bmapstart sb <= b < data_start sb -> ~ belongs (td_view d) i b -> b <> inode_block i ->
    td_view d' b = td_view d b
}.

Lemma wf_addrs v i : file_ok sb v i -> forall j, 0 <= j <= NDIRECT -> 0 <= i_addrs i j < 2 ^ 32.
Proof using G.
  intros F j Hj. pose proof (ge_data _ _ G). pose proof (size_pos sb start G).
  destruct (decide (i_addrs i j = 0)) as [->|Hz]; [lia|]. assert (Hb : belongs v i (i_addrs i j)).
  { split; [done|]. destruct (decide (j = NDIRECT)) as [->|]; [by left|]. right. exists j. split.
    - unfold in_file. change MAXFILE with 268. change NDIRECT with 12 in *. lia.
    - unfold addr_of. by rewrite (proj2 (Z.ltb_lt _ _)) by lia. }
  destruct (fi_data _ _ _ F _ Hb) as [? _]. lia.
Qed.

(** Storing the inode does not touch the blocks of the file. *)
Section stored.
Context (v : Z -> block) (i : inode) (bn : Z) (x : block).
Hypothesis F : file_ok sb v i.
Hypothesis Hbn : sb_inodestart sb <= bn < sb_bmapstart sb.
Let v' := <[bn := x]> v.

Lemma belongs_not_inode b : belongs v i b -> b <> bn.
Proof using F G Hbn. intros Hb. destruct (fi_data _ _ _ F b Hb). pose proof (size_pos sb start G). lia. Qed.

Lemma stored_addr_of y : addr_of v' i y = addr_of v i y.
Proof using F G Hbn.
  unfold addr_of. destruct (y <? NDIRECT); [done|]. destruct (Z.eqb_spec (i_addrs i NDIRECT) 0); [done|].
  unfold v'. rewrite upd_other; [done|]. intros E. apply (belongs_not_inode (i_addrs i NDIRECT)); [|done].
  split; [done|by left].
Qed.

Lemma stored_belongs b : belongs v' i b <-> belongs v i b.
Proof using F G Hbn.
  unfold belongs. split; intros [Hb [?|(y & Hy & E)]]; (split; [done|]); [by left| |by left|];
    right; exists y; split; try done; by rewrite <-E, stored_addr_of.
Qed.

Lemma stored_used b : 0 <= b < sb_size sb -> used sb v' b = used sb v b.
Proof using G Hbn. intros Hb. apply used_put; [done|lia]. Qed.

Lemma stored_file_ok : file_ok sb v' i.
Proof using F G Hbn.
  pose proof (size_pos sb start G). split.
  - intros b Hb%stored_belongs. destruct (fi_data _ _ _ F b Hb) as [Hd Hu]. split; [done|]. rewrite stored_used; [done|lia].
  - intros y z Hy Hz. rewrite !stored_addr_of. by apply (fi_inj _ _ _ F).
  - intros y Hy. rewrite stored_addr_of. by apply (fi_indirect _ _ _ F).
Qed.

Lemma stored_fbyte p : 0 <= p < MAXFILE * BSIZE -> addr_of v i (p / BSIZE) <> 0 -> fbyte v' i p = fbyte v i p.
Proof using F G Hbn.
  intros Hp Ha. unfold fbyte. rewrite stored_addr_of. unfold v'. rewrite upd_other; [done|]. intros E.
  apply (belongs_not_inode (addr_of v i (p / BSIZE))); [|done]. split; [done|]. right. exists (p / BSIZE).
  split; [by apply in_file_div|done].
Qed.
End stored.

Section finish.
Context (l : list byte) (ip off : Z) (k : K) (d : tdisk) (tot : Z) (k1 : K) (d1 : tdisk).
Let i := ks_inode k ip.
Hypothesis Hf : is_file d i.
Hypothesis Hoff : 0 <= off <= i_size i.
Hypothesis Htot : 0 <= tot <= Z.of_nat (length l).
Hypothesis Hmax : off + Z.of_nat (length l) <= MAXFILE * BSIZE.
Hypothesis W : wrote l ip off k d tot k1 d1.
Hypothesis T0 : fsx k d.
Let i1 := ks_inode k1 ip.
Let i2 := set_i_size (Z.max (i_size i) (off + tot)) i1.
Let v2 := td_view (td_iupdate i2 d1).

Lemma resized_ok : file_ok sb (td_view d1) i2.
Proof using W. destruct (wr_ok _ _ _ _ _ _ _ _ W) as [Hd Hi Hn]. split; [exact Hd|exact Hi|exact Hn]. Qed.

Lemma resized_inum : i_inum i2 = i_inum i /\ inode_block i2 = inode_block i /\ inode_offset i2 = inode_offset i.
Proof using W.
  destruct (shape_fields _ _ (wr_shape _ _ _ _ _ _ _ _ W)) as (_ & E & _). change (i_inum i2) with (i_inum i1).
  unfold inode_block, inode_offset. change (i_inum i2) with (i_inum i1). fold i i1 in E. by rewrite E.
Qed.

Lemma resized_block : sb_inodestart sb <= inode_block i2 < sb_bmapstart sb.
Proof using G Hf Hoff Htot Hmax W. destruct resized_inum as (_ & -> & _). apply IBLOCK_range, Hf. Qed.

Lemma resized_old p : 0 <= p < i_size i -> ~ off <= p < off + tot ->
  addr_of (td_view d1) i1 (p / BSIZE) <> 0 /\ fbyte (td_view d1) i1 p = fbyte (td_view d) i p.
Proof using Hf Hoff Htot Hmax W.
  intros Hp Hn. pose proof (if_size _ _ Hf) as [_ Hs].
  assert (Ha : addr_of (td_view d) i (p / BSIZE) <> 0).
  { apply (if_full _ _ Hf); [apply Z.div_pos; [lia|done]|]. change BSIZE with 1024 in *. divlia. }
  split.
  - unfold i1. rewrite (ev_addr _ _ _ _ _ (wr_evolves _ _ _ _ _ _ _ _ W)); [done|apply in_file_div; lia|done].
  - apply (wr_old _ _ _ _ _ _ _ _ W); [lia|done|done].
Qed.

Lemma resized_there p : 0 <= p < i_size i2 -> addr_of (td_view d1) i1 (p / BSIZE) <> 0.
Proof using Hf Hoff Htot Hmax W.
  intros Hp. change (i_size i2) with (Z.max (i_size i) (off + tot)) in Hp.
  destruct (decide (off <= p < off + tot)); [by apply (wr_new _ _ _ _ _ _ _ _ W)|]. apply resized_old; lia.
Qed.

Lemma resized_max : 0 <= i_size i2 <= MAXFILE * BSIZE.
Proof using Hf Hoff Htot Hmax. destruct (if_size _ _ Hf). simpl. lia. Qed.

Lemma written_is_file : is_file (td_iupdate i2 d1) i2.
Proof using G Hf Hoff Htot Hmax W.
  pose proof resized_max as Hm. split.
  - apply stored_file_ok; [apply resized_ok|apply resized_block].
  - intros bn Hbn Hb. change (td_view (td_iupdate i2 d1)) with (<[inode_block i2 := put_dinode (td_view d1 (inode_block i2)) (inode_offset i2) i2]> (td_view d1)).
    rewrite stored_addr_of by (apply resized_ok || apply resized_block).
    pose proof (resized_there (bn * BSIZE)) as Ht. rewrite Z.div_mul in Ht by done. apply Ht. change BSIZE with 1024 in *. lia.
  - exact Hm.
  - destruct (shape_fields _ _ (wr_shape _ _ _ _ _ _ _ _ W)) as (_ & _ & E1 & E2 & E3 & E4). destruct (if_wf _ _ Hf).
    fold i i1 in E1, E2, E3, E4. change (MAXFILE * BSIZE) with 274432 in Hm.
    split; [change (i_type i2) with (i_type i1)|change (i_major i2) with (i_major i1)|
      change (i_minor i2) with (i_minor i1)|change (i_nlink i2) with (i_nlink i1)|lia|]; try congruence.
    eapply wf_addrs, resized_ok.
  - destruct resized_inum as (-> & _). apply Hf.
Qed.

Lemma written_contents : contents v2 i2 = write_at (contents (td_view d) i) off (take (Z.to_nat tot) l).
Proof using G Hf Hoff Htot Hmax W.
  pose proof (if_size _ _ Hf) as [Hs0 Hs1]. pose proof resized_max as Hm.
  assert (Hl : length (take (Z.to_nat tot) l) = Z.to_nat tot) by (rewrite length_take; lia).
  assert (Es : i_size i2 = Z.max (i_size i) (off + tot)) by done.
  apply list_eq. intros j. rewrite lookup_write_at, Hl by (unfold contents; rewrite length_fbytes; lia).
  rewrite Z2Nat.id by lia. unfold contents. destruct (decide (Z.of_nat j < i_size i2)).
  - rewrite lookup_fbytes, Z.add_0_l by lia. unfold v2.
    change (td_view (td_iupdate i2 d1)) with (<[inode_block i2 := put_dinode (td_view d1 (inode_block i2)) (inode_offset i2) i2]> (td_view d1)).
    rewrite stored_fbyte; [|apply resized_ok|apply resized_block|lia|apply resized_there; lia].
    change (fbyte (td_view d1) i2 (Z.of_nat j)) with (fbyte (td_view d1) i1 (Z.of_nat j)). case_decide as Hd.
    + rewrite lookup_take_lt by lia. destruct (wr_new _ _ _ _ _ _ _ _ W (Z.of_nat j) Hd) as [_ E]. fold i1 in E.
      rewrite <-E. f_equal. lia.
    + rewrite lookup_fbytes, Z.add_0_l by lia. f_equal. apply resized_old; lia.
  - rewrite lookup_fbytes_ge by lia. rewrite decide_False by lia. by rewrite lookup_fbytes_ge by lia.
Qed.

Lemma written_inode : dinode_of (v2 (inode_block i2)) (inode_offset i2) i2 /\
  same_outside (inode_offset i) (inode_offset i + sizeof_dinode) (td_view d (inode_block i)) (v2 (inode_block i)).
Proof using G Hf Hoff Htot Hmax W T0.
  destruct resized_inum as (_ & Eb & Eo). pose proof (inode_offset_range i2) as Hr.
  pose proof resized_block as Hb. pose proof (size_pos sb start G). pose proof (ge_data _ _ G).
  assert (Hk : td_view d1 (inode_block i) = td_view d (inode_block i)).
  { rewrite Eb in Hb. assert (Hb0 : 0 <= inode_block i < data_start sb).
    { destruct G as [[? ?] _ _]. assert (0 < LOGBLOCKS) by done. lia. }
    apply (ev_keep _ _ _ _ _ (wr_evolves _ _ _ _ _ _ _ _ W)); [lia|by apply T0|lia|].
    intros Hbl. by apply (belongs_not_inode _ _ _ (if_ok _ _ Hf) Hb _ Hbl). }
  assert (Hlen : length (td_view d1 (inode_block i2)) = Z.to_nat BSIZE).
  { eapply ktx_length, (wr_fs _ _ _ _ _ _ _ _ W). }
  destruct (put_dinode_spec (td_view d1 (inode_block i2)) (inode_offset i2) i2) as [S D].
  - apply written_is_file.
  - lia.
  - rewrite Hlen. change (Z.of_nat (Z.to_nat BSIZE)) with 1024. lia.
  - assert (Ev : v2 (inode_block i2) = put_dinode (td_view d1 (inode_block i2)) (inode_offset i2) i2) by apply upd_same.
    split; [by rewrite Ev|]. rewrite <-Hk, <-Eb, Ev, <-Eo. exact S.
Qed.

Lemma written_file k2 k3 : file_frame ip k1 k2 -> ks_inode k2 ip = i2 -> only_log k2 k3 -> fsx k3 (td_iupdate i2 d1) ->
  file_written k d ip l off tot k3 (td_iupdate i2 d1).
Proof using G Hf Hoff Htot Hmax W T0.
  intros Fr E2 K3 T3. assert (E3 : ks_inode k3 ip = i2) by by rewrite (only_log_inode _ _ K3).
  destruct written_inode as [Wd Wo]. pose proof resized_block as Hb. destruct resized_inum as (_ & Eb & _).
  assert (Hu : forall b, 0 <= b < sb_size sb -> used sb (td_view (td_iupdate i2 d1)) b = used sb (td_view d1) b).
  { intros b Hs. by apply stored_used. }
  pose proof (wr_evolves _ _ _ _ _ _ _ _ W) as E. split; rewrite ?E3; fold i.
  - etrans; [apply W|]. etrans; [exact Fr|]. by apply only_log_frame.
  - done.
  - exact (wr_shape _ _ _ _ _ _ _ _ W).
  - apply written_is_file.
  - apply written_contents.
  - exact Wd.
  - exact Wo.
  - intros b Hs. rewrite Hu by done. assert (Hbl : belongs (td_view (td_iupdate i2 d1)) i2 b <-> belongs (td_view d1) i1 b).
    { exact (stored_belongs _ i2 _ _ resized_ok Hb b). }
    rewrite Hbl. split.
    + intros H1. destruct (used sb (td_view d) b) eqn:H2; [by left|]. right. by apply (ev_no_leak _ _ _ _ _ E).
    + intros [H1|H1]; [by apply (ev_used _ _ _ _ _ E)|]. by apply (fi_data _ _ _ (wr_ok _ _ _ _ _ _ _ _ W)).
  - intros b Hs H1 H2 H3 H4. cbn [td_iupdate td_put td_log td_set td_view].
    rewrite upd_other by congruence. by apply (ev_keep _ _ _ _ _ E).
Qed.
End finish.

Lemma wrote_nothing l ip off k d : fsx k d -> file_ok sb (td_view d) (ks_inode k ip) -> wrote l ip off k d 0 k d.
Proof using. intros T F. split; try done; [apply evolves_refl|intros; lia]. Qed.

(** Requests that do not fit a file are refused; the sum is computed in 32 bits. *)
Lemma writei_guard off n size : 0 <= off < 2 ^ 32 -> 0 <= n < 2 ^ 32 -> size <= MAXFILE * BSIZE ->
  (size <? off) || (u32 (off + n) <? off) || (MAXFILE * BSIZE <? u32 (off + n)) =
  (size <? off) || (MAXFILE * BSIZE <? off + n).
Proof using.
  intros Ho Hn Hs. destruct (Z.ltb_spec size off); [done|]. cbn [orb]. change (MAXFILE * BSIZE) with 274432 in *.
  assert (Hu : u32 (off + n) = off + n \/ u32 (off + n) < off /\ 274432 < off + n) by (unfold u32; divlia).
  destruct (Z.ltb_spec (u32 (off + n)) off), (Z.ltb_spec 274432 (u32 (off + n))), (Z.ltb_spec 274432 (off + n));
    try done; lia.
Qed.

Lemma set_i_size_id i : set_i_size (i_size i) i = i.
Proof using. by destruct i. Qed.

Lemma writei_wp src l J t k d ip off z (Q : Z -> tctx -> K -> Prop) :
  let i := ks_inode k ip in
  let n := Z.of_nat (length l) in
  source (C := C) src l J -> J t (ks_mem k) (ks_proc k) ->
  fsx k d -> ready pid t -> is_file d i -> i_dev i = dev -> 0 <= off < 2 ^ 32 -> n < 2 ^ 32 ->
  slack sb (indirect_cost i (td_logged d) + S (turns off n + z)) d ->
  ((i_size i <? off) || (MAXFILE * BSIZE <? off + n) = true -> Q (-1) t k) ->
  (forall r t' k' d', quiet t t' -> off <= i_size i -> off + n <= MAXFILE * BSIZE -> 0 <= r <= n ->
    short_write off r n d' -> file_written k d ip l off r k' d' -> slack sb z d' -> Q r t' k') ->
  wp (writei ip src off n) Q t k.
Proof using Hdev G.
  intros i n HJ HA T Hr Hf Hdv Ho Hn Hs Hbad HQ. unfold writei. apply wp_bind, wp_get. fold i.
  pose proof (writei_guard off n (i_size i) Ho ltac:(lia) (proj2 (if_size _ _ Hf))) as Eg.
  destruct ((i_size i <? off) || (u32 (off + n) <? off)) eqn:E1.
  { apply wp_ret, Hbad. by rewrite <-Eg. }
  destruct (MAXFILE * BSIZE <? u32 (off + n)) eqn:E2; [by apply wp_ret, Hbad; rewrite <-Eg|].
  cbn [orb] in Eg. symmetry in Eg. apply orb_false_iff in Eg as [Eg1%Z.ltb_ge Eg2%Z.ltb_ge].
  apply wp_bind.
  rewrite <-(Z.add_0_r off) at 1.
  eapply (writei_loop_wp src l J HJ ip off k d ltac:(lia) Eg2 Hdv _ t k d 0 z);
    [apply wrote_nothing; [done|apply Hf]|done|done|lia|by left|fold n i; by rewrite Z.add_0_r, Z.sub_0_r| |].
  { fold n. rewrite Z.add_0_r, Z.sub_0_r. apply turns_fuel. lia. }
  intros tot t1 k1 d1 Q1 H1 H2 W S1 F1. apply wp_bind, wp_modify. apply wp_bind.
  set (k2 := if i_size (ks_inode k1 ip) <? off + tot then _ else _).
  set (i2 := set_i_size (Z.max (i_size i) (off + tot)) (ks_inode k1 ip)).
  assert (Ek : file_frame ip k1 k2 /\ ks_inode k2 ip = i2 /\ fsx k2 d1).
  { pose proof (wr_size _ _ _ _ _ _ _ _ W) as Es. fold i in Es. unfold k2, i2. rewrite Es.
    destruct (Z.ltb_spec (i_size i) (off + tot)).
    - split_and!; [apply upd_inode_frame|simpl; rewrite upd_same; by rewrite Z.max_r by lia|apply fsx_upd, W].
    - split_and!; [done|rewrite Z.max_l, <-Es by lia; by rewrite set_i_size_id|apply W]. }
  destruct Ek as (Fr2 & Ei2 & T2). pose proof (written_is_file l ip off k d tot k1 d1 Hf (conj (proj1 Ho) Eg1) (conj H2 H1) Eg2 W) as Hf2.
  fold i i2 in Hf2. destruct (shape_fields _ _ (wr_shape _ _ _ _ _ _ _ _ W)) as (Ed & _).
  eapply (iupdate_wp t1 k2 d1 ip); rewrite ?Ei2; [done|by eapply ready_quiet|by rewrite <-Hdv|apply Hf2|apply Hf2|by eapply slack_spare, slack_le; [exact S1|lia]|].
  intros t2 k3 Q2 K3 T3. apply wp_ret. change (MAXFILE * BSIZE) with 274432 in Eg2.
  rewrite i32_id by lia. eapply HQ; [by etrans|done|done|lia| | |by apply slack_put].
  - intros Hlt. destruct (F1 Hlt) as [Hfull Hal]. split; [|exact Hal]. intros b Hb. rewrite <-(Hfull b Hb). apply stored_used; [|done]. apply (IBLOCK_range (i_inum i2)), Hf2.
  - eapply (written_file l ip off k d tot k1 d1 Hf (conj (proj1 Ho) Eg1) (conj H2 H1) Eg2 W T); [exact Fr2|exact Ei2|exact K3|exact T3].
Qed.
End write.
