(* ===== verification/FsUser.v ===== *)
(** * FsUser: the buffers that readi and writei copy to and from

    A local variable of the kernel, and the memory of the running process
    through [copyin] and [copyout]. *)

From S2P Require Import Prelude Riscv CString Kalloc Vm PageTable VmCopy Sleeplock Layout Bio BioSpec Log LogSpec LogAtomic.
From S2P Require Import Tx Kernel Fs FsBlock FsFile FsData FsWrite.

Section places.
Context `{KernelLayout} {C : Type} `{BlockCache C}.
Local Abbreviation K := (kernel C).

Lemma local_source l : source (C := C) (Local l) l (fun _ _ _ => True).
Proof.
  split; [done|]. intros off n t k _ Ho Hn Hl. unfold either_copyin, myproc. wp_steps. split_and!; [done|done|].
  exists (ks_mem k). by destruct k.
Qed.

Lemma local_sink x cap : sink (C := C) (Local x) cap (fun _ _ _ _ => True).
Proof.
  split; [done|]. intros acc l t k _ _. unfold either_copyout, myproc. wp_steps. split_and!; [done|done|].
  exists (ks_mem k). by destruct k.
Qed.

(** A physical address. *)
Definition phys_takes (pa : Z) (acc : list byte) (t : tctx) (m : kmem) (p : Z -> proc) : Prop := mread (k_mem m) pa (length acc) = acc.

Lemma phys_sink pa cap : sink (C := C) (Phys pa) cap (phys_takes pa).
Proof.
  split; [done|]. intros acc l t k Hj _. unfold either_copyout, myproc, mz, put_bytes. wp_steps. apply wp_zoom. wp_steps. split_and!; [done|done|].
  eexists. split; [done|]. unfold phys_takes in *. cbn [set_mem k_mem]. rewrite length_app, mread_app. f_equal.
  - rewrite mread_mwrite_disjoint by lia. done.
  - apply mread_mwrite.
Qed.

(** The running process has a sound address space. *)
Record user_space (users : gset Z) (t : tctx) (m : kmem) (p : Z -> proc) : Prop := {
  sp_lock : kmem_lock ∉ t_held t;
  sp_user : p_pagetable (p (t_proc t)) ∈ users;
  sp_size : p_sz (p (t_proc t)) <= TRAPFRAME;
  sp_inv : exists own fl, vm_inv users own fl m;
  sp_guarded : guarded (k_mem m) (p_pagetable (p (t_proc t)))
}.

Lemma user_space_quiet users t t' m p : quiet t t' -> user_space users t m p -> user_space users t' m p.
Proof. intros (E1 & E2 & _) [? ? ? ? ?]. by split; rewrite ?E1, ?E2. Qed.

(** The process has the bytes [l] at [va]. *)
Record user_bytes (users : gset Z) (va : Z) (l : list byte) (t : tctx) (m : kmem) (p : Z -> proc) : Prop := {
  ub_space : user_space users t m p;
  ub_range : 0 <= va /\ va + Z.of_nat (length l) <= TRAPFRAME;
  ub_readable : forall x, va <= x < va + Z.of_nat (length l) -> readable (k_mem m) (p_pagetable (p (t_proc t))) x;
  ub_bytes : ubytes (k_mem m) (p_pagetable (p (t_proc t))) va (Z.of_nat (length l)) = l
}.

Lemma slice_ubytes m root va len off n : 0 <= off -> 0 <= n -> off + n <= len ->
  slice (ubytes m root va len) off n = ubytes m root (va + off) n.
Proof.
  intros Ho Hn Hl. replace len with (off + (n + (len - off - n))) by lia. unfold slice.
  rewrite !ubytes_app by lia. rewrite drop_app_length' by (rewrite length_ubytes; lia).
  by rewrite take_app_length' by (rewrite length_ubytes; lia).
Qed.

Lemma user_source users va l : source (C := C) (User va) l (user_bytes users va l).
Proof.
  split.
  { intros t t' m p Hq [Hs Hr Hrd Hb]. destruct (Hq) as (_ & E & _).
    split; [by eapply user_space_quiet|done|by rewrite E|by rewrite E]. }
  intros off n t k [Hs [Hva Hle] Hrd Hb] Ho Hn Hl. destruct (Hs) as [Hlk Hu Hsz (own & fl & I) Hg].
  unfold either_copyin, myproc. wp_steps. set (p := ks_proc k (t_proc t)) in *.
  assert (Eu : u64 (va + off) = va + off) by (unfold u64; apply Z.mod_small; change TRAPFRAME with (2 ^ 38 - 8192) in Hle; lia).
  rewrite Eu. apply wp_zoom. eapply wp_mono.
  { apply (copyin_wp users own fl (ks_mem k) t (uproc_of p) (va + off) n); try done; lia. }
  intros [r bs] t' m' (-> & own' & fl' & dn & U & El & Hr). cbn [fst snd] in El, Hr.
  destruct Hr as [[-> ->]|(_ & _ & x & Hx & Hnot)]; [|destruct Hnot; apply Hrd; lia].
  cbn [up_pagetable uproc_of] in *. split_and!; [|done|].
  - f_equal. rewrite El, <-Hb. symmetry. apply slice_ubytes; [done|done|]. lia.
  - exists m'. split; [done|]. split; [|done| |].
    + split; [done|done|done|exists own', fl'; apply U|by eapply uspec_guarded].
    + intros x Hx. eapply uspec_readable; [exact U|done|]. by apply Hrd.
    + rewrite <-Hb at 2. apply ubytes_ext. intros x Hx. apply (us_mem _ _ _ _ _ _ _ U); [done|lia].
Qed.

(** The process can take [cap] bytes at [va] and has taken [acc]. *)
Record user_takes (users : gset Z) (va cap : Z) (acc : list byte) (t : tctx) (m : kmem) (p : Z -> proc) : Prop := {
  ut_space : user_space users t m p;
  ut_range : 0 <= va /\ va + cap <= TRAPFRAME;
  ut_writable : forall x, va <= x < va + cap -> writable (k_mem m) (p_pagetable (p (t_proc t))) x;
  ut_bytes : ubytes (k_mem m) (p_pagetable (p (t_proc t))) va (Z.of_nat (length acc)) = acc
}.

Lemma ubytes_written m m' root a src : (forall x, a <= x < a + Z.of_nat (length src) ->
    umem m' root x = written m root a src (Z.of_nat (length src)) root x) ->
  ubytes m' root a (Z.of_nat (length src)) = src.
Proof.
  intros E. apply list_eq. intros j. unfold ubytes. rewrite list_lookup_fmap.
  destruct (decide (j < length src)%nat).
  - rewrite lookup_seqZ_lt by lia. simpl. rewrite E by lia. unfold written. rewrite decide_True by lia.
    replace (Z.to_nat (a + Z.of_nat j - a)) with j by lia. symmetry. by apply list_lookup_lookup_total_lt.
  - rewrite lookup_seqZ_ge by lia. symmetry. apply lookup_ge_None_2. lia.
Qed.

Lemma user_sink users va cap : sink (C := C) (User va) cap (user_takes users va cap).
Proof.
  split.
  { intros acc t t' m p Hq [Hs Hr Hrd Hb]. destruct (Hq) as (_ & E & _).
    split; [by eapply user_space_quiet|done|by rewrite E|by rewrite E]. }
  intros acc l t k [Hs [Hva Hle] Hw Hb] Hcap. destruct (Hs) as [Hlk Hu Hsz (own & fl & I) Hg].
  unfold either_copyout, myproc. wp_steps. set (p := ks_proc k (t_proc t)) in *. set (off := Z.of_nat (length acc)) in *.
  assert (Eu : u64 (va + off) = va + off) by (unfold u64; apply Z.mod_small; change TRAPFRAME with (2 ^ 38 - 8192) in Hle; lia).
  rewrite Eu. apply wp_zoom. eapply wp_mono.
  { apply (copyout_wp users own fl (ks_mem k) t (uproc_of p) (va + off) l); try done; lia. }
  intros r t' m' (-> & own' & fl' & dn & U & Hr). cbn [up_pagetable uproc_of] in *.
  destruct Hr as [[-> ->]|(_ & _ & x & Hx & Hnot)]; [|destruct Hnot; apply Hw; lia].
  split_and!; [done|done|]. exists m'. split; [done|]. split; [|done| |].
  - split; [done|done|done|exists own', fl'; apply U|by eapply uspec_guarded].
  - intros x Hx. eapply uspec_writable; [exact U|done|]. by apply Hw.
  - rewrite length_app, Nat2Z.inj_add, ubytes_app by lia. f_equal.
    + rewrite <-Hb at 2. apply ubytes_ext. intros x Hx. rewrite (us_mem _ _ _ _ _ _ _ U) by (done || lia).
      unfold written. by rewrite decide_False by lia.
    + eapply ubytes_written. intros x Hx. apply (us_mem _ _ _ _ _ _ _ U); [done|lia].
Qed.
End places.
