(* ===== verification/FsTrunc.v ===== *)
(** * FsTrunc: discarding the contents of a file

    [itrunc] gives the blocks of a file back to the free map: exactly those,
    the indirect block included, and nothing else on the disk changes but the
    inode. *)

From S2P Require Import Prelude Riscv Kalloc Sleeplock Layout Bio BioSpec Log LogSpec LogAtomic Tx Kernel Fs FsBlock FsFile.
From S2P Require Import FsData FsWrite.

Section trunc.
Context `{KernelLayout} {C : Type} `{BlockCache C} (dev pid : Z).
Hypothesis Hdev : dev <> 0.
Context (sb : superblock) (start : Z).
Hypothesis G : geometry sb start.
Local Abbreviation K := (kernel C).
Local Abbreviation fsx := (fsx dev pid sb start).
Local Abbreviation fstx := (fstx dev pid sb start).
Implicit Types (t : tctx) (k : K) (d : tdisk) (P R : Z -> Prop).

(** The blocks of [P] have been given back. *)
Record freed (P : Z -> Prop) (d d' : tdisk) : Prop := {
  fr_locked : td_locked d' = td_locked d;
  fr_logged : td_logged d ⊆ td_logged d';
  fr_disk : td_disk d' = td_disk d;
  fr_used : forall b, 0 <= b < sb_size sb -> used sb (td_view d') b = true <-> used sb (td_view d) b = true /\ ~ P b;
  fr_keep : forall b, ~ sb_bmapstart sb <= b < data_start sb -> td_view d' b = td_view d b;
  fr_cost : (length (td_logged d') + map_cost sb (td_logged d') <= length (td_logged d) + map_cost sb (td_logged d))%nat
}.

Lemma freed_slack P d d' n : freed P d d' -> slack sb n d -> slack sb n d'.
Proof using. intros [L _ _ _ _ Hc]. unfold slack, spare. rewrite L. lia. Qed.

Lemma cost_map bn l : sb_bmapstart sb <= bn < data_start sb ->
  (length (add_block bn l) + map_cost sb (add_block bn l) <= length l + map_cost sb l)%nat.
Proof using.
  intros Hbn%elem_of_map_blocks. unfold add_block. case_decide as Hn; [done|]. rewrite length_app.
  pose proof (map_cost_logged sb bn l Hbn Hn). simpl. lia.
Qed.

Lemma freed_nothing P d : (forall b, ~ P b) -> freed P d d.
Proof using. intros HP. split; [done|done|done| |done|done]. intros b _. split; [|by intros []]. by split. Qed.

Lemma freed_trans P R d1 d2 d3 : freed P d1 d2 -> freed R d2 d3 -> freed (fun b => P b \/ R b) d1 d3.
Proof using.
  intros [L1 G1 D1 U1 K1 S1] [L2 G2 D2 U2 K2 S2]. split; [congruence|by etrans|congruence| |intros b Hb; by rewrite K2, K1|lia].
  intros b Hb. rewrite U2, U1 by done. tauto.
Qed.

Lemma freed_ext P R d d' : (forall b, P b <-> R b) -> freed P d d' -> freed R d d'.
Proof using. intros E [L Lg D U K S]. split; [done|done|done| |done|done]. intros b Hb. rewrite U by done. by rewrite E. Qed.

Lemma bfreed_one k d b : fstx k d -> data_start sb <= b < sb_size sb -> freed (eq b) d (td_free sb b d).
Proof using G.
  intros T Hb. pose proof (size_pos sb start G). pose proof (BBLOCK_range sb start G b ltac:(lia)). split; [done|apply put_logged|done|..].
  - intros x Hx. rewrite (used_td_free dev pid sb start G k) by (done || lia). case_decide as E; split; try done.
    + by intros [_ []].
    + by intros [? _].
  - intros x Hx. cbn [td_free td_put td_log td_set td_view]. apply upd_other. lia.
  - by apply cost_map.
Qed.

(** Inside a transaction, with no block of the free map locked. *)
Definition freeing (k : K) (d : tdisk) : Prop :=
  fstx k d /\ slack sb 1 d /\ forall bn, sb_bmapstart sb <= bn < data_start sb -> td_unlocked d bn.

Lemma freeing_freed k k' P d d' : freeing k d -> freed P d d' -> fstx k' d' -> freeing k' d'.
Proof using.
  intros (_ & Hs & Hl) F T. split_and!; [done|by eapply freed_slack|]. intros bn Hbn b. rewrite (fr_locked _ _ _ F). by apply Hl.
Qed.

Lemma bfree_freed_wp t k d b (Q : unit -> tctx -> K -> Prop) :
  freeing k d -> ready pid t -> data_start sb <= b < sb_size sb -> used sb (td_view d) b = true ->
  (forall t' k' d', quiet t t' -> only_log k k' -> freeing k' d' -> freed (eq b) d d' -> Q tt t' k') ->
  wp (bfree dev b) Q t k.
Proof using Hdev G.
  intros (T & Hs & Hl) Hr Hb Hu HQ. pose proof (size_pos sb start G).
  eapply (bfree_wp dev pid Hdev sb start G); [exact T|done|lia|done| |by eapply slack_spare|].
  { apply Hl, (BBLOCK_range sb start G). lia. }
  intros t' k' Q' K' T'. pose proof (bfreed_one k d b T Hb) as F.
  eapply HQ; [done|done|eapply (freeing_freed k); [by split_and!|exact F|exact T']|done].
Qed.

(** A block [e x] for [x] in a range, to be given back. *)
Definition given (e : Z -> Z) (lo hi b : Z) : Prop := b <> 0 /\ exists x, lo <= x < hi /\ e x = b.

(** The addresses in a range are 0 or distinct data blocks in use. *)
Record owned (e : Z -> Z) (lo hi : Z) (d : tdisk) : Prop := {
  ow_data : forall b, given e lo hi b -> data_block sb (td_view d) b;
  ow_inj : forall x y, lo <= x < hi -> lo <= y < hi -> e x <> 0 -> e x = e y -> x = y
}.

Lemma owned_next e lo hi d d' P : owned e lo hi d -> freed P d d' ->
  (forall b, P b -> given e lo (lo + 1) b) -> owned e (lo + 1) hi d'.
Proof using G.
  intros [Hd Hi] F HP. pose proof (size_pos sb start G). split.
  - intros b (Hb & x & Hx & E). destruct (Hd b) as [Hr Hu]; [split; [done|exists x; split; [lia|done]]|].
    split; [done|]. apply (fr_used _ _ _ F); [lia|]. split; [done|]. intros (_ & y & Hy & Ey)%HP.
    assert (x = y) by (apply Hi; [lia|lia|congruence|congruence]). lia.
  - intros x y Hx Hy. apply Hi; lia.
Qed.

Lemma given_split e lo hi b : lo < hi -> given e lo hi b <-> given e lo (lo + 1) b \/ given e (lo + 1) hi b.
Proof using.
  intros Hlt. split.
  - intros (Hb & x & Hx & E). destruct (decide (x = lo)); [left|right]; (split; [done|]); exists x; split; lia || done.
  - intros [(Hb & x & Hx & E)|(Hb & x & Hx & E)]; (split; [done|]); exists x; split; lia || done.
Qed.

Lemma given_one e lo b : given e lo (lo + 1) b <-> b <> 0 /\ e lo = b.
Proof using.
  split; [intros (Hb & x & Hx & E); assert (x = lo) as -> by lia; done|]. intros [Hb E]. split; [done|]. exists lo. split; [lia|done].
Qed.

(** The entries of the indirect block. *)
Lemma itrunc_indirect_wp n : forall t k d dat j (Q : unit -> tctx -> K -> Prop),
  let e := fun x => rd32 dat (4 * x) in
  freeing k d -> ready pid t -> owned e j (j + Z.of_nat n) d ->
  (forall t' k' d', quiet t t' -> only_log k k' -> freeing k' d' -> freed (given e j (j + Z.of_nat n)) d d' -> Q tt t' k') ->
  wp (itrunc_indirect dev dat j n) Q t k.
Proof using Hdev G.
  induction n as [|n IH]; intros t k d dat j Q e T Hr O HQ; cbn [itrunc_indirect].
  { apply wp_ret. eapply HQ; [done|done|exact T|]. apply freed_nothing. intros b (_ & x & Hx & _). lia. }
  apply wp_bind. assert (Hstep : forall t1 k1 d1, quiet t t1 -> only_log k k1 -> freeing k1 d1 ->
    freed (given e j (j + 1)) d d1 -> wp (itrunc_indirect dev dat (j + 1) n) Q t1 k1).
  { intros t1 k1 d1 Q1 K1 T1 F1. eapply IH; [exact T1|by eapply ready_quiet| |].
    - replace (j + 1 + Z.of_nat n) with (j + Z.of_nat (S n)) by lia. by eapply owned_next; [exact O|exact F1|].
    - intros t' k' d' Q' K' T' F'. eapply HQ; [by etrans|by etrans|exact T'|].
      eapply freed_ext; [|eapply freed_trans; [exact F1|exact F']]. intros b.
      replace (j + 1 + Z.of_nat n) with (j + Z.of_nat (S n)) by lia. symmetry. apply given_split. lia. }
  unfold nz. fold (e j). destruct (Z.eqb_spec (e j) 0) as [E|E]; cbn [negb].
  - apply wp_ret. eapply Hstep; [done|done|done|]. apply freed_nothing. intros b [Hb ?]%given_one. congruence.
  - destruct (ow_data _ _ _ _ O (e j)) as [Hd Hu]; [split; [done|exists j; split; [lia|done]]|].
    eapply bfree_freed_wp; [exact T|done|done|done|]. intros t1 k1 d1 Q1 K1 T1 F1.
    eapply Hstep; [done|done|done|]. eapply freed_ext; [|exact F1]. intros b. rewrite given_one. split; [by intros <-|by intros [_ <-]].
Qed.

Lemma given_ext e e' lo hi b : (forall x, lo <= x < hi -> e' x = e x) -> given e' lo hi b <-> given e lo hi b.
Proof using.
  intros E. split; intros (Hb & x & Hx & Ex); (split; [done|]); exists x; (split; [done|]);
    by rewrite <-Ex, E.
Qed.

Lemma owned_ext e e' lo hi d : (forall x, lo <= x < hi -> e' x = e x) -> owned e lo hi d -> owned e' lo hi d.
Proof using.
  intros E [Hd Hi]. split; [intros b Hb; apply Hd; exact (proj1 (given_ext e e' lo hi b E) Hb)|].
  intros x y Hx Hy. rewrite !E by done. by apply Hi.
Qed.

Lemma freeing_upd k d ip f : freeing k d -> freeing (upd_inode ip f k) d.
Proof using. intros ((T & ? & ? & ?) & ? & ?). by split_and!. Qed.

(** The inode has lost its addresses in a range and is otherwise the same. *)
Record cleared (i : inode) (lo hi : Z) (i' : inode) : Prop := {
  cl_shape : inode_shape i' = inode_shape i;
  cl_size : i_size i' = i_size i;
  cl_addrs : forall x, i_addrs i' x = if decide (lo <= x < hi) then 0 else i_addrs i x
}.

Lemma cleared_trans i1 i2 i3 lo mid hi : lo <= mid <= hi ->
  cleared i1 lo mid i2 -> cleared i2 mid hi i3 -> cleared i1 lo hi i3.
Proof using.
  intros Hm [S1 Z1 A1] [S2 Z2 A2]. split; [congruence|congruence|]. intros x. rewrite A2, A1.
  repeat case_decide; done || lia.
Qed.

Lemma itrunc_direct_wp n : forall t k d ip j (Q : unit -> tctx -> K -> Prop),
  let i := ks_inode k ip in
  freeing k d -> ready pid t -> i_dev i = dev -> owned (i_addrs i) j (j + Z.of_nat n) d ->
  (forall t' k' d', quiet t t' -> file_frame ip k k' -> freeing k' d' ->
    freed (given (i_addrs i) j (j + Z.of_nat n)) d d' -> cleared i j (j + Z.of_nat n) (ks_inode k' ip) -> Q tt t' k') ->
  wp (itrunc_direct ip j n) Q t k.
Proof using Hdev G.
  induction n as [|n IH]; intros t k d ip j Q i T Hr Hdv O HQ; cbn [itrunc_direct].
  { apply wp_ret. eapply HQ; [done|done|exact T|apply freed_nothing; intros b (_ & x & Hx & _); lia|].
    split; [done|done|]. intros x. by rewrite decide_False by lia. }
  apply wp_bind, wp_get. cbv zeta. fold i. apply wp_bind. rewrite Hdv.
  assert (Hstep : forall t1 k1 d1, quiet t t1 -> file_frame ip k k1 -> freeing k1 d1 ->
    freed (given (i_addrs i) j (j + 1)) d d1 -> cleared i j (j + 1) (ks_inode k1 ip) ->
    wp (itrunc_direct ip (j + 1) n) Q t1 k1).
  { intros t1 k1 d1 Q1 K1 T1 F1 C1. assert (El : j + 1 + Z.of_nat n = j + Z.of_nat (S n)) by lia.
    assert (Ea : forall x, j + 1 <= x < j + 1 + Z.of_nat n -> i_addrs (ks_inode k1 ip) x = i_addrs i x).
    { intros x Hx. rewrite (cl_addrs _ _ _ _ C1). by rewrite decide_False by lia. }
    eapply IH; [exact T1|by eapply ready_quiet| | |].
    - destruct (shape_fields _ _ (cl_shape _ _ _ _ C1)) as [-> _]. done.
    - eapply owned_ext; [exact Ea|]. rewrite El. by eapply owned_next; [exact O|exact F1|].
    - intros t' k' d' Q' K' T' F' C'. eapply HQ; [by etrans|by etrans|exact T'| |].
      + eapply freed_ext; [|eapply freed_trans; [exact F1|exact F']]. intros b. cbv beta.
        rewrite (given_ext _ _ _ _ _ Ea), El. symmetry. apply given_split. lia.
      + rewrite <-El. eapply cleared_trans; [|exact C1|exact C']. lia. }
  unfold nz. destruct (Z.eqb_spec (i_addrs i j) 0) as [E|E]; cbn [negb].
  - apply wp_ret. eapply Hstep; [done|done|exact T| |].
    + apply freed_nothing. intros b [Hb ?]%given_one. congruence.
    + split; [done|done|]. intros x. case_decide; [|done]. assert (x = j) as -> by lia. done.
  - destruct (ow_data _ _ _ _ O (i_addrs i j)) as [Hd Hu]; [split; [done|exists j; split; [lia|done]]|].
    apply wp_bind. eapply bfree_freed_wp; [exact T|done|done|done|]. intros t1 k1 d1 Q1 K1 T1 F1. apply wp_modify.
    eapply Hstep; [done|etrans; [by apply only_log_frame|apply upd_inode_frame]|by apply freeing_upd| |].
    + eapply freed_ext; [|exact F1]. intros b. rewrite given_one. split; [by intros <-|by intros [_ <-]].
    + simpl. rewrite upd_same, (only_log_inode _ _ K1). fold i. split; [done|done|]. intros x. simpl. rewrite upd_eq.
      repeat case_decide; done || lia.
Qed.

(** The entries of the indirect block of [i]. *)
Definition entry (v : Z -> block) (i : inode) (x : Z) : Z := rd32 (v (i_addrs i NDIRECT)) (4 * x).

Lemma belongs_given v i b : belongs v i b <->
  given (i_addrs i) 0 NDIRECT b \/
  i_addrs i NDIRECT <> 0 /\ (given (entry v i) 0 NINDIRECT b \/ b = i_addrs i NDIRECT).
Proof using.
  assert (Hm : MAXFILE = NDIRECT + NINDIRECT) by done. unfold belongs, given, in_file, addr_of, entry. split.
  - intros [Hb [-> |(bn & Hbn & E)]]; [right; split; [done|by right]|]. destruct (Z.ltb_spec bn NDIRECT).
    + left. split; [done|]. exists bn. split; [lia|done].
    + right. destruct (Z.eqb_spec (i_addrs i NDIRECT) 0); [congruence|]. split; [done|]. left. split; [done|].
      exists (bn - NDIRECT). split; [lia|done].
  - assert (0 < NINDIRECT) by done. assert (0 < NDIRECT) by done. intros [(Hb & x & Hx & E)|[Hi [(Hb & x & Hx & E)| ->]]].
    + split; [done|]. right. exists x. split; [lia|]. by rewrite (proj2 (Z.ltb_lt _ _)) by lia.
    + split; [done|]. right. exists (x + NDIRECT). split; [lia|]. rewrite (proj2 (Z.ltb_ge _ _)) by lia.
      rewrite (proj2 (Z.eqb_neq _ _)) by done. by replace (x + NDIRECT - NDIRECT) with x by lia.
    + split; [done|]. by left.
Qed.

Lemma owned_direct d i : file_ok sb (td_view d) i -> owned (i_addrs i) 0 NDIRECT d.
Proof using.
  intros F. assert (Ha : forall x, 0 <= x < NDIRECT -> in_file x /\ addr_of (td_view d) i x = i_addrs i x).
  { intros x Hx. unfold in_file, addr_of. change MAXFILE with 268. change NDIRECT with 12 in *.
    split; [lia|]. by rewrite (proj2 (Z.ltb_lt _ _)) by lia. }
  split; [intros b Hb; apply (fi_data _ _ _ F), belongs_given; by left|].
  intros x y Hx Hy. destruct (Ha x Hx) as [? <-], (Ha y Hy) as [? <-]. by apply (fi_inj _ _ _ F).
Qed.

Lemma owned_entries d i P d' : file_ok sb (td_view d) i -> i_addrs i NDIRECT <> 0 ->
  freed P d d' -> (forall b, P b <-> given (i_addrs i) 0 NDIRECT b) ->
  owned (entry (td_view d) i) 0 NINDIRECT d'.
Proof using G.
  intros F Hi Fr HP. pose proof (size_pos sb start G). assert (Hm : MAXFILE = NDIRECT + NINDIRECT) by done.
  assert (Ha : forall x, 0 <= x < NINDIRECT -> in_file (x + NDIRECT) /\ addr_of (td_view d) i (x + NDIRECT) = entry (td_view d) i x).
  { intros x Hx. unfold in_file, addr_of, entry. assert (0 < NDIRECT) by done. split; [lia|].
    rewrite (proj2 (Z.ltb_ge _ _)) by lia. rewrite (proj2 (Z.eqb_neq _ _)) by done.
    by replace (x + NDIRECT - NDIRECT) with x by lia. }
  split.
  - intros b Hb. destruct (fi_data _ _ _ F b) as [Hd Hu]; [apply belongs_given; right; split; [done|by left]|].
    split; [done|]. apply (fr_used _ _ _ Fr); [lia|]. split; [done|]. intros (Hz & y & Hy & Ey)%HP.
    destruct Hb as (_ & x & Hx & Ex). destruct (Ha x Hx) as [Hf Ef].
    assert (Hfy : in_file y) by (unfold in_file; assert (0 < NINDIRECT) by done; lia).
    assert (x + NDIRECT = y); [|lia]. apply (fi_inj _ _ _ F); [done|done|congruence|]. rewrite Ef, Ex, <-Ey.
    unfold addr_of. by rewrite (proj2 (Z.ltb_lt _ _)) by lia.
  - intros x y Hx Hy. destruct (Ha x Hx) as [? <-], (Ha y Hy) as [? <-]. intros Hz E.
    assert (x + NDIRECT = y + NDIRECT); [by apply (fi_inj _ _ _ F)|lia].
Qed.

(** The indirect block is a data block of its own. *)
Lemma itrunc_parts_apart d i : file_ok sb (td_view d) i -> i_addrs i NDIRECT <> 0 ->
  data_block sb (td_view d) (i_addrs i NDIRECT) /\ ~ given (i_addrs i) 0 NDIRECT (i_addrs i NDIRECT) /\
  ~ given (entry (td_view d) i) 0 NINDIRECT (i_addrs i NDIRECT).
Proof using.
  intros F Hi. assert (Hm : MAXFILE = NDIRECT + NINDIRECT) by done. assert (0 < NDIRECT) by done. assert (0 < NINDIRECT) by done.
  split_and!.
  - apply (fi_data _ _ _ F). split; [done|by left].
  - intros (_ & x & Hx & E). assert (Ea : addr_of (td_view d) i x = i_addrs i x).
    { unfold addr_of. by rewrite (proj2 (Z.ltb_lt _ _)) by lia. }
    apply (fi_indirect _ _ _ F x); [unfold in_file; lia|congruence|congruence].
  - intros (_ & x & Hx & E). assert (Ea : addr_of (td_view d) i (x + NDIRECT) = entry (td_view d) i x).
    { unfold addr_of, entry. rewrite (proj2 (Z.ltb_ge _ _)) by lia. rewrite (proj2 (Z.eqb_neq _ _)) by done.
      by replace (x + NDIRECT - NDIRECT) with x by lia. }
    apply (fi_indirect _ _ _ F (x + NDIRECT)); [unfold in_file; lia|congruence|congruence].
Qed.

Lemma freed_unlock P b bn d d' : freed P (td_lock (<[b := bn]>) d) d' -> td_locked d !! b = None ->
  freed P d (td_lock (delete b) d').
Proof using. intros [L Lg D U Kp S] E. split; try done. simpl in *. by rewrite L, delete_insert_id. Qed.

Lemma freed_data P d d' b : freed P d d' -> data_block sb (td_view d) b -> ~ P b -> data_block sb (td_view d') b.
Proof using G.
  intros F [Hb Hu] HP. pose proof (size_pos sb start G). split; [done|]. by apply (fr_used _ _ _ F); [lia|].
Qed.

Lemma freed_view P d d' b : freed P d d' -> data_start sb <= b -> td_view d' b = td_view d b.
Proof using. intros F Hb. apply (fr_keep _ _ _ F). lia. Qed.

(** The indirect block and the blocks it names. *)
Lemma itrunc_second_wp t k d ip (Q : unit -> tctx -> K -> Prop) :
  let i := ks_inode k ip in
  let a := i_addrs i NDIRECT in
  let e := fun x => rd32 (td_view d a) (4 * x) in
  freeing k d -> td_locked d = ∅ -> slack sb 2 d -> ready pid t -> i_dev i = dev ->
  data_block sb (td_view d) a -> owned e 0 NINDIRECT d -> ~ given e 0 NINDIRECT a ->
  (forall t' k' d', quiet t t' -> file_frame ip k k' -> freeing k' d' -> td_locked d' = ∅ ->
    freed (fun b => given e 0 NINDIRECT b \/ b = a) d d' -> ks_inode k' ip = set_addr NDIRECT 0 i -> Q tt t' k') ->
  wp (bp ← kbread dev a; x ← kdata bp; itrunc_indirect dev x 0 (Z.to_nat NINDIRECT);; kbrelse bp;;
      bfree dev a;; modify (upd_inode ip (set_addr NDIRECT 0))) Q t k.
Proof using Hdev G.
  intros i a e T El Hs Hr Hdv Ha O Hg HQ. pose proof T as (Tx & Hs1 & _).
  assert (Hu : forall bn, td_unlocked d bn) by (intros bn b; by rewrite El, lookup_empty).
  apply wp_bind. eapply (kbread_wp dev pid Hdev); [apply Tx|done|done|by eapply slack_spare|]. intros bp k1 K1 Hn T1.
  apply wp_bind. eapply (kdata_wp dev pid); [exact T1|apply lookup_insert_eq|]. cbn [td_view td_lock].
  set (d1 := td_lock (<[bp := a]>) d) in *. assert (X1 : fstx k1 d1) by (by eapply fstx_only_log).
  assert (F1 : freeing k1 d1).
  { split_and!; [done|by apply slack_lock|]. intros bn Hbn b. unfold d1. cbn [td_lock td_locked]. rewrite El.
    intros [[_ E]|[_ E]]%lookup_insert_Some; [destruct Ha; lia|]. by rewrite lookup_empty in E. }
  apply wp_bind. eapply itrunc_indirect_wp; [exact F1|done|destruct O; by split|].
  intros t2 k2 d2 Q2 K2 F2 D2. change (0 + Z.of_nat (Z.to_nat NINDIRECT)) with NINDIRECT in D2. fold e in D2.
  pose proof (freed_unlock _ _ _ _ _ D2 Hn) as D3. pose proof D2 as [L2 Lg2 Dk2 _ _ _].
  apply wp_bind. eapply (kbrelse_wp dev pid Hdev); [apply F2|by eapply ready_quiet| | |].
  { rewrite L2. apply lookup_insert_eq. }
  { destruct (decide (a ∈ td_logged d)) as [|Hl]; [left; by apply Lg2|right]. rewrite Dk2.
    rewrite (freed_view _ _ _ a D2) by apply Ha. exact (tx_clean dev pid _ _ _ (proj1 Tx) (Hu a) Hl). }
  intros t3 k3 Q3 K3 T3. assert (K03 : only_log k k3) by (do 2 (etrans; [eassumption|]); done).
  assert (X3 : freeing k3 (td_lock (delete bp) d2)) by (eapply freeing_freed; [exact T|exact D3|eapply fstx_only_log; [exact Tx|exact K03|exact T3]]).
  pose proof (freed_data _ _ _ a D3 Ha Hg) as [Hr3 Hu3].
  apply wp_bind. eapply bfree_freed_wp; [exact X3|by do 2 (eapply ready_quiet; [eassumption|])|done|done|].
  intros t4 k4 d4 Q4 K4 X4 D4. apply wp_modify. eapply HQ.
  - by do 2 (etrans; [eassumption|]).
  - etrans; [apply only_log_frame; by etrans|apply upd_inode_frame].
  - by apply freeing_upd.
  - rewrite (fr_locked _ _ _ D4), (fr_locked _ _ _ D3). done.
  - eapply freed_ext; [|eapply freed_trans; [exact D3|exact D4]]. intros b. simpl. intuition congruence.
  - simpl. rewrite upd_same. by rewrite (only_log_inode _ _ K4), (only_log_inode _ _ K03).
Qed.

(** What [itrunc] leaves: an empty file whose blocks are free. *)
Record emptied (k : K) (d : tdisk) (ip : Z) (k' : K) (d' : tdisk) (i := ks_inode k ip) (i' := ks_inode k' ip) : Prop := {
  em_frame : file_frame ip k k';
  em_fs : fsx k' d';
  em_shape : inode_shape i' = inode_shape i;
  em_file : is_file sb d' i';
  em_size : i_size i' = 0;
  em_addrs : forall x, 0 <= x <= NDIRECT -> i_addrs i' x = 0;
  em_stored : dinode_of (td_view d' (inode_block sb i')) (inode_offset i') i';
  em_inodes : same_outside (inode_offset i) (inode_offset i + sizeof_dinode)
    (td_view d (inode_block sb i)) (td_view d' (inode_block sb i));
  em_used : forall b, 0 <= b < sb_size sb ->
    used sb (td_view d') b = true <-> used sb (td_view d) b = true /\ ~ belongs (td_view d) i b;
  em_others : forall b, ~ sb_bmapstart sb <= b < data_start sb -> b <> inode_block sb i -> td_view d' b = td_view d b
}.

Lemma no_addrs_belongs v i b : (forall x, 0 <= x <= NDIRECT -> i_addrs i x = 0) -> ~ belongs v i b.
Proof using.
  assert (0 < NDIRECT) by done. intros E [Hb [-> |(x & [Hx _] & Ex)]]; [apply Hb, E; lia|]. apply Hb. rewrite <-Ex.
  unfold addr_of. destruct (Z.ltb_spec x NDIRECT); [apply E; lia|]. rewrite (E NDIRECT) by lia. done.
Qed.

Lemma no_addrs_is_file d i i' : is_file sb d i -> inode_shape i' = inode_shape i -> i_size i' = 0 ->
  (forall x, 0 <= x <= NDIRECT -> i_addrs i' x = 0) -> forall d', is_file sb d' i'.
Proof using.
  intros F E Es Ea d'. pose proof (fun v b => no_addrs_belongs v i' b Ea) as Hn.
  destruct (shape_fields _ _ E) as (_ & E0 & E1 & E2 & E3 & E4). destruct F as [_ _ _ [W1 W2 W3 W4 _ _] Hi].
  assert (Hz : forall bn, in_file bn -> addr_of (td_view d') i' bn <> 0 -> belongs (td_view d') i' (addr_of (td_view d') i' bn)).
  { intros bn Hb Ha. split; [done|]. right. by exists bn. }
  split; [split| | | |congruence].
  - intros b Hb. by apply Hn in Hb.
  - intros x y Hx _ Ha. by apply Hz, Hn in Ha.
  - intros x Hx Ha. by apply Hz, Hn in Ha.
  - intros bn Hb. rewrite Es. change BSIZE with 1024. lia.
  - unfold size_ok. rewrite Es. done.
  - split; [congruence..| |]; [rewrite Es; done|]. intros x Hx. rewrite Ea by done. lia.
Qed.

(** The last two steps: the inode with no blocks is written. *)
Lemma itrunc_finish_wp t k d ip k1 d1 (Q : unit -> tctx -> K -> Prop) :
  let i := ks_inode k ip in
  fsx k d -> is_file sb d i -> i_dev i = dev -> ready pid t ->
  file_frame ip k k1 -> freeing k1 d1 -> td_locked d1 = ∅ -> freed (belongs (td_view d) i) d d1 ->
  cleared i 0 (NDIRECT + 1) (ks_inode k1 ip) ->
  (forall t' k' d', quiet t t' -> emptied k d ip k' d' -> Q tt t' k') ->
  wp (modify (upd_inode ip (set_i_size 0));; iupdate ip) Q t k1.
Proof using Hdev G.
  intros i T F Hdv Hr Fr X1 El D1 [Cs _ Ca] HQ. apply wp_bind, wp_modify. set (k2 := upd_inode ip (set_i_size 0) k1).
  set (i2 := ks_inode k2 ip). assert (E2 : i2 = set_i_size 0 (ks_inode k1 ip)) by (unfold i2, k2; simpl; by rewrite upd_same).
  assert (S2 : inode_shape i2 = inode_shape i) by (rewrite E2, <-Cs; done).
  assert (A2 : forall x, 0 <= x <= NDIRECT -> i_addrs i2 x = 0).
  { intros x Hx. rewrite E2. simpl. rewrite Ca. by rewrite decide_True by lia. }
  assert (Z2 : i_size i2 = 0) by (by rewrite E2). pose proof (no_addrs_is_file d i i2 F S2 Z2 A2) as F2.
  destruct (shape_fields _ _ S2) as (Edev & Einum & _). pose proof (size_pos sb start G). pose proof (ge_data _ _ G).
  assert (Eb : inode_block sb i2 = inode_block sb i /\ inode_offset i2 = inode_offset i).
  { unfold inode_block, inode_offset. by rewrite Einum. }
  destruct Eb as [Eb Eo]. pose proof (IBLOCK_range sb start G _ (if_inum _ _ _ F)) as Hb. fold (inode_block sb i) in Hb.
  assert (X2 : fsx k2 d1).
  { apply fsx_upd. split_and!; [apply X1|done|]. intros b Hbd. apply (fr_used _ _ _ D1); [lia|]. split; [by apply T|].
    intros [? _]%(fi_data _ _ _ (if_ok _ _ _ F)). lia. }
  eapply (iupdate_wp dev pid Hdev sb start G); [exact X2|done|fold i2; congruence|fold i2; by rewrite Einum; apply F|
    apply (if_wf _ _ _ (F2 d))|destruct X1 as (_ & Hs & _); by eapply slack_spare|].
  fold i2. intros t' k' Q' K' T'. apply (HQ _ _ (td_iupdate sb i2 d1) Q'). assert (Ei : ks_inode k' ip = i2) by (by rewrite (only_log_inode _ _ K')).
  assert (Hlen : length (td_view d1 (inode_block sb i2)) = Z.to_nat BSIZE) by (eapply ktx_length, X1).
  pose proof (inode_offset_range i2) as Ho.
  destruct (put_dinode_spec (td_view d1 (inode_block sb i2)) (inode_offset i2) i2) as [So Do];
    [apply (if_wf _ _ _ (F2 d))|lia|rewrite Hlen; change (Z.of_nat (Z.to_nat BSIZE)) with 1024; lia|].
  assert (Ev : td_view (td_iupdate sb i2 d1) (inode_block sb i2) = put_dinode (td_view d1 (inode_block sb i2)) (inode_offset i2) i2) by apply upd_same.
  split; fold i; rewrite ?Ei; [etrans; [exact Fr|]; etrans; [apply upd_inode_frame|by apply only_log_frame]|exact T'|done|apply F2|done|done|by rewrite Ev|..].
  - rewrite <-Eb, Ev, <-Eo. rewrite <-(fr_keep _ _ _ D1 (inode_block sb i2)) by lia. exact So.
  - intros b Hbs. rewrite <-(fr_used _ _ _ D1 b Hbs). cbn [td_iupdate td_put td_log td_set td_view]. rewrite (used_put sb start G); [done|done|lia].
  - intros b Hm Hn. cbn [td_iupdate td_put td_log td_set td_view]. rewrite upd_other by congruence. by apply (fr_keep _ _ _ D1).
Qed.

Lemma itrunc_wp t k d ip (Q : unit -> tctx -> K -> Prop) :
  let i := ks_inode k ip in
  fsx k d -> is_file sb d i -> i_dev i = dev -> slack sb 2 d -> ready pid t ->
  (forall t' k' d', quiet t t' -> emptied k d ip k' d' -> Q tt t' k') -> wp (itrunc ip) Q t k.
Proof using Hdev G.
  intros i T F Hdv Hs Hr HQ. pose proof (if_ok _ _ _ F) as Fo. pose proof T as (Tx & El & _).
  assert (X0 : freeing k d) by (split_and!; [done|by eapply slack_le; [exact Hs|lia]|intros; by eapply fsx_unlocked]).
  apply wp_bind. eapply itrunc_direct_wp; [exact X0|done|done|by apply owned_direct|]. fold i.
  change (0 + Z.of_nat (Z.to_nat NDIRECT)) with NDIRECT. intros t1 k1 d1 Q1 Fr1 X1 D1 C1.
  apply wp_bind, wp_get. cbv zeta. apply wp_bind. set (i1 := ks_inode k1 ip) in *.
  assert (E1 : i_dev i1 = dev) by (destruct (shape_fields _ _ (cl_shape _ _ _ _ C1)) as [-> _]; done).
  assert (A1 : i_addrs i1 NDIRECT = i_addrs i NDIRECT) by (rewrite (cl_addrs _ _ _ _ C1), decide_False by lia; done).
  assert (L1 : td_locked d1 = ∅) by (by rewrite (fr_locked _ _ _ D1)). rewrite E1, A1.
  assert (Hend : forall t2 k2 d2, quiet t1 t2 -> file_frame ip k1 k2 -> freeing k2 d2 -> td_locked d2 = ∅ ->
    freed (belongs (td_view d) i) d d2 -> cleared i1 NDIRECT (NDIRECT + 1) (ks_inode k2 ip) ->
    wp (modify (upd_inode ip (set_i_size 0));; iupdate ip) Q t2 k2).
  { intros t2 k2 d2 Q2 Fr2 X2 L2 D2 C2. eapply itrunc_finish_wp; [exact T|exact F|done| |by etrans|exact X2|done|exact D2| |].
    - by do 2 (eapply ready_quiet; [eassumption|]).
    - eapply cleared_trans; [|exact C1|exact C2]. done.
    - intros t' k' d' Q' Em. eapply HQ; [|exact Em]. by do 2 (etrans; [eassumption|]). }
  unfold nz. destruct (Z.eqb_spec (i_addrs i NDIRECT) 0) as [Ez|Ez]; cbn [negb].
  { apply wp_ret. eapply Hend; [done|done|exact X1|done| |].
    - eapply freed_ext; [|exact D1]. intros b. rewrite belongs_given. tauto.
    - split; [done|done|]. intros x. case_decide; [|done]. assert (x = NDIRECT) as -> by lia. fold i1. congruence. }
  pose proof (itrunc_parts_apart d i Fo Ez) as (Ha & Hn1 & Hn2).
  assert (Ev : td_view d1 (i_addrs i NDIRECT) = td_view d (i_addrs i NDIRECT)) by (by eapply freed_view; [|apply Ha]).
  match goal with |- wp _ ?R t1 k1 => pose proof (itrunc_second_wp t1 k1 d1 ip R) as Hsecond end. cbv zeta in Hsecond. fold i1 in Hsecond. rewrite A1, Ev in Hsecond.
  apply Hsecond; [exact X1|done|by eapply freed_slack|by eapply ready_quiet|done|..]; clear Hsecond.
  - by eapply freed_data.
  - by eapply owned_entries.
  - exact Hn2.
  - intros t2 k2 d2 Q2 Fr2 X2 L2 D2 E2. eapply Hend; [done|done|exact X2|done| |].
    + eapply freed_ext; [|eapply freed_trans; [exact D1|exact D2]]. intros b. rewrite belongs_given. tauto.
    + rewrite E2. split; [done|done|]. intros x. simpl. rewrite upd_eq. repeat case_decide; done || lia.
Qed.
End trunc.
