(* ===== verification/FsDir.v ===== *)
(** * FsDir: a directory is a finite map from names to inode numbers

    The contents of a directory are entries of 16 bytes.  [dir_map] is the map
    they stand for; [dirlookup] looks a name up in it and [dirlink] adds one. *)

From stdpp Require Import countable.
From S2P Require Import Prelude Riscv Kalloc Sleeplock Layout Bio BioSpec Log LogSpec LogAtomic Tx Kernel Fs FsBlock FsFile.
From S2P Require Import FsData FsWrite FsUser.

#[global] Instance byte_countable : Countable byte.
Proof. by apply (inj_countable Byte.to_N Byte.of_N), Byte.of_to_N. Defined.

(** ** Names *)

(** The bytes before the first NUL. *)
Fixpoint until_nul (l : list byte) : list byte :=
  match l with
  | c :: l => if nz (cv c) then c :: until_nul l else []
  | [] => []
  end.

Definition nul_free (l : list byte) : Prop := Forall (fun c => nz (cv c) = true) l.

Lemma until_nul_id l : nul_free l -> until_nul l = l.
Proof. induction 1 as [|c l Hc _ IH]; [done|]. simpl. by rewrite Hc, IH. Qed.

Lemma until_nul_app l x : nul_free l -> until_nul (l ++ x) = l ++ until_nul x.
Proof. induction 1 as [|c l Hc _ IH]; [done|]. simpl. by rewrite Hc, IH. Qed.

Lemma nul_free_take n l : nul_free l -> nul_free (take n l).
Proof. apply Forall_take. Qed.

(** The name of an entry, and the key under which a name is entered. *)
Definition key (name : list byte) : list byte := take (Z.to_nat DIRSIZ) name.

Lemma lstrncmp_zero n : forall s t, lstrncmp s t n = 0 <-> take n (until_nul s) = take n (until_nul t).
Proof.
  assert (E0 : nz (cv (chr 0)) = false) by done. assert (E1 : cv (chr 0) = 0) by done.
  induction n as [|n IH]; intros s t; [done|]. cbn [lstrncmp].
  assert (Hnz : forall c, nz (cv c) = true <-> cv c <> 0) by (intros c; unfold nz; by rewrite negb_true_iff, Z.eqb_neq).
  destruct s as [|p s], t as [|q t]; cbn [head tail default from_option id until_nul].
  - rewrite E0. done.
  - rewrite E0. cbn [andb]. destruct (nz (cv q)) eqn:Eq; [|].
    + apply Hnz in Eq. rewrite E1. split; [|done]. intros E. exfalso. lia.
    + unfold nz in Eq. apply negb_false_iff, Z.eqb_eq in Eq. by rewrite Eq, E1.
  - destruct (nz (cv p)) eqn:Ep; cbn [andb].
    + apply Hnz in Ep. rewrite E1, (proj2 (Z.eqb_neq _ _)) by done. split; [|done]. intros E. exfalso. lia.
    + unfold nz in Ep. apply negb_false_iff, Z.eqb_eq in Ep. by rewrite Ep, E1.
  - destruct (nz (cv p)) eqn:Ep; cbn [andb].
    + apply Hnz in Ep. destruct (Z.eqb_spec (cv p) (cv q)) as [E|E].
      * apply cv_inj in E as <-. rewrite (proj2 (Hnz p)) by done. simpl. rewrite IH. split; [by intros ->|by intros [= ->]].
      * split; [intros E'; exfalso; lia|]. destruct (nz (cv q)); [|done]. intros [= -> _]. done.
    + unfold nz in Ep. apply negb_false_iff, Z.eqb_eq in Ep. rewrite Ep. destruct (nz (cv q)) eqn:Eq.
      * apply Hnz in Eq. split; [intros E; exfalso; lia|done].
      * unfold nz in Eq. apply negb_false_iff, Z.eqb_eq in Eq. by rewrite Eq.
Qed.

(** [namecmp] compares a name, cut to DIRSIZ bytes, with the name of an entry. *)
Lemma namecmp_zero name x : nul_free name -> length x = Z.to_nat DIRSIZ -> namecmp name x = 0 <-> key name = until_nul x.
Proof.
  intros Hn Hl. unfold namecmp, key. rewrite lstrncmp_zero, (until_nul_id name) by done.
  rewrite (take_ge (until_nul x)); [done|]. rewrite <-Hl. clear. induction x as [|c x IH]; [done|].
  simpl. destruct (nz (cv c)); simpl; lia.
Qed.

Lemma length_pad_name name : length (pad_name name) = Z.to_nat DIRSIZ.
Proof. unfold pad_name. rewrite length_take, length_app, length_replicate. lia. Qed.

Lemma pad_name_key name : nul_free name -> until_nul (pad_name name) = key name.
Proof.
  intros Hn. unfold pad_name, key. rewrite take_app, until_nul_app by (by apply nul_free_take).
  rewrite <-(app_nil_r (take _ name)) at 2. f_equal. rewrite take_replicate.
  by destruct (Init.Nat.min _ _).
Qed.

(** ** Entries *)

Definition dirent (c : list byte) (off : Z) : list byte := slice c off sizeof_dirent.
Definition entry_of (de : list byte) : option (list byte * Z) :=
  if de_inum de =? 0 then None else Some (until_nul (de_name de), de_inum de).

(** The entries from the offset [16 * j] on, [n] of them. *)
Definition dir_list (c : list byte) (j n : nat) : list (list byte * Z) :=
  omap (fun x => entry_of (dirent c (sizeof_dirent * Z.of_nat x))) (seq j n).
Definition dir_map (c : list byte) : gmap (list byte) Z := list_to_map (dir_list c 0 (length c / 16)).

Lemma dir_list_cons c j n :
  dir_list c j (S n) = option_list (entry_of (dirent c (sizeof_dirent * Z.of_nat j))) ++ dir_list c (S j) n.
Proof. unfold dir_list. cbn [seq omap list_omap]. by destruct (entry_of _). Qed.

Lemma dir_list_app c j n m : dir_list c j (n + m) = dir_list c j n ++ dir_list c (j + n) m.
Proof. unfold dir_list. by rewrite seq_app, omap_app. Qed.

Lemma dir_list_ext c c' j n : (forall x, (j <= x < j + n)%nat -> dirent c' (sizeof_dirent * Z.of_nat x) = dirent c (sizeof_dirent * Z.of_nat x)) ->
  dir_list c' j n = dir_list c j n.
Proof.
  revert j. induction n as [|n IH]; intros j E; [done|]. rewrite !dir_list_cons, E by lia. f_equal. apply IH. intros x Hx. apply E. lia.
Qed.

Lemma length_dirent c off : 0 <= off -> off + sizeof_dirent <= Z.of_nat (length c) -> length (dirent c off) = 16%nat.
Proof. intros Ho Hl. unfold dirent. change sizeof_dirent with 16 in *. rewrite length_slice; [done|lia..]. Qed.

(** A new entry. *)
Lemma entry_of_mk inum name : 0 < inum < 2 ^ 16 -> nul_free name ->
  entry_of (mk_dirent inum (pad_name name)) = Some (key name, inum).
Proof.
  intros Hi Hn. unfold entry_of, mk_dirent, de_inum, de_name. pose proof (length_pad_name name) as Hl.
  assert (Hw : length (wr16 (replicate 2 (chr 0)) 0 inum) = 2%nat) by (apply length_wrn; simpl; lia).
  assert (E : rd16 (wr16 (replicate 2 (chr 0)) 0 inum ++ pad_name name) 0 = inum).
  { rewrite rdn_slice. unfold slice. change (Z.to_nat 0) with 0%nat. rewrite drop_0, take_app_length' by (rewrite Hw; done).
    pose proof (rdn_wrn 2 (replicate 2 (chr 0)) 0 inum ltac:(lia) ltac:(simpl; lia)) as E. rewrite rdn_slice in E.
    unfold slice in E. change (Z.to_nat 0) with 0%nat in E. rewrite drop_0, take_ge in E by (rewrite Hw; simpl; lia).
    rewrite E. apply Z.mod_small. simpl. lia. }
  rewrite E, (proj2 (Z.eqb_neq _ _)) by lia. unfold slice. rewrite drop_app_length' by (rewrite Hw; done).
  rewrite take_ge by (rewrite Hl; lia). by rewrite pad_name_key.
Qed.

(** The entries of [c] from [j] on, as a map: the first entry with a name counts. *)
Definition dir_from (c : list byte) (j n : nat) : gmap (list byte) Z := list_to_map (dir_list c j n).

Lemma dir_from_cons c j n name : nul_free name ->
  let de := dirent c (sizeof_dirent * Z.of_nat j) in
  length de = 16%nat ->
  dir_from c j (S n) !! key name =
  if de_inum de =? 0 then dir_from c (S j) n !! key name
  else if namecmp name (de_name de) =? 0 then Some (de_inum de) else dir_from c (S j) n !! key name.
Proof.
  intros Hn de Hl. unfold dir_from. rewrite dir_list_cons. fold de. unfold entry_of.
  destruct (de_inum de =? 0); [done|]. change (option_list (Some ?x) ++ ?l) with (x :: l). rewrite list_to_map_cons.
  assert (Hd : length (de_name de) = Z.to_nat DIRSIZ).
  { unfold de_name. change DIRSIZ with 14. rewrite length_slice; [done|lia..]. }
  pose proof (namecmp_zero name (de_name de) Hn Hd) as Hz. destruct (Z.eqb_spec (namecmp name (de_name de)) 0) as [E|E].
  - apply Hz in E. rewrite <-E. apply lookup_insert_eq.
  - rewrite lookup_insert_ne; [done|]. intros Ek. apply E, Hz. done.
Qed.

(** ** A new entry *)

Lemma length_mk_dirent inum name : length (mk_dirent inum (pad_name name)) = 16%nat.
Proof. unfold mk_dirent. by rewrite length_app, length_wrn, length_pad_name. Qed.

Lemma length_entries (c : list byte) : (length c `mod` 16 = 0)%nat -> length c = (16 * (length c / 16))%nat.
Proof. intros Hc. pose proof (Nat.div_mod_eq (length c) 16). lia. Qed.

Section link.
Context (c : list byte) (name : list byte) (inum : Z) (j : nat).
Let n := (length c / 16)%nat.
Let off := sizeof_dirent * Z.of_nat j.
Let c' := write_at c off (mk_dirent inum (pad_name name)).
Hypothesis Hc : (length c `mod` 16 = 0)%nat.
Hypothesis Hname : nul_free name.
Hypothesis Hinum : 0 < inum < 2 ^ 16.

Lemma link_dirent_other x : (j <= n)%nat -> x <> j -> dirent c' (sizeof_dirent * Z.of_nat x) = dirent c (sizeof_dirent * Z.of_nat x).
Proof using Hc Hname Hinum.
  intros Hj Hx. pose proof (length_entries c Hc) as Hlen. fold n in Hlen. unfold dirent, slice, c', off. change sizeof_dirent with 16. apply list_eq. intros p.
  destruct (decide (p < 16)%nat); [|rewrite !lookup_take_ge by lia; done]. rewrite !lookup_take_lt, !lookup_drop by lia.
  rewrite lookup_write_at, length_mk_dirent by lia. by rewrite decide_False by lia.
Qed.

Lemma link_dirent_same : (j <= n)%nat -> dirent c' off = mk_dirent inum (pad_name name).
Proof using Hc Hname Hinum.
  intros Hj. pose proof (length_entries c Hc) as Hlen. fold n in Hlen. pose proof (length_mk_dirent inum name) as Hm. unfold dirent, slice, c', off. change sizeof_dirent with 16. apply list_eq. intros p.
  destruct (decide (p < 16)%nat); [|rewrite lookup_take_ge by lia; by rewrite lookup_ge_None_2 by lia].
  rewrite lookup_take_lt, lookup_drop by lia. rewrite lookup_write_at, Hm by lia. rewrite decide_True by lia. f_equal. lia.
Qed.

Lemma length_link : (j <= n)%nat -> length c' = (16 * Nat.max n (S j))%nat.
Proof using Hc Hname Hinum.
  intros Hj. pose proof (length_entries c Hc) as Hlen. fold n in Hlen. pose proof (length_mk_dirent inum name) as Hm. unfold c', write_at, off. change sizeof_dirent with 16.
  rewrite !length_app, length_take, length_drop, Hm. lia.
Qed.

Lemma dir_map_link : j = n \/ (j < n)%nat /\ de_inum (dirent c off) = 0 ->
  dir_map c !! key name = None -> dir_map c' = <[key name := inum]> (dir_map c).
Proof using Hc Hname Hinum.
  intros Hj Hk. assert (Hle : (j <= n)%nat) by lia. pose proof (length_link Hle) as Hl.
  assert (En : (length c' / 16)%nat = (j + S (n - S j))%nat) by (rewrite Hl, Nat.mul_comm, Nat.div_mul by done; lia).
  assert (Ec : dir_list c 0 n = dir_list c 0 j ++ dir_list c (S j) (n - S j)).
  { destruct Hj as [-> |[Hlt Hz]].
    - replace (n - S n)%nat with 0%nat by lia. by rewrite app_nil_r.
    - replace n with (j + S (n - S j))%nat at 1 by lia. rewrite dir_list_app, Nat.add_0_l, dir_list_cons. fold off.
      unfold entry_of. by rewrite Hz. }
  assert (Ec' : dir_list c' 0 (length c' / 16) = dir_list c 0 j ++ (key name, inum) :: dir_list c (S j) (n - S j)).
  { rewrite En, dir_list_app, Nat.add_0_l, dir_list_cons. fold off. rewrite link_dirent_same, entry_of_mk by done.
    change (option_list (Some ?x) ++ ?l) with (x :: l). f_equal; [|f_equal]; apply dir_list_ext; intros x Hx; apply link_dirent_other; lia. }
  unfold dir_map in *. fold n in Hk |- *. rewrite Ec', Ec, !list_to_map_app, list_to_map_cons in *.
  rewrite insert_union_r; [done|]. by apply lookup_union_None in Hk as [? _].
Qed.
End link.

(** ** The inode table *)

Section table.
Context `{KernelLayout} {C : Type} `{BlockCache C}.
Local Abbreviation K := (kernel C).
Implicit Types (t : tctx) (k : K).

(** The table has the inode or a free entry. *)
Definition can_get (k : K) (dev inum : Z) : Prop := iget_scan k dev inum None 0 (Z.to_nat NINODE) <> (None, None).

Lemma iget_scan_ext n : forall k k' dev inum e j, ks_inode k' = ks_inode k ->
  iget_scan k' dev inum e j n = iget_scan k dev inum e j n.
Proof. induction n as [|n IH]; intros k k' dev inum e j E; [done|]. cbn [iget_scan]. rewrite E. by rewrite (IH k k'). Qed.

Lemma can_get_ext k k' dev inum : ks_inode k' = ks_inode k -> can_get k dev inum -> can_get k' dev inum.
Proof. intros E. unfold can_get. by rewrite (iget_scan_ext _ k k'). Qed.

Lemma iget_scan_spec n : forall k dev inum e j,
  match iget_scan k dev inum e j n with
  | (Some ip, _) => j <= ip < j + Z.of_nat n /\ 0 < i_ref (ks_inode k ip) /\ i_dev (ks_inode k ip) = dev /\ i_inum (ks_inode k ip) = inum
  | (None, Some ip) => e = Some ip \/ j <= ip < j + Z.of_nat n /\ i_ref (ks_inode k ip) = 0
  | (None, None) => True
  end.
Proof.
  induction n as [|n IH]; intros k dev inum e j; cbn [iget_scan]; [destruct e; auto|].
  destruct ((0 <? i_ref (ks_inode k j)) && (i_dev (ks_inode k j) =? dev) && (i_inum (ks_inode k j) =? inum)) eqn:E1.
  { apply andb_true_iff in E1 as [[E1%Z.ltb_lt E2%Z.eqb_eq]%andb_true_iff E3%Z.eqb_eq]. split_and!; [lia|lia|done|done|done]. }
  specialize (IH k dev inum (match e with None => if i_ref (ks_inode k j) =? 0 then Some j else None | Some _ => e end) (j + 1)).
  destruct (iget_scan k dev inum _ (j + 1) n) as [[ip|] [ip'|]]; try done;
    try (destruct IH as (? & ? & ? & ?); split_and!; [lia|lia|done|done|done]).
  destruct IH as [E|[? ?]]; [|right; split; [lia|done]]. destruct e as [x|]; [by left|].
  destruct (Z.eqb_spec (i_ref (ks_inode k j)) 0); [|done]. injection E as <-. right. split; [lia|done].
Qed.

(** The entry [i] of the table has become a reference to the inode. *)
Record got (dev inum : Z) (i i' : inode) : Prop := {
  gt_dev : i_dev i' = dev;
  gt_inum : i_inum i' = inum;
  gt_ref : i_ref i' = i_ref i + 1 /\ 0 <= i_ref i;
  gt_kept : 0 < i_ref i -> i' = set_i_ref (i_ref i + 1) i;
  gt_fresh : i_ref i = 0 -> i_valid i' = 0
}.

Lemma iget_wp t k dev inum (Q : Z -> tctx -> K -> Prop) :
  itable_lock ∉ t_held t -> can_get k dev inum ->
  (forall ip f, 0 <= ip < NINODE -> got dev inum (ks_inode k ip) (f (ks_inode k ip)) -> Q ip t (upd_inode ip f k)) ->
  wp (iget dev inum) Q t k.
Proof.
  intros Hl Hc HQ. unfold iget, can_get in *. apply wp_bind, wp_acquire; [done|]. apply wp_bind, wp_get.
  pose proof (iget_scan_spec (Z.to_nat NINODE) k dev inum None 0) as Hs.
  destruct (iget_scan k dev inum None 0 (Z.to_nat NINODE)) as [[ip|] [e|]]; try done.
  1,2: destruct Hs as (Hr & Hp & Ed & Ei); apply wp_bind, wp_modify, wp_bind, wp_release, wp_ret; cbv beta;
    apply (HQ ip (set_i_ref (i_ref (ks_inode k ip) + 1))); [unfold NINODE in *; lia|]; split; simpl; try done; lia.
  destruct Hs as [|[Hr E0]]; [done|]. apply wp_bind, wp_modify, wp_bind, wp_release, wp_ret.
  apply HQ; [unfold NINODE in *; lia|]. split; simpl; try done; lia.
Qed.

(** A reference is dropped that is not the last one of an unlinked inode. *)
Lemma iput_drop_wp t k ip (Q : unit -> tctx -> K -> Prop) :
  let i := ks_inode k ip in
  itable_lock ∉ t_held t -> ~ (i_ref i = 1 /\ i_valid i <> 0) ->
  Q tt t (upd_inode ip (set_i_ref (i_ref i - 1)) k) -> wp (iput ip) Q t k.
Proof.
  intros i Hl Hn HQ. unfold iput. apply wp_bind, wp_acquire; [done|]. apply wp_bind, wp_get. cbv zeta. fold i.
  assert (E : (i_ref i =? 1) && nz (i_valid i) && (i_nlink i =? 0) = false).
  { unfold nz. destruct (Z.eqb_spec (i_ref i) 1), (Z.eqb_spec (i_valid i) 0); try done. tauto. }
  rewrite E. apply wp_bind, wp_ret, wp_bind, wp_modify, wp_release. exact HQ.
Qed.
End table.

(** ** dirlookup *)

(** A directory: whole entries and no holes. *)
Record is_dir (v : Z -> block) (i : inode) : Prop := {
  id_type : i_type i = T_DIR;
  id_full : no_holes v i;
  id_size : size_ok i;
  id_entries : i_size i mod sizeof_dirent = 0
}.

Lemma dir_length v i : is_dir v i ->
  (length (contents v i) `mod` 16 = 0)%nat /\ dir_entries (i_size i) = (length (contents v i) / 16)%nat.
Proof.
  intros [_ _ [Hs _] He]. unfold contents. rewrite length_fbytes. unfold dir_entries. change sizeof_dirent with 16 in *.
  split; [apply Nat2Z.inj; rewrite Nat2Z.inj_mod; simpl; rewrite Z2Nat.id by lia; done|].
  apply Nat2Z.inj. rewrite Nat2Z.inj_div, !Z2Nat.id by (try apply Z.div_pos; lia). simpl. divlia.
Qed.

Section lookup.
Context `{KernelLayout} {C : Type} `{BlockCache C} (dev pid : Z).
Hypothesis Hdev : dev <> 0.
Local Abbreviation K := (kernel C).
Local Abbreviation at_rest := (at_rest dev pid).
Implicit Types (t : tctx) (k : K) (d : tdisk).

Section scan.
Context (dp : Z) (d : tdisk) (i : inode) (name : list byte).
Hypothesis Hdir : is_dir (td_view d) i.
Hypothesis Hdv : i_dev i = dev.
Let c := contents (td_view d) i.
Let n := (length c / 16)%nat.

(** Reading entry [j]. *)
Lemma read_entry_wp t k j (Q : Z * list byte -> tctx -> K -> Prop) :
  ks_inode k dp = i -> at_rest k d -> ready pid t -> (j < n)%nat ->
  (forall t' k', quiet t t' -> only_log_mem k k' -> at_rest k' d ->
    Q (sizeof_dirent, dirent c (sizeof_dirent * Z.of_nat j)) t' k') ->
  wp (readi dp (Local []) (sizeof_dirent * Z.of_nat j) sizeof_dirent) Q t k.
Proof using Hdev Hdir Hdv.
  intros Ei T Hr Hj HQ. destruct (dir_length _ _ Hdir) as [Hm _]. fold c in Hm. pose proof (length_entries c Hm) as Hlen. fold n in Hlen.
  assert (Hsz : i_size i = 16 * Z.of_nat n).
  { pose proof (id_size _ _ Hdir) as [? _]. unfold c, contents in Hlen. rewrite length_fbytes in Hlen. lia. }
  pose proof (id_size _ _ Hdir) as [_ Hmax]. change (MAXFILE * BSIZE) with 274432 in Hmax. change sizeof_dirent with 16 in *.
  eapply (readi_wp dev pid Hdev (Local []) 16 _ (local_sink [] 16) dp d i);
    [done|apply Hdir|apply Hdir|done|done|done|lia|done|done|done|].
  cbv zeta. rewrite decide_True by lia. rewrite Z.min_l by lia. intros t' k' Q' K' T' _. by apply HQ.
Qed.

Lemma log_mem_inode k k' : only_log_mem k k' -> ks_inode k' = ks_inode k.
Proof using. by intros (s & m & -> & _). Qed.

Hypothesis Hname : nul_free name.

Lemma dirlookup_loop_wp m : forall t k j (Q : option (Z * Z) -> tctx -> K -> Prop),
  ks_inode k dp = i -> at_rest k d -> ready pid t -> itable_lock ∉ t_held t -> (j + m = n)%nat ->
  (forall inum, dir_from c j m !! key name = Some inum -> can_get k dev inum) ->
  (forall t' k', quiet t t' -> only_log_mem k k' -> at_rest k' d -> dir_from c j m !! key name = None -> Q None t' k') ->
  (forall t' k' ip f x inum, quiet t t' -> only_log_mem k k' -> at_rest k' d -> (j <= x < n)%nat ->
    entry_of (dirent c (sizeof_dirent * Z.of_nat x)) = Some (key name, inum) ->
    dir_from c j m !! key name = Some inum -> 0 <= ip < NINODE -> got dev inum (ks_inode k ip) (f (ks_inode k ip)) ->
    Q (Some (ip, sizeof_dirent * Z.of_nat x)) t' (upd_inode ip f k')) ->
  wp (dirlookup_loop m dp name (sizeof_dirent * Z.of_nat j)) Q t k.
Proof using Hdev Hdir Hdv Hname.
  induction m as [|m IH]; intros t k j Q Ei T Hr Hl Hj Hcan HN HS; cbn [dirlookup_loop].
  { apply wp_ret. by apply HN. }
  destruct (dir_length _ _ Hdir) as [Hm _]. fold c in Hm. pose proof (length_entries c Hm) as Hlen. fold n in Hlen.
  apply wp_bind. eapply read_entry_wp; [done|done|done|lia|]. intros t1 k1 Q1 K1 T1. rewrite Z.eqb_refl. cbn [negb].
  set (de := dirent c (sizeof_dirent * Z.of_nat j)) in *. pose proof (log_mem_inode _ _ K1) as Ei1.
  assert (Hde : length de = 16%nat) by (apply length_dirent; change sizeof_dirent with 16; lia).
  pose proof (dir_from_cons c j m name Hname Hde) as Ec. fold de in Ec.
  assert (Hnext : dir_from c j (S m) !! key name = dir_from c (S j) m !! key name ->
    wp (dirlookup_loop m dp name (sizeof_dirent * Z.of_nat j + sizeof_dirent)) Q t1 k1).
  { intros E. replace (sizeof_dirent * Z.of_nat j + sizeof_dirent) with (sizeof_dirent * Z.of_nat (S j)) by lia.
    rewrite E in Hcan, HN, HS. eapply IH; [by rewrite Ei1|done|by eapply ready_quiet|by rewrite (proj1 Q1)|lia|..].
    - intros inum Hi. eapply can_get_ext; [exact Ei1|by apply Hcan].
    - intros t' k' Q' K' T' E'. apply HN; [by etrans|by etrans|done|done].
    - intros t' k' ip f x inum Q' K' T' Hx He E' Hip G. rewrite Ei1 in G. eapply HS; [by etrans|by etrans|done|lia|done|done|done|done]. }
  destruct (de_inum de =? 0) eqn:E0; [by apply Hnext|].
  destruct (Z.eqb_spec (namecmp name (de_name de)) 0) as [E1|E1]; [|by apply Hnext].
  apply wp_bind, wp_get. rewrite Ei1, Ei, Hdv. apply wp_bind. eapply iget_wp; [by rewrite (proj1 Q1)| |].
  { eapply can_get_ext; [exact Ei1|]. by apply Hcan. }
  intros ip f Hip G. apply wp_ret. rewrite Ei1 in G. eapply HS; [done|done|done|lia| |exact Ec|done|done]. fold de.
  unfold entry_of. rewrite E0. apply namecmp_zero in E1; [by rewrite E1|done|].
  unfold de_name. change DIRSIZ with 14. rewrite length_slice; [done|lia..].
Qed.

Lemma dirlookup_wp t k (Q : option (Z * Z) -> tctx -> K -> Prop) :
  ks_inode k dp = i -> at_rest k d -> ready pid t -> itable_lock ∉ t_held t ->
  (forall inum, dir_map c !! key name = Some inum -> can_get k dev inum) ->
  (forall t' k', quiet t t' -> only_log_mem k k' -> at_rest k' d -> dir_map c !! key name = None -> Q None t' k') ->
  (forall t' k' ip f x inum, quiet t t' -> only_log_mem k k' -> at_rest k' d -> (x < n)%nat ->
    entry_of (dirent c (sizeof_dirent * Z.of_nat x)) = Some (key name, inum) ->
    dir_map c !! key name = Some inum -> 0 <= ip < NINODE -> got dev inum (ks_inode k ip) (f (ks_inode k ip)) ->
    Q (Some (ip, sizeof_dirent * Z.of_nat x)) t' (upd_inode ip f k')) ->
  wp (dirlookup dp name) Q t k.
Proof using Hdev Hdir Hdv Hname.
  intros Ei T Hr Hl Hcan HN HS. unfold dirlookup. apply wp_bind, wp_get. rewrite Ei, (id_type _ _ Hdir). cbn [negb Z.eqb T_DIR].
  destruct (dir_length _ _ Hdir) as [_ En]. rewrite En. fold c n.
  eapply (dirlookup_loop_wp n t k 0); [done|done|done|done|done|exact Hcan|exact HN|].
  intros t' k' ip f x inum Q' K' T' Hx. by apply HS; [..|lia].
Qed.

(** The place for a new entry: an empty entry, or the end. *)
Definition free_entry (j : nat) : Prop :=
  j = n \/ (j < n)%nat /\ de_inum (dirent c (sizeof_dirent * Z.of_nat j)) = 0.

Lemma dirlink_scan_wp m : forall t k j (Q : Z -> tctx -> K -> Prop),
  ks_inode k dp = i -> at_rest k d -> ready pid t -> (j + m = n)%nat ->
  (forall t' k' x, quiet t t' -> only_log_mem k k' -> at_rest k' d -> free_entry x -> Q (sizeof_dirent * Z.of_nat x) t' k') ->
  wp (dirlink_scan m dp (sizeof_dirent * Z.of_nat j)) Q t k.
Proof using Hdev Hdir Hdv.
  induction m as [|m IH]; intros t k j Q Ei T Hr Hj HQ; cbn [dirlink_scan].
  { apply wp_ret. apply HQ; [done|done|done|]. left. lia. }
  apply wp_bind. eapply read_entry_wp; [done|done|done|lia|]. intros t1 k1 Q1 K1 T1. rewrite Z.eqb_refl. cbn [negb].
  destruct (Z.eqb_spec (de_inum (dirent c (sizeof_dirent * Z.of_nat j))) 0) as [E|E].
  - apply wp_ret. apply HQ; [done|done|done|]. right. split; [lia|done].
  - replace (sizeof_dirent * Z.of_nat j + sizeof_dirent) with (sizeof_dirent * Z.of_nat (S j)) by lia.
    eapply IH; [by rewrite (log_mem_inode _ _ K1)|done|by eapply ready_quiet|lia|].
    intros t' k' x Q' K' T' Hx. apply HQ; [by etrans|by etrans|done|done].
Qed.
End scan.
End lookup.

(** ** dirlink *)

Section link_wp.
Context `{KernelLayout} {C : Type} `{BlockCache C} (dev pid : Z).
Hypothesis Hdev : dev <> 0.
Context (sb : superblock) (start : Z).
Hypothesis G : geometry sb start.
Local Abbreviation K := (kernel C).
Local Abbreviation fsx := (fsx dev pid sb start).
Implicit Types (t : tctx) (k : K) (d : tdisk).

Lemma fsx_log_mem k k' d : fsx k d -> only_log_mem k k' -> ktx dev pid k' d -> fsx k' d.
Proof using.
  intros ((_ & Es & El & Eo) & Hl & Hu) (s & m & -> & (E & E' & _)) T. split; [split; [exact T|]|done]. split; [exact Es|]. split; simpl; [by rewrite E|by rewrite E'].
Qed.

(** A directory that is a file of the disk. *)
Definition dir_file (d : tdisk) (i : inode) : Prop := is_file sb d i /\ is_dir (td_view d) i.

(** The entry has been written. *)
Section entered.
Context (k : K) (d : tdisk) (dp : Z) (k' : K) (d' : tdisk) (name : list byte) (inum : Z) (x : nat).
Let i := ks_inode k dp.
Let i' := ks_inode k' dp.
Let c := contents (td_view d) i.
Let c' := contents (td_view d') i'.
Let l := mk_dirent inum (pad_name name).
Hypothesis D : dir_file d i.
Hypothesis Hx : free_entry d i x.
Hypothesis Hname : nul_free name.
Hypothesis Hinum : 0 < inum < 2 ^ 16.

Lemma free_entry_le : (x <= length c / 16)%nat.
Proof using Hx. destruct Hx as [E|[E _]]; [rewrite E; done|by apply Nat.lt_le_incl]. Qed.

Lemma dir_contents : (length c `mod` 16 = 0)%nat.
Proof using D. by apply dir_length, D. Qed.

(** A write of a whole entry or of nothing. *)
Lemma entry_written r : file_written dev pid sb start k d dp l (sizeof_dirent * Z.of_nat x) r k' d' ->
  short_write sb (sizeof_dirent * Z.of_nat x) r sizeof_dirent d' -> 0 <= r <= sizeof_dirent ->
  dir_map c !! key name = None ->
  dir_file d' i' /\ (r = sizeof_dirent /\ dir_map c' = <[key name := inum]> (dir_map c) \/
    r <> sizeof_dirent /\ dir_map c' = dir_map c /\ disk_full sb d').
Proof using D Hx Hname Hinum.
  intros W Hsh Hr Hk. pose proof (fw_contents _ _ _ _ _ _ _ _ _ _ _ _ W) as Ec. fold i i' c c' in Ec.
  pose proof (fw_file _ _ _ _ _ _ _ _ _ _ _ _ W) as F'. fold i' in F'.
  pose proof dir_contents as Hm. pose proof (length_entries c Hm) as Hlen. pose proof free_entry_le as Hle.
  destruct (shape_fields _ _ (fw_shape _ _ _ _ _ _ _ _ _ _ _ _ W)) as (_ & _ & Et & _). fold i i' in Et.
  assert (Hlc : length c' = Z.to_nat (i_size i')) by apply length_fbytes.
  assert (Hsz : (length c' `mod` 16 = 0)%nat -> is_dir (td_view d') i').
  { intros Hd. split; [rewrite Et; apply (proj2 D)|apply F'|apply F'|]. destruct (if_size _ _ _ F') as [H1 _].
    rewrite Hlc in Hd. apply (f_equal Z.of_nat) in Hd. rewrite Nat2Z.inj_mod, Z2Nat.id in Hd by done. exact Hd. }
  assert (Hcase : r = 16 \/ r = 0 /\ disk_full sb d').
  { change sizeof_dirent with 16 in *. destruct (decide (r < 16)) as [Hlt|]; [|left; lia]. destruct (Hsh Hlt) as [Hf Hal].
    right. split; [|done]. change BSIZE with 1024 in Hal. divlia. }
  destruct Hcase as [-> |[-> Hf]].
  - rewrite take_ge in Ec by (unfold l; rewrite length_mk_dirent; lia).
    assert (Hl' : length c' = (16 * Nat.max (length c / 16) (S x))%nat) by (rewrite Ec; apply length_link; done).
    split; [split; [done|]|left; split; [done|rewrite Ec; by apply dir_map_link]].
    apply Hsz. rewrite Hl', Nat.mul_comm. by apply Nat.Div0.mod_mul.
  - assert (E : c' = c).
    { rewrite Ec. unfold write_at. cbn [take app length]. rewrite Nat.add_0_r. apply take_drop. }
    split; [split; [done|]|right; by rewrite E]. apply Hsz. by rewrite E.
Qed.
End entered.

(** The table serves the same inodes while its entries stand for the same ones. *)
Lemma iget_scan_same n : forall k k' a inum e j,
  (forall x, i_ref (ks_inode k' x) = i_ref (ks_inode k x) /\ i_dev (ks_inode k' x) = i_dev (ks_inode k x) /\
    i_inum (ks_inode k' x) = i_inum (ks_inode k x)) ->
  iget_scan k' a inum e j n = iget_scan k a inum e j n.
Proof using.
  induction n as [|n IH]; intros k k' a inum e j E; [done|]. cbn [iget_scan]. destruct (E j) as (-> & -> & ->).
  by rewrite (IH k k').
Qed.

Lemma frame_can_get dp k k' a inum : file_frame dp k k' -> inode_shape (ks_inode k' dp) = inode_shape (ks_inode k dp) ->
  can_get k a inum -> can_get k' a inum.
Proof using.
  intros Fr E. unfold can_get. rewrite (iget_scan_same _ k k'); [done|]. intros x. destruct (decide (x = dp)) as [-> |Hx].
  - destruct (shape_fields _ _ E) as (? & ? & _). apply (f_equal i_ref) in E. done.
  - by rewrite (ff_inode _ _ _ Fr x Hx).
Qed.

(** Taking a reference and dropping it leaves the inodes in use as they were. *)
Lemma get_put_same dv inum ip f k j : got dv inum (ks_inode k ip) (f (ks_inode k ip)) -> 1 <= i_ref (ks_inode k j) ->
  let k1 := upd_inode ip f k in
  ks_inode (upd_inode ip (set_i_ref (i_ref (ks_inode k1 ip) - 1)) k1) j = ks_inode k j.
Proof using.
  intros Gt Hj k1. simpl. destruct (decide (j = ip)) as [-> |Hn]; [|by rewrite !upd_other].
  rewrite !upd_same, (gt_kept _ _ _ _ Gt) by lia. destruct (ks_inode k ip). unfold set_i_ref. simpl. f_equal. lia.
Qed.

Section dirlink.
Context (k : K) (d : tdisk) (dp : Z) (name : list byte) (inum : Z).
Let i := ks_inode k dp.
Let m := dir_map (contents (td_view d) i).

(** What [dirlink] returns and leaves. *)
Record linked (r : Z) (k' : K) (d' : tdisk) (m' := dir_map (contents (td_view d') (ks_inode k' dp))) : Prop := {
  lk_fs : fsx k' d';
  lk_dir : dir_file d' (ks_inode k' dp);
  lk_shape : inode_shape (ks_inode k' dp) = inode_shape i;
  lk_result : (r = 0 /\ m !! key name = None /\ m' = <[key name := inum]> m /\ (forall n, can_get k dev n -> can_get k' dev n)) \/
    (r = -1 /\ m' = m /\ (is_Some (m !! key name) \/ disk_full sb d' \/ MAXFILE * BSIZE < i_size i + sizeof_dirent))
}.

Hypothesis T : fsx k d.
Hypothesis D : dir_file d i.
Hypothesis Hdv : i_dev i = dev.
Hypothesis Href : 1 <= i_ref i.
Hypothesis Hname : nul_free name.

(** The name is there already. *)
Lemma dirlink_exists_wp t k1 ip f n (Q : Z -> tctx -> K -> Prop) :
  itable_lock ∉ t_held t -> only_log_mem k k1 -> ktx dev pid k1 d -> m !! key name = Some n ->
  got dev n (ks_inode k ip) (f (ks_inode k ip)) -> (forall k', linked (-1) k' d -> Q (-1) t k') ->
  wp (iput ip;; mret (-1)) Q t (upd_inode ip f k1).
Proof using T D Href.
  intros Hl K1 T1 Hk Gt HQ. pose proof (log_mem_inode _ _ K1) as Ei. rewrite <-Ei in Gt.
  apply wp_bind, iput_drop_wp; [done| |].
  { simpl. rewrite upd_same. intros [E1 E2]. apply E2, (gt_fresh _ _ _ _ Gt). pose proof (gt_ref _ _ _ _ Gt). lia. }
  apply wp_ret, HQ. pose proof (get_put_same _ _ _ _ _ dp Gt) as E. rewrite Ei in E. specialize (E Href). cbv zeta in E. fold i in E.
  split; rewrite ?E; [apply fsx_upd, fsx_upd; by eapply fsx_log_mem|done|done|]. right. split_and!; [done|done|left; by rewrite Hk].
Qed.

Hypothesis Hinum : 0 < inum < 2 ^ 16.
Hypothesis Hs : slack sb 4 d.

Lemma turns_entry x : turns (sizeof_dirent * Z.of_nat x) sizeof_dirent = 1%nat.
Proof using. unfold turns. change sizeof_dirent with 16. change BSIZE with 1024. rewrite decide_False by lia. divlia. Qed.

(** The name is new. *)
Lemma dirlink_enter_wp t k1 x (Q : Z -> tctx -> K -> Prop) :
  ready pid t -> only_log_mem k k1 -> ktx dev pid k1 d -> free_entry d i x -> m !! key name = None ->
  (forall r t' k' d', quiet t t' -> linked r k' d' -> slack sb 1 d' -> Q r t' k') ->
  wp (r ← writei dp (Local (mk_dirent inum (pad_name name))) (sizeof_dirent * Z.of_nat x) sizeof_dirent;
      if negb (r =? sizeof_dirent) then mret (-1) else mret 0) Q t k1.
Proof using Hdev G T D Hdv Hname Hinum Hs.
  intros Hr K1 T1 Hx Hk HQ. pose proof (log_mem_inode _ _ K1) as Ei. apply wp_bind.
  set (l := mk_dirent inum (pad_name name)). pose proof (length_mk_dirent inum name) as Hl. fold l in Hl.
  assert (El : Z.of_nat (length l) = sizeof_dirent) by (by rewrite Hl). destruct D as [Df Dd].
  assert (Hsz : i_size i = 16 * Z.of_nat (length (contents (td_view d) i) / 16)).
  { destruct (dir_length _ _ Dd) as [Hm _]. pose proof (length_entries _ Hm) as Hlen. destruct (id_size _ _ Dd) as [? _].
    unfold contents in Hlen. rewrite length_fbytes in Hlen. unfold contents. rewrite length_fbytes. lia. }
  assert (Hxs : sizeof_dirent * Z.of_nat x <= i_size i).
  { rewrite Hsz. change sizeof_dirent with 16. destruct Hx as [-> |[? _]]; lia. }
  destruct (id_size _ _ Dd) as [_ Hmax]. change (MAXFILE * BSIZE) with 274432 in Hmax.
  rewrite <-El. eapply (writei_wp dev pid Hdev sb start G (Local l) l (fun _ _ _ => True) t k1 d dp _ 1);
    rewrite ?Ei; try done; [apply local_source|by eapply fsx_log_mem|lia|rewrite El; done| | |].
  - rewrite El, turns_entry. eapply slack_le; [exact Hs|]. unfold indirect_cost. case_decide; lia.
  - fold i. rewrite El. intros [E%Z.ltb_lt|E%Z.ltb_lt]%orb_true_iff; [lia|]. apply wp_ret.
    apply (HQ (-1) t k1 d); [done| |eapply slack_le; [exact Hs|lia]].
    split; rewrite ?Ei; [by eapply fsx_log_mem|done|done|]. right. split_and!; [done|done|]. right; right. fold i. lia.
  - rewrite El. intros r t' k' d' Q' _ _ Hr' Hsh W S'. fold i in W. 
    assert (Dk : dir_file d (ks_inode k1 dp)) by (by rewrite Ei).
    destruct (entry_written k1 d dp k' d' name inum x Dk ltac:(by rewrite Ei) Hname Hinum r W Hsh Hr' ltac:(by rewrite Ei)) as [D' Hres].
    assert (Lk : forall z, (z = 0 /\ r = sizeof_dirent \/ z = -1 /\ r <> sizeof_dirent) -> linked z k' d').
    { intros z Hz. split; [apply W|done|rewrite (fw_shape _ _ _ _ _ _ _ _ _ _ _ _ W); by rewrite Ei|].
      rewrite Ei in Hres. fold i in Hres. fold m in Hres. destruct Hz as [[-> Ez]|[-> Ez]], Hres as [[? Em]|(? & Em & Hf)]; try done.
      - left. split_and!; [done|done|done|]. intros a Ha. eapply (frame_can_get dp k1); [apply W|apply W|]. eapply can_get_ext; [exact Ei|done].
      - right. split_and!; [done|done|]. by right; left. }
    destruct (Z.eqb_spec r sizeof_dirent) as [E|E]; cbn [negb]; apply wp_ret; (eapply HQ; [exact Q'| |exact S']); apply Lk; auto.
Qed.

Lemma dirlink_wp t (Q : Z -> tctx -> K -> Prop) :
  ready pid t -> itable_lock ∉ t_held t -> (forall n, m !! key name = Some n -> can_get k dev n) ->
  (forall r t' k' d', quiet t t' -> linked r k' d' -> slack sb 1 d' -> Q r t' k') ->
  wp (dirlink dp name inum) Q t k.
Proof using Hdev G T D Hdv Href Hname Hinum Hs.
  intros Hr Hl Hcan HQ. destruct (D) as [Df Dd]. unfold dirlink. apply wp_bind.
  assert (R : at_rest dev pid k d) by (split_and!; [apply T|apply T|eapply slack_spare, slack_le; [exact Hs|lia]]).
  eapply (dirlookup_wp dev pid Hdev dp d i name Dd Hdv Hname t k); [done|done|done|done|exact Hcan|..].
  - intros t1 k1 Q1 K1 R1 Hk. apply wp_bind, wp_get. apply wp_bind. rewrite (log_mem_inode _ _ K1). fold i.
    destruct (dir_length _ _ Dd) as [_ En]. rewrite En.
    eapply (dirlink_scan_wp dev pid Hdev dp d i Dd Hdv _ t1 k1 0); [by rewrite (log_mem_inode _ _ K1)|done|by eapply ready_quiet|done|].
    intros t2 k2 x Q2 K2 R2 Hx. eapply (dirlink_enter_wp t2 k2 x); [by do 2 (eapply ready_quiet; [eassumption|])|by etrans|apply R2|done|done|].
    intros r t' k' d' Q' Lk S'. eapply HQ; [|exact Lk|exact S']. by do 2 (etrans; [eassumption|]).
  - intros t1 k1 ip f x n Q1 K1 R1 Hx He Hk Hip Gt. eapply (dirlink_exists_wp t1 k1 ip f n); [by rewrite (proj1 Q1)|done|apply R1|exact Hk|exact Gt|].
    intros k' Lk. eapply HQ; [exact Q1|exact Lk|eapply slack_le; [exact Hs|lia]].
Qed.
End dirlink.
End link_wp.
