(* ===== verification/Mkfs.v ===== *)
(** * Mkfs: the file system builder, mkfs/mkfs.c

    The image is a sequence of blocks.  [None] is a failed assertion or [die]:
    reading a block that the image does not have yet is an error.  A file given
    on the command line is its name and the pieces of its contents that [read]
    returns.  Numbers are stored in RISC-V byte order ([xshort], [xint]) by the
    little-endian fields of Layout. *)

From S2P Require Import Prelude Riscv Sleeplock Layout Bio BioSpec Log Kernel Fs FsBlock.

Definition NINODES : Z := 200.
Definition FSSIZE : Z := 2000.
Definition nbitmap : Z := FSSIZE / BPB + 1.
Definition ninodeblocks : Z := NINODES / IPB + 1.
Definition nlog : Z := LOGBLOCKS + 1.
Definition nmeta : Z := 2 + nlog + ninodeblocks + nbitmap.
Definition nblocks : Z := FSSIZE - nmeta.

Definition sb : superblock :=
  {| sb_magic := FSMAGIC; sb_size := FSSIZE; sb_nblocks := nblocks; sb_ninodes := NINODES; sb_nlog := nlog; sb_logstart := 2;
     sb_inodestart := 2 + nlog; sb_bmapstart := 2 + nlog + ninodeblocks |}.

(** The bytes of struct superblock. *)
Definition sb_bytes : list byte :=
  let l := replicate 32 (chr 0) in
  let l := wr32 l 0 (sb_magic sb) in
  let l := wr32 l 4 (sb_size sb) in
  let l := wr32 l 8 (sb_nblocks sb) in
  let l := wr32 l 12 (sb_ninodes sb) in
  let l := wr32 l 16 (sb_nlog sb) in
  let l := wr32 l 20 (sb_logstart sb) in
  let l := wr32 l 24 (sb_inodestart sb) in
  wr32 l 28 (sb_bmapstart sb).

(** The image, the number of blocks it has, and the counters. *)
Record image := { m_disk : Z -> block; m_len : Z; m_freeinode : Z; m_freeblock : Z }.

Definition wsect (sec : Z) (buf : block) (m : image) : image :=
  {| m_disk := <[sec := buf]> (m_disk m); m_len := Z.max (m_len m) (sec + 1); m_freeinode := m_freeinode m;
     m_freeblock := m_freeblock m |}.
Definition rsect (sec : Z) (m : image) : option block := if sec <? m_len m then Some (m_disk m sec) else None.

Definition set_freeinode (x : Z) (m : image) : image :=
  {| m_disk := m_disk m; m_len := m_len m; m_freeinode := x; m_freeblock := m_freeblock m |}.
Definition set_freeblock (x : Z) (m : image) : image :=
  {| m_disk := m_disk m; m_len := m_len m; m_freeinode := m_freeinode m; m_freeblock := x |}.

(** A struct dinode is its 64 bytes. *)
Definition winode (inum : Z) (ip : list byte) (m : image) : option image :=
  let bn := IBLOCK inum sb in
  buf ← rsect bn m;
  Some (wsect bn (splice buf (sizeof_dinode * (inum mod IPB)) ip) m).

Definition rinode (inum : Z) (m : image) : option (list byte) :=
  let bn := IBLOCK inum sb in
  buf ← rsect bn m;
  Some (slice buf (sizeof_dinode * (inum mod IPB)) sizeof_dinode).

Definition ialloc (type : Z) (m : image) : option (Z * image) :=
  let inum := m_freeinode m in
  let m := set_freeinode (inum + 1) m in
  let din := replicate (Z.to_nat sizeof_dinode) (chr 0) in
  let din := wr16 din 0 type in
  let din := wr16 din 6 1 in
  let din := wr32 din 8 0 in
  m ← winode inum din m;
  Some (inum, m).

(** The loop of [balloc]: the bits from [i] on. *)
Fixpoint mark (buf : block) (i : Z) (n : nat) : block :=
  match n with
  | O => buf
  | S n => mark (set_bit buf i) (i + 1) n
  end.

Definition balloc (used : Z) (m : image) : option image :=
  if used <? BPB then Some (wsect (sb_bmapstart sb) (mark zero_block 0 (Z.to_nat used)) m) else None.

(** The block for block [fbn] of the file, which is allocated when there is none. *)
Definition iappend_block (fbn : Z) (din : list byte) (m : image) : option (Z * list byte * image) :=
  if fbn <? NDIRECT then
    let '(din, m) :=
      if di_addr din 0 fbn =? 0 then
        (wr32 din (12 + 4 * fbn) (m_freeblock m), set_freeblock (m_freeblock m + 1) m)
      else (din, m) in
    Some (di_addr din 0 fbn, din, m)
  else
    let '(din, m) :=
      if di_addr din 0 NDIRECT =? 0 then
        (wr32 din (12 + 4 * NDIRECT) (m_freeblock m), set_freeblock (m_freeblock m + 1) m)
      else (din, m) in
    indirect ← rsect (di_addr din 0 NDIRECT) m;
    let '(indirect, m) :=
      if rd32 indirect (4 * (fbn - NDIRECT)) =? 0 then
        let indirect := wr32 indirect (4 * (fbn - NDIRECT)) (m_freeblock m) in
        (indirect, wsect (di_addr din 0 NDIRECT) indirect (set_freeblock (m_freeblock m + 1) m))
      else (indirect, m) in
    Some (rd32 indirect (4 * (fbn - NDIRECT)), din, m).

(** The loop of [iappend]; each turn copies a byte at least. *)
Fixpoint iappend_loop (fuel : nat) (p : list byte) (off : Z) (din : list byte) (m : image) : option (Z * list byte * image) :=
  match fuel with
  | O => None
  | S fuel =>
      let n := Z.of_nat (length p) in
      if 0 <? n then
        let fbn := off / BSIZE in
        if negb (fbn <? MAXFILE) then None
        else
          '(x, din, m) ← iappend_block fbn din m;
          let n1 := Z.min n ((fbn + 1) * BSIZE - off) in
          buf ← rsect x m;
          iappend_loop fuel (drop (Z.to_nat n1) p) (off + n1) din
            (wsect x (splice buf (off - fbn * BSIZE) (take (Z.to_nat n1) p)) m)
      else Some (off, din, m)
  end.

Definition iappend (inum : Z) (p : list byte) (m : image) : option image :=
  din ← rinode inum m;
  '(off, din, m) ← iappend_loop (S (length p)) p (di_size din 0) din m;
  winode inum (wr32 din 8 off) m.

(** A directory entry with this name. *)
Definition enter (rootino inum : Z) (name : list byte) (m : image) : option image :=
  iappend rootino (mk_dirent inum (pad_name name)) m.

(** The name of a file in the image: without a leading "user/" and "_". *)
Definition short_name (arg : list byte) : option (list byte) :=
  let s := if lstrncmp arg (bytes_of "user/") 5 =? 0 then drop 5 arg else arg in
  if decide (slash ∈ s) then None
  else
    let s := match s with c :: s' => if decide (c = chr 95) then s' else s | [] => [] end in
    if Z.of_nat (length s) <=? DIRSIZ then Some s else None.

Fixpoint append_all (inum : Z) (pieces : list (list byte)) (m : image) : option image :=
  match pieces with
  | [] => Some m
  | p :: pieces => m ← iappend inum p m; append_all inum pieces m
  end.

Fixpoint add_files (rootino : Z) (files : list (list byte * list (list byte))) (m : image) : option image :=
  match files with
  | [] => Some m
  | (arg, pieces) :: files =>
      name ← short_name arg;
      '(inum, m) ← ialloc T_FILE m;
      m ← enter rootino inum name m;
      m ← append_all inum pieces m;
      add_files rootino files m
  end.

(** [for(i = 0; i < FSSIZE; i++) wsect(i, zeroes)] *)
Fixpoint clear (i : Z) (n : nat) (m : image) : image :=
  match n with
  | O => m
  | S n => clear (i + 1) n (wsect i zero_block m)
  end.

Definition main (files : list (list byte * list (list byte))) : option image :=
  let m := {| m_disk := fun _ => zero_block; m_len := 0; m_freeinode := 1; m_freeblock := nmeta |} in
  let m := clear 0 (Z.to_nat FSSIZE) m in
  let m := wsect 1 (splice zero_block 0 sb_bytes) m in
  '(rootino, m) ← ialloc T_DIR m;
  if negb (rootino =? ROOTINO) then None
  else
    m ← enter rootino rootino (bytes_of ".") m;
    m ← enter rootino rootino (bytes_of "..") m;
    m ← add_files rootino files m;
    din ← rinode rootino m;
    let off := (di_size din 0 / BSIZE + 1) * BSIZE in
    m ← winode rootino (wr32 din 8 off) m;
    balloc (m_freeblock m) m.
