(* ===== verification/MkfsSpec.v ===== *)
(** * MkfsSpec: the image that mkfs builds is a file system the kernel can use

    The image has the layout of its superblock, the free map has the blocks up
    to the first free one, and every inode is a file in the sense of the kernel's
    own invariant, with the contents it was given.  Inside the proof the free map
    that [balloc] writes at the end is taken to be there all the time ([view]). *)

From Stdlib Require Import FunctionalExtensionality.
From S2P Require Import Prelude Riscv Sleeplock Layout Bio BioSpec Log LogSpec LogAtomic Tx LogTheorems Kernel Fs FsBlock.
From S2P Require Import FsFile FsData FsWrite FsDir Mkfs.

Lemma mkfs_geometry : geometry sb 2.
Proof. by split. Qed.

Local Abbreviation G := mkfs_geometry.

(** ** The free map *)

Lemma length_mark n : forall buf i, length (mark buf i n) = length buf.
Proof. induction n as [|n IH]; intros buf i; simpl; [done|]. rewrite IH. apply length_insert. Qed.

Lemma mark_bits n : forall buf i j, length buf = Z.to_nat BSIZE -> 0 <= i -> i + Z.of_nat n <= BPB -> 0 <= j < BPB ->
  bit_used (mark buf i n) j = if decide (i <= j < i + Z.of_nat n) then true else bit_used buf j.
Proof.
  induction n as [|n IH]; intros buf i j Hl Hi Hn Hj; cbn [mark]; [by rewrite decide_False by lia|].
  assert (Hb : i / 8 < Z.of_nat (length buf)) by (rewrite Hl; change BPB with 8192 in *; change (Z.of_nat (Z.to_nat BSIZE)) with 1024; divlia).
  rewrite IH; [|by unfold set_bit; rewrite length_insert|lia|lia|done]. rewrite bit_used_set by lia. repeat case_decide; try done; lia.
Qed.

Lemma bit_used_zero j : 0 <= j < BPB -> bit_used zero_block j = false.
Proof.
  intros Hj. rewrite bit_used_eq. unfold bit_byte, zero_block. change BPB with 8192 in Hj. change BSIZE with 1024.
  rewrite nth_lookup, lookup_replicate_2 by divlia. apply Z.testbit_0_l.
Qed.

Definition free_map (fb : Z) : block := mark zero_block 0 (Z.to_nat fb).

(** The image as if [balloc] had been called. *)
Definition view (m : image) : Z -> block := <[sb_bmapstart sb := free_map (m_freeblock m)]> (m_disk m).

Lemma view_disk m b : b <> sb_bmapstart sb -> view m b = m_disk m b.
Proof. intros Hb. unfold view. by rewrite upd_other by congruence. Qed.

Lemma used_view m b : 0 <= m_freeblock m <= BPB -> 0 <= b < sb_size sb -> used sb (view m) b = (b <? m_freeblock m).
Proof.
  intros Hf Hb. unfold used. assert (E : BBLOCK b sb = sb_bmapstart sb).
  { rewrite (BBLOCK_eq sb 2 G) by done. change (sb_size sb) with 2000 in Hb. change BPB with 8192. rewrite Z.div_small by lia. done. }
  assert (Em : b mod BPB = b) by (apply Z.mod_small; change (sb_size sb) with 2000 in Hb; change BPB with 8192; lia).
  rewrite E, Em. unfold view. rewrite upd_same. unfold free_map. change (sb_size sb) with 2000 in Hb.
  rewrite mark_bits; [|done|lia|lia|change BPB with 8192; lia]. rewrite bit_used_zero by (change BPB with 8192; lia).
  destruct (Z.ltb_spec b (m_freeblock m)); [by rewrite decide_True by lia|by rewrite decide_False by lia].
Qed.

Lemma view_wsect m sec buf : sec <> sb_bmapstart sb -> view (wsect sec buf m) = <[sec := buf]> (view m).
Proof.
  intros Hs. apply functional_extensionality. intros b. unfold view. cbn [wsect m_disk m_freeblock]. rewrite !upd_eq. repeat case_decide; congruence.
Qed.

(** ** An image under construction *)

Record mk_ok (m : image) : Prop := {
  mo_length : forall b, length (m_disk m b) = Z.to_nat BSIZE;
  mo_len : m_len m = FSSIZE;
  mo_free : nmeta <= m_freeblock m <= FSSIZE;
  mo_zero : forall b, m_freeblock m <= b -> m_disk m b = zero_block
}.

Lemma mk_ok_used m b : mk_ok m -> 0 <= b < sb_size sb -> used sb (view m) b = (b <? m_freeblock m).
Proof.
  intros Ho Hb. apply used_view; [|done]. pose proof (mo_free _ Ho). change nmeta with 47 in *. change FSSIZE with 2000 in *.
  change BPB with 8192. lia.
Qed.

Lemma rsect_ok m b : mk_ok m -> b < FSSIZE -> rsect b m = Some (m_disk m b).
Proof. intros Ho Hb. unfold rsect. rewrite (mo_len _ Ho). by rewrite (proj2 (Z.ltb_lt _ _)) by done. Qed.

Lemma wsect_ok m b buf : mk_ok m -> b < m_freeblock m -> length buf = Z.to_nat BSIZE -> mk_ok (wsect b buf m).
Proof.
  intros [Hl Hn Hf Hz] Hb Hbuf. split; simpl; [|rewrite Hn; change FSSIZE with 2000 in *; lia|done|].
  - intros x. rewrite upd_eq. by case_decide.
  - intros x Hx. rewrite upd_other by lia. by apply Hz.
Qed.

Lemma set_freeblock_ok m : mk_ok m -> m_freeblock m < FSSIZE -> mk_ok (set_freeblock (m_freeblock m + 1) m).
Proof. intros [Hl Hn Hf Hz] Hb. split; simpl; [done|done|lia|]. intros x Hx. apply Hz. lia. Qed.

(** ** The inode in memory *)

Definition no_inode (inum : Z) : inode :=
  {| i_dev := ROOTDEV; i_inum := inum; i_ref := 1; i_lock := initsleeplock; i_valid := 1; i_type := 0; i_major := 0; i_minor := 0;
     i_nlink := 0; i_size := 0; i_addrs := fun _ => 0 |}.

(** The inode that a struct dinode stands for. *)
Definition ino (inum : Z) (din : list byte) : inode := get_dinode din 0 (no_inode inum).

Lemma ino_addrs inum din x : 0 <= x <= NDIRECT -> i_addrs (ino inum din) x = di_addr din 0 x.
Proof. intros Hx. simpl. unfold get_addrs. by rewrite decide_True. Qed.

Lemma di_addr_write din j a x : length din = 64%nat -> 0 <= j <= NDIRECT -> 0 <= x <= NDIRECT -> 0 <= a < 2 ^ 32 ->
  di_addr (wr32 din (12 + 4 * j) a) 0 x = if decide (j = x) then a else di_addr din 0 x.
Proof.
  intros Hl Hj Hx Ha. change NDIRECT with 12 in *. unfold di_addr. case_decide as E.
  - subst. rewrite rdn_wrn by lia. apply Z.mod_small. simpl. lia.
  - apply rdn_wrn_other; lia.
Qed.

Section inode.
Context (inum : Z).
Local Abbreviation addr m din := (addr_of (view m) (ino inum din)).

(** The block map of the inode has kept its blocks and got more. *)
Record grows (m : image) (din : list byte) (m' : image) (din' : list byte) : Prop := {
  gr_ok : mk_ok m';
  gr_len : length din' = 64%nat;
  gr_head : slice din' 0 12 = slice din 0 12;
  gr_file : file_ok sb (view m') (ino inum din');
  gr_ev : evolves sb (view m) (ino inum din) (view m') (ino inum din');
  gr_data : forall bn, in_file bn -> addr m din bn <> 0 -> view m' (addr m din bn) = view m (addr m din bn);
  gr_inodes : m_freeinode m' = m_freeinode m
}.

Lemma image_grows_refl m din : mk_ok m -> length din = 64%nat -> file_ok sb (view m) (ino inum din) -> grows m din m din.
Proof. intros Ho Hl F. split; try done. apply evolves_refl. Qed.

Lemma image_grows_trans m1 d1 m2 d2 m3 d3 : grows m1 d1 m2 d2 -> grows m2 d2 m3 d3 -> grows m1 d1 m3 d3.
Proof.
  intros [O1 L1 H1 F1 E1 D1 I1] [O2 L2 H2 F2 E2 D2 I2]. split; try done; [congruence|by eapply evolves_trans| |congruence].
  intros bn Hb Ha. rewrite <-D1 by done. pose proof (ev_addr _ _ _ _ _ E1 bn Hb Ha) as Ea. rewrite <-Ea. apply D2; [done|congruence].
Qed.

Section alloc.
Context (m : image) (din : list byte).
Hypothesis Ho : mk_ok m.
Hypothesis Hlen : length din = 64%nat.
Hypothesis F : file_ok sb (view m) (ino inum din).
Hypothesis Hfb : m_freeblock m < FSSIZE.
Let r := m_freeblock m.

Lemma fresh_range : data_start sb <= r < sb_size sb /\ used sb (view m) r = false /\ 0 <= r < 2 ^ 32.
Proof.
  pose proof (mo_free _ Ho) as Hf. change nmeta with 47 in Hf. change FSSIZE with 2000 in *. fold r in Hf, Hfb.
  change (data_start sb) with 47. change (sb_size sb) with 2000. split_and!; [lia|lia| |lia|lia].
  rewrite mk_ok_used by (done || (change (sb_size sb) with 2000; lia)). apply Z.ltb_ge. done.
Qed.

Lemma used_next m' b : mk_ok m' -> m_freeblock m' = r + 1 -> 0 <= b < sb_size sb ->
  used sb (view m') b = if decide (r = b) then true else used sb (view m) b.
Proof.
  intros Ho' E Hb. rewrite !mk_ok_used by done. rewrite E. fold r. case_decide as Hr.
  - apply Z.ltb_lt. lia.
  - destruct (Z.ltb_spec b r), (Z.ltb_spec b (r + 1)); try done; lia.
Qed.

(** A block of the file is not the free map. *)
Lemma indirect_range : i_addrs (ino inum din) NDIRECT <> 0 ->
  data_start sb <= i_addrs (ino inum din) NDIRECT < r /\ i_addrs (ino inum din) NDIRECT <> sb_bmapstart sb.
Proof.
  intros Hi. destruct (fi_data _ _ _ F (i_addrs (ino inum din) NDIRECT)) as [Hd Hu]; [split; [done|by left]|].
  assert (0 <= data_start sb) by done. rewrite mk_ok_used in Hu by (done || lia). apply Z.ltb_lt in Hu. fold r in Hu.
  split; [lia|]. change (data_start sb) with 47 in Hd. change (sb_bmapstart sb) with 46. lia.
Qed.

Lemma head_write j a : 0 <= j <= NDIRECT -> length (wr32 din (12 + 4 * j) a) = 64%nat /\ slice (wr32 din (12 + 4 * j) a) 0 12 = slice din 0 12.
Proof.
  intros Hj. change NDIRECT with 12 in Hj. split; [rewrite length_wrn; [done|lia..]|]. apply slice_wrn_other; lia.
Qed.

(** A direct block. *)
Lemma alloc_direct j : 0 <= j < NDIRECT -> di_addr din 0 j = 0 ->
  let m' := set_freeblock (r + 1) m in
  let din' := wr32 din (12 + 4 * j) r in
  grows m din m' din' /\ (forall x, in_file x -> addr m' din' x = if decide (j = x) then r else addr m din x) /\
  i_addrs (ino inum din') NDIRECT = i_addrs (ino inum din) NDIRECT.
Proof.
  intros Hj Hz m' din'. destruct fresh_range as (Hr & Hfree & Hr32). assert (HN : NDIRECT = 12) by done.
  destruct (head_write j r ltac:(lia)) as [Hl' Hh']. fold din' in Hl', Hh'.
  assert (Ho' : mk_ok m') by (by apply set_freeblock_ok).
  assert (Ev : forall b, b <> sb_bmapstart sb -> view m' b = view m b) by (intros b Hb; by rewrite !view_disk).
  assert (Ead : forall x, 0 <= x <= NDIRECT -> i_addrs (ino inum din') x = if decide (j = x) then r else i_addrs (ino inum din) x).
  { intros x Hx. rewrite !ino_addrs by done. unfold din'. apply di_addr_write; [done|lia|done|done]. }
  assert (Hind : i_addrs (ino inum din') NDIRECT = i_addrs (ino inum din) NDIRECT) by (rewrite Ead by lia; by rewrite decide_False by lia).
  assert (Haddr : forall x, in_file x -> addr m' din' x = if decide (j = x) then r else addr m din x).
  { intros x [Hx _]. unfold addr_of. destruct (Z.ltb_spec x NDIRECT); [apply Ead; lia|]. rewrite decide_False by lia. rewrite Hind.
    destruct (Z.eqb_spec (i_addrs (ino inum din) NDIRECT) 0); [done|]. rewrite Ev; [done|]. by apply indirect_range. }
  assert (Hused : forall b, 0 <= b < sb_size sb -> used sb (view m') b = if decide (r = b) then true else used sb (view m) b).
  { intros b Hb. by apply used_next. }
  assert (Hbn : in_file j) by (unfold in_file; change MAXFILE with 268; lia).
  assert (Hnone : addr m din j = 0).
  { unfold addr_of. rewrite (proj2 (Z.ltb_lt _ _)) by lia. rewrite ino_addrs by lia. done. }
  split_and!; [|done|done]. split; try done.
  - eapply (file_ok_entry sb 2 G (view m) _ r F Hr Hfree); [exact Hused|exact Hbn|exact Hnone|exact Haddr|exact Hind].
  - eapply (evolves_entry sb 2 G (view m) _ r F Hr Hfree); [exact Hused| |exact Hbn|exact Hnone|exact Haddr|exact Hind].
    intros b _ _ Hb _. apply Ev. change (data_start sb) with 47 in Hb. change (sb_bmapstart sb) with 46 in *. lia.
  - intros bn Hb Ha. apply Ev. destruct (fi_data _ _ _ F (addr m din bn)) as [Hd _]; [split; [done|right; by exists bn]|].
    change (data_start sb) with 47 in Hd. change (sb_bmapstart sb) with 46. lia.
Qed.

(** The indirect block. *)
Lemma append_indirect : di_addr din 0 NDIRECT = 0 ->
  let m' := set_freeblock (r + 1) m in
  let din' := wr32 din (12 + 4 * NDIRECT) r in
  grows m din m' din' /\ (forall x, in_file x -> addr m' din' x = addr m din x) /\ i_addrs (ino inum din') NDIRECT = r.
Proof.
  intros Hz m' din'. destruct fresh_range as (Hr & Hfree & Hr32). assert (HN : NDIRECT = 12) by done.
  destruct (head_write NDIRECT r ltac:(lia)) as [Hl' Hh']. fold din' in Hl', Hh'.
  assert (Ho' : mk_ok m') by (by apply set_freeblock_ok).
  assert (Ev : forall b, b <> sb_bmapstart sb -> view m' b = view m b) by (intros b Hb; by rewrite !view_disk).
  assert (Hrm : r <> sb_bmapstart sb) by (change (data_start sb) with 47 in Hr; change (sb_bmapstart sb) with 46; lia).
  assert (Ead : forall x, 0 <= x <= NDIRECT -> i_addrs (ino inum din') x = if decide (NDIRECT = x) then r else i_addrs (ino inum din) x).
  { intros x Hx. rewrite !ino_addrs by done. unfold din'. apply di_addr_write; [done|lia|done|done]. }
  assert (Hind : i_addrs (ino inum din') NDIRECT = r) by (rewrite Ead by lia; by rewrite decide_True).
  assert (Hind0 : i_addrs (ino inum din) NDIRECT = 0) by (rewrite ino_addrs by lia; done).
  assert (Haddr : forall x, in_file x -> addr m' din' x = addr m din x).
  { intros x [Hx _]. unfold addr_of. destruct (Z.ltb_spec x NDIRECT); [rewrite Ead by lia; by rewrite decide_False by lia|].
    rewrite Hind, Hind0, (proj2 (Z.eqb_neq r 0)) by (change (data_start sb) with 47 in Hr; lia). rewrite view_disk by done.
    change (m_disk m') with (m_disk m). rewrite (mo_zero _ Ho) by (subst r; lia). apply rdn_zero_block. }
  assert (Hused : forall b, 0 <= b < sb_size sb -> used sb (view m') b = if decide (r = b) then true else used sb (view m) b).
  { intros b Hb. by apply used_next. }
  split_and!; [|done|done]. split; try done.
  - eapply (file_ok_indirect sb 2 G (view m) _ r F Hr Hfree); [exact Hused|exact Hind0|exact Haddr|exact Hind].
  - eapply (evolves_indirect sb 2 G (view m) _ r F Hr Hfree); [exact Hused| |exact Hind0|exact Haddr|exact Hind].
    intros b _ _ Hb _. apply Ev. change (data_start sb) with 47 in Hb. change (sb_bmapstart sb) with 46 in *. lia.
  - intros bn Hb Ha. apply Ev. destruct (fi_data _ _ _ F (addr m din bn)) as [Hd _]; [split; [done|right; by exists bn]|].
    change (data_start sb) with 47 in Hd. change (sb_bmapstart sb) with 46. lia.
Qed.

(** A block in the indirect block. *)
Lemma alloc_entry j (ind := i_addrs (ino inum din) NDIRECT) : 0 <= j < NINDIRECT -> ind <> 0 -> rd32 (m_disk m ind) (4 * j) = 0 ->
  let m' := wsect ind (wr32 (m_disk m ind) (4 * j) r) (set_freeblock (r + 1) m) in
  grows m din m' din /\ (forall x, in_file x -> addr m' din x = if decide (j + NDIRECT = x) then r else addr m din x).
Proof.
  intros Hj Hi Hz m'. destruct fresh_range as (Hr & Hfree & Hr32). destruct (indirect_range Hi) as [Hir Him]. fold ind in Hir, Him.
  pose proof (mo_length _ Ho ind) as Hlb. change (Z.to_nat BSIZE) with 1024%nat in Hlb. change NINDIRECT with 256 in Hj.
  assert (Hlw : length (wr32 (m_disk m ind) (4 * j) r) = Z.to_nat BSIZE) by (rewrite length_wrn, Hlb by lia; done).
  assert (Ho' : mk_ok m') by (apply wsect_ok; [by apply set_freeblock_ok|simpl; lia|done]).
  assert (Ev : forall b, b <> sb_bmapstart sb -> b <> ind -> view m' b = view m b).
  { intros b Hb Hbi. rewrite !view_disk by done. unfold m'. simpl. by rewrite upd_other by congruence. }
  assert (Evi : view m' ind = wr32 (m_disk m ind) (4 * j) r) by (rewrite view_disk by done; apply upd_same).
  assert (Haddr : forall x, in_file x -> addr m' din x = if decide (j + NDIRECT = x) then r else addr m din x).
  { intros x [Hx Hx2]. change MAXFILE with 268 in Hx2. change NDIRECT with 12 in *. unfold addr_of. fold ind. change NDIRECT with 12.
    destruct (Z.ltb_spec x 12); [by rewrite decide_False by lia|]. fold ind. rewrite (proj2 (Z.eqb_neq ind 0)) by done.
    rewrite Evi, (view_disk m ind) by done. case_decide as E.
    - replace (4 * (x - 12)) with (4 * j) by lia. rewrite rdn_wrn by lia. apply Z.mod_small. simpl. lia.
    - apply rdn_wrn_other; lia. }
  assert (Hused : forall b, 0 <= b < sb_size sb -> used sb (view m') b = if decide (r = b) then true else used sb (view m) b).
  { intros b Hb. by apply used_next. }
  assert (Hbn : in_file (j + NDIRECT)) by (unfold in_file; change NDIRECT with 12; change MAXFILE with 268; lia).
  assert (Hnone : addr m din (j + NDIRECT) = 0).
  { unfold addr_of. change NDIRECT with 12 in *. rewrite (proj2 (Z.ltb_ge _ _)) by lia. fold ind. rewrite (proj2 (Z.eqb_neq ind 0)) by done.
    rewrite view_disk by done. by replace (j + 12 - 12) with j by lia. }
  split; [|done]. split; try done.
  - eapply (file_ok_entry sb 2 G (view m) _ r F Hr Hfree); [exact Hused|exact Hbn|exact Hnone|exact Haddr|done].
  - eapply (evolves_entry sb 2 G (view m) _ r F Hr Hfree); [exact Hused| |exact Hbn|exact Hnone|exact Haddr|done].
    intros b _ _ Hb Hn. apply Ev; [change (data_start sb) with 47 in Hb; change (sb_bmapstart sb) with 46 in *; lia|].
    intros ->. apply Hn. split; [done|by left].
  - intros bn Hb Ha. apply Ev; [|by apply (fi_indirect _ _ _ F)].
    destruct (fi_data _ _ _ F (addr m din bn)) as [Hd _]; [split; [done|right; by exists bn]|].
    change (data_start sb) with 47 in Hd. change (sb_bmapstart sb) with 46. lia.
Qed.
End alloc.

(** The file has its first [nb] blocks and no others. *)
Definition map_to (m : image) (din : list byte) (nb : Z) : Prop :=
  (forall bn, in_file bn -> addr m din bn <> 0 <-> bn < nb) /\ (i_addrs (ino inum din) NDIRECT <> 0 <-> NDIRECT < nb).

(** The blocks that this takes, the indirect block included. *)
Definition cost (nb : Z) : Z := nb + if NDIRECT <? nb then 1 else 0.

Lemma free_pos m : mk_ok m -> m_freeblock m <> 0.
Proof. intros Ho. pose proof (mo_free _ Ho) as Hf. change nmeta with 47 in Hf. lia. Qed.

Section block.
Context (m : image) (din : list byte) (fbn nb : Z).
Hypothesis Ho : mk_ok m.
Hypothesis Hlen : length din = 64%nat.
Hypothesis F : file_ok sb (view m) (ino inum din).
Hypothesis Hfbn : in_file fbn.
Hypothesis Hmap : map_to m din nb.

(** [iappend] has found or allocated block [fbn]. *)
Record block_at (x : Z) (din' : list byte) (m' : image) : Prop := {
  ba_grows : grows m din m' din';
  ba_addr : x = addr m' din' fbn /\ x <> 0;
  ba_map : map_to m' din' (fbn + 1);
  ba_free : m_freeblock m' = m_freeblock m + (cost (fbn + 1) - cost nb);
  ba_new : nb = fbn -> m_disk m' x = zero_block
}.

Lemma indirect_entry : NDIRECT <= fbn -> i_addrs (ino inum din) NDIRECT <> 0 ->
  rsect (di_addr din 0 NDIRECT) m = Some (m_disk m (di_addr din 0 NDIRECT)) /\
  rd32 (m_disk m (di_addr din 0 NDIRECT)) (4 * (fbn - NDIRECT)) = addr m din fbn.
Proof using Ho Hlen F.
  intros Hge Hi. destruct (indirect_range m din Ho Hlen F Hi) as [Hr Hm]. rewrite ino_addrs in Hi, Hr, Hm by done.
  pose proof (mo_free _ Ho) as Hf. split; [apply rsect_ok; [done|lia]|]. unfold addr_of. rewrite (proj2 (Z.ltb_ge _ _)) by done.
  rewrite ino_addrs, (proj2 (Z.eqb_neq _ _)) by done. by rewrite view_disk by done.
Qed.

Lemma block_present : nb = fbn + 1 -> exists x, iappend_block fbn din m = Some (x, din, m) /\ block_at x din m.
Proof.
  intros En. destruct Hmap as [Ha Hi]. pose proof (proj2 (Ha fbn Hfbn) ltac:(lia)) as Hz. exists (addr m din fbn).
  assert (B : block_at (addr m din fbn) din m) by (split; [by apply image_grows_refl|done|by rewrite <-En|rewrite En; lia|lia]). split; [|exact B].
  unfold iappend_block. destruct (Z.ltb_spec fbn NDIRECT) as [Hlt|Hge].
  - destruct Hfbn as [H0 _]. assert (E : addr m din fbn = di_addr din 0 fbn).
    { unfold addr_of. rewrite (proj2 (Z.ltb_lt _ _)) by done. apply ino_addrs. lia. }
    rewrite E in Hz. rewrite (proj2 (Z.eqb_neq _ _)) by done. by rewrite E.
  - assert (Hind : i_addrs (ino inum din) NDIRECT <> 0) by (apply Hi; lia). destruct (indirect_entry Hge Hind) as [Er Ee].
    rewrite ino_addrs in Hind by done. rewrite (proj2 (Z.eqb_neq _ _)) by done. rewrite Er. cbn [mbind option_bind].
    rewrite Ee, (proj2 (Z.eqb_neq _ _)) by done. by rewrite Ee.
Qed.

Lemma map_next m' din' : (forall x, in_file x -> addr m' din' x = if decide (fbn = x) then m_freeblock m else addr m din x) ->
  m_freeblock m <> 0 -> nb = fbn -> (i_addrs (ino inum din') NDIRECT <> 0 <-> NDIRECT < fbn + 1) -> map_to m' din' (fbn + 1).
Proof.
  intros E Hr En Hi. split; [|done]. intros bn Hb. rewrite E by done. destruct Hmap as [Ha _]. case_decide as Eb.
  - split; [lia|done].
  - rewrite Ha by done. lia.
Qed.

Lemma block_direct : nb = fbn -> fbn < NDIRECT -> m_freeblock m + (cost (fbn + 1) - cost nb) <= FSSIZE ->
  exists x din' m', iappend_block fbn din m = Some (x, din', m') /\ block_at x din' m'.
Proof.
  intros En Hlt Hc. destruct Hmap as [Ha Hi]. destruct Hfbn as [H0 _].
  assert (Ec : cost (fbn + 1) - cost nb = 1) by (unfold cost; rewrite En, !(proj2 (Z.ltb_ge _ _)) by lia; lia).
  assert (Hz : di_addr din 0 fbn = 0).
  { destruct (decide (addr m din fbn = 0)) as [E|E]; [|apply Ha in E; [lia|done]].
    unfold addr_of in E. rewrite (proj2 (Z.ltb_lt _ _)) in E by done. by rewrite ino_addrs in E by lia. }
  destruct (alloc_direct m din Ho Hlen F ltac:(lia) fbn ltac:(lia) Hz) as (Gr & Ea & Eind).
  eexists _, _, _. unfold iappend_block. rewrite (proj2 (Z.ltb_lt _ _)) by done. rewrite Hz. cbn [Z.eqb]. split; [done|].
  assert (Ex : addr (set_freeblock (m_freeblock m + 1) m) (wr32 din (12 + 4 * fbn) (m_freeblock m)) fbn = m_freeblock m).
  { rewrite Ea by done. by rewrite decide_True. }
  split; [exact Gr| | |simpl; lia|].
  - pose proof Ex as Ex'. unfold addr_of in Ex'. rewrite (proj2 (Z.ltb_lt _ _)) in Ex' by done. rewrite ino_addrs in Ex' by lia.
    rewrite Ex, Ex'. split; [done|by apply free_pos].
  - apply map_next; [exact Ea|by apply free_pos|done|]. rewrite Eind, Hi. lia.
  - intros _. pose proof Ex as Ex'. unfold addr_of in Ex'. rewrite (proj2 (Z.ltb_lt _ _)) in Ex' by done. rewrite ino_addrs in Ex' by lia.
    rewrite Ex'. by apply (mo_zero _ Ho).
Qed.

(** A new entry of the indirect block. *)
Lemma entry_new : NDIRECT <= fbn -> i_addrs (ino inum din) NDIRECT <> 0 -> addr m din fbn = 0 -> m_freeblock m < FSSIZE ->
  exists m', (indirect ← rsect (di_addr din 0 NDIRECT) m;
    let '(indirect, m) :=
      if rd32 indirect (4 * (fbn - NDIRECT)) =? 0 then
        let indirect := wr32 indirect (4 * (fbn - NDIRECT)) (m_freeblock m) in
        (indirect, wsect (di_addr din 0 NDIRECT) indirect (set_freeblock (m_freeblock m + 1) m))
      else (indirect, m) in
    Some (rd32 indirect (4 * (fbn - NDIRECT)), din, m)) = Some (m_freeblock m, din, m') /\
  grows m din m' din /\ m_freeblock m' = m_freeblock m + 1 /\ m_disk m' (m_freeblock m) = zero_block /\
  (forall x, in_file x -> addr m' din x = if decide (fbn = x) then m_freeblock m else addr m din x).
Proof using Ho Hlen F Hfbn.
  intros Hge Hi Hz Hfb. destruct (indirect_entry Hge Hi) as [Er Ee]. rewrite Hz in Ee. destruct Hfbn as [_ Hmx].
  destruct (alloc_entry m din Ho Hlen F Hfb (fbn - NDIRECT)) as [Gr Ea];
    [change NINDIRECT with 256; change MAXFILE with 268 in Hmx; change NDIRECT with 12 in *; lia|done|by rewrite ino_addrs by done|].
  rewrite ino_addrs in Gr, Ea by done. rewrite Er. cbn [mbind option_bind]. rewrite Ee, Z.eqb_refl. eexists. split_and!; [|exact Gr|done| |].
  - f_equal. f_equal. f_equal. pose proof (mo_length _ Ho (di_addr din 0 NDIRECT)) as Hl. change (Z.to_nat BSIZE) with 1024%nat in Hl.
    pose proof (mo_free _ Ho) as Hf. change nmeta with 47 in Hf. change FSSIZE with 2000 in Hf. change MAXFILE with 268 in Hmx.
    rewrite rdn_wrn by (change NDIRECT with 12 in *; lia). apply Z.mod_small. simpl. lia.
  - simpl. rewrite upd_other; [by apply (mo_zero _ Ho)|]. destruct (indirect_range m din Ho Hlen F Hi) as [Hr _].
    rewrite ino_addrs in Hr by done. lia.
  - intros x Hx. rewrite Ea by done. by replace (fbn - NDIRECT + NDIRECT) with fbn by lia.
Qed.
End block.

Lemma iappend_block_spec m din fbn nb : mk_ok m -> length din = 64%nat -> file_ok sb (view m) (ino inum din) -> in_file fbn ->
  map_to m din nb -> nb = fbn \/ nb = fbn + 1 -> m_freeblock m + (cost (fbn + 1) - cost nb) <= FSSIZE ->
  exists x din' m', iappend_block fbn din m = Some (x, din', m') /\ block_at m din fbn nb x din' m'.
Proof.
  intros Ho Hlen F Hfbn Hmap [En|En] Hc; last first.
  { destruct (block_present m din fbn nb Ho Hlen F Hfbn Hmap En) as (x & E & B). eauto. }
  destruct (Z.lt_ge_cases fbn NDIRECT) as [Hlt|Hge]; [by apply block_direct|].
  pose proof Hmap as [Ha Hi]. assert (Hz : addr m din fbn = 0).
  { destruct (decide (addr m din fbn = 0)) as [E|E]; [done|apply Ha in E; [lia|done]]. }
  pose proof (free_pos m Ho) as Hfp. pose proof (mo_free _ Ho) as Hff. change nmeta with 47 in Hff. unfold cost in Hc. rewrite En in Hc. rewrite (proj2 (Z.ltb_lt NDIRECT (fbn + 1))) in Hc by lia.
  unfold iappend_block. rewrite (proj2 (Z.ltb_ge _ _)) by done. destruct (decide (fbn = NDIRECT)) as [E12|E12].
  - assert (Hd : di_addr din 0 NDIRECT = 0).
    { rewrite <-(ino_addrs inum) by done. destruct (decide (i_addrs (ino inum din) NDIRECT = 0)) as [?|E]; [done|]. apply Hi in E. lia. }
    rewrite Hd, Z.eqb_refl. rewrite (proj2 (Z.ltb_ge NDIRECT fbn)) in Hc by lia.
    destruct (append_indirect m din Ho Hlen F ltac:(lia) Hd) as (G1 & A1 & I1).
    set (m1 := set_freeblock (m_freeblock m + 1) m) in *. set (din1 := wr32 din (12 + 4 * NDIRECT) (m_freeblock m)) in *.
    destruct (entry_new m1 din1 fbn (gr_ok _ _ _ _ G1) (gr_len _ _ _ _ G1) (gr_file _ _ _ _ G1) Hfbn Hge) as (m2 & E2 & G2 & F2 & Z2 & A2);
      [congruence|by rewrite A1|simpl; lia|].
    exists (m_freeblock m1), din1, m2. split; [exact E2|]. split.
    + by eapply image_grows_trans.
    + rewrite A2 by done. rewrite decide_True by done. split; [done|]. simpl. lia.
    + split; [|rewrite I1; split; [lia|done]]. intros bn Hb. rewrite A2 by done. case_decide as Eb; [simpl; split; lia|].
      rewrite A1, Ha by done. lia.
    + rewrite F2. simpl. unfold cost. rewrite En, (proj2 (Z.ltb_lt _ _)), (proj2 (Z.ltb_ge _ _)) by lia. lia.
    + intros _. exact Z2.
  - assert (Hd : i_addrs (ino inum din) NDIRECT <> 0) by (apply Hi; lia). rewrite (proj2 (Z.ltb_lt NDIRECT fbn)) in Hc by lia.
    destruct (entry_new m din fbn Ho Hlen F Hfbn Hge Hd Hz ltac:(lia)) as (m2 & E2 & G2 & F2 & Z2 & A2).
    assert (Hd0 : di_addr din 0 NDIRECT <> 0) by (by rewrite <-(ino_addrs inum)). rewrite (proj2 (Z.eqb_neq _ _)) by done.
    exists (m_freeblock m), din, m2. split; [exact E2|]. split; [done| | | |intros _; exact Z2].
    + rewrite A2 by done. by rewrite decide_True.
    + split; [|split; [lia|done]]. intros bn Hb. rewrite A2 by done. case_decide as Eb; [split; [lia|done]|]. rewrite Ha by done. lia.
    + rewrite F2. unfold cost. rewrite En, !(proj2 (Z.ltb_lt _ _)) by lia. lia.
Qed.

(** The blocks of a file of [off] bytes. *)
Definition nblk (off : Z) : Z := (off + BSIZE - 1) / BSIZE.

(** The inode in hand is a file with the contents [c], and zeros after them. *)
Record has (m : image) (din : list byte) (c : list byte) : Prop := {
  ha_ok : mk_ok m;
  ha_len : length din = 64%nat;
  ha_file : file_ok sb (view m) (ino inum din);
  ha_map : map_to m din (nblk (Z.of_nat (length c)));
  ha_max : Z.of_nat (length c) <= MAXFILE * BSIZE;
  ha_bytes : forall p, (p < length c)%nat -> c !! p = Some (fbyte (view m) (ino inum din) (Z.of_nat p));
  ha_tail : forall p, Z.of_nat (length c) <= p < nblk (Z.of_nat (length c)) * BSIZE -> fbyte (view m) (ino inum din) p = chr 0
}.

Record appended (m : image) (din : list byte) (m' : image) (din' : list byte) : Prop := {
  ap_ev : evolves sb (view m) (ino inum din) (view m') (ino inum din');
  ap_head : slice din' 0 12 = slice din 0 12;
  ap_inodes : m_freeinode m' = m_freeinode m
}.

Lemma appended_trans m1 d1 m2 d2 m3 d3 : appended m1 d1 m2 d2 -> appended m2 d2 m3 d3 -> appended m1 d1 m3 d3.
Proof. intros [E1 H1 I1] [E2 H2 I2]. split; [by eapply evolves_trans|congruence|congruence]. Qed.

Section turn.
Context (m : image) (din c : list byte) (p : list byte).
Let off := Z.of_nat (length c).
Let fbn := off / BSIZE.
Hypothesis Hs : has m din c.
Hypothesis Hp : (0 < length p)%nat.
Hypothesis Hmax : off + Z.of_nat (length p) <= (fbn + 1) * BSIZE /\ off + Z.of_nat (length p) <= MAXFILE * BSIZE.

Lemma turn_block : in_file fbn /\ (nblk off = fbn \/ nblk off = fbn + 1) /\ nblk (off + Z.of_nat (length p)) = fbn + 1 /\ 0 <= off.
Proof using Hp Hmax.
  destruct Hmax as [H1 H2]. assert (0 <= off) by (subst off; lia). unfold in_file, nblk, fbn in *. change (MAXFILE * BSIZE) with 274432 in H2.
  change MAXFILE with 268. change BSIZE with 1024 in *. split_and!; divlia.
Qed.

Section put.
Context (x : Z) (din1 : list byte) (m1 : image).
Hypothesis B : block_at m din fbn (nblk off) x din1 m1.

(** The bytes of the block before the copy. *)
Lemma turn_before q : 0 <= q < (fbn + 1) * BSIZE ->
  fbyte (view m1) (ino inum din1) q = if decide (q < off) then fbyte (view m) (ino inum din) q else chr 0.
Proof using Hs Hp Hmax B.
  intros Hq. destruct B as [Gr [Ex Hx] Bm _ Bn]. destruct turn_block as (Hf & Hnb & _ & Ho0). pose proof (ha_map _ _ _ Hs) as [Ha _]. fold off in Ha.
  assert (Hqf : in_file (q / BSIZE)).
  { unfold in_file in *. change MAXFILE with 268 in *. change BSIZE with 1024 in *. divlia. }
  assert (Hkeep : addr m din (q / BSIZE) <> 0 -> fbyte (view m1) (ino inum din1) q = fbyte (view m) (ino inum din) q).
  { intros Hz. unfold fbyte. rewrite (ev_addr _ _ _ _ _ (gr_ev _ _ _ _ Gr)) by done. by rewrite (gr_data _ _ _ _ Gr). }
  case_decide as Hlt.
  - apply Hkeep, Ha; [done|]. unfold nblk. change BSIZE with 1024. divlia.
  - destruct Hnb as [En|En].
    + assert (Eq : q / BSIZE = fbn) by (unfold fbn, nblk in *; change BSIZE with 1024 in *; divlia).
      unfold fbyte. rewrite Eq, <-Ex. assert (Hxm : x <> sb_bmapstart sb).
      { destruct (fi_data _ _ _ (gr_file _ _ _ _ Gr) x) as [Hd _]; [split; [done|right; by exists fbn]|].
        change (data_start sb) with 47 in Hd. change (sb_bmapstart sb) with 46. lia. }
      rewrite view_disk, Bn by done. unfold zero_block. rewrite nth_lookup, lookup_replicate_2; [done|].
      change BSIZE with 1024. divlia.
    + rewrite Hkeep; [|apply Ha; [done|unfold fbn in *; change BSIZE with 1024 in *; divlia]].
      apply (ha_tail _ _ _ Hs). fold off. rewrite En. lia.
Qed.

Lemma turn_range : data_start sb <= x < m_freeblock m1 /\ x <> sb_bmapstart sb.
Proof using Hs Hp Hmax B.
  destruct B as [Gr [Ex Hx] _ _ _]. destruct turn_block as (Hf & _).
  destruct (fi_data _ _ _ (gr_file _ _ _ _ Gr) x) as [Hd Hu]; [split; [done|right; by exists fbn]|].
  change (data_start sb) with 47 in *. rewrite (mk_ok_used _ _ (gr_ok _ _ _ _ Gr)) in Hu by lia. apply Z.ltb_lt in Hu.
  change (sb_bmapstart sb) with 46. lia.
Qed.

Let buf := splice (m_disk m1 x) (off - fbn * BSIZE) p.
Let m2 := wsect x buf m1.

Lemma turn_splice : length buf = Z.to_nat BSIZE /\ forall q, 0 <= q < BSIZE ->
  nth (Z.to_nat q) buf (chr 0) = if decide (off <= fbn * BSIZE + q < off + Z.of_nat (length p))
    then nth (Z.to_nat (fbn * BSIZE + q - off)) p (chr 0) else nth (Z.to_nat q) (m_disk m1 x) (chr 0).
Proof using Hs Hp Hmax B.
  pose proof (mo_length _ (gr_ok _ _ _ _ (ba_grows _ _ _ _ _ _ _ B)) x) as Hl. destruct turn_block as (_ & _ & _ & Ho0).
  assert (Hfo : 0 <= off - fbn * BSIZE) by (unfold fbn; change BSIZE with 1024; divlia).
  assert (Hfit : off - fbn * BSIZE + Z.of_nat (length p) <= Z.of_nat (length (m_disk m1 x))).
  { rewrite Hl. change (Z.of_nat (Z.to_nat BSIZE)) with BSIZE. lia. }
  unfold buf. split; [by rewrite length_splice|]. intros q Hq. rewrite !nth_lookup, lookup_splice by done. rewrite Z2Nat.id by lia.
  repeat case_decide; try lia; [|done]. f_equal. f_equal. lia.
Qed.

Lemma turn_has : has m2 din1 (c ++ p) /\ appended m din m2 din1.
Proof using Hs Hp Hmax B.
  destruct turn_block as (Hf & Hnb & Hnn & Ho0). destruct turn_range as [Hxr Hxm]. destruct turn_splice as [Hlb Hb].
  pose proof B as [Gr [Ex Hx] Bm _ _]. destruct (Gr) as [Go Gl Gh Gf Ge _ Gi].
  assert (El : Z.of_nat (length (c ++ p)) = off + Z.of_nat (length p)) by (rewrite length_app; unfold off; lia).
  assert (Ev : view m2 = <[addr m1 din1 fbn := buf]> (view m1)) by (unfold m2; rewrite view_wsect, <-Ex by done; done).
  assert (Hxa : addr m1 din1 fbn <> 0) by congruence.
  assert (Ea : forall bn, addr m2 din1 bn = addr m1 din1 bn) by (intros bn; rewrite Ev; by apply (put_addr_of sb)).
  assert (Hby : forall q, 0 <= q < (fbn + 1) * BSIZE -> fbyte (view m2) (ino inum din1) q =
    if decide (off <= q < off + Z.of_nat (length p)) then nth (Z.to_nat (q - off)) p (chr 0) else fbyte (view m1) (ino inum din1) q).
  { intros q Hq. rewrite Ev. destruct (decide (q / BSIZE = fbn)) as [Eq|Eq].
    - rewrite (fbyte_put_same sb) by done. pose proof (Z.mod_pos_bound q BSIZE ltac:(done)).
      assert (Em : fbn * BSIZE + q mod BSIZE = q) by (rewrite <-Eq; change BSIZE with 1024; divlia).
      rewrite Hb, Em by done. case_decide; [done|]. unfold fbyte. rewrite Eq, <-Ex. by rewrite view_disk.
    - rewrite decide_False by (unfold fbn in *; change BSIZE with 1024 in *; divlia).
      assert (Hqf : in_file (q / BSIZE)) by (unfold in_file in *; change MAXFILE with 268 in *; change BSIZE with 1024 in *; divlia).
      apply (fbyte_put_other sb); [done|done|done|exact Hqf|done|]. apply Bm; [done|]. change BSIZE with 1024 in *. divlia. }
  split; split; try done.
  - apply wsect_ok; [done|lia|done].
  - rewrite Ev. by apply (file_ok_put sb 2 G).
  - rewrite El, Hnn. destruct Bm as [B1 B2]. split; [|done]. intros bn Hbn. rewrite Ea. by apply B1.
  - rewrite El. apply Hmax.
  - intros q Hq. rewrite length_app in Hq. rewrite Hby by (unfold off in *; lia). case_decide as Hd.
    + rewrite lookup_app_r by (unfold off in *; lia). rewrite nth_lookup. replace (Z.to_nat (Z.of_nat q - off)) with (q - length c)%nat by (unfold off; lia).
      destruct (lookup_lt_is_Some_2 p (q - length c)) as [y Hy]; [unfold off in *; lia|]. by rewrite Hy.
    + rewrite turn_before by (unfold off in *; lia). rewrite decide_True by (unfold off in *; lia).
      rewrite lookup_app_l by (unfold off in *; lia). apply (ha_bytes _ _ _ Hs). unfold off in *. lia.
  - rewrite El, Hnn. intros q Hq. rewrite Hby by lia. rewrite decide_False by lia. rewrite turn_before by lia. by rewrite decide_False by lia.
  - rewrite Ev. by apply (evolves_put sb 2 G).
Qed.
End put.
End turn.

Lemma cost_mono a b : a <= b -> cost a <= cost b.
Proof. intros Hab. unfold cost. destruct (Z.ltb_spec NDIRECT a), (Z.ltb_spec NDIRECT b); lia. Qed.

Lemma iappend_loop_spec fuel : forall p din m c, has m din c -> (length p < fuel)%nat ->
  let off := Z.of_nat (length c) in
  let off' := off + Z.of_nat (length p) in
  off' <= MAXFILE * BSIZE -> m_freeblock m + (cost (nblk off') - cost (nblk off)) <= FSSIZE ->
  exists din' m', iappend_loop fuel p off din m = Some (off', din', m') /\ has m' din' (c ++ p) /\ appended m din m' din' /\
    m_freeblock m' = m_freeblock m + (cost (nblk off') - cost (nblk off)).
Proof.
  induction fuel as [|fuel IH]; intros p din m c Hs Hf off off' Hmax Hfree; [lia|]. cbn [iappend_loop].
  destruct (Z.ltb_spec 0 (Z.of_nat (length p))) as [Hp|Hp]; last first.
  { assert (p = []) as -> by (destruct p; [done|simpl in Hp; lia]). unfold off'. cbn [length]. rewrite Z.add_0_r, app_nil_r.
    exists din, m. split_and!; [done|done|split; [apply evolves_refl|done|done]|lia]. }
  set (fbn := off / BSIZE). set (n1 := Z.min (Z.of_nat (length p)) ((fbn + 1) * BSIZE - off)).
  assert (Hoff : 0 <= off) by (unfold off; lia).
  assert (Hn1 : 0 < n1 <= Z.of_nat (length p)) by (unfold n1, fbn in *; change BSIZE with 1024 in *; divlia).
  set (pt := take (Z.to_nat n1) p). assert (Hpt : Z.of_nat (length pt) = n1) by (unfold pt; rewrite length_take; lia).
  assert (Htb : off + Z.of_nat (length pt) <= (fbn + 1) * BSIZE /\ off + Z.of_nat (length pt) <= MAXFILE * BSIZE).
  { rewrite Hpt. unfold off', n1 in *. lia. }
  destruct (turn_block c pt ltac:(lia) Htb) as (Hin & Hnb & Hnn & _). fold off in Hnb, Hnn. fold fbn in Hin, Hnb, Hnn.
  rewrite (proj2 (Z.ltb_lt _ _)) by apply Hin. cbn [negb].
  assert (Hm1 : nblk off <= fbn + 1 /\ fbn + 1 <= nblk off').
  { split; [lia|]. rewrite <-Hnn. unfold nblk, off'. apply Z.div_le_mono; [done|]. lia. }
  pose proof (cost_mono _ _ (proj1 Hm1)) as Hc1. pose proof (cost_mono _ _ (proj2 Hm1)) as Hc2.
  destruct (iappend_block_spec m din fbn (nblk off) (ha_ok _ _ _ Hs) (ha_len _ _ _ Hs) (ha_file _ _ _ Hs) Hin (ha_map _ _ _ Hs) Hnb ltac:(lia))
    as (x & din1 & m1 & E1 & B). rewrite E1. cbn [mbind option_bind].
  destruct (turn_range m din c pt Hs ltac:(lia) Htb x din1 m1 B) as [Hxr _]. pose proof (gr_ok _ _ _ _ (ba_grows _ _ _ _ _ _ _ B)) as Ho1.
  rewrite (rsect_ok m1 x Ho1) by (pose proof (mo_free _ Ho1); lia). cbn [mbind option_bind].
  destruct (turn_has m din c pt Hs ltac:(lia) Htb x din1 m1 B) as [H2 A2]. fold off fbn in H2, A2.
  set (m2 := wsect x (splice (m_disk m1 x) (off - fbn * BSIZE) pt) m1) in *.
  assert (El : Z.of_nat (length (c ++ pt)) = off + n1) by (rewrite length_app; unfold off; lia).
  destruct (IH (drop (Z.to_nat n1) p) din1 m2 (c ++ pt) H2) as (din' & m' & E & H' & A' & F').
  - rewrite length_drop. lia.
  - rewrite El, length_drop. unfold off' in Hmax. lia.
  - rewrite El, length_drop. replace (off + n1 + Z.of_nat (length p - Z.to_nat n1)) with off' by (unfold off'; lia).
    change (m_freeblock m2) with (m_freeblock m1). rewrite (ba_free _ _ _ _ _ _ _ B). rewrite Hpt in Hnn. rewrite Hnn. lia.
  - rewrite El, length_drop in E, F'. replace (off + n1 + Z.of_nat (length p - Z.to_nat n1)) with off' in E, F' by (unfold off'; lia).
    exists din', m'. split_and!; [exact E| |by eapply appended_trans|].
    + unfold pt in H'. by rewrite <-app_assoc, take_drop in H'.
    + rewrite F'. change (m_freeblock m2) with (m_freeblock m1). rewrite (ba_free _ _ _ _ _ _ _ B). rewrite Hpt in Hnn. rewrite Hnn. lia.
Qed.

(** A file whose addresses and blocks are left alone is the same in the new image. *)
Lemma has_frame m m' din din' c : has m din c -> mk_ok m' -> m_freeblock m <= m_freeblock m' -> length din' = 64%nat ->
  (forall x, i_addrs (ino inum din') x = i_addrs (ino inum din) x) ->
  (forall b, belongs (view m) (ino inum din) b -> view m' b = view m b) ->
  has m' din' c /\ forall b, belongs (view m') (ino inum din') b <-> belongs (view m) (ino inum din) b.
Proof.
  intros [Ho Hl Hf Hm Hx Hb Ht] Ho' Hfb Hl' Hd Hv.
  assert (Ea : forall x, addr m' din' x = addr m din x).
  { intros x. unfold addr_of. rewrite !Hd. destruct (x <? NDIRECT); [done|]. destruct (Z.eqb_spec (i_addrs (ino inum din) NDIRECT) 0); [done|].
    rewrite Hv; [done|]. split; [done|by left]. }
  assert (Eb : forall b, belongs (view m') (ino inum din') b <-> belongs (view m) (ino inum din) b).
  { intros b. unfold belongs. rewrite Hd. split; (intros [? [?|(x & Hx' & E)]]; split; [done|by left|done|right; exists x; split; [done|]]); [by rewrite <-Ea|by rewrite Ea]. }
  assert (Ef : forall q, 0 <= q < MAXFILE * BSIZE -> addr m din (q / BSIZE) <> 0 -> fbyte (view m') (ino inum din') q = fbyte (view m) (ino inum din) q).
  { intros q Hq Hz. unfold fbyte. rewrite Ea, Hv; [done|]. split; [done|]. right. exists (q / BSIZE). split; [by apply in_file_div|done]. }
  assert (Hn : forall q, 0 <= q < nblk (Z.of_nat (length c)) * BSIZE -> 0 <= q < MAXFILE * BSIZE /\ addr m din (q / BSIZE) <> 0).
  { intros q Hq. unfold nblk in Hq. change (MAXFILE * BSIZE) with 274432 in *. change BSIZE with 1024 in *.
    assert (Hq2 : 0 <= q < 274432) by divlia. split; [done|]. apply Hm; [unfold in_file; change MAXFILE with 268; divlia|].
    unfold nblk. change BSIZE with 1024. divlia. }
  split; [|exact Eb]. split; try done.
  - split.
    + intros b [Hr Hu]%Eb%(fi_data _ _ _ Hf). assert (0 <= data_start sb) by done. split; [done|].
      rewrite mk_ok_used in Hu |- * by (done || lia). apply Z.ltb_lt in Hu. apply Z.ltb_lt. lia.
    + intros x y Hx' Hy. rewrite !Ea. by apply (fi_inj _ _ _ Hf).
    + intros x Hx'. rewrite Ea, Hd. by apply (fi_indirect _ _ _ Hf).
  - destruct Hm as [H1 H2]. split; [|by rewrite Hd]. intros bn Hbn. rewrite Ea. by apply H1.
  - intros q Hq. rewrite Ef; [by apply Hb|..]; apply Hn; unfold nblk; change BSIZE with 1024; divlia.
  - intros q Hq. rewrite Ef; [by apply Ht|..]; apply Hn; lia.
Qed.

(** A file with no blocks. *)
Lemma has_nothing m din : mk_ok m -> length din = 64%nat -> (forall x, i_addrs (ino inum din) x = 0) ->
  has m din [] /\ forall b, ~ belongs (view m) (ino inum din) b.
Proof.
  intros Ho Hl Hz. assert (Ha : forall x, addr m din x = 0) by (intros x; unfold addr_of; rewrite !Hz; by destruct (x <? NDIRECT)).
  assert (Hb : forall b, ~ belongs (view m) (ino inum din) b).
  { intros b [Hb [E|(x & _ & E)]]; [by rewrite Hz in E|by rewrite Ha in E]. }
  split; [|done]. split; try done.
  - split; [intros b Hb'; by apply Hb in Hb'|intros x y _ _; by rewrite Ha|intros x _; by rewrite Ha].
  - split; [intros bn Hbn; rewrite Ha|rewrite Hz]; (split; [done|]); [intros Hlt; change (nblk (Z.of_nat (length []))) with 0 in Hlt; destruct Hbn; lia|].
    change (nblk (Z.of_nat (length []))) with 0. done.
  - intros p Hp. simpl in Hp. lia.
  - intros p Hp. change (nblk (Z.of_nat (length []))) with 0 in Hp. simpl in Hp. lia.
Qed.
End inode.

(** ** All inodes of the image *)

(** The struct dinode of inode [inum]. *)
Definition din_at (m : image) (inum : Z) : list byte :=
  slice (m_disk m (IBLOCK inum sb)) (sizeof_dinode * (inum mod IPB)) sizeof_dinode.

Definition valid_inum (inum : Z) : Prop := 0 <= inum < sb_ninodes sb.

Lemma iblock_range inum : valid_inum inum -> 33 <= IBLOCK inum sb < 46.
Proof. intros Hi. exact (IBLOCK_range sb 2 G inum Hi). Qed.

Lemma slot_range inum : 0 <= sizeof_dinode * (inum mod IPB) /\ sizeof_dinode * (inum mod IPB) + sizeof_dinode <= 1024.
Proof. change sizeof_dinode with 64. change IPB with 16. divlia. Qed.

(** Two inodes are in different blocks or at different places of one. *)
Lemma slots_apart a b : valid_inum a -> valid_inum b -> a <> b -> IBLOCK a sb = IBLOCK b sb ->
  sizeof_dinode * (a mod IPB) + sizeof_dinode <= sizeof_dinode * (b mod IPB) \/
  sizeof_dinode * (b mod IPB) + sizeof_dinode <= sizeof_dinode * (a mod IPB).
Proof.
  unfold valid_inum, IBLOCK, u32. change (sb_ninodes sb) with 200. change (sb_inodestart sb) with 33.
  change sizeof_dinode with 64. change IPB with 16. intros Ha Hb Hn E. rewrite !Z.mod_small in E by divlia. divlia.
Qed.

Lemma length_din_at m inum : mk_ok m -> length (din_at m inum) = 64%nat.
Proof.
  intros Ho. unfold din_at. pose proof (mo_length _ Ho (IBLOCK inum sb)) as Hl. pose proof (slot_range inum).
  change (Z.to_nat BSIZE) with 1024%nat in Hl. change sizeof_dinode with 64 in *. rewrite length_slice; [done|lia|lia|lia].
Qed.

Lemma rinode_spec m inum : mk_ok m -> valid_inum inum -> rinode inum m = Some (din_at m inum).
Proof.
  intros Ho Hi. unfold rinode. rewrite (rsect_ok m); [done|done|]. pose proof (iblock_range inum Hi). change FSSIZE with 2000. lia.
Qed.

(** [winode] changes this struct dinode and no other. *)
Lemma winode_spec m inum din : mk_ok m -> valid_inum inum -> length din = 64%nat ->
  exists m', winode inum din m = Some m' /\ mk_ok m' /\ din_at m' inum = din /\
    (forall a, valid_inum a -> a <> inum -> din_at m' a = din_at m a) /\
    (forall b, b <> IBLOCK inum sb -> m_disk m' b = m_disk m b) /\ m_freeblock m' = m_freeblock m /\ m_freeinode m' = m_freeinode m.
Proof.
  intros Ho Hi Hl. pose proof (iblock_range inum Hi) as Hb. pose proof (slot_range inum) as Hs. pose proof (mo_length _ Ho (IBLOCK inum sb)) as Hlb.
  pose proof (mo_free _ Ho) as Hf. change nmeta with 47 in Hf. change (Z.to_nat BSIZE) with 1024%nat in Hlb. change sizeof_dinode with 64 in Hs.
  unfold winode. rewrite (rsect_ok m) by (done || (change FSSIZE with 2000; lia)). cbn [mbind option_bind]. eexists. split; [done|].
  set (o := sizeof_dinode * (inum mod IPB)) in *. assert (Ho2 : 0 <= o /\ o + 64 <= 1024) by done.
  split_and!; [| | |intros b Hbn; simpl; by rewrite upd_other by congruence|done|done].
  - apply wsect_ok; [done|lia|]. rewrite length_splice, Hlb by lia. done.
  - unfold din_at. simpl. rewrite upd_same. fold o. change sizeof_dinode with (Z.of_nat 64). rewrite <-Hl. apply slice_splice_same; lia.
  - intros a Ha Hne. unfold din_at. simpl. rewrite upd_eq. case_decide as E; [|done]. rewrite <-E.
    pose proof (slot_range a) as Hsa. change sizeof_dinode with 64 in Hsa. apply slice_splice_other; [lia|lia|apply Hsa|done|].
    destruct (slots_apart a inum Ha Hi Hne (eq_sym E)) as [?|?]; fold o in H; change sizeof_dinode with 64 in *; [left|right]; lia.
Qed.

(** Inode [inum] is a file of type [t] with contents [c]. *)
Record node_ok (m : image) (inum t : Z) (c : list byte) : Prop := {
  nd_has : has inum m (din_at m inum) c;
  nd_size : di_size (din_at m inum) 0 = Z.of_nat (length c);
  nd_head : slice (din_at m inum) 0 8 = wr16 (wr16 (replicate 8 (chr 0)) 0 t) 6 1
}.

Definition blocks_of (m : image) (inum b : Z) : Prop := belongs (view m) (ino inum (din_at m inum)) b.

(** The blocks of these files. *)
Fixpoint total (fs : list (Z * list byte)) : Z :=
  match fs with
  | [] => 0
  | f :: fs => cost (nblk (Z.of_nat (length f.2))) + total fs
  end.

(** The inodes from 1 on are [fs]. *)
Record holds (m : image) (fs : list (Z * list byte)) : Prop := {
  ho_ok : mk_ok m;
  ho_count : m_freeinode m = 1 + Z.of_nat (length fs) /\ m_freeinode m <= NINODES;
  ho_node : forall n t c, fs !! n = Some (t, c) -> node_ok m (Z.of_nat n + 1) t c;
  ho_apart : forall n n' b, (n < length fs)%nat -> (n' < length fs)%nat -> blocks_of m (Z.of_nat n + 1) b -> blocks_of m (Z.of_nat n' + 1) b -> n = n';
  ho_free : m_freeblock m = nmeta + total fs;
  ho_super : m_disk m 1 = splice zero_block 0 sb_bytes;
  ho_log : m_disk m 2 = zero_block
}.

Lemma node_frame m m' a t c : node_ok m a t c -> mk_ok m' -> m_freeblock m <= m_freeblock m' -> din_at m' a = din_at m a ->
  (forall b, blocks_of m a b -> view m' b = view m b) -> node_ok m' a t c /\ forall b, blocks_of m' a b <-> blocks_of m a b.
Proof.
  intros [Hh Hs Hd] Ho Hf E Hv. unfold blocks_of. rewrite E.
  destruct (has_frame a m m' (din_at m a) (din_at m a) c Hh Ho Hf (ha_len _ _ _ _ Hh) (fun _ => eq_refl) Hv) as [Hh' Hb].
  split; [|exact Hb]. split; by rewrite E.
Qed.

Lemma node_blocks m a t c b : node_ok m a t c -> blocks_of m a b -> data_start sb <= b < m_freeblock m.
Proof.
  intros [Hh _ _] Hb. destruct (fi_data _ _ _ (ha_file _ _ _ _ Hh) b Hb) as [Hd Hu]. assert (0 <= data_start sb) by done.
  rewrite (mk_ok_used _ _ (ha_ok _ _ _ _ Hh)) in Hu by lia. apply Z.ltb_lt in Hu. lia.
Qed.

Lemma total_app fs fs' : total (fs ++ fs') = total fs + total fs'.
Proof. induction fs as [|f fs IH]; simpl; [done|]. rewrite IH. lia. Qed.

Lemma total_insert fs n t c t' c' : fs !! n = Some (t, c) ->
  total (<[n := (t', c')]> fs) = total fs - cost (nblk (Z.of_nat (length c))) + cost (nblk (Z.of_nat (length c'))).
Proof.
  revert n. induction fs as [|f fs IH]; intros n E; [done|]. destruct n as [|n]; simpl in *; [injection E as ->; simpl; lia|].
  rewrite (IH _ E). lia.
Qed.

(** The new struct dinode. *)
Definition new_din (t : Z) : list byte := wr32 (wr16 (wr16 (replicate 64 (chr 0)) 0 t) 6 1) 8 0.

Lemma length_new_din t : length (new_din t) = 64%nat.
Proof.
  unfold new_din. assert (H1 : length (wr16 (replicate 64 (chr 0)) 0 t) = 64%nat) by (by rewrite length_wrn).
  assert (H2 : length (wr16 (wr16 (replicate 64 (chr 0)) 0 t) 6 1) = 64%nat) by (rewrite length_wrn; rewrite ?H1; done).
  rewrite length_wrn; rewrite ?H2; done.
Qed.

Lemma ialloc_spec m fs t : holds m fs -> Z.of_nat (length fs) + 2 <= NINODES -> t = T_DIR \/ t = T_FILE ->
  exists m', ialloc t m = Some (1 + Z.of_nat (length fs), m') /\ holds m' (fs ++ [(t, [])]).
Proof.
  intros [Ho [Hc Hn] Hnode Hap Hfr Hsup Hlog] Hmax Ht. change NINODES with 200 in *. set (inum := 1 + Z.of_nat (length fs)) in *.
  assert (Hv : valid_inum inum) by (unfold valid_inum; change (sb_ninodes sb) with 200; lia).
  unfold ialloc. rewrite Hc. fold inum. set (m0 := set_freeinode (inum + 1) m). assert (Ho0 : mk_ok m0) by (by destruct Ho).
  change (wr32 _ 8 0) with (new_din t). destruct (winode_spec m0 inum (new_din t) Ho0 Hv (length_new_din t)) as (m' & -> & Ho' & Ed & Eo & Eb & Ef & Ei).
  exists m'. split; [done|]. pose proof (iblock_range inum Hv) as Hib.
  assert (Hz : forall x, i_addrs (ino inum (new_din t)) x = 0).
  { intros x. simpl. unfold get_addrs. case_decide as Hx; [|done]. change NDIRECT with 12 in Hx.
    assert (Hall : forallb (fun j => di_addr (new_din T_DIR) 0 (Z.of_nat j) =? 0) (seq 0 13) && forallb (fun j => di_addr (new_din T_FILE) 0 (Z.of_nat j) =? 0) (seq 0 13) = true) by by vm_compute.
    apply andb_true_iff in Hall as [H1 H2]. rewrite forallb_forall in H1, H2. rewrite <-(Z2Nat.id x) by lia.
    destruct Ht as [->| ->]; [apply Z.eqb_eq, H1|apply Z.eqb_eq, H2]; apply in_seq; lia. }
  destruct (has_nothing inum m' (din_at m' inum) Ho') as [Hh Hnb]; [by rewrite Ed; apply length_new_din|by rewrite Ed|].
  assert (Hold : forall n s c, fs !! n = Some (s, c) -> node_ok m' (Z.of_nat n + 1) s c /\ forall b, blocks_of m' (Z.of_nat n + 1) b <-> blocks_of m (Z.of_nat n + 1) b).
  { intros n s c Hl. pose proof (lookup_lt_Some _ _ _ Hl). pose proof (Hnode _ _ _ Hl) as Nd. apply node_frame; [done|done|rewrite Ef; simpl; lia| |].
    - apply Eo; [unfold valid_inum; change (sb_ninodes sb) with 200|]; unfold inum in *; lia.
    - intros b Hbl. pose proof (node_blocks _ _ _ _ _ Nd Hbl) as Hr. change (data_start sb) with 47 in Hr.
      rewrite !view_disk by (change (sb_bmapstart sb) with 46; lia). apply Eb. lia. }
  split.
  - exact Ho'.
  - rewrite Ei, length_app. change NINODES with 200. cbn [m0 set_freeinode m_freeinode length]. unfold inum in *. lia.
  - intros n s c [Hl|[Hge Hl]]%lookup_app_Some; [by apply Hold|]. destruct (n - length fs)%nat eqn:E; [|done]. injection Hl as <- <-.
    replace (Z.of_nat n + 1) with inum by (unfold inum; lia). split; [exact Hh|rewrite Ed; by destruct Ht as [->| ->]|rewrite Ed; by destruct Ht as [->| ->]].
  - assert (Hlast : forall n b, (n < length (fs ++ [(t, [])]))%nat -> blocks_of m' (Z.of_nat n + 1) b -> (n < length fs)%nat /\ blocks_of m (Z.of_nat n + 1) b).
    { intros n b Hlt Hb. rewrite length_app in Hlt. simpl in Hlt. destruct (decide (n = length fs)) as [->|Hne].
      - exfalso. apply (Hnb b). replace (Z.of_nat (length fs) + 1) with inum in Hb by (unfold inum; lia). exact Hb.
      - assert (Hlt' : (n < length fs)%nat) by lia. split; [done|]. apply lookup_lt_is_Some_2 in Hlt' as [[s c] Hl]. by apply (Hold _ _ _ Hl). }
    intros n n' b H1 H2 B1 B2. destruct (Hlast _ _ H1 B1), (Hlast _ _ H2 B2). by eapply Hap.
  - rewrite Ef, total_app. change (m_freeblock m0) with (m_freeblock m). assert (E0 : total [(t, [])] = 0) by done. lia.
  - rewrite Eb by lia. exact Hsup.
  - rewrite Eb by lia. exact Hlog.
Qed.

Section append.
Context (m : image) (fs : list (Z * list byte)) (n : nat) (t : Z) (c p : list byte).
Let inum := Z.of_nat n + 1.
Let off' := Z.of_nat (length (c ++ p)).
Hypothesis H : holds m fs.
Hypothesis Hn : fs !! n = Some (t, c).
Hypothesis Hmax : off' <= MAXFILE * BSIZE.

Lemma append_inum : valid_inum inum /\ (n < length fs)%nat.
Proof using H Hn Hmax.
  pose proof (lookup_lt_Some _ _ _ Hn). destruct (ho_count _ _ H) as [Hc Hm]. change NINODES with 200 in Hm.
  unfold valid_inum, inum. change (sb_ninodes sb) with 200. lia.
Qed.

(** The struct dinode after the loop, with the new size. *)
Section finish.
Context (din1 : list byte) (m1 m2 : image).
Let din2 := wr32 din1 8 off'.
Hypothesis H1 : has inum m1 din1 (c ++ p).
Hypothesis A1 : appended inum m (din_at m inum) m1 din1.
Hypothesis F1 : m_freeblock m1 = m_freeblock m + (cost (nblk off') - cost (nblk (Z.of_nat (length c)))).
Hypothesis Ho2 : mk_ok m2.
Hypothesis Ed : din_at m2 inum = din2.
Hypothesis Eo : forall a, valid_inum a -> a <> inum -> din_at m2 a = din_at m1 a.
Hypothesis Eb : forall b, b <> IBLOCK inum sb -> m_disk m2 b = m_disk m1 b.
Hypothesis Ef : m_freeblock m2 = m_freeblock m1.
Hypothesis Ei : m_freeinode m2 = m_freeinode m1.

(** A block that was in use and is not of this file. *)
Lemma append_keep b : 0 <= b < m_freeblock m -> b <> sb_bmapstart sb -> ~ blocks_of m inum b -> m_disk m1 b = m_disk m b.
Proof using H Hn Hmax H1 A1 F1 Ho2 Ed Eo Eb Ef Ei.
  intros Hb Hbm Hbl. pose proof (mo_free _ (ho_ok _ _ H)) as Hf. rewrite <-!view_disk by done.
  apply (ev_keep _ _ _ _ _ (ap_ev _ _ _ _ _ A1)); [change (sb_size sb) with FSSIZE; lia| | |done].
  - rewrite (mk_ok_used _ _ (ho_ok _ _ H)) by (change (sb_size sb) with FSSIZE; lia). apply Z.ltb_lt. lia.
  - change (data_start sb) with 47. change (sb_bmapstart sb) with 46 in *. lia.
Qed.

Lemma append_meta b : 0 <= b < 46 -> m_disk m1 b = m_disk m b.
Proof using H Hn Hmax H1 A1 F1 Ho2 Ed Eo Eb Ef Ei.
  intros Hb. pose proof (mo_free _ (ho_ok _ _ H)) as Hf. change nmeta with 47 in Hf.
  apply append_keep; [lia|change (sb_bmapstart sb) with 46; lia|]. intros Hbl.
  pose proof (node_blocks _ _ _ _ _ (ho_node _ _ H _ _ _ Hn) Hbl) as Hr. change (data_start sb) with 47 in Hr. lia.
Qed.

Lemma append_others a : valid_inum a -> a <> inum -> din_at m2 a = din_at m a.
Proof using H Hn Hmax H1 A1 F1 Ho2 Ed Eo Eb Ef Ei.
  intros Ha Hne. rewrite Eo by done. unfold din_at. rewrite append_meta; [done|]. pose proof (iblock_range a Ha). lia.
Qed.

Lemma append_free : m_freeblock m <= m_freeblock m2.
Proof using H Hn Hmax H1 A1 F1 Ho2 Ed Eo Eb Ef Ei.
  rewrite Ef, F1. assert (Hl : nblk (Z.of_nat (length c)) <= nblk off').
  { unfold nblk, off'. rewrite length_app. apply Z.div_le_mono; [done|]. lia. }
  pose proof (cost_mono _ _ Hl). lia.
Qed.

(** This file. *)
Lemma append_this : node_ok m2 inum t (c ++ p) /\ forall b, blocks_of m2 inum b <-> belongs (view m1) (ino inum din1) b.
Proof using H Hn Hmax H1 A1 F1 Ho2 Ed Eo Eb Ef Ei.
  pose proof (ha_len _ _ _ _ H1) as Hl. destruct append_inum as [Hv _]. pose proof (iblock_range inum Hv) as Hib.
  assert (Hl2 : length din2 = 64%nat) by (unfold din2; rewrite length_wrn; [done|lia|rewrite Hl; simpl; lia]).
  assert (Hd : forall x, i_addrs (ino inum din2) x = i_addrs (ino inum din1) x).
  { intros x. simpl. unfold get_addrs. case_decide as Hx; [|done]. change NDIRECT with 12 in Hx. apply rdn_wrn_other; rewrite ?Hl; simpl; lia. }
  assert (Hvw : forall b, belongs (view m1) (ino inum din1) b -> view m2 b = view m1 b).
  { intros b Hb. destruct (fi_data _ _ _ (ha_file _ _ _ _ H1) b Hb) as [Hr _]. change (data_start sb) with 47 in Hr.
    rewrite !view_disk by (change (sb_bmapstart sb) with 46; lia). apply Eb. lia. }
  destruct (has_frame inum m1 m2 din1 din2 (c ++ p) H1 Ho2 ltac:(lia) Hl2 Hd Hvw) as [Hh Hbl].
  change (MAXFILE * BSIZE) with 274432 in Hmax. assert (0 <= off') by (unfold off'; lia). pose proof (ho_node _ _ H _ _ _ Hn) as [_ _ Hh0]. fold inum in Hh0.
  split; [|intros b; unfold blocks_of; rewrite Ed; apply Hbl]. split; rewrite Ed; [exact Hh| |].
  - unfold din2, di_size. change (0 + 8) with 8. rewrite rdn_wrn by (rewrite ?Hl; simpl; lia). unfold off' in *. apply Z.mod_small. simpl. lia.
  - rewrite <-Hh0. unfold din2. rewrite slice_wrn_other by (rewrite ?Hl; simpl; lia). pose proof (ap_head _ _ _ _ _ A1) as E.
    assert (Es : forall l : list byte, slice l 0 8 = take 8 (slice l 0 12)).
    { intros l. unfold slice. change (Z.to_nat 0) with 0%nat. rewrite !drop_0, take_take. done. }
    by rewrite !Es, E.
Qed.

Lemma append_holds : holds m2 (<[n := (t, c ++ p)]> fs).
Proof using H Hn Hmax H1 A1 F1 Ho2 Ed Eo Eb Ef Ei.
  destruct append_inum as [Hv Hlt]. destruct append_this as [Nd Nb]. pose proof (iblock_range inum Hv) as Hib.
  pose proof H as [Ho [Hc Hm] Hnode Hap Hfr Hsup Hlog]. change NINODES with 200 in Hm.
  assert (Hval : forall k, (k < length fs)%nat -> valid_inum (Z.of_nat k + 1)) by (intros k Hk; unfold valid_inum; change (sb_ninodes sb) with 200; lia).
  assert (Hother : forall k s d, k <> n -> fs !! k = Some (s, d) -> node_ok m2 (Z.of_nat k + 1) s d /\
    forall b, blocks_of m2 (Z.of_nat k + 1) b <-> blocks_of m (Z.of_nat k + 1) b).
  { intros k s d Hk Hl. pose proof (lookup_lt_Some _ _ _ Hl) as Hkl. pose proof (Hnode _ _ _ Hl) as Nk.
    apply node_frame; [done|done|apply append_free|apply append_others; [by apply Hval|unfold inum; lia]|].
    intros b Hb. pose proof (node_blocks _ _ _ _ _ Nk Hb) as Hr. change (data_start sb) with 47 in Hr.
    rewrite !view_disk by (change (sb_bmapstart sb) with 46; lia). rewrite Eb by lia. apply append_keep; [lia|change (sb_bmapstart sb) with 46; lia|].
    intros Hb'. apply Hk. by apply (Hap k n b). }
  assert (Hfresh : forall k b, k <> n -> (k < length fs)%nat -> blocks_of m2 (Z.of_nat k + 1) b -> blocks_of m2 inum b -> False).
  { intros k b Hk Hkl Bk Bn. apply lookup_lt_is_Some_2 in Hkl as [[s d] Hl]. pose proof (lookup_lt_Some _ _ _ Hl) as Hkl.
    apply (Hother _ _ _ Hk Hl) in Bk. pose proof (node_blocks _ _ _ _ _ (Hnode _ _ _ Hl) Bk) as Hr. change (data_start sb) with 47 in Hr.
    pose proof (mo_free _ Ho) as Hff. apply Nb in Bn. assert (Hnot : ~ blocks_of m inum b) by (intros Hb'; apply Hk; by apply (Hap k n b)).
    pose proof (ev_fresh _ _ _ _ _ (ap_ev _ _ _ _ _ A1) b ltac:(change (sb_size sb) with FSSIZE; lia) Bn Hnot) as Hu.
    rewrite (mk_ok_used _ _ Ho) in Hu by (change (sb_size sb) with FSSIZE; lia). apply Z.ltb_ge in Hu. lia. }
  split.
  - exact Ho2.
  - rewrite Ei, (ap_inodes _ _ _ _ _ A1), length_insert. split; [done|exact Hm].
  - intros k s d Hl. destruct (decide (k = n)) as [->|Hk].
    + rewrite list_lookup_insert_eq in Hl by done. injection Hl as <- <-. exact Nd.
    + rewrite list_lookup_insert_ne in Hl by done. by apply Hother.
  - intros k k' b Hk Hk' B1 B2. rewrite length_insert in Hk, Hk'. destruct (decide (k = n)) as [->|Ek], (decide (k' = n)) as [->|Ek']; [done| | |].
    + exfalso. by eapply (Hfresh k').
    + exfalso. by eapply (Hfresh k).
    + pose proof (lookup_lt_is_Some_2 _ _ Hk) as [[s d] Hl]. pose proof (lookup_lt_is_Some_2 _ _ Hk') as [[s' d'] Hl'].
      apply (Hother _ _ _ Ek Hl) in B1. apply (Hother _ _ _ Ek' Hl') in B2. by eapply Hap.
  - rewrite (total_insert _ _ t c) by done. rewrite Ef, F1. fold off'. lia.
  - rewrite Eb, append_meta by lia. exact Hsup.
  - rewrite Eb, append_meta by lia. exact Hlog.
Qed.
End finish.

Lemma iappend_spec : nmeta + total (<[n := (t, c ++ p)]> fs) <= FSSIZE ->
  exists m', iappend inum p m = Some m' /\ holds m' (<[n := (t, c ++ p)]> fs).
Proof using H Hn Hmax.
  intros Hfit. destruct append_inum as [Hv Hlt]. pose proof (ho_ok _ _ H) as Ho. destruct (ho_node _ _ H _ _ _ Hn) as [Hh Hs _]. fold inum in Hh, Hs.
  rewrite (total_insert _ _ t c) in Hfit by done. pose proof (ho_free _ _ H) as Hfr.
  assert (El : off' = Z.of_nat (length c) + Z.of_nat (length p)) by (unfold off'; rewrite length_app; lia).
  unfold iappend. rewrite (rinode_spec m inum Ho Hv). cbn [mbind option_bind]. rewrite Hs.
  destruct (iappend_loop_spec inum (S (length p)) p (din_at m inum) m c Hh ltac:(lia)) as (din1 & m1 & -> & H1 & A1 & F1).
  - rewrite <-El. done.
  - rewrite <-El. fold off' in Hfit. lia.
  - cbn [mbind option_bind]. rewrite <-El in F1 |- *.
    assert (Hl2 : length (wr32 din1 8 off') = 64%nat) by (rewrite length_wrn; [apply H1|lia|rewrite (ha_len _ _ _ _ H1); simpl; lia]).
    destruct (winode_spec m1 inum (wr32 din1 8 off') (ha_ok _ _ _ _ H1) Hv Hl2) as (m2 & -> & Ho2 & Ed & Eo & Eb & Ef & Ei).
    exists m2. split; [done|]. by eapply append_holds.
Qed.
End append.
