(* ===== verification/MkfsTheorems.v ===== *)
(** * MkfsTheorems: mkfs succeeds when the files fit, and what it builds

    [main] makes an image with a root directory and the given files; the image
    satisfies the invariants of the kernel's file system. *)

From Stdlib Require Import FunctionalExtensionality.
From S2P Require Import Prelude Riscv CString Sleeplock Layout Bio BioSpec Log LogSpec LogAtomic Tx LogTheorems Kernel Fs FsBlock.
From S2P Require Import FsFile FsData FsWrite FsDir Mkfs MkfsSpec.

(** ** Room *)

(** The files of [fs] are there in [gs], perhaps with more contents. *)
Definition fits (fs gs : list (Z * list byte)) : Prop :=
  forall n f, fs !! n = Some f -> exists g, gs !! n = Some g /\ (length f.2 <= length g.2)%nat.

Lemma nblk_mono a b : a <= b -> nblk a <= nblk b.
Proof. intros Hab. unfold nblk. apply Z.div_le_mono; [done|lia]. Qed.

Lemma cost_nonneg nb : 0 <= nb -> 0 <= cost nb.
Proof. unfold cost. destruct (NDIRECT <? nb); lia. Qed.

Lemma total_nonneg fs : 0 <= total fs.
Proof.
  induction fs as [|f fs IH]; simpl; [done|]. assert (0 <= nblk (Z.of_nat (length f.2))) by (unfold nblk; apply Z.div_pos; [unfold BSIZE; lia|done]).
  pose proof (cost_nonneg _ H). lia.
Qed.

Lemma total_fits fs : forall gs, fits fs gs -> total fs <= total gs.
Proof.
  induction fs as [|f fs IH]; intros gs Hf; [apply total_nonneg|]. destruct (Hf 0%nat f eq_refl) as (g & Hg & Hle).
  destruct gs as [|g' gs]; [done|]. injection Hg as ->. simpl. assert (total fs <= total gs) by (apply IH; intros n; apply (Hf (S n))).
  assert (cost (nblk (Z.of_nat (length f.2))) <= cost (nblk (Z.of_nat (length g.2)))) by (apply cost_mono, nblk_mono; lia). lia.
Qed.

(** ** The steps of main *)

(** The entries of the directory for files with these names, from inode [k] on. *)
Fixpoint entries (k : Z) (names : list (list byte)) : list (list byte) :=
  match names with
  | [] => []
  | name :: names => mk_dirent k (pad_name name) :: entries (k + 1) names
  end.

(** The files on the disk once [files] have been added. *)
Definition added (dc : list byte) (dn : list (Z * list byte)) (names : list (list byte)) (files : list (list byte * list (list byte))) :=
  (T_DIR, dc ++ concat (entries (2 + Z.of_nat (length dn)) names)) :: dn ++ ((fun f => (T_FILE, concat f.2)) <$> files).

Lemma added_cons dc dn name names f files :
  added dc dn (name :: names) (f :: files) =
  added (dc ++ mk_dirent (2 + Z.of_nat (length dn)) (pad_name name)) (dn ++ [(T_FILE, concat f.2)]) names files.
Proof.
  unfold added. cbn [entries concat fmap list_fmap]. rewrite length_app. cbn [length]. rewrite <-!app_assoc. cbn [app].
  by replace (2 + Z.of_nat (length dn + 1)) with (2 + Z.of_nat (length dn) + 1) by lia.
Qed.
Section build.
Context (gs : list (Z * list byte)).
Hypothesis Hroom : nmeta + total gs <= FSSIZE.
Hypothesis Hcount : 1 + Z.of_nat (length gs) <= NINODES.
Hypothesis Hmax : forall n g, gs !! n = Some g -> Z.of_nat (length g.2) <= MAXFILE * BSIZE.

Lemma fits_append m fs n t c p : holds m fs -> fs !! n = Some (t, c) -> fits (<[n := (t, c ++ p)]> fs) gs ->
  exists m', iappend (Z.of_nat n + 1) p m = Some m' /\ holds m' (<[n := (t, c ++ p)]> fs).
Proof using Hroom Hmax.
  intros H Hn Hf. pose proof (lookup_lt_Some _ _ _ Hn) as Hlt. apply (iappend_spec m fs n t c p H Hn).
  - destruct (Hf n (t, c ++ p)) as (g & Hg & Hle); [by apply list_lookup_insert_eq|]. specialize (Hmax _ _ Hg). simpl in Hle. lia.
  - pose proof (total_fits _ _ Hf). lia.
Qed.

Lemma append_all_spec ps : forall m fs n t c, holds m fs -> fs !! n = Some (t, c) -> fits (<[n := (t, c ++ concat ps)]> fs) gs ->
  exists m', append_all (Z.of_nat n + 1) ps m = Some m' /\ holds m' (<[n := (t, c ++ concat ps)]> fs).
Proof using Hroom Hmax.
  induction ps as [|p ps IH]; intros m fs n t c H Hn Hf; cbn [append_all concat].
  { rewrite app_nil_r, list_insert_id by done. by exists m. }
  pose proof (lookup_lt_Some _ _ _ Hn) as Hlt. cbn [concat] in Hf.
  destruct (fits_append m fs n t c p H Hn) as (m1 & -> & H1).
  { intros k f Hk. destruct (decide (k = n)) as [->|Ek].
    - rewrite list_lookup_insert_eq in Hk by done. injection Hk as <-. destruct (Hf n (t, c ++ p ++ concat ps)) as (g & Hg & Hle); [by apply list_lookup_insert_eq|].
      exists g. split; [done|]. simpl in *. rewrite !length_app in *. lia.
    - rewrite list_lookup_insert_ne in Hk by done. apply Hf. by rewrite list_lookup_insert_ne. }
  cbn [mbind option_bind]. destruct (IH m1 (<[n := (t, c ++ p)]> fs) n t (c ++ p) H1) as (m2 & -> & H2).
  - by apply list_lookup_insert_eq.
  - by rewrite list_insert_insert_eq, <-app_assoc.
  - exists m2. split; [done|]. by rewrite list_insert_insert_eq, <-app_assoc in H2.
Qed.

(** A file with its entry. *)
Lemma add_file_spec m dc dn name ps : let k := 2 + Z.of_nat (length dn) in
  let dc' := dc ++ mk_dirent k (pad_name name) in
  holds m ((T_DIR, dc) :: dn) -> fits ((T_DIR, dc') :: dn ++ [(T_FILE, concat ps)]) gs ->
  exists m1 m2 m3, ialloc T_FILE m = Some (k, m1) /\ enter ROOTINO k name m1 = Some m2 /\ append_all k ps m2 = Some m3 /\
    holds m3 ((T_DIR, dc') :: dn ++ [(T_FILE, concat ps)]).
Proof using Hroom Hcount Hmax.
  intros k dc' H Hf. assert (Hlen : Z.of_nat (length ((T_DIR, dc) :: dn)) + 2 <= NINODES).
  { destruct (Hf (S (length dn)) (T_FILE, concat ps)) as (g & Hg & _); [simpl; by rewrite list_lookup_middle|].
    apply lookup_lt_Some in Hg. simpl. lia. }
  destruct (ialloc_spec m _ T_FILE H Hlen ltac:(by right)) as (m1 & E1 & H1).
  replace (1 + Z.of_nat (length ((T_DIR, dc) :: dn))) with k in E1 by (simpl; unfold k; lia).
  change (((T_DIR, dc) :: dn) ++ [(T_FILE, [])]) with ((T_DIR, dc) :: (dn ++ [(T_FILE, [])])) in H1.
  assert (Hf1 : fits ((T_DIR, dc') :: dn ++ [(T_FILE, [])]) gs).
  { intros j f Hj. destruct j as [|j]; [by apply (Hf 0%nat)|]. simpl in Hj. apply lookup_app_Some in Hj as [Hj|[Hge Hj]].
    - apply (Hf (S j)). simpl. by apply lookup_app_l_Some.
    - destruct (Hf (S j) (T_FILE, concat ps)) as (g & Hg & _).
      { simpl. rewrite lookup_app_r by done. by destruct (j - length dn)%nat. }
      exists g. split; [done|]. destruct (j - length dn)%nat; [|done]. injection Hj as <-. simpl. lia. }
  destruct (fits_append m1 _ 0 T_DIR dc (mk_dirent k (pad_name name)) H1 eq_refl Hf1) as (m2 & E2 & H2).
  set (n := S (length dn)). assert (En : Z.of_nat n + 1 = k) by (unfold n, k; lia).
  destruct (append_all_spec ps m2 ((T_DIR, dc') :: dn ++ [(T_FILE, [])]) n T_FILE [] H2) as (m3 & E3 & H3).
  - simpl. by rewrite list_lookup_middle.
  - simpl. rewrite insert_app_r_alt, Nat.sub_diag by done. exact Hf.
  - rewrite En in E3. exists m1, m2, m3. split_and!; [done|exact E2|exact E3|]. simpl in H3. rewrite insert_app_r_alt, Nat.sub_diag in H3 by done. exact H3.
Qed.

Lemma add_files_spec files : forall m dc dn names, holds m ((T_DIR, dc) :: dn) -> Forall2 (fun f name => short_name f.1 = Some name) files names ->
  fits (added dc dn names files) gs -> exists m', add_files ROOTINO files m = Some m' /\ holds m' (added dc dn names files).
Proof using Hroom Hcount Hmax.
  induction files as [|[arg ps] files IH]; intros m dc dn names H Hn Hf; cbn [add_files].
  { apply Forall2_nil_inv_l in Hn as ->. unfold added. simpl. rewrite !app_nil_r. by exists m. }
  apply Forall2_cons_inv_l in Hn as (name & names' & En & Hn & ->). simpl in En. rewrite En. rewrite added_cons in Hf |- *. cbn [mbind option_bind snd] in *.
  destruct (add_file_spec m dc dn name ps H) as (m1 & m2 & m3 & -> & E2 & E3 & H3).
  { intros j f Hj. destruct j as [|j].
    - injection Hj as <-. destruct (Hf 0%nat _ eq_refl) as (g & Hg & Hle). exists g. split; [done|]. simpl in *. rewrite length_app in Hle. lia.
    - apply (Hf (S j)). simpl. simpl in Hj. by apply lookup_app_l_Some. }
  cbn [mbind option_bind]. rewrite E2. cbn [mbind option_bind]. rewrite E3. cbn [mbind option_bind]. by apply IH.
Qed.
End build.

(** The image before anything is allocated. *)
Lemma clear_spec n : forall i m, (forall b, m_disk m b = zero_block) -> 0 <= i -> m_len m = i ->
  let m' := clear i n m in (forall b, m_disk m' b = zero_block) /\ m_len m' = i + Z.of_nat n /\ m_freeinode m' = m_freeinode m /\
  m_freeblock m' = m_freeblock m.
Proof.
  induction n as [|n IH]; intros i m Hz Hi Hl; cbn [clear]; [split_and!; [done|lia|done|done]|].
  destruct (IH (i + 1) (wsect i zero_block m)) as (H1 & H2 & H3 & H4); [|lia|simpl; lia|].
  - intros b. simpl. rewrite upd_eq. by case_decide.
  - split_and!; [done|rewrite H2; lia|done|done].
Qed.

Definition empty_image : image :=
  wsect 1 (splice zero_block 0 sb_bytes)
    (clear 0 (Z.to_nat FSSIZE) {| m_disk := fun _ => zero_block; m_len := 0; m_freeinode := 1; m_freeblock := nmeta |}).

Lemma empty_holds : holds empty_image [].
Proof.
  unfold empty_image. set (m0 := {| m_disk := _ |}). destruct (clear_spec (Z.to_nat FSSIZE) 0 m0) as (H1 & H2 & H3 & H4); [done|done|done|].
  revert H1 H2 H3 H4. generalize (clear 0 (Z.to_nat FSSIZE) m0). intros m1 H1 H2 H3 H4. change (m_freeblock m0) with nmeta in H4.
  change (m_freeinode m0) with 1 in H3. change (0 + Z.of_nat (Z.to_nat FSSIZE)) with FSSIZE in H2. split.
  - apply wsect_ok; [|rewrite H4; done|by vm_compute].
    split; [intros b; by rewrite H1|done|rewrite H4; done|intros b _; apply H1].
  - cbn [wsect m_freeinode]. rewrite H3. done.
  - intros n t c E. by rewrite lookup_nil in E.
  - intros n n' b E. simpl in E. lia.
  - cbn [wsect m_freeblock]. rewrite H4. done.
  - cbn [wsect m_disk]. apply upd_same.
  - cbn [wsect m_disk]. rewrite upd_other by done. apply H1.
Qed.

(** ** The inodes as the kernel reads them *)

(** What [ilock] reads from the inode blocks. *)
Definition disk_inode (v : Z -> block) (inum : Z) : inode :=
  get_dinode (v (IBLOCK inum sb)) (sizeof_dinode * (inum mod IPB)) (no_inode inum).

(** The disk at boot, with nothing locked and nothing in the log. *)
Definition booted (v : Z -> block) : tdisk := {| td_view := v; td_disk := v; td_locked := ∅; td_logged := [] |}.

Lemma rdn_of_slice n (b : list byte) o len k : 0 <= o -> 0 <= k -> k + Z.of_nat n <= len -> rdn n (slice b o len) k = rdn n b (o + k).
Proof.
  intros Ho Hk Hn. rewrite !rdn_slice. f_equal. unfold slice. apply list_eq. intros j.
  destruct (decide (j < n)%nat).
  - rewrite !lookup_take_lt, !lookup_drop by lia. rewrite lookup_take_lt, lookup_drop by lia. f_equal. lia.
  - by rewrite !lookup_take_ge by lia.
Qed.

Lemma disk_inode_ino v inum : disk_inode v inum = ino inum (slice (v (IBLOCK inum sb)) (sizeof_dinode * (inum mod IPB)) sizeof_dinode).
Proof.
  unfold disk_inode, ino, get_dinode. pose proof (slot_range inum) as [Ho _]. set (o := sizeof_dinode * (inum mod IPB)) in *.
  set (b := v (IBLOCK inum sb)). change sizeof_dinode with 64.
  assert (E : forall n k, 0 <= k -> k + Z.of_nat n <= 64 -> rdn n (slice b o 64) (0 + k) = rdn n b (o + k)).
  { intros n k Hk Hn. rewrite Z.add_0_l. apply rdn_of_slice; lia. }
  unfold di_type, di_major, di_minor, di_nlink, di_size. rewrite (E 2%nat 2), (E 2%nat 4), (E 2%nat 6), (E 4%nat 8) by lia.
  replace (rd16 (slice b o 64) 0) with (rd16 b o) by (rewrite rdn_of_slice by lia; by rewrite Z.add_0_r).
  f_equal. apply functional_extensionality. intros x. unfold get_addrs. case_decide as Hx; [|done]. change NDIRECT with 12 in Hx.
  unfold di_addr. rewrite <-!Z.add_assoc. by rewrite E by lia.
Qed.

(** The fields in the first eight bytes. *)
Lemma head_fields inum din t : length din = 64%nat -> slice din 0 8 = wr16 (wr16 (replicate 8 (chr 0)) 0 t) 6 1 -> t = T_DIR \/ t = T_FILE ->
  i_type (ino inum din) = t /\ i_major (ino inum din) = 0 /\ i_minor (ino inum din) = 0 /\ i_nlink (ino inum din) = 1.
Proof.
  intros Hl Hh Ht. assert (E : forall k, 0 <= k -> k + 2 <= 8 -> rd16 din k = rd16 (wr16 (wr16 (replicate 8 (chr 0)) 0 t) 6 1) k).
  { intros k Hk Hk2. rewrite <-Hh, rdn_of_slice by (simpl; lia). by rewrite Z.add_0_l. }
  simpl. unfold di_type, di_major, di_minor, di_nlink. rewrite !E by lia. destruct Ht as [->| ->]; by vm_compute.
Qed.

(** An inode of the image, with a size for which its blocks are there. *)
Lemma has_is_file m inum din t c size : has inum m din c -> valid_inum inum -> t = T_DIR \/ t = T_FILE ->
  slice din 0 8 = wr16 (wr16 (replicate 8 (chr 0)) 0 t) 6 1 -> di_size din 0 = size ->
  Z.of_nat (length c) <= size <= MAXFILE * BSIZE -> nblk size = nblk (Z.of_nat (length c)) ->
  let i := ino inum din in
  is_file sb (booted (view m)) i /\ i_type i = t /\ i_nlink i = 1 /\
  contents (view m) i = c ++ replicate (Z.to_nat size - length c) (chr 0).
Proof.
  intros Hh Hv Ht Hd Hs Hsz Hnb i. destruct Hh as [Ho Hl Hf Hm Hx Hb Htl]. destruct (head_fields inum din t Hl Hd Ht) as (E1 & E2 & E3 & E4).
  fold i in E1, E2, E3, E4. change (MAXFILE * BSIZE) with 274432 in Hsz. assert (Es : i_size i = size) by done.
  split_and!; [|done|done|].
  - split; [exact Hf| | | |exact Hv].
    + intros bn Hbn Hlt. apply Hm; [unfold in_file; change MAXFILE with 268|]; rewrite Es in Hlt.
      * change BSIZE with 1024 in *. lia.
      * rewrite <-Hnb. unfold nblk. change BSIZE with 1024 in *. divlia.
    + unfold size_ok. rewrite Es. change (MAXFILE * BSIZE) with 274432. lia.
    + assert (Ht2 : 0 <= t <= 2) by (destruct Ht as [->| ->]; done).
      split; [rewrite E1; lia|rewrite E2; lia|rewrite E3; lia|rewrite E4; lia|rewrite Es; lia|].
      intros j Hj. unfold i. rewrite ino_addrs by done. apply rdn_range.
  - apply list_eq. intros j. unfold contents. rewrite Es. destruct (decide (j < Z.to_nat size)%nat) as [Hj|Hj]; last first.
    { rewrite lookup_fbytes_ge by lia. symmetry. apply lookup_ge_None_2. rewrite length_app, length_replicate. lia. }
    rewrite lookup_fbytes, Z.add_0_l by done. destruct (decide (j < length c)%nat) as [Hjc|Hjc].
    + rewrite lookup_app_l by done. symmetry. by apply Hb.
    + rewrite lookup_app_r, lookup_replicate_2 by lia. f_equal. apply Htl. rewrite <-Hnb. unfold nblk. change BSIZE with 1024. divlia.
Qed.

(** ** The root directory *)

Lemma dirent_concat es z : forall j e, Forall (fun e => length e = 16%nat) es -> es !! j = Some e ->
  dirent (concat es ++ z) (sizeof_dirent * Z.of_nat j) = e.
Proof.
  induction es as [|e0 es IH]; intros j e Hl Hj; [done|]. apply Forall_cons in Hl as [H0 Hl]. unfold dirent, slice in *.
  change sizeof_dirent with 16 in *. cbn [concat]. rewrite <-app_assoc. destruct j as [|j].
  - injection Hj as ->. change (Z.to_nat (16 * Z.of_nat 0)) with 0%nat. rewrite drop_0. by rewrite take_app_length'.
  - replace (Z.to_nat (16 * Z.of_nat (S j))) with (length e0 + Z.to_nat (16 * Z.of_nat j))%nat by lia. rewrite drop_app_add. by apply IH.
Qed.

Lemma dir_list_entries c es : forall j, (forall x e, es !! x = Some e -> dirent c (sizeof_dirent * Z.of_nat (j + x)) = e) ->
  dir_list c j (length es) = omap entry_of es.
Proof.
  induction es as [|e es IH]; intros j Hd; [done|]. cbn [length]. rewrite dir_list_cons, (IH (S j)).
  - pose proof (Hd 0%nat e eq_refl) as E. rewrite Nat.add_0_r in E. rewrite E. cbn [omap list_omap]. by destruct (entry_of e).
  - intros x e' Hx. replace (S j + x)%nat with (j + S x)%nat by lia. by apply Hd.
Qed.

(** Empty entries after the others do not count. *)
Lemma dir_map_entries es q : Forall (fun e => length e = 16%nat) es ->
  dir_map (concat es ++ replicate (16 * q) (chr 0)) = list_to_map (omap entry_of es).
Proof.
  intros Hl. set (c := concat es ++ replicate (16 * q) (chr 0)).
  assert (Hlc : length (concat es) = (16 * length es)%nat).
  { clear c. induction Hl as [|e es He _ IH]; [done|]. cbn [concat length]. rewrite length_app, He, IH. lia. }
  assert (El : (length c / 16)%nat = (length es + q)%nat).
  { unfold c. rewrite length_app, length_replicate, Hlc, <-Nat.mul_add_distr_l, Nat.mul_comm. by apply Nat.div_mul. }
  unfold dir_map. rewrite El, dir_list_app, (dir_list_entries c es 0).
  - assert (Ez : dir_list c (0 + length es) q = omap entry_of (replicate q (replicate 16 (chr 0)))).
    { rewrite <-(length_replicate q (replicate 16 (chr 0))) at 1. apply dir_list_entries. intros x e [-> Hx]%lookup_replicate.
      unfold dirent, slice, c. change sizeof_dirent with 16. rewrite drop_app_ge by lia. rewrite drop_replicate, take_replicate.
      f_equal. rewrite Hlc. change (Z.to_nat 16) with 16%nat. lia. }
    assert (En : omap entry_of (replicate q (replicate 16 (chr 0))) = []) by (clear; induction q as [|q IH]; [done|exact IH]).
    rewrite Ez, En, app_nil_r. done.
  - intros x e Hx. apply dirent_concat; done.
Qed.

(** The names and inode numbers of the files, from [k] on. *)
Fixpoint numbered (k : Z) (names : list (list byte)) : list (list byte * Z) :=
  match names with
  | [] => []
  | name :: names => (name, k) :: numbered (k + 1) names
  end.

Lemma entries_numbered names : forall k, 0 < k -> k + Z.of_nat (length names) < 2 ^ 16 ->
  Forall (fun n => nul_free n /\ Z.of_nat (length n) <= DIRSIZ) names -> omap entry_of (entries k names) = numbered k names.
Proof.
  induction names as [|name names IH]; intros k Hk Hmax Hn; [done|]. apply Forall_cons in Hn as [[H1 H2] Hn]. cbn [length] in Hmax.
  cbn [entries numbered omap list_omap]. rewrite entry_of_mk by (done || lia). rewrite IH by (done || lia).
  unfold key. rewrite take_ge; [done|]. change DIRSIZ with 14 in *. lia.
Qed.

Lemma entries_length names : forall k, Forall (fun e : list byte => length e = 16%nat) (entries k names) /\ length (entries k names) = length names.
Proof.
  induction names as [|name names IH]; intros k; [by split|]. destruct (IH (k + 1)) as [H1 H2]. split.
  - constructor; [apply length_mk_dirent|done].
  - cbn [entries length]. by rewrite H2.
Qed.

Definition root_entries (names : list (list byte)) : list (list byte) :=
  mk_dirent ROOTINO (pad_name (bytes_of ".")) :: mk_dirent ROOTINO (pad_name (bytes_of "..")) :: entries 2 names.

(** The root directory as a map. *)
Definition root_map (names : list (list byte)) : gmap (list byte) Z :=
  list_to_map ((bytes_of ".", ROOTINO) :: (bytes_of "..", ROOTINO) :: numbered 2 names).

Lemma root_entries_length names : Forall (fun e : list byte => length e = 16%nat) (root_entries names) /\
  length (concat (root_entries names)) = (16 * (2 + length names))%nat.
Proof.
  destruct (entries_length names 2) as [H1 H2]. assert (Hf : Forall (fun e : list byte => length e = 16%nat) (root_entries names)).
  { constructor; [apply length_mk_dirent|]. constructor; [apply length_mk_dirent|done]. }
  split; [done|]. assert (Hl : length (root_entries names) = (2 + length names)%nat) by (unfold root_entries; cbn [length]; by rewrite H2).
  rewrite <-Hl. clear -Hf. induction Hf as [|e es He _ IH]; [done|]. cbn [concat length]. rewrite length_app, He, IH. lia.
Qed.

Lemma root_map_entries names q : 2 + Z.of_nat (length names) < 2 ^ 16 -> Forall (fun n => nul_free n /\ Z.of_nat (length n) <= DIRSIZ) names ->
  dir_map (concat (root_entries names) ++ replicate (16 * q) (chr 0)) = root_map names.
Proof.
  intros Hn Hf. rewrite dir_map_entries by apply root_entries_length. unfold root_map. f_equal.
  rewrite <-(entries_numbered names 2) by (done || lia). done.
Qed.

(** The name of a file has no NUL and fits its entry. *)
Lemma short_name_ok arg name : short_name arg = Some name -> nul_free arg -> nul_free name /\ Z.of_nat (length name) <= DIRSIZ.
Proof.
  unfold short_name. intros E Hn. set (s := if _ =? 0 then drop 5 arg else arg) in E.
  assert (Hs : nul_free s) by (subst s; destruct (_ =? 0); [by apply Forall_drop|done]). case_decide; [done|].
  set (s' := match s with [] => [] | c :: s' => if decide (c = chr 95) then s' else s end) in E.
  assert (Hs' : nul_free s').
  { subst s'. destruct s as [|c s0]; [done|]. case_decide; [|done]. by apply Forall_cons in Hs as [_ ?]. }
  destruct (Z.leb_spec (Z.of_nat (length s')) DIRSIZ); [|done]. injection E as <-. done.
Qed.

(** ** main *)

Lemma short_names_ok (fs : list (list byte * list (list byte))) ns : Forall2 (fun f name => short_name f.1 = Some name) fs ns ->
  Forall (fun f => nul_free f.1) fs -> Forall (fun n => nul_free n /\ Z.of_nat (length n) <= DIRSIZ) ns.
Proof.
  induction 1 as [|f name fs ns E _ IH]; intros Hn; [constructor|]. apply Forall_cons in Hn as [H1 H2].
  constructor; [by eapply short_name_ok|by apply IH].
Qed.

Section main.
Context (files : list (list byte * list (list byte))) (names : list (list byte)).

(** The files that end up on the disk. *)
Definition tree : list (Z * list byte) := (T_DIR, concat (root_entries names)) :: ((fun f => (T_FILE, concat f.2)) <$> files).

(** The names are legal, and there is room for the files. *)
Record files_ok : Prop := {
  fk_names : Forall2 (fun f name => short_name f.1 = Some name) files names;
  fk_nul : Forall (fun f => nul_free f.1) files;
  fk_sizes : Forall (fun f => Z.of_nat (length (concat f.2)) <= MAXFILE * BSIZE) files;
  fk_inodes : Z.of_nat (length files) + 2 <= NINODES;
  fk_room : nmeta + total tree <= FSSIZE
}.

Hypothesis Hok : files_ok.

Lemma names_length : length names = length files.
Proof using Hok. symmetry. apply (Forall2_length _ _ _ (fk_names Hok)). Qed.

Lemma tree_length : length tree = S (length files).
Proof using. unfold tree. cbn [length]. by rewrite length_fmap. Qed.

Lemma root_size : Z.of_nat (length (concat (root_entries names))) = 16 * (2 + Z.of_nat (length files)).
Proof using Hok. destruct (root_entries_length names) as [_ ->]. rewrite names_length. lia. Qed.

Lemma tree_sizes n g : tree !! n = Some g -> Z.of_nat (length g.2) <= MAXFILE * BSIZE.
Proof using Hok.
  destruct n as [|n]; intros E.
  - assert (g = (T_DIR, concat (root_entries names))) as -> by (symmetry; exact (Some_inj _ _ E)). cbn [snd]. rewrite root_size. pose proof (fk_inodes Hok) as Hi. change NINODES with 200 in Hi.
    change (MAXFILE * BSIZE) with 274432. lia.
  - cbn [tree lookup list_lookup] in E. apply list_lookup_fmap_Some in E as (f & -> & Hf). cbn [snd].
    pose proof (fk_sizes Hok) as Hs. rewrite Forall_lookup in Hs. by apply (Hs _ _ Hf).
Qed.

(** What is left of [main] once the files are there. *)
Definition finish (m : image) : option image :=
  din ← rinode ROOTINO m;
  let off := (di_size din 0 / BSIZE + 1) * BSIZE in
  m ← winode ROOTINO (wr32 din 8 off) m;
  balloc (m_freeblock m) m.

Lemma main_files : exists m, main files = finish m /\ holds m tree.
Proof using Hok.
  pose proof (fk_room Hok) as Hroom. assert (Hcount : 1 + Z.of_nat (length tree) <= NINODES) by (rewrite tree_length; pose proof (fk_inodes Hok); lia).
  set (e1 := mk_dirent ROOTINO (pad_name (bytes_of "."))). set (e2 := mk_dirent ROOTINO (pad_name (bytes_of ".."))).
  assert (Etree : added (e1 ++ e2) [] names files = tree).
  { unfold added, tree, root_entries. cbn [length concat app]. fold e1 e2. by rewrite <-app_assoc. }
  assert (Hpre : forall c, (length c <= length (concat (root_entries names)))%nat -> fits [(T_DIR, c)] tree).
  { intros c Hc n f Hn. destruct n as [|n]; [|done]. injection Hn as <-. eexists. split; [done|]. done. }
  destruct (ialloc_spec empty_image [] T_DIR empty_holds ltac:(done) ltac:(by left)) as (m0 & E0 & H0). change ([] ++ [(T_DIR, [])]) with [(T_DIR, [] : list byte)] in H0.
  destruct (root_entries_length names) as [_ Hrl].
  destruct (fits_append tree Hroom tree_sizes m0 _ 0 T_DIR [] e1 H0 eq_refl) as (m1 & E1 & H1).
  { apply (Hpre e1). unfold e1. rewrite length_mk_dirent, Hrl. lia. }
  destruct (fits_append tree Hroom tree_sizes m1 _ 0 T_DIR e1 e2 H1 eq_refl) as (m2 & E2 & H2).
  { apply (Hpre (e1 ++ e2)). unfold e1, e2. rewrite length_app, !length_mk_dirent, Hrl. lia. }
  destruct (add_files_spec tree Hroom Hcount tree_sizes files m2 (e1 ++ e2) [] names H2 (fk_names Hok)) as (m3 & E3 & H3).
  { rewrite Etree. intros n f Hn. exists f. by split. }
  rewrite Etree in H3. exists m3. split; [|exact H3]. unfold main. fold empty_image. change (1 + Z.of_nat (length [])) with 1 in E0.
  rewrite E0. cbn [mbind option_bind]. change (negb (1 =? ROOTINO)) with false. cbv iota.
  assert (E1' : enter 1 1 (bytes_of ".") m0 = Some m1) by exact E1. rewrite E1'. cbn [mbind option_bind].
  assert (E2' : enter 1 1 (bytes_of "..") m1 = Some m2) by exact E2. rewrite E2'. cbn [mbind option_bind].
  assert (E3' : add_files 1 files m2 = Some m3) by exact E3. rewrite E3'. done.
Qed.

(** The root directory with its size rounded up to a block. *)
Section finish.
Context (m : image).
Hypothesis H : holds m tree.
Let sz := 16 * (2 + Z.of_nat (length files)).
Let off := (sz / BSIZE + 1) * BSIZE.

Lemma finish_spec : exists m4 m5, finish m = Some m5 /\ m_disk m5 = view m4 /\ m_freeblock m5 = m_freeblock m /\ mk_ok m4 /\
  m_freeblock m4 = m_freeblock m /\ din_at m4 1 = wr32 (din_at m 1) 8 off /\ (forall a, valid_inum a -> a <> 1 -> din_at m4 a = din_at m a) /\
  (forall b, b <> IBLOCK 1 sb -> m_disk m4 b = m_disk m b).
Proof using Hok H.
  pose proof (ho_ok _ _ H) as Ho. pose proof (ho_node _ _ H 0%nat _ _ eq_refl) as [Hh Hs _]. change (Z.of_nat 0 + 1) with 1 in Hh, Hs.
  rewrite root_size in Hs by done. fold sz in Hs. assert (Hv : valid_inum 1) by done.
  assert (Hl : length (wr32 (din_at m 1) 8 off) = 64%nat) by (rewrite length_wrn; rewrite ?(ha_len _ _ _ _ Hh); done).
  destruct (winode_spec m 1 (wr32 (din_at m 1) 8 off) Ho Hv Hl) as (m4 & E4 & Ho4 & Ed & Eo & Eb & Ef & Ei).
  exists m4, (wsect (sb_bmapstart sb) (free_map (m_freeblock m4)) m4). split_and!; try done.
  unfold finish. rewrite (rinode_spec m ROOTINO Ho Hv). cbn [mbind option_bind]. change ROOTINO with 1. rewrite Hs. fold off. rewrite E4.
  cbn [mbind option_bind]. unfold balloc. rewrite (proj2 (Z.ltb_lt _ _)); [done|]. pose proof (mo_free _ Ho4). change FSSIZE with 2000 in *. change BPB with 8192. lia.
Qed.
End finish.

(** What the kernel finds on the disk [v]: the superblock, an empty log, the
    free map, the files with their contents and the root directory. *)
Record bootable (v : Z -> block) (fb : Z) : Prop := {
  bo_blocks : forall b, length (v b) = Z.to_nat BSIZE;
  bo_super : get_sb (v 1) = sb /\ geometry sb 2;
  bo_log : hdr_n (v (sb_logstart sb)) = 0;
  bo_map : data_start sb <= fb <= sb_size sb /\ forall b, 0 <= b < sb_size sb -> used sb v b = (b <? fb);
  bo_files : forall n f, files !! n = Some f -> let i := disk_inode v (Z.of_nat n + 2) in
    is_file sb (booted v) i /\ i_type i = T_FILE /\ i_nlink i = 1 /\ contents v i = concat f.2;
  bo_apart : forall n n' b, (n <= length files)%nat -> (n' <= length files)%nat ->
    belongs v (disk_inode v (Z.of_nat n + 1)) b -> belongs v (disk_inode v (Z.of_nat n' + 1)) b -> n = n';
  bo_root : (Z.of_nat (length files) + 2) mod 64 <> 0 -> let i := disk_inode v ROOTINO in
    dir_file sb (booted v) i /\ i_nlink i = 1 /\ dir_map (contents v i) = root_map names
}.

Lemma view_inode m inum : valid_inum inum -> disk_inode (view m) inum = ino inum (din_at m inum).
Proof using.
  intros Hv. rewrite disk_inode_ino. pose proof (iblock_range inum Hv). rewrite view_disk; [done|]. change (sb_bmapstart sb) with 46. lia.
Qed.

Section final.
Context (m m4 : image).
Hypothesis H : holds m tree.
Hypothesis Ho4 : mk_ok m4.
Hypothesis Ef : m_freeblock m4 = m_freeblock m.
Let sz := 16 * (2 + Z.of_nat (length files)).
Let off := (sz / BSIZE + 1) * BSIZE.
Hypothesis Ed : din_at m4 1 = wr32 (din_at m 1) 8 off.
Hypothesis Eo : forall a, valid_inum a -> a <> 1 -> din_at m4 a = din_at m a.
Hypothesis Eb : forall b, b <> IBLOCK 1 sb -> m_disk m4 b = m_disk m b.

Lemma final_view a t c b : node_ok m a t c -> blocks_of m a b -> view m4 b = view m b.
Proof using H Ho4 Ef Ed Eo Eb Hok.
  intros Nd Hb. pose proof (node_blocks _ _ _ _ _ Nd Hb) as Hr. change (data_start sb) with 47 in Hr.
  rewrite !view_disk by (change (sb_bmapstart sb) with 46; lia). apply Eb. pose proof (iblock_range 1 ltac:(done)). lia.
Qed.

Lemma final_inum n : (n <= length files)%nat -> valid_inum (Z.of_nat n + 1).
Proof using H Ho4 Ef Ed Eo Eb Hok. intros Hn. pose proof (fk_inodes Hok) as Hi. unfold valid_inum. change (sb_ninodes sb) with NINODES. lia. Qed.

(** The root directory. *)
Lemma final_root : has 1 m4 (din_at m4 1) (concat (root_entries names)) /\ (forall b, blocks_of m4 1 b <-> blocks_of m 1 b) /\
  di_size (din_at m4 1) 0 = off /\ slice (din_at m4 1) 0 8 = wr16 (wr16 (replicate 8 (chr 0)) 0 T_DIR) 6 1.
Proof using H Ho4 Ef Ed Eo Eb Hok.
  pose proof (ho_node _ _ H 0%nat _ _ eq_refl) as Nd. change (Z.of_nat 0 + 1) with 1 in Nd. destruct (Nd) as [Hh Hs Hd].
  pose proof (ha_len _ _ _ _ Hh) as Hl. pose proof (fk_inodes Hok) as Hi. change NINODES with 200 in Hi.
  assert (Hoff : 0 <= off < 2 ^ 32) by (unfold off, sz; change BSIZE with 1024; divlia).
  assert (Hl4 : length (din_at m4 1) = 64%nat) by (by apply length_din_at).
  assert (Hda : forall x, i_addrs (ino 1 (din_at m4 1)) x = i_addrs (ino 1 (din_at m 1)) x).
  { intros x. rewrite Ed. simpl. unfold get_addrs. case_decide as Hx; [|done]. change NDIRECT with 12 in Hx. apply rdn_wrn_other; rewrite ?Hl; simpl; lia. }
  destruct (has_frame 1 m m4 (din_at m 1) (din_at m4 1) _ Hh Ho4 ltac:(lia) Hl4 Hda) as [Hh4 Hb4].
  { intros b Hb. by apply (final_view _ _ _ _ Nd). }
  split_and!; [done|done| |].
  - rewrite Ed. unfold di_size. change (0 + 8) with 8. rewrite rdn_wrn by (rewrite ?Hl; simpl; lia). apply Z.mod_small. simpl. lia.
  - rewrite <-Hd, Ed. apply slice_wrn_other; rewrite ?Hl; simpl; lia.
Qed.

Lemma final_node n t c : n <> 0%nat -> tree !! n = Some (t, c) -> node_ok m4 (Z.of_nat n + 1) t c /\
  forall b, blocks_of m4 (Z.of_nat n + 1) b <-> blocks_of m (Z.of_nat n + 1) b.
Proof using H Ho4 Ef Ed Eo Eb Hok.
  intros Hn Hl. pose proof (ho_node _ _ H _ _ _ Hl) as Nd. pose proof (lookup_lt_Some _ _ _ Hl) as Hlt. rewrite tree_length in Hlt.
  apply node_frame; [done|done|lia|apply Eo; [by apply final_inum; lia|lia]|]. intros b Hb. by apply (final_view _ _ _ _ Nd).
Qed.

Lemma final_bootable : bootable (view m4) (m_freeblock m4).
Proof using H Ho4 Ef Ed Eo Eb Hok.
  pose proof (mo_free _ Ho4) as Hfb. pose proof (fk_inodes Hok) as Hi. change NINODES with 200 in Hi.
  pose proof (iblock_range 1 ltac:(done)) as Hib. destruct final_root as (Hr & Hrb & Hrs & Hrh).
  assert (Hmeta : forall b, 0 <= b < 33 -> view m4 b = m_disk m b).
  { intros b Hb. rewrite view_disk by (change (sb_bmapstart sb) with 46; lia). apply Eb. lia. }
  assert (Hblocks : forall n, (n <= length files)%nat -> forall b, belongs (view m4) (disk_inode (view m4) (Z.of_nat n + 1)) b <-> blocks_of m (Z.of_nat n + 1) b).
  { intros n Hn b. rewrite view_inode by (by apply final_inum). destruct n as [|n]; [apply Hrb|].
    destruct (lookup_lt_is_Some_2 tree (S n)) as [[t c] Hl]; [rewrite tree_length; lia|]. by apply (final_node (S n) t c). }
  split.
  - intros b. destruct (decide (b = sb_bmapstart sb)) as [->|Hb]; [|rewrite view_disk by done; apply Ho4].
    unfold view. rewrite upd_same. unfold free_map. by rewrite length_mark.
  - rewrite Hmeta, (ho_super _ _ H) by lia. split; [by vm_compute|exact mkfs_geometry].
  - change (sb_logstart sb) with 2. rewrite Hmeta, (ho_log _ _ H) by lia. by vm_compute.
  - split; [change (data_start sb) with nmeta; change (sb_size sb) with FSSIZE; lia|]. intros b Hb. by apply mk_ok_used.
  - intros n f Hf i. pose proof (lookup_lt_Some _ _ _ Hf) as Hlt. assert (Hl : tree !! S n = Some (T_FILE, concat f.2)).
    { unfold tree. cbn [lookup list_lookup]. apply list_lookup_fmap_Some. by exists f. }
    destruct (final_node (S n) _ _ ltac:(done) Hl) as [[Hh Hs Hd] _]. assert (Hv : valid_inum (Z.of_nat (S n) + 1)) by (apply final_inum; lia).
    pose proof (tree_sizes _ _ Hl) as Hmx. cbn [snd] in Hmx.
    destruct (has_is_file m4 _ _ T_FILE (concat f.2) _ Hh Hv ltac:(by right) Hd Hs ltac:(lia) eq_refl) as (F1 & F2 & F3 & F4).
    subst i. replace (Z.of_nat n + 2) with (Z.of_nat (S n) + 1) by lia. rewrite view_inode by done.
    rewrite Nat2Z.id, Nat.sub_diag, app_nil_r in F4. done.
  - intros n n' b Hn Hn' B1 B2. apply Hblocks in B1, B2; [|done|done]. eapply (ho_apart _ _ H); [..|exact B1|exact B2]; rewrite tree_length; lia.
  - intros Hmod i. assert (Hv : valid_inum 1) by done. pose proof root_size as Hsz. fold sz in Hsz.
    assert (Hoff : Z.of_nat (length (concat (root_entries names))) <= off <= MAXFILE * BSIZE /\ nblk off = nblk (Z.of_nat (length (concat (root_entries names))))).
    { rewrite Hsz. unfold nblk, off, sz in *. change (MAXFILE * BSIZE) with 274432. change BSIZE with 1024. divlia. }
    destruct (has_is_file m4 1 _ T_DIR _ off Hr Hv ltac:(by left) Hrh Hrs (proj1 Hoff) (proj2 Hoff)) as (F1 & F2 & F3 & F4).
    subst i. change ROOTINO with 1. rewrite view_inode by done.
    assert (Eq : (Z.to_nat off - length (concat (root_entries names)))%nat = (16 * Z.to_nat ((off - sz) / 16))%nat).
    { unfold off, sz in *. change BSIZE with 1024 in *. divlia. }
    assert (Hes : i_size (ino 1 (din_at m4 1)) = off) by done.
    split_and!; [split; [done|]|done|].
    + split; [done|apply F1|apply F1|]. rewrite Hes. change sizeof_dirent with 16. unfold off. change BSIZE with 1024. divlia.
    + rewrite F4, Eq. apply root_map_entries; [rewrite names_length; lia|].
      by eapply short_names_ok; [apply (fk_names Hok)|apply (fk_nul Hok)].
Qed.
End final.

(** C11: When the files fit, mkfs makes an image, and the kernel finds on it what
    its file system relies on: the superblock and the layout it describes, an
    empty log, a free map with exactly the blocks in use, every file with its
    contents in blocks of its own, and a root directory with the entries for the
    two dots and for the files. *)
Theorem mkfs_builds : exists m, main files = Some m /\ bootable (m_disk m) (m_freeblock m).
Proof using Hok.
  destruct main_files as (m & E & H). destruct (finish_spec m H) as (m4 & m5 & E5 & Ev & Ef5 & Ho4 & Ef & Ed & Eo & Eb).
  exists m5. split; [by rewrite E|]. rewrite Ev, Ef5, <-Ef. by apply (final_bootable m).
Qed.
End main.

(** Two files, one of them from the user directory. *)
Module MkfsDemo.

Definition files : list (list byte * list (list byte)) :=
  [(bytes_of "README", [bytes_of "xv6 is "; bytes_of "a re-implementation"]); (bytes_of "user/_cat", [bytes_of "cat"])].

Definition names : list (list byte) := [bytes_of "README"; bytes_of "cat"].

Lemma demo_files_ok : files_ok files names.
Proof.
  split.
  - repeat constructor.
  - repeat constructor.
  - repeat constructor; vm_compute; congruence.
  - vm_compute. congruence.
  - vm_compute. congruence.
Qed.

End MkfsDemo.

Lemma mkfs_builds_witness : exists m, main MkfsDemo.files = Some m /\ bootable MkfsDemo.files MkfsDemo.names (m_disk m) (m_freeblock m).
Proof. apply mkfs_builds. exact MkfsDemo.demo_files_ok. Defined.

(** When the entries of the root directory fill their blocks exactly,
    rounding the size up goes one block too far: with 62 files the directory has
    a second block in its size and none in its addresses. *)
Theorem mkfs_root_hole : exists m, main (replicate 62 (bytes_of "x", [])) = Some m /\
  let i := disk_inode (m_disk m) ROOTINO in i_type i = T_DIR /\ i_size i = 2 * BSIZE /\ i_addrs i 0 = nmeta /\ i_addrs i 1 = 0.
Proof.
  assert (Hd : (fun m => let i := disk_inode (m_disk m) ROOTINO in (i_type i, i_size i, i_addrs i 0, i_addrs i 1)) <$> main (replicate 62 (bytes_of "x", [])) = Some (T_DIR, 2 * BSIZE, nmeta, 0)) by (vm_compute; reflexivity).
  apply fmap_Some_1 in Hd as (m & E & Hm). exists m. split; [exact E|]. cbv zeta in Hm |- *. injection Hm as -> -> -> ->. by split_and!.
Qed.
