(* ===== verification/Printf.v ===== *)
(** * Printf: formatted output, kernel/printf.c and user/printf.c

    The two files share the format language and differ in [printint].  A
    conversion takes the next argument word; the output is the sequence of
    bytes given to [consputc] or [putc]. *)

From S2P Require Import Prelude.

(** An argument: an integer register, or a string pointer, perhaps null. *)
Inductive arg := ANum (x : Z) | AStr (s : option (list byte)).

(** [va_arg] as an integer of the given type. *)
Definition arg_int (a : arg) : Z := match a with ANum x => i32 x | AStr _ => 0 end.
Definition arg_uint32 (a : arg) : Z := match a with ANum x => u32 x | AStr _ => 0 end.
Definition arg_uint64 (a : arg) : Z := match a with ANum x => u64 x | AStr _ => 0 end.
Definition arg_str (a : arg) : list byte :=
  match a with AStr (Some s) => s | AStr None => bytes_of "(null)" | ANum _ => [] end.

(** ** Digits *)

Definition kdigits : list byte := bytes_of "0123456789abcdef".
Definition udigits : list byte := bytes_of "0123456789ABCDEF".
Definition digit (table : list byte) (d : Z) : byte := nth (Z.to_nat d) table (chr 0).

(** [do { buf[i++] = digits[x % base]; } while((x /= base) != 0);] the array
    with the last digit first. *)
Fixpoint put_digits (fuel : nat) (table : list byte) (x base : Z) (buf : list byte) : option (list byte) :=
  match fuel with
  | O => None
  | S fuel =>
      let buf := buf ++ [digit table (x mod base)] in
      let x := x / base in
      if negb (x =? 0) then put_digits fuel table x base buf else Some buf
  end.

(** A 64-bit number has at most 64 digits. *)
Definition digit_fuel : nat := 64.

(** kernel/printf.c: the array [buf] just before it is printed; [xx] is a
    [long long]. *)
Definition kprintint_buf (xx base : Z) (sign : bool) : option (list byte) :=
  let sign := sign && (xx <? 0) in
  let x := if sign then u64 (- xx) else u64 xx in
  buf ← put_digits digit_fuel kdigits x base [];
  Some (if sign then buf ++ bytes_of "-" else buf).

(** user/printf.c: [x] is a [uint]. *)
Definition uprintint_buf (xx base : Z) (sgn : bool) : option (list byte) :=
  let neg := sgn && (xx <? 0) in
  let x := if neg then u32 (- xx) else u32 xx in
  buf ← put_digits digit_fuel udigits x base [];
  Some (if neg then buf ++ bytes_of "-" else buf).

(** [while(--i >= 0) consputc(buf[i]);] *)
Definition kprintint (xx base : Z) (sign : bool) : list byte :=
  match kprintint_buf xx base sign with Some buf => reverse buf | None => [] end.
Definition uprintint (xx base : Z) (sgn : bool) : list byte :=
  match uprintint_buf xx base sgn with Some buf => reverse buf | None => [] end.

Fixpoint printptr_loop (table : list byte) (x : Z) (n : nat) : list byte :=
  match n with
  | O => []
  | S n => digit table (Z.shiftr x 60) :: printptr_loop table (u64 (Z.shiftl x 4)) n
  end.

Definition printptr (table : list byte) (x : Z) : list byte := bytes_of "0x" ++ printptr_loop table x 16.

(** ** The format *)

(** What a conversion prints, and the number of characters of the format it
    uses after its first. *)
Inductive conv := CInt (long : bool) | CUInt (long : bool) | CHex (long : bool) | CPtr | CChar | CStr | CPercent | CUnknown.

(** The chain of tests on [c0], [c1] and [c2]; a missing character is 0. *)
Definition conversion (c0 c1 c2 : Z) : conv * nat :=
  if c0 =? 100 then (CInt false, 0%nat)
  else if (c0 =? 108) && (c1 =? 100) then (CInt true, 1%nat)
  else if (c0 =? 108) && (c1 =? 108) && (c2 =? 100) then (CInt true, 2%nat)
  else if c0 =? 117 then (CUInt false, 0%nat)
  else if (c0 =? 108) && (c1 =? 117) then (CUInt true, 1%nat)
  else if (c0 =? 108) && (c1 =? 108) && (c2 =? 117) then (CUInt true, 2%nat)
  else if c0 =? 120 then (CHex false, 0%nat)
  else if (c0 =? 108) && (c1 =? 120) then (CHex true, 1%nat)
  else if (c0 =? 108) && (c1 =? 108) && (c2 =? 120) then (CHex true, 2%nat)
  else if c0 =? 112 then (CPtr, 0%nat)
  else if c0 =? 99 then (CChar, 0%nat)
  else if c0 =? 115 then (CStr, 0%nat)
  else if c0 =? 37 then (CPercent, 0%nat)
  else (CUnknown, 0%nat).

Section printf.
(** [printint] and the digits of the file. *)
Context (printint : Z -> Z -> bool -> list byte) (table : list byte).

(** The output of a conversion and the remaining arguments; [None] when the
    call has too few arguments. *)
Definition print_conv (c : conv) (c0 : byte) (args : list arg) : option (list byte * list arg) :=
  match c with
  | CPercent => Some ([chr 37], args)
  | CUnknown => Some ([chr 37; c0], args)
  | _ =>
      match args with
      | [] => None
      | a :: args =>
          Some (match c with
                | CInt false => printint (arg_int a) 10 true
                | CInt true => printint (i64 (arg_uint64 a)) 10 true
                | CUInt false => printint (arg_uint32 a) 10 false
                | CUInt true => printint (i64 (arg_uint64 a)) 10 false
                | CHex false => printint (arg_uint32 a) 16 false
                | CHex true => printint (i64 (arg_uint64 a)) 16 false
                | CPtr => printptr table (arg_uint64 a)
                | CChar => [chr (arg_uint32 a)]
                | _ => arg_str a
                end, args)
      end
  end.

(** The loop over the format; both functions stop at a [%] that ends it. *)
Fixpoint format_loop (fuel : nat) (fmt : list byte) (args : list arg) : option (list byte) :=
  match fuel, fmt with
  | _, [] => Some []
  | O, _ => None
  | S fuel, cx :: fmt =>
      if decide (cx = chr 37) then
        match fmt with
        | [] => Some []
        | c0 :: fmt =>
            let c1 := cv (nth 0 fmt (chr 0)) in
            let c2 := if c1 =? 0 then 0 else cv (nth 1 fmt (chr 0)) in
            let '(c, skip) := conversion (cv c0) c1 c2 in
            '(out, args) ← print_conv c c0 args;
            rest ← format_loop fuel (drop skip fmt) args;
            Some (out ++ rest)
        end
      else
        rest ← format_loop fuel fmt args;
        Some (cx :: rest)
  end.
End printf.

(** kernel/printf.c: [printf] *)
Definition kprintf (fmt : list byte) (args : list arg) : option (list byte) :=
  format_loop kprintint kdigits (length fmt) fmt args.

(** user/printf.c: [vprintf] *)
Definition vprintf (fmt : list byte) (args : list arg) : option (list byte) :=
  format_loop uprintint udigits (length fmt) fmt args.

(** ** Numerals *)

(** The value of a digit, and of a numeral read from the left. *)
Definition digit_value (b : byte) : Z :=
  let c := cv b in
  if (48 <=? c) && (c <=? 57) then c - 48
  else if (97 <=? c) && (c <=? 102) then c - 87
  else if (65 <=? c) && (c <=? 70) then c - 55 else -1.

Definition numeral (base : Z) (l : list byte) : Z := foldl (fun n b => n * base + digit_value b) 0 l.

(** The integer a printed number denotes. *)
Definition number (base : Z) (l : list byte) : Z :=
  match l with
  | b :: l' => if decide (b = chr 45) then - numeral base l' else numeral base l
  | [] => 0
  end.

Definition is_table (table : list byte) : Prop :=
  forall d, 0 <= d < 16 -> digit_value (digit table d) = d /\ digit table d <> chr 45.

Lemma kdigits_table : is_table kdigits.
Proof.
  intros d Hd. assert (Hin : d ∈ seqZ 0 16) by (apply elem_of_seqZ; lia). revert d Hd Hin.
  assert (H : Forall (fun d => digit_value (digit kdigits d) = d /\ digit kdigits d <> chr 45) (seqZ 0 16)) by (repeat constructor; by vm_compute).
  intros d _ Hin. by apply (proj1 (Forall_forall _ _) H).
Qed.

Lemma udigits_table : is_table udigits.
Proof.
  intros d Hd. assert (Hin : d ∈ seqZ 0 16) by (apply elem_of_seqZ; lia). revert d Hd Hin.
  assert (H : Forall (fun d => digit_value (digit udigits d) = d /\ digit udigits d <> chr 45) (seqZ 0 16)) by (repeat constructor; by vm_compute).
  intros d _ Hin. by apply (proj1 (Forall_forall _ _) H).
Qed.

Lemma numeral_snoc base l b : numeral base (l ++ [b]) = numeral base l * base + digit_value b.
Proof. unfold numeral. by rewrite foldl_app. Qed.

(** The digits of [x], the last one first: as many as needed. *)
Lemma put_digits_spec table base : is_table table -> 2 <= base <= 16 -> forall fuel x buf,
  0 <= x < base ^ Z.of_nat fuel -> (0 < fuel)%nat ->
  exists ds, put_digits fuel table x base buf = Some (buf ++ ds) /\ numeral base (reverse ds) = x /\
    (0 < length ds)%nat /\ (length ds = 1%nat \/ base ^ (Z.of_nat (length ds) - 1) <= x) /\
    Forall (fun b => b <> chr 45) ds.
Proof.
  intros Ht Hb. induction fuel as [|fuel IH]; intros x buf Hx Hfu; [lia|]. cbn [put_digits].
  pose proof (Z.mod_pos_bound x base ltac:(lia)) as Hm. pose proof (Z.div_mod x base ltac:(lia)) as Hdm.
  destruct (Ht (x mod base) ltac:(lia)) as [Hv Hne].
  destruct (x / base =? 0) eqn:E; cbn [negb].
  - apply Z.eqb_eq in E. exists [digit table (x mod base)]. split_and!; [done| |simpl; lia|by left|by repeat constructor].
    change (numeral base ([] ++ [digit table (x mod base)]) = x). rewrite numeral_snoc, Hv. unfold numeral; simpl. lia.
  - apply Z.eqb_neq in E. pose proof (Z.div_pos x base ltac:(lia) ltac:(lia)) as Hp.
    destruct (IH (x / base) (buf ++ [digit table (x mod base)])) as (ds & Eq & En & Hl & Hlen & Hf).
    { split; [lia|]. apply Z.div_lt_upper_bound; [lia|]. rewrite Nat2Z.inj_succ, Z.pow_succ_r in Hx by lia. lia. }
    { destruct fuel; [|lia]. change (base ^ Z.of_nat 1) with (base ^ 1) in Hx. rewrite Z.pow_1_r in Hx.
      destruct E. apply Z.div_small. lia. }
    exists (digit table (x mod base) :: ds). rewrite Eq, <-app_assoc. split_and!; [done| |simpl; lia| |by constructor].
    + rewrite reverse_cons, numeral_snoc, En, Hv. lia.
    + right. cbn [length]. replace (Z.of_nat (S (length ds)) - 1) with (Z.of_nat (length ds)) by lia.
      destruct Hlen as [Hlen|Hlen]; [rewrite Hlen, Z.pow_1_r; nia|].
      replace (Z.of_nat (length ds)) with (Z.succ (Z.of_nat (length ds) - 1)) by lia.
      rewrite Z.pow_succ_r by lia. nia.
Qed.

Lemma fuel_enough base x : 2 <= base -> 0 <= x < 2 ^ 64 -> 0 <= x < base ^ Z.of_nat digit_fuel.
Proof.
  intros Hb Hx. split; [lia|]. eapply Z.lt_le_trans; [apply Hx|]. apply Z.pow_le_mono_l. lia.
Qed.

(** The number read back from the reversed buffer. *)
Lemma number_plain base ds : Forall (fun b => b <> chr 45) ds -> (0 < length ds)%nat ->
  number base (reverse ds) = numeral base (reverse ds).
Proof.
  intros Hf Hl. unfold number. destruct (reverse ds) as [|b l] eqn:E; [done|].
  rewrite decide_False; [done|]. rewrite <-Forall_reverse, E in Hf. by apply Forall_cons in Hf as [? _].
Qed.

Lemma number_minus base ds : number base (reverse (ds ++ bytes_of "-")) = - numeral base (reverse ds).
Proof. rewrite reverse_app. done. Qed.

(** The kernel's [printint] prints the number it is given.  In decimal or
    hexadecimal, the characters denote the argument as a signed number, or its
    64-bit pattern when no sign is asked for; and they fit the 20 bytes of
    the buffer for every argument. *)
Theorem kprintint_prints (xx base : Z) (sign : bool) :
  - 2 ^ 63 <= xx < 2 ^ 63 -> base = 10 \/ base = 16 /\ sign = false ->
  number base (kprintint xx base sign) = (if sign then xx else xx mod 2 ^ 64) /\
  exists buf, kprintint_buf xx base sign = Some buf /\ (0 < length buf <= 20)%nat.
Proof.
  intros Hx Hbase. unfold kprintint, kprintint_buf.
  assert (Hb : 2 <= base <= 16) by lia.
  assert (Hsmall : forall n, base ^ (Z.of_nat n - 1) <= 2 ^ 64 -> (n <= 20)%nat).
  { intros n Hn. destruct (decide (n <= 20)%nat) as [|Hgt]; [done|exfalso].
    assert (base ^ 20 <= base ^ (Z.of_nat n - 1)) by (apply Z.pow_le_mono_r; lia).
    assert (10 ^ 20 <= base ^ 20) by (apply Z.pow_le_mono_l; lia). lia. }
  destruct (sign && (xx <? 0)) eqn:Es.
  - apply andb_true_iff in Es as [-> Hneg%Z.ltb_lt]. destruct Hbase as [->|[_ ?]]; [|done].
    unfold u64. rewrite Z.mod_small by lia.
    destruct (put_digits_spec kdigits 10 kdigits_table ltac:(lia) digit_fuel (- xx) []) as (ds & E & En & Hl & Hlen & Hf).
    { apply fuel_enough; lia. } { unfold digit_fuel; lia. }
    rewrite E. simpl. rewrite number_minus, En. split; [lia|]. eexists. split; [done|].
    rewrite length_app. simpl. split; [lia|]. destruct (decide (length ds <= 19)%nat) as [|Hgt]; [lia|exfalso].
    assert (10 ^ 19 <= 10 ^ (Z.of_nat (length ds) - 1)) by (apply Z.pow_le_mono_r; lia). lia.
  - destruct (put_digits_spec kdigits base kdigits_table Hb digit_fuel (u64 xx) []) as (ds & E & En & Hl & Hlen & Hf).
    { apply fuel_enough; [lia|]. apply Z.mod_pos_bound. lia. } { unfold digit_fuel; lia. }
    rewrite E. simpl. rewrite number_plain, En by done. split.
    + unfold u64. destruct sign; [|done]. simpl in Es. apply Z.ltb_ge in Es. by rewrite Z.mod_small by lia.
    + eexists. split; [done|]. split; [done|]. destruct Hlen as [->|Hlen]; [lia|]. apply Hsmall.
      pose proof (Z.mod_pos_bound xx (2 ^ 64)). unfold u64 in Hlen. lia.
Qed.

Lemma kprintint_prints_witness : number 10 (kprintint (- 2 ^ 63) 10 true) = - 2 ^ 63.
Proof. apply (kprintint_prints (- 2 ^ 63) 10 true); [lia|by left]. Defined.

(** The user library's [printint] prints numbers that fit 32 bits: the
    characters denote the argument when it is an [int] printed with a sign, or
    an [unsigned int] printed without. *)
Theorem uprintint_prints (xx base : Z) (sgn : bool) :
  (if sgn then - 2 ^ 31 <= xx < 2 ^ 31 else 0 <= xx < 2 ^ 32) -> base = 10 \/ base = 16 ->
  number base (uprintint xx base sgn) = xx.
Proof.
  intros Hx Hbase. unfold uprintint, uprintint_buf. assert (Hb : 2 <= base <= 16) by lia.
  destruct (sgn && (xx <? 0)) eqn:Es.
  - apply andb_true_iff in Es as [-> Hneg%Z.ltb_lt]. unfold u32. rewrite Z.mod_small by lia.
    destruct (put_digits_spec udigits base udigits_table Hb digit_fuel (- xx) []) as (ds & E & En & Hl & Hlen & Hf).
    { apply fuel_enough; lia. } { unfold digit_fuel; lia. }
    rewrite E. simpl. rewrite number_minus, En. lia.
  - assert (Hpos : 0 <= xx < 2 ^ 32) by (destruct sgn; [simpl in Es; apply Z.ltb_ge in Es; lia|done]).
    unfold u32. rewrite Z.mod_small by lia.
    destruct (put_digits_spec udigits base udigits_table Hb digit_fuel xx []) as (ds & E & En & Hl & Hlen & Hf).
    { apply fuel_enough; lia. } { unfold digit_fuel; lia. }
    rewrite E. simpl. by rewrite number_plain, En by done.
Qed.

Lemma uprintint_prints_witness : number 10 (uprintint (- 2 ^ 31) 10 true) = - 2 ^ 31.
Proof. apply (uprintint_prints (- 2 ^ 31) 10 true); [lia|by left]. Defined.

(** The user library's [%lu] and [%lx] print only the low 32 bits of
    their argument: 2^32 is printed as 0, although the conversion takes a
    64-bit argument. *)
Theorem vprintf_long_truncates :
  vprintf (bytes_of "%lu") [ANum (2 ^ 32)] = Some (bytes_of "0") /\
  vprintf (bytes_of "%lx") [ANum (2 ^ 40 + 10)] = Some (bytes_of "A") /\
  kprintf (bytes_of "%lu") [ANum (2 ^ 32)] = Some (bytes_of "4294967296").
Proof. split_and!; by vm_compute. Qed.
