(* ===== verification/KPrintf.v ===== *)
(** * KPrintf: printf and panic on several CPUs

    kernel/printf.c prints under a lock, except after a panic; [panicking] and
    [panicked] are read and written without one.  The CPUs run here one shared
    access at a time, in any order: the entry and the end of printf, the parts
    of [uartputc_sync] (kernel/uart.c) for each byte, and panic.  What a call
    prints is given by Printf.v; the output records which CPU sent a byte. *)

From S2P Require Import Prelude Printf Spinlock.

(** What follows a call of printf: the return to its caller, or the rest of
    [panic]. *)
Inductive cont := Return | PanicText (msg : list byte) | PanicEnd.

(** Where a CPU is; [m] is the text of the call and [i] bytes of it are out. *)
Inductive code :=
| Resting
| Printf (m : list byte) (k : cont)          (** [if(panicking == 0) acquire], the test *)
| Acquire (m : list byte) (k : cont)         (** the spin loop of acquire *)
| Text (m : list byte) (i : nat) (k : cont)  (** the loop; [if(panicking == 0) push_off] *)
| Test (m : list byte) (i : nat) (k : cont)  (** [if(panicked)] *)
| Send (m : list byte) (i : nat) (k : cont)  (** the wait for the UART, and the byte *)
| Pop (m : list byte) (i : nat) (k : cont)   (** [if(panicking == 0) pop_off] *)
| Finish (m : list byte) (k : cont)          (** [if(panicking == 0) release] *)
| Panic (msg : list byte)                    (** [panicking = 1] *)
| Freeze                                     (** [panicked = 1] *)
| Spin.

(** [kp_said] are the calls of printf that have released the lock. *)
Record kpst := {
  kp_code : Z -> code;
  kp_cpu : Z -> cpu;
  kp_lock : option Z;
  kp_panicking : bool;
  kp_panicked : bool;
  kp_out : list (Z * byte);
  kp_said : list (Z * list byte)
}.

Definition go_to (c : Z) (p : code) (s : kpst) : kpst :=
  {| kp_code := <[c := p]> (kp_code s); kp_cpu := kp_cpu s; kp_lock := kp_lock s; kp_panicking := kp_panicking s;
     kp_panicked := kp_panicked s; kp_out := kp_out s; kp_said := kp_said s |}.
Definition set_kp_cpu (c : Z) (u : cpu) (s : kpst) : kpst :=
  {| kp_code := kp_code s; kp_cpu := <[c := u]> (kp_cpu s); kp_lock := kp_lock s; kp_panicking := kp_panicking s;
     kp_panicked := kp_panicked s; kp_out := kp_out s; kp_said := kp_said s |}.
Definition set_kp_lock (l : option Z) (s : kpst) : kpst :=
  {| kp_code := kp_code s; kp_cpu := kp_cpu s; kp_lock := l; kp_panicking := kp_panicking s;
     kp_panicked := kp_panicked s; kp_out := kp_out s; kp_said := kp_said s |}.
Definition set_kp_flags (panicking panicked : bool) (s : kpst) : kpst :=
  {| kp_code := kp_code s; kp_cpu := kp_cpu s; kp_lock := kp_lock s; kp_panicking := panicking;
     kp_panicked := panicked; kp_out := kp_out s; kp_said := kp_said s |}.
Definition add_out (c : Z) (b : byte) (s : kpst) : kpst :=
  {| kp_code := kp_code s; kp_cpu := kp_cpu s; kp_lock := kp_lock s; kp_panicking := kp_panicking s;
     kp_panicked := kp_panicked s; kp_out := kp_out s ++ [(c, b)]; kp_said := kp_said s |}.
Definition add_said (c : Z) (m : list byte) (s : kpst) : kpst :=
  {| kp_code := kp_code s; kp_cpu := kp_cpu s; kp_lock := kp_lock s; kp_panicking := kp_panicking s;
     kp_panicked := kp_panicked s; kp_out := kp_out s; kp_said := kp_said s ++ [(c, m)] |}.

(** The two lines of [panic]. *)
Definition panic_head : list byte := default [] (kprintf (bytes_of "panic: ") []).
Definition panic_line (msg : list byte) : list byte := default [] (kprintf (bytes_of "%s" ++ [chr 10]) [AStr (Some msg)]).

(** What the code outside does next. *)
Inductive pcall := CPrintf (m : list byte) | CPanic (msg : list byte).

Definition resume (k : cont) : code :=
  match k with Return => Resting | PanicText msg => Printf (panic_line msg) PanicEnd | PanicEnd => Freeze end.

(** The call of [pop_off], which may itself panic. *)
Definition popped (c : Z) (p : code) (s : kpst) : kpst :=
  match pop_off (kp_cpu s c) with
  | inl u => go_to c p (set_kp_cpu c u s)
  | inr msg => go_to c (Panic (bytes_of msg)) s
  end.

(** One step of CPU [c]: [cmd] is what it calls when it is resting, and [idle]
    says that the UART is ready for a byte. *)
Definition pstep (c : Z) (cmd : pcall) (idle : bool) (s : kpst) : kpst :=
  match kp_code s c with
  | Resting => go_to c (match cmd with CPrintf m => Printf m Return | CPanic msg => Panic msg end) s
  | Printf m k =>
      if kp_panicking s then go_to c (Text m 0 k) s
      else
        let s := set_kp_cpu c (push_off (kp_cpu s c)) s in
        if decide (kp_lock s = Some c) then go_to c (Panic (bytes_of "acquire")) s else go_to c (Acquire m k) s
  | Acquire m k => match kp_lock s with None => go_to c (Text m 0 k) (set_kp_lock (Some c) s) | Some _ => s end
  | Text m i k =>
      match m !! i with
      | None => go_to c (Finish m k) s
      | Some _ => go_to c (Test m i k) (if kp_panicking s then s else set_kp_cpu c (push_off (kp_cpu s c)) s)
      end
  | Test m i k => if kp_panicked s then go_to c Spin s else go_to c (Send m i k) s
  | Send m i k => if idle then go_to c (Pop m i k) (add_out c (default (chr 0) (m !! i)) s) else s
  | Pop m i k => if kp_panicking s then go_to c (Text m (S i) k) s else popped c (Text m (S i) k) s
  | Finish m k =>
      if kp_panicking s then go_to c (resume k) s
      else if decide (kp_lock s = Some c) then popped c (resume k) (add_said c m (set_kp_lock None s))
      else go_to c (Panic (bytes_of "release")) s
  | Panic msg => go_to c (Printf panic_head (PanicText msg)) (set_kp_flags true (kp_panicked s) s)
  | Freeze => go_to c Spin (set_kp_flags (kp_panicking s) true s)
  | Spin => s
  end.

(** An interleaving: which CPU runs, what it calls if it is resting, and
    whether the UART is ready. *)
Definition pturn : Type := Z * pcall * bool.
Fixpoint pexec (sch : list pturn) (s : kpst) : kpst :=
  match sch with
  | [] => s
  | (c, cmd, idle) :: sch => pexec sch (pstep c cmd idle s)
  end.

(** printfinit was called; [on] are the CPUs with interrupts enabled. *)
Definition kp_boot (on : Z -> bool) : kpst :=
  {| kp_code := fun _ => Resting; kp_cpu := fun c => {| noff := 0; intena := false; sie := on c |}; kp_lock := None;
     kp_panicking := false; kp_panicked := false; kp_out := []; kp_said := [] |}.

Lemma pexec_app l1 l2 s : pexec (l1 ++ l2) s = pexec l2 (pexec l1 s).
Proof. revert s. induction l1 as [|[[c cmd] idle] l1 IH]; intros s; [done|apply IH]. Qed.

(** ** Frozen output *)

Definition sending (p : code) : bool := match p with Send _ _ _ => true | _ => false end.

Lemma kp_code_step c c' cmd idle s : c <> c' -> kp_code (pstep c cmd idle s) c' = kp_code s c'.
Proof. intros Hc. unfold pstep, popped. repeat case_match; cbn; try done; by rewrite upd_other. Qed.

Lemma frozen_step c cmd idle s : kp_panicked s = true ->
  kp_panicked (pstep c cmd idle s) = true /\
  ((kp_out (pstep c cmd idle s) = kp_out s /\ (sending (kp_code (pstep c cmd idle s) c) = true -> sending (kp_code s c) = true)) \/
   (sending (kp_code s c) = true /\ sending (kp_code (pstep c cmd idle s) c) = false /\ exists b, kp_out (pstep c cmd idle s) = kp_out s ++ [(c, b)])).
Proof.
  intros Hp. unfold pstep, popped, resume. repeat case_match; cbn; rewrite ?upd_same; try congruence; (split; [done|]); first [solve [left; split; [done|]; match goal with E : kp_code s c = _ |- _ => by rewrite ?E end]|right; split; [done|]; split; [done|]; by eexists].
Qed.

(** once [panicked] is set the output is frozen: whatever the CPUs do
    from then on, each of them sends at most one more byte, and only if it
    was already past the test of [panicked] in [uartputc_sync]. *)
Theorem panic_freezes sch s : kp_panicked s = true ->
  exists l, kp_out (pexec sch s) = kp_out s ++ l /\ NoDup (fst <$> l) /\ forall c, c ∈ fst <$> l -> sending (kp_code s c) = true.
Proof.
  revert s. induction sch as [|[[c cmd] idle] sch IH]; intros s Hp; cbn [pexec].
  { exists []. rewrite app_nil_r. split; [done|]. split; [constructor|]. intros c Hc. by apply elem_of_nil in Hc. }
  destruct (frozen_step c cmd idle s Hp) as [Hp' Hs]. destruct (IH _ Hp') as (l & El & Hnd & Hl).
  assert (Hother : forall c', c' ∈ fst <$> l -> c' <> c -> sending (kp_code s c') = true).
  { intros c' Hc' Hne. rewrite <-(kp_code_step c c' cmd idle) by done. by apply Hl. }
  destruct Hs as [[Eo Hc]|(Hc & Hc' & b & Eo)]; rewrite Eo in El.
  - exists l. split; [done|]. split; [done|]. intros c' Hin. destruct (decide (c' = c)) as [->|]; [by apply Hc, Hl|by apply Hother].
  - exists ((c, b) :: l). split; [by rewrite El, <-app_assoc|]. split.
    + apply NoDup_cons. split; [|done]. intros Hin. pose proof (Hl c Hin). congruence.
    + intros c' Hin. apply elem_of_cons in Hin as [->|Hin]; [done|]. destruct (decide (c' = c)) as [->|]; [done|by apply Hother].
Qed.

(** ** Before a panic *)

(** The depth of [push_off], and whether the CPU is inside the lock. *)
Definition depth (p : code) : Z :=
  match p with Acquire _ _ | Text _ _ _ | Finish _ _ => 1 | Test _ _ _ | Send _ _ _ | Pop _ _ _ => 2 | _ => 0 end.
Definition inside (p : code) : bool :=
  match p with Text _ _ _ | Finish _ _ | Test _ _ _ | Send _ _ _ | Pop _ _ _ => true | _ => false end.
Definition kont (p : code) : cont :=
  match p with
  | Printf _ k | Acquire _ k | Text _ _ k | Test _ _ k | Send _ _ k | Pop _ _ k | Finish _ k => k
  | _ => Return
  end.
(** What the call has sent. *)
Definition sent (p : code) : list byte :=
  match p with Text m i _ | Test m i _ | Send m i _ => take i m | Pop m i _ => take (S i) m | Finish m _ => m | _ => [] end.
Definition fits (p : code) : Prop :=
  match p with Text m i _ => (i <= length m)%nat | Test m i _ | Send m i _ | Pop m i _ => (i < length m)%nat | Freeze | Spin => False | _ => True end.

Definition tagged (x : Z * list byte) : list (Z * byte) := pair x.1 <$> x.2.
(** The message being printed, as far as it is out. *)
Definition partial (s : kpst) : list (Z * byte) :=
  match kp_lock s with None => [] | Some c => tagged (c, sent (kp_code s c)) end.

(** The [push_off]s of printf are the only ones, and they keep the interrupt
    state [on] of the CPU. *)
Definition nested (on : bool) (d : Z) (u : cpu) : Prop :=
  noff u = d /\ if d =? 0 then sie u = on else sie u = false /\ intena u = on.

Record calm (on : Z -> bool) (s : kpst) : Prop := {
  ca_code : forall c, fits (kp_code s c) /\ kont (kp_code s c) = Return /\ nested (on c) (depth (kp_code s c)) (kp_cpu s c);
  ca_lock : forall c, kp_lock s = Some c <-> inside (kp_code s c) = true;
  ca_flag : kp_panicked s = false;
  ca_out : kp_out s = concat (tagged <$> kp_said s) ++ partial s
}.

Lemma push_nested on d u : 0 <= d -> nested on d u -> nested on (d + 1) (push_off u).
Proof.
  intros Hd [Hn Hu]. unfold nested, push_off. cbn. rewrite Hn. split; [done|]. rewrite (proj2 (Z.eqb_neq (d + 1) 0)) by lia.
  destruct (d =? 0); [done|]. split; [done|apply Hu].
Qed.

Lemma pop_nested on d u : 0 < d -> nested on d u -> exists u', pop_off u = inl u' /\ nested on (d - 1) u'.
Proof.
  intros Hd [Hn Hu]. rewrite (proj2 (Z.eqb_neq d 0)) in Hu by lia. destruct Hu as [Hs Hi]. unfold pop_off. rewrite Hs, Hn, (proj2 (Z.ltb_ge d 1)) by lia.
  eexists. split; [done|]. unfold nested. cbn. split; [done|]. destruct (d - 1 =? 0) eqn:E; cbn; [by destruct (intena u)|done].
Qed.

(** Only [c] moves: what is to be shown of it. *)
Lemma calm_move on c p s s' : calm on s -> kp_code s' = <[c := p]> (kp_code s) -> (forall c', c' <> c -> kp_cpu s' c' = kp_cpu s c') ->
  kp_panicked s' = kp_panicked s -> fits p -> kont p = Return -> nested (on c) (depth p) (kp_cpu s' c) ->
  (kp_lock s' = Some c <-> inside p = true) -> (forall c', c' <> c -> kp_lock s' = Some c' <-> kp_lock s = Some c') ->
  kp_out s' = concat (tagged <$> kp_said s') ++ partial s' -> calm on s'.
Proof.
  intros [Hc Hl Hf Ho] Ec Eu Ef Hp Hk Hn Hlc Hlo Ho'. split; [|..|by rewrite Ef|done].
  - intros c'. rewrite Ec. destruct (decide (c' = c)) as [->|Hne]; [by rewrite upd_same|]. rewrite upd_other by done. rewrite Eu by done. apply Hc.
  - intros c'. rewrite Ec. destruct (decide (c' = c)) as [->|Hne]; [by rewrite upd_same|]. rewrite upd_other by done. rewrite Hlo by done. apply Hl.
Qed.

Lemma partial_other c p s s' : kp_code s' = <[c := p]> (kp_code s) -> kp_lock s' = kp_lock s -> kp_lock s <> Some c -> partial s' = partial s.
Proof.
  intros Ec El Hl. unfold partial. rewrite El, Ec. destruct (kp_lock s) as [c'|] eqn:E; [|done]. rewrite upd_other; [done|congruence].
Qed.

Lemma partial_same c p s' code0 : kp_code s' = <[c := p]> code0 -> kp_lock s' = Some c -> partial s' = tagged (c, sent p).
Proof. intros Ec El. unfold partial. by rewrite El, Ec, upd_same. Qed.

(** A step of a CPU that does not hold the lock and does not take it. *)
Lemma calm_outside on c p s s' : calm on s -> kp_code s' = <[c := p]> (kp_code s) -> (forall c', c' <> c -> kp_cpu s' c' = kp_cpu s c') ->
  kp_panicked s' = kp_panicked s -> kp_lock s' = kp_lock s -> kp_out s' = kp_out s -> kp_said s' = kp_said s ->
  inside (kp_code s c) = false -> inside p = false -> fits p -> kont p = Return -> nested (on c) (depth p) (kp_cpu s' c) -> calm on s'.
Proof.
  intros I Ec Eu Ef El Eo Es Hi Hp Hf Hk Hn. assert (Hl : kp_lock s <> Some c) by (intros H; apply (ca_lock _ _ I) in H; congruence).
  apply (calm_move on c p s s' I Ec Eu Ef Hf Hk Hn); rewrite ?El, ?Eo, ?Es.
  - split; [done|congruence].
  - done.
  - rewrite (partial_other c p s s' Ec El Hl). apply I.
Qed.

(** A step of the CPU inside the lock; [l] is what it sends. *)
Lemma calm_inside on c p l s s' : calm on s -> kp_code s' = <[c := p]> (kp_code s) -> (forall c', c' <> c -> kp_cpu s' c' = kp_cpu s c') ->
  kp_panicked s' = kp_panicked s -> kp_lock s' = kp_lock s -> kp_out s' = kp_out s ++ tagged (c, l) -> kp_said s' = kp_said s ->
  inside (kp_code s c) = true -> inside p = true -> sent p = sent (kp_code s c) ++ l -> fits p -> kont p = Return ->
  nested (on c) (depth p) (kp_cpu s' c) -> calm on s'.
Proof.
  intros I Ec Eu Ef El Eo Es Hi Hp Hs Hf Hk Hn. assert (Hl : kp_lock s = Some c) by (by apply (ca_lock _ _ I)).
  apply (calm_move on c p s s' I Ec Eu Ef Hf Hk Hn); rewrite ?El, ?Eo, ?Es.
  - done.
  - done.
  - rewrite (partial_same c p s' _ Ec) by congruence. rewrite (ca_out _ _ I). unfold partial. rewrite Hl, Hs, <-app_assoc. f_equal.
    unfold tagged. cbn. by rewrite fmap_app.
Qed.

(** The lock is taken, or released with the message said. *)
Lemma calm_enter on c m s s' : calm on s -> kp_code s' = <[c := Text m 0 Return]> (kp_code s) -> kp_cpu s' = kp_cpu s ->
  kp_panicked s' = kp_panicked s -> kp_lock s = None -> kp_lock s' = Some c -> kp_out s' = kp_out s -> kp_said s' = kp_said s ->
  nested (on c) 1 (kp_cpu s c) -> calm on s'.
Proof.
  intros I Ec Eu Ef El El' Eo Es Hn. apply (calm_move on c _ s s' I Ec); rewrite ?Eu, ?El, ?El', ?Eo, ?Es.
  - done.
  - done.
  - cbn. lia.
  - done.
  - done.
  - done.
  - intros c' Hc'. split; congruence.
  - rewrite (partial_same c _ s' _ Ec) by done. rewrite (ca_out _ _ I). unfold partial. by rewrite El.
Qed.

Lemma calm_leave on c m s s' : calm on s -> kp_code s' = <[c := Resting]> (kp_code s) -> (forall c', c' <> c -> kp_cpu s' c' = kp_cpu s c') ->
  kp_panicked s' = kp_panicked s -> kp_code s c = Finish m Return -> kp_lock s' = None -> kp_out s' = kp_out s -> kp_said s' = kp_said s ++ [(c, m)] ->
  nested (on c) 0 (kp_cpu s' c) -> calm on s'.
Proof.
  intros I Ec Eu Ef Hm El' Eo Es Hn. assert (Hl : kp_lock s = Some c) by (apply (ca_lock _ _ I); by rewrite Hm).
  apply (calm_move on c _ s s' I Ec Eu Ef); rewrite ?El', ?Eo, ?Es, ?Hl.
  - done.
  - done.
  - done.
  - done.
  - intros c' Hc'. split; congruence.
  - rewrite (ca_out _ _ I). unfold partial. rewrite El', Hl, Hm, fmap_app, concat_app. cbn. by rewrite !app_nil_r.
Qed.

Lemma other_cpu c u s c' : c' <> c -> kp_cpu (set_kp_cpu c u s) c' = kp_cpu s c'.
Proof. intros. cbn. by apply upd_other. Qed.

(** Until a panic starts every step keeps the invariant, and a CPU comes to
    [panic] only because the code outside calls it. *)
Lemma calm_step on c cmd idle s : calm on s -> kp_panicking (pstep c cmd idle s) = false -> kp_panicking s = false ->
  calm on (pstep c cmd idle s) /\ forall msg, kp_code (pstep c cmd idle s) c = Panic msg -> kp_code s c = Resting /\ cmd = CPanic msg.
Proof.
  intros I Hp' Hp. pose proof (ca_code _ _ I c) as (Hf & Hk & Hn). pose proof (ca_lock _ _ I c) as Hl.
  revert Hp'. unfold pstep. destruct (kp_code s c) as [|m k|m k|m i k|m i k|m i k|m i k|m k|msg| |] eqn:Ec; cbn [fits kont depth inside] in *; try done; subst;
    rewrite ?Hp, ?(ca_flag _ _ I); intros Hp'.
  - split; [|intros msg; cbn; rewrite upd_same; by destruct cmd; intros [= ->]].
    eapply (calm_outside on c _ s); [done|cbn; reflexivity|done|done|done|done|done|by rewrite Ec|by destruct cmd..].
  - rewrite decide_False by (cbn; rewrite Hl; done). split; [|intros msg; cbn; by rewrite upd_same].
    eapply (calm_outside on c _ s); [done|cbn; reflexivity|intros c' ?; by apply other_cpu|done|done|done|done|by rewrite Ec|done..|].
    cbn. rewrite upd_same. by apply (push_nested _ 0).
  - destruct (kp_lock s) as [c'|] eqn:El; [split; [done|by rewrite Ec]|]. split; [|intros msg; cbn; by rewrite upd_same].
    by eapply (calm_enter on c m s).
  - destruct (m !! i) eqn:Em.
    + split; [|intros msg; cbn; by rewrite upd_same]. apply lookup_lt_Some in Em.
      eapply (calm_inside on c _ [] s); [done|cbn; reflexivity|intros c' ?; by apply other_cpu|done|done|by rewrite app_nil_r|done|by rewrite Ec|done|by rewrite Ec, app_nil_r|done..|].
      cbn. rewrite upd_same. by apply (push_nested _ 1).
    + split; [|intros msg; cbn; by rewrite upd_same]. apply lookup_ge_None in Em.
      eapply (calm_inside on c _ [] s); [done|cbn; reflexivity|done|done|done|by rewrite app_nil_r|done|by rewrite Ec|done| |done..].
      rewrite Ec, app_nil_r. cbn. by rewrite take_ge.
  - split; [|intros msg; cbn; by rewrite upd_same].
    eapply (calm_inside on c _ [] s); [done|cbn; reflexivity|done|done|done|by rewrite app_nil_r|done|by rewrite Ec|done|by rewrite Ec, app_nil_r|done..].
  - destruct idle; [|split; [done|by rewrite Ec]]. split; [|intros msg; cbn; by rewrite upd_same]. destruct (lookup_lt_is_Some_2 m i Hf) as [b Hb].
    eapply (calm_inside on c _ [b] s); [done|cbn; reflexivity|done|done|done|by rewrite Hb|done|by rewrite Ec|done| |done..].
    rewrite Ec. cbn. by apply take_S_r.
  - destruct (pop_nested _ 2 _ ltac:(lia) Hn) as (u & Eu & Hu). unfold popped. rewrite Eu. split; [|intros msg; cbn; by rewrite upd_same].
    eapply (calm_inside on c _ [] s); [done|cbn; reflexivity|intros c' ?; by apply other_cpu|done|done|by rewrite app_nil_r|done|by rewrite Ec|done|by rewrite Ec, app_nil_r|cbn; lia|done|].
    cbn. by rewrite upd_same.
  - rewrite decide_True by (by apply Hl). destruct (pop_nested _ 1 _ ltac:(lia) Hn) as (u & Eu & Hu). unfold popped. cbn [kp_cpu add_said set_kp_lock].
    rewrite Eu. split; [|intros msg; cbn; by rewrite upd_same].
    eapply (calm_leave on c m s); [done|cbn; reflexivity|intros c' ?; cbn; by apply upd_other|done|done|done|done|done|cbn; by rewrite upd_same].
Qed.

Lemma panicking_stays c cmd idle s : kp_panicking s = true -> kp_panicking (pstep c cmd idle s) = true.
Proof. intros Hp. unfold pstep, popped. by repeat (case_match; cbn; try done). Qed.

Lemma panicking_back sch s : kp_panicking (pexec sch s) = false -> kp_panicking s = false.
Proof.
  revert s. induction sch as [|[[c cmd] idle] sch IH]; intros s H; [done|]. apply IH in H. destruct (kp_panicking s) eqn:E; [|done].
  by rewrite panicking_stays in H.
Qed.

Lemma calm_boot on : calm on (kp_boot on).
Proof. split; [done|intros c; by split|done|done]. Qed.

Lemma calm_exec on sch s : calm on s -> kp_panicking (pexec sch s) = false -> calm on (pexec sch s).
Proof.
  revert s. induction sch as [|[[c cmd] idle] sch IH]; intros s I Hp; [done|]. cbn [pexec] in *. pose proof (panicking_back _ _ Hp) as Hp1.
  apply IH; [|done]. apply calm_step; [done|done|]. destruct (kp_panicking s) eqn:E; [|done]. by rewrite panicking_stays in Hp1.
Qed.


(** ** During a panic *)

(** What a CPU that panics has still to print, and the turns it needs. *)
Definition krest (k : cont) : list byte := match k with PanicText msg => panic_line msg | _ => [] end.
Definition rest (p : code) : list byte :=
  match p with
  | Printf m k => m ++ krest k
  | Text m i k | Test m i k | Send m i k => drop i m ++ krest k
  | Pop m i k => drop (S i) m ++ krest k
  | Finish _ k => krest k
  | Panic msg => panic_head ++ panic_line msg
  | _ => []
  end.
Definition kturns (k : cont) : nat :=
  match k with Return => 0 | PanicText msg => 4 + 4 * length (panic_line msg) | PanicEnd => 1 end.
Definition turns_left (p : code) : nat :=
  match p with
  | Printf m k => 3 + 4 * length m + kturns k
  | Text m i k => 2 + 4 * (length m - i) + kturns k
  | Test m i k => 1 + 4 * (length m - i) + kturns k
  | Send m i k => 4 * (length m - i) + kturns k
  | Pop m i k => 4 * (length m - i) - 1 + kturns k
  | Finish _ k => 1 + kturns k
  | Freeze => 1
  | Panic msg => 1 + (3 + 4 * length panic_head + kturns (PanicText msg))
  | _ => 0
  end%nat.
Definition panic_turns (msg : list byte) : nat := turns_left (Panic msg).

(** On the way from [panicking = 1] to [panicked = 1]. *)
Definition dying (p : code) : Prop :=
  match p with
  | Freeze => True
  | Printf _ k | Finish _ k => k <> Return
  | Text m i k => k <> Return /\ (i <= length m)%nat
  | Test m i k | Send m i k | Pop m i k => k <> Return /\ (i < length m)%nat
  | _ => False
  end.

Definition own (c : Z) (l : list (Z * byte)) : list byte := snd <$> filter (fun x => x.1 = c) l.

Lemma own_app c l1 l2 : own c (l1 ++ l2) = own c l1 ++ own c l2.
Proof. unfold own. by rewrite filter_app, fmap_app. Qed.

#[local] Arguments own : simpl never.

(** A turn of the CPU that panics. *)
Lemma dying_step c cmd idle s : kp_panicking s = true -> kp_panicked s = false -> dying (kp_code s c) ->
  let s' := pstep c cmd idle s in
  own c (kp_out s') ++ rest (kp_code s' c) = own c (kp_out s) ++ rest (kp_code s c) /\
  ((kp_code s' c = Spin /\ kp_panicked s' = true /\ rest (kp_code s c) = []) \/
   (kp_panicked s' = false /\ dying (kp_code s' c) /\ (turns_left (kp_code s' c) + (if idle then 1 else 0) <= turns_left (kp_code s c))%nat)).
Proof.
  intros Hp Hf. unfold pstep. destruct (kp_code s c) as [|m k|m k|m i k|m i k|m i k|m i k|m k|msg| |] eqn:Ec; cbn [dying]; try done; rewrite ?Hp, ?Hf; intros Hd.
  - cbn. rewrite upd_same. split; [done|]. right. split; [done|]. split; [split; [done|lia]|]. cbn. destruct idle; lia.
  - destruct Hd as [Hk Hi]. destruct (m !! i) eqn:Em.
    + apply lookup_lt_Some in Em. cbn. rewrite upd_same. split; [done|]. right. split; [done|]. split; [done|]. cbn. destruct idle; lia.
    + apply lookup_ge_None in Em. cbn. rewrite upd_same. cbn. rewrite drop_ge by done. split; [done|]. right. split; [done|]. split; [done|]. destruct idle; lia.
  - destruct Hd as [Hk Hi]. cbn. rewrite upd_same. split; [done|]. right. split; [done|]. split; [done|]. cbn. destruct idle; lia.
  - destruct Hd as [Hk Hi]. destruct idle.
    + destruct (lookup_lt_is_Some_2 m i Hi) as [b Hb]. cbn. rewrite upd_same, Hb, own_app. cbn [rest]. rewrite (drop_S m b i) by done.
      unfold own at 2. rewrite filter_cons_True by done. cbn. rewrite <-app_assoc. split; [done|]. right. split; [done|]. split; [done|]. lia.
    + rewrite Ec. split; [done|]. right. split; [done|]. split; [done|]. lia.
  - destruct Hd as [Hk Hi]. cbn. rewrite upd_same. split; [done|]. right. split; [done|]. split; [split; [done|lia]|]. cbn. destruct idle; lia.
  - cbn. rewrite upd_same. split; [by destruct k; cbn; rewrite ?app_nil_r|]. right. split; [done|]. split; [by destruct k|]. destruct k; cbn; destruct idle; try done; lia.
  - cbn. rewrite upd_same. split; [done|]. by left.
Qed.

(** A turn of another CPU. *)
Lemma own_other c c' cmd idle s : c' <> c -> own c (kp_out (pstep c' cmd idle s)) = own c (kp_out s).
Proof.
  intros Hc. unfold pstep, popped. repeat case_match; cbn; try done. rewrite own_app. unfold own at 2. rewrite filter_cons_False by done. by rewrite app_nil_r.
Qed.

Definition harmless (p : code) : Prop := kont p = Return /\ match p with Panic _ | Freeze => False | _ => True end.

Lemma harmless_step c m idle s : kp_panicking s = true -> harmless (kp_code s c) ->
  harmless (kp_code (pstep c (CPrintf m) idle s) c) /\ kp_panicked (pstep c (CPrintf m) idle s) = kp_panicked s.
Proof.
  intros Hp [Hk Hh]. unfold pstep. rewrite Hp. destruct (kp_code s c) as [| | | | | | | | | |] eqn:Ec; cbn in Hk, Hh; try done; subst;
    repeat case_match; cbn; rewrite ?upd_same, ?Ec; done.
Qed.

Lemma spin_exec c sch : forall s, kp_code s c = Spin -> kp_panicked s = true ->
  kp_code (pexec sch s) c = Spin /\ kp_panicked (pexec sch s) = true /\ own c (kp_out (pexec sch s)) = own c (kp_out s).
Proof.
  induction sch as [|[[c' cmd] idle] sch IH]; intros s Hc Hp; [done|]. cbn [pexec]. destruct (decide (c' = c)) as [->|Hne].
  - replace (pstep c cmd idle s) with s; [by apply IH|]. unfold pstep. by rewrite Hc.
  - rewrite <-(own_other c c' cmd idle s) by done. apply IH; [by rewrite kp_code_step|by apply frozen_step].
Qed.

(** Only [c] panics; the turns of [c] in which the UART is ready. *)
Definition lone (c : Z) (sch : list pturn) : Prop := Forall (fun x : pturn => x.1.1 = c \/ exists m, x.1.2 = CPrintf m) sch.
Definition turns (c : Z) (sch : list pturn) : nat := length (filter (fun x : pturn => x.1.1 = c /\ x.2 = true) sch).

Lemma turns_cons c c' cmd idle sch :
  turns c ((c', cmd, idle) :: sch) = ((if decide (c' = c) then if idle then 1 else 0 else 0) + turns c sch)%nat.
Proof. unfold turns. rewrite filter_cons. cbn. destruct (decide (c' = c)), idle; repeat case_decide; naive_solver. Qed.

Lemma dying_exec c sch : forall s, lone c sch -> kp_panicking s = true -> kp_panicked s = false -> dying (kp_code s c) ->
  (forall c', c' <> c -> harmless (kp_code s c')) -> (turns_left (kp_code s c) <= turns c sch)%nat ->
  let s' := pexec sch s in kp_code s' c = Spin /\ kp_panicked s' = true /\ own c (kp_out s') = own c (kp_out s) ++ rest (kp_code s c).
Proof.
  induction sch as [|[[c' cmd] idle] sch IH]; intros s Hl Hp Hf Hd Hh Ht.
  { exfalso. destruct (kp_code s c); cbn in *; try done; lia. }
  apply Forall_cons in Hl as [Hx Hl]. rewrite turns_cons in Ht. cbn [pexec]. pose proof (panicking_stays c' cmd idle s Hp) as Hp'.
  case_decide as Ec; [subst c'|].
  - destruct (dying_step c cmd idle s Hp Hf Hd) as [Eo [(Hs & Hf' & Er)|(Hf' & Hd' & Hle)]].
    + destruct (spin_exec c sch _ Hs Hf') as (H1 & H2 & H3). split; [done|]. split; [done|]. rewrite H3, <-Eo, Hs. by rewrite app_nil_r.
    + rewrite <-Eo. apply IH; [done|done|done|done| |lia]. intros c' Hc'. rewrite kp_code_step by done. by apply Hh.
  - destruct Hx as [Hx|[m Hm]]; [done|]. cbn in Hm. subst cmd. destruct (harmless_step c' m idle s Hp (Hh c' Ec)) as [Hh' Ef].
    rewrite <-(own_other c c' (CPrintf m) idle s), <-(kp_code_step c' c (CPrintf m) idle s) by done. apply IH; [done|done|congruence| | |].
    + by rewrite kp_code_step.
    + intros c2 Hc2. destruct (decide (c2 = c')) as [->|]; [done|]. rewrite kp_code_step by done. by apply Hh.
    + by rewrite kp_code_step.
Qed.

Definition no_panics (c : Z) (s : kpst) : Prop := forall c' msg, c' <> c -> kp_code s c' <> Panic msg.

Lemma panicking_starts c cmd idle s : kp_panicking s = false -> (forall msg, kp_code s c <> Panic msg) -> kp_panicking (pstep c cmd idle s) = false.
Proof. intros Hp Hc. unfold pstep, popped. repeat (case_match; cbn; try done). by destruct (Hc msg). Qed.

Lemma no_panics_step on c c' cmd idle s : calm on s -> kp_panicking s = false -> kp_panicking (pstep c' cmd idle s) = false ->
  c' = c \/ (exists m, cmd = CPrintf m) -> no_panics c s -> no_panics c (pstep c' cmd idle s).
Proof.
  intros I Hp Hp' Hx Hn c2 msg Hc2 E. destruct (decide (c2 = c')) as [->|].
  - destruct (calm_step on c' cmd idle s I Hp' Hp) as [_ H]. apply H in E as [_ ->]. by destruct Hx as [?|[m ?]].
  - rewrite kp_code_step in E by done. by apply (Hn c2 msg).
Qed.

Lemma no_panics_exec on c sch : forall s, calm on s -> lone c sch -> kp_panicking (pexec sch s) = false -> no_panics c s -> no_panics c (pexec sch s).
Proof.
  induction sch as [|[[c' cmd] idle] sch IH]; intros s I Hl Hp Hn; [done|]. apply Forall_cons in Hl as [Hx Hl]. cbn [pexec] in *.
  pose proof (panicking_back _ _ Hp) as Hp1.
  assert (Hp0 : kp_panicking s = false) by (by apply (panicking_back [(c', cmd, idle)])).
  apply IH; [by apply calm_step|done|done|by apply (no_panics_step on)].
Qed.

(** The CPU that called [panic] has not set [panicking] yet. *)
Lemma panic_exec on c msg sch : forall s, calm on s -> lone c sch -> kp_panicking s = false -> no_panics c s -> kp_code s c = Panic msg ->
  (panic_turns msg <= turns c sch)%nat ->
  let s' := pexec sch s in
  kp_code s' c = Spin /\ kp_panicked s' = true /\ own c (kp_out s') = own c (kp_out s) ++ panic_head ++ panic_line msg.
Proof.
  induction sch as [|[[c' cmd] idle] sch IH]; intros s I Hl Hp Hn Hc Ht.
  { exfalso. unfold panic_turns, turns_left, turns in Ht. cbn in Ht. lia. }
  apply Forall_cons in Hl as [Hx Hl]. rewrite turns_cons in Ht. cbn [pexec]. case_decide as Ec; [subst c'|].
  - assert (E : pstep c cmd idle s = go_to c (Printf panic_head (PanicText msg)) (set_kp_flags true (kp_panicked s) s)) by (unfold pstep; by rewrite Hc).
    rewrite E. assert (Ec : kp_code (go_to c (Printf panic_head (PanicText msg)) (set_kp_flags true (kp_panicked s) s)) c = Printf panic_head (PanicText msg))
      by (cbn; apply upd_same).
    destruct (dying_exec c sch (go_to c (Printf panic_head (PanicText msg)) (set_kp_flags true (kp_panicked s) s)) Hl eq_refl (ca_flag _ _ I)) as (H1 & H2 & H3).
    + by rewrite Ec.
    + intros c' Hc'. cbn. rewrite upd_other by done. destruct (ca_code _ _ I c') as (Hf & Hk & _). split; [done|].
      destruct (kp_code s c') eqn:E'; try done. by apply (Hn c' msg0).
    + rewrite Ec. unfold panic_turns in Ht. cbn [turns_left] in *. destruct idle; lia.
    + split; [done|]. split; [done|]. rewrite H3, Ec. done.
  - pose proof (panicking_starts c' cmd idle s Hp (fun m => Hn c' m Ec)) as Hp'.
    rewrite <-(own_other c c' cmd idle s) by done. apply IH; [by apply calm_step|done|done| |by rewrite kp_code_step|done].
    by apply (no_panics_step on).
Qed.

(** C24: a panic is always reported: when one CPU of a running kernel calls
    [panic], whatever the others print meanwhile and whoever has the lock, that
    CPU never waits; after at most [panic_turns] turns with a ready UART it has
    sent its whole message in order, set [panicked] and spins. *)
Theorem panic_reports on c msg idle sch sch' : lone c sch -> lone c sch' ->
  let s := pexec sch (kp_boot on) in
  kp_panicking s = false -> kp_code s c = Resting -> (panic_turns msg <= turns c sch')%nat ->
  let s' := pexec ((c, CPanic msg, idle) :: sch') s in
  kp_code s' c = Spin /\ kp_panicked s' = true /\ own c (kp_out s') = own c (kp_out s) ++ panic_head ++ panic_line msg.
Proof.
  intros Hl Hl' s Hp Hc Ht s'. assert (I : calm on s) by (apply calm_exec; [apply calm_boot|done]).
  assert (E : pstep c (CPanic msg) idle s = go_to c (Panic msg) s) by (unfold pstep; by rewrite Hc).
  assert (Hp1 : kp_panicking (pstep c (CPanic msg) idle s) = false) by (by rewrite E).
  change s' with (pexec sch' (pstep c (CPanic msg) idle s)). replace (kp_out s) with (kp_out (pstep c (CPanic msg) idle s)) by (by rewrite E).
  apply (panic_exec on); [by apply calm_step|done|done| | |done].
  - apply (no_panics_step on); [done|done|done|by left|]. by apply (no_panics_exec on); [apply calm_boot|..].
  - rewrite E. cbn. apply upd_same.
Qed.

(** ** Two CPUs *)

Module KPrintfDemo.
Definition hi : list byte := bytes_of "hi".
Definition yo : list byte := bytes_of "yo".
Definition on : Z -> bool := fun _ => true.

(** Both CPUs print; the second waits for the first. *)
Definition both : list pturn := concat (replicate 20 [(0, CPrintf hi, true); (1, CPrintf yo, true)]).
(** The first CPU has sent a byte and holds the lock when the second panics. *)
Definition half : list pturn := replicate 7 (0, CPrintf hi, true).
Definition rush : list pturn := concat (replicate 60 [(1, CPrintf yo, true); (0, CPrintf hi, true)]).
End KPrintfDemo.


Lemma panic_reports_witness : let s := pexec KPrintfDemo.half (kp_boot KPrintfDemo.on) in
  let s' := pexec ((1, CPanic KPrintfDemo.yo, true) :: KPrintfDemo.rush) s in
  kp_lock s = Some 0 /\ kp_code s' 1 = Spin /\ kp_panicked s' = true /\
  own 1 (kp_out s') = own 1 (kp_out s) ++ panic_head ++ panic_line KPrintfDemo.yo.
Proof.
  intros s s'. split; [vm_compute; reflexivity|].
  apply (panic_reports KPrintfDemo.on 1 KPrintfDemo.yo true KPrintfDemo.half KPrintfDemo.rush).
  - apply Forall_forall. intros x Hx. right. apply elem_of_replicate_inv in Hx as ->. by eexists.
  - repeat (apply List.Forall_cons; [first [left; reflexivity|right; eexists; reflexivity]|]). apply List.Forall_nil.
  - vm_compute. reflexivity.
  - vm_compute. reflexivity.
  - apply Nat.leb_le. vm_compute. reflexivity.
Defined.

Lemma panic_freezes_witness : let s := pexec ((1, CPanic KPrintfDemo.yo, true) :: KPrintfDemo.rush) (pexec KPrintfDemo.half (kp_boot KPrintfDemo.on)) in
  exists l, kp_out (pexec KPrintfDemo.both s) = kp_out s ++ l /\ NoDup (fst <$> l) /\ forall c, c ∈ fst <$> l -> sending (kp_code s c) = true.
Proof. intros s. apply (panic_freezes KPrintfDemo.both s). vm_compute. reflexivity. Defined.
