(* ===== verification/Proc.v ===== *)
(** * Proc: the process table, kernel/proc.c

    Allocation and release of a process with its trapframe and page table,
    the size of its memory, and the flag that kills it.  Fork, exit and wait
    are in Process.v, the scheduler and sleep and wakeup in Sched.v. *)

From S2P Require Import Prelude Riscv CString Kalloc Vm Sleeplock Layout Bio BioSpec Log Pipe Kernel Fs.

(** Addresses of kernel code, from the linker. *)
Class KernelText := {
  forkret_addr : Z;
  usertrap_addr : Z;
  kernelvec_addr : Z;
  uservec_off : Z;
  userret_off : Z
}.

Definition pid_lock : lockid := ("nextpid", 0).
Definition wait_lock : lockid := ("wait_lock", 0).

(** The channel that is the address of a struct proc. *)
Definition proc_chan (p : Z) : chan := ("procaddr", p).

(** Offsets in struct trapframe. *)
Definition tf_kernel_satp : Z := 0.
Definition tf_kernel_sp : Z := 8.
Definition tf_kernel_trap : Z := 16.
Definition tf_epc : Z := 24.
Definition tf_kernel_hartid : Z := 32.
Definition tf_sp : Z := 48.
Definition tf_a (n : Z) : Z := 112 + 8 * n.
Definition sizeof_trapframe : Z := 288.

Section proc.
Context `{KernelLayout} `{KernelText} {C : Type} `{BlockCache C}.
Local Abbreviation K := (kernel C).

Definition set_procs (p : Z) (f : proc -> proc) : M K unit := modify (upd_proc p f).
Definition proc_of (p : Z) : M K proc := k ← get; mret (ks_proc k p).

(** [for(p = proc; p < &proc[NPROC]; p++)] *)
Fixpoint proc_mapstacks_loop (kpgtbl i : Z) (n : nat) : M kmem unit :=
  match n with
  | O => mret tt
  | S n =>
      pa ← kalloc;
      if pa =? 0 then panic "kalloc"
      else
        kvmmap kpgtbl (KSTACK i) pa PGSIZE (Z.lor PTE_R PTE_W);;
        proc_mapstacks_loop kpgtbl (i + 1) n
  end.

Definition proc_mapstacks (kpgtbl : Z) : M kmem unit := proc_mapstacks_loop kpgtbl 0 (Z.to_nat NPROC).

Fixpoint procinit_loop (i : Z) (n : nat) : M K unit :=
  match n with
  | O => mret tt
  | S n =>
      set_procs i (fun p => set_p_kstack (KSTACK i) (set_p_state UNUSED p));;
      procinit_loop (i + 1) n
  end.

Definition procinit : M K unit := procinit_loop 0 (Z.to_nat NPROC).

Definition allocpid : M K Z :=
  acquire pid_lock;;
  k ← get;
  let pid := ks_nextpid k in
  modify (set_ks_nextpid (i32 (pid + 1)));;
  release pid_lock;;
  mret pid.

(** A user page table with the trampoline and the trapframe. *)
Definition proc_pagetable (trapframe : Z) : M kmem Z :=
  pagetable ← uvmcreate;
  if pagetable =? 0 then mret 0
  else
    r ← mappages pagetable TRAMPOLINE PGSIZE trampoline (Z.lor PTE_R PTE_X);
    if r <? 0 then uvmfree pagetable 0;; mret 0
    else
      r ← mappages pagetable TRAPFRAME PGSIZE trapframe (Z.lor PTE_R PTE_W);
      if r <? 0 then
        uvmunmap pagetable TRAMPOLINE 1 false;;
        uvmfree pagetable 0;;
        mret 0
      else mret pagetable.

Definition proc_freepagetable (pagetable sz : Z) : M kmem unit :=
  uvmunmap pagetable TRAMPOLINE 1 false;;
  uvmunmap pagetable TRAPFRAME 1 false;;
  uvmfree pagetable sz.

Definition freeproc (p : Z) : M K unit :=
  e ← proc_of p;
  (if nz (p_trapframe e) then mz (kfree (p_trapframe e)) else mret tt);;
  set_procs p (set_p_trapframe 0);;
  (if nz (p_pagetable e) then mz (proc_freepagetable (p_pagetable e) (p_sz e)) else mret tt);;
  set_procs p (fun e =>
    set_p_state UNUSED (set_p_xstate 0 (set_p_killed 0 (set_p_chan None (set_p_name [] (set_p_parent None
      (set_p_pid 0 (set_p_sz 0 (set_p_pagetable 0 e))))))))).

(** The first UNUSED entry, with its lock held. *)
Fixpoint find_unused (i : Z) (n : nat) : M K (option Z) :=
  match n with
  | O => mret None
  | S n =>
      acquire (proc_lock i);;
      e ← proc_of i;
      if decide (p_state e = UNUSED) then mret (Some i)
      else
        release (proc_lock i);;
        find_unused (i + 1) n
  end.

Definition allocproc : M K (option Z) :=
  found ← find_unused 0 (Z.to_nat NPROC);
  match found with
  | None => mret None
  | Some p =>
      pid ← allocpid;
      set_procs p (fun e => set_p_state USED (set_p_pid pid e));;
      tf ← mz kalloc;
      set_procs p (set_p_trapframe tf);;
      if tf =? 0 then
        freeproc p;;
        release (proc_lock p);;
        mret None
      else
        pt ← mz (proc_pagetable tf);
        set_procs p (set_p_pagetable pt);;
        if pt =? 0 then
          freeproc p;;
          release (proc_lock p);;
          mret None
        else
          set_procs p (fun e => set_p_sp (p_kstack e + PGSIZE) (set_p_ra forkret_addr e));;
          mret (Some p)
  end.

Definition userinit : M K unit :=
  p ← allocproc;
  match p with
  | None => panic "kerneltrap"
  | Some p =>
      modify (set_ks_initproc (Some p));;
      ip ← namei (bytes_of "/");
      set_procs p (fun e => set_p_state RUNNABLE (set_p_cwd ip e));;
      release (proc_lock p)
  end.

Definition growproc (n : Z) : M K Z :=
  t ← self;
  p ← myproc;
  let sz := p_sz p in
  if 0 <? n then
    sz ← mz (uvmalloc (p_pagetable p) sz (u64 (sz + n)) PTE_W);
    if sz =? 0 then mret (-1)
    else set_procs (t_proc t) (set_p_sz sz);; mret 0
  else if n <? 0 then
    sz ← mz (uvmdealloc (p_pagetable p) sz (u64 (sz + n)));
    set_procs (t_proc t) (set_p_sz sz);; mret 0
  else set_procs (t_proc t) (set_p_sz sz);; mret 0.

Definition setkilled (p : Z) : M K unit :=
  acquire (proc_lock p);;
  set_procs p (set_p_killed 1);;
  release (proc_lock p).

Definition killed (p : Z) : M K bool :=
  acquire (proc_lock p);;
  e ← proc_of p;
  release (proc_lock p);;
  mret (nz (p_killed e)).

Definition mykilled : M K bool := t ← self; killed (t_proc t).

Fixpoint kkill_loop (pid i : Z) (n : nat) : M K Z :=
  match n with
  | O => mret (-1)
  | S n =>
      acquire (proc_lock i);;
      e ← proc_of i;
      if p_pid e =? pid then
        set_procs i (set_p_killed 1);;
        (if decide (p_state e = SLEEPING) then set_procs i (set_p_state RUNNABLE) else mret tt);;
        release (proc_lock i);;
        mret 0
      else
        release (proc_lock i);;
        kkill_loop pid (i + 1) n
  end.

Definition kkill (pid : Z) : M K Z := kkill_loop pid 0 (Z.to_nat NPROC).

(** The 64-bit fields of the trapframe of the running process. *)
Definition tf_get (off : Z) : M K Z := p ← myproc; mz (ld64 (p_trapframe p + off)).
Definition tf_set (off v : Z) : M K unit := p ← myproc; mz (st64 (p_trapframe p + off) (u64 v)).
End proc.
