(* ===== verification/Console.v ===== *)
(** * Console: kernel/console.c and kernel/uart.c

    The line discipline: [consoleintr] edits the line being typed in a ring
    buffer with three 32-bit indices, and [consoleread] takes completed lines
    from it.  The UART is [tx_busy] and the bytes given to its transmit
    register; a character is received when the device says so. *)

From S2P Require Import Prelude Riscv CString Kalloc Vm Sleeplock Layout Bio BioSpec Log Pipe Kernel Fs Proc Printf.

Definition BACKSPACE : Z := 0x100.
Definition INPUT_BUF_SIZE : Z := 128.

(** [C(x)], Control-x. *)
Definition ctrl (x : Z) : Z := x - 64.
Definition ctrl_D : Z := ctrl 68.
Definition ctrl_H : Z := ctrl 72.
Definition ctrl_P : Z := ctrl 80.
Definition ctrl_U : Z := ctrl 85.

Definition cons_lock : lockid := ("cons", 0).
Definition cons_chan : chan := ("cons.r", 0).
Definition tx_lock : lockid := ("uart", 0).
Definition tx_chan : chan := ("tx_chan", 0).

Definition set_c_r (v : Z) (c : console) : console :=
  {| c_buf := c_buf c; c_r := v; c_w := c_w c; c_e := c_e c |}.
Definition set_c_w (v : Z) (c : console) : console :=
  {| c_buf := c_buf c; c_r := c_r c; c_w := v; c_e := c_e c |}.
Definition set_c_e (v : Z) (c : console) : console :=
  {| c_buf := c_buf c; c_r := c_r c; c_w := c_w c; c_e := v |}.

(** [cons.buf[cons.e++ % INPUT_BUF_SIZE] = c] *)
Definition cons_put (ch : byte) (c : console) : console :=
  {| c_buf := <[c_e c mod INPUT_BUF_SIZE := ch]> (c_buf c); c_r := c_r c; c_w := c_w c; c_e := u32 (c_e c + 1) |}.

Section console.
Context `{KernelLayout} `{KernelText} {C : Type} `{BlockCache C}.
Local Abbreviation K := (kernel C).

Definition upd_cons (f : console -> console) : M K unit := modify (fun k => set_ks_cons (f (ks_cons k)) k).
Definition get_cons : M K console := gets ks_cons.

(** ** uart.c *)

(** A byte goes to the transmit register. *)
Definition write_thr (c : byte) (u : uart) : uart := {| u_tx_busy := u_tx_busy u; u_sent := c :: u_sent u |}.
Definition set_tx_busy (v : Z) (u : uart) : uart := {| u_tx_busy := v; u_sent := u_sent u |}.
Definition upd_uart (f : uart -> uart) : M K unit := modify (fun k => set_ks_uart (f (ks_uart k)) k).

(** The routine spins until the device is idle. *)
Definition uartputc_sync (c : Z) : M K unit := upd_uart (write_thr (chr c)).

Fixpoint uartwrite_loop (buf : list byte) : M K unit :=
  match buf with
  | [] => mret tt
  | c :: buf =>
      wait_while (fun k => nz (u_tx_busy (ks_uart k))) tx_chan tx_lock;;
      upd_uart (fun u => set_tx_busy 1 (write_thr c u));;
      uartwrite_loop buf
  end.

Definition uartwrite (buf : list byte) : M K unit :=
  acquire tx_lock;;
  uartwrite_loop buf;;
  release tx_lock.

(** ** console.c *)

Definition consputc (c : Z) : M K unit :=
  if c =? BACKSPACE then uartputc_sync 8;; uartputc_sync 32;; uartputc_sync 8
  else uartputc_sync c.

Fixpoint cons_print (l : list byte) : M K unit :=
  match l with
  | [] => mret tt
  | c :: l => consputc (cv c);; cons_print l
  end.

(** The loop of [consolewrite]: 32 bytes at a time. *)
Fixpoint consolewrite_loop (fuel : nat) (src : place) (n i : Z) : M K Z :=
  match fuel with
  | O => fuel_out
  | S fuel =>
      if i <? n then
        let nn := Z.min 32 (n - i) in
        rl ← either_copyin src i nn;
        let '(r, buf) := rl in
        if r =? -1 then mret i
        else
          uartwrite buf;;
          consolewrite_loop fuel src n (i + nn)
      else mret i
  end.

Definition consolewrite (src : place) (n : Z) : M K Z :=
  consolewrite_loop (S (Z.to_nat ((n + 31) / 32))) src n 0.

(** [while(cons.r == cons.w) { if(killed(myproc())) ...; sleep(...); }] *)
Fixpoint consoleread_wait (patience : nat) : M K bool :=
  c ← get_cons;
  if c_r c =? c_w c then
    k ← mykilled;
    if (k : bool) then mret false
    else
      match patience with
      | O => starved cons_chan
      | S patience => sleep cons_chan cons_lock;; consoleread_wait patience
      end
  else mret true.

(** The loop of [consoleread]: [i] bytes were copied; [None] when the process
    was killed. *)
Fixpoint consoleread_loop (todo : nat) (patience : nat) (dst : place) (i : Z) : M K (option Z) :=
  match todo with
  | O => mret (Some i)
  | S todo =>
      ok ← consoleread_wait patience;
      if negb ok then mret None
      else
        c ← get_cons;
        let ch := c_buf c (c_r c mod INPUT_BUF_SIZE) in
        upd_cons (set_c_r (u32 (c_r c + 1)));;
        if cv ch =? ctrl_D then
          (if 0 <? i then upd_cons (fun c => set_c_r (u32 (c_r c - 1)) c) else mret tt);;
          mret (Some i)
        else
          r ← either_copyout dst i [ch];
          if r =? -1 then mret (Some i)
          else if cv ch =? 10 then mret (Some (i + 1))
          else consoleread_loop todo patience dst (i + 1)
  end.

Definition consoleread (dst : place) (n : Z) : M K Z :=
  t ← self;
  acquire cons_lock;;
  r ← consoleread_loop (Z.to_nat n) (t_patience t) dst 0;
  release cons_lock;;
  mret (match r with Some i => i | None => -1 end).

(** procdump(): the table printed for Control-P. *)
Definition state_name (s : procstate) : list byte :=
  bytes_of (match s with
            | UNUSED => "unused" | USED => "used" | SLEEPING => "sleep " | RUNNABLE => "runble"
            | RUNNING => "run   " | ZOMBIE => "zombie"
            end).

Definition procdump_line (p : proc) : list byte :=
  if decide (p_state p = UNUSED) then []
  else
    default [] (kprintf (bytes_of "%d %s %s") [ANum (p_pid p); AStr (Some (state_name (p_state p))); AStr (Some (p_name p))])
      ++ [chr 10].

Definition procdump : M K unit :=
  k ← get;
  cons_print (chr 10 :: concat ((fun i => procdump_line (ks_proc k i)) <$> seqZ 0 NPROC)).

(** [while(cons.e != cons.w && cons.buf[(cons.e-1) % INPUT_BUF_SIZE] != '\n')] *)
Fixpoint kill_line (fuel : nat) : M K unit :=
  match fuel with
  | O => fuel_out
  | S fuel =>
      c ← get_cons;
      if negb (c_e c =? c_w c) && negb (cv (c_buf c (u32 (c_e c - 1) mod INPUT_BUF_SIZE)) =? 10) then
        upd_cons (set_c_e (u32 (c_e c - 1)));;
        consputc BACKSPACE;;
        kill_line fuel
      else mret tt
  end.

Definition consoleintr (c : Z) : M K unit :=
  acquire cons_lock;;
  (if c =? ctrl_P then procdump
   else if c =? ctrl_U then kill_line (S (Z.to_nat INPUT_BUF_SIZE))
   else if (c =? ctrl_H) || (c =? 0x7f) then
     s ← get_cons;
     if negb (c_e s =? c_w s) then
       upd_cons (set_c_e (u32 (c_e s - 1)));;
       consputc BACKSPACE
     else mret tt
   else
     s ← get_cons;
     if negb (c =? 0) && (u32 (c_e s - c_r s) <? INPUT_BUF_SIZE) then
       let c := if c =? 13 then 10 else c in
       consputc c;;
       upd_cons (cons_put (chr c));;
       s ← get_cons;
       if (c =? 10) || (c =? ctrl_D) || (u32 (c_e s - c_r s) =? INPUT_BUF_SIZE) then
         upd_cons (fun s => set_c_w (c_e s) s);;
         wakeup cons_chan
       else mret tt
     else mret tt);;
  release cons_lock.

(** uartintr(): the transmitter is idle if [idle], and [input] are the
    characters waiting to be read. *)
Fixpoint uart_input (input : list byte) : M K unit :=
  match input with
  | [] => mret tt
  | c :: input => consoleintr (cv c);; uart_input input
  end.

Definition uartintr (idle : bool) (input : list byte) : M K unit :=
  acquire tx_lock;;
  (if idle then upd_uart (set_tx_busy 0);; wakeup tx_chan else mret tt);;
  release tx_lock;;
  uart_input input.
End console.
