(* ===== verification/File.v ===== *)
(** * File: kernel/file.c, and the parts of kernel/pipe.c that allocate and
    close a pipe

    The table of open files with their reference counts, and the dispatch of
    reads and writes to pipes, devices and inodes. *)

From S2P Require Import Prelude Riscv CString Kalloc Vm Sleeplock Layout Bio BioSpec Log Pipe Kernel Fs Proc Printf Console.

Definition ftable_lock : lockid := ("ftable", 0).
Definition CONSOLE : Z := 1.

(** A pipe is named by the address of its page. *)
Definition pipe_lock (pi : Z) : lockid := ("pipe", pi).
Definition nread_chan (pi : Z) : chan := ("pipe.nread", pi).
Definition nwrite_chan (pi : Z) : chan := ("pipe.nwrite", pi).

Section file.
Context `{KernelLayout} `{KernelText} {C : Type} `{BlockCache C}.
Local Abbreviation K := (kernel C).

Definition set_file (f : Z) (g : file -> file) : M K unit := modify (upd_file f g).
Definition file_of (f : Z) : M K file := gets (fun k => ks_file k f).

(** The first entry with no references. *)
Fixpoint free_file (k : K) (i : Z) (n : nat) : option Z :=
  match n with
  | O => None
  | S n => if f_ref (ks_file k i) =? 0 then Some i else free_file k (i + 1) n
  end.

Definition filealloc : M K (option Z) :=
  acquire ftable_lock;;
  k ← get;
  match free_file k 0 (Z.to_nat NFILE) with
  | Some f =>
      set_file f (set_f_ref 1);;
      release ftable_lock;;
      mret (Some f)
  | None => release ftable_lock;; mret None
  end.

Definition filedup (f : Z) : M K Z :=
  acquire ftable_lock;;
  e ← file_of f;
  if f_ref e <? 1 then panic "filedup"
  else
    set_file f (set_f_ref (f_ref e + 1));;
    release ftable_lock;;
    mret f.

(** ** Pipes of the kernel *)

Definition pipe_rd (pi : Z) (k : K) : pipe := ks_pipe k pi.
Definition pipe_wr (pi : Z) (p : pipe) (k : K) : K := upd_kpipe pi (fun _ => p) k.

(** [copyin(pr->pagetable, &ch, addr + i, 1)] and [copyout(..., &ch, 1)] *)
Definition pipe_copyin1 (a : Z) : M K (option byte) :=
  p ← myproc;
  rl ← mz (copyin (uproc_of p) (p_pagetable p) a 1);
  let '(r, l) := rl in
  mret (if r =? -1 then None else head l).
Definition pipe_copyout1 (a : Z) (ch : byte) : M K bool :=
  p ← myproc;
  r ← mz (copyout (uproc_of p) (p_pagetable p) a [ch] 1);
  mret (negb (r =? -1)).

Definition kpipeclose (pi : Z) (writable : bool) : M K unit :=
  pipeclose (pipe_rd pi) (pipe_wr pi) (pipe_lock pi) (nread_chan pi) (nwrite_chan pi) (mz (kfree pi)) writable.
Definition kpipewrite (pi addr n : Z) : M K Z :=
  pipewrite (pipe_rd pi) (pipe_wr pi) (pipe_lock pi) (nread_chan pi) (nwrite_chan pi) mykilled pipe_copyin1 addr n.
Definition kpiperead (pi addr n : Z) : M K Z :=
  piperead (pipe_rd pi) (pipe_wr pi) (pipe_lock pi) (nread_chan pi) (nwrite_chan pi) mykilled pipe_copyout1 addr n.

(** ** Closing, reading, writing *)

Definition fileclose (f : Z) : M K unit :=
  acquire ftable_lock;;
  e ← file_of f;
  if f_ref e <? 1 then panic "fileclose"
  else
    set_file f (set_f_ref (f_ref e - 1));;
    if 0 <? f_ref e - 1 then release ftable_lock
    else
      ff ← file_of f;
      set_file f (fun e => set_f_type FD_NONE (set_f_ref 0 e));;
      release ftable_lock;;
      match f_type ff with
      | FD_PIPE => kpipeclose (f_pipe ff) (f_writable ff)
      | FD_INODE | FD_DEVICE =>
          kbegin_op;;
          iput (f_ip ff);;
          kend_op
      | FD_NONE => mret tt
      end.

(** The files of a pipe; [None] when a file or a page is missing. *)
Definition pipealloc : M K (option (Z * Z)) :=
  f0 ← filealloc;
  match f0 with
  | None => mret None
  | Some f0 =>
      f1 ← filealloc;
      match f1 with
      | None => fileclose f0;; mret None
      | Some f1 =>
          pi ← mz kalloc;
          if pi =? 0 then fileclose f0;; fileclose f1;; mret None
          else
            modify (upd_kpipe pi new_pipe);;
            set_file f0 (fun e => set_f_pipe pi (set_f_writable false (set_f_readable true (set_f_type FD_PIPE e))));;
            set_file f1 (fun e => set_f_pipe pi (set_f_writable true (set_f_readable false (set_f_type FD_PIPE e))));;
            mret (Some (f0, f1))
      end
  end.

Definition filestat (f addr : Z) : M K Z :=
  e ← file_of f;
  match f_type e with
  | FD_INODE | FD_DEVICE =>
      ilock (f_ip e);;
      k ← get;
      let st := stati (ks_inode k (f_ip e)) in
      iunlock (f_ip e);;
      p ← myproc;
      r ← mz (copyout (uproc_of p) (p_pagetable p) addr st 24);
      if r <? 0 then mret (-1) else mret 0
  | _ => mret (-1)
  end.

Definition fileread (f addr n : Z) : M K Z :=
  e ← file_of f;
  if negb (f_readable e) then mret (-1)
  else
    match f_type e with
    | FD_PIPE => kpiperead (f_pipe e) addr n
    | FD_DEVICE =>
        if f_major e =? CONSOLE then consoleread (User addr) n else mret (-1)
    | FD_INODE =>
        ilock (f_ip e);;
        e ← file_of f;
        rl ← readi (f_ip e) (User addr) (f_off e) (u32 n);
        let r := i32 rl.1 in
        (if 0 <? r then set_file f (fun e => set_f_off (u32 (f_off e + r)) e) else mret tt);;
        iunlock (f_ip e);;
        mret r
    | FD_NONE => panic "fileread"
    end.

(** [((MAXOPBLOCKS-1-1-2) / 2) * BSIZE] *)
Definition max_write : Z := (MAXOPBLOCKS - 1 - 1 - 2) / 2 * BSIZE.

(** The loop of [filewrite] on an inode: one transaction per chunk. *)
Fixpoint filewrite_loop (fuel : nat) (f addr n i : Z) : M K Z :=
  match fuel with
  | O => fuel_out
  | S fuel =>
      if i <? n then
        let n1 := Z.min (n - i) max_write in
        kbegin_op;;
        e ← file_of f;
        ilock (f_ip e);;
        e ← file_of f;
        r ← writei (f_ip e) (User (u64 (addr + i))) (f_off e) n1;
        (if 0 <? r then set_file f (fun e => set_f_off (u32 (f_off e + r)) e) else mret tt);;
        iunlock (f_ip e);;
        kend_op;;
        if negb (r =? n1) then mret i
        else filewrite_loop fuel f addr n (i + r)
      else mret i
  end.

Definition filewrite (f addr n : Z) : M K Z :=
  e ← file_of f;
  if negb (f_writable e) then mret (-1)
  else
    match f_type e with
    | FD_PIPE => kpipewrite (f_pipe e) addr n
    | FD_DEVICE =>
        if f_major e =? CONSOLE then consolewrite (User addr) n else mret (-1)
    | FD_INODE =>
        i ← filewrite_loop (S (Z.to_nat ((n + max_write - 1) / max_write))) f addr n 0;
        mret (if i =? n then n else -1)
    | FD_NONE => panic "filewrite"
    end.
End file.
