(* ===== verification/FsTheorems.v ===== *)
(** * FsTheorems: the file system as its callers see it

    Blocks are allocated from the free map, a file is a sequence of bytes that
    [writei] changes and [readi] returns, a write fits the reservation that
    [begin_op] makes in the log, and [itrunc] gives back the blocks of a file.
    The examples are a new file on an empty disk, and a disk with one file that
    has a direct block, an indirect block and a block behind it. *)

From S2P Require Import Prelude Riscv CString Kalloc Vm Sleeplock Layout Bio BioSpec Log LogSpec LogAtomic Tx LogTheorems.
From S2P Require Import Pipe Kernel Fs FsBlock FsFile FsData FsWrite FsUser FsTrunc FsDir File.

(** ** An empty file system *)

Module FsDemo.
Definition the_layout : KernelLayout.
Proof.
  refine {| kend := KERNBASE + 256 * PGSIZE; etext := KERNBASE + 8 * PGSIZE; trampoline := KERNBASE + 7 * PGSIZE |};
    vm_compute; done.
Defined.
#[local] Existing Instance the_layout.

Definition the_sb : superblock :=
  {| sb_magic := FSMAGIC; sb_size := 1000; sb_nblocks := 953; sb_ninodes := 200; sb_nlog := 31; sb_logstart := 2;
     sb_inodestart := 33; sb_bmapstart := 46 |}.

(** The blocks before 47 are in use. *)
Definition free_map : block := replicate 5 (chr 255) ++ chr 127 :: replicate 1018 (chr 0).
Definition the_disk : Z -> block := fun bn => if bn =? 46 then free_map else zero_block.

Definition the_file : inode :=
  {| i_dev := 1; i_inum := 5; i_ref := 1; i_lock := initsleeplock; i_valid := 1; i_type := T_FILE; i_major := 0; i_minor := 0;
     i_nlink := 1; i_size := 0; i_addrs := fun _ => 0 |}.

Definition no_proc : proc :=
  {| p_state := RUNNING; p_chan := None; p_killed := 0; p_xstate := 0; p_pid := 7; p_parent := None; p_kstack := 0;
     p_sz := 0; p_pagetable := 0; p_trapframe := 0; p_ra := 0; p_sp := 0; p_ofile := fun _ => None;
     p_cwd := None; p_name := [] |}.

Definition the_kernel (i : inode) (c : bcache) : kernel bcache :=
  {| ks_mem := {| k_mem := ∅; k_freelist := 0 |}; ks_log := LogDemo.fresh_log c; ks_sb := the_sb;
     ks_inode := fun _ => i;
     ks_file := fun _ => {| f_type := FD_NONE; f_ref := 0; f_readable := false; f_writable := false; f_pipe := 0; f_ip := 0;
                            f_off := 0; f_major := 0 |};
     ks_pipe := fun _ => {| pi_data := fun _ => chr 0; pi_nread := 0; pi_nwrite := 0; pi_readopen := 0; pi_writeopen := 0 |};
     ks_proc := fun _ => no_proc; ks_nextpid := 8; ks_initproc := Some 0; ks_ticks := 0;
     ks_cons := {| c_buf := fun _ => chr 0; c_r := 0; c_w := 0; c_e := 0 |};
     ks_uart := {| u_tx_busy := 0; u_sent := [] |} |}.

Lemma the_geometry : geometry the_sb 2.
Proof. by split. Qed.

Lemma the_free_map b : 0 <= b < 47 -> used the_sb the_disk b = true.
Proof.
  intros Hb. assert (H : forallb (fun j => used the_sb the_disk (Z.of_nat j)) (seq 0 47) = true) by by vm_compute.
  rewrite forallb_forall in H. rewrite <-(Z2Nat.id b) by lia. apply H, in_seq. lia.
Qed.

Lemma the_fsx : exists c, fsx 1 7 the_sb 2 (the_kernel the_file c) (LogDemo.fresh the_disk).
Proof.
  destruct (LogDemo.fresh_tx the_disk) as [c T].
  - intros bn. unfold the_disk. by destruct (bn =? 46).
  - by vm_compute.
  - exists c. split_and!; [|done|apply the_free_map]. by split_and!.
Qed.

(** The same disk with a file of ten bytes in block 47, whose indirect block
    48 names block 49. *)
Definition map_one : block := replicate 6 (chr 255) ++ chr 3 :: replicate 1017 (chr 0).
Definition disk_one : Z -> block := fun bn =>
  if bn =? 46 then map_one else if bn =? 48 then wr32 zero_block 0 49 else zero_block.
Definition file_one : inode :=
  set_i_size 10 (set_i_addrs (fun j => if j =? 0 then 47 else if j =? NDIRECT then 48 else 0) the_file).

Lemma map_one_used b : 0 <= b < 50 -> used the_sb disk_one b = true.
Proof.
  intros Hb. assert (H : forallb (fun j => used the_sb disk_one (Z.of_nat j)) (seq 0 50) = true) by by vm_compute.
  rewrite forallb_forall in H. rewrite <-(Z2Nat.id b) by lia. apply H, in_seq. lia.
Qed.

Lemma one_fsx : exists c, fsx 1 7 the_sb 2 (the_kernel file_one c) (LogDemo.fresh disk_one).
Proof.
  destruct (LogDemo.fresh_tx disk_one) as [c T].
  - intros bn. unfold disk_one. destruct (bn =? 46); [done|]. by destruct (bn =? 48).
  - by vm_compute.
  - exists c. split_and!; [|done|]; [by split_and!|]. change (data_start the_sb) with 47. intros b Hb. apply map_one_used. lia.
Qed.

(** Its blocks by number. *)
Lemma one_addr bn : in_file bn -> addr_of disk_one file_one bn = if bn =? 0 then 47 else if bn =? NDIRECT then 49 else 0.
Proof.
  intros Hb. assert (E : forallb (fun j => addr_of disk_one file_one (Z.of_nat j) =?
    if Z.of_nat j =? 0 then 47 else if Z.of_nat j =? NDIRECT then 49 else 0) (seq 0 268) = true) by by vm_compute.
  rewrite forallb_forall in E. unfold in_file in Hb. change MAXFILE with 268 in Hb.
  rewrite <-(Z2Nat.id bn) by lia. apply Z.eqb_eq, E, in_seq. lia.
Qed.

Lemma one_is_file : is_file the_sb (LogDemo.fresh disk_one) file_one.
Proof.
  split; [split| | | |by split]; change (td_view (LogDemo.fresh disk_one)) with disk_one.
  - intros b Hb. assert (b = 47 \/ b = 48 \/ b = 49) as Hbs.
    { destruct Hb as [Hb [-> |(bn & Hbn & <-)]]; [by right; left|]. rewrite (one_addr bn Hbn) in *. destruct (bn =? 0); [by left|].
      destruct (bn =? NDIRECT); [by right; right|done]. }
    split; [change (data_start the_sb) with 47; change (sb_size the_sb) with 1000; lia|]. apply map_one_used. lia.
  - intros x y Hx Hy. rewrite !one_addr by done. destruct (Z.eqb_spec x 0), (Z.eqb_spec y 0); try lia;
      destruct (Z.eqb_spec x NDIRECT), (Z.eqb_spec y NDIRECT); lia.
  - intros x Hx. rewrite one_addr by done. change (i_addrs file_one NDIRECT) with 48. by destruct (x =? 0), (x =? NDIRECT).
  - intros bn Hb. change (i_size file_one) with 10. change BSIZE with 1024. intros Hs. assert (bn = 0) as -> by lia. done.
  - by split.
  - split; try done. intros j Hj. simpl. by destruct (j =? 0), (j =? NDIRECT).
Qed.

Lemma the_ready : ready 7 LogDemo.thread.
Proof. split; [exact LogDemo.runs_thread|apply not_elem_of_nil]. Qed.

Lemma the_is_file : is_file the_sb (LogDemo.fresh the_disk) the_file.
Proof.
  assert (Ha : forall bn, addr_of the_disk the_file bn = 0) by (intros bn; unfold addr_of; by destruct (bn <? NDIRECT)).
  split; [split| | | |by split].
  - intros b [Hb [-> |(bn & _ & E)]]; [done|]. simpl in E. by rewrite Ha in E.
  - intros bn bn' _ _ E. by rewrite Ha in E.
  - intros bn _ E. by rewrite Ha in E.
  - intros bn Hbn Hs. simpl in Hs. change BSIZE with 1024 in Hs. lia.
  - by split.
  - by split.
Qed.
End FsDemo.

(** ** Theorems *)

Section theorems.
Context `{KernelLayout} {C : Type} `{BlockCache C}.
Context (dev pid : Z) (sb : superblock) (start : Z) (t : tctx) (k : kernel C) (d : tdisk).

(** The log has room for [n] blocks and the blocks of the free map. *)
Definition log_room (n : Z) : Prop :=
  Z.of_nat (length (td_logged d)) + Z.of_nat (map_cost sb (td_logged d)) + n <= LOGBLOCKS.

Lemma log_room_slack (n : nat) : td_locked d = ∅ -> log_room (Z.of_nat n) -> slack sb n d.
Proof.
  intros El Hr. unfold log_room, slack, spare in *. rewrite El, map_size_empty.
  change (Z.to_nat NBUF) with 30%nat. change LOGBLOCKS with 30 in Hr. lia.
Qed.

(** [balloc] returns a block that was free, after the metadata, marked in
    the free map and filled with zeros, with every other block and every other
    bit as before; it returns 0 only when no block is free. *)
Theorem balloc_allocates :
  dev <> 0 -> geometry sb start -> fsx dev pid sb start k d -> ready pid t -> log_room 1 ->
  let v := td_view d in
  wp (balloc dev) (fun r t' k' => quiet t t' /\ only_log k k' /\ exists d', fsx dev pid sb start k' d' /\
    let v' := td_view d' in
    (r = 0 /\ (forall b, 0 <= b < sb_size sb -> used sb v b = true) /\ v' = v \/
     data_start sb <= r < sb_size sb /\ used sb v r = false /\ v' r = zero_block /\
     (forall b, 0 <= b < sb_size sb -> used sb v' b = if decide (r = b) then true else used sb v b) /\
     (forall b, 0 <= b < sb_size sb -> b <> r -> b <> BBLOCK r sb -> v' b = v b))) t k.
Proof.
  intros Hdev G T Hr Hl v. pose proof T as (Tx & El & _).
  eapply (balloc_wp dev pid Hdev sb start G); [exact Tx|done|by eapply fsx_free_ok|by apply log_room_slack|].
  intros r t' k' d' Q' K' T' [(-> & -> & Hfull)|(Hd & Hfree & ->)]; (split_and!; [done|done|]).
  - exists d. split; [by eapply fsx_same; [|exact K'|apply T']|]. left. done.
  - exists (td_alloc sb r d). split; [by eapply fsx_alloc|]. right. split_and!; [lia|lia|done|apply view_alloc_new| |].
    + intros b Hb. by eapply (used_td_alloc dev pid sb start G).
    + intros b Hb H1 H2. by apply view_alloc.
Qed.

Context (ip : Z).
Let i := ks_inode k ip.
Let v := td_view d.

(** [readi] returns the bytes of the file from [off] on, as many as were
    asked for or as the file has, and nothing for an offset after its end or a
    request that overflows; it changes neither the file nor any block. *)
Theorem readi_reads (dst : place) J off n :
  dev <> 0 -> at_rest dev pid k d -> ready pid t -> i_dev i = dev -> no_holes v i -> size_ok i ->
  0 <= off < 2 ^ 32 -> 0 <= n < 2 ^ 32 -> sink (C := C) dst n J -> J [] t (ks_mem k) (ks_proc k) ->
  let m := if decide (off <= i_size i /\ off + n < 2 ^ 32) then Z.min n (i_size i - off) else 0 in
  wp (readi ip dst off n) (fun r t' k' => quiet t t' /\ only_log_mem k k' /\ at_rest dev pid k' d /\
    r = (m, slice (contents v i) off m) /\ J r.2 t' (ks_mem k') (ks_proc k')) t k.
Proof.
  intros Hdev T Hr Hdv Hf Hs Ho Hn HJ HA m.
  eapply (readi_wp dev pid Hdev dst n J HJ ip d i); done.
Qed.

Section write.
Context (src : place) (l : list byte) (J : tctx -> kmem -> (Z -> proc) -> Prop) (off : Z).
Let n := Z.of_nat (length l).
Hypothesis Hdev : dev <> 0.
Hypothesis G : geometry sb start.
Hypothesis T : fsx dev pid sb start k d.
Hypothesis Hr : ready pid t.
Hypothesis Hf : is_file sb d i.
Hypothesis Hdv : i_dev i = dev.
Hypothesis Ho : 0 <= off < 2 ^ 32.
Hypothesis Hn : n < 2 ^ 32.
Hypothesis HJ : source (C := C) src l J.
Hypothesis HA : J t (ks_mem k) (ks_proc k).

Lemma room_writei z : log_room (Z.of_nat (turns off n) + 2 + Z.of_nat z) ->
  slack sb (indirect_cost i (td_logged d) + S (turns off n + z)) d.
Proof using T.
  intros Hl. eapply (slack_le sb (turns off n + 2 + z)).
  - apply log_room_slack; [apply T|]. by rewrite !Nat2Z.inj_add.
  - unfold indirect_cost. case_decide; lia.
Qed.

(** C6: [writei] refuses an offset after the end of the file and a request
    beyond the largest file, and changes nothing.  Otherwise the bytes it reports
    as written replace those of the file from [off] on or extend it, and it
    writes fewer than asked for only when the disk is full, stopping at the start
    of a block.  The inode is on disk
    as in memory, the new blocks come from the free map, and every other block
    and every other inode stays as it was. *)
Theorem writei_writes : log_room (Z.of_nat (turns off n) + 2) ->
  wp (writei ip src off n) (fun r t' k' => quiet t t' /\
    if (i_size i <? off) || (MAXFILE * BSIZE <? off + n) then r = -1 /\ k' = k
    else 0 <= r <= n /\ exists d', file_written dev pid sb start k d ip l off r k' d' /\
      short_write sb off r n d') t k.
Proof using Hdev G T Hr Hf Hdv Ho Hn HJ HA.
  intros Hl. eapply (writei_wp dev pid Hdev sb start G src l J t k d ip off 0); try done.
  - apply (room_writei 0). by rewrite Z.add_0_r.
  - intros E. fold i n in E |- *. by rewrite E.
  - intros r t' k' d' Q' H1 H2 H3 H4 W S'. fold i n in H1, H2, H3, H4 |- *. split; [done|].
    rewrite (proj2 (Z.ltb_ge _ _)), (proj2 (Z.ltb_ge _ _)) by lia. split; [done|]. by exists d'.
Qed.

(** C5: What [writei] writes to a file, [readi] reads back. *)
Theorem writei_readi : log_room (Z.of_nat (turns off n) + 3) -> off <= i_size i -> off + n <= MAXFILE * BSIZE ->
  wp (r ← writei ip src off n; rl ← readi ip (Local []) off r; mret (r, rl))
    (fun x _ _ => let '(r, rl) := x in 0 <= r <= n /\ rl = (r, take (Z.to_nat r) l)) t k.
Proof using Hdev G T Hr Hf Hdv Ho Hn HJ HA.
  intros Hl H1 H2. apply wp_bind.
  eapply (writei_wp dev pid Hdev sb start G src l J t k d ip off 1); try done.
  { apply (room_writei 1). by rewrite <-Z.add_assoc. }
  { fold i n. rewrite (proj2 (Z.ltb_ge _ _)), (proj2 (Z.ltb_ge _ _)) by lia. done. }
  intros r t' k' d' Q' _ _ H3 _ W S'. fold n in H3. apply wp_bind. pose proof (fw_file _ _ _ _ _ _ _ _ _ _ _ _ W) as Hf'.
  destruct (shape_fields _ _ (fw_shape _ _ _ _ _ _ _ _ _ _ _ _ W)) as (Ed & _).
  pose proof (fw_fs _ _ _ _ _ _ _ _ _ _ _ _ W) as T'. change (MAXFILE * BSIZE) with 274432 in H2.
  assert (Hlen : length (take (Z.to_nat r) l) = Z.to_nat r) by (rewrite length_take; lia).
  pose proof (fw_contents _ _ _ _ _ _ _ _ _ _ _ _ W) as Ec. fold i in Ec.
  assert (Hlc : length (contents (td_view d) i) = Z.to_nat (i_size i)) by apply length_fbytes.
  assert (Es : off + r <= i_size (ks_inode k' ip)).
  { assert (El : length (contents (td_view d') (ks_inode k' ip)) = Z.to_nat (i_size (ks_inode k' ip))) by apply length_fbytes.
    rewrite Ec in El. unfold write_at in El. rewrite !length_app, length_take, length_drop, Hlc, Hlen in El.
    destruct (if_size _ _ _ Hf'). lia. }
  eapply (readi_wp dev pid Hdev (Local []) r _ (local_sink [] r) ip d' (ks_inode k' ip));
    [by rewrite <-Hdv|apply Hf'|apply Hf'|done| |by eapply ready_quiet|done|lia|done|done|].
  { split_and!; [apply T'|apply T'|]. by eapply slack_spare. }
  cbv zeta. rewrite decide_True, Z.min_l by lia. intros t2 k2 _ _ _ _. apply wp_ret. split; [done|]. f_equal.
  rewrite Ec. unfold slice, write_at. rewrite drop_app_length' by (rewrite length_take, Hlc; lia).
  by rewrite take_app_length' by done.
Qed.

(** C18: The blocks that one call of [writei] from filewrite logs fit the
    reservation of [begin_op]: at most 7 of the MAXOPBLOCKS it may log, on a disk
    whose free map is one block. *)
Theorem writei_keeps_reservation : n <= max_write -> sb_size sb <= BPB ->
  Z.of_nat (length (td_logged d)) + MAXOPBLOCKS <= LOGBLOCKS ->
  wp (writei ip src off n) (fun r t' k' => exists d', fsx dev pid sb start k' d' /\
    Z.of_nat (length (td_logged d')) <= Z.of_nat (length (td_logged d)) + 7) t k.
Proof using Hdev G T Hr Hf Hdv Ho Hn HJ HA.
  intros Hmw Hsb Hl. change max_write with 3072 in Hmw. change MAXOPBLOCKS with 10 in Hl. change LOGBLOCKS with 30 in Hl.
  assert (Ht : (turns off n <= 4)%nat).
  { unfold turns. case_decide; [lia|]. pose proof (Z.mod_pos_bound off BSIZE ltac:(done)). change BSIZE with 1024 in *. divlia. }
  assert (Hm : (map_cost sb (td_logged d) <= 1)%nat).
  { unfold map_cost. etrans; [apply length_filter|]. unfold map_blocks, data_start. rewrite length_seqZ.
    rewrite BPB_pos in *. divlia. }
  set (z := (30 - length (td_logged d) - 7)%nat).
  eapply (writei_wp dev pid Hdev sb start G src l J t k d ip off z); try done.
  - apply room_writei. unfold log_room, z. change LOGBLOCKS with 30. lia.
  - intros _. exists d. split; [done|]. lia.
  - intros r t' k' d' _ _ _ _ _ W S'. exists d'. split; [apply W|]. unfold slack, spare, z in S'.
    change (Z.to_nat NBUF) with 30%nat in S'. lia.
Qed.
End write.

(** C13: [itrunc] discards the contents of a file: afterwards the file is empty
    in memory and on disk, exactly the blocks that belonged to it, the indirect
    block included, have become free, and no other block changes apart from the
    free map and the inode's own place in the inode blocks. *)
Theorem itrunc_frees :
  dev <> 0 -> geometry sb start -> fsx dev pid sb start k d -> ready pid t -> is_file sb d i -> i_dev i = dev -> log_room 2 ->
  wp (itrunc ip) (fun _ t' k' => quiet t t' /\ exists d', emptied dev pid sb start k d ip k' d') t k.
Proof.
  intros Hdev G T Hr Hf Hdv Hl. eapply (itrunc_wp dev pid Hdev sb start G); [exact T|done|done| |done|].
  - apply log_room_slack; [apply T|done].
  - intros t' k' d' Q' E. split; [done|]. by exists d'.
Qed.

Section directory.
Context (name : list byte) (inum : Z).
Let m := dir_map (contents v i).
Hypothesis Hdev : dev <> 0.
Hypothesis G : geometry sb start.
Hypothesis T : fsx dev pid sb start k d.
Hypothesis Hr : ready pid t.
Hypothesis Hlock : itable_lock ∉ t_held t.
Hypothesis D : dir_file sb d i.
Hypothesis Hdv : i_dev i = dev.
Hypothesis Href : 1 <= i_ref i.
Hypothesis Hname : nul_free name.
Hypothesis Hinum : 0 < inum < 2 ^ 16.
Hypothesis Hroom : log_room 4.
Hypothesis Hget : forall n, m !! key name = Some n -> can_get k dev n.

(** [dirlink] adds an entry to a directory as a finite map from names to
    inode numbers.  A name that is there is refused and the map stays as it
    was; otherwise the result is the map with the new name, or the map as it was
    when the disk is full or the directory is as large as a file can be.  An
    empty entry is used again, and no other name changes. *)
Theorem dirlink_adds :
  wp (dirlink ip name inum) (fun r t' k' => quiet t t' /\ exists d',
    fsx dev pid sb start k' d' /\ dir_file sb d' (ks_inode k' ip) /\
    let m' := dir_map (contents (td_view d') (ks_inode k' ip)) in
    (r = 0 /\ m !! key name = None /\ m' = <[key name := inum]> m) \/
    (r = -1 /\ m' = m /\ (is_Some (m !! key name) \/ disk_full sb d' \/ MAXFILE * BSIZE < i_size i + sizeof_dirent))) t k.
Proof using Hdev G T Hr Hlock D Hdv Href Hname Hinum Hroom Hget.
  eapply (dirlink_wp dev pid Hdev sb start G k d ip name inum); try done; [by apply log_room_slack; [apply T|]|].
  intros r t' k' d' Q' [Lf Ld _ Lr] _. split; [done|]. exists d'. split_and!; [done|done|].
  destruct Lr as [(? & ? & ? & _)|?]; [by left|by right].
Qed.

End directory.
End theorems.

(** ** Examples *)

Section examples.
#[local] Existing Instance FsDemo.the_layout.
Local Abbreviation disk := (LogDemo.fresh FsDemo.the_disk).
Local Abbreviation kern := (FsDemo.the_kernel FsDemo.the_file).
Local Abbreviation thread := LogDemo.thread.

Definition hello : list byte := bytes_of "hello".

Lemma balloc_allocates_witness : exists c, fsx 1 7 FsDemo.the_sb 2 (kern c) disk /\
  wp (balloc 1) (fun r _ _ => r = 0 \/ 47 <= r < 1000) thread (kern c).
Proof.
  destruct FsDemo.the_fsx as [c T]. exists c. split; [exact T|].
  eapply wp_mono; [apply (balloc_allocates 1 7 FsDemo.the_sb 2 thread (kern c) disk)|].
  - done.
  - exact FsDemo.the_geometry.
  - exact T.
  - exact FsDemo.the_ready.
  - by vm_compute.
  - intros r t' k' (_ & _ & d' & _ & [[-> _]|[Hr _]]); [by left|right; exact Hr].
Defined.

Lemma readi_reads_witness : exists c, fsx 1 7 FsDemo.the_sb 2 (kern c) disk /\
  wp (readi 3 (Local []) 0 10) (fun r _ _ => r = (0, [])) thread (kern c).
Proof.
  destruct FsDemo.the_fsx as [c T]. exists c. split; [exact T|].
  eapply wp_mono; [apply (readi_reads 1 7 thread (kern c) disk 3 (Local []) (fun _ _ _ _ => True) 0 10)|].
  - done.
  - split_and!; [apply T|done|apply Nat.leb_le; by vm_compute].
  - exact FsDemo.the_ready.
  - done.
  - apply (if_full _ _ _ FsDemo.the_is_file).
  - apply (if_size _ _ _ FsDemo.the_is_file).
  - lia.
  - lia.
  - apply local_sink.
  - done.
  - intros r t' k' (_ & _ & _ & -> & _). reflexivity.
Defined.

Lemma writei_writes_witness : exists c, fsx 1 7 FsDemo.the_sb 2 (kern c) disk /\
  wp (writei 3 (Local hello) 0 5) (fun r _ k' => 0 <= r <= 5 /\ exists d',
    contents (td_view d') (ks_inode k' 3) = take (Z.to_nat r) hello) thread (kern c).
Proof.
  destruct FsDemo.the_fsx as [c T]. exists c. split; [exact T|]. eapply wp_mono.
  - apply (writei_writes 1 7 FsDemo.the_sb 2 thread (kern c) disk 3 (Local hello) hello (fun _ _ _ => True) 0);
      [done|exact FsDemo.the_geometry|exact T|exact FsDemo.the_ready|exact FsDemo.the_is_file|done|done|done
      |apply local_source|done|by vm_compute].
  - intros r t' k' (_ & Hr & d' & W & _). split; [exact Hr|]. exists d'.
    rewrite (fw_contents _ _ _ _ _ _ _ _ _ _ _ _ W). 
    assert (E : contents (td_view disk) (ks_inode (kern c) 3) = []) by reflexivity. rewrite E. unfold write_at.
    by rewrite take_nil, drop_nil, app_nil_r.
Defined.

Lemma writei_readi_witness : exists c, fsx 1 7 FsDemo.the_sb 2 (kern c) disk /\
  wp (r ← writei 3 (Local hello) 0 5; rl ← readi 3 (Local []) 0 r; mret (r, rl))
    (fun x _ _ => let '(r, rl) := x in 0 <= r <= 5 /\ rl = (r, take (Z.to_nat r) hello)) thread (kern c).
Proof.
  destruct FsDemo.the_fsx as [c T]. exists c. split; [exact T|].
  apply (writei_readi 1 7 FsDemo.the_sb 2 thread (kern c) disk 3 (Local hello) hello (fun _ _ _ => True) 0);
    [done|exact FsDemo.the_geometry|exact T|exact FsDemo.the_ready|exact FsDemo.the_is_file|done|done|done
    |apply local_source|done|by vm_compute|done|by vm_compute].
Defined.

Lemma writei_keeps_reservation_witness : exists c, fsx 1 7 FsDemo.the_sb 2 (kern c) disk /\
  wp (writei 3 (Local hello) 0 5) (fun _ _ k' => exists d', fsx 1 7 FsDemo.the_sb 2 k' d' /\
    Z.of_nat (length (td_logged d')) <= 7) thread (kern c).
Proof.
  destruct FsDemo.the_fsx as [c T]. exists c. split; [exact T|].
  apply (writei_keeps_reservation 1 7 FsDemo.the_sb 2 thread (kern c) disk 3 (Local hello) hello (fun _ _ _ => True) 0);
    [done|exact FsDemo.the_geometry|exact T|exact FsDemo.the_ready|exact FsDemo.the_is_file|done|done|done
    |apply local_source|done|by vm_compute|by vm_compute|by vm_compute].
Defined.

(** A directory that is still empty. *)
Definition new_dir : inode :=
  {| i_dev := 1; i_inum := 5; i_ref := 1; i_lock := initsleeplock; i_valid := 1; i_type := T_DIR; i_major := 0; i_minor := 0;
     i_nlink := 1; i_size := 0; i_addrs := fun _ => 0 |}.

Lemma new_dir_file : dir_file FsDemo.the_sb disk new_dir.
Proof.
  destruct FsDemo.the_is_file as [[Fd Fi Fn] Ff Fs [? ? ? ? ? ?] ?]. split; [split; [by split|done|done|by split|done]|].
  split; [done|done|done|done].
Qed.

Lemma dirlink_adds_witness : exists c, fsx 1 7 FsDemo.the_sb 2 (FsDemo.the_kernel new_dir c) disk /\
  wp (dirlink 3 (bytes_of "a") 9) (fun r _ k' => r = 0 \/ r = -1) thread (FsDemo.the_kernel new_dir c).
Proof.
  destruct FsDemo.the_fsx as [c T]. exists c. split; [exact T|]. eapply wp_mono.
  - apply (dirlink_adds 1 7 FsDemo.the_sb 2 thread (FsDemo.the_kernel new_dir c) disk 3 (bytes_of "a") 9);
      [done|exact FsDemo.the_geometry|exact T|exact FsDemo.the_ready|apply not_elem_of_nil|exact new_dir_file|done|done
      |by repeat constructor|done|by vm_compute|]. intros n E. by vm_compute in E.
  - intros r t' k' (_ & d' & _ & _ & [[-> _]|[-> _]]); [by left|by right].
Defined.


Lemma itrunc_frees_witness : exists c, fsx 1 7 FsDemo.the_sb 2 (FsDemo.the_kernel FsDemo.file_one c) (LogDemo.fresh FsDemo.disk_one) /\
  wp (itrunc 3) (fun _ _ k' => exists d', i_size (ks_inode k' 3) = 0 /\ used FsDemo.the_sb (td_view d') 46 = true /\
    used FsDemo.the_sb (td_view d') 49 <> true) thread (FsDemo.the_kernel FsDemo.file_one c).
Proof.
  destruct FsDemo.one_fsx as [c T]. exists c. split; [exact T|]. eapply wp_mono.
  - apply (itrunc_frees 1 7 FsDemo.the_sb 2 thread (FsDemo.the_kernel FsDemo.file_one c) (LogDemo.fresh FsDemo.disk_one) 3);
      [done|exact FsDemo.the_geometry|exact T|exact FsDemo.the_ready|exact FsDemo.one_is_file|done|by vm_compute].
  - intros u t' k' (_ & d' & [_ _ _ _ Es _ _ _ Eu _]). exists d'. split_and!; [exact Es| |].
    + apply Eu; [done|]. split; [apply FsDemo.map_one_used; lia|]. intros Hb.
      destruct (fi_data _ _ _ (if_ok _ _ _ FsDemo.one_is_file) 46 Hb) as [Hd _]. change (data_start FsDemo.the_sb) with 47 in Hd. lia.
    + intros E. apply Eu in E; [|done]. destruct E as [_ Hn]. apply Hn. split; [done|]. right. exists NDIRECT.
      split; [by split|]. by vm_compute.
Defined.
End examples.
