(* ===== verification/ConsoleSpec.v ===== *)
(** * ConsoleSpec: the console is a line editor in front of a queue

    What is typed is edited in place until the line is complete; complete lines
    wait in a queue for [consoleread].  [press] is the editor on lists, and the ring
    buffer with its three wrapping indices is shown to implement it. *)

From S2P Require Import Prelude Riscv CString Kalloc Vm Sleeplock Layout Bio BioSpec Log Pipe Kernel Fs FsData Proc Printf Console.
From S2P Require Import FsUser LogTheorems FsTheorems.

(** The complete lines that wait and the line being typed. *)
Abbreviation input := (list byte * list byte)%type.

Definition waiting (q : input) : Z := Z.of_nat (length q.1) + Z.of_nat (length q.2).

(** The bytes from the index [from] on. *)
Definition ring (c : console) (from : Z) (l : list byte) : Prop :=
  forall i ch, l !! i = Some ch -> c_buf c ((from + Z.of_nat i) mod INPUT_BUF_SIZE) = ch.

Record shows (c : console) (q : input) : Prop := {
  sh_r : 0 <= c_r c < 2 ^ 32;
  sh_w : c_w c = u32 (c_r c + Z.of_nat (length q.1));
  sh_e : c_e c = u32 (c_r c + waiting q);
  sh_room : waiting q <= INPUT_BUF_SIZE;
  sh_ring : ring c (c_r c) (q.1 ++ q.2);
  sh_open : chr 10 ∉ q.2
}.

(** The character as it is stored: a carriage return is a newline. *)
Definition stored (b : byte) : byte := if cv b =? 13 then chr 10 else b.

(** Does the character complete the line? *)
Definition completes (q : input) (b : byte) : bool :=
  (cv (stored b) =? 10) || (cv (stored b) =? ctrl_D) || (waiting q + 1 =? INPUT_BUF_SIZE).

Inductive action := APrint | AKill | AErase | AIgnore | AAdd (ends : bool).

Definition act (q : input) (b : byte) : action :=
  if cv b =? ctrl_P then APrint
  else if cv b =? ctrl_U then AKill
  else if (cv b =? ctrl_H) || (cv b =? 0x7f) then (if decide (q.2 = []) then AIgnore else AErase)
  else if (cv b =? 0) || (INPUT_BUF_SIZE <=? waiting q) then AIgnore
  else AAdd (completes q b).

(** A key is pressed. *)
Definition press (q : input) (b : byte) : input :=
  match act q b with
  | APrint | AIgnore => q
  | AKill => (q.1, [])
  | AErase => (q.1, take (length q.2 - 1) q.2)
  | AAdd true => (q.1 ++ q.2 ++ [stored b], [])
  | AAdd false => (q.1, q.2 ++ [stored b])
  end.

(** ** The ring buffer *)

Lemma u32_small x : 0 <= x < 2 ^ 32 -> u32 x = x.
Proof. apply Z.mod_small. Qed.

Lemma u32_ring x : u32 x mod INPUT_BUF_SIZE = x mod INPUT_BUF_SIZE.
Proof. unfold u32. change INPUT_BUF_SIZE with (2 ^ 7). divlia. Qed.

Lemma u32_same x y : 0 <= y - x < 2 ^ 32 -> u32 x = u32 y -> x = y.
Proof. unfold u32. intros Hd E. divlia. Qed.

Lemma u32_diff x n : 0 <= x < 2 ^ 32 -> 0 <= n < 2 ^ 32 -> u32 (u32 (x + n) - x) = n.
Proof. unfold u32. intros Hx Hn. divlia. Qed.

Lemma u32_step x k : u32 (u32 x + k) = u32 (x + k).
Proof. unfold u32. by rewrite Z.add_mod_idemp_l. Qed.

Section ring.
Implicit Types (c : console) (q : input).

Lemma shows_count c q : shows c q -> u32 (c_e c - c_r c) = waiting q.
Proof.
  intros [Hr _ He Hm _ _]. rewrite He. apply u32_diff; [done|]. unfold waiting in *. change INPUT_BUF_SIZE with 128 in Hm. lia.
Qed.

Lemma shows_line c q : shows c q -> (c_e c =? c_w c) = bool_decide (q.2 = []).
Proof.
  intros [Hr Hw He Hm _ _]. unfold waiting in *. change INPUT_BUF_SIZE with 128 in Hm. apply Bool.eq_iff_eq_true. rewrite Z.eqb_eq, bool_decide_eq_true. split.
  - rewrite Hw, He. intros E. symmetry in E. apply u32_same in E; [|lia]. apply nil_length_inv. lia.
  - intros E. rewrite Hw, He, E. simpl. f_equal. lia.
Qed.

Lemma shows_empty c q : shows c q -> (c_r c =? c_w c) = bool_decide (q.1 = []).
Proof.
  intros [Hr Hw He Hm _ _]. unfold waiting in *. change INPUT_BUF_SIZE with 128 in Hm. apply Bool.eq_iff_eq_true. rewrite Z.eqb_eq, bool_decide_eq_true. split.
  - rewrite Hw. intros E. rewrite <-(u32_small (c_r c)) in E at 1 by done. apply u32_same in E; [|lia]. apply nil_length_inv. lia.
  - intros E. rewrite Hw, E, Z.add_0_r, u32_small; done.
Qed.

(** The last character of the line. *)
Lemma shows_last c rdy line ch : shows c (rdy, line ++ [ch]) -> c_buf c (u32 (c_e c - 1) mod INPUT_BUF_SIZE) = ch /\
  shows (set_c_e (u32 (c_e c - 1)) c) (rdy, line).
Proof.
  intros [Hr Hw He Hm Hb Ho]. unfold waiting in *. cbn [fst snd] in *. rewrite length_app in *. simpl in He, Hm.
  assert (Ee : u32 (c_e c - 1) = u32 (c_r c + (Z.of_nat (length rdy) + Z.of_nat (length line)))).
  { rewrite He. replace (u32 _ - 1) with (u32 (c_r c + (Z.of_nat (length rdy) + Z.of_nat (length line + 1))) + -1) by lia. rewrite u32_step. f_equal. lia. }
  split.
  - rewrite Ee, u32_ring. rewrite <-(Hb (length rdy + length line)%nat ch); [f_equal; f_equal; lia|].
    rewrite app_assoc, <-length_app. by apply list_lookup_middle.
  - split; unfold waiting; cbn [fst snd set_c_e c_r c_w c_e c_buf]; [done|done|done|lia| |set_solver].
    intros i x Hi. apply Hb. rewrite app_assoc. by apply lookup_app_l_Some.
Qed.

Lemma shows_put c rdy line b : shows c (rdy, line) -> waiting (rdy, line) < INPUT_BUF_SIZE -> b <> chr 10 ->
  shows (cons_put b c) (rdy, line ++ [b]).
Proof.
  intros [Hr Hw He Hm Hb Ho] Hlt Hn. unfold waiting in *. cbn [fst snd] in *. split; unfold waiting; cbn [fst snd cons_put c_r c_w c_e c_buf]; rewrite ?length_app; simpl length; [done|done| |lia| |set_solver].
  - rewrite He, u32_step. f_equal. lia.
  - intros i ch Hi. cbn [cons_put c_buf]. rewrite He, u32_ring. rewrite app_assoc in Hi. apply lookup_app_Some in Hi as [Hi|[Hge Hi]].
    + apply lookup_lt_Some in Hi as Hl. rewrite length_app in Hl. rewrite upd_other; [by apply Hb|]. change INPUT_BUF_SIZE with 128 in *. divlia.
    + rewrite length_app in *. destruct (i - (length rdy + length line))%nat eqn:E; [|done]. injection Hi as <-.
      replace (Z.of_nat i) with (Z.of_nat (length rdy) + Z.of_nat (length line)) by lia. apply upd_same.
Qed.

(** The line is complete. *)
Lemma shows_end c rdy line b : shows c (rdy, line) -> waiting (rdy, line) < INPUT_BUF_SIZE ->
  shows (set_c_w (c_e (cons_put b c)) (cons_put b c)) (rdy ++ line ++ [b], []).
Proof.
  intros [Hr Hw He Hm Hb Ho] Hlt. unfold waiting in *. cbn [fst snd] in *.
  split; unfold waiting; cbn [fst snd cons_put set_c_w c_r c_w c_e c_buf]; rewrite ?length_app; simpl length; [done|..|set_solver].
  - rewrite He, u32_step. f_equal. lia.
  - rewrite He, u32_step. f_equal. lia.
  - lia.
  - rewrite app_nil_r. intros i ch Hi. cbn [set_c_w cons_put c_buf]. rewrite He, u32_ring. rewrite app_assoc in Hi. apply lookup_app_Some in Hi as [Hi|[Hge Hi]].
    + apply lookup_lt_Some in Hi as Hl. rewrite length_app in Hl. rewrite upd_other; [by apply Hb|]. change INPUT_BUF_SIZE with 128 in *. divlia.
    + rewrite length_app in *. destruct (i - (length rdy + length line))%nat eqn:E; [|done]. injection Hi as <-.
      replace (Z.of_nat i) with (Z.of_nat (length rdy) + Z.of_nat (length line)) by lia. apply upd_same.
Qed.

(** A character is taken from the front, and may be put back. *)
Lemma shows_take c rdy line ch : shows c (ch :: rdy, line) ->
  c_buf c (c_r c mod INPUT_BUF_SIZE) = ch /\ shows (set_c_r (u32 (c_r c + 1)) c) (rdy, line).
Proof.
  intros [Hr Hw He Hm Hb Ho]. unfold waiting in *. cbn [fst snd length] in *. split.
  - rewrite <-(Hb 0%nat ch eq_refl). by rewrite Z.add_0_r.
  - split; unfold waiting; cbn [fst snd set_c_r c_r c_w c_e c_buf]; [unfold u32; by apply Z.mod_pos_bound| | |lia| |done].
    + rewrite u32_step, Hw. f_equal. lia.
    + rewrite u32_step, He. f_equal. lia.
    + intros i x Hi. rewrite <-(Hb (S i) x Hi). cbn [set_c_r c_buf c_r]. rewrite <-Z.add_mod_idemp_l, u32_ring, Z.add_mod_idemp_l by done. f_equal. f_equal. lia.
Qed.
End ring.

(** ** Typing *)

Definition rubout : list byte := [chr 8; chr 32; chr 8].
Definition transmits (l : list byte) (u : uart) : uart := {| u_tx_busy := u_tx_busy u; u_sent := rev l ++ u_sent u |}.

Lemma transmits_nil u : transmits [] u = u.
Proof. by destruct u. Qed.

Lemma transmits_app l1 l2 u : transmits l2 (transmits l1 u) = transmits (l1 ++ l2) u.
Proof. unfold transmits. cbn [u_sent u_tx_busy]. by rewrite rev_app_distr, app_assoc. Qed.

Lemma cv_stored b : (if cv b =? 13 then 10 else cv b) = cv (stored b).
Proof. unfold stored. by destruct (cv b =? 13). Qed.

Lemma cv_not_backspace b : (cv b =? BACKSPACE) = false.
Proof. apply Z.eqb_neq. pose proof (byte.unsigned_range b). change BACKSPACE with 256. lia. Qed.

Section console.
Context `{KernelLayout} {C : Type} `{BlockCache C}.
Local Abbreviation K := (kernel C).
Implicit Types (t : tctx) (k : K).

(** The kernel with the console [c], after [l] went to the transmitter. *)
Definition onto (c : console) (l : list byte) (k : K) : K := set_ks_uart (transmits l (ks_uart k)) (set_ks_cons c k).

Lemma onto_self k : onto (ks_cons k) [] k = k.
Proof. unfold onto. rewrite transmits_nil. by destruct k. Qed.

Lemma onto_onto c1 l1 c2 l2 k : onto c2 l2 (onto c1 l1 k) = onto c2 (l1 ++ l2) k.
Proof. unfold onto. cbn [set_ks_uart set_ks_cons ks_uart ks_cons]. by rewrite transmits_app. Qed.

Lemma consputc_wp b k (Q : unit -> tctx -> K -> Prop) t : Q tt t (onto (ks_cons k) [b] k) -> wp (consputc (cv b)) Q t k.
Proof.
  intros HQ. unfold consputc. rewrite cv_not_backspace. unfold uartputc_sync, upd_uart. wp_steps. rewrite byte.of_Z_unsigned. by destruct k.
Qed.

Lemma rubout_wp k (Q : unit -> tctx -> K -> Prop) t : Q tt t (onto (ks_cons k) rubout k) -> wp (consputc BACKSPACE) Q t k.
Proof. intros HQ. unfold consputc. change (BACKSPACE =? BACKSPACE) with true. cbv iota. unfold uartputc_sync, upd_uart. wp_steps. by destruct k. Qed.

Lemma cons_print_wp l k (Q : unit -> tctx -> K -> Prop) t : Q tt t (onto (ks_cons k) l k) -> wp (cons_print l) Q t k.
Proof.
  revert k. induction l as [|b l IH]; intros k HQ; cbn [cons_print].
  - wp_steps. by rewrite onto_self in HQ.
  - wp_step. apply consputc_wp, IH. by rewrite onto_onto.
Qed.

Lemma kill_line_wp line : forall fuel rdy k (Q : unit -> tctx -> K -> Prop) t, shows (ks_cons k) (rdy, line) -> (length line < fuel)%nat ->
  (forall c, shows c (rdy, []) -> Q tt t (onto c (concat (replicate (length line) rubout)) k)) -> wp (kill_line fuel) Q t k.
Proof.
  induction line as [|ch line IH] using rev_ind; intros [|fuel] rdy k Q t Hs Hf HQ; [lia| |lia|]; cbn [kill_line]; unfold get_cons; wp_steps; rewrite (shows_line _ _ Hs); cbn [snd].
  - rewrite bool_decide_true by done. cbn [negb andb]. wp_steps. rewrite <-(onto_self k). apply HQ. done.
  - rewrite bool_decide_false by (by destruct line). cbn [negb andb]. destruct (shows_last _ _ _ _ Hs) as [-> Hs'].
    assert (Hn : cv ch <> 10).
    { intros E. apply (sh_open _ _ Hs). cbn [snd]. apply elem_of_app. right. apply list_elem_of_singleton. symmetry. by apply cv_inj. }
    rewrite (proj2 (Z.eqb_neq _ _) Hn). cbn [negb]. unfold upd_cons. wp_steps. apply rubout_wp. cbn [set_ks_cons ks_cons].
    rewrite length_app in *. simpl in Hf. eapply (IH fuel rdy); [exact Hs'|lia|]. intros c Hc.
    assert (E : concat (replicate (length line + length [ch])%nat rubout) = rubout ++ concat (replicate (length line) rubout)).
    { rewrite Nat.add_comm. done. }
    specialize (HQ c Hc). rewrite E in HQ. rewrite onto_onto. by destruct k.
Qed.

(** What the key shows on the screen. *)
Definition dump (k : K) : list byte := chr 10 :: concat ((fun i => procdump_line (ks_proc k i)) <$> seqZ 0 NPROC).
Definition echo (k : K) (q : input) (b : byte) : list byte :=
  match act q b with
  | APrint => dump k
  | AKill => concat (replicate (length q.2) rubout)
  | AErase => rubout
  | AIgnore => []
  | AAdd _ => [stored b]
  end.

Definition wakes (q : input) (b : byte) (t : tctx) : tctx :=
  match act q b with AAdd true => emit_event (EWake cons_chan) t | _ => t end.

Lemma cons_wakeup_wp ch (Q : unit -> tctx -> K -> Prop) t k : t_held t = [] ->
  Q tt (hold cons_lock (emit_event (EWake ch) t)) k -> wp (wakeup ch) Q (hold cons_lock t) k.
Proof. intros Ht HQ. unfold wp, wakeup. rewrite decide_True; [done|]. cbn [hold t_held]. rewrite Ht. by repeat constructor. Qed.

Lemma consoleintr_wp b q k (Q : unit -> tctx -> K -> Prop) t : t_held t = [] -> shows (ks_cons k) q ->
  (forall c, shows c (press q b) -> Q tt (wakes q b t) (onto c (echo k q b) k)) -> wp (consoleintr (cv b)) Q t k.
Proof.
  intros Ht Hs HQ. destruct q as [rdy line]. unfold consoleintr. wp_step. apply wp_acquire; [rewrite Ht; apply not_elem_of_nil|]. wp_step. unfold press, echo, wakes, act in HQ.
  destruct (cv b =? ctrl_P); [|destruct (cv b =? ctrl_U); [|destruct ((cv b =? ctrl_H) || (cv b =? 0x7f))]].
  - unfold procdump. wp_steps. apply cons_print_wp. wp_steps. by apply HQ.
  - eapply kill_line_wp; [exact Hs| |].
    + pose proof (sh_room _ _ Hs) as Hm. unfold waiting in Hm. cbn [fst snd] in Hm. lia.
    + intros c Hc. wp_steps. by apply HQ.
  - unfold get_cons. wp_steps. rewrite (shows_line _ _ Hs). cbn [fst snd] in *. case_decide as El.
    + rewrite bool_decide_true by done. cbn [negb]. wp_steps. rewrite <-(onto_self k). apply HQ. by rewrite El in *.
    + rewrite bool_decide_false by done. cbn [negb]. destruct line as [|ch line _] using rev_ind; [done|]. destruct (shows_last _ _ _ _ Hs) as [_ Hs'].
      unfold upd_cons. wp_steps. apply rubout_wp. wp_steps. specialize (HQ (set_c_e (u32 (c_e (ks_cons k) - 1)) (ks_cons k))).
      rewrite length_app, Nat.add_sub, take_app_length in HQ. specialize (HQ Hs'). by destruct k.
  - unfold get_cons. wp_steps. rewrite (shows_count _ _ Hs), cv_stored. destruct (Z.leb_spec INPUT_BUF_SIZE (waiting (rdy, line))) as [Hfull|Hroom].
    { rewrite orb_true_r in HQ. rewrite (proj2 (Z.ltb_ge _ _)) by lia. rewrite andb_false_r. wp_steps. rewrite <-(onto_self k). by apply HQ. }
    rewrite orb_false_r in HQ. rewrite (proj2 (Z.ltb_lt _ _)) by lia. rewrite andb_true_r. destruct (cv b =? 0).
    { cbn [negb]. wp_steps. rewrite <-(onto_self k). by apply HQ. }
    cbn [negb]. cbv iota in HQ. wp_step. apply consputc_wp. wp_step. unfold upd_cons. apply wp_modify. wp_steps. rewrite byte.of_Z_unsigned.
    change (ks_cons (set_ks_cons ?c _)) with c. change (ks_cons (onto ?c _ _)) with c. cbn [cons_put c_e c_r].
    assert (Ec : (cv (stored b) =? 10) || (cv (stored b) =? ctrl_D) || (u32 (u32 (c_e (ks_cons k) + 1) - c_r (ks_cons k)) =? INPUT_BUF_SIZE) = completes (rdy, line) b).
    { unfold completes. do 2 f_equal. rewrite (sh_e _ _ Hs), u32_step. replace (c_r (ks_cons k) + waiting (rdy, line) + 1) with (c_r (ks_cons k) + (waiting (rdy, line) + 1)) by lia.
      apply u32_diff; [apply Hs|]. unfold waiting in *. change INPUT_BUF_SIZE with 128 in Hroom. cbn [fst snd] in *. lia. }
    rewrite Ec. cbn [fst snd] in HQ. destruct (completes (rdy, line) b) eqn:Ed; wp_steps.
    + specialize (HQ _ (shows_end _ _ _ (stored b) Hs Hroom)). apply cons_wakeup_wp; [done|]. wp_steps. by destruct k.
    + assert (Hn : stored b <> chr 10).
      { intros E. unfold completes in Ed. rewrite E in Ed. done. }
      specialize (HQ _ (shows_put _ _ _ _ Hs Hroom Hn)). by destruct k.
Qed.

(** C21: Every key does to the console what it does to the line editor [press]:
    it changes the line being typed or hands it to the readers, shows the change
    on the screen, and wakes the readers exactly when a line is complete; nothing
    else in the kernel changes. *)
Theorem consoleintr_refines b q t k : t_held t = [] -> shows (ks_cons k) q ->
  wp (consoleintr (cv b)) (fun _ t' k' => t' = wakes q b t /\ exists c, shows c (press q b) /\ k' = onto c (echo k q b) k) t k.
Proof. intros Ht Hs. apply (consoleintr_wp b q); [done|done|]. intros c Hc. split; [done|]. by exists c. Qed.

Lemma uart_input_wp l q : forall k (Q : unit -> tctx -> K -> Prop) t, t_held t = [] -> shows (ks_cons k) q ->
  (forall c o t', t_held t' = [] -> quiet t t' -> shows c (foldl press q l) -> Q tt t' (onto c o k)) -> wp (uart_input l) Q t k.
Proof.
  revert q. induction l as [|b l IH]; intros q k Q t Ht Hs HQ; cbn [uart_input foldl] in *.
  - wp_steps. rewrite <-(onto_self k). by apply HQ.
  - wp_step. apply (consoleintr_wp b q); [done|done|]. intros c Hc. assert (Hq : quiet t (wakes q b t)) by (unfold wakes; by repeat case_match).
    apply (IH (press q b)); [|done|].
    + by rewrite (proj1 Hq).
    + intros c' o t' Ht' Hq' Hc'. rewrite onto_onto. apply HQ; [done|by etrans|done].
Qed.

(** ** Reading *)

(** Neither the end of a line nor the end of the input. *)
Definition plain_char (c : byte) : Prop := cv c <> 10 /\ cv c <> ctrl_D.

(** Why a read of [n] bytes stops, when it had [got], took [l] and the queue
    went from [q] to [q']: it has its bytes, the line is complete, or there is
    an end-of-file mark, which stays for the next read unless this one is empty. *)
Inductive stops (n : nat) (got l q q' : list byte) : Prop :=
| stops_full : length (got ++ l) = n -> Forall plain_char l -> q = l ++ q' -> stops n got l q q'
| stops_line l0 ch : (length (got ++ l) <= n)%nat -> l = l0 ++ [ch] -> Forall plain_char l0 -> cv ch = 10 -> q = l ++ q' -> stops n got l q q'
| stops_eof ch rest : (length (got ++ l) < n)%nat -> Forall plain_char l -> cv ch = ctrl_D -> q = l ++ ch :: rest ->
    q' = (if decide (got ++ l = []) then rest else ch :: rest) -> stops n got l q q'.

Section read.
Context (dst : place) (n : nat) (J : list byte -> tctx -> kmem -> (Z -> proc) -> Prop) (t0 : tctx).
Hypothesis HJ : sink (C := C) dst (Z.of_nat n) J.

Definition has_read (got : list byte) (q : input) (k : K) : Prop := shows (ks_cons k) q /\ J got t0 (ks_mem k) (ks_proc k).

(** The read has taken all there is and needs more. *)
Definition drained (got : list byte) (q : input) (k : K) : Prop :=
  Forall plain_char q.1 /\ (length (got ++ q.1) < n)%nat /\ has_read (got ++ q.1) ([], q.2) k.

(** A read that had [got] when the queue was [q.1].  It sleeps only when it has
    taken all there is, and goes on with whatever is there when it is woken.  [Q]
    is told what it had when it was last woken. *)
Fixpoint reading {A} (Q : list byte -> input -> A -> tctx -> K -> Prop) (got : list byte) (q : input) (o : outcome K A) : Prop :=
  match o with
  | Done r t k => Q got q r t k
  | Asleep c t k f => c = cons_chan /\ drained got q k /\
      forall k' q', has_read (got ++ q.1) q' k' -> reading Q (got ++ q.1) q' (f t k')
  | Starved c _ k => c = cons_chan /\ drained got q k
  | Panic _ _ _ | OutOfFuel => False
  end.

(** What [consoleread] returns: -1 when the process is killed while it waits, or
    the number of bytes that it delivered. *)
Definition delivered (got : list byte) (q : input) (r : Z) (t : tctx) (k : K) : Prop :=
  t_held t = [] /\ ((r = -1 /\ drained got q k) \/
    exists l q', r = Z.of_nat (length (got ++ l)) /\ stops n got l q.1 q' /\ has_read (got ++ l) (q', q.2) k).

Lemma reading_bind {A B} Q got q (m : M K A) (f : A -> M K B) t k :
  reading (fun got' q' a t' k' => reading Q got' q' (f a t' k')) got q (m t k) -> reading Q got q ((m ≫= f) t k).
Proof using.
  unfold mbind, M_bind. generalize (m t k) as o. intros o. clear t k m. revert got q.
  induction o as [a t' k'| |c t' k' g IH| |]; simpl; intros got q Ho; try done.
  destruct Ho as (? & ? & Hg). split_and!; [done|done|]. intros k2 q2 Hk. apply IH. by apply Hg.
Qed.

Lemma wp_reading {A} Q got q (m : M K A) t k : wp m (fun a t' k' => Q got q a t' k') t k -> reading Q got q (m t k).
Proof using. unfold wp. by destruct (m t k). Qed.

(** A byte moves from the queue to the caller. *)
Lemma drained_cons got ch rdy line k : plain_char ch -> drained (got ++ [ch]) (rdy, line) k -> drained got (ch :: rdy, line) k.
Proof using. intros Hp (H1 & H2 & H3). unfold drained in *. cbn [fst snd] in *. rewrite <-app_assoc in *. split_and!; [by constructor|done|done]. Qed.

Lemma stops_cons got ch l q q' : plain_char ch -> stops n (got ++ [ch]) l q q' -> stops n got (ch :: l) (ch :: q) q'.
Proof using.
  intros Hp Hs. destruct Hs as [Hl Hf ->|l0 c Hl -> Hf Hc ->|c rest Hl Hf Hc -> ->]; rewrite <-app_assoc in Hl; cbn [app] in Hl.
  - apply stops_full; [done|by constructor|done].
  - eapply (stops_line _ _ _ _ _ (ch :: l0) c); [done|done|by constructor|done|done].
  - eapply (stops_eof _ _ _ _ _ c rest); [done|by constructor|done|done|by destruct got].
Qed.

Lemma delivered_cons got ch rdy line r t k : plain_char ch -> delivered (got ++ [ch]) (rdy, line) r t k -> delivered got (ch :: rdy, line) r t k.
Proof using.
  intros Hp (Ht & [[-> Hd]|(l & q' & -> & Hs & Hr)]); (split; [done|]).
  - left. split; [done|]. by apply drained_cons.
  - right. exists (ch :: l), q'. rewrite <-!app_assoc in *. cbn [app fst snd] in *. split_and!; [done|by apply stops_cons|done].
Qed.

Lemma reading_cons {A} (Q : list byte -> input -> A -> tctx -> K -> Prop) got ch rdy line o : plain_char ch ->
  (forall r t k, Q (got ++ [ch]) (rdy, line) r t k -> Q got (ch :: rdy, line) r t k) ->
  reading Q (got ++ [ch]) (rdy, line) o -> reading Q got (ch :: rdy, line) o.
Proof using.
  intros Hp HQ. destruct o as [a t' k'| |c t' k' g| |]; cbn [reading]; [by apply HQ|done| | |done].
  - cbn [fst]. rewrite <-app_assoc. intros (? & ? & ?). split_and!; [done|by apply drained_cons|done].
  - intros (? & ?). split; [done|by apply drained_cons].
Qed.

Hypothesis Ht0 : t_held t0 = [cons_lock].

Lemma quiet_back t : quiet t0 t -> quiet t t0.
Proof using. intros (H1 & H2 & H3 & H4). by split_and!. Qed.

Lemma mykilled_done t k : quiet t0 t -> exists b, mykilled t k = Done b t k.
Proof using Ht0.
  intros Hq. unfold mykilled, killed, proc_of. erewrite bind_done by done.
  erewrite bind_done by (apply acquire_done; rewrite (proj1 Hq), Ht0; apply not_elem_of_cons; split; [done|apply not_elem_of_nil]).
  erewrite bind_done by done. erewrite bind_done by apply release_done. by eexists.
Qed.

Lemma wait_reading got t : quiet t0 t -> (length got < n)%nat -> forall patience q k, has_read got q k ->
  reading (fun got' q' (ok : bool) t' k' => got' = got /\ t' = t /\ has_read got q' k' /\ (ok = true <-> q'.1 <> [])) got q (consoleread_wait patience t k).
Proof using Ht0.
  intros Hq Hg. induction patience as [|patience IH]; intros q k Hr; cbn [consoleread_wait]; apply reading_bind; cbn [get_cons gets reading].
  all: rewrite (shows_empty _ _ (proj1 Hr)); case_bool_decide as Eq; [|cbn; split_and!; try done].
  all: assert (Hd : drained got q k) by (unfold drained; rewrite Eq, app_nil_r; split_and!; [done|done|by rewrite <-Eq; destruct q]).
  all: destruct (mykilled_done t k Hq) as [b Eb]; apply reading_bind; rewrite Eb; cbn [reading]; destruct b; [cbn; split_and!; try done; by rewrite Eq|].
  - cbn. by split.
  - apply reading_bind. destruct (sleep_asleep cons_chan cons_lock t k ltac:(by intros ?)) as (t1 & f & Es & Ef); [by rewrite (proj1 Hq)|].
    rewrite Es. cbn [reading]. split_and!; [done|done|]. intros k' q' Hk. rewrite Ef. cbn [reading]. rewrite Eq, app_nil_r in *. by apply IH.
Qed.

Lemma reading_mono {A} (P Q : list byte -> input -> A -> tctx -> K -> Prop) got q o :
  reading P got q o -> (forall got q a t k, P got q a t k -> Q got q a t k) -> reading Q got q o.
Proof using. intros Ho HPQ. revert got q Ho. induction o as [| |c t s k IH| |]; simpl; naive_solver. Qed.

(** The result of the loop. *)
Definition ended (got : list byte) (q : input) (r : option Z) (t : tctx) (k : K) : Prop :=
  quiet t0 t /\ match r with
  | None => drained got q k
  | Some i => exists l q', i = Z.of_nat (length (got ++ l)) /\ stops n got l q.1 q' /\ has_read (got ++ l) (q', q.2) k
  end.

Lemma ended_cons got ch rdy line r t k : plain_char ch -> ended (got ++ [ch]) (rdy, line) r t k -> ended got (ch :: rdy, line) r t k.
Proof using.
  intros Hp (Ht & Hr). split; [done|]. destruct r as [i|]; [|by apply drained_cons].
  destruct Hr as (l & q' & -> & Hs & Hr). exists (ch :: l), q'. rewrite <-!app_assoc in *. cbn [app fst snd] in *. split_and!; [done|by apply stops_cons|done].
Qed.

(** One byte: the end-of-file mark ends the read. *)
Lemma eof_reading got ch rdy line t k : quiet t0 t -> (length got < n)%nat -> cv ch = ctrl_D -> has_read got (ch :: rdy, line) k ->
  wp ((if 0 <? Z.of_nat (length got) then upd_cons (fun c => set_c_r (u32 (c_r c - 1)) c) else mret tt);; mret (Some (Z.of_nat (length got))))
    (ended got (ch :: rdy, line)) t (set_ks_cons (set_c_r (u32 (c_r (ks_cons k) + 1)) (ks_cons k)) k).
Proof using.
  intros Hq Hg Hch Hr. destruct (shows_take _ _ _ _ (proj1 Hr)) as [_ Ht].
  assert (Hst : forall q', q' = (if decide (got = []) then rdy else ch :: rdy) -> stops n got [] (ch :: rdy) q').
  { intros q' ->. eapply (stops_eof _ _ _ _ _ ch rdy); [by rewrite app_nil_r|constructor|done|done|]. by rewrite app_nil_r. }
  destruct got as [|g got]; cbn [length Z.of_nat Z.ltb Z.compare].
  - wp_steps. split; [done|]. exists [], rdy. split_and!; [done|by apply Hst|]. split; [exact Ht|apply Hr].
  - unfold upd_cons. wp_steps. split; [done|]. exists [], (ch :: rdy). rewrite app_nil_r. split_and!; [done|by apply Hst|].
    assert (E : set_ks_cons (set_c_r (u32 (u32 (c_r (ks_cons k) + 1) - 1)) (ks_cons k)) k = k).
    { replace (u32 (c_r (ks_cons k) + 1) - 1) with (u32 (c_r (ks_cons k) + 1) + -1) by lia. rewrite u32_step.
      replace (c_r (ks_cons k) + 1 + -1) with (c_r (ks_cons k)) by lia. rewrite u32_small by apply Hr. by destruct k as [? ? ? ? ? ? ? ? ? ? [] ?]. }
    change (has_read (g :: got) (ch :: rdy, line) (set_ks_cons (set_c_r (u32 (u32 (c_r (ks_cons k) + 1) - 1)) (ks_cons k)) k)). by rewrite E.
Qed.

Lemma loop_reading patience : forall todo got q t k, quiet t0 t -> (length got + todo = n)%nat -> has_read got q k ->
  reading ended got q (consoleread_loop todo patience dst (Z.of_nat (length got)) t k).
Proof using Ht0 HJ.
  induction todo as [|todo IH]; intros got q t k Hq Hn Hr; cbn [consoleread_loop].
  { cbn. split; [done|]. exists [], q.1. rewrite app_nil_r. split_and!; [done| |by destruct q].
    apply stops_full; [rewrite app_nil_r; lia|constructor|done]. }
  apply reading_bind. eapply reading_mono; [apply wait_reading; [exact Hq|lia|exact Hr]|].
  intros ? [rdy line] ok t' k' (-> & -> & Hr' & Hok). destruct ok; cbn [negb].
  2:{ cbn. split; [done|]. destruct rdy; [|exfalso; by discriminate (proj2 Hok)]. split_and!; [done|cbn; rewrite app_nil_r; lia|by rewrite app_nil_r]. }
  destruct rdy as [|ch rdy]; [by destruct (proj1 Hok)|]. clear Hok k Hr q. rename k' into k. destruct (shows_take _ _ _ _ (proj1 Hr')) as [Ech Hs].
  apply reading_bind. cbn [get_cons gets reading]. rewrite Ech. cbv zeta. apply reading_bind. cbn [upd_cons modify reading].
  destruct (Z.eqb_spec (cv ch) ctrl_D) as [Ed|Ed]; [apply wp_reading, eof_reading; try done; lia|].
  apply reading_bind, wp_reading. eapply wp_mono.
  { apply (si_copy _ _ _ HJ got [ch]); [|simpl; lia]. eapply (si_quiet _ _ _ HJ); [exact Hq|]. apply Hr'. }
  intros r t' k' (-> & Hq' & m' & -> & Hj). change (0 =? -1) with false. cbv iota. assert (Hq2 : quiet t0 t') by (by etrans).
  assert (Hr2 : has_read (got ++ [ch]) (rdy, line) (set_ks_mem m' (set_ks_cons (set_c_r (u32 (c_r (ks_cons k) + 1)) (ks_cons k)) k))).
  { split; [exact Hs|]. eapply (si_quiet _ _ _ HJ); [|exact Hj]. by apply quiet_back. }
  assert (El : Z.of_nat (length got) + 1 = Z.of_nat (length (got ++ [ch]))) by (rewrite length_app; simpl; lia). rewrite El.
  destruct (Z.eqb_spec (cv ch) 10) as [En|En].
  - cbn. split; [done|]. exists [ch], rdy. split_and!; [done| |exact Hr2]. eapply (stops_line _ _ _ _ _ [] ch); try done. rewrite length_app. simpl. lia.
  - apply reading_cons; [done|intros ? ? ?; by apply ended_cons|]. apply IH; [done|rewrite length_app; simpl; lia|done].
Qed.
End read.

Lemma consoleread_reading dst n J q t k : sink (C := C) dst (Z.of_nat n) J -> t_held t = [] -> shows (ks_cons k) q ->
  J [] (hold cons_lock t) (ks_mem k) (ks_proc k) ->
  reading n J (hold cons_lock t) (delivered n J (hold cons_lock t)) [] q (consoleread dst (Z.of_nat n) t k).
Proof.
  intros HJ Ht Hs Hj. unfold consoleread. apply reading_bind. cbn [self reading]. apply reading_bind.
  rewrite acquire_done by (rewrite Ht; apply not_elem_of_nil). cbn [reading]. apply reading_bind. rewrite Nat2Z.id.
  assert (Ht0 : t_held (hold cons_lock t) = [cons_lock]) by (cbn; by rewrite Ht).
  eapply reading_mono; [apply (loop_reading dst n J (hold cons_lock t) HJ Ht0 (t_patience t) n [] q); done|].
  intros got q' r t' k' [Hq Hr]. apply wp_reading. unfold wp. unfold release, mbind, M_bind.
  rewrite decide_True by (rewrite (proj1 Hq), Ht0; apply elem_of_cons; by left). cbn [obind]. split.
  - cbn [unhold t_held]. rewrite (proj1 Hq), Ht0. done.
  - destruct r as [i|]; [right; exact Hr|left; by split].
Qed.

(** The first character that ends a line or the input. *)
Lemma first_stop l l' c c' r r' : Forall plain_char l -> Forall plain_char l' -> ~ plain_char c -> ~ plain_char c' ->
  l ++ c :: r = l' ++ c' :: r' -> l = l' /\ c = c' /\ r = r'.
Proof.
  revert l'. induction l as [|x l IH]; intros [|x' l'] Hl Hl' Hc Hc' E; cbn in E; injection E as E1 E2.
  - done.
  - subst c. by inversion Hl'.
  - subst x. by inversion Hl.
  - apply Forall_cons in Hl as [_ Hl]. apply Forall_cons in Hl' as [_ Hl']. destruct (IH l') as (-> & -> & ->); try done. by rewrite E1.
Qed.

Lemma line_stops n l ch rest l' q' : (length l < n)%nat -> Forall plain_char l -> cv ch = 10 ->
  stops n [] l' (l ++ ch :: rest) q' -> l' = l ++ [ch] /\ q' = rest.
Proof.
  intros Hn Hl Hc Hs. assert (Hnp : ~ plain_char ch) by (intros [? ?]; done).
  destruct Hs as [Hlen Hf E|l0 c Hlen -> Hf Hc' E|c r Hlen Hf Hc' E _]; cbn [app] in *.
  - exfalso. apply Hnp. assert (Hk : l' !! length l = Some ch).
    { rewrite <-(lookup_app_l l' q') by lia. rewrite <-E. by apply list_lookup_middle. }
    rewrite Forall_lookup in Hf. by apply (Hf _ _ Hk).
  - rewrite <-app_assoc in E. cbn [app] in E. assert (Hnc : ~ plain_char c) by (intros [? ?]; done). by destruct (first_stop _ _ _ _ _ _ Hl Hf Hnp Hnc E) as (-> & -> & ->).
  - exfalso. assert (Hnc : ~ plain_char c) by (intros [? ?]; done). destruct (first_stop _ _ _ _ _ _ Hl Hf Hnp Hnc E) as (_ & -> & _). by rewrite Hc' in Hc.
Qed.


(** C23: What is typed is what is read: when the keys pressed at an idle console
    make up a line, with the characters that were rubbed out left out, a read that
    has room for it returns that line and leaves the rest for the next one. *)
Theorem console_round_trip dst n J keys l rest line t k : sink (C := C) dst (Z.of_nat n) J -> t_held t = [] -> shows (ks_cons k) ([], []) ->
  (forall t', quiet t t' -> J [] (hold cons_lock t') (ks_mem k) (ks_proc k)) ->
  foldl press ([], []) keys = (l ++ chr 10 :: rest, line) -> Forall plain_char l -> (length l < n)%nat ->
  wp (uart_input keys;; consoleread dst (Z.of_nat n)) (fun r t' k' => r = Z.of_nat (length l) + 1 /\ t_held t' = [] /\
    J (l ++ [chr 10]) (hold cons_lock t) (ks_mem k') (ks_proc k') /\ shows (ks_cons k') (rest, line)) t k.
Proof.
  intros HJ Ht Hs Hj Ek Hl Hn. wp_step. apply (uart_input_wp keys ([], [])); [done|done|]. intros c o t' Ht' Hq Hc. rewrite Ek in Hc.
  pose proof (consoleread_reading dst n J _ t' (onto c o k) HJ Ht' Hc (Hj t' Hq)) as Hr.
  assert (Hd : ~ Forall plain_char (l ++ chr 10 :: rest)).
  { intros Hf. apply Forall_app in Hf as [_ Hf]. apply Forall_cons in Hf as [[? _] _]. done. }
  unfold wp. destruct (consoleread dst (Z.of_nat n) t' (onto c o k)) as [r t2 k2| |ch t2 k2 f|ch t2 k2|]; cbn [reading] in Hr; [|done|by destruct Hr as (_ & [? _] & _)|by destruct Hr as (_ & [? _])|done].
  destruct Hr as (Ht2 & [[_ [? _]]|(l' & q' & -> & Hst & [Hsh HJ2])]); [done|]. cbn [fst snd] in *.
  apply line_stops in Hst as [-> ->]; [|done|done|done]. cbn [app] in *. rewrite length_app. cbn [length]. split_and!; [lia|done| |done].
  eapply (si_quiet _ _ _ HJ); [|exact HJ2]. destruct Hq as (H1 & H2 & H3 & H4). split_and!; cbn; congruence.
Qed.
End console.

(** ** A line with a mistake in it

    The keys are l, a, backspace, s and return. *)

Module ConsoleDemo.
#[local] Existing Instance FsDemo.the_layout.

Definition kern : kernel bcache := FsDemo.the_kernel FsDemo.the_file (LogDemo.raw_cache LogDemo.zero_disk).
Definition keys : list byte := bytes_of "la" ++ [chr 8] ++ bytes_of "s" ++ [chr 13].

Lemma idle : shows (ks_cons kern) ([], []).
Proof. split; try done. apply not_elem_of_nil. Qed.

End ConsoleDemo.

#[local] Existing Instance FsDemo.the_layout.

Lemma consoleintr_refines_witness : wp (consoleintr (cv (chr 97))) (fun _ t' k' => t' = LogDemo.thread /\
  exists c, shows c ([], [chr 97]) /\ k' = onto c [chr 97] ConsoleDemo.kern) LogDemo.thread ConsoleDemo.kern.
Proof. exact (consoleintr_refines (chr 97) ([], []) LogDemo.thread ConsoleDemo.kern eq_refl ConsoleDemo.idle). Defined.


Lemma console_round_trip_witness : wp (uart_input ConsoleDemo.keys;; consoleread (Phys 4096) 10)
  (fun r _ k' => r = 3 /\ mread (k_mem (ks_mem k')) 4096 3 = bytes_of "ls" ++ [chr 10]) LogDemo.thread ConsoleDemo.kern.
Proof.
  eapply wp_mono.
  - apply (console_round_trip (Phys 4096) 10 (phys_takes 4096) ConsoleDemo.keys (bytes_of "ls") [] []);
      [apply phys_sink|done|exact ConsoleDemo.idle|done|reflexivity|by repeat constructor|simpl; lia].
  - intros r t' k' (-> & _ & Hm & _). split; [done|exact Hm].
Defined.
