(* ===== verification/ProcSpec.v ===== *)
(** * ProcSpec: the address space of a process is made and freed as a whole

    [proc_pagetable] makes a table with the trampoline and the trapframe, or
    gives back what it took; [proc_freepagetable] frees the table with all the
    memory it maps. *)

From S2P Require Import Prelude Riscv CString Kalloc Vm PageTable VmWalk VmMap VmUnmap VmAlloc VmUser VmCopy VmFree.
From S2P Require Import Sleeplock Layout Bio BioSpec Log Pipe Kernel Fs Proc.

Section high.
Context `{KernelLayout} (t : tctx).
Hypothesis Hl : kmem_lock ∉ t_held t.

(** One page above user memory is mapped. *)
Lemma map_high_wp users own fl s root a pa perm : vm_inv users own fl s -> own !! root = Some (PT root 2 0) ->
  0 <= a < MAXVA -> a mod 4096 = 0 -> user_pages <= a / 4096 -> 0 <= pa < 2 ^ 56 -> pa mod PGSIZE = 0 -> 0 <= perm < 1024 ->
  pt_lookup (k_mem s) root a = None ->
  wp (mappages root a PGSIZE pa perm) (fun r t' s' => t' = t /\ exists own' fl', extends root users own own' fl fl' s s' /\
    ((r = 0 /\ remapped own root a pa perm 1 (k_mem s) (k_mem s')) \/ (r = -1 /\ remapped own root a pa perm 0 (k_mem s) (k_mem s')))) t s.
Proof using Hl.
  intros I Hr Ha Hal Hhi Hpa Hpal Hperm Hn. unfold mappages. change PGSIZE with 4096 at 1. rewrite Hal.
  rewrite (proj2 (Z.eqb_eq (PGSIZE mod PGSIZE) 0)) by done. cbn [negb Z.eqb]. change (PGSIZE =? 0) with false. cbv iota.
  change (Z.to_nat (PGSIZE / PGSIZE)) with 1%nat.
  replace (u64 (a + PGSIZE - PGSIZE)) with a
    by (unfold u64; rewrite Z.add_simpl_r, Z.mod_small by (change MAXVA with (2 ^ 38) in *; lia); done).
  cbn [mappages_loop]. wp_step. eapply wp_mono; [apply (map_one_wp users own fl s root a pa perm t); try done|].
  { intros i Hi. assert (i = 0) as -> by lia. by rewrite Z.mul_0_l, Z.add_0_r. }
  { intros _ i Hi. lia. }
  intros pte t1 s1 (-> & own' & fl' & Hp). destruct (pte =? 0).
  - wp_steps. split; [done|]. exists own', fl'. destruct Hp as (_ & X & R). split; [done|]. by right.
  - destruct Hp as (Hv & X & R). unfold ld64, st64. wp_steps. rewrite Hv. wp_steps. rewrite Z.eqb_refl. wp_steps.
    split; [done|]. exists own', fl'. split; [done|]. by left.
Qed.

(** It is unmapped without being freed. *)
Lemma unmap_high_wp users own fl s root a : vm_inv users own fl s -> own !! root = Some (PT root 2 0) ->
  0 <= a -> a + PGSIZE <= MAXVA -> a mod 4096 = 0 -> user_pages <= a / 4096 ->
  wp (uvmunmap root a 1 false) (fun _ t' s' => t' = t /\ vm_inv users own fl s' /\ cleared own root a 1 (k_mem s) (k_mem s') /\
    forall x, (forall p r k pre, own !! p = Some (PT r k pre) -> x < p \/ p + PGSIZE <= x) -> mget (k_mem s') x = mget (k_mem s) x) t s.
Proof using.
  intros I Hr Ha Hhi Hal Hup. unfold PGSIZE in Hhi. assert (Hva : 0 <= a < MAXVA) by lia. unfold uvmunmap. change PGSIZE with 4096. rewrite Hal.
  cbn [Z.eqb negb]. change (Z.to_nat 1) with 1%nat. cbn [uvmunmap_loop]. change MAXVA with (2 ^ 38) in Hhi.
  assert (E : u64 (a + u64 (1 * 4096)) = a + 4096) by (change (u64 (1 * 4096)) with 4096; unfold u64; rewrite Z.mod_small by lia; done). rewrite E.
  rewrite (proj2 (Z.ltb_lt _ _)) by lia. assert (E2 : u64 (a + PGSIZE) = a + 4096) by (unfold u64, PGSIZE; rewrite Z.mod_small by lia; done).
  wp_step. unfold unmap_page. wp_step. eapply wp_done; [apply walk_false; lia|].
  assert (Hp : own !! root = Some (PT root 2 (prefix_of 2 a))) by (by rewrite prefix_root).
  pose proof (lk_wk I root 2 root a Hp) as Hlk. fold (pt_lookup (k_mem s) root a) in Hlk.
  assert (Hdone : forall s', (vm_inv users own fl s' /\ cleared own root a 1 (k_mem s) (k_mem s') /\
    forall x, (forall p r k pre, own !! p = Some (PT r k pre) -> x < p \/ p + PGSIZE <= x) -> mget (k_mem s') x = mget (k_mem s) x) ->
    wp (if a + 4096 <? a + 4096 then unmap_page root (a + 4096) false;; fuel_out else mret tt) (fun _ t' s' => t' = t /\ vm_inv users own fl s' /\ cleared own root a 1 (k_mem s) (k_mem s') /\
    forall x, (forall p r k pre, own !! p = Some (PT r k pre) -> x < p \/ p + PGSIZE <= x) -> mget (k_mem s') x = mget (k_mem s) x) t s').
  { intros s' Hs. rewrite Z.ltb_irrefl. wp_steps. by split. }
  destruct (wk_owned I root 2 root a Hp) as [E0|(q & Hq & Eq)].
  { rewrite E0 in *. cbn [Z.eqb]. wp_steps. rewrite E2. apply Hdone. split_and!; [done|by apply not_mapped_cleared|done]. }
  set (pte := wk (k_mem s) 2 root a) in *. assert (Hj := PX_bound 0 a ltac:(lia)).
  pose proof (page_ok_range _ (vi_ok _ _ _ _ I _ _ Hq)). rewrite (proj2 (Z.eqb_neq pte 0)) in * by lia. unfold ld64. wp_steps.
  destruct (Z.land (load64 (k_mem s) pte) PTE_V =? 0) eqn:EV.
  { wp_steps. rewrite E2. apply Hdone. split_and!; [done| |done]. apply not_mapped_cleared; try done. rewrite Hlk. unfold nz. by rewrite EV. }
  unfold st64. wp_steps. rewrite E2. apply Hdone. split_and!.
  - rewrite Eq. apply (vm_inv_store_leaf _ _ _ _ root q (prefix_of 0 a)); try done.
  - intros root' va' Hr' Hva'. cbn [set_mem k_mem]. rewrite (store_leaf_remaps users own fl s root a pte 0); try done; [|lia|rewrite <-Hq; f_equal; lia].
    assert (Hd : va' / 4096 = a / 4096 <-> a <= va' < a + 1 * PGSIZE) by (unfold PGSIZE; divlia).
    repeat case_decide; tauto || done.
  - intros x Hx. cbn [set_mem k_mem]. apply mget_store_out. pose proof (Hx _ _ _ _ Hq). unfold PGSIZE in *. simpl. lia.
Qed.
End high.

(** ** proc_pagetable *)

Section space.
Context `{KernelLayout} `{KernelText} (t : tctx).
Hypothesis Hl : kmem_lock ∉ t_held t.

(** The entry for the page [pa]. *)
Definition leaf (pa perm : Z) : Z := Z.lor (Z.lor (PA2PTE pa) perm) PTE_V.

Definition tramp_page : Z := TRAMPOLINE / 4096.
Definition frame_page : Z := TRAPFRAME / 4096.
Definition tramp_leaf : Z := leaf trampoline (Z.lor PTE_R PTE_X).
Definition frame_leaf (tf : Z) : Z := leaf tf (Z.lor PTE_R PTE_W).

(** An empty address space: the trampoline, the trapframe and no memory. *)
Definition empty_space (tf vpn : Z) : option Z :=
  if decide (vpn = tramp_page) then Some tramp_leaf else if decide (vpn = frame_page) then Some (frame_leaf tf) else None.

Lemma page_range a va : a mod 4096 = 0 -> (va / 4096 = a / 4096 <-> a <= va < a + 1 * PGSIZE).
Proof using. intros Ha. unfold PGSIZE. divlia. Qed.

Lemma maps_remapped own r a pa perm m m' f : own !! r = Some (PT r 2 0) -> a mod 4096 = 0 -> maps m r f -> remapped own r a pa perm 1 m m' ->
  maps m' r (fun v => if decide (v = a / 4096) then Some (leaf pa perm) else f v).
Proof using.
  intros Hr Ha Hm R va Hva. rewrite (R r va Hr Hva). pose proof (page_range a va Ha) as Hp. case_decide as E.
  - destruct E as [_ E]. rewrite decide_True by tauto. unfold leaf. rewrite PGROUNDDOWN_eq, Z.mod_small by (unfold PGSIZE in E; lia). do 5 f_equal. lia.
  - rewrite decide_False by tauto. by apply Hm.
Qed.

Lemma maps_unmoved own r a pa perm m m' f : own !! r = Some (PT r 2 0) -> maps m r f -> remapped own r a pa perm 0 m m' -> maps m' r f.
Proof using. intros Hr Hm R va Hva. rewrite (R r va Hr Hva), decide_False by lia. by apply Hm. Qed.

Lemma maps_cleared own r a m m' f : own !! r = Some (PT r 2 0) -> a mod 4096 = 0 -> maps m r f -> cleared own r a 1 m m' ->
  maps m' r (fun v => if decide (v = a / 4096) then None else f v).
Proof using.
  intros Hr Ha Hm R va Hva. rewrite (R r va Hr Hva). pose proof (page_range a va Ha) as Hp. case_decide as E.
  - rewrite decide_True by tauto. done.
  - rewrite decide_False by tauto. by apply Hm.
Qed.

(** Mapping or unmapping a page of the new table leaves the others alone. *)
Lemma made_map users own own1 fl fl1 s s1 own2 fl2 s2 r a pa perm d : made r users own own1 fl fl1 s s1 ->
  extends r ({[r]} ∪ users) own1 own2 fl1 fl2 s1 s2 -> remapped own1 r a pa perm d (k_mem s1) (k_mem s2) -> made r users own own2 fl fl2 s s2.
Proof using.
  intros D X R. eapply made_extends; [exact D|exact X|]. intros r' va Hne Hr' Hva. rewrite (R r' va Hr' Hva). by rewrite decide_False by tauto.
Qed.

Lemma made_unmap users own own1 fl fl1 s s1 s2 r a : made r users own own1 fl fl1 s s1 -> vm_inv ({[r]} ∪ users) own1 fl1 s2 ->
  cleared own1 r a 1 (k_mem s1) (k_mem s2) ->
  (forall x, (forall p r k pre, own1 !! p = Some (PT r k pre) -> x < p \/ p + PGSIZE <= x) -> mget (k_mem s2) x = mget (k_mem s1) x) ->
  made r users own own1 fl fl1 s s2.
Proof using.
  intros D I Cl M. eapply made_extends; [exact D| |].
  - split; [done|done| |].
    + exists []. split_and!; [done|by left|]. by intros ? []%not_elem_of_nil.
    + intros x Hx. apply M. intros p r' k pre Hp. apply Hx. right. by eexists _, _, _.
  - intros r' va Hne Hr' Hva. rewrite (Cl r' va Hr' Hva). by rewrite decide_False by tauto.
Qed.

(** The table is an empty space, or nothing has happened. *)
Definition new_space (tf r : Z) users own (fl : list Z) (s s' : kmem) : Prop :=
  (r = 0 /\ exists fl', untouched users own fl fl' s s') \/
  (r <> 0 /\ exists own' fl', made r users own own' fl fl' s s' /\ maps (k_mem s') r (empty_space tf)).

Lemma untouched_refl users own fl s : vm_inv users own fl s -> untouched users own fl fl s s.
Proof using. intros I. by split. Qed.

Section pagetable.
Context (users : gset Z) (own : gmap Z usage) (fl : list Z) (s : kmem) (tf : Z).
Hypothesis I : vm_inv users own fl s.
Hypothesis Hd : owned_by users own.
Hypothesis Htf : 0 <= tf < 2 ^ 56.
Hypothesis Htfa : tf mod PGSIZE = 0.

Lemma made_fresh own1 fl1 s1 r : made r users own own1 fl fl1 s s1 -> r ∉ users.
Proof using I. intros D Hu. pose proof (vi_root _ _ _ _ I r Hu) as E. by rewrite (md_fresh _ _ _ _ _ _ _ _ D) in E. Qed.

(** Giving up: the table is empty again. *)
Lemma undo_wp own1 fl1 s1 r : made r users own own1 fl fl1 s s1 -> maps (k_mem s1) r (fun _ => None) ->
  wp (uvmfree r 0;; mret 0) (fun r t' s' => t' = t /\ new_space tf r users own fl s s') t s1.
Proof using I Hl.
  intros D Hm. wp_step. eapply wp_mono; [eapply (made_undo D t Hm Hl); by eapply made_fresh|].
  intros [] t' s' (-> & fl' & U). wp_steps. split; [done|]. left. split; [done|]. by exists fl'.
Qed.

(** The second page. *)
Lemma map_frame_wp own1 fl1 s1 r : made r users own own1 fl fl1 s s1 ->
  maps (k_mem s1) r (fun v => if decide (v = tramp_page) then Some tramp_leaf else None) -> r <> 0 ->
  wp (x ← mappages r TRAPFRAME PGSIZE tf (Z.lor PTE_R PTE_W);
      if x <? 0 then uvmunmap r TRAMPOLINE 1 false;; uvmfree r 0;; mret 0 else mret r)
    (fun r t' s' => t' = t /\ new_space tf r users own fl s s') t s1.
Proof using I Hl Htf Htfa.
  intros D Hm Hr0. pose proof (made_root D) as Hr. pose proof (md_inv _ _ _ _ _ _ _ _ D) as I1.
  assert (Hn : pt_lookup (k_mem s1) r TRAPFRAME = None) by (by rewrite Hm).
  wp_step. eapply wp_mono; [apply (map_high_wp t Hl ({[r]} ∪ users) own1 fl1 s1 r TRAPFRAME tf (Z.lor PTE_R PTE_W)); done|].
  intros x t1 s2 (-> & own2 & fl2 & X & [[-> R]|[-> R]]); cbn [Z.ltb Z.compare]; pose proof (made_map _ _ _ _ _ _ _ _ _ _ _ _ _ _ _ D X R) as D2.
  - wp_steps. split; [done|]. right. split; [done|]. exists own2, fl2. split; [done|].
    pose proof (maps_remapped own1 r TRAPFRAME tf _ _ _ _ Hr eq_refl Hm R) as Hm2. intros va Hva. rewrite (Hm2 va Hva).
    unfold empty_space. fold frame_page. fold (frame_leaf tf). assert (frame_page <> tramp_page) by done. repeat case_decide; congruence.
  - wp_step. pose proof (made_root D2) as Hr2. pose proof (maps_unmoved _ _ _ _ _ _ _ _ Hr Hm R) as Hm2.
    eapply wp_mono; [apply (unmap_high_wp t ({[r]} ∪ users) own2 fl2 s2 r TRAMPOLINE); try done; apply D2|].
    intros [] t1 s3 (-> & I3 & C3 & M3). pose proof (made_unmap _ _ _ _ _ _ _ _ _ _ D2 I3 C3 M3) as D3.
    apply (undo_wp own2 fl2 s3 r D3). pose proof (maps_cleared own2 r TRAMPOLINE _ _ _ Hr2 eq_refl Hm2 C3) as Hm3.
    intros va Hva. rewrite (Hm3 va Hva). fold tramp_page. by case_decide.
Qed.

Lemma proc_pagetable_wp : wp (proc_pagetable tf) (fun r t' s' => t' = t /\ new_space tf r users own fl s s') t s.
Proof using I Hd Hl Htf Htfa.
  unfold proc_pagetable. wp_step. eapply wp_mono; [by apply (uvmcreate_wp users own fl s t)|].
  intros r t1 s1 [-> [(-> & -> & ->)|(Hr0 & fl1 & D & Hm)]].
  { cbn [Z.eqb]. wp_steps. split; [done|]. left. split; [done|]. exists []. by apply untouched_refl. }
  rewrite (proj2 (Z.eqb_neq r 0) Hr0). pose proof (made_root D) as Hr. pose proof (md_inv _ _ _ _ _ _ _ _ D) as I1.
  pose proof trampoline_range as Htr. pose proof kend_range as Hk. unfold PHYSTOP, KERNBASE, PGSIZE in Htr, Hk.
  assert (Hn : pt_lookup (k_mem s1) r TRAMPOLINE = None) by (by rewrite Hm).
  wp_step. eapply wp_mono; [apply (map_high_wp t Hl ({[r]} ∪ users) (<[r := PT r 2 0]> own) fl1 s1 r TRAMPOLINE trampoline (Z.lor PTE_R PTE_X)); try done; [lia|apply trampoline_aligned]|].
  intros x t1 s2 (-> & own2 & fl2 & X & [[-> R]|[-> R]]); cbn [Z.ltb Z.compare]; pose proof (made_map _ _ _ _ _ _ _ _ _ _ _ _ _ _ _ D X R) as D2.
  - apply (map_frame_wp own2 fl2 s2 r D2); [|done]. exact (maps_remapped _ r TRAMPOLINE trampoline _ _ _ _ Hr eq_refl Hm R).
  - apply (undo_wp own2 fl2 s2 r D2). exact (maps_unmoved _ _ _ _ _ _ _ _ Hr Hm R).
Qed.
End pagetable.

(** ** proc_freepagetable *)

(** The table maps memory below [sz], the trapframe and the trampoline. *)
Definition confined (m : mem) (root sz : Z) : Prop := forall va v, 0 <= va < MAXVA -> pt_lookup m root va = Some v ->
  va < PGROUNDUP sz \/ va / 4096 = frame_page \/ va / 4096 = tramp_page.

Lemma freed_unmap users own fl fl' s s1 s2 root a : vm_inv users own fl s -> cleared own root a 1 (k_mem s) (k_mem s1) ->
  (forall x, (forall p r k pre, own !! p = Some (PT r k pre) -> x < p \/ p + PGSIZE <= x) -> mget (k_mem s1) x = mget (k_mem s) x) ->
  space_freed root users own fl fl' s1 s2 -> space_freed root users own fl fl' s s2.
Proof using.
  intros I Cl M [I2 F2 L2 M2]. split; [done|done| |].
  - intros r va Hne Hr Hva. rewrite (L2 r va Hne Hr Hva), (Cl r va Hr Hva). by rewrite decide_False by tauto.
  - intros x Hx. rewrite M2 by done. apply M. intros p r k pre Hp. apply Hx. right. by eexists _, _, _.
Qed.

Lemma in_place_cleared own root a m m' : own !! root = Some (PT root 2 0) -> a mod 4096 = 0 -> user_pages <= a / 4096 -> in_place own m root -> cleared own root a 1 m m' -> in_place own m' root.
Proof using.
  intros Hr Ha Hhi Hip Cl p vpn Hp. destruct (Hip p vpn Hp) as (Hv & v & Ev & Epa). split; [done|]. exists v. split; [|done].
  assert (Hva : 0 <= vpn * PGSIZE < MAXVA) by (change user_pages with (2 ^ 26 - 2) in Hv; change MAXVA with (2 ^ 38); unfold PGSIZE; lia).
  rewrite (Cl root _ Hr Hva), decide_False; [done|]. intros [_ E]. apply (page_range a _ Ha) in E. unfold PGSIZE in E. rewrite Z.div_mul in E by lia. lia.
Qed.

Lemma proc_freepagetable_wp users own fl s root sz : vm_inv users own fl s -> root ∈ users -> 0 <= sz <= TRAPFRAME ->
  in_place own (k_mem s) root -> confined (k_mem s) root sz ->
  wp (proc_freepagetable root sz) (fun _ t' s' => t' = t /\ exists fl', space_freed root users own fl fl' s s') t s.
Proof using Hl.
  intros I Hu Hsz Hip Hc. unfold proc_freepagetable. pose proof (vi_root _ _ _ _ I root Hu) as Hr.
  wp_step. eapply wp_mono; [by apply (unmap_high_wp t users own fl s root TRAMPOLINE)|]. intros [] t1 s1 (-> & I1 & C1 & M1).
  wp_step. eapply wp_mono; [by apply (unmap_high_wp t users own fl s1 root TRAPFRAME)|]. intros [] t1 s2 (-> & I2 & C2 & M2).
  assert (Hip2 : in_place own (k_mem s2) root) by (by eapply in_place_cleared; [| | |eapply in_place_cleared; [| | |exact Hip|exact C1]|exact C2]).
  eapply wp_mono; [apply (uvmfree_wp t Hl users own fl s2 root sz I2 Hu Hsz Hip2)|].
  - intros va v Hva. rewrite (C2 root va Hr Hva). case_decide as E2; [done|]. rewrite (C1 root va Hr Hva). case_decide as E1; [done|]. intros Ev.
    destruct (Hc va v Hva Ev) as [?|[E|E]]; [done|exfalso..].
    + apply E2. split; [done|]. by apply (page_range TRAPFRAME).
    + apply E1. split; [done|]. by apply (page_range TRAMPOLINE).
  - intros [] t' s' (-> & fl' & F). split; [done|]. exists fl'. by eapply freed_unmap; [exact I|exact C1|exact M1|eapply freed_unmap].
Qed.
End space.
