(* ===== verification/Process.v ===== *)
(** * Process: fork, exit and wait of kernel/proc.c, and kernel/exec.c *)

From coqutil Require Import Word.LittleEndianList.
From S2P Require Import Prelude Riscv CString Kalloc Vm Sleeplock Layout Bio BioSpec Log Pipe Kernel Fs Proc Printf Console File.

(** ** elf.h *)

Definition ELF_MAGIC : Z := 0x464C457F.
Definition ELF_PROG_LOAD : Z := 1.
Definition sizeof_elfhdr : Z := 64.
Definition sizeof_proghdr : Z := 56.

Definition elf_magic (d : list byte) : Z := rd32 d 0.
Definition elf_entry (d : list byte) : Z := rdn 8 d 24.
Definition elf_phoff (d : list byte) : Z := rdn 8 d 32.
Definition elf_phnum (d : list byte) : Z := rd16 d 56.
Definition ph_type (d : list byte) : Z := rd32 d 0.
Definition ph_flags (d : list byte) : Z := rd32 d 4.
Definition ph_off (d : list byte) : Z := rdn 8 d 8.
Definition ph_vaddr (d : list byte) : Z := rdn 8 d 16.
Definition ph_filesz (d : list byte) : Z := rdn 8 d 32.
Definition ph_memsz (d : list byte) : Z := rdn 8 d 40.

Definition flags2perm (flags : Z) : Z :=
  let perm := if nz (Z.land flags 1) then PTE_X else 0 in
  if nz (Z.land flags 2) then Z.lor perm PTE_W else perm.

(** The part of a path after its last slash. *)
Fixpoint last_elem (last s : list byte) : list byte :=
  match s with
  | [] => last
  | c :: s => last_elem (if decide (c = slash) then s else last) s
  end.

(** The bytes of the array ustack[0..argc]. *)
Definition ustack_bytes (l : list Z) : list byte := concat (LittleEndianList.le_split 8 <$> l).

Section process.
Context `{KernelLayout} `{KernelText} {C : Type} `{BlockCache C}.
Local Abbreviation K := (kernel C).

(** ** fork *)

(** [for(i = 0; i < NOFILE; i++) if(p->ofile[i]) np->ofile[i] = filedup(p->ofile[i]);] *)
Fixpoint dup_files (p np i : Z) (n : nat) : M K unit :=
  match n with
  | O => mret tt
  | S n =>
      e ← proc_of p;
      match p_ofile e i with
      | Some f =>
          f ← filedup f;
          set_procs np (fun e => set_p_ofile (<[i := Some f]> (p_ofile e)) e)
      | None => mret tt
      end;;
      dup_files p np (i + 1) n
  end.

Definition kfork : M K Z :=
  t ← self;
  let p := t_proc t in
  found ← allocproc;
  match found with
  | None => mret (-1)
  | Some np =>
      e ← proc_of p;
      ne ← proc_of np;
      r ← mz (uvmcopy (p_pagetable e) (p_pagetable ne) (p_sz e));
      if r <? 0 then
        freeproc np;;
        release (proc_lock np);;
        mret (-1)
      else
        set_procs np (set_p_sz (p_sz e));;
        mz (do_memmove (p_trapframe ne) (p_trapframe e) sizeof_trapframe);;
        mz (st64 (p_trapframe ne + tf_a 0) 0);;
        dup_files p np 0 (Z.to_nat NOFILE);;
        e ← proc_of p;
        cwd ← match p_cwd e with
              | Some d => d ← idup d; mret (Some d)
              | None => panic "kerneltrap"
              end;
        set_procs np (set_p_cwd cwd);;
        set_procs np (set_p_name (take 15 (p_name e)));;
        let pid := p_pid ne in
        release (proc_lock np);;
        acquire wait_lock;;
        set_procs np (set_p_parent (Some p));;
        release wait_lock;;
        acquire (proc_lock np);;
        set_procs np (set_p_state RUNNABLE);;
        release (proc_lock np);;
        mret pid
  end.

(** ** exit *)

Fixpoint reparent_loop (p i : Z) (n : nat) : M K unit :=
  match n with
  | O => mret tt
  | S n =>
      k ← get;
      (if decide (p_parent (ks_proc k i) = Some p) then
         set_procs i (set_p_parent (ks_initproc k));;
         match ks_initproc k with Some ip => wakeup (proc_chan ip) | None => mret tt end
       else mret tt);;
      reparent_loop p (i + 1) n
  end.

Definition reparent (p : Z) : M K unit := reparent_loop p 0 (Z.to_nat NPROC).

Fixpoint close_files (p fd : Z) (n : nat) : M K unit :=
  match n with
  | O => mret tt
  | S n =>
      e ← proc_of p;
      match p_ofile e fd with
      | Some f =>
          fileclose f;;
          set_procs p (fun e => set_p_ofile (<[fd := None]> (p_ofile e)) e)
      | None => mret tt
      end;;
      close_files p (fd + 1) n
  end.

(** The process gives up the CPU as a zombie and is never run again. *)
Definition kexit {A} (status : Z) : M K A :=
  t ← self;
  let p := t_proc t in
  k ← get;
  if decide (ks_initproc k = Some p) then panic "init exiting"
  else
    close_files p 0 (Z.to_nat NOFILE);;
    kbegin_op;;
    e ← proc_of p;
    match p_cwd e with Some d => iput d | None => panic "kerneltrap" end;;
    kend_op;;
    set_procs p (set_p_cwd None);;
    acquire wait_lock;;
    reparent p;;
    e ← proc_of p;
    match p_parent e with Some pp => wakeup (proc_chan pp) | None => mret tt end;;
    acquire (proc_lock p);;
    set_procs p (fun e => set_p_state ZOMBIE (set_p_xstate status e));;
    release wait_lock;;
    switch (proc_chan p);;
    panic "zombie exit".

(** ** wait *)

(** One scan of the table. *)
Inductive scan := Found (r : Z) | NotFound (havekids : bool).

Fixpoint kwait_scan (p addr : Z) (havekids : bool) (i : Z) (n : nat) : M K scan :=
  match n with
  | O => mret (NotFound havekids)
  | S n =>
      e ← proc_of i;
      if decide (p_parent e = Some p) then
        acquire (proc_lock i);;
        e ← proc_of i;
        if decide (p_state e = ZOMBIE) then
          let pid := p_pid e in
          pe ← proc_of p;
          r ← (if nz addr
               then mz (copyout (uproc_of pe) (p_pagetable pe) addr (LittleEndianList.le_split 4 (p_xstate e)) 4)
               else mret 0);
          if r <? 0 then
            release (proc_lock i);;
            mret (Found (-1))
          else
            freeproc i;;
            release (proc_lock i);;
            mret (Found pid)
        else
          release (proc_lock i);;
          kwait_scan p addr true (i + 1) n
      else kwait_scan p addr havekids (i + 1) n
  end.

Fixpoint kwait_loop (patience : nat) (p addr : Z) : M K Z :=
  r ← kwait_scan p addr false 0 (Z.to_nat NPROC);
  match r with
  | Found r => release wait_lock;; mret r
  | NotFound havekids =>
      stop ← (if havekids then killed p else mret true);
      if (stop : bool) then release wait_lock;; mret (-1)
      else
        match patience with
        | O => starved (proc_chan p)
        | S patience => sleep (proc_chan p) wait_lock;; kwait_loop patience p addr
        end
  end.

Definition kwait (addr : Z) : M K Z :=
  t ← self;
  acquire wait_lock;;
  kwait_loop (t_patience t) (t_proc t) addr.

(** ** exec *)

Fixpoint loadseg_loop (fuel : nat) (pagetable va ip offset sz i : Z) : M K Z :=
  match fuel with
  | O => fuel_out
  | S fuel =>
      if i <? sz then
        pa ← mz (walkaddr pagetable (u64 (va + i)));
        if pa =? 0 then panic "loadseg: address should exist"
        else
          let n := if sz - i <? PGSIZE then sz - i else PGSIZE in
          rl ← readi ip (Phys pa) (u32 (offset + i)) n;
          if negb (rl.1 =? n) then mret (-1)
          else loadseg_loop fuel pagetable va ip offset sz (u32 (i + PGSIZE))
      else mret 0
  end.

Definition loadseg (pagetable va ip offset sz : Z) : M K Z :=
  loadseg_loop (S (Z.to_nat ((sz + PGSIZE - 1) / PGSIZE))) pagetable va ip offset sz 0.

(** The loop over the program headers: the new size, or nothing at [bad],
    with the size so far. *)
Fixpoint load_segments (n : nat) (pagetable ip off sz : Z) : M K (Z * bool) :=
  match n with
  | O => mret (sz, true)
  | S n =>
      rl ← readi ip (Local []) (u32 off) sizeof_proghdr;
      let '(r, ph) := rl in
      if negb (r =? sizeof_proghdr) then mret (sz, false)
      else if negb (ph_type ph =? ELF_PROG_LOAD) then load_segments n pagetable ip (i32 (off + sizeof_proghdr)) sz
      else if ph_memsz ph <? ph_filesz ph then mret (sz, false)
      else if u64 (ph_vaddr ph + ph_memsz ph) <? ph_vaddr ph then mret (sz, false)
      else if negb (ph_vaddr ph mod PGSIZE =? 0) then mret (sz, false)
      else
        sz1 ← mz (uvmalloc pagetable sz (u64 (ph_vaddr ph + ph_memsz ph)) (flags2perm (ph_flags ph)));
        if sz1 =? 0 then mret (sz, false)
        else
          r ← loadseg pagetable (ph_vaddr ph) ip (u32 (ph_off ph)) (u32 (ph_filesz ph));
          if r <? 0 then mret (sz1, false)
          else load_segments n pagetable ip (i32 (off + sizeof_proghdr)) sz1
  end.

(** The loop over the arguments: the stack pointer and ustack[], or nothing. *)
Fixpoint push_args (p : uproc) (pagetable stackbase sp : Z) (argv : list (list byte)) (ustack : list Z)
  : M K (option (Z * list Z)) :=
  match argv with
  | [] => mret (Some (sp, ustack))
  | s :: argv =>
      if MAXARG <=? Z.of_nat (length ustack) then mret None
      else
        let sp := u64 (sp - (Z.of_nat (length s) + 1)) in
        let sp := sp - sp mod 16 in
        if sp <? stackbase then mret None
        else
          r ← mz (copyout p pagetable sp (s ++ [chr 0]) (Z.of_nat (length s) + 1));
          if r <? 0 then mret None
          else push_args p pagetable stackbase sp argv (ustack ++ [sp])
  end.

(** [bad] before and after the inode was released. *)
Definition bad_file (pagetable sz ip : Z) : M K Z :=
  (if nz pagetable then mz (proc_freepagetable pagetable sz) else mret tt);;
  iunlockput ip;;
  kend_op;;
  mret (-1).
Definition bad_image (pagetable sz : Z) : M K Z :=
  mz (proc_freepagetable pagetable sz);;
  mret (-1).

(** After the segments are loaded: the stack, the arguments and the commit. *)
Definition exec_image (path : list byte) (argv : list (list byte)) (elf : list byte) (pagetable sz : Z) : M K Z :=
  t ← self;
  p ← myproc;
  let oldsz := p_sz p in
  let sz := PGROUNDUP sz in
  sz1 ← mz (uvmalloc pagetable sz (u64 (sz + (USERSTACK + 1) * PGSIZE)) PTE_W);
  if sz1 =? 0 then bad_image pagetable sz
  else
    let sz := sz1 in
    mz (uvmclear pagetable (sz - (USERSTACK + 1) * PGSIZE));;
    let stackbase := sz - USERSTACK * PGSIZE in
    r ← push_args (uproc_of p) pagetable stackbase sz argv [];
    match r with
    | None => bad_image pagetable sz
    | Some (sp, ustack) =>
        let argc := Z.of_nat (length ustack) in
        let sp := u64 (sp - (argc + 1) * 8) in
        let sp := sp - sp mod 16 in
        if sp <? stackbase then bad_image pagetable sz
        else
          r ← mz (copyout (uproc_of p) pagetable sp (ustack_bytes (ustack ++ [0])) ((argc + 1) * 8));
          if r <? 0 then bad_image pagetable sz
          else
            tf_set (tf_a 1) sp;;
            set_procs (t_proc t) (set_p_name (take 15 (last_elem path path)));;
            let oldpagetable := p_pagetable p in
            set_procs (t_proc t) (fun e => set_p_sz sz (set_p_pagetable pagetable e));;
            tf_set tf_epc (elf_entry elf);;
            tf_set tf_sp sp;;
            mz (proc_freepagetable oldpagetable oldsz);;
            mret argc
    end.

Definition kexec (path : list byte) (argv : list (list byte)) : M K Z :=
  p ← myproc;
  kbegin_op;;
  found ← namei path;
  match found with
  | None => kend_op;; mret (-1)
  | Some ip =>
      ilock ip;;
      rl ← readi ip (Local []) 0 sizeof_elfhdr;
      let '(r, elf) := rl in
      if negb (r =? sizeof_elfhdr) then bad_file 0 0 ip
      else if negb (elf_magic elf =? ELF_MAGIC) then bad_file 0 0 ip
      else
        pagetable ← mz (proc_pagetable (p_trapframe p));
        if pagetable =? 0 then bad_file 0 0 ip
        else
          rs ← load_segments (Z.to_nat (elf_phnum elf)) pagetable ip (i32 (elf_phoff elf)) 0;
          let '(sz, ok) := rs in
          if negb ok then bad_file pagetable sz ip
          else
            iunlockput ip;;
            kend_op;;
            exec_image path argv elf pagetable sz
  end.
End process.
