(* ===== verification/ForkSpec.v ===== *)
(** * ForkSpec: creating and freeing processes

    [kfork] makes a process with a copy of the caller's memory and registers,
    or fails and leaves everything as it was; [freeproc] gives back all the
    pages of a process. *)

From Stdlib Require Import FunctionalExtensionality.
From S2P Require Import Prelude Riscv CString Kalloc Vm PageTable VmWalk VmMap VmUnmap VmAlloc VmUser VmCopy VmFree MemTheorems.
From S2P Require Import Sleeplock Layout Bio BioSpec Log LogTheorems Pipe Kernel Fs Proc Printf Console File FsTheorems Process ProcSpec.

(** ** Address spaces of processes *)

Section tidy.
Context `{KernelLayout}.

(** All user memory is mapped by the table that owns it. *)
Definition tidy (users : gset Z) (own : gmap Z usage) (m : mem) : Prop :=
  owned_by users own /\ forall r, in_place own m r.

(** A page that is neither free nor part of an address space. *)
Definition apart (own : gmap Z usage) (fl : list Z) (p : Z) : Prop := page_ok p /\ own !! p = None /\ p ∉ fl.

Record space (users : gset Z) (own : gmap Z usage) (fl : list Z) (m : mem) (root tf sz : Z) : Prop := {
  as_user : root ∈ users;
  as_size : 0 <= sz <= TRAPFRAME;
  as_conf : confined m root sz;
  as_frame : pt_lookup m root TRAPFRAME = Some (frame_leaf tf);
  as_tramp : pt_lookup m root TRAMPOLINE = Some tramp_leaf;
  as_apart : apart own fl tf
}.

(** A page that is [apart] keeps its contents. *)
Lemma apart_bytes users own fl s p x q : vm_inv users own fl s -> apart own fl p -> p <= x < p + PGSIZE ->
  q ∈ fl \/ (exists r k pre, own !! q = Some (PT r k pre)) -> x < q \/ q + PGSIZE <= x.
Proof.
  intros I (Hok & Ho & Hf) Hx Hq. assert (Hqok : page_ok q /\ p <> q).
  { destruct Hq as [Hq|(r & k & pre & Hq)].
    - split; [|congruence]. destruct (vi_kmem _ _ _ _ I) as [Hc _]. pose proof (chain_pages_ok _ _ _ Hc) as Hall.
      rewrite Forall_forall in Hall. by apply Hall.
    - split; [by eapply vi_ok|congruence]. }
  destruct Hqok as [Hqok Hne]. pose proof (page_disjoint p q Hok Hqok Hne). lia.
Qed.

(** Memory of an [apart] page changes: the tables do not. *)
Lemma apart_write users own fl s p m' : vm_inv users own fl s -> apart own fl p -> same_but p (k_mem s) m' ->
  vm_inv users own fl (set_mem m' s) /\
  (forall r va, own !! r = Some (PT r 2 0) -> 0 <= va < MAXVA -> pt_lookup m' r va = pt_lookup (k_mem s) r va).
Proof.
  intros I (Hok & Ho & Hf) Hs.
  assert (Hw : forall q r l pre i, own !! q = Some (PT r l pre) -> 0 <= i < 512 -> load64 m' (q + 8 * i) = load64 (k_mem s) (q + 8 * i)).
  { intros q r l pre i Hq Hi. apply (load_same_but _ _ q p); [by eapply vi_ok|done|congruence|done|done]. }
  split.
  - apply (vm_inv_frame users own fl fl s (set_mem m' s) I); [|apply I|exact Hw]. apply (fill_kmem s fl p); [apply I|done|done|done].
  - intros r va Hr Hva. apply (lk_frame I m' r); [exact Hw|by rewrite prefix_root].
Qed.

Lemma apart_umem users own fl s p m' r x : vm_inv users own fl s -> apart own fl p -> same_but p (k_mem s) m' -> r ∈ users -> 0 <= x < TRAPFRAME ->
  umem m' r x = umem (k_mem s) r x.
Proof.
  intros I A Hs Hr Hx. destruct (trapframe_page x Hx) as [Hpg Hmx]. destruct (apart_write users own fl s p m' I A Hs) as [_ L].
  unfold umem. rewrite (L r x (vi_root _ _ _ _ I r Hr) Hmx). destruct (pt_lookup (k_mem s) r x) as [v|] eqn:E; [|done]. apply Hs.
  assert (Hd : own !! PTE2PA v = Some (Data r (x / 4096))) by (apply (mapped_owned users own fl s r x v); done || lia).
  destruct A as (Hok & Ho & _). pose proof (page_disjoint p (PTE2PA v) Hok (vi_ok _ _ _ _ I _ _ Hd) ltac:(congruence)).
  pose proof (Z.mod_pos_bound x PGSIZE eq_refl). lia.
Qed.

(** Spaces and memory stay in place when the translations stay. *)
Lemma space_keep users users' own own' fl fl' m m' root tf sz : space users own fl m root tf sz -> users ⊆ users' ->
  (forall va, 0 <= va < MAXVA -> pt_lookup m' root va = pt_lookup m root va) -> apart own' fl' tf -> space users' own' fl' m' root tf sz.
Proof.
  intros [? ? Hc Hf Ht ?] Hu Hlk Ha. split; [set_solver|done| |by rewrite Hlk|by rewrite Hlk|done].
  intros va v Hva. rewrite Hlk by done. by apply Hc.
Qed.

Lemma in_place_keep own own' m m' r : in_place own m r -> (forall va, 0 <= va < MAXVA -> pt_lookup m' r va = pt_lookup m r va) ->
  (forall p vpn, own' !! p = Some (Data r vpn) -> own !! p = Some (Data r vpn)) -> in_place own' m' r.
Proof.
  intros Hip Hlk Ho p vpn Hp. destruct (Hip p vpn (Ho _ _ Hp)) as (Hv & v & Ev & Epa). split; [done|]. exists v. rewrite Hlk; [done|].
  change user_pages with (2 ^ 26 - 2) in Hv. change MAXVA with (2 ^ 38). unfold PGSIZE. lia.
Qed.
End tidy.

(** ** allocproc *)

Section alloc.
Context `{KernelLayout} `{KernelText} {C : Type} `{BlockCache C}.
Local Abbreviation K := (kernel C).
Implicit Types (t : tctx) (k : K).

Lemma find_unused_wp n : forall i t k (Q : option Z -> tctx -> K -> Prop), t_held t = [] ->
  ((forall j, i <= j < i + Z.of_nat n -> p_state (ks_proc k j) <> UNUSED) -> Q None t k) ->
  (forall j, i <= j < i + Z.of_nat n -> p_state (ks_proc k j) = UNUSED -> Q (Some j) (hold (proc_lock j) t) k) ->
  wp (find_unused i n) Q t k.
Proof.
  induction n as [|n IH]; intros i t k Q Ht HN HS; cbn [find_unused].
  - wp_steps. apply HN. intros j Hj. lia.
  - wp_step. apply wp_acquire; [rewrite Ht; apply not_elem_of_nil|]. unfold proc_of. wp_steps. case_decide as E.
    + wp_steps. apply HS; [lia|done].
    + wp_steps. apply (IH (i + 1)); [done| |].
      * intros Hn. apply HN. intros j Hj. destruct (decide (j = i)) as [->|]; [done|]. apply Hn. lia.
      * intros j Hj. apply HS. lia.
Qed.

(** The kernel with other memory, next pid and entry [np]. *)
Definition with_new (np : Z) (e : proc) (n : Z) (m : kmem) (k : K) : K :=
  set_ks_mem m (set_ks_nextpid n (upd_proc np (fun _ => e) k)).

Lemma allocpid_wp t k (Q : Z -> tctx -> K -> Prop) np : t_held t = [] ->
  Q (ks_nextpid k) (hold (proc_lock np) t) (set_ks_nextpid (i32 (ks_nextpid k + 1)) k) -> wp allocpid Q (hold (proc_lock np) t) k.
Proof.
  intros Ht HQ. unfold allocpid. wp_step. apply wp_acquire; [cbn; rewrite Ht; apply not_elem_of_cons; split; [done|apply not_elem_of_nil]|].
  wp_steps. done.
Qed.

(** ** freeproc *)

(** The entry that [freeproc] leaves. *)
Definition free_entry (e : proc) : proc :=
  set_p_state UNUSED (set_p_xstate 0 (set_p_killed 0 (set_p_chan None (set_p_name [] (set_p_parent None
    (set_p_pid 0 (set_p_sz 0 (set_p_pagetable 0 (set_p_trapframe 0 e))))))))).

(** The pages it gives back. *)
Definition free_pages (e : proc) : M kmem unit :=
  (if nz (p_trapframe e) then kfree (p_trapframe e) else mret tt);;
  (if nz (p_pagetable e) then proc_freepagetable (p_pagetable e) (p_sz e) else mret tt).

Lemma upd_proc_upd p f g k : upd_proc p f (upd_proc p g k) = upd_proc p (fun e => f (g e)) k.
Proof.
  unfold upd_proc. cbn [ks_proc set_ks_proc]. rewrite upd_same. unfold set_ks_proc. cbn. f_equal. apply functional_extensionality. intros i.
  rewrite !upd_eq. by case_decide.
Qed.

Lemma upd_proc_mem p f m k : upd_proc p f (set_ks_mem m k) = set_ks_mem m (upd_proc p f k).
Proof. done. Qed.

Lemma wp_bind_inv {S A B} (m : M S A) (f : A -> M S B) Q t s : wp (m ≫= f) Q t s -> wp m (fun a t' s' => wp (f a) Q t' s') t s.
Proof. unfold wp, mbind, M_bind. by destruct (m t s). Qed.

Lemma freeproc_pages p t k (Q : unit -> tctx -> K -> Prop) :
  wp (free_pages (ks_proc k p)) (fun _ t' m => Q tt t' (set_ks_mem m (upd_proc p free_entry k))) t (ks_mem k) -> wp (freeproc p) Q t k.
Proof.
  intros Hw. unfold freeproc, proc_of. wp_steps. set (e := ks_proc k p) in *. unfold free_pages in Hw. apply wp_bind_inv in Hw.
  assert (Hrest : forall t1 m1, wp (if nz (p_pagetable e) then proc_freepagetable (p_pagetable e) (p_sz e) else mret tt)
      (fun _ t' m => Q tt t' (set_ks_mem m (upd_proc p free_entry k))) t1 m1 ->
    wp ((if nz (p_pagetable e) then mz (proc_freepagetable (p_pagetable e) (p_sz e)) else mret tt);;
      set_procs p (fun e => set_p_state UNUSED (set_p_xstate 0 (set_p_killed 0 (set_p_chan None (set_p_name [] (set_p_parent None
        (set_p_pid 0 (set_p_sz 0 (set_p_pagetable 0 e)))))))))) Q t1 (upd_proc p (set_p_trapframe 0) (set_ks_mem m1 k))).
  { intros t1 m1 Hp. wp_step. destruct (nz (p_pagetable e)).
    - apply wp_zoom. eapply wp_mono; [exact Hp|]. intros [] t2 m2 HQ. unfold set_procs. wp_steps.
      rewrite upd_proc_mem, upd_proc_upd. exact HQ.
    - wp_steps. unfold set_procs. wp_steps. rewrite upd_proc_upd. exact Hp. }
  destruct (nz (p_trapframe e)).
  - apply wp_zoom. eapply wp_mono; [exact Hw|]. intros [] t1 m1 Hp. unfold set_procs at 1. wp_steps. exact (Hrest t1 m1 Hp).
  - unfold set_procs at 1. wp_steps. pose proof (Hrest t (ks_mem k) Hw) as Hr. by destruct k.
Qed.

Lemma kfree_apart_wp users own fl s p t : vm_inv users own fl s -> apart own fl p -> kmem_lock ∉ t_held t ->
  wp (kfree p) (fun _ t' s' => t' = t /\ vm_inv users own (p :: fl) s' /\ same_but p (k_mem s) (k_mem s') /\
    forall r va, own !! r = Some (PT r 2 0) -> 0 <= va < MAXVA -> pt_lookup (k_mem s') r va = pt_lookup (k_mem s) r va) t s.
Proof.
  intros I A Hl. pose proof A as (Hok & Ho & Hf). eapply wp_mono; [apply (kfree_wp t s fl p); [apply I|done|done|done]|].
  intros [] t' s' (-> & K' & Sb). split; [done|]. destruct (apart_write users own fl s p (k_mem s') I A Sb) as [I1 L1]. split_and!; [|done|done].
  apply (vm_inv_frame users own fl (p :: fl) _ s' I1 K'); [|done]. intros q [->|Hq]%elem_of_cons; [done|by apply (vi_free _ _ _ _ I)].
Qed.

Lemma nz_page p : page_ok p -> nz p = true.
Proof. intros Hp. pose proof (page_ok_range _ Hp). unfold nz. by rewrite (proj2 (Z.eqb_neq p 0)) by lia. Qed.

Lemma free_pages_wp users own fl s e t : vm_inv users own fl s -> kmem_lock ∉ t_held t -> in_place own (k_mem s) (p_pagetable e) ->
  space users own fl (k_mem s) (p_pagetable e) (p_trapframe e) (p_sz e) ->
  wp (free_pages e) (fun _ t' s' => t' = t /\ exists fl', space_freed (p_pagetable e) users own (p_trapframe e :: fl) fl' s s') t s.
Proof.
  intros I Hl Hip [Hu Hsz Hc Hf Ht Ha]. pose proof (vi_root _ _ _ _ I _ Hu) as Hr. unfold free_pages.
  rewrite (nz_page (p_trapframe e)) by apply Ha. rewrite (nz_page (p_pagetable e)) by (by eapply vi_ok). wp_step.
  eapply wp_mono; [by apply (kfree_apart_wp users own fl s)|]. intros [] t1 s1 (-> & I1 & Sb & L1).
  eapply wp_mono; [apply (proc_freepagetable_wp t Hl users own _ s1 _ _ I1 Hu Hsz)|].
  - eapply in_place_keep; [exact Hip|intros va Hva; by apply L1|done].
  - intros va v Hva. rewrite L1 by done. by apply Hc.
  - intros [] t' s' (-> & fl' & [I2 F2 L2 M2]). split; [done|]. exists fl'. split; [done|done| |].
    + intros r va Hne Hrr Hva. rewrite L2 by done. by apply L1.
    + intros x Hx. rewrite M2 by done. apply Sb, Hx. left. apply F2. left. apply elem_of_cons. by left.
Qed.

(** ** The pages of a new process *)

(** A new process has a table [r] and a trapframe page [tf], taken from the
    allocator; nothing else has changed. *)
Record newborn (r tf : Z) (users : gset Z) (own own' : gmap Z usage) (fl fl' : list Z) (s s' : kmem) : Prop := {
  nb_fresh : own !! r = None;
  nb_none : forall p u, own !! p = Some u -> usage_root u <> r;
  nb_inv : vm_inv ({[r]} ∪ users) own' fl' s';
  nb_own : own ⊆ own';
  nb_new : forall p u, own' !! p = Some u -> own !! p = Some u \/ exists l pre, u = PT r l pre;
  nb_pages : forall p, p ∈ fl <-> p = tf \/ p ∈ fl' \/ exists l pre, own' !! p = Some (PT r l pre);
  nb_lk : forall r' va, own !! r' = Some (PT r' 2 0) -> 0 <= va < MAXVA -> pt_lookup (k_mem s') r' va = pt_lookup (k_mem s) r' va;
  nb_mem : forall x, (forall p, p ∈ fl \/ (exists r l pre, own !! p = Some (PT r l pre)) -> x < p \/ p + PGSIZE <= x) -> mget (k_mem s') x = mget (k_mem s) x;
  nb_maps : maps (k_mem s') r (empty_space tf);
  nb_apart : apart own' fl' tf
}.

Section pages.
Context (users : gset Z) (own : gmap Z usage) (fl : list Z) (s : kmem) (t : tctx).
Hypothesis I : vm_inv users own fl s.
Hypothesis Hl : kmem_lock ∉ t_held t.

(** A page is taken. *)
Definition taken (tf : Z) (fl1 : list Z) (s1 : kmem) : Prop :=
  fl = tf :: fl1 /\ apart own fl1 tf /\ vm_inv users own fl1 s1 /\ same_but tf (k_mem s) (k_mem s1) /\
  forall r va, own !! r = Some (PT r 2 0) -> 0 <= va < MAXVA -> pt_lookup (k_mem s1) r va = pt_lookup (k_mem s) r va.

Lemma kalloc_taken : wp kalloc (fun tf t' s' => t' = t /\ ((tf = 0 /\ s' = s) \/ (tf <> 0 /\ exists fl1, taken tf fl1 s'))) t s.
Proof using I Hl.
  eapply wp_mono; [by apply (take_page_wp users own fl s t)|]. intros p t1 s1 [-> [(-> & _ & ->)|(Hp & Hok & fl1 & -> & Hnin & K1 & S1)]].
  { split; [done|]. by left. }
  split; [done|]. right. split; [done|]. exists fl1. split_and!; [done| |by eapply taken_inv|done|].
  - split_and!; [done|apply (vi_free _ _ _ _ I); apply elem_of_cons; by left|done].
  - intros r va Hr Hva. by eapply taken_lookup.
Qed.

(** It is freed again. *)
Lemma taken_undo tf fl1 fl2 s1 s2 : taken tf fl1 s1 -> untouched users own fl1 fl2 s1 s2 ->
  wp (kfree tf) (fun _ t' s' => t' = t /\ exists fl', untouched users own fl fl' s s') t s2.
Proof using I Hl.
  intros (-> & (Hok & Hn & Hnin) & I1 & Sb & L1) [I2 P2 L2 M2].
  assert (A2 : apart own fl2 tf) by (split_and!; [done|done|by rewrite P2]).
  eapply wp_mono; [by apply (kfree_apart_wp users own fl2 s2 tf t)|]. intros [] t' s' (-> & I3 & Sb3 & L3). split; [done|].
  exists (tf :: fl2). split; [done| | |].
  - intros p. rewrite !elem_of_cons, P2. done.
  - intros r va Hr Hva. by rewrite L3, L2, L1.
  - intros x Hx. assert (Hxt : x < tf \/ tf + PGSIZE <= x) by (apply Hx; left; apply elem_of_cons; by left).
    rewrite (Sb3 x Hxt), M2, (Sb x Hxt); [done|]. intros p [Hp|Hp]; apply Hx; [left; apply elem_of_cons; by right|by right].
Qed.

Lemma taken_newborn r tf own2 fl1 fl2 s1 s2 : taken tf fl1 s1 -> made r users own own2 fl1 fl2 s1 s2 -> maps (k_mem s2) r (empty_space tf) ->
  newborn r tf users own own2 fl fl2 s s2.
Proof using I.
  intros (-> & (Hok & Hn & Hnin) & I1 & Sb & L1) [F N I2 O W P L M] Hm.
  assert (Htf : own2 !! tf = None).
  { destruct (own2 !! tf) as [u|] eqn:E; [|done]. exfalso. destruct (W tf u E) as [?|(k & pre & ->)]; [congruence|].
    apply Hnin, P. right. by exists k, pre. }
  split; try done.
  - intros p. rewrite elem_of_cons, P. done.
  - intros r' va Hr Hva. by rewrite L, L1.
  - intros x Hx. rewrite M by (intros p [Hp|Hp]; apply Hx; [left; apply elem_of_cons; by right|by right]).
    apply Sb, Hx. left. apply elem_of_cons. by left.
  - split_and!; [done|done|]. intros Hf. apply Hnin, P. by left.
Qed.
End pages.

(** ** Copying memory *)

(** The pages that [sz] bytes take. *)
Definition npages (sz : Z) : Z := (sz + PGSIZE - 1) / PGSIZE.

Lemma npages_bound sz : 0 <= sz <= TRAPFRAME -> 0 <= npages sz <= user_pages /\ npages sz * 4096 = PGROUNDUP sz.
Proof.
  intros Hsz. change TRAPFRAME with (2 ^ 38 - 8192) in Hsz. change user_pages with (2 ^ 26 - 2). unfold npages, PGSIZE. split; [divlia|].
  rewrite PGROUNDUP_eq by lia. by replace (sz + 4096 - 1) with (sz + 4095) by lia.
Qed.

Section copied.
Context {r tf : Z} {users : gset Z} {own own1 own2 : gmap Z usage} {fl fl1 fl2 : list Z} {s s1 s2 : kmem} {w : Z -> option (Z * (Z -> byte))}.
Hypothesis I : vm_inv users own fl s.
Hypothesis T : tidy users own (k_mem s).
Hypothesis B : newborn r tf users own own1 fl fl1 s s1.
Hypothesis G : granted r w ({[r]} ∪ users) own1 own2 fl1 fl2 s1 s2.

Lemma nb_nuser : r ∉ users.
Proof using I B. intros Hu. pose proof (vi_root _ _ _ _ I r Hu). pose proof (nb_fresh _ _ _ _ _ _ _ _ _ B). congruence. Qed.

Lemma nb_root : own1 !! r = Some (PT r 2 0).
Proof using B. apply (vi_root _ _ _ _ (nb_inv _ _ _ _ _ _ _ _ _ B)). apply elem_of_union. left. by apply elem_of_singleton. Qed.

Lemma nb_unmapped sz : 0 <= sz <= TRAPFRAME -> unmapped (k_mem s1) r 0 (npages sz).
Proof using B.
  intros Hsz i Hi. destruct (npages_bound sz Hsz) as [Hn _]. change user_pages with (2 ^ 26 - 2) in Hn.
  assert (Hm : 0 <= 0 + i * PGSIZE < MAXVA) by (change MAXVA with (2 ^ 38); unfold PGSIZE; lia).
  rewrite (nb_maps _ _ _ _ _ _ _ _ _ B _ Hm). unfold PGSIZE. rewrite Z.add_0_l, Z.div_mul by lia. unfold empty_space.
  rewrite !decide_False; [done| |]; [change frame_page with (2 ^ 26 - 2)|change tramp_page with (2 ^ 26 - 1)]; lia.
Qed.

Lemma nb_copy_wp old sz t : old ∈ users -> 0 <= sz <= TRAPFRAME -> kmem_lock ∉ t_held t ->
  wp (uvmcopy old r sz) (fun x t' s' => t' = t /\ exists own' fl',
    (x = 0 /\ granted r (copied_pages (k_mem s1) old (npages sz)) ({[r]} ∪ users) own1 own' fl1 fl' s1 s') \/
    (x = -1 /\ granted r nothing ({[r]} ∪ users) own1 own' fl1 fl' s1 s')) t s1.
Proof using I B.
  intros Ho Hsz Hl. apply (uvmcopy_wp ({[r]} ∪ users) own1 fl1 s1 old r t (nb_inv _ _ _ _ _ _ _ _ _ B)); [apply elem_of_union; by right| | |done|done|by apply nb_unmapped].
  - apply elem_of_union. left. by apply elem_of_singleton.
  - intros ->. by apply nb_nuser.
Qed.

Lemma nb_fl p : p ∈ fl1 -> p ∈ fl.
Proof using B. intros Hp. apply (nb_pages _ _ _ _ _ _ _ _ _ B). by right; left. Qed.

(** Other tables translate as before. *)
Lemma cp_lk q va : own !! q = Some (PT q 2 0) -> 0 <= va < MAXVA -> pt_lookup (k_mem s2) q va = pt_lookup (k_mem s) q va.
Proof using B G.
  intros Hr Hva. rewrite <-(nb_lk _ _ _ _ _ _ _ _ _ B q va Hr Hva).
  pose proof (gt_lk _ _ _ _ _ _ _ _ _ G q va (lookup_weaken _ _ _ _ Hr (nb_own _ _ _ _ _ _ _ _ _ B)) Hva) as L.
  rewrite decide_False in L; [done|]. intros ->. pose proof (nb_fresh _ _ _ _ _ _ _ _ _ B). congruence.
Qed.

(** Pages outside of the tables keep their contents. *)
Lemma cp_pt q q' l pre : own1 !! q = Some (PT q' l pre) -> own !! q = Some (PT q' l pre) \/ q ∈ fl.
Proof using B.
  intros Hq. destruct (nb_new _ _ _ _ _ _ _ _ _ B q _ Hq) as [?|(l' & pre' & [= -> -> ->])]; [by left|]. right.
  apply (nb_pages _ _ _ _ _ _ _ _ _ B). right. right. by exists l', pre'.
Qed.

Lemma cp_mem x : (forall p, p ∈ fl \/ (exists q l pre, own !! p = Some (PT q l pre)) -> x < p \/ p + PGSIZE <= x) ->
  mget (k_mem s2) x = mget (k_mem s) x.
Proof using B G.
  intros Hx. rewrite (gt_mem _ _ _ _ _ _ _ _ _ G), (nb_mem _ _ _ _ _ _ _ _ _ B); [done|done|].
  intros p [Hp|(q & l & pre & Hp)]; apply Hx; [left; by apply nb_fl|]. destruct (cp_pt _ _ _ _ Hp) as [?|?]; [right; by exists q, l, pre|by left].
Qed.

Lemma cp_keep p : apart own fl p -> apart own2 fl2 p.
Proof using B G.
  intros (Hok & Hn & Hf). assert (Hp1 : own1 !! p = None).
  { destruct (own1 !! p) as [u|] eqn:E; [|done]. destruct (nb_new _ _ _ _ _ _ _ _ _ B p u E) as [?|(l & pre & ->)]; [congruence|].
    destruct (cp_pt _ _ _ _ E); [congruence|done]. }
  split_and!; [done| |].
  - destruct (own2 !! p) as [u|] eqn:E; [|done]. destruct (gt_new _ _ _ _ _ _ _ _ _ G p u E) as [?|Hp]; [congruence|]. by apply nb_fl in Hp.
  - intros Hp. by apply (gt_fl _ _ _ _ _ _ _ _ _ G), nb_fl in Hp.
Qed.

Lemma cp_frame : apart own2 fl2 tf.
Proof using B G.
  destruct (nb_apart _ _ _ _ _ _ _ _ _ B) as (Hok & Hn & Hf). split_and!; [done| |].
  - destruct (own2 !! tf) as [u|] eqn:E; [|done]. destruct (gt_new _ _ _ _ _ _ _ _ _ G tf u E) as [?|Hp]; [congruence|done].
  - intros Hp. by apply (gt_fl _ _ _ _ _ _ _ _ _ G) in Hp.
Qed.

(** User memory is still in place. *)
Lemma cp_data p q vpn : own2 !! p = Some (Data q vpn) -> own !! p = Some (Data q vpn) \/ q = r /\ is_Some (w vpn) /\ 0 <= vpn < user_pages /\
  exists v, pt_lookup (k_mem s2) r (vpn * PGSIZE) = Some v /\ PTE2PA v = p.
Proof using B G.
  intros Hp. destruct (gt_data _ _ _ _ _ _ _ _ _ G _ _ _ Hp) as [Hp1|?]; [|by right].
  destruct (nb_new _ _ _ _ _ _ _ _ _ B p _ Hp1) as [?|(? & ? & ?)]; [by left|done].
Qed.

Lemma cp_tidy : tidy ({[r]} ∪ users) own2 (k_mem s2).
Proof using All.
  destruct T as [To Tp]. split.
  - intros p q vpn Hp. apply elem_of_union. destruct (cp_data _ _ _ Hp) as [Ho|[-> _]]; [right; by eapply To|left; by apply elem_of_singleton].
  - intros q p vpn Hp. destruct (cp_data _ _ _ Hp) as [Ho|(-> & _ & ?)]; [|done]. destruct (Tp q p vpn Ho) as (Hv & v & Ev & Epa).
    split; [done|]. exists v. rewrite cp_lk; [done|apply (vi_root _ _ _ _ I); by eapply To|]. change user_pages with (2 ^ 26 - 2) in Hv. change MAXVA with (2 ^ 38). unfold PGSIZE. lia.
Qed.

Lemma cp_space root tf' sz' : space users own fl (k_mem s) root tf' sz' -> space ({[r]} ∪ users) own2 fl2 (k_mem s2) root tf' sz'.
Proof using All.
  intros S. eapply space_keep; [exact S|apply union_subseteq_r| |].
  - intros va Hva. apply cp_lk; [apply (vi_root _ _ _ _ I), S|done].
  - apply cp_keep, S.
Qed.

(** The table of the child maps [n] pages at most. *)
Lemma cp_child sz : 0 <= sz <= TRAPFRAME -> (forall v, is_Some (w v) -> 0 <= v < npages sz) -> space ({[r]} ∪ users) own2 fl2 (k_mem s2) r tf sz.
Proof using B G.
  intros Hsz Hw. destruct (npages_bound sz Hsz) as [Hn En].
  assert (Hlk : forall va, 0 <= va < MAXVA -> w (va / 4096) = None -> pt_lookup (k_mem s2) r va = empty_space tf (va / 4096)).
  { intros va Hva E. rewrite <-(nb_maps _ _ _ _ _ _ _ _ _ B va Hva).
    pose proof (gt_lk _ _ _ _ _ _ _ _ _ G r va nb_root Hva) as L. by rewrite decide_True, E in L by done. }
  assert (Hhi : forall v, user_pages <= v -> w v = None).
  { intros v Hv. destruct (w v) eqn:E; [|done]. specialize (Hw v (ex_intro _ _ E)). lia. }
  split; [apply elem_of_union; left; by apply elem_of_singleton|done| | | |apply cp_frame].
  - intros va v Hva Hv. destruct (w (va / 4096)) as [x|] eqn:E.
    + left. specialize (Hw _ (ex_intro _ _ E)). divlia.
    + right. rewrite (Hlk va Hva E) in Hv. unfold empty_space in Hv. repeat case_decide; auto; congruence.
  - rewrite Hlk; [done|done|by apply Hhi].
  - rewrite Hlk; [done|done|by apply Hhi].
Qed.

(** Nothing was copied and the process is freed again. *)
Lemma cp_root p u : own2 !! p = Some u -> own !! p = Some u \/ usage_root u = r.
Proof using B G.
  intros E. destruct u as [q l pre|q vpn].
  - destruct (gt_pt _ _ _ _ _ _ _ _ _ G _ _ _ _ E) as [E1|Hq]; [|by right].
    destruct (nb_new _ _ _ _ _ _ _ _ _ B _ _ E1) as [?|(? & ? & [= -> _ _])]; [by left|by right].
  - destruct (cp_data _ _ _ E) as [?|(Hq & _)]; [by left|by right].
Qed.

Lemma cp_without : without r own2 = own.
Proof using B G.
  apply map_eq. intros p. unfold without. rewrite map_lookup_filter. destruct (own !! p) as [u|] eqn:E.
  - rewrite (lookup_weaken _ _ _ _ (lookup_weaken _ _ _ _ E (nb_own _ _ _ _ _ _ _ _ _ B)) (gt_own _ _ _ _ _ _ _ _ _ G)). cbn.
    rewrite option_guard_True; [done|]. by eapply (nb_none _ _ _ _ _ _ _ _ _ B).
  - destruct (own2 !! p) as [u|] eqn:E2; [|done]. cbn. rewrite option_guard_False; [done|]. intros Hne.
    destruct (cp_root _ _ E2) as [?|Hu]; [congruence|by apply Hne].
Qed.

Lemma cp_pages p : p ∈ fl <-> p ∈ tf :: fl2 \/ exists u, own2 !! p = Some u /\ usage_root u = r.
Proof using I B G.
  rewrite elem_of_cons, (nb_pages _ _ _ _ _ _ _ _ _ B p). split.
  - intros [->|[Hp|(l & pre & Hp)]]; [by left; left| |].
    + destruct (gt_keep _ _ _ _ _ _ _ _ _ G p Hp) as [?|[u Hu]]; [by left; right|]. right. exists u. split; [done|].
      destruct (cp_root _ _ Hu) as [E|?]; [|done]. by rewrite (vi_free _ _ _ _ I p (nb_fl _ Hp)) in E.
    + right. exists (PT r l pre). split; [|done]. eapply lookup_weaken; [exact Hp|apply G].
  - intros [[->|Hp]|(u & Hu & Hur)]; [by left|right; left; by apply (gt_fl _ _ _ _ _ _ _ _ _ G)|right].
    destruct (gt_new _ _ _ _ _ _ _ _ _ G p u Hu) as [E|?]; [|by left].
    destruct (nb_new _ _ _ _ _ _ _ _ _ B p u E) as [E0|(l & pre & ->)]; [by destruct (nb_none _ _ _ _ _ _ _ _ _ B p u E0)|right; by exists l, pre].
Qed.

Lemma cp_undo e t : (forall v, w v = None) -> p_pagetable e = r -> p_trapframe e = tf -> p_sz e = 0 -> kmem_lock ∉ t_held t ->
  wp (free_pages e) (fun _ t' s' => t' = t /\ exists fl', untouched users own fl fl' s s') t s2.
Proof using All.
  intros Hw Er Et Es Hl. eapply wp_mono; [apply (free_pages_wp ({[r]} ∪ users) own2 fl2 s2 e t)|].
  - apply G.
  - done.
  - apply cp_tidy.
  - rewrite Er, Et, Es. apply cp_child; [done|]. intros v [? E]. by rewrite Hw in E.
  - rewrite Er, Et. intros [] t' s' (-> & fl' & [I3 F3 L3 M3]). split; [done|]. exists fl'.
    assert (Hfl : forall p, p ∈ fl' <-> p ∈ fl) by (intros p; by rewrite F3, cp_pages). split; [|done| |].
    + rewrite cp_without in I3. replace (({[r]} ∪ users) ∖ {[r]}) with users in I3; [done|].
      apply set_eq. intros x. rewrite elem_of_difference, elem_of_union, elem_of_singleton. pose proof nb_nuser. split; [|tauto].
      intros Hx. split; [by right|]. by intros ->.
    + intros q va Hq Hva. assert (Hne : q <> r) by (intros ->; pose proof (nb_fresh _ _ _ _ _ _ _ _ _ B); congruence).
      rewrite L3; [by apply cp_lk|done| |done]. eapply lookup_weaken; [|apply G]. eapply lookup_weaken; [exact Hq|apply B].
    + intros x Hx. rewrite M3; [by apply cp_mem|]. intros p [Hp|(q & l & pre & Hp)]; apply Hx; [left; by apply Hfl|].
      destruct (cp_root _ _ Hp) as [?|Hu]; [right; by exists q, l, pre|]. left. apply cp_pages. right. by eexists.
Qed.

(** The memory of the other processes. *)
Lemma cp_umem q x : q ∈ users -> 0 <= x < TRAPFRAME -> umem (k_mem s2) q x = umem (k_mem s) q x.
Proof using I B G.
  intros Hq Hx. destruct (trapframe_page x Hx) as [Hpg Hmx]. unfold umem. rewrite (cp_lk q x (vi_root _ _ _ _ I q Hq) Hmx).
  destruct (pt_lookup (k_mem s) q x) as [v|] eqn:E; [|done]. apply cp_mem. intros p Hp.
  assert (Hd : own !! PTE2PA v = Some (Data q (x / 4096))) by (apply (mapped_owned users own fl s q x v); done || lia).
  pose proof (Z.mod_pos_bound x PGSIZE eq_refl). eapply data_bytes; [exact I|exact Hd| |exact Hp]. lia.
Qed.

Lemma cp_bytes p o : apart own fl p -> 0 <= o < PGSIZE -> mget (k_mem s2) (p + o) = mget (k_mem s) (p + o).
Proof using I B G. intros A Ho. apply cp_mem. intros q Hq. eapply apart_bytes; [exact I|exact A| |exact Hq]. lia. Qed.

(** The child has the memory of the parent. *)
Lemma cp_copy old sz x : w = copied_pages (k_mem s1) old (npages sz) -> old ∈ users -> 0 <= sz <= TRAPFRAME -> 0 <= x < sz ->
  umem (k_mem s2) r x = umem (k_mem s) old x.
Proof using I B G.
  intros Ew Ho Hsz Hx. rewrite <-(cp_umem old x Ho) by lia.
  assert (Hne : old <> r) by (intros ->; by apply nb_nuser).
  rewrite (granted_umem ({[r]} ∪ users) own1 fl1 s1 own2 fl2 s2 r w old x (nb_inv _ _ _ _ _ _ _ _ _ B) G); [|apply elem_of_union; by right|done|lia].
  apply (copied_umem ({[r]} ∪ users) own1 fl1 s1 own2 fl2 s2 old r sz x (nb_inv _ _ _ _ _ _ _ _ _ B)); [apply elem_of_union; left; by apply elem_of_singleton|done| | |done].
  - by apply nb_unmapped.
  - fold (npages sz). by rewrite <-Ew.
Qed.
End copied.

(** ** The memory of a forked process *)

(** [*(np->trapframe) = *(p->trapframe); np->trapframe->a0 = 0;] *)
Definition frame_copied (dst src : Z) (m : mem) : mem := store64 (memmove m dst src sizeof_trapframe) (dst + tf_a 0) 0.

Lemma frame_copied_state dst src s :
  (let s1 := set_mem (memmove (k_mem s) dst src sizeof_trapframe) s in set_mem (store64 (k_mem s1) (dst + tf_a 0) 0) s1) = set_mem (frame_copied dst src (k_mem s)) s.
Proof. unfold frame_copied, set_mem. cbn [k_mem k_freelist]. reflexivity. Qed.

Lemma frame_copied_same dst src m : same_but dst m (frame_copied dst src m).
Proof.
  apply (same_but_trans _ _ (memmove m dst src sizeof_trapframe)).
  - intros x Hx. rewrite mget_memmove by done. unfold copied, sizeof_trapframe, PGSIZE in *. by rewrite decide_False by lia.
  - apply same_but_store64; unfold tf_a, PGSIZE; lia.
Qed.

Lemma frame_copied_byte dst src m o : 0 <= o < sizeof_trapframe -> o < 112 \/ 120 <= o -> mget (frame_copied dst src m) (dst + o) = mget m (src + o).
Proof.
  intros Ho Ha. unfold frame_copied, tf_a. rewrite mget_store_out by (cbn; lia). rewrite mget_memmove by done. unfold copied.
  rewrite decide_True by lia. f_equal. lia.
Qed.

(** The child's table [r] and trapframe [tf], when the parent has the table
    [old], the trapframe [tfp] and [sz] bytes of memory. *)
Record forked_mem (r tf old tfp sz : Z) (users : gset Z) (own own' : gmap Z usage) (fl fl' : list Z) (s s' : kmem) : Prop := {
  fm_new : r ∉ users;
  fm_inv : vm_inv ({[r]} ∪ users) own' fl' s';
  fm_tidy : tidy ({[r]} ∪ users) own' (k_mem s');
  fm_child : space ({[r]} ∪ users) own' fl' (k_mem s') r tf sz;
  fm_spaces : forall root tf' sz', space users own fl (k_mem s) root tf' sz' -> space ({[r]} ∪ users) own' fl' (k_mem s') root tf' sz';
  fm_copy : forall x, 0 <= x < sz -> umem (k_mem s') r x = umem (k_mem s) old x;
  fm_same : forall root x, root ∈ users -> 0 <= x < TRAPFRAME -> umem (k_mem s') root x = umem (k_mem s) root x;
  fm_regs : forall o, 0 <= o < sizeof_trapframe -> o < tf_a 0 \/ tf_a 1 <= o -> mget (k_mem s') (tf + o) = mget (k_mem s) (tfp + o);
  fm_zero : load64 (k_mem s') (tf + tf_a 0) = 0;
  fm_pages : forall p o, apart own fl p -> 0 <= o < PGSIZE -> mget (k_mem s') (p + o) = mget (k_mem s) (p + o);
  fm_own : without r own' = own;
  fm_taken : forall p, p ∈ fl <-> p ∈ tf :: fl' \/ exists u, own' !! p = Some u /\ usage_root u = r
}.

Lemma tidy_keep users own m m' : tidy users own m ->
  (forall r va, r ∈ users -> 0 <= va < MAXVA -> pt_lookup m' r va = pt_lookup m r va) -> tidy users own m'.
Proof.
  intros [To Tp] L. split; [done|]. intros r p vpn Hp. pose proof (To _ _ _ Hp) as Hr. eapply in_place_keep; [apply Tp| | |exact Hp]; [|done].
  intros va Hva. by apply L.
Qed.

Lemma copied_count m old n v : is_Some (copied_pages m old n v) -> 0 <= v < n.
Proof. unfold copied_pages. case_decide; [done|]. by intros [? ?]. Qed.

Lemma forked_copy r tf old tfp sz users own own1 own2 fl fl1 fl2 s s1 s2 : vm_inv users own fl s -> tidy users own (k_mem s) ->
  space users own fl (k_mem s) old tfp sz -> newborn r tf users own own1 fl fl1 s s1 ->
  granted r (copied_pages (k_mem s1) old (npages sz)) ({[r]} ∪ users) own1 own2 fl1 fl2 s1 s2 ->
  forked_mem r tf old tfp sz users own own2 fl fl2 s (set_mem (frame_copied tf tfp (k_mem s2)) s2).
Proof.
  intros I T P B G. pose proof (cp_frame B G) as A. pose proof (gt_inv _ _ _ _ _ _ _ _ _ G) as I2.
  pose proof (frame_copied_same tf tfp (k_mem s2)) as Sb. destruct (apart_write _ _ _ _ _ _ I2 A Sb) as [I3 L3].
  assert (L : forall root va, root ∈ {[r]} ∪ users -> 0 <= va < MAXVA -> pt_lookup (frame_copied tf tfp (k_mem s2)) root va = pt_lookup (k_mem s2) root va).
  { intros root va Hr Hva. apply L3; [by apply (vi_root _ _ _ _ I2)|done]. }
  assert (K : forall root tf' sz', space ({[r]} ∪ users) own2 fl2 (k_mem s2) root tf' sz' -> space ({[r]} ∪ users) own2 fl2 (frame_copied tf tfp (k_mem s2)) root tf' sz').
  { intros root tf' sz' S. eapply space_keep; [exact S|done| |apply S]. intros va Hva. apply L; [apply S|done]. }
  assert (U : forall root x, root ∈ {[r]} ∪ users -> 0 <= x < TRAPFRAME -> umem (frame_copied tf tfp (k_mem s2)) root x = umem (k_mem s2) root x).
  { intros root x Hr Hx. by eapply apart_umem. }
  assert (Hne : forall p, apart own fl p -> p <> tf) by (intros p (_ & _ & Hp) ->; apply Hp, (nb_pages _ _ _ _ _ _ _ _ _ B); by left).
  split; cbn [k_mem set_mem].
  - by eapply nb_nuser.
  - exact I3.
  - eapply tidy_keep; [by eapply cp_tidy|exact L].
  - apply K. eapply cp_child; [done|done|apply P|]. intros v. apply copied_count.
  - intros root tf' sz' S. apply K. by eapply cp_space.
  - intros x Hx. pose proof (as_size _ _ _ _ _ _ _ P). rewrite U; [eapply cp_copy; [done..|apply P|done|done]|apply elem_of_union; left; by apply elem_of_singleton|lia].
  - intros root x Hr Hx. rewrite U; [by eapply cp_umem|apply elem_of_union; by right|done].
  - intros o Ho Ha. rewrite frame_copied_byte by done. eapply cp_bytes; [done..|apply P|unfold sizeof_trapframe, PGSIZE in *; lia].
  - by apply load64_store64.
  - intros p o Ap Ho. rewrite Sb; [by eapply cp_bytes|].
    pose proof (page_disjoint p tf (proj1 Ap) (proj1 A) (Hne p Ap)). lia.
  - by eapply cp_without.
  - intros p. by eapply cp_pages.
Qed.

(** ** The process *)

(** Unused entries of the process table hold no pages and no files. *)
Definition unused_ok (k : K) : Prop := forall j, p_state (ks_proc k j) = UNUSED ->
  p_pagetable (ks_proc k j) = 0 /\ p_trapframe (ks_proc k j) = 0 /\ p_sz (ks_proc k j) = 0 /\ forall i, p_ofile (ks_proc k j) i = None.

(** The entry that [allocproc] returns. *)
Definition born (pid tf r : Z) (e : proc) : proc :=
  set_p_sp (p_kstack e + PGSIZE) (set_p_ra forkret_addr (set_p_pagetable r (set_p_trapframe tf (set_p_state USED (set_p_pid pid e))))).

(** The kernel after a [pid] was used up, with the entry of [np] changed. *)
Definition after (np : Z) (f : proc -> proc) (m : kmem) (k : K) : K :=
  set_ks_mem m (set_ks_nextpid (i32 (ks_nextpid k + 1)) (upd_proc np f k)).

Lemma after_upd np f g m k : upd_proc np g (after np f m k) = after np (fun e => g (f e)) m k.
Proof. unfold after. rewrite upd_proc_mem. f_equal. exact (f_equal (set_ks_nextpid _) (upd_proc_upd np g f k)). Qed.

Lemma after_mem np f m m' k : set_ks_mem m' (after np f m k) = after np f m' k.
Proof. done. Qed.

Lemma after_entry np f m k : ks_proc (after np f m k) np = f (ks_proc k np).
Proof. unfold after, upd_proc. cbn. apply upd_same. Qed.

(** [freeproc] of an entry without pages, and the lock is released. *)
Lemma drop_entry_wp {A} (a : A) np f m t k (Q : A -> tctx -> K -> Prop) :
  wp (free_pages (f (ks_proc k np))) (fun _ t' m' => t' = hold (proc_lock np) t /\ Q a t (after np (fun e => free_entry (f e)) m' k)) (hold (proc_lock np) t) m ->
  t_held t = [] -> wp (freeproc np;; release (proc_lock np);; mret a) Q (hold (proc_lock np) t) (after np f m k).
Proof.
  intros Hw Ht. wp_step. apply freeproc_pages. rewrite after_entry. eapply wp_mono; [exact Hw|]. intros [] t' m' [-> HQ].
  rewrite after_upd, after_mem. wp_steps. exact HQ.
Qed.

Section allocproc.
Context (users : gset Z) (own : gmap Z usage) (fl : list Z) (t : tctx) (k : K).
Hypothesis I : vm_inv users own fl (ks_mem k).
Hypothesis Hown : owned_by users own.
Hypothesis Ht : t_held t = [].
Hypothesis Hun : unused_ok k.
Context (Q : option Z -> tctx -> K -> Prop).

Lemma allocproc_wp :
  ((forall j, 0 <= j < NPROC -> p_state (ks_proc k j) <> UNUSED) -> Q None t k) ->
  (forall np f m fl', 0 <= np < NPROC -> p_state (ks_proc k np) = UNUSED -> untouched users own fl fl' (ks_mem k) m ->
    (forall e, free_entry (f e) = free_entry e) -> Q None t (after np (fun e => free_entry (f e)) m k)) ->
  (forall np tf r m own' fl', 0 <= np < NPROC -> p_state (ks_proc k np) = UNUSED -> newborn r tf users own own' fl fl' (ks_mem k) m ->
    Q (Some np) (hold (proc_lock np) t) (after np (born (ks_nextpid k) tf r) m k)) -> wp allocproc Q t k.
Proof using All.
  intros Hfull Hfail Hok'. unfold allocproc. wp_step. apply find_unused_wp; [done|intros Hn; wp_steps; by apply Hfull|].
  intros np Hnp Hst. change (0 + Z.of_nat (Z.to_nat NPROC)) with NPROC in Hnp. destruct (Hun np Hst) as (Hpt & _ & Hsz & _).
  assert (Hl : kmem_lock ∉ t_held (hold (proc_lock np) t)) by (cbn; rewrite Ht; apply not_elem_of_cons; split; [done|apply not_elem_of_nil]).
  wp_step. apply allocpid_wp; [done|]. unfold set_procs at 1. wp_step. apply wp_modify. wp_step. apply wp_zoom.
  eapply wp_mono; [apply (kalloc_taken users own fl (ks_mem k)); done|]. intros tf t1 m1 [-> [[-> ->]|(Htf & fl1 & T)]].
  - unfold set_procs at 1. wp_step. apply wp_modify. cbn [Z.eqb].
    change (upd_proc np (set_p_trapframe 0) _) with (upd_proc np (set_p_trapframe 0) (after np (fun e => set_p_state USED (set_p_pid (ks_nextpid k) e)) (ks_mem k) k)).
    rewrite after_upd. apply drop_entry_wp; [|done]. unfold free_pages. cbn. rewrite Hpt. wp_steps. split; [done|].
    apply (Hfail np _ _ fl); [done|done|by apply untouched_refl|done].
  - unfold set_procs at 1. wp_step. apply wp_modify. rewrite (proj2 (Z.eqb_neq tf 0) Htf). wp_step. apply wp_zoom. pose proof T as (_ & (Hok & _ & _) & I1 & _).
    change (upd_proc np (set_p_trapframe tf) _) with (upd_proc np (set_p_trapframe tf) (after np (fun e => set_p_state USED (set_p_pid (ks_nextpid k) e)) m1 k)).
    rewrite after_upd.
    pose proof (page_ok_range tf Hok) as Hr.
    eapply wp_mono; [apply (proc_pagetable_wp (hold (proc_lock np) t) Hl users own fl1 m1 tf I1 Hown); [lia|apply Hok]|].
    intros r t1 m2 [-> [(-> & fl2 & U)|(Hr0 & own2 & fl2 & D & Hm)]]; wp_step; apply wp_modify; rewrite after_mem, after_upd.
    + cbn [Z.eqb]. apply drop_entry_wp; [|done]. unfold free_pages. cbn. unfold nz. rewrite (proj2 (Z.eqb_neq tf 0) Htf). cbn. wp_step.
      eapply wp_mono; [by apply (taken_undo users own fl (ks_mem k) (hold (proc_lock np) t) I Hl tf fl1 fl2 m1 m2)|].
      intros [] t1 m3 (-> & fl3 & U3). wp_steps. split; [done|]. by apply (Hfail np _ m3 fl3).
    + rewrite (proj2 (Z.eqb_neq r 0) Hr0). wp_steps. rewrite after_upd. apply (Hok' np tf r m2 own2 fl2); [done|done|].
      by eapply taken_newborn.
Qed.
End allocproc.

(** ** The open files of a forked process *)

(** How many of the descriptors [i], [i+1], ... are open on [f]. *)
Fixpoint holds (fds : Z -> option Z) (f i : Z) (n : nat) : Z :=
  match n with
  | O => 0
  | S n => (if decide (fds i = Some f) then 1 else 0) + holds fds f (i + 1) n
  end.

Definition more_refs (fds : Z -> option Z) (i : Z) (n : nat) (files : Z -> file) (f : Z) : file :=
  set_f_ref (f_ref (files f) + holds fds f i n) (files f).

Definition shared (fds fds' : Z -> option Z) (i : Z) (n : nat) (j : Z) : option Z :=
  if decide (i <= j < i + Z.of_nat n /\ is_Some (fds j)) then fds j else fds' j.

Definition dup_state (p np i : Z) (n : nat) (k : K) : K :=
  upd_proc np (fun e => set_p_ofile (shared (p_ofile (ks_proc k p)) (p_ofile e) i n) e)
    (set_ks_file (more_refs (p_ofile (ks_proc k p)) i n (ks_file k)) k).

Lemma kernel_tables (k : K) F G P P' : (forall f, F f = G f) -> (forall q, P q = P' q) ->
  set_ks_proc P (set_ks_file F k) = set_ks_proc P' (set_ks_file G k).
Proof. intros HF HP. by rewrite (functional_extensionality F G HF), (functional_extensionality P P' HP). Qed.

Lemma file_eta (f : file) : set_f_ref (f_ref f) f = f.
Proof. by destruct f. Qed.

Lemma ofile_eta (e : proc) fds : (forall j, fds j = p_ofile e j) -> set_p_ofile fds e = e.
Proof. intros E. rewrite (functional_extensionality _ _ E). by destruct e. Qed.

Lemma dup_state_0 p np i k : dup_state p np i 0 k = k.
Proof.
  destruct k as [m l sb ip fi pi pr n ini ti co ua]. unfold dup_state, upd_proc. cbn [ks_proc ks_file set_ks_file]. unfold set_ks_proc, set_ks_file. cbn. f_equal.
  - apply functional_extensionality. intros f. unfold more_refs. cbn [holds]. rewrite Z.add_0_r. apply file_eta.
  - apply functional_extensionality. intros q. rewrite upd_eq. case_decide; [subst|done]. apply ofile_eta. intros j.
    unfold shared. rewrite decide_False; [done|]. cbn. lia.
Qed.

Lemma dup_state_none p np i n k : p_ofile (ks_proc k p) i = None -> dup_state p np (i + 1) n k = dup_state p np i (S n) k.
Proof.
  intros E. unfold dup_state, upd_proc. cbn [ks_proc ks_file set_ks_file]. apply kernel_tables.
  - intros f. unfold more_refs. cbn [holds]. by rewrite E.
  - intros q. rewrite !upd_eq. case_decide; [|done]. f_equal. apply functional_extensionality. intros j. unfold shared.
    destruct (decide (j = i)) as [->|]; [rewrite E, !decide_False; [done|by intros [_ [? ?]]..]|].
    apply decide_ext. split; intros [? ?]; (split; [lia|done]).
Qed.

Lemma dup_state_some p np i n k f : p <> np -> p_ofile (ks_proc k p) i = Some f ->
  dup_state p np (i + 1) n (upd_proc np (fun e => set_p_ofile (<[i := Some f]> (p_ofile e)) e) (upd_file f (set_f_ref (f_ref (ks_file k f) + 1)) k)) =
  dup_state p np i (S n) k.
Proof.
  intros Hne E. unfold dup_state, upd_proc, upd_file. cbn [ks_proc ks_file set_ks_file set_ks_proc]. rewrite (upd_other (ks_proc k)) by done. rewrite upd_same.
  match goal with |- set_ks_proc ?P (set_ks_file ?F (set_ks_proc _ (set_ks_file _ k))) = _ => change (set_ks_proc P (set_ks_file F k) = dup_state p np i (S n) k) end.
  unfold dup_state, upd_proc. cbn [ks_proc set_ks_file]. apply kernel_tables.
  - intros f'. unfold more_refs. cbn [holds]. rewrite E. rewrite upd_eq. case_decide as Ef.
    + subst f'. rewrite decide_True by done. unfold set_f_ref. cbn. f_equal. lia.
    + rewrite decide_False by congruence. done.
  - intros q. rewrite !upd_eq. case_decide; [|done]. unfold set_p_ofile. cbn. f_equal. apply functional_extensionality. intros j. unfold shared. rewrite upd_eq.
    destruct (decide (j = i)) as [->|]; [rewrite E; rewrite decide_False by lia; rewrite !decide_True by (done || (split; [lia|by eexists])); done|].
    rewrite (decide_False (P := i = j)) by done. apply decide_ext. split; intros [? ?]; (split; [lia|done]).
Qed.

Lemma dup_files_wp p np t n : forall i k (Q : unit -> tctx -> K -> Prop), p <> np -> t_held t = [] ->
  (forall j f, i <= j < i + Z.of_nat n -> p_ofile (ks_proc k p) j = Some f -> 1 <= f_ref (ks_file k f)) ->
  Q tt (hold (proc_lock np) t) (dup_state p np i n k) -> wp (dup_files p np i n) Q (hold (proc_lock np) t) k.
Proof.
  induction n as [|n IH]; intros i k Q Hne Ht Href HQ; cbn [dup_files].
  { wp_steps. by rewrite dup_state_0 in HQ. }
  unfold proc_of, set_procs. wp_steps. destruct (p_ofile (ks_proc k p) i) as [f|] eqn:E.
  - unfold filedup, file_of, set_file. wp_step. wp_step. wp_step.
    { cbn. rewrite Ht. apply not_elem_of_cons. split; [done|apply not_elem_of_nil]. }
    wp_step. wp_step. pose proof (Href i f ltac:(lia) E) as Hr. rewrite (proj2 (Z.ltb_ge _ _)) by done. wp_steps. apply (IH (i + 1)); [done|done| |].
    + intros j f' Hj. unfold upd_proc, upd_file. cbn. rewrite (upd_other (ks_proc k)) by done. intros Ef. pose proof (Href j f' ltac:(lia) Ef).
      rewrite upd_eq. case_decide; [cbn; lia|done].
    + by rewrite dup_state_some.
  - wp_steps. apply (IH (i + 1)); [done|done| |by rewrite dup_state_none]. intros j f Hj. apply Href. lia.
Qed.

(** ** fork *)

Lemma wp_entry_of p t k (Q : proc -> tctx -> K -> Prop) : Q (ks_proc k p) t k -> wp (proc_of p) Q t k.
Proof. intros HQ. unfold proc_of. by wp_steps. Qed.

Lemma wp_set_procs p f t k (Q : unit -> tctx -> K -> Prop) : Q tt t (upd_proc p f k) -> wp (set_procs p f) Q t k.
Proof. intros HQ. unfold set_procs. by wp_steps. Qed.

(** The entry of the child of [p]. *)
Definition child (p pid tf r cwd : Z) (e ne : proc) : proc :=
  set_p_state RUNNABLE (set_p_parent (Some p) (set_p_name (take 15 (p_name e)) (set_p_cwd (Some cwd)
    (set_p_ofile (shared (p_ofile e) (p_ofile ne) 0 (Z.to_nat NOFILE)) (set_p_sz (p_sz e) (born pid tf r ne)))))).

(** The kernel with the child at [np]. *)
Definition with_child (p np tf r cwd : Z) (m : kmem) (k : K) : K :=
  let e := ks_proc k p in
  upd_inode cwd (set_i_ref (i_ref (ks_inode k cwd) + 1))
    (set_ks_file (more_refs (p_ofile e) 0 (Z.to_nat NOFILE) (ks_file k))
      (after np (child p (ks_nextpid k) tf r cwd e) m k)).

(** What is needed of the caller: an address space, open files that are in
    use and a current directory. *)
Record runnable_caller (users : gset Z) (own : gmap Z usage) (fl : list Z) (p cwd : Z) (k : K) : Prop := {
  rc_used : p_state (ks_proc k p) <> UNUSED;
  rc_space : space users own fl (k_mem (ks_mem k)) (p_pagetable (ks_proc k p)) (p_trapframe (ks_proc k p)) (p_sz (ks_proc k p));
  rc_files : forall j f, 0 <= j < NOFILE -> p_ofile (ks_proc k p) j = Some f -> 1 <= f_ref (ks_file k f);
  rc_cwd : p_cwd (ks_proc k p) = Some cwd
}.

Lemma with_child_entry p np tf r cwd m k :
  ks_proc (with_child p np tf r cwd m k) np = child p (ks_nextpid k) tf r cwd (ks_proc k p) (ks_proc k np).
Proof. exact (after_entry np (child p (ks_nextpid k) tf r cwd (ks_proc k p)) m k). Qed.

Lemma with_child_mem p np tf r cwd m k : ks_mem (with_child p np tf r cwd m k) = m.
Proof. done. Qed.

Lemma with_child_files p np tf r cwd m k j : (forall i, p_ofile (ks_proc k np) i = None) -> 0 <= j < NOFILE ->
  p_ofile (ks_proc (with_child p np tf r cwd m k) np) j = p_ofile (ks_proc k p) j.
Proof.
  intros Hof Hj. rewrite with_child_entry. unfold child, shared. cbn [p_ofile set_p_state set_p_parent set_p_name set_p_cwd set_p_ofile]. rewrite Hof.
  case_decide as E; [done|]. destruct (p_ofile (ks_proc k p) j) eqn:F; [|done]. destruct E. split; [exact Hj|by eexists].
Qed.

Lemma copy_frame_wp {A} dst src (c : M K A) np f m t k (Q : A -> tctx -> K -> Prop) :
  wp c Q t (after np f (set_mem (frame_copied dst src (k_mem m)) m) k) ->
  wp (mz (do_memmove dst src sizeof_trapframe);; mz (st64 (dst + tf_a 0) 0);; c) Q t (after np f m k).
Proof.
  rewrite <-frame_copied_state. cbv zeta. intros HQ. wp_step. apply wp_zoom. unfold do_memmove. wp_step. rewrite after_mem. wp_step. apply wp_zoom. unfold st64.
  wp_step. rewrite after_mem. exact HQ.
Qed.

Section kfork.
Context (users : gset Z) (own : gmap Z usage) (fl : list Z) (t : tctx) (k : K) (cwd : Z).
Hypothesis I : vm_inv users own fl (ks_mem k).
Hypothesis T : tidy users own (k_mem (ks_mem k)).
Hypothesis Ht : t_held t = [].
Hypothesis Hun : unused_ok k.
Hypothesis R : runnable_caller users own fl (t_proc t) cwd k.

(** The rest of [kfork], once the memory is copied. *)
Lemma kfork_finish np tf r m : np <> t_proc t ->
  let k1 := after np (fun e => set_p_sz (p_sz (ks_proc k (t_proc t))) (born (ks_nextpid k) tf r e)) m k in
  wp (dup_files (t_proc t) np 0 (Z.to_nat NOFILE);;
      e ← proc_of (t_proc t);
      cwd ← match p_cwd e with Some d => d ← idup d; mret (Some d) | None => panic "kerneltrap" end;
      set_procs np (set_p_cwd cwd);;
      set_procs np (set_p_name (take 15 (p_name e)));;
      release (proc_lock np);;
      acquire wait_lock;;
      set_procs np (set_p_parent (Some (t_proc t)));;
      release wait_lock;;
      acquire (proc_lock np);;
      set_procs np (set_p_state RUNNABLE);;
      release (proc_lock np);;
      mret (ks_nextpid k))
    (fun r' t' k' => t' = t /\ r' = ks_nextpid k /\ k' = with_child (t_proc t) np tf r cwd m k) (hold (proc_lock np) t) k1.
Proof using Ht R.
  intros Hne k1. assert (Hp : ks_proc k1 (t_proc t) = ks_proc k (t_proc t)) by (unfold k1, after, upd_proc; cbn; by rewrite upd_other).
  wp_step. apply dup_files_wp; [done|done| |].
  { intros j f Hj. rewrite Hp. apply (rc_files _ _ _ _ _ _ R). exact Hj. }
  unfold proc_of, set_procs. wp_steps. set (k2 := dup_state _ _ _ _ k1).
  assert (Hp2 : ks_proc k2 (t_proc t) = ks_proc k (t_proc t)) by (unfold k2, dup_state, upd_proc; cbn; rewrite upd_other by done; exact Hp).
  rewrite Hp2, (rc_cwd _ _ _ _ _ _ R). unfold idup. wp_step. wp_step. wp_step.
  { cbn. rewrite Ht. apply not_elem_of_cons. split; [done|apply not_elem_of_nil]. }
  wp_step. wp_step. wp_step. wp_step.
  repeat (wp_step; try (cbn; rewrite Ht; apply not_elem_of_nil)).
  split_and!; [done|done|]. rewrite !upd_proc_upd. unfold k2, dup_state. rewrite Hp.
  match goal with |- upd_proc np ?g (upd_inode cwd ?h (upd_proc np ?d (set_ks_file ?F k1))) = _ =>
    change (upd_inode cwd h (set_ks_file F (upd_proc np g (upd_proc np d k1))) = with_child (t_proc t) np tf r cwd m k) end.
  unfold k1. by rewrite !after_upd.
Qed.

(** C3: [kfork] either fails and returns -1, with every page, file, inode and
    process as it was, but for an unused entry and at most one pid used up; or
    it returns the new pid and the child has a copy of the parent's memory in
    its own page table, the parent's registers with [a0] zero, the parent's
    open files (each counted once more), its directory and name, and is
    runnable.  The memory, trapframes and entries of all other processes are
    unchanged. *)
Theorem kfork_copies : wp kfork (fun r' t' k' => t' = t /\
  ((r' = -1 /\ (k' = k \/ exists np c m fl', p_state (ks_proc k np) = UNUSED /\ free_entry c = c /\ p_ofile c = p_ofile (ks_proc k np) /\
      untouched users own fl fl' (ks_mem k) m /\ k' = after np (fun _ => c) m k)) \/
   (r' = ks_nextpid k /\ exists np tf root m own' fl', 0 <= np < NPROC /\ p_state (ks_proc k np) = UNUSED /\
      forked_mem root tf (p_pagetable (ks_proc k (t_proc t))) (p_trapframe (ks_proc k (t_proc t))) (p_sz (ks_proc k (t_proc t)))
        users own own' fl fl' (ks_mem k) m /\
      k' = with_child (t_proc t) np tf root cwd m k /\
      forall j, 0 <= j < NOFILE -> p_ofile (ks_proc k' np) j = p_ofile (ks_proc k (t_proc t)) j))) t k.
Proof using All.
  unfold kfork. wp_step. wp_step. cbv zeta. wp_step. apply (allocproc_wp users own fl t k I (proj1 T) Ht Hun).
  - intros _. wp_steps. split; [done|]. left. split; [done|by left].
  - intros np f m fl' Hnp Hst U Ef. wp_steps. split; [done|]. left. split; [done|]. right.
    exists np, (free_entry (f (ks_proc k np))), m, fl'. refine (conj Hst (conj eq_refl (conj _ (conj U eq_refl)))). by rewrite Ef.
  - intros np tf r m own' fl' Hnp Hst B. assert (Hne : np <> t_proc t) by (intros ->; by destruct (rc_used _ _ _ _ _ _ R)).
    assert (Hl : kmem_lock ∉ t_held (hold (proc_lock np) t)) by (cbn; rewrite Ht; apply not_elem_of_cons; split; [done|apply not_elem_of_nil]).
    pose proof (rc_space _ _ _ _ _ _ R) as P. destruct (Hun np Hst) as (_ & _ & Hz & Hof).
    wp_step. apply wp_entry_of. wp_step. apply wp_entry_of. rewrite after_entry. replace (ks_proc (after np _ m k) (t_proc t)) with (ks_proc k (t_proc t)) by (unfold after, upd_proc; cbn; by rewrite upd_other).
    wp_step. apply wp_zoom.
    eapply wp_mono; [by apply (nb_copy_wp I B); [apply P|apply P|]|]. intros x t1 m2 (-> & own2 & fl2 & [[-> G]|[-> G]]); cbn [Z.ltb Z.compare]; rewrite after_mem.
    + wp_step. apply wp_set_procs. rewrite after_upd. apply copy_frame_wp.
      eapply wp_mono; [by apply kfork_finish|]. intros x' t' k' (-> & -> & ->). split; [done|]. right. split; [done|].
      exists np, tf, r, (set_mem (frame_copied tf (p_trapframe (ks_proc k (t_proc t))) (k_mem m2)) m2), own2, fl2. 
      refine (conj Hnp (conj Hst (conj (forked_copy _ _ _ _ _ _ _ _ _ _ _ _ _ _ _ I T P B G) (conj eq_refl _)))). intros j Hj. by apply with_child_files.
    + apply drop_entry_wp; [|done]. eapply wp_mono; [by apply (cp_undo I T B G (born (ks_nextpid k) tf r (ks_proc k np)) _ (fun _ => eq_refl))|].
      intros [] t1 m3 (-> & fl3 & U). split; [done|]. split; [done|]. left. split; [done|]. right. exists np, (free_entry (born (ks_nextpid k) tf r (ks_proc k np))), m3, fl3.
      exact (conj Hst (conj eq_refl (conj eq_refl (conj U eq_refl)))).
Qed.
End kfork.

(** ** wait *)

Definition zombie_child (p : Z) (k : K) (i : Z) : Prop := p_parent (ks_proc k i) = Some p /\ p_state (ks_proc k i) = ZOMBIE.

Section kwait.
Context (users : gset Z) (own : gmap Z usage) (fl : list Z) (t : tctx) (k : K).
Hypothesis I : vm_inv users own fl (ks_mem k).
Hypothesis T : tidy users own (k_mem (ks_mem k)).
Hypothesis Ht : t_held t = [].
Hypothesis Hz : forall i, zombie_child (t_proc t) k i ->
  space users own fl (k_mem (ks_mem k)) (p_pagetable (ks_proc k i)) (p_trapframe (ks_proc k i)) (p_sz (ks_proc k i)).

(** The zombie [i] is freed. *)
Definition reaped (i : Z) (k' : K) : Prop := zombie_child (t_proc t) k i /\ exists m fl',
  space_freed (p_pagetable (ks_proc k i)) users own (p_trapframe (ks_proc k i) :: fl) fl' (ks_mem k) m /\ k' = set_ks_mem m (upd_proc i free_entry k).

Lemma kwait_scan_wp n : forall i havekids (Q : scan -> tctx -> K -> Prop),
  (forall j k', i <= j < i + Z.of_nat n -> reaped j k' -> Q (Found (p_pid (ks_proc k j))) (hold wait_lock t) k') ->
  (forall b, (forall j, i <= j < i + Z.of_nat n -> ~ zombie_child (t_proc t) k j) ->
     (b = false -> havekids = false /\ forall j, i <= j < i + Z.of_nat n -> p_parent (ks_proc k j) <> Some (t_proc t)) ->
     (b = true -> havekids = true \/ exists j, i <= j < i + Z.of_nat n /\ p_parent (ks_proc k j) = Some (t_proc t)) ->
     Q (NotFound b) (hold wait_lock t) k) ->
  wp (kwait_scan (t_proc t) 0 havekids i n) Q (hold wait_lock t) k.
Proof using I T Ht Hz.
  induction n as [|n IH]; intros i havekids Q HF HN; cbn [kwait_scan].
  { wp_steps. apply HN; [intros j Hj; lia|intros ->; split; [done|intros j Hj; lia]|intros ->; by left]. }
  wp_step. apply wp_entry_of. case_decide as Ep.
  - wp_step. wp_step. { cbn. rewrite Ht. apply not_elem_of_cons. split; [done|apply not_elem_of_nil]. }
    wp_step. apply wp_entry_of. case_decide as Es; cbv zeta.
    + wp_step. apply wp_entry_of. cbn [nz Z.eqb negb]. wp_step. wp_step. cbn [Z.ltb Z.compare]. wp_step. apply freeproc_pages.
      assert (Zi : zombie_child (t_proc t) k i) by done.
      eapply wp_mono; [apply (free_pages_wp users own fl (ks_mem k)); [exact I| |apply T|by apply Hz]|].
      * cbn. rewrite Ht. apply not_elem_of_cons. split; [done|]. apply not_elem_of_cons. split; [done|apply not_elem_of_nil].
      * intros [] t' m (-> & fl' & F). wp_steps. apply (HF i); [lia|]. split; [done|]. by exists m, fl'.
    + wp_step. wp_step. apply (IH (i + 1)).
      * intros j k' Hj. apply HF. lia.
      * intros b Hn Hb0 Hb1. apply HN; [| |by intros; right; exists i; split; [lia|]].
        -- intros j Hj [? ?]. destruct (decide (j = i)) as [->|]; [done|]. apply (Hn j); [lia|done].
        -- intros ->. by destruct (Hb0 eq_refl).
  - apply (IH (i + 1)).
    + intros j k' Hj. apply HF. lia.
    + intros b Hn Hb0 Hb1. apply HN.
      * intros j Hj [? ?]. destruct (decide (j = i)) as [->|]; [done|]. apply (Hn j); [lia|done].
      * intros ->. destruct (Hb0 eq_refl) as [-> Hno]. split; [done|]. intros j Hj. destruct (decide (j = i)) as [->|]; [done|]. apply Hno. lia.
      * intros ->. destruct (Hb1 eq_refl) as [->|(j & Hj & Hp)]; [by left|]. right. exists j. split; [lia|done].
Qed.

End kwait.
End alloc.

(** ** A concrete machine *)

Module ForkDemo.
(** A kernel whose image leaves sixteen pages free. *)
Definition P (i : Z) : Z := PHYSTOP - (16 - i) * PGSIZE.

#[local] Instance layout : KernelLayout.
Proof. refine {| kend := P 0; etext := KERNBASE + 8 * PGSIZE; trampoline := KERNBASE + 7 * PGSIZE |}; vm_compute; done. Defined.

#[local] Instance text : KernelText :=
  {| forkret_addr := KERNBASE + 0x100; usertrap_addr := KERNBASE + 0x200; kernelvec_addr := KERNBASE + 0x300; uservec_off := 0; userret_off := 0x9a |}.

Definition free : list Z := P <$> seqZ 0 16.
Fixpoint link (l : list Z) (m : mem) : mem :=
  match l with
  | p :: (q :: _) as l' => link l' (store64 m p q)
  | [p] => store64 m p 0
  | [] => m
  end.
Definition empty : kmem := {| k_mem := link free ∅; k_freelist := P 0 |}.
Definition thread : tctx := {| t_held := []; t_proc := 0; t_pid := 7; t_patience := 0; t_trace := [] |}.
Definition waiter : tctx := {| t_held := []; t_proc := 3; t_pid := 5; t_patience := 0; t_trace := [] |}.

Lemma fork_page_ok i : 0 <= i < 16 -> page_ok (P i).
Proof.
  intros Hi. unfold page_ok, P, kend, layout, P. unfold PGSIZE, PHYSTOP, KERNBASE.
  split; [|lia]. change (128 * 1024 * 1024) with (32768 * 4096). change 0x80000000 with (524288 * 4096).
  rewrite <-!Z.mul_add_distr_r, <-Z.mul_sub_distr_r. by apply Z.mod_mul.
Qed.

Lemma chain_free n : forall i, i + Z.of_nat n = 16 -> 0 <= i ->
  forallb (fun j => load64 (k_mem empty) (P j) =? (if j =? 15 then 0 else P (j + 1))) (seqZ 0 16) = true ->
  chain (k_mem empty) (if i =? 16 then 0 else P i) (P <$> seqZ i (Z.of_nat n)).
Proof.
  intros i Hi Hpos Hf. revert i Hi Hpos. induction n as [|n IH]; intros i Hi Hpos.
  - replace i with 16 by lia. constructor.
  - rewrite (proj2 (Z.eqb_neq i 16)) by lia. rewrite seqZ_cons by lia. cbn [fmap list_fmap]. constructor; [apply fork_page_ok; lia|].
    apply forallb_forall with (x := i) in Hf; [|apply list_elem_of_In, elem_of_seqZ; lia]. apply Z.eqb_eq in Hf. rewrite Hf.
    replace (Z.pred (Z.of_nat (S n))) with (Z.of_nat n) by lia. replace (Z.succ i) with (i + 1) by lia.
    specialize (IH (i + 1) ltac:(lia) ltac:(lia)). destruct (Z.eqb_spec i 15) as [Ei|Ei]; [rewrite Ei in IH |- *; exact IH|].
    rewrite (proj2 (Z.eqb_neq (i + 1) 16)) in IH by lia. exact IH.
Qed.

Lemma fork_kmem_ok : kmem_inv empty free.
Proof.
  split; [|by vm_compute; repeat constructor; set_solver]. apply (chain_free 16 0); [done|done|by vm_compute].
Qed.

(** A process with a page of memory, made with the kernel's own functions. *)
Definition setup : M kmem (Z * Z * Z) :=
  tf ← kalloc;
  if tf =? 0 then mret (0, 0, 0)
  else
    r ← proc_pagetable tf;
    if r =? 0 then mret (0, 0, 0)
    else
      sz ← uvmalloc r 0 PGSIZE PTE_W;
      mret (tf, r, sz).

Lemma setup_wp : wp setup (fun a t' s' => a.2 = PGSIZE -> exists own fl, vm_inv ({[a.1.2]} ∪ ∅) own fl s' /\
  tidy ({[a.1.2]} ∪ ∅) own (k_mem s') /\ space ({[a.1.2]} ∪ ∅) own fl (k_mem s') a.1.2 a.1.1 PGSIZE) thread empty.
Proof.
  assert (Hl : kmem_lock ∉ t_held thread) by apply not_elem_of_nil. pose proof (vm_inv_empty free empty fork_kmem_ok) as I.
  assert (To : owned_by ∅ (∅ : gmap Z usage)) by (intros p r v Hp; by rewrite lookup_empty in Hp).
  assert (T : tidy ∅ (∅ : gmap Z usage) (k_mem empty)) by (split; [done|]; intros r p v Hp; by rewrite lookup_empty in Hp).
  unfold setup. wp_step. eapply wp_mono; [by apply (kalloc_taken ∅ ∅ free empty thread I Hl)|]. intros tf t1 s1 [-> [[-> ->]|(Htf & fl1 & K)]]; [by wp_steps|].
  rewrite (proj2 (Z.eqb_neq tf 0) Htf). pose proof K as (_ & (Hok & _) & I1 & _). pose proof (page_ok_range tf Hok) as Hr.
  wp_step. eapply wp_mono; [apply (proc_pagetable_wp thread Hl ∅ ∅ fl1 s1 tf I1 To); [lia|apply Hok]|].
  intros r t1 s2 [-> [(-> & _)|(Hr0 & own2 & fl2 & D & Hm)]]; [by wp_steps|]. rewrite (proj2 (Z.eqb_neq r 0) Hr0).
  pose proof (taken_newborn ∅ ∅ free empty I r tf own2 fl1 fl2 s1 s2 K D Hm) as B.
  wp_step. eapply wp_mono; [apply (uvmalloc_wp ({[r]} ∪ ∅) own2 fl2 s2 r 0 PGSIZE PTE_W thread (nb_inv _ _ _ _ _ _ _ _ _ B)); try done|].
  - apply elem_of_union. left. by apply elem_of_singleton.
  - exact (nb_unmapped B PGSIZE ltac:(done)).
  - intros x t1 s3 (-> & own3 & fl3 & [[-> G]|[-> G]]); wp_steps; [|done]. cbn. intros _. exists own3, fl3.
    split_and!; [apply G|exact (cp_tidy I T B G)|]. apply (cp_child B G); [done|]. intros v. unfold zero_pages. case_decide; [done|]. by intros [? ?].
Qed.

(** The pages it has. *)
Definition view (o : outcome kmem (Z * Z * Z)) : option (Z * Z * Z) := match o with Done a _ _ => Some a | _ => None end.
Definition made_mem : kmem := match setup thread empty with Done _ _ s => s | _ => empty end.

Lemma setup_runs : view (setup thread empty) = Some (P 0, P 1, PGSIZE).
Proof. by vm_compute. Qed.

Lemma process_ok : exists own fl, vm_inv ({[P 1]} ∪ ∅) own fl made_mem /\ tidy ({[P 1]} ∪ ∅) own (k_mem made_mem) /\
  space ({[P 1]} ∪ ∅) own fl (k_mem made_mem) (P 1) (P 0) PGSIZE.
Proof.
  pose proof setup_wp as W. pose proof setup_runs as V. unfold made_mem. unfold wp in W.
  destruct (setup thread empty) as [a t s| | | |]; [|done..]. cbn [view] in V. injection V as ->. by apply W.
Qed.

(** The kernel with that process as number 0. *)
Definition entry (st : procstate) (parent : option Z) (pt tf sz : Z) (fds : Z -> option Z) : proc :=
  {| p_state := st; p_chan := None; p_killed := 0; p_xstate := 0; p_pid := 7; p_parent := parent; p_kstack := 0; p_sz := sz; p_pagetable := pt; p_trapframe := tf;
     p_ra := 0; p_sp := 0; p_ofile := fds; p_cwd := Some 0; p_name := bytes_of "sh" |}.
Definition kern (st : procstate) (parent : option Z) : kernel bcache :=
  set_ks_mem made_mem (set_ks_file (fun _ => set_f_ref 1 (ks_file (FsDemo.the_kernel FsDemo.the_file (LogDemo.raw_cache LogDemo.zero_disk)) 0))
    (set_ks_proc (fun i => if i =? 0 then entry st parent (P 1) (P 0) PGSIZE (fun j => if j =? 0 then Some 0 else None) else entry UNUSED None 0 0 0 (fun _ => None))
      (FsDemo.the_kernel FsDemo.the_file (LogDemo.raw_cache LogDemo.zero_disk)))).
End ForkDemo.

#[local] Existing Instance ForkDemo.layout.
#[local] Existing Instance ForkDemo.text.

Lemma kfork_copies_witness : wp (kfork (C := bcache)) (fun r' t' k' => t' = ForkDemo.thread /\ (r' = -1 \/ r' = 8 /\ exists np, p_state (ks_proc k' np) = RUNNABLE /\
  forall x, 0 <= x < PGSIZE -> umem (k_mem (ks_mem k')) (p_pagetable (ks_proc k' np)) x = umem (k_mem (ks_mem k')) (ForkDemo.P 1) x))
  ForkDemo.thread (ForkDemo.kern RUNNING None).
Proof.
  destruct ForkDemo.process_ok as (own & fl & I & T & P).
  eapply wp_mono; [apply (kfork_copies ({[ForkDemo.P 1]} ∪ ∅) own fl ForkDemo.thread (ForkDemo.kern RUNNING None) 0 I T eq_refl)|].
  - intros j. unfold ForkDemo.kern. cbn [ks_proc set_ks_mem set_ks_file set_ks_proc]. by destruct (j =? 0).
  - split; [done|exact P|done|done].
  - intros r' t' k' (-> & [[-> _]|(-> & np & tf & root & m & own' & fl' & _ & _ & F & -> & _)]); [split; [done|by left]|]. split; [done|]. right. split; [done|].
    exists np. rewrite with_child_entry, with_child_mem. split; [done|]. intros x Hx. rewrite (fm_same _ _ _ _ _ _ _ _ _ _ _ _ F (ForkDemo.P 1) x); [|apply P|change TRAPFRAME with (2 ^ 38 - 8192); unfold PGSIZE in Hx; lia].
    exact (fm_copy _ _ _ _ _ _ _ _ _ _ _ _ F x Hx).
Defined.

