(* ===== verification/Syscall.v ===== *)
(** * Syscall: kernel/syscall.c, kernel/sysfile.c and kernel/sysproc.c *)

From coqutil Require Import Word.LittleEndianList.
From S2P Require Import Prelude Riscv CString Kalloc Vm Sleeplock Layout Bio BioSpec Log Pipe Kernel Fs Proc Printf Console File Process.

(** ** fcntl.h, vm.h *)

Definition O_RDONLY : Z := 0x000.
Definition O_WRONLY : Z := 0x001.
Definition O_RDWR : Z := 0x002.
Definition O_CREATE : Z := 0x200.
Definition O_TRUNC : Z := 0x400.
Definition SBRK_EAGER : Z := 1.
Definition SBRK_LAZY : Z := 2.

Definition tickslock : lockid := ("time", 0).
Definition ticks_chan : chan := ("ticks", 0).

(** The string before the NUL of a buffer. *)
Fixpoint until_nul (l : list byte) : list byte :=
  match l with
  | [] => []
  | c :: l => if cv c =? 0 then [] else c :: until_nul l
  end.

Section syscall.
Context `{KernelLayout} `{KernelText} {C : Type} `{BlockCache C}.
Local Abbreviation K := (kernel C).

(** ** Arguments *)

Definition fetchaddr (addr : Z) : M K (option Z) :=
  p ← myproc;
  if (p_sz p <=? addr) || (p_sz p <? u64 (addr + 8)) then mret None
  else
    rl ← mz (copyin (uproc_of p) (p_pagetable p) addr 8);
    let '(r, l) := rl in
    mret (if nz r then None else Some (le_combine l)).

(** The string, whose length is the result of the C function. *)
Definition fetchstr (addr max : Z) : M K (option (list byte)) :=
  p ← myproc;
  rl ← mz (copyinstr (p_pagetable p) addr max);
  let '(r, l) := rl in
  mret (if r <? 0 then None else Some (until_nul l)).

Definition argraw (n : Z) : M K Z :=
  if (0 <=? n) && (n <=? 5) then tf_get (tf_a n) else panic "argraw".

Definition argint (n : Z) : M K Z := x ← argraw n; mret (i32 x).
Definition argaddr (n : Z) : M K Z := argraw n.
Definition argstr (n max : Z) : M K (option (list byte)) := a ← argaddr n; fetchstr a max.

(** The descriptor and the file. *)
Definition argfd (n : Z) : M K (option (Z * Z)) :=
  fd ← argint n;
  p ← myproc;
  mret (if (fd <? 0) || (NOFILE <=? fd) then None
        else match p_ofile p fd with Some f => Some (fd, f) | None => None end).

Fixpoint free_fd (p : proc) (fd : Z) (n : nat) : option Z :=
  match n with
  | O => None
  | S n => match p_ofile p fd with None => Some fd | Some _ => free_fd p (fd + 1) n end
  end.

Definition set_fd (fd : Z) (f : option Z) : M K unit :=
  t ← self; set_procs (t_proc t) (fun e => set_p_ofile (<[fd := f]> (p_ofile e)) e).

Definition fdalloc (f : Z) : M K (option Z) :=
  p ← myproc;
  match free_fd p 0 (Z.to_nat NOFILE) with
  | Some fd => set_fd fd (Some f);; mret (Some fd)
  | None => mret None
  end.

(** ** sysfile.c *)

Definition sys_dup : M K Z :=
  a ← argfd 0;
  match a with
  | None => mret (-1)
  | Some (_, f) =>
      fd ← fdalloc f;
      match fd with
      | None => mret (-1)
      | Some fd => filedup f;; mret fd
      end
  end.

Definition sys_read : M K Z :=
  p ← argaddr 1;
  n ← argint 2;
  a ← argfd 0;
  match a with
  | None => mret (-1)
  | Some (_, f) => fileread f p n
  end.

Definition sys_write : M K Z :=
  p ← argaddr 1;
  n ← argint 2;
  a ← argfd 0;
  match a with
  | None => mret (-1)
  | Some (_, f) => filewrite f p n
  end.

Definition sys_close : M K Z :=
  a ← argfd 0;
  match a with
  | None => mret (-1)
  | Some (fd, f) => set_fd fd None;; fileclose f;; mret 0
  end.

Definition sys_fstat : M K Z :=
  st ← argaddr 1;
  a ← argfd 0;
  match a with
  | None => mret (-1)
  | Some (_, f) => filestat f st
  end.

Definition upd_nlink (ip d : Z) : M K unit :=
  modify (fun k => upd_inode ip (set_i_nlink (i16 (i_nlink (ks_inode k ip) + d))) k).

(** The code at the label [bad] of [sys_link]. *)
Definition link_bad (ip : Z) : M K Z :=
  ilock ip;;
  upd_nlink ip (-1);;
  iupdate ip;;
  iunlockput ip;;
  kend_op;;
  mret (-1).

Definition sys_link : M K Z :=
  old ← argstr 0 MAXPATH;
  match old with
  | None => mret (-1)
  | Some old =>
      new ← argstr 1 MAXPATH;
      match new with
      | None => mret (-1)
      | Some new =>
          kbegin_op;;
          ip ← namei old;
          match ip with
          | None => kend_op;; mret (-1)
          | Some ip =>
              ilock ip;;
              k ← get;
              if i_type (ks_inode k ip) =? T_DIR then
                iunlockput ip;; kend_op;; mret (-1)
              else
                upd_nlink ip 1;;
                iupdate ip;;
                iunlock ip;;
                r ← nameiparent new;
                match r with
                | None => link_bad ip
                | Some (dp, name) =>
                    ilock dp;;
                    k ← get;
                    bad ← (if negb (i_dev (ks_inode k dp) =? i_dev (ks_inode k ip)) then mret true
                           else r ← dirlink dp name (i_inum (ks_inode k ip)); mret (r <? 0));
                    if (bad : bool) then iunlockput dp;; link_bad ip
                    else
                      iunlockput dp;;
                      iput ip;;
                      kend_op;;
                      mret 0
                end
          end
      end
  end.

(** The loop of [isdirempty] from offset [off] on. *)
Fixpoint isdirempty_loop (n : nat) (dp off : Z) : M K bool :=
  match n with
  | O => mret true
  | S n =>
      rl ← readi dp (Local []) off sizeof_dirent;
      let '(r, de) := rl in
      if negb (r =? sizeof_dirent) then panic "isdirempty: readi"
      else if negb (de_inum de =? 0) then mret false
      else isdirempty_loop n dp (off + sizeof_dirent)
  end.

Definition isdirempty (dp : Z) : M K bool :=
  k ← get;
  isdirempty_loop (dir_entries (i_size (ks_inode k dp) - 2 * sizeof_dirent)) dp (2 * sizeof_dirent).

(** The code at the label [bad] of [sys_unlink]. *)
Definition unlink_bad (dp : Z) : M K Z := iunlockput dp;; kend_op;; mret (-1).

Definition sys_unlink : M K Z :=
  path ← argstr 0 MAXPATH;
  match path with
  | None => mret (-1)
  | Some path =>
      kbegin_op;;
      r ← nameiparent path;
      match r with
      | None => kend_op;; mret (-1)
      | Some (dp, name) =>
          ilock dp;;
          if (namecmp name (bytes_of ".") =? 0) || (namecmp name (bytes_of "..") =? 0) then unlink_bad dp
          else
            found ← dirlookup dp name;
            match found with
            | None => unlink_bad dp
            | Some (ip, off) =>
                ilock ip;;
                k ← get;
                if i_nlink (ks_inode k ip) <? 1 then panic "unlink: nlink < 1"
                else
                  full ← (if i_type (ks_inode k ip) =? T_DIR then e ← isdirempty ip; mret (negb e) else mret false);
                  if (full : bool) then iunlockput ip;; unlink_bad dp
                  else
                    r ← writei dp (Local (replicate (Z.to_nat sizeof_dirent) (chr 0))) off sizeof_dirent;
                    if negb (r =? sizeof_dirent) then panic "unlink: writei"
                    else
                      k ← get;
                      (if i_type (ks_inode k ip) =? T_DIR then upd_nlink dp (-1);; iupdate dp else mret tt);;
                      iunlockput dp;;
                      upd_nlink ip (-1);;
                      iupdate ip;;
                      iunlockput ip;;
                      kend_op;;
                      mret 0
            end
      end
  end.

(** The code at the label [fail] of [create]. *)
Definition create_fail (ip dp : Z) : M K (option Z) :=
  modify (upd_inode ip (set_i_nlink 0));;
  iupdate ip;;
  iunlockput ip;;
  iunlockput dp;;
  mret None.

Definition create (path : list byte) (type major minor : Z) : M K (option Z) :=
  r ← nameiparent path;
  match r with
  | None => mret None
  | Some (dp, name) =>
      ilock dp;;
      found ← dirlookup dp name;
      match found with
      | Some (ip, _) =>
          iunlockput dp;;
          ilock ip;;
          k ← get;
          if (type =? T_FILE) && ((i_type (ks_inode k ip) =? T_FILE) || (i_type (ks_inode k ip) =? T_DEVICE))
          then mret (Some ip)
          else iunlockput ip;; mret None
      | None =>
          k ← get;
          ip ← ialloc (i_dev (ks_inode k dp)) type;
          match ip with
          | None => iunlockput dp;; mret None
          | Some ip =>
              ilock ip;;
              modify (upd_inode ip (fun e => set_i_nlink 1 (set_i_minor minor (set_i_major major e))));;
              iupdate ip;;
              k ← get;
              bad ← (if type =? T_DIR then
                       r ← dirlink ip (bytes_of ".") (i_inum (ks_inode k ip));
                       if r <? 0 then mret true
                       else r ← dirlink ip (bytes_of "..") (i_inum (ks_inode k dp)); mret (r <? 0)
                     else mret false);
              if (bad : bool) then create_fail ip dp
              else
                r ← dirlink dp name (i_inum (ks_inode k ip));
                if r <? 0 then create_fail ip dp
                else
                  (if type =? T_DIR then upd_nlink dp 1;; iupdate dp else mret tt);;
                  iunlockput dp;;
                  mret (Some ip)
          end
      end
  end.

(** The end of [sys_open] once the inode is found and locked. *)
Definition open_inode (ip omode : Z) : M K Z :=
  k ← get;
  let e := ks_inode k ip in
  if (i_type e =? T_DEVICE) && ((i_major e <? 0) || (NDEV <=? i_major e)) then
    iunlockput ip;; kend_op;; mret (-1)
  else
    f ← filealloc;
    fd ← match f with None => mret None | Some f => fdalloc f end;
    match f, fd with
    | Some f, Some fd =>
        (if i_type e =? T_DEVICE
         then set_file f (fun x => set_f_major (i_major e) (set_f_type FD_DEVICE x))
         else set_file f (fun x => set_f_off 0 (set_f_type FD_INODE x)));;
        set_file f (fun x =>
          set_f_writable (nz (Z.land omode O_WRONLY) || nz (Z.land omode O_RDWR))
            (set_f_readable (negb (nz (Z.land omode O_WRONLY))) (set_f_ip ip x)));;
        (if nz (Z.land omode O_TRUNC) && (i_type e =? T_FILE) then itrunc ip else mret tt);;
        iunlock ip;;
        kend_op;;
        mret fd
    | _, _ =>
        match f with Some f => fileclose f | None => mret tt end;;
        iunlockput ip;;
        kend_op;;
        mret (-1)
    end.

Definition sys_open : M K Z :=
  omode ← argint 1;
  path ← argstr 0 MAXPATH;
  match path with
  | None => mret (-1)
  | Some path =>
      kbegin_op;;
      if nz (Z.land omode O_CREATE) then
        ip ← create path T_FILE 0 0;
        match ip with
        | None => kend_op;; mret (-1)
        | Some ip => open_inode ip omode
        end
      else
        ip ← namei path;
        match ip with
        | None => kend_op;; mret (-1)
        | Some ip =>
            ilock ip;;
            k ← get;
            if (i_type (ks_inode k ip) =? T_DIR) && negb (omode =? O_RDONLY)
            then iunlockput ip;; kend_op;; mret (-1)
            else open_inode ip omode
        end
  end.

Definition sys_mkdir : M K Z :=
  kbegin_op;;
  path ← argstr 0 MAXPATH;
  ip ← match path with None => mret None | Some path => create path T_DIR 0 0 end;
  match ip with
  | None => kend_op;; mret (-1)
  | Some ip => iunlockput ip;; kend_op;; mret 0
  end.

Definition sys_mknod : M K Z :=
  kbegin_op;;
  major ← argint 1;
  minor ← argint 2;
  path ← argstr 0 MAXPATH;
  ip ← match path with None => mret None | Some path => create path T_DEVICE (i16 major) (i16 minor) end;
  match ip with
  | None => kend_op;; mret (-1)
  | Some ip => iunlockput ip;; kend_op;; mret 0
  end.

Definition sys_chdir : M K Z :=
  t ← self;
  p ← myproc;
  kbegin_op;;
  path ← argstr 0 MAXPATH;
  ip ← match path with None => mret None | Some path => namei path end;
  match ip with
  | None => kend_op;; mret (-1)
  | Some ip =>
      ilock ip;;
      k ← get;
      if negb (i_type (ks_inode k ip) =? T_DIR) then iunlockput ip;; kend_op;; mret (-1)
      else
        iunlock ip;;
        match p_cwd p with Some d => iput d | None => panic "kerneltrap" end;;
        kend_op;;
        set_procs (t_proc t) (set_p_cwd (Some ip));;
        mret 0
  end.

(** [for(i = 0; i < NELEM(argv) && argv[i] != 0; i++) kfree(argv[i]);] *)
Fixpoint free_args (pages : list Z) : M K unit :=
  match pages with
  | [] => mret tt
  | p :: pages => mz (kfree p);; free_args pages
  end.

(** The loop of [sys_exec]: the pages of argv[] and the strings in them, and
    whether the end of the array was reached. *)
Fixpoint fetch_args (n : nat) (uargv i : Z) (pages : list Z) (argv : list (list byte))
  : M K (list Z * list (list byte) * bool) :=
  match n with
  | O => mret (pages, argv, false)
  | S n =>
      uarg ← fetchaddr (u64 (uargv + 8 * i));
      match uarg with
      | None => mret (pages, argv, false)
      | Some uarg =>
          if uarg =? 0 then mret (pages, argv, true)
          else
            page ← mz kalloc;
            if page =? 0 then mret (pages, argv, false)
            else
              s ← fetchstr uarg PGSIZE;
              match s with
              | None => mret (pages ++ [page], argv, false)
              | Some s =>
                  mz (put_bytes page (s ++ [chr 0]));;
                  fetch_args n uargv (i + 1) (pages ++ [page]) (argv ++ [s])
              end
      end
  end.

Definition sys_exec : M K Z :=
  uargv ← argaddr 1;
  path ← argstr 0 MAXPATH;
  match path with
  | None => mret (-1)
  | Some path =>
      r ← fetch_args (Z.to_nat MAXARG) uargv 0 [] [];
      let '(pages, argv, ok) := r in
      if (ok : bool) then
        ret ← kexec path argv;
        free_args pages;;
        mret ret
      else
        free_args pages;;
        mret (-1)
  end.

Definition sys_pipe : M K Z :=
  fdarray ← argaddr 0;
  r ← pipealloc;
  match r with
  | None => mret (-1)
  | Some (rf, wf) =>
      fd0 ← fdalloc rf;
      match fd0 with
      | None => fileclose rf;; fileclose wf;; mret (-1)
      | Some fd0 =>
          fd1 ← fdalloc wf;
          match fd1 with
          | None => set_fd fd0 None;; fileclose rf;; fileclose wf;; mret (-1)
          | Some fd1 =>
              p ← myproc;
              r0 ← mz (copyout (uproc_of p) (p_pagetable p) fdarray (le_split 4 fd0) 4);
              r1 ← (if r0 <? 0 then mret (-1)
                    else mz (copyout (uproc_of p) (p_pagetable p) (u64 (fdarray + 4)) (le_split 4 fd1) 4));
              if r1 <? 0 then
                set_fd fd0 None;;
                set_fd fd1 None;;
                fileclose rf;;
                fileclose wf;;
                mret (-1)
              else mret 0
          end
      end
  end.

(** ** sysproc.c *)

Definition sys_exit : M K Z := n ← argint 0; kexit n.
Definition sys_getpid : M K Z := p ← myproc; mret (p_pid p).
Definition sys_fork : M K Z := kfork.
Definition sys_wait : M K Z := p ← argaddr 0; kwait p.

Definition sys_sbrk : M K Z :=
  n ← argint 0;
  ty ← argint 1;
  t ← self;
  p ← myproc;
  let addr := p_sz p in
  if (ty =? SBRK_EAGER) || (n <? 0) then
    r ← growproc n;
    if r <? 0 then mret (-1) else mret addr
  else if u64 (addr + n) <? addr then mret (-1)
  else set_procs (t_proc t) (fun e => set_p_sz (u64 (p_sz e + n)) e);; mret addr.

(** [while(ticks - ticks0 < n)] with the unsigned comparison of C. *)
Fixpoint pause_loop (patience : nat) (ticks0 n : Z) : M K Z :=
  k ← get;
  if u32 (ks_ticks k - ticks0) <? n then
    stop ← mykilled;
    if (stop : bool) then release tickslock;; mret (-1)
    else
      match patience with
      | O => starved ticks_chan
      | S patience => sleep ticks_chan tickslock;; pause_loop patience ticks0 n
      end
  else release tickslock;; mret 0.

Definition sys_pause : M K Z :=
  n ← argint 0;
  let n := if n <? 0 then 0 else n in
  t ← self;
  acquire tickslock;;
  k ← get;
  pause_loop (t_patience t) (ks_ticks k) n.

Definition sys_kill : M K Z := pid ← argint 0; kkill pid.

Definition sys_uptime : M K Z :=
  acquire tickslock;;
  k ← get;
  release tickslock;;
  mret (ks_ticks k).

(** ** The table of system calls *)

Definition syscalls (num : Z) : option (M K Z) :=
  match num with
  | 1 => Some sys_fork
  | 2 => Some sys_exit
  | 3 => Some sys_wait
  | 4 => Some sys_pipe
  | 5 => Some sys_read
  | 6 => Some sys_kill
  | 7 => Some sys_exec
  | 8 => Some sys_fstat
  | 9 => Some sys_chdir
  | 10 => Some sys_dup
  | 11 => Some sys_getpid
  | 12 => Some sys_sbrk
  | 13 => Some sys_pause
  | 14 => Some sys_uptime
  | 15 => Some sys_open
  | 16 => Some sys_write
  | 17 => Some sys_mknod
  | 18 => Some sys_unlink
  | 19 => Some sys_link
  | 20 => Some sys_mkdir
  | 21 => Some sys_close
  | _ => None
  end.

Definition syscall : M K unit :=
  a7 ← tf_get (tf_a 7);
  match syscalls (i32 a7) with
  | Some f =>
      r ← f;
      tf_set (tf_a 0) r
  | None =>
      printf "unknown sys call";;
      tf_set (tf_a 0) (-1)
  end.
End syscall.
