(* ===== verification/Asm.v ===== *)
(** * Asm: the assembly of the kernel

    kernel/trampoline.S, kernel/kernelvec.S, kernel/swtch.S and
    kernel/entry.S, instruction by instruction, for a hart with its registers
    and its control and status registers.  Memory is reached through the page
    table that satp names, with the lookup function of PageTable.v. *)

From S2P Require Import Prelude Riscv CString Kalloc Vm PageTable Proc.

Inductive reg :=
| Zero | Ra | Sp | Gp | Tp | T0 | T1 | T2 | S0 | S1 | A0 | A1 | A2 | A3 | A4 | A5 | A6 | A7
| S2 | S3 | S4 | S5 | S6 | S7 | S8 | S9 | S10 | S11 | T3 | T4 | T5 | T6.

#[global] Instance reg_eq_dec : EqDecision reg.
Proof. solve_decision. Defined.

Inductive csr :=
| Sstatus | Sie | Stvec | Sscratch | Sepc | Scause | Stval | Satp | Stimecmp | Time
| Mhartid | Mstatus | Mepc | Medeleg | Mideleg | Mie | Menvcfg | Mcounteren | Pmpaddr0 | Pmpcfg0.

#[global] Instance csr_eq_dec : EqDecision csr.
Proof. solve_decision. Defined.

Inductive mode := User | Supervisor | Machine.

Record hart := { h_reg : reg -> Z; h_csr : csr -> Z; h_mode : mode; h_pc : Z }.

Definition rget (h : hart) (r : reg) : Z := if decide (r = Zero) then 0 else h_reg h r.
Definition rset (r : reg) (v : Z) (h : hart) : hart :=
  {| h_reg := <[r := v]> (h_reg h); h_csr := h_csr h; h_mode := h_mode h; h_pc := h_pc h |}.
Definition cset (c : csr) (v : Z) (h : hart) : hart :=
  {| h_reg := h_reg h; h_csr := <[c := v]> (h_csr h); h_mode := h_mode h; h_pc := h_pc h |}.
Definition jump (a : Z) (h : hart) : hart :=
  {| h_reg := h_reg h; h_csr := h_csr h; h_mode := h_mode h; h_pc := a |}.
Definition enter (md : mode) (h : hart) : hart :=
  {| h_reg := h_reg h; h_csr := h_csr h; h_mode := md; h_pc := h_pc h |}.

(** ** riscv.h *)

Definition SSTATUS_SPP : Z := Z.shiftl 1 8.
Definition SSTATUS_SPIE : Z := Z.shiftl 1 5.
Definition SSTATUS_UPIE : Z := Z.shiftl 1 4.
Definition SSTATUS_SIE : Z := Z.shiftl 1 1.
Definition SSTATUS_UIE : Z := Z.shiftl 1 0.

(** [x & b], [x | b] and [x & ~b] for a bit mask. *)
Definition has (x b : Z) : bool := nz (Z.land x b).
Definition set_bits (b x : Z) : Z := Z.lor x b.
Definition clear_bits (b x : Z) : Z := Z.land x (Z.lnot b).

(** ** Instructions *)

Inductive instr :=
| Sd (rs : reg) (off : Z) (base : reg)
| Ld (rd : reg) (off : Z) (base : reg)
| Li (rd : reg) (v : Z)
| Addi (rd rs : reg) (v : Z)
| Add (rd r1 r2 : reg)
| Mul (rd r1 r2 : reg)
| Csrw (c : csr) (rs : reg)
| Csrr (rd : reg) (c : csr)
| SfenceVma
| Jalr (rs : reg) (next : Z)
| Call (target next : Z)
| Ret
| Sret.

(** The physical address of [va] for an access by supervisor code that needs
    the permission [bit]: with satp 0 there is no translation, and with Sv39 the
    page table translates; supervisor code may not touch user pages.  Only
    addresses below MAXVA, the half of the address space the kernel uses, are given a meaning. *)
Definition xlate (m : mem) (satp va bit : Z) : option Z :=
  if satp =? 0 then Some va
  else if negb (Z.shiftr satp 60 =? 8) || (MAXVA <=? va) then None
  else
    match pt_lookup m (Z.shiftl (Z.land satp (Z.ones 44)) 12) va with
    | Some pte =>
        if has pte bit && negb (has pte PTE_U) then Some (PTE2PA pte + va mod PGSIZE) else None
    | None => None
    end.

(** sret *)
Definition sret (h : hart) : hart :=
  let st := h_csr h Sstatus in
  let st1 := if has st SSTATUS_SPIE then set_bits SSTATUS_SIE st else clear_bits SSTATUS_SIE st in
  enter (if has st SSTATUS_SPP then Supervisor else User)
    (jump (h_csr h Sepc) (cset Sstatus (clear_bits SSTATUS_SPP (set_bits SSTATUS_SPIE st1)) h)).

(** What the hart does on an exception, an interrupt or an ecall, with all of
    them delegated to supervisor mode. *)
Definition trap_entry (cause tval : Z) (h : hart) : hart :=
  let st := h_csr h Sstatus in
  let st1 := if has st SSTATUS_SIE then set_bits SSTATUS_SPIE st else clear_bits SSTATUS_SPIE st in
  let st2 := clear_bits SSTATUS_SIE st1 in
  let st3 := match h_mode h with User => clear_bits SSTATUS_SPP st2 | _ => set_bits SSTATUS_SPP st2 end in
  enter Supervisor (jump (h_csr h Stvec)
    (cset Sepc (h_pc h) (cset Scause cause (cset Stval tval (cset Sstatus st3 h))))).

Definition exec (i : instr) (h : hart) (m : mem) : option (hart * mem) :=
  match i with
  | Sd rs off base =>
      let va := u64 (rget h base + off) in
      if negb (va mod 8 =? 0) then None
      else pa ← xlate m (h_csr h Satp) va PTE_W; Some (h, store64 m pa (rget h rs))
  | Ld rd off base =>
      let va := u64 (rget h base + off) in
      if negb (va mod 8 =? 0) then None
      else pa ← xlate m (h_csr h Satp) va PTE_R; Some (rset rd (load64 m pa) h, m)
  | Li rd v => Some (rset rd v h, m)
  | Addi rd rs v => Some (rset rd (u64 (rget h rs + v)) h, m)
  | Add rd r1 r2 => Some (rset rd (u64 (rget h r1 + rget h r2)) h, m)
  | Mul rd r1 r2 => Some (rset rd (u64 (rget h r1 * rget h r2)) h, m)
  | Csrw c rs => Some (cset c (rget h rs) h, m)
  | Csrr rd c => Some (rset rd (h_csr h c) h, m)
  | SfenceVma => Some (h, m)
  | Jalr rs next => Some (rset Ra next (jump (rget h rs) h), m)
  | Call target next => Some (rset Ra next (jump target h), m)
  | Ret => Some (jump (rget h Ra) h, m)
  | Sret => Some (sret h, m)
  end.

(** Run straight-line code that lies in the page at virtual address [page],
    which must be the physical page [ppage] for every instruction. *)
Fixpoint run (page ppage : Z) (code : list instr) (h : hart) (m : mem) : option (hart * mem) :=
  match code with
  | [] => Some (h, m)
  | i :: code =>
      if decide (xlate m (h_csr h Satp) page PTE_X = Some ppage)
      then hm ← exec i h m; run page ppage code hm.1 hm.2
      else None
  end.

(** ** trampoline.S *)

Section trampoline.
Context `{KernelText}.

Definition uservec : list instr :=
  [Csrw Sscratch A0; Li A0 TRAPFRAME;
   Sd Ra 40 A0; Sd Sp 48 A0; Sd Gp 56 A0; Sd Tp 64 A0; Sd T0 72 A0; Sd T1 80 A0; Sd T2 88 A0; Sd S0 96 A0;
   Sd S1 104 A0; Sd A1 120 A0; Sd A2 128 A0; Sd A3 136 A0; Sd A4 144 A0; Sd A5 152 A0; Sd A6 160 A0; Sd A7 168 A0;
   Sd S2 176 A0; Sd S3 184 A0; Sd S4 192 A0; Sd S5 200 A0; Sd S6 208 A0; Sd S7 216 A0; Sd S8 224 A0; Sd S9 232 A0;
   Sd S10 240 A0; Sd S11 248 A0; Sd T3 256 A0; Sd T4 264 A0; Sd T5 272 A0; Sd T6 280 A0;
   Csrr T0 Sscratch; Sd T0 112 A0;
   Ld Sp 8 A0; Ld Tp 32 A0; Ld T0 16 A0; Ld T1 0 A0;
   SfenceVma; Csrw Satp T1; SfenceVma;
   Jalr T0 (TRAMPOLINE + userret_off)].

Definition userret : list instr :=
  [SfenceVma; Csrw Satp A0; SfenceVma; Li A0 TRAPFRAME;
   Ld Ra 40 A0; Ld Sp 48 A0; Ld Gp 56 A0; Ld Tp 64 A0; Ld T0 72 A0; Ld T1 80 A0; Ld T2 88 A0; Ld S0 96 A0;
   Ld S1 104 A0; Ld A1 120 A0; Ld A2 128 A0; Ld A3 136 A0; Ld A4 144 A0; Ld A5 152 A0; Ld A6 160 A0; Ld A7 168 A0;
   Ld S2 176 A0; Ld S3 184 A0; Ld S4 192 A0; Ld S5 200 A0; Ld S6 208 A0; Ld S7 216 A0; Ld S8 224 A0; Ld S9 232 A0;
   Ld S10 240 A0; Ld S11 248 A0; Ld T3 256 A0; Ld T4 264 A0; Ld T5 272 A0; Ld T6 280 A0;
   Ld A0 112 A0; Sret].
End trampoline.

(** ** kernelvec.S *)

(** Up to the call of kerneltrap, and after it. *)
Definition kernelvec_entry (kerneltrap next : Z) : list instr :=
  [Addi Sp Sp (-256);
   Sd Ra 0 Sp; Sd Gp 16 Sp; Sd Tp 24 Sp; Sd T0 32 Sp; Sd T1 40 Sp; Sd T2 48 Sp; Sd A0 72 Sp; Sd A1 80 Sp;
   Sd A2 88 Sp; Sd A3 96 Sp; Sd A4 104 Sp; Sd A5 112 Sp; Sd A6 120 Sp; Sd A7 128 Sp; Sd T3 216 Sp; Sd T4 224 Sp;
   Sd T5 232 Sp; Sd T6 240 Sp;
   Call kerneltrap next].

Definition kernelvec_exit : list instr :=
  [Ld Ra 0 Sp; Ld Gp 16 Sp; Ld T0 32 Sp; Ld T1 40 Sp; Ld T2 48 Sp; Ld A0 72 Sp; Ld A1 80 Sp; Ld A2 88 Sp;
   Ld A3 96 Sp; Ld A4 104 Sp; Ld A5 112 Sp; Ld A6 120 Sp; Ld A7 128 Sp; Ld T3 216 Sp; Ld T4 224 Sp; Ld T5 232 Sp;
   Ld T6 240 Sp;
   Addi Sp Sp 256; Sret].

(** ** swtch.S *)

Definition swtch : list instr :=
  [Sd Ra 0 A0; Sd Sp 8 A0; Sd S0 16 A0; Sd S1 24 A0; Sd S2 32 A0; Sd S3 40 A0; Sd S4 48 A0; Sd S5 56 A0;
   Sd S6 64 A0; Sd S7 72 A0; Sd S8 80 A0; Sd S9 88 A0; Sd S10 96 A0; Sd S11 104 A0;
   Ld Ra 0 A1; Ld Sp 8 A1; Ld S0 16 A1; Ld S1 24 A1; Ld S2 32 A1; Ld S3 40 A1; Ld S4 48 A1; Ld S5 56 A1;
   Ld S6 64 A1; Ld S7 72 A1; Ld S8 80 A1; Ld S9 88 A1; Ld S10 96 A1; Ld S11 104 A1;
   Ret].

(** ** entry.S *)

Definition entry (stack0 start spin : Z) : list instr :=
  [Li Sp stack0; Li A0 (1024 * 4); Csrr A1 Mhartid; Addi A1 A1 1; Mul A0 A0 A1; Add Sp Sp A0; Call start spin].

(** ** Bits of a status register *)

Lemma has_set b x : b <> 0 -> has (set_bits b x) b = true.
Proof.
  intros Hb. unfold has, set_bits. replace (Z.land (Z.lor x b) b) with b; [by apply nz_true|].
  apply Z.bits_inj'. intros n _. rewrite Z.land_spec, Z.lor_spec. by destruct (Z.testbit x n), (Z.testbit b n).
Qed.

Lemma has_clear b x : has (clear_bits b x) b = false.
Proof.
  unfold has, clear_bits. replace (Z.land (Z.land x (Z.lnot b)) b) with 0; [done|].
  apply Z.bits_inj'. intros n Hn. rewrite Z.bits_0, !Z.land_spec, Z.lnot_spec by done. by destruct (Z.testbit x n), (Z.testbit b n).
Qed.

Lemma land_disjoint b c n : Z.land b c = 0 -> Z.testbit b n && Z.testbit c n = false.
Proof. intros H. by rewrite <-Z.land_spec, H, Z.bits_0. Qed.

Lemma has_set_other b c x : Z.land b c = 0 -> has (set_bits b x) c = has x c.
Proof.
  intros H. unfold has, set_bits. f_equal. apply Z.bits_inj'. intros n _. rewrite !Z.land_spec, Z.lor_spec.
  pose proof (land_disjoint b c n H). by destruct (Z.testbit x n), (Z.testbit b n), (Z.testbit c n).
Qed.

Lemma has_clear_other b c x : Z.land b c = 0 -> has (clear_bits b x) c = has x c.
Proof.
  intros H. unfold has, clear_bits. f_equal. apply Z.bits_inj'. intros n Hn. rewrite !Z.land_spec, Z.lnot_spec by done.
  pose proof (land_disjoint b c n H). by destruct (Z.testbit x n), (Z.testbit b n), (Z.testbit c n).
Qed.

(** ** Runs of stores and loads *)

Definition stores (base : reg) (l : list (reg * Z)) : list instr := (fun ro => Sd ro.1 ro.2 base) <$> l.
Definition loads (base : reg) (l : list (reg * Z)) : list instr := (fun ro => Ld ro.1 ro.2 base) <$> l.

Fixpoint put_regs (h : hart) (l : list (reg * Z)) (pa : Z) (m : mem) : mem :=
  match l with
  | [] => m
  | (r, o) :: l => put_regs h l pa (store64 m (pa + o) (rget h r))
  end.

Fixpoint get_regs (l : list (reg * Z)) (pa : Z) (m : mem) (h : hart) : hart :=
  match l with
  | [] => h
  | (r, o) :: l => get_regs l pa m (rset r (load64 m (pa + o)) h)
  end.

(** Offsets of aligned words in the [n] bytes of a structure. *)
Definition words (n : Z) (l : list (reg * Z)) : Prop := Forall (fun ro => 0 <= ro.2 /\ ro.2 + 8 <= n /\ ro.2 mod 8 = 0) l.

(** The [n] bytes at [va] are the [n] bytes at [pa], with permission [bit],
    whatever is in the bytes [lo, hi). *)
Definition stable (lo hi satp va pa n bit : Z) (m : mem) : Prop :=
  forall m', (forall x, x < lo \/ hi <= x -> mget m' x = mget m x) ->
  forall off, 0 <= off < n -> xlate m' satp (va + off) bit = Some (pa + off).

Lemma stable_same lo hi satp va pa n bit m m' :
  (forall x, x < lo \/ hi <= x -> mget m' x = mget m x) -> stable lo hi satp va pa n bit m -> stable lo hi satp va pa n bit m'.
Proof. intros Hs Hst m2 H2. apply Hst. intros x Hx. by rewrite H2, Hs. Qed.

Lemma stable_at lo hi satp va pa n bit m off :
  stable lo hi satp va pa n bit m -> 0 <= off < n -> xlate m satp (va + off) bit = Some (pa + off).
Proof. intros Hs. by apply Hs. Qed.

Lemma run_app page ppage c1 c2 h m h' m' :
  run page ppage c1 h m = Some (h', m') -> run page ppage (c1 ++ c2) h m = run page ppage c2 h' m'.
Proof.
  revert h m. induction c1 as [|i c1 IH]; intros h m; simpl; [by intros [= -> ->]|]. case_decide; [|done].
  destruct (exec i h m) as [[h1 m1]|]; simpl; [apply IH|done].
Qed.

Lemma run_cons page ppage i code h m h' m' :
  xlate m (h_csr h Satp) page PTE_X = Some ppage -> exec i h m = Some (h', m') ->
  run page ppage (i :: code) h m = run page ppage code h' m'.
Proof. intros Hx He. simpl. rewrite decide_True by done. by rewrite He. Qed.

Section words.
Context (page ppage : Z) (base : reg) (va pa n : Z).
Hypothesis Hva : 0 <= va /\ va + n <= 2 ^ 64 /\ va mod 8 = 0.

Lemma word_va h o : rget h base = va -> 0 <= o /\ o + 8 <= n /\ o mod 8 = 0 ->
  u64 (rget h base + o) = va + o /\ (va + o) mod 8 = 0.
Proof using Hva. intros -> Ho. unfold u64. rewrite Z.mod_small by lia. split; [done|]. Z.to_euclidean_division_equations. lia. Qed.

Lemma run_stores l h m :
  rget h base = va -> words n l ->
  stable pa (pa + n) (h_csr h Satp) va pa n PTE_W m -> stable pa (pa + n) (h_csr h Satp) page ppage 1 PTE_X m ->
  run page ppage (stores base l) h m = Some (h, put_regs h l pa m).
Proof using Hva.
  intros Hb. revert m. induction l as [|[r o] l IH]; intros m Hw Hs Hx; [done|].
  apply Forall_cons in Hw as [Ho Hw]. simpl in Ho. destruct (word_va h o Hb Ho) as [Ev Ea].
  change (stores base ((r, o) :: l)) with (Sd r o base :: stores base l).
  assert (Hm : forall x, x < pa \/ pa + n <= x -> mget (store64 m (pa + o) (rget h r)) x = mget m x)
    by (intros x Hx'; apply mget_store_out; simpl; lia).
  erewrite run_cons; [apply IH; [done|by eapply stable_same|by eapply stable_same]| |].
  - rewrite <-(Z.add_0_r page), <-(Z.add_0_r ppage). eapply stable_at; [done|lia].
  - unfold exec. rewrite Ev, Ea. simpl. rewrite (stable_at _ _ _ _ _ _ _ _ _ Hs) by lia. done.
Qed.

Lemma run_loads l h m :
  rget h base = va -> base <> Zero -> words n l -> base ∉ l.*1 ->
  (forall off, 0 <= off < n -> xlate m (h_csr h Satp) (va + off) PTE_R = Some (pa + off)) ->
  xlate m (h_csr h Satp) page PTE_X = Some ppage ->
  run page ppage (loads base l) h m = Some (get_regs l pa m h, m).
Proof using Hva.
  intros Hb Hz. revert h Hb. induction l as [|[r o] l IH]; intros h Hb Hw Hn Hs Hx; [done|].
  apply Forall_cons in Hw as [Ho Hw]. simpl in Ho. destruct (word_va h o Hb Ho) as [Ev Ea].
  rewrite fmap_cons, not_elem_of_cons in Hn. destruct Hn as [Hr Hn]. simpl in Hr.
  change (loads base ((r, o) :: l)) with (Ld r o base :: loads base l).
  erewrite run_cons; [apply IH; [|done..]|done|].
  - rewrite <-Hb. unfold rget. case_decide; [done|]. simpl. by rewrite fn_lookup_insert_ne.
  - unfold exec. rewrite Ev, Ea. simpl. rewrite Hs by lia. done.
Qed.
End words.

(** What the stores leave in memory. *)
Lemma put_regs_out h l pa m n x :
  words n l -> x < pa \/ pa + n <= x -> mget (put_regs h l pa m) x = mget m x.
Proof.
  revert m. induction l as [|[r o] l IH]; intros m Hw Hx; simpl; [done|]. apply Forall_cons in Hw as [Ho Hw].
  simpl in Ho. rewrite IH by done. apply mget_store_out. simpl. lia.
Qed.

Lemma put_regs_other h l pa m n o :
  words n l -> o mod 8 = 0 -> o ∉ l.*2 -> load64 (put_regs h l pa m) (pa + o) = load64 m (pa + o).
Proof.
  intros Hw Ho. revert m. induction l as [|[r o'] l IH]; intros m Hn; simpl; [done|].
  apply Forall_cons in Hw as [Ho' Hw]. rewrite fmap_cons, not_elem_of_cons in Hn. destruct Hn as [Hne Hn]. simpl in *.
  rewrite IH by done. apply load_store_disjoint. simpl. Z.to_euclidean_division_equations. lia.
Qed.

Lemma put_regs_load h l pa m n r o :
  words n l -> NoDup l.*2 -> (r, o) ∈ l -> 0 <= rget h r < 2 ^ 64 -> load64 (put_regs h l pa m) (pa + o) = rget h r.
Proof.
  intros Hw Hnd Hin Hr. revert m. induction l as [|[r' o'] l IH]; intros m; [by apply elem_of_nil in Hin|].
  rewrite fmap_cons, NoDup_cons in Hnd. destruct Hnd as [Hni Hnd]. apply Forall_cons in Hw as [Ho' Hw]. simpl in *.
  apply elem_of_cons in Hin as [[= <- <-]|Hin]; [|by apply IH].
  rewrite (put_regs_other _ _ _ _ n) by (done || apply Ho'). by apply load64_store64.
Qed.

(** What the loads leave in the registers. *)
Lemma get_regs_csr l pa m h : h_csr (get_regs l pa m h) = h_csr h /\ h_mode (get_regs l pa m h) = h_mode h /\
  h_pc (get_regs l pa m h) = h_pc h.
Proof. revert h. induction l as [|[r o] l IH]; intros h; simpl; [done|]. apply (IH (rset _ _ h)). Qed.

Lemma get_regs_other l pa m h r : r ∉ l.*1 -> h_reg (get_regs l pa m h) r = h_reg h r.
Proof.
  revert h. induction l as [|[r' o] l IH]; intros h Hn; simpl; [done|].
  rewrite fmap_cons, not_elem_of_cons in Hn. destruct Hn as [Hne Hn]. simpl in Hne.
  rewrite IH by done. simpl. by rewrite fn_lookup_insert_ne.
Qed.

Lemma get_regs_load l pa m h r o :
  NoDup l.*1 -> (r, o) ∈ l -> h_reg (get_regs l pa m h) r = load64 m (pa + o).
Proof.
  revert h. induction l as [|[r' o'] l IH]; intros h Hnd Hin; [by apply elem_of_nil in Hin|].
  rewrite fmap_cons, NoDup_cons in Hnd. destruct Hnd as [Hni Hnd]. simpl in *.
  apply elem_of_cons in Hin as [[= <- <-]|Hin]; [|by apply IH]. rewrite get_regs_other by done. simpl.
  by rewrite fn_lookup_insert.
Qed.

(** ** The trampoline *)

(** Where struct trapframe has the user registers other than a0. *)
Definition tf_words : list (reg * Z) :=
  [(Ra, 40); (Sp, 48); (Gp, 56); (Tp, 64); (T0, 72); (T1, 80); (T2, 88); (S0, 96); (S1, 104); (A1, 120); (A2, 128);
   (A3, 136); (A4, 144); (A5, 152); (A6, 160); (A7, 168); (S2, 176); (S3, 184); (S4, 192); (S5, 200); (S6, 208);
   (S7, 216); (S8, 224); (S9, 232); (S10, 240); (S11, 248); (T3, 256); (T4, 264); (T5, 272); (T6, 280)].

(** Where it has each of them, a0 included. *)
Definition tf_slots : list (reg * Z) := (A0, 112) :: tf_words.

Definition wf_regs (h : hart) : Prop := forall r, r <> Zero -> 0 <= h_reg h r < 2 ^ 64.

Lemma rget_range h r : wf_regs h -> 0 <= rget h r < 2 ^ 64.
Proof. intros Hw. unfold rget. case_decide; [lia|by apply Hw]. Qed.

Lemma tf_words_ok : words PGSIZE tf_words.
Proof. unfold words. repeat constructor; by vm_compute. Qed.

Lemma tf_words_offsets : NoDup tf_words.*2.
Proof. apply (bool_decide_unpack _). by vm_compute. Qed.

Lemma tf_words_regs : NoDup tf_words.*1.
Proof. apply (bool_decide_unpack _). by vm_compute. Qed.

Lemma tf_slots_all r : r <> Zero -> exists o, (r, o) ∈ tf_slots.
Proof.
  intros Hr. assert (Hin : r ∈ tf_slots.*1).
  { destruct r; first [done|apply (bool_decide_unpack _); by vm_compute]. }
  apply list_elem_of_fmap in Hin as ([r' o] & -> & Hin). by exists o.
Qed.

Section trampoline.
Context `{KernelLayout} `{KernelText} (tf : Z).

(** A page table under which the trampoline runs, whatever the trapframe
    page holds, and the part of it that only user page tables have. *)
Definition has_trampoline (satp : Z) (m : mem) : Prop := stable tf (tf + PGSIZE) satp TRAMPOLINE trampoline 1 PTE_X m.
Definition has_trapframe (satp : Z) (m : mem) : Prop :=
  stable tf (tf + PGSIZE) satp TRAPFRAME tf PGSIZE PTE_W m /\ stable tf (tf + PGSIZE) satp TRAPFRAME tf PGSIZE PTE_R m.

Lemma tf_va : 0 <= TRAPFRAME /\ TRAPFRAME + PGSIZE <= 2 ^ 64 /\ TRAPFRAME mod 8 = 0.
Proof. by vm_compute. Qed.

Lemma fetch satp m : has_trampoline satp m -> xlate m satp TRAMPOLINE PTE_X = Some trampoline.
Proof. intros Hs. rewrite <-(Z.add_0_r TRAMPOLINE), <-(Z.add_0_r trampoline). eapply stable_at; [done|lia]. Qed.

(** The state in which the trampoline calls usertrap. *)
Record in_kernel (h : hart) (m : mem) (h' : hart) (m' : mem) : Prop := {
  ik_saved : forall r o, (r, o) ∈ tf_slots -> load64 m' (tf + o) = rget h r;
  ik_kernel : forall o, o ∈ [0; 8; 16; 24; 32] -> load64 m' (tf + o) = load64 m (tf + o);
  ik_frame : forall x, x < tf \/ tf + PGSIZE <= x -> mget m' x = mget m x;
  ik_sp : rget h' Sp = load64 m (tf + 8);
  ik_tp : rget h' Tp = load64 m (tf + 32);
  ik_pc : h_pc h' = load64 m (tf + 16);
  ik_satp : h_csr h' Satp = load64 m tf;
  ik_ra : rget h' Ra = TRAMPOLINE + userret_off;
  ik_mode : h_mode h' = h_mode h;
  ik_csr : forall c, c <> Satp -> c <> Sscratch -> h_csr h' c = h_csr h c
}.

Section uservec.
Context (h : hart) (m : mem).
Hypothesis Hwf : wf_regs h.
Hypothesis Hframe : has_trapframe (h_csr h Satp) m.
Hypothesis Hx : has_trampoline (h_csr h Satp) m.
Hypothesis Hk : has_trampoline (load64 m tf) m.

Let h1 := rset A0 TRAPFRAME (cset Sscratch (rget h A0) h).
Let m1 := put_regs h1 tf_words tf m.
Let h2 := rset T0 (rget h A0) h1.
Let m2 := put_regs h2 [(T0, 112)] tf m1.
Let ls := [(Sp, 8); (Tp, 32); (T0, 16); (T1, 0)].
Let h3 := get_regs ls tf m2 h2.
Let h4 := rset Ra (TRAMPOLINE + userret_off) (jump (rget h3 T0) (cset Satp (rget h3 T1) h3)).

Lemma uv_words : words PGSIZE [(T0, 112)] /\ words PGSIZE ls.
Proof. split; unfold ls; repeat constructor; by vm_compute. Qed.

Lemma uv_out x : x < tf \/ tf + PGSIZE <= x -> mget m1 x = mget m x /\ mget m2 x = mget m x.
Proof.
  intros Ho. assert (E : mget m1 x = mget m x) by (apply (put_regs_out _ _ _ _ PGSIZE); [apply tf_words_ok|done]).
  split; [done|]. rewrite <-E. apply (put_regs_out _ _ _ _ PGSIZE); [apply uv_words|done].
Qed.

Lemma uv_kernel o : o ∈ [0; 8; 16; 24; 32] -> load64 m2 (tf + o) = load64 m (tf + o).
Proof.
  intros Ho. assert (H8 : o mod 8 = 0 /\ o ∉ tf_words.*2 /\ o ∉ [(T0, 112)].*2).
  { rewrite !elem_of_cons, elem_of_nil in Ho.
    repeat (destruct Ho as [->|Ho]; [split_and!; [done|apply (bool_decide_unpack _); by vm_compute..]|]). done. }
  destruct H8 as (H8 & Hn1 & Hn2). unfold m2, m1.
  rewrite (put_regs_other _ _ _ _ PGSIZE) by (apply uv_words || done).
  by rewrite (put_regs_other _ _ _ _ PGSIZE) by (apply tf_words_ok || done).
Qed.

Lemma uv_satp : rget h3 T1 = load64 m tf.
Proof.
  unfold h3, rget. rewrite decide_False by done. rewrite (get_regs_load _ _ _ _ T1 0).
  - rewrite uv_kernel by (apply elem_of_cons; by left). by rewrite Z.add_0_r.
  - apply (bool_decide_unpack _). by vm_compute.
  - apply (bool_decide_unpack _). by vm_compute.
Qed.

Lemma uv_run : run TRAMPOLINE trampoline uservec h m = Some (h4, m2).
Proof using Hframe Hx Hk.
  destruct Hframe as [Hw Hr]. destruct uv_words as [Hw2 Hw3]. pose proof tf_va as Hva.
  assert (Hs1 : forall satp va pa n bit, stable tf (tf + PGSIZE) satp va pa n bit m -> stable tf (tf + PGSIZE) satp va pa n bit m1).
  { intros. eapply stable_same; [|done]. intros x Hxx. apply (proj1 (uv_out x Hxx)). }
  assert (Hs2 : forall satp va pa n bit, stable tf (tf + PGSIZE) satp va pa n bit m -> stable tf (tf + PGSIZE) satp va pa n bit m2).
  { intros. eapply stable_same; [|done]. intros x Hxx. apply (proj2 (uv_out x Hxx)). }
  change uservec with (Csrw Sscratch A0 :: Li A0 TRAPFRAME :: stores A0 tf_words ++ Csrr T0 Sscratch :: stores A0 [(T0, 112)] ++
    loads A0 ls ++ [SfenceVma; Csrw Satp T1; SfenceVma; Jalr T0 (TRAMPOLINE + userret_off)]).
  rewrite (run_cons _ _ _ _ _ _ (cset Sscratch (rget h A0) h) m); [|by apply fetch|done].
  rewrite (run_cons _ _ _ _ _ _ h1 m); [|by apply (fetch (h_csr h Satp))|done].
  rewrite (run_app _ _ _ _ _ _ h1 m1) by (apply (run_stores _ _ A0 TRAPFRAME tf PGSIZE); done || apply tf_words_ok).
  rewrite (run_cons _ _ _ _ _ _ h2 m1); [|by apply (fetch (h_csr h Satp)), Hs1|done].
  rewrite (run_app _ _ _ _ _ _ h2 m2) by (apply (run_stores _ _ A0 TRAPFRAME tf PGSIZE); done || by apply Hs1).
  rewrite (run_app _ _ _ _ _ _ h3 m2).
  - assert (E3 : h_csr h3 Satp = h_csr h Satp) by (unfold h3; by rewrite (proj1 (get_regs_csr ls tf m2 h2))).
    rewrite (run_cons _ _ _ _ _ _ h3 m2); [|rewrite E3; by apply fetch, Hs2|done].
    rewrite (run_cons _ _ _ _ _ _ (cset Satp (rget h3 T1) h3) m2); [|rewrite E3; by apply fetch, Hs2|done].
    rewrite (run_cons _ _ _ _ _ _ (cset Satp (rget h3 T1) h3) m2); [|simpl; rewrite uv_satp; by apply fetch, Hs2|done].
    rewrite (run_cons _ _ _ _ _ _ h4 m2); [done|simpl; rewrite uv_satp; by apply fetch, Hs2|done].
  - apply (run_loads _ _ A0 TRAPFRAME tf PGSIZE); try done.
    + apply (bool_decide_unpack _). by vm_compute.
    + intros off Hoff. eapply stable_at; [by apply Hs2|done].
    + by apply (fetch (h_csr h Satp)), Hs2.
Qed.

Lemma uv_load r o : (r, o) ∈ ls -> h_reg h3 r = load64 m (tf + o).
Proof.
  intros Hin. unfold h3. rewrite (get_regs_load _ _ _ _ r o); [|apply (bool_decide_unpack _); by vm_compute|done].
  apply uv_kernel. unfold ls in Hin. rewrite !elem_of_cons, elem_of_nil in Hin.
  repeat (destruct Hin as [[= -> ->]|Hin]; [apply (bool_decide_unpack _); by vm_compute|]). done.
Qed.

Lemma uv_saved r o : (r, o) ∈ tf_slots -> load64 m2 (tf + o) = rget h r.
Proof using Hwf.
  pose proof (rget_range h r Hwf) as Hrr. intros [[= -> ->]|Hin]%elem_of_cons.
  - unfold m2. rewrite (put_regs_load _ _ _ _ PGSIZE T0 112); [done|apply uv_words|apply NoDup_singleton| |].
    + by apply list_elem_of_singleton.
    + exact (rget_range h A0 Hwf).
  - assert (Er : rget h1 r = rget h r).
    { unfold rget, h1. case_decide; [done|]. simpl. rewrite fn_lookup_insert_ne; [done|]. intros <-.
      assert (Hf : A0 ∉ tf_words.*1) by (apply (bool_decide_unpack _); by vm_compute).
      apply Hf, list_elem_of_fmap. by exists (A0, o). }
    assert (Ho : o mod 8 = 0) by (pose proof tf_words_ok as Hw; unfold words in Hw; rewrite Forall_forall in Hw; apply (Hw (r, o) Hin)).
    unfold m2. rewrite (put_regs_other _ _ _ _ PGSIZE); [|apply uv_words|done|].
    + unfold m1. rewrite (put_regs_load _ _ _ _ PGSIZE r o); [done|apply tf_words_ok|apply tf_words_offsets|done|by rewrite Er].
    + intros ->%list_elem_of_singleton. assert (Hf : 112 ∉ tf_words.*2) by (apply (bool_decide_unpack _); by vm_compute).
      apply Hf, list_elem_of_fmap. by exists (r, 112).
Qed.

Lemma uservec_run : exists h' m', run TRAMPOLINE trampoline uservec h m = Some (h', m') /\ in_kernel h m h' m'.
Proof using Hwf Hframe Hx Hk.
  exists h4, m2. split; [by apply uv_run|]. destruct (get_regs_csr ls tf m2 h2) as (Ec & Em & _).
  assert (Hl : forall r o, (r, o) ∈ ls -> rget h4 r = load64 m (tf + o)).
  { intros r o Hin. rewrite <-(uv_load r o Hin). unfold ls in Hin. rewrite !elem_of_cons, elem_of_nil in Hin.
    repeat (destruct Hin as [[= -> ->]|Hin]; [done|]). done. }
  split.
  - apply uv_saved.
  - apply uv_kernel.
  - intros x Ho. apply (proj2 (uv_out x Ho)).
  - apply Hl. apply (bool_decide_unpack _). by vm_compute.
  - apply Hl. apply (bool_decide_unpack _). by vm_compute.
  - simpl. apply (uv_load T0 16). apply (bool_decide_unpack _). by vm_compute.
  - simpl. apply uv_satp.
  - done.
  - unfold h4. simpl. apply Em.
  - intros c H1 H2. change (h_csr h4) with (<[Satp := rget h3 T1]> (h_csr h3)). rewrite fn_lookup_insert_ne by congruence.
    unfold h3. rewrite Ec. change (h_csr h2) with (<[Sscratch := rget h A0]> (h_csr h)). by rewrite fn_lookup_insert_ne by congruence.
Qed.
End uservec.

(** The way back. *)
Lemma userret_run h m :
  let satp := rget h A0 in
  has_trampoline (h_csr h Satp) m -> has_trampoline satp m -> has_trapframe satp m ->
  exists h', run TRAMPOLINE trampoline userret h m = Some (h', m) /\
    (forall r o, (r, o) ∈ tf_slots -> h_reg h' r = load64 m (tf + o)) /\
    h_pc h' = h_csr h Sepc /\ h_mode h' = (if has (h_csr h Sstatus) SSTATUS_SPP then Supervisor else User) /\
    h_csr h' Satp = satp /\ h_csr h' Sstatus = h_csr (sret h) Sstatus /\
    forall c, c <> Satp -> c <> Sstatus -> h_csr h' c = h_csr h c.
Proof.
  intros satp Hx Hu [_ Hr]. set (h1 := rset A0 TRAPFRAME (cset Satp satp h)). set (h2 := get_regs tf_words tf m h1).
  set (h3 := rset A0 (load64 m (tf + 112)) h2). destruct (get_regs_csr tf_words tf m h1) as (Ec & Em & _).
  assert (E2 : h_csr h2 = h_csr (cset Satp satp h)) by (unfold h2; by rewrite Ec).
  assert (Hf : A0 ∉ tf_words.*1) by (apply (bool_decide_unpack _); by vm_compute).
  assert (Hb : rget h2 A0 = TRAPFRAME).
  { unfold rget, h2. rewrite decide_False by done. rewrite get_regs_other by done. done. }
  exists (sret h3). split.
  - change userret with (SfenceVma :: Csrw Satp A0 :: SfenceVma :: Li A0 TRAPFRAME :: loads A0 tf_words ++ [Ld A0 112 A0; Sret]).
    rewrite (run_cons _ _ _ _ _ _ h m); [|by apply fetch|done].
    rewrite (run_cons _ _ _ _ _ _ (cset Satp satp h) m); [|by apply fetch|done].
    rewrite (run_cons _ _ _ _ _ _ (cset Satp satp h) m); [|by apply fetch|done].
    rewrite (run_cons _ _ _ _ _ _ h1 m); [|by apply fetch|done].
    rewrite (run_app _ _ _ _ _ _ h2 m).
    + rewrite (run_cons _ _ _ _ _ _ h3 m); [|rewrite E2; by apply fetch|].
      * rewrite (run_cons _ _ _ _ _ _ (sret h3) m); [done|change (h_csr h3) with (h_csr h2); rewrite E2; by apply fetch|done].
      * unfold exec. rewrite Hb, E2. change (u64 (TRAPFRAME + 112)) with (TRAPFRAME + 112).
        change (negb ((TRAPFRAME + 112) mod 8 =? 0)) with false. cbv iota. simpl h_csr.
        rewrite (stable_at _ _ _ _ _ _ _ _ _ Hr) by (unfold PGSIZE; lia). done.
    + apply (run_loads _ _ A0 TRAPFRAME tf PGSIZE); try done; [apply tf_words_ok| |by apply (fetch satp)].
      intros off Hoff. by eapply stable_at.
  - assert (Ec3 : h_csr h3 = h_csr (cset Satp satp h)) by done. split_and!.
    + intros r o [[= -> ->]|Hin]%elem_of_cons; [done|].
      change (h_reg (sret h3)) with (<[A0 := load64 m (tf + 112)]> (h_reg h2)). rewrite fn_lookup_insert_ne.
      * apply get_regs_load; [apply tf_words_regs|done].
      * intros <-. apply Hf, list_elem_of_fmap. by exists (A0, o).
    + change (h_csr h2 Sepc = h_csr h Sepc). by rewrite E2.
    + change (h_mode (sret h3)) with (if has (h_csr h2 Sstatus) SSTATUS_SPP then Supervisor else User). by rewrite E2.
    + change (h_csr (sret h3) Satp) with (h_csr h2 Satp). by rewrite E2.
    + unfold sret. change (h_csr h3) with (h_csr h2). rewrite E2. done.
    + intros c H1 H2. unfold sret. cbn [h_csr enter jump cset]. rewrite fn_lookup_insert_ne by congruence.
      change (h_csr h3) with (h_csr h2). rewrite E2. cbn [h_csr cset]. by rewrite fn_lookup_insert_ne by congruence.
Qed.
End trampoline.

(** ** Context switches *)

(** struct context *)
Definition ctx_words : list (reg * Z) :=
  [(Ra, 0); (Sp, 8); (S0, 16); (S1, 24); (S2, 32); (S3, 40); (S4, 48); (S5, 56); (S6, 64); (S7, 72); (S8, 80);
   (S9, 88); (S10, 96); (S11, 104)].

Definition sizeof_context : Z := 112.

Lemma ctx_words_ok : words sizeof_context ctx_words.
Proof. unfold words. repeat constructor; by vm_compute. Qed.

Lemma ctx_offsets : NoDup ctx_words.*2.
Proof. apply (bool_decide_unpack _). by vm_compute. Qed.

Lemma ctx_regs : NoDup ctx_words.*1.
Proof. apply (bool_decide_unpack _). by vm_compute. Qed.

(** The address of a struct context: aligned, and not across the end of memory. *)
Definition ctx_at (c : Z) : Prop := 0 <= c /\ c + sizeof_context <= 2 ^ 64 /\ c mod 8 = 0.

(** The kernel's page table maps the code and the two contexts, and is not
    stored in the one that is written. *)
Record swtch_maps (page ppage satp old opa new npa : Z) (m : mem) : Prop := {
  sm_code : stable opa (opa + sizeof_context) satp page ppage 1 PTE_X m;
  sm_old : stable opa (opa + sizeof_context) satp old opa sizeof_context PTE_W m;
  sm_new : stable opa (opa + sizeof_context) satp new npa sizeof_context PTE_R m
}.

Lemma swtch_run page ppage h m opa npa :
  ctx_at (rget h A0) -> ctx_at (rget h A1) -> swtch_maps page ppage (h_csr h Satp) (rget h A0) opa (rget h A1) npa m ->
  exists h', run page ppage swtch h m = Some (h', put_regs h ctx_words opa m) /\
    (forall r o, (r, o) ∈ ctx_words -> h_reg h' r = load64 (put_regs h ctx_words opa m) (npa + o)) /\
    h_pc h' = load64 (put_regs h ctx_words opa m) npa.
Proof.
  intros Ho Hn [Hx Hw Hr]. set (m1 := put_regs h ctx_words opa m). set (h1 := get_regs ctx_words npa m1 h).
  assert (Hs : forall x, x < opa \/ opa + sizeof_context <= x -> mget m1 x = mget m x)
    by (intros x Hxx; by apply (put_regs_out _ _ _ _ sizeof_context); [apply ctx_words_ok|]).
  assert (Hf : forall satp', satp' = h_csr h Satp -> xlate m1 satp' page PTE_X = Some ppage).
  { intros ? ->. rewrite <-(Z.add_0_r page), <-(Z.add_0_r ppage). eapply stable_at; [by eapply stable_same|lia]. }
  assert (Hl : forall r o, (r, o) ∈ ctx_words -> h_reg h1 r = load64 m1 (npa + o)).
  { intros r o Hin. apply get_regs_load; [apply ctx_regs|done]. }
  assert (Hra : rget h1 Ra = load64 m1 npa).
  { unfold rget. rewrite decide_False by done. rewrite (Hl Ra 0), Z.add_0_r; [done|].
    apply (bool_decide_unpack _). by vm_compute. }
  exists (jump (rget h1 Ra) h1). split; [|split; [done|done]].
  change swtch with (stores A0 ctx_words ++ loads A1 ctx_words ++ [Ret]).
  rewrite (run_app _ _ _ _ _ _ h m1); [|by apply (run_stores _ _ A0 (rget h A0) opa sizeof_context); [..|apply ctx_words_ok| |]].
  rewrite (run_app _ _ _ _ _ _ h1 m1).
  - rewrite (run_cons _ _ _ _ _ _ (jump (rget h1 Ra) h1) m1); [done| |done].
    apply Hf. unfold h1. by rewrite (proj1 (get_regs_csr ctx_words npa m1 h)).
  - apply (run_loads _ _ A1 (rget h A1) npa sizeof_context); try done; [apply ctx_words_ok| | |by apply Hf].
    + apply (bool_decide_unpack _). by vm_compute.
    + intros off Hoff. eapply stable_at; [by eapply stable_same|done].
Qed.

(** C30: a thread that is switched away from comes back as it left.  It
    calls [swtch(a, b)] and its registers are saved in [a]; whenever later, on any hart, in any
    memory that still has the bytes of [a], a call [swtch(c, a)] is made, that
    call returns to where the thread's own call had to return, with the
    thread's stack pointer and all the registers a C caller expects to survive a call. *)
Theorem swtch_resumes page ppage h m pa npa h2 m2 c :
  wf_regs h -> ctx_at (rget h A0) -> ctx_at (rget h A1) ->
  swtch_maps page ppage (h_csr h Satp) (rget h A0) pa (rget h A1) npa m ->
  ctx_at (rget h2 A0) -> ctx_at (rget h2 A1) ->
  swtch_maps page ppage (h_csr h2 Satp) (rget h2 A0) c (rget h2 A1) pa m2 ->
  pa + sizeof_context <= c \/ c + sizeof_context <= pa ->
  exists h1 m1, run page ppage swtch h m = Some (h1, m1) /\
    ((forall x, pa <= x < pa + sizeof_context -> mget m2 x = mget m1 x) ->
     exists h3 m3, run page ppage swtch h2 m2 = Some (h3, m3) /\ h_pc h3 = rget h Ra /\
       forall r, r ∈ [Sp; S0; S1; S2; S3; S4; S5; S6; S7; S8; S9; S10; S11] -> h_reg h3 r = h_reg h r).
Proof.
  intros Hwf Ho Hn Hm Ho2 Hn2 Hm2 Hd. destruct (swtch_run page ppage h m pa npa Ho Hn Hm) as (h1 & E1 & _ & _).
  exists h1, (put_regs h ctx_words pa m). split; [done|]. intros Hkeep.
  destruct (swtch_run page ppage h2 m2 c pa Ho2 Hn2 Hm2) as (h3 & E3 & Hl & Hpc). exists h3, (put_regs h2 ctx_words c m2).
  assert (Hb : forall r o, (r, o) ∈ ctx_words -> load64 (put_regs h2 ctx_words c m2) (pa + o) = rget h r).
  { intros r o Hin. pose proof ctx_words_ok as Hw. unfold words in Hw. rewrite Forall_forall in Hw.
    pose proof (Hw _ Hin) as Hwo. simpl in Hwo.
    rewrite <-(put_regs_load h ctx_words pa m sizeof_context r o ctx_words_ok ctx_offsets Hin (rget_range h r Hwf)).
    apply load_ext. intros x Hx. change (Z.of_nat 8) with 8 in Hx. rewrite (put_regs_out _ _ _ _ sizeof_context); [|apply ctx_words_ok|lia].
    apply Hkeep. lia. }
  split_and!; [done| |].
  - rewrite Hpc, <-(Hb Ra 0), Z.add_0_r; [done|]. apply (bool_decide_unpack _). by vm_compute.
  - intros r Hr. assert (Hin : r ∈ ctx_words.*1 /\ r <> Zero).
    { rewrite !elem_of_cons, elem_of_nil in Hr.
      repeat (destruct Hr as [->|Hr]; [split; [apply (bool_decide_unpack _); by vm_compute|done]|]). done. }
    destruct Hin as [([r' o] & -> & Hin)%list_elem_of_fmap Hz]. simpl in *. rewrite (Hl r' o Hin), (Hb r' o Hin).
    unfold rget. by rewrite decide_False.
Qed.

(** ** Traps in the kernel *)

Definition kv_words : list (reg * Z) :=
  [(Ra, 0); (Gp, 16); (T0, 32); (T1, 40); (T2, 48); (A0, 72); (A1, 80); (A2, 88); (A3, 96); (A4, 104); (A5, 112);
   (A6, 120); (A7, 128); (T3, 216); (T4, 224); (T5, 232); (T6, 240)].

(** As they are stored, with tp. *)
Definition kv_saved : list (reg * Z) := (Ra, 0) :: (Gp, 16) :: (Tp, 24) :: drop 2 kv_words.

(** What the RISC-V calling convention has a function preserve. *)
Definition callee_saved : list reg := [Sp; S0; S1; S2; S3; S4; S5; S6; S7; S8; S9; S10; S11].

Lemma kv_words_ok : words 256 kv_words /\ words 256 kv_saved.
Proof. split; unfold words; repeat constructor; by vm_compute. Qed.

Lemma kv_split r : r <> Zero -> r <> Tp -> (exists o, (r, o) ∈ kv_words /\ (r, o) ∈ kv_saved) \/ r ∈ callee_saved.
Proof.
  intros Hz Ht. destruct (decide (r ∈ callee_saved)) as [Hc|Hc]; [by right|left].
  assert (Hin : r ∈ kv_words.*1).
  { destruct r; first [done|apply (bool_decide_unpack _); by vm_compute|exfalso; apply Hc, (bool_decide_unpack _); by vm_compute]. }
  apply list_elem_of_fmap in Hin as ([r' o] & -> & Hin). exists o. split; [done|].
  assert (Hall : forallb (fun ro => bool_decide (ro ∈ kv_saved)) kv_words = true) by (by vm_compute).
  rewrite forallb_forall in Hall. apply list_elem_of_In, Hall in Hin. by apply bool_decide_eq_true in Hin.
Qed.

Lemma kernelvec_entry_run page ppage ktrap next h m pa :
  let frame := rget h Sp - 256 in
  wf_regs h -> 0 <= frame -> frame mod 8 = 0 ->
  stable pa (pa + 256) (h_csr h Satp) frame pa 256 PTE_W m -> stable pa (pa + 256) (h_csr h Satp) page ppage 1 PTE_X m ->
  let h1 := rset Sp frame h in
  run page ppage (kernelvec_entry ktrap next) h m = Some (rset Ra next (jump ktrap h1), put_regs h1 kv_saved pa m).
Proof.
  intros frame Hwf H0 Hal Hw Hx h1. destruct kv_words_ok as [_ Ks]. pose proof (rget_range h Sp Hwf) as Hsp.
  set (m1 := put_regs h1 kv_saved pa m).
  assert (Hf : forall m', (forall x, x < pa \/ pa + 256 <= x -> mget m' x = mget m x) ->
    xlate m' (h_csr h Satp) page PTE_X = Some ppage).
  { intros m' Hm'. rewrite <-(Z.add_0_r page), <-(Z.add_0_r ppage). apply (Hx m' Hm'). lia. }
  change (kernelvec_entry ktrap next) with (Addi Sp Sp (-256) :: stores Sp kv_saved ++ [Call ktrap next]).
  rewrite (run_cons _ _ _ _ _ _ h1 m); [|by apply Hf|].
  - rewrite (run_app _ _ _ _ _ _ h1 m1); [|apply (run_stores _ _ Sp frame pa 256); (done || unfold frame in *; lia)].
    rewrite (run_cons _ _ _ _ _ _ (rset Ra next (jump ktrap h1)) m1); [done| |done].
    apply Hf. intros x Hxx. by apply (put_regs_out _ _ _ _ 256).
  - unfold exec. do 3 f_equal. unfold u64. rewrite Z.mod_small; unfold frame in *; lia.
Qed.

Lemma kernelvec_exit_run page ppage h m pa frame :
  0 <= frame -> frame + 256 < 2 ^ 64 -> frame mod 8 = 0 -> rget h Sp = frame ->
  stable 0 0 (h_csr h Satp) frame pa 256 PTE_R m -> stable 0 0 (h_csr h Satp) page ppage 1 PTE_X m ->
  run page ppage kernelvec_exit h m = Some (sret (rset Sp (frame + 256) (get_regs kv_words pa m h)), m).
Proof.
  intros H0 Hhi Hal Esp Hr Hx. destruct kv_words_ok as [Kw _]. set (h3 := get_regs kv_words pa m h).
  set (h4 := rset Sp (frame + 256) h3). assert (Ec : h_csr h3 = h_csr h) by apply get_regs_csr.
  assert (Hf : xlate m (h_csr h Satp) page PTE_X = Some ppage).
  { rewrite <-(Z.add_0_r page), <-(Z.add_0_r ppage). eapply stable_at; [done|lia]. }
  assert (Hns : Sp ∉ kv_words.*1) by (apply (bool_decide_unpack _); by vm_compute).
  assert (E4 : rget h3 Sp = frame).
  { rewrite <-Esp. unfold rget. rewrite !decide_False by done. unfold h3. by rewrite get_regs_other. }
  change kernelvec_exit with (loads Sp kv_words ++ [Addi Sp Sp 256; Sret]). rewrite (run_app _ _ _ _ _ _ h3 m).
  - rewrite (run_cons _ _ _ _ _ _ h4 m); [|by rewrite Ec|].
    + rewrite (run_cons _ _ _ _ _ _ (sret h4) m); [done|by change (h_csr h4) with (h_csr h3); rewrite Ec|done].
    + unfold exec. rewrite E4. unfold h4. do 3 f_equal. unfold u64. rewrite Z.mod_small; lia.
  - apply (run_loads _ _ Sp frame pa 256); try done; [lia|]. intros off Hoff. by eapply stable_at.
Qed.

(** The registers after the exit code. *)
Lemma kernelvec_regs h h2 m m2 pa ra r :
  let frame := rget h Sp - 256 in
  let h1 := rset Sp frame h in
  wf_regs h -> (forall r, r ∈ callee_saved -> h_reg h2 r = h_reg (rset Ra ra h1) r) ->
  (forall x, pa <= x < pa + 256 -> mget m2 x = mget (put_regs h1 kv_saved pa m) x) ->
  r <> Zero -> r <> Tp -> h_reg (rset Sp (frame + 256) (get_regs kv_words pa m2 h2)) r = h_reg h r.
Proof.
  intros frame h1 Hwf Hcs Hkeep Hz Ht. destruct kv_words_ok as [Kw Ks].
  change (h_reg (rset Sp (frame + 256) (get_regs kv_words pa m2 h2))) with (<[Sp := frame + 256]> (h_reg (get_regs kv_words pa m2 h2))).
  destruct (decide (r = Sp)) as [->|Hne].
  { rewrite fn_lookup_insert. unfold frame, rget. rewrite decide_False by done. lia. }
  rewrite fn_lookup_insert_ne by done.
  assert (Er : h_reg h1 r = h_reg h r) by (simpl; by rewrite fn_lookup_insert_ne).
  destruct (kv_split r Hz Ht) as [(o & Hin & Hin')|Hc].
  - rewrite (get_regs_load _ _ _ _ r o); [|apply (bool_decide_unpack _); by vm_compute|done].
    unfold words in Ks. rewrite Forall_forall in Ks. pose proof (Ks _ Hin') as Hwo. simpl in Hwo.
    assert (Er' : rget h1 r = h_reg h r) by (unfold rget; by rewrite decide_False).
    rewrite <-Er', <-(put_regs_load h1 kv_saved pa m 256 r o);
      [|by apply kv_words_ok|apply (bool_decide_unpack _); by vm_compute|done|rewrite Er'; by apply Hwf].
    apply load_ext. intros x Hx. change (Z.of_nat 8) with 8 in Hx. apply Hkeep. lia.
  - rewrite get_regs_other.
    + rewrite (Hcs r Hc), <-Er. change (h_reg (rset Ra ra h1)) with (<[Ra := ra]> (h_reg h1)).
      rewrite fn_lookup_insert_ne; [done|]. intros <-. revert Hc. apply (bool_decide_unpack (Ra ∉ callee_saved)). by vm_compute.
    + intros Hin. revert Hc. assert (Hall : forallb (fun r => bool_decide (r ∉ callee_saved)) kv_words.*1 = true) by (by vm_compute).
      rewrite forallb_forall in Hall. apply list_elem_of_In, Hall in Hin. by apply bool_decide_eq_true in Hin.
Qed.

(** C31: an interrupt of kernel code is invisible to that code.  kernelvec.S
    saves the caller-saved registers in 256 bytes below the stack pointer and calls
    kerneltrap.  If kerneltrap, as the calling convention has it, returns with
    the callee-saved registers and the saved frame as they were, then the exit code restores every
    register except tp, which keeps the number of the hart that now
    runs the thread, and continues at sepc in the mode sstatus names. *)
Theorem kernelvec_transparent page ppage ktrap next h m pa h2 m2 :
  let frame := rget h Sp - 256 in
  wf_regs h -> 0 <= frame -> frame mod 8 = 0 ->
  stable pa (pa + 256) (h_csr h Satp) frame pa 256 PTE_W m ->
  stable pa (pa + 256) (h_csr h Satp) page ppage 1 PTE_X m ->
  stable 0 0 (h_csr h2 Satp) frame pa 256 PTE_R m2 ->
  stable 0 0 (h_csr h2 Satp) page ppage 1 PTE_X m2 ->
  exists h1 m1, run page ppage (kernelvec_entry ktrap next) h m = Some (h1, m1) /\ h_pc h1 = ktrap /\ h_reg h1 Ra = next /\
    ((forall r, r ∈ callee_saved -> h_reg h2 r = h_reg h1 r) ->
     (forall x, pa <= x < pa + 256 -> mget m2 x = mget m1 x) ->
     exists h3, run page ppage kernelvec_exit h2 m2 = Some (h3, m2) /\
       (forall r, r <> Zero -> r <> Tp -> h_reg h3 r = h_reg h r) /\ h_reg h3 Tp = h_reg h2 Tp /\
       h_pc h3 = h_csr h2 Sepc /\ h_mode h3 = (if has (h_csr h2 Sstatus) SSTATUS_SPP then Supervisor else User)).
Proof.
  intros frame Hwf H0 Hal Hw Hx Hr2 Hx2. pose proof (rget_range h Sp Hwf) as Hsp.
  eexists _, _. split_and!; [by apply kernelvec_entry_run|done|done|]. intros Hcs Hkeep.
  assert (Esp : rget h2 Sp = frame).
  { unfold rget. rewrite decide_False by done. rewrite (Hcs Sp); [done|]. unfold callee_saved. apply elem_of_cons. by left. }
  set (h3 := get_regs kv_words pa m2 h2). assert (Ec : h_csr h3 = h_csr h2) by apply get_regs_csr.
  exists (sret (rset Sp (frame + 256) h3)). split_and!.
  - apply kernelvec_exit_run; (done || unfold frame in *; lia).
  - intros r Hz Ht. exact (kernelvec_regs h h2 m m2 pa next r Hwf Hcs Hkeep Hz Ht).
  - change (h_reg h3 Tp = h_reg h2 Tp). apply get_regs_other. apply (bool_decide_unpack _). by vm_compute.
  - change (h_csr h3 Sepc = h_csr h2 Sepc). by rewrite Ec.
  - unfold sret. cbn [h_mode enter]. change (h_csr (rset Sp (frame + 256) h3)) with (h_csr h3). by rewrite Ec.
Qed.

(** ** Page tables in memory *)

Lemma PX_offset k va off : 0 <= k -> va mod PGSIZE = 0 -> 0 <= off < PGSIZE -> PX k (va + off) = PX k va.
Proof.
  intros Hk Hal Hoff. unfold PGSIZE in *. rewrite !PX_eq by done. f_equal.
  rewrite Z.pow_add_r, <-!Z.div_div by lia. change (2 ^ 12) with 4096. f_equal.
  Z.to_euclidean_division_equations. lia.
Qed.

(** Three entries outside [lo, hi) that lead from the root to a page. *)
Lemma stable_walk lo hi satp root va pa n bit m v2 v1 v0 :
  satp <> 0 -> Z.shiftr satp 60 = 8 -> Z.shiftl (Z.land satp (Z.ones 44)) 12 = root ->
  va mod PGSIZE = 0 -> va + PGSIZE <= MAXVA -> n <= PGSIZE ->
  let away a := a + 8 <= lo \/ hi <= a in
  let a2 := root + 8 * PX 2 va in
  let a1 := PTE2PA v2 + 8 * PX 1 va in
  let a0 := PTE2PA v1 + 8 * PX 0 va in
  load64 m a2 = v2 -> load64 m a1 = v1 -> load64 m a0 = v0 -> away a2 -> away a1 -> away a0 ->
  has v2 PTE_V = true -> has v1 PTE_V = true -> has v0 PTE_V = true ->
  has v0 bit = true -> has v0 PTE_U = false -> PTE2PA v0 = pa -> stable lo hi satp va pa n bit m.
Proof.
  intros Hs H60 Hroot Hal Hmax Hn away a2 a1 a0 E2 E1 E0 W2 W1 W0 V2 V1 V0 Hbit Hu Hpa m' Hm off Hoff.
  assert (Hl : forall a, away a -> load64 m' a = load64 m a).
  { intros a Ha. apply load_ext. intros x Hx. apply Hm. unfold away in Ha. simpl in Hx. lia. }
  assert (Hlk : pt_lookup m' root (va + off) = Some v0).
  { unfold pt_lookup. cbn [lk]. rewrite !PX_offset by (unfold PGSIZE in *; lia || done).
    change (Z.of_nat 2) with 2. change (Z.of_nat 1) with 1. change (Z.of_nat 0) with 0. fold a2. rewrite Hl, E2 by done.
    change (nz (Z.land v2 PTE_V)) with (has v2 PTE_V). rewrite V2. fold a1. rewrite Hl, E1 by done.
    change (nz (Z.land v1 PTE_V)) with (has v1 PTE_V). rewrite V1. fold a0. rewrite Hl, E0 by done.
    change (nz (Z.land v0 PTE_V)) with (has v0 PTE_V). by rewrite V0. }
  unfold xlate. rewrite (proj2 (Z.eqb_neq _ _)) by done. rewrite H60, (proj2 (Z.leb_gt _ _)) by lia. simpl.
  rewrite Hroot, Hlk, Hbit, Hu. simpl. rewrite Hpa. do 2 f_equal. unfold PGSIZE in *. Z.to_euclidean_division_equations. lia.
Qed.

(** ** Witnesses *)

Lemma some_pair {A B} (a a' : A) (b b' : B) : Some (a, b) = Some (a', b') -> a = a' /\ b = b'.
Proof. by intros [= -> ->]. Qed.

Lemma stable_bare lo hi va n bit m : stable lo hi 0 va va n bit m.
Proof. by intros m' _ off Hoff. Qed.

(** A hart without paging. *)
Definition bare (f : reg -> Z) : hart := {| h_reg := f; h_csr := fun _ => 0; h_mode := Supervisor; h_pc := 0x80000000 |}.

Lemma swtch_resumes_witness :
  let h := bare (fun r => match r with A0 => 4096 | A1 => 8192 | Ra => 77 | S3 => 33 | _ => 5 end) in
  let h2 := bare (fun r => match r with A0 => 12288 | A1 => 4096 | Ra => 78 | S3 => 44 | _ => 6 end) in
  let m2 := put_regs h ctx_words 4096 ∅ in
  exists h3 m3, run 0 0 swtch h2 m2 = Some (h3, m3) /\ h_pc h3 = 77 /\ h_reg h3 S3 = 33.
Proof.
  intros h h2 m2. assert (Em2 : m2 = put_regs h ctx_words 4096 ∅) by reflexivity. clearbody m2.
  assert (Hm : forall pa pb m, swtch_maps 0 0 0 pa pa pb pb m) by (intros; split; apply stable_bare).
  assert (Hc : forall c, c = 4096 \/ c = 8192 \/ c = 12288 -> ctx_at c)
    by (intros c [->|[->| ->]]; unfold ctx_at, sizeof_context; split_and!; done).
  destruct (swtch_resumes 0 0 h ∅ 4096 8192 h2 m2 12288) as (h1 & m1 & E1 & Hb).
  - intros r _. destruct r; simpl; lia.
  - apply Hc; auto.
  - apply Hc; auto.
  - apply Hm.
  - apply Hc; auto.
  - apply Hc; auto.
  - apply Hm.
  - unfold sizeof_context. lia.
  - assert (Em : m1 = m2).
    { destruct (swtch_run 0 0 h ∅ 4096 8192) as (h' & E & _); [apply Hc; auto|apply Hc; auto|apply Hm|].
      rewrite E in E1. apply some_pair in E1 as [_ E1]. rewrite <-E1. symmetry. exact Em2. }
    destruct Hb as (h3 & m3 & E3 & Hpc & Hr); [intros x _; by rewrite Em|].
    exists h3, m3. split_and!; [done|exact Hpc|]. rewrite Hr; [done|]. rewrite !elem_of_cons. tauto.
Defined.

Lemma kernelvec_transparent_witness :
  let h := bare (fun r => match r with Sp => 8192 | A0 => 21 | S3 => 33 | Tp => 1 | _ => 5 end) in
  let h1 := rset Sp 7936 h in
  let h2 := {| h_reg := fun r => match r with Tp => 2 | A0 => 99 | T3 => 98 | Sp => 7936 | _ => h_reg h1 r end;
               h_csr := <[Sepc := 0x80000500]> (<[Sstatus := SSTATUS_SPP]> (fun _ => 0)); h_mode := Supervisor; h_pc := 0 |} in
  let m2 := put_regs h1 kv_saved 7936 ∅ in
  exists h3, run 0 0 kernelvec_exit h2 m2 = Some (h3, m2) /\ h_reg h3 A0 = 21 /\ h_reg h3 T3 = 5 /\ h_reg h3 Tp = 2 /\
    h_pc h3 = 0x80000500.
Proof.
  intros h h1 h2 m2. assert (Em2 : m2 = put_regs h1 kv_saved 7936 ∅) by reflexivity. clearbody m2. assert (Hwf : wf_regs h) by (intros r _; destruct r; simpl; lia).
  destruct (kernelvec_transparent 0 0 0x80000600 0x80000700 h ∅ 7936 h2 m2) as (h' & m1 & E1 & _ & _ & Hb);
    [done|by vm_compute|by vm_compute|apply stable_bare|apply stable_bare|apply stable_bare|apply stable_bare|].
  pose proof (kernelvec_entry_run 0 0 0x80000600 0x80000700 h ∅ 7936 Hwf ltac:(by vm_compute) ltac:(by vm_compute)
    (stable_bare _ _ _ _ _ _) (stable_bare _ _ _ _ _ _)) as E2. rewrite E1 in E2. apply some_pair in E2 as [Eh Em].
  destruct Hb as (h3 & E3 & Hr & Ht & Hpc & _).
  - intros r Hr. rewrite Eh. unfold callee_saved in Hr. rewrite !elem_of_cons, elem_of_nil in Hr.
    repeat (destruct Hr as [->|Hr]; [reflexivity|]). destruct Hr.
  - intros x _. rewrite Em, Em2. reflexivity.
  - exists h3. split_and!; [exact E3| | |exact Ht|exact Hpc]; rewrite Hr by done; reflexivity.
Defined.
