(* ===== verification/Trap.v ===== *)
(** * Trap: kernel/trap.c, kernel/plic.c, kernel/start.c and the rest of the
    way from power-on to user space

    The state is the kernel of Kernel.v, the disk of Virtio.v, the control
    registers of the hart that runs, and the accesses to the interrupt
    controller and the UART.  What the hardware answers is a parameter. *)

From S2P Require Import Prelude Riscv CString Kalloc Vm PageTable Sleeplock Layout Bio BioSpec Virtio.
From S2P Require Import Log Pipe Kernel Fs Proc Printf Console File Process Syscall Asm.

Inductive mmio := MRead (a : Z) | MWrite (a v : Z).

Record tstate (C : Type) := {
  x_k : kernel C;
  x_d : vdisk;
  x_h : hart;
  x_mmio : list mmio;
  x_first : bool;
  x_kpgtbl : Z
}.

Arguments x_k {C}.
Arguments x_d {C}.
Arguments x_h {C}.
Arguments x_mmio {C}.
Arguments x_first {C}.
Arguments x_kpgtbl {C}.

(** ** riscv.h, machine mode *)

Definition MSTATUS_MPP_MASK : Z := Z.shiftl 3 11.
Definition MSTATUS_MPP_S : Z := Z.shiftl 1 11.
Definition SIE_SEIE : Z := Z.shiftl 1 9.
Definition SIE_STIE : Z := Z.shiftl 1 5.
Definition MIE_STIE : Z := Z.shiftl 1 5.

(** ** UART registers *)

Definition IER : Z := 1.
Definition FCR : Z := 2.
Definition LCR : Z := 3.
Definition IER_RX_ENABLE : Z := Z.shiftl 1 0.
Definition IER_TX_ENABLE : Z := Z.shiftl 1 1.
Definition FCR_FIFO_ENABLE : Z := Z.shiftl 1 0.
Definition FCR_FIFO_CLEAR : Z := Z.shiftl 3 1.
Definition LCR_EIGHT_BITS : Z := Z.shiftl 3 0.
Definition LCR_BAUD_LATCH : Z := Z.shiftl 1 7.

Section trap.
Context `{KernelLayout} `{KernelText} {C : Type} `{BlockCache C}.
Local Abbreviation K := (kernel C).
Local Abbreviation T := (tstate C).

Definition set_x_k (v : K) (s : T) : T :=
  {| x_k := v; x_d := x_d s; x_h := x_h s; x_mmio := x_mmio s; x_first := x_first s; x_kpgtbl := x_kpgtbl s |}.
Definition set_x_d (v : vdisk) (s : T) : T :=
  {| x_k := x_k s; x_d := v; x_h := x_h s; x_mmio := x_mmio s; x_first := x_first s; x_kpgtbl := x_kpgtbl s |}.
Definition set_x_h (v : hart) (s : T) : T :=
  {| x_k := x_k s; x_d := x_d s; x_h := v; x_mmio := x_mmio s; x_first := x_first s; x_kpgtbl := x_kpgtbl s |}.
Definition set_x_mmio (v : list mmio) (s : T) : T :=
  {| x_k := x_k s; x_d := x_d s; x_h := x_h s; x_mmio := v; x_first := x_first s; x_kpgtbl := x_kpgtbl s |}.
Definition set_x_first (v : bool) (s : T) : T :=
  {| x_k := x_k s; x_d := x_d s; x_h := x_h s; x_mmio := x_mmio s; x_first := v; x_kpgtbl := x_kpgtbl s |}.
Definition set_x_kpgtbl (v : Z) (s : T) : T :=
  {| x_k := x_k s; x_d := x_d s; x_h := x_h s; x_mmio := x_mmio s; x_first := x_first s; x_kpgtbl := v |}.

Definition kz {A} (m : M K A) : M T A := zoom x_k set_x_k m.
Definition dz {A} (m : M vdisk A) : M T A := zoom x_d set_x_d m.

(** The r_* and w_* functions of riscv.h. *)
Definition r_csr (c : csr) : M T Z := gets (fun s => h_csr (x_h s) c).
Definition w_csr (c : csr) (v : Z) : M T unit := modify (fun s => set_x_h (cset c v (x_h s)) s).
Definition r_tp : M T Z := gets (fun s => rget (x_h s) Tp).
Definition w_tp (v : Z) : M T unit := modify (fun s => set_x_h (rset Tp v (x_h s)) s).

Definition intr_on : M T unit := x ← r_csr Sstatus; w_csr Sstatus (Z.lor x SSTATUS_SIE).
Definition intr_off : M T unit := x ← r_csr Sstatus; w_csr Sstatus (clear_bits SSTATUS_SIE x).
Definition intr_get : M T bool := x ← r_csr Sstatus; mret (has x SSTATUS_SIE).

Definition cpuid : M T Z := id ← r_tp; mret (i32 id).

(** ** plic.c *)

Context (device : list mmio -> Z -> Z).

Definition mmio_read (a : Z) : M T Z :=
  s ← get;
  modify (set_x_mmio (MRead a :: x_mmio s));;
  mret (device (x_mmio s) a).
Definition mmio_write (a v : Z) : M T unit := modify (fun s => set_x_mmio (MWrite a v :: x_mmio s) s).

Definition plicinit : M T unit :=
  mmio_write (PLIC + UART0_IRQ * 4) 1;;
  mmio_write (PLIC + VIRTIO0_IRQ * 4) 1.

Definition plicinithart : M T unit :=
  hart ← cpuid;
  mmio_write (PLIC_SENABLE hart) (Z.lor (Z.shiftl 1 UART0_IRQ) (Z.shiftl 1 VIRTIO0_IRQ));;
  mmio_write (PLIC_SPRIORITY hart) 0.

Definition plic_claim : M T Z :=
  hart ← cpuid;
  irq ← mmio_read (PLIC_SCLAIM hart);
  mret (i32 irq).

Definition plic_complete (irq : Z) : M T unit :=
  hart ← cpuid;
  mmio_write (PLIC_SCLAIM hart) irq.

(** ** uart.c *)

Definition uartinit : M T unit :=
  mmio_write (UART0 + IER) 0;;
  mmio_write (UART0 + LCR) LCR_BAUD_LATCH;;
  mmio_write (UART0 + 0) 3;;
  mmio_write (UART0 + 1) 0;;
  mmio_write (UART0 + LCR) LCR_EIGHT_BITS;;
  mmio_write (UART0 + FCR) (Z.lor FCR_FIFO_ENABLE FCR_FIFO_CLEAR);;
  mmio_write (UART0 + IER) (Z.lor IER_TX_ENABLE IER_RX_ENABLE).

(** ** trap.c *)

(** What the UART has when it interrupts: whether the transmitter is idle, and
    the characters received. *)
Context (uart_state : T -> bool * list byte).

Definition trapinithart : M T unit := w_csr Stvec kernelvec_addr.

Definition clockintr : M T unit :=
  id ← cpuid;
  (if id =? 0 then
     kz (acquire tickslock;;
         modify (fun k => set_ks_ticks (u32 (ks_ticks k + 1)) k);;
         wakeup ticks_chan;;
         release tickslock)
   else mret tt);;
  time ← r_csr Time;
  w_csr Stimecmp (u64 (time + 1000000)).

Definition devintr : M T Z :=
  scause ← r_csr Scause;
  if scause =? 0x8000000000000009 then
    irq ← plic_claim;
    (if irq =? UART0_IRQ then
       s ← get;
       kz (uartintr (uart_state s).1 (uart_state s).2)
     else if irq =? VIRTIO0_IRQ then dz virtio_disk_intr
     else if nz irq then printf "unexpected interrupt"
     else mret tt);;
    (if nz irq then plic_complete irq else mret tt);;
    mret 1
  else if scause =? 0x8000000000000005 then
    clockintr;;
    mret 2
  else mret 0.

Definition prepare_return : M T unit :=
  t ← self;
  intr_off;;
  w_csr Stvec (TRAMPOLINE + uservec_off);;
  satp ← r_csr Satp;
  kz (tf_set tf_kernel_satp satp);;
  p ← kz (proc_of (t_proc t));
  kz (tf_set tf_kernel_sp (p_kstack p + PGSIZE));;
  kz (tf_set tf_kernel_trap usertrap_addr);;
  tp ← r_tp;
  kz (tf_set tf_kernel_hartid tp);;
  x ← r_csr Sstatus;
  w_csr Sstatus (set_bits SSTATUS_SPIE (clear_bits SSTATUS_SPP x));;
  epc ← kz (tf_get tf_epc);
  w_csr Sepc epc.

(** yield() of proc.c: the scheduler makes the process RUNNING again. *)
Definition yield_chan (p : Z) : chan := ("runnable", p).
Definition yield : M K unit :=
  t ← self;
  acquire (proc_lock (t_proc t));;
  set_procs (t_proc t) (set_p_state RUNNABLE);;
  switch (yield_chan (t_proc t));;
  release (proc_lock (t_proc t)).

(** The system call, page fault or interrupt of a user process: [which_dev]. *)
Definition usertrap_handle : M T Z :=
  t ← self;
  scause ← r_csr Scause;
  if scause =? 8 then
    dead ← kz mykilled;
    if (dead : bool) then kz (kexit (-1))
    else
      epc ← kz (tf_get tf_epc);
      kz (tf_set tf_epc (epc + 4));;
      intr_on;;
      kz syscall;;
      mret 0
  else
    which_dev ← devintr;
    if nz which_dev then mret which_dev
    else
      scause ← r_csr Scause;
      stval ← r_csr Stval;
      p ← kz (proc_of (t_proc t));
      r ← (if (scause =? 15) || (scause =? 13) then kz (mz (vmfault (uproc_of p) (p_pagetable p) stval)) else mret 0);
      if nz r then mret which_dev
      else
        printf "usertrap(): unexpected scause";;
        kz (setkilled (t_proc t));;
        mret which_dev.

Definition usertrap : M T Z :=
  t ← self;
  x ← r_csr Sstatus;
  if has x SSTATUS_SPP then panic "usertrap: not from user mode"
  else
    w_csr Stvec kernelvec_addr;;
    epc ← r_csr Sepc;
    kz (tf_set tf_epc epc);;
    which_dev ← usertrap_handle;
    dead ← kz mykilled;
    if (dead : bool) then kz (kexit (-1))
    else
      (if which_dev =? 2 then kz yield else mret tt);;
      prepare_return;;
      p ← kz (proc_of (t_proc t));
      mret (MAKE_SATP (p_pagetable p)).

(** [running] is whether the CPU has a process. *)
Definition kerneltrap (running : bool) : M T unit :=
  sepc ← r_csr Sepc;
  sstatus ← r_csr Sstatus;
  if negb (has sstatus SSTATUS_SPP) then panic "kerneltrap: not from supervisor mode"
  else
    ie ← intr_get;
    if (ie : bool) then panic "kerneltrap: interrupts enabled"
    else
      which_dev ← devintr;
      if which_dev =? 0 then
        printf "scause";;
        panic "kerneltrap"
      else
        (if (which_dev =? 2) && running then kz yield else mret tt);;
        w_csr Sepc sepc;;
        w_csr Sstatus sstatus.

(** forkret() of proc.c, up to the jump to userret, which takes the satp it
    returns; the scheduler's hold on the lock is the caller's. *)
Definition forkret : M T Z :=
  t ← self;
  release (proc_lock (t_proc t));;
  s ← get;
  (if x_first s then
     kz (fsinit ROOTDEV);;
     modify (set_x_first false);;
     r ← kz (kexec (bytes_of "/init") [bytes_of "/init"]);
     kz (tf_set (tf_a 0) r);;
     a0 ← kz (tf_get (tf_a 0));
     if a0 =? u64 (-1) then panic "exec" else mret tt
   else mret tt);;
  prepare_return;;
  p ← kz (proc_of (t_proc t));
  mret (MAKE_SATP (p_pagetable p)).

(** ** One trap, from user space and back *)

(** Run code of the trampoline page. *)
Definition trampoline_run (code : list instr) : M T unit :=
  s ← get;
  match run TRAMPOLINE trampoline code (x_h s) (k_mem (ks_mem (x_k s))) with
  | Some (h, m) => modify (fun s => set_x_h h (set_x_k (set_ks_mem (set_mem m (ks_mem (x_k s))) (x_k s)) s))
  | None => panic "trap in the trampoline"
  end.

(** The hart traps and runs uservec, which must be where stvec points;
    usertrap, a C function, must be where uservec jumps and userret where it returns
    to, with the satp in a0 and anything in the other registers; userret runs. *)
Definition user_trap (cause tval : Z) (clobbered : reg -> Z) : M T unit :=
  modify (fun s => set_x_h (trap_entry cause tval (x_h s)) s);;
  s ← get;
  (if negb (h_pc (x_h s) =? TRAMPOLINE + uservec_off) then panic "stvec" else mret tt);;
  trampoline_run uservec;;
  s ← get;
  (if negb (h_pc (x_h s) =? usertrap_addr) || negb (rget (x_h s) Ra =? TRAMPOLINE + userret_off) then panic "usertrap"
   else mret tt);;
  satp ← usertrap;
  modify (fun s => set_x_h {| h_reg := <[A0 := satp]> clobbered; h_csr := h_csr (x_h s); h_mode := h_mode (x_h s);
                             h_pc := h_pc (x_h s) |} s);;
  trampoline_run userret.

(** ** Lemmas *)

Definition tmem (s : T) : mem := k_mem (ks_mem (x_k s)).
Definition upd_mem (f : mem -> mem) (s : T) : T :=
  set_x_k (set_ks_mem (set_mem (f (tmem s)) (ks_mem (x_k s))) (x_k s)) s.
Definition cur (t : tctx) (s : T) : proc := ks_proc (x_k s) (t_proc t).

Lemma wp_r_csr c (Q : Z -> tctx -> T -> Prop) t s : Q (h_csr (x_h s) c) t s -> wp (r_csr c) Q t s.
Proof. done. Qed.

Lemma wp_w_csr c v (Q : unit -> tctx -> T -> Prop) t s : Q tt t (set_x_h (cset c v (x_h s)) s) -> wp (w_csr c v) Q t s.
Proof. done. Qed.

Lemma wp_tf_set off v (Q : unit -> tctx -> T -> Prop) t s :
  Q tt t (upd_mem (fun m => store64 m (p_trapframe (cur t s) + off) (u64 v)) s) -> wp (kz (tf_set off v)) Q t s.
Proof. done. Qed.

Lemma wp_tf_get off (Q : Z -> tctx -> T -> Prop) t s :
  Q (load64 (tmem s) (p_trapframe (cur t s) + off)) t s -> wp (kz (tf_get off)) Q t s.
Proof. destruct s as [k d h io f pg]. by destruct k. Qed.

Lemma wp_ktf_get off (Q : Z -> tctx -> K -> Prop) t k :
  Q (load64 (k_mem (ks_mem k)) (p_trapframe (ks_proc k (t_proc t)) + off)) t k -> wp (tf_get off) Q t k.
Proof. by destruct k. Qed.

Lemma wp_ktf_set off v (Q : unit -> tctx -> K -> Prop) t k :
  Q tt t (set_ks_mem (set_mem (store64 (k_mem (ks_mem k)) (p_trapframe (ks_proc k (t_proc t)) + off) (u64 v)) (ks_mem k)) k) ->
  wp (tf_set off v) Q t k.
Proof. done. Qed.

Lemma wp_proc_of p (Q : proc -> tctx -> T -> Prop) t s : Q (ks_proc (x_k s) p) t s -> wp (kz (proc_of p)) Q t s.
Proof. by destruct s. Qed.

Lemma wp_kz {A} (m : M K A) Q t s : wp m (fun a t' k => Q a t' (set_x_k k s)) t (x_k s) -> wp (kz m) Q t s.
Proof. apply wp_zoom. Qed.

Ltac tr_step :=
  lazymatch goal with
  | |- wp (r_csr _) _ _ _ => apply wp_r_csr
  | |- wp (w_csr _ _) _ _ _ => apply wp_w_csr
  | |- wp (kz (tf_set _ _)) _ _ _ => apply wp_tf_set
  | |- wp (kz (tf_get _)) _ _ _ => apply wp_tf_get
  | |- wp (kz (proc_of _)) _ _ _ => apply wp_proc_of
  | |- _ => wp_step
  end; cbv beta.
Ltac tr_steps := repeat tr_step.

(** The state [prepare_return] leaves. *)
Definition prepared (t : tctx) (s : T) : T :=
  let tf := p_trapframe (cur t s) in
  let m := tmem s in
  let m := store64 m (tf + tf_kernel_satp) (u64 (h_csr (x_h s) Satp)) in
  let m := store64 m (tf + tf_kernel_sp) (u64 (p_kstack (cur t s) + PGSIZE)) in
  let m := store64 m (tf + tf_kernel_trap) (u64 usertrap_addr) in
  let m := store64 m (tf + tf_kernel_hartid) (u64 (rget (x_h s) Tp)) in
  let st := clear_bits SSTATUS_SIE (h_csr (x_h s) Sstatus) in
  let h := cset Sstatus st (x_h s) in
  let h := cset Stvec (TRAMPOLINE + uservec_off) h in
  let h := cset Sstatus (set_bits SSTATUS_SPIE (clear_bits SSTATUS_SPP st)) h in
  let h := cset Sepc (load64 m (tf + tf_epc)) h in
  set_x_h h (upd_mem (fun _ => m) s).

Lemma prepare_return_wp (Q : unit -> tctx -> T -> Prop) t s : Q tt t (prepared t s) -> wp prepare_return Q t s.
Proof.
  intros HQ. unfold prepare_return, intr_off, r_tp. tr_steps. exact HQ.
Qed.

(** ** System calls *)

Section calls.
Context (tf pt ks : Z).

(** The process of thread [t], as traps from user space need it. *)
Record caller_ok (t : tctx) (k : K) : Prop := {
  co_tf : p_trapframe (ks_proc k (t_proc t)) = tf;
  co_pt : p_pagetable (ks_proc k (t_proc t)) = pt;
  co_alive : p_killed (ks_proc k (t_proc t)) = 0;
  co_frame : has_trapframe tf (MAKE_SATP pt) (k_mem (ks_mem k));
  co_tramp : has_trampoline tf (MAKE_SATP pt) (k_mem (ks_mem k));
  co_kernel : has_trampoline tf ks (k_mem (ks_mem k))
}.

(** [k'] is [k] with other contents of the trapframe page. *)
Definition same_kernel (k k' : K) : Prop :=
  exists m, same_but tf (k_mem (ks_mem k)) m /\ k' = set_ks_mem (set_mem m (ks_mem k)) k.

Definition frame_kept (m m' : mem) : Prop := forall x, tf <= x < tf + sizeof_trapframe -> mget m' x = mget m x.

Lemma has_trapframe_same satp m m' : same_but tf m m' -> has_trapframe tf satp m -> has_trapframe tf satp m'.
Proof. intros Hs [Hw Hr]. split; by eapply stable_same. Qed.

Lemma caller_ok_same t k k' : same_kernel k k' -> caller_ok t k -> caller_ok t k'.
Proof.
  intros (m & Hs & ->) [E1 E2 E3 F1 F2 F3]. split; try done; simpl.
  - by eapply has_trapframe_same.
  - by eapply stable_same.
  - by eapply stable_same.
Qed.

Lemma same_kernel_trans k1 k2 k3 : same_kernel k1 k2 -> same_kernel k2 k3 -> same_kernel k1 k3.
Proof.
  intros (m & Hs & ->) (m' & Hs' & ->). exists m'. split; [by eapply same_but_trans|done].
Qed.

Lemma same_kernel_store off v k :
  0 <= off -> off + 8 <= PGSIZE ->
  same_kernel k (set_ks_mem (set_mem (store64 (k_mem (ks_mem k)) (tf + off) v) (ks_mem k)) k).
Proof. intros Hlo Hhi. eexists. split; [|done]. apply same_but_store64; lia. Qed.

Lemma wp_mykilled (Q : bool -> tctx -> T -> Prop) t s :
  t_held t = [] -> Q (nz (p_killed (cur t s))) t s -> wp (kz mykilled) Q t s.
Proof.
  intros Ht HQ. apply wp_kz. unfold mykilled, killed, proc_of.
  wp_steps; [rewrite Ht; apply not_elem_of_nil|]. destruct s. exact HQ.
Qed.

(** The states of a system call [f]: [k1] when it starts, [k2] when it has
    returned [r]. *)
Context (f : M K Z) (Rf : tctx -> K -> Z -> K -> Prop).
Hypothesis Hf : forall t k1, t_held t = [] -> caller_ok t k1 ->
  wp f (fun r t' k2 => t' = t /\ caller_ok t k2 /\ frame_kept (k_mem (ks_mem k1)) (k_mem (ks_mem k2)) /\ Rf t k1 r k2) t k1.

(** The store of [off] of the trapframe of the running process. *)
Definition tf_store (off v : Z) (s : T) : T := upd_mem (fun m => store64 m (tf + off) (u64 v)) s.

Lemma handle_call_wp t s :
  t_held t = [] -> caller_ok t (x_k s) -> h_csr (x_h s) Scause = 8 ->
  syscalls (i32 (load64 (tmem s) (tf + tf_a 7))) = Some f ->
  let s1 := tf_store tf_epc (load64 (tmem s) (tf + tf_epc) + 4) s in
  let s2 := set_x_h (cset Sstatus (set_bits SSTATUS_SIE (h_csr (x_h s) Sstatus)) (x_h s)) s1 in
  wp usertrap_handle (fun w t' s' => t' = t /\ w = 0 /\ exists r k2, Rf t (x_k s1) r k2 /\ caller_ok t k2 /\
    frame_kept (tmem s1) (k_mem (ks_mem k2)) /\ s' = tf_store (tf_a 0) r (set_x_k k2 s2)) t s.
Proof using Hf.
  intros Ht Hco Hcause Hsys s1 s2. pose proof (co_tf _ _ Hco) as Etf.
  unfold usertrap_handle, intr_on. tr_step. tr_step. tr_step. tr_step. rewrite Hcause. change (8 =? 8) with true. cbv iota.
  tr_step. apply wp_mykilled; [done|]. unfold cur. rewrite (co_alive _ _ Hco). change (nz 0) with false. cbv iota.
  tr_step. tr_step. tr_step. tr_step. tr_step. tr_step. tr_step. tr_step.
  unfold cur. cbn [x_k set_x_h]. rewrite Etf. fold (tf_store tf_epc (load64 (tmem s) (tf + tf_epc) + 4) s). fold s1.
  change (set_x_h _ _) with s2.
  assert (Hco1 : caller_ok t (x_k s1)).
  { eapply caller_ok_same; [|exact Hco]. by apply same_kernel_store. }
  tr_step. apply wp_kz. unfold syscall. tr_step. apply wp_ktf_get. change (x_k s2) with (x_k s1). rewrite (co_tf _ _ Hco1).
  change (k_mem (ks_mem (x_k s1))) with (store64 (tmem s) (tf + tf_epc) (u64 (load64 (tmem s) (tf + tf_epc) + 4))).
  rewrite load_store_disjoint by (unfold tf_a, tf_epc; simpl; lia). rewrite Hsys.
  tr_step. eapply wp_mono; [by apply Hf|]. intros r t' k2 (-> & Hco2 & Hk & HR). apply wp_ktf_set. rewrite (co_tf _ _ Hco2).
  tr_step. split_and!; [done|done|]. exists r, k2. split_and!; done.
Qed.

Lemma usertrap_call_wp t s :
  t_held t = [] -> caller_ok t (x_k s) -> has (h_csr (x_h s) Sstatus) SSTATUS_SPP = false -> h_csr (x_h s) Scause = 8 ->
  syscalls (i32 (load64 (tmem s) (tf + tf_a 7))) = Some f -> 0 <= h_csr (x_h s) Sepc < 2 ^ 64 ->
  let s0 := tf_store tf_epc (h_csr (x_h s) Sepc) (set_x_h (cset Stvec kernelvec_addr (x_h s)) s) in
  let s1 := tf_store tf_epc (h_csr (x_h s) Sepc + 4) s0 in
  let s2 := set_x_h (cset Sstatus (set_bits SSTATUS_SIE (h_csr (x_h s) Sstatus)) (x_h s0)) s1 in
  wp usertrap (fun satp t' s' => t' = t /\ satp = MAKE_SATP pt /\ exists r k2, Rf t (x_k s1) r k2 /\ caller_ok t k2 /\
    frame_kept (tmem s1) (k_mem (ks_mem k2)) /\ s' = prepared t (tf_store (tf_a 0) r (set_x_k k2 s2))) t s.
Proof using Hf.
  intros Ht Hco Hspp Hcause Hsys Hpc s0 s1 s2. pose proof (co_tf _ _ Hco) as Etf.
  unfold usertrap. tr_step. tr_step. tr_step. tr_step. rewrite Hspp. cbv iota.
  tr_step. tr_step. tr_step. tr_step. tr_step. tr_step. unfold cur. cbn [x_k set_x_h]. rewrite Etf.
  change (upd_mem _ _) with s0.
  assert (Hco0 : caller_ok t (x_k s0)) by (eapply caller_ok_same; [|exact Hco]; by apply same_kernel_store).
  assert (Ee : load64 (tmem s0) (tf + tf_epc) = h_csr (x_h s) Sepc).
  { unfold s0, tf_store, tmem, upd_mem. simpl. rewrite load64_store64; unfold u64; rewrite Z.mod_small; lia. }
  tr_step. eapply wp_mono; [apply (handle_call_wp t s0 Ht Hco0)|].
  - done.
  - rewrite <-Hsys. do 2 f_equal. unfold s0, tf_store, tmem, upd_mem. simpl.
    apply load_store_disjoint. unfold tf_a, tf_epc. simpl. lia.
  - rewrite Ee. intros w t' s' (-> & -> & r & k2 & HR & Hco2 & Hk & ->). fold s1.
    change (set_x_h _ s1) with s2. set (s3 := tf_store (tf_a 0) r (set_x_k k2 s2)).
    assert (Hco3 : caller_ok t (x_k s3)) by (eapply caller_ok_same; [|exact Hco2]; by apply same_kernel_store).
    tr_step. apply wp_mykilled; [done|]. unfold cur. rewrite (co_alive _ _ Hco3). change (nz 0) with false. cbv iota.
    change (0 =? 2) with false. cbv iota. tr_step. tr_step. tr_step. apply prepare_return_wp. tr_step. tr_step. tr_step.
    split_and!; [done| |by exists r, k2]. f_equal. exact (co_pt _ _ Hco3).
Qed.

Lemma prepared_load t s o :
  p_trapframe (cur t s) = tf -> o = 24 \/ 40 <= o -> load64 (tmem (prepared t s)) (tf + o) = load64 (tmem s) (tf + o).
Proof.
  intros Etf Ho. unfold prepared, tmem, upd_mem. cbn [x_k set_x_h set_x_k ks_mem set_ks_mem k_mem set_mem]. rewrite Etf.
  unfold tf_kernel_satp, tf_kernel_sp, tf_kernel_trap, tf_kernel_hartid.
  rewrite !load_store_disjoint by (simpl; lia). done.
Qed.

Lemma prepared_same t s : p_trapframe (cur t s) = tf -> same_kernel (x_k s) (x_k (prepared t s)).
Proof.
  intros Etf. eexists. split; [|reflexivity]. rewrite Etf.
  unfold tf_kernel_satp, tf_kernel_sp, tf_kernel_trap, tf_kernel_hartid.
  repeat (eapply same_but_trans; [|apply same_but_store64; unfold PGSIZE; lia]). done.
Qed.

Lemma prepared_sepc t s : p_trapframe (cur t s) = tf -> h_csr (x_h (prepared t s)) Sepc = load64 (tmem s) (tf + 24).
Proof.
  intros Etf. rewrite <-(prepared_load t s 24 Etf) by lia. unfold prepared, tmem, upd_mem. simpl. by rewrite Etf.
Qed.

Lemma prepared_words t s :
  p_trapframe (cur t s) = tf ->
  let m := tmem (prepared t s) in
  load64 m (tf + tf_kernel_satp) = u64 (h_csr (x_h s) Satp) /\ load64 m (tf + tf_kernel_sp) = u64 (p_kstack (cur t s) + PGSIZE) /\
  load64 m (tf + tf_kernel_trap) = u64 usertrap_addr /\ load64 m (tf + tf_kernel_hartid) = u64 (rget (x_h s) Tp).
Proof.
  intros Etf. unfold prepared, tmem, upd_mem. cbn [x_k set_x_h set_x_k ks_mem set_ks_mem k_mem set_mem]. rewrite Etf.
  assert (Hu : forall x, u64 x mod 2 ^ (Z.of_nat 8 * 8) = u64 x) by (intros x; apply Z.mod_mod; lia).
  unfold tf_kernel_satp, tf_kernel_sp, tf_kernel_trap, tf_kernel_hartid.
  split_and!; repeat (rewrite load_store_disjoint by (simpl; lia)); by rewrite load_store, Hu.
Qed.

(** uservec *)
Lemma wp_uservec (Q : unit -> tctx -> T -> Prop) t s :
  wf_regs (x_h s) -> caller_ok t (x_k s) -> h_csr (x_h s) Satp = MAKE_SATP pt -> load64 (tmem s) tf = ks ->
  (forall h m, in_kernel tf (x_h s) (tmem s) h m -> Q tt t (set_x_h h (upd_mem (fun _ => m) s))) ->
  wp (trampoline_run uservec) Q t s.
Proof.
  intros Hwf Hco Esatp Eks HQ.
  destruct (uservec_run tf (x_h s) (tmem s)) as (h' & m' & Er & Hin); [done|..].
  - rewrite Esatp. apply Hco.
  - rewrite Esatp. apply Hco.
  - rewrite Eks. apply Hco.
  - unfold trampoline_run. wp_step. wp_step. fold (tmem s). rewrite Er. wp_step. by apply HQ.
Qed.

(** userret *)
Lemma wp_userret (Q : unit -> tctx -> T -> Prop) t s :
  caller_ok t (x_k s) -> rget (x_h s) A0 = MAKE_SATP pt -> h_csr (x_h s) Satp = ks ->
  (forall h, (forall r o, (r, o) ∈ tf_slots -> h_reg h r = load64 (tmem s) (tf + o)) -> h_pc h = h_csr (x_h s) Sepc ->
    h_mode h = (if has (h_csr (x_h s) Sstatus) SSTATUS_SPP then Supervisor else User) -> h_csr h Satp = MAKE_SATP pt ->
    h_csr h Sstatus = h_csr (sret (x_h s)) Sstatus -> (forall c, c <> Satp -> c <> Sstatus -> h_csr h c = h_csr (x_h s) c) ->
    Q tt t (set_x_h h s)) ->
  wp (trampoline_run userret) Q t s.
Proof.
  intros Hco Ea0 Esatp HQ.
  destruct (userret_run tf (x_h s) (tmem s)) as (h' & Er & F1 & F2 & F3 & F4 & F5 & F6).
  - rewrite Esatp. apply Hco.
  - rewrite Ea0. apply Hco.
  - rewrite Ea0. apply Hco.
  - unfold trampoline_run. wp_step. wp_step. fold (tmem s). rewrite Er. wp_step. rewrite Ea0 in F4.
    specialize (HQ h' F1 F2 F3 F4 F5 F6). destruct s as [k d h io fst pg]. destruct k as [km]. by destruct km.
Qed.

(** A user process about to trap: its registers, its page table, the vector and
    the words of its trapframe that the kernel has prepared. *)
Record user_ready (t : tctx) (s : T) : Prop := {
  ur_held : t_held t = [];
  ur_caller : caller_ok t (x_k s);
  ur_mode : h_mode (x_h s) = User;
  ur_regs : wf_regs (x_h s);
  ur_pc : 0 <= h_pc (x_h s) < 2 ^ 64;
  ur_satp : h_csr (x_h s) Satp = MAKE_SATP pt;
  ur_stvec : h_csr (x_h s) Stvec = TRAMPOLINE + uservec_off;
  ur_kernel : load64 (tmem s) tf = ks;
  ur_trap : load64 (tmem s) (tf + tf_kernel_trap) = usertrap_addr
}.

(** The user registers in the trapframe after a system call that returned [r]. *)
Lemma call_registers t (s : T) (m : mem) (s3 : T) (k2 : K) r reg o :
  (forall r o, (r, o) ∈ tf_slots -> load64 m (tf + o) = rget (x_h s) r) ->
  frame_kept (store64 (store64 m (tf + tf_epc) (u64 (h_pc (x_h s)))) (tf + tf_epc) (u64 (h_pc (x_h s) + 4))) (k_mem (ks_mem k2)) ->
  p_trapframe (cur t s3) = tf -> tmem s3 = store64 (k_mem (ks_mem k2)) (tf + tf_a 0) (u64 r) ->
  (reg, o) ∈ tf_slots -> load64 (tmem (prepared t s3)) (tf + o) = if decide (reg = A0) then u64 r else rget (x_h s) reg.
Proof.
  intros Hsv Hk Etf Em Hin.
  assert (Ho : (reg = A0 /\ o = 112) \/ (reg <> A0 /\ 40 <= o <= 280 /\ (o <= 104 \/ 120 <= o))).
  { unfold tf_slots, tf_words in Hin. rewrite !elem_of_cons, elem_of_nil in Hin.
    repeat (destruct Hin as [[= -> ->]|Hin]; [(by left) || (right; split; [done|lia])|]). done. }
  rewrite prepared_load by (done || lia). rewrite Em. unfold tf_a. case_decide as Hr.
  - assert (o = 112) as -> by naive_solver. change (112 + 8 * 0) with 112. rewrite load_store. unfold u64. apply Z.mod_mod. lia.
  - assert (Ho' : 40 <= o <= 280 /\ (o <= 104 \/ 120 <= o)) by naive_solver.
    rewrite load_store_disjoint by (simpl; lia). rewrite <-(Hsv reg o Hin).
    rewrite (load_ext 8 (k_mem (ks_mem k2)) (store64 (store64 m (tf + tf_epc) (u64 (h_pc (x_h s)))) (tf + tf_epc) (u64 (h_pc (x_h s) + 4)))).
    + unfold tf_epc. by rewrite !load_store_disjoint by (simpl; lia).
    + intros x Hx. apply Hk. unfold sizeof_trapframe. simpl in Hx. lia.
Qed.

(** Entering the kernel. *)
Lemma enter_wp cause tval clobbered (Q : unit -> tctx -> T -> Prop) t s :
  user_ready t s ->
  (forall h m, in_kernel tf (trap_entry cause tval (x_h s)) (tmem s) h m ->
    let sB := set_x_h h (upd_mem (fun _ => m) s) in
    has (h_csr h Sstatus) SSTATUS_SPP = false -> h_csr h Scause = cause -> h_csr h Sepc = h_pc (x_h s) -> h_csr h Satp = ks ->
    caller_ok t (x_k sB) ->
    wp (satp ← usertrap;
        modify (fun s => set_x_h {| h_reg := <[A0 := satp]> clobbered; h_csr := h_csr (x_h s); h_mode := h_mode (x_h s);
                             h_pc := h_pc (x_h s) |} s);;
        trampoline_run userret) Q t sB) ->
  wp (user_trap cause tval clobbered) Q t s.
Proof.
  intros U HQ. pose proof (ur_caller _ _ U) as Hco. set (hA := trap_entry cause tval (x_h s)). set (sA := set_x_h hA s).
  assert (Hst : has (h_csr hA Sstatus) SSTATUS_SPP = false).
  { unfold hA, trap_entry. rewrite (ur_mode _ _ U). apply has_clear. }
  unfold user_trap. tr_step. tr_step. fold hA sA. tr_step. tr_step. tr_step.
  change (h_pc (x_h sA)) with (h_csr (x_h s) Stvec). rewrite (ur_stvec _ _ U), Z.eqb_refl. simpl negb. cbv iota. tr_step.
  tr_step. apply wp_uservec; [exact (ur_regs _ _ U)|exact Hco|exact (ur_satp _ _ U)|exact (ur_kernel _ _ U)|]. intros h2 m2 Hin.
  set (sB := set_x_h h2 (upd_mem (fun _ => m2) sA)). tr_step. tr_step. tr_step.
  change (h_pc (x_h sB)) with (h_pc h2). change (rget (x_h sB) Ra) with (rget h2 Ra).
  rewrite (ik_pc _ _ _ _ _ Hin), (ik_ra _ _ _ _ _ Hin), Z.eqb_refl. change (tmem sA) with (tmem s).
  rewrite (ur_trap _ _ U : load64 (tmem s) (tf + 16) = usertrap_addr), Z.eqb_refl. simpl negb. simpl orb. cbv iota. tr_step.
  apply (HQ h2 m2 Hin).
  - by rewrite (ik_csr _ _ _ _ _ Hin).
  - by rewrite (ik_csr _ _ _ _ _ Hin).
  - by rewrite (ik_csr _ _ _ _ _ Hin).
  - rewrite (ik_satp _ _ _ _ _ Hin). exact (ur_kernel _ _ U).
  - eapply caller_ok_same; [|exact Hco]. exists m2. split; [|done]. exact (ik_frame _ _ _ _ _ Hin).
Qed.

(** Leaving it, after [prepare_return] in state [s3]. *)
Lemma leave_wp clobbered (Q : unit -> tctx -> T -> Prop) t s3 :
  t_held t = [] -> caller_ok t (x_k s3) -> h_csr (x_h s3) Satp = ks -> 0 <= ks < 2 ^ 64 -> 0 <= usertrap_addr < 2 ^ 64 ->
  (forall s', same_kernel (x_k s3) (x_k s') -> user_ready t s' -> h_pc (x_h s') = load64 (tmem s3) (tf + 24) ->
    (forall r o, (r, o) ∈ tf_slots -> h_reg (x_h s') r = load64 (tmem (prepared t s3)) (tf + o)) ->
    has (h_csr (x_h s') Sstatus) SSTATUS_SIE = true -> Q tt t s') ->
  wp (modify (fun s => set_x_h {| h_reg := <[A0 := MAKE_SATP pt]> clobbered; h_csr := h_csr (x_h s); h_mode := h_mode (x_h s);
                             h_pc := h_pc (x_h s) |} s);;
      trampoline_run userret) Q t (prepared t s3).
Proof.
  intros Ht Hco Esatp Hks Hua HQ. pose proof (co_tf _ _ Hco) as Etf. tr_step. tr_step.
  set (sC := set_x_h _ (prepared t s3)). pose proof (prepared_same t s3 Etf) as Hsame.
  assert (HcoC : caller_ok t (x_k sC)) by (eapply caller_ok_same; [exact Hsame|exact Hco]).
  apply wp_userret; [exact HcoC|done|exact Esatp|]. intros h F1 F2 F3 F4 F5 F6.
  assert (Hspp : has (h_csr (x_h sC) Sstatus) SSTATUS_SPP = false).
  { change (h_csr (x_h sC) Sstatus) with (set_bits SSTATUS_SPIE (clear_bits SSTATUS_SPP (clear_bits SSTATUS_SIE (h_csr (x_h s3) Sstatus)))).
    rewrite has_set_other by done. apply has_clear. }
  assert (Hspie : has (h_csr (x_h sC) Sstatus) SSTATUS_SPIE = true) by (apply has_set; done).
  apply HQ; [exact Hsame| |exact (eq_trans F2 (prepared_sepc t s3 Etf))|exact F1|].
  - split; [done|exact HcoC|cbn; by rewrite F3, Hspp| | |exact F4| | |].
    + intros r Hz. destruct (tf_slots_all r Hz) as [o Hin]. change (x_h (set_x_h h sC)) with h. rewrite (F1 r o Hin). apply (load_range 8).
    + change (h_pc (x_h (set_x_h h sC))) with (h_pc h). rewrite F2.
      rewrite (prepared_sepc t s3 Etf : h_csr (x_h sC) Sepc = _). apply (load_range 8).
    + change (h_csr (x_h (set_x_h h sC))) with (h_csr h). rewrite F6 by done. done.
    + rewrite <-(Z.add_0_r tf). etrans; [exact (proj1 (prepared_words t s3 Etf))|]. rewrite Esatp. by apply Z.mod_small.
    + etrans; [exact (proj1 (proj2 (proj2 (prepared_words t s3 Etf))))|]. by apply Z.mod_small.
  - change (h_csr (x_h (set_x_h h sC))) with (h_csr h). rewrite F5. unfold sret. cbn [h_csr enter jump cset].
    rewrite fn_lookup_insert, Hspie, has_clear_other by done. rewrite has_set_other by done. by apply has_set.
Qed.

(** the way of a system call through the kernel and back.  A user
    process executes ecall: the hart enters uservec, which saves every register in the
    trapframe page through the user page table and switches to the kernel's;
    usertrap finds the system call in a7, runs it and prepares the return; userret restores
    the registers and drops to user mode.  If the call, as those other than exec, exit and
    sbrk do, leaves the process's trapframe and page table alone, then the process goes on at the
    next instruction, in user mode with interrupts enabled and on its own
    page table, with the result in a0 and every other register as it was, and ready for the
    next trap; the kernel has done what the call does, and beyond it has only
    written the trapframe page. *)
Theorem system_call_returns t s clobbered :
  user_ready t s -> syscalls (i32 (rget (x_h s) A7)) = Some f ->
  wp (user_trap 8 0 clobbered) (fun _ t' s' => t' = t /\
    h_mode (x_h s') = User /\ h_pc (x_h s') = u64 (h_pc (x_h s) + 4) /\
    (exists k1 r k2, same_kernel (x_k s) k1 /\ Rf t k1 r k2 /\ same_kernel k2 (x_k s') /\ h_reg (x_h s') A0 = u64 r) /\
    (forall r, r <> Zero -> r <> A0 -> h_reg (x_h s') r = h_reg (x_h s) r) /\
    has (h_csr (x_h s') Sstatus) SSTATUS_SIE = true /\ user_ready t s') t s.
Proof using Hf.
  intros U Hsys. pose proof (co_tf _ _ (ur_caller _ _ U)) as Etf0. apply (enter_wp _ _ _ _ _ _ U).
  intros h2 m2 Hin sB Hspp Hcause Hsepc Hsatp HcoB. tr_step. eapply wp_mono.
  - apply (usertrap_call_wp t sB (ur_held _ _ U) HcoB Hspp Hcause).
    + rewrite <-Hsys. do 2 f_equal. apply (ik_saved _ _ _ _ _ Hin A7 168).
      unfold tf_slots, tf_words. apply (bool_decide_unpack _). by vm_compute.
    + change (x_h sB) with h2. rewrite Hsepc. apply (ur_pc _ _ U).
  - intros satp t' s' (-> & -> & r & k2 & HR & Hco2 & Hk & ->). change (x_h sB) with h2 in *. rewrite Hsepc in *.
    match goal with |- wp _ _ _ (prepared _ ?s) => set (s3 := s) in * end.
    assert (Hco3 : caller_ok t (x_k s3)) by (eapply caller_ok_same; [|exact Hco2]; by apply same_kernel_store).
    pose proof (co_tf _ _ Hco3 : p_trapframe (cur t s3) = tf) as Etf.
    apply leave_wp; [apply U|exact Hco3|exact Hsatp| | |].
    + rewrite <-(ur_kernel _ _ U). apply (load_range 8).
    + rewrite <-(ur_trap _ _ U). apply (load_range 8).
    + intros s' Hsame U' Hpc Hregs Hsie.
      assert (Hreg : forall reg o, (reg, o) ∈ tf_slots -> h_reg (x_h s') reg = if decide (reg = A0) then u64 r else rget (x_h s) reg).
      { intros reg o Hro. rewrite (Hregs reg o Hro). apply (call_registers t s m2 s3 k2 r reg o); try done.
        intros r1 o1 Hr1. exact (ik_saved _ _ _ _ _ Hin r1 o1 Hr1). }
      split_and!; [done|apply U'| | | |done|done].
      * rewrite Hpc. change (tmem s3) with (store64 (k_mem (ks_mem k2)) (tf + tf_a 0) (u64 r)).
        rewrite load_store_disjoint by (unfold tf_a; simpl; lia).
        erewrite load_ext; [|intros x Hx; apply Hk; unfold sizeof_trapframe; simpl in Hx; lia].
        etrans; [apply load64_store64; unfold u64; apply Z.mod_pos_bound; lia|done].
      * eexists _, r, k2. split_and!; [|exact HR| |].
        -- eapply same_kernel_trans; [|apply same_kernel_store; done].
           eapply same_kernel_trans; [|apply same_kernel_store; done].
           exists m2. split; [exact (ik_frame _ _ _ _ _ Hin)|done].
        -- eapply same_kernel_trans; [|exact Hsame]. by apply same_kernel_store.
        -- rewrite (Hreg A0 112); [done|]. unfold tf_slots. apply elem_of_cons. by left.
      * intros reg Hz Ha. destruct (tf_slots_all reg Hz) as [o Hro]. rewrite (Hreg reg o Hro), decide_False by done.
        unfold rget. by rewrite decide_False.
Qed.
End calls.

(** ** Timer interrupts in the kernel *)

(** The clock as [clockintr] advances it. *)
Definition ticked (s : T) : T :=
  let s1 := if i32 (rget (x_h s) Tp) =? 0 then set_x_k (set_ks_ticks (u32 (ks_ticks (x_k s) + 1)) (x_k s)) s else s in
  set_x_h (cset Stimecmp (u64 (h_csr (x_h s) Time + 1000000)) (x_h s)) s1.

Lemma clockintr_wp t s :
  t_held t = [] -> wp clockintr (fun _ t' s' => quiet t t' /\ s' = ticked s) t s.
Proof.
  intros Ht. unfold clockintr, cpuid, r_tp, ticked. tr_step. tr_step. tr_step. tr_step. tr_step.
  destruct (i32 (rget (x_h s) Tp) =? 0); [|by tr_steps].
  apply wp_kz. wp_step. apply wp_acquire; [rewrite Ht; apply not_elem_of_nil|]. wp_step. wp_step. wp_step.
  eapply wp_done; [apply wakeup_done; simpl; rewrite Ht; by repeat constructor|].
  change (emit_event _ (hold tickslock t)) with (hold tickslock (emit_event (EWake ticks_chan) t)).
  wp_step. tr_steps. split; [done|]. done.
Qed.

Lemma devintr_timer_wp t s :
  t_held t = [] -> h_csr (x_h s) Scause = 0x8000000000000005 ->
  wp devintr (fun r t' s' => r = 2 /\ quiet t t' /\ s' = ticked s) t s.
Proof.
  intros Ht Hc. unfold devintr. tr_step. tr_step. rewrite Hc. change (_ =? 0x8000000000000009) with false. cbv iota.
  change (_ =? _) with true. cbv iota. tr_step. eapply wp_mono; [by apply clockintr_wp|]. intros [] t' s' [Hq ->]. tr_steps. done.
Qed.

Lemma yield_asleep t (k : K) :
  t_held t = [] -> exists t1 kont, yield t k = Asleep (yield_chan (t_proc t)) t1 (upd_proc (t_proc t) (set_p_state RUNNABLE) k) kont /\
    forall k', kont t1 k' = Done tt t k'.
Proof.
  intros Ht. destruct t as [held p pid pat tr]. simpl in Ht. subst held. eexists _, _.
  unfold yield, mbind, M_bind, self. simpl. unfold switch. simpl. rewrite decide_True by done. simpl. split; [done|].
  intros k'. simpl. unfold release. simpl. rewrite decide_True by (apply elem_of_cons; by left). unfold unhold. simpl.
  by rewrite decide_True.
Qed.

(** a timer interrupt that comes while the kernel runs costs it nothing
    but time.  kerneltrap counts the tick, on hart 0 only, asks for the next interrupt, and
    if a process is running makes it runnable and gives up the CPU; when the process is
    scheduled again, after anything has happened to the kernel and to
    the registers of whichever hart it now runs on, sepc and sstatus are
    as they were at the interrupt, which is what kernelvec.S returns with.  It does not panic. *)
Theorem kerneltrap_timer running t s :
  t_held t = [] -> has (h_csr (x_h s) Sstatus) SSTATUS_SPP = true -> has (h_csr (x_h s) Sstatus) SSTATUS_SIE = false ->
  h_csr (x_h s) Scause = 0x8000000000000005 ->
  rg (fun _ _ => True)
    (fun s0 s1 => running = true /\ s1 = set_x_k (upd_proc (t_proc t) (set_p_state RUNNABLE) (x_k (ticked s0))) (ticked s0))
    s (kerneltrap running t s)
    (fun s0 _ t' s' => quiet t t' /\ h_csr (x_h s') Sepc = h_csr (x_h s) Sepc /\
      h_csr (x_h s') Sstatus = h_csr (x_h s) Sstatus /\ (running = false -> x_k s' = x_k (ticked s))).
Proof.
  intros Ht Hspp Hsie Hc. unfold kerneltrap, intr_get.
  unfold r_csr. do 2 (apply (rg_bind _ _ (gets _)); simpl). rewrite Hspp. simpl.
  apply (rg_bind _ _ (gets _ ≫= _)). simpl. rewrite Hsie.
  apply rg_bind, wp_rg. eapply wp_mono; [by apply devintr_timer_wp|]. intros w t1 s1 (-> & Hq & ->). simpl.
  destruct running; simpl.
  - destruct (yield_asleep t1 (x_k (ticked s))) as (t2 & kont & Ey & Hk); [by rewrite (proj1 Hq)|].
    apply (rg_bind _ _ (kz yield)). unfold kz, zoom. rewrite Ey. simpl. split.
    + split; [done|]. by rewrite (proj1 (proj2 Hq)).
    + intros s2 _. rewrite Hk. simpl. split_and!; done.
  - split_and!; try done.
Qed.
End trap.

(** ** Witnesses *)

Module Demo.
Definition page (i : Z) : Z := KERNBASE + 0x100000 + i * PGSIZE.

Definition the_layout : KernelLayout.
Proof. refine {| kend := page 0; etext := KERNBASE + 8 * PGSIZE; trampoline := KERNBASE + 7 * PGSIZE |}; vm_compute; done. Defined.
#[local] Existing Instance the_layout.

#[local] Instance the_text : KernelText :=
  {| forkret_addr := KERNBASE + 0x100; usertrap_addr := KERNBASE + 0x200; kernelvec_addr := KERNBASE + 0x300; uservec_off := 0;
     userret_off := 0x9a |}.

(** A user page table at page 1 and the kernel's at page 2, which share the
    pages 3 and 4 of the lower levels here; the trapframe is page 5. *)
Definition upt : Z := page 1.
Definition kpt : Z := page 2.
Definition tframe : Z := page 5.
Definition pte (pa flags : Z) : Z := Z.lor (Z.lor (PA2PTE pa) flags) PTE_V.
Definition entries : list (Z * Z) :=
  [(upt + 8 * 255, pte (page 3) 0); (kpt + 8 * 255, pte (page 3) 0); (page 3 + 8 * 511, pte (page 4) 0);
   (page 4 + 8 * 511, pte trampoline (Z.lor PTE_R PTE_X)); (page 4 + 8 * 510, pte tframe (Z.lor PTE_R PTE_W));
   (tframe, MAKE_SATP kpt); (tframe + 8, page 7); (tframe + 16, usertrap_addr)].
Definition memory : mem := foldr (fun av m => store64 m av.1 av.2) ∅ entries.

Definition a_proc : proc :=
  {| p_state := RUNNING; p_chan := None; p_killed := 0; p_xstate := 0; p_pid := 42; p_parent := None; p_kstack := page 6;
     p_sz := PGSIZE; p_pagetable := upt; p_trapframe := tframe; p_ra := 0; p_sp := 0; p_ofile := fun _ => None;
     p_cwd := None; p_name := [] |}.

Definition a_kernel : kernel bcache :=
  {| ks_mem := {| k_mem := memory; k_freelist := 0 |};
     ks_log := {| lg_cache := {| bc_buf := fun _ => {| b_valid := 0; b_dev := 0; b_blockno := 0; b_lock := initsleeplock;
                                                     b_refcnt := 0; b_prev := 0; b_next := 0; b_data := [] |};
                               bc_disk := fun _ => []; bc_writes := [] |};
                  lg_start := 2; lg_outstanding := 0; lg_committing := 0; lg_dev := 1; lg_n := 0; lg_block := fun _ => 0 |};
     ks_sb := {| sb_magic := FSMAGIC; sb_size := 2000; sb_nblocks := 1000; sb_ninodes := 200; sb_nlog := 31; sb_logstart := 2;
                 sb_inodestart := 33; sb_bmapstart := 46 |};
     ks_inode := fun _ => {| i_dev := 0; i_inum := 0; i_ref := 0; i_lock := initsleeplock; i_valid := 0; i_type := 0; i_major := 0;
                             i_minor := 0; i_nlink := 0; i_size := 0; i_addrs := fun _ => 0 |};
     ks_file := fun _ => {| f_type := FD_NONE; f_ref := 0; f_readable := false; f_writable := false; f_pipe := 0; f_ip := 0;
                            f_off := 0; f_major := 0 |};
     ks_pipe := fun _ => {| pi_data := fun _ => chr 0; pi_nread := 0; pi_nwrite := 0; pi_readopen := 0; pi_writeopen := 0 |};
     ks_proc := fun _ => a_proc; ks_nextpid := 43; ks_initproc := Some 0; ks_ticks := 7;
     ks_cons := {| c_buf := fun _ => chr 0; c_r := 0; c_w := 0; c_e := 0 |};
     ks_uart := {| u_tx_busy := 0; u_sent := [] |} |}.

Definition a_disk : vdisk :=
  {| v_desc := fun _ => {| d_addr := DNull; d_len := 0; d_flags := 0; d_next := 0 |}; v_avail_idx := 0;
     v_avail_ring := fun _ => 0; v_used_idx := 0; v_used_ring := fun _ => 0; v_free := fun _ => true; v_seen := 0;
     v_info_b := fun _ => None; v_info_status := fun _ => 0; v_ops := fun _ => {| q_type := 0; q_sector := 0 |};
     v_busy := fun _ => false; v_data := fun _ => []; v_blockno := fun _ => 0; v_medium := fun _ => []; v_fetched := [];
     v_fetch_idx := 0 |}.

(** A user program with 11, SYS_getpid, in a7. *)
Definition a_hart : hart :=
  {| h_reg := fun r => match r with A7 => 11 | A0 => 3 | S4 => 1234 | _ => 9 end;
     h_csr := fun c => match c with Satp => MAKE_SATP upt | Stvec => TRAMPOLINE | Sstatus => SSTATUS_SPIE | _ => 0 end;
     h_mode := User; h_pc := 0x58 |}.

Definition a_state : tstate bcache :=
  {| x_k := a_kernel; x_d := a_disk; x_h := a_hart; x_mmio := []; x_first := false; x_kpgtbl := kpt |}.

Definition a_thread : tctx := {| t_held := []; t_proc := 0; t_pid := 42; t_patience := 0; t_trace := [] |}.

Lemma maps va pa root n bit :
  (root = upt \/ root = kpt) ->
  (va = TRAMPOLINE /\ pa = trampoline /\ bit = PTE_X) \/ (va = TRAPFRAME /\ pa = tframe /\ (bit = PTE_R \/ bit = PTE_W)) ->
  n <= PGSIZE -> stable tframe (tframe + PGSIZE) (MAKE_SATP root) va pa n bit memory.
Proof.
  intros Hr Hva Hn. eapply (stable_walk _ _ _ root va pa n bit memory (pte (page 3) 0) (pte (page 4) 0)
    (if decide (va = TRAMPOLINE) then pte trampoline (Z.lor PTE_R PTE_X) else pte tframe (Z.lor PTE_R PTE_W))); cbv zeta;
    destruct Hr as [->| ->], Hva as [(-> & -> & ->)|(-> & -> & [->| ->])];
    first [exact Hn|vm_compute; reflexivity|vm_compute; discriminate|left; vm_compute; discriminate].
Qed.

Lemma ready : user_ready tframe upt (MAKE_SATP kpt) a_thread a_state.
Proof.
  split; [reflexivity| |reflexivity| |simpl; lia|reflexivity|vm_compute; reflexivity|vm_compute; reflexivity|vm_compute; reflexivity].
  - assert (Hp : forall root, root = upt \/ root = kpt -> has_trampoline tframe (MAKE_SATP root) memory).
    { intros root Hr. apply maps; [done|by left|unfold PGSIZE; lia]. }
    split; [reflexivity|reflexivity|reflexivity| |apply Hp; by left|apply Hp; by right].
    split; apply maps; [by left|right; by split_and!; [..|right]|unfold PGSIZE; lia|by left|right; by split_and!; [..|left]|unfold PGSIZE; lia].
  - intros r _. destruct r; simpl; lia.
Qed.
End Demo.

Lemma system_call_returns_witness :
  wp (@user_trap Demo.the_layout Demo.the_text _ _ (fun _ _ => 0) (fun _ => (false, [])) 8 0 (fun _ => 77))
    (fun _ _ s' => h_mode (x_h s') = User /\ h_pc (x_h s') = 0x5c /\ h_reg (x_h s') A0 = 42 /\ h_reg (x_h s') S4 = 1234)
    Demo.a_thread Demo.a_state.
Proof.
  eapply wp_mono.
  - apply (@system_call_returns Demo.the_layout Demo.the_text _ _ (fun _ _ => 0) (fun _ => (false, [])) Demo.tframe Demo.upt
      (MAKE_SATP Demo.kpt) sys_getpid (fun t k1 r k2 => r = p_pid (ks_proc k1 (t_proc t)))).
    + intros t k1 Ht Hco. unfold sys_getpid, myproc. wp_steps. split_and!; [reflexivity|exact Hco|by intros x|].
      exact (eq_refl (p_pid (ks_proc k1 (t_proc t)))).
    + exact Demo.ready.
    + reflexivity.
  - intros [] t' s' (_ & Hm & Hpc & (k1 & r & k2 & (m1 & _ & ->) & Hr & _ & Ha) & Hregs & _).
    split_and!; [exact Hm|exact Hpc| |].
    + rewrite Ha, Hr. reflexivity.
    + rewrite Hregs by discriminate. reflexivity.
Defined.

(** A tick at hart 0 while process 0 is in the kernel. *)
Lemma kerneltrap_timer_witness :
  let s := set_x_h (cset Sstatus SSTATUS_SPP (cset Scause 0x8000000000000005 (cset Sepc 0x80001234
             (rset Tp 0 Demo.a_hart)))) Demo.a_state in
  ks_ticks (x_k (ticked s)) = 8 /\
  rg (fun _ _ => True) (fun s0 s1 => true = true /\
      s1 = set_x_k (upd_proc 0 (set_p_state RUNNABLE) (x_k (ticked s0))) (ticked s0)) s
    (kerneltrap (fun _ _ => 0) (fun _ => (false, [])) true Demo.a_thread s)
    (fun _ _ _ s' => h_csr (x_h s') Sepc = 0x80001234).
Proof.
  intros s. split; [reflexivity|]. eapply rg_mono.
  - exact (kerneltrap_timer (fun _ _ => 0) (fun _ => (false, [])) true Demo.a_thread s
      ltac:(reflexivity) ltac:(reflexivity) ltac:(reflexivity) ltac:(reflexivity)).
  - intros s1 [] t' s' (_ & E & _). rewrite E. reflexivity.
Defined.
