(* ===== verification/Usys.v ===== *)
(** * Usys: the stubs of the system calls

    user/usys.pl prints an assembly function for each system call, with the
    number that kernel/syscall.h gives it.  The file has the text the script
    prints, the function as the hart runs it, down to the kernel and back, and
    the agreement of the names with the table of kernel/syscall.c. *)

From S2P Require Import Prelude Riscv CString Kalloc Vm PageTable Sleeplock Layout Bio BioSpec Virtio.
From S2P Require Import Log Pipe Kernel Fs Proc Printf Console File Process Syscall Asm Trap.

(** ** kernel/syscall.h and user/usys.pl *)

Definition syscall_numbers : list (string * Z) :=
  [("fork", 1); ("exit", 2); ("wait", 3); ("pipe", 4); ("read", 5); ("kill", 6); ("exec", 7); ("fstat", 8); ("chdir", 9);
   ("dup", 10); ("getpid", 11); ("sbrk", 12); ("pause", 13); ("uptime", 14); ("open", 15); ("write", 16); ("mknod", 17);
   ("unlink", 18); ("link", 19); ("mkdir", 20); ("close", 21)]%string.

(** The order of the calls of [entry]. *)
Definition usys_names : list string :=
  ["fork"; "exit"; "wait"; "pipe"; "read"; "write"; "close"; "kill"; "exec"; "open"; "mknod"; "unlink"; "fstat"; "link";
   "mkdir"; "chdir"; "dup"; "getpid"; "sbrk"; "pause"; "uptime"]%string.

Definition print_line (l : list byte) : list byte := l ++ [chr 10].

(** The label of the function. *)
Definition label (name : string) : list byte :=
  if decide (name = "sbrk"%string) then bytes_of "sys_" ++ bytes_of name else bytes_of name.

Definition usys_entry (name : string) : list byte :=
  print_line (bytes_of ".global " ++ label name) ++
  print_line (label name ++ bytes_of ":") ++
  print_line (bytes_of " li a7, SYS_" ++ bytes_of name) ++
  print_line (bytes_of " ecall") ++
  print_line (bytes_of " ret").

Definition usys_text : list byte :=
  print_line (bytes_of "# generated by usys.pl - do not edit") ++
  print_line (bytes_of "#include " ++ [chr 34] ++ bytes_of "kernel/syscall.h" ++ [chr 34]) ++
  concat (usys_entry <$> usys_names).

(** ** The functions *)

Section usys.
Context `{KernelLayout} `{KernelText} {C : Type} `{BlockCache C}.
Local Abbreviation K := (kernel C).
Local Abbreviation T := (tstate C).
Context (device : list mmio -> Z -> Z) (uart_state : T -> bool * list byte).

(** The initialisers of the table of syscall.c, by name. *)
Definition syscall_handlers : list (string * M K Z) :=
  [("fork", sys_fork); ("exit", sys_exit); ("wait", sys_wait); ("pipe", sys_pipe); ("read", sys_read); ("kill", sys_kill);
   ("exec", sys_exec); ("fstat", sys_fstat); ("chdir", sys_chdir); ("dup", sys_dup); ("getpid", sys_getpid); ("sbrk", sys_sbrk);
   ("pause", sys_pause); ("uptime", sys_uptime); ("open", sys_open); ("write", sys_write); ("mknod", sys_mknod);
   ("unlink", sys_unlink); ("link", sys_link); ("mkdir", sys_mkdir); ("close", sys_close)]%string.

Ltac in_list := first [apply list_elem_of_here|apply list_elem_of_further; in_list].

(** Every stub loads a number whose entry of the table is the function of that
    name, and every function of the table has a stub. *)
Lemma stubs_complete :
  Forall (fun name => exists num f, (name, num) ∈ syscall_numbers /\ (name, f) ∈ syscall_handlers /\ syscalls num = Some f) usys_names /\
  forall num f, syscalls num = Some f -> exists name, name ∈ usys_names /\ (name, num) ∈ syscall_numbers /\ (name, f) ∈ syscall_handlers.
Proof.
  split.
  - unfold usys_names. repeat (apply List.Forall_cons; [eexists _, _; split; [in_list|split; [in_list|reflexivity]]|]). apply List.Forall_nil.
  - intros num f Hf. unfold syscalls in Hf. repeat (case_match; try done); injection Hf as <-; eexists; (split; [|split; [in_list|in_list]]); in_list.
Qed.

(** The instructions of a stub whose ecall is at [at_ecall]: [li a7, num], the
    trap that [ecall] makes, with the registers that usertrap may leave in
    [clobbered], and [ret], which is the next instruction. *)
Definition stub (num at_ecall : Z) (clobbered : reg -> Z) : M T unit :=
  modify (fun s => set_x_h (jump at_ecall (rset A7 num (x_h s))) s);;
  user_trap device uart_state 8 0 clobbered;;
  s ← get;
  if negb (h_pc (x_h s) =? at_ecall + 4) then panic "ret"
  else modify (fun s => set_x_h (jump (rget (x_h s) Ra) (x_h s)) s).

Section returns.
Context (tf pt ks : Z) (f : M K Z) (Rf : tctx -> K -> Z -> K -> Prop).
Hypothesis Hf : forall t k1, t_held t = [] -> caller_ok tf pt ks t k1 ->
  wp f (fun r t' k2 => t' = t /\ caller_ok tf pt ks t k2 /\ frame_kept tf (k_mem (ks_mem k1)) (k_mem (ks_mem k2)) /\ Rf t k1 r k2) t k1.

(** User code may set a register and jump. *)
Lemma ready_move r v a t (s : T) : 0 <= v < 2 ^ 64 -> 0 <= a < 2 ^ 64 -> user_ready tf pt ks t s ->
  user_ready tf pt ks t (set_x_h (jump a (rset r v (x_h s))) s).
Proof.
  intros Hv Ha [U1 U2 U3 U4 U5 U6 U7 U8 U9]. split; try done. intros r' Hr'. cbn. destruct (decide (r = r')) as [->|Hne].
  - by rewrite fn_lookup_insert.
  - rewrite fn_lookup_insert_ne by done. by apply U4.
Qed.

Lemma ready_jump a t (s : T) : 0 <= a < 2 ^ 64 -> user_ready tf pt ks t s -> user_ready tf pt ks t (set_x_h (jump a (x_h s)) s).
Proof. intros Ha [U1 U2 U3 U4 U5 U6 U7 U8 U9]. by split. Qed.

End returns.
End usys.

