(* ===== verification/Boot.v ===== *)
(** * Boot: from reset to the scheduler

    kernel/start.c, kernel/main.c and the functions of kernel/vm.c that set
    up the kernel's page table. *)

From S2P Require Import Prelude Riscv CString Kalloc Vm PageTable Sleeplock Layout Bio BioSpec Virtio VirtioInit.
From S2P Require Import Log Pipe Kernel Fs Proc Printf Console File Process Syscall Asm Trap.

(** ** vm.c *)

Section kvm.
Context `{KernelLayout}.

Definition kvmmake : M kmem Z :=
  kpgtbl ← kalloc;
  do_memset kpgtbl 0 PGSIZE;;
  kvmmap kpgtbl UART0 UART0 PGSIZE (Z.lor PTE_R PTE_W);;
  kvmmap kpgtbl VIRTIO0 VIRTIO0 PGSIZE (Z.lor PTE_R PTE_W);;
  kvmmap kpgtbl PLIC PLIC 0x4000000 (Z.lor PTE_R PTE_W);;
  kvmmap kpgtbl KERNBASE KERNBASE (etext - KERNBASE) (Z.lor PTE_R PTE_X);;
  kvmmap kpgtbl etext etext (PHYSTOP - etext) (Z.lor PTE_R PTE_W);;
  kvmmap kpgtbl TRAMPOLINE trampoline PGSIZE (Z.lor PTE_R PTE_X);;
  proc_mapstacks kpgtbl;;
  mret kpgtbl.
End kvm.

(** ** start.c *)

(** The machine-mode registers of one hart; [main] is the address of main(). *)
Definition timerinit (h : hart) : hart :=
  let h := cset Mie (set_bits MIE_STIE (h_csr h Mie)) h in
  let h := cset Menvcfg (set_bits (Z.shiftl 1 63) (h_csr h Menvcfg)) h in
  let h := cset Mcounteren (set_bits 2 (h_csr h Mcounteren)) h in
  cset Stimecmp (u64 (h_csr h Time + 1000000)) h.

(** mret: with MPP set to supervisor mode. *)
Definition mret_insn (h : hart) : hart :=
  let mpp := Z.land (Z.shiftr (h_csr h Mstatus) 11) 3 in
  enter (if mpp =? 0 then User else if mpp =? 1 then Supervisor else Machine) (jump (h_csr h Mepc) h).

Definition start (main : Z) (h : hart) : hart :=
  let x := h_csr h Mstatus in
  let x := clear_bits MSTATUS_MPP_MASK x in
  let x := set_bits MSTATUS_MPP_S x in
  let h := cset Mstatus x h in
  let h := cset Mepc main h in
  let h := cset Satp 0 h in
  let h := cset Medeleg 0xffff h in
  let h := cset Mideleg 0xffff h in
  let h := cset Sie (set_bits SIE_STIE (set_bits SIE_SEIE (h_csr h Sie))) h in
  let h := cset Pmpaddr0 0x3fffffffffffff h in
  let h := cset Pmpcfg0 0xf h in
  let h := timerinit h in
  let id := i32 (h_csr h Mhartid) in
  let h := rset Tp id h in
  mret_insn h.

(** ** main.c *)

(** The machine of Trap.v over the buffer cache, with [started], and the
    registers of the disk before the rings are set up. *)
Record boot := { bt_t : tstate bcache; bt_started : bool; bt_init : list (Z * Z) }.

Definition set_bt_t (v : tstate bcache) (s : boot) : boot := {| bt_t := v; bt_started := bt_started s; bt_init := bt_init s |}.
Definition set_bt_started (v : bool) (s : boot) : boot := {| bt_t := bt_t s; bt_started := v; bt_init := bt_init s |}.

Section main.
Context `{KernelLayout} `{KernelText}.
Context (reg : list (Z * Z) -> Z -> Z).
Local Abbreviation K := (kernel bcache).

Definition tz {A} (m : M (tstate bcache) A) : M boot A := zoom bt_t set_bt_t m.
Definition bk {A} (m : M K A) : M boot A := tz (kz m).

(** The cache of the log of the kernel. *)
Definition set_cache (c : bcache) (l : log bcache) : log bcache :=
  {| lg_cache := c; lg_start := lg_start l; lg_outstanding := lg_outstanding l; lg_committing := lg_committing l;
     lg_dev := lg_dev l; lg_n := lg_n l; lg_block := lg_block l |}.
Definition bz {A} (m : M bcache A) : M boot A := bk (lz (zoom lg_cache set_cache m)).

(** virtio_disk_init() with the page allocator of the kernel; the three pages
    are the rings of the disk. *)
Definition rd_init (s : boot) : dinit :=
  {| n_regs := bt_init s; n_kmem := ks_mem (x_k (bt_t s)); n_desc := 0; n_avail := 0; n_used := 0;
     n_free := v_free (x_d (bt_t s)) |}.
Definition wr_init (d : dinit) (s : boot) : boot :=
  let t := bt_t s in
  {| bt_t := set_x_d (set_v_free (n_free d) (x_d t)) (set_x_k (set_ks_mem (n_kmem d) (x_k t)) t);
     bt_started := bt_started s; bt_init := n_regs d |}.

Definition kvminit : M boot unit :=
  pt ← bk (mz kvmmake);
  tz (modify (set_x_kpgtbl pt)).

Definition kvminithart : M (tstate bcache) unit :=
  s ← get;
  w_csr Satp (MAKE_SATP (x_kpgtbl s)).

(** consoleinit() and printfinit(): the locks, and the UART. *)
Definition consoleinit : M (tstate bcache) unit := uartinit.

Definition spin_chan : chan := ("started", 0).

(** [while(started == 0) ;]: other harts run in between. *)
Fixpoint spin (n : nat) : M boot unit :=
  s ← get;
  if bt_started s then mret tt
  else match n with
       | O => starved spin_chan
       | S n => (fun t s => Asleep spin_chan t s (fun t' s' => spin n t' s'))
       end.

(** main() up to the call of scheduler(), which is in Sched.v. *)
Definition main : M boot unit :=
  id ← tz cpuid;
  if id =? 0 then
    tz consoleinit;;
    printf "xv6 kernel is booting";;
    bk (mz kinit);;
    kvminit;;
    tz kvminithart;;
    bk procinit;;
    tz trapinithart;;
    tz plicinit;;
    tz plicinithart;;
    bz binit;;
    bk iinit;;
    zoom rd_init wr_init (virtio_disk_init reg);;
    bk userinit;;
    modify (set_bt_started true)
  else
    t ← self;
    spin (t_patience t);;
    printf "hart starting";;
    tz kvminithart;;
    tz trapinithart;;
    tz plicinithart.
End main.
