(* ===== verification/BootSpec.v ===== *)
(** * BootSpec: the kernel's address space

    [kvmmake] builds the page table the kernel runs on: devices and physical
    memory at their own addresses, the trampoline at the top, and a stack with
    an unmapped guard page below it for every process. *)

From S2P Require Import Prelude Riscv CString Kalloc Vm PageTable VmWalk VmMap VmAlloc VmUser VmKernel VmFree MemTheorems Proc Boot.

Definition pte_of (pa perm : Z) : Z := Z.lor (Z.lor (PA2PTE pa) perm) PTE_V.

(** The translation [f] with [n] pages from [lo] mapped to those from [pa]. *)
Definition over (lo pa perm n : Z) (f : Z -> option Z) (va : Z) : option Z :=
  if decide (lo <= va < lo + n * PGSIZE) then Some (pte_of (pa + PGROUNDDOWN (va - lo)) perm) else f va.

Ltac unfold_map := unfold UART0, VIRTIO0, PLIC, PHYSTOP, KERNBASE, PGSIZE in *.

Section kvm.
Context `{KernelLayout}.

(** A state of the machine while the table of [root] is built: [f] is its
    translation, and [used] are pages taken from the allocator for other purposes. *)
Record building (root : Z) (f : Z -> option Z) (used : list Z) (own : gmap Z usage) (fl : list Z) (s : kmem) : Prop := {
  bd_inv : vm_inv ∅ own fl s;
  bd_root : own !! root = Some (PT root 2 0);
  bd_map : forall va, 0 <= va < MAXVA -> pt_lookup (k_mem s) root va = f va;
  bd_used : NoDup used /\ Forall page_ok used;
  bd_apart : forall p, p ∈ used -> p ∉ fl /\ own !! p = None
}.

Lemma kvmmap_step root f used own fl s va pa n perm t :
  building root f used own fl s -> kmem_lock ∉ t_held t ->
  1 <= n -> 0 <= va -> va + n * PGSIZE <= MAXVA -> va mod 4096 = 0 ->
  0 <= pa -> pa + n * PGSIZE <= 2 ^ 56 -> pa mod PGSIZE = 0 -> 0 <= perm < 1024 ->
  (forall a, va <= a < va + n * PGSIZE -> f a = None) -> most va n < Z.of_nat (length fl) ->
  wp (kvmmap root va pa (n * PGSIZE) perm) (fun _ t' s' => t' = t /\ exists own' fl',
    building root (over va pa perm n f) used own' fl' s' /\ Z.of_nat (length fl) <= Z.of_nat (length fl') + most va n) t s.
Proof.
  intros [I Hr Hm Hu Ha] Hl Hn Hva Hhi Hal Hpa Hpahi Hpal Hperm Hf Hlen.
  eapply wp_mono; [apply (kvmmap_wp ∅ own fl s root va pa n perm t); try done|].
  - intros i Hi. unfold PGSIZE in *. rewrite Hm by lia. apply Hf. lia.
  - intros [] t' s' (-> & own' & fl' & X & R & L). split; [done|]. exists own', fl'. split; [|done].
    destruct (ex_new _ _ _ _ _ _ _ _ X) as (new & En & An & _). split.
    + apply X.
    + eapply lookup_weaken; [exact Hr|apply X].
    + intros a Haa. rewrite (R root a Hr Haa). unfold over. repeat case_decide; try tauto. by apply Hm.
    + done.
    + intros p Hp. destruct (Ha p Hp) as [Hn1 Hn2]. split.
      * intros Hin. apply Hn1. rewrite En, elem_of_app. by right.
      * destruct (own' !! p) as [u|] eqn:E; [|done]. destruct (An p u E) as [|Hin]; [congruence|].
        destruct Hn1. rewrite En, elem_of_app. by left.
Qed.

(** The kernel's table maps no user memory. *)
Lemma vm_inv_no_users users own fl s : vm_inv users own fl s -> vm_inv ∅ own fl s.
Proof. intros I. split; try apply I; intros; set_solver. Qed.

(** The first page becomes an empty root table. *)
Lemma new_root p fl s s1 :
  kmem_inv s (p :: fl) -> kmem_inv s1 fl -> page_ok p ->
  building p (fun _ => None) [] {[p := PT p 2 0]} fl (set_mem (memset (k_mem s1) p 0 PGSIZE) s1).
Proof.
  intros [_ Hnd] K Hok. inversion Hnd; subst.
  pose proof (page_ok_range _ Hok) as Hr.
  assert (Hz : forall i, 0 <= i < 512 -> load64 (memset (k_mem s1) p 0 PGSIZE) (p + 8 * i) = 0).
  { intros i Hi. by apply load_zero_page. }
  assert (K' : kmem_inv (set_mem (memset (k_mem s1) p 0 PGSIZE) s1) fl).
  { eapply fill_kmem; try done. apply same_but_memset. }
  split.
  - eapply vm_inv_no_users. apply (vm_inv_add_root ∅ ∅);
      [apply vm_inv_empty, K'|exact Hok|apply lookup_empty|assumption|exact Hz].
  - apply lookup_insert_eq.
  - intros va Hva. unfold pt_lookup, lk. simpl k_mem. pose proof (PX_bound (Z.of_nat 2) va ltac:(lia)).
    rewrite Hz by assumption. reflexivity.
  - split; constructor.
  - by intros q ?%not_elem_of_nil.
Qed.

(** ** The process stacks *)

Definition stack_perm : Z := Z.lor PTE_R PTE_W.

Fixpoint stacked (i : Z) (st : list Z) (f : Z -> option Z) : Z -> option Z :=
  match st with
  | [] => f
  | pa :: st => stacked (i + 1) st (over (KSTACK i) pa stack_perm 1 f)
  end.

Definition in_stack (i a : Z) : Prop := KSTACK i <= a < KSTACK i + PGSIZE.

Lemma in_stack_unique i j a : in_stack i a -> in_stack j a -> i = j.
Proof. unfold in_stack, KSTACK, PGSIZE. lia. Qed.

Lemma over_out lo pa perm n f a : ~ (lo <= a < lo + n * PGSIZE) -> over lo pa perm n f a = f a.
Proof. intros ?. unfold over. by rewrite decide_False. Qed.

Lemma stacked_out i st f a :
  (forall j, i <= j < i + Z.of_nat (length st) -> ~ in_stack j a) -> stacked i st f a = f a.
Proof.
  revert i f. induction st as [|pa st IH]; intros i f Hj; [done|]. cbn [stacked length] in *.
  rewrite IH by (intros j ?; apply Hj; lia). apply over_out.
  specialize (Hj i ltac:(lia)). unfold in_stack in Hj. lia.
Qed.

Lemma stacked_in i st f j pa a :
  st !! j = Some pa -> in_stack (i + Z.of_nat j) a -> stacked i st f a = Some (pte_of pa stack_perm).
Proof.
  revert i f j. induction st as [|p st IH]; intros i f j Hj Ha; [done|]. cbn [stacked].
  destruct j as [|j]; [|apply (IH _ _ j); [done|by replace (i + 1 + Z.of_nat j) with (i + Z.of_nat (S j)) by lia]].
  simpl in Hj. simplify_eq. rewrite Z.add_0_r in Ha. rewrite stacked_out.
  - unfold over. unfold in_stack in Ha. rewrite decide_True by lia. f_equal. f_equal.
    unfold PGROUNDDOWN. rewrite land_lnot_4095, Z.mod_small by (unfold PGSIZE in *; lia). lia.
  - intros j Hj Hin. pose proof (in_stack_unique _ _ _ Ha Hin). lia.
Qed.

Lemma most_one va : most va 1 = 2.
Proof. unfold most. replace (va + (1 - 1) * PGSIZE) with va by lia. lia. Qed.

Lemma KSTACK_range i : 0 <= i < NPROC -> 0 <= KSTACK i /\ KSTACK i + PGSIZE <= TRAMPOLINE /\ KSTACK i mod 4096 = 0.
Proof.
  intros Hi. unfold KSTACK, NPROC, TRAMPOLINE, MAXVA, PGSIZE in *.
  replace (Z.shiftl 1 (9 + 9 + 9 + 12 - 1)) with (67108864 * 4096) by (by vm_compute).
  split_and!; [lia|lia|]. replace (67108864 * 4096 - 4096 - (i + 1) * 2 * 4096) with ((67108864 - 1 - (i + 1) * 2) * 4096) by lia.
  by apply Z.mod_mul.
Qed.

(** A page taken for a stack. *)
Lemma building_take root f used own p fl s s1 :
  building root f used own (p :: fl) s -> kmem_inv s1 fl -> same_but p (k_mem s) (k_mem s1) ->
  building root f (used ++ [p]) own fl s1.
Proof.
  intros [I Hr Hm [Hu1 Hu2] Ha] K Hs. destruct (taken_page _ _ _ _ _ I) as (Hok & Hnin & Hn). split.
  - by eapply taken_inv.
  - done.
  - intros va Hva. rewrite (taken_lookup _ _ _ _ _ _ I Hs root va Hr Hva). by apply Hm.
  - split; [|by apply Forall_app_2; [|constructor]].
    apply NoDup_app. split_and!; [done| |apply NoDup_singleton].
    intros q Hq ->%list_elem_of_singleton. destruct (Ha p Hq) as [E _]. apply E, elem_of_cons. by left.
  - intros q [Hq | ->%list_elem_of_singleton]%elem_of_app; [|done].
    destruct (Ha q Hq) as [E ?]. split; [|done]. intros ?. apply E, elem_of_cons. by right.
Qed.

Lemma proc_mapstacks_loop_wp root t n : forall i f used own fl s,
  building root f used own fl s -> kmem_lock ∉ t_held t ->
  0 <= i -> i + Z.of_nat n <= NPROC ->
  (forall j a, i <= j < i + Z.of_nat n -> in_stack j a -> f a = None) ->
  3 * Z.of_nat n < Z.of_nat (length fl) ->
  wp (proc_mapstacks_loop root i n) (fun _ t' s' => t' = t /\ exists st own' fl',
    length st = n /\ building root (stacked i st f) (used ++ st) own' fl' s') t s.
Proof.
  induction n as [|n IH]; intros i f used own fl s B Hl Hi Hn Hf Hlen; cbn [proc_mapstacks_loop].
  { apply wp_ret. split; [done|]. exists [], own, fl. by rewrite app_nil_r. }
  apply wp_bind. eapply wp_mono; [apply (take_page_wp _ _ _ _ _ (bd_inv _ _ _ _ _ _ B) Hl)|].
  intros pa t1 s1 [-> [(_ & -> & _)|(Hpa & Hok & fl1 & -> & _ & K & Hs)]]; [simpl in Hlen; lia|].
  rewrite (proj2 (Z.eqb_neq _ _) Hpa). pose proof (building_take _ _ _ _ _ _ _ _ B K Hs) as B1.
  cbn [length] in Hlen. pose proof (KSTACK_range i ltac:(lia)) as (Hk0 & Hk1 & Hk2).
  pose proof (page_ok_range _ Hok). assert (TRAMPOLINE + PGSIZE = MAXVA) by done. assert (0 < PGSIZE) by done.
  apply wp_bind. replace PGSIZE with (1 * PGSIZE) at 1 by lia.
  eapply wp_mono; [apply (kvmmap_step _ _ _ _ _ _ (KSTACK i) pa 1 stack_perm t B1 Hl);
    [lia|lia|lia|exact Hk2|lia|unfold PHYSTOP, KERNBASE, PGSIZE in *; lia|apply Hok|by split| |]|].
  - intros a Ha. apply (Hf i); [lia|]. unfold in_stack. lia.
  - rewrite most_one. lia.
  - intros [] t' s' (-> & own' & fl' & B' & L). rewrite most_one in L.
    eapply wp_mono; [apply (IH _ _ _ _ _ _ B' Hl); try lia|].
    + intros j a Hj Ha. rewrite over_out; [apply (Hf j); [lia|done]|]. intros Hin.
      pose proof (in_stack_unique i j a). unfold in_stack in *. lia.
    + intros [] t'' s'' (-> & st & own'' & fl'' & Hst & B''). split; [done|].
      exists (pa :: st), own'', fl''. rewrite <-app_assoc in B''. cbn [stacked length]. by rewrite Hst.
Qed.

(** ** The whole table *)

Definition text_pages : Z := (etext - KERNBASE) / PGSIZE.
Definition data_pages : Z := (PHYSTOP - etext) / PGSIZE.
Definition rw : Z := Z.lor PTE_R PTE_W.
Definition rx : Z := Z.lor PTE_R PTE_X.

(** The regions [kvmmake] maps before the stacks, last first. *)
Definition regions : Z -> option Z :=
  over TRAMPOLINE trampoline rx 1 (over etext etext rw data_pages (over KERNBASE KERNBASE rx text_pages
    (over PLIC PLIC rw 16384 (over VIRTIO0 VIRTIO0 rw 1 (over UART0 UART0 rw 1 (fun _ => None)))))).

Lemma page_counts :
  etext - KERNBASE = text_pages * PGSIZE /\ PHYSTOP - etext = data_pages * PGSIZE /\ 1 <= text_pages.
Proof.
  pose proof trampoline_range. pose proof etext_aligned as Ha. unfold text_pages, data_pages.
  assert (E1 : (etext - KERNBASE) mod PGSIZE = 0) by (unfold KERNBASE, PGSIZE in *; Z.to_euclidean_division_equations; lia).
  assert (E2 : (PHYSTOP - etext) mod PGSIZE = 0) by (unfold PHYSTOP, KERNBASE, PGSIZE in *; Z.to_euclidean_division_equations; lia).
  unfold PGSIZE, KERNBASE in *. Z.to_euclidean_division_equations. lia.
Qed.

Lemma most_le va n b : 1 <= n -> 0 <= va -> va + n * PGSIZE <= va / 2 ^ 21 * 2 ^ 21 + b * 2 ^ 21 -> most va n <= 2 * b.
Proof.
  intros Hn Hva Hb. unfold most, PGSIZE in *. change (2 ^ 21) with 2097152 in *.
  assert ((va + (n - 1) * 4096) / 2097152 < va / 2097152 + b); [|lia].
  apply Z.div_lt_upper_bound; lia.
Qed.

Lemma map_then {A} root f used own fl s va pa sz n b perm t (k : M kmem A) Q :
  building root f used own fl s -> kmem_lock ∉ t_held t ->
  sz = n * PGSIZE -> 1 <= n -> 0 <= va -> va + n * PGSIZE <= MAXVA -> va mod 4096 = 0 ->
  0 <= pa -> pa + n * PGSIZE <= 2 ^ 56 -> pa mod PGSIZE = 0 -> 0 <= perm < 1024 ->
  (forall a, va <= a < va + n * PGSIZE -> f a = None) -> most va n <= b -> b < Z.of_nat (length fl) ->
  (forall own' fl' s', building root (over va pa perm n f) used own' fl' s' ->
     Z.of_nat (length fl) - b <= Z.of_nat (length fl') -> wp k Q t s') ->
  wp (kvmmap root va pa sz perm;; k) Q t s.
Proof.
  intros B Hl -> Hn Hva Hhi Hal Hpa Hph Hpal Hperm Hf Hb Hlen Hk. apply wp_bind.
  eapply wp_mono; [apply (kvmmap_step _ _ _ _ _ _ va pa n perm t B Hl); (assumption || lia)|].
  intros [] t' s' (-> & own' & fl' & B' & L). apply (Hk own' fl' s' B'). lia.
Qed.

Lemma in_regions a : regions a <> None ->
  UART0 <= a < UART0 + PGSIZE \/ VIRTIO0 <= a < VIRTIO0 + PGSIZE \/ PLIC <= a < PLIC + 0x4000000 \/
  KERNBASE <= a < PHYSTOP \/ TRAMPOLINE <= a < MAXVA.
Proof.
  pose proof page_counts as (E1 & E2 & _). pose proof kend_range. pose proof trampoline_range.
  assert (TRAMPOLINE + PGSIZE = MAXVA) by done. assert (0 < PGSIZE) by done.
  assert (16384 * PGSIZE = 0x4000000) by done.
  unfold regions, over. repeat (case_decide; [intros _|]); [lia..|done].
Qed.

Ltac map_region n b :=
  match goal with B : building _ _ _ _ _ _, Hl : kmem_lock ∉ _ |- _ =>
    apply (map_then _ _ _ _ _ _ _ _ _ n b _ _ _ _ B Hl);
    unfold PGSIZE; first [lia | assumption | reflexivity | (apply Z.leb_le; reflexivity) | (intros a Ha; rewrite !over_out; [reflexivity|unfold PGSIZE in *; lia..]) | idtac]
  end.

Lemma regions_wp {A} root own fl s t (k : M kmem A) Q :
  building root (fun _ => None) [] own fl s -> kmem_lock ∉ t_held t -> etext < PHYSTOP ->
  600 <= Z.of_nat (length fl) ->
  (forall own' fl' s', building root regions [] own' fl' s' -> 193 < Z.of_nat (length fl') -> wp k Q t s') ->
  wp (kvmmap root UART0 UART0 PGSIZE rw;;
      kvmmap root VIRTIO0 VIRTIO0 PGSIZE rw;;
      kvmmap root PLIC PLIC 0x4000000 rw;;
      kvmmap root KERNBASE KERNBASE (etext - KERNBASE) rx;;
      kvmmap root etext etext (PHYSTOP - etext) rw;;
      kvmmap root TRAMPOLINE trampoline PGSIZE rx;; k) Q t s.
Proof.
  intros B Hl Het Hlen Hk. pose proof page_counts as (E1 & E2 & E3).
  pose proof trampoline_range. pose proof trampoline_aligned. pose proof etext_aligned.
  assert (1 <= data_pages) by (unfold PGSIZE in *; lia).
  assert (MAXVA = 2 ^ 38) by done. assert (TRAMPOLINE = 2 ^ 38 - 4096) by done.
  assert (Hp : 0 <= rw < 1024 /\ 0 <= rx < 1024) by done. destruct Hp as [Hrw Hrx].
  unfold UART0, VIRTIO0, PLIC, PHYSTOP, KERNBASE, PGSIZE in *.
  assert (Hd : most etext data_pages <= 2 * 65).
  { apply most_le; [lia..|]. unfold PGSIZE. change (2 ^ 21) with 2097152.
    pose proof (Z.div_mod etext 2097152). pose proof (Z.mod_pos_bound etext 2097152). lia. }
  map_region 1 2. clear B. intros own1 fl1 s1 B L1.
  map_region 1 2. clear B. intros own2 fl2 s2 B L2.
  map_region 16384 64. clear B. intros own3 fl3 s3 B L3.
  map_region text_pages (2 * 64). { apply most_le; [lia..|]. change (_ / _ * _) with 0x80000000. unfold PGSIZE. lia. }
  clear B. intros own4 fl4 s4 B L4.
  map_region data_pages (2 * 65).
  clear B. intros own5 fl5 s5 B L5.
  map_region 1 2.
  clear B. intros own6 fl6 s6 B L6. apply (Hk _ _ _ B). lia.
Qed.

Definition device (va : Z) : Prop :=
  UART0 <= va < UART0 + PGSIZE \/ VIRTIO0 <= va < VIRTIO0 + PGSIZE \/ PLIC <= va < PLIC + 0x4000000.

(** The kernel's address space, with the stack of process [i] on the page [st !! i]. *)
Record kernel_table (m : mem) (root : Z) (st : list Z) : Prop := {
  kt_device va : device va -> pt_lookup m root va = Some (pte_of (PGROUNDDOWN va) rw);
  kt_text va : KERNBASE <= va < etext -> pt_lookup m root va = Some (pte_of (PGROUNDDOWN va) rx);
  kt_data va : etext <= va < PHYSTOP -> pt_lookup m root va = Some (pte_of (PGROUNDDOWN va) rw);
  kt_trampoline va : TRAMPOLINE <= va < MAXVA -> pt_lookup m root va = Some (pte_of trampoline rx);
  kt_stack i pa va : st !! i = Some pa -> in_stack (Z.of_nat i) va -> pt_lookup m root va = Some (pte_of pa rw);
  kt_guard i va : 0 <= i < NPROC -> KSTACK i - PGSIZE <= va < KSTACK i -> pt_lookup m root va = None;
  kt_rest va : 0 <= va < TRAMPOLINE -> ~ device va -> ~ KERNBASE <= va < PHYSTOP ->
    (forall i, 0 <= i < NPROC -> ~ in_stack i va) -> pt_lookup m root va = None
}.

Lemma over_identity lo perm n f va :
  lo mod 4096 = 0 -> lo <= va < lo + n * PGSIZE -> over lo lo perm n f va = Some (pte_of (PGROUNDDOWN va) perm).
Proof.
  intros Ha Hva. unfold over. rewrite decide_True by done. unfold PGROUNDDOWN, PGSIZE in *.
  rewrite !land_lnot_4095. do 2 f_equal. Z.to_euclidean_division_equations. lia.
Qed.

(** Below the stacks, the regions; above them, the trampoline. *)
Lemma low_not_stack i va : 0 <= i < NPROC -> va < PHYSTOP -> ~ in_stack i va.
Proof.
  intros Hi Hva Hin. unfold in_stack, KSTACK, NPROC, PGSIZE in *. assert (TRAMPOLINE = 2 ^ 38 - 4096) by done.
  unfold PHYSTOP, KERNBASE in *. lia.
Qed.

Lemma kernel_table_ok root own fl s st :
  building root (stacked 0 st regions) st own fl s -> length st = Z.to_nat NPROC -> etext < PHYSTOP ->
  kernel_table (k_mem s) root st.
Proof.
  intros [_ _ Hm _ _] Hst Het. pose proof page_counts as (E1 & E2 & E3). pose proof trampoline_range.
  assert (HN : Z.of_nat (length st) = NPROC) by (by rewrite Hst).
  assert (HT : TRAMPOLINE = 2 ^ 38 - 4096) by done. assert (MAXVA = 2 ^ 38) by done.
  assert (Hlow : forall va, 0 <= va < PHYSTOP -> pt_lookup (k_mem s) root va = regions va).
  { intros va Hva. unfold PHYSTOP, KERNBASE in *. rewrite Hm by lia. apply stacked_out.
    intros j Hj. apply low_not_stack; [lia|]. unfold PHYSTOP, KERNBASE. lia. }
  assert (Hno : forall va, 0 <= va < TRAMPOLINE -> ~ device va -> ~ KERNBASE <= va < PHYSTOP -> regions va = None).
  { intros va Hva Hd Hr. destruct (regions va) eqn:E; [|done]. assert (Hx : regions va <> None) by congruence.
    apply in_regions in Hx. unfold device in Hd. tauto || lia. }
  split.
  - intros va Hd. unfold device in Hd. assert (0 <= va < PHYSTOP) by (unfold_map; lia).
    rewrite Hlow by done. unfold regions. destruct Hd as [Hd|[Hd|Hd]];
      repeat (rewrite over_out; [|unfold_map; lia]); (apply over_identity; [reflexivity|unfold_map; lia]).
  - intros va Hva. rewrite Hlow by (unfold_map; lia). unfold regions.
    repeat (rewrite over_out; [|unfold_map; lia]). apply over_identity; [reflexivity|lia].
  - intros va Hva. rewrite Hlow by (unfold_map; lia). unfold regions.
    rewrite over_out by (unfold_map; lia). apply over_identity; [apply etext_aligned|lia].
  - intros va Hva. rewrite Hm by lia. rewrite stacked_out.
    + unfold regions, over. rewrite decide_True by (unfold_map; lia). do 2 f_equal. unfold PGROUNDDOWN.
      rewrite land_lnot_4095, Z.mod_small by (unfold_map; lia). lia.
    + intros j Hj Hin. pose proof (KSTACK_range j ltac:(lia)). unfold in_stack in Hin. lia.
  - intros i pa va Hi Hva. apply lookup_lt_Some in Hi as Hlt.
    pose proof (KSTACK_range (Z.of_nat i) ltac:(lia)). unfold in_stack in Hva. rewrite Hm by lia.
    by apply (stacked_in 0 st regions i).
  - intros i va Hi Hva. pose proof (KSTACK_range i Hi). assert (PHYSTOP <= va < TRAMPOLINE).
    { unfold KSTACK, NPROC in *. unfold_map. lia. }
    rewrite Hm by (unfold_map; lia). rewrite stacked_out; [apply Hno; unfold device; unfold_map; lia|].
    intros j Hj Hin. unfold in_stack, KSTACK in *. unfold_map. lia.
  - intros va Hva Hd Hr Hs. rewrite Hm by lia. rewrite stacked_out; [by apply Hno|].
    intros j Hj. apply Hs. lia.
Qed.

Lemma pages_length p n : length (pages p n) = n.
Proof. induction n as [|n IH]; simpl; congruence. Qed.

Lemma stack_unmapped j a : 0 <= j < NPROC -> in_stack j a -> regions a = None.
Proof.
  intros Hj Ha. destruct (regions a) eqn:E; [|done]. assert (Hx : regions a <> None) by congruence.
  apply in_regions in Hx. pose proof (KSTACK_range j Hj). pose proof (low_not_stack j a Hj).
  unfold in_stack in *. unfold_map. lia.
Qed.

(** C9: booting on [kinit] and [kvmmake] gives the kernel's address space:
    every device and all of physical memory at its own address, the kernel
    text executable and not writable, the rest writable and not executable, the
    trampoline at the top, a stack page of its own for each of the 64
    processes, none of them still in the allocator, an unmapped guard page under
    each of them, and nothing else. It needs four megabytes after the kernel
    image: [kvmmake] does not look at the result of its [kalloc]. *)
Theorem kvmmake_maps t s :
  k_freelist s = 0 -> kmem_lock ∉ t_held t -> kend + 1024 * PGSIZE <= PHYSTOP ->
  wp (kinit;; kvmmake) (fun root t' s' => t' = t /\ exists st fl,
    length st = Z.to_nat NPROC /\ NoDup st /\ Forall page_ok st /\ root ∉ st /\
    kernel_table (k_mem s') root st /\ kmem_inv s' fl /\ root ∉ fl /\ (forall p, p ∈ st -> p ∉ fl)) t s.
Proof.
  intros H0 Hl Hk. pose proof kend_range. pose proof trampoline_range.
  apply wp_bind. eapply wp_mono; [by apply kinit_wp|]. intros [] t1 s1 [-> K].
  set (fl := pages _ _) in K. assert (Hlen : 601 <= Z.of_nat (length fl)).
  { unfold fl. rewrite pages_length. pose proof (PGROUNDUP_bounds kend). unfold PHYSTOP, KERNBASE, PGSIZE in *.
    rewrite Z2Nat.id by (apply Z.div_pos; lia). apply Z.div_le_lower_bound; lia. }
  clearbody fl. unfold kvmmake. apply wp_bind.
  eapply wp_mono; [by apply (kalloc_wp t s1 fl)|]. intros root t1 s2 [-> Hr].
  destruct fl as [|q fl]; [simpl in Hlen; lia|]. destruct Hr as (-> & K2 & _). cbn [length] in Hlen.
  assert (Hok : page_ok q). { destruct K as [Hc _]. apply chain_pages_ok in Hc. by inversion Hc. }
  unfold do_memset at 1. apply wp_bind, wp_modify.
  apply (regions_wp q _ _ _ _ _ _ (new_root q fl s1 s2 K K2 Hok) Hl); [unfold PGSIZE in *; lia|lia|].
  intros own fl1 s3 B Hl1. unfold proc_mapstacks. apply wp_bind.
  eapply wp_mono; [apply (proc_mapstacks_loop_wp q t _ 0 regions [] _ _ _ B Hl)|].
  1, 2: by vm_compute.
  - intros j a Hj. apply stack_unmapped. unfold NPROC in *. lia.
  - change (3 * Z.of_nat (Z.to_nat NPROC)) with 192. lia.
  - intros [] t1 s4 (-> & st & own' & fl' & Hst & B'). apply wp_ret. split; [done|]. exists st, fl'.
    pose proof (bd_apart _ _ _ _ _ _ B') as Ha. pose proof (bd_used _ _ _ _ _ _ B') as [? ?].
    pose proof (bd_root _ _ _ _ _ _ B') as Hroot. pose proof (bd_inv _ _ _ _ _ _ B') as I.
    split_and!; [exact Hst|assumption|assumption| | |apply I| |].
    + intros Hin. destruct (Ha q Hin). congruence.
    + eapply kernel_table_ok; [exact B'|exact Hst|unfold PGSIZE in *; lia].
    + intros Hin. pose proof (vi_free _ _ _ _ I q Hin). congruence.
    + intros p Hp. by apply Ha.
Qed.
End kvm.

Module Image.
(** A kernel whose image fills the first megabyte. *)
Definition layout : KernelLayout.
Proof.
  refine {| kend := KERNBASE + 256 * PGSIZE; etext := KERNBASE + 8 * PGSIZE; trampoline := KERNBASE + 7 * PGSIZE |};
    vm_compute; done.
Defined.

Definition reset : kmem := {| k_mem := ∅; k_freelist := 0 |}.
End Image.

Lemma kvmmake_maps_witness :
  wp (@kinit Image.layout;; @kvmmake Image.layout) (fun root t' s' => t' = Demo.thread /\ exists st fl,
    length st = Z.to_nat NPROC /\ NoDup st /\ Forall (@page_ok Image.layout) st /\ root ∉ st /\
    @kernel_table Image.layout (k_mem s') root st /\ @kmem_inv Image.layout s' fl /\ root ∉ fl /\ (forall p, p ∈ st -> p ∉ fl))
    Demo.thread Image.reset.
Proof. apply (@kvmmake_maps Image.layout); [reflexivity|apply Demo.unlocked|apply Z.leb_le; reflexivity]. Defined.
