(* ===== verification/Umalloc.v ===== *)
(** * Umalloc: the allocator of user programs, user/umalloc.c

    The free blocks are a circular list in the order of their addresses that
    starts at the static header [base].  A block is a header of 16 bytes and the
    units after it.  The fields of a header are functions of its address; the
    memory between headers belongs to the caller and is not touched.  Pointers
    do not wrap: the heap is below 2^32. *)

From S2P Require Import Prelude Riscv.

(** ** The program *)

(** sizeof(Header) *)
Definition HDR : Z := 16.

Record heap := { h_ptr : Z -> Z; h_size : Z -> Z; h_freep : Z; h_brk : Z }.

Definition set_ptr (p v : Z) (h : heap) : heap :=
  {| h_ptr := <[p := v]> (h_ptr h); h_size := h_size h; h_freep := h_freep h; h_brk := h_brk h |}.
Definition set_size (p v : Z) (h : heap) : heap :=
  {| h_ptr := h_ptr h; h_size := <[p := v]> (h_size h); h_freep := h_freep h; h_brk := h_brk h |}.
Definition set_freep (p : Z) (h : heap) : heap :=
  {| h_ptr := h_ptr h; h_size := h_size h; h_freep := p; h_brk := h_brk h |}.
Definition set_brk (b : Z) (h : heap) : heap :=
  {| h_ptr := h_ptr h; h_size := h_size h; h_freep := h_freep h; h_brk := b |}.

(** The loop of [free]: the block after which [bp] goes. *)
Fixpoint free_find (fuel : nat) (h : heap) (bp p : Z) : option Z :=
  match fuel with
  | O => None
  | S fuel =>
      let q := h_ptr h p in
      if (p <? bp) && (bp <? q) then Some p
      else if (q <=? p) && ((p <? bp) || (bp <? q)) then Some p
      else free_find fuel h bp q
  end.

(** The rest of [free]: the block is joined with its neighbours or linked in. *)
Definition free_link (h : heap) (bp p : Z) : heap :=
  let q := h_ptr h p in
  let h :=
    if bp + HDR * h_size h bp =? q then
      set_ptr bp (h_ptr h q) (set_size bp (u32 (h_size h bp + h_size h q)) h)
    else set_ptr bp q h in
  let h :=
    if p + HDR * h_size h p =? bp then
      set_ptr p (h_ptr h bp) (set_size p (u32 (h_size h p + h_size h bp)) h)
    else set_ptr p bp h in
  set_freep p h.

(** Bounds for the loops.  Free blocks do not overlap, so there are fewer of
    them than units of memory; [malloc] goes round the list at most twice, the
    second time with the memory that the kernel has added. *)
Definition search_fuel (h : heap) : nat := S (S (S (Z.to_nat (h_brk h / HDR)))).
Definition malloc_fuel (h : heap) (nunits : Z) : nat := (2 * search_fuel h + Z.to_nat (4096 + nunits))%nat.

Definition free (ap : Z) (h : heap) : option heap :=
  let bp := ap - HDR in
  p ← free_find (search_fuel h) h bp (h_freep h);
  Some (free_link h bp p).

Section umalloc.
(** The address of [base], and what the kernel grants: [grant brk n] tells
    whether the break may move from [brk] by [n]. *)
Context (base : Z) (grant : Z -> Z -> bool).

(** [sbrk(int)]: the old break, or [SBRK_ERROR]. *)
Definition sbrk (n : Z) (h : heap) : Z * heap :=
  let n := i32 n in
  if grant (h_brk h) n then (h_brk h, set_brk (h_brk h + n) h) else (-1, h).

Definition morecore (nu : Z) (h : heap) : option (Z * heap) :=
  let nu := if nu <? 4096 then 4096 else nu in
  let '(p, h) := sbrk (nu * HDR) h in
  if p =? -1 then Some (0, h)
  else
    h ← free (p + HDR) (set_size p nu h);
    Some (h_freep h, h).

(** Taking [nunits] from the block [p] that follows [prevp]. *)
Definition carve (nunits prevp p : Z) (h : heap) : Z * heap :=
  if h_size h p =? nunits then (p + HDR, set_freep prevp (set_ptr prevp (h_ptr h p) h))
  else
    let h := set_size p (h_size h p - nunits) h in
    let p := p + HDR * h_size h p in
    (p + HDR, set_freep prevp (set_size p nunits h)).

Fixpoint malloc_loop (fuel : nat) (nunits prevp p : Z) (h : heap) : option (Z * heap) :=
  match fuel with
  | O => None
  | S fuel =>
      if nunits <=? h_size h p then Some (carve nunits prevp p h)
      else if p =? h_freep h then
        r ← morecore nunits h;
        let '(p, h) := r in
        if p =? 0 then Some (0, h) else malloc_loop fuel nunits p (h_ptr h p) h
      else malloc_loop fuel nunits p (h_ptr h p) h
  end.

Definition units (nbytes : Z) : Z := u32 ((nbytes + HDR - 1) / HDR + 1).

Definition malloc (nbytes : Z) (h : heap) : option (Z * heap) :=
  let nunits := units nbytes in
  let h := if h_freep h =? 0 then set_size base 0 (set_ptr base base (set_freep base h)) else h in
  malloc_loop (malloc_fuel h nunits) nunits (h_freep h) (h_ptr h (h_freep h)) h.
End umalloc.
