(* ===== verification/UmallocSpec.v ===== *)
(** * UmallocSpec: the heap is partitioned into free and allocated blocks

    [heap_ok lo h fl]: the free blocks of [h] are [fl], in the order of their
    addresses, no two of them adjacent, linked in a circle through [base].
    [free] and [malloc] are shown to keep it, to terminate, and to move blocks
    between the free list and the caller. *)

From S2P Require Import Prelude Riscv Umalloc.

(** ** Blocks *)

Implicit Types (h : heap) (a p q s x : Z).

(** Disjoint blocks between [lo] and [hi], with room between them. *)
Fixpoint blocks (lo hi : Z) (l : list (Z * Z)) : Prop :=
  match l with
  | [] => True
  | (a, s) :: l => lo <= a /\ 1 <= s /\ a + HDR * s <= hi /\ blocks (a + HDR * s + 1) hi l
  end.

(** Where the next block may be. *)
Fixpoint after (lo : Z) (l : list (Z * Z)) : Z :=
  match l with
  | [] => lo
  | (a, s) :: l => after (a + HDR * s + 1) l
  end.

Definition covers (l : list (Z * Z)) (x : Z) : Prop := exists a s, (a, s) ∈ l /\ a <= x < a + HDR * s.

Lemma covers_nil x : ~ covers [] x.
Proof. intros (a & s & Ha & _). by apply not_elem_of_nil in Ha. Qed.

Lemma covers_cons a s l x : covers ((a, s) :: l) x <-> a <= x < a + HDR * s \/ covers l x.
Proof.
  split.
  - intros (b & r & [[= -> ->]|Hb]%elem_of_cons & Hx); [by left|right; by exists b, r].
  - intros [Hx|(b & r & Hb & Hx)]; [exists a, s|exists b, r]; (split; [|done]); [by left|by right].
Qed.

Lemma covers_app l1 l2 x : covers (l1 ++ l2) x <-> covers l1 x \/ covers l2 x.
Proof.
  split.
  - intros (b & r & [Hb|Hb]%elem_of_app & Hx); [left|right]; by exists b, r.
  - intros [(b & r & Hb & Hx)|(b & r & Hb & Hx)]; exists b, r; (split; [apply elem_of_app; auto|done]).
Qed.

Lemma blocks_app lo hi l1 l2 : blocks lo hi (l1 ++ l2) <-> blocks lo hi l1 /\ blocks (after lo l1) hi l2.
Proof.
  revert lo. induction l1 as [|[a s] l1 IH]; intros lo; simpl; [tauto|]. rewrite IH. tauto.
Qed.

Lemma after_app lo l1 l2 : after lo (l1 ++ l2) = after (after lo l1) l2.
Proof. revert lo. induction l1 as [|[a s] l1 IH]; intros lo; simpl; [done|]. apply IH. Qed.

Lemma blocks_le lo lo' hi hi' l : lo' <= lo -> hi <= hi' -> blocks lo hi l -> blocks lo' hi' l.
Proof.
  revert lo lo'. induction l as [|[a s] l IH]; intros lo lo' H1 H2; simpl; [done|]. intros (? & ? & ? & ?).
  split_and!; [lia|done|lia|]. by eapply IH; [|done|].
Qed.

Lemma blocks_in lo hi l b : blocks lo hi l -> b ∈ l -> lo <= b.1 /\ 1 <= b.2 /\ b.1 + HDR * b.2 <= hi.
Proof.
  revert lo. induction l as [|[a s] l IH]; intros lo; [by intros _ ?%not_elem_of_nil|].
  intros (H1 & H2 & H3 & H4) [->|Hb]%elem_of_cons; [simpl; lia|]. destruct (IH _ H4 Hb). unfold HDR in *. lia.
Qed.

(** Every block is before the place for the next one. *)
Lemma blocks_after lo hi l b : blocks lo hi l -> b ∈ l -> b.1 + HDR * b.2 < after lo l.
Proof.
  revert lo. induction l as [|[a s] l IH]; intros lo; [by intros _ ?%not_elem_of_nil|].
  intros (H1 & H2 & H3 & H4) [->|Hb]%elem_of_cons; simpl; [|by apply (IH _ H4)]. clear IH.
  assert (Hle : forall m, blocks m hi l -> m <= after m l).
  { clear. induction l as [|[b r] l IH]; intros m; simpl; [done|]. intros (? & ? & ? & ?).
    specialize (IH _ H2). unfold HDR in *. lia. }
  specialize (Hle _ H4). simpl. lia.
Qed.

Lemma blocks_le_after lo hi l : blocks lo hi l -> lo <= hi -> after lo l <= hi + 1.
Proof.
  revert lo. induction l as [|[a s] l IH]; intros lo; simpl; [lia|]. intros (H1 & H2 & H3 & H4) Hle.
  destruct l as [|[b r] l]; [simpl; lia|]. apply IH; [done|]. destruct H4 as (? & ? & ? & _). unfold HDR in *. lia.
Qed.

(** There are fewer blocks than units of memory. *)
Lemma blocks_count lo hi l : blocks lo hi l -> 0 <= lo -> lo <= hi -> HDR * Z.of_nat (length l) <= hi - lo.
Proof.
  revert lo. induction l as [|[a s] l IH]; intros lo; simpl length; [lia|]. intros (H1 & H2 & H3 & H4) H0 Hle.
  destruct (decide (a + HDR * s + 1 <= hi)) as [H5|H5].
  - specialize (IH _ H4). unfold HDR in *. lia.
  - destruct l as [|[b r] l]; [simpl; unfold HDR in *; lia|]. destruct H4 as (? & ? & ? & _). unfold HDR in *. lia.
Qed.

(** The list around a block that overlaps none of its blocks. *)
Lemma blocks_split lo hi l bp s : blocks lo hi l -> 1 <= s -> (forall b, b ∈ l -> b.1 + HDR * b.2 <= bp \/ bp + HDR * s <= b.1) ->
  exists l1 l2, l = l1 ++ l2 /\ (forall b, b ∈ l1 -> b.1 + HDR * b.2 <= bp) /\ (forall b, b ∈ l2 -> bp + HDR * s <= b.1).
Proof.
  revert lo. induction l as [|[a r] l IH]; intros lo Hb Hs Hd.
  { exists [], []. split_and!; [done|by intros b ?%not_elem_of_nil|by intros b ?%not_elem_of_nil]. }
  destruct Hb as (H1 & H2 & H3 & H4). destruct (Hd (a, r) ltac:(by left)) as [Hlt|Hgt].
  - destruct (IH _ H4 Hs) as (l1 & l2 & -> & Hl1 & Hl2); [intros b Hb; apply Hd; by right|].
    exists ((a, r) :: l1), l2. split_and!; [done| |done]. intros b [->|Hb]%elem_of_cons; [done|by apply Hl1].
  - exists [], ((a, r) :: l). split_and!; [done|by intros b ?%not_elem_of_nil|].
    intros b [->|Hb]%elem_of_cons; [done|]. destruct (blocks_in _ _ _ _ H4 Hb) as [? _]. simpl in Hgt. unfold HDR in *. lia.
Qed.

(** ** The list *)

(** [p] leads to [q] through the headers [l]. *)
Fixpoint links (h : heap) (p : Z) (l : list Z) (q : Z) : Prop :=
  match l with
  | [] => h_ptr h p = q
  | a :: l => h_ptr h p = a /\ links h a l q
  end.

Lemma links_app h p l1 a l2 q : links h p (l1 ++ a :: l2) q <-> links h p l1 a /\ links h a l2 q.
Proof.
  revert p. induction l1 as [|b l1 IH]; intros p; simpl; [done|]. rewrite IH. tauto.
Qed.

Lemma links_ext h h' p l q : (forall x, x = p \/ x ∈ l -> h_ptr h' x = h_ptr h x) -> links h p l q -> links h' p l q.
Proof.
  revert p. induction l as [|a l IH]; intros p E; simpl; [rewrite E; auto|]. rewrite E by auto. intros [? Hl]. split; [done|].
  apply IH; [|done]. intros x [->|Hx]; apply E; right; [by left|by right].
Qed.

(** The last header of a list that starts at [p]. *)
Fixpoint last_of (p : Z) (l : list Z) : Z := match l with [] => p | a :: l => last_of a l end.

Lemma last_of_app p l a : last_of p (l ++ [a]) = a.
Proof. revert p. induction l as [|b l IH]; intros p; simpl; [done|apply IH]. Qed.

Lemma last_of_in p l : last_of p l = p \/ last_of p l ∈ l.
Proof.
  revert p. induction l as [|a l IH]; intros p; simpl; [by left|]. destruct (IH a) as [->|?]; right; [by left|by right].
Qed.

(** Only the last header of the first part leads to the second. *)
Lemma links_last h p l1 l2 q : links h p (l1 ++ l2) q ->
  links h (last_of p l1) l2 q.
Proof. revert p. induction l1 as [|a l1 IH]; intros p; simpl; [done|]. intros [_ Hl]. by apply IH. Qed.

Fixpoint incr (p : Z) (l : list Z) : Prop := match l with [] => True | a :: l => p < a /\ incr a l end.

Lemma incr_app p l1 l2 : incr p (l1 ++ l2) <-> incr p l1 /\ incr (last_of p l1) l2.
Proof. revert p. induction l1 as [|a l1 IH]; intros p; simpl; [tauto|]. rewrite IH. tauto. Qed.

Lemma blocks_incr lo hi l p : blocks lo hi l -> p < lo -> incr p (l.*1).
Proof.
  revert lo p. induction l as [|[a s] l IH]; intros lo p; simpl; [done|]. intros (? & ? & ? & Hl) Hp. split; [lia|].
  eapply IH; [exact Hl|]. unfold HDR in *. lia.
Qed.

Section search.
Context (base : Z) (h : heap) (bp : Z).
Hypothesis Hbase : base < bp.

(** Going up to the last header before [bp]. *)
Lemma find_up l1 : forall l2 p fuel, links h p (l1 ++ l2) base -> incr p (l1 ++ l2) -> base <= p -> p < bp ->
  (forall a, a ∈ l1 -> a < bp) -> (forall a, a ∈ l2 -> bp < a) -> (length l1 < fuel)%nat ->
  free_find fuel h bp p = Some (last_of p l1).
Proof using Hbase.
  induction l1 as [|a l1 IH]; intros l2 p fuel Hl Hi Hb Hp H1 H2 Hf; (destruct fuel as [|fuel]; [simpl in Hf; lia|]); cbn [free_find last_of].
  - rewrite (proj2 (Z.ltb_lt p bp)) by done. cbn [andb orb]. destruct l2 as [|a l2]; simpl in Hl.
    + rewrite Hl. rewrite (proj2 (Z.ltb_ge bp base)) by lia. by rewrite (proj2 (Z.leb_le base p)) by lia.
    + destruct Hl as [-> _]. by rewrite (proj2 (Z.ltb_lt bp a)) by (apply H2; by left).
  - destruct Hl as [-> Hl], Hi as [Hpa Hi]. assert (a < bp) by (apply H1; by left).
    rewrite (proj2 (Z.ltb_ge bp a)) by lia. rewrite andb_false_r. rewrite (proj2 (Z.leb_gt a p)) by lia. cbn [andb].
    eapply IH; [exact Hl|done|lia|done| |done|simpl in Hf; lia]. intros b Hb'. apply H1. by right.
Qed.

(** From a header after [bp] the search goes round to [base]. *)
Lemma find_round l : forall p fuel, links h p l base -> incr p l -> bp < p ->
  free_find (S (length l) + fuel) h bp p = free_find fuel h bp base.
Proof using Hbase.
  induction l as [|a l IH]; intros p fuel Hl Hi Hp; cbn [length Nat.add free_find];
    rewrite (proj2 (Z.ltb_ge p bp)) by lia; cbn [andb orb].
  - simpl in Hl. rewrite Hl. rewrite (proj2 (Z.ltb_ge bp base)) by lia. by rewrite andb_false_r.
  - destruct Hl as [-> Hl], Hi as [Hpa Hi]. rewrite (proj2 (Z.leb_gt a p)) by lia. cbn [andb]. apply IH; [done|done|lia].
Qed.

Lemma free_find_spec l1 l2 p fuel : links h base (l1 ++ l2) base -> incr base (l1 ++ l2) ->
  (forall a, a ∈ l1 -> a < bp) -> (forall a, a ∈ l2 -> bp < a) -> p ∈ base :: l1 ++ l2 -> (length (l1 ++ l2) + 1 < fuel)%nat ->
  free_find fuel h bp p = Some (last_of base l1).
Proof using Hbase.
  intros Hl Hi H1 H2 Hp Hf. rewrite length_app in Hf. apply elem_of_cons in Hp as [->|[Hp|Hp]%elem_of_app].
  - eapply find_up; try done; lia.
  - apply list_elem_of_split in Hp as (k1 & k2 & ->). rewrite <-app_assoc in Hl, Hi. cbn [app] in Hl, Hi.
    apply links_app in Hl as [_ Hl]. apply incr_app in Hi as [Hi0 [Hi1 Hi]].
    assert (Hbp : base <= last_of base k1).
    { clear -Hi0. revert Hi0. generalize base. induction k1 as [|a k1 IH]; intros b; simpl; [lia|]. intros [? Hi]. specialize (IH _ Hi). lia. }
    assert (E : last_of base (k1 ++ p :: k2) = last_of p k2) by (clear; generalize base; induction k1 as [|a k1 IH]; intros b; simpl; [done|apply IH]).
    rewrite E. eapply find_up; [exact Hl|done|lia|apply H1, elem_of_app; right; by left| |done|rewrite length_app in Hf; simpl in Hf; lia].
    intros a Ha. apply H1, elem_of_app. right. by right.
  - pose proof Hp as Hpb%H2. apply list_elem_of_split in Hp as (k1 & k2 & ->). rewrite length_app in Hf. simpl in Hf.
    assert (Hl2 : links h p k2 base /\ incr p k2).
    { rewrite app_assoc in Hl, Hi. apply links_app in Hl as [_ Hl]. apply incr_app in Hi as [_ [_ Hi]]. done. }
    replace fuel with (S (length k2) + (fuel - S (length k2)))%nat by lia. rewrite find_round by (apply Hl2 || done).
    eapply find_up; try done; lia.
Qed.
End search.

(** ** free *)

Section heap.
Context (base lo : Z).
Hypothesis Hbase : 0 < base < lo.

Record heap_ok (h : heap) (fl : list (Z * Z)) : Prop := {
  ho_links : links h base (fl.*1) base;
  ho_sizes : forall b, b ∈ fl -> h_size h b.1 = b.2;
  ho_base : h_size h base = 0;
  ho_blocks : blocks lo (h_brk h) fl;
  ho_brk : lo <= h_brk h < 2 ^ 32;
  ho_freep : h_freep h ∈ base :: fl.*1
}.

(** A block that the caller has. *)
Definition held (fl : list (Z * Z)) (h : heap) (bp s : Z) : Prop :=
  lo <= bp /\ 1 <= s /\ bp + HDR * s <= h_brk h /\ forall b, b ∈ fl -> b.1 + HDR * b.2 <= bp \/ bp + HDR * s <= b.1.

Lemma links_from h h' p p' l q : links h p l q -> h_ptr h' p' = h_ptr h p -> (forall x, x ∈ l -> h_ptr h' x = h_ptr h x) ->
  links h' p' l q.
Proof using.
  intros Hl E Hx. destruct l as [|a l]; simpl in *; [congruence|]. destruct Hl as [Ep Hl]. split; [congruence|].
  eapply links_ext; [|exact Hl]. intros x [->|Hx']; apply Hx; [by left|by right].
Qed.

(** The first half of [free]: the block is joined with the one after it. *)
Section next.
Context (h : heap) (l2 : list (Z * Z)) (bp s p : Z).
Let q := h_ptr h p.
Let h' := if bp + HDR * h_size h bp =? q then set_ptr bp (h_ptr h q) (set_size bp (u32 (h_size h bp + h_size h q)) h)
          else set_ptr bp q h.
Hypothesis Hl : links h p (l2.*1) base.
Hypothesis Hb : blocks (bp + HDR * s) (h_brk h) l2.
Hypothesis Hz : forall b, b ∈ l2 -> h_size h b.1 = b.2.
Hypothesis Hbp : base < bp.
Hypothesis Hs : 1 <= s.
Hypothesis Hhi : bp + HDR * s <= h_brk h < 2 ^ 32.
Hypothesis Hsz : h_size h bp = s.

Record joined (s' : Z) (l2' : list (Z * Z)) : Prop := {
  jn_links : links h' bp (l2'.*1) base;
  jn_size : h_size h' bp = s' /\ s <= s' /\ bp + HDR * s' <= h_brk h;
  jn_blocks : blocks (bp + HDR * s' + 1) (h_brk h) l2';
  jn_sub : forall b, b ∈ l2' -> b ∈ l2;
  jn_covers : forall x, bp <= x < bp + HDR * s' \/ covers l2' x <-> bp <= x < bp + HDR * s \/ covers l2 x
}.

Lemma next_others : (forall x, x <> bp -> h_ptr h' x = h_ptr h x /\ h_size h' x = h_size h x) /\ h_brk h' = h_brk h.
Proof using.
  unfold h'. destruct (_ =? _); (split; [|done]); intros x Hx; simpl; rewrite ?upd_other by done; done.
Qed.

Lemma join_next : exists s' l2', joined s' l2'.
Proof using Hbase Hl Hb Hz Hbp Hs Hhi Hsz.
  assert (Hin : forall b, b ∈ l2 -> b.1 <> bp).
  { intros b Hin. destruct (blocks_in _ _ _ _ Hb Hin) as [? _]. unfold HDR in *. lia. }
  assert (Hkeep : forall l, (forall b, b ∈ l -> b ∈ l2) -> forall x, x ∈ l.*1 -> h_ptr h' x = h_ptr h x).
  { intros l Hsub x (b & -> & Hb')%list_elem_of_fmap. apply next_others, Hin, Hsub, Hb'. }
  destruct l2 as [|[a r] l] eqn:El.
  { exists s, []. simpl in Hl. fold q in Hl. assert (Eh : h' = set_ptr bp base h).
    { unfold h'. rewrite Hsz, Hl. by rewrite (proj2 (Z.eqb_neq _ _)) by (unfold HDR; lia). }
    split; [rewrite Eh; simpl; by rewrite upd_same|rewrite Eh; simpl; split_and!; [done|lia|lia]|done|by rewrite El|by rewrite El]. }
  destruct Hl as [Ea Hl']. fold q in Ea. cbn [fst] in Ea, Hl'. fold (fmap (M := list) fst l) in Hl'. destruct Hb as (H1 & H2 & H3 & H4). pose proof (Hz (a, r) ltac:(by left)) as Er. simpl in Er.
  destruct (decide (bp + HDR * s = a)) as [Ej|Ej].
  - exists (s + r), l. assert (Eh : h' = set_ptr bp (h_ptr h a) (set_size bp (s + r) h)).
    { unfold h'. rewrite Hsz, Ea. rewrite (proj2 (Z.eqb_eq _ _)), Er by done. unfold u32. rewrite Z.mod_small; [done|]. unfold HDR in *. lia. }
    split.
    + eapply links_from; [exact Hl'|rewrite Eh; simpl; by rewrite upd_same|]. apply Hkeep. intros b Hb'. by right.
    + rewrite Eh. simpl. rewrite upd_same. unfold HDR in *. split_and!; [done|lia|lia].
    + replace (bp + HDR * (s + r) + 1) with (a + HDR * r + 1) by (unfold HDR in *; lia). done.
    + intros b Hb'. rewrite El. by right.
    + intros x. rewrite El, covers_cons. unfold HDR in *. split; [intros [?|?]|intros [?|[?|?]]]; try (by right); try (by right; right); try lia.
  - exists s, ((a, r) :: l). assert (Eh : h' = set_ptr bp a h).
    { unfold h'. rewrite Hsz, Ea. by rewrite (proj2 (Z.eqb_neq _ _)) by done. }
    split.
    + split; [rewrite Eh; simpl; by rewrite upd_same|]. eapply links_from; [exact Hl'| |].
      * rewrite Eh. simpl. apply upd_other, not_eq_sym, (Hin (a, r)). by left.
      * apply Hkeep. intros b Hb'. by right.
    + rewrite Eh. simpl. split_and!; [done|lia|lia].
    + simpl. split_and!; [lia|done|done|done].
    + by rewrite El.
    + by rewrite El.
Qed.
End next.

Lemma incr_last p l : incr p l -> p <= last_of p l.
Proof using. revert p. induction l as [|a l IH]; intros p; simpl; [done|]. intros [? Hi]. specialize (IH _ Hi). lia. Qed.

(** The last header of a list is made to lead to [x]. *)
Lemma links_redirect h h' l : forall p l2 q x, links h p (l ++ l2) q -> incr p l -> h_ptr h' (last_of p l) = x ->
  (forall y, y <> last_of p l -> y = p \/ y ∈ l -> h_ptr h' y = h_ptr h y) -> links h' p l x.
Proof using.
  induction l as [|a l IH]; intros p l2 q x Hl Hi Hx Hy; simpl in *; [done|]. destruct Hl as [Ea Hl], Hi as [Hpa Hi].
  pose proof (incr_last _ _ Hi). split; [rewrite Hy; [done|lia|by left]|]. eapply IH; [exact Hl|done|done|].
  intros y Hn Hin. apply Hy; [done|]. right. destruct Hin as [->|Hin]; [by left|by right].
Qed.

Lemma after_last lo' hi l : forall p x, blocks lo' hi l -> lo' <= x -> (forall b, b ∈ l -> b.1 + HDR * b.2 <= x) ->
  (forall b, b ∈ l -> b.1 = last_of p (l.*1) -> b.1 + HDR * b.2 <> x) -> after lo' l <= x.
Proof using.
  revert lo'. induction l as [|[a r] l IH]; intros lo' p x Hb Hx Hle Hne; [done|]. destruct Hb as (? & ? & ? & Hb). simpl.
  pose proof (Hle (a, r) ltac:(by left)) as Ha. simpl in Ha. destruct l as [|[c y] l].
  { specialize (Hne (a, r) ltac:(by left) eq_refl). simpl in *. lia. }
  apply (IH _ a); [done| |intros b Hb'; apply Hle; by right|].
  - pose proof (Hle (c, y) ltac:(right; by left)) as Hc. destruct Hb as (? & ? & _). unfold HDR in *. simpl in Hc. lia.
  - intros b Hb' Eb. apply Hne; [by right|done].
Qed.

(** ** The second half: the block is linked in, or joined with the one before it *)
Section link.
Context (h h1 : heap) (l1 l2 l2' : list (Z * Z)) (bp s' : Z).
Let p := last_of base (l1.*1).
Hypothesis Ho : heap_ok h (l1 ++ l2).
Hypothesis Hbp : lo <= bp.
Hypothesis H1 : forall b, b ∈ l1 -> b.1 + HDR * b.2 <= bp.
Hypothesis E1 : forall x, x <> bp -> h_ptr h1 x = h_ptr h x /\ h_size h1 x = h_size h x.
Hypothesis Ebrk : h_brk h1 = h_brk h.
Hypothesis Hlinks : links h1 bp (l2'.*1) base.
Hypothesis Hsize : h_size h1 bp = s' /\ 1 <= s' /\ bp + HDR * s' <= h_brk h.
Hypothesis Hblocks : blocks (bp + HDR * s' + 1) (h_brk h) l2'.
Hypothesis Hsub : forall b, b ∈ l2' -> b ∈ l2.

Definition link_heap : heap :=
  set_freep p (if p + HDR * h_size h1 p =? bp then
    set_ptr p (h_ptr h1 bp) (set_size p (u32 (h_size h1 p + h_size h1 bp)) h1) else set_ptr p bp h1).

Lemma link_sizes b : b ∈ l1 \/ b ∈ l2' -> b.1 <> bp /\ h_size h1 b.1 = b.2 /\ base < b.1.
Proof using Hbase Ho H1 E1 Hblocks Hsize Hsub.
  intros Hb. assert (Hin : b ∈ l1 ++ l2) by (apply elem_of_app; destruct Hb; auto).
  pose proof (blocks_in _ _ _ _ (ho_blocks _ _ Ho) Hin) as (? & ? & ?).
  assert (Hne : b.1 <> bp).
  { destruct Hb as [Hb|Hb]; [specialize (H1 _ Hb); unfold HDR in *; lia|].
    destruct (blocks_in _ _ _ _ Hblocks Hb) as (? & _). unfold HDR in *. lia. }
  split_and!; [done| |lia]. rewrite (proj2 (E1 _ Hne)). by apply (ho_sizes _ _ Ho).
Qed.

Lemma link_incr : incr base (l1.*1) /\ base <= p < bp.
Proof using Hbase Ho H1 Hbp.
  pose proof (ho_blocks _ _ Ho) as Hb. apply blocks_app in Hb as [Hb _]. pose proof (blocks_incr _ _ _ base Hb ltac:(lia)) as Hi.
  split; [done|]. split; [by apply incr_last|]. unfold p. destruct (last_of_in base (l1.*1)) as [->|Hp]; [lia|].
  apply list_elem_of_fmap in Hp as (b & -> & Hp). specialize (H1 _ Hp). destruct (blocks_in _ _ _ _ Hb Hp) as (? & ? & _). unfold HDR in *. lia.
Qed.

(** The links of the first part, however its last header is redirected. *)
Lemma link_first h2 x : (forall y, y <> p -> h_ptr h2 y = h_ptr h1 y) -> h_ptr h2 p = x -> links h2 base (l1.*1) x.
Proof using Hbase Ho H1 Hbp E1.
  intros Hy Hx. destruct link_incr as [Hi Hp]. pose proof (ho_links _ _ Ho) as Hl. rewrite fmap_app in Hl.
  eapply links_redirect; [exact Hl|done|exact Hx|]. intros y Hn Hin. rewrite Hy by done. apply E1.
  destruct Hin as [->|(b & -> & Hb)%list_elem_of_fmap]; [lia|]. specialize (H1 _ Hb).
  destruct (blocks_in _ _ _ _ (ho_blocks _ _ Ho) (proj2 (elem_of_app _ _ _) (or_introl Hb))) as (? & ? & _). unfold HDR in *. lia.
Qed.

Lemma link_in : p + HDR * h_size h1 p <> bp -> heap_ok link_heap (l1 ++ (bp, s') :: l2').
Proof using Hbase Ho H1 Hbp E1 Ebrk Hlinks Hsize Hblocks Hsub.
  intros Hn. destruct link_incr as [Hi Hp]. unfold link_heap. rewrite (proj2 (Z.eqb_neq _ _)) by done.
  pose proof (ho_blocks _ _ Ho) as Hb. apply blocks_app in Hb as [Hb _]. destruct Hsize as (Es & Hs1 & Hs2). split; simpl.
  - rewrite fmap_app. cbn [fmap list_fmap fst]. apply links_app. split.
    + apply (link_first (set_freep p (set_ptr p bp h1))); simpl; [intros y Hy; by apply upd_other|apply upd_same].
    + eapply links_ext; [|exact Hlinks]. simpl. intros x Hx. apply upd_other. destruct Hx as [->|(b & -> & Hx)%list_elem_of_fmap]; [lia|].
      destruct (blocks_in _ _ _ _ Hblocks Hx) as (? & _). unfold HDR in *. lia.
  - intros b [Hb'|[->|Hb']%elem_of_cons]%elem_of_app; [apply link_sizes; auto|done|apply link_sizes; auto].
  - rewrite (proj2 (E1 base ltac:(lia))). apply Ho.
  - rewrite Ebrk. apply blocks_app. split; [done|]. simpl. split_and!; [|lia|lia|done].
    eapply (after_last lo (h_brk h) l1 base); [done|done|done|]. intros b Hb' Eb. fold p in Eb.
    rewrite <-Eb, (proj1 (proj2 (link_sizes b (or_introl Hb')))) in Hn. done.
  - rewrite Ebrk. apply Ho.
  - unfold p. destruct (last_of_in base (l1.*1)) as [->|Hin]; [by left|]. right. rewrite fmap_app. apply elem_of_app. by left.
Qed.

Lemma link_joined l a r : l1 = l ++ [(a, r)] -> a + HDR * r = bp -> heap_ok link_heap (l ++ (a, r + s') :: l2').
Proof using Hbase Ho H1 Hbp E1 Ebrk Hlinks Hsize Hblocks Hsub.
  intros El Ej. assert (Ha : (a, r) ∈ l1) by (rewrite El; apply elem_of_app; right; by left).
  destruct (link_sizes (a, r) (or_introl Ha)) as (Hna & Er & Hba). simpl in Hna, Er, Hba. destruct Hsize as (Es & Hs1 & Hs2).
  assert (Hpa : p = a) by (unfold p; rewrite El, fmap_app; apply last_of_app).
  pose proof (ho_blocks _ _ Ho) as Hb. apply blocks_app in Hb as [Hb _]. rewrite El in Hb. apply blocks_app in Hb as [Hb1 Hb2].
  destruct Hb2 as (Hb2 & Hr & Hb3 & _). pose proof (ho_brk _ _ Ho) as Hbr.
  assert (Eh : link_heap = set_freep a (set_ptr a (h_ptr h1 bp) (set_size a (r + s') h1))).
  { unfold link_heap. rewrite Hpa, Er, Ej, Z.eqb_refl, Es. unfold u32. rewrite Z.mod_small; [done|]. unfold HDR in *. lia. }
  assert (Hl : forall b, b ∈ l -> b.1 <> a /\ b ∈ l1).
  { intros b Hb'. split; [|rewrite El; apply elem_of_app; by left]. pose proof (blocks_after _ _ _ _ Hb1 Hb').
    destruct (blocks_in _ _ _ _ Hb1 Hb') as (_ & ? & _). unfold HDR in *. lia. }
  assert (Hl2 : forall b, b ∈ l2' -> b.1 <> a).
  { intros b Hb'. destruct (blocks_in _ _ _ _ Hblocks Hb') as (? & _). unfold HDR in *. lia. }
  rewrite Eh. split; simpl.
  - rewrite fmap_app. cbn [fmap list_fmap fst]. apply links_app. split.
    + pose proof (ho_links _ _ Ho) as Hk. rewrite El, <-app_assoc, fmap_app in Hk. cbn [app fmap list_fmap fst] in Hk.
      apply links_app in Hk as [Hk _]. eapply links_ext; [|exact Hk]. simpl. intros x Hx. rewrite upd_other.
      * apply E1. destruct Hx as [->|(b & -> & Hx)%list_elem_of_fmap]; [lia|]. apply link_sizes. left. by apply Hl.
      * destruct Hx as [->|(b & -> & Hx)%list_elem_of_fmap]; [lia|]. apply not_eq_sym. by apply Hl.
    + eapply links_from; [exact Hlinks|simpl; apply upd_same|]. simpl. intros x (b & -> & Hx)%list_elem_of_fmap. apply upd_other, not_eq_sym. by apply Hl2.
  - intros b [Hb'|[->|Hb']%elem_of_cons]%elem_of_app; simpl.
    + rewrite upd_other by (apply not_eq_sym; by apply Hl). apply link_sizes. left. by apply Hl.
    + apply upd_same.
    + rewrite upd_other by (apply not_eq_sym; by apply Hl2). apply link_sizes. by right.
  - rewrite upd_other by lia. rewrite (proj2 (E1 base ltac:(lia))). apply Ho.
  - rewrite Ebrk. apply blocks_app. split; [done|]. simpl. split_and!; [lia|lia|unfold HDR in *; lia|].
    replace (a + HDR * (r + s') + 1) with (bp + HDR * s' + 1) by (unfold HDR in *; lia). done.
  - rewrite Ebrk. apply Ho.
  - right. rewrite fmap_app. apply elem_of_app. right. by left.
Qed.
End link.

(** What an operation does to the free list: it covers [x] exactly when [P x],
    and no size outside it changes. *)
Record moved (h : heap) (P : Z -> Prop) (h' : heap) (fl' : list (Z * Z)) : Prop := {
  mv_ok : heap_ok h' fl';
  mv_covers : forall x, covers fl' x <-> P x;
  mv_sizes : forall x, x <> base -> ~ covers fl' x -> h_size h' x = h_size h x;
  mv_brk : h_brk h' = h_brk h
}.

Lemma covers_head l a s : (a, s) ∈ l -> 1 <= s -> covers l a.
Proof using. intros Hin Hs. exists a, s. split; [done|]. unfold HDR. lia. Qed.

Lemma free_link_spec h l1 l2 bp s (p := last_of base (l1.*1)) :
  heap_ok h (l1 ++ l2) -> lo <= bp -> 1 <= s -> bp + HDR * s <= h_brk h -> h_size h bp = s ->
  (forall b, b ∈ l1 -> b.1 + HDR * b.2 <= bp) -> (forall b, b ∈ l2 -> bp + HDR * s <= b.1) ->
  exists fl', moved h (fun x => covers (l1 ++ l2) x \/ bp <= x < bp + HDR * s) (free_link h bp p) fl'.
Proof using Hbase.
  intros Ho Hbp Hs Hhi Hsz H1 H2. pose proof (ho_brk _ _ Ho) as Hbr. pose proof (ho_blocks _ _ Ho) as Hb.
  assert (Hl2 : links h p (l2.*1) base) by (pose proof (ho_links _ _ Ho) as Hl; rewrite fmap_app in Hl; by apply links_last in Hl).
  assert (Hb2 : blocks (bp + HDR * s) (h_brk h) l2).
  { apply blocks_app in Hb as [_ Hb]. destruct l2 as [|[a r] l2]; [done|]. specialize (H2 (a, r) ltac:(by left)).
    destruct Hb as (_ & ? & ? & ?). by split_and!. }
  assert (Hz : forall b, b ∈ l2 -> h_size h b.1 = b.2) by (intros b Hb'; apply (ho_sizes _ _ Ho), elem_of_app; by right).
  destruct (join_next h l2 bp s p Hl2 Hb2 Hz ltac:(lia) Hs (conj Hhi (proj2 Hbr)) Hsz) as (s' & l2' & [Jl Js Jb Jsub Jc]).
  destruct (next_others h bp p) as [E1 Eb]. set (h1 := if _ =? _ then _ else _) in *.
  assert (Js' : h_size h1 bp = s' /\ 1 <= s' /\ bp + HDR * s' <= h_brk h) by (destruct Js as (? & ? & ?); split_and!; [done|lia|done]).
  change (free_link h bp p) with (link_heap h1 l1 bp). destruct (decide (p + HDR * h_size h1 p = bp)) as [Ej|Ej].
  - assert (Hl : exists l a r, l1 = l ++ [(a, r)]).
    { destruct l1 as [|b0 l0 _] using rev_ind; [|destruct b0; eauto]. unfold p in Ej. simpl in Ej.
      rewrite (proj2 (E1 base ltac:(lia))), (ho_base _ _ Ho) in Ej. unfold HDR in Ej. lia. }
    destruct Hl as (l & a & r & El). assert (Hpa : p = a) by (unfold p; rewrite El, fmap_app; apply last_of_app).
    assert (Ha : (a, r) ∈ l1) by (rewrite El; apply elem_of_app; right; by left).
    destruct (link_sizes h h1 l1 l2 l2' bp s' Ho H1 E1 Js' Jb Jsub (a, r) (or_introl Ha)) as (_ & Er & _). simpl in Er.
    rewrite Hpa, Er in Ej. exists (l ++ (a, r + s') :: l2').
    pose proof (link_joined h h1 l1 l2 l2' bp s' Ho Hbp H1 E1 Eb Jl Js' Jb Jsub l a r El Ej) as Ok.
    assert (Hr : 1 <= r) by (by destruct (blocks_in _ _ _ _ Hb (proj2 (elem_of_app _ _ _) (or_introl Ha))) as (_ & ? & _)).
    assert (Hc : forall x, covers (l ++ (a, r + s') :: l2') x <-> covers (l1 ++ l2) x \/ bp <= x < bp + HDR * s).
    { intros x. rewrite El, !covers_app, !covers_cons. specialize (Jc x). pose proof (covers_nil x). unfold HDR in *. 
      assert (a <= x < a + 16 * (r + s') <-> a <= x < a + 16 * r \/ bp <= x < bp + 16 * s') by lia. tauto. }
    split; [exact Ok|exact Hc| |].
    + intros x Hxb Hx. unfold link_heap. fold p. rewrite Hpa, Er, Ej, Z.eqb_refl. simpl. rewrite upd_other.
      * apply E1. intros ->. apply Hx, Hc. right. unfold HDR. lia.
      * intros <-. apply Hx. apply (covers_head _ _ (r + s')); [apply elem_of_app; right; by left|lia].
    + unfold link_heap. fold p. rewrite Hpa, Er, Ej, Z.eqb_refl. done.
  - exists (l1 ++ (bp, s') :: l2'). pose proof (link_in h h1 l1 l2 l2' bp s' Ho Hbp H1 E1 Eb Jl Js' Jb Jsub Ej) as Ok.
    assert (Hc : forall x, covers (l1 ++ (bp, s') :: l2') x <-> covers (l1 ++ l2) x \/ bp <= x < bp + HDR * s).
    { intros x. rewrite !covers_app, covers_cons. specialize (Jc x). tauto. }
    unfold link_heap in *. fold p in Ok |- *. rewrite (proj2 (Z.eqb_neq _ _)) in Ok |- * by done.
    split; [exact Ok|exact Hc| |done]. intros x Hxb Hx. simpl. apply E1. intros ->. apply Hx, Hc. right. unfold HDR. lia.
Qed.

(** [free] terminates and gives the block back. *)
Lemma free_spec h fl bp s : heap_ok h fl -> held fl h bp s -> h_size h bp = s ->
  exists h' fl', free (bp + HDR) h = Some h' /\ moved h (fun x => covers fl x \/ bp <= x < bp + HDR * s) h' fl'.
Proof using Hbase.
  intros Ho (Hbp & Hs & Hhi & Hd) Hsz. pose proof (ho_blocks _ _ Ho) as Hb.
  destruct (blocks_split _ _ _ _ _ Hb Hs Hd) as (l1 & l2 & -> & H1 & H2).
  destruct (free_link_spec h l1 l2 bp s Ho Hbp Hs Hhi Hsz H1 H2) as [fl' M]. exists (free_link h bp (last_of base (l1.*1))), fl'.
  split; [|exact M]. unfold free. replace (bp + HDR - HDR) with bp by lia.
  pose proof (blocks_count _ _ _ Hb ltac:(lia) (proj1 (ho_brk _ _ Ho))) as Hc. pose proof (ho_brk _ _ Ho).
  assert (Hin : forall b, b ∈ l1 ++ l2 -> 1 <= b.2) by (intros b Hb'; apply (blocks_in _ _ _ _ Hb Hb')).
  rewrite (free_find_spec base h bp ltac:(lia) (l1.*1) (l2.*1)); [done|..].
  - rewrite <-fmap_app. apply Ho.
  - rewrite <-fmap_app. eapply blocks_incr; [exact Hb|lia].
  - intros a (b & -> & Hb')%list_elem_of_fmap. specialize (H1 _ Hb'). specialize (Hin b ltac:(apply elem_of_app; by left)). unfold HDR in *. lia.
  - intros a (b & -> & Hb')%list_elem_of_fmap. specialize (H2 _ Hb'). unfold HDR in *. lia.
  - rewrite <-fmap_app. apply Ho.
  - rewrite <-fmap_app, length_fmap. unfold search_fuel, HDR in *. divlia.
Qed.

(** ** malloc *)

(** The header that leads to [a]. *)
Lemma links_pred h p l q prev : forall a, links h p l q -> prev = p \/ prev ∈ l -> h_ptr h prev = a -> a <> q ->
  exists l1 l2, l = l1 ++ a :: l2 /\ prev = last_of p l1.
Proof using.
  revert p. induction l as [|b l IH]; intros p a Hl Hp Ea Hq; simpl in Hl.
  { destruct Hp as [->|?%not_elem_of_nil]; [congruence|done]. }
  destruct Hl as [Eb Hl]. destruct (decide (prev = p)) as [->|Hne].
  { exists [], l. split; [|done]. simpl. congruence. }
  destruct (IH b a Hl) as (l1 & l2 & -> & ->); [|done|done|by exists (b :: l1), l2].
  destruct Hp as [?|[?|?]%elem_of_cons]; auto. done.
Qed.

(** A block is not adjacent to another one. *)
Lemma blocks_apart lo' hi l a s : blocks lo' hi l -> (a, s) ∈ l -> ~ covers l (a + HDR * s).
Proof using.
  revert lo'. induction l as [|[b r] l IH]; intros lo' Hb Hin; [by apply not_elem_of_nil in Hin|].
  destruct Hb as (H1 & H2 & H3 & H4). rewrite covers_cons. apply elem_of_cons in Hin as [[= <- <-]|Hin].
  - intros [?|(c & y & Hc & ?)]; [lia|]. destruct (blocks_in _ _ _ _ H4 Hc) as [? _]. simpl in *. lia.
  - intros [?|?]; [|by eapply IH]. destruct (blocks_in _ _ _ _ H4 Hin) as (? & ? & _). simpl in *. unfold HDR in *. lia.
Qed.

Lemma covers_block lo' hi l p n : blocks lo' hi l -> 1 <= n -> (forall x, p <= x < p + HDR * n -> covers l x) ->
  exists a s, (a, s) ∈ l /\ n <= s.
Proof using.
  intros Hb Hn Hc. destruct (Hc p) as (a & s & Hin & Hx); [unfold HDR; lia|]. exists a, s. split; [done|].
  destruct (decide (a + HDR * s < p + HDR * n)) as [Hlt|]; [|unfold HDR in *; lia].
  exfalso. eapply blocks_apart; [exact Hb|exact Hin|]. apply Hc. lia.
Qed.

(** Taking a block, or the end of one. *)
Section carve.
Context (h : heap) (l1 l2 : list (Z * Z)) (a s n : Z).
Let prev := last_of base (l1.*1).
Hypothesis Ho : heap_ok h (l1 ++ (a, s) :: l2).
Hypothesis Hn : 1 <= n <= s.

Record carved (p : Z) (h' : heap) (fl' : list (Z * Z)) : Prop := {
  cv_ok : heap_ok h' fl';
  cv_size : h_size h' p = n;
  cv_in : forall x, p <= x < p + HDR * n -> covers (l1 ++ (a, s) :: l2) x;
  cv_covers : forall x, covers fl' x <-> covers (l1 ++ (a, s) :: l2) x /\ ~ p <= x < p + HDR * n;
  cv_sizes : forall x, ~ covers (l1 ++ (a, s) :: l2) x -> h_size h' x = h_size h x;
  cv_brk : h_brk h' = h_brk h
}.

Lemma carve_parts : h_size h a = s /\ blocks lo (h_brk h) l1 /\ after lo l1 <= a /\ a + HDR * s <= h_brk h /\
  blocks (a + HDR * s + 1) (h_brk h) l2 /\ base < a /\
  (forall b, b ∈ l1 -> b.1 + HDR * b.2 < a /\ base < b.1 /\ 1 <= b.2) /\ (forall b, b ∈ l2 -> a + HDR * s < b.1 /\ 1 <= b.2).
Proof using Hbase Ho Hn.
  pose proof (ho_blocks _ _ Ho) as Hb. apply blocks_app in Hb as [Hb1 (Ha & Hs & Hhi & Hb2)].
  assert (Hin : (a, s) ∈ l1 ++ (a, s) :: l2) by (apply elem_of_app; right; by left).
  destruct (blocks_in _ _ _ _ (ho_blocks _ _ Ho) Hin) as (? & _). simpl in *.
  split_and!; try done; [by apply (ho_sizes _ _ Ho (a, s))|lia| |].
  - intros b Hb. pose proof (blocks_after _ _ _ _ Hb1 Hb). destruct (blocks_in _ _ _ _ Hb1 Hb) as (? & ? & _). split_and!; lia.
  - intros b Hb. destruct (blocks_in _ _ _ _ Hb2 Hb) as (? & ? & _). split; lia.
Qed.

Lemma last_node : prev ∈ base :: (l1 ++ l2).*1.
Proof using. unfold prev. destruct (last_of_in base (l1.*1)) as [->|?]; [by left|]. right. rewrite fmap_app. apply elem_of_app. by left. Qed.

(** The whole block. *)
Lemma carve_whole : s = n -> exists h' fl', carve n prev a h = (a + HDR, h') /\ carved a h' fl'.
Proof using Hbase Ho Hn.
  intros Es. destruct carve_parts as (Ez & Hb1 & Ha & Hhi & Hb2 & Hba & H1 & H2).
  exists (set_freep prev (set_ptr prev (h_ptr h a) h)), (l1 ++ l2). split; [unfold carve; by rewrite Ez, Es, Z.eqb_refl|].
  pose proof (ho_links _ _ Ho) as Hl. rewrite fmap_app in Hl. cbn [fmap list_fmap fst] in Hl. pose proof Hl as Hl'. apply links_app in Hl' as [_ Hl'].
  assert (Hi : incr base (l1.*1)) by (eapply blocks_incr; [exact Hb1|lia]).
  assert (Hpa : prev < a).
  { unfold prev. destruct (last_of_in base (l1.*1)) as [->|(b & -> & Hb)%list_elem_of_fmap]; [done|]. specialize (H1 _ Hb). unfold HDR in *. lia. }
  split; try done.
  - split; simpl; [|intros b Hb; apply (ho_sizes _ _ Ho)|apply Ho| |apply Ho|apply last_node].
    + rewrite fmap_app. assert (Hn2 : forall x, x ∈ l2.*1 -> h_ptr (set_freep prev (set_ptr prev (h_ptr h a) h)) x = h_ptr h x).
      { intros x (b & -> & Hx)%list_elem_of_fmap. simpl. apply upd_other. specialize (H2 _ Hx). unfold HDR in *. lia. }
      assert (Hf : links (set_freep prev (set_ptr prev (h_ptr h a) h)) base (l1.*1) (h_ptr h a)).
      { eapply links_redirect; [exact Hl|done|simpl; apply upd_same|]. intros y Hy _. simpl. by apply upd_other, not_eq_sym. }
      destruct l2 as [|[b r] l2'].
      * rewrite app_nil_r. simpl in Hl'. rewrite Hl' in Hf |- *. exact Hf.
      * cbn [fmap list_fmap fst] in Hl', Hn2 |- *. destruct Hl' as [Eb Hl']. rewrite Eb in Hf, Hn2 |- *. apply links_app. split; [exact Hf|].
        eapply links_ext; [|exact Hl']. intros x [->|Hx]; apply Hn2; [by left|by right].
    + apply elem_of_app in Hb. apply elem_of_app. destruct Hb; [by left|right; by right].
    + apply blocks_app. split; [done|]. eapply blocks_le; [|reflexivity|exact Hb2]. unfold HDR in *. lia.
  - simpl. congruence.
  - intros x Hx. apply covers_app. right. apply covers_cons. left. by rewrite Es.
  - intros x. rewrite !covers_app, covers_cons, Es. split; [|tauto]. intros [Hx|Hx]; (split; [tauto|]);
      destruct Hx as (b & r & Hb & Hx); [specialize (H1 _ Hb)|specialize (H2 _ Hb)]; simpl in *; unfold HDR in *; lia.
Qed.

(** The end of the block. *)
Lemma carve_end : s <> n -> exists h' fl', let p := a + HDR * (s - n) in carve n prev a h = (p + HDR, h') /\ carved p h' fl'.
Proof using Hbase Ho Hn.
  intros Es. destruct carve_parts as (Ez & Hb1 & Ha & Hhi & Hb2 & Hba & H1 & H2). set (p := a + HDR * (s - n)).
  exists (set_freep prev (set_size p n (set_size a (s - n) h))), (l1 ++ (a, s - n) :: l2).
  split; [unfold carve; rewrite Ez, (proj2 (Z.eqb_neq _ _)) by done; simpl; by rewrite upd_same|].
  assert (Hpa : a < p) by (unfold p, HDR; lia).
  assert (Hz : forall b, b ∈ l1 \/ b ∈ l2 -> b.1 <> a /\ b.1 <> p).
  { intros b [Hb|Hb]; [specialize (H1 _ Hb)|specialize (H2 _ Hb)]; unfold p, HDR in *; lia. }
  split; try done.
  - split; simpl; [|intros b Hb| | |apply Ho|].
    + pose proof (ho_links _ _ Ho) as Hl. rewrite fmap_app in Hl |- *. eapply links_ext; [|exact Hl]. done.
    + apply elem_of_app in Hb as [Hb|[->|Hb]%elem_of_cons].
      * destruct (Hz b (or_introl Hb)). rewrite !upd_other by done. apply (ho_sizes _ _ Ho), elem_of_app. by left.
      * simpl. rewrite upd_other by lia. apply upd_same.
      * destruct (Hz b (or_intror Hb)). rewrite !upd_other by done. apply (ho_sizes _ _ Ho), elem_of_app. right. by right.
    + rewrite !upd_other by lia. apply Ho.
    + apply blocks_app. split; [done|]. simpl. split_and!; [lia|lia|unfold HDR in *; lia|]. eapply blocks_le; [|reflexivity|exact Hb2]. unfold HDR. lia.
    + pose proof last_node as Hp. rewrite fmap_app in Hp |- *. cbn [fmap list_fmap fst]. set_solver.
  - simpl. apply upd_same.
  - intros x Hx. apply covers_app. right. apply covers_cons. left. unfold p, HDR in *. lia.
  - intros x. rewrite !covers_app, !covers_cons.
    assert (Hsplit : a <= x < a + HDR * s <-> a <= x < a + HDR * (s - n) \/ p <= x < p + HDR * n) by (unfold p, HDR in *; lia).
    assert (Hx1 : covers l1 x -> ~ p <= x < p + HDR * n).
    { intros (b & r & Hb & Hx). specialize (H1 _ Hb). simpl in *. unfold p, HDR in *. lia. }
    assert (Hx2 : covers l2 x -> ~ p <= x < p + HDR * n).
    { intros (b & r & Hb & Hx). specialize (H2 _ Hb). simpl in *. unfold p, HDR in *. lia. }
    assert (a <= x < a + HDR * (s - n) -> ~ p <= x < p + HDR * n) by (unfold p; lia). tauto.
  - intros x Hx. simpl. rewrite !upd_other; [done| |]; intros <-; apply Hx, covers_app; right; apply covers_cons; left; unfold p, HDR; lia.
Qed.

Lemma carve_spec : exists p h' fl', carve n prev a h = (p + HDR, h') /\ carved p h' fl'.
Proof using Hbase Ho Hn.
  destruct (decide (s = n)) as [E|E]; [destruct (carve_whole E) as (h' & fl' & ? & ?)|destruct (carve_end E) as (h' & fl' & ? & ?)]; eauto.
Qed.
End carve.

(** The list read from [freep] on. *)
Lemma circle h fl : heap_ok h fl -> exists r, links h (h_freep h) r (h_freep h) /\ h_freep h ∉ r /\ length r = length fl /\
  forall x, x = h_freep h \/ x ∈ r <-> x ∈ base :: fl.*1.
Proof using Hbase.
  intros Ho. pose proof (ho_links _ _ Ho) as Hl. pose proof (blocks_incr _ _ _ base (ho_blocks _ _ Ho) ltac:(lia)) as Hi.
  assert (Hnd : forall p l, incr p l -> p ∉ l).
  { clear. intros p l. assert (H : forall q, q <= p -> incr p l -> q ∉ l); [|intros; by apply (H p)]. revert p.
    induction l as [|a l IH]; intros p q Hq; simpl; [by intros _ ?%not_elem_of_nil|]. intros [Hpa Hi] [->|Hin]%elem_of_cons; [lia|].
    apply (IH a q); [lia|done|done]. }
  assert (Hnd2 : forall l1 p, base ∉ fl.*1 -> incr base (l1 ++ p :: []) -> p ∉ l1).
  { clear. intros l1 p _. generalize base. induction l1 as [|a l1 IH]; intros b; simpl; [by intros _ ?%not_elem_of_nil|].
    intros [Hb Hi] [->|Hin]%elem_of_cons; [|by eapply IH]. apply incr_app in Hi as [H1 [H2 _]]. pose proof (incr_last _ _ H1). lia. }
  pose proof (Hnd _ _ Hi) as Hb0. pose proof (ho_freep _ _ Ho) as [Hf|Hf]%elem_of_cons.
  - rewrite Hf. exists (fl.*1). split_and!; [done|done|apply length_fmap|]. intros x. rewrite elem_of_cons. done.
  - apply list_elem_of_split in Hf as (l1 & l2 & El). rewrite El in Hl, Hi, Hb0 |- *. set (f := h_freep h) in *.
    pose proof (Hnd2 l1 f ltac:(by rewrite El)) as Hn1. apply links_app in Hl as [Hl1 Hl2].
    assert (Hf1 : f ∉ l1) by (apply Hn1; apply incr_app in Hi as [? [? _]]; apply incr_app; by split_and!).
    assert (Hf2 : f ∉ l2) by (apply incr_app in Hi as [_ [_ Hi]]; by apply Hnd).
    exists (l2 ++ base :: l1). split_and!; [by apply links_app| | |].
    + rewrite elem_of_app, elem_of_cons. intros [?|[E|?]]; [done| |done]. apply Hb0. rewrite <-E. apply elem_of_app. right. by left.
    + rewrite <-(length_fmap fst fl), El, !length_app. simpl. lia.
    + intros x. set_solver.
Qed.

Context (grant : Z -> Z -> bool).
Hypothesis Hgrant : forall b n, grant b n = true -> 0 <= n -> b + n < 2 ^ 32.

(** One way round the list: a block that is large enough is taken, or there is
    none and the kernel is asked for memory. *)
Lemma malloc_scan h n r : forall prev fuel, links h prev r (h_freep h) -> h_freep h ∉ r -> (length r < fuel)%nat ->
  (exists prv a, (prv = prev \/ prv ∈ r) /\ h_ptr h prv = a /\ n <= h_size h a /\
    malloc_loop grant fuel n prev (h_ptr h prev) h = Some (carve n prv a h)) \/
  ((forall a, a ∈ r \/ a = h_freep h -> h_size h a < n) /\
    malloc_loop grant fuel n prev (h_ptr h prev) h =
    ('(p, h1) ← morecore grant n h; if p =? 0 then Some (0, h1) else malloc_loop grant (fuel - S (length r)) n p (h_ptr h1 p) h1)).
Proof using Hbase Hgrant.
  induction r as [|a r IH]; intros prev fuel Hl Hf Hfu; (destruct fuel as [|fuel]; [simpl in Hfu; lia|]); cbn [malloc_loop].
  - simpl in Hl. destruct (Z.leb_spec n (h_size h (h_ptr h prev))) as [Hle|Hlt].
    + left. exists prev, (h_ptr h prev). by split_and!; [left|..].
    + right. split; [intros a [?%not_elem_of_nil| ->]; [done|by rewrite <-Hl]|]. rewrite Hl, Z.eqb_refl. cbn [length].
      by rewrite Nat.sub_succ, Nat.sub_0_r.
  - destruct Hl as [Ea Hl]. rewrite Ea. destruct (Z.leb_spec n (h_size h a)) as [Hle|Hlt].
    + left. exists prev, a. by split_and!; [left|..].
    + rewrite (proj2 (Z.eqb_neq _ _)) by set_solver. cbn [length] in *. rewrite Nat.sub_succ.
      destruct (IH a fuel Hl) as [(prv & c & Hp & Ec & Hn & E)|[Hall E]]; [set_solver|lia|left|right].
      * exists prv, c. split_and!; [|done|done|done]. right. set_solver.
      * split; [|done]. intros c [[->|Hc]%elem_of_cons|Hc]; [done|apply Hall; by left|apply Hall; by right].
Qed.

(** Enough bytes for sbrk's [int]. *)
Definition small (n : Z) : Prop := 1 <= n /\ HDR * n < 2 ^ 31.

(** The kernel grants [nu] units, and they become free. *)
Definition more (nu : Z) : Z := if nu <? 4096 then 4096 else nu.

Lemma morecore_spec h fl n : heap_ok h fl -> small n ->
  (grant (h_brk h) (HDR * more n) = false /\ morecore grant n h = Some (0, h)) \/
  exists h' fl', morecore grant n h = Some (h_freep h', h') /\ heap_ok h' fl' /\ h_brk h' = h_brk h + HDR * more n /\
    (forall x, covers fl' x <-> covers fl x \/ h_brk h <= x < h_brk h') /\
    (forall x, x <> base -> ~ covers fl x -> x < h_brk h -> h_size h' x = h_size h x).
Proof using Hbase Hgrant.
  intros Ho [Hn1 Hn2]. unfold morecore. fold (more n). assert (Hm : 4096 <= more n /\ n <= more n /\ HDR * more n < 2 ^ 31).
  { unfold more, HDR in *. destruct (Z.ltb_spec n 4096); lia. }
  set (m := more n) in *. pose proof (ho_brk _ _ Ho) as Hbr. pose proof (ho_blocks _ _ Ho) as Hb.
  assert (Ei : i32 (m * HDR) = HDR * m) by (unfold i32, HDR in *; rewrite Z.mod_small; lia).
  unfold sbrk. rewrite Ei. destruct (grant (h_brk h) (HDR * m)) eqn:Eg; [right|left; by rewrite Z.eqb_refl].
  pose proof (Hgrant _ _ Eg ltac:(unfold HDR; lia)) as Hlim. set (b := h_brk h) in *.
  rewrite (proj2 (Z.eqb_neq _ _)) by lia. set (h1 := set_size b m (set_brk (b + HDR * m) h)).
  assert (Hin : forall c, c ∈ fl -> c.1 + HDR * c.2 <= b /\ 1 <= c.2 /\ c.1 <> b).
  { intros c Hc. destruct (blocks_in _ _ _ _ Hb Hc) as (? & ? & ?). unfold HDR in *. split_and!; lia. }
  assert (Ho1 : heap_ok h1 fl).
  { split; simpl; [|intros c Hc; rewrite upd_other by (apply not_eq_sym, Hin, Hc); by apply (ho_sizes _ _ Ho)| | |unfold HDR in *; lia|apply Ho].
    - eapply links_ext; [|apply Ho]. done.
    - rewrite upd_other by lia. apply Ho.
    - eapply blocks_le; [reflexivity| |exact Hb]. unfold HDR in *. lia. }
  destruct (free_spec h1 fl b m Ho1) as (h' & fl' & Ef & M); [|simpl; apply upd_same|].
  { split_and!; [lia|lia|simpl; lia|]. intros c Hc. left. by apply Hin. }
  destruct M as [Mo Mc Ms Mb]. simpl in Mb. exists h', fl'. rewrite Ef. simpl. split_and!; [done|done|done| |].
  - intros x. rewrite Mc, Mb. done.
  - intros x Hx Hc Hlt. rewrite Ms; [|done|rewrite Mc; intros [?|?]; [done|lia]]. simpl. apply upd_other. lia.
Qed.

(** [n] units at [p] have come from the free list or from the kernel. *)
Record taken (h : heap) (fl : list (Z * Z)) (n p : Z) (h' : heap) (fl' : list (Z * Z)) : Prop := {
  tk_ok : heap_ok h' fl';
  tk_size : h_size h' p = n;
  tk_brk : h_brk h <= h_brk h';
  tk_range : forall x, p <= x < p + HDR * n -> covers fl x \/ h_brk h <= x < h_brk h';
  tk_covers : forall x, covers fl' x <-> (covers fl x \/ h_brk h <= x < h_brk h') /\ ~ p <= x < p + HDR * n;
  tk_sizes : forall x, x <> base -> ~ covers fl x -> x < h_brk h -> h_size h' x = h_size h x
}.

(** A block found by the scan is taken. *)
Lemma take_found h fl n prv a : heap_ok h fl -> 1 <= n -> prv ∈ base :: fl.*1 -> h_ptr h prv = a -> n <= h_size h a ->
  exists p h' fl', carve n prv a h = (p + HDR, h') /\ taken h fl n p h' fl'.
Proof using Hbase.
  intros Ho Hn Hp Ea Hs. assert (Hab : a <> base) by (intros ->; rewrite (ho_base _ _ Ho) in Hs; lia).
  destruct (links_pred h base (fl.*1) base prv a (ho_links _ _ Ho) ltac:(by apply elem_of_cons in Hp) Ea Hab) as (k1 & k2 & Ef & Eprv).
  apply fmap_app_inv in Ef as (l1 & l2' & -> & El & ->).
  destruct l2' as [|[a' s] l2]; [done|]. injection El as -> ->.
  assert (Es : h_size h a' = s) by (apply (ho_sizes _ _ Ho (a', s)), elem_of_app; right; by left). rewrite Es in Hs.
  destruct (carve_spec h l1 l2 a' s n Ho ltac:(lia)) as (p & h' & fl' & Ec & [Co Cs Ci Cc Cz Cb]).
  exists p, h', fl'. rewrite Eprv. split; [exact Ec|]. split; [done|done|lia|intros x Hx; left; by apply Ci| |intros x _ Hx _; by apply Cz].
  intros x. rewrite Cc, Cb. assert (~ h_brk h <= x < h_brk h) by lia. tauto.
Qed.

(** [malloc] once the list is there. *)
Lemma malloc_loop_spec h fl n : heap_ok h fl -> small n ->
  let r := malloc_loop grant (malloc_fuel h n) n (h_freep h) (h_ptr h (h_freep h)) h in
  (r = Some (0, h) /\ grant (h_brk h) (HDR * more n) = false) \/
  exists p h' fl', r = Some (p + HDR, h') /\ taken h fl n p h' fl'.
Proof using Hbase Hgrant.
  intros Ho Hn r. destruct (circle _ _ Ho) as (l & Hl & Hf & El & Hin). destruct (Hn) as [Hn1 _].
  pose proof (blocks_count _ _ _ (ho_blocks _ _ Ho) ltac:(lia) (proj1 (ho_brk _ _ Ho))) as Hcnt. pose proof (ho_brk _ _ Ho) as Hbr.
  assert (Hfu : (length l + 3 <= search_fuel h)%nat) by (rewrite El; unfold search_fuel, HDR in *; divlia).
  destruct (malloc_scan h n l (h_freep h) (malloc_fuel h n) Hl Hf ltac:(unfold malloc_fuel; lia)) as [(prv & a & Hp & Ea & Hs & E)|[Hall E]].
  { right. destruct (take_found h fl n prv a Ho Hn1 ltac:(by apply Hin) Ea Hs) as (p & h' & fl' & Ec & T).
    exists p, h', fl'. unfold r. by rewrite E, Ec. }
  unfold r. rewrite E. destruct (morecore_spec h fl n Ho Hn) as [[Eg ->]|(h1 & fl1 & -> & Ho1 & Eb & Hc & Hz)]; [by left|right].
  cbn [mbind option_bind]. assert (Hfp : h_freep h1 <> 0).
  { pose proof (ho_freep _ _ Ho1) as [->|(b & -> & Hb)%list_elem_of_fmap]%elem_of_cons; [lia|].
    destruct (blocks_in _ _ _ _ (ho_blocks _ _ Ho1) Hb). lia. }
  rewrite (proj2 (Z.eqb_neq _ _)) by done. destruct (circle _ _ Ho1) as (l' & Hl' & Hf' & El' & Hin').
  assert (Hfu' : (length l' < malloc_fuel h n - S (length l))%nat).
  { pose proof (blocks_count _ _ _ (ho_blocks _ _ Ho1) ltac:(lia) (proj1 (ho_brk _ _ Ho1))) as Hcnt'. rewrite El'.
    assert (more n <= 4096 + n) by (unfold more; destruct (Z.ltb_spec n 4096); lia).
    assert (HDR * Z.of_nat (length fl1) <= h_brk h + HDR * (4096 + n)) by (unfold HDR in *; lia).
    unfold malloc_fuel, search_fuel, HDR in *. divlia. }
  destruct (malloc_scan h1 n l' (h_freep h1) (malloc_fuel h n - S (length l)) Hl' Hf' Hfu') as [(prv & a & Hp & Ea & Hs & E')|[Hall' _]].
  - destruct (take_found h1 fl1 n prv a Ho1 Hn1 ltac:(by apply Hin') Ea Hs) as (p & h' & fl' & Ec & [To Ts Tb Tr Tc Tz]).
    assert (Hm : 0 < HDR * more n) by (unfold more, HDR; destruct (Z.ltb_spec n 4096); lia).
    exists p, h', fl'. rewrite E', Ec. split; [done|]. split; [done|done|lia| | |].
    + intros x Hx. destruct (Tr x Hx) as [Hx'|Hx']; [apply Hc in Hx'; destruct Hx'; [by left|right; lia]|right; lia].
    + intros x. rewrite Tc, Hc. assert (h_brk h <= x < h_brk h' <-> h_brk h <= x < h_brk h1 \/ h_brk h1 <= x < h_brk h') by lia. tauto.
    + intros x Hx Hnc Hlt. rewrite Tz; [by apply Hz|done|rewrite Hc; intros [?|?]; [done|lia]|lia].
  - exfalso. destruct (covers_block lo (h_brk h1) fl1 (h_brk h) n (ho_blocks _ _ Ho1) Hn1) as (a & s & Ha & Hs).
    { intros x Hx. apply Hc. right. assert (n <= more n) by (unfold more; destruct (Z.ltb_spec n 4096); lia). unfold HDR in *. lia. }
    assert (Hsm : h_size h1 a < n); [|pose proof (ho_sizes _ _ Ho1 (a, s) Ha) as Es; simpl in Es; lia].
    apply Hall'. assert (Hn' : a ∈ base :: fl1.*1) by (right; apply list_elem_of_fmap; by exists (a, s)).
    apply Hin' in Hn'. destruct Hn'; [by right|by left].
Qed.

(** The first call makes the list. *)
Definition start (h : heap) : heap :=
  if h_freep h =? 0 then set_size base 0 (set_ptr base base (set_freep base h)) else h.

(** A heap that has not been used, or one with a list. *)
Definition heap_inv (h : heap) (fl : list (Z * Z)) : Prop :=
  h_freep h = 0 /\ fl = [] /\ h_brk h = lo /\ lo < 2 ^ 32 \/ heap_ok h fl.

Lemma start_ok h fl : heap_inv h fl -> heap_ok (start h) fl /\ h_brk (start h) = h_brk h /\
  forall x, x <> base -> h_size (start h) x = h_size h x.
Proof using Hbase.
  unfold start. intros [(Ef & -> & Hb & Hb')|Ho].
  - rewrite Ef. simpl. split_and!; [|done|intros x Hx; simpl; by rewrite upd_other by done].
    split; simpl; [apply upd_same|by intros b ?%not_elem_of_nil|apply upd_same|done|lia|by left].
  - assert (Hf : h_freep h <> 0).
    { pose proof (ho_freep _ _ Ho) as [->|(b & -> & Hb)%list_elem_of_fmap]%elem_of_cons; [lia|].
      destruct (blocks_in _ _ _ _ (ho_blocks _ _ Ho) Hb). lia. }
    by rewrite (proj2 (Z.eqb_neq _ _)) by done.
Qed.

Lemma malloc_spec h fl nbytes : heap_inv h fl -> small (units nbytes) ->
  (malloc base grant nbytes h = Some (0, start h) /\ grant (h_brk h) (HDR * more (units nbytes)) = false) \/
  exists p h' fl', malloc base grant nbytes h = Some (p + HDR, h') /\ taken h fl (units nbytes) p h' fl'.
Proof using Hbase Hgrant.
  intros Hi Hn. destruct (start_ok h fl Hi) as (Ho & Eb & Ez). unfold malloc. fold (start h).
  destruct (malloc_loop_spec (start h) fl (units nbytes) Ho Hn) as [[-> Eg]|(p & h' & fl' & -> & [To Ts Tb Tr Tc Tz])].
  - left. by rewrite <-Eb.
  - right. exists p, h', fl'. split; [done|]. rewrite Eb in Tb, Tr, Tc, Tz. split; try done. intros x H1 H2 H3. by rewrite Tz, Ez.
Qed.
End heap.

(** ** Programs that use the allocator *)

Section clients.
Context (base lo : Z) (grant : Z -> Z -> bool).

(** A program allocates and frees; [live] has the units of the blocks it has,
    by the pointers that [malloc] returned.  Requests are at most 2^30 bytes. *)
Inductive client : heap * gmap Z Z -> heap * gmap Z Z -> Prop :=
| client_malloc h live nbytes r h' : 0 <= nbytes <= 2 ^ 30 -> malloc base grant nbytes h = Some (r, h') -> r <> 0 ->
    client (h, live) (h', <[r := units nbytes]> live)
| client_refused h live nbytes h' : 0 <= nbytes <= 2 ^ 30 -> malloc base grant nbytes h = Some (0, h') ->
    client (h, live) (h', live)
| client_free h live ap n h' : live !! ap = Some n -> free ap h = Some h' -> client (h, live) (h', delete ap live).

Definition initial : heap := {| h_ptr := fun _ => 0; h_size := fun _ => 0; h_freep := 0; h_brk := lo |}.

(** The bytes of a block, its header included. *)
Definition in_block (ap n x : Z) : Prop := ap - HDR <= x < ap - HDR + HDR * n.

Record partitioned (h : heap) (live : gmap Z Z) (fl : list (Z * Z)) : Prop := {
  pt_inv : heap_inv base lo h fl;
  pt_size : forall ap n, live !! ap = Some n -> 1 <= n /\ h_size h (ap - HDR) = n;
  pt_heap : forall ap n x, live !! ap = Some n -> in_block ap n x -> lo <= x < h_brk h;
  pt_free : forall ap n x, live !! ap = Some n -> in_block ap n x -> ~ covers fl x;
  pt_live : forall ap n ap' n' x, live !! ap = Some n -> live !! ap' = Some n' -> in_block ap n x -> in_block ap' n' x -> ap = ap';
  pt_all : forall x, lo <= x < h_brk h -> covers fl x \/ exists ap n, live !! ap = Some n /\ in_block ap n x
}.

Hypothesis Hbase : 0 < base < lo.
Hypothesis Hgrant : forall b n, grant b n = true -> 0 <= n -> b + n < 2 ^ 32.

Lemma units_small nbytes : 0 <= nbytes <= 2 ^ 30 -> small (units nbytes) /\ nbytes <= HDR * (units nbytes - 1).
Proof using.
  intros Hn. assert (E : units nbytes = (nbytes + 15) / 16 + 1).
  { unfold units, u32, HDR. replace (nbytes + 16 - 1) with (nbytes + 15) by lia. apply Z.mod_small. divlia. }
  rewrite E. unfold small, HDR. split; [split|]; divlia.
Qed.

Lemma heap_inv_blocks h fl : heap_inv base lo h fl -> blocks lo (h_brk h) fl /\ lo <= h_brk h < 2 ^ 32.
Proof using. intros [(_ & -> & ? & ?)|Ho]; [split; [done|lia]|]. split; apply Ho. Qed.

Lemma covers_heap h fl x : heap_inv base lo h fl -> covers fl x -> lo <= x < h_brk h.
Proof using.
  intros [Hb _]%heap_inv_blocks (a & s & Ha & Hx). destruct (blocks_in _ _ _ _ Hb Ha) as (? & ? & ?). simpl in *. lia.
Qed.

(** The header of a block that is in use is not [base] and not in the free list. *)
Lemma live_header h live fl ap n : partitioned h live fl -> live !! ap = Some n ->
  ap - HDR <> base /\ ~ covers fl (ap - HDR) /\ lo <= ap - HDR < h_brk h.
Proof using Hbase.
  intros P Hl. destruct (pt_size _ _ _ P _ _ Hl) as [Hn _]. assert (Hx : in_block ap n (ap - HDR)) by (unfold in_block, HDR; lia).
  pose proof (pt_heap _ _ _ P _ _ _ Hl Hx). split_and!; [lia|by eapply pt_free|lia|lia].
Qed.

Lemma partitioned_malloc h live fl nbytes p h' fl' : partitioned h live fl -> 1 <= units nbytes ->
  taken base lo h fl (units nbytes) p h' fl' -> partitioned h' (<[p + HDR := units nbytes]> live) fl'.
Proof using Hbase.
  intros P Hn T. set (n := units nbytes) in *. pose proof T as [To Ts Tb Tr Tc Tz]. pose proof (heap_inv_blocks _ _ (pt_inv _ _ _ P)) as [_ Hbr].
  assert (Ep : p + HDR - HDR = p) by lia.
  assert (Hnew : forall x, in_block (p + HDR) n x <-> p <= x < p + HDR * n) by (intros x; unfold in_block; rewrite Ep; done).
  assert (Hsep : forall ap m x, live !! ap = Some m -> in_block ap m x -> ~ p <= x < p + HDR * n).
  { intros ap m x Hl Hx Hp. destruct (Tr x Hp) as [Hc|Hc]; [by eapply (pt_free _ _ _ P)|]. pose proof (pt_heap _ _ _ P _ _ _ Hl Hx). lia. }
  assert (Hfresh : live !! (p + HDR) = None).
  { destruct (live !! (p + HDR)) as [m|] eqn:E; [|done]. exfalso. destruct (pt_size _ _ _ P _ _ E).
    apply (Hsep _ _ p E); [unfold in_block, HDR; lia|unfold HDR; lia]. }
  split.
  - right. exact To.
  - intros ap m [[<- <-]|[Hne Hl]]%lookup_insert_Some; [by rewrite Ep|]. split; [by apply (pt_size _ _ _ P _ _ Hl)|].
    destruct (live_header _ _ _ _ _ P Hl) as (H1 & H2 & H3). rewrite Tz by (done || lia). by apply (pt_size _ _ _ P).
  - intros ap m x [[<- <-]|[Hne Hl]]%lookup_insert_Some Hx.
    + apply Hnew in Hx. destruct (Tr x Hx) as [Hc|Hc]; [apply (covers_heap _ _ _ (pt_inv _ _ _ P)) in Hc|]; lia.
    + pose proof (pt_heap _ _ _ P _ _ _ Hl Hx). lia.
  - intros ap m x [[<- <-]|[Hne Hl]]%lookup_insert_Some Hx; rewrite Tc; [rewrite Hnew in Hx; tauto|].
    intros [[Hc|Hc] _]; [by eapply (pt_free _ _ _ P)|]. pose proof (pt_heap _ _ _ P _ _ _ Hl Hx). lia.
  - intros ap m ap' m' x [[<- <-]|[Hne Hl]]%lookup_insert_Some [[<- <-]|[Hne' Hl']]%lookup_insert_Some Hx Hx'.
    + done.
    + exfalso. apply Hnew in Hx. by eapply Hsep.
    + exfalso. apply Hnew in Hx'. by eapply Hsep.
    + by eapply (pt_live _ _ _ P).
  - intros x Hx. destruct (decide (p <= x < p + HDR * n)) as [Hp|Hp].
    { right. exists (p + HDR), n. split; [apply lookup_insert_eq|by apply Hnew]. }
    destruct (decide (h_brk h <= x)) as [Hh|Hh]; [left; apply Tc; split; [right; lia|done]|].
    destruct (pt_all _ _ _ P x) as [Hc|(ap & m & Hl & Hb)]; [lia|left; apply Tc; split; [by left|done]|].
    right. exists ap, m. split; [|done]. rewrite lookup_insert_ne; [done|]. intros <-. congruence.
Qed.

(** A block in use can be given back. *)
Lemma live_held h live fl ap n : partitioned h live fl -> live !! ap = Some n -> heap_ok base lo h fl /\ held lo fl h (ap - HDR) n.
Proof using Hbase.
  intros P Hl. destruct (pt_size _ _ _ P _ _ Hl) as [Hn _]. destruct (live_header _ _ _ _ _ P Hl) as (H1 & H2 & H3).
  assert (Hend : lo <= ap - HDR + HDR * n - 1 < h_brk h) by (apply (pt_heap _ _ _ P _ _ _ Hl); unfold in_block, HDR; lia).
  assert (Hd : forall b, b ∈ fl -> b.1 + HDR * b.2 <= ap - HDR \/ ap - HDR + HDR * n <= b.1).
  { intros [a s] Ha. simpl. destruct (decide (a + HDR * s <= ap - HDR)); [by left|]. destruct (decide (ap - HDR + HDR * n <= a)); [by right|].
    exfalso. assert (1 <= s) by (by destruct (blocks_in _ _ _ _ (proj1 (heap_inv_blocks _ _ (pt_inv _ _ _ P))) Ha) as (_ & ? & _)).
    apply (pt_free _ _ _ P ap n (Z.max a (ap - HDR)) Hl); [unfold in_block, HDR in *; lia|]. exists a, s. split; [done|]. unfold HDR in *. lia. }
  split; [|split_and!; [lia|done|lia|done]]. destruct (pt_inv _ _ _ P) as [(_ & _ & Hb & _)|Ho]; [lia|done].
Qed.

Lemma partitioned_free h live fl ap n h' fl' : partitioned h live fl -> live !! ap = Some n ->
  moved base lo h (fun x => covers fl x \/ ap - HDR <= x < ap - HDR + HDR * n) h' fl' ->
  partitioned h' (delete ap live) fl'.
Proof using Hbase.
  intros P Hl [Mo Mc Ms Mb]. fold (in_block ap n) in Mc.
  assert (Hother : forall ap' n' x, delete ap live !! ap' = Some n' -> in_block ap' n' x -> live !! ap' = Some n' /\ ~ covers fl' x).
  { intros ap' n' x [Hne Hl']%lookup_delete_Some Hx. split; [done|]. rewrite Mc. intros [Hc|Hc]; [by eapply (pt_free _ _ _ P)|].
    apply Hne. by eapply (pt_live _ _ _ P). }
  split.
  - right. exact Mo.
  - intros ap' n' Hl'. pose proof Hl' as [Hne Hl0]%lookup_delete_Some. destruct (pt_size _ _ _ P _ _ Hl0) as [Hn Hs]. split; [done|].
    destruct (live_header _ _ _ _ _ P Hl0) as (H1 & _). rewrite Ms; [done|done|]. eapply Hother; [exact Hl'|]. unfold in_block, HDR. lia.
  - intros ap' n' x Hl' Hx. destruct (Hother _ _ _ Hl' Hx) as [Hl0 _]. rewrite Mb. by eapply (pt_heap _ _ _ P).
  - intros ap' n' x Hl' Hx. by eapply Hother.
  - intros a1 n1 a2 n2 x H1 H2 Hx1 Hx2. destruct (Hother _ _ _ H1 Hx1), (Hother _ _ _ H2 Hx2). by eapply (pt_live _ _ _ P).
  - intros x Hx. rewrite Mb in Hx. destruct (pt_all _ _ _ P x Hx) as [Hc|(ap' & n' & Hl' & Hb)]; [left; apply Mc; by left|].
    destruct (decide (ap' = ap)) as [->|Hne]; [rewrite Hl in Hl'; injection Hl' as <-; left; apply Mc; by right|]. right. exists ap', n'. split; [|done].
    by rewrite lookup_delete_ne by congruence.
Qed.

Lemma client_step_ok h live h' live' : (exists fl, partitioned h live fl) -> client (h, live) (h', live') -> exists fl, partitioned h' live' fl.
Proof using Hbase Hgrant.
  intros [fl P] Hc. inversion Hc as [? ? nbytes r ? Hn Em Hr|? ? nbytes ? Hn Em|? ? ap n ? Hl Ef]; subst.
  - destruct (units_small _ Hn) as [Hs _]. destruct (malloc_spec base lo Hbase grant Hgrant h fl nbytes (pt_inv _ _ _ P) Hs)
      as [[E _]|(p & h1 & fl' & E & T)]; rewrite E in Em; injection Em as <- <-; [done|]. exists fl'. apply (partitioned_malloc h live fl); [done|apply Hs|done].
  - destruct (units_small _ Hn) as [Hs _]. destruct (start_ok base lo Hbase h fl (pt_inv _ _ _ P)) as (Ho & Eb & Ez).
    destruct (malloc_spec base lo Hbase grant Hgrant h fl nbytes (pt_inv _ _ _ P) Hs)
      as [[E _]|(p & h1 & fl' & E & T)]; rewrite E in Em; injection Em as ?; subst.
    + exists fl. split; [by right| | | | |]; rewrite ?Eb; try apply P. intros ap n Hl. destruct (live_header _ _ _ _ _ P Hl) as (? & _).
      rewrite Ez by done. by apply (pt_size _ _ _ P).
    + exfalso. destruct Hs as [Hs _]. destruct (tk_range _ _ _ _ _ _ _ _ T p) as [Hx|Hx]; [unfold HDR; lia| |].
      * apply (covers_heap _ _ _ (pt_inv _ _ _ P)) in Hx. unfold HDR in *. lia.
      * pose proof (heap_inv_blocks _ _ (pt_inv _ _ _ P)) as [_ ?]. unfold HDR in *. lia.
  - destruct (live_held _ _ _ _ _ P Hl) as [Ho Hh]. destruct (pt_size _ _ _ P _ _ Hl) as [_ Hz].
    destruct (free_spec base lo Hbase h fl (ap - HDR) n Ho Hh Hz) as (h1 & fl' & E & M).
    replace (ap - HDR + HDR) with ap in E by lia. rewrite E in Ef. injection Ef as <-. exists fl'. by eapply partitioned_free.
Qed.

Lemma client_reachable h live : lo < 2 ^ 32 -> rtc client (initial, ∅) (h, live) -> exists fl, partitioned h live fl.
Proof using Hbase Hgrant.
  intros Hlo. assert (P0 : exists fl, partitioned initial ∅ fl).
  { exists []. split; [left; done|..]; try (intros *; rewrite lookup_empty; done). intros x Hx. simpl in Hx. lia. }
  revert P0. generalize (∅ : gmap Z Z). generalize initial. intros h0 l0 P0 Hr.
  remember (h0, l0) as c0 eqn:E0. remember (h, live) as c eqn:E. revert h0 l0 E0 P0. induction Hr as [x|x [h1 l1] z Hs Hr IH]; intros h0 l0 E0 P0; subst.
  - injection E0 as -> ->. done.
  - eapply IH; [done|done|]. by eapply client_step_ok.
Qed.
End clients.

(** ** Theorems *)

Section theorems.
Context (base lo : Z) (grant : Z -> Z -> bool) (h : heap) (live : gmap Z Z).
Hypothesis Hbase : 0 < base < lo.
Hypothesis Hlo : lo < 2 ^ 32.
Hypothesis Hgrant : forall b n, grant b n = true -> 0 <= n -> b + n < 2 ^ 32.
Hypothesis Hreach : rtc (client base grant) (initial lo, ∅) (h, live).


(** C34: In every state of a program, [malloc] returns: either a block with room
    for the request that overlaps no block in use, or 0 when the kernel refuses
    the memory.  [free] of a block in use returns. *)
Theorem malloc_free_terminate :
  (forall nbytes, 0 <= nbytes <= 2 ^ 30 -> exists r h', malloc base grant nbytes h = Some (r, h') /\
    (r = 0 /\ grant (h_brk h) (HDR * more (units nbytes)) = false \/
     lo <= r - HDR /\ r + nbytes <= h_brk h' /\
     forall ap n x, live !! ap = Some n -> in_block ap n x -> ~ r - HDR <= x < r + nbytes)) /\
  (forall ap n, live !! ap = Some n -> exists h', free ap h = Some h').
Proof using Hbase Hlo Hgrant Hreach.
  destruct (client_reachable base lo grant Hbase Hgrant h live Hlo Hreach) as [fl P]. split.
  - intros nbytes Hn. destruct (units_small _ Hn) as [Hs Hu].
    destruct (malloc_spec base lo Hbase grant Hgrant h fl nbytes (pt_inv _ _ _ _ _ P) Hs) as [[-> E]|(p & h' & fl' & -> & T)].
    { exists 0, (start base h). split; [done|]. by left. }
    exists (p + HDR), h'. split; [done|]. right. replace (p + HDR - HDR) with p by lia.
    pose proof (partitioned_malloc base lo Hbase h live fl nbytes p h' fl' P (proj1 Hs) T) as P'.
    assert (Hin : forall x, p <= x < p + HDR * units nbytes -> lo <= x < h_brk h').
    { intros x Hx. apply (pt_heap _ _ _ _ _ P' (p + HDR) (units nbytes) x); [apply lookup_insert_eq|]. unfold in_block. lia. }
    destruct Hs as [Hs _]. pose proof (Hin p ltac:(unfold HDR; lia)). pose proof (Hin (p + HDR * units nbytes - 1) ltac:(unfold HDR; lia)).
    split_and!; [lia|unfold HDR in *; lia|]. intros ap n x Hl Hx Hp.
    destruct (tk_range _ _ _ _ _ _ _ _ T x) as [Hc|Hc]; [unfold HDR in *; lia|by eapply (pt_free _ _ _ _ _ P)|].
    pose proof (pt_heap _ _ _ _ _ P _ _ _ Hl Hx). lia.
  - intros ap n Hl. destruct (live_held base lo Hbase h live fl ap n P Hl) as [Ho Hh]. destruct (pt_size _ _ _ _ _ P _ _ Hl) as [_ Hz].
    destruct (free_spec base lo Hbase h fl (ap - HDR) n Ho Hh Hz) as (h1 & fl' & E & _). exists h1. by replace (ap - HDR + HDR) with ap in E by lia.
Qed.
End theorems.


(** ** Examples *)

Definition ram (b n : Z) : bool := b + n <? 2 ^ 27.

Lemma ram_grants b n : ram b n = true -> 0 <= n -> b + n < 2 ^ 32.
Proof. unfold ram. intros H%Z.ltb_lt _. lia. Qed.

(** A program that allocates two blocks and gives the first one back. *)
Definition run1 : Z * heap := default (0, initial 8192) (malloc 4096 ram 100 (initial 8192)).
Definition run2 : Z * heap := default (0, initial 8192) (malloc 4096 ram 7 run1.2).
Definition run3 : heap := default (initial 8192) (free run1.1 run2.2).
Definition blocks3 : gmap Z Z := delete run1.1 (<[run2.1 := units 7]> (<[run1.1 := units 100]> ∅)).

Lemma run_reaches : rtc (client 4096 ram) (initial 8192, ∅) (run3, blocks3).
Proof.
  eapply rtc_l; [apply (client_malloc 4096 ram (initial 8192) ∅ 100 run1.1 run1.2); [lia|by vm_compute|by vm_compute]|].
  eapply rtc_l; [apply (client_malloc 4096 ram run1.2 _ 7 run2.1 run2.2); [lia|by vm_compute|by vm_compute]|].
  apply rtc_once. apply (client_free 4096 ram run2.2 _ run1.1 (units 100) run3); [|by vm_compute].
  rewrite lookup_insert_ne by (by vm_compute). apply lookup_insert_eq.
Qed.


Lemma malloc_free_terminate_witness : rtc (client 4096 ram) (initial 8192, ∅) (run3, blocks3) /\ exists h', free run2.1 run3 = Some h'.
Proof.
  split; [exact run_reaches|].
  destruct (malloc_free_terminate 4096 8192 ram run3 blocks3 ltac:(lia) ltac:(lia) ram_grants run_reaches) as [_ Hf].
  apply (Hf run2.1 (units 7)). unfold blocks3. rewrite lookup_delete_ne by (by vm_compute). apply lookup_insert_eq.
Defined.

