(* ===== verification/Grep.v ===== *)
(** * Grep: user/grep.c

    A string is the bytes before its NUL.  [match_] is shown to decide the
    language a pattern denotes, and [grep] to print the matching lines of its
    input however the input is split over reads. *)

From S2P Require Import Prelude.

Definition star : byte := chr 42.
Definition dot : byte := chr 46.
Definition caret : byte := chr 94.
Definition dollar : byte := chr 36.
Definition newline : byte := chr 10.

(** The loop of [matchstar], with [k] for [matchhere(re, .)]. *)
Fixpoint matchstar (c : byte) (k : list byte -> bool) (text : list byte) : bool :=
  if k text then true
  else match text with
       | [] => false
       | t :: text' => if bool_decide (t = c) || bool_decide (c = dot) then matchstar c k text' else false
       end.

Fixpoint matchhere (re text : list byte) : bool :=
  match re with
  | [] => true
  | c :: re1 =>
      let one :=
        match text with
        | t :: text' => if bool_decide (c = dot) || bool_decide (c = t) then matchhere re1 text' else false
        | [] => false
        end in
      match re1 with
      | [] => if bool_decide (c = dollar) then bool_decide (text = []) else one
      | s :: re2 => if bool_decide (s = star) then matchstar c (matchhere re2) text else one
      end
  end.

(** The loop of [match] over the suffixes of the text, the empty one included. *)
Fixpoint match_any (re text : list byte) : bool :=
  if matchhere re text then true
  else match text with [] => false | _ :: text' => match_any re text' end.

Definition match_ (re text : list byte) : bool :=
  match re with
  | c :: re' => if bool_decide (c = caret) then matchhere re' text else match_any re text
  | [] => match_any re text
  end.

(** [strchr(p, '\n')]: the line before the first newline, and what follows it. *)
Fixpoint split_line (p : list byte) : option (list byte * list byte) :=
  match p with
  | [] => None
  | c :: p =>
      if decide (c = newline) then Some ([], p)
      else match split_line p with Some (l, r) => Some (c :: l, r) | None => None end
  end.

(** The inner loop of [grep]: what is written and what is left in the buffer. *)
Fixpoint grep_lines (fuel : nat) (pattern p : list byte) : list byte * list byte :=
  match fuel with
  | O => ([], p)
  | S fuel =>
      match split_line p with
      | None => ([], p)
      | Some (line, rest) =>
          let '(out, kept) := grep_lines fuel pattern rest in
          (if match_ pattern line then line ++ [newline] ++ out else out, kept)
      end
  end.

Definition grep_buf : Z := 1024.

(** [grep]: each read returns the next bytes of the input, as many as the
    device gives ([sizes]) but no more than fit behind the [m] bytes kept in
    [buf]; a read that returns nothing ends the loop. *)
Fixpoint grep (pattern : list byte) (sizes : list nat) (input buf : list byte) : list byte :=
  match sizes with
  | [] => []
  | n :: sizes =>
      let n := Nat.min n (Z.to_nat grep_buf - length buf - 1) in
      match take n input with
      | [] => []
      | got =>
          let buf := buf ++ got in
          let '(out, kept) := grep_lines (S (length buf)) pattern buf in
          out ++ grep pattern sizes (drop n input) kept
      end
  end.

(** ** The language of a pattern *)

(** An element: a byte or any byte, once or any number of times. *)
Inductive item := One (c : byte) | Many (c : byte).

Definition fits (c t : byte) : Prop := c = dot \/ c = t.

Fixpoint lang (re : list item) (u : list byte) : Prop :=
  match re with
  | [] => u = []
  | One c :: re => exists t u', u = t :: u' /\ fits c t /\ lang re u'
  | Many c :: re => exists v w, u = v ++ w /\ Forall (fits c) v /\ lang re w
  end.

(** The elements of a pattern without [^], and whether it ends in [$]. *)
Fixpoint parse (re : list byte) : list item * bool :=
  match re with
  | [] => ([], false)
  | c :: re1 =>
      let one := let '(l, a) := parse re1 in (One c :: l, a) in
      match re1 with
      | [] => if bool_decide (c = dollar) then ([], true) else one
      | s :: re2 =>
          if bool_decide (s = star) then let '(l, a) := parse re2 in (Many c :: l, a) else one
      end
  end.

(** A prefix of the text is in the language; all of it, if the pattern is anchored. *)
Definition here (re : list byte) (text : list byte) : Prop :=
  exists u v, text = u ++ v /\ lang (parse re).1 u /\ ((parse re).2 = true -> v = []).

Lemma matchstar_spec c k text :
  matchstar c k text = true <-> exists v w, text = v ++ w /\ Forall (fits c) v /\ k w = true.
Proof.
  induction text as [|t text IH]; simpl; destruct (k _) eqn:E.
  - split; [|done]. intros _. exists [], []. by split_and!.
  - split; [done|]. intros (v & w & E' & _ & Hk). symmetry in E'. apply app_eq_nil in E' as [-> ->]. congruence.
  - split; [|done]. intros _. exists [], (t :: text). by split_and!.
  - split.
    + destruct (bool_decide (t = c) || bool_decide (c = dot)) eqn:Ef; [|done]. intros (v & w & -> & Hv & Hk)%IH.
      exists (t :: v), w. split_and!; [done| |done]. constructor; [|done].
      apply orb_true_iff in Ef as [->%bool_decide_eq_true| ->%bool_decide_eq_true]; [by right|by left].
    + intros ([|t' v] & w & E' & Hv & Hk); simplify_eq/=; [congruence|].
      apply Forall_cons in Hv as [Hf Hv].
      assert (Ef : bool_decide (t' = c) || bool_decide (c = dot) = true).
      { apply orb_true_iff. destruct Hf as [->| ->]; [right|left]; by apply bool_decide_eq_true. }
      rewrite Ef. apply IH. by exists v, w.
Qed.

Lemma parse_one c re1 :
  (match re1 with [] => c <> dollar | s :: _ => s <> star end) ->
  parse (c :: re1) = (One c :: (parse re1).1, (parse re1).2).
Proof.
  intros H. destruct re1 as [|s re2]; cbn [parse].
  - by rewrite bool_decide_eq_false_2.
  - rewrite bool_decide_eq_false_2 by done. by destruct (match re2 with [] => _ | _ :: _ => _ end).
Qed.

Lemma matchhere_one c re1 text :
  (match re1 with [] => c <> dollar | s :: _ => s <> star end) ->
  matchhere (c :: re1) text =
  match text with
  | t :: text' => if bool_decide (c = dot) || bool_decide (c = t) then matchhere re1 text' else false
  | [] => false
  end.
Proof.
  intros H. destruct re1 as [|s re2]; cbn [matchhere]; by rewrite bool_decide_eq_false_2.
Qed.

Lemma matchhere_spec re : forall text, matchhere re text = true <-> here re text.
Proof.
  remember (length re) as n eqn:En. revert re En. induction n as [n IH] using lt_wf_ind. intros re -> text.
  destruct re as [|c re1].
  { split; [|done]. intros _. exists [], text. by split_and!. }
  assert (Hd : let P := match re1 with [] => c <> dollar | s :: _ => s <> star end in P \/ ~ P)
    by (destruct re1; [destruct (decide (c = dollar))|destruct (decide (b = star))]; naive_solver).
  destruct Hd as [H1|H1].
  - unfold here. rewrite matchhere_one, parse_one by done. simpl. split.
    + destruct text as [|t text]; [done|]. destruct (_ || _) eqn:Ef; [|done].
      intros (u & v & -> & Hu & Ha)%(IH (length re1)); [|simpl; lia|done].
      exists (t :: u), v. split_and!; [done| |done]. exists t, u. split_and!; try done.
      apply orb_true_iff in Ef as [?%bool_decide_eq_true|?%bool_decide_eq_true]; [by left|by right].
    + intros (u & v & -> & (t & u' & -> & Hf & Hu) & Ha). simpl.
      assert (Ef : bool_decide (c = dot) || bool_decide (c = t) = true).
      { apply orb_true_iff. destruct Hf as [->| ->]; [left|right]; by apply bool_decide_eq_true. }
      rewrite Ef. apply (proj2 (IH (length re1) ltac:(simpl; lia) re1 eq_refl _)). by exists u', v.
  - destruct re1 as [|s re2].
    + assert (c = dollar) as -> by (destruct (decide (c = dollar)); naive_solver).
      cbn [matchhere]. rewrite (bool_decide_eq_true_2 (dollar = dollar)) by done. unfold here. cbn [parse].
      rewrite (bool_decide_eq_true_2 (dollar = dollar)) by done. cbn [fst snd lang]. rewrite bool_decide_eq_true. split.
      * intros ->. by exists [], [].
      * intros (u & v & -> & -> & Ha). by rewrite Ha.
    + assert (s = star) as -> by (destruct (decide (s = star)); naive_solver).
      cbn [matchhere]. rewrite bool_decide_eq_true_2 by done. rewrite matchstar_spec. unfold here. cbn [parse].
      rewrite bool_decide_eq_true_2 by done. destruct (parse re2) as [l a] eqn:Ep. cbn [fst snd lang]. split.
      * intros (v & w & -> & Hv & (u & w' & -> & Hu & Ha)%(IH (length re2))); [|simpl; lia|done].
        rewrite Ep in Hu, Ha. exists (v ++ u), w'. rewrite app_assoc. split_and!; [done| |done]. by exists v, u.
      * intros (u & v & -> & (v1 & w1 & -> & Hv & Hu) & Ha). exists v1, (w1 ++ v). rewrite app_assoc.
        split_and!; [done|done|]. apply (proj2 (IH (length re2) ltac:(simpl; lia) re2 eq_refl _)). exists w1, v. by rewrite Ep.
Qed.

Lemma match_any_spec re text : match_any re text = true <-> exists w t, text = w ++ t /\ here re t.
Proof.
  induction text as [|c text IH]; simpl; destruct (matchhere re _) eqn:E.
  - split; [|done]. intros _. exists [], []. split; [done|by apply matchhere_spec].
  - split; [done|]. intros (w & t & E' & Ht). symmetry in E'. apply app_eq_nil in E' as [-> ->].
    apply matchhere_spec in Ht. congruence.
  - split; [|done]. intros _. exists [], (c :: text). split; [done|by apply matchhere_spec].
  - rewrite IH. split.
    + intros (w & t & -> & Ht). by exists (c :: w), t.
    + intros ([|c' w] & t & E' & Ht); simplify_eq/=; [|by exists w, t].
      apply matchhere_spec in Ht. congruence.
Qed.

(** C37: grep's matcher decides its pattern language.  A pattern of ordinary
    characters, [.], [*] and a final [$] denotes a set of strings; a line
    matches when one of its substrings is in that set, at its beginning if the
    pattern starts with [^] and up to its end if it ends with [$]. *)
Theorem match_decides_language re text :
  match_ re text = true <->
  match re with
  | c :: re' => if decide (c = caret) then here re' text else exists w t, text = w ++ t /\ here re t
  | [] => True
  end.
Proof.
  unfold match_. destruct re as [|c re].
  - rewrite match_any_spec. split; [done|]. intros _. exists [], text. split; [done|]. by exists [], text.
  - destruct (decide (c = caret)) as [->|Hne].
    + rewrite bool_decide_eq_true_2 by done. apply matchhere_spec.
    + rewrite bool_decide_eq_false_2 by done. apply match_any_spec.
Qed.

(** ** The lines of the input *)

(** The lines that end in a newline; [cur] is what was read of the first. *)
Fixpoint lines_of (cur text : list byte) : list (list byte) :=
  match text with
  | [] => []
  | c :: text => if decide (c = newline) then cur :: lines_of [] text else lines_of (cur ++ [c]) text
  end.

Definition matching (pattern : list byte) (ls : list (list byte)) : list byte :=
  concat ((fun l => l ++ [newline]) <$> filter (fun l => match_ pattern l = true) ls).

Lemma lines_of_plain cur a b : newline ∉ a -> lines_of cur (a ++ b) = lines_of (cur ++ a) b.
Proof.
  revert cur. induction a as [|c a IH]; intros cur Ha; [by rewrite app_nil_r|].
  apply not_elem_of_cons in Ha as [Hc Ha]. simpl. rewrite decide_False by done. rewrite IH by done.
  by rewrite <-app_assoc.
Qed.

Lemma split_line_spec p :
  match split_line p with
  | Some (l, r) => p = l ++ newline :: r /\ newline ∉ l
  | None => newline ∉ p
  end.
Proof.
  induction p as [|c p IH]; simpl; [apply not_elem_of_nil|].
  destruct (decide (c = newline)) as [->|Hc]; [split; [done|apply not_elem_of_nil]|].
  destruct (split_line p) as [[l r]|].
  - destruct IH as [-> Hl]. split; [done|]. by apply not_elem_of_cons.
  - by apply not_elem_of_cons.
Qed.

(** What the inner loop writes and keeps, whatever is read next. *)
Lemma grep_lines_spec pattern : forall fuel p, (length p < fuel)%nat ->
  let '(out, kept) := grep_lines fuel pattern p in
  newline ∉ kept /\ (exists pre, p = pre ++ kept) /\
  forall rest, matching pattern (lines_of [] (p ++ rest)) = out ++ matching pattern (lines_of [] (kept ++ rest)).
Proof.
  induction fuel as [|fuel IH]; intros p Hp; [lia|]. cbn [grep_lines].
  pose proof (split_line_spec p) as Hs. destruct (split_line p) as [[l r]|].
  - destruct Hs as [-> Hl]. rewrite length_app in Hp. simpl in Hp. specialize (IH r ltac:(lia)).
    destruct (grep_lines fuel pattern r) as [out kept]. destruct IH as (Hk & [pre ->] & Hm).
    split_and!; [done|exists (l ++ newline :: pre); by rewrite <-app_assoc|].
    intros rest. rewrite <-app_assoc. rewrite lines_of_plain by done.
    cbn [app lines_of]. rewrite decide_True by done. unfold matching in *. rewrite filter_cons.
    destruct (match_ pattern l) eqn:Em.
    + rewrite decide_True by done. simpl. rewrite Hm. by rewrite !app_assoc, <-(app_assoc l).
    + rewrite decide_False by done. apply Hm.
  - split_and!; [done|by exists []|done].
Qed.

(** No line, complete or not, is longer than what the buffer holds. *)
Definition short_lines (input : list byte) : Prop :=
  forall pre line post, input = pre ++ line ++ post -> newline ∉ line -> (length line < Z.to_nat grep_buf - 1)%nat.

Lemma grep_buffered pattern : forall sizes input buf,
  Forall (fun n => 0 < n)%nat sizes -> (length input < length sizes)%nat -> newline ∉ buf ->
  short_lines (buf ++ input) ->
  grep pattern sizes input buf = matching pattern (lines_of [] (buf ++ input)).
Proof.
  induction sizes as [|n sizes IH]; intros input buf Hpos Hlen Hbuf Hshort; [simpl in Hlen; lia|].
  apply Forall_cons in Hpos as [Hn Hpos]. cbn [grep]. pose proof (Hshort [] buf input eq_refl Hbuf) as Hb.
  set (m := Nat.min n (Z.to_nat grep_buf - length buf - 1)). assert (Hm : (0 < m)%nat) by lia.
  destruct input as [|c input].
  { rewrite take_nil, app_nil_r. rewrite <-(app_nil_r buf) at 1. rewrite lines_of_plain by done. done. }
  destruct (take m (c :: input)) as [|c' got] eqn:Et; [destruct m; [lia|done]|].
  assert (Ein : c :: input = (c' :: got) ++ drop m (c :: input)) by (rewrite <-Et; by rewrite take_drop).
  pose proof (grep_lines_spec pattern (S (length (buf ++ c' :: got))) (buf ++ c' :: got) ltac:(lia)) as Hg.
  destruct (grep_lines _ pattern _) as [out kept]. destruct Hg as (Hk & [pre Hpre] & Hmat).
  rewrite IH; [|done| |done|].
  - rewrite Ein at 2. rewrite app_assoc. symmetry. apply Hmat.
  - rewrite length_drop. simpl in *. lia.
  - intros pre' line post E Hl. apply (Hshort (pre ++ pre') line post); [|done].
    rewrite Ein, app_assoc, Hpre, <-app_assoc, E, <-app_assoc. done.
Qed.


