(* ===== verification/Tools.v ===== *)
(** * Tools: user/ulib.c strings, user/wc.c, user/sixfive.c, user/memdump.c,
    user/ls.c and user/echo.c

    A string is the bytes before its NUL; a program's output is the bytes it
    writes.  Files arrive in the pieces [read] returns. *)

From coqutil Require Import Word.LittleEndianList.
From S2P Require Import Prelude Layout Printf.

(** ** ulib.c *)

(** [strchr] on a non-NUL character: whether the string contains it. *)
Fixpoint strchr (s : list byte) (c : byte) : bool :=
  match s with
  | [] => false
  | x :: s => if decide (x = c) then true else strchr s c
  end.

Fixpoint strcmp (p q : list byte) : Z :=
  match p, q with
  | x :: p', y :: q' => if decide (x = y) then strcmp p' q' else cv x - cv y
  | x :: _, [] => cv x
  | [], y :: _ => - cv y
  | [], [] => 0
  end.

Definition is_digit (c : byte) : bool := (48 <=? cv c) && (cv c <=? 57).

Fixpoint atoi_loop (s : list byte) (n : Z) : Z :=
  match s with
  | c :: s => if is_digit c then atoi_loop s (i32 (i32 (i32 (n * 10) + cv c) - 48)) else n
  | [] => n
  end.

Definition atoi (s : list byte) : Z := atoi_loop s 0.

(** The string in an array of characters. *)
Fixpoint until_nul (l : list byte) : list byte :=
  match l with
  | [] => []
  | c :: l => if decide (c = chr 0) then [] else c :: until_nul l
  end.

(** ** wc.c *)

Record wc_state := { wc_l : Z; wc_w : Z; wc_c : Z; wc_inword : bool }.

Definition wc_space : list byte := [chr 32; chr 13; chr 9; chr 10; chr 11].

Definition wc_byte (s : wc_state) (b : byte) : wc_state :=
  let c := i32 (wc_c s + 1) in
  let l := if decide (b = chr 10) then i32 (wc_l s + 1) else wc_l s in
  if strchr wc_space b then {| wc_l := l; wc_w := wc_w s; wc_c := c; wc_inword := false |}
  else if wc_inword s then {| wc_l := l; wc_w := wc_w s; wc_c := c; wc_inword := true |}
  else {| wc_l := l; wc_w := i32 (wc_w s + 1); wc_c := c; wc_inword := true |}.

(** The pieces [read] returns, each of 512 bytes at most. *)
Definition wc (chunks : list (list byte)) (name : list byte) : list byte :=
  let s := foldl (foldl wc_byte) {| wc_l := 0; wc_w := 0; wc_c := 0; wc_inword := false |} chunks in
  default [] (vprintf (bytes_of "%d %d %d %s" ++ [chr 10]) [ANum (wc_l s); ANum (wc_w s); ANum (wc_c s); AStr (Some name)]).

(** ** sixfive.c *)

Definition number_tokens : list byte := bytes_of "0123456789".
Definition separator_tokens : list byte :=
  [chr 32; chr 45; chr 13; chr 9; chr 10; chr 46; chr 47; chr 44].

Definition is_number (token : byte) : bool := strchr number_tokens token.
Definition is_separator (token : byte) : bool := strchr separator_tokens token.

Definition process_number (number : Z) : list byte :=
  if (Z.rem number 5 =? 0) || (Z.rem number 6 =? 0)
  then default [] (vprintf (bytes_of "%d" ++ [chr 10]) [ANum number]) else [].

(** The two flags, the number, and the output so far. *)
Record six_state := { six_num : bool; six_sep : bool; six_number : Z; six_out : list byte }.

(** One turn of the loop of [process_file].  [atoi(&token)] also reads what
    follows the variable on the stack, [after]. *)
Definition six_byte (after : list byte) (s : six_state) (token : byte) : six_state :=
  if six_num s then
    if is_number token then
      {| six_num := true; six_sep := six_sep s; six_number := i32 (six_number s * 10 + atoi (token :: after));
         six_out := six_out s |}
    else if is_separator token then
      {| six_num := false; six_sep := true; six_number := 0; six_out := six_out s ++ process_number (six_number s) |}
    else {| six_num := false; six_sep := false; six_number := 0; six_out := six_out s |}
  else if six_sep s then
    if is_number token then
      {| six_num := true; six_sep := false; six_number := atoi (token :: after); six_out := six_out s |}
    else if is_separator token then s
    else {| six_num := false; six_sep := false; six_number := six_number s; six_out := six_out s |}
  else
    if is_number token then s
    else if is_separator token then
      {| six_num := false; six_sep := true; six_number := six_number s; six_out := six_out s |}
    else s.

Definition process_file (after input : list byte) : list byte :=
  let s := foldl (six_byte after) {| six_num := false; six_sep := true; six_number := 0; six_out := [] |} input in
  six_out s ++ (if six_num s then process_number (six_number s) else []).

(** ** memdump.c *)

(** The strings that pointers in the data lead to are [strings]. *)
Fixpoint memdump (strings : Z -> list byte) (fmt data : list byte) : list byte :=
  match fmt with
  | [] => [chr 10]
  | token :: fmt =>
      let show f a := default [] (vprintf (bytes_of f) [a]) ++ [chr 10] in
      if cv token =? 105 then show "%d"%string (ANum (i32 (rdn 4 data 0))) ++ memdump strings fmt (drop 4 data)
      else if cv token =? 112 then show "%lx"%string (ANum (rdn 8 data 0)) ++ memdump strings fmt (drop 8 data)
      else if cv token =? 104 then show "%d"%string (ANum (i16 (rdn 2 data 0))) ++ memdump strings fmt (drop 2 data)
      else if cv token =? 99 then show "%c"%string (ANum (rdn 1 data 0)) ++ memdump strings fmt (drop 1 data)
      else if cv token =? 115 then
        show "%s"%string (AStr (Some (strings (rdn 8 data 0)))) ++ memdump strings fmt (drop 8 data)
      else if cv token =? 83 then
        show "%s"%string (AStr (Some ((fix until (l : list byte) :=
          match l with [] => [] | c :: l => if cv c =? 0 then [] else c :: until l end) data)))
          ++ memdump strings fmt data
      else default [] (vprintf (bytes_of "Error processing input. %c is not a valid token." ++ [chr 10]) [ANum (cv token)])
  end.

(** ** ls.c *)

(** The part after the last slash. *)
Fixpoint after_slash (last s : list byte) : list byte :=
  match s with
  | [] => last
  | c :: s => after_slash (if decide (c = chr 47) then s else last) s
  end.

Definition fmtname (path : list byte) : list byte :=
  let p := after_slash path path in
  if (14 <=? length p)%nat then p else p ++ replicate (14 - length p) (chr 32).

(** The line printed for one name. *)
Definition ls_line (path : list byte) (type ino size : Z) : list byte :=
  default [] (vprintf (bytes_of "%s %d %d %d" ++ [chr 10])
    [AStr (Some (fmtname path)); ANum type; ANum ino; ANum (i32 size)]).

(** ** echo.c *)

Fixpoint echo (argv : list (list byte)) : list byte :=
  match argv with
  | [] => []
  | [a] => a ++ [chr 10]
  | a :: argv => a ++ [chr 32] ++ echo argv
  end.

(** ** wc counts *)

Definition space (b : byte) : bool := strchr wc_space b.

(** The words: the bytes that start one, after a space or at the beginning. *)
Fixpoint words (inword : bool) (text : list byte) : Z :=
  match text with
  | [] => 0
  | b :: text => (if negb (space b) && negb inword then 1 else 0) + words (negb (space b)) text
  end.

Definition newlines (text : list byte) : Z := Z.of_nat (length (filter (fun b => b = chr 10) text)).

Lemma i32_in x : - 2 ^ 31 <= x < 2 ^ 31 -> i32 x = x.
Proof. intros. unfold i32. rewrite Z.mod_small by lia. lia. Qed.

Lemma words_range inword text : 0 <= words inword text <= Z.of_nat (length text).
Proof.
  revert inword. induction text as [|b text IH]; intros inword; cbn [words length]; [lia|].
  specialize (IH (negb (space b))). destruct (_ && _); lia.
Qed.

Lemma newlines_cons b text : newlines (b :: text) = (if decide (b = chr 10) then 1 else 0) + newlines text.
Proof. unfold newlines. rewrite filter_cons. destruct (decide (b = chr 10)); cbn [length]; lia. Qed.

Lemma newlines_range text : 0 <= newlines text <= Z.of_nat (length text).
Proof. unfold newlines. pose proof (length_filter (fun b => b = chr 10) text). lia. Qed.

Lemma wc_byte_spec s b :
  0 <= wc_l s < 2 ^ 31 - 1 -> 0 <= wc_w s < 2 ^ 31 - 1 -> 0 <= wc_c s < 2 ^ 31 - 1 ->
  wc_l (wc_byte s b) = wc_l s + (if decide (b = chr 10) then 1 else 0) /\
  wc_w (wc_byte s b) = wc_w s + (if negb (space b) && negb (wc_inword s) then 1 else 0) /\
  wc_c (wc_byte s b) = wc_c s + 1 /\ wc_inword (wc_byte s b) = negb (space b).
Proof.
  intros Hl Hw Hc. unfold wc_byte. fold (space b). rewrite !i32_in by lia.
  destruct (space b), (wc_inword s), (decide (b = chr 10)); cbn; lia.
Qed.

Lemma wc_fold text : forall s,
  0 <= wc_l s -> 0 <= wc_w s -> 0 <= wc_c s ->
  wc_l s + Z.of_nat (length text) < 2 ^ 31 -> wc_w s + Z.of_nat (length text) < 2 ^ 31 ->
  wc_c s + Z.of_nat (length text) < 2 ^ 31 ->
  let s' := foldl wc_byte s text in
  wc_l s' = wc_l s + newlines text /\ wc_w s' = wc_w s + words (wc_inword s) text /\
  wc_c s' = wc_c s + Z.of_nat (length text).
Proof.
  induction text as [|b text IH]; intros s Hl Hw Hc HL HW HC; cbn [foldl words length].
  { unfold newlines. simpl. lia. }
  rewrite newlines_cons. cbn [length] in *.
  destruct (wc_byte_spec s b) as (A & B & D & E); [lia..|].
  destruct (IH (wc_byte s b)) as (A' & B' & D'); rewrite ?A, ?B, ?D; try (destruct (decide _), (_ && _)); try lia.
  all: rewrite E in B'; lia.
Qed.

(** wc counts lines, words and characters.  However the file arrives in
    pieces, the numbers printed are the newlines, the words (maximal runs of
    bytes that are not white space) and the bytes of the whole file. *)
Theorem wc_counts chunks name :
  let text := concat chunks in
  Z.of_nat (length text) < 2 ^ 31 ->
  wc chunks name =
  default [] (vprintf (bytes_of "%d %d %d %s" ++ [chr 10])
    [ANum (newlines text); ANum (words false text); ANum (Z.of_nat (length text)); AStr (Some name)]).
Proof.
  intros text Hlen. unfold wc.
  assert (Ef : forall s, foldl (foldl wc_byte) s chunks = foldl wc_byte s text).
  { unfold text. clear. induction chunks as [|c chunks IH]; intros s; simpl; [done|]. by rewrite IH, foldl_app. }
  rewrite Ef. destruct (wc_fold text {| wc_l := 0; wc_w := 0; wc_c := 0; wc_inword := false |})
    as (-> & -> & ->); cbn [wc_l wc_w wc_c wc_inword]; try lia. done.
Qed.

Lemma wc_counts_witness :
  wc [bytes_of "two wo"; bytes_of "rds" ++ [chr 10]] (bytes_of "f") = bytes_of "1 2 10 f" ++ [chr 10].
Proof. rewrite wc_counts; by vm_compute. Defined.

(** ** sixfive finds the numbers *)

(** The input cut at the separators. *)
Fixpoint tokens (cur text : list byte) : list (list byte) :=
  match text with
  | [] => [cur]
  | c :: text => if is_separator c then cur :: tokens [] text else tokens (cur ++ [c]) text
  end.

Definition all_digits (l : list byte) : bool := negb (bool_decide (l = [])) && forallb is_number l.

(** The number tokens that are multiples of 5 or 6, one per line. *)
Definition sixfive_spec (input : list byte) : list byte :=
  concat ((fun l => process_number (numeral 10 l)) <$> filter (fun l => all_digits l = true) (tokens [] input)).

Lemma is_number_value c : is_number c = true -> digit_value c = cv c - 48 /\ is_digit c = true /\ is_separator c = false.
Proof.
  intros Hc. assert (Hin : c ∈ number_tokens).
  { revert Hc. unfold is_number. generalize number_tokens. intros l. induction l as [|x l IH]; simpl; [done|].
    destruct (decide (x = c)) as [->|]; intros; [apply elem_of_cons; by left|apply elem_of_cons; right; auto]. }
  assert (Hall : Forall (fun c => digit_value c = cv c - 48 /\ is_digit c = true /\ is_separator c = false) number_tokens)
    by (repeat constructor).
  by apply (proj1 (Forall_forall _ _) Hall).
Qed.

(** The stack after [token] does not go on with a digit. *)
Definition stops (after : list byte) : Prop := match after with c :: _ => is_digit c = false | [] => True end.

Lemma atoi_token after c : stops after -> is_number c = true -> atoi (c :: after) = digit_value c.
Proof.
  intros Ha Hc. destruct (is_number_value c Hc) as (-> & Hd & _). unfold atoi. cbn [atoi_loop]. rewrite Hd.
  unfold is_digit in Hd. rewrite (i32_in (0 * 10)) by lia. rewrite (i32_in (0 * 10 + cv c)) by lia. rewrite i32_in by lia.
  change (0 * 10 + cv c - 48) with (cv c - 48).
  destruct after as [|d after]; [done|]. cbn [atoi_loop]. by rewrite Ha.
Qed.

Lemma i32_numeral_snoc l c : i32 (i32 (numeral 10 l) * 10 + digit_value c) = i32 (numeral 10 (l ++ [c])).
Proof.
  rewrite numeral_snoc. unfold i32.
  replace (((numeral 10 l + 2 ^ 31) mod 2 ^ 32 - 2 ^ 31) * 10 + digit_value c + 2 ^ 31)
    with ((numeral 10 l + 2 ^ 31) mod 2 ^ 32 * 10 + (digit_value c - 9 * 2 ^ 31)) by lia.
  rewrite <-(Zplus_mod_idemp_l (_ mod _ * 10)), Zmult_mod_idemp_l, Zplus_mod_idemp_l. do 2 f_equal. lia.
Qed.

(** What the flags and the number say about the token being read. *)
Definition six_inv (cur : list byte) (s : six_state) : Prop :=
  six_num s = all_digits cur /\ (cur = [] -> six_sep s = true) /\
  (all_digits cur = false -> cur <> [] -> six_sep s = false) /\
  (all_digits cur = true -> six_number s = i32 (numeral 10 cur)).

Lemma all_digits_snoc cur c : cur <> [] -> all_digits (cur ++ [c]) = all_digits cur && is_number c.
Proof.
  intros Hc. unfold all_digits. rewrite !bool_decide_eq_false_2 by (try done; by destruct cur).
  simpl. rewrite forallb_app. simpl. by rewrite andb_true_r.
Qed.

Lemma six_byte_token after cur s c :
  stops after -> is_separator c = false -> six_inv cur s ->
  six_inv (cur ++ [c]) (six_byte after s c) /\ six_out (six_byte after s c) = six_out s.
Proof.
  intros Ha Hc (Hn & Hs & Hi & Hv). unfold six_byte. rewrite Hn, Hc.
  assert (Hne : cur ++ [c] <> []) by by destruct cur.
  destruct (decide (cur = [])) as [->|Hcur].
  - assert (Ed : all_digits [c] = is_number c) by (unfold all_digits; simpl; by rewrite andb_true_r).
    cbn [app]. change (all_digits []) with false. rewrite Hs by done. cbv iota. destruct (is_number c) eqn:Ec.
    + split; [|done]. unfold six_inv. cbn [six_num six_sep six_number]. rewrite Ed. split_and!; try done.
      intros _. rewrite atoi_token by done. change [c] with ([] ++ [c]). rewrite numeral_snoc.
      destruct (is_number_value c Ec) as (-> & Hd & _). unfold is_digit in Hd. cbn [numeral foldl]. rewrite i32_in; lia.
    + split; [|done]. unfold six_inv. cbn [six_num six_sep]. rewrite Ed. by split_and!.
  - pose proof (all_digits_snoc cur c Hcur) as Ed. destruct (all_digits cur) eqn:Eall.
    + destruct (is_number c) eqn:Ec.
      * split; [|done]. unfold six_inv. cbn [six_num six_sep six_number]. rewrite Ed. split_and!; try done.
        intros _. rewrite atoi_token, Hv by done. apply i32_numeral_snoc.
      * split; [|done]. unfold six_inv. cbn [six_num six_sep]. rewrite Ed. by split_and!.
    + rewrite (Hi eq_refl Hcur). destruct (is_number c); (split; [|done]); unfold six_inv; rewrite Ed, Hn; simpl;
        split_and!; try done; intros; by apply Hi.
Qed.

Lemma six_byte_separator after cur s c :
  is_separator c = true -> six_inv cur s -> (all_digits cur = true -> numeral 10 cur < 2 ^ 31) ->
  six_inv [] (six_byte after s c) /\
  six_out (six_byte after s c) = six_out s ++ (if all_digits cur then process_number (numeral 10 cur) else []).
Proof.
  intros Hc (Hn & Hs & Hi & Hv) Hsm. unfold six_byte. rewrite Hn, Hc.
  assert (Hnum : is_number c = false).
  { destruct (is_number c) eqn:E; [|done]. apply is_number_value in E as (_ & _ & E). congruence. }
  rewrite Hnum. destruct (all_digits cur) eqn:Eall.
  - cbn [six_out]. rewrite Hv by done. rewrite i32_in; [done|]. specialize (Hsm eq_refl).
    assert (Hge : 0 <= numeral 10 cur); [|lia]. clear -Eall. unfold all_digits in Eall. apply andb_true_iff in Eall as [_ E].
    induction cur as [|x l IH] using rev_ind; [done|]. rewrite forallb_app in E. apply andb_true_iff in E as [E1 E2].
    simpl in E2. rewrite andb_true_r in E2. destruct (is_number_value x E2) as (Ev & Hd & _). rewrite numeral_snoc, Ev.
    unfold is_digit in Hd. specialize (IH E1). lia.
  - rewrite app_nil_r. destruct (decide (cur = [])) as [->|Hcur].
    + rewrite Hs by done. split; [|done]. by split_and!.
    + rewrite Hi by done. split; [|done]. by split_and!.
Qed.

Lemma process_file_fold after text : stops after -> forall cur s,
  six_inv cur s -> (forall l, l ∈ tokens cur text -> all_digits l = true -> numeral 10 l < 2 ^ 31) ->
  let s' := foldl (six_byte after) s text in
  six_out s' ++ (if six_num s' then process_number (six_number s') else []) =
  six_out s ++ concat ((fun l => process_number (numeral 10 l)) <$> filter (fun l => all_digits l = true) (tokens cur text)).
Proof.
  intros Ha. induction text as [|c text IH]; intros cur s Hinv Hsm; cbn [foldl tokens] in *.
  - f_equal. destruct (six_byte_separator after cur s (chr 32) eq_refl Hinv) as [_ Eo].
    { apply Hsm. by apply list_elem_of_singleton. }
    destruct Hinv as (Hn & _). rewrite filter_cons, Hn. unfold six_byte in Eo. rewrite Hn in Eo. simpl in Eo.
    destruct (all_digits cur); simpl; [|done]. rewrite app_nil_r. by apply app_inv_head in Eo.
  - destruct (is_separator c) eqn:Ec.
    + destruct (six_byte_separator after cur s c Ec Hinv) as [Hinv' Eo].
      { apply Hsm, elem_of_cons. by left. }
      rewrite (IH [] _ Hinv') by (intros l Hl; apply Hsm, elem_of_cons; by right).
      rewrite Eo, filter_cons, <-app_assoc. f_equal. by destruct (all_digits cur).
    + destruct (six_byte_token after cur s c Ha Ec Hinv) as [Hinv' Eo]. rewrite (IH _ _ Hinv' Hsm). by rewrite Eo.
Qed.

(** sixfive prints the right numbers.  When the variable the digits are
    read through is not followed by a digit in memory and no number overflows an
    int, the output is exactly the numbers of the file, cut at the separators,
    that are multiples of 5 or 6; digits inside another word do not count. *)
Theorem sixfive_prints_multiples after input :
  stops after -> (forall l, l ∈ tokens [] input -> all_digits l = true -> numeral 10 l < 2 ^ 31) ->
  process_file after input = sixfive_spec input.
Proof.
  intros Ha Hsm. unfold process_file, sixfive_spec.
  rewrite (process_file_fold after input Ha [] _); [done| |done]. by split_and!.
Qed.

Lemma sixfive_prints_multiples_witness :
  process_file [] (bytes_of "5,12 x6 7/30a") = bytes_of "5" ++ [chr 10] ++ bytes_of "12" ++ [chr 10].
Proof.
  rewrite sixfive_prints_multiples; [by vm_compute|done|].
  assert (H : Forall (fun l => numeral 10 l < 2 ^ 31) (tokens [] (bytes_of "5,12 x6 7/30a")))
    by (repeat (apply Forall_cons; split; [by vm_compute|]); constructor).
  intros l Hl _. by apply (proj1 (Forall_forall _ _) H).
Defined.

(** sixfive depends on memory it does not own.  [atoi(&token)] takes the
    address of a single char, so a digit that happens to follow it on the
    stack is read as part of the number: with a 0 there, the file "7" prints 70. *)
Theorem sixfive_reads_past_token :
  process_file [] (bytes_of "7") = [] /\ process_file (bytes_of "0") (bytes_of "7") = bytes_of "70" ++ [chr 10].
Proof. by vm_compute. Qed.
