(* ===== verification/Sh.v ===== *)
(** * Sh: the parser of the shell, user/sh.c

    A command line is an array of characters ending in a NUL.  The parser
    works on positions in that array; the commands it builds point into it, and
    [nulterminate] cuts the words out by writing NULs over what follows them.
    [malloc] is taken to succeed. *)

From S2P Require Import Prelude Syscall Tools.

Definition MAXARGS : nat := 10.

(** The parsed commands; a word is where it starts and ends. *)
Inductive cmd :=
| execcmd (argv : list (nat * nat))
| redircmd (c : cmd) (file : nat * nat) (mode fd : Z)
| pipecmd (left right : cmd)
| listcmd (left right : cmd)
| backcmd (c : cmd).

Definition whitespace : list byte := [chr 32; chr 9; chr 13; chr 10; chr 11].
Definition symbols : list byte := bytes_of "<|>&;()".
Definition is_space (c : byte) : bool := strchr whitespace c.
Definition is_symbol (c : byte) : bool := strchr symbols c.
Definition is_word (c : byte) : bool := negb (is_space c) && negb (is_symbol c).

(** What a parsing function does: a result and the new position, or an
    error message of the shell. *)
Inductive pres (A : Type) := POk (a : A) (s : nat) | PPanic (msg : string) | PFuel.
Arguments POk {A} a s.
Arguments PPanic {A} msg.
Arguments PFuel {A}.

Definition P (A : Type) : Type := nat -> pres A.

#[global] Instance P_ret : MRet P := fun A a s => POk a s.
#[global] Instance P_bind : MBind P := fun A B f m s =>
  match m s with
  | POk a s' => f a s'
  | PPanic msg => PPanic msg
  | PFuel => PFuel
  end.
Definition ppanic {A} (msg : string) : P A := fun _ => PPanic msg.

Section parser.
(** The array, and [es], the position of its NUL. *)
Context (buf : list byte) (es : nat).

Definition char_at (s : nat) : byte := default (chr 0) (buf !! s).

(** [while(s < es && p( *s)) s++;] *)
Fixpoint scan_loop (p : byte -> bool) (n s : nat) : nat :=
  match n with
  | O => s
  | S n => if (s <? es)%nat && p (char_at s) then scan_loop p n (S s) else s
  end.
Definition scan (p : byte -> bool) (s : nat) : nat := scan_loop p (es - s) s.

Definition tok_word : byte := chr 97.
Definition tok_append : byte := chr 43.
Definition gt : byte := chr 62.

(** The token at position [q] and where it ends. *)
Definition token_at (q : nat) : byte * nat :=
  let c := char_at q in
  if decide (c = chr 0) then (c, q)
  else if strchr (bytes_of "|();&<") c then (c, S q)
  else if decide (c = gt) then
    if decide (char_at (S q) = gt) then (tok_append, S (S q)) else (c, S q)
  else (tok_word, scan is_word q).

(** The token and its extent. *)
Definition gettoken : P (byte * (nat * nat)) := fun s =>
  let q := scan is_space s in
  let '(ret, eq) := token_at q in
  POk (ret, (q, eq)) (scan is_space eq).

Definition peek (toks : list byte) : P bool := fun s =>
  let s := scan is_space s in
  POk (negb (bool_decide (char_at s = chr 0)) && strchr toks (char_at s)) s.

(** The redirection that a token stands for. *)
Definition redirect (tok : byte) (c : cmd) (file : nat * nat) : cmd :=
  if decide (tok = chr 60) then redircmd c file O_RDONLY 0
  else if decide (tok = gt) then redircmd c file (Z.lor (Z.lor O_WRONLY O_CREATE) O_TRUNC) 1
  else if decide (tok = tok_append) then redircmd c file (Z.lor O_WRONLY O_CREATE) 1
  else c.

Fixpoint parseredirs_loop (n : nat) (c : cmd) : P cmd :=
  match n with
  | O => fun _ => PFuel
  | S n =>
      more ← peek (bytes_of "<>");
      if (more : bool) then
        t ← gettoken;
        w ← gettoken;
        if decide (w.1 = tok_word) then parseredirs_loop n (redirect t.1 c w.2)
        else ppanic "missing file for redirection"
      else mret c
  end.
Definition parseredirs (c : cmd) : P cmd := parseredirs_loop (S es) c.

(** [parseexec] adds a word to the execcmd it allocated, below the
    redirections already wrapped around it. *)
Fixpoint add_arg (c : cmd) (w : nat * nat) : cmd :=
  match c with
  | execcmd argv => execcmd (argv ++ [w])
  | redircmd c file mode fd => redircmd (add_arg c w) file mode fd
  | _ => c
  end.

Fixpoint args_loop (n argc : nat) (ret : cmd) : P cmd :=
  match n with
  | O => fun _ => PFuel
  | S n =>
      stop ← peek (bytes_of "|)&;");
      if (stop : bool) then mret ret
      else
        t ← gettoken;
        if decide (t.1 = chr 0) then mret ret
        else if negb (bool_decide (t.1 = tok_word)) then ppanic "syntax"
        else
          let ret := add_arg ret t.2 in
          if (MAXARGS <=? S argc)%nat then ppanic "too many args"
          else
            ret ← parseredirs ret;
            args_loop n (S argc) ret
  end.

(** [while(peek(ps, es, "&"))] of parseline. *)
Fixpoint backs_loop (n : nat) (c : cmd) : P cmd :=
  match n with
  | O => fun _ => PFuel
  | S n =>
      more ← peek (bytes_of "&");
      if (more : bool) then gettoken;; backs_loop n (backcmd c) else mret c
  end.

Fixpoint parseline (n : nat) : P cmd :=
  match n with
  | O => fun _ => PFuel
  | S n =>
      c ← parsepipe n;
      c ← backs_loop (S es) c;
      more ← peek (bytes_of ";");
      if (more : bool) then
        gettoken;;
        r ← parseline n;
        mret (listcmd c r)
      else mret c
  end
with parsepipe (n : nat) : P cmd :=
  match n with
  | O => fun _ => PFuel
  | S n =>
      c ← parseexec n;
      more ← peek (bytes_of "|");
      if (more : bool) then
        gettoken;;
        r ← parsepipe n;
        mret (pipecmd c r)
      else mret c
  end
with parseblock (n : nat) : P cmd :=
  match n with
  | O => fun _ => PFuel
  | S n =>
      opened ← peek (bytes_of "(");
      if negb opened then ppanic "parseblock"
      else
        gettoken;;
        c ← parseline n;
        closed ← peek (bytes_of ")");
        if negb closed then ppanic "syntax - missing )"
        else
          gettoken;;
          parseredirs c
  end
with parseexec (n : nat) : P cmd :=
  match n with
  | O => fun _ => PFuel
  | S n =>
      block ← peek (bytes_of "(");
      if (block : bool) then parseblock n
      else
        ret ← parseredirs (execcmd []);
        args_loop (S es) 0 ret
  end.
End parser.

(** [*efile = 0], [*eargv[i] = 0]. *)
Definition cut (w : nat * nat) (buf : list byte) : list byte := <[w.2 := chr 0]> buf.

Fixpoint nulterminate (c : cmd) (buf : list byte) : list byte :=
  match c with
  | execcmd argv => foldl (fun b w => cut w b) buf argv
  | redircmd c file _ _ => cut file (nulterminate c buf)
  | pipecmd l r | listcmd l r => nulterminate r (nulterminate l buf)
  | backcmd c => nulterminate c buf
  end.

(** The nesting of calls: four functions for each character, at most. *)
Definition parse_fuel (es : nat) : nat := 4 * es + 4.

(** The command, and the array after [nulterminate]. *)
Definition parsecmd (line : list byte) : pres (cmd * list byte) :=
  let es := length line in
  let buf := line ++ [chr 0] in
  match parseline buf es (parse_fuel es) 0%nat with
  | POk c s =>
      match peek buf es [] s with
      | POk _ s => if decide (s = es) then POk (c, nulterminate c buf) s else PPanic "syntax"
      | PPanic msg => PPanic msg
      | PFuel => PFuel
      end
  | PPanic msg => PPanic msg
  | PFuel => PFuel
  end.

(** ** The strings of a command *)

Inductive command :=
| CExec (argv : list (list byte))
| CRedir (c : command) (file : list byte) (mode fd : Z)
| CPipe (left right : command)
| CList (left right : command)
| CBack (c : command).

(** The C string at a position of the array. *)
Definition string_at (buf : list byte) (q : nat) : list byte := until_nul (drop q buf).

Fixpoint strings (f : nat * nat -> list byte) (c : cmd) : command :=
  match c with
  | execcmd argv => CExec (f <$> argv)
  | redircmd c file mode fd => CRedir (strings f c) (f file) mode fd
  | pipecmd l r => CPipe (strings f l) (strings f r)
  | listcmd l r => CList (strings f l) (strings f r)
  | backcmd c => CBack (strings f c)
  end.

(** What [runcmd] sees. *)
Definition view (buf : list byte) (c : cmd) : command := strings (fun w => string_at buf w.1) c.

(** The text between the two ends of a word. *)
Definition text (buf : list byte) (w : nat * nat) : list byte := take (w.2 - w.1) (drop w.1 buf).
