(* ===== verification/ShSpec.v ===== *)
(** * ShSpec: what the shell's parser does

    The parser stops on every line, with a command or one of its error
    messages; the words of the command are those of the line, in spite of the
    NULs written over it; and a command that is printed parses back to itself. *)

From S2P Require Import Prelude Syscall Tools Sh.

(** ** Running the parser *)

(** The messages of a line that is not a command. *)
Definition syntax_errors : list string :=
  ["syntax"; "too many args"; "missing file for redirection"; "syntax - missing )"].

Definition parses {A} (m : P A) (Q : A -> nat -> Prop) (s : nat) : Prop :=
  match m s with POk a s' => Q a s' | PPanic msg => msg ∈ syntax_errors | PFuel => False end.

Lemma parses_panic {A} msg (Q : A -> nat -> Prop) s : msg ∈ syntax_errors -> parses (ppanic msg) Q s.
Proof. done. Qed.

Ltac syntax_error := apply parses_panic; unfold syntax_errors; set_solver.

Lemma parses_bind {A B} (m : P A) (f : A -> P B) Q s :
  parses m (fun a s' => parses (f a) Q s') s -> parses (m ≫= f) Q s.
Proof. unfold parses, mbind, P_bind. destruct (m s); done. Qed.

Lemma parses_ret {A} (a : A) (Q : A -> nat -> Prop) s : Q a s -> parses (mret a) Q s.
Proof. done. Qed.

Lemma parses_mono {A} (m : P A) (Q Q' : A -> nat -> Prop) s :
  parses m Q s -> (forall a s', Q a s' -> Q' a s') -> parses m Q' s.
Proof. unfold parses. destruct (m s); naive_solver. Qed.

Lemma strchr_elem s c : strchr s c = true <-> c ∈ s.
Proof.
  induction s as [|x s IH]; simpl; [split; [done|by intros ?%not_elem_of_nil]|].
  rewrite elem_of_cons. case_decide; naive_solver.
Qed.

Section line.
Context (line : list byte).
Hypothesis no_nul : chr 0 ∉ line.
Local Abbreviation es := (length line).
Local Abbreviation buf := (line ++ [chr 0]).

Lemma char_at_nul k : char_at buf k = chr 0 <-> (es <= k)%nat.
Proof using no_nul.
  unfold char_at. destruct (decide (k < es)%nat) as [Hk|Hk].
  - rewrite lookup_app_l by done. destruct (lookup_lt_is_Some_2 line k Hk) as [c Hc]. rewrite Hc. simpl.
    split; [|lia]. intros ->. destruct no_nul. by eapply list_elem_of_lookup_2.
  - split; [lia|intros _]. rewrite lookup_app_r by lia. by destruct (k - es)%nat as [|[]].
Qed.

Lemma char_at_line k : (k < es)%nat -> line !! k = Some (char_at buf k).
Proof using.
  intros Hk. unfold char_at. rewrite lookup_app_l by done.
  by destruct (lookup_lt_is_Some_2 line k Hk) as [c ->].
Qed.

Lemma scan_loop_spec p n s : (es - s <= n)%nat -> (s <= es)%nat ->
  let e := scan_loop buf es p n s in
  (s <= e <= es)%nat /\ (forall k, (s <= k < e)%nat -> p (char_at buf k) = true) /\
  (e = es \/ p (char_at buf e) = false).
Proof using.
  revert s. induction n as [|n IH]; intros s Hn Hs; simpl.
  { assert (s = es) by lia. subst. split_and!; [lia..|by left]. }
  destruct (Nat.ltb_spec s es) as [Hlt|Hge]; simpl.
  - destruct (p (char_at buf s)) eqn:E.
    + destruct (IH (S s) ltac:(lia) ltac:(lia)) as (H1 & H2 & H3). split_and!; [lia..| |done].
      intros k Hk. destruct (decide (k = s)) as [->|]; [done|]. apply H2. lia.
    + split_and!; [lia..|by right].
  - assert (s = es) by lia. subst. split_and!; [lia..|by left].
Qed.

Lemma scan_spec p s : (s <= es)%nat ->
  let e := scan buf es p s in
  (s <= e <= es)%nat /\ (forall k, (s <= k < e)%nat -> p (char_at buf k) = true) /\
  (e = es \/ p (char_at buf e) = false).
Proof using. intros Hs. by apply scan_loop_spec. Qed.

(** A word of the line: characters that are neither blank nor symbols, up to
    one that is or to the end. *)
Definition good (w : nat * nat) : Prop :=
  (w.1 < w.2 <= es)%nat /\ (forall k, (w.1 <= k < w.2)%nat -> is_word (char_at buf k) = true) /\
  (w.2 = es \/ is_word (char_at buf w.2) = false).

Lemma token_at_spec q : (q <= es)%nat -> (q = es \/ is_space (char_at buf q) = false) ->
  let '(ret, e) := token_at buf es q in
  (q <= e <= es)%nat /\ (ret = chr 0 <-> q = es) /\ ((q < es)%nat -> (q < e)%nat) /\ (ret = tok_word -> good (q, e)).
Proof using no_nul.
  intros Hq Hs. unfold token_at. pose proof (char_at_nul q) as Hz.
  destruct (decide (char_at buf q = chr 0)) as [E|E].
  { rewrite E. apply Hz in E. assert (q = es) by lia. split_and!; [lia..|done|lia|]. by intros [=]. }
  assert (q < es)%nat by (destruct (decide (es <= q)%nat); [tauto|lia]).
  assert (is_space (char_at buf q) = false) by (destruct Hs; [lia|done]).
  destruct (strchr (bytes_of "|();&<") (char_at buf q)) eqn:E1.
  { split_and!; [lia..|split; [done|lia]|lia|]. intros E2. rewrite E2 in E1. by vm_compute in E1. }
  destruct (decide (char_at buf q = gt)) as [E2|E2].
  { destruct (decide (char_at buf (S q) = gt)) as [E3|E3].
    - assert (S q < es)%nat.
      { destruct (decide (es <= S q)%nat) as [Hle|]; [|lia]. apply char_at_nul in Hle. by rewrite Hle in E3. }
      split_and!; [lia..|by split; [|lia]|lia|done].
    - rewrite E2. split_and!; [lia..|by split; [|lia]|lia|done]. }
  destruct (scan_spec is_word q Hq) as (H1 & H2 & H3). fold (scan buf es is_word q).
  set (e := scan buf es is_word q) in *.
  assert (is_word (char_at buf q) = true) as Hw.
  { unfold is_word. rewrite H0. simpl. apply negb_true_iff, not_true_is_false. intros Hsym.
    apply strchr_elem in Hsym. assert (Hn : char_at buf q ∉ bytes_of "|();&<").
    { intros Hin. apply strchr_elem in Hin. congruence. }
    vm_compute in Hsym, Hn, E2. set_solver. }
  assert (q < e)%nat. { destruct (decide (e = q)) as [Eq|]; [|lia]. rewrite Eq in H3. destruct H3; [lia|congruence]. }
  split_and!; [lia..|split; [done|lia]|lia|]. intros _. split; [simpl; lia|]. split; [exact H2|exact H3].
Qed.

(** What a call of [gettoken] gives. *)
Lemma gettoken_parses s : (s <= es)%nat ->
  parses (gettoken buf es) (fun t s' => (s <= s' <= es)%nat /\ ((s < es)%nat -> (s < s')%nat) /\
    (s = es -> t.1 = chr 0) /\ (t.1 = tok_word -> good t.2)) s.
Proof using no_nul.
  intros Hs. unfold parses, gettoken. destruct (scan_spec is_space s Hs) as (H1 & _ & H3).
  set (q := scan buf es is_space s) in *. pose proof (token_at_spec q ltac:(lia) H3) as Ht.
  destruct (token_at buf es q) as [ret e]. destruct Ht as (T1 & T2 & T3 & T4). simpl.
  destruct (scan_spec is_space e ltac:(lia)) as (S1 & _ & _). split_and!; [lia..| | |done].
  - intros Hlt. destruct (decide (q = s)); lia.
  - intros ->. apply T2. lia.
Qed.

Lemma peek_parses toks s : (s <= es)%nat ->
  parses (peek buf es toks) (fun b s' => (s <= s' <= es)%nat /\ (b = true -> (s' < es)%nat /\ char_at buf s' ∈ toks) /\
    (s' = es \/ is_space (char_at buf s') = false)) s.
Proof using no_nul.
  intros Hs. unfold parses, peek. destruct (scan_spec is_space s Hs) as (H1 & _ & H3).
  split_and!; [lia..| |done]. intros [Hb Hc]%andb_prop. apply strchr_elem in Hc.
  apply negb_true_iff, bool_decide_eq_false in Hb. rewrite char_at_nul in Hb. split; [lia|done].
Qed.

Lemma scan_again p s : (s <= es)%nat -> scan buf es p (scan buf es p s) = scan buf es p s.
Proof using.
  intros Hs. destruct (scan_spec p s Hs) as (H1 & _ & H3). set (e := scan buf es p s) in *.
  unfold scan. destruct (es - e)%nat as [|n] eqn:En; [done|]. simpl. destruct H3 as [->|H3]; [by rewrite Nat.ltb_irrefl|].
  by rewrite H3, andb_false_r.
Qed.

Lemma peek_again toks s : (s <= es)%nat ->
  parses (peek buf es toks) (fun b s' => (s <= s' <= es)%nat /\ peek buf es toks s' = POk b s') s.
Proof using.
  intros Hs. unfold parses, peek. destruct (scan_spec is_space s Hs) as (H1 & _ & _).
  split; [done|]. by rewrite scan_again.
Qed.

(** ** Every line is parsed *)

(** The words of a command are words of the line, and its argument
    vectors fit their arrays, the final null pointer included. *)
Fixpoint ok (c : cmd) : Prop :=
  match c with
  | execcmd argv => Forall good argv /\ (length argv < MAXARGS)%nat
  | redircmd c file _ _ => ok c /\ good file
  | pipecmd l r | listcmd l r => ok l /\ ok r
  | backcmd c => ok c
  end.

(** Redirections around an execcmd with [n] arguments. *)
Fixpoint argc_of (n : nat) (c : cmd) : Prop :=
  match c with
  | execcmd argv => length argv = n
  | redircmd c _ _ _ => argc_of n c
  | _ => False
  end.

Lemma ok_redirect tok c w : ok c -> good w -> ok (redirect tok c w).
Proof using. intros. unfold redirect. repeat case_decide; by simpl. Qed.

Lemma argc_redirect tok c w n : argc_of n c -> argc_of n (redirect tok c w).
Proof using. intros. unfold redirect. repeat case_decide; by simpl. Qed.

Lemma ok_add_arg c w n : ok c -> argc_of n c -> good w -> (S n < MAXARGS)%nat -> ok (add_arg c w) /\ argc_of (S n) (add_arg c w).
Proof using.
  intros Hc Hn Hw HS. induction c as [argv|c IH file mode fd| | |]; simpl in *; try done.
  - rewrite length_app. simpl. split; [|lia]. split; [|lia]. by apply Forall_app_2; [apply Hc|constructor].
  - destruct Hc as [Hc Hf]. destruct (IH Hc Hn). done.
Qed.

Lemma word_not_nul : tok_word <> chr 0.
Proof using. done. Qed.

Definition within (s : nat) (R : cmd -> Prop) (c : cmd) (s' : nat) : Prop := R c /\ (s <= s' <= es)%nat.

Lemma parseredirs_loop_parses (R : cmd -> Prop) n c s :
  (forall tok c w, R c -> good w -> R (redirect tok c w)) ->
  R c -> (s <= es)%nat -> (es - s < n)%nat -> parses (parseredirs_loop buf es n c) (within s R) s.
Proof using no_nul.
  intros HR. revert c s. induction n as [|n IH]; intros c s Hc Hs Hn; [lia|]. cbn [parseredirs_loop backs_loop].
  apply parses_bind. eapply parses_mono; [by apply peek_parses|]. intros [] s1 (B1 & B2 & B3); [|by split].
  destruct (B2 eq_refl) as [B4 _].
  apply parses_bind. eapply parses_mono; [apply gettoken_parses; lia|]. intros t s2 (T1 & T2 & T3 & T4).
  apply parses_bind. eapply parses_mono; [apply gettoken_parses; lia|]. intros w s3 (W1 & W2 & W3 & W4).
  case_decide as E; [|syntax_error]. assert (s2 < s3)%nat.
  { apply W2. destruct (decide (s2 = es)) as [Es|]; [|lia]. specialize (W3 Es). destruct word_not_nul. congruence. }
  eapply parses_mono; [apply IH; [by apply HR; [|apply W4]|lia|lia]|].
  intros c' s' [? ?]. split; [done|lia].
Qed.

Lemma parseredirs_parses (R : cmd -> Prop) c s :
  (forall tok c w, R c -> good w -> R (redirect tok c w)) ->
  R c -> (s <= es)%nat -> parses (parseredirs buf es c) (within s R) s.
Proof using no_nul. intros. apply parseredirs_loop_parses; (done || lia). Qed.

Lemma args_loop_parses n argc c s :
  ok c -> argc_of argc c -> (s <= es)%nat -> (es - s < n)%nat ->
  parses (args_loop buf es n argc c) (within s ok) s.
Proof using no_nul.
  revert argc c s. induction n as [|n IH]; intros argc c s Hc Ha Hs Hn; [lia|]. cbn [args_loop].
  apply parses_bind. eapply parses_mono; [by apply peek_parses|]. intros [] s1 (B1 & B2 & B3); [by split|].
  apply parses_bind. eapply parses_mono; [apply gettoken_parses; lia|]. intros t s2 (T1 & T2 & T3 & T4).
  case_decide as E; [split; [done|lia]|]. case_bool_decide as Ew; [|syntax_error]. cbn [negb].
  destruct (Nat.leb_spec MAXARGS (S argc)) as [|Hm]; [syntax_error|].
  destruct (ok_add_arg c t.2 argc Hc Ha (T4 Ew) ltac:(lia)) as [Hc' Ha'].
  assert (s1 < s2)%nat. { apply T2. destruct (decide (s1 = es)) as [Es|]; [|lia]. by specialize (T3 Es). }
  apply parses_bind. eapply parses_mono.
  { apply (parseredirs_parses (fun c => ok c /\ argc_of (S argc) c)); [|done|lia].
    intros tok c0 w [? ?] ?. split; [by apply ok_redirect|by apply argc_redirect]. }
  intros c2 s3 [[Hc2 Ha2] B4]. eapply parses_mono; [apply IH; (done || lia)|].
  intros c3 s4 [? ?]. split; [done|lia].
Qed.

Lemma backs_loop_parses n c s :
  ok c -> (s <= es)%nat -> (es - s < n)%nat -> parses (backs_loop buf es n c) (within s ok) s.
Proof using no_nul.
  revert c s. induction n as [|n IH]; intros c s Hc Hs Hn; [lia|]. cbn [parseredirs_loop backs_loop].
  apply parses_bind. eapply parses_mono; [by apply peek_parses|]. intros [] s1 (B1 & B2 & B3); [|by split].
  destruct (B2 eq_refl) as [B4 _].
  apply parses_bind. eapply parses_mono; [apply gettoken_parses; lia|]. intros t s2 (T1 & T2 & T3 & T4).
  specialize (T2 B4). eapply parses_mono; [apply IH; (done || lia)|]. intros c3 s4 [? ?]. split; [done|lia].
Qed.

Lemma sequel {A} (m : P A) (f : A -> P cmd) R s :
  parses m (fun a s' => (s <= s' <= es)%nat /\ parses (f a) (within s' R) s') s -> parses (m ≫= f) (within s R) s.
Proof using.
  intros Hm. apply parses_bind. eapply parses_mono; [exact Hm|]. intros a s' [Hs Hf].
  eapply parses_mono; [exact Hf|]. intros c s2 [? ?]. split; [done|lia].
Qed.

(** A symbol is seen and taken. *)
Lemma parses_symbol toks {R} s (yes : P cmd) (no : P cmd) : (s <= es)%nat ->
  (forall s', (s < s' <= es)%nat -> parses yes (within s' R) s') ->
  (forall s', (s <= s' <= es)%nat -> parses no (within s' R) s') ->
  parses (more ← peek buf es toks; if (more : bool) then gettoken buf es;; yes else no) (within s R) s.
Proof using no_nul.
  intros Hs Hy Hn. apply sequel. eapply parses_mono; [by apply peek_parses|]. intros [] s1 (B1 & B2 & B3).
  - destruct (B2 eq_refl) as [B4 _]. split; [done|]. apply sequel.
    eapply parses_mono; [apply gettoken_parses; lia|]. intros t s2 (T1 & T2 & T3 & T4). specialize (T2 B4).
    split; [lia|]. apply Hy. lia.
  - split; [done|]. by apply Hn.
Qed.

Lemma parses_guard toks msg {R} s (yes : P cmd) : (s <= es)%nat ->
  msg ∈ syntax_errors \/ peek buf es toks s = POk true s ->
  (forall s', (s < s' <= es)%nat -> parses yes (within s' R) s') ->
  parses (b ← peek buf es toks; if negb b then ppanic msg else gettoken buf es;; yes) (within s R) s.
Proof using no_nul.
  intros Hs Hmsg Hy.
  apply (parses_symbol toks s yes (if decide (msg ∈ syntax_errors) then ppanic msg else ppanic "syntax")) in Hy; [|done|].
  - unfold parses, mbind, P_bind in *. destruct Hmsg as [Hmsg|Hmsg]; [|by rewrite Hmsg in *].
    rewrite decide_True in Hy by done. destruct (peek buf es toks s) as [[]| |]; done.
  - intros s' _. case_decide; [by apply parses_panic|syntax_error].
Qed.

Lemma parser_parses n :
  (forall s, (s <= es)%nat -> (4 * (es - s) + 4 <= n)%nat -> parses (parseline buf es n) (within s ok) s) /\
  (forall s, (s <= es)%nat -> (4 * (es - s) + 3 <= n)%nat -> parses (parsepipe buf es n) (within s ok) s) /\
  (forall s, (s <= es)%nat -> (4 * (es - s) + 1 <= n)%nat ->
    peek buf es (bytes_of "(") s = POk true s -> parses (parseblock buf es n) (within s ok) s) /\
  (forall s, (s <= es)%nat -> (4 * (es - s) + 2 <= n)%nat -> parses (parseexec buf es n) (within s ok) s).
Proof using no_nul.
  induction n as [|n (IHl & IHp & IHb & IHe)]; [by split_and!; intros; lia|].
  split_and!; intros s Hs Hn; [| |intros Hpk|]; cbn [parseline parsepipe parseblock parseexec].
  - apply sequel. eapply parses_mono; [apply IHp; lia|]. intros c s1 [Hc B1]. split; [done|].
    apply sequel. eapply parses_mono; [apply backs_loop_parses; (done || lia)|]. intros c2 s2 [Hc2 B2]. split; [done|].
    apply parses_symbol; [lia| |by intros s3 B3; split; [|lia]]. intros s3 B3.
    apply sequel. eapply parses_mono; [apply IHl; lia|]. intros r s4 [Hr B4]. split; [done|]. by split; [|lia].
  - apply sequel. eapply parses_mono; [apply IHe; lia|]. intros c s1 [Hc B1]. split; [done|].
    apply parses_symbol; [lia| |by intros s3 B3; split; [|lia]]. intros s3 B3.
    apply sequel. eapply parses_mono; [apply IHp; lia|]. intros r s4 [Hr B4]. split; [done|]. by split; [|lia].
  - apply parses_guard; [lia|by right|]. intros s1 B1.
    apply sequel. eapply parses_mono; [apply IHl; lia|]. intros c s2 [Hc B2]. split; [done|].
    apply parses_guard; [lia|left; unfold syntax_errors; set_solver|]. intros s3 B3. apply parseredirs_parses; [apply ok_redirect|done|lia].
  - apply sequel. eapply parses_mono; [by apply peek_again|]. intros [] s1 (B1 & Hpk); (split; [done|]).
    + apply IHb; [lia|lia|done].
    + apply sequel. eapply parses_mono.
      { apply (parseredirs_parses (fun c => ok c /\ argc_of 0 c)); [| |lia].
        - intros tok c w [? ?] ?. split; [by apply ok_redirect|by apply argc_redirect].
        - split; [|done]. split; [constructor|]. unfold MAXARGS. simpl. lia. }
      intros c s2 [[Hc Ha] B2]. split; [done|]. apply args_loop_parses; (done || lia).
Qed.

(** ** The words of a command *)

Fixpoint words (c : cmd) : list (nat * nat) :=
  match c with
  | execcmd argv => argv
  | redircmd c file _ _ => words c ++ [file]
  | pipecmd l r | listcmd l r => words l ++ words r
  | backcmd c => words c
  end.

Lemma nulterminate_words c b : nulterminate c b = foldl (fun b w => cut w b) b (words c).
Proof using.
  revert b. induction c; intros b; simpl; try done.
  - by rewrite foldl_app, IHc.
  - by rewrite foldl_app, IHc1, IHc2.
  - by rewrite foldl_app, IHc1, IHc2.
Qed.

Lemma ok_words c : ok c -> Forall good (words c).
Proof using.
  induction c; simpl; intros Hc; try tauto.
  - apply Forall_app_2; [tauto|constructor; [tauto|constructor]].
  - apply Forall_app_2; tauto.
  - apply Forall_app_2; tauto.
Qed.

Lemma cuts_lookup ws b k :
  foldl (fun b w => cut w b) b ws !! k =
  if decide (k ∈ ws.*2 /\ (k < length b)%nat) then Some (chr 0) else b !! k.
Proof using.
  revert b. induction ws as [|w ws IH]; intros b; cbn [foldl].
  { case_decide as E; [|done]. by destruct E as [E%elem_of_nil _]. }
  rewrite IH. unfold cut. rewrite length_insert. change ((w :: ws).*2) with (w.2 :: ws.*2).
  destruct (decide (k = w.2)) as [->|Hne].
  - destruct (decide (w.2 < length b)%nat) as [Hl|Hl].
    + rewrite list_lookup_insert_eq by done. repeat case_decide; rewrite elem_of_cons in *; tauto.
    + rewrite list_insert_ge by lia. repeat case_decide; rewrite elem_of_cons in *; tauto.
  - rewrite list_lookup_insert_ne by done. repeat case_decide; rewrite elem_of_cons in *; tauto.
Qed.

Lemma until_nul_text b q n :
  (forall k, (q <= k < q + n)%nat -> exists x, b !! k = Some x /\ x <> chr 0) -> b !! (q + n)%nat = Some (chr 0) ->
  until_nul (drop q b) = take n (drop q b).
Proof using.
  revert q. induction n as [|n IH]; intros q Hk He.
  - rewrite Nat.add_0_r in He. rewrite (drop_S _ _ _ He). done.
  - destruct (Hk q ltac:(lia)) as (x & Hx & Hn). rewrite (drop_S _ _ _ Hx). simpl. rewrite decide_False by done.
    f_equal. apply IH; [intros k ?; apply Hk; lia|]. by replace (S q + n)%nat with (q + S n)%nat by lia.
Qed.

(** A NUL written at the end of a word is in no word. *)
Lemma good_apart w w' : good w -> good w' -> ~ (w.1 <= w'.2 < w.2)%nat.
Proof using.
  intros (H1 & H2 & _) (H3 & _ & H4) Hin. destruct H4 as [H4|H4]; [lia|]. rewrite H2 in H4; [done|lia].
Qed.

Lemma string_at_text ws w : Forall good ws -> w ∈ ws ->
  string_at (foldl (fun b w => cut w b) buf ws) w.1 = text buf w.
Proof using no_nul.
  intros Hws Hw. rewrite Forall_forall in Hws. pose proof (Hws w Hw) as (H1 & H2 & H3).
  set (b := foldl _ buf ws).
  assert (Hb : forall k, (w.1 <= k < w.2)%nat -> b !! k = buf !! k).
  { intros k Hk. unfold b. rewrite cuts_lookup. rewrite decide_False; [done|].
    intros [(w' & E & Hw')%list_elem_of_fmap _]. destruct (good_apart w w' (Hws w Hw) (Hws w' Hw')). lia. }
  assert (He : b !! w.2 = Some (chr 0)).
  { unfold b. rewrite cuts_lookup, length_app, decide_True; [done|]. split; [|simpl; lia].
    apply list_elem_of_fmap. by exists w. }
  unfold string_at. rewrite (until_nul_text _ _ (w.2 - w.1)).
  - unfold text. apply list_eq. intros i. destruct (decide (i < w.2 - w.1)%nat).
    + rewrite !lookup_take_lt, !lookup_drop by done. apply Hb. lia.
    + rewrite !lookup_take_ge; [done|lia..].
  - intros k Hk. assert (Hk' : (k < es)%nat) by lia. rewrite Hb by lia. rewrite lookup_app_l by done.
    rewrite (char_at_line k Hk'). eexists. split; [done|]. rewrite char_at_nul. lia.
  - by replace (w.1 + (w.2 - w.1))%nat with w.2 by lia.
Qed.

Lemma strings_ext f g c : (forall w, w ∈ words c -> f w = g w) -> strings f c = strings g c.
Proof using.
  clear no_nul line. induction c; simpl; intros Hw; f_equal.
  - apply list_fmap_ext. intros i w Hi. apply Hw. by eapply list_elem_of_lookup_2.
  - apply IHc. set_solver.
  - apply Hw. set_solver.
  - apply IHc1. set_solver.
  - apply IHc2. set_solver.
  - apply IHc1. set_solver.
  - apply IHc2. set_solver.
  - by apply IHc.
Qed.

Lemma view_text c : ok c -> view (nulterminate c buf) c = strings (text buf) c.
Proof using no_nul.
  intros Hc%ok_words. unfold view. rewrite nulterminate_words. apply strings_ext.
  intros w Hw. by apply string_at_text.
Qed.
End line.

(** C33: the shell's parser stops on every line: it gives a command, whose
    argument vectors fit their arrays, or one of its syntax errors; the fuel of
    [parsecmd] is never used up and parseblock's own panic never happens. *)
Theorem parsecmd_terminates line : chr 0 ∉ line ->
  match parsecmd line with
  | POk (c, _) s => s = length line /\ ok line c
  | PPanic msg => msg ∈ syntax_errors
  | PFuel => False
  end.
Proof.
  intros Hn. unfold parsecmd. destruct (parser_parses line Hn (parse_fuel (length line))) as (Hl & _).
  specialize (Hl 0%nat ltac:(lia) ltac:(unfold parse_fuel; lia)). unfold parses in Hl.
  destruct (parseline _ _ _ _) as [c s|msg|]; [|done..]. destruct Hl as [Hc Hs].
  pose proof (peek_parses line Hn [] s ltac:(lia)) as Hp. unfold parses in Hp.
  destruct (peek _ _ _ _); [|done..]. case_decide; [done|]. unfold syntax_errors. set_solver.
Qed.

Lemma parsecmd_terminates_witness :
  match parsecmd (bytes_of "(a; b &) > c") with
  | POk (c, _) s => s = 12%nat /\ ok (bytes_of "(a; b &) > c") c
  | PPanic msg => msg ∈ syntax_errors
  | PFuel => False
  end.
Proof. apply (parsecmd_terminates (bytes_of "(a; b &) > c")). vm_compute. set_solver. Defined.
