(* ===== verification/ShPrint.v ===== *)
(** * ShPrint: printing and parsing a command

    [print] writes a command in the shell's syntax, with parentheses where
    they are needed; the parser of user/sh.c reads it back. *)

From S2P Require Import Prelude Syscall Tools Sh ShSpec.

(** ** Printing *)

Definition redir := (list byte * Z * Z)%type.
Definition blank : byte := chr 32.

(** The operator for a mode and a descriptor. *)
Definition operator (mode fd : Z) : list byte :=
  if decide (fd = 0) then bytes_of "<"
  else if decide (mode = Z.lor O_WRONLY O_CREATE) then bytes_of ">>" else bytes_of ">".

Definition print_word (w : list byte) : list byte := w ++ [blank].
Definition print_redir (r : redir) : list byte := operator r.1.2 r.2 ++ print_word r.1.1.

(** How tightly a command binds: a list is a line, a background command an
    item of it, a pipeline part of that, and the others need no parentheses. *)
Definition parens (lvl own : nat) (t : list byte) : list byte :=
  if (own <? lvl)%nat then bytes_of "(" ++ t ++ bytes_of ")" else t.

Fixpoint print (lvl : nat) (c : command) : list byte :=
  match c with
  | CExec argv => concat (print_word <$> argv)
  | CRedir c file mode fd => print 3 c ++ print_redir (file, mode, fd)
  | CPipe l r => parens lvl 2 (print 3 l ++ bytes_of "|" ++ print 2 r)
  | CBack c => parens lvl 1 (print 1 c ++ bytes_of "&")
  | CList l r => parens lvl 0 (print 1 l ++ bytes_of ";" ++ print 0 r)
  end.

(** ** Commands that can be written *)

Definition wf_word (w : list byte) : Prop := w <> [] /\ Forall (fun c => is_word c = true /\ c <> chr 0) w.
Definition wf_op (mode fd : Z) : Prop :=
  (mode, fd) = (O_RDONLY, 0) \/ (mode, fd) = (Z.lor (Z.lor O_WRONLY O_CREATE) O_TRUNC, 1) \/
  (mode, fd) = (Z.lor O_WRONLY O_CREATE, 1).
Definition wf_redir (r : redir) : Prop := wf_word r.1.1 /\ wf_op r.1.2 r.2.

Fixpoint wf (c : command) : Prop :=
  match c with
  | CExec argv => Forall wf_word argv /\ (length argv < MAXARGS)%nat
  | CRedir c file mode fd => wf c /\ wf_redir (file, mode, fd)
  | CPipe l r | CList l r => wf l /\ wf r
  | CBack c => wf c
  end.

Definition wrap (c : command) (rs : list redir) : command :=
  foldl (fun c r => CRedir c r.1.1 r.1.2 r.2) c rs.

(** ** The text at a position *)

Definition first_is (toks l : list byte) : Prop := match l with [] => True | c :: _ => strchr toks c = true end.
Definition first_out (toks l : list byte) : Prop := match l with [] => True | c :: _ => strchr toks c = false end.
Definition first_not (x : byte) (l : list byte) : Prop := match l with [] => True | c :: _ => c <> x end.
Definition trimmed (l : list byte) : Prop := match l with [] => True | c :: _ => is_space c = false end.


(** The characters of a symbol and of a word are told apart. *)
Lemma symbol_not_space c : is_symbol c = true -> is_space c = false.
Proof.
  intros Hc. apply not_true_is_false. intros Hs. apply strchr_elem in Hc, Hs. vm_compute in Hc, Hs. set_solver.
Qed.

Lemma word_char c : is_word c = true -> is_space c = false /\ is_symbol c = false.
Proof. unfold is_word. intros [H1 H2]%andb_prop. by rewrite !negb_true_iff in *. Qed.

Lemma among_symbols toks c : forallb is_symbol toks = true -> strchr toks c = true -> is_symbol c = true.
Proof. intros Hf Hc. apply strchr_elem, list_elem_of_In in Hc. by eapply forallb_forall in Hf. Qed.

Lemma not_symbol toks c : is_symbol c = false -> forallb is_symbol toks = true -> strchr toks c = false.
Proof. intros Hc Hf. apply not_true_is_false. intros Ht. rewrite (among_symbols _ _ Hf Ht) in Hc. done. Qed.

Lemma bind_ok {A B} (m : P A) (f : A -> P B) s a s' : m s = POk a s' -> (m ≫= f) s = f a s'.
Proof. intros E. unfold mbind, P_bind. by rewrite E. Qed.

Lemma word_first w l : wf_word w -> trimmed (print_word w ++ l) /\ first_not gt (print_word w ++ l) /\
  forall toks, forallb is_symbol toks = true -> first_out toks (print_word w ++ l).
Proof.
  intros [Hne Hw]. destruct w as [|c w]; [done|]. inversion Hw as [|? ? [Hc _] _]; subst.
  apply word_char in Hc as [H1 H2]. split_and!; [done| |].
  - simpl. intros ->. by vm_compute in H2.
  - intros toks Ht. by apply not_symbol.
Qed.

Lemma operator_first mode fd : exists c l, operator mode fd = c :: l /\ is_space c = false /\ strchr (bytes_of "<>") c = true.
Proof. unfold operator. repeat case_decide; eexists _, _; split_and!; try reflexivity; done. Qed.

Lemma redirs_trimmed rs rest : trimmed rest -> trimmed (concat (print_redir <$> rs) ++ rest).
Proof.
  destruct rs as [|[[f mode] fd] rs]; [done|]. intros _. cbn [fmap list_fmap concat].
  change (print_redir (f, mode, fd)) with (operator mode fd ++ print_word f).
  destruct (operator_first mode fd) as (c & l & -> & Hc & _). done.
Qed.

Lemma first_trimmed toks l : first_is toks l -> forallb is_symbol toks = true -> trimmed l.
Proof. destruct l as [|c l]; [done|]. intros Hc Hs. by apply symbol_not_space, (among_symbols toks). Qed.

Lemma first_disjoint toks toks' l :
  first_is toks l -> forallb (fun c => negb (strchr toks' c)) toks = true -> first_out toks' l.
Proof.
  destruct l as [|c l]; [done|]. simpl. intros Hc Hf. apply strchr_elem, list_elem_of_In in Hc.
  eapply forallb_forall in Hf; [|exact Hc]. by apply negb_true_iff.
Qed.

Lemma first_out_eq toks l : first_out toks l -> match l with [] => false | c :: _ => strchr toks c end = false.
Proof. by destruct l. Qed.

Lemma first_mono toks toks' l :
  first_is toks l -> forallb (strchr toks') toks = true -> first_is toks' l.
Proof.
  destruct l as [|c l]; [done|]. simpl. intros Hc Hf. apply strchr_elem, list_elem_of_In in Hc.
  by eapply forallb_forall in Hf.
Qed.

Lemma print_trimmed c lvl l : wf c -> trimmed l -> trimmed (print lvl c ++ l).
Proof.
  revert lvl l. induction c as [argv|c IH f m fd|c1 IH1 c2 IH2|c1 IH1 c2 IH2|c IH]; intros lvl l Hwf Ht; cbn [print].
  - destruct argv as [|w argv]; [done|]. destruct Hwf as [Hw _]. inversion Hw; subst. cbn [fmap list_fmap concat].
    rewrite <-app_assoc. by destruct (word_first w (concat (print_word <$> argv) ++ l)).
  - rewrite <-app_assoc. destruct Hwf as [Hwf _]. apply IH; [done|]. pose proof (redirs_trimmed [(f, m, fd)] l Ht) as R.
    cbn [fmap list_fmap concat] in R. by rewrite app_nil_r in R.
  - destruct Hwf. unfold parens. case_match; rewrite <-!app_assoc; [done|]. by apply IH1.
  - destruct Hwf. unfold parens. case_match; rewrite <-!app_assoc; [done|]. by apply IH1.
  - unfold parens. case_match; rewrite <-!app_assoc; [done|]. by apply IH.
Qed.

Lemma redirs_first rs rest : first_out (bytes_of "(") rest -> first_out (bytes_of "(") (concat (print_redir <$> rs) ++ rest).
Proof.
  destruct rs as [|[[f mode] fd] rs]; [done|]. intros _. cbn [fmap list_fmap concat].
  change (print_redir (f, mode, fd)) with (operator mode fd ++ print_word f). unfold operator.
  by repeat case_decide.
Qed.

Lemma words_length argv : Forall wf_word argv -> (length argv <= length (concat (print_word <$> argv)))%nat.
Proof.
  induction 1 as [|w argv [Hw _] _ IH]; [done|]. cbn [fmap list_fmap concat length]. rewrite length_app.
  unfold print_word at 1. rewrite length_app. simpl. lia.
Qed.

Section line.
Context (line : list byte).
Hypothesis no_nul : chr 0 ∉ line.
Local Abbreviation es := (length line).
Local Abbreviation buf := (line ++ [chr 0]).

Definition sees (s : nat) (l : list byte) : Prop := (s <= es)%nat /\ drop s line = l.

Lemma sees_length s l : sees s l -> (es - s = length l)%nat.
Proof using. intros [Hs <-]. by rewrite length_drop. Qed.

Lemma sees_app s a b : sees s (a ++ b) -> sees (s + length a) b.
Proof using.
  intros Hs. pose proof (sees_length _ _ Hs) as Hl. rewrite length_app in Hl. destruct Hs as [Hs E].
  split; [lia|]. rewrite <-drop_drop, E. apply drop_app_length.
Qed.

Lemma sees_cons s c l : sees s (c :: l) -> char_at buf s = c /\ c <> chr 0 /\ (s < es)%nat /\ sees (S s) l.
Proof using no_nul.
  intros Hs. pose proof (sees_length _ _ Hs) as Hl. simpl in Hl. pose proof (sees_app s [c] l Hs) as Hs'.
  rewrite Nat.add_1_r in Hs'. destruct Hs as [Hs E].
  assert (Hc : line !! s = Some c) by (rewrite <-(Nat.add_0_r s), <-lookup_drop, E; done).
  unfold char_at. rewrite lookup_app_l by lia. rewrite Hc. split_and!; [done| |lia|done].
  intros ->. destruct no_nul. by eapply list_elem_of_lookup_2.
Qed.

Lemma sees_nil s : sees s [] -> s = es.
Proof using. intros Hs. pose proof (sees_length _ _ Hs). destruct Hs. simpl in *. lia. Qed.

Lemma scan_stops p s l : sees s l -> match l with [] => True | c :: _ => p c = false end -> scan buf es p s = s.
Proof using no_nul.
  intros Hs Hp. unfold scan. destruct (es - s)%nat as [|n] eqn:E; [done|]. simpl. destruct l as [|c l].
  - rewrite (sees_nil _ Hs), Nat.ltb_irrefl. done.
  - destruct (sees_cons _ _ _ Hs) as (-> & _). by rewrite Hp, andb_false_r.
Qed.

Lemma scan_loop_over p w : forall n s l, sees s (w ++ l) -> Forall (fun c => p c = true) w -> (length w + length l <= n)%nat ->
  match l with [] => True | c :: _ => p c = false end -> scan_loop buf es p n s = (s + length w)%nat.
Proof using no_nul.
  induction w as [|c w IH]; intros n s l Hs Hw Hn Hl; simpl in Hn |- *.
  - pose proof (scan_stops p s l Hs Hl) as E. unfold scan in E. rewrite Nat.add_0_r.
    destruct n as [|n]; [done|]. simpl. destruct l as [|c l].
    + by rewrite (sees_nil _ Hs), Nat.ltb_irrefl.
    + destruct (sees_cons _ _ _ Hs) as (-> & _). by rewrite Hl, andb_false_r.
  - destruct n as [|n]; [lia|]. simpl in Hs. destruct (sees_cons _ _ _ Hs) as (Hc & _ & Hlt & Hs'). simpl.
    apply Nat.ltb_lt in Hlt. rewrite Hlt, Hc. inversion Hw as [|? ? Hpc Hw']; subst. rewrite Hpc. simpl.
    rewrite (IH n (S s) l Hs' Hw'); [lia|lia|done].
Qed.

Lemma scan_over p w s l : sees s (w ++ l) -> Forall (fun c => p c = true) w ->
  match l with [] => True | c :: _ => p c = false end -> scan buf es p s = (s + length w)%nat.
Proof using no_nul.
  intros Hs Hw Hl. apply (scan_loop_over p w _ _ l); try done. rewrite (sees_length _ _ Hs), length_app. lia.
Qed.

Lemma peek_trimmed toks s l : sees s l -> trimmed l ->
  peek buf es toks s = POk (match l with [] => false | c :: _ => strchr toks c end) s.
Proof using no_nul.
  intros Hs Ht. unfold peek. rewrite (scan_stops _ _ _ Hs Ht). destruct l as [|c l].
  - rewrite (proj2 (char_at_nul line no_nul s)) by (by rewrite (sees_nil _ Hs)). done.
  - destruct (sees_cons _ _ _ Hs) as (-> & Hc & _). by rewrite bool_decide_eq_false_2 by done.
Qed.

(** ** Tokens *)

Lemma gettoken_symbol c s l : sees s (c :: l) -> trimmed l -> strchr (bytes_of "|();&<") c = true ->
  exists w, gettoken buf es s = POk (c, w) (S s).
Proof using no_nul.
  intros Hs Ht Hc. destruct (sees_cons _ _ _ Hs) as (Hch & Hn & _ & Hs'). unfold gettoken.
  rewrite (scan_stops is_space s (c :: l) Hs); [|by apply symbol_not_space, (among_symbols (bytes_of "|();&<"))].
  unfold token_at. rewrite Hch, decide_False, Hc by done. rewrite (scan_stops _ _ _ Hs' Ht). eauto.
Qed.

Lemma gettoken_operator mode fd s l : wf_op mode fd -> sees s (operator mode fd ++ l) -> trimmed l -> first_not gt l ->
  exists t w, gettoken buf es s = POk (t, w) (s + length (operator mode fd)) /\
    forall c f, redirect t c f = redircmd c f mode fd.
Proof using no_nul.
  intros Hop Hs Ht Hg. destruct Hop as [[= -> ->]|[[= -> ->]|[= -> ->]]].
  - destruct (gettoken_symbol (chr 60) s l Hs Ht eq_refl) as [w Hw]. exists (chr 60), w.
    by rewrite Nat.add_1_r.
  - change (operator _ 1) with [gt] in *. exists gt, (s, S s). split; [|done].
    destruct (sees_cons _ _ _ Hs) as (Hch & Hn & _ & Hs'). unfold gettoken.
    rewrite (scan_stops is_space s (gt :: l) Hs) by done. unfold token_at. rewrite Hch.
    rewrite decide_False, decide_True by done. cbn [strchr]. change (strchr _ gt) with false. cbv iota.
    rewrite decide_False.
    + rewrite (scan_stops _ _ _ Hs' Ht), Nat.add_1_r. done.
    + destruct l as [|c l].
      * rewrite (proj2 (char_at_nul line no_nul (S s))); [done|]. by rewrite (sees_nil _ Hs').
      * by destruct (sees_cons _ _ _ Hs') as (-> & _).
  - change (operator _ 1) with [gt; gt] in *. exists tok_append, (s, S (S s)). split; [|done].
    destruct (sees_cons _ _ _ Hs) as (Hch & Hn & _ & Hs'). destruct (sees_cons _ _ _ Hs') as (Hch' & _ & _ & Hs2).
    unfold gettoken. rewrite (scan_stops is_space s (gt :: gt :: l) Hs) by done. unfold token_at. rewrite Hch, Hch'.
    rewrite decide_False by done. change (strchr _ gt) with false. cbv iota. rewrite !decide_True by done.
    rewrite (scan_stops _ _ _ Hs2 Ht). by replace (s + length [gt; gt])%nat with (S (S s)) by (simpl; lia).
Qed.

Lemma gettoken_word w s l : wf_word w -> sees s (print_word w ++ l) -> trimmed l ->
  gettoken buf es s = POk (tok_word, (s, s + length w)%nat) (s + length (print_word w)).
Proof using no_nul.
  intros [Hne Hw] Hs Ht. destruct w as [|c w]; [done|]. unfold print_word in *. rewrite <-app_assoc in Hs.
  destruct (sees_cons _ _ _ Hs) as (Hch & Hn & _ & _). pose proof Hw as Hw0. inversion Hw as [|? ? [Hc _] _]; subst.
  apply word_char in Hc as [Hsp Hsym]. unfold gettoken. rewrite (scan_stops _ _ _ Hs) by done.
  unfold token_at. rewrite decide_False, (not_symbol (bytes_of "|();&<") _ Hsym eq_refl), decide_False; [|intros E; by rewrite E in Hsym|done].
  rewrite (scan_over is_word _ _ _ Hs); [|eapply Forall_impl; [exact Hw0|naive_solver]|done].
  apply sees_app in Hs. rewrite (scan_over is_space [blank] _ l Hs); [|by repeat constructor|done].
  f_equal. rewrite length_app. simpl. lia.
Qed.

(** ** Redirections and arguments *)

Definition gives (m : P cmd) (s : nat) (rest : list byte) (c : command) : Prop :=
  exists c' s', m s = POk c' s' /\ sees s' rest /\ strings (text buf) c' = c.

Lemma gives_bind {A} (m : P A) f s a s' rest c : m s = POk a s' -> gives (f a) s' rest c -> gives (m ≫= f) s rest c.
Proof using. intros E. unfold gives. by rewrite (bind_ok _ _ _ _ _ E). Qed.

Lemma gives_ret c s rest : sees s rest -> gives (mret c) s rest (strings (text buf) c).
Proof using. intros Hs. by exists c, s. Qed.

Lemma text_word s w l : sees s (w ++ l) -> text buf (s, s + length w)%nat = w.
Proof using.
  intros [Hs E]. unfold text. simpl. rewrite drop_app_le by done. rewrite E.
  replace (s + length w - s)%nat with (length w) by lia. by rewrite <-!app_assoc, take_app_length.
Qed.

Lemma redirs_gives rs : forall n c0 s rest, Forall wf_redir rs -> sees s (concat (print_redir <$> rs) ++ rest) ->
  trimmed rest -> first_out (bytes_of "<>") rest -> (length (concat (print_redir <$> rs)) < n)%nat ->
  gives (parseredirs_loop buf es n c0) s rest (wrap (strings (text buf) c0) rs).
Proof using no_nul.
  induction rs as [|[[f mode] fd] rs IH]; intros n c0 s rest Hrs Hs Ht Ho Hn; (destruct n as [|n]; [lia|]);
    cbn [parseredirs_loop].
  - eapply gives_bind; [exact (peek_trimmed (bytes_of "<>") _ _ Hs Ht)|]. simpl app in *.
    destruct rest as [|c rest]; [by apply gives_ret|]. unfold first_out in Ho. rewrite Ho. by apply gives_ret.
  - inversion Hrs as [|? ? [Hf Hop] Hrs']; subst. cbn [fmap list_fmap concat] in Hs, Hn.
    change (print_redir (f, mode, fd)) with (operator mode fd ++ print_word f) in *.
    rewrite <-!app_assoc in Hs. pose proof (word_first f (concat (print_redir <$> rs) ++ rest) Hf) as (W1 & W2 & W3).
    destruct (operator_first mode fd) as (o & ops & Eo & Ho1 & Ho2).
    eapply gives_bind; [exact (peek_trimmed (bytes_of "<>") _ _ Hs ltac:(by rewrite Eo))|].
    rewrite Eo at 1. cbn [app]. rewrite Ho2.
    destruct (gettoken_operator mode fd s _ Hop Hs W1 W2) as (t & w & Hg & Hr).
    eapply gives_bind; [exact Hg|]. pose proof (sees_app _ _ _ Hs) as Hs1.
    assert (Ht2 : trimmed (concat (print_redir <$> rs) ++ rest)) by (by apply redirs_trimmed).
    eapply gives_bind; [exact (gettoken_word f _ _ Hf Hs1 Ht2)|]. cbn [fst snd]. rewrite decide_True by done.
    rewrite Hr. apply sees_app in Hs1 as Hs2. unfold print_word in Hs1. rewrite <-app_assoc in Hs1.
    set (a := (s + length (operator mode fd))%nat) in *. rewrite !length_app in Hn.
    change (wrap ?c ((f, mode, fd) :: rs)) with (wrap (CRedir c f mode fd) rs).
    replace (CRedir _ f mode fd) with (strings (text buf) (redircmd c0 (a, a + length f)%nat mode fd))
      by (cbn [strings]; by rewrite (text_word _ _ _ Hs1)).
    destruct (operator_first mode fd) as (? & ? & Eo' & _). rewrite Eo' in Hn. simpl in Hn.
    apply IH; (done || lia).
Qed.

Lemma gettoken_nil s : sees s [] -> exists w, gettoken buf es s = POk (chr 0, w) s.
Proof using no_nul.
  intros Hs. unfold gettoken. rewrite (scan_stops _ _ _ Hs I). unfold token_at.
  rewrite (proj2 (char_at_nul line no_nul s)) by (by rewrite (sees_nil _ Hs)).
  rewrite decide_True by done. rewrite (scan_stops _ _ _ Hs I). eauto.
Qed.

Definition ends_args : list byte := bytes_of "|)&;".

Lemma args_stop n argc c s rest : sees s rest -> first_is ends_args rest ->
  gives (args_loop buf es (S n) argc c) s rest (strings (text buf) c).
Proof using no_nul.
  intros Hs Hf. cbn [args_loop]. eapply gives_bind; [exact (peek_trimmed ends_args _ _ Hs (first_trimmed _ _ Hf eq_refl))|].
  destruct rest as [|x rest].
  - destruct (gettoken_nil s Hs) as [w Hw]. eapply gives_bind; [exact Hw|]. cbn [fst]. rewrite decide_True by done.
    by apply gives_ret.
  - unfold first_is in Hf. rewrite Hf. by apply gives_ret.
Qed.

Lemma redirs_none n c s rest : sees s rest -> trimmed rest -> first_out (bytes_of "<>") rest ->
  parseredirs_loop buf es (S n) c s = POk c s.
Proof using no_nul.
  intros Hs Ht Ho. cbn [parseredirs_loop]. rewrite (bind_ok _ _ _ _ _ (peek_trimmed (bytes_of "<>") _ _ Hs Ht)).
  destruct rest; [done|]. unfold first_out in Ho. by rewrite Ho.
Qed.

Lemma words_first argv rs rest : Forall wf_word argv -> argv <> [] ->
  let l := concat (print_word <$> argv) ++ rs ++ rest in
  trimmed l /\ forall toks, forallb is_symbol toks = true -> first_out toks l.
Proof using.
  intros Hw Hne. destruct argv as [|w argv]; [done|]. inversion Hw; subst. cbn [fmap list_fmap concat].
  rewrite <-app_assoc. edestruct (word_first w) as (? & _ & ?); eauto.
Qed.

Lemma args_gives argv : forall rs n ws s rest,
  Forall wf_word argv -> Forall wf_redir rs -> (argv = [] -> rs = []) -> (length ws + length argv < MAXARGS)%nat ->
  sees s (concat (print_word <$> argv) ++ concat (print_redir <$> rs) ++ rest) -> first_is ends_args rest ->
  (length argv < n)%nat ->
  gives (args_loop buf es n (length ws) (execcmd ws)) s rest (wrap (CExec ((text buf <$> ws) ++ argv)) rs).
Proof using no_nul.
  induction argv as [|w argv IH]; intros rs n ws s rest Hw Hr H0 Hm Hs Hf Hn; (destruct n as [|n]; [lia|]).
  { rewrite (H0 eq_refl) in *. simpl in Hs. rewrite app_nil_r. by apply (args_stop _ _ (execcmd ws)). }
  inversion Hw as [|? ? Hw1 Hw2]; subst. destruct (words_first (w :: argv) (concat (print_redir <$> rs)) rest Hw ltac:(done)) as [Ht Ho].
  cbn [args_loop]. eapply gives_bind; [exact (peek_trimmed ends_args _ _ Hs Ht)|].
  rewrite (first_out_eq _ _ (Ho ends_args eq_refl)).
  cbn [fmap list_fmap concat] in Hs. rewrite <-app_assoc in Hs.
  assert (Htl : trimmed (concat (print_word <$> argv) ++ concat (print_redir <$> rs) ++ rest)).
  { destruct argv; [by apply redirs_trimmed, (first_trimmed ends_args)|]. exact (proj1 (words_first _ _ _ Hw2 ltac:(done))). }
  eapply gives_bind; [exact (gettoken_word w _ _ Hw1 Hs Htl)|]. cbn [fst snd].
  rewrite decide_False by apply word_not_nul. rewrite bool_decide_eq_true_2 by done. cbn [negb].
  simpl length in Hm, Hn. destruct (Nat.leb_spec MAXARGS (S (length ws))) as [|_]; [lia|]. cbn [add_arg].
  apply sees_app in Hs as Hs2. unfold print_word in Hs at 1. rewrite <-app_assoc in Hs.
  set (ws' := ws ++ [(s, (s + length w)%nat)]). 
  assert (Ews : CExec ((text buf <$> ws) ++ w :: argv) = CExec ((text buf <$> ws') ++ argv)).
  { unfold ws'. rewrite fmap_app. cbn [fmap list_fmap]. by rewrite (text_word _ _ _ Hs), <-app_assoc. }
  rewrite Ews. assert (El : S (length ws) = length ws') by (unfold ws'; rewrite length_app; simpl; lia). rewrite El.
  destruct (decide (argv = [])) as [->|Hne].
  - destruct (redirs_gives rs (S es) (execcmd ws') _ rest Hr Hs2) as (c1 & s1 & Hp & Hs1 & Hc1);
      [by apply (first_trimmed ends_args)|by apply (first_disjoint ends_args)| |].
    { apply sees_length in Hs2. rewrite !length_app in Hs2. lia. }
    eapply gives_bind; [exact Hp|]. rewrite app_nil_r. cbn [strings] in Hc1. rewrite <-Hc1.
    destruct n as [|n]; [lia|]. by apply args_stop.
  - destruct (words_first argv (concat (print_redir <$> rs)) rest Hw2 Hne) as [_ Ho2].
    eapply gives_bind; [exact (redirs_none _ _ _ _ Hs2 Htl (Ho2 (bytes_of "<>") eq_refl))|].
    apply IH; (done || lia).
Qed.

(** ** Commands, from the tightest syntax to the loosest *)

Definition ends_pipe : list byte := bytes_of ")&;".

Definition at3 (c : command) : Prop := forall rs s rest n,
  Forall wf_redir rs -> sees s (print 3 c ++ concat (print_redir <$> rs) ++ rest) -> first_is ends_args rest ->
  (4 * (es - s) + 2 <= n)%nat -> gives (parseexec buf es n) s rest (wrap c rs).
Definition at2 (c : command) : Prop := forall s rest n,
  sees s (print 2 c ++ rest) -> first_is ends_pipe rest -> (4 * (es - s) + 3 <= n)%nat ->
  gives (parsepipe buf es n) s rest c.
(** Level 1 is read by parsepipe and some turns of the loop of parseline. *)
Definition at1 (c : command) : Prop := forall s rest n,
  sees s (print 1 c ++ rest) -> first_is ends_pipe rest -> (4 * (es - s) + 3 <= n)%nat ->
  exists c0 s0 c' s', parsepipe buf es n s = POk c0 s0 /\ (s0 <= es)%nat /\ sees s' rest /\ strings (text buf) c' = c /\
    forall k, (es - s0 < k)%nat -> exists k', (es - s' < k')%nat /\ backs_loop buf es k c0 s0 = backs_loop buf es k' c' s'.
Definition at0 (c : command) : Prop := forall s rest n,
  sees s (print 0 c ++ rest) -> first_is (bytes_of ")") rest -> (4 * (es - s) + 4 <= n)%nat ->
  gives (parseline buf es n) s rest c.

Lemma lift2 c : at3 c -> print 2 c = print 3 c -> at2 c.
Proof using no_nul.
  intros H3 E s rest n Hs Hf Hn. destruct n as [|n]; [lia|]. rewrite E in Hs. cbn [parsepipe].
  destruct (H3 [] s rest n) as (c' & s' & Hp & Hs' & Hc); [constructor|done|by apply (first_mono ends_pipe)|lia|].
  eapply gives_bind; [exact Hp|].
  eapply gives_bind; [exact (peek_trimmed (bytes_of "|") _ _ Hs' (first_trimmed _ _ Hf eq_refl))|].
  rewrite (first_out_eq _ _ (first_disjoint _ (bytes_of "|") _ Hf eq_refl)). change (wrap c []) with c in Hc. rewrite <-Hc. by apply gives_ret.
Qed.

Lemma lift1 c : at2 c -> print 1 c = print 2 c -> at1 c.
Proof using.
  intros H2 E s rest n Hs Hf Hn. rewrite E in Hs. destruct (H2 s rest n Hs Hf Hn) as (c' & s' & Hp & Hs' & Hc).
  exists c', s', c', s'. split_and!; [done|by destruct Hs'|done|done|]. eauto.
Qed.

(** The loop of parseline stops. *)
Lemma backs_stop k c s rest : sees s rest -> trimmed rest -> first_out (bytes_of "&") rest -> (es - s < k)%nat ->
  backs_loop buf es k c s = POk c s.
Proof using no_nul.
  intros Hs Ht Ho Hk. destruct k as [|k]; [lia|]. cbn [backs_loop].
  rewrite (bind_ok _ _ _ _ _ (peek_trimmed (bytes_of "&") _ _ Hs Ht)). by rewrite (first_out_eq _ _ Ho).
Qed.

Lemma line_item c s rest n (f : cmd -> P cmd) r :
  at1 c -> sees s (print 1 c ++ rest) -> first_is (bytes_of ");") rest -> (4 * (es - s) + 3 <= n)%nat ->
  (forall c' s', sees s' rest -> strings (text buf) c' = c -> gives (f c') s' r.1 r.2) ->
  gives (c ← parsepipe buf es n; c ← backs_loop buf es (S es) c; f c) s r.1 r.2.
Proof using no_nul.
  intros H1 Hs Hf Hn Hk. destruct (H1 s rest n Hs) as (c0 & s0 & c' & s' & Hp & Hs0 & Hs' & Hc & Hb);
    [by apply (first_mono (bytes_of ");"))|done|].
  eapply gives_bind; [exact Hp|]. destruct (Hb (S es) ltac:(lia)) as (k' & Hk' & Eb).
  eapply gives_bind; [|by apply (Hk c' s')]. rewrite Eb.
  eapply backs_stop; [exact Hs'|by apply (first_trimmed (bytes_of ");"))|by apply (first_disjoint (bytes_of ");"))|done].
Qed.

Lemma lift0 c : at1 c -> print 0 c = print 1 c -> at0 c.
Proof using no_nul.
  intros H1 E s rest n Hs Hf Hn. destruct n as [|n]; [lia|]. rewrite E in Hs. cbn [parseline].
  apply (line_item c s rest n _ (rest, c)); [done|done|by apply (first_mono (bytes_of ")"))|lia|].
  intros c' s' Hs' Hc. cbn [fst snd].
  eapply gives_bind; [exact (peek_trimmed (bytes_of ";") _ _ Hs' (first_trimmed _ _ Hf eq_refl))|].
  rewrite (first_out_eq _ _ (first_disjoint _ (bytes_of ";") _ Hf eq_refl)). rewrite <-Hc. by apply gives_ret.
Qed.

(** A symbol that is there is seen and taken. *)
Lemma take_symbol x {A} (f : P A) (g : P A) s l toks : sees s (x :: l) -> trimmed l ->
  strchr (bytes_of "|();&<") x = true -> strchr toks x = true ->
  (more ← peek buf es toks; if (more : bool) then gettoken buf es;; f else g) s = f (S s) /\ sees (S s) l.
Proof using no_nul.
  intros Hs Ht Hx Htk. assert (Hx' : trimmed (x :: l)).
  { by apply symbol_not_space, (among_symbols (bytes_of "|();&<")). }
  split; [|by apply (sees_app s [x]) in Hs; rewrite Nat.add_1_r in Hs].
  rewrite (bind_ok _ _ _ _ _ (peek_trimmed toks _ _ Hs Hx')), Htk.
  destruct (gettoken_symbol x s l Hs Ht Hx) as [w Hw]. by rewrite (bind_ok _ _ _ _ _ Hw).
Qed.

Lemma gives_symbol x f g s l toks rest c : sees s (x :: l) -> trimmed l ->
  strchr (bytes_of "|();&<") x = true -> strchr toks x = true ->
  (sees (S s) l -> gives f (S s) rest c) ->
  gives (more ← peek buf es toks; if (more : bool) then gettoken buf es;; f else g) s rest c.
Proof using no_nul.
  intros Hs Ht Hx Htk Hf. destruct (take_symbol x f g s l toks Hs Ht Hx Htk) as [E Hs'].
  unfold gives. rewrite E. by apply Hf.
Qed.

(** The same where the symbol is required. *)
Lemma gives_required x f msg s l toks rest c : sees s (x :: l) -> trimmed l ->
  strchr (bytes_of "|();&<") x = true -> strchr toks x = true ->
  (sees (S s) l -> gives f (S s) rest c) ->
  gives (b ← peek buf es toks; if negb b then ppanic msg else gettoken buf es;; f) s rest c.
Proof using no_nul.
  intros Hs Ht Hx Htk Hf. destruct (gives_symbol x f (ppanic msg) s l toks rest c Hs Ht Hx Htk Hf) as (c' & s' & E & R).
  exists c', s'. split; [|done]. revert E. unfold mbind, P_bind. by destruct (peek buf es toks s) as [[]| |].
Qed.

Lemma paren3 c : wf c -> at0 c -> print 3 c = bytes_of "(" ++ print 0 c ++ bytes_of ")" -> at3 c.
Proof using no_nul.
  intros Hwf H0 E rs s rest n Hrs Hs Hf Hn. destruct n as [|[|n]]; [lia..|]. rewrite E in Hs.
  rewrite <-!app_assoc in Hs. change (bytes_of "(" ++ ?l) with (chr 40 :: l) in Hs.
  change (bytes_of ")" ++ ?l) with (chr 41 :: l) in Hs.
  set (l := concat (print_redir <$> rs) ++ rest) in *.
  assert (Htl : trimmed l) by (by apply redirs_trimmed, (first_trimmed ends_args)).
  assert (Ht : trimmed (print 0 c ++ chr 41 :: l)) by (by apply print_trimmed).
  cbn [parseexec]. eapply gives_bind; [exact (peek_trimmed (bytes_of "(") _ _ Hs eq_refl)|].
  change (strchr (bytes_of "(") (chr 40)) with true. cbv iota. cbn [parseblock].
  apply (gives_required (chr 40) _ _ _ _ _ _ _ Hs Ht); [done..|]. intros Hs1.
  pose proof (sees_length _ _ Hs) as L. pose proof (sees_length _ _ Hs1) as L1. cbn [length] in L.
  destruct (H0 (S s) (chr 41 :: l) n Hs1 eq_refl ltac:(lia)) as (c' & s2 & Hp & Hs2 & Hc).
  eapply gives_bind; [exact Hp|]. apply (gives_required (chr 41) _ _ _ _ _ _ _ Hs2 Htl); [done..|]. intros Hs3.
  rewrite <-Hc. apply redirs_gives; [done|done|by apply (first_trimmed ends_args)|by apply (first_disjoint ends_args)|].
  apply sees_length in Hs3. unfold l in Hs3. rewrite length_app in Hs3. lia.
Qed.

Lemma exec3 argv : wf (CExec argv) -> at3 (CExec argv).
Proof using no_nul.
  intros [Hw Hm] rs s rest n Hrs Hs Hf Hn. destruct n as [|n]; [lia|]. cbn [parseexec print] in *.
  assert (Hte : trimmed rest) by (by apply (first_trimmed ends_args)).
  destruct (decide (argv = [])) as [->|Hne].
  - simpl app in Hs.
    eapply gives_bind; [exact (peek_trimmed (bytes_of "(") _ _ Hs ltac:(by apply redirs_trimmed))|].
    rewrite (first_out_eq _ _ (redirs_first rs rest ltac:(by apply (first_disjoint ends_args)))).
    destruct (redirs_gives rs (S es) (execcmd []) s rest Hrs Hs Hte) as (c1 & s1 & Hp & Hs1 & Hc1);
      [by apply (first_disjoint ends_args)| |].
    { apply sees_length in Hs. rewrite length_app in Hs. lia. }
    eapply gives_bind; [exact Hp|]. cbn [strings fmap list_fmap] in Hc1. rewrite <-Hc1. by apply args_stop.
  - destruct (words_first argv (concat (print_redir <$> rs)) rest Hw Hne) as [Ht Ho].
    eapply gives_bind; [exact (peek_trimmed (bytes_of "(") _ _ Hs Ht)|].
    rewrite (first_out_eq _ _ (Ho (bytes_of "(") eq_refl)).
    eapply gives_bind; [exact (redirs_none _ (execcmd []) _ _ Hs Ht (Ho (bytes_of "<>") eq_refl))|].
    apply (args_gives argv rs (S es) []); [done|done|done|done|done|done|].
    apply sees_length in Hs. pose proof (words_length argv Hw). rewrite length_app in Hs. lia.
Qed.

Lemma pipe2 l r : wf r -> at3 l -> at2 r -> at2 (CPipe l r).
Proof using no_nul.
  intros Hwf H3 H2 s rest n Hs Hf Hn. destruct n as [|n]; [lia|].
  change (print 2 (CPipe l r)) with (print 3 l ++ bytes_of "|" ++ print 2 r) in Hs.
  rewrite <-!app_assoc in Hs. change (bytes_of "|" ++ ?x) with (chr 124 :: x) in Hs.
  destruct (H3 [] s (chr 124 :: print 2 r ++ rest) n) as (c' & s' & Hp & Hs' & Hc); [constructor|done|done|lia|].
  cbn [parsepipe]. eapply gives_bind; [exact Hp|].
  apply (gives_symbol (chr 124) _ _ _ _ _ _ _ Hs'); [by apply print_trimmed, (first_trimmed ends_pipe)|done|done|].
  intros Hs2. pose proof (sees_length _ _ Hs) as L. pose proof (sees_length _ _ Hs2) as L2.
  rewrite length_app in L. cbn [length] in L.
  destruct (H2 _ _ n Hs2 Hf ltac:(lia)) as (r' & s3 & Hp3 & Hs3 & Hr).
  eapply gives_bind; [exact Hp3|]. change (wrap l []) with l in Hc. rewrite <-Hc, <-Hr. by apply gives_ret.
Qed.

Lemma back1 c : at1 c -> at1 (CBack c).
Proof using no_nul.
  intros H1 s rest n Hs Hf Hn. change (print 1 (CBack c)) with (print 1 c ++ bytes_of "&") in Hs.
  rewrite <-!app_assoc in Hs. change (bytes_of "&" ++ ?x) with (chr 38 :: x) in Hs.
  destruct (H1 s (chr 38 :: rest) n Hs eq_refl Hn) as (c0 & s0 & c' & s' & Hp & Hs0 & Hs' & Hc & Hb).
  assert (Ht : trimmed rest) by (by apply (first_trimmed ends_pipe)).
  assert (Hs2 : sees (S s') rest) by (by apply (sees_app s' [chr 38]) in Hs'; rewrite Nat.add_1_r in Hs').
  exists c0, s0, (backcmd c'), (S s'). split_and!; [done|done|done|by rewrite <-Hc|].
  intros k Hk. destruct (Hb k Hk) as (k' & Hk' & E). destruct k' as [|k']; [lia|].
  exists k'. pose proof (sees_length _ _ Hs') as L. pose proof (sees_length _ _ Hs2). cbn [length] in L. split; [lia|].
  rewrite E. cbn [backs_loop]. by apply (take_symbol (chr 38) _ _ s' rest).
Qed.

Lemma list0 l r : wf r -> at1 l -> at0 r -> at0 (CList l r).
Proof using no_nul.
  intros Hwf H1 H0 s rest n Hs Hf Hn. destruct n as [|n]; [lia|].
  change (print 0 (CList l r)) with (print 1 l ++ bytes_of ";" ++ print 0 r) in Hs.
  rewrite <-!app_assoc in Hs. change (bytes_of ";" ++ ?x) with (chr 59 :: x) in Hs. cbn [parseline].
  apply (line_item l s _ n _ (rest, CList l r) H1 Hs); [done|lia|]. intros c' s' Hs' Hc. cbn [fst snd].
  apply (gives_symbol (chr 59) _ _ _ _ _ _ _ Hs'); [by apply print_trimmed, (first_trimmed (bytes_of ")"))|done|done|].
  intros Hs2. pose proof (sees_length _ _ Hs) as L. pose proof (sees_length _ _ Hs2) as L2.
  rewrite length_app in L. cbn [length] in L.
  destruct (H0 _ _ n Hs2 Hf ltac:(lia)) as (r' & s3 & Hp3 & Hs3 & Hr).
  eapply gives_bind; [exact Hp3|]. rewrite <-Hc, <-Hr. by apply gives_ret.
Qed.

Lemma redir3 c file mode fd : wf_redir (file, mode, fd) -> at3 c -> at3 (CRedir c file mode fd).
Proof using.
  intros Hr H3 rs s rest n Hrs Hs Hf Hn. apply (H3 ((file, mode, fd) :: rs)); [by constructor| |done|done].
  cbn [print fmap list_fmap concat] in *. by rewrite <-!app_assoc in *.
Qed.

Lemma print_parses c : wf c -> at0 c /\ at1 c /\ at2 c /\ at3 c.
Proof using no_nul.
  induction c as [argv|c IH f m fd|l IHl r IHr|l IHl r IHr|c IH]; intros Hwf.
  - pose proof (exec3 argv Hwf) as H3. pose proof (lift2 _ H3 eq_refl) as H2. pose proof (lift1 _ H2 eq_refl) as H1.
    split_and!; [by apply lift0|done..].
  - destruct Hwf as [Hc Hr]. destruct (IH Hc) as (_ & _ & _ & Hc3). pose proof (redir3 _ _ _ _ Hr Hc3) as H3.
    pose proof (lift2 _ H3 eq_refl) as H2. pose proof (lift1 _ H2 eq_refl) as H1. split_and!; [by apply lift0|done..].
  - pose proof Hwf as [Hl Hr]. destruct (IHl Hl) as (_ & _ & _ & L3). destruct (IHr Hr) as (_ & _ & R2 & _).
    pose proof (pipe2 l r Hr L3 R2) as H2. pose proof (lift1 _ H2 eq_refl) as H1. pose proof (lift0 _ H1 eq_refl) as H0.
    split_and!; [done..|by apply paren3].
  - pose proof Hwf as [Hl Hr]. destruct (IHl Hl) as (_ & L1 & _). destruct (IHr Hr) as (R0 & _).
    pose proof (list0 l r Hr L1 R0) as H0. pose proof (paren3 _ Hwf H0 eq_refl) as H3. pose proof (lift2 _ H3 eq_refl) as H2.
    split_and!; [done|by apply lift1|done..].
  - destruct (IH Hwf) as (_ & C1 & _). pose proof (back1 c C1) as H1. pose proof (lift0 _ H1 eq_refl) as H0.
    pose proof (paren3 (CBack c) Hwf H0 eq_refl) as H3. split_and!; [done|done|by apply lift2|done].
Qed.
End line.

Lemma word_no_nul w : wf_word w -> chr 0 ∉ print_word w.
Proof.
  intros [_ Hw] [Hin|Hin%list_elem_of_singleton]%elem_of_app; [|done].
  rewrite Forall_forall in Hw. by destruct (Hw _ Hin).
Qed.

Lemma print_no_nul c : wf c -> forall lvl, chr 0 ∉ print lvl c.
Proof.
  assert (Hp : forall lvl own t, chr 0 ∉ t -> chr 0 ∉ parens lvl own t).
  { intros lvl own t Ht. unfold parens. case_match; [|done]. vm_compute bytes_of. rewrite !elem_of_app, !list_elem_of_singleton.
    intros [|[]]; done. }
  induction c as [argv|c IH f m fd|l IHl r IHr|l IHl r IHr|c IH]; intros Hwf lvl; cbn [print]; try apply Hp;
    rewrite ?elem_of_app.
  - destruct Hwf as [Hw _]. induction Hw as [|w argv Hw _ IH]; cbn [fmap list_fmap concat]; [apply not_elem_of_nil|].
    rewrite elem_of_app. intros [Hin|Hin]; [by apply word_no_nul in Hin|done].
  - destruct Hwf as [Hc [Hf _]]. unfold print_redir. rewrite elem_of_app. intros [Hin|[Hin|Hin]].
    + by apply IH in Hin.
    + revert Hin. unfold operator. repeat case_decide; vm_compute; set_solver.
    + by apply word_no_nul in Hin.
  - destruct Hwf as [Hl Hr]. intros [Hin|[Hin|Hin]]; [by apply IHl in Hin| |by apply IHr in Hin].
    revert Hin. vm_compute. set_solver.
  - destruct Hwf as [Hl Hr]. intros [Hin|[Hin|Hin]]; [by apply IHl in Hin| |by apply IHr in Hin].
    revert Hin. vm_compute. set_solver.
  - intros [Hin|Hin]; [by apply IH in Hin|]. revert Hin. vm_compute. set_solver.
Qed.

(** C32: a command written in the shell's syntax is parsed back to the same
    command: every word, redirection, pipe, list, background command and
    parenthesised group, however they are nested, with the strings that [runcmd]
    finds in the line after [nulterminate] has written NULs over it. *)
Theorem parsecmd_print c : wf c ->
  exists p buf s, parsecmd (print 0 c) = POk (p, buf) s /\ view buf p = c.
Proof.
  intros Hwf. pose proof (print_no_nul c Hwf 0) as Hn. set (line := print 0 c) in *.
  destruct (print_parses line Hn c Hwf) as (H0 & _).
  destruct (H0 0%nat [] (parse_fuel (length line))) as (c' & s' & Hp & Hs & Hc);
    [split; [lia|by rewrite app_nil_r]|done|unfold parse_fuel; lia|].
  pose proof (parser_parses line Hn (parse_fuel (length line))) as (Hok & _).
  specialize (Hok 0%nat ltac:(lia) ltac:(unfold parse_fuel; lia)). unfold parses in Hok. rewrite Hp in Hok.
  destruct Hok as [Hok _]. unfold parsecmd. fold line. rewrite Hp, (peek_trimmed line Hn [] s' [] Hs I).
  rewrite decide_True by (by apply sees_nil). eexists c', _, s'. split; [done|]. by rewrite view_text.
Qed.

(** [cat < in | (grep x > out; ls &)] *)
Definition a_command : command :=
  CPipe (CRedir (CExec [bytes_of "cat"]) (bytes_of "in") O_RDONLY 0)
    (CList (CRedir (CExec [bytes_of "grep"; bytes_of "x"]) (bytes_of "out") (Z.lor (Z.lor O_WRONLY O_CREATE) O_TRUNC) 1)
       (CBack (CExec [bytes_of "ls"]))).

Lemma parsecmd_print_witness :
  exists p buf s, parsecmd (print 0 a_command) = POk (p, buf) s /\ view buf p = a_command.
Proof.
  apply parsecmd_print. unfold a_command. cbn [wf]. unfold wf_redir, wf_op, wf_word, MAXARGS. vm_compute bytes_of. simpl length.
  split_and!; try lia; try (by repeat constructor); auto.
Defined.
