(* ===== verification/User.v ===== *)
(** * User: user programs as sequences of system calls

    A program is an interaction tree over the system calls of user/user.h.
    Loops are [ITree.iter] and recursive functions [rec], so a program that runs
    for ever is a definition like any other.  Here are the library functions of
    user/ulib.c that make system calls and the commands cat, wc, grep, kill, ln,
    mkdir, rm, sleep, zombie, dorphan, forphan, genfiles, init, ls and
    sixfive; find and the shell have files of their own. *)

From ITree Require Import Core.ITreeDefinition Interp.Recursion Indexed.Sum Core.Subevent.
From S2P Require Import Prelude Layout Fs File Syscall Printf Grep Tools.

(** struct stat *)
Record stat := { st_dev : Z; st_ino : Z; st_type : Z; st_nlink : Z; st_size : Z }.

(** The system calls, with what they return and what they store in the memory
    of the program.  [Undefined] is no call: it is where the C program leaves
    its memory. *)
Inductive sysE : Type -> Type :=
| Fork : sysE Z
| Exit (n : Z) : sysE Empty_set
| Wait : sysE (Z * Z)
| Pipe : sysE (Z * (Z * Z))
| Write (fd : Z) (b : list byte) : sysE Z
| Read (fd n : Z) : sysE (Z * list byte)
| Close (fd : Z) : sysE Z
| Kill (pid : Z) : sysE Z
| Exec (path : list byte) (argv : list (list byte)) : sysE Z
| Open (path : list byte) (mode : Z) : sysE Z
| Mknod (path : list byte) (major minor : Z) : sysE Z
| Unlink (path : list byte) : sysE Z
| Fstat (fd : Z) : sysE (Z * stat)
| Link (old new : list byte) : sysE Z
| Mkdir (path : list byte) : sysE Z
| Chdir (path : list byte) : sysE Z
| Dup (fd : Z) : sysE Z
| Pause (n : Z) : sysE Z
| Undefined : sysE Empty_set.

Abbreviation U := (itree sysE).

#[global] Instance itree_ret {E} : MRet (itree E) := fun A a => Ret a.
#[global] Instance itree_bind {E} : MBind (itree E) := fun A B f m => ITree.bind m f.

(** Programs over any events that include the system calls, so that a
    recursive function can call them in its body. *)
Section calls.
Context {E : Type -> Type} `{sysE -< E}.
Local Abbreviation P := (itree E).

Definition call {R} (e : sysE R) : P R := ITree.trigger (subevent R e).
Definition exit {A} (n : Z) : P A := v ← call (Exit n); match v : Empty_set with end.
Definition undefined {A} : P A := v ← call Undefined; match v : Empty_set with end.

(** A loop whose body says whether to go on ([None]). *)
Definition loop {A} (body : P (option A)) : P A :=
  ITree.iter (fun _ : unit => o ← body; mret (match o with None => inl tt | Some a => inr a end)) tt.
(** The same with a variable. *)
Definition loop_with {I A} (body : I -> P (I + A)) (i : I) : P A := ITree.iter body i.

(** fprintf of user/printf.c writes one character at a time. *)
Fixpoint putcs (fd : Z) (b : list byte) : P unit :=
  match b with
  | [] => mret tt
  | c :: b => call (Write fd [c]);; putcs fd b
  end.
Definition fprintf (fd : Z) (fmt : string) (args : list arg) : P unit :=
  match vprintf (bytes_of fmt ++ [chr 10]) args with
  | Some b => putcs fd b
  | None => undefined
  end.
Definition printf (fmt : string) (args : list arg) : P unit := fprintf 1 fmt args.

Definition str (s : list byte) : arg := AStr (Some s).

(** ** ulib.c *)

(** start: [main] need not call exit. *)
Definition ustart (main : P unit) : P unit := main;; exit 0.

(** stat *)
Definition ustat (n : list byte) : P (Z * option stat) :=
  fd ← call (Open n O_RDONLY);
  if fd <? 0 then mret (-1, None)
  else
    r ← call (Fstat fd);
    call (Close fd);;
    mret (r.1, if r.1 <? 0 then None else Some r.2).

(** [gets]: the characters stored before the final NUL, [max - 1] at most. *)
Fixpoint gets_loop (n : nat) (got : list byte) : P (list byte) :=
  match n with
  | O => mret got
  | S n =>
      r ← call (Read 0 1);
      if r.1 <? 1 then mret got
      else
        let c := default (chr 0) (head r.2) in
        if bool_decide (c = chr 10) || bool_decide (c = chr 13) then mret (got ++ [c])
        else gets_loop n (got ++ [c])
  end.
Definition gets (max : nat) : P (list byte) := gets_loop (max - 1) [].

(** ** cat.c *)

Definition cat (fd : Z) : P unit :=
  n ← loop (
    r ← call (Read fd 512);
    if 0 <? r.1 then
      w ← call (Write 1 r.2);
      if negb (w =? r.1) then
        fprintf 2 "cat: write error" [];;
        exit 1
      else mret None
    else mret (Some r.1));
  if n <? 0 then
    fprintf 2 "cat: read error" [];;
    exit 1
  else mret tt.

Fixpoint cat_files (files : list (list byte)) : P unit :=
  match files with
  | [] => exit 0
  | f :: files =>
      fd ← call (Open f O_RDONLY);
      if fd <? 0 then
        fprintf 2 "cat: cannot open %s" [str f];;
        exit 1
      else
        cat fd;;
        call (Close fd);;
        cat_files files
  end.

Definition cat_main (argv : list (list byte)) : P unit :=
  if (length argv <=? 1)%nat then
    cat 0;;
    exit 0
  else cat_files (tail argv).

(** ** wc.c *)

Definition wc_fd (fd : Z) (name : list byte) : P unit :=
  s ← loop_with (fun s =>
    r ← call (Read fd 512);
    mret (if 0 <? r.1 then inl (foldl wc_byte s r.2) else inr (r.1, s)))
    {| wc_l := 0; wc_w := 0; wc_c := 0; wc_inword := false |};
  if s.1 <? 0 then
    printf "wc: read error" [];;
    exit 1
  else printf "%d %d %d %s" [ANum (wc_l s.2); ANum (wc_w s.2); ANum (wc_c s.2); str name].

Fixpoint wc_files (files : list (list byte)) : P unit :=
  match files with
  | [] => exit 0
  | f :: files =>
      fd ← call (Open f O_RDONLY);
      if fd <? 0 then
        printf "wc: cannot open %s" [str f];;
        exit 1
      else
        wc_fd fd f;;
        call (Close fd);;
        wc_files files
  end.

Definition wc_main (argv : list (list byte)) : P unit :=
  if (length argv <=? 1)%nat then
    wc_fd 0 [];;
    exit 0
  else wc_files (tail argv).

(** ** grep.c *)

(** The lines of the buffer, each written as it is found. *)
Fixpoint grep_write (fuel : nat) (pattern p : list byte) : P (list byte) :=
  match fuel with
  | O => mret p
  | S fuel =>
      match split_line p with
      | None => mret p
      | Some (line, rest) =>
          (if match_ pattern line then call (Write 1 (line ++ [newline])) else mret 0);;
          grep_write fuel pattern rest
      end
  end.

Definition grep_fd (pattern : list byte) (fd : Z) : P unit :=
  loop_with (fun buf =>
    r ← call (Read fd (grep_buf - Z.of_nat (length buf) - 1));
    if 0 <? r.1 then
      kept ← grep_write (S (length (buf ++ r.2))) pattern (buf ++ r.2);
      mret (inl kept)
    else mret (inr tt)) [].

Fixpoint grep_files (pattern : list byte) (files : list (list byte)) : P unit :=
  match files with
  | [] => exit 0
  | f :: files =>
      fd ← call (Open f O_RDONLY);
      if fd <? 0 then
        printf "grep: cannot open %s" [str f];;
        exit 1
      else
        grep_fd pattern fd;;
        call (Close fd);;
        grep_files pattern files
  end.

Definition grep_main (argv : list (list byte)) : P unit :=
  match argv with
  | _ :: pattern :: files =>
      match files with
      | [] => grep_fd pattern 0;; exit 0
      | _ => grep_files pattern files
      end
  | _ => fprintf 2 "usage: grep pattern [file ...]" [];; exit 1
  end.

(** ** kill.c, ln.c, mkdir.c, rm.c *)

Fixpoint kill_args (pids : list (list byte)) : P unit :=
  match pids with
  | [] => exit 0
  | a :: pids => call (Kill (atoi a));; kill_args pids
  end.
Definition kill_main (argv : list (list byte)) : P unit :=
  if (length argv <? 2)%nat then
    fprintf 2 "usage: kill pid..." [];;
    exit 1
  else kill_args (tail argv).

Definition ln_main (argv : list (list byte)) : P unit :=
  match argv with
  | [_; old; new] =>
      r ← call (Link old new);
      (if r <? 0 then fprintf 2 "link %s %s: failed" [str old; str new] else mret tt);;
      exit 0
  | _ => fprintf 2 "Usage: ln old new" [];; exit 1
  end.

Fixpoint mkdir_args (files : list (list byte)) : P unit :=
  match files with
  | [] => exit 0
  | f :: files =>
      r ← call (Mkdir f);
      if r <? 0 then
        fprintf 2 "mkdir: %s failed to create" [str f];;
        exit 0
      else mkdir_args files
  end.
Definition mkdir_main (argv : list (list byte)) : P unit :=
  if (length argv <? 2)%nat then
    fprintf 2 "Usage: mkdir files..." [];;
    exit 1
  else mkdir_args (tail argv).

Fixpoint rm_args (files : list (list byte)) : P unit :=
  match files with
  | [] => exit 0
  | f :: files =>
      r ← call (Unlink f);
      if r <? 0 then
        fprintf 2 "rm: %s failed to delete" [str f];;
        exit 0
      else rm_args files
  end.
Definition rm_main (argv : list (list byte)) : P unit :=
  if (length argv <? 2)%nat then
    fprintf 2 "Usage: rm files..." [];;
    exit 1
  else rm_args (tail argv).

(** ** sleep.c *)

Definition sleep_usage : P unit := printf "usage: sleep <n> // where n is the number of seconds." [].

Definition sleep_main (argv : list (list byte)) : P unit :=
  match argv with
  | [_; input] =>
      if strcmp input (bytes_of "0") =? 0 then
        printf "Error: cannot sleep for 0 seconds." [];;
        sleep_usage;;
        exit 1
      else
        let seconds := atoi input in
        if seconds =? 0 then
          printf "Error converting %s to integer." [str input];;
          exit 1
        else
          printf "Sleeping for %d seconds." [ANum seconds];;
          result ← call (Pause (i32 (seconds * 10)));
          exit result
  | _ =>
      printf "Error: %d arguments provided, 1 required." [ANum (Z.of_nat (length argv))];;
      sleep_usage;;
      exit 1
  end.

(** ** zombie.c, dorphan.c, forphan.c *)

Definition zombie_main : P unit :=
  pid ← call Fork;
  (if 0 <? pid then call (Pause 5) else mret 0);;
  exit 0.

(** [for(;;) pause(1000);] *)
Definition sit : P unit := loop (call (Pause 1000);; mret None).

Definition dorphan_main (s : list byte) : P unit :=
  r ← call (Mkdir (bytes_of "dd"));
  if negb (r =? 0) then printf "%s: mkdir dd failed" [str s];; exit 1
  else
    r ← call (Chdir (bytes_of "dd"));
    if negb (r =? 0) then printf "%s: chdir dd failed" [str s];; exit 1
    else
      r ← call (Unlink (bytes_of "../dd"));
      if r <? 0 then printf "%s: unlink failed" [str s];; exit 1
      else
        printf "wait for kill and reclaim" [];;
        sit.

Definition forphan_main (s : list byte) : P unit :=
  let ff := bytes_of "file0" in
  fd ← call (Open ff (Z.lor O_CREATE O_WRONLY));
  if fd <? 0 then printf "%s: open failed" [str s];; exit 1
  else
    st ← call (Fstat fd);
    if st.1 <? 0 then fprintf 2 "%s: cannot stat %s" [str s; str (bytes_of "ff")];; exit 1
    else
      r ← call (Unlink ff);
      if r <? 0 then printf "%s: unlink failed" [str s];; exit 1
      else
        fd ← call (Open ff O_RDONLY);
        if negb (fd =? -1) then printf "%s: open successed" [str s];; exit 1
        else
          printf "wait for kill and reclaim %d" [ANum (st_ino st.2)];;
          sit.

(** ** genfiles.c *)

Definition create_example_file (name text : list byte) : P Z :=
  printf "Creating file %s." [str name];;
  fd ← call (Open name (Z.lor O_CREATE O_WRONLY));
  if fd <? 0 then
    printf "Error opening file." [];;
    mret 1
  else
    n ← call (Write fd text);
    call (Close fd);;
    if n <? 0 then
      printf "Error writing file." [];;
      mret 1
    else mret 0.

(** The pairs of names and texts are the array of main. *)
Fixpoint genfiles_loop (examples : list (list byte * list byte)) : P unit :=
  match examples with
  | [] => exit 0
  | (name, text) :: examples =>
      result ← create_example_file name text;
      if result <? 0 then exit result else genfiles_loop examples
  end.

Definition genfiles_examples : list (list byte * list byte) :=
  [(bytes_of "ex1.txt", bytes_of "0 1 2 3 4 5 6 7 8 9 10 11 12 13 14 15 16 17 18 19 20 30 36 40 42 48 49 50 54 55 56 57 58 59 60");
   (bytes_of "ex2.txt", bytes_of "1 5-6" ++ [chr 9] ++ bytes_of "7" ++ [chr 10] ++ bytes_of "10.11/12,13" ++ [chr 13] ++ bytes_of "14 15-16" ++ [chr 9]
      ++ bytes_of "18" ++ [chr 10] ++ bytes_of "20.21/22,23" ++ [chr 13] ++ bytes_of "24");
   (bytes_of "ex3.txt", bytes_of "xv6 /6, 6/ x6, /6x, a12 b/12, /12b, 12b /12,");
   (bytes_of "ex4.txt", bytes_of "5x x5 5 /5, 5/ ,5, /6, 6/ 6x x6 60");
   (bytes_of "ex5.txt", bytes_of "000 0005 0006 0010 0012 0015 0030 0036 0040 0042 0048 0050 0060 0007 00011");
   (bytes_of "ex6.txt", bytes_of "-5 -6 -10 -11 -12 -15 -18 -19 -20 25-30-35 36-37");
   (bytes_of "ex7.txt", bytes_of "5x x5 5 /5, 5/ ,5, /6, 6/ 6x x6 60" ++ [chr 10])].
Definition genfiles_main : P unit := genfiles_loop genfiles_examples.

(** ** memdump.c *)

Section memdump.
(** The strings that pointers lead to, the addresses of the two string
    constants, and what the struct of the last examples holds after the
    copied string. *)
Context (strings : Z -> list byte) (another hello : Z) (junk : list byte).

Definition memdump_struct : list byte :=
  LittleEndianList.le_split 8 hello ++ LittleEndianList.le_split 4 1819438967 ++ LittleEndianList.le_split 2 100 ++ bytes_of "z" ++ bytes_of "xyzzy" ++ [chr 0] ++ junk.

Definition memdump_examples : P unit :=
  printf "Example 1:" [];;
  putcs 1 (memdump strings (bytes_of "ii") (LittleEndianList.le_split 4 61810 ++ LittleEndianList.le_split 4 2025));;
  printf "Example 2:" [];;
  putcs 1 (memdump strings (bytes_of "S") (bytes_of "a string" ++ [chr 0]));;
  printf "Example 3:" [];;
  putcs 1 (memdump strings (bytes_of "s") (LittleEndianList.le_split 8 another));;
  printf "Example 4:" [];;
  putcs 1 (memdump strings (bytes_of "pihcS") memdump_struct);;
  printf "Example 5:" [];;
  putcs 1 (memdump strings (bytes_of "sccccc") memdump_struct).

(** [while(n < sizeof(data))], the bytes read so far. *)
Definition memdump_read : P (list byte) :=
  loop_with (fun data =>
    let n := Z.of_nat (length data) in
    if n <? 512 then
      nn ← call (Read 0 (512 - n));
      mret (if nn.1 <=? 0 then inr data else inl (data ++ nn.2))
    else mret (inr data)) [].

Definition memdump_main (argv : list (list byte)) : P unit :=
  match argv with
  | [_] => memdump_examples;; exit 0
  | [_; fmt] =>
      data ← memdump_read;
      putcs 1 (memdump strings fmt (data ++ replicate (512 - length data) (chr 0)));;
      exit 0
  | _ => printf "Usage: memdump [format]" [];; exit 1
  end.

(** The last example spells its greeting out of a pointer and the bytes of
    two little-endian integers. *)
Lemma memdump_example5 : 0 <= hello < 2 ^ 64 -> strings hello = bytes_of "hello" ->
  memdump strings (bytes_of "sccccc") memdump_struct =
  mjoin ((fun b : list byte => b ++ [chr 10]) <$> (bytes_of <$> ["hello"; "w"; "o"; "r"; "l"; "d"]%string) ++ [[]]).
Proof.
  intros Hb Hs. unfold memdump_struct.
  assert (Er : rdn 8 (LittleEndianList.le_split 8 hello ++ LittleEndianList.le_split 4 1819438967 ++ LittleEndianList.le_split 2 100
      ++ bytes_of "z" ++ bytes_of "xyzzy" ++ [chr 0] ++ junk) 0 = hello).
  { with_strategy transparent [rdn] (unfold rdn). rewrite drop_0, take_app_length' by (symmetry; apply LittleEndianList.length_le_split).
    rewrite LittleEndianList.le_combine_split, Z.mod_small; [done|exact Hb]. }
  cbn -[rdn LittleEndianList.le_split]. cbn -[rdn LittleEndianList.le_split] in Er. rewrite Er, Hs.
  rewrite drop_app_length' by (symmetry; apply LittleEndianList.length_le_split). vm_compute. reflexivity.
Qed.
End memdump.

(** ** init.c *)

(** The inner loop, until the shell with this pid has exited. *)
Definition init_wait (pid : Z) : P unit :=
  loop (
    w ← call Wait;
    if w.1 =? pid then mret (Some tt)
    else if w.1 <? 0 then
      printf "init: wait returned an error" [];;
      exit 1
    else mret None).

Definition init_main : P unit :=
  fd ← call (Open (bytes_of "console") O_RDWR);
  (if fd <? 0 then
     call (Mknod (bytes_of "console") File.CONSOLE 0);;
     call (Open (bytes_of "console") O_RDWR)
   else mret fd);;
  call (Dup 0);;
  call (Dup 0);;
  loop (
    printf "init: starting sh" [];;
    pid ← call Fork;
    if pid <? 0 then
      printf "init: fork failed" [];;
      exit 1
    else if pid =? 0 then
      call (Exec (bytes_of "sh") [bytes_of "sh"]);;
      printf "init: exec sh failed" [];;
      exit 1
    else
      init_wait pid;;
      mret None).

(** ** ls.c *)

Definition ls_entry (path : list byte) (st : stat) : P unit :=
  printf "%s %d %d %d" [str (fmtname path); ANum (st_type st); ANum (st_ino st); ANum (i32 (st_size st))].

(** [stat] leaves [st] as it is when it fails, so the next line uses it only
    when it succeeds. *)
Definition ls_dir (path : list byte) (fd : Z) : P unit :=
  loop (
    r ← call (Read fd sizeof_dirent);
    if negb (r.1 =? sizeof_dirent) then mret (Some tt)
    else if de_inum r.2 =? 0 then mret None
    else
      let buf := path ++ [chr 47] ++ until_nul (de_name r.2) in
      st ← ustat buf;
      match st.2 with
      | None => printf "ls: cannot stat %s" [str buf]
      | Some st => ls_entry buf st
      end;;
      mret None).

Definition ls (path : list byte) : P unit :=
  fd ← call (Open path O_RDONLY);
  if fd <? 0 then fprintf 2 "ls: cannot open %s" [str path]
  else
    r ← call (Fstat fd);
    if r.1 <? 0 then
      fprintf 2 "ls: cannot stat %s" [str path];;
      call (Close fd);;
      mret tt
    else
      (if (st_type r.2 =? T_DEVICE) || (st_type r.2 =? T_FILE) then ls_entry path r.2
       else if st_type r.2 =? T_DIR then
         if 512 <? Z.of_nat (length path) + 1 + DIRSIZ + 1 then printf "ls: path too long" []
         else ls_dir path fd
       else mret tt);;
      call (Close fd);;
      mret tt.

Fixpoint ls_args (paths : list (list byte)) : P unit :=
  match paths with
  | [] => exit 0
  | p :: paths => ls p;; ls_args paths
  end.
Definition ls_main (argv : list (list byte)) : P unit :=
  if (length argv <? 2)%nat then
    ls (bytes_of ".");;
    exit 0
  else ls_args (tail argv).

(** ** sixfive.c *)

(** process_file, reading one character at a time; what it prints is the output
    the scanner of Tools.v adds at each step. *)
Definition six_step (after : list byte) (s : six_state) (token : byte) : P six_state :=
  let s' := six_byte after s token in
  putcs 1 (drop (length (six_out s)) (six_out s'));;
  mret s'.

Definition six_file (after : list byte) (fd : Z) : P Z :=
  s ← loop_with (fun s =>
    r ← call (Read fd 1);
    if 0 <? r.1 then
      s ← six_step after s (default (chr 0) (head r.2));
      mret (inl s)
    else mret (inr (r.1, s)))
    {| six_num := false; six_sep := true; six_number := 0; six_out := [] |};
  if s.1 <? 0 then
    printf "Error reading file." [];;
    mret (-1)
  else
    (if six_num s.2 then putcs 1 (process_number (six_number s.2)) else mret tt);;
    mret 0.

(** The files are not closed. *)
Fixpoint six_files (after : list byte) (files : list (list byte)) : P unit :=
  match files with
  | [] => exit 0
  | f :: files =>
      fd ← call (Open f O_RDONLY);
      if fd <? 0 then
        printf "Error opening file." [];;
        exit 1
      else
        result ← six_file after fd;
        if result <? 0 then
          printf "Error processing file %s." [str f];;
          exit 1
        else six_files after files
  end.

Definition six_main (after : list byte) (argv : list (list byte)) : P unit :=
  if (length argv <? 2)%nat then
    printf "Error: at least 1 argument required." [];;
    printf "Usage: sixfive file.txt file2.txt ..." [];;
    exit 1
  else six_files after (tail argv).
End calls.
