(* ===== verification/UserSem.v ===== *)
(** * UserSem: running user programs

    [run] executes a program of User.v against a kernel given as a function
    from a system call and a state to its result and the new state.  [eval] says
    that the run ends, with the fuel hidden, and composes along the program. *)

From ITree Require Import Core.ITreeDefinition Interp.Recursion Indexed.Sum Core.Subevent.
From S2P Require Import Prelude Riscv User.

(** How a program ends: its function returns, or it calls exit. *)
Inductive ending (A : Type) := Returned (a : A) | Exited (n : Z).
Arguments Returned {A} a.
Arguments Exited {A} n.

Definition exits {R} (e : sysE R) : option Z := match e with Exit n => Some n | _ => None end.

Lemma observe_bind {E A B} (t : itree E A) (k : A -> itree E B) :
  observe (ITree.bind t k) =
  match observe t with
  | RetF a => observe (k a)
  | TauF t => TauF (ITree.bind t k)
  | VisF e h => VisF e (fun x => ITree.bind (h x) k)
  end.
Proof. unfold observe at 1. cbn. unfold observe. by destruct (_observe t). Qed.

Lemma unfold_iter_observe {E I A} (body : I -> itree E (I + A)) i :
  observe (ITree.iter body i) =
  observe (ITree.bind (body i) (fun lr => match lr with inl l => Tau (ITree.iter body l) | inr r => Ret r end)).
Proof. reflexivity. Qed.

Section run.
Context {S : Type} (handle : forall R, sysE R -> S -> option (R * S)).

Fixpoint run {A} (n : nat) (t : itree sysE A) (s : S) : option (ending A * S) :=
  match n with
  | O => None
  | Datatypes.S n =>
      match observe t with
      | RetF a => Some (Returned a, s)
      | TauF t => run n t s
      | VisF e k =>
          match exits e with
          | Some code => Some (Exited code, s)
          | None => match handle _ e s with Some (r, s) => run n (k r) s | None => None end
          end
      end
  end.

Definition eval {A} (t : itree sysE A) (s : S) (o : ending A) (s' : S) : Prop := exists n, run n t s = Some (o, s').

Lemma eval_ret {A} (a : A) s : eval (Ret a) s (Returned a) s.
Proof. by exists 1%nat. Qed.

Lemma eval_tau {A} (t : itree sysE A) s o s' : eval t s o s' -> eval (Tau t) s o s'.
Proof. intros [n Hn]. by exists (Datatypes.S n). Qed.

Lemma eval_vis {A R} (e : sysE R) (k : R -> itree sysE A) s r s1 o s2 :
  exits e = None -> handle R e s = Some (r, s1) -> eval (k r) s1 o s2 -> eval (Vis e k) s o s2.
Proof. intros He Hh [n Hn]. exists (Datatypes.S n). simpl. by rewrite He, Hh. Qed.

Lemma eval_observe {A} (t u : itree sysE A) s o s' : observe t = observe u -> eval u s o s' -> eval t s o s'.
Proof. intros E [n Hn]. exists n. destruct n; [done|]. simpl in *. by rewrite E. Qed.

Lemma eval_bind {A B} (t : itree sysE A) (k : A -> itree sysE B) s a s1 o s2 :
  eval t s (Returned a) s1 -> eval (k a) s1 o s2 -> eval (ITree.bind t k) s o s2.
Proof.
  intros [n Hn] [m Hm]. revert t s Hn. induction n as [|n IH]; intros t s Hn; [done|]. simpl in Hn.
  destruct (observe t) as [b|t'|R e h] eqn:Et.
  - simplify_eq. apply (eval_observe _ (k a)); [|by exists m]. by rewrite observe_bind, Et.
  - destruct (IH _ _ Hn) as [p Hp]. exists (Datatypes.S p). cbn [run]. rewrite observe_bind, Et. exact Hp.
  - destruct (exits e) eqn:Ex; [done|]. destruct (handle R e s) as [[r s']|] eqn:Eh; [|done].
    destruct (IH _ _ Hn) as [p Hp]. exists (Datatypes.S p). cbn [run]. rewrite observe_bind, Et, Ex, Eh. exact Hp.
Qed.

(** A program that exits in its first part. *)
Lemma eval_bind_exit {A B} (t : itree sysE A) (k : A -> itree sysE B) s n s1 :
  eval t s (Exited n) s1 -> eval (ITree.bind t k) s (Exited n) s1.
Proof.
  intros [m Hm]. revert t s Hm. induction m as [|m IH]; intros t s Hm; [done|]. simpl in Hm.
  destruct (observe t) as [b|t'|R e h] eqn:Et; [done| |].
  - destruct (IH _ _ Hm) as [p Hp]. exists (Datatypes.S p). cbn [run]. rewrite observe_bind, Et. exact Hp.
  - destruct (exits e) eqn:Ex.
    + simplify_eq. exists 1%nat. cbn [run]. by rewrite observe_bind, Et, Ex.
    + destruct (handle R e s) as [[r s']|] eqn:Eh; [|done]. destruct (IH _ _ Hm) as [p Hp].
      exists (Datatypes.S p). cbn [run]. rewrite observe_bind, Et, Ex, Eh. exact Hp.
Qed.

Lemma eval_call {A R} (e : sysE R) (k : R -> itree sysE A) s r s1 o s2 :
  exits e = None -> handle R e s = Some (r, s1) -> eval (k r) s1 o s2 ->
  eval (ITree.bind (call e) k) s o s2.
Proof.
  intros He Hh Hk. eapply eval_bind; [|exact Hk]. eapply eval_vis; [done|done|]. apply eval_ret.
Qed.

Lemma eval_iter {I A} (body : I -> itree sysE (I + A)) i s x s1 o s2 :
  eval (body i) s (Returned x) s1 ->
  match x with inl j => eval (ITree.iter body j) s1 o s2 | inr a => o = Returned a /\ s2 = s1 end ->
  eval (ITree.iter body i) s o s2.
Proof.
  intros Hb Hx. apply (eval_observe _ (ITree.bind (body i) (fun lr => match lr with inl l => Tau (ITree.iter body l) | inr r => Ret r end))).
  { reflexivity. }
  eapply eval_bind; [exact Hb|]. destruct x as [j|a]; [by apply eval_tau|]. destruct Hx as [-> ->]. apply eval_ret.
Qed.

(** ** Recursive functions *)

Section rec.
Context {A B : Type} (body : A -> itree (callE A B +' sysE) B).

(** The body of a recursive function, with the calls it makes to itself. *)
Inductive evalr : forall {R}, itree (callE A B +' sysE) R -> S -> ending R -> S -> Prop :=
| evalr_ret {R} (t : itree _ R) a s : observe t = RetF a -> evalr t s (Returned a) s
| evalr_tau {R} (t t' : itree _ R) s o s' : observe t = TauF t' -> evalr t' s o s' -> evalr t s o s'
| evalr_sys {R X} (t : itree _ R) (e : sysE X) k r s s1 o s2 :
    observe t = VisF (inr1 e) k -> exits e = None -> handle X e s = Some (r, s1) -> evalr (k r) s1 o s2 -> evalr t s o s2
| evalr_rec {R} (t : itree _ R) a k b s s1 o s2 :
    observe t = VisF (inl1 (Call a)) k -> evalr (body a) s (Returned b) s1 -> evalr (k b) s1 o s2 -> evalr t s o s2.

Local Abbreviation interp := (interp_mrec (calling' body)).

Lemma interp_step {R} (t : itree (callE A B +' sysE) R) s o s' :
  match observe t with
  | RetF a => o = Returned a /\ s' = s
  | TauF t => eval (interp t) s o s'
  | VisF (inl1 d) k => eval (interp (ITree.bind (calling' body _ d) k)) s o s'
  | VisF (inr1 e) k => exists r s1, exits e = None /\ handle _ e s = Some (r, s1) /\ eval (interp (k r)) s1 o s'
  end -> eval (interp t) s o s'.
Proof.
  intros Ht. unfold interp_mrec. destruct (observe t) as [a|t'|X [d|e] k] eqn:Et.
  - eapply eval_iter; [rewrite Et; apply eval_ret|exact Ht].
  - eapply eval_iter; [rewrite Et; apply eval_ret|exact Ht].
  - eapply eval_iter; [rewrite Et; apply eval_ret|exact Ht].
  - destruct Ht as (r & s1 & He & Hh & Hk). eapply eval_iter; [rewrite Et; eapply eval_vis; [done|done|apply eval_ret]|exact Hk].
Qed.

Lemma interp_observe {R} (t u : itree (callE A B +' sysE) R) s o s' :
  observe t = observe u -> eval (interp u) s o s' -> eval (interp t) s o s'.
Proof.
  intros E. apply eval_observe. unfold interp_mrec. rewrite !unfold_iter_observe. by rewrite E.
Qed.

Lemma evalr_observe {R} (t u : itree (callE A B +' sysE) R) s o s' :
  observe t = observe u -> evalr u s o s' -> evalr t s o s'.
Proof.
  intros E Hu. destruct Hu; [eapply evalr_ret|eapply evalr_tau|eapply evalr_sys|eapply evalr_rec]; eauto; congruence.
Qed.

(** The run of a body extends to what follows it. *)
Lemma evalr_interp {R} (t : itree (callE A B +' sysE) R) s o1 s1 :
  evalr t s o1 s1 ->
  match o1 with
  | Returned a => forall Q (k : R -> itree (callE A B +' sysE) Q) o s2,
      eval (interp (k a)) s1 o s2 -> eval (interp (ITree.bind t k)) s o s2
  | Exited _ => True
  end.
Proof.
  induction 1 as [R t a s Et|R t t' s o s' Et _ IH|R X t e h r s s1 o s2 Et He Hh _ IH|R t a h b s s1 o s2 Et _ IH1 _ IH2].
  - intros Q k o s2. apply interp_observe. by rewrite observe_bind, Et.
  - destruct o; [|done]. intros Q k o s2 Hk. apply interp_step. rewrite observe_bind, Et. by apply IH.
  - destruct o; [|done]. intros Q k o s3 Hk. apply interp_step. rewrite observe_bind, Et. exists r, s1.
    split_and!; [done|done|by apply IH].
  - destruct o; [|done]. intros Q k o s3 Hk. apply interp_step. rewrite observe_bind, Et. by apply IH1, IH2.
Qed.

Lemma evalr_eval {R} (t : itree (callE A B +' sysE) R) s o s' : evalr t s o s' -> eval (interp t) s o s'.
Proof.
  induction 1 as [R t a s Et|R t t' s o s' Et _ IH|R X t e h r s s1 o s2 Et He Hh _ IH|R t a h b s s1 o s2 Et Hb _ _ IH];
    apply interp_step; rewrite Et; [done|done|by exists r, s1|]. by apply (evalr_interp _ _ _ _ Hb).
Qed.

Lemma eval_rec a s o s' : evalr (body a) s o s' -> eval (rec body a) s o s'.
Proof. apply evalr_eval. Qed.

(** The rules for bodies, as for programs. *)
Lemma evalr_bind {R Q} (t : itree (callE A B +' sysE) R) (k : R -> itree (callE A B +' sysE) Q) s o1 s1 :
  evalr t s o1 s1 ->
  match o1 with
  | Returned a => forall o s2, evalr (k a) s1 o s2 -> evalr (ITree.bind t k) s o s2
  | Exited _ => True
  end.
Proof.
  intros Ht. revert Q k.
  induction Ht as [R t a s Et|R t t' s o s' Et _ IH|R X t e h r s s1 o s2 Et He Hh _ IH|R t a h b s s1 o s2 Et Hb _ _ IH];
    intros Q k.
  - intros o s2 Hk. eapply evalr_observe; [|exact Hk]. by rewrite observe_bind, Et.
  - destruct o; [|done]. intros o s2 Hk. eapply evalr_tau; [by rewrite observe_bind, Et|]. by apply IH.
  - destruct o; [|done]. intros o s3 Hk. eapply evalr_sys; [by rewrite observe_bind, Et|done|done|]. by apply IH.
  - destruct o; [|done]. intros o s3 Hk. eapply evalr_rec; [by rewrite observe_bind, Et|done|]. by apply IH.
Qed.
End rec.

(** ** Both kinds of programs *)

(** What a relation must satisfy to reason about the functions that are
    used in plain programs and in recursive bodies alike. *)
Class Evaluates {E} `{sysE -< E} (ev : forall R, itree E R -> S -> ending R -> S -> Prop) : Prop := {
  ev_ret : forall R (a : R) s, ev R (Ret a) s (Returned a) s;
  ev_tau : forall R (t : itree E R) s o s', ev R t s o s' -> ev R (Tau t) s o s';
  ev_observe : forall R (t u : itree E R) s o s', observe t = observe u -> ev R u s o s' -> ev R t s o s';
  ev_bind : forall A B (t : itree E A) (k : A -> itree E B) s a s1 o s2,
    ev A t s (Returned a) s1 -> ev B (k a) s1 o s2 -> ev B (ITree.bind t k) s o s2;
  ev_sys : forall R (e : sysE R) s r s1,
    exits e = None -> handle R e s = Some (r, s1) -> ev R (call e) s (Returned r) s1
}.

#[export] Instance eval_evaluates : Evaluates (@eval).
Proof.
  split.
  - intros. apply eval_ret.
  - intros. by apply eval_tau.
  - intros. by eapply eval_observe.
  - intros. by eapply eval_bind.
  - intros R e s r s1 He Hh. eapply eval_vis; [done|done|apply eval_ret].
Qed.

#[export] Instance evalr_evaluates {A B} (body : A -> itree (callE A B +' sysE) B) : Evaluates (@evalr A B body).
Proof.
  split.
  - intros. by apply evalr_ret.
  - intros. by eapply evalr_tau.
  - intros. by eapply evalr_observe.
  - intros C D t k s a s1 o s2 Ht Hk. by apply (evalr_bind body t k _ _ _ Ht).
  - intros R e s r s1 He Hh. eapply evalr_sys; [reflexivity|done|done|by apply evalr_ret].
Qed.

Section rules.
Context {E} {sub : sysE -< E} {ev : forall R, itree E R -> S -> ending R -> S -> Prop} {EV : Evaluates ev}.

Lemma ev_call {R A} (e : sysE R) (k : R -> itree E A) s r s1 o s2 :
  exits e = None -> handle R e s = Some (r, s1) -> ev A (k r) s1 o s2 -> ev A (call e ≫= k) s o s2.
Proof. intros He Hh Hk. eapply ev_bind; [by eapply ev_sys|exact Hk]. Qed.

Lemma ev_iter {I A} (body : I -> itree E (I + A)) i s x s1 o s2 :
  ev _ (body i) s (Returned x) s1 ->
  match x with inl j => ev _ (ITree.iter body j) s1 o s2 | inr a => o = Returned a /\ s2 = s1 end ->
  ev _ (ITree.iter body i) s o s2.
Proof.
  intros Hb Hx. eapply ev_observe; [apply unfold_iter_observe|].
  eapply ev_bind; [exact Hb|]. destruct x as [j|a]; [by apply ev_tau|]. destruct Hx as [-> ->]. apply ev_ret.
Qed.
End rules.
End run.

(** ** Descriptors *)

(** The descriptor fdalloc of kernel/sysfile.c gives out. *)
Fixpoint lowest {A} (o : gmap Z A) (fd : Z) (n : nat) : option Z :=
  match n with
  | O => None
  | S n => match o !! fd with None => Some fd | Some _ => lowest o (fd + 1) n end
  end.

(** How many are free. *)
Definition avail {A} (o : gmap Z A) : nat := length (filter (fun fd => o !! fd = None) (seqZ 0 NOFILE)).

Lemma lowest_some {A} (o : gmap Z A) n : forall fd, filter (fun fd => o !! fd = None) (seqZ fd (Z.of_nat n)) <> [] ->
  exists fd', lowest o fd n = Some fd' /\ fd <= fd' < fd + Z.of_nat n /\ o !! fd' = None.
Proof.
  induction n as [|n IH]; intros fd Hf; [done|]. rewrite seqZ_cons, filter_cons in Hf by lia.
  cbn [lowest]. destruct (o !! fd) eqn:E.
  - rewrite decide_False in Hf by congruence. replace (Z.pred (Z.of_nat (S n))) with (Z.of_nat n) in Hf by lia.
    destruct (IH (fd + 1)) as (fd' & ? & ? & ?); [by rewrite Z.add_1_r|]. exists fd'. split_and!; [done|lia|lia|done].
  - exists fd. split_and!; [done|lia|lia|done].
Qed.

Lemma open_avail {A} (o : gmap Z A) : (0 < avail o)%nat -> exists fd, lowest o 0 (Z.to_nat NOFILE) = Some fd /\ 0 <= fd < NOFILE /\ o !! fd = None.
Proof.
  intros Ha. destruct (lowest_some o (Z.to_nat NOFILE) 0) as (fd & ? & ? & ?); [|by exists fd].
  unfold avail in Ha. change (Z.of_nat (Z.to_nat NOFILE)) with NOFILE. intros E. rewrite E in Ha. simpl in Ha. lia.
Qed.

Lemma filter_other {A} (o : gmap Z A) fd x (l : list Z) : fd ∉ l ->
  filter (fun f => (<[fd := x]> o : gmap Z A) !! f = None) l = filter (fun f => o !! f = None) l.
Proof.
  induction l as [|f l IH]; intros Hn; [done|]. apply not_elem_of_cons in Hn as [Hf Hl].
  rewrite !filter_cons, IH, lookup_insert_ne by done. done.
Qed.

Lemma avail_open {A} (o : gmap Z A) fd x : o !! fd = None -> 0 <= fd < NOFILE -> avail o = S (avail (<[fd := x]> o)).
Proof.
  intros Hn Hr. unfold avail. assert (Hin : fd ∈ seqZ 0 NOFILE) by (apply elem_of_seqZ; lia).
  apply list_elem_of_split in Hin as (l1 & l2 & E). pose proof (NoDup_seqZ 0 NOFILE) as Hd. rewrite E in *.
  apply NoDup_app in Hd as (_ & Hd1 & Hd2). apply NoDup_cons in Hd2 as [Hd2 _].
  rewrite !filter_app, !length_app, !filter_cons, lookup_insert_eq. rewrite decide_True by done. rewrite (decide_False (P := Some x = None)) by done.
  cbn [length]. rewrite !filter_other; [lia|done|]. intros Hin. apply (Hd1 fd Hin), elem_of_cons. by left.
Qed.
