(* ===== verification/TestLib.v ===== *)
(** * TestLib: what the test programs use

    user/usertests.c, user/grind.c and the other test programs make the system
    calls of User.v, and others that User.v leaves out: they pass raw
    addresses to the kernel, touch memory that may not be there, and grow and
    shrink their memory.  [memE] has these as events; the rest of the file has
    the loops and checks that the tests share. *)

From ITree Require Import Core.ITreeDefinition Interp.Recursion Indexed.Sum Core.Subevent.
From S2P Require Import Prelude Riscv Layout Fs File Syscall Printf Tools User.

(** A pointer given to a system call: a string of the program, or any address. *)
Inductive ptr := Str (s : list byte) | At (a : Z).

(** [Load] and [Store] are accesses of the program itself; where there is no
    such memory the kernel kills the program.  [Malloc] and [Free] are calls
    of user/umalloc.c, and [Sp] is the stack pointer. *)
Inductive memE : Type -> Type :=
| Sbrk (n how : Z) : memE Z
| Load (w : nat) (a : Z) : memE Z
| Store (w : nat) (a v : Z) : memE unit
| WriteAt (fd a n : Z) : memE Z
| ReadAt (fd a n : Z) : memE Z
| OpenAt (p : ptr) (mode : Z) : memE Z
| UnlinkAt (p : ptr) : memE Z
| LinkAt (old new : ptr) : memE Z
| ExecAt (path : ptr) (argv : list ptr) : memE Z
| PipeAt (a : Z) : memE Z
| Getpid : memE Z
| Malloc (n : Z) : memE Z
| Free (a : Z) : memE unit
| Sp : memE Z.

(** The pointer -1. *)
Definition SBRK_ERROR : Z := 2 ^ 64 - 1.

Section lib.
Context {E : Type -> Type} `{sysE -< E} `{memE -< E}.
Local Abbreviation P := (itree E).

Definition mcall {R} (e : memE R) : P R := ITree.trigger (subevent R e).

(** user/ulib.c: sbrk, sbrklazy; the argument is an [int]. *)
Definition sbrk (n : Z) : P Z := mcall (Sbrk (i32 n) SBRK_EAGER).
Definition sbrklazy (n : Z) : P Z := mcall (Sbrk (i32 n) SBRK_LAZY).

(** printf without a newline at the end. *)
Definition printf_ (fmt : string) (args : list arg) : P unit :=
  match vprintf (bytes_of fmt) args with
  | Some b => putcs 1 b
  | None => undefined
  end.

(** [printf(...); exit(1);] *)
Definition fail {A} (fmt : string) (args : list arg) : P A := printf fmt args;; exit 1.
(** [if(bad){ printf(...); exit(1); }] *)
Definition reject (bad : bool) (fmt : string) (args : list arg) : P unit := if bad then fail fmt args else mret tt.
(** The same where the message has no newline. *)
Definition reject_ (bad : bool) (fmt : string) (args : list arg) : P unit :=
  if bad then printf_ fmt args;; exit 1 else mret tt.

(** [for(i = ...; ...; i++)], [n] times. *)
Fixpoint for_loop (n : nat) (i : Z) (body : Z -> P unit) : P unit :=
  match n with
  | O => mret tt
  | S n => body i;; for_loop n (i + 1) body
  end.
Definition times (n : Z) (body : Z -> P unit) : P unit := for_loop (Z.to_nat n) 0 body.

(** The same when the body can leave the loop ([true]); the value of the
    variable after the loop. *)
Fixpoint for_break (n : nat) (i : Z) (body : Z -> P bool) : P Z :=
  match n with
  | O => mret i
  | S n => stop ← body i; if (stop : bool) then mret i else for_break n (i + 1) body
  end.

(** [for(i = 0; i < sizeof(a)/sizeof(a[0]); i++)] *)
Fixpoint for_each {A} (l : list A) (body : A -> P unit) : P unit :=
  match l with
  | [] => mret tt
  | x :: l => body x;; for_each l body
  end.

(** [wait(&st)] where [st] is [old] before; a variable that has no value yet
    is not read when the call fails. *)
Definition wait_old (old : Z) : P Z := w ← call Wait; mret (if w.1 <? 0 then old else w.2).
Definition wait_status : P Z := w ← call Wait; if w.1 <? 0 then undefined else mret w.2.
(** [for(...){ wait(&st); ... }] with one variable for all the calls. *)
Fixpoint wait_each (n : nat) (old : option Z) (each : Z -> P unit) : P unit :=
  match n with
  | O => mret tt
  | S n =>
      w ← call Wait;
      match (if w.1 <? 0 then old else Some w.2) with
      | None => undefined
      | Some st => each st;; wait_each n (Some st) each
      end
  end.
Definition wait_null : P Z := w ← call Wait; mret w.1.

(** [close(open(path, mode));] *)
Definition touch (path : list byte) (mode : Z) : P unit := fd ← call (Open path mode); call (Close fd);; mret tt.

(** [for(;;) ;] *)
Definition spin {A} : P A := loop (mret None).
End lib.

(** ['0' + i] *)
Definition digit_char (i : Z) : byte := chr (48 + i).

(** [read] into an array: the bytes it had stay where none are read. *)
Definition into (got buf : list byte) : list byte := got ++ drop (length got) buf.
