(* ===== verification/UsertestsFs.v ===== *)
(** * UsertestsFs: user/usertests.c, pointers and files

    The tests of user/usertests.c that pass wild pointers to the kernel and
    those that use the file system from one process, in the order of the
    file.  A test returns or exits; each runs in a process of its own, so the
    global array [buf] starts out zero in each. *)

From ITree Require Import Core.ITreeDefinition Interp.Recursion Indexed.Sum Core.Subevent.
From S2P Require Import Prelude Riscv Layout Bio Fs File Syscall Printf Tools User TestLib.

Definition BUFSZ : Z := (MAXOPBLOCKS + 2) * BSIZE.

Section tests.
Context {E : Type -> Type} `{sysE -< E} `{memE -< E}.
Local Abbreviation P := (itree E).

(** ** Wild pointers *)

Definition wild : list Z := [0x80000000; 0x3fffffe000; 0x3ffffff000; 0x4000000000; 0xffffffffffffffff].

Definition copyin (s : list byte) : P unit :=
  for_each wild (fun addr =>
    fd ← call (Open (bytes_of "copyin1") (Z.lor O_CREATE O_WRONLY));
    reject (fd <? 0) "open(copyin1) failed" [];;
    n ← mcall (WriteAt fd addr 8192);
    reject (0 <=? n) "write(fd, %p, 8192) returned %d, not -1" [ANum addr; ANum n];;
    call (Close fd);;
    call (Unlink (bytes_of "copyin1"));;
    n ← mcall (WriteAt 1 addr 8192);
    reject (0 <? n) "write(1, %p, 8192) returned %d, not -1 or 0" [ANum addr; ANum n];;
    p ← call Pipe;
    reject (p.1 <? 0) "pipe() failed" [];;
    n ← mcall (WriteAt p.2.2 addr 8192);
    reject (0 <? n) "write(pipe, %p, 8192) returned %d, not -1 or 0" [ANum addr; ANum n];;
    call (Close p.2.1);;
    call (Close p.2.2);;
    mret tt).

Definition copyout (s : list byte) : P unit :=
  for_each (0 :: wild) (fun addr =>
    fd ← call (Open (bytes_of "README") 0);
    reject (fd <? 0) "open(README) failed" [];;
    n ← mcall (ReadAt fd addr 8192);
    reject (0 <? n) "read(fd, %p, 8192) returned %d, not -1 or 0" [ANum addr; ANum n];;
    call (Close fd);;
    p ← call Pipe;
    reject (p.1 <? 0) "pipe() failed" [];;
    n ← call (Write p.2.2 (bytes_of "x"));
    reject (negb (n =? 1)) "pipe write failed" [];;
    n ← mcall (ReadAt p.2.1 addr 8192);
    reject (0 <? n) "read(pipe, %p, 8192) returned %d, not -1 or 0" [ANum addr; ANum n];;
    call (Close p.2.1);;
    call (Close p.2.2);;
    mret tt).

Definition copyinstr1 (s : list byte) : P unit :=
  for_each wild (fun addr =>
    fd ← mcall (OpenAt (At addr) (Z.lor O_CREATE O_WRONLY));
    reject (0 <=? fd) "open(%p) returned %d, not -1" [ANum addr; ANum fd]).

Definition copyinstr2 (s : list byte) : P unit :=
  let b := replicate (Z.to_nat MAXPATH) (chr 120) in
  ret ← call (Unlink b);
  reject (negb (ret =? -1)) "unlink(%s) returned %d, not -1" [str b; ANum ret];;
  fd ← call (Open b (Z.lor O_CREATE O_WRONLY));
  reject (negb (fd =? -1)) "open(%s) returned %d, not -1" [str b; ANum fd];;
  ret ← call (Link b b);
  reject (negb (ret =? -1)) "link(%s, %s) returned %d, not -1" [str b; str b; ANum ret];;
  ret ← call (Exec b [bytes_of "xx"]);
  reject (negb (ret =? -1)) "exec(%s) returned %d, not -1" [str b; ANum fd];;
  pid ← call Fork;
  reject (pid <? 0) "fork failed" [];;
  if pid =? 0 then
    let big := replicate (Z.to_nat PGSIZE) (chr 120) in
    ret ← call (Exec (bytes_of "echo") [big; big; big]);
    reject (negb (ret =? -1)) "exec(echo, BIG) returned %d, not -1" [ANum fd];;
    exit 747
  else
    st ← wait_old 0;
    reject (negb (st =? 747)) "exec(echo, BIG) succeeded, should have failed" [].

(** The string at [top - 1] is one character that is not followed by memory;
    the messages print it. *)
Definition copyinstr3 (s : list byte) : P unit :=
  sbrk 8192;;
  top ← sbrk 0;
  (if negb (top mod PGSIZE =? 0) then sbrk (PGSIZE - top mod PGSIZE) else mret 0);;
  top ← sbrk 0;
  reject (negb (top mod PGSIZE =? 0)) "oops" [];;
  let b := top - 1 in
  mcall (Store 1 b 120);;
  ret ← mcall (UnlinkAt (At b));
  (if negb (ret =? -1) then undefined else mret tt);;
  fd ← mcall (OpenAt (At b) (Z.lor O_CREATE O_WRONLY));
  (if negb (fd =? -1) then undefined else mret tt);;
  ret ← mcall (LinkAt (At b) (At b));
  (if negb (ret =? -1) then undefined else mret tt);;
  ret ← mcall (ExecAt (At b) [Str (bytes_of "xx")]);
  (if negb (ret =? -1) then undefined else mret tt).

Definition rwsbrk (s : list byte) : P unit :=
  a ← sbrk 8192;
  reject (a =? SBRK_ERROR) "sbrk(rwsbrk) failed" [];;
  r ← sbrk (-8192);
  reject (r =? SBRK_ERROR) "sbrk(rwsbrk) shrink failed" [];;
  fd ← call (Open (bytes_of "rwsbrk") (Z.lor O_CREATE O_WRONLY));
  reject (fd <? 0) "open(rwsbrk) failed" [];;
  n ← mcall (WriteAt fd (u64 (a + PGSIZE)) 1024);
  reject (0 <=? n) "write(fd, %p, 1024) returned %d, not -1" [ANum (a + PGSIZE); ANum n];;
  call (Close fd);;
  call (Unlink (bytes_of "rwsbrk"));;
  fd ← call (Open (bytes_of "README") O_RDONLY);
  reject (fd <? 0) "open(README) failed" [];;
  n ← mcall (ReadAt fd (u64 (a + PGSIZE)) 10);
  reject (0 <=? n) "read(fd, %p, 10) returned %d, not -1" [ANum (a + PGSIZE); ANum n];;
  call (Close fd);;
  exit 0.

(** ** Truncation *)

Definition truncate1 (s : list byte) : P unit :=
  let f := bytes_of "truncfile" in
  call (Unlink f);;
  fd1 ← call (Open f (Z.lor (Z.lor O_CREATE O_WRONLY) O_TRUNC));
  call (Write fd1 (bytes_of "abcd"));;
  call (Close fd1);;
  fd2 ← call (Open f O_RDONLY);
  n ← call (Read fd2 32);
  reject (negb (n.1 =? 4)) "%s: read %d bytes, wanted 4" [str s; ANum n.1];;
  fd1 ← call (Open f (Z.lor O_WRONLY O_TRUNC));
  fd3 ← call (Open f O_RDONLY);
  n ← call (Read fd3 32);
  (if negb (n.1 =? 0) then
     printf "aaa fd3=%d" [ANum fd3];;
     fail "%s: read %d bytes, wanted 0" [str s; ANum n.1]
   else mret tt);;
  n ← call (Read fd2 32);
  (if negb (n.1 =? 0) then
     printf "bbb fd2=%d" [ANum fd2];;
     fail "%s: read %d bytes, wanted 0" [str s; ANum n.1]
   else mret tt);;
  call (Write fd1 (bytes_of "abcdef"));;
  n ← call (Read fd3 32);
  reject (negb (n.1 =? 6)) "%s: read %d bytes, wanted 6" [str s; ANum n.1];;
  n ← call (Read fd2 32);
  reject (negb (n.1 =? 2)) "%s: read %d bytes, wanted 2" [str s; ANum n.1];;
  call (Unlink f);;
  call (Close fd1);;
  call (Close fd2);;
  call (Close fd3);;
  mret tt.

Definition truncate2 (s : list byte) : P unit :=
  let f := bytes_of "truncfile" in
  call (Unlink f);;
  fd1 ← call (Open f (Z.lor (Z.lor O_CREATE O_TRUNC) O_WRONLY));
  call (Write fd1 (bytes_of "abcd"));;
  fd2 ← call (Open f (Z.lor O_TRUNC O_WRONLY));
  n ← call (Write fd1 (bytes_of "x"));
  reject (negb (n =? -1)) "%s: write returned %d, expected -1" [str s; ANum n];;
  call (Unlink f);;
  call (Close fd1);;
  call (Close fd2);;
  mret tt.

Definition truncate3_child (s : list byte) : P unit :=
  let f := bytes_of "truncfile" in
  times 100 (fun _ =>
    fd ← call (Open f O_WRONLY);
    reject (fd <? 0) "%s: open failed" [str s];;
    n ← call (Write fd (bytes_of "1234567890"));
    reject (negb (n =? 10)) "%s: write got %d, expected 10" [str s; ANum n];;
    call (Close fd);;
    fd ← call (Open f O_RDONLY);
    call (Read fd 32);;
    call (Close fd);;
    mret tt);;
  exit 0.

Definition truncate3 (s : list byte) : P unit :=
  let f := bytes_of "truncfile" in
  touch f (Z.lor (Z.lor O_CREATE O_TRUNC) O_WRONLY);;
  pid ← call Fork;
  reject (pid <? 0) "%s: fork failed" [str s];;
  if pid =? 0 then truncate3_child s
  else
    times 150 (fun _ =>
      fd ← call (Open f (Z.lor (Z.lor O_CREATE O_WRONLY) O_TRUNC));
      reject (fd <? 0) "%s: open failed" [str s];;
      n ← call (Write fd (bytes_of "xxx"));
      reject (negb (n =? 3)) "%s: write got %d, expected 3" [str s; ANum n];;
      call (Close fd);;
      mret tt);;
    xstatus ← wait_status;
    call (Unlink f);;
    exit xstatus.

(** ** Directories that go away *)

Definition iputtest (s : list byte) : P unit :=
  r ← call (Mkdir (bytes_of "iputdir"));
  reject (r <? 0) "%s: mkdir failed" [str s];;
  r ← call (Chdir (bytes_of "iputdir"));
  reject (r <? 0) "%s: chdir iputdir failed" [str s];;
  r ← call (Unlink (bytes_of "../iputdir"));
  reject (r <? 0) "%s: unlink ../iputdir failed" [str s];;
  r ← call (Chdir (bytes_of "/"));
  reject (r <? 0) "%s: chdir / failed" [str s].

Definition exitiputtest (s : list byte) : P unit :=
  pid ← call Fork;
  reject (pid <? 0) "%s: fork failed" [str s];;
  if pid =? 0 then
    r ← call (Mkdir (bytes_of "iputdir"));
    reject (r <? 0) "%s: mkdir failed" [str s];;
    r ← call (Chdir (bytes_of "iputdir"));
    reject (r <? 0) "%s: child chdir failed" [str s];;
    r ← call (Unlink (bytes_of "../iputdir"));
    reject (r <? 0) "%s: unlink ../iputdir failed" [str s];;
    exit 0
  else
    xstatus ← wait_status;
    exit xstatus.

Definition openiputtest (s : list byte) : P unit :=
  r ← call (Mkdir (bytes_of "oidir"));
  reject (r <? 0) "%s: mkdir oidir failed" [str s];;
  pid ← call Fork;
  reject (pid <? 0) "%s: fork failed" [str s];;
  if pid =? 0 then
    fd ← call (Open (bytes_of "oidir") O_RDWR);
    reject (0 <=? fd) "%s: open directory for write succeeded" [str s];;
    exit 0
  else
    call (Pause 1);;
    r ← call (Unlink (bytes_of "oidir"));
    reject (negb (r =? 0)) "%s: unlink failed" [str s];;
    xstatus ← wait_status;
    exit xstatus.

(** ** Simple files *)

Definition opentest (s : list byte) : P unit :=
  fd ← call (Open (bytes_of "echo") 0);
  reject (fd <? 0) "%s: open echo failed!" [str s];;
  call (Close fd);;
  fd ← call (Open (bytes_of "doesnotexist") 0);
  reject (0 <=? fd) "%s: open doesnotexist succeeded!" [str s].

Definition writetest (s : list byte) : P unit :=
  fd ← call (Open (bytes_of "small") (Z.lor O_CREATE O_RDWR));
  reject (fd <? 0) "%s: error: creat small failed!" [str s];;
  times 100 (fun i =>
    r ← call (Write fd (bytes_of "aaaaaaaaaa"));
    reject (negb (r =? 10)) "%s: error: write aa %d new file failed" [str s; ANum i];;
    r ← call (Write fd (bytes_of "bbbbbbbbbb"));
    reject (negb (r =? 10)) "%s: error: write bb %d new file failed" [str s; ANum i]);;
  call (Close fd);;
  fd ← call (Open (bytes_of "small") O_RDONLY);
  reject (fd <? 0) "%s: error: open small failed!" [str s];;
  i ← call (Read fd 2000);
  reject (negb (i.1 =? 2000)) "%s: read failed" [str s];;
  call (Close fd);;
  r ← call (Unlink (bytes_of "small"));
  reject (r <? 0) "%s: unlink small failed" [str s].

Definition writebig (s : list byte) : P unit :=
  fd ← call (Open (bytes_of "big") (Z.lor O_CREATE O_RDWR));
  reject (fd <? 0) "%s: error: creat big failed!" [str s];;
  times MAXFILE (fun i =>
    r ← call (Write fd (LittleEndianList.le_split 4 i ++ replicate (Z.to_nat (BSIZE - 4)) (chr 0)));
    reject (negb (r =? BSIZE)) "%s: error: write big file failed i=%d" [str s; ANum i]);;
  call (Close fd);;
  fd ← call (Open (bytes_of "big") O_RDONLY);
  reject (fd <? 0) "%s: error: open big failed!" [str s];;
  loop_with (fun n =>
    i ← call (Read fd BSIZE);
    if i.1 =? 0 then
      reject_ (negb (n =? MAXFILE)) "%s: read only %d blocks from big" [str s; ANum n];;
      mret (inr tt)
    else
      reject (negb (i.1 =? BSIZE)) "%s: read failed %d" [str s; ANum i.1];;
      let x := i32 (LittleEndianList.le_combine (take 4 i.2)) in
      reject (negb (x =? n)) "%s: read content of block %d is %d" [str s; ANum n; ANum x];;
      mret (inl (n + 1))) 0;;
  call (Close fd);;
  r ← call (Unlink (bytes_of "big"));
  reject (r <? 0) "%s: unlink big failed" [str s].

Definition createtest (s : list byte) : P unit :=
  times 52 (fun i => touch [chr 97; digit_char i] (Z.lor O_CREATE O_RDWR));;
  times 52 (fun i => call (Unlink [chr 97; digit_char i]);; mret tt).

Definition dirtest (s : list byte) : P unit :=
  r ← call (Mkdir (bytes_of "dir0"));
  reject (r <? 0) "%s: mkdir failed" [str s];;
  r ← call (Chdir (bytes_of "dir0"));
  reject (r <? 0) "%s: chdir dir0 failed" [str s];;
  r ← call (Chdir (bytes_of ".."));
  reject (r <? 0) "%s: chdir .. failed" [str s];;
  r ← call (Unlink (bytes_of "dir0"));
  reject (r <? 0) "%s: unlink dir0 failed" [str s].

(** ** Links *)

(** The second write is of [buf], the five bytes read and zeros. *)
Definition unlinkread (s : list byte) : P unit :=
  let f := bytes_of "unlinkread" in
  fd ← call (Open f (Z.lor O_CREATE O_RDWR));
  reject (fd <? 0) "%s: create unlinkread failed" [str s];;
  call (Write fd (bytes_of "hello"));;
  call (Close fd);;
  fd ← call (Open f O_RDWR);
  reject (fd <? 0) "%s: open unlinkread failed" [str s];;
  r ← call (Unlink f);
  reject (negb (r =? 0)) "%s: unlink unlinkread failed" [str s];;
  fd1 ← call (Open f (Z.lor O_CREATE O_RDWR));
  call (Write fd1 (bytes_of "yyy"));;
  call (Close fd1);;
  r ← call (Read fd BUFSZ);
  reject_ (negb (r.1 =? 5)) "%s: unlinkread read failed" [str s];;
  reject (bool_decide (default (chr 0) (head r.2) <> chr 104)) "%s: unlinkread wrong data" [str s];;
  w ← call (Write fd (take 10 (r.2 ++ replicate 10 (chr 0))));
  reject (negb (w =? 10)) "%s: unlinkread write failed" [str s];;
  call (Close fd);;
  call (Unlink f);;
  mret tt.

Definition linktest (s : list byte) : P unit :=
  let lf1 := bytes_of "lf1" in
  let lf2 := bytes_of "lf2" in
  call (Unlink lf1);;
  call (Unlink lf2);;
  fd ← call (Open lf1 (Z.lor O_CREATE O_RDWR));
  reject (fd <? 0) "%s: create lf1 failed" [str s];;
  r ← call (Write fd (bytes_of "hello"));
  reject (negb (r =? 5)) "%s: write lf1 failed" [str s];;
  call (Close fd);;
  r ← call (Link lf1 lf2);
  reject (r <? 0) "%s: link lf1 lf2 failed" [str s];;
  call (Unlink lf1);;
  r ← call (Open lf1 0);
  reject (0 <=? r) "%s: unlinked lf1 but it is still there!" [str s];;
  fd ← call (Open lf2 0);
  reject (fd <? 0) "%s: open lf2 failed" [str s];;
  r ← call (Read fd BUFSZ);
  reject (negb (r.1 =? 5)) "%s: read lf2 failed" [str s];;
  call (Close fd);;
  r ← call (Link lf2 lf2);
  reject (0 <=? r) "%s: link lf2 lf2 succeeded! oops" [str s];;
  call (Unlink lf2);;
  r ← call (Link lf2 lf1);
  reject (0 <=? r) "%s: link non-existent succeeded! oops" [str s];;
  r ← call (Link (bytes_of ".") lf1);
  reject (0 <=? r) "%s: link . lf1 succeeded! oops" [str s].

(** ** Directories *)

(** [if(call bad){ printf(msg, s); exit(1); }] for a call that should give 0,
    should not, should fail, or should not fail. *)
Definition zero (s : list byte) (c : sysE Z) (fmt : string) : P unit := r ← call c; reject (negb (r =? 0)) fmt [str s].
Definition nonzero (s : list byte) (c : sysE Z) (fmt : string) : P unit := r ← call c; reject (r =? 0) fmt [str s].
Definition negative (s : list byte) (c : sysE Z) (fmt : string) : P unit := r ← call c; reject (0 <=? r) fmt [str s].
Definition natural (s : list byte) (c : sysE Z) (fmt : string) : P unit := r ← call c; reject (r <? 0) fmt [str s].

(** The files dd/ff, dd/dd/ff and dd/dd/ffff are made. *)
Definition subdir_make (s : list byte) : P unit :=
  call (Unlink (bytes_of "ff"));;
  zero s (Mkdir (bytes_of "dd")) "%s: mkdir dd failed";;
  fd ← call (Open (bytes_of "dd/ff") (Z.lor O_CREATE O_RDWR));
  reject (fd <? 0) "%s: create dd/ff failed" [str s];;
  call (Write fd (bytes_of "ff"));;
  call (Close fd);;
  negative s (Unlink (bytes_of "dd")) "%s: unlink dd (non-empty dir) succeeded!";;
  zero s (Mkdir (bytes_of "/dd/dd")) "%s: subdir mkdir dd/dd failed";;
  fd ← call (Open (bytes_of "dd/dd/ff") (Z.lor O_CREATE O_RDWR));
  reject (fd <? 0) "%s: create dd/dd/ff failed" [str s];;
  call (Write fd (bytes_of "FF"));;
  call (Close fd);;
  fd ← call (Open (bytes_of "dd/dd/../ff") 0);
  reject (fd <? 0) "%s: open dd/dd/../ff failed" [str s];;
  cc ← call (Read fd BUFSZ);
  reject (negb (cc.1 =? 2) || bool_decide (default (chr 0) (head cc.2) <> chr 102)) "%s: dd/dd/../ff wrong content" [str s];;
  call (Close fd);;
  zero s (Link (bytes_of "dd/dd/ff") (bytes_of "dd/dd/ffff")) "%s: link dd/dd/ff dd/dd/ffff failed";;
  zero s (Unlink (bytes_of "dd/dd/ff")) "%s: unlink dd/dd/ff failed";;
  negative s (Open (bytes_of "dd/dd/ff") O_RDONLY) "%s: open (unlinked) dd/dd/ff succeeded".

(** Paths with dots. *)
Definition subdir_walk (s : list byte) : P unit :=
  zero s (Chdir (bytes_of "dd")) "%s: chdir dd failed";;
  zero s (Chdir (bytes_of "dd/../../dd")) "%s: chdir dd/../../dd failed";;
  zero s (Chdir (bytes_of "dd/../../../dd")) "%s: chdir dd/../../../dd failed";;
  zero s (Chdir (bytes_of "./..")) "%s: chdir ./.. failed";;
  fd ← call (Open (bytes_of "dd/dd/ffff") 0);
  reject (fd <? 0) "%s: open dd/dd/ffff failed" [str s];;
  r ← call (Read fd BUFSZ);
  reject (negb (r.1 =? 2)) "%s: read dd/dd/ffff wrong len" [str s];;
  call (Close fd);;
  negative s (Open (bytes_of "dd/dd/ff") O_RDONLY) "%s: open (unlinked) dd/dd/ff succeeded!".

(** What should fail. *)
Definition subdir_errors (s : list byte) : P unit :=
  negative s (Open (bytes_of "dd/ff/ff") (Z.lor O_CREATE O_RDWR)) "%s: create dd/ff/ff succeeded!";;
  negative s (Open (bytes_of "dd/xx/ff") (Z.lor O_CREATE O_RDWR)) "%s: create dd/xx/ff succeeded!";;
  negative s (Open (bytes_of "dd") O_CREATE) "%s: create dd succeeded!";;
  negative s (Open (bytes_of "dd") O_RDWR) "%s: open dd rdwr succeeded!";;
  negative s (Open (bytes_of "dd") O_WRONLY) "%s: open dd wronly succeeded!";;
  nonzero s (Link (bytes_of "dd/ff/ff") (bytes_of "dd/dd/xx")) "%s: link dd/ff/ff dd/dd/xx succeeded!";;
  nonzero s (Link (bytes_of "dd/xx/ff") (bytes_of "dd/dd/xx")) "%s: link dd/xx/ff dd/dd/xx succeeded!";;
  nonzero s (Link (bytes_of "dd/ff") (bytes_of "dd/dd/ffff")) "%s: link dd/ff dd/dd/ffff succeeded!";;
  nonzero s (Mkdir (bytes_of "dd/ff/ff")) "%s: mkdir dd/ff/ff succeeded!";;
  nonzero s (Mkdir (bytes_of "dd/xx/ff")) "%s: mkdir dd/xx/ff succeeded!";;
  nonzero s (Mkdir (bytes_of "dd/dd/ffff")) "%s: mkdir dd/dd/ffff succeeded!";;
  nonzero s (Unlink (bytes_of "dd/xx/ff")) "%s: unlink dd/xx/ff succeeded!";;
  nonzero s (Unlink (bytes_of "dd/ff/ff")) "%s: unlink dd/ff/ff succeeded!";;
  nonzero s (Chdir (bytes_of "dd/ff")) "%s: chdir dd/ff succeeded!";;
  nonzero s (Chdir (bytes_of "dd/xx")) "%s: chdir dd/xx succeeded!".

Definition subdir (s : list byte) : P unit :=
  subdir_make s;;
  subdir_walk s;;
  subdir_errors s;;
  zero s (Unlink (bytes_of "dd/dd/ffff")) "%s: unlink dd/dd/ff failed";;
  zero s (Unlink (bytes_of "dd/ff")) "%s: unlink dd/ff failed";;
  nonzero s (Unlink (bytes_of "dd")) "%s: unlink non-empty dd succeeded!";;
  natural s (Unlink (bytes_of "dd/dd")) "%s: unlink dd/dd failed";;
  natural s (Unlink (bytes_of "dd")) "%s: unlink dd failed".

Definition rmdot (s : list byte) : P unit :=
  zero s (Mkdir (bytes_of "dots")) "%s: mkdir dots failed";;
  zero s (Chdir (bytes_of "dots")) "%s: chdir dots failed";;
  nonzero s (Unlink (bytes_of ".")) "%s: rm . worked!";;
  nonzero s (Unlink (bytes_of "..")) "%s: rm .. worked!";;
  zero s (Chdir (bytes_of "/")) "%s: chdir / failed";;
  nonzero s (Unlink (bytes_of "dots/.")) "%s: unlink dots/. worked!";;
  nonzero s (Unlink (bytes_of "dots/..")) "%s: unlink dots/.. worked!";;
  zero s (Unlink (bytes_of "dots")) "%s: unlink dots failed!".

Definition dirfile (s : list byte) : P unit :=
  fd ← call (Open (bytes_of "dirfile") O_CREATE);
  reject (fd <? 0) "%s: create dirfile failed" [str s];;
  call (Close fd);;
  nonzero s (Chdir (bytes_of "dirfile")) "%s: chdir dirfile succeeded!";;
  negative s (Open (bytes_of "dirfile/xx") 0) "%s: create dirfile/xx succeeded!";;
  negative s (Open (bytes_of "dirfile/xx") O_CREATE) "%s: create dirfile/xx succeeded!";;
  nonzero s (Mkdir (bytes_of "dirfile/xx")) "%s: mkdir dirfile/xx succeeded!";;
  nonzero s (Unlink (bytes_of "dirfile/xx")) "%s: unlink dirfile/xx succeeded!";;
  nonzero s (Link (bytes_of "README") (bytes_of "dirfile/xx")) "%s: link to dirfile/xx succeeded!";;
  zero s (Unlink (bytes_of "dirfile")) "%s: unlink dirfile failed!";;
  negative s (Open (bytes_of ".") O_RDWR) "%s: open . for writing succeeded!";;
  fd ← call (Open (bytes_of ".") 0);
  r ← call (Write fd (bytes_of "x"));
  reject (0 <? r) "%s: write . succeeded!" [str s];;
  call (Close fd);;
  mret tt.

Definition fourteen (s : list byte) : P unit :=
  zero s (Mkdir (bytes_of "12345678901234")) "%s: mkdir 12345678901234 failed";;
  zero s (Mkdir (bytes_of "12345678901234/123456789012345")) "%s: mkdir 12345678901234/123456789012345 failed";;
  fd ← call (Open (bytes_of "123456789012345/123456789012345/123456789012345") O_CREATE);
  reject (fd <? 0) "%s: create 123456789012345/123456789012345/123456789012345 failed" [str s];;
  call (Close fd);;
  fd ← call (Open (bytes_of "12345678901234/12345678901234/12345678901234") 0);
  reject (fd <? 0) "%s: open 12345678901234/12345678901234/12345678901234 failed" [str s];;
  call (Close fd);;
  nonzero s (Mkdir (bytes_of "12345678901234/12345678901234")) "%s: mkdir 12345678901234/12345678901234 succeeded!";;
  nonzero s (Mkdir (bytes_of "123456789012345/12345678901234")) "%s: mkdir 12345678901234/123456789012345 succeeded!";;
  call (Unlink (bytes_of "123456789012345/12345678901234"));;
  call (Unlink (bytes_of "12345678901234/12345678901234"));;
  call (Unlink (bytes_of "12345678901234/12345678901234/12345678901234"));;
  call (Unlink (bytes_of "123456789012345/123456789012345/123456789012345"));;
  call (Unlink (bytes_of "12345678901234/123456789012345"));;
  call (Unlink (bytes_of "12345678901234"));;
  mret tt.

Definition iref (s : list byte) : P unit :=
  times (NINODE + 1) (fun _ =>
    zero s (Mkdir (bytes_of "irefd")) "%s: mkdir irefd failed";;
    zero s (Chdir (bytes_of "irefd")) "%s: chdir irefd failed";;
    call (Mkdir []);;
    call (Link (bytes_of "README") []);;
    fd ← call (Open [] O_CREATE);
    (if 0 <=? fd then call (Close fd) else mret 0);;
    fd ← call (Open (bytes_of "xx") O_CREATE);
    (if 0 <=? fd then call (Close fd) else mret 0);;
    call (Unlink (bytes_of "xx"));;
    mret tt);;
  times (NINODE + 1) (fun _ =>
    call (Chdir (bytes_of ".."));;
    call (Unlink (bytes_of "irefd"));;
    mret tt);;
  call (Chdir (bytes_of "/"));;
  mret tt.

(** ** Large writes *)

(** [for(sz = 499; sz < (MAXOPBLOCKS+2)*BSIZE; sz += 471)] *)
Definition bigwrite (s : list byte) : P unit :=
  let f := bytes_of "bigwrite" in
  call (Unlink f);;
  loop_with (fun sz =>
    if sz <? (MAXOPBLOCKS + 2) * BSIZE then
      fd ← call (Open f (Z.lor O_CREATE O_RDWR));
      reject (fd <? 0) "%s: cannot create bigwrite" [str s];;
      times 2 (fun _ =>
        cc ← call (Write fd (replicate (Z.to_nat sz) (chr 0)));
        reject (negb (cc =? sz)) "%s: write(%d) ret %d" [str s; ANum sz; ANum cc]);;
      call (Close fd);;
      call (Unlink f);;
      mret (inl (sz + 471))
    else mret (inr tt)) 499.

(** The sum of what was read, [i] the number of the read. *)
Definition bigfile_read (s : list byte) (fd : Z) : P Z :=
  loop_with (fun it : Z * Z =>
    let '(i, total) := it in
    cc ← call (Read fd 300);
    reject (cc.1 <? 0) "%s: read bigfile failed" [str s];;
    if cc.1 =? 0 then mret (inr total)
    else
      reject (negb (cc.1 =? 300)) "%s: short read bigfile" [str s];;
      reject (negb (cv (nth 0 cc.2 (chr 0)) =? i / 2) || negb (cv (nth 299 cc.2 (chr 0)) =? i / 2)) "%s: read bigfile wrong data" [str s];;
      mret (inl (i + 1, total + cc.1))) (0, 0).

Definition bigfile (s : list byte) : P unit :=
  let f := bytes_of "bigfile.dat" in
  call (Unlink f);;
  fd ← call (Open f (Z.lor O_CREATE O_RDWR));
  reject_ (fd <? 0) "%s: cannot create bigfile" [str s];;
  times 20 (fun i =>
    r ← call (Write fd (replicate 600 (chr i)));
    reject (negb (r =? 600)) "%s: write bigfile failed" [str s]);;
  call (Close fd);;
  fd ← call (Open f 0);
  reject (fd <? 0) "%s: cannot open bigfile" [str s];;
  total ← bigfile_read s fd;
  call (Close fd);;
  reject (negb (total =? 20 * 600)) "%s: read bigfile wrong total" [str s];;
  call (Unlink f);;
  mret tt.

(** ** Running out of blocks and inodes *)

Definition fsfull_name (n : Z) : list byte :=
  [chr 102; digit_char (n / 1000); digit_char (n mod 1000 / 100); digit_char (n mod 100 / 10); digit_char (n mod 10)].

(** [while(1){ cc = write(fd, buf, BSIZE); if(cc < BSIZE) break; ... }] *)
Definition fsfull_fill (fd : Z) : P Z :=
  loop_with (fun total =>
    cc ← call (Write fd (replicate (Z.to_nat BSIZE) (chr 0)));
    mret (if cc <? BSIZE then inr total else inl (total + cc))) 0.

Definition fsfull : P unit :=
  printf "fsfull test" [];;
  nfiles ← loop_with (fun nfiles =>
    let name := fsfull_name nfiles in
    printf "writing %s" [str name];;
    fd ← call (Open name (Z.lor O_CREATE O_RDWR));
    if fd <? 0 then
      printf "open %s failed" [str name];;
      mret (inr nfiles)
    else
      total ← fsfull_fill fd;
      printf "wrote %d bytes" [ANum total];;
      call (Close fd);;
      mret (if total =? 0 then inr nfiles else inl (nfiles + 1))) 0;
  loop_with (fun n =>
    if 0 <=? n then
      call (Unlink (fsfull_name n));;
      mret (inl (n - 1))
    else mret (inr tt)) nfiles;;
  printf "fsfull test finished" [].

Definition bigdir_name (i : Z) : list byte := [chr 120; digit_char (i / 64); digit_char (i mod 64)].

Definition bigdir (s : list byte) : P unit :=
  call (Unlink (bytes_of "bd"));;
  fd ← call (Open (bytes_of "bd") O_CREATE);
  reject (fd <? 0) "%s: bigdir create failed" [str s];;
  call (Close fd);;
  times 500 (fun i =>
    r ← call (Link (bytes_of "bd") (bigdir_name i));
    reject (negb (r =? 0)) "%s: bigdir i=%d link(bd, %s) failed" [str s; ANum i; str (bigdir_name i)]);;
  call (Unlink (bytes_of "bd"));;
  times 500 (fun i =>
    r ← call (Unlink (bigdir_name i));
    reject_ (negb (r =? 0)) "%s: bigdir unlink failed" [str s]).

Definition badwrite (s : list byte) : P unit :=
  let junk := bytes_of "junk" in
  call (Unlink junk);;
  times 600 (fun _ =>
    fd ← call (Open junk (Z.lor O_CREATE O_WRONLY));
    reject (fd <? 0) "open junk failed" [];;
    mcall (WriteAt fd 0xffffffffff 1);;
    call (Close fd);;
    call (Unlink junk);;
    mret tt);;
  fd ← call (Open junk (Z.lor O_CREATE O_WRONLY));
  reject (fd <? 0) "open junk failed" [];;
  r ← call (Write fd (bytes_of "x"));
  reject (negb (r =? 1)) "write failed" [];;
  call (Close fd);;
  call (Unlink junk);;
  exit 0.

Definition zz_name (i : Z) : list byte := [chr 122; chr 122; digit_char (i / 32); digit_char (i mod 32)].
Definition big_name (i : Z) : list byte := bytes_of "big" ++ [digit_char i].

(** The files zz.. are created until one fails. *)
Definition make_zz (nzz : Z) : P unit :=
  for_break (Z.to_nat nzz) 0 (fun i =>
    call (Unlink (zz_name i));;
    fd ← call (Open (zz_name i) (Z.lor (Z.lor O_CREATE O_RDWR) O_TRUNC));
    if fd <? 0 then mret true
    else
      call (Close fd);;
      mret false);;
  mret tt.
Definition unlink_zz (nzz : Z) : P unit := times nzz (fun i => call (Unlink (zz_name i));; mret tt).

(** The array that is written here is a local one with no values; its
    contents play no part.  The inner loop closes the file when a write
    fails, and it is closed again after it. *)
Definition diskfull_file (s : list byte) (content : list byte) (fi : Z) : P bool :=
  let name := big_name fi in
  call (Unlink name);;
  fd ← call (Open name (Z.lor (Z.lor O_CREATE O_RDWR) O_TRUNC));
  if fd <? 0 then
    printf "%s: could not create file %s" [str s; str name];;
    mret true
  else
    i ← for_break (Z.to_nat MAXFILE) 0 (fun _ =>
      r ← call (Write fd content);
      if negb (r =? BSIZE) then
        call (Close fd);;
        mret true
      else mret false);
    call (Close fd);;
    mret (i <? MAXFILE).

(** [for(fi = 0; done == 0 && '0' + fi < 0177; fi++)] *)
Definition diskfull (content : list byte) (s : list byte) : P unit :=
  call (Unlink (bytes_of "diskfulldir"));;
  for_break (Z.to_nat (127 - 48)) 0 (diskfull_file s content);;
  make_zz 128;;
  r ← call (Mkdir (bytes_of "diskfulldir"));
  (if r =? 0 then printf "%s: mkdir(diskfulldir) unexpectedly succeeded!" [str s] else mret tt);;
  call (Unlink (bytes_of "diskfulldir"));;
  unlink_zz 128;;
  times (127 - 48) (fun i => call (Unlink (big_name i));; mret tt).

Definition outofinodes (s : list byte) : P unit :=
  make_zz (32 * 32);;
  unlink_zz (32 * 32).
End tests.
