(* ===== verification/UsertestsProc.v ===== *)
(** * UsertestsProc: user/usertests.c, processes

    The tests of user/usertests.c that fork: exit, wait and kill, pipes, and
    several processes in the file system at once.  [Fork] gives 0 in the child. *)

From ITree Require Import Core.ITreeDefinition Interp.Recursion Indexed.Sum Core.Subevent.
From S2P Require Import Prelude Riscv Layout Bio Fs File Syscall Printf Tools User TestLib UsertestsFs.

Section tests.
Context {E : Type -> Type} `{sysE -< E} `{memE -< E}.
Local Abbreviation P := (itree E).

(** ** Programs and pipes *)

Definition exectest_child (s : list byte) : P unit :=
  call (Close 1);;
  fd ← call (Open (bytes_of "echo-ok") (Z.lor O_CREATE O_WRONLY));
  reject (fd <? 0) "%s: create failed" [str s];;
  reject (negb (fd =? 1)) "%s: wrong fd" [str s];;
  r ← call (Exec (bytes_of "echo") [bytes_of "echo"; bytes_of "OK"]);
  reject (r <? 0) "%s: exec echo failed" [str s].

(** A child whose [exec] returned something else would go on as the parent. *)
Definition exectest (s : list byte) : P unit :=
  call (Unlink (bytes_of "echo-ok"));;
  pid ← call Fork;
  reject (pid <? 0) "%s: fork failed" [str s];;
  (if pid =? 0 then exectest_child s else mret tt);;
  w ← call Wait;
  (if negb (w.1 =? pid) then printf "%s: wait failed!" [str s] else mret tt);;
  xstatus ← (if w.1 <? 0 then undefined else mret w.2);
  (if negb (xstatus =? 0) then exit xstatus else mret tt);;
  fd ← call (Open (bytes_of "echo-ok") O_RDONLY);
  reject (fd <? 0) "%s: open failed" [str s];;
  r ← call (Read fd 2);
  reject (negb (r.1 =? 2)) "%s: read failed" [str s];;
  call (Unlink (bytes_of "echo-ok"));;
  if bool_decide (r.2 = bytes_of "OK") then exit 0 else fail "%s: wrong output" [str s].

(** The child sends 5 times 1033 bytes, numbered modulo 256. *)
Definition pipe1_send (s : list byte) (fd : Z) : P unit :=
  times 5 (fun n =>
    r ← call (Write fd ((fun i => chr ((n * 1033 + i) mod 256)) <$> seqZ 0 1033));
    reject (negb (r =? 1033)) "%s: pipe1 oops 1" [str s]);;
  exit 0.

(** [while((n = read(fds[0], buf, cc)) > 0)]: [None] when a byte is wrong. *)
Definition pipe1_receive (s : list byte) (fd : Z) : P (option Z) :=
  loop_with (fun st : Z * Z =>
    let '(cc, total) := st in
    n ← call (Read fd cc);
    if 0 <? n.1 then
      if bool_decide (n.2 = (fun i => chr ((total + i) mod 256)) <$> seqZ 0 n.1) then
        mret (inl (Z.min (cc * 2) BUFSZ, total + n.1))
      else
        printf "%s: pipe1 oops 2" [str s];;
        mret (inr None)
    else mret (inr (Some total))) (1, 0).

Definition pipe1 (s : list byte) : P unit :=
  fds ← call Pipe;
  reject (negb (fds.1 =? 0)) "%s: pipe() failed" [str s];;
  pid ← call Fork;
  if pid =? 0 then
    call (Close fds.2.1);;
    pipe1_send s fds.2.2
  else if 0 <? pid then
    call (Close fds.2.2);;
    total ← pipe1_receive s fds.2.1;
    match total with
    | None => mret tt
    | Some total =>
        reject (negb (total =? 5 * 1033)) "%s: pipe1 oops 3 total %d" [str s; ANum total];;
        call (Close fds.2.1);;
        xstatus ← wait_status;
        exit xstatus
    end
  else fail "%s: fork() failed" [str s].

(** ** exit, wait, kill *)

Definition killstatus (s : list byte) : P unit :=
  times 100 (fun _ =>
    pid1 ← call Fork;
    reject (pid1 <? 0) "%s: fork failed" [str s];;
    if pid1 =? 0 then loop (mcall Getpid;; mret None)
    else
      call (Pause 1);;
      call (Kill pid1);;
      xst ← wait_status;
      reject (negb (xst =? -1)) "%s: status should be -1" [str s]);;
  exit 0.

Definition preempt (s : list byte) : P unit :=
  pid1 ← call Fork;
  reject_ (pid1 <? 0) "%s: fork failed" [str s];;
  if pid1 =? 0 then spin
  else
    pid2 ← call Fork;
    reject (pid2 <? 0) "%s: fork failed" [str s];;
    if pid2 =? 0 then spin
    else
      pfds ← call Pipe;
      pid3 ← call Fork;
      reject (pid3 <? 0) "%s: fork failed" [str s];;
      if pid3 =? 0 then
        call (Close pfds.2.1);;
        r ← call (Write pfds.2.2 (bytes_of "x"));
        (if negb (r =? 1) then printf_ "%s: preempt write error" [str s] else mret tt);;
        call (Close pfds.2.2);;
        spin
      else
        call (Close pfds.2.2);;
        r ← call (Read pfds.2.1 BUFSZ);
        if negb (r.1 =? 1) then printf_ "%s: preempt read error" [str s]
        else
          call (Close pfds.2.1);;
          printf_ "kill... " [];;
          call (Kill pid1);;
          call (Kill pid2);;
          call (Kill pid3);;
          printf_ "wait... " [];;
          wait_null;;
          wait_null;;
          wait_null;;
          mret tt.

Definition exitwait (s : list byte) : P unit :=
  times 100 (fun i =>
    pid ← call Fork;
    reject (pid <? 0) "%s: fork failed" [str s];;
    if negb (pid =? 0) then
      w ← call Wait;
      reject (negb (w.1 =? pid)) "%s: wait wrong pid" [str s];;
      reject (negb (i =? w.2)) "%s: wait wrong exit status" [str s]
    else exit i).

Definition reparent (s : list byte) : P unit :=
  master_pid ← mcall Getpid;
  times 200 (fun _ =>
    pid ← call Fork;
    reject (pid <? 0) "%s: fork failed" [str s];;
    if negb (pid =? 0) then
      w ← wait_null;
      reject (negb (w =? pid)) "%s: wait wrong pid" [str s]
    else
      pid2 ← call Fork;
      if pid2 <? 0 then
        call (Kill master_pid);;
        exit 1
      else exit 0);;
  exit 0.

Definition twochildren (s : list byte) : P unit :=
  times 1000 (fun _ =>
    pid1 ← call Fork;
    reject (pid1 <? 0) "%s: fork failed" [str s];;
    if pid1 =? 0 then exit 0
    else
      pid2 ← call Fork;
      reject (pid2 <? 0) "%s: fork failed" [str s];;
      if pid2 =? 0 then exit 0
      else
        wait_null;;
        wait_null;;
        mret tt).

Definition forkfork (s : list byte) : P unit :=
  times 2 (fun _ =>
    pid ← call Fork;
    reject_ (pid <? 0) "%s: fork failed" [str s];;
    if pid =? 0 then
      times 200 (fun _ =>
        pid1 ← call Fork;
        if pid1 <? 0 then exit 1
        else if pid1 =? 0 then exit 0
        else
          wait_null;;
          mret tt);;
      exit 0
    else mret tt);;
  wait_each 2 None (fun xstatus => reject_ (negb (xstatus =? 0)) "%s: fork in child failed" [str s]).

Definition forkforkfork (s : list byte) : P unit :=
  let f := bytes_of "stopforking" in
  call (Unlink f);;
  pid ← call Fork;
  reject_ (pid <? 0) "%s: fork failed" [str s];;
  if pid =? 0 then
    loop (
      fd ← call (Open f 0);
      if 0 <=? fd then exit 0
      else
        r ← call Fork;
        (if r <? 0 then touch f (Z.lor O_CREATE O_RDWR) else mret tt);;
        mret None)
  else
    call (Pause 20);;
    touch f (Z.lor O_CREATE O_RDWR);;
    wait_null;;
    call (Pause 10);;
    mret tt.

Definition reparent2 (s : list byte) : P unit :=
  times 800 (fun _ =>
    pid1 ← call Fork;
    reject (pid1 <? 0) "fork failed" [];;
    if pid1 =? 0 then
      call Fork;;
      call Fork;;
      exit 0
    else
      wait_null;;
      mret tt);;
  exit 0.

Definition forktest (s : list byte) : P unit :=
  n ← for_break 1000 0 (fun _ =>
    pid ← call Fork;
    if pid <? 0 then mret true
    else if pid =? 0 then exit 0
    else mret false);
  reject (n =? 0) "%s: no fork at all!" [str s];;
  reject (n =? 1000) "%s: fork claimed to work 1000 times!" [str s];;
  times n (fun _ =>
    w ← wait_null;
    reject (w <? 0) "%s: wait stopped early" [str s]);;
  w ← wait_null;
  reject (negb (w =? -1)) "%s: wait got too many" [str s].

(** ** Several processes and the file system *)

Definition count_char (c : byte) (l : list byte) : Z := Z.of_nat (length (filter (fun x => x = c) l)).

(** [while((n = read(fd, buf, sizeof(buf))) > 0)] *)
Definition sharedfd_count (fd : Z) (buf : list byte) : P (Z * Z) :=
  loop_with (fun st : list byte * Z * Z =>
    let '(buf, nc, np) := st in
    n ← call (Read fd 10);
    if 0 <? n.1 then
      let buf := into n.2 buf in
      mret (inl (buf, nc + count_char (chr 99) buf, np + count_char (chr 112) buf))
    else mret (inr (nc, np))) (buf, 0, 0).

Definition sharedfd (s : list byte) : P unit :=
  let f := bytes_of "sharedfd" in
  call (Unlink f);;
  fd ← call (Open f (Z.lor O_CREATE O_RDWR));
  reject_ (fd <? 0) "%s: cannot open sharedfd for writing" [str s];;
  pid ← call Fork;
  let buf := replicate 10 (if pid =? 0 then chr 99 else chr 112) in
  times 1000 (fun _ =>
    r ← call (Write fd buf);
    reject (negb (r =? 10)) "%s: write sharedfd failed" [str s]);;
  (if pid =? 0 then exit 0
   else
     xstatus ← wait_status;
     if negb (xstatus =? 0) then exit xstatus else mret tt);;
  call (Close fd);;
  fd ← call (Open f 0);
  reject (fd <? 0) "%s: cannot open sharedfd for reading" [str s];;
  r ← sharedfd_count fd buf;
  call (Close fd);;
  call (Unlink f);;
  if (r.1 =? 1000 * 10) && (r.2 =? 1000 * 10) then exit 0
  else fail "%s: nc/np test fails" [str s].

Definition fourfiles_child (s : list byte) (pi : Z) (fname : list byte) : P unit :=
  fd ← call (Open fname (Z.lor O_CREATE O_RDWR));
  reject (fd <? 0) "%s: create failed" [str s];;
  times 12 (fun _ =>
    n ← call (Write fd (replicate 500 (digit_char pi)));
    reject (negb (n =? 500)) "write failed %d" [ANum n]);;
  exit 0.

Definition fourfiles_read (s : list byte) (i fd : Z) : P Z :=
  loop_with (fun total =>
    n ← call (Read fd BUFSZ);
    if 0 <? n.1 then
      reject (negb (forallb (fun c => bool_decide (c = digit_char i)) n.2)) "%s: wrong char" [str s];;
      mret (inl (total + n.1))
    else mret (inr total)) 0.

Definition fourfiles_name (i : Z) : list byte := [chr 102; digit_char i].

Definition fourfiles (s : list byte) : P unit :=
  times 4 (fun pi =>
    call (Unlink (fourfiles_name pi));;
    pid ← call Fork;
    reject (pid <? 0) "%s: fork failed" [str s];;
    if pid =? 0 then fourfiles_child s pi (fourfiles_name pi) else mret tt);;
  wait_each 4 None (fun xstatus => if negb (xstatus =? 0) then exit xstatus else mret tt);;
  times 4 (fun i =>
    fd ← call (Open (fourfiles_name i) 0);
    total ← fourfiles_read s i fd;
    call (Close fd);;
    reject (negb (total =? 12 * 500)) "wrong length %d" [ANum total];;
    call (Unlink (fourfiles_name i));;
    mret tt).

Definition cd_name (pi i : Z) : list byte := [chr (112 + pi); digit_char i].

Definition createdelete_child (s : list byte) (pi : Z) : P unit :=
  times 20 (fun i =>
    fd ← call (Open (cd_name pi i) (Z.lor O_CREATE O_RDWR));
    reject (fd <? 0) "%s: create failed" [str s];;
    call (Close fd);;
    if (0 <? i) && (i mod 2 =? 0) then
      r ← call (Unlink (cd_name pi (i / 2)));
      reject (r <? 0) "%s: unlink failed" [str s]
    else mret tt);;
  exit 0.

Definition createdelete (s : list byte) : P unit :=
  times 4 (fun pi =>
    pid ← call Fork;
    reject (pid <? 0) "%s: fork failed" [str s];;
    if pid =? 0 then createdelete_child s pi else mret tt);;
  wait_each 4 None (fun xstatus => if negb (xstatus =? 0) then exit 1 else mret tt);;
  times 20 (fun i => times 4 (fun pi =>
    let name := cd_name pi i in
    fd ← call (Open name 0);
    (if ((i =? 0) || (10 <=? i)) && (fd <? 0) then fail "%s: oops createdelete %s didn't exist" [str s; str name]
     else reject ((1 <=? i) && (i <? 10) && (0 <=? fd)) "%s: oops createdelete %s did exist" [str s; str name]);;
    (if 0 <=? fd then call (Close fd) else mret 0);;
    mret tt));;
  times 20 (fun i => times 4 (fun pi => call (Unlink (cd_name pi i));; mret tt)).

Definition concreate_name (i : Z) : list byte := [chr 67; digit_char i].

Definition concreate_make (i : Z) : P unit :=
  let file := concreate_name i in
  call (Unlink file);;
  pid ← call Fork;
  (if negb (pid =? 0) && (i mod 3 =? 1) then call (Link (bytes_of "C0") file);; mret tt
   else if (pid =? 0) && (i mod 5 =? 1) then call (Link (bytes_of "C0") file);; mret tt
   else
     fd ← call (Open file (Z.lor O_CREATE O_RDWR));
     reject (fd <? 0) "concreate create %s failed" [str file];;
     call (Close fd);;
     mret tt);;
  if pid =? 0 then exit 0
  else
    xstatus ← wait_status;
    if negb (xstatus =? 0) then exit 1 else mret tt.

(** The entries C. of the directory, each counted once; [fa] are those seen. *)
Definition concreate_scan (s : list byte) (fd : Z) : P Z :=
  loop_with (fun st : list byte * list Z =>
    let '(de, fa) := st in
    r ← call (Read fd sizeof_dirent);
    if 0 <? r.1 then
      let de := into r.2 de in
      let name := de_name de in
      if de_inum de =? 0 then mret (inl (de, fa))
      else if bool_decide (nth 0 name (chr 0) = chr 67) && bool_decide (nth 2 name (chr 0) = chr 0) then
        let i := cv (nth 1 name (chr 0)) - 48 in
        reject ((i <? 0) || (40 <=? i)) "%s: concreate weird file %s" [str s; str (until_nul name)];;
        reject (bool_decide (i ∈ fa)) "%s: concreate duplicate file %s" [str s; str (until_nul name)];;
        mret (inl (de, i :: fa))
      else mret (inl (de, fa))
    else mret (inr (Z.of_nat (length fa)))) (replicate (Z.to_nat sizeof_dirent) (chr 0), []).

Definition concreate_use (s : list byte) (i : Z) : P unit :=
  let file := concreate_name i in
  pid ← call Fork;
  reject (pid <? 0) "%s: fork failed" [str s];;
  (if ((i mod 3 =? 0) && (pid =? 0)) || ((i mod 3 =? 1) && negb (pid =? 0)) then times 6 (fun _ => touch file 0)
   else times 6 (fun _ => call (Unlink file);; mret tt));;
  if pid =? 0 then exit 0
  else
    wait_null;;
    mret tt.

Definition concreate (s : list byte) : P unit :=
  times 40 concreate_make;;
  fd ← call (Open (bytes_of ".") 0);
  n ← concreate_scan s fd;
  call (Close fd);;
  reject (negb (n =? 40)) "%s: concreate not enough files in directory listing" [str s];;
  times 40 (concreate_use s).

(** [x = x * 1103515245 + 12345], an [unsigned int]. *)
Definition linkunlink_loop (x : Z) : P Z :=
  loop_with (fun st : Z * Z =>
    let '(i, x) := st in
    if i <? 100 then
      let x := u32 (x * 1103515245 + 12345) in
      (if x mod 3 =? 0 then touch (bytes_of "x") (Z.lor O_RDWR O_CREATE)
       else if x mod 3 =? 1 then call (Link (bytes_of "cat") (bytes_of "x"));; mret tt
       else call (Unlink (bytes_of "x"));; mret tt);;
      mret (inl (i + 1, x))
    else mret (inr x)) (0, x).

Definition linkunlink (s : list byte) : P unit :=
  call (Unlink (bytes_of "x"));;
  pid ← call Fork;
  reject (pid <? 0) "%s: fork failed" [str s];;
  linkunlink_loop (if negb (pid =? 0) then 1 else 97);;
  if negb (pid =? 0) then
    wait_null;;
    mret tt
  else exit 0.

Definition bigargtest (s : list byte) : P unit :=
  let f := bytes_of "bigarg-ok" in
  call (Unlink f);;
  pid ← call Fork;
  (if pid =? 0 then
     call (Exec (bytes_of "echo") (replicate (Z.to_nat (MAXARG - 1)) (replicate 399 (chr 32))));;
     fd ← call (Open f O_CREATE);
     call (Close fd);;
     exit 0
   else reject (pid <? 0) "%s: bigargtest: fork failed" [str s]);;
  xstatus ← wait_status;
  (if negb (xstatus =? 0) then exit xstatus else mret tt);;
  fd ← call (Open f 0);
  reject (fd <? 0) "%s: bigarg test failed!" [str s];;
  call (Close fd);;
  mret tt.

Definition manywrites_child (s : list byte) (ci : Z) : P unit :=
  let name := [chr 98; chr (97 + ci)] in
  call (Unlink name);;
  times 30 (fun _ =>
    times (ci + 1) (fun _ =>
      fd ← call (Open name (Z.lor O_CREATE O_RDWR));
      reject (fd <? 0) "%s: cannot create %s" [str s; str name];;
      cc ← call (Write fd (replicate (Z.to_nat BUFSZ) (chr 0)));
      reject (negb (cc =? BUFSZ)) "%s: write(%d) ret %d" [str s; ANum BUFSZ; ANum cc];;
      call (Close fd);;
      mret tt);;
    call (Unlink name);;
    mret tt);;
  call (Unlink name);;
  exit 0.

Definition manywrites (s : list byte) : P unit :=
  times 4 (fun ci =>
    pid ← call Fork;
    reject (pid <? 0) "fork failed" [];;
    if pid =? 0 then manywrites_child s ci else mret tt);;
  times 4 (fun _ =>
    st ← wait_old 0;
    if negb (st =? 0) then exit st else mret tt);;
  exit 0.
End tests.
