(* ===== verification/UsertestsMem.v ===== *)
(** * UsertestsMem: user/usertests.c, memory

    The tests of user/usertests.c that grow and shrink memory, touch memory
    that is not there, or give the kernel addresses in it.  An access that the
    hardware refuses ends the process in the kernel, so that the tests do not
    continue after it. *)

From ITree Require Import Core.ITreeDefinition Interp.Recursion Indexed.Sum Core.Subevent.
From S2P Require Import Prelude Riscv Layout Bio Fs File Syscall Printf Tools User TestLib.

Section tests.
Context {E : Type -> Type} `{sysE -< E} `{memE -< E}.
Local Abbreviation P := (itree E).

(** Pointer arithmetic. *)
Definition padd (a n : Z) : Z := u64 (a + n).

(** [while((m2 = malloc(10001)) != 0){ *(char** )m2 = m1; m1 = m2; }] *)
Definition mem_fill : P Z :=
  loop_with (fun m1 =>
    m2 ← mcall (Malloc 10001);
    if m2 =? 0 then mret (inr m1)
    else
      mcall (Store 8 m2 m1);;
      mret (inl m2)) 0.
(** [while(m1){ m2 = *(char** )m1; free(m1); m1 = m2; }] *)
Definition mem_free (m1 : Z) : P unit :=
  loop_with (fun m1 =>
    if m1 =? 0 then mret (inr tt)
    else
      m2 ← mcall (Load 8 m1);
      mcall (Free m1);;
      mret (inl m2)) m1.

Definition mem (s : list byte) : P unit :=
  pid ← call Fork;
  if pid =? 0 then
    m1 ← mem_fill;
    mem_free m1;;
    m1 ← mcall (Malloc (1024 * 20));
    reject (m1 =? 0) "%s: couldn't allocate mem?!!" [str s];;
    mcall (Free m1);;
    exit 0
  else
    xstatus ← wait_status;
    if xstatus =? -1 then exit 0 else exit xstatus.

(** ** sbrk *)

Definition TOOMUCH : Z := 1024 * 1024 * 1024.

(** The child: [for(b = a; b < a+TOOMUCH; b += PGSIZE) *b = 99;] *)
Definition sbrkbasic_child : P unit :=
  a ← sbrk TOOMUCH;
  if a =? SBRK_ERROR then exit 0
  else
    times (TOOMUCH / PGSIZE) (fun i => mcall (Store 1 (padd a (i * PGSIZE)) 99));;
    exit 1.

(** [sbrk(1)], 5000 times; the address after the last one. *)
Definition sbrkbasic_bytes (s : list byte) (a : Z) : P Z :=
  loop_with (fun st : Z * Z =>
    let '(i, a) := st in
    if i <? 5000 then
      b ← sbrk 1;
      reject (negb (b =? a)) "%s: sbrk test failed %d %p %p" [str s; ANum i; ANum a; ANum b];;
      mcall (Store 1 b 1);;
      mret (inl (i + 1, padd b 1))
    else mret (inr a)) (0, a).

Definition sbrkbasic (s : list byte) : P unit :=
  pid ← call Fork;
  reject (pid <? 0) "fork failed in sbrkbasic" [];;
  if pid =? 0 then sbrkbasic_child
  else
    xstatus ← wait_status;
    reject (xstatus =? 1) "%s: too much memory allocated!" [str s];;
    a ← sbrk 0;
    a ← sbrkbasic_bytes s a;
    pid ← call Fork;
    reject (pid <? 0) "%s: sbrk test fork failed" [str s];;
    sbrk 1;;
    c ← sbrk 1;
    reject (negb (c =? padd a 1)) "%s: sbrk test failed post-fork" [str s];;
    if pid =? 0 then exit 0
    else
      xstatus ← wait_old xstatus;
      exit xstatus.

Definition BIG : Z := 100 * 1024 * 1024.

Definition sbrkmuch (s : list byte) : P unit :=
  oldbrk ← sbrk 0;
  a ← sbrk 0;
  p ← sbrk (u64 (BIG - a));
  reject (negb (p =? a)) "%s: sbrk test failed to grow big address space; enough phys mem?" [str s];;
  let lastaddr := BIG - 1 in
  mcall (Store 1 lastaddr 99);;
  a ← sbrk 0;
  c ← sbrk (- PGSIZE);
  reject (c =? SBRK_ERROR) "%s: sbrk could not deallocate" [str s];;
  c ← sbrk 0;
  reject (negb (c =? padd a (- PGSIZE))) "%s: sbrk deallocation produced wrong address, a %p c %p" [str s; ANum a; ANum c];;
  a ← sbrk 0;
  c ← sbrk PGSIZE;
  top ← (if negb (c =? a) then mret (padd a PGSIZE) else sbrk 0);
  reject (negb (c =? a) || negb (top =? padd a PGSIZE)) "%s: sbrk re-allocation failed, a %p c %p" [str s; ANum a; ANum c];;
  v ← mcall (Load 1 lastaddr);
  reject (v =? 99) "%s: sbrk de-allocation didn't really deallocate" [str s];;
  a ← sbrk 0;
  top ← sbrk 0;
  c ← sbrk (- (top - oldbrk));
  reject (negb (c =? a)) "%s: sbrk downsize failed, a %p c %p" [str s; ANum a; ANum c].

(** ** Memory of the kernel *)

(** [for(a = KERNBASE; a < KERNBASE+2000000; a += 50000)] *)
Definition kernmem (s : list byte) : P unit :=
  times 40 (fun i =>
    let a := KERNBASE + i * 50000 in
    pid ← call Fork;
    reject (pid <? 0) "%s: fork failed" [str s];;
    if pid =? 0 then
      v ← mcall (Load 1 a);
      fail "%s: oops could read %p = %x" [str s; ANum a; ANum v]
    else
      xstatus ← wait_status;
      if negb (xstatus =? -1) then exit 1 else mret tt).

(** [for( ; a != 0; a <<= 1)] *)
Definition MAXVAplus (s : list byte) : P unit :=
  loop_with (fun a =>
    if a =? 0 then mret (inr tt)
    else
      pid ← call Fork;
      reject (pid <? 0) "%s: fork failed" [str s];;
      if pid =? 0 then
        mcall (Store 1 a 99);;
        fail "%s: oops wrote %p" [str s; ANum a]
      else
        xstatus ← wait_status;
        if negb (xstatus =? -1) then exit 1 else mret (inl (u64 (Z.shiftl a 1)))) MAXVA.

(** ** Running out of memory *)

(** A child that takes 100 MB, says whether it could, and waits to be killed. *)
Definition sbrkfail_child {A} (fd : Z) : P A :=
  top ← sbrk 0;
  r ← sbrk (u64 (BIG - top));
  call (Write fd (if r =? SBRK_ERROR then bytes_of "0" else bytes_of "1"));;
  loop (call (Pause 1000);; mret None).

(** The pids, and whether an allocation failed; [scratch] is the byte that the
    last child sent. *)
Fixpoint sbrkfail_spawn (n : nat) (rd wr : Z) (scratch : option byte) (failed : bool) (pids : list Z) : P (list Z * bool) :=
  match n with
  | O => mret (pids, failed)
  | S n =>
      pid ← call Fork;
      if pid =? 0 then sbrkfail_child wr
      else if negb (pid =? -1) then
        r ← call (Read rd 1);
        let scratch := if 0 <? r.1 then head r.2 else scratch in
        match scratch with
        | None => undefined
        | Some c => sbrkfail_spawn n rd wr scratch (failed || bool_decide (c = chr 48)) (pids ++ [pid])
        end
      else sbrkfail_spawn n rd wr scratch failed (pids ++ [pid])
  end.

Definition sbrkfail (s : list byte) : P unit :=
  fds ← call Pipe;
  reject (negb (fds.1 =? 0)) "%s: pipe() failed" [str s];;
  r ← sbrkfail_spawn 10 fds.2.1 fds.2.2 None false [];
  (if negb r.2 then printf "%s: no allocation failed; allocate more?" [str s] else mret tt);;
  c ← sbrk PGSIZE;
  for_each r.1 (fun pid =>
    if pid =? -1 then mret tt
    else
      call (Kill pid);;
      wait_null;;
      mret tt);;
  reject (c =? SBRK_ERROR) "%s: failed sbrk leaked memory" [str s];;
  pid ← call Fork;
  reject (pid <? 0) "%s: fork failed" [str s];;
  if pid =? 0 then
    a ← sbrk (10 * BIG);
    if a =? SBRK_ERROR then exit 0
    else fail "%s: allocate a lot of memory succeeded %d" [str s; ANum (10 * BIG)]
  else
    xstatus ← wait_status;
    if negb (xstatus =? 0) then exit 1 else mret tt.

(** [while(1){ a = sbrk(PGSIZE); if(a == SBRK_ERROR) break; *(a + PGSIZE - 1) = 1; }] *)
Definition take_all : P unit :=
  loop (
    a ← sbrk PGSIZE;
    if a =? SBRK_ERROR then mret (Some tt)
    else
      mcall (Store 1 (padd a (PGSIZE - 1)) 1);;
      mret None).

Definition execout (s : list byte) : P unit :=
  times 15 (fun avail =>
    pid ← call Fork;
    if pid <? 0 then fail "fork failed" []
    else if pid =? 0 then
      take_all;;
      times avail (fun _ => sbrk (- PGSIZE);; mret tt);;
      call (Close 1);;
      call (Exec (bytes_of "echo") [bytes_of "echo"; bytes_of "x"]);;
      exit 0
    else
      wait_null;;
      mret tt);;
  exit 0.

(** ** Addresses given to the kernel *)

Definition sbrkarg (s : list byte) : P unit :=
  a ← sbrk PGSIZE;
  fd ← call (Open (bytes_of "sbrk") (Z.lor O_CREATE O_WRONLY));
  call (Unlink (bytes_of "sbrk"));;
  reject (fd <? 0) "%s: open sbrk failed" [str s];;
  n ← mcall (WriteAt fd a PGSIZE);
  reject (n <? 0) "%s: write sbrk failed" [str s];;
  call (Close fd);;
  a ← sbrk PGSIZE;
  r ← mcall (PipeAt a);
  reject (negb (r =? 0)) "%s: pipe() failed" [str s].

(** [for(p = 0; p <= (uint)hi; p += PGSIZE)] with [hi = 1100*1024] *)
Definition validatetest (s : list byte) : P unit :=
  times (1100 * 1024 / PGSIZE + 1) (fun i =>
    r ← mcall (LinkAt (Str (bytes_of "nosuchfile")) (At (i * PGSIZE)));
    reject (negb (r =? -1)) "%s: link should not succeed" [str s]).

(** [uninit] is the address of the array, from the linker. *)
Definition bsstest (uninit : Z) (s : list byte) : P unit :=
  times 10000 (fun i =>
    v ← mcall (Load 1 (uninit + i));
    reject (negb (v =? 0)) "%s: bss test failed" [str s]).

Definition argptest (s : list byte) : P unit :=
  fd ← call (Open (bytes_of "init") O_RDONLY);
  reject (fd <? 0) "%s: open failed" [str s];;
  top ← sbrk 0;
  mcall (ReadAt fd (padd top (-1)) (-1));;
  call (Close fd);;
  mret tt.

Definition stacktest (s : list byte) : P unit :=
  pid ← call Fork;
  if pid =? 0 then
    sp ← mcall Sp;
    v ← mcall (Load 1 (padd sp (- (USERSTACK * PGSIZE))));
    fail "%s: stacktest: read below stack %d" [str s; ANum v]
  else
    reject (pid <? 0) "%s: fork failed" [str s];;
    xstatus ← wait_status;
    if xstatus =? -1 then exit 0 else exit xstatus.

Definition nowrite (s : list byte) : P unit :=
  for_each [0; 0x80000000; 0x3fffffe000; 0x3ffffff000; 0x4000000000; 0xffffffffffffffff] (fun addr =>
    pid ← call Fork;
    if pid =? 0 then
      mcall (Store 4 addr 10);;
      printf "%s: write to %p did not fail!" [str s; ANum addr];;
      exit 0
    else
      reject (pid <? 0) "%s: fork failed" [str s];;
      xstatus ← wait_status;
      if xstatus =? 0 then exit 1 else mret tt);;
  exit 0.

Definition pgbug (s : list byte) : P unit :=
  mcall (ExecAt (At 0xeaeb0b5b00002f5e) []);;
  mcall (PipeAt 0xeaeb0b5b00002f5e);;
  exit 0.

(** The three children of [sbrkbugs]; [sz] is an [int]. *)
Definition sbrkbugs_step (child : P unit) : P unit :=
  pid ← call Fork;
  reject (pid <? 0) "fork failed" [];;
  if pid =? 0 then
    child;;
    exit 0
  else
    wait_null;;
    mret tt.

Definition sbrkbugs (s : list byte) : P unit :=
  sbrkbugs_step (top ← sbrk 0; sbrk (- i32 top);; mret tt);;
  sbrkbugs_step (top ← sbrk 0; sbrk (- (i32 top - 3500));; mret tt);;
  sbrkbugs_step (
    top ← sbrk 0;
    sbrk (u64 (10 * PGSIZE + 2048 - top));;
    sbrk (-10);;
    mret tt);;
  exit 0.

Definition sbrklast (s : list byte) : P unit :=
  top ← sbrk 0;
  (if negb (top mod PGSIZE =? 0) then sbrk (PGSIZE - top mod PGSIZE) else mret 0);;
  sbrk PGSIZE;;
  sbrk 10;;
  sbrk (-20);;
  top ← sbrk 0;
  let p := padd top (-64) in
  mcall (Store 1 p 120);;
  mcall (Store 1 (padd p 1) 0);;
  fd ← mcall (OpenAt (At p) (Z.lor O_RDWR O_CREATE));
  mcall (WriteAt fd p 1);;
  call (Close fd);;
  fd ← mcall (OpenAt (At p) O_RDWR);
  mcall (Store 1 p 0);;
  mcall (ReadAt fd p 1);;
  v ← mcall (Load 1 p);
  if negb (v =? 120) then exit 1 else mret tt.

Definition sbrk8000 (s : list byte) : P unit :=
  sbrk 0x80000004;;
  top ← sbrk 0;
  v ← mcall (Load 1 (padd top (-1)));
  mcall (Store 1 (padd top (-1)) (v + 1)).

Definition badarg (s : list byte) : P unit :=
  times 50000 (fun _ => mcall (ExecAt (Str (bytes_of "echo")) [At 0xffffffff]);; mret tt);;
  exit 0.

(** ** Lazy allocation *)

Definition REGION_SZ : Z := 1024 * 1024 * 1024.

(** [for (i = prev_end + PGSIZE; i < new_end; i += 64 * PGSIZE)] *)
Definition lazy_pages (step : Z) (prev_end : Z) (body : Z -> P unit) : P unit :=
  times ((REGION_SZ - PGSIZE + step - 1) / step) (fun k => body (padd prev_end (PGSIZE + k * step))).

Definition lazy_alloc (s : list byte) : P unit :=
  prev_end ← sbrklazy REGION_SZ;
  reject (prev_end =? SBRK_ERROR) "sbrklazy() failed" [];;
  lazy_pages (64 * PGSIZE) prev_end (fun i => mcall (Store 8 i i));;
  lazy_pages (64 * PGSIZE) prev_end (fun i =>
    v ← mcall (Load 8 i);
    reject (negb (v =? i)) "failed to read value from memory" []);;
  exit 0.

Definition lazy_unmap (s : list byte) : P unit :=
  prev_end ← sbrklazy REGION_SZ;
  reject (prev_end =? SBRK_ERROR) "sbrklazy() failed" [];;
  lazy_pages (PGSIZE * PGSIZE) prev_end (fun i => mcall (Store 8 i i));;
  lazy_pages (PGSIZE * PGSIZE) prev_end (fun i =>
    pid ← call Fork;
    if pid <? 0 then fail "error forking" []
    else if pid =? 0 then
      sbrklazy (- REGION_SZ);;
      mcall (Store 8 i i);;
      exit 0
    else
      status ← wait_status;
      reject (status =? 0) "memory not unmapped" []);;
  exit 0.

Definition lazy_copy (s : list byte) : P unit :=
  p ← sbrk 0;
  sbrklazy (4 * PGSIZE);;
  mcall (OpenAt (At (padd p 8192)) 0);;
  xx ← sbrk 0;
  ret ← sbrk (u64 (- (xx + 1)));
  reject (negb (ret =? xx)) "sbrk(sbrk(0)+1) returned %p, not old sz" [ANum ret];;
  for_each [0x3fffffc000; 0x3fffffd000; 0x3fffffe000; 0x3ffffff000; 0x4000000000; 0x8000000000] (fun bad =>
    fd ← call (Open (bytes_of "README") 0);
    reject (fd <? 0) "cannot open README" [];;
    r ← mcall (ReadAt fd bad 512);
    reject (0 <=? r) "read succeeded" [];;
    call (Close fd);;
    fd ← call (Open (bytes_of "junk") (Z.lor (Z.lor O_CREATE O_RDWR) O_TRUNC));
    reject (fd <? 0) "cannot open junk" [];;
    r ← mcall (WriteAt fd bad 512);
    reject (0 <=? r) "write succeeded" [];;
    call (Close fd);;
    mret tt);;
  exit 0.
End tests.
