(* ===== verification/Usertests.v ===== *)
(** * Usertests: user/usertests.c, the tables and the driver

    Each test runs in a process of its own and reports by its exit status.
    [runtests] goes through a table, [drivetests] through both, with a count
    of the free pages before and after. *)

From ITree Require Import Core.ITreeDefinition Interp.Recursion Indexed.Sum Core.Subevent.
From S2P Require Import Prelude Riscv Layout Bio Fs File Syscall Printf Tools User TestLib UsertestsFs UsertestsProc UsertestsMem.

Section driver.
Context {E : Type -> Type} `{sysE -< E} `{memE -< E}.
Local Abbreviation P := (itree E).

(** struct test *)
Abbreviation test := ((list byte -> P unit) * list byte)%type.

Section tables.
(** The address of [uninit], and the contents of the local array of [diskfull]. *)
Context (uninit : Z) (content : list byte).

Definition quicktests : list test :=
  [(copyin, bytes_of "copyin"); (copyout, bytes_of "copyout"); (copyinstr1, bytes_of "copyinstr1"); (copyinstr2, bytes_of "copyinstr2");
   (copyinstr3, bytes_of "copyinstr3"); (rwsbrk, bytes_of "rwsbrk"); (truncate1, bytes_of "truncate1"); (truncate2, bytes_of "truncate2");
   (truncate3, bytes_of "truncate3"); (openiputtest, bytes_of "openiput"); (exitiputtest, bytes_of "exitiput"); (iputtest, bytes_of "iput");
   (opentest, bytes_of "opentest"); (writetest, bytes_of "writetest"); (writebig, bytes_of "writebig"); (createtest, bytes_of "createtest");
   (dirtest, bytes_of "dirtest"); (exectest, bytes_of "exectest"); (pipe1, bytes_of "pipe1"); (killstatus, bytes_of "killstatus");
   (preempt, bytes_of "preempt"); (exitwait, bytes_of "exitwait"); (reparent, bytes_of "reparent"); (twochildren, bytes_of "twochildren");
   (forkfork, bytes_of "forkfork"); (forkforkfork, bytes_of "forkforkfork"); (reparent2, bytes_of "reparent2"); (mem, bytes_of "mem");
   (sharedfd, bytes_of "sharedfd"); (fourfiles, bytes_of "fourfiles"); (createdelete, bytes_of "createdelete"); (unlinkread, bytes_of "unlinkread");
   (linktest, bytes_of "linktest"); (concreate, bytes_of "concreate"); (linkunlink, bytes_of "linkunlink"); (subdir, bytes_of "subdir");
   (bigwrite, bytes_of "bigwrite"); (bigfile, bytes_of "bigfile"); (fourteen, bytes_of "fourteen"); (rmdot, bytes_of "rmdot");
   (dirfile, bytes_of "dirfile"); (iref, bytes_of "iref"); (forktest, bytes_of "forktest"); (sbrkbasic, bytes_of "sbrkbasic");
   (sbrkmuch, bytes_of "sbrkmuch"); (kernmem, bytes_of "kernmem"); (MAXVAplus, bytes_of "MAXVAplus"); (sbrkfail, bytes_of "sbrkfail");
   (sbrkarg, bytes_of "sbrkarg"); (validatetest, bytes_of "validatetest"); (bsstest uninit, bytes_of "bsstest"); (bigargtest, bytes_of "bigargtest");
   (argptest, bytes_of "argptest"); (stacktest, bytes_of "stacktest"); (nowrite, bytes_of "nowrite"); (pgbug, bytes_of "pgbug");
   (sbrkbugs, bytes_of "sbrkbugs"); (sbrklast, bytes_of "sbrklast"); (sbrk8000, bytes_of "sbrk8000"); (badarg, bytes_of "badarg");
   (lazy_alloc, bytes_of "lazy_alloc"); (lazy_unmap, bytes_of "lazy_unmap"); (lazy_copy, bytes_of "lazy_copy")].

Definition slowtests : list test :=
  [(bigdir, bytes_of "bigdir"); (manywrites, bytes_of "manywrites"); (badwrite, bytes_of "badwrite"); (execout, bytes_of "execout");
   (diskfull content, bytes_of "diskfull"); (outofinodes, bytes_of "outofinodes")].
End tables.

(** [run] returns whether the child exited with 0. *)
Definition run (f : list byte -> P unit) (s : list byte) : P bool :=
  printf_ "test %s: " [str s];;
  pid ← call Fork;
  if pid <? 0 then
    printf "runtest: fork error" [];;
    exit 1
  else if pid =? 0 then
    f s;;
    exit 0
  else
    xstatus ← wait_status;
    (if negb (xstatus =? 0) then printf "FAILED" [] else printf "OK" []);;
    mret (xstatus =? 0).

(** [justone] is the name of the only test to run, if there is one. *)
Definition selected (justone : option (list byte)) (s : list byte) : bool :=
  match justone with None => true | Some j => strcmp s j =? 0 end.

Fixpoint runtests_loop (tests : list test) (justone : option (list byte)) (continuous ntests : Z) : P Z :=
  match tests with
  | [] => mret ntests
  | (f, s) :: tests =>
      if selected justone s then
        ok ← run f s;
        if negb ok && negb (continuous =? 2) then
          printf "SOME TESTS FAILED" [];;
          mret (-1)
        else runtests_loop tests justone continuous (ntests + 1)
      else runtests_loop tests justone continuous ntests
  end.
Definition runtests (tests : list test) (justone : option (list byte)) (continuous : Z) : P Z := runtests_loop tests justone continuous 0.

Definition countfree : P Z :=
  sz0 ← sbrk 0;
  n ← loop_with (fun n =>
    a ← sbrk PGSIZE;
    mret (if a =? SBRK_ERROR then inr n else inl (n + 1))) 0;
  top ← sbrk 0;
  sbrk (u64 (- (top - sz0)));;
  mret n.

(** What a table adds to [ntests], or [None] when [drivetests] returns 1. *)
Definition drive_table (tests : list test) (continuous : Z) (justone : option (list byte)) : P (option Z) :=
  n ← runtests tests justone continuous;
  mret (if n <? 0 then if negb (continuous =? 2) then None else Some 0 else Some n).

Definition drivetests (quicktests slowtests : list test) (quick : bool) (continuous : Z) (justone : option (list byte)) : P Z :=
  loop (
    printf "usertests starting" [];;
    free0 ← countfree;
    n ← drive_table quicktests continuous justone;
    match n with
    | None => mret (Some 1)
    | Some ntests =>
        m ← (if negb quick then
               (match justone with None => printf "usertests slow tests starting" [] | Some _ => mret tt end);;
               drive_table slowtests continuous justone
             else mret (Some 0));
        match m with
        | None => mret (Some 1)
        | Some m =>
            free1 ← countfree;
            lost ← (if free1 <? free0 then
                      printf "FAILED -- lost some free pages %d (out of %d)" [ANum free1; ANum free0];;
                      mret (negb (continuous =? 2))
                    else mret false);
            if (lost : bool) then mret (Some 1)
            else
              match justone with
              | Some _ =>
                  if ntests + m =? 0 then
                    printf "NO TESTS EXECUTED" [];;
                    mret (Some 1)
                  else mret (if negb (continuous =? 0) then None else Some 0)
              | None => mret (if negb (continuous =? 0) then None else Some 0)
              end
        end
    end).

Definition usertests_main (quicktests slowtests : list test) (argv : list (list byte)) : P unit :=
  let go quick continuous justone :=
    r ← drivetests quicktests slowtests quick continuous justone;
    if negb (r =? 0) then exit 1
    else
      printf "ALL TESTS PASSED" [];;
      exit 0 in
  match tail argv with
  | [] => go false 0 None
  | [a] =>
      if strcmp a (bytes_of "-q") =? 0 then go true 0 None
      else if strcmp a (bytes_of "-c") =? 0 then go false 1 None
      else if strcmp a (bytes_of "-C") =? 0 then go false 2 None
      else if bool_decide (nth 0 a (chr 0) <> chr 45) then go false 0 (Some a)
      else fail "Usage: usertests [-c] [-C] [-q] [testname]" []
  | _ => fail "Usage: usertests [-c] [-C] [-q] [testname]" []
  end.
End driver.
