(* ===== verification/TestPrograms.v ===== *)
(** * TestPrograms: forktest, stressfs, logstress and grind

    The other programs that exercise the kernel, and two facts about
    them: forktest succeeds on every kernel that runs out of processes before
    its limit, and the random numbers of grind are those of its comment. *)

From ITree Require Import Core.ITreeDefinition Interp.Recursion Indexed.Sum Core.Subevent.
From S2P Require Import Prelude Riscv Layout Bio Fs File Syscall Printf Tools User UserSem TestLib.

Section programs.
Context {E : Type -> Type} `{sysE -< E}.
Local Abbreviation P := (itree E).

(** ** forktest.c *)

Definition print (s : list byte) : P unit := call (Write 1 s);; mret tt.

(** [for(n=0; n<N; n++){ pid = fork(); ... }], with [turns] turns left. *)
Fixpoint forktest_forks (turns : nat) (n : Z) : P Z :=
  match turns with
  | O => mret n
  | S turns =>
      pid ← call Fork;
      if pid <? 0 then mret n
      else if pid =? 0 then exit 0
      else forktest_forks turns (n + 1)
  end.

(** [for(; n > 0; n--)] *)
Fixpoint forktest_waits (n : nat) : P unit :=
  match n with
  | O => mret tt
  | S n =>
      w ← call Wait;
      if w.1 <? 0 then
        print (bytes_of "wait stopped early" ++ [chr 10]);;
        exit 1
      else forktest_waits n
  end.

Definition forktest_main : P unit :=
  print (bytes_of "fork test" ++ [chr 10]);;
  n ← forktest_forks 1000 0;
  if n =? 1000 then
    print (bytes_of "fork claimed to work N times!" ++ [chr 10]);;
    exit 1
  else
    forktest_waits (Z.to_nat n);;
    w ← call Wait;
    if negb (w.1 =? -1) then
      print (bytes_of "wait got too many" ++ [chr 10]);;
      exit 1
    else
      print (bytes_of "fork test OK" ++ [chr 10]);;
      exit 0.

(** ** stressfs.c *)

(** [for(i = 0; i < 4; i++) if(fork() > 0) break;] *)
Fixpoint stressfs_forks (n : nat) (i : Z) : P Z :=
  match n with
  | O => mret i
  | S n =>
      pid ← call Fork;
      if 0 <? pid then mret i else stressfs_forks n (i + 1)
  end.

Definition repeat_call (n : nat) {R} (e : sysE R) : P unit :=
  Nat.iter n (fun t : P unit => call e;; t) (mret tt).

Definition stressfs_main : P unit :=
  let data := replicate 512 (chr 97) in
  printf "stressfs starting" [];;
  i ← stressfs_forks 4 0;
  printf "write %d" [ANum i];;
  let path := bytes_of "stressfs" ++ [chr (48 + i)] in
  fd ← call (Open path (Z.lor O_CREATE O_RDWR));
  repeat_call 20 (Write fd data);;
  call (Close fd);;
  printf "read" [];;
  fd ← call (Open path O_RDONLY);
  repeat_call 20 (Read fd 512);;
  call (Close fd);;
  call Wait;;
  exit 0.

(** ** logstress.c *)

(** The child for the file [argv[i]].  [memset] fills 2000 bytes of an array
    of 500, which is where it leaves its memory: what follows the array is
    overwritten, the array is not what is written. *)
Definition logstress_child (name file : list byte) : P unit :=
  fd ← call (Open file (Z.lor O_CREATE O_RDWR));
  if fd <? 0 then
    printf "%s: create %s failed" [str name; str file];;
    exit 1
  else undefined.

Fixpoint logstress_forks (name : list byte) (files : list (list byte)) : P unit :=
  match files with
  | [] => mret tt
  | f :: files =>
      pid1 ← call Fork;
      if pid1 <? 0 then
        printf "%s: fork failed" [str name];;
        exit 1
      else if pid1 =? 0 then logstress_child name f
      else logstress_forks name files
  end.

Fixpoint logstress_waits (n : nat) (old : option Z) : P unit :=
  match n with
  | O => mret tt
  | S n =>
      w ← call Wait;
      match (if w.1 <? 0 then old else Some w.2) with
      | None => undefined
      | Some xstatus => if negb (xstatus =? 0) then exit xstatus else logstress_waits n (Some xstatus)
      end
  end.

(** [main] returns 0 to [start] of ulib.c. *)
Definition logstress_main (argv : list (list byte)) : P unit :=
  ustart (logstress_forks (default [] (head argv)) (tail argv);;
          logstress_waits (length (tail argv)) None).
End programs.

(** ** grind.c *)

(** A [long] is 64 bits wide; the values stay far below. *)
Definition do_rand (ctx : Z) : Z :=
  let x := ctx mod 0x7ffffffe + 1 in
  let hi := x / 127773 in
  let lo := x mod 127773 in
  let x := 16807 * lo - 2836 * hi in
  let x := if x <? 0 then x + 0x7fffffff else x in
  x - 1.

Section grind.
Context {E : Type -> Type} `{sysE -< E} `{memE -< E}.
Local Abbreviation P := (itree E).
Implicit Types fd : Z.

Definition create : Z := Z.lor O_CREATE O_RDWR.

(** [if(pid == 0){ child; exit(0); } else if(pid < 0){ ... exit(1); }] and the
    rest in the parent. *)
Definition grind_fork (child : P unit) (parent : Z -> P unit) : P unit :=
  pid ← call Fork;
  if pid =? 0 then
    child;;
    exit 0
  else if pid <? 0 then
    printf "grind: fork failed" [];;
    exit 1
  else parent pid.
Definition grind_wait : P unit := call Wait;; mret tt.

(** The child and the parent of case 19. *)
Definition grind_pipe : P unit :=
  fds ← call Pipe;
  if fds.1 <? 0 then
    printf "grind: pipe failed" [];;
    exit 1
  else
    grind_fork (
        call Fork;;
        call Fork;;
        r ← call (Write fds.2.2 (bytes_of "x"));
        (if negb (r =? 1) then printf "grind: pipe write failed" [] else mret tt);;
        r ← call (Read fds.2.1 1);
        if negb (r.1 =? 1) then printf "grind: pipe read failed" [] else mret tt)
      (fun _ =>
        call (Close fds.2.1);;
        call (Close fds.2.2);;
        grind_wait).

(** Case 21: a file of one byte. *)
Definition grind_file : P unit :=
  call (Unlink (bytes_of "c"));;
  fd1 ← call (Open (bytes_of "c") create);
  reject (fd1 <? 0) "grind: create c failed" [];;
  r ← call (Write fd1 (bytes_of "x"));
  reject (negb (r =? 1)) "grind: write c failed" [];;
  st ← call (Fstat fd1);
  reject (negb (st.1 =? 0)) "grind: fstat failed" [];;
  reject (negb (st_size st.2 =? 1)) "grind: fstat reports wrong size %d" [ANum (i32 (st_size st.2))];;
  reject (200 <? st_ino st.2) "grind: fstat reports crazy i-number %d" [ANum (st_ino st.2)];;
  call (Close fd1);;
  call (Unlink (bytes_of "c"));;
  mret tt.

(** [fprintf(2, ...); exit(n);] *)
Definition die {A} (fmt : string) (n : Z) : P A := fprintf 2 fmt [];; exit n.

(** Case 22: echo hi | cat, with the output read back. *)
Definition grind_echo (aa bb : Z * Z) : P unit :=
  call (Close bb.1);;
  call (Close bb.2);;
  call (Close aa.1);;
  call (Close 1);;
  r ← call (Dup aa.2);
  (if negb (r =? 1) then die "grind: dup failed" 1 else mret tt);;
  call (Close aa.2);;
  call (Exec (bytes_of "grindir/../echo") [bytes_of "echo"; bytes_of "hi"]);;
  die "grind: echo: not found" 2.

Definition grind_cat (aa bb : Z * Z) : P unit :=
  call (Close aa.2);;
  call (Close bb.1);;
  call (Close 0);;
  r ← call (Dup aa.1);
  (if negb (r =? 0) then die "grind: dup failed" 4 else mret tt);;
  call (Close aa.1);;
  call (Close 1);;
  r ← call (Dup bb.2);
  (if negb (r =? 1) then die "grind: dup failed" 5 else mret tt);;
  call (Close bb.2);;
  call (Exec (bytes_of "/cat") [bytes_of "cat"]);;
  die "grind: cat: not found" 6.

(** One byte of the output, or the zero that was there. *)
Definition read_byte (fd : Z) : P (list byte) := r ← call (Read fd 1); mret (if 0 <? r.1 then take 1 r.2 else [chr 0]).

(** The status of a child that [wait] may not find; it has no value before. *)
Definition grind_status : P Z := w ← call Wait; if w.1 <? 0 then undefined else mret w.2.

Definition grind_pipeline_check (fd : Z) : P unit :=
  b0 ← read_byte fd;
  b1 ← read_byte fd;
  b2 ← read_byte fd;
  call (Close fd);;
  st1 ← grind_status;
  st2 ← grind_status;
  let buf := until_nul (b0 ++ b1 ++ b2) in
  if negb (st1 =? 0) || negb (st2 =? 0) || negb (strcmp buf (bytes_of "hi" ++ [chr 10]) =? 0) then
    match vprintf (bytes_of "grind: exec pipeline failed %d %d " ++ [chr 34] ++ bytes_of "%s" ++ [chr 34; chr 10]) [ANum st1; ANum st2; str buf] with
    | Some b => putcs 1 b
    | None => undefined
    end;;
    exit 1
  else mret tt.

Definition grind_pipeline : P unit :=
  aa ← call Pipe;
  (if aa.1 <? 0 then die "grind: pipe failed" 1 else mret tt);;
  bb ← call Pipe;
  (if bb.1 <? 0 then die "grind: pipe failed" 1 else mret tt);;
  pid1 ← call Fork;
  if pid1 =? 0 then grind_echo aa.2 bb.2
  else if pid1 <? 0 then die "grind: fork failed" 3
  else
    pid2 ← call Fork;
    if pid2 =? 0 then grind_cat aa.2 bb.2
    else if pid2 <? 0 then die "grind: fork failed" 7
    else
      call (Close aa.2.1);;
      call (Close aa.2.2);;
      call (Close bb.2.2);;
      grind_pipeline_check bb.2.1.

(** One turn of the loop of [go] with [what]; the descriptor kept in [fd] and
    the array [buf] after it. *)
Definition go_step (break0 : Z) (what fd : Z) (buf : list byte) : P (Z * list byte) :=
  let next := mret (fd, buf) in
  match what with
  | 1 => touch (bytes_of "grindir/../a") create;; next
  | 2 => touch (bytes_of "grindir/../grindir/../b") create;; next
  | 3 => call (Unlink (bytes_of "grindir/../a"));; next
  | 4 =>
      r ← call (Chdir (bytes_of "grindir"));
      reject (negb (r =? 0)) "grind: chdir grindir failed" [];;
      call (Unlink (bytes_of "../b"));;
      call (Chdir (bytes_of "/"));;
      next
  | 5 => call (Close fd);; fd ← call (Open (bytes_of "/grindir/../a") create); mret (fd, buf)
  | 6 => call (Close fd);; fd ← call (Open (bytes_of "/./grindir/./../b") create); mret (fd, buf)
  | 7 => call (Write fd buf);; next
  | 8 => r ← call (Read fd 999); mret (fd, if 0 <? r.1 then into r.2 buf else buf)
  | 9 =>
      call (Mkdir (bytes_of "grindir/../a"));;
      touch (bytes_of "a/../a/./a") create;;
      call (Unlink (bytes_of "a/a"));;
      next
  | 10 =>
      call (Mkdir (bytes_of "/../b"));;
      touch (bytes_of "grindir/../b/b") create;;
      call (Unlink (bytes_of "b/b"));;
      next
  | 11 => call (Unlink (bytes_of "b"));; call (Link (bytes_of "../grindir/./../a") (bytes_of "../b"));; next
  | 12 => call (Unlink (bytes_of "../grindir/../a"));; call (Link (bytes_of ".././b") (bytes_of "/grindir/../a"));; next
  | 13 => grind_fork (mret tt) (fun _ => grind_wait);; next
  | 14 => grind_fork (call Fork;; call Fork;; mret tt) (fun _ => grind_wait);; next
  | 15 => sbrk 6011;; next
  | 16 =>
      top ← sbrk 0;
      (if break0 <? top then top ← sbrk 0; sbrk (- (top - break0));; mret tt else mret tt);;
      next
  | 17 =>
      grind_fork (touch (bytes_of "a") create)
        (fun pid =>
          r ← call (Chdir (bytes_of "../grindir/.."));
          reject (negb (r =? 0)) "grind: chdir failed" [];;
          call (Kill pid);;
          grind_wait);;
      next
  | 18 => grind_fork (me ← mcall Getpid; call (Kill me);; mret tt) (fun _ => grind_wait);; next
  | 19 => grind_pipe;; next
  | 20 =>
      grind_fork (
          call (Unlink (bytes_of "a"));;
          call (Mkdir (bytes_of "a"));;
          call (Chdir (bytes_of "a"));;
          call (Unlink (bytes_of "../a"));;
          call (Open (bytes_of "x") create);;
          call (Unlink (bytes_of "x"));;
          mret tt)
        (fun _ => grind_wait);;
      next
  | 21 => grind_file;; next
  | 22 => grind_pipeline;; next
  | _ => next
  end.

(** The loop has the random number, the descriptor, the array and the count
    of turns. *)
Definition go (which_child : bool) (rand_next : Z) : P unit :=
  break0 ← sbrk 0;
  call (Mkdir (bytes_of "grindir"));;
  r ← call (Chdir (bytes_of "grindir"));
  reject (negb (r =? 0)) "grind: chdir grindir failed" [];;
  call (Chdir (bytes_of "/"));;
  loop_with (fun st : Z * (Z * list byte) * Z =>
    let '(rand_next, (fd, buf), iters) := st in
    let iters := u64 (iters + 1) in
    (if iters mod 500 =? 0 then call (Write 1 (if which_child then bytes_of "B" else bytes_of "A"));; mret tt else mret tt);;
    let rand_next := do_rand rand_next in
    r ← go_step break0 (rand_next mod 23) fd buf;
    mret (inl (rand_next, r, iters))) (rand_next, (-1, replicate 999 (chr 0)), 0).

Definition grind_child (which_child : bool) (rand_next : Z) : P unit :=
  go which_child rand_next;;
  exit 0.

Definition iter (rand_next : Z) : P unit :=
  call (Unlink (bytes_of "a"));;
  call (Unlink (bytes_of "b"));;
  pid1 ← call Fork;
  reject (pid1 <? 0) "grind: fork failed" [];;
  if pid1 =? 0 then grind_child false (Z.lxor rand_next 31)
  else
    pid2 ← call Fork;
    reject (pid2 <? 0) "grind: fork failed" [];;
    if pid2 =? 0 then grind_child true (Z.lxor rand_next 7177)
    else
      st1 ← wait_old (-1);
      (if negb (st1 =? 0) then call (Kill pid1);; call (Kill pid2);; mret tt else mret tt);;
      call Wait;;
      exit 0.

(** [rand_next] starts at 1. *)
Definition grind_main : P unit :=
  loop_with (fun rand_next =>
    pid ← call Fork;
    if pid =? 0 then
      iter rand_next;;
      exit 0
    else
      (if 0 <? pid then call Wait;; mret tt else mret tt);;
      call (Pause 20);;
      mret (inl (u64 (rand_next + 1)))) 1.
End grind.

(** ** The random numbers of grind *)

(** [do_rand] computes 7^5 x mod (2^31 - 1) as its comment says, for
    the [x] that it takes from the context, in the range it promises, and no
    intermediate value needs more than 31 bits and a sign. *)
Theorem do_rand_schrage ctx : let x := ctx mod 0x7ffffffe + 1 in
  do_rand ctx = (7 ^ 5 * x) mod (2 ^ 31 - 1) - 1 /\ 0 <= do_rand ctx <= 0x7ffffffd /\
  0 <= 16807 * (x mod 127773) < 2 ^ 31 /\ 0 <= 2836 * (x / 127773) < 2 ^ 31.
Proof.
  cbv zeta. unfold do_rand. set (x := ctx mod 0x7ffffffe + 1).
  assert (Hx : 1 <= x <= 0x7ffffffe) by (unfold x; pose proof (Z.mod_pos_bound ctx 0x7ffffffe eq_refl); lia).
  pose proof (Z.div_mod x 127773 ltac:(lia)) as E. pose proof (Z.mod_pos_bound x 127773 ltac:(lia)) as Hlo.
  assert (Hhi : 0 <= x / 127773 < 16808) by (split; [apply Z.div_pos; lia|apply Z.div_lt_upper_bound; lia]).
  set (hi := x / 127773) in *. set (lo := x mod 127773) in *. change (7 ^ 5) with 16807.
  assert (Hnz : 16807 * lo <> 2836 * hi) by lia.
  assert (Hm : (16807 * x) mod (2 ^ 31 - 1) = (16807 * lo - 2836 * hi) mod (2 ^ 31 - 1)).
  { replace (16807 * x) with (16807 * lo - 2836 * hi + hi * (2 ^ 31 - 1)) by lia. apply Z_mod_plus_full. }
  rewrite Hm. destruct (Z.ltb_spec (16807 * lo - 2836 * hi) 0).
  - rewrite <-(Z_mod_plus_full _ 1), Z.mod_small by lia. lia.
  - rewrite Z.mod_small by lia. lia.
Qed.

(** ** forktest on a kernel with a limit *)

(** What forktest sees of the kernel: the children it has, of which there can
    be [limit], and what it has printed. *)
Record nursery := { nu_live : nat; nu_out : list byte }.

Definition nursery_call (limit : nat) R (e : sysE R) (s : nursery) : option (R * nursery) :=
  match e in sysE R return option (R * nursery) with
  | Fork =>
      Some (if decide (nu_live s < limit)%nat then (Z.of_nat (nu_live s) + 3, {| nu_live := S (nu_live s); nu_out := nu_out s |}) else (-1, s))
  | Wait =>
      Some (match nu_live s with
            | O => ((-1, 0), s)
            | S n => ((Z.of_nat n + 3, 0), {| nu_live := n; nu_out := nu_out s |})
            end)
  | Write _ b => Some (Z.of_nat (length b), {| nu_live := nu_live s; nu_out := nu_out s ++ b |})
  | _ => None
  end.

Section forktest.
Context (limit : nat).
Local Abbreviation ev := (eval (nursery_call limit)).

Lemma forktest_forks_eval turns : forall n s, (nu_live s <= limit < nu_live s + turns)%nat ->
  ev (forktest_forks turns n) s (Returned (n + Z.of_nat (limit - nu_live s))) {| nu_live := limit; nu_out := nu_out s |}.
Proof.
  induction turns as [|turns IH]; intros n s Hs; [lia|]. cbn [forktest_forks].
  destruct (decide (nu_live s < limit)%nat) as [Hlt|Hge].
  - eapply eval_call; [done|cbn; rewrite decide_True by done; reflexivity|].
    rewrite (proj2 (Z.ltb_ge _ _)), (proj2 (Z.eqb_neq _ _)) by lia.
    replace (n + Z.of_nat (limit - nu_live s)) with (n + 1 + Z.of_nat (limit - S (nu_live s))) by lia. apply (IH (n + 1) {| nu_live := S (nu_live s); nu_out := nu_out s |}). cbn. lia.
  - eapply eval_call; [done|cbn; rewrite decide_False by done; reflexivity|]. cbn [Z.ltb Z.compare].
    replace (limit - nu_live s)%nat with 0%nat by lia. rewrite Z.add_0_r. replace s with {| nu_live := limit; nu_out := nu_out s |} at 1; [apply eval_ret|].
    destruct s. cbn in *. f_equal. lia.
Qed.

Lemma forktest_waits_eval n out : ev (forktest_waits n) {| nu_live := n; nu_out := out |} (Returned tt) {| nu_live := 0; nu_out := out |}.
Proof.
  induction n as [|n IH]; cbn [forktest_waits]; [apply eval_ret|]. eapply eval_call; [done|reflexivity|].
  cbn [fst]. rewrite (proj2 (Z.ltb_ge _ _)) by lia. exact IH.
Qed.

Lemma print_eval b s : ev (print b) s (Returned tt) {| nu_live := nu_live s; nu_out := nu_out s ++ b |}.
Proof. eapply eval_call; [done|reflexivity|]. apply eval_ret. Qed.

(** on a kernel that can hold fewer than 1000 children, forktest forks until
    the kernel refuses, waits for every child and for no other, prints that
    it succeeded and exits with status 0. *)
Theorem forktest_succeeds : (limit < 1000)%nat ->
  ev forktest_main {| nu_live := 0; nu_out := [] |} (Exited 0)
    {| nu_live := 0; nu_out := bytes_of "fork test" ++ [chr 10] ++ bytes_of "fork test OK" ++ [chr 10] |}.
Proof.
  intros Hl. unfold forktest_main. eapply eval_bind; [apply print_eval|]. eapply eval_bind; [apply forktest_forks_eval; cbn [nu_live]; lia|].
  cbn [nu_live nu_out]. rewrite Z.add_0_l, Nat.sub_0_r. rewrite (proj2 (Z.eqb_neq _ _)) by lia. rewrite Nat2Z.id.
  eapply eval_bind; [apply forktest_waits_eval|]. eapply eval_call; [done|reflexivity|]. cbn [fst negb Z.eqb Z.compare Pos.eqb Pos.compare].
  eapply eval_bind; [apply print_eval|]. by exists 1%nat.
Qed.
End forktest.

Lemma forktest_succeeds_witness :
  eval (nursery_call 61) forktest_main {| nu_live := 0; nu_out := [] |} (Exited 0)
    {| nu_live := 0; nu_out := bytes_of "fork test" ++ [chr 10] ++ bytes_of "fork test OK" ++ [chr 10] |}.
Proof. apply forktest_succeeds. lia. Defined.
