(* ===== verification/ShRun.v ===== *)
(** * ShRun: running the commands of the shell

    [runcmd] and the main loop of user/sh.c, and how a command is spread over
    processes: which programs are executed, and what their descriptors are. *)

From ITree Require Import Core.ITreeDefinition Interp.Recursion Indexed.Sum Core.Subevent.
From S2P Require Import Prelude Riscv Syscall Printf Tools Sh User UserSem.

Section sh.
Context {E : Type -> Type} `{sysE -< E}.
Local Abbreviation P := (itree E).

Definition panic {A} (s : string) : P A :=
  fprintf 2 "%s" [str (bytes_of s)];;
  exit 1.

Definition fork1 : P Z :=
  pid ← call Fork;
  if pid =? -1 then panic "fork" else mret pid.

(** A child is the branch where [fork1] returns 0; no branch returns. *)
Fixpoint runcmd {A} (c : command) : P A :=
  match c with
  | CExec [] => exit 1
  | CExec (a :: argv) =>
      call (Exec a (a :: argv));;
      fprintf 2 "exec %s failed" [str a];;
      exit 0
  | CRedir c file mode fd =>
      call (Close fd);;
      r ← call (Open file mode);
      if r <? 0 then
        fprintf 2 "open %s failed" [str file];;
        exit 1
      else runcmd c
  | CList l r =>
      pid ← fork1;
      if pid =? 0 then runcmd l
      else
        call Wait;;
        runcmd r
  | CPipe l r =>
      p ← call Pipe;
      if p.1 <? 0 then panic "pipe"
      else
        let '(p0, p1) := p.2 in
        pid ← fork1;
        if pid =? 0 then
          call (Close 1);;
          call (Dup p1);;
          call (Close p0);;
          call (Close p1);;
          runcmd l
        else
          pid ← fork1;
          if pid =? 0 then
            call (Close 0);;
            call (Dup p0);;
            call (Close p0);;
            call (Close p1);;
            runcmd r
          else
            call (Close p0);;
            call (Close p1);;
            call Wait;;
            call Wait;;
            exit 0
  | CBack c =>
      pid ← fork1;
      if pid =? 0 then runcmd c else exit 0
  end.

(** The line, or nothing at the end of the input. *)
Definition getcmd (nbuf : nat) : P (option (list byte)) :=
  call (Write 2 (bytes_of "$ "));;
  got ← gets nbuf;
  let buf := until_nul got in
  mret (match buf with [] => None | _ => Some buf end).

Fixpoint skip_blanks (cmd : list byte) : list byte :=
  match cmd with
  | c :: cmd' => if bool_decide (c = chr 32) || bool_decide (c = chr 9) then skip_blanks cmd' else cmd
  | [] => []
  end.

(** What parsecmd prints of a line with something after the command. *)
Definition leftovers (line : list byte) : option (list byte) :=
  let es := length line in
  let buf := line ++ [chr 0] in
  match parseline buf es (parse_fuel es) 0%nat with
  | POk c s =>
      match peek buf es [] s with
      | POk _ s => if decide (s = es) then None else Some (drop s line)
      | _ => None
      end
  | _ => None
  end.

(** [runcmd(parsecmd(cmd))] *)
Definition run_line {A} (cmd : list byte) : P A :=
  match parsecmd cmd with
  | POk (c, buf) _ => runcmd (view buf c)
  | PPanic msg =>
      match leftovers cmd with
      | Some rest => fprintf 2 "leftovers: %s" [str rest]
      | None => mret tt
      end;;
      panic msg
  | PFuel => undefined
  end.

Definition cd_prefix : list byte := bytes_of "cd ".

(** One command of the main loop. *)
Definition sh_command (line : list byte) : P unit :=
  let cmd := skip_blanks line in
  if bool_decide (head cmd = Some (chr 10)) then mret tt
  else if bool_decide (take 3 cmd = cd_prefix) then
    let dir := drop 3 (take (length cmd - 1) cmd) in
    r ← call (Chdir dir);
    if r <? 0 then fprintf 2 "cannot cd %s" [str dir] else mret tt
  else
    pid ← fork1;
    if pid =? 0 then run_line cmd
    else
      call Wait;;
      mret tt.

Definition sh_main : P unit :=
  loop (
    fd ← call (Open (bytes_of "console") O_RDWR);
    if 0 <=? fd then
      if 3 <=? fd then
        call (Close fd);;
        mret (Some tt)
      else mret None
    else mret (Some tt));;
  loop (
    line ← getcmd 100;
    match line with
    | Some line => sh_command line;; mret None
    | None => mret (Some tt)
    end);;
  exit 0.
End sh.

(** ** The processes of a command *)

(** What a descriptor refers to: something the shell had, a file that was
    opened, or an end of a pipe. *)
Inductive obj := Inherited (n : Z) | Opened (path : list byte) (mode : Z) | ReadEnd (pipe : nat) | WriteEnd (pipe : nat).

Abbreviation fdtable := (gmap Z obj).

(** A program that is executed, with its descriptors. *)
Definition image := (list (list byte) * fdtable)%type.

(** Run a program and the processes it forks, with every call succeeding that
    can: the programs executed and the number of pipes made so far. *)
Fixpoint spawn {A} (n : nat) (t : itree sysE A) (fds : fdtable) (pipes : nat) : option (list image * nat) :=
  match n with
  | O => None
  | S n =>
      match observe t with
      | RetF _ => Some ([], pipes)
      | TauF t => spawn n t fds pipes
      | VisF e k =>
          match e in sysE R return (R -> itree sysE A) -> option (list image * nat) with
          | Fork => fun k =>
              match spawn n (k 0) fds pipes with
              | Some (child, pipes) =>
                  match spawn n (k 1) fds pipes with
                  | Some (parent, pipes) => Some (child ++ parent, pipes)
                  | None => None
                  end
              | None => None
              end
          | Exit _ => fun _ => Some ([], pipes)
          | Exec _ argv => fun _ => Some ([(argv, fds)], pipes)
          | Wait => fun k => spawn n (k (1, 0)) fds pipes
          | Pipe => fun k =>
              match lowest fds 0 (Z.to_nat NOFILE) with
              | Some p0 =>
                  let fds0 := <[p0 := ReadEnd pipes]> fds in
                  match lowest fds0 0 (Z.to_nat NOFILE) with
                  | Some p1 => spawn n (k (0, (p0, p1))) (<[p1 := WriteEnd pipes]> fds0) (S pipes)
                  | None => spawn n (k (-1, (0, 0))) fds pipes
                  end
              | None => spawn n (k (-1, (0, 0))) fds pipes
              end
          | Write _ b => fun k => spawn n (k (Z.of_nat (length b))) fds pipes
          | Close fd => fun k => spawn n (k (if fds !! fd is Some _ then 0 else -1)) (delete fd fds) pipes
          | Dup fd => fun k =>
              match fds !! fd, lowest fds 0 (Z.to_nat NOFILE) with
              | Some o, Some fd' => spawn n (k fd') (<[fd' := o]> fds) pipes
              | _, _ => spawn n (k (-1)) fds pipes
              end
          | Open path mode => fun k =>
              match lowest fds 0 (Z.to_nat NOFILE) with
              | Some fd => spawn n (k fd) (<[fd := Opened path mode]> fds) pipes
              | None => spawn n (k (-1)) fds pipes
              end
          | _ => fun _ => None
          end k
      end
  end.

(** What a command is meant to do. *)
Fixpoint plan (c : command) (fds : fdtable) (pipes : nat) : list image * nat :=
  match c with
  | CExec [] => ([], pipes)
  | CExec argv => ([(argv, fds)], pipes)
  | CRedir c file mode fd => plan c (<[fd := Opened file mode]> fds) pipes
  | CList l r =>
      let '(a, pipes) := plan l fds pipes in
      let '(b, pipes) := plan r fds pipes in
      (a ++ b, pipes)
  | CPipe l r =>
      let '(a, pipes') := plan l (<[1 := WriteEnd pipes]> fds) (S pipes) in
      let '(b, pipes') := plan r (<[0 := ReadEnd pipes]> fds) pipes' in
      (a ++ b, pipes')
  | CBack c => plan c fds pipes
  end.

Lemma spawn_observe {A} n (t u : itree sysE A) fds pipes :
  observe t = observe u -> spawn n t fds pipes = spawn n u fds pipes.
Proof. intros E. destruct n; [done|]. simpl. by rewrite E. Qed.

(** With more fuel. *)
Definition spawns {A} (t : itree sysE A) (fds : fdtable) (pipes : nat) (r : list image * nat) : Prop :=
  exists n, forall m, (n <= m)%nat -> spawn m t fds pipes = Some r.

Lemma spawns_observe {A} (t u : itree sysE A) fds pipes r : observe t = observe u -> spawns u fds pipes r -> spawns t fds pipes r.
Proof. intros E [n Hn]. exists n. intros m Hm. rewrite (spawn_observe m t u) by done. auto. Qed.

Lemma observe_call {A R} (e : sysE R) (k : R -> itree sysE A) :
  observe (call e ≫= k) = VisF e (fun x => ITree.bind (Ret x) k).
Proof. reflexivity. Qed.

Ltac spawn_call n Hn :=
  exists (S n); intros [|m] Hm; [lia|]; cbn [spawn]; rewrite observe_call;
  rewrite <-(Hn m) by lia; apply spawn_observe; reflexivity.

Lemma spawns_close {A} fd (k : Z -> itree sysE A) fds pipes r :
  (forall x, spawns (k x) (delete fd fds) pipes r) -> spawns (call (Close fd) ≫= k) fds pipes r.
Proof. intros Hk. destruct (Hk (if fds !! fd is Some _ then 0 else -1)) as [n Hn]. spawn_call n Hn. Qed.

Lemma spawns_wait {A} (k : Z * Z -> itree sysE A) fds pipes r :
  spawns (k (1, 0)) fds pipes r -> spawns (call Wait ≫= k) fds pipes r.
Proof. intros [n Hn]. spawn_call n Hn. Qed.

Lemma spawns_open {A} path mode fd (k : Z -> itree sysE A) fds pipes r :
  lowest fds 0 (Z.to_nat NOFILE) = Some fd -> spawns (k fd) (<[fd := Opened path mode]> fds) pipes r ->
  spawns (call (Open path mode) ≫= k) fds pipes r.
Proof.
  intros Hl [n Hn]. exists (S n). intros [|m] Hm; [lia|]. cbn [spawn]. rewrite observe_call. cbv beta iota. rewrite Hl.
  rewrite <-(Hn m) by lia. by apply spawn_observe.
Qed.

Lemma spawns_dup {A} fd fd' o (k : Z -> itree sysE A) fds pipes r :
  fds !! fd = Some o -> lowest fds 0 (Z.to_nat NOFILE) = Some fd' -> spawns (k fd') (<[fd' := o]> fds) pipes r ->
  spawns (call (Dup fd) ≫= k) fds pipes r.
Proof.
  intros Ho Hl [n Hn]. exists (S n). intros [|m] Hm; [lia|]. cbn [spawn]. rewrite observe_call. cbv beta iota. rewrite Ho, Hl.
  rewrite <-(Hn m) by lia. by apply spawn_observe.
Qed.

Lemma spawns_fork1 {A} (k : Z -> itree sysE A) fds pipes a b p1 p2 :
  spawns (k 0) fds pipes (a, p1) -> spawns (k 1) fds p1 (b, p2) -> spawns (fork1 ≫= k) fds pipes (a ++ b, p2).
Proof.
  intros [n Hn] [n' Hn']. exists (S (n + n')). intros [|m] Hm; [lia|].
  assert (E : observe (fork1 ≫= k) = VisF Fork (fun x => ITree.bind (ITree.bind (Ret x)
    (fun pid => if pid =? -1 then panic "fork" else mret pid)) k)) by reflexivity.
  cbn [spawn]. rewrite E. cbv beta iota.
  rewrite (spawn_observe m _ (k 0)), (Hn m) by (reflexivity || lia).
  rewrite (spawn_observe m _ (k 1)), (Hn' m) by (reflexivity || lia). done.
Qed.

Lemma spawns_exit {A} n fds pipes : spawns (exit n : itree sysE A) fds pipes ([], pipes).
Proof. exists 1%nat. by intros [|m] Hm; [lia|]. Qed.

Lemma spawns_pipe {A} p0 p1 (k : Z * (Z * Z) -> itree sysE A) fds pipes r :
  lowest fds 0 (Z.to_nat NOFILE) = Some p0 -> lowest (<[p0 := ReadEnd pipes]> fds) 0 (Z.to_nat NOFILE) = Some p1 ->
  spawns (k (0, (p0, p1))) (<[p1 := WriteEnd pipes]> (<[p0 := ReadEnd pipes]> fds)) (S pipes) r ->
  spawns (call Pipe ≫= k) fds pipes r.
Proof.
  intros H0 H1 [n Hn]. exists (S n). intros [|m] Hm; [lia|]. cbn [spawn]. rewrite observe_call. cbv beta iota.
  rewrite H0, H1. rewrite <-(Hn m) by lia. by apply spawn_observe.
Qed.

(** ** Descriptors while a command runs *)

(** A shell has descriptors 0 and 1 open, and two to spare for a pipe. *)
Definition roomy (fds : fdtable) : Prop := is_Some (fds !! 0) /\ is_Some (fds !! 1) /\ (2 <= avail fds)%nat.

Lemma lowest_at (fds : fdtable) fd : 0 <= fd <= 1 -> (forall i, 0 <= i < fd -> is_Some (fds !! i)) ->
  lowest (delete fd fds) 0 (Z.to_nat NOFILE) = Some fd.
Proof.
  intros Hfd Hlow. change (Z.to_nat NOFILE) with 16%nat. destruct (decide (fd = 0)) as [->|Hne].
  - cbn [lowest]. by rewrite lookup_delete_eq.
  - assert (fd = 1) as -> by lia. destruct (Hlow 0 ltac:(lia)) as [x Hx]. cbn [lowest].
    rewrite lookup_delete_ne, Hx by done. change (0 + 1) with 1. by rewrite lookup_delete_eq.
Qed.

Lemma avail_ext (a b : fdtable) : (forall i, a !! i = None <-> b !! i = None) -> avail a = avail b.
Proof. intros E. unfold avail. f_equal. by apply list_filter_iff. Qed.

Lemma roomy_insert fds fd o : roomy fds -> 0 <= fd <= 1 -> roomy (<[fd := o]> fds).
Proof.
  intros (H0 & H1 & Ha) Hfd. split_and!.
  - destruct (decide (fd = 0)) as [->|]; [rewrite lookup_insert_eq; eauto|by rewrite lookup_insert_ne].
  - destruct (decide (fd = 1)) as [->|]; [rewrite lookup_insert_eq; eauto|by rewrite lookup_insert_ne].
  - rewrite (avail_ext _ fds); [done|]. intros i. destruct (decide (i = fd)) as [->|]; [|by rewrite lookup_insert_ne].
    rewrite lookup_insert_eq. assert (fd = 0 \/ fd = 1) as [-> | ->] by lia; destruct H0, H1; split; congruence.
Qed.

(** The ends of a pipe, given to one side of it. *)
Lemma pipe_side (fds : fdtable) p0 p1 r w fd o : fds !! p0 = None -> fds !! p1 = None -> p0 <> fd -> p1 <> fd ->
  delete p1 (delete p0 (<[fd := o]> (delete fd (<[p1 := w]> (<[p0 := r]> fds))))) = <[fd := o]> fds.
Proof.
  intros H0 H1 N0 N1. apply map_eq. intros i.
  destruct (decide (i = p1)) as [->|]; [by rewrite lookup_delete_eq, lookup_insert_ne|]. rewrite lookup_delete_ne by done.
  destruct (decide (i = p0)) as [->|]; [by rewrite lookup_delete_eq, lookup_insert_ne|]. rewrite lookup_delete_ne by done.
  destruct (decide (i = fd)) as [->|]; [by rewrite !lookup_insert_eq|].
  by rewrite lookup_insert_ne, lookup_delete_ne, !lookup_insert_ne by done.
Qed.

(** The redirections the parser makes are of descriptors 0 and 1. *)
Fixpoint wired (c : command) : Prop :=
  match c with
  | CExec _ => True
  | CRedir c _ _ fd => wired c /\ 0 <= fd <= 1
  | CPipe l r | CList l r => wired l /\ wired r
  | CBack c => wired c
  end.

Lemma redir_spawns c file mode fd fds pipes :
  roomy fds -> 0 <= fd <= 1 -> spawns (runcmd c : U unit) (<[fd := Opened file mode]> fds) pipes (plan c (<[fd := Opened file mode]> fds) pipes) ->
  spawns (runcmd (CRedir c file mode fd) : U unit) fds pipes (plan (CRedir c file mode fd) fds pipes).
Proof.
  intros (H0 & _) Hfd Hc. cbn [runcmd plan]. apply spawns_close. intros _.
  eapply spawns_open.
  - apply lowest_at; [done|]. intros i Hi. by replace i with 0 by lia.
  - rewrite (proj2 (Z.ltb_ge _ _)) by lia. by rewrite insert_delete_eq.
Qed.

(** A child of a pipeline: descriptor [fd] becomes an end of the pipe. *)
Lemma side_spawns (t : U unit) (fds T : fdtable) p0 p1 fd p e pipes r :
  roomy fds -> 0 <= fd <= 1 -> fds !! p0 = None -> fds !! p1 = None -> p0 <> p1 -> p = p0 \/ p = p1 ->
  T = <[p1 := WriteEnd e]> (<[p0 := ReadEnd e]> fds) ->
  (forall o, T !! p = Some o -> spawns t (<[fd := o]> fds) pipes r) ->
  spawns (call (Close fd);; call (Dup p);; call (Close p0);; call (Close p1);; t) T pipes r.
Proof.
  intros (H0 & H1 & _) Hfd N0 N1 Hne Hp -> Ht.
  assert (Hlt : p0 <> 0 /\ p0 <> 1 /\ p1 <> 0 /\ p1 <> 1) by (split_and!; intros ->; destruct H0, H1; congruence).
  destruct Hlt as (? & ? & ? & ?). set (T := <[p1 := _]> _) in *.
  assert (Ho : exists o, T !! p = Some o).
  { unfold T. destruct Hp as [-> | ->]; [rewrite lookup_insert_ne by done; rewrite lookup_insert_eq|rewrite lookup_insert_eq]; eauto. }
  destruct Ho as [o Ho]. apply spawns_close. intros _. eapply spawns_dup.
  - rewrite lookup_delete_ne; [exact Ho|]. destruct Hp as [-> | ->]; lia.
  - apply lowest_at; [done|]. intros i Hi. replace i with 0 by lia. unfold T. by rewrite !lookup_insert_ne by done.
  - apply spawns_close. intros _. apply spawns_close. intros _. unfold T. rewrite pipe_side by (done || lia). by apply Ht.
Qed.

Lemma runcmd_spawns c : wired c -> forall fds pipes, roomy fds ->
  spawns (runcmd c : U unit) fds pipes (plan c fds pipes).
Proof.
  induction c as [argv|c IH file mode fd|l IHl r IHr|l IHl r IHr|c IH]; intros Hw fds pipes Hr.
  - destruct argv as [|a argv]; [apply spawns_exit|]. exists 1%nat. by intros [|m] Hm; [lia|].
  - destruct Hw as [Hw Hfd]. apply redir_spawns; [done|done|]. apply IH; [done|]. by apply roomy_insert.
  - destruct Hw as [Hl Hrr]. pose proof Hr as (H0 & H1 & Ha).
    destruct (open_avail fds ltac:(lia)) as (p0 & L0 & R0 & N0).
    pose proof (avail_open fds p0 (ReadEnd pipes) N0 R0) as Hav.
    destruct (open_avail (<[p0 := ReadEnd pipes]> fds) ltac:(lia)) as (p1 & L1 & R1 & N1).
    assert (p0 <> p1) by (intros ->; by rewrite lookup_insert_eq in N1). rewrite lookup_insert_ne in N1 by done.
    cbn [runcmd plan]. eapply spawns_pipe; [exact L0|exact L1|]. cbn [fst snd].
    change (0 <? 0) with false. cbv iota.
    destruct (plan l _ _) as [a p2] eqn:Ea. destruct (plan r _ p2) as [b p3] eqn:Eb.
    apply spawns_fork1 with (p1 := p2).
    { change (0 =? 0) with true. cbv iota. eapply (side_spawns _ fds); [done|lia|exact N0|exact N1|done|by right|done|].
      rewrite lookup_insert_eq. intros o [= <-]. rewrite <-Ea. apply IHl; [done|]. by apply roomy_insert. }
    change (1 =? 0) with false. cbv iota. rewrite <-(app_nil_r b). apply spawns_fork1 with (p1 := p3).
    { change (0 =? 0) with true. cbv iota. eapply (side_spawns _ fds); [done|lia|exact N0|exact N1|done|by left|done|].
      rewrite lookup_insert_ne, lookup_insert_eq by done. intros o [= <-]. rewrite <-Eb. apply IHr; [done|]. by apply roomy_insert. }
    change (1 =? 0) with false. cbv iota. do 2 (apply spawns_close; intros _). do 2 apply spawns_wait. apply spawns_exit.
  - destruct Hw as [Hl Hrr]. cbn [runcmd plan].
    destruct (plan l _ _) as [a p2] eqn:Ea. destruct (plan r _ p2) as [b p3] eqn:Eb.
    apply spawns_fork1 with (p1 := p2); [rewrite <-Ea; by apply IHl|].
    change (1 =? 0) with false. cbv iota. apply spawns_wait. rewrite <-Eb. by apply IHr.
  - cbn [runcmd plan]. destruct (plan c fds pipes) as [a p2] eqn:Ea. rewrite <-(app_nil_r a).
    apply spawns_fork1 with (p1 := p2); [rewrite <-Ea; by apply IH|]. apply spawns_exit.
Qed.

(** C35: [runcmd] runs exactly the programs of the command, each with the
    descriptors it should have: a redirection replaces descriptor 0 or 1, the two
    sides of a pipe have its ends as output and input and no other copy of
    them, and everything else is what the shell had.  The shell needs descriptors
    0 and 1 open, which the first loop of main sees to, and two free ones. *)
Theorem runcmd_plumbing c fds : wired c -> roomy fds ->
  exists n, forall m, (n <= m)%nat -> spawn m (runcmd c : U unit) fds 0 = Some (plan c fds 0).
Proof. intros Hw Hr. by apply runcmd_spawns. Qed.

Definition console_fds : fdtable := {[0 := Inherited 0; 1 := Inherited 1; 2 := Inherited 2]}.

Lemma runcmd_plumbing_witness :
  exists n, forall m, (n <= m)%nat ->
    spawn m (runcmd (CPipe (CExec [bytes_of "ls"]) (CRedir (CExec [bytes_of "wc"]) (bytes_of "out") 1537 1)) : U unit)
      console_fds 0 =
    Some ([([bytes_of "ls"], <[1 := WriteEnd 0]> console_fds);
           ([bytes_of "wc"], <[1 := Opened (bytes_of "out") 1537]> (<[0 := ReadEnd 0]> console_fds))], 1%nat).
Proof.
  apply (runcmd_plumbing (CPipe (CExec [bytes_of "ls"]) (CRedir (CExec [bytes_of "wc"]) (bytes_of "out") 1537 1)) console_fds).
  - cbn [wired]. split; [done|]. split; [done|]. lia.
  - split; [by vm_compute; eauto|]. split; [by vm_compute; eauto|]. vm_compute. lia.
Defined.
