(* ===== verification/Find.v ===== *)
(** * Find: user/find.c

    The recursive search of a directory tree.  The paths live in arrays of 512
    characters: where the program would write past them, or read a directory
    entry whose name has no NUL, the model has [undefined]. *)

From ITree Require Import Core.ITreeDefinition Interp.Recursion Indexed.Sum Core.Subevent.
From S2P Require Import Prelude Layout Fs Syscall Printf Tools User.

(** sizeof(dirent_buf) *)
Definition path_max : nat := 512.

Definition append_subdirectory (dirname subdirname : list byte) : list byte :=
  dirname ++ (if decide (dirname = []) then [] else [chr 47]) ++ subdirname.

Section find.
Context {E : Type -> Type} `{sysE -< E}.
Local Abbreviation P := (itree E).

(** The descriptor or -1, and [st], which is the one before if it is not filled in. *)
Definition readstat (dirname : list byte) (st : stat) : P (Z * stat) :=
  fd ← call (Open dirname O_RDONLY);
  if fd <? 0 then
    printf "Error opening file %s." [str dirname];;
    mret (-1, st)
  else
    r ← call (Fstat fd);
    if r.1 <? 0 then
      printf "Error reading fstat on file %s." [str dirname];;
      mret (-1, st)
    else mret (fd, r.2).

Definition display_file (filename : list byte) : P Z :=
  printf "%s" [str filename];;
  mret 0.

(** The arguments of the command are followed by the file name and by what
    the array held before, up to a null pointer. *)
Definition cmd_file (argv garbage : list (list byte)) (filename : list byte) : P Z :=
  pid ← call Fork;
  (if pid =? 0 then call (Exec (default [] (head argv)) (argv ++ [filename] ++ garbage)) else mret 0);;
  call Wait;;
  mret 0.

(** A directory entry, in the order of the code: the status, the callback, the
    subdirectory.  [again] is the recursive call. *)
Definition visit (filename : list byte) (callback again : list byte -> P Z)
    (dirname de : list byte) (st : stat) : P stat :=
  if (path_max <? length dirname + 1)%nat then undefined
  else if bool_decide (chr 0 ∉ de_name de) then undefined
  else
    let name := until_nul (de_name de) in
    let path := append_subdirectory dirname name in
    if (path_max <? length path + 1)%nat then undefined
    else
      d ← readstat path st;
      (if d.1 <? 0 then printf "Error." [] else mret tt);;
      call (Close d.1);;
      let st := d.2 in
      (if ((st_type st =? T_FILE) || (st_type st =? T_DIR)) && (strcmp name filename =? 0) then callback path else mret 0);;
      (if (st_type st =? T_DIR) && negb (strcmp name (bytes_of ".") =? 0) && negb (strcmp name (bytes_of "..") =? 0)
       then again path else mret 0);;
      mret st.

(** One turn of the loop over the directory. *)
Definition find_entry (filename : list byte) (callback again : list byte -> P Z) (dirname : list byte) (fd : Z)
    (st : stat) : P (stat + unit) :=
  r ← call (Read fd sizeof_dirent);
  if negb (r.1 =? sizeof_dirent) then mret (inr tt)
  else if de_inum r.2 =? 0 then mret (inl st)
  else
    st ← visit filename callback again dirname r.2 st;
    mret (inl st).

Definition find_dir (filename : list byte) (callback again : list byte -> P Z) (dirname : list byte) (st : stat) : P Z :=
  r ← readstat dirname st;
  if r.1 <? 0 then
    printf "Error calling readstat on file %s." [str dirname];;
    mret 1
  else if negb (st_type r.2 =? T_DIR) then
    printf "Error: %s is not a directory." [str dirname];;
    call (Close r.1);;
    mret 1
  else
    loop_with (find_entry filename callback again dirname r.1) r.2;;
    call (Close r.1);;
    mret 0.
End find.

(** [st] is an uninitialised variable of each call, [st0]. *)
Definition find_body (st0 : stat) (filename : list byte)
    (callback : list byte -> itree (callE (list byte) Z +' sysE) Z) (dirname : list byte) :
    itree (callE (list byte) Z +' sysE) Z :=
  find_dir filename callback (fun path => ITree.trigger (inl1 (Call path))) dirname st0.

Definition find (st0 : stat) (filename : list byte) (callback : list byte -> itree (callE (list byte) Z +' sysE) Z)
    (dirname : list byte) : U Z :=
  rec (find_body st0 filename callback) dirname.

(** main; a program has at least its name as argument. *)
Definition find_main (st0 : stat) (garbage argv : list (list byte)) : U unit :=
  let arg i := default [] (argv !! i) in
  let argc := Z.of_nat (length argv) in
  if negb (argc =? 3) && (argc <? 5) then
    printf "Error: 2 or 4+ arguments required, %d provided." [ANum (argc - 1)];;
    printf "Usage: find <dir> <filename>" [];;
    printf "find <dir> <filename> -exec <cmd> // where dir the subtree to begin searchign in" [];;
    exit 1
  else if (5 <=? argc) && (strcmp (arg 3%nat) (bytes_of "-exec") =? 0) then
    result ← find st0 (arg 2%nat) (cmd_file (drop 4 argv) garbage) (arg 1%nat);
    exit result
  else if 5 <=? argc then
    printf "Error: unsupported flag: %s." [str (arg 3%nat)];;
    exit 1
  else
    result ← find st0 (arg 2%nat) display_file (arg 1%nat);
    exit result.
