(* ===== verification/FindSpec.v ===== *)
(** * FindSpec: find visits a directory tree

    The kernel of this file knows a set of files by their paths and gives a
    process sixteen descriptors.  On a tree of directories, [find] prints the
    paths of the files and directories with the given name, and stops. *)

From ITree Require Import Core.ITreeDefinition Interp.Recursion Indexed.Sum Core.Subevent.
From S2P Require Import Prelude Riscv Layout Fs Syscall Printf Tools User UserSem Find.

(** ** Files *)

Record fenv := { e_open : gmap Z (list byte * nat); e_out : list byte }.
Definition set_open (o : gmap Z (list byte * nat)) (s : fenv) : fenv := {| e_open := o; e_out := e_out s |}.
Definition add_out (b : list byte) (s : fenv) : fenv := {| e_open := e_open s; e_out := e_out s ++ b |}.

Definition no_stat : stat := {| st_dev := 0; st_ino := 0; st_type := 0; st_nlink := 0; st_size := 0 |}.

Lemma strcmp_eq p q : chr 0 ∉ p -> chr 0 ∉ q -> (strcmp p q =? 0) = bool_decide (p = q).
Proof.
  assert (Hcv : forall c, c <> chr 0 -> cv c <> 0).
  { intros c Hc E. apply Hc. apply (f_equal chr) in E. by rewrite byte.of_Z_unsigned in E. }
  revert q. induction p as [|x p IH]; intros [|y q] Hp Hq; cbn [strcmp].
  - done.
  - apply not_elem_of_cons in Hq as [Hy _]. rewrite bool_decide_eq_false_2 by done.
    apply Z.eqb_neq. specialize (Hcv y). intros E. apply Hcv; [congruence|lia].
  - apply not_elem_of_cons in Hp as [Hx _]. rewrite bool_decide_eq_false_2 by done.
    apply Z.eqb_neq. intros E. by apply (Hcv x).
  - apply not_elem_of_cons in Hp as [Hx Hp]. apply not_elem_of_cons in Hq as [Hy Hq].
    destruct (decide (x = y)) as [->|Hne].
    + rewrite IH by done. apply bool_decide_ext. naive_solver.
    + rewrite bool_decide_eq_false_2 by naive_solver. apply Z.eqb_neq. intros E. apply Hne.
      assert (E' : cv x = cv y) by lia. apply (f_equal chr) in E'. by rewrite !byte.of_Z_unsigned in E'.
Qed.

Lemma until_nul_no_nul l : chr 0 ∉ until_nul l.
Proof.
  induction l as [|c l IH]; cbn [until_nul]; [apply not_elem_of_nil|]. case_decide; [apply not_elem_of_nil|].
  apply not_elem_of_cons. by split.
Qed.

Section files.
(** What is at a path: its status and, for a directory, its entries. *)
Context (files : list byte -> option (stat * list (list byte))).

Definition content (p : list byte) : list byte := match files p with Some (_, des) => concat des | None => [] end.

Definition file_call (R : Type) (e : sysE R) (s : fenv) : option (R * fenv) :=
  match e with
  | Open p _ => Some
      match files p, lowest (e_open s) 0 (Z.to_nat NOFILE) with
      | Some _, Some fd => (fd, set_open (<[fd := (p, 0%nat)]> (e_open s)) s)
      | _, _ => (-1, s)
      end
  | Fstat fd => Some
      match e_open s !! fd with
      | Some (p, _) => match files p with Some (st, _) => ((0, st), s) | None => ((-1, no_stat), s) end
      | None => ((-1, no_stat), s)
      end
  | Read fd n => Some
      match e_open s !! fd with
      | Some (p, off) =>
          let b := take (Z.to_nat n) (drop off (content p)) in
          ((Z.of_nat (length b), b), set_open (<[fd := (p, off + length b)%nat]> (e_open s)) s)
      | None => ((-1, []), s)
      end
  | Close fd => Some
      match e_open s !! fd with
      | Some _ => (0, set_open (delete fd (e_open s)) s)
      | None => (-1, s)
      end
  | Write fd b => if fd =? 1 then Some (Z.of_nat (length b), add_out b s) else None
  | _ => None
  end.

(** ** What find looks for *)

Definition name_of (de : list byte) : list byte := until_nul (de_name de).
Definition dots (name : list byte) : bool := bool_decide (name = bytes_of ".") || bool_decide (name = bytes_of "..").

(** [p] is an entry of the directory [dir]. *)
Definition entry_of (dir de p : list byte) (st : stat) : Prop :=
  exists std des sub, files dir = Some (std, des) /\ de ∈ des /\ de_inum de <> 0 /\
    p = append_subdirectory dir (name_of de) /\ files p = Some (st, sub).

(** The paths that [find dir filename] is to print. *)
Inductive found (filename : list byte) : list byte -> list byte -> Prop :=
| found_here dir de p st :
    entry_of dir de p st -> st_type st = T_FILE \/ st_type st = T_DIR -> name_of de = filename -> found filename dir p
| found_below dir de p st q :
    entry_of dir de p st -> st_type st = T_DIR -> dots (name_of de) = false -> found filename p q -> found filename dir q.

(** A directory whose subdirectories nest at most [d] deep, itself included,
    and whose names and paths fit their arrays. *)
Fixpoint tree (d : nat) (dir : list byte) : Prop :=
  match d with
  | O => False
  | S d =>
      exists st des, files dir = Some (st, des) /\ st_type st = T_DIR /\ Forall (fun de => length de = 16%nat) des /\
        (length dir < path_max)%nat /\
        forall de, de ∈ des -> de_inum de <> 0 ->
          let p := append_subdirectory dir (name_of de) in
          chr 0 ∈ de_name de /\ (length p < path_max)%nat /\ exists st' sub, files p = Some (st', sub) /\
            (st_type st' = T_DIR -> dots (name_of de) = false -> tree d p)
  end.

(** The same as a function. *)
Fixpoint tree_check (d : nat) (dir : list byte) : bool :=
  match d with
  | O => false
  | S d =>
      match files dir with
      | Some (st, des) =>
          (st_type st =? T_DIR) && forallb (fun de => (length de =? 16)%nat) des && (length dir <? path_max)%nat &&
          forallb (fun de => (de_inum de =? 0) ||
            let p := append_subdirectory dir (name_of de) in
            bool_decide (chr 0 ∈ de_name de) && (length p <? path_max)%nat &&
            match files p with
            | Some (st', _) => negb (st_type st' =? T_DIR) || dots (name_of de) || tree_check d p
            | None => false
            end) des
      | None => false
      end
  end.

Lemma tree_check_ok d dir : tree_check d dir = true -> tree d dir.
Proof.
  revert dir. induction d as [|d IH]; intros dir; [done|]. cbn [tree_check tree].
  destruct (files dir) as [[st des]|]; [|done]. rewrite !andb_true_iff, Z.eqb_eq, Nat.ltb_lt, !forallb_forall.
  intros [[[Hty Hl] Hd] Hde]. exists st, des. split_and!; [done|done| |done|].
  { apply Forall_forall. intros de Hin. apply Nat.eqb_eq, Hl. by apply list_elem_of_In. }
  intros de Hin Hn. apply list_elem_of_In in Hin. specialize (Hde de Hin). rewrite orb_true_iff, Z.eqb_eq in Hde.
  destruct Hde as [|Hde]; [done|]. set (p := append_subdirectory dir (name_of de)) in *. rewrite !andb_true_iff, Nat.ltb_lt, bool_decide_eq_true in Hde.
  destruct Hde as [[Hnul Hp] Hf]. destruct (files p) as [[st' sub]|]; [|done]. split_and!; [done|done|].
  exists st', sub. split; [done|]. intros Ety Ed. rewrite Ety, Ed, Z.eqb_refl in Hf. by apply IH.
Qed.

(** ** In the order in which they are printed *)

Definition visited (walk : list byte -> list (list byte)) (filename dir de : list byte) : list (list byte) :=
  if de_inum de =? 0 then []
  else
    let p := append_subdirectory dir (name_of de) in
    match files p with
    | Some (st, _) =>
        (if ((st_type st =? T_FILE) || (st_type st =? T_DIR)) && bool_decide (name_of de = filename) then [p] else []) ++
        (if (st_type st =? T_DIR) && negb (dots (name_of de)) then walk p else [])
    | None => []
    end.

Fixpoint walk (d : nat) (filename dir : list byte) : list (list byte) :=
  match d with
  | O => []
  | S d =>
      match files dir with
      | Some (_, des) => concat (visited (walk d filename) filename dir <$> des)
      | None => []
      end
  end.

Lemma elem_of_concat {A} (x : A) ls : x ∈ concat ls <-> exists l, l ∈ ls /\ x ∈ l.
Proof.
  rewrite list_elem_of_In, in_concat. setoid_rewrite list_elem_of_In. naive_solver.
Qed.

Lemma walk_found filename d : forall dir q, tree d dir -> q ∈ walk d filename dir <-> found filename dir q.
Proof.
  induction d as [|d IH]; intros dir q Ht; [done|]. destruct Ht as (st & des & Hf & _ & _ & _ & Hde). simpl.
  rewrite Hf, elem_of_concat. split.
  - intros (l & (de & -> & Hin)%list_elem_of_fmap & Hq). unfold visited in Hq.
    destruct (Z.eqb_spec (de_inum de) 0) as [|Hn]; [by apply elem_of_nil in Hq|].
    destruct (Hde de Hin Hn) as (_ & _ & st' & sub & Hp & Hsub). rewrite Hp in Hq.
    assert (He : entry_of dir de (append_subdirectory dir (name_of de)) st') by (by exists st, des, sub).
    apply elem_of_app in Hq as [Hq|Hq].
    + destruct (_ && _) eqn:E in Hq; [|by apply elem_of_nil in Hq]. apply list_elem_of_singleton in Hq as ->.
      apply andb_prop in E as [E1 E2]. apply bool_decide_eq_true in E2. rewrite orb_true_iff, !Z.eqb_eq in E1.
      by eapply found_here.
    + destruct (_ && _) eqn:E in Hq; [|by apply elem_of_nil in Hq]. apply andb_prop in E as [E1 E2].
      apply Z.eqb_eq in E1. apply negb_true_iff in E2. eapply found_below; [exact He|done|done|].
      apply IH; [by apply Hsub|done].
  - intros Hq. assert (Hx : exists de st' sub, de ∈ des /\ de_inum de <> 0 /\
      files (append_subdirectory dir (name_of de)) = Some (st', sub) /\
      ((q = append_subdirectory dir (name_of de) /\ (st_type st' = T_FILE \/ st_type st' = T_DIR) /\ name_of de = filename) \/
       (st_type st' = T_DIR /\ dots (name_of de) = false /\ found filename (append_subdirectory dir (name_of de)) q))).
    { inversion Hq as [? de p st' (std & des' & sub & F & Hin & Hn & -> & Hp) Hty Hnm|
        ? de p st' ? (std & des' & sub & F & Hin & Hn & -> & Hp) Hty Hd Hbelow]; subst; rewrite Hf in F; simplify_eq;
        exists de, st', sub; naive_solver. }
    destruct Hx as (de & st' & sub & Hin & Hn & Hp & Hx).
    exists (visited (walk d filename) filename dir de). split; [by apply list_elem_of_fmap_2|].
    unfold visited. rewrite (proj2 (Z.eqb_neq _ _) Hn), Hp. apply elem_of_app.
    destruct Hx as [(-> & Hty & Hnm)|(Hty & Hd & Hb)].
    + left. rewrite bool_decide_eq_true_2 by done. rewrite (proj2 (orb_true_iff _ _)) by (rewrite !Z.eqb_eq; tauto).
      by apply list_elem_of_singleton.
    + right. rewrite (proj2 (Z.eqb_eq _ _) Hty), Hd. simpl. apply IH; [|done].
      destruct (Hde de Hin Hn) as (_ & _ & st2 & sub2 & Hp2 & Hsub). rewrite Hp in Hp2. simplify_eq. by apply Hsub.
Qed.

Lemma name_no_nul de : chr 0 ∉ name_of de.
Proof using. apply until_nul_no_nul. Qed.

(** ** The run *)

Definition lines (ps : list (list byte)) : list byte := concat ((fun p => p ++ [chr 10]) <$> ps).

Lemma lines_app a b : lines (a ++ b) = lines a ++ lines b.
Proof using. unfold lines. by rewrite fmap_app, concat_app. Qed.

Lemma add_out_app a b s : add_out b (add_out a s) = add_out (a ++ b) s.
Proof using. unfold add_out. simpl. by rewrite app_assoc. Qed.

Lemma add_out_nil s : add_out [] s = s.
Proof using. unfold add_out. rewrite app_nil_r. by destruct s. Qed.

Section ev.
Context {E} {sub : sysE -< E} {ev : forall R, itree E R -> fenv -> ending R -> fenv -> Prop} {EV : Evaluates file_call ev}.

Lemma putcs_ev b s : ev _ (putcs 1 b) s (Returned tt) (add_out b s).
Proof using EV.
  revert s. induction b as [|c b IH]; intros s; cbn [putcs].
  - rewrite add_out_nil. apply (ev_ret file_call).
  - eapply (ev_call file_call); [done|done|]. change (c :: b) with ([c] ++ b). rewrite <-add_out_app. apply IH.
Qed.

Lemma display_ev p s : ev _ (display_file p) s (Returned 0) (add_out (lines [p]) s).
Proof using EV.
  eapply (ev_bind file_call); [|apply (ev_ret file_call)]. unfold printf, fprintf.
  replace (vprintf _ _) with (Some (p ++ [chr 10])) by reflexivity.
  unfold lines. simpl. rewrite app_nil_r. apply putcs_ev.
Qed.

Lemma readstat_ev p st s st' des : files p = Some (st', des) -> (0 < avail (e_open s))%nat ->
  exists fd, e_open s !! fd = None /\ 0 <= fd < NOFILE /\
    ev _ (readstat p st) s (Returned (fd, st')) (set_open (<[fd := (p, 0%nat)]> (e_open s)) s).
Proof using EV.
  intros Hp Ha. destruct (open_avail _ Ha) as (fd & Hl & Hr & Hn). exists fd. split_and!; [done|lia|lia|].
  unfold readstat. eapply (ev_call file_call); [done|cbn [file_call]; by rewrite Hp, Hl|].
  rewrite (proj2 (Z.ltb_ge fd 0)) by lia. eapply (ev_call file_call); [done|cbn [file_call set_open e_open]; by rewrite lookup_insert_eq, Hp|].
  apply (ev_ret file_call).
Qed.

Lemma mret_ev {A B} (a : A) (k : A -> itree E B) s o s' : ev _ (k a) s o s' -> ev _ (mret a ≫= k) s o s'.
Proof using EV. intros Hk. eapply (ev_bind file_call); [apply (ev_ret file_call)|exact Hk]. Qed.

Lemma visit_ev w filename again dir de st s st' des :
  chr 0 ∉ filename -> (length dir < path_max)%nat -> chr 0 ∈ de_name de -> de_inum de <> 0 ->
  let p := append_subdirectory dir (name_of de) in
  (length p < path_max)%nat -> files p = Some (st', des) -> (0 < avail (e_open s))%nat ->
  (st_type st' = T_DIR -> dots (name_of de) = false ->
     forall s1, e_open s1 = e_open s -> ev _ (again p) s1 (Returned 0) (add_out (lines (w p)) s1)) ->
  ev _ (visit filename display_file again dir de st) s (Returned st') (add_out (lines (visited w filename dir de)) s).
Proof using EV.
  intros Hfn Hdir Hnul Hinum p Hp Hf Ha Hag. unfold visit, visited.
  rewrite (proj2 (Nat.ltb_ge _ _)) by lia. rewrite bool_decide_eq_false_2 by tauto. fold (name_of de). cbv zeta. fold p.
  rewrite (proj2 (Nat.ltb_ge _ _)) by lia. rewrite (proj2 (Z.eqb_neq _ _) Hinum), Hf.
  destruct (readstat_ev p st s st' des Hf Ha) as (fd & Hfd & Hr & Hev). eapply (ev_bind file_call); [exact Hev|].
  cbn [fst snd]. rewrite (proj2 (Z.ltb_ge fd 0)) by lia. apply mret_ev.
  eapply (ev_call file_call); [done|cbn [file_call set_open e_open]; by rewrite lookup_insert_eq|].
  replace (set_open _ _) with s by (unfold set_open; simpl; rewrite delete_insert_id by done; by destruct s).
  rewrite (strcmp_eq _ _ (name_no_nul de) Hfn). rewrite lines_app, <-add_out_app.
  set (here := ((st_type st' =? T_FILE) || (st_type st' =? T_DIR)) && bool_decide (name_of de = filename)).
  set (s1 := add_out (lines (if here then [p] else [])) s).
  apply (ev_bind file_call _ _ _ _ _ 0 s1).
  { unfold s1. destruct here; [apply display_ev|]. unfold lines. simpl. rewrite add_out_nil. apply (ev_ret file_call). }
  rewrite !(strcmp_eq _ _ (name_no_nul de)) by (vm_compute; set_solver).
  rewrite <-andb_assoc, <-negb_orb. fold (dots (name_of de)).
  apply (ev_bind file_call _ _ _ _ _ 0 (add_out (lines (if (st_type st' =? T_DIR) && negb (dots (name_of de)) then w p else [])) s1));
    [|apply (ev_ret file_call)].
  destruct (Z.eqb_spec (st_type st') T_DIR) as [Ety|]; cbn [andb].
  - destruct (dots (name_of de)) eqn:Ed; cbn [negb].
    + unfold lines. simpl. rewrite add_out_nil. apply (ev_ret file_call).
    + by apply Hag.
  - unfold lines. simpl. rewrite add_out_nil. apply (ev_ret file_call).
Qed.

Lemma loop_ev w filename again dir fd o rest : forall off s st,
  e_open s = <[fd := (dir, off)]> o -> drop off (content dir) = concat rest ->
  Forall (fun de => length de = 16%nat) rest ->
  (forall de st s1 off, de ∈ rest -> de_inum de <> 0 -> e_open s1 = <[fd := (dir, off)]> o ->
     exists st', ev _ (visit filename display_file again dir de st) s1 (Returned st')
       (add_out (lines (visited w filename dir de)) s1)) ->
  exists off', ev _ (loop_with (find_entry filename display_file again dir fd) st) s (Returned tt)
    (add_out (lines (concat (visited w filename dir <$> rest))) (set_open (<[fd := (dir, off')]> o) s)).
Proof using EV.
  induction rest as [|de rest IH]; intros off s st Ho Hc Hl Hv; unfold loop_with in *.
  - exists off. eapply (ev_iter file_call).
    + eapply (ev_call file_call); [done|cbn [file_call]; by rewrite Ho, lookup_insert_eq, Hc|].
      apply (ev_ret file_call).
    + split; [done|]. cbn [fmap list_fmap concat]. unfold lines. simpl. rewrite add_out_nil, Nat.add_0_r.
      by rewrite insert_insert_eq.
  - inversion Hl as [|? ? Hde Hl']; subst. cbn [concat] in Hc.
    assert (Hr : take (Z.to_nat sizeof_dirent) (drop off (content dir)) = de).
    { rewrite Hc. change (Z.to_nat sizeof_dirent) with 16%nat. by rewrite take_app_length'. }
    set (s1 := set_open (<[fd := (dir, (off + 16)%nat)]> o) s).
    assert (Hread : file_call _ (Read fd sizeof_dirent) s = Some ((sizeof_dirent, de), s1)).
    { cbn [file_call]. rewrite Ho, lookup_insert_eq, Hr, Hde, insert_insert_eq. done. }
    assert (Hc1 : drop (off + 16) (content dir) = concat rest) by (rewrite <-drop_drop, Hc, drop_app_length'; done).
    assert (Hv1 : forall de0 st s1 off, de0 ∈ rest -> de_inum de0 <> 0 -> e_open s1 = <[fd := (dir, off)]> o ->
      exists st', ev _ (visit filename display_file again dir de0 st) s1 (Returned st')
        (add_out (lines (visited w filename dir de0)) s1)).
    { intros de0 st0 s0 off0 Hin. apply Hv, elem_of_cons. by right. }
    assert (Hstep : exists st', ev _ (find_entry filename display_file again dir fd st) s (Returned (inl st'))
      (add_out (lines (visited w filename dir de)) s1)).
    { unfold find_entry. unfold visited. destruct (Z.eqb_spec (de_inum de) 0) as [E0|Hn].
      - exists st. eapply (ev_call file_call); [done|exact Hread|]. cbn [fst snd]. rewrite Z.eqb_refl. cbn [negb].
        rewrite (proj2 (Z.eqb_eq _ _) E0). unfold lines. simpl. rewrite add_out_nil. apply (ev_ret file_call).
      - destruct (Hv de st s1 (off + 16)%nat) as [st' Hst']; [apply elem_of_cons; by left|done|done|].
        exists st'. eapply (ev_call file_call); [done|exact Hread|]. cbn [fst snd]. rewrite Z.eqb_refl. cbn [negb].
        rewrite (proj2 (Z.eqb_neq _ _) Hn). unfold visited in Hst'. rewrite (proj2 (Z.eqb_neq _ _) Hn) in Hst'.
        eapply (ev_bind file_call); [exact Hst'|]. apply (ev_ret file_call). }
    destruct Hstep as [st' Hstep].
    destruct (IH (off + 16)%nat (add_out (lines (visited w filename dir de)) s1) st' eq_refl Hc1 Hl' Hv1) as [off' Hoff].
    exists off'. eapply (ev_iter file_call); [exact Hstep|]. cbn [fmap list_fmap concat]. rewrite lines_app, <-add_out_app.
    exact Hoff.
Qed.
End ev.

(** ** The recursion *)

Lemma find_run st0 filename d : forall dir s, chr 0 ∉ filename -> tree d dir -> (d < avail (e_open s))%nat ->
  evalr file_call (find_body st0 filename display_file) (find_body st0 filename display_file dir) s (Returned 0)
    (add_out (lines (walk d filename dir)) s).
Proof using.
  induction d as [|d IH]; intros dir s Hfn Ht Ha; [done|].
  destruct Ht as (st & des & Hf & Hty & Hlen & Hdir & Hde). unfold find_body at 2, find_dir.
  set (ev := @evalr _ file_call _ _ (find_body st0 filename display_file)).
  destruct (readstat_ev (ev := ev) dir st0 s st des Hf ltac:(lia)) as (fd & Hfd & Hr & Hev).
  eapply (ev_bind file_call); [exact Hev|]. cbn [fst snd]. rewrite (proj2 (Z.ltb_ge fd 0)) by lia.
  rewrite Hty, Z.eqb_refl. cbn [negb].
  destruct (loop_ev (ev := ev) (walk d filename) filename (fun p => ITree.trigger (inl1 (Call p))) dir fd (e_open s) des
    0%nat (set_open (<[fd := (dir, 0%nat)]> (e_open s)) s) st) as [off Hloop]; [done| |done| |].
  - unfold content. by rewrite Hf.
  - intros de st1 s1 off Hin Hn Ho. destruct (Hde de Hin Hn) as (Hnul & Hpl & st' & sub & Hp & Hsub). exists st'.
    pose proof (avail_open (e_open s) fd (dir, off) Hfd Hr) as Hav.
    apply (visit_ev _ _ _ _ _ _ _ st' sub); [done|done|done|done|done|done|rewrite Ho; lia|].
    intros Ety Ed s2 Hs2. eapply evalr_rec; [reflexivity| |by apply evalr_ret]. apply IH; [done|by apply Hsub|].
    rewrite Hs2, Ho. lia.
  - eapply (ev_bind file_call); [exact Hloop|].
    eapply (ev_call file_call); [done|cbn [file_call add_out set_open e_open]; by rewrite lookup_insert_eq|].
    cbn [walk]. rewrite Hf. unfold set_open, add_out. cbn [e_open e_out]. rewrite delete_insert_id by done.
    apply (ev_ret file_call).
Qed.
End files.

(** C36: on a tree of directories [find dir name] stops with status 0 and prints
    the path of every file and directory called [name] below [dir], whatever
    the order of the entries, and nothing else, and it leaves no descriptor open.
    Every level of the tree needs one of the sixteen descriptors, and one more is
    needed to look at an entry. *)
Theorem find_prints files st0 garbage prog dir filename d s :
  chr 0 ∉ filename -> tree files d dir -> (d < avail (e_open s))%nat ->
  exists ps, eval (file_call files) (find_main st0 garbage [prog; dir; filename]) s (Exited 0) (add_out (lines ps) s) /\
    forall p, p ∈ ps <-> found files filename dir p.
Proof.
  intros Hfn Ht Ha. exists (walk files d filename dir). split; [|intros p; by apply walk_found].
  unfold find_main. cbn [length Z.of_nat]. change (Z.of_nat 3) with 3. cbn [Z.eqb Z.leb negb andb Pos.eqb].
  change (3 <? 5) with true. change (5 <=? 3) with false. cbn [andb].
  eapply eval_bind; [apply eval_rec, find_run; done|]. by exists 1%nat.
Qed.

Module Tree.
(** [.] holds the file [x] and the directory [d], which holds another [x]. *)
Definition entry (inum : Z) (name : string) : list byte :=
  wr16 (replicate 2 (chr 0)) 0 inum ++ bytes_of name ++ replicate (14 - String.length name) (chr 0).
Definition status (type : Z) : stat := {| st_dev := 1; st_ino := 1; st_type := type; st_nlink := 1; st_size := 0 |}.

Definition files (p : list byte) : option (stat * list (list byte)) :=
  if decide (p = bytes_of ".") then Some (status T_DIR, [entry 1 "."; entry 1 ".."; entry 2 "d"; entry 0 "old"; entry 3 "x"])
  else if decide (p = bytes_of "./d") then Some (status T_DIR, [entry 2 "."; entry 1 ".."; entry 4 "x"])
  else if decide (p = bytes_of "./.") then Some (status T_DIR, [])
  else if decide (p = bytes_of "./..") then Some (status T_DIR, [])
  else if decide (p = bytes_of "./d/.") then Some (status T_DIR, [])
  else if decide (p = bytes_of "./d/..") then Some (status T_DIR, [])
  else if decide (p = bytes_of "./x") then Some (status T_FILE, [])
  else if decide (p = bytes_of "./d/x") then Some (status T_FILE, [])
  else None.

Definition start : fenv := {| e_open := {[0 := ([], 0%nat); 1 := ([], 0%nat); 2 := ([], 0%nat)]}; e_out := [] |}.
End Tree.

Lemma find_prints_witness :
  exists ps, eval (file_call Tree.files) (find_main no_stat [] [bytes_of "find"; bytes_of "."; bytes_of "x"]) Tree.start (Exited 0)
    (add_out (lines ps) Tree.start) /\
    forall p, p ∈ ps <-> found Tree.files (bytes_of "x") (bytes_of ".") p.
Proof.
  apply (find_prints Tree.files no_stat [] (bytes_of "find") (bytes_of ".") (bytes_of "x") 2 Tree.start).
  - vm_compute. set_solver.
  - apply tree_check_ok. vm_compute. reflexivity.
  - vm_compute. lia.
Defined.
