(* ===== verification/Machine.v ===== *)
(** * Machine: user programs on the kernel

    The parts put together: mkfs makes a disk, the kernel is started on it with
    one process, and the programs of the other files run in processes, each
    system call through [syscall] with its arguments in the trapframe and in
    user memory.  A process runs until it sleeps, forks or exits; a process
    that sleeps runs again after the wakeup of its channel.  [verdict] is how a
    program ends, and the theorem is about the tests of user/usertests.c. *)

From ITree Require Import Core.ITreeDefinition Interp.Recursion Indexed.Sum Core.Subevent.
From S2P Require Import Mkfs Printf Tools User UserSem TestLib UsertestsFs UsertestsProc UsertestsMem Usertests.
From S2P Require Import Prelude Riscv CString Kalloc Vm Sleeplock Layout Bio Log Pipe Kernel Fs Proc Console File Process Syscall.

(** ** The machine *)

(** The kernel's image leaves 26 pages free. *)
Definition NPAGES : Z := 26.
Definition page (i : Z) : Z := PHYSTOP - (NPAGES - i) * PGSIZE.

#[local] Instance machine_layout : KernelLayout.
Proof. refine {| kend := page 0; etext := KERNBASE + 8 * PGSIZE; trampoline := KERNBASE + 7 * PGSIZE |}; vm_compute; done. Defined.
#[local] Instance machine_text : KernelText :=
  {| forkret_addr := KERNBASE + 0x100; usertrap_addr := KERNBASE + 0x200; kernelvec_addr := KERNBASE + 0x300; uservec_off := 0; userret_off := 0x9a |}.

Local Abbreviation K := (kernel bcache).

(** The disk that mkfs makes of three files. *)
Definition image : Z -> block :=
  match Mkfs.main [(bytes_of "README", [bytes_of "xv6 is a re-implementation"]); (bytes_of "echo", [bytes_of "x"]); (bytes_of "init", [bytes_of "x"])] with
  | Some m => m_disk m
  | None => fun _ => []
  end.

(** The free list that [kinit] leaves. *)
Fixpoint chained (l : list Z) (m : mem) : mem :=
  match l with
  | p :: (q :: _) as l' => chained l' (store64 m p q)
  | [p] => store64 m p 0
  | [] => m
  end.

Definition no_buf : buf :=
  {| b_valid := 0; b_dev := 0; b_blockno := 0; b_lock := {| sk_locked := 0; sk_pid := 0 |}; b_refcnt := 0; b_prev := 0; b_next := 0; b_data := [] |}.
Definition no_inode : inode :=
  {| i_dev := 0; i_inum := 0; i_ref := 0; i_lock := initsleeplock; i_valid := 0; i_type := 0; i_major := 0; i_minor := 0; i_nlink := 0; i_size := 0; i_addrs := fun _ => 0 |}.
Definition no_file : file :=
  {| f_type := FD_NONE; f_ref := 0; f_readable := false; f_writable := false; f_pipe := 0; f_ip := 0; f_off := 0; f_major := 0 |}.
Definition no_process : proc :=
  {| p_state := UNUSED; p_chan := None; p_killed := 0; p_xstate := 0; p_pid := 0; p_parent := None; p_kstack := 0; p_sz := 0; p_pagetable := 0; p_trapframe := 0;
     p_ra := 0; p_sp := 0; p_ofile := fun _ => None; p_cwd := None; p_name := [] |}.

(** The kernel before it has done anything but fill the free list; init is
    another process than the one made here. *)
Definition power_on : K :=
  {| ks_mem := {| k_mem := chained (page <$> seqZ 0 NPAGES) ∅; k_freelist := page 0 |};
     ks_log := {| lg_cache := {| bc_buf := fun _ => no_buf; bc_disk := image; bc_writes := [] |};
                  lg_start := 0; lg_outstanding := 0; lg_committing := 0; lg_dev := 0; lg_n := 0; lg_block := fun _ => 0 |};
     ks_sb := Mkfs.sb; ks_inode := fun _ => no_inode; ks_file := fun _ => no_file;
     ks_pipe := fun _ => {| pi_data := fun _ => chr 0; pi_nread := 0; pi_nwrite := 0; pi_readopen := 0; pi_writeopen := 0 |};
     ks_proc := fun _ => no_process; ks_nextpid := 2; ks_initproc := Some 63; ks_ticks := 0;
     ks_cons := {| c_buf := fun _ => chr 0; c_r := 0; c_w := 0; c_e := 0 |}; ks_uart := {| u_tx_busy := 0; u_sent := [] |} |}.

Definition thread (p pid : Z) : tctx := {| t_held := []; t_proc := p; t_pid := pid; t_patience := 100; t_trace := [] |}.

(** A process with a page of text and five of data, the disk and the root
    directory, from the functions of the kernel. *)
Definition start : M K unit :=
  lz (cz binit);;
  iinit;;
  p ← allocproc;
  match p with
  | None => panic "start"
  | Some p =>
      e ← proc_of p;
      sz ← mz (uvmalloc (p_pagetable e) 0 PGSIZE PTE_X);
      sz ← mz (uvmalloc (p_pagetable e) sz (6 * PGSIZE) PTE_W);
      set_procs p (fun e => set_p_state RUNNING (set_p_sz sz e));;
      release (proc_lock p);;
      fsinit ROOTDEV;;
      ip ← namei (bytes_of "/");
      set_procs p (set_p_cwd ip)
  end.

(** ** System calls *)

(** ecall with the arguments in the registers of the trapframe. *)
Fixpoint set_args (i : Z) (args : list Z) : M K unit :=
  match args with
  | [] => mret tt
  | a :: args => tf_set (tf_a i) a;; set_args (i + 1) args
  end.
Definition ecall (num : Z) (args : list Z) : M K Z :=
  set_args 0 args;;
  tf_set (tf_a 7) num;;
  syscall;;
  tf_get (tf_a 0).
Definition ecall_int (num : Z) (args : list Z) : M K Z := r ← ecall num args; mret (i32 r).

(** Accesses of the program to its own memory, a page fault included. *)
Definition poke (va : Z) (b : list byte) : M K Z :=
  p ← myproc;
  mz (copyout (uproc_of p) (p_pagetable p) va b (Z.of_nat (length b))).
Definition peek (va n : Z) : M K (Z * list byte) :=
  p ← myproc;
  mz (copyin (uproc_of p) (p_pagetable p) va n).

(** Where the program has its strings, the array for [exec] and its buffer. *)
Definition STR : Z := PGSIZE.
Definition STR2 : Z := PGSIZE + 1024.
Definition ARGV : Z := PGSIZE + 2048.
Definition BUF : Z := 2 * PGSIZE.

Definition put_string (va : Z) (s : list byte) : M K Z := poke va (s ++ [chr 0]);; mret va.
Definition put_ptr (va : Z) (p : ptr) : M K Z := match p with Str s => put_string va s | At a => mret a end.

(** The strings of argv[] one after the other, and the array of their addresses. *)
Fixpoint put_argv (va slot : Z) (argv : list ptr) : M K unit :=
  match argv with
  | [] => poke slot (LittleEndianList.le_split 8 0);; mret tt
  | a :: argv =>
      p ← put_ptr va a;
      poke slot (LittleEndianList.le_split 8 p);;
      put_argv (match a with Str s => va + Z.of_nat (length s) + 1 | At _ => va end) (slot + 8) argv
  end.

Definition int_at (b : list byte) (o : nat) : Z := i32 (LittleEndianList.le_combine (take 4 (drop o b))).

Definition sys_path (num : Z) (p : list byte) (args : list Z) : M K Z := a ← put_string STR p; ecall_int num (a :: args).
Definition sys_exec_ (path : ptr) (argv : list ptr) : M K Z :=
  put_argv BUF ARGV argv;;
  a ← put_ptr STR path;
  ecall_int 7 [a; ARGV].

(** The calls that return to their caller at once or after a sleep. *)
Definition sys {R} (e : sysE R) : M K (option R) :=
  match e in sysE R return M K (option R) with
  | Wait => r ← ecall_int 3 [BUF]; b ← peek BUF 4; mret (Some (r, int_at b.2 0))
  | User.Pipe => r ← ecall_int 4 [BUF]; b ← peek BUF 8; mret (Some (r, (int_at b.2 0, int_at b.2 4)))
  | Write fd b => poke BUF b;; r ← ecall_int 16 [fd; BUF; Z.of_nat (length b)]; mret (Some r)
  | Read fd n => r ← ecall_int 5 [fd; BUF; n]; b ← (if 0 <? r then peek BUF r else mret (0, [])); mret (Some (r, b.2))
  | Close fd => r ← ecall_int 21 [fd]; mret (Some r)
  | Kill pid => r ← ecall_int 6 [pid]; mret (Some r)
  | Exec path argv => r ← sys_exec_ (Str path) (Str <$> argv); mret (if r =? -1 then Some r else None)
  | Open path mode => r ← sys_path 15 path [mode]; mret (Some r)
  | Mknod path major minor => r ← sys_path 17 path [major; minor]; mret (Some r)
  | Unlink path => r ← sys_path 18 path []; mret (Some r)
  | Link old new => b ← put_string STR2 new; r ← sys_path 19 old [b]; mret (Some r)
  | Mkdir path => r ← sys_path 20 path []; mret (Some r)
  | Chdir path => r ← sys_path 9 path []; mret (Some r)
  | Dup fd => r ← ecall_int 10 [fd]; mret (Some r)
  | Pause n => r ← ecall_int 13 [n]; mret (Some r)
  | Fstat fd =>
      r ← ecall_int 8 [fd; BUF];
      b ← peek BUF 24;
      mret (Some (r, {| st_dev := int_at b.2 0; st_ino := int_at b.2 4; st_type := int_at b.2 8 mod 2 ^ 16; st_nlink := int_at b.2 10 mod 2 ^ 16;
                        st_size := LittleEndianList.le_combine (take 8 (drop 16 b.2)) |}))
  | _ => mret None
  end.

(** The same for the events of the test programs; a fault kills the program. *)
Inductive answer (R : Type) := Answer (r : R) | Fault | Unknown.
Arguments Answer {R} r.
Arguments Fault {R}.
Arguments Unknown {R}.

Definition memop {R} (e : memE R) : M K (answer R) :=
  match e in memE R return M K (answer R) with
  | Sbrk n how => r ← ecall 12 [n; how]; mret (Answer r)
  | Load w a => r ← peek a (Z.of_nat w); mret (if r.1 =? 0 then Answer (LittleEndianList.le_combine r.2) else Fault)
  | Store w a v => r ← poke a (LittleEndianList.le_split w v); mret (if r =? 0 then Answer tt else Fault)
  | WriteAt fd a n => r ← ecall_int 16 [fd; a; n]; mret (Answer r)
  | ReadAt fd a n => r ← ecall_int 5 [fd; a; n]; mret (Answer r)
  | OpenAt p mode => a ← put_ptr STR p; r ← ecall_int 15 [a; mode]; mret (Answer r)
  | UnlinkAt p => a ← put_ptr STR p; r ← ecall_int 18 [a]; mret (Answer r)
  | LinkAt old new => a ← put_ptr STR old; b ← put_ptr STR2 new; r ← ecall_int 19 [a; b]; mret (Answer r)
  | ExecAt path argv => r ← sys_exec_ path argv; mret (if r =? -1 then Answer r else Unknown)
  | PipeAt a => r ← ecall_int 4 [a]; mret (Answer r)
  | Getpid => r ← ecall_int 11 []; mret (Answer r)
  | Malloc _ | Free _ | Sp => mret Unknown
  end.

(** ** Processes *)

Abbreviation prog := (itree (sysE +' memE) unit).

(** Why a process stops running: it forked, or made a call that has no
    meaning here.  One that exits is asleep for ever. *)
Inductive stop := Forked (pid : Z) (k : Z -> prog) | Lost.

Fixpoint exec (n : nat) (t : prog) : M K stop :=
  match n with
  | O => fuel_out
  | S n =>
      match observe t with
      | RetF _ => kexit 0
      | TauF t => exec n t
      | VisF (inl1 e) k =>
          match e in sysE R return (R -> prog) -> M K stop with
          | Fork => fun k => pid ← ecall_int 1 []; mret (Forked pid k)
          | Exit c => fun _ => ecall 2 [c];; mret Lost
          | e => fun k => r ← sys e; match r with Some r => exec n (k r) | None => mret Lost end
          end k
      | VisF (inr1 e) k =>
          r ← memop e;
          match r with
          | Answer r => exec n (k r)
          | Fault => kexit (-1)
          | Unknown => mret Lost
          end
      end
  end.

(** A process that can run, or that waits for a wakeup. *)
Record task := { tk_ctx : tctx; tk_go : tctx -> K -> outcome K stop; tk_chan : option chan }.

Inductive verdict := Ended (status : Z) | Panicked (msg : string) | Hung.

#[local] Instance event_eq_dec : EqDecision event.
Proof. solve_decision. Defined.

Definition woken (evs : list event) (tk : task) : task :=
  match tk_chan tk with
  | Some c => if bool_decide (EWake c ∈ evs) then {| tk_ctx := tk_ctx tk; tk_go := tk_go tk; tk_chan := None |} else tk
  | None => tk
  end.
Definition quieted (t : tctx) : tctx :=
  {| t_held := t_held t; t_proc := t_proc t; t_pid := t_pid t; t_patience := t_patience t; t_trace := [] |}.

(** The entry with this pid. *)
Fixpoint entry_of (k : K) (pid i : Z) (n : nat) : Z :=
  match n with
  | O => i
  | S n => if p_pid (ks_proc k i) =? pid then i else entry_of k pid (i + 1) n
  end.

(** The first process that can run, and the others. *)
Fixpoint pick (l : list task) : option (task * list task) :=
  match l with
  | [] => None
  | tk :: l =>
      match tk_chan tk with
      | None => Some (tk, l)
      | Some _ => match pick l with Some (r, l) => Some (r, tk :: l) | None => None end
      end
  end.

Definition spawn (p pid : Z) (t : prog) : task := {| tk_ctx := thread p pid; tk_go := exec (Z.to_nat 20000) t; tk_chan := None |}.

(** Until all have exited; when all sleep the clock ticks. *)
Fixpoint schedule (n : nat) (l : list task) (k : K) : verdict :=
  match n with
  | O => Hung
  | S n =>
      match pick l with
      | None =>
          match l with
          | [] => Ended (p_xstate (ks_proc k 0))
          | _ =>
              if existsb (fun tk => bool_decide (tk_chan tk = Some ticks_chan)) l
              then schedule n (woken [EWake ticks_chan] <$> l) (set_ks_ticks (u32 (ks_ticks k + 1)) k)
              else Hung
          end
      | Some (tk, l) =>
          match tk_go tk (tk_ctx tk) k with
          | Done (Forked pid f) t k =>
              let parent := {| tk_ctx := quieted t; tk_go := exec (Z.to_nat 20000) (f pid); tk_chan := None |} in
              let l := woken (t_trace t) <$> l in
              schedule n (parent :: l ++ (if pid <? 0 then [] else [spawn (entry_of k pid 0 (Z.to_nat NPROC)) pid (f 0)])) k
          | Asleep c t k f =>
              let l := woken (t_trace t) <$> l in
              if decide (p_state (ks_proc k (t_proc t)) = ZOMBIE) then schedule n l k
              else schedule n (l ++ [{| tk_ctx := quieted t; tk_go := f; tk_chan := Some c |}]) k
          | Panic msg _ _ => Panicked msg
          | Done Lost _ _ | Starved _ _ _ | OutOfFuel => Hung
          end
      end
  end.

(** A program in the process 0 of the machine, once the kernel has started. *)
Definition run_in (o : outcome K unit) (t : prog) : verdict :=
  match o with
  | Done _ _ k => schedule (Z.to_nat 5000) [spawn 0 2 t] k
  | _ => Hung
  end.

Definition started : outcome K unit := start (thread 0 2) power_on.

(** The tests with these names in the table of user/usertests.c. *)
Definition named (names : list (list byte)) : list ((list byte -> prog) * list byte) := filter (fun t => t.2 ∈ names) (quicktests BUF).
Definition results (o : outcome K unit) (l : list ((list byte -> prog) * list byte)) : list (list byte * verdict) := (fun t => (t.2, run_in o (t.1 t.2))) <$> l.

Definition chosen : list (list byte) :=
  bytes_of <$> ["copyout"; "copyinstr1"; "copyinstr3"; "truncate1"; "opentest"; "dirtest"; "linktest"; "dirfile"; "forktest"; "argptest"; "pgbug"; "sbrk8000"]%string.

